(* ===== verification/_CoqProject ===== *)
-Q . S2P
Prelude.v
Handles.v
Bytes.v
Codec.v
AbiBlock.v
AbiFiles.v
AbiIdentity.v
AbiMessages.v
AbiReceipts.v
AbiAdmission.v
AbiServices.v
AbiRuntime.v
Ipc.v
IpcFacts.v
Bitmap.v
Boot.v
Frames.v
Heap.v
Elf.v
Lifecycle.v
Time.v
Block.v
BlockFacts.v
BlockDevice.v
Allocator.v
AllocatorFacts.v
AllocatorSpec.v
FsDisk.v
FsNode.v
FsRecovery.v
FsFormat.v
FsVolume.v
FsPublication.v
FsCrash.v
FsPublish.v
FsTree.v
FsInvariant.v
FsReach.v
FsCalls.v
FsSpec.v
FsHistory.v
FsClaims.v
SvcClients.v
SvcServer.v
SvcPublish.v
SvcDispatch.v
SvcClientsFacts.v
SvcReplies.v
SvcEffect.v
SvcControl.v
SvcServe.v
SvcHandle.v
SvcCommit.v
SvcAdmit.v
SvcSession.v
SvcAuthority.v
SvcSchedule.v
SvcClaims.v
Interact.v
SdkFiles.v
SdkRange.v
SdkPromise.v
SdkService.v
SdkClaims.v
TaskDocument.v
TaskPlan.v
TaskWire.v
TaskIntent.v
TaskClient.v
TaskJournal.v
TaskApp.v
TaskProtocol.v
TaskFlow.v
TaskClaims.v
