(* ===== verification/Prelude.v ===== *)
(** * RusticOS: a verification library

    RusticOS is a small capability operating system: a kernel (handle tables,
    IPC, block access, memory, processes, time), a shared ABI crate whose records
    cross every boundary, a crash-safe volume format with its mounted file
    system, a file service over it, an application SDK and a few applications.
    This library models the parts that hold state or parse untrusted bytes, from
    the Rust sources under src/, and proves what makes them correct.

    ** Conventions

    Unsigned machine integers are [Z] kept within their width; where the source
    can wrap (the allocator's [usize] sums) the wrap-around is written out, where
    it uses [checked_*] the model returns [None].  Byte arrays are lists of
    integers in [0, 256).  A call that can fail returns [outcome E A]: [Ok],
    [Err] or [Panic], and [Panic] stands for every [unwrap], [expect], [assert!]
    and index out of range of the source; the theorems show it is not reached.
    Stateful calls take and return their state; [let?] is the operator [?].
    Code outside src/ is not modelled; devices enter through the [Disk] and
    [PollDisk] classes (the source's traits) with the laws [DiskLaws] and
    [PollLaws] their documentation states, and the disk [Platter], with a write
    cache and a schedule of torn, delayed and failing commands, is an instance.

    ** Files

    Shared: [Prelude] (results, widths, slots of arrays, positions), [Bytes]
    (little-endian words, slices, in-place writes and the automation of the
    codecs), [Codec] (the class of canonical wire codecs), [Bitmap] (sets of pages
    in 64-bit words).

    Kernel.
    - [Handles]: kernel/src/handles/table.rs, the owner-bound token table.
    - [Ipc], [IpcFacts]: kernel/src/ipc (messages, queues, channels, broker).
    - [Boot]: kernel/src/boot/region.rs, map.rs, mode.rs.
    - [Frames]: kernel/src/memory/frames.rs, page.rs.
    - [Heap]: kernel/src/process/heap.rs; [Elf]: process/elf.rs;
      [Lifecycle]: process/lifecycle.rs.
    - [Time]: kernel/src/time (deadlines and the wait set).
    - [Block], [BlockFacts], [BlockDevice]: kernel/src/block (sector contract,
      access broker, request budget, queue layout, diagnostic hold).

    Shared ABI (crates/abi/src).
    - [AbiBlock]: block/; [AbiFiles]: files.rs (the packet); [AbiIdentity]: the
      identities and their text; [AbiMessages], [AbiReceipts]: references,
      recovery, replacements, lookups and receipts of both profiles;
      [AbiAdmission]: admission and lifecycle messages; [AbiServices]: reads,
      capabilities, negotiation; [AbiRuntime]: control words, memory calls and the application manifest.

    SDK.
    - [Allocator], [AllocatorFacts], [AllocatorSpec]: crates/sdk/src/memory
      (region.rs and allocator.rs).
    - [Interact]: programs over calls that a world answers, with their weakest
      preconditions, their runs and the prefixes of their runs.
    - [SdkFiles]: crates/sdk/src/files (transport.rs, client.rs, metadata.rs,
      paths.rs, staging.rs, operations.rs, recovery.rs, references.rs and
      discovery.rs) with error.rs; [SdkRange]: files/range.
    - [SdkPromise]: every method over any peer: the requests it sends, and
      results that fit the question; pollable reads; [SdkService]: the client against the service of [SvcDispatch] over a lossy
      transport; [SdkClaims]: the guarantees, with a client and a service.

    Tasks (crates/tasks-contract, crates/tasks-client and apps/tasks).
    - [TaskDocument]: document.rs; [TaskWire]: preview.rs, candidate.rs, wire.rs;
      [TaskPlan]: apps/tasks/src/edit; [TaskApp]: apps/tasks/src snapshot.rs,
      read.rs, preview.rs, session.rs.
    - [TaskIntent]: tasks-client/src/intent.rs; [TaskClient]: candidate.rs,
      error.rs, record.rs, outcome.rs; [TaskJournal]: journal.rs, mutation.rs,
      owner.rs, transport.rs, client.rs.
    - [TaskProtocol]: what every run of the journal obeys, call by call;
      [TaskFlow]: the owner's calls carried out by the SDK's client, and plans
      from the document to the submission; [TaskClaims]: the
      guarantees, with a document, a client and a file service.

    Volume, formats 1 to 5 (crates/fs/src).
    - [FsDisk]: lib.rs, checksum.rs, storage.rs, storage/poll.rs,
      publication/command.rs, and crates/file-service/src/disk.rs.
    - [FsNode]: namespace.rs.  [FsRecovery]: recovery/ and admission/ records
      and their seven-sector area.
    - [FsFormat]: format.rs and format/publication.rs, and the banks.
    - [FsVolume]: volume.rs, references.rs, read.rs, provision.rs, the
      metadata mutations and the format transitions.
    - [FsPublication]: publication/writer.rs, mutations.rs and the recorded and
      admitted operations of recovery/ and admission/.
    - [FsCrash], [FsPublish]: what survives a stop at each command.
    - [FsTree], [FsInvariant]: what validation accepts, and that every operation
      publishes metadata it accepts.
    - [FsReach], [FsCalls]: soundness of every call, mount, initialise.
    - [FsSpec]: the abstract file system (object ids to kind, place, version and
      bytes) and the refinements; [FsHistory]: histories, retried
      requests, interleaved publication steps; [FsClaims]: the
      guarantees, on any lawful disk, with their witnesses on a [Platter].

    File service over formats 1 to 5 (crates/file-service/src).
    - [SvcClients]: calls over a state with errors, and their weakest
      preconditions, partial and total; authority.rs, transfer.rs, clients.rs, the
      callers of admission/, validation.rs and reply.rs; [SvcServer]: grants.rs and
      the requests over the volume (read, recovery, operations, admissions,
      capabilities, negotiation).
    - [SvcPublish]: admission/scope.rs, active.rs, observation.rs, control.rs and
      every publication under an owner's control; [SvcDispatch]:
      admission/scheduling and dispatch.rs.
    - [SvcClientsFacts], [SvcAuthority]: the client tables under any calls.
    - [SvcReplies]: every reply is a valid packet.  [SvcEffect]: what clients may
      see of a change.  [SvcControl], [SvcServe]: publications, volume calls and
      requests, each with the effect it may have.
    - [SvcHandle]: what an owner's callback may do to the clients, and handle on
      objects.  [SvcCommit], [SvcAdmit], [SvcSession]: commits, admissions, the
      whole of handle, and handle on the requests of a logical replacement.
      [SvcSchedule]: the queue and its runs.
    - [SvcClaims]: the guarantees, with a service on a [Platter].

    ** What the theorems show

    - Refinement: the handle table implements a finite map from tokens to
      bindings; the IPC broker a network of bounded mailboxes; the frame
      allocator two sets; the heap window a set of pages; the process table a
      graph of states; create, remove and replace an abstract file system,
      atomically with respect to a stop of the machine; a replacement of the SDK's
      client, through the service and over a lossy transport, the installation of
      the caller's bytes, at most once; a planned edit the edit of a task list.
    - Invariants and safety: tokens and process numbers are not reused; brokers
      reachable by any calls are well formed; a request reaches the device only
      within a grant; the user heap stays tiled by its blocks; an accepted ELF
      image has disjoint, bounded, never writable-and-executable segments; a
      volume stays sound under any calls and device faults, and what a stop
      leaves mounts; versions identify contents; settled admissions are final;
      what a client of the file service sees changes only by a request of its
      caller, within the caller's live grant; revoked families stay revoked and
      derived grants attenuate; the execution queue keeps its line; an edit is
      submitted at most once, only when its recovery record was read back, and
      recovery submits nothing; a finished range read has the announced digest.
    - Functional behaviour on every branch, errors included: the contracts
      [*_contract] and [*_meets], reads, validation of the namespace (equivalent
      to a well-formed forest), the scope check, the memory map; a logical commit
      publishes the bytes its client staged, chunk by chunk.
    - Round trips: every wire record decodes exactly its canonical encoding;
      identities and their text; metadata banks; task documents, messages and
      recovery records; a plan collected in chunks is accepted exactly when the
      whole plan is.
    - Termination and liveness: owner teardown, polling within a request budget,
      publication runs; every service request is answered; the scheduler is fair.
    - Errors: a refused service request changed nothing; a commit whose answer is
      lost is [Uncertain]; one range of allocation sizes breaks the user heap (a
      finding).

    ** Bounds and fuel

    Loops over arrays recurse on the array.  [close_owner_loop] runs on fuel one
    more than the number of occupied slots, and each turn empties one.  The
    allocator's walks use [walk_fuel], one more than the number of headers the
    region can hold, and its gap loop [gap_fuel], enough for gaps below a header
    in steps of the alignment; the contracts of [AllocatorSpec] show that neither
    runs out on a tiled heap.  [Publication_run] uses the largest number of
    commands one publication has; [FsCalls] shows that every run ends.  A loop of
    the service that polls a publication takes at most 17 turns on a disk that
    never answers Pending, and [HANDLE_FUEL] is 20; on other disks the number of
    turns is the device's choice, so the theorems hold for every fuel and promise
    an answer on prompt disks.  The listing loop visits each object once.
    A document's rows are parsed with one turn per byte and one more, since each
    turn takes a line feed; an id has ten digits, so [digit_loop] has eleven
    turns; a chunk carries at least one byte, so [collect_loop] has one turn more
    than the largest range and [CHUNK_FUEL] one more than the largest document;
    [path_loop] makes the 32 turns of the source.  The polls of a supervisor job
    end with its deadline, so their number is an argument and the theorems hold
    for each: a run that exhausts it panics in the model, and no guarantee but
    that of a failed run is stated of it.

    ** Not modelled

    Formats 6 and 7 of the volume and the half of the file service over format 7,
    and the supervisor.  Of the SDK: the state machine of rpc/ below the
    exchanges, the client's admission, workspace, selection and negotiation
    calls, and the bindings of raw system calls.  Of the tasks crates: the
    failure cuts of the acceptance feature.  SHA-256 is a parameter
    ([Digest]: any function to 32 bytes).  The callbacks of the service are
    parameters too: they get the clients and, as the source documents, may only
    revoke, detach and expire grants and serve requests of the queue.  The
    kernel's hardware layer (page tables, interrupts, ports, virtio registers)
    and its system-call glue act on raw memory and the processor; the shell, the
    probes, the host tools and the build runner are programs around the modelled
    parts.
*)
From stdpp Require Import base list option numbers gmap.
From Stdlib Require Import ZArith Lia Bool.

#[global] Open Scope Z_scope.

(** ** Results of Rust code

    [Ok] and [Err] are the two constructors of [Result]; [Panic] is what the
    source reaches through [unwrap], [expect], [assert!] or an index out of
    range.  Theorems about a component show that [Panic] is not reached. *)
Inductive outcome (E A : Type) : Type :=
| Ok (a : A)
| Err (e : E)
| Panic.
Arguments Ok {E A} a.
Arguments Err {E A} e.
Arguments Panic {E A}.

Declare Scope rust_scope.
Delimit Scope rust_scope with rust.
Open Scope rust_scope.

(** The [?] operator on a pure call. *)
Notation "'let?' x ':=' m 'in' k" :=
  (match m with Ok x => k | Err e => Err e | Panic => Panic end)
  (at level 10, x pattern, m at level 100, k at level 200) : rust_scope.

(** [Option::ok_or]. *)
Definition ok_or {E A} (o : option A) (e : E) : outcome E A :=
  match o with Some a => Ok a | None => Err e end.

Definition map_err {E F A} (f : E -> F) (r : outcome E A) : outcome F A :=
  match r with Ok a => Ok a | Err e => Err (f e) | Panic => Panic end.

Definition is_ok {E A} (r : outcome E A) : bool :=
  match r with Ok _ => true | _ => false end.

(** Passes the calls and tests of a run [H] that ends well. *)
Ltac steps H :=
  repeat lazymatch type of H with
  | match ?c with _ => _ end = Ok _ => let E := fresh "E" in destruct c eqn:E; try discriminate H
  | ok_or ?o _ = Ok _ => let E := fresh "E" in destruct o eqn:E; cbn [ok_or] in H; try discriminate H
  end.

Lemma ok_or_Ok {A E} (o : option A) (e : E) a : ok_or o e = Ok a <-> o = Some a.
Proof. destruct o; cbn; split; congruence. Qed.

(** ** Machine integers: unsigned values are kept in [Z] within their width. *)
Definition u8_max : Z := 2 ^ 8 - 1.
Definition u16_max : Z := 2 ^ 16 - 1.
Definition u32_max : Z := 2 ^ 32 - 1.
Definition u64_max : Z := 2 ^ 64 - 1.

Definition fits (w x : Z) : Prop := 0 <= x < 2 ^ w.
#[global] Instance fits_dec w x : Decision (fits w x).
Proof. unfold fits. apply _. Defined.

(** [!x] on a [w]-bit unsigned integer. *)
Definition unot (w x : Z) : Z := Z.lxor x (Z.ones w).

(** [u64::checked_add], [u64::saturating_add], [u64::saturating_sub]. *)
Definition checked_add (a b : Z) : option Z :=
  if a + b <=? u64_max then Some (a + b) else None.
Definition saturating_add (a b : Z) : Z := Z.min (a + b) u64_max.
Definition saturating_sub (a b : Z) : Z := Z.max (a - b) 0.
Definition div_ceil (a b : Z) : Z := (a + b - 1) / b.

(** [is_power_of_two]. *)
Definition is_power_of_two (n : Z) : bool := negb (n =? 0) && (Z.land n (n - 1) =? 0).

Lemma is_power_of_two_spec n : 0 <= n -> is_power_of_two n = true <-> exists k, 0 <= k /\ n = 2 ^ k.
Proof.
  intros Hn. unfold is_power_of_two. rewrite andb_true_iff, negb_true_iff, Z.eqb_neq, Z.eqb_eq. split.
  - intros [Hz Hland]. exists (Z.log2 n). split; [apply Z.log2_nonneg|].
    pose proof (Z.log2_spec n ltac:(lia)) as [Hlo Hhi].
    destruct (Z.eq_dec n (2 ^ Z.log2 n)) as [|Hne]; [done|exfalso].
    assert (Hl : Z.log2 (n - 1) = Z.log2 n) by (apply Z.log2_unique; [apply Z.log2_nonneg|lia]).
    assert (H : Z.testbit (Z.land n (n - 1)) (Z.log2 n) = true).
    { rewrite Z.land_spec, Z.bit_log2, <- Hl by lia. simpl. pose proof (Z.pow_pos_nonneg 2 (Z.log2 n) ltac:(lia) (Z.log2_nonneg n)).
      apply Z.bit_log2. lia. }
    by rewrite Hland, Z.bits_0 in H.
  - intros (k & Hk & ->). pose proof (Z.pow_pos_nonneg 2 k ltac:(lia) Hk). split; [lia|].
    replace (2 ^ k - 1) with (Z.ones k) by (rewrite Z.ones_equiv; lia). rewrite Z.land_ones by lia.
    apply Z.mod_same. lia.
Qed.

Lemma checked_add_Some a b c :
  checked_add a b = Some c <-> c = a + b /\ a + b <= u64_max.
Proof.
  unfold checked_add. destruct (Z.leb_spec (a + b) u64_max); split; intros H1;
    try (injection H1 as <-); intuition (try congruence; lia).
Qed.

Lemma checked_add_None a b : checked_add a b = None <-> u64_max < a + b.
Proof. unfold checked_add. destruct (Z.leb_spec (a + b) u64_max); split; intros; congruence || lia. Qed.

(** ** Arrays of optional slots

    [[Option<T>; N]] is a [list (option T)] of length [N]; [position] is
    [Iterator::position]; [count] counts the occupied slots that satisfy a
    test, which is what [.iter().flatten().filter(..).count()] computes. *)
Fixpoint position {A} (p : A -> bool) (l : list A) : option nat :=
  match l with
  | [] => None
  | x :: l => if p x then Some 0%nat else S <$> position p l
  end.

Definition is_none {A} (o : option A) : bool := match o with None => true | Some _ => false end.
Definition is_some_and {A} (p : A -> bool) (o : option A) : bool :=
  match o with Some a => p a | None => false end.

Definition slots {A} (l : list (option A)) : list A := omap id l.
Definition count {A} (p : A -> bool) (l : list (option A)) : nat :=
  length (filter (fun a => p a = true) (slots l)).

Lemma position_Some {A} (p : A -> bool) l i :
  position p l = Some i <->
  (exists x, l !! i = Some x /\ p x = true) /\
  (forall j y, (j < i)%nat -> l !! j = Some y -> p y = false).
Proof.
  revert i. induction l as [|x l IH]; intros i; simpl.
  { split; [done|]. intros [(y & Hy & _) _]. by rewrite lookup_nil in Hy. }
  destruct (p x) eqn:E.
  - split.
    + intros [= <-]. split; [by exists x|]. intros j y ?. lia.
    + intros [(y & Hy & Hp) Hlt]. destruct i as [|i]; [done|].
      specialize (Hlt 0%nat x ltac:(lia) eq_refl). congruence.
  - destruct i as [|i].
    + split; [intros H; by destruct (position p l)|].
      intros [(y & [= <-] & Hp) _]. congruence.
    + split.
      * intros H. apply fmap_Some in H as (k & Hk & [= ->]).
        apply IH in Hk as [Hx Hlt]. split; [done|].
        intros [|j] y ? Hj; simpl in Hj; [by simplify_eq|]. apply (Hlt j); [lia|done].
      * intros [Hx Hlt]. assert (Hp : position p l = Some i); [|by rewrite Hp].
        apply IH. split; [done|]. intros j y ? Hj. apply (Hlt (S j)); [lia|done].
Qed.

Lemma position_None {A} (p : A -> bool) l :
  position p l = None <-> (forall i x, l !! i = Some x -> p x = false).
Proof.
  induction l as [|x l IH]; simpl.
  { split; [|done]. intros _ i x Hx. by rewrite lookup_nil in Hx. }
  destruct (p x) eqn:E.
  - split; [done|]. intros H. specialize (H 0%nat x eq_refl). congruence.
  - rewrite fmap_None, IH. split.
    + intros H [|i] y Hy; simpl in Hy; [by simplify_eq|by eapply H].
    + intros H i y Hy. by apply (H (S i)).
Qed.

Lemma position_lt {A} (p : A -> bool) l i : position p l = Some i -> (i < length l)%nat.
Proof. intros [(x & Hx & _) _]%position_Some. by eapply lookup_lt_Some. Qed.

Lemma existsb_false {A} (p : A -> bool) l : existsb p l = false <-> forall x, x ∈ l -> p x = false.
Proof.
  induction l as [|x l IH]; cbn [existsb]; [split; [by intros _ x ?%not_elem_of_nil|done]|]. rewrite orb_false_iff, IH. split.
  - intros [Hx H] y [-> | Hy]%elem_of_cons; [done|by apply H].
  - intros H. split; [apply H; left|intros y Hy; apply H; by right].
Qed.

Lemma elem_of_slots {A} (a : A) l : a ∈ slots l <-> exists i, l !! i = Some (Some a).
Proof.
  unfold slots. rewrite list_elem_of_omap. split.
  - intros (o & Ho & Ho'). unfold id in Ho'. subst o. by apply list_elem_of_lookup in Ho.
  - intros [i Hi]. exists (Some a). split; [by apply list_elem_of_lookup; exists i|done].
Qed.

Lemma find_slot {A} (p : A -> bool) (l : list (option A)) x : List.find p (slots l) = Some x -> p x = true /\ exists i, l !! i = Some (Some x).
Proof. intros [Hi Hp]%List.find_some. split; [done|]. by apply list_elem_of_In, elem_of_slots in Hi. Qed.

Section Counting.
Context {A : Type} (p : A -> bool).
Implicit Types l : list (option A).

Definition weight (o : option A) : nat := if is_some_and p o then 1%nat else 0%nat.

Lemma count_cons o l : count p (o :: l) = (weight o + count p l)%nat.
Proof.
  unfold count, weight, slots. destruct o as [a|]; simpl; [|done].
  rewrite filter_cons. destruct (decide (p a = true)) as [E|E]; simpl.
  - by rewrite E.
  - by apply not_true_is_false in E as ->.
Qed.

Lemma count_insert l i o o' :
  l !! i = Some o ->
  (count p (<[i := o']> l) + weight o = count p l + weight o')%nat.
Proof.
  revert i. induction l as [|x l IH]; intros i; [by rewrite lookup_nil|].
  destruct i as [|i]; simpl.
  - intros [= ->]. rewrite !count_cons. lia.
  - intros Hi. rewrite !count_cons. specialize (IH i Hi). lia.
Qed.

Lemma count_replicate_None n : count p (replicate n None) = 0%nat.
Proof. induction n as [|n IH]; [done|]. simpl. rewrite count_cons. simpl. by rewrite IH. Qed.

Lemma count_zero l : count p l = 0%nat <-> (forall i a, l !! i = Some (Some a) -> p a = false).
Proof.
  induction l as [|o l IH].
  { split; [|done]. intros _ i a Hi. by rewrite lookup_nil in Hi. }
  rewrite count_cons. split.
  - intros H [|i] a Hi; simpl in Hi.
    + simplify_eq. unfold weight in H. simpl in H. destruct (p a); [lia|done].
    + eapply IH; [lia|done].
  - intros H. assert (Hl : count p l = 0%nat) by (apply IH; intros i a; apply (H (S i))).
    rewrite Hl. unfold weight. destruct o as [a|]; simpl; [|done].
    by rewrite (H 0%nat a eq_refl).
Qed.

Lemma count_le_length l : (count p l <= length l)%nat.
Proof.
  induction l as [|o l IH]; [by cbv|]. rewrite count_cons. simpl.
  unfold weight. destruct (is_some_and p o); lia.
Qed.
End Counting.

(** ** Bit masks *)
Lemma unot_land_zero w r a :
  0 <= w -> fits w r -> Z.land r (unot w a) = 0 <-> Z.land r a = r.
Proof.
  intros Hw Hr. unfold unot.
  assert (Hspec : forall i, 0 <= i -> Z.testbit r i = true -> i < w).
  { intros i Hi Hb. destruct (Z.lt_ge_cases i w) as [|Hge]; [done|].
    rewrite <- (Z.mod_small r (2 ^ w)) in Hb by done.
    by rewrite Z.mod_pow2_bits_high in Hb by lia. }
  split; intros H; apply Z.bits_inj'; intros i Hi.
  - apply (f_equal (fun z => Z.testbit z i)) in H.
    rewrite Z.land_spec, Z.lxor_spec, Z.bits_0 in H.
    rewrite Z.land_spec. destruct (Z.testbit r i) eqn:E; [|done].
    rewrite Z.ones_spec_low in H by (split; [done|by apply Hspec]).
    by destruct (Z.testbit a i).
  - apply (f_equal (fun z => Z.testbit z i)) in H.
    rewrite Z.land_spec in H. rewrite Z.land_spec, Z.lxor_spec, Z.bits_0.
    destruct (Z.testbit r i) eqn:E; [|done].
    rewrite Z.ones_spec_low by (split; [done|by apply Hspec]).
    simpl in H. by rewrite H.
Qed.

(** Masks with disjoint bits: [domain | next] is addition. *)
Lemma lor_shiftl_add d n w :
  0 <= w -> fits w n -> Z.lor (Z.shiftl d w) n = Z.shiftl d w + n.
Proof.
  intros Hw Hn. rewrite <- Z.lxor_lor, <- Z.add_nocarry_lxor; [done| |];
  apply Z.bits_inj'; intros i Hi; rewrite Z.land_spec, Z.bits_0, Z.shiftl_spec by done;
  destruct (Z.lt_ge_cases i w) as [|Hge]; try (by rewrite Z.testbit_neg_r by lia);
  rewrite <- (Z.mod_small n (2 ^ w)) by done;
  rewrite Z.mod_pow2_bits_high by lia; apply andb_false_r.
Qed.
