(* ===== verification/Handles.v ===== *)
(** * Handle tables (kernel/src/handles)

    The owner-bound token table shared by the IPC and block brokers.  A token
    is [domain | sequence number]; an entry binds it to its owner, an object
    and a rights mask.  The abstract view of a table is a finite map from
    tokens to their binding; every operation refines an operation on it. *)
From stdpp Require Import base list option numbers gmap.
From Stdlib Require Import ZArith Lia Bool.
From S2P Require Import Prelude.

(** [handles::Error]. *)
Inductive HandleError := Handle | Denied | Quota.
#[global] Instance HandleError_eq_dec : EqDecision HandleError.
Proof. solve_decision. Defined.

Record Entry (T : Type) := mkEntry { e_id : Z; e_owner : Z; e_object : T; e_rights : Z }.
Arguments mkEntry {T}. Arguments e_id {T}. Arguments e_owner {T}.
Arguments e_object {T}. Arguments e_rights {T}.

Record Table (T : Type) := mkTable {
  t_entries : list (option (Entry T));
  t_next : Z;
  t_domain : Z;
  t_allowed : Z;
  t_transfer_right : Z;
}.
Arguments mkTable {T}. Arguments t_entries {T}. Arguments t_next {T}.
Arguments t_domain {T}. Arguments t_allowed {T}. Arguments t_transfer_right {T}.

Section Operations.
(** The two const generics of the source. *)
Context {T : Type} (CAPACITY PER_OWNER : nat).
Implicit Types t : Table T.

Definition Table_new (dom all transfer : Z) : Table T :=
  mkTable (replicate CAPACITY None) 1 (Z.shiftl dom 56) all transfer.

Definition Table_room (t : Table T) (who : Z) : bool :=
  Nat.ltb (count (fun e => e_owner e =? who) (t_entries t)) PER_OWNER.

Definition Table_index (t : Table T) (who token : Z) : outcome HandleError nat :=
  ok_or (position (is_some_and (fun e => (e_id e =? token) && (e_owner e =? who))) (t_entries t)) Handle.

(** [self.entries[i].unwrap()]. *)
Definition entry_at (t : Table T) (i : nat) : outcome HandleError (Entry T) :=
  match t_entries t !! i with Some (Some e) => Ok e | _ => Panic end.

(** [self.next.checked_add(1).filter(|next| *next < (1 << 56))]. *)
Definition next_token (n : Z) : option Z :=
  match checked_add n 1 with
  | Some m => if m <? Z.shiftl 1 56 then Some m else None
  | None => None
  end.

Definition set_entries (t : Table T) es : Table T :=
  mkTable es (t_next t) (t_domain t) (t_allowed t) (t_transfer_right t).

Definition Table_grant (t : Table T) (who : Z) (obj : T) (r : Z) : outcome HandleError Z * Table T :=
  if (r =? 0) || negb (Z.land r (unot 8 (t_allowed t)) =? 0) then (Err Denied, t)
  else if negb (Table_room t who) then (Err Quota, t)
  else match position is_none (t_entries t) with
  | None => (Err Quota, t)
  | Some slot =>
    match next_token (t_next t) with
    | None => (Err Quota, t)
    | Some n =>
      let token := Z.lor (t_domain t) (t_next t) in
      (Ok token,
       mkTable (<[slot := Some (mkEntry token who obj r)]> (t_entries t)) n
               (t_domain t) (t_allowed t) (t_transfer_right t))
    end
  end.

Definition Table_resolve (t : Table T) (who token right : Z) : outcome HandleError T :=
  let? i := Table_index t who token in
  let? e := entry_at t i in
  if negb (Z.land (e_rights e) right =? right) then Err Denied else Ok (e_object e).

Definition Table_remove (t : Table T) (who token : Z) : outcome HandleError T * Table T :=
  match Table_index t who token with
  | Ok slot =>
    match entry_at t slot with
    | Ok e => (Ok (e_object e), set_entries t (<[slot := None]> (t_entries t)))
    | Err e => (Err e, t)
    | Panic => (Panic, t)
    end
  | Err e => (Err e, t)
  | Panic => (Panic, t)
  end.

Definition Table_transfer (t : Table T) (who token target r : Z) : outcome HandleError Z * Table T :=
  match Table_index t who token with
  | Ok slot =>
    match entry_at t slot with
    | Ok old =>
      if (t_transfer_right t =? 0) || (Z.land (e_rights old) (t_transfer_right t) =? 0)
         || (r =? 0) || negb (Z.land r (unot 8 (e_rights old)) =? 0)
      then (Err Denied, t)
      else if negb (target =? who) && negb (Table_room t target) then (Err Quota, t)
      else match next_token (t_next t) with
      | None => (Err Quota, t)
      | Some n =>
        (Ok (Z.lor (t_domain t) (n - 1)),
         mkTable (<[slot := Some (mkEntry (Z.lor (t_domain t) (t_next t)) target (e_object old) r)]>
                    (t_entries t)) n (t_domain t) (t_allowed t) (t_transfer_right t))
      end
    | Err e => (Err e, t)
    | Panic => (Panic, t)
    end
  | Err e => (Err e, t)
  | Panic => (Panic, t)
  end.

Definition Table_first (t : Table T) (who : Z) : option Z :=
  e_id <$> List.find (fun e => e_owner e =? who) (slots (t_entries t)).

Definition Table_count (t : Table T) : nat := length (slots (t_entries t)).

Definition Table_max_owner_count (t : Table T) : nat :=
  foldr Nat.max 0%nat
    (map (fun e => count (fun other => e_owner other =? e_owner e) (t_entries t)) (slots (t_entries t))).

(** ** Well-formed tables *)
Record entry_ok (t : Table T) (e : Entry T) : Prop := {
  entry_token : exists k, 1 <= k < t_next t /\ e_id e = Z.lor (t_domain t) k;
  entry_rights : fits 8 (e_rights e) /\ e_rights e <> 0 /\ Z.land (e_rights e) (t_allowed t) = e_rights e;
}.

Record Table_wf (t : Table T) : Prop := {
  wf_length : length (t_entries t) = CAPACITY;
  wf_next : 1 <= t_next t < 2 ^ 56;
  wf_domain : exists d, fits 8 d /\ t_domain t = Z.shiftl d 56;
  wf_entries : forall i e, t_entries t !! i = Some (Some e) -> entry_ok t e;
  wf_unique : forall i j e f,
    t_entries t !! i = Some (Some e) -> t_entries t !! j = Some (Some f) -> e_id e = e_id f -> i = j;
  wf_quota : forall who, Nat.le (count (fun e => e_owner e =? who) (t_entries t)) PER_OWNER;
}.

End Operations.

(** The abstract state: token |-> (owner, object, e_rights). *)
Abbreviation binding T := (Z * T * Z)%type.
Definition entry_binding {T} (e : Entry T) : Z * binding T := (e_id e, (e_owner e, e_object e, e_rights e)).
Definition view {T} (t : Table T) : gmap Z (binding T) :=
  list_to_map (entry_binding <$> slots (t_entries t)).

(** ** Generic facts *)
Lemma slots_keys_NoDup {A} (g : A -> Z) (l : list (option A)) :
  (forall i j e f, l !! i = Some (Some e) -> l !! j = Some (Some f) -> g e = g f -> i = j) ->
  NoDup (g <$> slots l).
Proof.
  induction l as [|o l IH]; intros H; [by constructor|].
  assert (IH' : NoDup (g <$> slots l)).
  { apply IH. intros i j e f Hi Hj Hg. specialize (H (S i) (S j) e f Hi Hj Hg). lia. }
  destruct o as [a|]; [|done]. simpl. constructor; [|done].
  intros (f & Hg & Hf)%list_elem_of_fmap.
  apply elem_of_slots in Hf as [j Hj].
  by specialize (H 0%nat (S j) a f eq_refl Hj Hg).
Qed.

Lemma next_token_Some n m : next_token n = Some m <-> m = n + 1 /\ n + 1 < 2 ^ 56.
Proof.
  unfold next_token. change (Z.shiftl 1 56) with (2 ^ 56).
  destruct (checked_add n 1) as [k|] eqn:E.
  - apply checked_add_Some in E as [-> ?]. destruct (Z.ltb_spec (n + 1) (2 ^ 56));
      split; intros H'; try (injection H' as <-); intuition (congruence || lia).
  - apply checked_add_None in E. split; [done|]. unfold u64_max in E. lia.
Qed.

(** Case analysis for a lookup after one slot was replaced. *)
Ltac slot_update_cases i slot Hi Hb :=
  (split; [|exact Hb]); unfold entry_binding in Hb;
  destruct (decide (i = slot)) as [->|?];
  [rewrite ?list_lookup_insert_eq in Hi by done
  |rewrite ?list_lookup_insert_ne in Hi by done; rewrite ?list_lookup_insert_ne by done];
  simplify_eq; done.

Section Laws.
Context {T : Type} {CAPACITY PER_OWNER : nat}.
Implicit Types (t : Table T) (e : Entry T) (b : binding T).
Local Abbreviation wf := (Table_wf CAPACITY PER_OWNER).

Lemma view_lookup t token b :
  wf t ->
  view t !! token = Some b <->
  exists i e, t_entries t !! i = Some (Some e) /\ entry_binding e = (token, b).
Proof.
  intros Hwf. unfold view. rewrite <- elem_of_list_to_map.
  - rewrite list_elem_of_fmap. setoid_rewrite elem_of_slots. split.
    + intros (e & Hb & i & Hi). by exists i, e.
    + intros (i & e & Hi & Hb). exists e. eauto.
  - rewrite <- list_fmap_compose. apply (slots_keys_NoDup e_id). apply (wf_unique _ _ _ Hwf).
Qed.

Lemma index_Ok t who token i :
  wf t ->
  Table_index t who token = Ok i <->
  exists e, t_entries t !! i = Some (Some e) /\ e_id e = token /\ e_owner e = who.
Proof.
  intros Hwf. unfold Table_index, ok_or. split.
  - destruct (position _ _) eqn:E; intros [= <-].
    apply position_Some in E as [(o & Ho & Hp) _]. destruct o as [e|]; [|done].
    exists e. simpl in Hp. apply andb_true_iff in Hp as [?%Z.eqb_eq ?%Z.eqb_eq]. done.
  - intros (e & Hi & Hid & Hown).
    destruct (position _ _) as [j|] eqn:E.
    + apply position_Some in E as [(o & Ho & Hp) _]. destruct o as [f|]; [|done].
      simpl in Hp. apply andb_true_iff in Hp as [?%Z.eqb_eq ?%Z.eqb_eq].
      f_equal. eapply (wf_unique _ _ _ Hwf); [done|done|congruence].
    + apply (position_None _ _) with (i := i) (x := Some e) in E; [|done].
      simpl in E. apply andb_false_iff in E as [?%Z.eqb_neq|?%Z.eqb_neq]; congruence.
Qed.

(** Resolving an index never panics: it names an occupied slot or fails. *)
Lemma index_cases t who token :
  wf t ->
  (exists i e, Table_index t who token = Ok i /\ entry_at t i = Ok e /\
     t_entries t !! i = Some (Some e) /\ e_id e = token /\ e_owner e = who /\
     view t !! token = Some (who, e_object e, e_rights e)) \/
  (Table_index t who token = Err Handle /\
     forall obj r, view t !! token <> Some (who, obj, r)).
Proof.
  intros Hwf. destruct (Table_index t who token) as [i|err|] eqn:E.
  - left. apply index_Ok in E as (e & Hi & Hid & Hown); [|done].
    exists i, e. unfold entry_at. rewrite Hi. repeat split; [done..|].
    apply view_lookup; [done|]. exists i, e. unfold entry_binding. naive_solver.
  - right. assert (err = Handle) as ->.
    { unfold Table_index, ok_or in E. destruct (position _ _); congruence. }
    split; [done|]. intros obj r Hv. apply view_lookup in Hv as (i & e & Hi & Hb); [|done].
    unfold entry_binding in Hb. injection Hb as Hid Hown _ _.
    assert (Table_index t who token = Ok i) by (apply index_Ok; eauto). congruence.
  - unfold Table_index, ok_or in E. destruct (position _ _); congruence.
Qed.

(** Replacing one slot by a freshly numbered entry keeps the invariant. *)
Lemma put_wf t slot o e' n :
  wf t ->
  t_entries t !! slot = Some o ->
  next_token (t_next t) = Some n ->
  e_id e' = Z.lor (t_domain t) (t_next t) ->
  fits 8 (e_rights e') -> e_rights e' <> 0 ->
  Z.land (e_rights e') (t_allowed t) = e_rights e' ->
  Nat.lt (count (fun e => e_owner e =? e_owner e') (t_entries t))
         (PER_OWNER + weight (fun e => e_owner e =? e_owner e') o) ->
  wf (mkTable (<[slot := Some e']> (t_entries t)) n (t_domain t) (t_allowed t) (t_transfer_right t)).
Proof.
  intros Hwf Hslot Hn Hid Hfit Hnz Hsub Hq. apply next_token_Some in Hn as [-> Hn].
  pose proof (wf_next _ _ _ Hwf) as Hnx.
  destruct (wf_domain _ _ _ Hwf) as (d & Hd & Hdom).
  assert (Hfresh : forall i e, t_entries t !! i = Some (Some e) -> e_id e <> e_id e').
  { intros i e Hi. destruct (entry_token _ _ (wf_entries _ _ _ Hwf i e Hi)) as (k & Hk & ->).
    rewrite Hid, Hdom, !lor_shiftl_add by (unfold fits; lia). lia. }
  split; simpl.
  - rewrite length_insert. apply Hwf.
  - lia.
  - eauto.
  - intros i e Hi. destruct (decide (i = slot)) as [->|Hne].
    + rewrite list_lookup_insert_eq in Hi by (by eapply lookup_lt_Some).
      injection Hi as <-. split; simpl; [|done]. exists (t_next t). split; [lia|done].
    + rewrite list_lookup_insert_ne in Hi by done.
      destruct (wf_entries _ _ _ Hwf i e Hi) as [(k & Hk & Hke) Hr].
      split; simpl; [|done]. exists k. split; [lia|done].
  - intros i j e f Hi Hj Heq.
    destruct (decide (i = slot)) as [->|Hni], (decide (j = slot)) as [->|Hnj]; [done| | |].
    + rewrite list_lookup_insert_eq in Hi by (by eapply lookup_lt_Some).
      rewrite list_lookup_insert_ne in Hj by done. injection Hi as <-.
      by destruct (Hfresh j f Hj).
    + rewrite list_lookup_insert_ne in Hi by done.
      rewrite list_lookup_insert_eq in Hj by (by eapply lookup_lt_Some). injection Hj as <-.
      by destruct (Hfresh i e Hi).
    + rewrite list_lookup_insert_ne in Hi, Hj by done. by eapply (wf_unique _ _ _ Hwf).
  - intros who. pose proof (count_insert (fun e => e_owner e =? who) _ _ _ (Some e') Hslot) as Hc.
    pose proof (wf_quota _ _ _ Hwf who) as Hw.
    unfold weight at 2 in Hc. simpl in Hc.
    destruct (Z.eqb_spec (e_owner e') who) as [E|E]; [rewrite E in Hq|]; lia.
Qed.

Lemma clear_wf t slot :
  wf t -> wf (set_entries t (<[slot := None]> (t_entries t))).
Proof.
  intros Hwf.
  assert (Hlk : forall i e, <[slot := None]> (t_entries t) !! i = Some (Some e) ->
                            t_entries t !! i = Some (Some e)).
  { intros i e. destruct (decide (i = slot)) as [->|Hne].
    - destruct (decide (slot < length (t_entries t))%nat).
      + by rewrite list_lookup_insert_eq by done.
      + by rewrite list_insert_ge by lia.
    - by rewrite list_lookup_insert_ne by done. }
  split; simpl.
  - rewrite length_insert. apply Hwf.
  - apply Hwf.
  - apply Hwf.
  - intros i e Hi%Hlk. destruct (wf_entries _ _ _ Hwf i e Hi) as [Ht Hr]. by split.
  - intros i j e f Hi%Hlk Hj%Hlk. by apply (wf_unique _ _ _ Hwf).
  - intros who. pose proof (wf_quota _ _ _ Hwf who) as Hw.
    destruct (t_entries t !! slot) as [o|] eqn:E.
    + pose proof (count_insert (fun e => e_owner e =? who) _ _ _ None E) as Hc.
      unfold weight at 2 in Hc. simpl in Hc. lia.
    + rewrite list_insert_ge by (by apply lookup_ge_None). done.
Qed.

(** How a slot update changes the view. *)
Lemma view_put t slot o e' t' :
  wf t -> wf t' ->
  t_entries t !! slot = Some o ->
  t_entries t' = <[slot := Some e']> (t_entries t) ->
  (forall i e, t_entries t !! i = Some (Some e) -> e_id e <> e_id e') ->
  view t' = <[e_id e' := (e_owner e', e_object e', e_rights e')]>
              (match o with Some e => delete (e_id e) (view t) | None => view t end).
Proof.
  intros Hwf Hwf' Hslot Hent Hfresh. apply map_eq. intros token.
  apply option_eq. intros b. rewrite view_lookup by done. rewrite Hent.
  assert (Hlt : (slot < length (t_entries t))%nat) by (by eapply lookup_lt_Some).
  destruct (decide (token = e_id e')) as [->|Hne].
  - rewrite lookup_insert_eq. split.
    + intros (i & e & Hi & Hb). destruct (decide (i = slot)) as [->|Hni].
      * rewrite list_lookup_insert_eq in Hi by done. unfold entry_binding in Hb. simplify_eq; done.
      * rewrite list_lookup_insert_ne in Hi by done.
        unfold entry_binding in Hb. injection Hb as Hid _. by destruct (Hfresh i e Hi).
    + intros [= <-]. exists slot, e'. by rewrite list_lookup_insert_eq by done.
  - rewrite lookup_insert_ne by done. destruct o as [old|].
    + rewrite lookup_delete. case_decide as Hold.
      * split; [|done]. intros (i & e & Hi & Hb). destruct (decide (i = slot)) as [->|Hni].
        -- rewrite list_lookup_insert_eq in Hi by done. unfold entry_binding in Hb. simplify_eq; done.
        -- rewrite list_lookup_insert_ne in Hi by done. unfold entry_binding in Hb.
           injection Hb as Hid _. destruct Hni.
           eapply (wf_unique _ _ _ Hwf); [done|done|congruence].
      * rewrite view_lookup by done. split; intros (i & e & Hi & Hb); exists i, e;
          slot_update_cases i slot Hi Hb.
    + rewrite view_lookup by done. split; intros (i & e & Hi & Hb); exists i, e;
        slot_update_cases i slot Hi Hb.
Qed.

Lemma view_clear t slot e :
  wf t -> t_entries t !! slot = Some (Some e) ->
  view (set_entries t (<[slot := None]> (t_entries t))) = delete (e_id e) (view t).
Proof.
  intros Hwf Hslot. apply map_eq. intros token. apply option_eq. intros b.
  assert (Hlt : (slot < length (t_entries t))%nat) by (by eapply lookup_lt_Some).
  rewrite view_lookup by (by apply clear_wf). simpl. rewrite lookup_delete. case_decide as Ht.
  - split; [|done]. intros (i & f & Hi & Hb). destruct (decide (i = slot)) as [->|Hni].
    + by rewrite list_lookup_insert_eq in Hi by done.
    + rewrite list_lookup_insert_ne in Hi by done. unfold entry_binding in Hb.
      injection Hb as Hid _. destruct Hni. eapply (wf_unique _ _ _ Hwf); [done|done|congruence].
  - rewrite view_lookup by done. split; intros (i & f & Hi & Hb); exists i, f;
      slot_update_cases i slot Hi Hb.
Qed.
End Laws.

(** ** The operations refine the abstract map *)
Section Theorems.
Context {T : Type} {CAPACITY PER_OWNER : nat}.
Implicit Types (t : Table T) (b : binding T).
Local Abbreviation wf := (Table_wf CAPACITY PER_OWNER).

(** [token] was issued by [t] at some point of its life. *)
Definition issued (t : Table T) (token : Z) : Prop :=
  exists k, 1 <= k < t_next t /\ token = Z.lor (t_domain t) k.

Lemma view_issued t token b : wf t -> view t !! token = Some b -> issued t token.
Proof.
  intros Hwf Hv. destruct (proj1 (view_lookup t token b Hwf) Hv) as (i & e & Hi & Hb).
  injection Hb as <- _.
  destruct (entry_token _ _ (wf_entries _ _ _ Hwf i e Hi)) as (k & Hk & Hid). by exists k.
Qed.

Lemma fresh_token_not_issued t :
  wf t -> ~ issued t (Z.lor (t_domain t) (t_next t)).
Proof.
  intros Hwf (k & Hk & Heq). pose proof (wf_next _ _ _ Hwf).
  destruct (wf_domain _ _ _ Hwf) as (d & _ & Hd).
  rewrite Hd, !lor_shiftl_add in Heq by (unfold fits; lia). lia.
Qed.

Lemma fresh_token_ids t i e :
  wf t -> t_entries t !! i = Some (Some e) -> e_id e <> Z.lor (t_domain t) (t_next t).
Proof.
  intros Hwf Hi Heq. apply (fresh_token_not_issued t Hwf). rewrite <- Heq.
  destruct (entry_token _ _ (wf_entries _ _ _ Hwf i e Hi)) as (k & Hk & Hid). by exists k.
Qed.

Lemma wf_new dom all tr : fits 8 dom -> wf (Table_new (T := T) CAPACITY dom all tr).
Proof.
  intros Hd. split; simpl.
  - apply length_replicate.
  - lia.
  - eauto.
  - intros i e Hi. apply lookup_replicate in Hi as [? _]. done.
  - intros i j e f Hi. apply lookup_replicate in Hi as [? _]. done.
  - intros who. rewrite count_replicate_None. lia.
Qed.

Lemma view_new dom all tr : view (Table_new (T := T) CAPACITY dom all tr) = ∅.
Proof.
  unfold view, Table_new; simpl. unfold slots.
  assert (E : omap id (replicate CAPACITY (@None (Entry T))) = []); [|by rewrite E].
  induction CAPACITY as [|n IH]; [done|]. simpl. apply IH.
Qed.

(** The fields no operation changes. *)
Definition same_policy (t t' : Table T) : Prop :=
  t_domain t' = t_domain t /\ t_allowed t' = t_allowed t /\
  t_transfer_right t' = t_transfer_right t.

Definition grant_contract t who obj r (res : outcome HandleError Z * Table T) : Prop :=
  match res with
  | (Ok token, t') =>
      wf t' /\ view t !! token = None /\ view t' = <[token := (who, obj, r)]> (view t) /\
      token = Z.lor (t_domain t) (t_next t) /\ t_next t' = t_next t + 1 /\
      same_policy t t' /\
      r <> 0 /\ Z.land r (t_allowed t) = r
  | (Err Denied, t') => t' = t /\ (r = 0 \/ Z.land r (t_allowed t) <> r)
  | (Err Quota, t') =>
      t' = t /\
      ((count (fun e => Z.eqb (e_owner e) who) (t_entries t) = PER_OWNER)%nat \/
       (forall i o, t_entries t !! i = Some o -> o <> None) \/ t_next t = 2 ^ 56 - 1)
  | (Err Handle, _) | (Panic, _) => False
  end.

Lemma grant_meets_contract t who obj r :
  wf t -> fits 8 r -> grant_contract t who obj r (Table_grant PER_OWNER t who obj r).
Proof.
  intros Hwf Hr. unfold Table_grant, grant_contract.
  destruct (Z.eqb_spec r 0) as [->|Hnz]; simpl; [auto|].
  destruct (Z.eqb_spec (Z.land r (unot 8 (t_allowed t))) 0) as [Hs|Hs]; simpl;
    rewrite unot_land_zero in Hs by (done || lia); [|auto].
  unfold Table_room. pose proof (wf_quota _ _ _ Hwf who) as Hq.
  destruct (Nat.ltb_spec (count (fun e => e_owner e =? who) (t_entries t)) PER_OWNER) as [Hc|Hc];
    simpl; [|split; [done|left; lia]].
  destruct (position is_none (t_entries t)) as [slot|] eqn:Ep; simpl.
  2:{ split; [done|]. right; left. intros i o Hi ->.
      by apply (proj1 (position_None _ _) Ep) in Hi. }
  apply position_Some in Ep as [(o & Ho & Hnone) _]. destruct o as [e|]; [done|].
  destruct (next_token (t_next t)) as [n|] eqn:En; simpl.
  2:{ split; [done|]. right; right. pose proof (wf_next _ _ _ Hwf).
      destruct (decide (t_next t + 1 < 2 ^ 56)) as [Hlt|]; [|lia].
      assert (next_token (t_next t) = Some (t_next t + 1)) by (by apply next_token_Some).
      congruence. }
  set (e' := mkEntry (Z.lor (t_domain t) (t_next t)) who obj r).
  pose proof (put_wf t slot None e' n Hwf Ho En eq_refl Hr Hnz Hs) as Hwf'.
  specialize (Hwf' ltac:(simpl; lia)).
  split; [done|]. split; [|split; [|split; [done|split; [|done]]]].
  - destruct (view t !! _) eqn:E; [|done]. destruct (fresh_token_not_issued t Hwf).
    by eapply view_issued.
  - by rewrite (view_put t slot None e' _ Hwf Hwf' Ho eq_refl
                  (fun i e => fresh_token_ids t i e Hwf)).
  - by apply next_token_Some in En as [-> _].
Qed.

Lemma resolve_Ok_iff t who token right obj :
  wf t ->
  Table_resolve t who token right = Ok obj <->
  exists r, view t !! token = Some (who, obj, r) /\ Z.land r right = right.
Proof.
  intros Hwf. unfold Table_resolve.
  destruct (index_cases t who token Hwf) as [(i & e & -> & -> & _ & _ & _ & Hv)|[-> Hn]].
  - destruct (Z.eqb_spec (Z.land (e_rights e) right) right) as [Hr|Hr]; simpl.
    + split; [intros [= <-]; eauto|]. intros (r & Hv' & _). congruence.
    + split; [done|]. intros (r & Hv' & Hr'). congruence.
  - split; [done|]. intros (r & Hv & _). by destruct (Hn obj r).
Qed.

(** What [resolve] answers, on every branch. *)
Definition resolve_contract t who token right (res : outcome HandleError T) : Prop :=
  match res with
  | Ok obj => exists r, view t !! token = Some (who, obj, r) /\ Z.land r right = right
  | Err Handle => forall obj r, view t !! token <> Some (who, obj, r)
  | Err Denied => exists obj r, view t !! token = Some (who, obj, r) /\ Z.land r right <> right
  | Err Quota | Panic => False
  end.

Lemma resolve_meets_contract t who token right :
  wf t -> resolve_contract t who token right (Table_resolve t who token right).
Proof.
  intros Hwf. unfold Table_resolve, resolve_contract.
  destruct (index_cases t who token Hwf) as [(i & e & -> & -> & _ & _ & _ & Hv)|[-> Hn]]; simpl; [|done].
  destruct (Z.eqb_spec (Z.land (e_rights e) right) right); simpl; eauto.
Qed.

Lemma resolve_not_panic t who token right : wf t -> Table_resolve t who token right <> Panic.
Proof.
  intros Hwf. unfold Table_resolve.
  destruct (index_cases t who token Hwf) as [(i & e & -> & -> & _)|[-> _]]; [|done].
  by destruct (_ =? _).
Qed.

Definition remove_contract t who token (res : outcome HandleError T * Table T) : Prop :=
  match res with
  | (Ok obj, t') =>
      wf t' /\ view t' = delete token (view t) /\
      (exists r, view t !! token = Some (who, obj, r)) /\
      t_next t' = t_next t /\ same_policy t t'
  | (Err Handle, t') => t' = t /\ forall obj r, view t !! token <> Some (who, obj, r)
  | (Err _, _) | (Panic, _) => False
  end.

Lemma remove_meets_contract t who token :
  wf t -> remove_contract t who token (Table_remove t who token).
Proof.
  intros Hwf. unfold Table_remove, remove_contract.
  destruct (index_cases t who token Hwf)
    as [(i & e & -> & -> & Hi & <- & <- & Hv)|[-> Hn]]; simpl; [|by split].
  split; [by apply clear_wf|]. split; [by apply (view_clear t i e Hwf)|]. unfold same_policy. eauto 10.
Qed.

Definition transfer_contract t who token target r (res : outcome HandleError Z * Table T) : Prop :=
  match res with
  | (Ok token', t') =>
      exists obj r0,
      view t !! token = Some (who, obj, r0) /\ Z.land r r0 = r /\ r <> 0 /\
      Z.land r0 (t_transfer_right t) <> 0 /\ wf t' /\ view t !! token' = None /\
      view t' = <[token' := (target, obj, r)]> (delete token (view t)) /\
      token' = Z.lor (t_domain t) (t_next t) /\ t_next t' = t_next t + 1 /\
      same_policy t t'
  | (Err Handle, t') => t' = t /\ forall obj r', view t !! token <> Some (who, obj, r')
  | (Err Denied, t') =>
      t' = t /\
      exists obj r0, view t !! token = Some (who, obj, r0) /\
        (Z.land r0 (t_transfer_right t) = 0 \/ r = 0 \/ Z.land r r0 <> r)
  | (Err Quota, t') =>
      t' = t /\
      (exists obj r0, view t !! token = Some (who, obj, r0) /\ r <> 0 /\ Z.land r r0 = r /\
         Z.land r0 (t_transfer_right t) <> 0) /\
      ((target <> who /\
        count (fun e => Z.eqb (e_owner e) target) (t_entries t) = PER_OWNER) \/
       t_next t = 2 ^ 56 - 1)
  | (Panic, _) => False
  end.

Lemma next_token_None t : wf t -> next_token (t_next t) = None -> t_next t = 2 ^ 56 - 1.
Proof.
  intros Hwf En. pose proof (wf_next _ _ _ Hwf).
  destruct (decide (t_next t + 1 < 2 ^ 56)) as [Hlt|]; [|lia].
  assert (next_token (t_next t) = Some (t_next t + 1)) by (by apply next_token_Some).
  congruence.
Qed.

(** The new owner has room, or the token stays with an owner that had it. *)
Lemma transfer_room t i e target :
  wf t -> t_entries t !! i = Some (Some e) ->
  let full := negb (target =? e_owner e) && negb (Table_room PER_OWNER t target) in
  if full
  then target <> e_owner e /\ count (fun e' => Z.eqb (e_owner e') target) (t_entries t) = PER_OWNER
  else Nat.lt (count (fun e' => e_owner e' =? target) (t_entries t))
         (PER_OWNER + weight (fun e' => e_owner e' =? target) (Some e)).
Proof.
  intros Hwf Hi. unfold weight, Table_room; simpl. pose proof (wf_quota _ _ _ Hwf target) as Hq.
  destruct (Z.eqb_spec target (e_owner e)) as [->|Hne]; simpl; [rewrite Z.eqb_refl; lia|].
  destruct (Z.eqb_spec (e_owner e) target); [congruence|].
  destruct (Nat.ltb_spec (count (fun e' => e_owner e' =? target) (t_entries t)) PER_OWNER);
    simpl; [lia|]. split; [done|lia].
Qed.

Lemma transfer_meets_contract t who token target r :
  wf t -> fits 8 r ->
  transfer_contract t who token target r (Table_transfer PER_OWNER t who token target r).
Proof.
  intros Hwf Hr. unfold Table_transfer, transfer_contract.
  destruct (index_cases t who token Hwf)
    as [(i & e & -> & -> & Hi & <- & <- & Hv)|[-> Hn]]; simpl; [|by split].
  assert (Hden : forall o, (o = Err Denied) ->
            Z.land (e_rights e) (t_transfer_right t) = 0 \/ r = 0 \/ Z.land r (e_rights e) <> r ->
            transfer_contract t (e_owner e) (e_id e) target r (o, t)) by (intros o ->; simpl; eauto 10).
  unfold transfer_contract in Hden.
  destruct (Z.eqb_spec (t_transfer_right t) 0) as [Ht0|Htr]; simpl;
    [apply (Hden _ eq_refl); left; by rewrite Ht0, Z.land_0_r|].
  destruct (Z.eqb_spec (Z.land (e_rights e) (t_transfer_right t)) 0) as [|Het]; simpl;
    [apply (Hden _ eq_refl); auto|].
  destruct (Z.eqb_spec r 0) as [|Hnz]; simpl; [apply (Hden _ eq_refl); auto|].
  destruct (Z.eqb_spec (Z.land r (unot 8 (e_rights e))) 0) as [Hs|Hs]; simpl;
    rewrite unot_land_zero in Hs by (done || lia); [|apply (Hden _ eq_refl); auto].
  clear Hden. destruct (wf_entries _ _ _ Hwf i e Hi) as [_ (Hfit & _ & Hsub)].
  assert (Hsub' : Z.land r (t_allowed t) = r).
  { rewrite <- Hs, <- Z.land_assoc, Hsub. done. }
  pose proof (transfer_room t i e target Hwf Hi) as Hroom. cbv zeta in Hroom.
  destruct (negb (target =? e_owner e) && negb (Table_room PER_OWNER t target));
    [split; [done|]; split; [eauto 10|by left]|].
  destruct (next_token (t_next t)) as [n|] eqn:En;
    [|split; [done|]; split; [eauto 10|right; by apply next_token_None]].
  set (e' := mkEntry (Z.lor (t_domain t) (t_next t)) target (e_object e) r).
  pose proof (put_wf t i (Some e) e' n Hwf Hi En eq_refl Hr Hnz Hsub' Hroom) as Hwf'.
  pose proof (proj1 (next_token_Some _ _) En) as [Hn _].
  assert (Hid : Z.lor (t_domain t) (n - 1) = e_id e') by (simpl; f_equal; lia).
  exists (e_object e), (e_rights e). repeat (split; [done|]). split; [|split].
  - rewrite Hid. destruct (view t !! e_id e') eqn:E; [|done].
    destruct (fresh_token_not_issued t Hwf). by eapply view_issued.
  - rewrite Hid. by rewrite (view_put t i (Some e) e' _ Hwf Hwf' Hi eq_refl
                       (fun j f => fresh_token_ids t j f Hwf)).
  - by rewrite Hid.
Qed.

Lemma count_size t : wf t -> Table_count t = size (view t).
Proof.
  intros Hwf. unfold Table_count, view. rewrite map_size_list_to_map.
  - by rewrite length_fmap.
  - rewrite <- list_fmap_compose. apply (slots_keys_NoDup e_id). apply (wf_unique _ _ _ Hwf).
Qed.

Lemma first_Some t who token :
  wf t -> Table_first t who = Some token -> exists obj r, view t !! token = Some (who, obj, r).
Proof.
  intros Hwf. unfold Table_first. destruct (List.find _ _) as [e|] eqn:E; [|done].
  intros [= <-]. apply List.find_some in E as [Hin Hown%Z.eqb_eq].
  apply list_elem_of_In, elem_of_slots in Hin as [i Hi].
  exists (e_object e), (e_rights e). apply (view_lookup t _ _ Hwf).
  exists i, e. split; [done|]. unfold entry_binding. by rewrite Hown.
Qed.

Lemma first_None t who :
  wf t -> Table_first t who = None -> forall token obj r, view t !! token <> Some (who, obj, r).
Proof.
  intros Hwf. unfold Table_first. destruct (List.find _ _) as [e|] eqn:E; [done|].
  intros _ token obj r Hv. destruct (proj1 (view_lookup t token _ Hwf) Hv) as (i & e & Hi & Hb).
  injection Hb as _ Hown _ _. eapply List.find_none in E.
  - by apply Z.eqb_neq in E.
  - apply list_elem_of_In, elem_of_slots. eauto.
Qed.
End Theorems.

(** ** Histories of a table *)
Section Histories.
Context {T : Type} {CAPACITY PER_OWNER : nat}.
Implicit Types t : Table T.
Local Abbreviation wf := (Table_wf CAPACITY PER_OWNER).

Inductive table_step : Table T -> Table T -> Prop :=
| step_grant t who obj r : fits 8 r -> table_step t (Table_grant PER_OWNER t who obj r).2
| step_remove t who token : table_step t (Table_remove t who token).2
| step_transfer t who token target r :
    fits 8 r -> table_step t (Table_transfer PER_OWNER t who token target r).2.

(** What one step may do to an already issued token: keep it or end it. *)
Definition keeps_tokens t t' : Prop :=
  wf t' /\ (forall token, issued t token -> issued t' token) /\
  (forall token, issued t token ->
     view t' !! token = view t !! token \/ view t' !! token = None).

Lemma keeps_tokens_refl t : wf t -> keeps_tokens t t.
Proof. unfold keeps_tokens. auto. Qed.

Lemma issued_mono t t' token :
  t_domain t' = t_domain t -> t_next t <= t_next t' -> issued t token -> issued t' token.
Proof. intros Hd Hn (k & Hk & ->). exists k. rewrite Hd. split; [lia|done]. Qed.

Lemma issued_ne_fresh t token :
  wf t -> issued t token -> token <> Z.lor (t_domain t) (t_next t).
Proof. intros Hwf Hi ->. by apply (fresh_token_not_issued t Hwf). Qed.

Lemma step_keeps_tokens t t' : wf t -> table_step t t' -> keeps_tokens t t'.
Proof.
  intros Hwf Hstep. destruct Hstep as [t who obj r Hr|t who tok|t who tok target r Hr].
  - pose proof (grant_meets_contract t who obj r Hwf Hr) as Hc. revert Hc.
    destruct (Table_grant PER_OWNER t who obj r) as [[tk|[]|] t'];
      simpl; try done; try (intros [-> _]; by apply keeps_tokens_refl).
    intros (Hwf' & _ & Hv & Htk & Hn & [Hd _] & _). split; [done|]. split.
    + intros token. apply issued_mono; [done|lia].
    + intros token Hi. left. rewrite Hv, lookup_insert_ne; [done|]. rewrite Htk.
      apply not_eq_sym. by apply issued_ne_fresh.
  - pose proof (remove_meets_contract t who tok Hwf) as Hc. revert Hc.
    destruct (Table_remove t who tok) as [[tk|[]|] t'];
      simpl; try done; try (intros [-> _]; by apply keeps_tokens_refl).
    intros (Hwf' & Hv & _ & Hn & [Hd _]). split; [done|]. split.
    + intros token. apply issued_mono; [done|lia].
    + intros token Hi. rewrite Hv, lookup_delete. case_decide; auto.
  - pose proof (transfer_meets_contract t who tok target r Hwf Hr) as Hc. revert Hc.
    destruct (Table_transfer PER_OWNER t who tok target r) as [[tk|[]|] t'];
      simpl; try done; try (intros [-> _]; by apply keeps_tokens_refl).
    intros (obj & r0 & _ & _ & _ & _ & Hwf' & _ & Hv & Htk & Hn & [Hd _]).
    split; [done|]. split.
    + intros token. apply issued_mono; [done|lia].
    + intros token Hi. rewrite Hv, lookup_insert_ne.
      * rewrite lookup_delete. case_decide; auto.
      * rewrite Htk. apply not_eq_sym. by apply issued_ne_fresh.
Qed.

Lemma steps_keep_tokens t t' : wf t -> rtc table_step t t' -> keeps_tokens t t'.
Proof.
  intros Hwf Hsteps. revert Hwf. induction Hsteps as [t|t t1 t' Hstep _ IH]; intros Hwf.
  - by apply keeps_tokens_refl.
  - destruct (step_keeps_tokens t t1 Hwf Hstep) as (Hwf1 & Hi1 & Hk1).
    destruct (IH Hwf1) as (Hwf' & Hi' & Hk'). split; [done|]. split; [auto|].
    intros token Hi. destruct (Hk' token (Hi1 token Hi)) as [->|]; [auto|by right].
Qed.
End Histories.

(** C11 (handle_table_refines_map): on a well-formed table every operation of
    [handles::Table] implements the abstract map from tokens to
    (owner, object, rights): [grant] binds a token that was unbound and only with
    rights inside the allowed mask, [remove] deletes exactly the caller's token,
    [transfer] replaces it by a fresh token whose rights are a subset of the old
    ones, and [resolve] answers the object exactly when the caller holds the token
    with the rights asked for.  No operation panics, every error leaves the table
    unchanged, and each error says why: [Handle] that the caller does not hold the
    token, [Denied] that rights are missing (or, for a new binding, empty or
    outside the mask), [Quota] that the owner or the table is full or the token
    space is spent.  [first] finds a token of the caller if there is one, and
    [count] is the number of bindings. *)
Theorem handle_table_refines_map {T} CAPACITY PER_OWNER (t : Table T) :
  Table_wf CAPACITY PER_OWNER t ->
  (forall who obj r, fits 8 r ->
     grant_contract (CAPACITY := CAPACITY) (PER_OWNER := PER_OWNER) t who obj r
       (Table_grant PER_OWNER t who obj r)) /\
  (forall who token,
     remove_contract (CAPACITY := CAPACITY) (PER_OWNER := PER_OWNER) t who token
       (Table_remove t who token)) /\
  (forall who token target r, fits 8 r ->
     transfer_contract (CAPACITY := CAPACITY) (PER_OWNER := PER_OWNER) t who token target r
       (Table_transfer PER_OWNER t who token target r)) /\
  (forall who token right,
     resolve_contract t who token right (Table_resolve t who token right)) /\
  (forall who, match Table_first t who with
     | Some token => exists obj r, view t !! token = Some (who, obj, r)
     | None => forall token obj r, view t !! token <> Some (who, obj, r)
     end) /\
  Table_count t = size (view t).
Proof.
  intros Hwf. split; [|split; [|split; [|split; [|split]]]]; intros.
  - by apply grant_meets_contract.
  - by apply remove_meets_contract.
  - by apply transfer_meets_contract.
  - by apply (resolve_meets_contract t who token right Hwf).
  - destruct (Table_first t who) as [token|] eqn:E;
      [by apply (first_Some t who token Hwf)|by apply (first_None t who Hwf)].
  - by apply (count_size (CAPACITY := CAPACITY) (PER_OWNER := PER_OWNER)).
Qed.

Lemma handle_table_refines_map_witness :
  grant_contract (CAPACITY := 4) (PER_OWNER := 1) (Table_new (T := nat) 4 1 7 0) 9 5%nat 3
    (Table_grant 1 (Table_new 4 1 7 0) 9 5%nat 3).
Proof.
  apply (handle_table_refines_map 4 1 (Table_new 4 1 7 0)).
  - apply wf_new. by vm_compute.
  - by vm_compute.
Defined.

(** Along any sequence of grants, removals and
    transfers, a token that was issued keeps its owner, object and rights until
    it disappears, and once it is not bound it is never bound again. *)
Theorem tokens_are_never_reused {T} CAPACITY PER_OWNER (t t' : Table T) token :
  Table_wf CAPACITY PER_OWNER t ->
  rtc (table_step (PER_OWNER := PER_OWNER)) t t' ->
  issued t token ->
  (view t' !! token = view t !! token \/ view t' !! token = None) /\
  (view t !! token = None -> view t' !! token = None) /\
  Table_wf CAPACITY PER_OWNER t'.
Proof.
  intros Hwf Hsteps Hi. destruct (steps_keep_tokens t t' Hwf Hsteps) as (Hwf' & _ & Hk).
  split; [by apply Hk|]. split; [|done]. intros Hn. by destruct (Hk token Hi) as [->|].
Qed.

Definition example_table : Table nat :=
  (Table_remove (Table_grant 1 (Table_new 4 1 7 0) 9 5%nat 3).2 9 (2 ^ 56 + 1)).2.

Lemma example_table_wf : Table_wf 4 1 example_table.
Proof.
  assert (H0 : Table_wf 4 1 (Table_new (T := nat) 4 1 7 0)) by (apply wf_new; by vm_compute).
  assert (Hs : rtc (table_step (PER_OWNER := 1)) (Table_new (T := nat) 4 1 7 0) example_table).
  { eapply rtc_l; [apply (step_grant (PER_OWNER := 1) _ 9 5%nat 3); by vm_compute|].
    eapply rtc_once. apply (step_remove (PER_OWNER := 1) _ 9 (2 ^ 56 + 1)). }
  by destruct (steps_keep_tokens _ _ H0 Hs).
Qed.

Lemma tokens_are_never_reused_witness :
  view (Table_grant 1 example_table 7 6%nat 1).2 !! (2 ^ 56 + 1) = None.
Proof.
  apply (tokens_are_never_reused 4 1 example_table (Table_grant 1 example_table 7 6%nat 1).2).
  - apply example_table_wf.
  - apply rtc_once. apply step_grant. by vm_compute.
  - exists 1. by vm_compute.
  - by vm_compute.
Defined.

(** The number of live tokens is the size of the view. *)
Lemma table_count_size {T} CAPACITY PER_OWNER (t : Table T) :
  Table_wf CAPACITY PER_OWNER t -> Table_count t = size (view t).
Proof.
  intros Hwf. unfold Table_count, view. rewrite map_size_list_to_map.
  - by rewrite length_fmap.
  - rewrite <- list_fmap_compose. apply (slots_keys_NoDup e_id). apply (wf_unique _ _ _ Hwf).
Qed.
