(* ===== verification/Bytes.v ===== *)
(** * Byte strings

    Bytes are integers in [0, 256); byte slices and arrays are lists of them.
    [to_le_bytes]/[from_le_bytes] are [le_bytes]/[le_value], [b[i..j]] is
    [slice b i j], and [b[i..j].copy_from_slice(src)] is [write b i src].  The
    last part holds the automation the codecs share: reads over writes, and the
    decomposition of a byte string into the fields of a record. *)
From stdpp Require Import base list option numbers.
From Stdlib Require Import ZArith Lia Bool.
From S2P Require Import Prelude.

Definition is_byte (b : Z) : Prop := 0 <= b < 256.
Definition bytes_ok (l : list Z) : Prop := Forall is_byte l.

Fixpoint le_bytes (n : nat) (x : Z) : list Z :=
  match n with
  | O => []
  | S n => x mod 256 :: le_bytes n (x / 256)
  end.

Fixpoint le_value (l : list Z) : Z :=
  match l with
  | [] => 0
  | b :: l => b + 256 * le_value l
  end.

(** [to_be_bytes] and [from_be_bytes]. *)
Definition be_bytes (n : nat) (x : Z) : list Z := reverse (le_bytes n x).
Definition be_value (l : list Z) : Z := le_value (reverse l).

Definition zeros (n : nat) : list Z := replicate n 0.
Definition slice (l : list Z) (i j : nat) : list Z := take (j - i) (drop i l).
Definition write (l : list Z) (i : nat) (src : list Z) : list Z :=
  take i l ++ src ++ drop (i + length src) l.
Definition all_zero (l : list Z) : bool := forallb (fun b => b =? 0) l.

Definition byte_at (l : list Z) (i : nat) : Z := le_value (slice l i (i + 1)).
Definition u16_at (l : list Z) (i : nat) : Z := le_value (slice l i (i + 2)).
Definition u32_at (l : list Z) (i : nat) : Z := le_value (slice l i (i + 4)).
Definition u64_at (l : list Z) (i : nat) : Z := le_value (slice l i (i + 8)).

#[global] Instance bytes_ok_dec l : Decision (bytes_ok l).
Proof. unfold bytes_ok, is_byte. apply _. Defined.

(** ** Integers *)
Lemma length_le_bytes n x : length (le_bytes n x) = n.
Proof. revert x. induction n as [|n IH]; intros x; simpl; [done|by rewrite IH]. Qed.

Lemma bytes_ok_le_bytes n x : bytes_ok (le_bytes n x).
Proof.
  revert x. induction n as [|n IH]; intros x; simpl; constructor; [|apply IH].
  unfold is_byte. apply Z.mod_pos_bound. lia.
Qed.

Lemma pow256_succ n : 2 ^ (8 * Z.of_nat (S n)) = 256 * 2 ^ (8 * Z.of_nat n).
Proof.
  replace (8 * Z.of_nat (S n)) with (8 + 8 * Z.of_nat n) by lia.
  rewrite Z.pow_add_r by lia. done.
Qed.

Lemma le_value_bytes n x : fits (8 * Z.of_nat n) x -> le_value (le_bytes n x) = x.
Proof.
  revert x. induction n as [|n IH]; intros x Hx.
  - unfold fits in Hx. simpl in *. lia.
  - cbn [le_bytes le_value]. unfold fits in Hx. rewrite pow256_succ in Hx. rewrite IH.
    + pose proof (Z.div_mod x 256). lia.
    + unfold fits. split; [apply Z.div_pos; lia|].
      apply Z.div_lt_upper_bound; lia.
Qed.

Lemma le_value_fits l : bytes_ok l -> fits (8 * Z.of_nat (length l)) (le_value l).
Proof.
  induction l as [|b l IH]; intros H; [by vm_compute|].
  inversion H as [|? ? Hb Hl]; subst. specialize (IH Hl). unfold fits, is_byte in *.
  cbn [length le_value]. rewrite pow256_succ. lia.
Qed.

Lemma le_bytes_value l : bytes_ok l -> le_bytes (length l) (le_value l) = l.
Proof.
  induction l as [|b l IH]; intros H; [done|].
  inversion H as [|? ? Hb Hl]; subst. cbn [length le_value le_bytes]. unfold is_byte in Hb.
  rewrite (Z.mul_comm 256), Z.mod_add, Z.div_add, Z.mod_small, Z.div_small by lia.
  by rewrite Z.add_0_l, IH.
Qed.

Lemma le_bytes_inj n x y :
  fits (8 * Z.of_nat n) x -> fits (8 * Z.of_nat n) y -> le_bytes n x = le_bytes n y -> x = y.
Proof. intros Hx Hy H. rewrite <- (le_value_bytes n x Hx), H. by apply le_value_bytes. Qed.

Lemma length_be_bytes n x : length (be_bytes n x) = n.
Proof. unfold be_bytes. rewrite length_reverse. apply length_le_bytes. Qed.

Lemma be_value_bytes n x : fits (8 * Z.of_nat n) x -> be_value (be_bytes n x) = x.
Proof. intros. unfold be_value, be_bytes. rewrite reverse_involutive. by apply le_value_bytes. Qed.

Lemma be_bytes_value l : bytes_ok l -> be_bytes (length l) (be_value l) = l.
Proof.
  intros H. unfold be_value, be_bytes. rewrite <- length_reverse, le_bytes_value.
  - apply reverse_involutive.
  - by apply Forall_reverse.
Qed.

(** ** Slices and writes *)
Lemma length_zeros n : length (zeros n) = n.
Proof. apply length_replicate. Qed.

Lemma length_slice l i j : (j <= length l)%nat -> length (slice l i j) = (j - i)%nat.
Proof. intros. unfold slice. rewrite length_take, length_drop. lia. Qed.

Lemma length_write l i src :
  (i + length src <= length l)%nat -> length (write l i src) = length l.
Proof. intros. unfold write. rewrite !length_app, length_take, length_drop. lia. Qed.

Lemma bytes_ok_slice l i j : bytes_ok l -> bytes_ok (slice l i j).
Proof. intros H. unfold slice, bytes_ok. by apply Forall_take, Forall_drop. Qed.

Lemma bytes_ok_write l i src : bytes_ok l -> bytes_ok src -> bytes_ok (write l i src).
Proof.
  intros Hl Hs. unfold write, bytes_ok. rewrite !Forall_app. split; [by apply Forall_take|].
  split; [done|by apply Forall_drop].
Qed.

Lemma bytes_ok_zeros n : bytes_ok (zeros n).
Proof. apply Forall_replicate. unfold is_byte. lia. Qed.

Lemma slice_full l n : n = length l -> slice l 0 n = l.
Proof. intros ->. unfold slice. rewrite drop_0, Nat.sub_0_r. by apply take_ge. Qed.

Lemma slice_app l i j k :
  (i <= j)%nat -> (j <= k)%nat -> slice l i j ++ slice l j k = slice l i k.
Proof.
  intros Hij Hjk. unfold slice.
  replace (k - i)%nat with ((j - i) + (k - j))%nat by lia.
  rewrite <- (take_take_drop (drop i l) (j - i) (k - j)), drop_drop.
  by replace (i + (j - i))%nat with j by lia.
Qed.

Lemma slice_write_same l i j src :
  (i <= length l)%nat -> (j = i + length src)%nat -> slice (write l i src) i j = src.
Proof.
  intros Hi ->. unfold slice, write. replace (i + length src - i)%nat with (length src) by lia.
  assert (Hl : length (take i l) = i) by (rewrite length_take; lia).
  rewrite drop_app_length' by done. by rewrite take_app_length.
Qed.

Lemma slice_write_before l k src i j :
  (j <= k)%nat -> (k <= length l)%nat -> slice (write l k src) i j = slice l i j.
Proof.
  intros Hjk Hk. unfold slice, write. destruct (decide (i <= j)%nat).
  - rewrite drop_app_le by (rewrite length_take; lia).
    rewrite take_app_le by (rewrite length_drop, length_take; lia).
    rewrite skipn_firstn_comm, take_take. f_equal. lia.
  - by replace (j - i)%nat with 0%nat by lia.
Qed.

Lemma slice_write_after l k src i j :
  (k + length src <= i)%nat -> (k + length src <= length l)%nat ->
  slice (write l k src) i j = slice l i j.
Proof.
  intros Hi Hk. unfold slice, write. f_equal. rewrite app_assoc.
  rewrite drop_app_ge by (rewrite length_app, length_take; lia).
  rewrite drop_drop. f_equal. rewrite length_app, length_take. lia.
Qed.

Lemma drop_slice l i : drop i l = slice l i (length l).
Proof. unfold slice. rewrite take_ge; [done|]. rewrite length_drop. lia. Qed.

Lemma slice_zeros n i j : (j <= n)%nat -> slice (zeros n) i j = zeros (j - i).
Proof. intros. unfold slice, zeros. rewrite drop_replicate, take_replicate. f_equal. lia. Qed.

Lemma all_zero_zeros n : all_zero (zeros n) = true.
Proof. induction n as [|n IH]; [done|]. simpl. by apply IH. Qed.

Lemma all_zero_eq l : all_zero l = true <-> l = zeros (length l).
Proof.
  unfold zeros. induction l as [|b l IH]; [done|]. cbn. rewrite andb_true_iff, Z.eqb_eq, IH. split.
  - intros [-> H]. by rewrite <- H.
  - intros H. injection H as -> H. auto.
Qed.

Lemma slice_slice l i j a b :
  (a <= b)%nat -> (i + b <= j)%nat -> slice (slice l i j) a b = slice l (i + a) (i + b).
Proof.
  intros Ha Hb. unfold slice. rewrite skipn_firstn_comm, take_take, drop_drop. f_equal; lia.
Qed.

Lemma slice_app_r (a b : list Z) i j n :
  length a = n -> (n <= i)%nat -> slice (a ++ b) i j = slice b (i - n) (j - n).
Proof.
  intros <- Hi. unfold slice. rewrite drop_app_ge by lia. f_equal. lia.
Qed.

(** ** Automation *)

Lemma length_write_at l i src n k :
  length l = n -> length src = k -> (i + k <= n)%nat -> length (write l i src) = n.
Proof. intros <- <- ?. by apply length_write. Qed.

Lemma length_slice_at l i j n k :
  length l = n -> (j <= n)%nat -> (k = j - i)%nat -> length (slice l i j) = k.
Proof. intros <- ? ->. by apply length_slice. Qed.

(** [wire_length] proves [length l = n] for a record built from writes. *)
Ltac wire_length :=
  lazymatch goal with
  | |- length (write _ _ _) = _ =>
      eapply length_write_at; [wire_length | wire_length | simpl; lia]
  | |- length (slice _ _ _) = _ =>
      eapply length_slice_at; [wire_length | simpl; lia | first [reflexivity | simpl; lia]]
  | |- length (le_bytes _ _) = _ => apply length_le_bytes
  | |- length (be_bytes _ _) = _ => apply length_be_bytes
  | |- length (zeros _) = _ => apply length_zeros
  | |- length (_ :: _) = _ => reflexivity
  | |- _ => eassumption
  end.

(** Arithmetic side conditions about such lengths. *)
Ltac wire_len :=
  repeat match goal with
  | |- context [length (write ?l ?i ?s)] =>
      let H := fresh in eassert (H : length (write l i s) = _) by wire_length; rewrite H; clear H
  | |- context [length (slice ?l ?i ?j)] =>
      let H := fresh in eassert (H : length (slice l i j) = _) by wire_length; rewrite H; clear H
  end;
  rewrite ?length_le_bytes, ?length_be_bytes, ?length_zeros; simpl; lia.

Create HintDb wire.
#[export] Hint Resolve bytes_ok_le_bytes bytes_ok_zeros bytes_ok_slice bytes_ok_write : wire.

Lemma slice_take l n i j : (j <= n)%nat -> slice (take n l) i j = slice l i j.
Proof.
  intros. unfold slice. rewrite skipn_firstn_comm, take_take. f_equal. lia.
Qed.

Lemma slice_drop_tail b i j k : (k <= length b)%nat -> slice b (i + j) k = drop j (slice b i k).
Proof. intros. unfold slice. rewrite skipn_firstn_comm, drop_drop. f_equal. lia. Qed.

(** Two byte strings are equal when they agree on consecutive fields. *)
Fixpoint same_fields (l r : list Z) (from : nat) (cuts : list nat) : Prop :=
  match cuts with
  | [] => (length l <= from)%nat /\ (length r <= from)%nat
  | cut :: cuts => (from <= cut)%nat /\ slice l from cut = slice r from cut /\ same_fields l r cut cuts
  end.

Lemma same_fields_drop l r from cuts : same_fields l r from cuts -> drop from l = drop from r.
Proof.
  revert from. induction cuts as [|cut cuts IH]; intros from H; simpl in H.
  - destruct H. by rewrite !drop_ge by done.
  - destruct H as (Hle & Hs & Hr). specialize (IH _ Hr).
    rewrite <- (take_drop (cut - from) (drop from l)), <- (take_drop (cut - from) (drop from r)).
    rewrite !drop_drop. replace (from + (cut - from))%nat with cut by lia.
    unfold slice in Hs. by rewrite Hs, IH.
Qed.

Lemma eq_by_fields l r cuts : same_fields l r 0 cuts -> l = r.
Proof. intros H%same_fields_drop. by rewrite !drop_0 in H. Qed.

(** The field [b[i..i+n]] of a well-formed byte string, written back. *)
Lemma le_bytes_slice b i j n :
  bytes_ok b -> (j <= length b)%nat -> (n = j - i)%nat ->
  le_bytes n (le_value (slice b i j)) = slice b i j.
Proof.
  intros Hb Hj ->. rewrite <- (length_slice b i j) by done. apply le_bytes_value.
  by apply bytes_ok_slice.
Qed.

(** Reading a field of a record built by successive writes. *)
Ltac wire_reads :=
  repeat first
    [ rewrite slice_write_same by wire_len
    | rewrite slice_write_before by wire_len
    | rewrite slice_write_after by wire_len
    | rewrite slice_zeros by wire_len ].

#[global] Arguments le_bytes : simpl never.
#[global] Arguments le_value : simpl never.
#[global] Arguments be_bytes : simpl never.
#[global] Arguments slice : simpl never.
#[global] Arguments write : simpl never.
#[global] Arguments zeros : simpl never.
