(* ===== verification/Codec.v ===== *)
(** * Wire codecs

    What the fixed-size records of crates/abi promise to each other: [decode]
    inverts [encode] on valid values, every accepted byte string is the one
    canonical encoding of a valid value, and [decode] does not panic.  The class
    states the promise, the record files give the instances; clients use the
    consequences below. *)
From stdpp Require Import base list option numbers.
From Stdlib Require Import ZArith Lia Bool.
From S2P Require Import Prelude Bytes.

(** [sha2::Sha256::digest], a library function: any function to 32 bytes. *)
Class Digest := { sha256 : list Z -> list Z }.
Class DigestLaws `{Digest} := { sha256_length : forall b, length (sha256 b) = 32%nat; sha256_bytes : forall b, bytes_ok (sha256 b) }.

Record codec_laws {A E} (encode : A -> list Z) (decode : list Z -> outcome E A) (valid : A -> Prop) : Prop := {
  law_round : forall a, valid a -> decode (encode a) = Ok a;
  law_canonical : forall b a, bytes_ok b -> decode b = Ok a -> valid a /\ encode a = b;
  law_bytes : forall a, valid a -> bytes_ok (encode a);
  law_total : forall b, decode b <> Panic;
}.

Class WireCodec (A E : Type) := {
  wire_encode : A -> list Z;
  wire_decode : list Z -> outcome E A;
  wire_valid : A -> Prop;
  wire_laws : codec_laws wire_encode wire_decode wire_valid;
}.

Section Consequences.
Context {A E : Type} `{WireCodec A E}.

(** Two accepted byte strings with the same meaning are equal. *)
Lemma wire_unique b b' (a : A) :
  bytes_ok b -> bytes_ok b' -> wire_decode b = Ok a -> wire_decode b' = Ok a -> b = b'.
Proof.
  intros Hb Hb' Hd Hd'. destruct (law_canonical _ _ _ wire_laws b a Hb Hd) as [_ <-].
  by destruct (law_canonical _ _ _ wire_laws b' a Hb' Hd') as [_ <-].
Qed.

Lemma wire_injective (a a' : A) : wire_valid a -> wire_valid a' -> wire_encode a = wire_encode a' -> a = a'.
Proof.
  intros Ha Ha' He. pose proof (law_round _ _ _ wire_laws a Ha) as H1.
  pose proof (law_round _ _ _ wire_laws a' Ha') as H2. rewrite He, H2 in H1. by injection H1.
Qed.

(** Receiving and forwarding a record does not change its bytes. *)
Lemma wire_forward b (a : A) : bytes_ok b -> wire_decode b = Ok a -> wire_encode a = b /\ wire_decode (wire_encode a) = Ok a.
Proof.
  intros Hb Hd. destruct (law_canonical _ _ _ wire_laws b a Hb Hd) as [Hv <-].
  split; [done|]. by apply wire_laws.
Qed.
End Consequences.

(** ** Tactics for the instances *)

(** Boolean hypotheses to propositions. *)
Ltac bools :=
  repeat match goal with
  | H : (_ || _) = false |- _ => apply orb_false_iff in H as [? ?]
  | H : (_ && _) = true |- _ => apply andb_true_iff in H as [? ?]
  | H : negb _ = false |- _ => apply negb_false_iff in H
  | H : negb _ = true |- _ => apply negb_true_iff in H
  | H : (_ =? _) = true |- _ => apply Z.eqb_eq in H
  | H : (_ =? _) = false |- _ => apply Z.eqb_neq in H
  | H : (_ <? _) = true |- _ => apply Z.ltb_lt in H
  | H : (_ <? _) = false |- _ => apply Z.ltb_ge in H
  | H : (_ <=? _) = true |- _ => apply Z.leb_le in H
  | H : (_ <=? _) = false |- _ => apply Z.leb_gt in H
  | H : (_ =? _)%nat = true |- _ => apply Nat.eqb_eq in H
  | H : (_ =? _)%nat = false |- _ => apply Nat.eqb_neq in H
  | H : (_ <? _)%nat = true |- _ => apply Nat.ltb_lt in H
  | H : (_ <? _)%nat = false |- _ => apply Nat.ltb_ge in H
  | H : (_ <=? _)%nat = true |- _ => apply Nat.leb_le in H
  | H : (_ <=? _)%nat = false |- _ => apply Nat.leb_gt in H
  | H : bool_decide _ = true |- _ => apply bool_decide_eq_true in H
  | H : bool_decide _ = false |- _ => apply bool_decide_eq_false in H
  end.

(** Passes the guards [if c then return Err(..)] of an accepting run [H]. *)
Ltac guards H :=
  repeat match type of H with
  | (if ?c then Err _ else _) = Ok _ => let G := fresh "G" in destruct c eqn:G; [discriminate H|]
  end.

(** Takes the guard at the head of the goal as not raised. *)
Ltac no_guard tac :=
  match goal with
  | |- (if ?c then Err _ else _) = _ =>
      let G := fresh "G" in
      destruct c eqn:G;
      [exfalso; repeat match goal with
        | H : (_ || _) = true |- _ => apply orb_true_iff in H as [H|H]
        | H : (_ && _) = false |- _ => apply andb_false_iff in H as [H|H]
        end; bools; tac
      | clear G]
  end.

(** Fields of [bytes_ok] strings fit their width. *)
Lemma field_fits b i j n w :
  bytes_ok b -> (j <= length b)%nat -> (n = j - i)%nat -> w = 8 * Z.of_nat n -> fits w (le_value (slice b i j)).
Proof.
  intros Hb Hj -> ->. pose proof (le_value_fits _ (bytes_ok_slice b i j Hb)) as H.
  by rewrite length_slice in H.
Qed.

Lemma zero_field b i j n :
  (j <= length b)%nat -> (n = j - i)%nat -> all_zero (slice b i j) = true -> zeros n = slice b i j.
Proof. intros Hj -> H. apply all_zero_eq in H. rewrite length_slice in H by done. done. Qed.

Lemma zero_value_field b i j n :
  bytes_ok b -> (j <= length b)%nat -> (n = j - i)%nat -> le_value (slice b i j) = 0 -> zeros n = slice b i j.
Proof.
  intros Hb Hj Hn H. rewrite <- (le_bytes_slice b i j n Hb Hj Hn), H. clear. unfold zeros.
  induction n as [|n IH]; [done|]. unfold le_bytes; fold le_bytes. rewrite Z.mod_0_l, Z.div_0_l by done. simpl. by rewrite IH.
Qed.

(** A field of the canonical encoding, compared with the field it was read from. *)
Ltac wire_field :=
  wire_reads;
  first
    [ reflexivity
    | apply le_bytes_slice; [assumption|lia|lia]
    | match goal with H : le_value (slice ?b ?i ?j) = _ |- le_bytes _ _ = slice ?b ?i ?j =>
        rewrite <- H; apply le_bytes_slice; [assumption|lia|lia] end
    | match goal with H : le_value (slice ?b ?i ?j) = _ |- zeros _ = slice ?b ?i ?j =>
        apply zero_value_field; [assumption|lia|lia|assumption] end
    | apply zero_field; [lia|lia|assumption]
    | symmetry; assumption ].

Ltac wire_fields cuts :=
  apply (eq_by_fields _ _ cuts); cbn [same_fields];
  repeat match goal with |- _ /\ _ => split end; try (simpl; lia); try wire_field; try wire_len.

(** [bytes_ok] of an encoding. *)
Ltac wire_bytes := repeat first [assumption | apply bytes_ok_write | apply bytes_ok_le_bytes | apply bytes_ok_zeros].

Lemma le_value_zeros n : le_value (zeros n) = 0.
Proof. unfold zeros. induction n as [|n IH]; [done|]. simpl. unfold le_value; fold le_value. lia. Qed.

(** Record sizes and field readers the tactics unfold. *)
Create HintDb wire_sizes.
#[export] Hint Unfold byte_at u16_at u32_at u64_at : wire_sizes.

Ltac wire_unfold := repeat autounfold with wire_sizes in *; cbn [Nat.add] in *.

Ltac solve_fits := first [assumption | by eauto with wire | unfold fits in *; lia | by vm_compute].

(** The value of a field of an encoding. *)
Ltac wire_read :=
  wire_unfold; cbv zeta; wire_reads;
  first [reflexivity | apply le_value_bytes; solve_fits | apply le_value_zeros].

(** A decoder returns: its checks are decided one after the other. *)
Ltac no_panic := cbv zeta; repeat (match goal with |- context [if ?c then _ else _] => destruct c; try done end); try done.
