(* ===== verification/AbiBlock.v ===== *)
(** * The block ABI records (crates/abi/src/block)

    Requests, geometries, completions and error codes exchanged between
    processes and the block broker. *)
From stdpp Require Import base list option numbers.
From Stdlib Require Import ZArith Lia Bool.
From S2P Require Import Prelude Bytes Codec.

Definition BLOCK_VERSION : Z := 1.
Definition BLOCK_READ : Z := 1.
Definition BLOCK_WRITE : Z := 2.
Definition BLOCK_FLUSH : Z := 4.
Definition BLOCK_ALL : Z := Z.lor (Z.lor BLOCK_READ BLOCK_WRITE) BLOCK_FLUSH.
Definition SECTOR : nat := 512.
Definition REQUEST_BYTES : nat := 32.
Definition GEOMETRY_BYTES : nat := 32.
Definition RESULT_BYTES : nat := 32 + SECTOR.
Definition MAX_ID : Z := Z.shiftl 1 56 - 1.

#[export] Hint Unfold SECTOR REQUEST_BYTES GEOMETRY_BYTES RESULT_BYTES : wire_sizes.

Inductive BlockError :=
| BHandle | BDenied | BAddress | BSize | BVersion | BRequest | BBusy | BQuota
| BRange | BReadOnly | BUnavailable | BNoRequest | BWouldBlock | BProtocol.
#[global] Instance BlockError_eq_dec : EqDecision BlockError.
Proof. solve_decision. Defined.

(** [repr(u8)]: the position in the declaration. *)
Definition BlockError_repr (e : BlockError) : Z :=
  match e with
  | BHandle => 0 | BDenied => 1 | BAddress => 2 | BSize => 3 | BVersion => 4 | BRequest => 5 | BBusy => 6
  | BQuota => 7 | BRange => 8 | BReadOnly => 9 | BUnavailable => 10 | BNoRequest => 11 | BWouldBlock => 12
  | BProtocol => 13
  end.

Definition BlockError_code (e : BlockError) : Z := u64_max - 32 - BlockError_repr e.

Definition block_errors : list BlockError :=
  [BHandle; BDenied; BAddress; BSize; BVersion; BRequest; BBusy; BQuota; BRange; BReadOnly; BUnavailable;
   BNoRequest; BWouldBlock; BProtocol].

Definition BlockError_decode (value : Z) : outcome BlockError Z :=
  match List.find (fun e => value =? BlockError_code e) block_errors with
  | Some e => Err e
  | None => if MAX_ID <? value then Err BProtocol else Ok value
  end.

Inductive Operation := OpRead | OpWrite | OpFlush.
#[global] Instance Operation_eq_dec : EqDecision Operation.
Proof. solve_decision. Defined.

Definition Operation_repr (o : Operation) : Z := match o with OpRead => 1 | OpWrite => 2 | OpFlush => 3 end.

Definition Operation_parse (value : Z) : outcome BlockError Operation :=
  if value =? 1 then Ok OpRead else if value =? 2 then Ok OpWrite else if value =? 3 then Ok OpFlush
  else Err BRequest.

Definition Operation_right (o : Operation) : Z :=
  match o with OpRead => BLOCK_READ | OpWrite => BLOCK_WRITE | OpFlush => BLOCK_FLUSH end.

Record Request := mkRequest { rq_operation : Operation; rq_sector : Z; rq_address : Z; rq_length : Z }.

Definition Request_decode (b : list Z) : outcome BlockError Request :=
  if negb (length b =? REQUEST_BYTES)%nat then Err BSize
  else if negb (u16_at b 0 =? BLOCK_VERSION) then Err BVersion
  else if negb (u32_at b 4 =? 0) || negb (u32_at b 28 =? 0) then Err BRequest
  else
    let? operation := Operation_parse (u16_at b 2) in
    let r := mkRequest operation (u64_at b 8) (u64_at b 16) (u32_at b 24) in
    match operation with
    | OpFlush =>
      if negb (rq_sector r =? 0) || negb (rq_address r =? 0) || negb (rq_length r =? 0) then Err BRequest else Ok r
    | OpRead =>
      if negb (rq_length r =? 512) then Err BSize
      else if negb (rq_address r =? 0) then Err BRequest else Ok r
    | OpWrite => if negb (rq_length r =? 512) then Err BSize else Ok r
    end.

Definition Request_encode (r : Request) : list Z :=
  let b := zeros REQUEST_BYTES in
  let b := write b 0 (le_bytes 2 BLOCK_VERSION) in
  let b := write b 2 (le_bytes 2 (Operation_repr (rq_operation r))) in
  let b := write b 8 (le_bytes 8 (rq_sector r)) in
  let b := write b 16 (le_bytes 8 (rq_address r)) in
  write b 24 (le_bytes 4 (rq_length r)).

Definition Request_valid (r : Request) : Prop :=
  fits 64 (rq_sector r) /\ fits 64 (rq_address r) /\
  match rq_operation r with
  | OpFlush => rq_sector r = 0 /\ rq_address r = 0 /\ rq_length r = 0
  | OpRead => rq_length r = 512 /\ rq_address r = 0
  | OpWrite => rq_length r = 512
  end.

Lemma Operation_parse_repr v o : Operation_parse v = Ok o -> v = Operation_repr o.
Proof. unfold Operation_parse. repeat case_match; bools; intros; simplify_eq; done. Qed.

Lemma Operation_parse_ok o : Operation_parse (Operation_repr o) = Ok o.
Proof. by destruct o. Qed.
Lemma Operation_parse_total v : Operation_parse v <> Panic.
Proof. unfold Operation_parse. repeat case_match; done. Qed.
Lemma Operation_repr_fits o : fits 16 (Operation_repr o).
Proof. by destruct o. Qed.
#[export] Hint Resolve Operation_repr_fits : wire.

Lemma length_Request_encode r : length (Request_encode r) = REQUEST_BYTES.
Proof. unfold Request_encode. wire_unfold. wire_length. Qed.

Lemma Request_round r : Request_valid r -> Request_decode (Request_encode r) = Ok r.
Proof.
  intros (Hs & Ha & Hop). pose proof (length_Request_encode r) as L. set (b := Request_encode r) in *.
  assert (Hl : fits 32 (rq_length r)) by (unfold fits; destruct (rq_operation r); lia).
  assert (R0 : u16_at b 0 = BLOCK_VERSION) by (unfold b, Request_encode; wire_read).
  assert (R2 : u16_at b 2 = Operation_repr (rq_operation r)) by (unfold b, Request_encode; wire_read).
  assert (R4 : u32_at b 4 = 0) by (unfold b, Request_encode; wire_read).
  assert (R8 : u64_at b 8 = rq_sector r) by (unfold b, Request_encode; wire_read).
  assert (R16 : u64_at b 16 = rq_address r) by (unfold b, Request_encode; wire_read).
  assert (R24 : u32_at b 24 = rq_length r) by (unfold b, Request_encode; wire_read).
  assert (R28 : u32_at b 28 = 0) by (unfold b, Request_encode; wire_read).
  clearbody b. unfold Request_decode. rewrite L, R0, R2, R4, R8, R16, R24, R28.
  do 3 no_guard ltac:(done). rewrite Operation_parse_ok.
  destruct r as [o s a l]; simpl in *. destruct o; destruct_and?; subst; done.
Qed.

Lemma Request_canonical b r :
  bytes_ok b -> Request_decode b = Ok r -> Request_valid r /\ Request_encode r = b.
Proof.
  intros Hb H. unfold Request_decode in H. guards H. bools.
  destruct (Operation_parse (u16_at b 2)) as [o|e|] eqn:Ho; [|done|done]. apply Operation_parse_repr in Ho.
  wire_unfold.
  assert (Hv : r = mkRequest o (le_value (slice b 8 16)) (le_value (slice b 16 24)) (le_value (slice b 24 28)) /\
               Request_valid r).
  { assert (F1 : fits 64 (le_value (slice b 8 16))) by (eapply field_fits; [done|lia|reflexivity|done]).
    assert (F2 : fits 64 (le_value (slice b 16 24))) by (eapply field_fits; [done|lia|reflexivity|done]).
    unfold Request_valid. destruct o; cbn [rq_operation rq_sector rq_address rq_length] in H; guards H; bools;
      injection H as <-; simpl; auto 12. }
  destruct Hv as [-> Hv]. split; [done|]. unfold Request_encode. wire_unfold.
  cbn [rq_operation rq_sector rq_address rq_length]. wire_fields [2; 4; 8; 16; 24; 28; 32]%nat.
Qed.

Lemma Request_laws : codec_laws Request_encode Request_decode Request_valid.
Proof.
  split; [apply Request_round|apply Request_canonical| |].
  - intros r _. unfold Request_encode. wire_bytes.
  - intros b. unfold Request_decode. pose proof (Operation_parse_total (u16_at b 2)). repeat case_match; done.
Qed.
#[export] Instance Request_codec : WireCodec Request BlockError := {| wire_laws := Request_laws |}.

(** ** Geometry *)
Record BlockGeometry := mkBlockGeometry { g_sectors : Z; g_rights : Z; g_read_only : bool }.

Definition bool_value (b : bool) : Z := if b then 1 else 0.

Definition BlockGeometry_encode (g : BlockGeometry) : list Z :=
  let b := zeros GEOMETRY_BYTES in
  let b := write b 0 (le_bytes 2 BLOCK_VERSION) in
  let b := write b 2 (le_bytes 2 (Z.of_nat GEOMETRY_BYTES)) in
  let b := write b 4 (le_bytes 4 (g_rights g)) in
  let b := write b 8 (le_bytes 8 (g_sectors g)) in
  let b := write b 16 (le_bytes 4 (Z.of_nat SECTOR)) in
  let b := write b 20 (le_bytes 4 (Z.of_nat SECTOR)) in
  write b 24 (le_bytes 4 (bool_value (g_read_only g))).

Definition BlockGeometry_decode (b : list Z) : outcome BlockError BlockGeometry :=
  if negb (length b =? GEOMETRY_BYTES)%nat then Err BSize
  else if negb (u16_at b 0 =? BLOCK_VERSION) then Err BVersion
  else
    let rights := u32_at b 4 in
    if negb (u16_at b 2 =? Z.of_nat GEOMETRY_BYTES) || (rights =? 0)
       || negb (Z.land rights (unot 32 BLOCK_ALL) =? 0) || (u64_at b 8 =? 0)
       || negb (u32_at b 16 =? Z.of_nat SECTOR) || negb (u32_at b 20 =? Z.of_nat SECTOR)
       || (1 <? u32_at b 24) || negb (u32_at b 28 =? 0)
    then Err BProtocol
    else Ok (mkBlockGeometry (u64_at b 8) (rights mod 256) (negb (u32_at b 24 =? 0))).

Definition BlockGeometry_valid (g : BlockGeometry) : Prop :=
  0 < g_sectors g < 2 ^ 64 /\ 0 < g_rights g <= BLOCK_ALL.

(** [r & !ALL == 0] for the low three bits is [r <= 7]. *)
Lemma rights_mask r : fits 32 r -> Z.land r (unot 32 BLOCK_ALL) = 0 <-> r <= BLOCK_ALL.
Proof.
  intros Hr. rewrite unot_land_zero by (lia || done). change BLOCK_ALL with (Z.ones 3).
  rewrite Z.land_ones by lia. change (2 ^ 3) with 8. change (Z.ones 3) with 7. unfold fits in Hr.
  pose proof (Z.mod_pos_bound r 8 ltac:(lia)). split; intros H1; [lia|]. apply Z.mod_small. lia.
Qed.

Lemma bool_value_fits b : fits 32 (bool_value b).
Proof. by destruct b. Qed.
#[export] Hint Resolve bool_value_fits : wire.

Lemma bool_value_read v : 0 <= v <= 1 -> bool_value (negb (v =? 0)) = v.
Proof. intros H. destruct (Z.eqb_spec v 0); simpl; lia. Qed.

Lemma length_BlockGeometry_encode g : length (BlockGeometry_encode g) = GEOMETRY_BYTES.
Proof. unfold BlockGeometry_encode. wire_unfold. wire_length. Qed.

Lemma BlockGeometry_round g : BlockGeometry_valid g -> BlockGeometry_decode (BlockGeometry_encode g) = Ok g.
Proof.
  intros [Hs Hr]. pose proof (length_BlockGeometry_encode g) as L. set (b := BlockGeometry_encode g) in *.
  assert (Hr32 : fits 32 (g_rights g)) by (change BLOCK_ALL with 7 in *; unfold fits; lia).
  assert (R0 : u16_at b 0 = BLOCK_VERSION) by (unfold b, BlockGeometry_encode; wire_read).
  assert (R2 : u16_at b 2 = Z.of_nat GEOMETRY_BYTES) by (unfold b, BlockGeometry_encode; wire_read).
  assert (R4 : u32_at b 4 = g_rights g) by (unfold b, BlockGeometry_encode; wire_read).
  assert (R8 : u64_at b 8 = g_sectors g) by (unfold b, BlockGeometry_encode; wire_read).
  assert (R16 : u32_at b 16 = Z.of_nat SECTOR) by (unfold b, BlockGeometry_encode; wire_read).
  assert (R20 : u32_at b 20 = Z.of_nat SECTOR) by (unfold b, BlockGeometry_encode; wire_read).
  assert (R24 : u32_at b 24 = bool_value (g_read_only g)) by (unfold b, BlockGeometry_encode; wire_read).
  assert (R28 : u32_at b 28 = 0) by (unfold b, BlockGeometry_encode; wire_read).
  clearbody b. unfold BlockGeometry_decode. rewrite L, R0, R2, R4, R8, R16, R20, R24, R28.
  pose proof (proj2 (rights_mask _ Hr32) ltac:(lia)) as Hmask.
  do 3 no_guard ltac:(first [congruence | lia | destruct (g_read_only g); simpl in *; lia]).
  destruct g as [s r ro]; simpl in *. f_equal. f_equal.
  - apply Z.mod_small. change BLOCK_ALL with 7 in *. lia.
  - by destruct ro.
Qed.

Lemma BlockGeometry_canonical b g :
  bytes_ok b -> BlockGeometry_decode b = Ok g -> BlockGeometry_valid g /\ BlockGeometry_encode g = b.
Proof.
  intros Hb H. unfold BlockGeometry_decode in H. cbv zeta in H. guards H. bools. wire_unfold. injection H as <-.
  assert (F4 : fits 32 (le_value (slice b 4 8))) by (eapply field_fits; [done|lia|reflexivity|done]).
  assert (F8 : fits 64 (le_value (slice b 8 16))) by (eapply field_fits; [done|lia|reflexivity|done]).
  assert (F24 : fits 32 (le_value (slice b 24 28))) by (eapply field_fits; [done|lia|reflexivity|done]).
  match goal with H : Z.land _ (unot 32 _) = 0 |- _ => apply rights_mask in H; [|done] end.
  unfold fits in *. assert (Hmod : le_value (slice b 4 8) mod 256 = le_value (slice b 4 8)).
  { apply Z.mod_small. change BLOCK_ALL with 7 in *. lia. }
  split; [split; simpl; rewrite ?Hmod; lia|]. unfold BlockGeometry_encode. wire_unfold.
  cbn [g_sectors g_rights g_read_only]. rewrite Hmod, bool_value_read by lia.
  wire_fields [2; 4; 8; 16; 20; 24; 28; 32]%nat.
Qed.

Lemma BlockGeometry_laws : codec_laws BlockGeometry_encode BlockGeometry_decode BlockGeometry_valid.
Proof.
  split; [apply BlockGeometry_round|apply BlockGeometry_canonical| |].
  - intros g _. unfold BlockGeometry_encode. wire_bytes.
  - intros b. unfold BlockGeometry_decode. repeat case_match; done.
Qed.
#[export] Instance BlockGeometry_codec : WireCodec BlockGeometry BlockError := {| wire_laws := BlockGeometry_laws |}.

(** ** Completions *)
Inductive BlockStatus := StSuccess | StCancelled | StIo | StTimeout | StProtocol | StUnavailable.
Inductive Effect := EffectNone | EffectCompleted | EffectUnknown.
#[global] Instance BlockStatus_eq_dec : EqDecision BlockStatus.
Proof. solve_decision. Defined.
#[global] Instance Effect_eq_dec : EqDecision Effect.
Proof. solve_decision. Defined.

Definition BlockStatus_repr (s : BlockStatus) : Z :=
  match s with
  | StSuccess => 0 | StCancelled => 1 | StIo => 2 | StTimeout => 3 | StProtocol => 4 | StUnavailable => 5
  end.
Definition Effect_repr (e : Effect) : Z := match e with EffectNone => 0 | EffectCompleted => 1 | EffectUnknown => 2 end.

Record Completion := mkCompletion {
  cp_id : Z;
  cp_operation : Operation;
  cp_status : BlockStatus;
  cp_effect : Effect;
  cp_data : list Z;
}.

(** Only a successful read carries data. *)
Definition carries_data (s : BlockStatus) (o : Operation) : bool :=
  bool_decide (s = StSuccess) && bool_decide (o = OpRead).

Definition Completion_length (c : Completion) : nat :=
  if carries_data (cp_status c) (cp_operation c) then SECTOR else 0%nat.

Definition Completion_encode (c : Completion) : list Z :=
  let b := zeros RESULT_BYTES in
  let b := write b 0 (le_bytes 2 BLOCK_VERSION) in
  let b := write b 2 (le_bytes 2 (Operation_repr (cp_operation c))) in
  let b := write b 4 (le_bytes 4 (BlockStatus_repr (cp_status c))) in
  let b := write b 8 (le_bytes 8 (cp_id c)) in
  let b := write b 16 (le_bytes 4 (Z.of_nat (Completion_length c))) in
  let b := write b 20 (le_bytes 4 (Effect_repr (cp_effect c))) in
  write b 32 (take (Completion_length c) (cp_data c)).

Definition BlockStatus_parse (v : Z) : outcome BlockError BlockStatus :=
  if v =? 0 then Ok StSuccess else if v =? 1 then Ok StCancelled else if v =? 2 then Ok StIo
  else if v =? 3 then Ok StTimeout else if v =? 4 then Ok StProtocol else if v =? 5 then Ok StUnavailable
  else Err BProtocol.
Definition Effect_parse (v : Z) : outcome BlockError Effect :=
  if v =? 0 then Ok EffectNone else if v =? 1 then Ok EffectCompleted else if v =? 2 then Ok EffectUnknown
  else Err BProtocol.

Definition valid_effect (o : Operation) (s : BlockStatus) (e : Effect) : bool :=
  if bool_decide (o = OpRead) || bool_decide (s = StCancelled) || bool_decide (s = StUnavailable)
  then bool_decide (e = EffectNone)
  else if bool_decide (s = StSuccess) then bool_decide (e = EffectCompleted)
  else bool_decide (e = EffectUnknown).

Definition Completion_decode (b : list Z) : outcome BlockError Completion :=
  if negb (length b =? RESULT_BYTES)%nat then Err BSize
  else if negb (u16_at b 0 =? BLOCK_VERSION) then Err BVersion
  else
    let? operation := Operation_parse (u16_at b 2) in
    let? status := BlockStatus_parse (u32_at b 4) in
    let? effect := Effect_parse (u32_at b 20) in
    let id := u64_at b 8 in
    let expected := if carries_data status operation then SECTOR else 0%nat in
    if (id =? 0) || (MAX_ID <? id) || negb (u32_at b 16 =? Z.of_nat expected) || negb (u64_at b 24 =? 0)
       || negb (all_zero (slice b (32 + expected) RESULT_BYTES)) || negb (valid_effect operation status effect)
    then Err BProtocol
    else Ok (mkCompletion id operation status effect
               (write (zeros SECTOR) 0 (slice b 32 (32 + expected)))).

Definition Completion_valid (c : Completion) : Prop :=
  0 < cp_id c <= MAX_ID /\ valid_effect (cp_operation c) (cp_status c) (cp_effect c) = true /\
  length (cp_data c) = SECTOR /\ bytes_ok (cp_data c) /\
  (carries_data (cp_status c) (cp_operation c) = false -> cp_data c = zeros SECTOR).

Lemma BlockStatus_parse_repr v s : BlockStatus_parse v = Ok s <-> v = BlockStatus_repr s.
Proof.
  split; [unfold BlockStatus_parse; repeat case_match; bools; intros; simplify_eq; done|].
  intros ->. by destruct s.
Qed.
Lemma Effect_parse_repr v e : Effect_parse v = Ok e <-> v = Effect_repr e.
Proof.
  split; [unfold Effect_parse; repeat case_match; bools; intros; simplify_eq; done|].
  intros ->. by destruct e.
Qed.
Lemma BlockStatus_repr_fits s : fits 32 (BlockStatus_repr s).
Proof. by destruct s. Qed.
Lemma Effect_repr_fits e : fits 32 (Effect_repr e).
Proof. by destruct e. Qed.
#[export] Hint Resolve BlockStatus_repr_fits Effect_repr_fits : wire.

Lemma write_zeros_whole (d : list Z) n : length d = n -> write (zeros n) 0 d = d.
Proof. intros <-. unfold write, zeros. rewrite take_0, Nat.add_0_l, drop_replicate, Nat.sub_diag. simpl. apply app_nil_r. Qed.

Lemma write_nothing (l : list Z) i : write l i [] = l.
Proof. unfold write. simpl. rewrite Nat.add_0_r. apply take_drop. Qed.

Lemma fits_MAX_ID id : 0 < id <= MAX_ID -> fits 64 id.
Proof. change MAX_ID with (2 ^ 56 - 1). unfold fits. lia. Qed.

(** The data part of an encoding, with and without data. *)
Lemma Completion_data_length c :
  length (cp_data c) = SECTOR -> length (take (Completion_length c) (cp_data c)) = Completion_length c.
Proof. intros H. rewrite length_take, H. unfold Completion_length. destruct (carries_data _ _); lia. Qed.

Lemma Completion_length_le c : (Completion_length c <= SECTOR)%nat.
Proof. unfold Completion_length. destruct (carries_data _ _); lia. Qed.

Lemma Completion_round c : Completion_valid c -> Completion_decode (Completion_encode c) = Ok c.
Proof.
  intros (Hid & Heff & Hlen & Hok & Hz).
  pose proof (Completion_data_length c Hlen) as Hd. pose proof (Completion_length_le c) as Hn.
  assert (Hwhole : write (zeros SECTOR) 0 (take (Completion_length c) (cp_data c)) = cp_data c).
  { unfold Completion_length. destruct (carries_data _ _) eqn:E.
    - rewrite take_ge by lia. by apply write_zeros_whole.
    - rewrite take_0, write_nothing. by rewrite Hz. }
  assert (Hexp : (if carries_data (cp_status c) (cp_operation c) then SECTOR else 0%nat) = Completion_length c) by done.
  pose proof (fits_MAX_ID _ Hid) as Hid64.
  set (n := Completion_length c) in *. set (d := take n (cp_data c)) in *.
  assert (Hb : exists b, Completion_encode c = b /\ length b = RESULT_BYTES /\ u16_at b 0 = BLOCK_VERSION /\
    u16_at b 2 = Operation_repr (cp_operation c) /\ u32_at b 4 = BlockStatus_repr (cp_status c) /\
    u64_at b 8 = cp_id c /\ u32_at b 16 = Z.of_nat n /\ u32_at b 20 = Effect_repr (cp_effect c) /\
    u64_at b 24 = 0 /\ slice b 32 (32 + n) = d /\ slice b (32 + n) RESULT_BYTES = zeros (512 - n)).
  { eexists. split; [reflexivity|]. unfold Completion_encode. fold n. fold d. clearbody d n. clear Hexp Hwhole Hz.
    wire_unfold. repeat match goal with |- _ /\ _ => split end; try wire_read.
    wire_length. }
  destruct Hb as (b & -> & L & R0 & R2 & R4 & R8 & R16 & R20 & R24 & R32 & Rz).
  unfold Completion_decode. rewrite L, R0, R2, R4, R8, R16, R20, R24, Operation_parse_ok.
  rewrite (proj2 (BlockStatus_parse_repr _ _) eq_refl), (proj2 (Effect_parse_repr _ _) eq_refl).
  do 2 no_guard ltac:(done). cbv zeta. rewrite Hexp, R32, Rz, Heff, all_zero_zeros.
  no_guard ltac:(first [lia | done]). rewrite Hwhole. by destruct c.
Qed.

Lemma Completion_canonical b c :
  bytes_ok b -> Completion_decode b = Ok c -> Completion_valid c /\ Completion_encode c = b.
Proof.
  intros Hb H. unfold Completion_decode in H. guards H. bools.
  destruct (Operation_parse _) as [o|?|] eqn:Ho; [|done|done]. apply Operation_parse_repr in Ho.
  destruct (BlockStatus_parse _) as [s|?|] eqn:Hs; [|done|done]. apply BlockStatus_parse_repr in Hs.
  destruct (Effect_parse _) as [e|?|] eqn:He; [|done|done]. apply Effect_parse_repr in He.
  cbv zeta in H. guards H. bools.
  set (n := if carries_data s o then SECTOR else 0%nat) in *.
  assert (Hn : (n <= 512)%nat) by (unfold n; wire_unfold; destruct (carries_data s o); lia).
  injection H as <-. wire_unfold.
  assert (F8 : fits 64 (le_value (slice b 8 16))) by (eapply field_fits; [done|lia|reflexivity|done]).
  assert (Ld : length (slice b 32 (32 + n)) = n) by (rewrite length_slice by lia; lia).
  assert (Hlen : length (write (zeros 512) 0 (slice b 32 (32 + n))) = 512%nat)
    by (eapply length_write_at; [apply length_zeros|exact Ld|lia]).
  assert (Hdata : take n (write (zeros 512) 0 (slice b 32 (32 + n))) = slice b 32 (32 + n)).
  { unfold write. rewrite take_0. cbn [app]. rewrite take_app_le by lia. apply take_ge. lia. }
  assert (Hcl : forall id d, Completion_length (mkCompletion id o s e d) = n) by done.
  split.
  - unfold Completion_valid, fits in *. cbn [cp_id cp_operation cp_status cp_effect cp_data].
    split; [lia|]. split; [done|]. split; [done|]. split.
    + apply bytes_ok_write; auto with wire.
    + intros Hc. unfold n. rewrite Hc. exact (write_nothing (zeros 512) 0).
  - unfold Completion_encode. wire_unfold. rewrite Hcl.
    cbn [cp_id cp_operation cp_status cp_effect cp_data]. rewrite Hdata. clearbody n.
    wire_fields [2; 4; 8; 16; 20; 24; 32; 32 + n; 544]%nat.
Qed.

Lemma Completion_laws : codec_laws Completion_encode Completion_decode Completion_valid.
Proof.
  split; [apply Completion_round|apply Completion_canonical| |].
  - intros c (_ & _ & _ & Hok & _). unfold Completion_encode. cbv zeta.
    assert (bytes_ok (take (Completion_length c) (cp_data c))) by (by apply Forall_take). wire_bytes.
  - intros b. unfold Completion_decode. pose proof (Operation_parse_total (u16_at b 2)).
    unfold BlockStatus_parse, Effect_parse. repeat case_match; done.
Qed.
#[export] Instance Completion_codec : WireCodec Completion BlockError := {| wire_laws := Completion_laws |}.
