(* ===== verification/AbiFiles.v ===== *)
(** * The file-service packet (crates/abi/src/files.rs)

    The 64-byte frame every file-service exchange uses: its error codes, its
    codec, its reply check, and the laws a typed message over a packet follows. *)
From stdpp Require Import base list option numbers.
From Stdlib Require Import ZArith Lia Bool.
From S2P Require Import Prelude Bytes Codec.

Definition FILES_VERSION : Z := 1.
Definition PACKET_SIZE : nat := 64.
Definition DATA : nat := 40.
Definition OP_REFERENCES : Z := 15.
Definition READ_OPEN : Z := 16.
Definition READ_CHUNK : Z := 17.
Definition REPLACE_OPEN : Z := 18.
Definition OPERATION_RETRY : Z := 22.
Definition OPERATION_ID : Z := 23.
Definition OPERATION_PART : Z := 24.
Definition OP_CAPABILITIES : Z := 58.
Definition MAX_INLINE : Z := 1024.

#[export] Hint Unfold PACKET_SIZE DATA : wire_sizes.

Inductive FileError :=
| FProtocol | FIo | FUncertain | FInvalid | FCorrupt | FNotFound | FExists | FNotDirectory | FIsDirectory
| FNotEmpty | FFull | FSize | FVersion | FReadOnly | FEmpty | FExhausted | FDenied | FRevoked | FExpired | FBusy
| FNoTransfer | FOffset | FClosed | FUnsupported | FLineage | FExpiredEpoch | FOutcomeUnknown
| FIdempotencyConflict | FInterrupted | FUnsupportedVersion | FUnavailable.
#[global] Instance FileError_eq_dec : EqDecision FileError.
Proof. solve_decision. Defined.

(** [repr(u8)]. *)
Definition FileError_repr (e : FileError) : Z :=
  match e with
  | FProtocol => 1 | FIo => 2 | FUncertain => 3 | FInvalid => 4 | FCorrupt => 5 | FNotFound => 6 | FExists => 7
  | FNotDirectory => 8 | FIsDirectory => 9 | FNotEmpty => 10 | FFull => 11 | FSize => 12 | FVersion => 13
  | FReadOnly => 14 | FEmpty => 15 | FExhausted => 16 | FDenied => 17 | FRevoked => 18 | FExpired => 19 | FBusy => 20
  | FNoTransfer => 21 | FOffset => 22 | FClosed => 23 | FUnsupported => 24 | FLineage => 25 | FExpiredEpoch => 26
  | FOutcomeUnknown => 27 | FIdempotencyConflict => 28 | FInterrupted => 29 | FUnsupportedVersion => 30
  | FUnavailable => 31
  end.

Definition FileError_parse (value : Z) : outcome FileError unit :=
  match value with
  | 0 => Ok tt
  | 1 => Err FProtocol | 2 => Err FIo | 3 => Err FUncertain | 4 => Err FInvalid | 5 => Err FCorrupt
  | 6 => Err FNotFound | 7 => Err FExists | 8 => Err FNotDirectory | 9 => Err FIsDirectory | 10 => Err FNotEmpty
  | 11 => Err FFull | 12 => Err FSize | 13 => Err FVersion | 14 => Err FReadOnly | 15 => Err FEmpty
  | 16 => Err FExhausted | 17 => Err FDenied | 18 => Err FRevoked | 19 => Err FExpired | 20 => Err FBusy
  | 21 => Err FNoTransfer | 22 => Err FOffset | 23 => Err FClosed | 24 => Err FUnsupported | 25 => Err FLineage
  | 26 => Err FExpiredEpoch | 27 => Err FOutcomeUnknown | 28 => Err FIdempotencyConflict | 29 => Err FInterrupted
  | 30 => Err FUnsupportedVersion | 31 => Err FUnavailable
  | _ => Err FProtocol
  end.

Record Packet := mkPacket {
  p_op : Z;
  p_status : Z;
  p_count : Z;
  p_id : Z;
  p_arg : Z;
  p_context : Z;
  p_version : Z;
  p_data : list Z;
}.

Definition Packet_new (op : Z) : Packet := mkPacket op 0 0 0 0 0 0 (zeros DATA).

Definition Packet_encode (p : Packet) : list Z :=
  let b := zeros PACKET_SIZE in
  let b := write b 0 (le_bytes 1 FILES_VERSION) in
  let b := write b 1 (le_bytes 1 (p_op p)) in
  let b := write b 2 (le_bytes 1 (p_status p)) in
  let b := write b 3 (le_bytes 1 (p_count p)) in
  let b := write b 4 (le_bytes 4 (p_id p)) in
  let b := write b 8 (le_bytes 4 (p_arg p)) in
  let b := write b 12 (le_bytes 4 (p_context p)) in
  let b := write b 16 (le_bytes 8 (p_version p)) in
  write b 24 (p_data p).

(** [matches!(b[1], 1..=24 | 32..=34 | 48..=62)]. *)
Definition known_op (op : Z) : bool :=
  ((1 <=? op) && (op <=? 24)) || ((32 <=? op) && (op <=? 34)) || ((48 <=? op) && (op <=? 62)).

Definition Packet_decode (b : list Z) : outcome FileError Packet :=
  if negb (length b =? PACKET_SIZE)%nat || negb (byte_at b 0 =? FILES_VERSION)
     || (Z.of_nat DATA <? byte_at b 3) || negb (known_op (byte_at b 1))
  then Err FProtocol
  else
    let data := slice b 24 PACKET_SIZE in
    if negb (all_zero (drop (Z.to_nat (byte_at b 3)) data)) then Err FProtocol
    else Ok (mkPacket (byte_at b 1) (byte_at b 2) (byte_at b 3) (u32_at b 4) (u32_at b 8) (u32_at b 12)
               (u64_at b 16) data).

Definition Packet_payload (p : Packet) : list Z := take (Nat.min (Z.to_nat (p_count p)) DATA) (p_data p).

Definition checked_reply (p : Packet) (op context : Z) : outcome FileError Packet :=
  if negb (p_op p =? op) || negb (p_context p =? context) || (Z.of_nat DATA <? p_count p)
     || negb (all_zero (drop (Z.to_nat (p_count p)) (p_data p)))
     || (negb (p_status p =? 0)
         && (negb (p_id p =? 0) || negb (p_arg p =? 0) || negb (p_version p =? 0) || negb (p_count p =? 0)))
  then Err FProtocol
  else let? _ := FileError_parse (p_status p) in Ok p.

(** ** The frame codec *)
(** A packet whose fields have their machine width. *)
Record packet_fits (p : Packet) : Prop := {
  pf_op : fits 8 (p_op p);
  pf_status : fits 8 (p_status p);
  pf_count : fits 8 (p_count p);
  pf_id : fits 32 (p_id p);
  pf_arg : fits 32 (p_arg p);
  pf_context : fits 32 (p_context p);
  pf_version : fits 64 (p_version p);
  pf_length : length (p_data p) = DATA;
  pf_bytes : bytes_ok (p_data p);
}.

Definition Packet_valid (p : Packet) : Prop :=
  packet_fits p /\ known_op (p_op p) = true /\ p_count p <= Z.of_nat DATA /\
  all_zero (drop (Z.to_nat (p_count p)) (p_data p)) = true.

Lemma length_Packet_encode p : length (p_data p) = DATA -> length (Packet_encode p) = PACKET_SIZE.
Proof. intros. unfold Packet_encode. wire_unfold. wire_length. Qed.

Lemma Packet_round p : Packet_valid p -> Packet_decode (Packet_encode p) = Ok p.
Proof.
  intros ([F1 F2 F3 F4 F5 F6 F7 L B] & Hop & Hc & Hz). pose proof (length_Packet_encode p L) as Lb.
  assert (Hb : exists b, Packet_encode p = b /\ byte_at b 0 = FILES_VERSION /\ byte_at b 1 = p_op p /\ byte_at b 2 = p_status p /\
    byte_at b 3 = p_count p /\ u32_at b 4 = p_id p /\ u32_at b 8 = p_arg p /\ u32_at b 12 = p_context p /\
    u64_at b 16 = p_version p /\ slice b 24 PACKET_SIZE = p_data p).
  { eexists. split; [reflexivity|]. unfold Packet_encode. wire_unfold. repeat match goal with |- _ /\ _ => split end; try wire_read. }
  destruct Hb as (b & E & R0 & R1 & R2 & R3 & R4 & R8 & R12 & R16 & R24). rewrite E in Lb |- *.
  unfold Packet_decode. cbv zeta. rewrite Lb, R0, R1, R2, R3, R4, R8, R12, R16, R24, Hop, Hz.
  no_guard ltac:(first [done|wire_unfold; lia]). by destruct p.
Qed.

Lemma Packet_canonical b p : bytes_ok b -> Packet_decode b = Ok p -> Packet_valid p /\ Packet_encode p = b.
Proof.
  intros Hb H. unfold Packet_decode in H. cbv zeta in H. guards H. injection H as <-. bools.
  assert (Hf : forall i j n, (j <= 64)%nat -> (n = j - i)%nat -> fits (8 * Z.of_nat n) (le_value (slice b i j)))
    by (intros; eapply field_fits; [done|wire_unfold; lia|done|done]).
  split.
  - split; [|done]. wire_unfold. split; cbn [p_op p_status p_count p_id p_arg p_context p_version p_data].
    1-3: by apply (Hf _ _ 1%nat); [lia|]. 1-3: by apply (Hf _ _ 4%nat); [lia|]. 1: by apply (Hf _ _ 8%nat); [lia|].
    + wire_unfold. rewrite length_slice; lia.
    + by apply bytes_ok_slice.
  - unfold Packet_encode. wire_unfold. cbn [p_op p_status p_count p_id p_arg p_context p_version p_data].
    assert (Ld : length (slice b 24 64) = 40%nat) by (rewrite length_slice; lia).
    wire_fields [1; 2; 3; 4; 8; 12; 16; 24; 64]%nat.
Qed.

Lemma Packet_laws : codec_laws Packet_encode Packet_decode Packet_valid.
Proof.
  split; [apply Packet_round|apply Packet_canonical| |].
  - intros p [[] _]. unfold Packet_encode. cbv zeta. wire_bytes.
  - intros b. unfold Packet_decode. cbv zeta. repeat case_match; done.
Qed.
#[export] Instance Packet_codec : WireCodec Packet FileError := {| wire_laws := Packet_laws |}.

Lemma FileError_parse_repr e : FileError_parse (FileError_repr e) = Err e.
Proof. by destruct e. Qed.
Lemma FileError_parse_ok v : FileError_parse v = Ok tt <-> v = 0.
Proof.
  split; [|by intros ->]. destruct v as [|v|v]; [done| |done].
  do 6 (destruct v as [v|v|]; try done).
Qed.
