(* ===== verification/AbiIdentity.v ===== *)
(** * Stable identities and their text (crates/abi/src/files/reference.rs,
      reference/text.rs, operation/identity.rs, admission/identity.rs)

    Workspaces, resources, versions, epochs, keys, operations, instances and
    admissions, with the canonical lowercase-hex text of each.  Text is its ASCII
    bytes; [write!(f, "{:08x}", n)] of a [u32] is [hex_text (be_bytes 4 n)]. *)
From stdpp Require Import base list option numbers.
From Stdlib Require Import ZArith Lia Bool.
From S2P Require Import Prelude Bytes Codec AbiFiles.

(** ** Identities *)
Definition no_lineage (l : list Z) : bool := bool_decide (l = zeros 16).

Record Workspace := mkWorkspace { ws_lineage : list Z; ws_root : Z }.
Definition Workspace_new (lineage : list Z) (root : Z) : outcome FileError Workspace :=
  if no_lineage lineage || (root =? 0) then Err FInvalid else Ok (mkWorkspace lineage root).

Record Resource := mkResource { rs_workspace : Workspace; rs_object : Z }.
Definition Resource_new (workspace : Workspace) (object : Z) : outcome FileError Resource :=
  if object =? 0 then Err FInvalid else Ok (mkResource workspace object).

Record References := mkReferences { rf_workspace : Workspace; rf_resource : Resource }.

Record Version := mkVersion { v_value : Z }.
Definition Version_new (value : Z) : outcome FileError Version :=
  if value =? 0 then Err FInvalid else Ok (mkVersion value).

Record Epoch := mkEpoch { e_value : Z }.
Definition Epoch_new (value : Z) : outcome FileError Epoch :=
  if value =? 0 then Err FInvalid else Ok (mkEpoch value).

Record Key := mkKey { k_value : Z }.
Definition Key_new (value : Z) : outcome FileError Key :=
  if value =? 0 then Err FInvalid else Ok (mkKey value).

Record OperationId := mkOperationId { oi_lineage : list Z; oi_sequence : Z }.
Definition OperationId_new (lineage : list Z) (sequence : Z) : outcome FileError OperationId :=
  if no_lineage lineage || (sequence =? 0) then Err FInvalid else Ok (mkOperationId lineage sequence).

Record Instance_ := mkInstance { in_id : OperationId }.
Definition Instance_new (lineage : list Z) (sequence : Z) : outcome FileError Instance_ :=
  let? id := OperationId_new lineage sequence in Ok (mkInstance id).
Definition Instance_lineage (i : Instance_) : list Z := oi_lineage (in_id i).
Definition Instance_sequence (i : Instance_) : Z := oi_sequence (in_id i).

Record AdmissionId := mkAdmissionId { ai_lineage : list Z; ai_number : Z }.
Definition AdmissionId_new (lineage : list Z) (number : Z) : outcome FileError AdmissionId :=
  if no_lineage lineage || (number =? 0) then Err FInvalid else Ok (mkAdmissionId lineage number).

#[global] Instance Workspace_eq_dec : EqDecision Workspace.
Proof. solve_decision. Defined.
#[global] Instance Resource_eq_dec : EqDecision Resource.
Proof. solve_decision. Defined.
#[global] Instance Version_eq_dec : EqDecision Version.
Proof. solve_decision. Defined.

(** ** Hexadecimal text *)
Definition hex_digit (d : Z) : Z := if d <? 10 then 48 + d else 87 + d.
Definition hex_byte (b : Z) : list Z := [hex_digit (b / 16); hex_digit (b mod 16)].

(** [lineage]: two digits per byte. *)
Fixpoint hex_text (l : list Z) : list Z :=
  match l with [] => [] | b :: l => hex_byte b ++ hex_text l end.

Definition digit (b : Z) : outcome FileError Z :=
  if (48 <=? b) && (b <=? 57) then Ok (b - 48)
  else if (97 <=? b) && (b <=? 102) then Ok (b - 97 + 10)
  else Err FInvalid.

(** The loop of [hex] over pairs of bytes. *)
Fixpoint hex_pairs (l : list Z) : outcome FileError (list Z) :=
  match l with
  | a :: b :: l =>
    let? x := digit a in let? y := digit b in let? r := hex_pairs l in Ok (x * 16 + y :: r)
  | _ => Ok []
  end.

Definition hex (n : nat) (bytes : list Z) : outcome FileError (list Z) :=
  if negb (length bytes =? n * 2)%nat then Err FInvalid else hex_pairs bytes.

Definition text_ws : list Z := [119; 115; 95].
Definition text_rs : list Z := [114; 115; 95].
Definition text_op : list Z := [111; 112; 95].
Definition text_si : list Z := [115; 105; 95].
Definition text_ad : list Z := [97; 100; 95].
Definition text_v : list Z := [118; 95].
Definition text_e : list Z := [101; 95].
Definition text_k : list Z := [107; 95].

Definition starts (b prefix : list Z) : bool := bool_decide (take (length prefix) b = prefix).

Definition Workspace_text (w : Workspace) : list Z :=
  text_ws ++ hex_text (ws_lineage w) ++ [95] ++ hex_text (be_bytes 4 (ws_root w)).
Definition Workspace_from_str (b : list Z) : outcome FileError Workspace :=
  if negb (length b =? 44)%nat || negb (starts b text_ws) || negb (byte_at b 35 =? 95) then Err FInvalid
  else let? l := hex 16 (slice b 3 35) in let? r := hex 4 (slice b 36 44) in Workspace_new l (be_value r).

Definition Resource_text (r : Resource) : list Z :=
  text_rs ++ hex_text (ws_lineage (rs_workspace r)) ++ [95] ++ hex_text (be_bytes 4 (ws_root (rs_workspace r)))
    ++ [95] ++ hex_text (be_bytes 4 (rs_object r)).
Definition Resource_from_str (b : list Z) : outcome FileError Resource :=
  if negb (length b =? 53)%nat || negb (starts b text_rs) || negb (byte_at b 35 =? 95) || negb (byte_at b 44 =? 95)
  then Err FInvalid
  else
    let? l := hex 16 (slice b 3 35) in let? r := hex 4 (slice b 36 44) in
    let? w := Workspace_new l (be_value r) in
    let? o := hex 4 (slice b 45 53) in Resource_new w (be_value o).

Definition Version_text (v : Version) : list Z := text_v ++ hex_text (be_bytes 8 (v_value v)).
Definition Version_from_str (b : list Z) : outcome FileError Version :=
  if negb (length b =? 18)%nat || negb (starts b text_v) then Err FInvalid
  else let? n := hex 8 (drop 2 b) in Version_new (be_value n).

Definition Epoch_text (e : Epoch) : list Z := text_e ++ hex_text (be_bytes 8 (e_value e)).
Definition Epoch_from_str (b : list Z) : outcome FileError Epoch :=
  if negb (length b =? 18)%nat || negb (starts b text_e) then Err FInvalid
  else let? n := hex 8 (drop 2 b) in Epoch_new (be_value n).

Definition Key_text (k : Key) : list Z := text_k ++ hex_text (be_bytes 8 (k_value k)).
Definition Key_from_str (b : list Z) : outcome FileError Key :=
  if negb (length b =? 18)%nat || negb (starts b text_k) then Err FInvalid
  else let? n := hex 8 (drop 2 b) in Key_new (be_value n).

Definition OperationId_text (o : OperationId) : list Z :=
  text_op ++ hex_text (oi_lineage o) ++ [95] ++ hex_text (be_bytes 8 (oi_sequence o)).
Definition OperationId_from_str (b : list Z) : outcome FileError OperationId :=
  if negb (length b =? 52)%nat || negb (starts b text_op) || negb (byte_at b 35 =? 95) then Err FInvalid
  else let? l := hex 16 (slice b 3 35) in let? n := hex 8 (drop 36 b) in OperationId_new l (be_value n).

Definition Instance_text (i : Instance_) : list Z :=
  text_si ++ hex_text (Instance_lineage i) ++ [95] ++ hex_text (be_bytes 8 (Instance_sequence i)).

Definition AdmissionId_text (a : AdmissionId) : list Z :=
  text_ad ++ hex_text (ai_lineage a) ++ [95] ++ hex_text (be_bytes 8 (ai_number a)).
Definition AdmissionId_from_str (b : list Z) : outcome FileError AdmissionId :=
  if negb (length b =? 52)%nat || negb (starts b text_ad) || negb (byte_at b 35 =? 95) then Err FInvalid
  else let? l := hex 16 (slice b 3 35) in let? n := hex 8 (drop 36 b) in AdmissionId_new l (be_value n).

(** ** Hex round trips *)
Lemma length_hex_text l : length (hex_text l) = (length l * 2)%nat.
Proof. induction l as [|b l IH]; [done|]. simpl. rewrite IH. lia. Qed.

Lemma digit_hex d : 0 <= d < 16 -> digit (hex_digit d) = Ok d.
Proof.
  intros Hd. unfold hex_digit, digit. destruct (Z.ltb_spec d 10).
  - destruct (Z.leb_spec 48 (48 + d)), (Z.leb_spec (48 + d) 57); try lia. cbn [andb]. f_equal. lia.
  - destruct (Z.leb_spec 48 (87 + d)), (Z.leb_spec (87 + d) 57), (Z.leb_spec 97 (87 + d)), (Z.leb_spec (87 + d) 102); try lia.
    cbn [andb]. f_equal. lia.
Qed.

Lemma digit_inv b d : digit b = Ok d -> 0 <= d < 16 /\ hex_digit d = b.
Proof.
  unfold digit, hex_digit. repeat case_match; intros; simplify_eq; bools; lia.
Qed.

Lemma hex_pairs_text l : bytes_ok l -> hex_pairs (hex_text l) = Ok l.
Proof.
  induction 1 as [|b l Hb _ IH]; [done|]. unfold is_byte in Hb. cbn [hex_text hex_byte app hex_pairs].
  rewrite !digit_hex, IH; [|apply Z.mod_pos_bound; lia|split; [apply Z.div_pos; lia|apply Z.div_lt_upper_bound; lia]].
  do 2 f_equal. pose proof (Z.div_mod b 16). lia.
Qed.

Lemma hex_pairs_inv n : forall t l, length t = (n * 2)%nat -> hex_pairs t = Ok l -> length l = n /\ bytes_ok l /\ hex_text l = t.
Proof.
  induction n as [|n IH]; intros t l Ht Hl.
  - destruct t; [|done]. simpl in Hl. injection Hl as <-. split; [done|]. split; [constructor|done].
  - destruct t as [|a [|b t]]; [done|done|]. simpl in Ht. cbn [hex_pairs] in Hl.
    destruct (digit a) as [x|?|] eqn:Ea; [|done|done]. destruct (digit b) as [y|?|] eqn:Eb; [|done|done].
    destruct (hex_pairs t) as [r|?|] eqn:Er; [|done|done]. injection Hl as <-.
    apply digit_inv in Ea as [Hx <-]. apply digit_inv in Eb as [Hy <-].
    destruct (IH t r ltac:(lia) Er) as (L & B & <-). split; [simpl; lia|]. split.
    + constructor; [|done]. unfold is_byte. lia.
    + cbn [hex_text hex_byte app]. f_equal; [f_equal|f_equal].
      * symmetry. apply (Z.div_unique_pos _ 16 x y); lia.
      * f_equal. symmetry. apply (Z.mod_unique_pos _ 16 x y); lia.
Qed.

Lemma hex_spec n t l : hex n t = Ok l <-> length l = n /\ bytes_ok l /\ t = hex_text l.
Proof.
  unfold hex. split.
  - case_match; [done|]. bools. intros Hl. destruct (hex_pairs_inv n t l) as (? & ? & ?); done.
  - intros (Hl & Hb & ->). rewrite length_hex_text, Hl, Nat.eqb_refl. by apply hex_pairs_text.
Qed.

Lemma hex_total n t : hex n t <> Panic.
Proof.
  unfold hex. case_match; [done|]. assert (H0 : forall m t, (length t <= m)%nat -> hex_pairs t <> Panic).
  { intros m. induction m as [|m IH]; intros [|a [|b u]] Hm; simpl in *; try done; try lia.
    unfold digit. specialize (IH u ltac:(lia)). repeat case_match; done. }
  by apply (H0 (length t)).
Qed.

(** ** Pieces of a text *)
Lemma slice_mid (a s b : list Z) i j : length a = i -> (j = i + length s)%nat -> slice (a ++ s ++ b) i j = s.
Proof.
  intros <- ->. unfold slice. rewrite drop_app_length. replace (length a + length s - length a)%nat with (length s) by lia.
  by rewrite take_app_length.
Qed.

Lemma byte_at_spec l i c : (i < length l)%nat -> byte_at l i = c <-> slice l i (i + 1) = [c].
Proof.
  intros Hi. unfold byte_at. assert (Hl : length (slice l i (i + 1)) = 1%nat) by (rewrite length_slice; lia).
  destruct (slice l i (i + 1)) as [|x [|]]; [done| |done]. unfold le_value. split; [intros <-; f_equal; lia|intros [= ->]; lia].
Qed.

Lemma starts_spec b p : starts b p = true <-> slice b 0 (length p) = p.
Proof. unfold starts, slice. rewrite bool_decide_eq_true, drop_0, Nat.sub_0_r. done. Qed.

(** [prefix lineage _ number], the number of [k] bytes. *)
Lemma tagged_text p b k l n :
  length p = 3%nat ->
  ((length b = 36 + k * 2)%nat /\ starts b p = true /\ byte_at b 35 = 95 /\
   hex 16 (slice b 3 35) = Ok l /\ hex k (slice b 36 (36 + k * 2)) = Ok n) <->
  (b = p ++ hex_text l ++ [95] ++ hex_text n /\ length l = 16%nat /\ bytes_ok l /\ length n = k /\ bytes_ok n).
Proof.
  intros Hp. rewrite !hex_spec, starts_spec, Hp. split.
  - intros (Hb & Hs & Hu & (L1 & B1 & H1) & (L2 & B2 & H2)). split; [|done].
    apply byte_at_spec in Hu; [|lia]. cbn [Nat.add] in Hu. rewrite <- H1, <- H2, <- Hs at 1. rewrite <- Hu.
    rewrite !slice_app by lia. symmetry. apply slice_full. lia.
  - intros (-> & L1 & B1 & L2 & B2). assert (E1 := length_hex_text l). assert (E2 := length_hex_text n).
    assert (Hlen : length (p ++ hex_text l ++ [95] ++ hex_text n) = (36 + k * 2)%nat)
      by (rewrite !length_app, E1, E2; simpl; lia).
    split; [done|]. split; [by apply (slice_mid [] p); [|lia]|]. split.
    { apply byte_at_spec; [lia|]. rewrite app_assoc. apply (slice_mid (p ++ hex_text l)); [rewrite length_app; lia|done]. }
    split; [split; [done|split; [done|apply slice_mid; lia]]|]. split; [done|]. split; [done|].
    replace (p ++ hex_text l ++ [95] ++ hex_text n) with ((p ++ hex_text l ++ [95]) ++ hex_text n ++ [])
      by (by rewrite app_nil_r, <- !app_assoc).
    apply slice_mid; [rewrite !length_app, E1; simpl; lia|lia].
Qed.

(** [prefix number] of eight bytes. *)
Lemma number_text p b n :
  length p = 2%nat ->
  (length b = 18%nat /\ starts b p = true /\ hex 8 (drop 2 b) = Ok n) <->
  (b = p ++ hex_text n /\ length n = 8%nat /\ bytes_ok n).
Proof.
  intros Hp. rewrite hex_spec, starts_spec, Hp. split.
  - intros (Hb & Hs & (L & B & H)). split; [|done]. rewrite <- H, <- Hs at 1. rewrite drop_slice, Hb, slice_app by lia.
    symmetry. by apply slice_full.
  - intros (-> & L & B). split; [rewrite length_app, length_hex_text; lia|].
    split; [by apply (slice_mid [] p); [|lia]|]. split; [done|]. split; [done|]. by rewrite <- Hp, drop_app_length.
Qed.

Lemma be_value_fits l n : length l = n -> bytes_ok l -> fits (8 * Z.of_nat n) (be_value l).
Proof.
  intros <- H. unfold be_value. rewrite <- (length_reverse l). apply le_value_fits. by apply Forall_reverse.
Qed.

Lemma bytes_ok_be n x : bytes_ok (be_bytes n x).
Proof. apply Forall_reverse, bytes_ok_le_bytes. Qed.

Lemma bytes_ok_hex_text l : bytes_ok l -> bytes_ok (hex_text l).
Proof.
  induction 1 as [|b l Hb _ IH]; [constructor|]. unfold is_byte in Hb.
  assert (forall d, 0 <= d < 16 -> is_byte (hex_digit d)) as Hd by (intros d Hd; unfold is_byte, hex_digit; case_match; lia).
  cbn [hex_text hex_byte app]. constructor; [|constructor; [|done]]; apply Hd.
  - split; [apply Z.div_pos; lia|apply Z.div_lt_upper_bound; lia].
  - apply Z.mod_pos_bound. lia.
Qed.

(** A number of [k] bytes and its big-endian digits. *)
Lemma be_text_inv k n : length n = k -> bytes_ok n -> hex_text n = hex_text (be_bytes k (be_value n)).
Proof. intros <- H. by rewrite be_bytes_value. Qed.

Definition lineage_ok (l : list Z) : Prop := length l = 16%nat /\ bytes_ok l /\ l <> zeros 16.

Lemma no_lineage_false l : no_lineage l = false <-> l <> zeros 16.
Proof. unfold no_lineage. apply bool_decide_eq_false. Qed.

(** ** Text codecs *)
Section Tagged.
Context {A : Type} (p : list Z) (k : nat) (mk : list Z -> Z -> A) (lin : A -> list Z) (num : A -> Z).
Context (Hp : length p = 3%nat) (Hpb : bytes_ok p).
Context (Hlin : forall l n, lin (mk l n) = l) (Hnum : forall l n, num (mk l n) = n) (Hmk : forall a, mk (lin a) (num a) = a).

Definition tagged_encode (a : A) : list Z := p ++ hex_text (lin a) ++ [95] ++ hex_text (be_bytes k (num a)).
Definition tagged_decode (b : list Z) : outcome FileError A :=
  if negb (length b =? 36 + k * 2)%nat || negb (starts b p) || negb (byte_at b 35 =? 95) then Err FInvalid
  else let? l := hex 16 (slice b 3 35) in let? n := hex k (slice b 36 (36 + k * 2)) in
       if no_lineage l || (be_value n =? 0) then Err FInvalid else Ok (mk l (be_value n)).
Definition tagged_valid (a : A) : Prop := lineage_ok (lin a) /\ num a <> 0 /\ fits (8 * Z.of_nat k) (num a).

Lemma tagged_laws : codec_laws tagged_encode tagged_decode tagged_valid.
Proof.
  split.
  - intros a ((L & B & Hz) & Hn & Hf).
    destruct (proj2 (tagged_text p (tagged_encode a) k (lin a) (be_bytes k (num a)) Hp)) as (G1 & G2 & G3 & G4 & G5).
    { split; [done|]. split; [done|]. split; [done|]. split; [apply length_be_bytes|apply bytes_ok_be]. }
    unfold tagged_decode. rewrite G1, G2, G3, G4, G5, Nat.eqb_refl, be_value_bytes by done. cbn [negb orb Z.eqb Pos.eqb].
    apply no_lineage_false in Hz. rewrite Hz. cbn [orb]. destruct (Z.eqb_spec (num a) 0); [done|]. by rewrite Hmk.
  - intros b a Hb H. unfold tagged_decode in H. destruct (_ || _) eqn:G in H; [done|]. bools.
    destruct (hex 16 _) as [l|?|] eqn:E1; [|done|done]. destruct (hex k _) as [n|?|] eqn:E2; [|done|done].
    destruct (_ || _) eqn:G2 in H; [done|]. bools. injection H as <-.
    destruct (proj1 (tagged_text p b k l n Hp)) as (-> & L & B & L2 & B2); [done|].
    unfold tagged_valid, tagged_encode. rewrite Hlin, Hnum. split.
    + split; [split; [done|]; split; [done|by apply no_lineage_false]|]. split; [done|by apply be_value_fits].
    + by rewrite (be_text_inv k n).
  - intros a ((L & B & _) & _). unfold tagged_encode. repeat (apply Forall_app; split); try done.
    + by apply bytes_ok_hex_text.
    + by constructor.
    + apply bytes_ok_hex_text, bytes_ok_be.
  - intros b. unfold tagged_decode. pose proof (hex_total 16 (slice b 3 35)). pose proof (hex_total k (slice b 36 (36 + k * 2))).
    repeat case_match; done.
Qed.
End Tagged.

Section Numbered.
Context {A : Type} (p : list Z) (mk : Z -> A) (num : A -> Z).
Context (Hp : length p = 2%nat) (Hpb : bytes_ok p) (Hnum : forall n, num (mk n) = n) (Hmk : forall a, mk (num a) = a).

Definition numbered_encode (a : A) : list Z := p ++ hex_text (be_bytes 8 (num a)).
Definition numbered_decode (b : list Z) : outcome FileError A :=
  if negb (length b =? 18)%nat || negb (starts b p) then Err FInvalid
  else let? n := hex 8 (drop 2 b) in if be_value n =? 0 then Err FInvalid else Ok (mk (be_value n)).
Definition numbered_valid (a : A) : Prop := num a <> 0 /\ fits 64 (num a).

Lemma numbered_laws : codec_laws numbered_encode numbered_decode numbered_valid.
Proof.
  split.
  - intros a (Hn & Hf). destruct (proj2 (number_text p (numbered_encode a) (be_bytes 8 (num a)) Hp)) as (G1 & G2 & G3).
    { split; [done|]. split; [apply length_be_bytes|apply bytes_ok_be]. }
    unfold numbered_decode. rewrite G1, G2, G3, be_value_bytes by done. cbn [negb orb Nat.eqb].
    destruct (Z.eqb_spec (num a) 0); [done|]. by rewrite Hmk.
  - intros b a Hb H. unfold numbered_decode in H. destruct (_ || _) eqn:G in H; [done|]. bools.
    destruct (hex 8 _) as [n|?|] eqn:E; [|done|done]. destruct (be_value n =? 0) eqn:G2 in H; [done|]. bools. injection H as <-.
    destruct (proj1 (number_text p b n Hp)) as (-> & L & B); [done|].
    unfold numbered_valid, numbered_encode. rewrite Hnum. split; [|by rewrite (be_text_inv 8 n)].
    split; [done|by apply (be_value_fits n 8)].
  - intros a _. unfold numbered_encode. apply Forall_app. split; [done|]. apply bytes_ok_hex_text, bytes_ok_be.
  - intros b. unfold numbered_decode. pose proof (hex_total 8 (drop 2 b)). repeat case_match; done.
Qed.
End Numbered.

(** Laws are about the functions' values. *)
Lemma codec_laws_ext {A E} (e e' : A -> list Z) (d d' : list Z -> outcome E A) valid :
  (forall a, e a = e' a) -> (forall b, d b = d' b) -> codec_laws e d valid -> codec_laws e' d' valid.
Proof. intros He Hd [H1 H2 H3 H4]. split; intros *; rewrite <- ?He, <- ?Hd; auto. Qed.

(** [drop] and [slice] to the end agree once the length is known. *)
Ltac tail_slice n :=
  match goal with
  | |- context [drop ?i ?b] => destruct (Nat.eqb_spec (length b) n) as [Hn|]; [|done];
      replace (drop i b) with (slice b i n) by (by rewrite drop_slice, Hn)
  end.

Lemma Workspace_text_laws : codec_laws Workspace_text Workspace_from_str (tagged_valid 4 ws_lineage ws_root).
Proof. by apply (tagged_laws text_ws 4 mkWorkspace); [done|by repeat constructor| | |intros []]. Qed.
Lemma OperationId_text_laws : codec_laws OperationId_text OperationId_from_str (tagged_valid 8 oi_lineage oi_sequence).
Proof.
  eapply codec_laws_ext; [| |apply (tagged_laws text_op 8 mkOperationId)];
    [done| |done|by repeat constructor|done|done|by intros []].
  intros b. unfold OperationId_from_str, tagged_decode. cbn [Nat.mul Nat.add]. tail_slice 52%nat. done.
Qed.
Lemma AdmissionId_text_laws : codec_laws AdmissionId_text AdmissionId_from_str (tagged_valid 8 ai_lineage ai_number).
Proof.
  eapply codec_laws_ext; [| |apply (tagged_laws text_ad 8 mkAdmissionId)];
    [done| |done|by repeat constructor|done|done|by intros []].
  intros b. unfold AdmissionId_from_str, tagged_decode. cbn [Nat.mul Nat.add]. tail_slice 52%nat. done.
Qed.
Lemma Version_text_laws : codec_laws Version_text Version_from_str (numbered_valid v_value).
Proof. by apply (numbered_laws text_v mkVersion); [done|by repeat constructor| |intros []]. Qed.
Lemma Epoch_text_laws : codec_laws Epoch_text Epoch_from_str (numbered_valid e_value).
Proof. by apply (numbered_laws text_e mkEpoch); [done|by repeat constructor| |intros []]. Qed.
Lemma Key_text_laws : codec_laws Key_text Key_from_str (numbered_valid k_value).
Proof. by apply (numbered_laws text_k mkKey); [done|by repeat constructor| |intros []]. Qed.

Definition Resource_valid (r : Resource) : Prop :=
  tagged_valid 4 ws_lineage ws_root (rs_workspace r) /\ rs_object r <> 0 /\ fits 32 (rs_object r).

(** A resource's text is a workspace text under another prefix, then the object. *)
Lemma resource_text b l n o :
  (length b = 53%nat /\ starts b text_rs = true /\ byte_at b 35 = 95 /\ byte_at b 44 = 95 /\
   hex 16 (slice b 3 35) = Ok l /\ hex 4 (slice b 36 44) = Ok n /\ hex 4 (slice b 45 53) = Ok o) <->
  (b = text_rs ++ hex_text l ++ [95] ++ hex_text n ++ [95] ++ hex_text o /\ length l = 16%nat /\ bytes_ok l /\
   length n = 4%nat /\ bytes_ok n /\ length o = 4%nat /\ bytes_ok o).
Proof.
  assert (Hsplit : length b = 53%nat -> byte_at b 44 = 95 -> b = take 44 b ++ [95] ++ slice b 45 53).
  { intros Hb Hu. apply byte_at_spec in Hu; [|lia]. cbn [Nat.add] in Hu. rewrite <- Hu. replace (take 44 b) with (slice b 0 44) by done.
    rewrite !slice_app by lia. symmetry. by apply slice_full. }
  assert (Htag := tagged_text text_rs (take 44 b) 4 l n eq_refl). rewrite !slice_take in Htag by lia.
  assert (Hst : starts (take 44 b) text_rs = starts b text_rs) by (unfold starts; by rewrite take_take).
  assert (Hby : byte_at (take 44 b) 35 = byte_at b 35) by (unfold byte_at; by rewrite slice_take by lia).
  rewrite Hst, Hby in Htag. split.
  - intros (Hb & Hs & H35 & H44 & E1 & E2 & E3). destruct (proj1 Htag) as (Ht & ? & ? & ? & ?).
    { split; [rewrite length_take; lia|done]. }
    apply hex_spec in E3 as (? & ? & Ho). split; [|done]. rewrite (Hsplit Hb H44), Ht, Ho, <- !app_assoc. done.
  - intros (Hb & L1 & B1 & L2 & B2 & L3 & B3). assert (E1 := length_hex_text l). assert (E2 := length_hex_text n).
    assert (E3 := length_hex_text o).
    assert (Ht : take 44 b = text_rs ++ hex_text l ++ [95] ++ hex_text n).
    { rewrite Hb. replace (text_rs ++ hex_text l ++ [95] ++ hex_text n ++ [95] ++ hex_text o) with
        ((text_rs ++ hex_text l ++ [95] ++ hex_text n) ++ [95] ++ hex_text o) by (by rewrite <- !app_assoc).
      apply take_app_length'. rewrite !length_app, E1, E2. simpl. lia. }
    assert (Hb' : b = take 44 b ++ [95] ++ hex_text o) by (rewrite Ht, Hb, <- !app_assoc; done).
    assert (Hl : length b = 53%nat) by (rewrite Hb, !length_app, E1, E2, E3; simpl; lia).
    assert (L44 : length (take 44 b) = 44%nat) by (rewrite length_take; lia).
    destruct (proj2 Htag) as (_ & G1 & G2 & G3 & G4); [done|]. split; [done|]. split; [done|]. split; [done|]. split.
    { apply byte_at_spec; [lia|]. rewrite Hb'. by apply slice_mid. }
    split; [done|]. split; [done|]. apply hex_spec. split; [done|]. split; [done|].
    rewrite Hb'. replace (take 44 b ++ [95] ++ hex_text o) with ((take 44 b ++ [95]) ++ hex_text o ++ [])
      by (by rewrite app_nil_r, <- !app_assoc).
    apply slice_mid; [rewrite length_app; simpl; lia|lia].
Qed.

Lemma Resource_text_laws : codec_laws Resource_text Resource_from_str Resource_valid.
Proof.
  split.
  - intros [[l r] o] (((L & B & Hz) & Hr & Hrf) & Ho & Hof). simpl in *.
    destruct (proj2 (resource_text (Resource_text (mkResource (mkWorkspace l r) o)) l (be_bytes 4 r) (be_bytes 4 o)))
      as (G1 & G2 & G3 & G4 & G5 & G6 & G7).
    { split; [done|]. split; [done|]. split; [done|]. split; [apply length_be_bytes|]. split; [apply bytes_ok_be|].
      split; [apply length_be_bytes|apply bytes_ok_be]. }
    unfold Resource_from_str. rewrite G1, G2, G3, G4, G5, G6, G7, !be_value_bytes by done. cbn [negb orb Z.eqb Pos.eqb Nat.eqb].
    apply no_lineage_false in Hz. unfold Workspace_new, Resource_new. rewrite Hz. cbn [orb].
    destruct (Z.eqb_spec r 0); [done|]. by destruct (Z.eqb_spec o 0).
  - intros b a Hb H. unfold Resource_from_str in H. destruct (_ || _) eqn:G in H; [done|]. bools.
    destruct (hex 16 _) as [l|?|] eqn:E1; [|done|done]. destruct (hex 4 (slice b 36 44)) as [n|?|] eqn:E2; [|done|done].
    unfold Workspace_new in H. destruct (_ || _) eqn:G2 in H; [done|]. bools.
    destruct (hex 4 (slice b 45 53)) as [o|?|] eqn:E3; [|done|done]. unfold Resource_new in H.
    destruct (be_value o =? 0) eqn:G3 in H; [done|]. bools. injection H as <-.
    destruct (proj1 (resource_text b l n o)) as (-> & L1 & B1 & L2 & B2 & L3 & B3); [done|].
    unfold Resource_valid, tagged_valid, Resource_text. cbn [rs_workspace rs_object ws_lineage ws_root]. split.
    + split; [split; [split; [done|split; [done|by apply no_lineage_false]]|split; [done|by apply be_value_fits]]|].
      split; [done|by apply (be_value_fits o 4)].
    + by rewrite (be_text_inv 4 n), (be_text_inv 4 o).
  - intros r (((L & B & _) & _) & _). unfold Resource_text.
    assert (bytes_ok [95]) by (by repeat constructor). assert (bytes_ok text_rs) by (by repeat constructor).
    unfold bytes_ok. rewrite !Forall_app. split_and!; try done; apply bytes_ok_hex_text; try done; apply bytes_ok_be.
  - intros b. unfold Resource_from_str, Workspace_new, Resource_new. pose proof (hex_total 16 (slice b 3 35)).
    pose proof (hex_total 4 (slice b 36 44)). pose proof (hex_total 4 (slice b 45 53)). repeat case_match; simplify_eq; done.
Qed.

(** ** Claims *)
(** Workspaces, resources, versions, epochs, keys, operations and
    admissions print to one text each, the text parses back to the identity, every accepted text is
    the canonical one, and parsing never panics; the operation and admission texts, and the version,
    epoch and key texts, cannot be taken for each other. *)
Theorem identity_text_is_canonical :
  codec_laws Workspace_text Workspace_from_str (tagged_valid 4 ws_lineage ws_root) /\
  codec_laws Resource_text Resource_from_str Resource_valid /\
  codec_laws OperationId_text OperationId_from_str (tagged_valid 8 oi_lineage oi_sequence) /\
  codec_laws AdmissionId_text AdmissionId_from_str (tagged_valid 8 ai_lineage ai_number) /\
  codec_laws Version_text Version_from_str (numbered_valid v_value) /\
  codec_laws Epoch_text Epoch_from_str (numbered_valid e_value) /\
  codec_laws Key_text Key_from_str (numbered_valid k_value) /\
  (forall b o, OperationId_from_str b = Ok o -> AdmissionId_from_str b = Err FInvalid) /\
  (forall b v, Version_from_str b = Ok v -> Epoch_from_str b = Err FInvalid /\ Key_from_str b = Err FInvalid) /\
  (forall b e, Epoch_from_str b = Ok e -> Key_from_str b = Err FInvalid).
Proof.
  assert (Hsw : forall b p q, starts b p = true -> length p = length q -> p <> q -> starts b q = false).
  { intros b p q Hp Hl Hne. unfold starts in *. bools. apply bool_decide_eq_false. rewrite <- Hl, Hp. done. }
  split; [apply Workspace_text_laws|]. split; [apply Resource_text_laws|]. split; [apply OperationId_text_laws|].
  split; [apply AdmissionId_text_laws|]. split; [apply Version_text_laws|]. split; [apply Epoch_text_laws|].
  split; [apply Key_text_laws|]. split; [|split].
  - intros b o. unfold OperationId_from_str, AdmissionId_from_str. destruct (_ || _) eqn:G; [done|]. intros _. bools.
    rewrite (Hsw b text_op text_ad), orb_true_r by done. done.
  - intros b v. unfold Version_from_str, Epoch_from_str, Key_from_str. destruct (_ || _) eqn:G; [done|]. intros _. bools.
    by rewrite (Hsw b text_v text_e), (Hsw b text_v text_k), !orb_true_r by done.
  - intros b e. unfold Epoch_from_str, Key_from_str. destruct (_ || _) eqn:G; [done|]. intros _. bools.
    by rewrite (Hsw b text_e text_k), !orb_true_r by done.
Qed.
