(* ===== verification/AbiMessages.v ===== *)
(** * Typed messages over the packet (crates/abi/src/files/reference.rs,
      recovery.rs, operation/request.rs, workspace/request.rs, read)

    Identity bootstrap, tracked-write recovery, replacement and lookup requests
    of both profiles, and range reads. *)
From stdpp Require Import base list option numbers.
From Stdlib Require Import ZArith Lia Bool.
From S2P Require Import Prelude Bytes Codec AbiFiles AbiIdentity.

(** ** Identity bootstrap (reference.rs) *)
Definition References_new (lineage : list Z) (workspace object : Z) : outcome FileError References :=
  let? w := Workspace_new lineage workspace in
  let? r := Resource_new w object in Ok (mkReferences w r).

Definition References_request (workspace object context : Z) : outcome FileError Packet :=
  if (workspace =? 0) || (object =? 0) then Err FInvalid
  else
    let p := Packet_new OP_REFERENCES in
    Ok (mkPacket (p_op p) (p_status p) (p_count p) object workspace context (p_version p) (p_data p)).

Definition References_packet (r : References) (context : Z) : outcome FileError Packet :=
  if negb (bool_decide (rf_workspace r = rs_workspace (rf_resource r))) then Err FInvalid
  else
    let? p := References_request (ws_root (rf_workspace r)) (rs_object (rf_resource r)) context in
    Ok (mkPacket (p_op p) (p_status p) 16 (p_id p) (p_arg p) (p_context p) (p_version p)
          (write (p_data p) 0 (ws_lineage (rf_workspace r)))).

Definition References_decode (p : Packet) : outcome FileError References :=
  if negb (p_op p =? OP_REFERENCES) || negb (p_status p =? 0) || negb (p_version p =? 0) || negb (p_count p =? 16)
     || negb (all_zero (drop 16 (p_data p)))
  then Err FProtocol
  else map_err (fun _ => FProtocol) (References_new (slice (p_data p) 0 16) (p_arg p) (p_id p)).

(** ** Tracked-write recovery (recovery.rs) *)
Record Retry := mkRetry { rt_lineage : list Z; rt_epoch : Z; rt_key : Z }.

Definition Retry_encode (r : Retry) : list Z :=
  let b := zeros 32 in
  let b := write b 0 (rt_lineage r) in
  let b := write b 16 (le_bytes 8 (rt_epoch r)) in
  write b 24 (le_bytes 8 (rt_key r)).

Definition Retry_decode (b : list Z) : outcome FileError Retry :=
  if negb (length b =? 32)%nat then Err FProtocol
  else
    let value := mkRetry (slice b 0 16) (u64_at b 16) (u64_at b 24) in
    if no_lineage (rt_lineage value) || (rt_epoch value =? 0) || (rt_key value =? 0) then Err FInvalid else Ok value.

Record Receipt := mkReceipt { rc_retry : Retry; rc_id : Z; rc_previous : Z; rc_committed : Z; rc_length : Z }.

Definition Receipt_packet (r : Receipt) (p : Packet) : Packet :=
  let d := write (p_data p) 0 (Retry_encode (rc_retry r)) in
  let d := write d 32 (le_bytes 8 (rc_previous r)) in
  mkPacket (p_op p) (p_status p) 40 (rc_id r) (rc_length r) (p_context p) (rc_committed r) d.

Definition Receipt_decode (p : Packet) : outcome FileError Receipt :=
  if negb (p_count p =? 40) || (p_id p <=? 4) || (1024 <? p_arg p) then Err FProtocol
  else
    let previous := u64_at (p_data p) 32 in
    if (previous =? 0) || (p_version p <=? previous) then Err FProtocol
    else
      let? retry := Retry_decode (slice (p_data p) 0 32) in
      Ok (mkReceipt retry (p_id p) previous (p_version p) (p_arg p mod 2 ^ 16)).

(** ** Replacement and lookup, profile 1 (operation/request.rs) *)
Record OpRetry := mkOpRetry { or_epoch : Epoch; or_key : Key }.

Record Replacement := mkReplacement {
  rp_workspace : Workspace; rp_resource : Resource; rp_expected : Version; rp_retry : OpRetry }.

Definition ADMISSION_OPEN : Z := 48.

Definition Replacement_packet (r : Replacement) (size context : Z) : outcome FileError Packet :=
  if negb (bool_decide (rp_workspace r = rs_workspace (rp_resource r))) then Err FDenied
  else if 1024 <? size then Err FSize
  else
    let p := Packet_new REPLACE_OPEN in
    let d := write (p_data p) 0 (ws_lineage (rp_workspace r)) in
    let d := write d 16 (le_bytes 4 (ws_root (rp_workspace r))) in
    let d := write d 20 (le_bytes 8 (e_value (or_epoch (rp_retry r)))) in
    let d := write d 28 (le_bytes 8 (k_value (or_key (rp_retry r)))) in
    Ok (mkPacket (p_op p) (p_status p) 36 (rs_object (rp_resource r)) size context (v_value (rp_expected r)) d).

Definition Replacement_decode (p : Packet) : outcome FileError Replacement :=
  if negb ((p_op p =? REPLACE_OPEN) || (p_op p =? ADMISSION_OPEN)) || negb (p_status p =? 0) || negb (p_count p =? 36)
     || (1024 <? p_arg p) || negb (all_zero (slice (p_data p) 36 40))
  then Err FProtocol
  else
    let? workspace := Workspace_new (slice (p_data p) 0 16) (u32_at (p_data p) 16) in
    let? resource := Resource_new workspace (p_id p) in
    let? expected := Version_new (p_version p) in
    let? epoch := Epoch_new (u64_at (p_data p) 20) in
    let? key := Key_new (u64_at (p_data p) 28) in
    Ok (mkReplacement workspace resource expected (mkOpRetry epoch key)).

Inductive Lookup :=
| LookupRetry (workspace : Workspace) (retry : OpRetry)
| LookupId (id : OperationId).

Definition Lookup_packet (l : Lookup) (context : Z) : Packet :=
  match l with
  | LookupRetry workspace retry =>
    let p := Packet_new OPERATION_RETRY in
    let d := write (p_data p) 0 (ws_lineage workspace) in
    let d := write d 16 (le_bytes 8 (k_value (or_key retry))) in
    mkPacket (p_op p) (p_status p) 24 (ws_root workspace) (p_arg p) context (e_value (or_epoch retry)) d
  | LookupId id =>
    let p := Packet_new OPERATION_ID in
    mkPacket (p_op p) (p_status p) 16 (p_id p) (p_arg p) context (oi_sequence id)
      (write (p_data p) 0 (oi_lineage id))
  end.

Definition Lookup_decode (p : Packet) : outcome FileError Lookup :=
  if (p_op p =? OPERATION_RETRY) && ((p_arg p =? 0) && (p_count p =? 24)) then
    let? workspace := Workspace_new (slice (p_data p) 0 16) (p_id p) in
    let? epoch := Epoch_new (p_version p) in
    let? key := Key_new (u64_at (p_data p) 16) in
    Ok (LookupRetry workspace (mkOpRetry epoch key))
  else if ((p_op p =? OPERATION_ID) || (p_op p =? OPERATION_PART)) && ((p_id p =? 0) && (p_count p =? 16)) then
    let? id := OperationId_new (slice (p_data p) 0 16) (p_version p) in Ok (LookupId id)
  else Err FProtocol.

(** ** Profile 2 (workspace/request.rs) *)
Definition PROFILE2 : Z := 2.
Definition MAX_FILE_BYTES : Z := 512 * 1024.

(** [workspace::Replacement] wraps the shared request. *)
Definition LargeReplacement_packet (r : Replacement) (size context : Z) : outcome FileError Packet :=
  if MAX_FILE_BYTES <? size then Err FSize
  else
    let? p := Replacement_packet r 0 context in
    Ok (mkPacket (p_op p) (p_status p) 40 (p_id p) size (p_context p) (p_version p)
          (write (p_data p) 36 (le_bytes 4 PROFILE2))).

Definition LargeReplacement_decode (p : Packet) : outcome FileError Replacement :=
  if negb (p_count p =? 40) || (MAX_FILE_BYTES <? p_arg p)
     || negb (bool_decide (slice (p_data p) 36 40 = le_bytes 4 PROFILE2))
  then Err FProtocol
  else Replacement_decode (mkPacket (p_op p) (p_status p) 36 (p_id p) 0 (p_context p) (p_version p)
                             (write (p_data p) 36 (zeros 4))).

Definition LargeLookup_packet (l : Lookup) (context : Z) : Packet :=
  let p := Lookup_packet l context in
  let fin := Z.to_nat (p_count p) in
  mkPacket (p_op p) (p_status p) (p_count p + 4) (p_id p) (p_arg p) (p_context p) (p_version p)
    (write (p_data p) fin (le_bytes 4 PROFILE2)).

Definition lookup_end (op : Z) : outcome FileError nat :=
  if op =? OPERATION_RETRY then Ok 24%nat
  else if (op =? OPERATION_ID) || (op =? OPERATION_PART) then Ok 16%nat
  else Err FProtocol.

Definition LargeLookup_decode (p : Packet) : outcome FileError Lookup :=
  let? fin := lookup_end (p_op p) in
  if negb (p_status p =? 0) || negb (p_count p =? Z.of_nat fin + 4)
     || negb (bool_decide (slice (p_data p) fin (fin + 4) = le_bytes 4 PROFILE2))
     || negb (all_zero (drop (fin + 4) (p_data p)))
     || ((p_op p =? OPERATION_PART) && negb ((p_arg p =? 0) || (p_arg p =? 40) || (p_arg p =? 80)))
     || (negb (p_op p =? OPERATION_PART) && negb (p_arg p =? 0))
  then Err FProtocol
  else Lookup_decode (mkPacket (p_op p) (p_status p) (Z.of_nat fin) (p_id p) (p_arg p) (p_context p) (p_version p)
                        (write (p_data p) fin (zeros (40 - fin)))).

(** ** Message laws *)
(** [packet a op context] builds a frame, [decode] reads it back: every valid
    message has one frame, and every accepted frame is the one of its message. *)
Record message_laws {A} (packet : A -> Z -> Z -> outcome FileError Packet) (decode : Packet -> outcome FileError A)
    (valid : Z -> A -> Prop) : Prop := {
  msg_round : forall op context a, valid op a -> fits 32 context ->
    exists p, packet a op context = Ok p /\ Packet_valid p /\ p_op p = op /\ p_context p = context /\ decode p = Ok a;
  msg_canonical : forall p a, Packet_valid p -> decode p = Ok a ->
    valid (p_op p) a /\ packet a (p_op p) (p_context p) = Ok p;
  msg_total : forall p, decode p <> Panic;
}.

(** An accepting run: every check on its way passed. *)
Ltac accept H :=
  repeat match type of H with
  | context [if ?c then _ else _] => let G := fresh "G" in destruct c eqn:G; cbn beta iota in H; try discriminate H
  end.

Ltac refute :=
  repeat match goal with
  | H : (_ || _) = true |- _ => apply orb_true_iff in H as [H|H]
  | H : (_ && _) = false |- _ => apply andb_false_iff in H as [H|H]
  end; bools; first [done | lia | congruence].

(** Every check of the goal passes. *)
Ltac pass :=
  repeat match goal with
  | |- context [if ?c then _ else _] => let G := fresh "G" in destruct c eqn:G; [exfalso; refute|clear G]; cbn beta iota
  end.

(** ** Fields of packet data *)
Lemma data_lineage d : length d = DATA -> bytes_ok d -> slice d 0 16 <> zeros 16 -> lineage_ok (slice d 0 16).
Proof. intros L B H. wire_unfold. split; [rewrite length_slice; lia|]. split; [by apply bytes_ok_slice|done]. Qed.

Lemma data_fits d i j n : length d = DATA -> bytes_ok d -> (j <= 40)%nat -> (n = j - i)%nat ->
  fits (8 * Z.of_nat n) (le_value (slice d i j)).
Proof. intros L B Hj ->. wire_unfold. eapply field_fits; [done|lia|reflexivity|done]. Qed.

(** Frames built over [Packet_new] are packets. *)
Lemma packet_frame op count id arg context version data :
  fits 8 op -> known_op op = true -> 0 <= count <= 40 -> fits 32 id -> fits 32 arg -> fits 32 context -> fits 64 version ->
  length data = DATA -> bytes_ok data -> all_zero (drop (Z.to_nat count) data) = true ->
  Packet_valid (mkPacket op 0 count id arg context version data).
Proof.
  intros. split; [|split; [done|split; [wire_unfold; simpl; lia|done]]].
  split; try done; unfold fits; simpl; lia.
Qed.


Definition workspace_ok (w : Workspace) : Prop := lineage_ok (ws_lineage w) /\ ws_root w <> 0 /\ fits 32 (ws_root w).
Definition number_ok (n : Z) : Prop := n <> 0 /\ fits 64 n.

(** Projections of packets and identities. *)
Ltac fields :=
  cbn [p_op p_status p_count p_id p_arg p_context p_version p_data ws_lineage ws_root rs_workspace rs_object
       rf_workspace rf_resource v_value e_value k_value oi_lineage oi_sequence ai_lineage ai_number in_id
       rt_lineage rt_epoch rt_key rc_retry rc_id rc_previous rc_committed rc_length or_epoch or_key
       rp_workspace rp_resource rp_expected rp_retry Packet_new negb orb andb map_err] in *.

(** Zero tails as slices. *)
Ltac tails :=
  repeat match goal with
  | H : all_zero (drop _ ?d) = true, L : length ?d = _ |- _ => rewrite drop_slice, L in H
  end.

Ltac lineage_cases := unfold no_lineage in *; bools.

(** ** Identity bootstrap *)
Definition References_valid (op : Z) (r : References) : Prop :=
  op = OP_REFERENCES /\ workspace_ok (rf_workspace r) /\ rs_workspace (rf_resource r) = rf_workspace r /\
  rs_object (rf_resource r) <> 0 /\ fits 32 (rs_object (rf_resource r)).

Lemma References_message : message_laws (fun r _ c => References_packet r c) References_decode References_valid.
Proof.
  split.
  - intros op c [w [w' o]] (-> & ((L & B & Z) & Hr & Fr) & Hw & Ho & Fo) Hc. cbn in *. subst w'.
    unfold References_packet, References_request, Packet_new. cbn [rf_workspace rf_resource rs_workspace rs_object].
    rewrite bool_decide_eq_true_2 by done. cbn [negb]. pass. cbn [p_op p_status p_id p_arg p_context p_version p_data].
    set (d := write (zeros DATA) 0 (ws_lineage w)).
    assert (D1 : length d = DATA) by (unfold d; wire_unfold; wire_length).
    assert (D2 : slice d 0 16 = ws_lineage w) by (unfold d; wire_unfold; wire_reads; done).
    assert (D3 : drop 16 d = zeros 24) by (rewrite drop_slice, D1; unfold d; wire_unfold; wire_reads; done).
    eexists. split; [reflexivity|]. split; [apply packet_frame; try done; try (unfold fits; lia)|].
    + apply bytes_ok_write; [apply bytes_ok_zeros|done].
    + change (Z.to_nat 16) with 16%nat. by rewrite D3, all_zero_zeros.
    + split; [done|]. split; [done|]. unfold References_decode. cbn [p_op p_status p_version p_count p_data p_arg p_id].
      rewrite D3, D2, all_zero_zeros. cbn [Z.eqb negb orb]. unfold References_new, Workspace_new, Resource_new.
      destruct w as [l r]. cbn in *. unfold no_lineage. pass. done.
  - intros p r ([F1 F2 F3 F4 F5 F6 F7 L B] & Hop & Hc & Hz) H. unfold References_decode, References_new, Workspace_new, Resource_new in H.
    destruct p as [op st ct id ar cx ve d]. fields. accept H. lineage_cases. subst. fields. injection H as <-. split.
    + split; [done|]. fields. split; [split; [by apply data_lineage|done]|done].
    + unfold References_packet, References_request. fields. rewrite bool_decide_eq_true_2 by done. fields.
      pass. fields. do 2 f_equal. tails. wire_unfold. wire_fields [16; 40]%nat.
  - intros p. unfold References_decode, References_new, Workspace_new, Resource_new. repeat case_match; done.
Qed.

(** ** Recovery *)
Definition Retry_valid (r : Retry) : Prop := lineage_ok (rt_lineage r) /\ number_ok (rt_epoch r) /\ number_ok (rt_key r).

Lemma Retry_laws : codec_laws Retry_encode Retry_decode Retry_valid.
Proof.
  split.
  - intros [l e k] ((L & B & Z) & (He & Fe) & (Hk & Fk)). fields. set (b := Retry_encode _).
    assert (E0 : length b = 32%nat) by (unfold b, Retry_encode; fields; wire_length).
    assert (E1 : slice b 0 16 = l) by (unfold b, Retry_encode; fields; wire_reads; done).
    assert (E2 : u64_at b 16 = e) by (unfold b, Retry_encode; fields; wire_read).
    assert (E3 : u64_at b 24 = k) by (unfold b, Retry_encode; fields; wire_read).
    unfold Retry_decode. rewrite E0, E1, E2, E3. fields. unfold no_lineage. pass. done.
  - intros b r Hb H. unfold Retry_decode in H. fields. cbv zeta in H. accept H. lineage_cases. injection H as <-.
    wire_unfold. unfold Retry_valid, Retry_encode, number_ok. fields.
    split; [|wire_fields [16; 24; 32]%nat].
    split; [split; [rewrite length_slice; lia|split; [by apply bytes_ok_slice|done]]|].
    split; (split; [done|]); (eapply field_fits; [done|lia|reflexivity|done]).
  - intros r ((_ & B & _) & _). unfold Retry_encode. cbv zeta. wire_bytes.
  - intros b. unfold Retry_decode. cbv zeta. repeat case_match; done.
Qed.

Definition Receipt_valid (r : Receipt) : Prop :=
  Retry_valid (rc_retry r) /\ 4 < rc_id r /\ fits 32 (rc_id r) /\ rc_previous r <> 0 /\ fits 64 (rc_previous r) /\
  rc_previous r < rc_committed r /\ fits 64 (rc_committed r) /\ 0 <= rc_length r <= 1024.

(** A receipt over the reply being built, and back. *)
Lemma Receipt_round r p : Receipt_valid r -> packet_fits p ->
  packet_fits (Receipt_packet r p) /\ Receipt_decode (Receipt_packet r p) = Ok r.
Proof.
  intros (Hr & Hid & Fid & Hpr & Fpr & Hlt & Fc & Hlen) [F1 F2 F3 F4 F5 F6 F7 L B].
  assert (E0 : length (Retry_encode (rc_retry r)) = 32%nat)
    by (destruct Hr as ((Ll & _ & _) & _); unfold Retry_encode; wire_length).
  assert (EB : bytes_ok (Retry_encode (rc_retry r))) by (by apply (law_bytes _ _ _ Retry_laws)).
  unfold Receipt_packet. set (d := write (write (p_data p) 0 _) 32 _). wire_unfold.
  assert (D0 : length d = 40%nat) by (unfold d; wire_length).
  assert (D1 : slice d 0 32 = Retry_encode (rc_retry r)) by (unfold d; wire_reads; done).
  assert (D2 : u64_at d 32 = rc_previous r) by (unfold d; wire_read).
  split.
  - split; fields; try done; try (unfold fits; lia). unfold d. wire_bytes.
  - unfold Receipt_decode. fields. rewrite D1, D2, (law_round _ _ _ Retry_laws) by done.
    pass. rewrite Z.mod_small by lia. by destruct r.
Qed.

Lemma Receipt_canonical p r : packet_fits p -> Receipt_decode p = Ok r -> Receipt_valid r /\ Receipt_packet r p = p.
Proof.
  intros [F1 F2 F3 F4 F5 F6 F7 L B] H. destruct p as [op st ct id ar cx ve d]. unfold Receipt_decode in H. fields. cbv zeta in H.
  accept H. bools. destruct (Retry_decode _) as [t|?|] eqn:Et; [|done|done]. injection H as <-. wire_unfold.
  assert (Fp : fits 64 (le_value (slice d 32 40))) by (apply (data_fits d 32 40 8); [done|done|lia|done]).
  destruct (law_canonical _ _ _ Retry_laws _ _ (bytes_ok_slice d 0 32 B) Et) as [Ht He].
  rewrite Z.mod_small by (unfold fits in *; lia). split.
  - split; [done|]. fields. unfold fits in *. lia.
  - unfold Receipt_packet. fields. rewrite He. f_equal; [done|].
    assert (length (slice d 0 32) = 32%nat) by (rewrite length_slice; lia). wire_fields [32; 40]%nat.
Qed.

(** ** Replacement *)
(** The same frame for another operation. *)
Definition retag (op : Z) (p : Packet) : Packet :=
  mkPacket op (p_status p) (p_count p) (p_id p) (p_arg p) (p_context p) (p_version p) (p_data p).

Definition op_retry_ok (r : OpRetry) : Prop := number_ok (e_value (or_epoch r)) /\ number_ok (k_value (or_key r)).

Definition replacement_ok (r : Replacement) : Prop :=
  workspace_ok (rp_workspace r) /\ rs_workspace (rp_resource r) = rp_workspace r /\
  rs_object (rp_resource r) <> 0 /\ fits 32 (rs_object (rp_resource r)) /\
  number_ok (v_value (rp_expected r)) /\ op_retry_ok (rp_retry r).

(** A request with its payload size, as the opening operation it is sent for. *)
Definition Replacement_valid (limit op : Z) (m : Replacement * Z) : Prop :=
  (op = REPLACE_OPEN \/ op = ADMISSION_OPEN) /\ replacement_ok (m.1) /\ 0 <= m.2 <= limit.

Lemma Replacement_message :
  message_laws (fun m op c => let? p := Replacement_packet m.1 m.2 c in Ok (retag op p))
    (fun p => let? r := Replacement_decode p in Ok (r, p_arg p)) (Replacement_valid 1024).
Proof.
  split.
  - intros op c [[w [w' o] [v] [[e] [k]]] n] (Hop & (((L & B & Z) & Hr & Fr) & Hw & Ho & Fo & (Hv & Fv) & (He & Fe) & (Hk & Fk)) & Hn) Hc.
    cbn [fst snd] in *. fields. subst w'. destruct w as [l r]. fields. unfold Replacement_packet, retag. fields.
    rewrite bool_decide_eq_true_2 by done. fields. pass. fields. set (d := write _ 28 _). wire_unfold.
    assert (D0 : length d = 40%nat) by (unfold d; wire_length).
    assert (D1 : slice d 0 16 = l) by (unfold d; wire_reads; done).
    assert (D2 : u32_at d 16 = r) by (unfold d; wire_read).
    assert (D3 : u64_at d 20 = e) by (unfold d; wire_read).
    assert (D4 : u64_at d 28 = k) by (unfold d; wire_read).
    assert (D5 : slice d 36 40 = zeros 4) by (unfold d; wire_reads; done).
    eexists. split; [reflexivity|]. split; [apply packet_frame; try done; try (unfold fits; lia)|].
    + destruct Hop as [-> | ->]; by vm_compute.
    + by destruct Hop as [-> | ->].
    + unfold d. wire_bytes.
    + change (Z.to_nat 36) with 36%nat. by rewrite drop_slice, D0, D5.
    + split; [done|]. split; [done|]. unfold Replacement_decode, Workspace_new, Resource_new, Version_new, Epoch_new, Key_new.
      fields. rewrite D1, D2, D3, D4, D5, all_zero_zeros. unfold no_lineage.
      destruct Hop as [-> | ->]; fields; cbn [REPLACE_OPEN ADMISSION_OPEN Z.eqb Pos.eqb]; fields; pass; done.
  - intros p [r n] ([F1 F2 F3 F4 F5 F6 F7 L B] & Hop & Hc & Hz) H.
    unfold Replacement_decode, Workspace_new, Resource_new, Version_new, Epoch_new, Key_new in H.
    destruct p as [op st ct id ar cx ve d]. fields. accept H. lineage_cases. subst. injection H as <- <-. wire_unfold.
    assert (F8 : fits 32 (le_value (slice d 16 20))) by (apply (data_fits d 16 20 4); [done|done|lia|done]).
    assert (F9 : fits 64 (le_value (slice d 20 28))) by (apply (data_fits d 20 28 8); [done|done|lia|done]).
    assert (Fa : fits 64 (le_value (slice d 28 36))) by (apply (data_fits d 28 36 8); [done|done|lia|done]).
    assert (Hlin : lineage_ok (slice d 0 16)) by (by apply data_lineage). split.
    + split; [|split; [|cbn [snd]; unfold fits in *; lia]].
      * match goal with H : (_ || _) = true |- _ => apply orb_true_iff in H as [H|H]; apply Z.eqb_eq in H; auto end.
      * unfold replacement_ok, workspace_ok, op_retry_ok, number_ok. cbn [fst]. fields. done.
    + unfold Replacement_packet, retag. cbn [fst snd]. fields. rewrite bool_decide_eq_true_2 by done. fields.
      pass. fields. do 2 f_equal. wire_unfold. wire_fields [16; 20; 28; 36; 40]%nat.
  - intros p. unfold Replacement_decode, Workspace_new, Resource_new, Version_new, Epoch_new, Key_new. no_panic.
Qed.

(** The marker of profile 2 in the last four bytes of the data. *)
Lemma marker_swap d i x y : length d = DATA -> (i + 4 <= 40)%nat -> length x = 4%nat -> length y = 4%nat ->
  slice d i (i + 4) = y -> write (write d i x) i y = d.
Proof.
  intros L Hi Lx Ly H. wire_unfold. apply (eq_by_fields _ _ [i; i + 4; 40]%nat). cbn [same_fields].
  split; [lia|]. split; [by rewrite !slice_write_before by wire_len|]. split; [lia|].
  split; [rewrite slice_write_same by wire_len; done|]. split; [lia|].
  split; [by rewrite !slice_write_after by wire_len|]. split; [wire_len|lia].
Qed.

Lemma LargeReplacement_message :
  message_laws (fun m op c => let? p := LargeReplacement_packet m.1 m.2 c in Ok (retag op p))
    (fun p => let? r := LargeReplacement_decode p in Ok (r, p_arg p)) (Replacement_valid MAX_FILE_BYTES).
Proof.
  split.
  - intros op c [r n] (Hop & Hr & Hn) Hc. cbn [fst snd] in *.
    destruct (msg_round _ _ _ Replacement_message op c (r, 0)) as (p0 & E & Hv & Eo & Ec & Ed); [done|done|].
    cbn [fst snd] in *. unfold LargeReplacement_packet. destruct (Z.ltb_spec MAX_FILE_BYTES n); [lia|].
    destruct (Replacement_packet r 0 c) as [q|?|]; [|done|done]. injection E as <-.
    destruct (Replacement_decode (retag op q)) as [r0|?|] eqn:Ed0; [|done|done]. injection Ed as -> Ea.
    eexists. split; [reflexivity|]. destruct Hv as ([F1 F2 F3 F4 F5 F6 F7 L B] & Hk & _ & _).
    unfold retag in *. fields. pose proof Ed0 as Eg. unfold Replacement_decode in Eg. fields. accept Eg. clear Eg. bools.
    assert (L36 : slice (p_data q) 36 40 = zeros 4) by (symmetry; apply zero_field; [wire_unfold; lia|done|done]).
    destruct q as [qo qs qc qi qa qx qv d]. fields. subst. split; [|split; [done|split; [done|]]].
    + apply packet_frame; try done; try (unfold fits, MAX_FILE_BYTES in *; lia).
      * wire_unfold. wire_length.
      * wire_bytes.
      * change (Z.to_nat 40) with 40%nat. rewrite drop_ge; [done|]. wire_unfold. wire_len.
    + unfold LargeReplacement_decode. fields. destruct (Z.ltb_spec MAX_FILE_BYTES n); [lia|].
      rewrite slice_write_same by (wire_unfold; wire_len). rewrite bool_decide_eq_true_2 by done. fields.
      rewrite (marker_swap d 36 (le_bytes 4 PROFILE2) (zeros 4)) by (done || lia). cbn [Z.eqb Pos.eqb]. fields. by rewrite Ed0.
  - intros p [r n] ([F1 F2 F3 F4 F5 F6 F7 L B] & Hop & Hc & Hz) H.
    destruct (LargeReplacement_decode p) as [r0|?|] eqn:Ed; [|done|done]. injection H as -> <-.
    unfold LargeReplacement_decode in Ed. accept Ed. bools.
    set (p0 := mkPacket _ _ _ _ _ _ _ _) in Ed.
    assert (Hp0 : Packet_valid p0).
    { assert (p_status p = 0) as E0 by (unfold Replacement_decode in Ed; accept Ed; bools; done). unfold p0. rewrite E0.
      apply packet_frame; try done; try (unfold fits; lia).
      - wire_unfold. wire_length.
      - wire_bytes.
      - change (Z.to_nat 36) with 36%nat. wire_unfold. rewrite drop_slice. rewrite (length_write _ 36 (zeros 4)) by wire_len.
        rewrite L, slice_write_same by wire_len. done. }
    destruct (msg_canonical _ _ _ Replacement_message p0 (r, 0) Hp0) as [Hv Hp]; [by rewrite Ed|].
    destruct Hv as (Ho & Hr & _). cbn [fst snd] in *. split.
    { split; [done|]. split; [done|]. cbn [snd]. unfold fits in F5. lia. }
    unfold LargeReplacement_packet. destruct (Z.ltb_spec MAX_FILE_BYTES (p_arg p)); [lia|].
    change (p_context p0) with (p_context p) in Hp.
    destruct (Replacement_packet r 0 (p_context p)) as [q|?|]; [|done|done].
    assert (Hq : retag (p_op p0) q = p0) by congruence. clear Hp.
    unfold retag, p0 in *. fields. destruct p as [po ps pc pi pa px pv d], q as [qo qs qc qi qa qx qv dq]. fields.
    injection Hq as ? ? ? ? ? ? ?. subst. do 2 f_equal. apply marker_swap; [done|lia|done|done|done].
  - intros p. unfold LargeReplacement_decode. pose proof (msg_total _ _ _ Replacement_message) as Ht.
    destruct (_ || _); [done|]. match goal with |- context [Replacement_decode ?x] => specialize (Ht x); cbn beta in Ht; revert Ht; destruct (Replacement_decode x); done end.
Qed.

(** ** Lookups *)
Definition lookup_ok (l : Lookup) : Prop :=
  match l with
  | LookupRetry w r => workspace_ok w /\ op_retry_ok r
  | LookupId id => lineage_ok (oi_lineage id) /\ number_ok (oi_sequence id)
  end.

Definition lookup_op (op : Z) (l : Lookup) : Prop :=
  match l with LookupRetry _ _ => op = OPERATION_RETRY | LookupId _ => op = OPERATION_ID \/ op = OPERATION_PART end.

(** A lookup for an operation, with the part offset it asks for. *)
Definition large_lookup_packet (m : Lookup * Z) (op context : Z) : outcome FileError Packet :=
  let p := LargeLookup_packet m.1 context in
  Ok (mkPacket op (p_status p) (p_count p) (p_id p) m.2 (p_context p) (p_version p) (p_data p)).

Definition LargeLookup_valid (op : Z) (m : Lookup * Z) : Prop :=
  lookup_ok m.1 /\ lookup_op op m.1 /\ (if op =? OPERATION_PART then m.2 = 0 \/ m.2 = 40 \/ m.2 = 80 else m.2 = 0).

Lemma Lookup_packet_end l c : exists fin, p_count (Lookup_packet l c) = Z.of_nat fin /\
  (forall op, lookup_op op l -> lookup_end op = Ok fin) /\ (fin = 16 \/ fin = 24)%nat.
Proof.
  destruct l as [w r|id]; [exists 24%nat|exists 16%nat]; (split; [done|]); (split; [|auto]).
  - by intros op ->.
  - by intros op [-> | ->].
Qed.

Lemma Lookup_round l c op ar : lookup_ok l -> lookup_op op l -> (op = OPERATION_RETRY -> ar = 0) ->
  let p := Lookup_packet l c in
  length (p_data p) = DATA /\ bytes_ok (p_data p) /\ all_zero (drop (Z.to_nat (p_count p)) (p_data p)) = true /\
  fits 32 (p_id p) /\ fits 64 (p_version p) /\
  Lookup_decode (mkPacket op 0 (p_count p) (p_id p) ar c (p_version p) (p_data p)) = Ok l.
Proof.
  intros Hok Hop Har. destruct l as [[l r] [[e] [k]]|[l n]]; cbn [lookup_ok lookup_op] in *.
  - destruct Hok as (((L & B & Z) & Hr & Fr) & (He & Fe) & (Hk & Fk)). fields. unfold Lookup_packet. fields. wire_unfold.
    set (d := write _ 16 _). rewrite (Har Hop). subst op.
    assert (D0 : length d = 40%nat) by (unfold d; wire_length).
    assert (D1 : slice d 0 16 = l) by (unfold d; wire_reads; done).
    assert (D2 : u64_at d 16 = k) by (unfold d; wire_read).
    assert (D3 : slice d 24 40 = zeros 16) by (unfold d; wire_reads; done).
    split; [done|]. split; [unfold d; wire_bytes|]. split; [change (Z.to_nat 24) with 24%nat; by rewrite drop_slice, D0, D3|].
    split; [done|]. split; [done|]. unfold Lookup_decode, Workspace_new, Epoch_new, Key_new, no_lineage. fields.
    rewrite D1, D2. cbn [OPERATION_RETRY Z.eqb Pos.eqb]. fields. pass. done.
  - destruct Hok as ((L & B & Z) & Hn & Fn). fields. unfold Lookup_packet. fields. wire_unfold. set (d := write _ 0 _).
    assert (D0 : length d = 40%nat) by (unfold d; wire_length).
    assert (D1 : slice d 0 16 = l) by (unfold d; wire_reads; done).
    assert (D3 : slice d 16 40 = zeros 24) by (unfold d; wire_reads; done).
    split; [done|]. split; [unfold d; wire_bytes|]. split; [change (Z.to_nat 16) with 16%nat; by rewrite drop_slice, D0, D3|].
    split; [unfold fits; lia|]. split; [done|]. unfold Lookup_decode, OperationId_new, no_lineage. fields. rewrite D1.
    destruct Hop as [-> | ->]; cbn [OPERATION_RETRY OPERATION_ID OPERATION_PART Z.eqb Pos.eqb]; fields; pass; done.
Qed.

Lemma Lookup_canonical p l : packet_fits p -> Lookup_decode p = Ok l -> all_zero (drop (Z.to_nat (p_count p)) (p_data p)) = true ->
  lookup_ok l /\ lookup_op (p_op p) l /\ let q := Lookup_packet l (p_context p) in
  p_count q = p_count p /\ p_id q = p_id p /\ p_version q = p_version p /\ p_data q = p_data p.
Proof.
  intros [F1 F2 F3 F4 F5 F6 F7 L B] H Hz. destruct p as [op st ct id ar cx ve d]. fields.
  unfold Lookup_decode, Workspace_new, Epoch_new, Key_new, OperationId_new in H. fields.
  assert (F8 : fits 64 (le_value (slice d 16 24))) by (apply (data_fits d 16 24 8); [done|done|lia|done]).
  accept H; lineage_cases; subst; injection H as <-; wire_unfold.
  - assert (Hlin : lineage_ok (slice d 0 16)) by (by apply data_lineage).
    change (Z.to_nat 24) with 24%nat in Hz. tails. split; [done|]. split; [done|]. unfold Lookup_packet. fields.
    do 3 (split; [done|]). wire_unfold. wire_fields [16; 24; 40]%nat.
  - assert (Hlin : lineage_ok (slice d 0 16)) by (by apply data_lineage).
    change (Z.to_nat 16) with 16%nat in Hz. tails. split; [done|]. split.
    { match goal with H : (_ || _) = true |- _ => apply orb_true_iff in H as [H|H]; apply Z.eqb_eq in H; [by left|by right] end. }
    unfold Lookup_packet. fields. do 3 (split; [done|]). wire_unfold. wire_fields [16; 40]%nat.
Qed.

(** Clearing and restoring the tail a profile-2 lookup marks. *)
Lemma tail_swap d i x : length d = DATA -> (i + length x <= 40)%nat -> slice d i 40 = zeros (40 - i) ->
  write (write d i x) i (zeros (40 - i)) = d.
Proof.
  intros L Hi H. wire_unfold. assert (Lz := length_zeros (40 - i)). assert (Lx : length (write d i x) = 40%nat) by (by rewrite length_write; lia).
  apply (eq_by_fields _ _ [i; 40]%nat). cbn [same_fields].
  split; [lia|]. split; [by rewrite !slice_write_before by lia|]. split; [lia|].
  split; [rewrite slice_write_same by lia; done|]. split; [rewrite length_write; lia|lia].
Qed.

Lemma marked_tail d i x : length d = DATA -> length x = 4%nat -> (i + 4 <= 40)%nat -> slice d i (i + 4) = x ->
  all_zero (drop (i + 4) d) = true -> write (write d i (zeros (40 - i))) i x = d.
Proof.
  intros L Lx Hi Hs Hz. wire_unfold. assert (Lz := length_zeros (40 - i)).
  assert (Lw : length (write d i (zeros (40 - i))) = 40%nat) by (by rewrite length_write; lia).
  rewrite drop_slice, L in Hz. apply all_zero_eq in Hz. rewrite length_slice in Hz by lia.
  apply (eq_by_fields _ _ [i; i + 4; 40]%nat). cbn [same_fields].
  split; [lia|]. split; [by rewrite !slice_write_before by lia|]. split; [lia|].
  split; [rewrite slice_write_same by lia; done|]. split; [lia|]. split; [|split; [rewrite length_write; lia|lia]].
  rewrite slice_write_after by lia. rewrite Hz.
  assert (E : slice (write d i (zeros (40 - i))) i 40 = zeros (40 - i)) by (apply slice_write_same; lia).
  replace (slice (write d i (zeros (40 - i))) (i + 4) 40) with
    (slice (slice (write d i (zeros (40 - i))) i 40) 4 (40 - i)) by (rewrite slice_slice by lia; f_equal; lia).
  rewrite E, slice_zeros by lia. f_equal. lia.
Qed.

Lemma LargeLookup_message :
  message_laws large_lookup_packet (fun p => let? l := LargeLookup_decode p in Ok (l, p_arg p)) LargeLookup_valid.
Proof.
  split.
  - intros op c [l ar] (Hok & Hop & Har) Hc. cbn [fst snd] in *.
    destruct (Lookup_packet_end l c) as (fin & Ec & Hend & Hfin). specialize (Hend op Hop).
    destruct (Lookup_round l c op ar Hok Hop) as (L & B & Hz & Fi & Fv & Hd); [by intros ->|].
    assert (Htail : slice (p_data (Lookup_packet l c)) fin 40 = zeros (40 - fin)).
    { rewrite Ec, Nat2Z.id, drop_slice, L in Hz. apply all_zero_eq in Hz. rewrite length_slice in Hz by (wire_unfold; lia). exact Hz. }
    unfold large_lookup_packet, LargeLookup_packet. cbn [fst snd]. rewrite Ec, Nat2Z.id in *. set (d := p_data (Lookup_packet l c)) in *.
    assert (Hst : p_status (Lookup_packet l c) = 0) by (by destruct l).
    assert (Hcx : p_context (Lookup_packet l c) = c) by (by destruct l).
    assert (Lx : length (le_bytes 4 PROFILE2) = 4%nat) by apply length_le_bytes.
    assert (Lw : length (write d fin (le_bytes 4 PROFILE2)) = DATA) by (rewrite length_write; wire_unfold; lia).
    fields. rewrite Hst, Hcx. eexists. split; [reflexivity|].
    assert (Hrest : all_zero (drop (fin + 4) (write d fin (le_bytes 4 PROFILE2))) = true).
    { rewrite drop_slice, Lw. rewrite slice_write_after by (wire_unfold; lia).
      replace (slice d (fin + 4) DATA) with (slice (slice d fin 40) 4 (40 - fin)) by (rewrite slice_slice by lia; f_equal; wire_unfold; lia).
      rewrite Htail, slice_zeros by lia. apply all_zero_zeros. }
    split; [|split; [done|split; [done|]]].
    + apply packet_frame; try done; try lia.
      * destruct l; cbn [lookup_op] in Hop; [subst; by vm_compute|]. destruct Hop as [-> | ->]; by vm_compute.
      * destruct l; cbn [lookup_op] in Hop; [by subst|]. by destruct Hop as [-> | ->].
      * unfold fits. destruct (op =? OPERATION_PART); lia.
      * by apply bytes_ok_write; [|apply bytes_ok_le_bytes].
      * replace (Z.to_nat (Z.of_nat fin + 4)) with (fin + 4)%nat by lia. done.
    + unfold LargeLookup_decode. fields. rewrite Hend, Hrest, Z.eqb_refl. rewrite slice_write_same by (wire_unfold; lia).
      rewrite bool_decide_eq_true_2 by done. change (0 =? 0) with true. fields.
      rewrite tail_swap, Hd by (done || lia). revert Har.
      destruct (op =? OPERATION_PART); intros Har; fields; pass; done.
  - intros p [l ar] ([F1 F2 F3 F4 F5 F6 F7 L B] & Hop & Hc & Hz) H.
    destruct (LargeLookup_decode p) as [l0|?|] eqn:Ed; [|done|done]. injection H as -> <-.
    unfold LargeLookup_decode in Ed. destruct (lookup_end (p_op p)) as [fin|?|] eqn:Ee; [|done|done]. accept Ed.
    assert (Hfin : (fin = 24 \/ fin = 16)%nat) by (unfold lookup_end in Ee; accept Ee; simplify_eq; auto).
    apply orb_false_iff in G as [G Ga]. apply orb_false_iff in G as [G Gb]. bools.
    assert (Lx : length (le_bytes 4 PROFILE2) = 4%nat) by apply length_le_bytes.
    set (p0 := mkPacket _ _ _ _ _ _ _ _) in Ed. assert (Lz := length_zeros (40 - fin)).
    assert (L0 : length (p_data p0) = DATA) by (unfold p0; fields; rewrite length_write; wire_unfold; lia).
    destruct (Lookup_canonical p0 l) as (Hok & Hlo & Hq); [|done| |].
    + unfold p0. split; fields; try done; [unfold fits; lia|]. apply bytes_ok_write; [done|apply bytes_ok_zeros].
    + unfold p0 in *. fields. rewrite Nat2Z.id, drop_slice, L0. rewrite slice_write_same by (wire_unfold; lia). apply all_zero_zeros.
    + unfold p0 in *. fields. destruct Hq as (Q1 & Q2 & Q3 & Q4). split.
      * split; [done|]. split; [done|]. cbn [snd]. destruct (p_op p =? OPERATION_PART); fields; bools; [|done].
        repeat match goal with H : (_ || _) = true |- _ => apply orb_true_iff in H as [H|H] end; bools; auto.
      * unfold large_lookup_packet, LargeLookup_packet. cbn [fst snd]. fields. rewrite Q1, Q2, Q3, Q4, Nat2Z.id.
        assert (Hst : p_status (Lookup_packet l (p_context p)) = 0) by (by destruct l).
        assert (Hcx : p_context (Lookup_packet l (p_context p)) = p_context p) by (by destruct l).
        rewrite Hst, Hcx. rewrite (marked_tail (p_data p) fin) by (done || lia). destruct p. fields. congruence.
  - intros p. unfold LargeLookup_decode, lookup_end, Lookup_decode, Workspace_new, Epoch_new, Key_new, OperationId_new.
    no_panic.
Qed.
