(* ===== verification/AbiReceipts.v ===== *)
(** * Completed-operation receipts (crates/abi/src/files/operation/receipt.rs,
      workspace/receipt.rs)

    The canonical 104-byte receipt of a completed replacement in its two
    profiles, and the three stateless packet fragments that carry it. *)
From stdpp Require Import base list option numbers.
From Stdlib Require Import ZArith Lia Bool.
From S2P Require Import Prelude Bytes Codec AbiFiles AbiIdentity AbiMessages.

Definition RECEIPT_BYTES : nat := 104.
#[export] Hint Unfold RECEIPT_BYTES : wire_sizes.

(** [operation::Operation] ([size : u16]) and [workspace::Operation] ([size : u32]). *)
Record FileOperation := mkFileOperation {
  fo_id : OperationId;
  fo_instance : Instance_;
  fo_workspace : Workspace;
  fo_resource : Resource;
  fo_previous : Version;
  fo_version : Version;
  fo_size : Z;
  fo_retry : OpRetry;
  fo_sha256 : list Z;
}.

Definition FileOperation_valid (o : FileOperation) : bool :=
  bool_decide (oi_lineage (fo_id o) = ws_lineage (fo_workspace o))
  && bool_decide (rs_workspace (fo_resource o) = fo_workspace o)
  && (4 <? rs_object (fo_resource o))
  && negb (rs_object (fo_resource o) =? ws_root (fo_workspace o))
  && bool_decide (Instance_lineage (fo_instance o) = oi_lineage (fo_id o))
  && (oi_sequence (fo_id o) =? v_value (fo_version o))
  && (v_value (fo_previous o) <? v_value (fo_version o))
  && (Instance_sequence (fo_instance o) <=? v_value (fo_version o))
  && (e_value (or_epoch (fo_retry o)) <=? v_value (fo_version o))
  && (fo_size o <=? 1024).

Definition FileOperation_encode (o : FileOperation) : outcome FileError (list Z) :=
  if negb (FileOperation_valid o) then Err FProtocol
  else
    let b := zeros RECEIPT_BYTES in
    let b := write b 0 (oi_lineage (fo_id o)) in
    let b := write b 16 (le_bytes 4 (ws_root (fo_workspace o))) in
    let b := write b 20 (le_bytes 4 (rs_object (fo_resource o))) in
    let b := write b 24 (le_bytes 8 (v_value (fo_previous o))) in
    let b := write b 32 (le_bytes 8 (v_value (fo_version o))) in
    let b := write b 40 (le_bytes 8 (Instance_sequence (fo_instance o))) in
    let b := write b 48 (le_bytes 8 (e_value (or_epoch (fo_retry o)))) in
    let b := write b 56 (le_bytes 8 (k_value (or_key (fo_retry o)))) in
    let b := write b 64 (le_bytes 2 (fo_size o)) in
    Ok (write b 72 (fo_sha256 o)).

(** The closure [parse] of [decode]. *)
Definition FileOperation_parse (b : list Z) : outcome FileError FileOperation :=
  let lineage := slice b 0 16 in
  let? workspace := Workspace_new lineage (u32_at b 16) in
  let? id := OperationId_new lineage (u64_at b 32) in
  let? inst := Instance_new lineage (u64_at b 40) in
  let? resource := Resource_new workspace (u32_at b 20) in
  let? previous := Version_new (u64_at b 24) in
  let? version := Version_new (u64_at b 32) in
  let? epoch := Epoch_new (u64_at b 48) in
  let? key := Key_new (u64_at b 56) in
  Ok (mkFileOperation id inst workspace resource previous version (u16_at b 64) (mkOpRetry epoch key)
        (slice b 72 RECEIPT_BYTES)).

(** [b] has [RECEIPT_BYTES] bytes by its type. *)
Definition FileOperation_decode (b : list Z) : outcome FileError FileOperation :=
  let? value := map_err (fun _ => FProtocol) (FileOperation_parse b) in
  if negb (FileOperation_valid value) || negb (all_zero (slice b 66 72)) then Err FProtocol else Ok value.

(** The frame of one fragment around [bytes]. *)
Definition FileOperation_part (o : FileOperation) (op context : Z) (offset : nat) : outcome FileError Packet :=
  if negb ((offset =? 0)%nat || (offset =? 40)%nat || (offset =? 80)%nat) then Err FOffset
  else
    let? bytes := FileOperation_encode o in
    let fin := Nat.min (offset + DATA) RECEIPT_BYTES in
    let p := Packet_new op in
    Ok (mkPacket (p_op p) (p_status p) (Z.of_nat (fin - offset)) (Z.of_nat offset) (Z.of_nat RECEIPT_BYTES) context
          (oi_sequence (fo_id o)) (write (p_data p) 0 (slice bytes offset fin))).

(** ** Profile 2 *)
(** [identity]: the size-zero template of the shared invariants. *)
Definition LargeOperation_identity (o : FileOperation) : FileOperation :=
  mkFileOperation (fo_id o) (fo_instance o) (fo_workspace o) (fo_resource o) (fo_previous o) (fo_version o) 0
    (fo_retry o) (fo_sha256 o).

Definition LargeOperation_encode (o : FileOperation) : outcome FileError (list Z) :=
  if MAX_FILE_BYTES <? fo_size o then Err FProtocol
  else
    let? bytes := FileOperation_encode (LargeOperation_identity o) in
    let bytes := write bytes 64 (le_bytes 4 (fo_size o)) in
    Ok (write bytes 68 (le_bytes 4 PROFILE2)).

Definition LargeOperation_decode (bytes : list Z) : outcome FileError FileOperation :=
  let size := u32_at bytes 64 in
  if (MAX_FILE_BYTES <? size) || negb (bool_decide (slice bytes 68 72 = le_bytes 4 PROFILE2)) then Err FProtocol
  else
    let? old := FileOperation_decode (write bytes 64 (zeros 8)) in
    Ok (mkFileOperation (fo_id old) (fo_instance old) (fo_workspace old) (fo_resource old) (fo_previous old)
          (fo_version old) size (fo_retry old) (fo_sha256 old)).

Definition LargeOperation_part (o : FileOperation) (op context : Z) (offset : nat) : outcome FileError Packet :=
  let? p := FileOperation_part (LargeOperation_identity o) op context offset in
  let? bytes := LargeOperation_encode o in
  let fin := (offset + Z.to_nat (p_count p))%nat in
  Ok (mkPacket (p_op p) (p_status p) (p_count p) (p_id p) (p_arg p) (p_context p) (p_version p)
        (write (p_data p) 0 (slice bytes offset fin))).

(** ** Laws *)
(** Identities with their widths, and a receipt of at most [limit] bytes. *)
Record operation_ok (limit : Z) (o : FileOperation) : Prop := {
  oo_workspace : workspace_ok (fo_workspace o);
  oo_lineage : oi_lineage (fo_id o) = ws_lineage (fo_workspace o);
  oo_resource : rs_workspace (fo_resource o) = fo_workspace o;
  oo_object : 4 < rs_object (fo_resource o) /\ rs_object (fo_resource o) <> ws_root (fo_workspace o) /\
              fits 32 (rs_object (fo_resource o));
  oo_instance : Instance_lineage (fo_instance o) = ws_lineage (fo_workspace o) /\ number_ok (Instance_sequence (fo_instance o));
  oo_sequence : oi_sequence (fo_id o) = v_value (fo_version o);
  oo_version : number_ok (v_value (fo_version o));
  oo_previous : number_ok (v_value (fo_previous o)) /\ v_value (fo_previous o) < v_value (fo_version o);
  oo_started : Instance_sequence (fo_instance o) <= v_value (fo_version o);
  oo_retry : op_retry_ok (fo_retry o) /\ e_value (or_epoch (fo_retry o)) <= v_value (fo_version o);
  oo_size : 0 <= fo_size o <= limit;
  oo_sha : length (fo_sha256 o) = 32%nat /\ bytes_ok (fo_sha256 o);
}.

Lemma operation_ok_valid o : operation_ok 1024 o -> FileOperation_valid o = true.
Proof.
  intros [H1 H2 H3 H4 H5 H6 H7 H8 H9 H10 H11 H12]. unfold FileOperation_valid.
  rewrite !bool_decide_eq_true_2 by (done || congruence || by destruct H5; congruence).
  destruct H4 as (? & ? & _), H8 as [_ ?], H10 as [_ ?].
  rewrite !andb_true_iff, negb_true_iff, !Z.ltb_lt, !Z.leb_le, Z.eqb_neq, Z.eqb_eq. lia.
Qed.

Ltac opfields :=
  cbn [fo_id fo_instance fo_workspace fo_resource fo_previous fo_version fo_size fo_retry fo_sha256] in *; fields.

Lemma FileOperation_round o : operation_ok 1024 o ->
  exists b, FileOperation_encode o = Ok b /\ length b = RECEIPT_BYTES /\ bytes_ok b /\ slice b 66 72 = zeros 6 /\
    u16_at b 64 = fo_size o /\ FileOperation_decode b = Ok o.
Proof.
  intros Ho. pose proof (operation_ok_valid o Ho) as Hv. destruct Ho as [H1 H2 H3 H4 H5 H6 H7 H8 H9 H10 H11 H12].
  unfold FileOperation_encode. rewrite Hv. destruct o as [[l q] [[l' i]] [lw r] [w' ob] [pv] [v] n [[e] [k]] sha].
  unfold Instance_lineage, Instance_sequence in *. opfields. subst w' q l.
  destruct H5 as [-> [Hi Fi]]. destruct H1 as ((L & B & Z) & Hr & Fr), H4 as (Hob & Hne & Fob).
  destruct H7 as [Hv0 Fv], H8 as [[Hp Fp] Hlt], H10 as [[[He Fe] [Hk Fk]] Hle], H12 as [Ls Bs]. opfields.
  eexists. split; [reflexivity|]. set (b := write _ 72 sha). wire_unfold.
  assert (E0 : length b = 104%nat) by (unfold b; wire_length).
  assert (E1 : slice b 0 16 = lw) by (unfold b; wire_reads; done).
  assert (E2 : u32_at b 16 = r) by (unfold b; wire_read).
  assert (E3 : u32_at b 20 = ob) by (unfold b; wire_read).
  assert (E4 : u64_at b 24 = pv) by (unfold b; wire_read).
  assert (E5 : u64_at b 32 = v) by (unfold b; wire_read).
  assert (E6 : u64_at b 40 = i) by (unfold b; wire_read).
  assert (E7 : u64_at b 48 = e) by (unfold b; wire_read).
  assert (E8 : u64_at b 56 = k) by (unfold b; wire_read).
  assert (E9 : u16_at b 64 = n) by (assert (fits 16 n) by (unfold fits; lia); unfold b; wire_read).
  assert (Ea : slice b 66 72 = zeros 6) by (unfold b; wire_reads; done).
  assert (Eb : slice b 72 104 = sha) by (unfold b; wire_reads; done).
  split; [done|]. split; [unfold b; wire_bytes|]. split; [done|]. split; [done|]. clearbody b.
  unfold FileOperation_decode, FileOperation_parse, Instance_new, Workspace_new, OperationId_new, Resource_new, Version_new, Epoch_new, Key_new.
  wire_unfold. cbv zeta. rewrite E1, E2, E3, E4, E5, E6, E7, E8, E9, Ea, Eb. unfold no_lineage. pass.
  opfields. rewrite Hv, all_zero_zeros. done.
Qed.

Lemma FileOperation_canonical b o : length b = RECEIPT_BYTES -> bytes_ok b -> FileOperation_decode b = Ok o ->
  operation_ok 1024 o /\ FileOperation_encode o = Ok b.
Proof.
  intros L B H.
  unfold FileOperation_decode, FileOperation_parse, Instance_new, Workspace_new, OperationId_new, Resource_new, Version_new,
    Epoch_new, Key_new, map_err in H. cbv zeta in H. accept H. injection H as <-.
  repeat match goal with G : (_ || _) = false |- _ => apply orb_false_iff in G as [? ?] end. lineage_cases.
  wire_unfold.
  assert (Hf : forall i j n, (j <= 104)%nat -> (n = j - i)%nat -> fits (8 * Z.of_nat n) (le_value (slice b i j)))
    by (intros; eapply field_fits; [done|lia|done|done]).
  match goal with H : FileOperation_valid _ = true |- _ => pose proof H as Hv; unfold FileOperation_valid in Hv; opfields; bools end.
  split.
  - split; opfields; unfold Instance_lineage, Instance_sequence, workspace_ok, op_retry_ok, lineage_ok in *; opfields; try done; try lia.
    + split; [split; [rewrite length_slice; lia|split; [by apply bytes_ok_slice|done]]|]. split; [done|]. by apply (Hf 16 20 4)%nat; [lia|].
    + split; [done|]. split; [done|]. by apply (Hf 20 24 4)%nat; [lia|].
    + split; [done|]. split; [done|]. by apply (Hf 40 48 8)%nat; [lia|].
    + split; [done|]. by apply (Hf 32 40 8)%nat; [lia|].
    + split; [|done]. split; [done|]. by apply (Hf 24 32 8)%nat; [lia|].
    + split; [|done]. split; (split; [done|]); [by apply (Hf 48 56 8)%nat; [lia|]|by apply (Hf 56 64 8)%nat; [lia|]].
    + split; [|done]. pose proof (Hf 64 66 2)%nat ltac:(lia) ltac:(done) as F. unfold fits in F. lia.
    + split; [rewrite length_slice; lia|by apply bytes_ok_slice].
  - unfold FileOperation_encode. match goal with H : FileOperation_valid _ = true |- _ => rewrite H end. cbn [negb].
    opfields. unfold Instance_sequence. opfields. f_equal. wire_unfold.
    assert (length (slice b 0 16) = 16%nat) by (rewrite length_slice; lia).
    assert (length (slice b 72 104) = 32%nat) by (rewrite length_slice; lia).
    wire_fields [16; 20; 24; 32; 40; 48; 56; 64; 66; 72; 104]%nat.
Qed.

(** ** Receipts of profile 2 and receipt fragments

    Laws of the large-workspace receipt, mutual refusal of the two profiles, and
    reassembly of a receipt from its three packets. *)
(** ** Profile 2 *)
Lemma identity_ok o : operation_ok MAX_FILE_BYTES o -> operation_ok 1024 (LargeOperation_identity o).
Proof. intros []. split; done. Qed.

Lemma size_field_zero b : length b = RECEIPT_BYTES -> bytes_ok b -> u16_at b 64 = 0 -> slice b 66 72 = zeros 6 -> slice b 64 72 = zeros 8.
Proof.
  intros L B H1 H2. wire_unfold. rewrite <- (slice_app b 64 66 72), H2 by lia.
  rewrite <- (zero_value_field b 64 66 2) by (done || lia). done.
Qed.

(** Rewriting the size field and back. *)
Lemma size_swap b x y z : length b = RECEIPT_BYTES -> length x = 4%nat -> length y = 4%nat -> slice b 64 72 = z -> length z = 8%nat ->
  write (write (write b 64 x) 68 y) 64 z = b.
Proof.
  intros L Lx Ly Hz Lz. wire_unfold. apply (eq_by_fields _ _ [64; 72; 104]%nat). cbn [same_fields].
  split; [lia|]. split; [by rewrite !slice_write_before by wire_len|]. split; [lia|].
  split; [rewrite slice_write_same by wire_len; done|]. split; [lia|].
  split; [by rewrite !slice_write_after by wire_len|]. split; [wire_len|lia].
Qed.

Lemma LargeOperation_round o : operation_ok MAX_FILE_BYTES o ->
  exists b, LargeOperation_encode o = Ok b /\ length b = RECEIPT_BYTES /\ bytes_ok b /\ LargeOperation_decode b = Ok o.
Proof.
  intros Ho. destruct (FileOperation_round _ (identity_ok o Ho)) as (b0 & E & L & B & Hz & Hn & Hd).
  pose proof (size_field_zero b0 L B Hn Hz) as Hz8. pose proof (oo_size _ _ Ho) as Hs.
  unfold LargeOperation_encode. destruct (Z.ltb_spec MAX_FILE_BYTES (fo_size o)); [lia|]. rewrite E.
  eexists. split; [reflexivity|]. set (b := write _ 68 _). wire_unfold.
  assert (L1 : length b = 104%nat) by (unfold b; wire_length).
  assert (Fs : fits 32 (fo_size o)) by (unfold fits, MAX_FILE_BYTES in *; lia).
  assert (R1 : u32_at b 64 = fo_size o) by (unfold b; wire_read).
  assert (R2 : slice b 68 72 = le_bytes 4 PROFILE2) by (unfold b; wire_reads; done).
  assert (R3 : write b 64 (zeros 8) = b0) by (unfold b; apply size_swap; wire_unfold; try done; apply length_le_bytes).
  split; [done|]. split; [unfold b; wire_bytes|]. unfold LargeOperation_decode. rewrite R1, R2, R3, Hd. cbv zeta.
  rewrite bool_decide_eq_true_2 by done. destruct (Z.ltb_spec MAX_FILE_BYTES (fo_size o)); [lia|]. by destruct o.
Qed.

Lemma LargeOperation_canonical b o : length b = RECEIPT_BYTES -> bytes_ok b -> LargeOperation_decode b = Ok o ->
  operation_ok MAX_FILE_BYTES o /\ LargeOperation_encode o = Ok b.
Proof.
  intros L B H. unfold LargeOperation_decode in H. cbv zeta in H. accept H. bools.
  set (b0 := write b 64 (zeros 8)) in *. wire_unfold.
  assert (L0 : length b0 = 104%nat) by (unfold b0; wire_length). assert (B0 : bytes_ok b0) by (unfold b0; wire_bytes).
  destruct (FileOperation_decode b0) as [old|?|] eqn:Ed; [|done|done]. injection H as <-.
  destruct (FileOperation_canonical b0 old L0 B0 Ed) as [Hold He].
  assert (Hz : fo_size old = 0).
  { destruct (FileOperation_round old Hold) as (b1 & E1 & _ & _ & _ & Hs & _). rewrite He in E1. injection E1 as <-.
    rewrite <- Hs. unfold b0. wire_unfold.
    replace (slice (write b 64 (zeros 8)) 64 66) with (slice (slice (write b 64 (zeros 8)) 64 72) 0 2)
      by (by rewrite slice_slice by lia).
    rewrite slice_write_same, slice_zeros by (done || lia). apply le_value_zeros. }
  assert (Hid : forall n, LargeOperation_identity (mkFileOperation (fo_id old) (fo_instance old) (fo_workspace old)
    (fo_resource old) (fo_previous old) (fo_version old) n (fo_retry old) (fo_sha256 old)) = old)
    by (intros n; destruct old; simpl in *; subst; done).
  assert (Fs : fits 32 (le_value (slice b 64 68))) by (eapply field_fits; [done|lia|reflexivity|done]).
  split.
  - destruct Hold. split; try done. simpl. unfold fits in Fs. lia.
  - unfold LargeOperation_encode. cbn [fo_size]. rewrite Hid, He. destruct (Z.ltb_spec MAX_FILE_BYTES (le_value (slice b 64 68))); [lia|].
    f_equal. unfold b0. match goal with E : slice b 68 72 = _ |- _ => rewrite <- E end.
    assert (length (slice b 68 72) = 4%nat) by (rewrite length_slice; lia). wire_fields [64; 68; 72; 104]%nat.
Qed.

(** The profiles refuse each other's receipts. *)
Lemma receipt_profiles_disjoint b o : length b = RECEIPT_BYTES -> bytes_ok b -> FileOperation_decode b = Ok o -> LargeOperation_decode b = Err FProtocol.
Proof.
  intros L B H. unfold FileOperation_decode in H. destruct (map_err _ _) as [v|?|]; [|done|done]. accept H. bools.
  unfold LargeOperation_decode. cbv zeta. rewrite bool_decide_eq_false_2; [by rewrite orb_true_r|].
  assert (H6 : zeros 6 = slice b 66 72) by (apply zero_field; [wire_unfold; lia|done|done]). intros E.
  assert (Ez : slice b 68 72 = zeros 4).
  { replace (slice b 68 72) with (slice (slice b 66 72) 2 6) by (by rewrite slice_slice by lia).
    by rewrite <- H6, slice_zeros by lia. }
  rewrite Ez in E. done.
Qed.

(** ** Fragments *)
(** The bytes three replies carry, in the order they are fetched. *)
Definition gathered (parts : list Packet) : list Z := concat (Packet_payload <$> parts).

(** One fragment is a frame around its range of the receipt. *)
Definition carries (p : Packet) (bytes : list Z) (op context sequence : Z) (offset : nat) : Prop :=
  p_op p = op /\ p_status p = 0 /\ p_context p = context /\ p_id p = Z.of_nat offset /\ p_arg p = 104 /\ p_version p = sequence /\
  Packet_payload p = slice bytes offset (Nat.min (offset + 40) 104) /\ length (p_data p) = DATA.

Lemma payload_write b n s : length b = DATA -> length s = n -> (n <= 40)%nat ->
  take (Nat.min (Z.to_nat (Z.of_nat n)) DATA) (write b 0 s) = s.
Proof.
  intros L Ls Hn. wire_unfold. rewrite Nat2Z.id. replace (Nat.min n 40) with n by lia. unfold write. rewrite take_0. cbn [app].
  rewrite take_app_le by lia. apply take_ge. lia.
Qed.

Lemma part_carries o bytes op context offset :
  FileOperation_encode o = Ok bytes -> length bytes = RECEIPT_BYTES -> (offset = 0 \/ offset = 40 \/ offset = 80)%nat ->
  exists p, FileOperation_part o op context offset = Ok p /\ carries p bytes op context (oi_sequence (fo_id o)) offset /\
    p_count p = Z.of_nat (Nat.min (offset + 40) 104 - offset).
Proof.
  intros He L Ho. unfold FileOperation_part. rewrite He.
  assert (G : negb ((offset =? 0)%nat || (offset =? 40)%nat || (offset =? 80)%nat) = false) by (by destruct Ho as [-> | [-> | ->]]).
  rewrite G. wire_unfold. cbv zeta. eexists. split; [reflexivity|]. split; [|done].
  unfold carries. fields. do 6 (split; [done|]). unfold Packet_payload. fields. split.
  - apply payload_write; [by wire_unfold; rewrite length_zeros|rewrite length_slice; lia|lia].
  - assert (length (slice bytes offset (Nat.min (offset + 40) 104)) = (Nat.min (offset + 40) 104 - offset)%nat)
      by (rewrite length_slice; lia). wire_unfold. rewrite length_write; rewrite length_zeros; lia.
Qed.

Lemma large_part_carries o bytes op context offset :
  operation_ok MAX_FILE_BYTES o -> LargeOperation_encode o = Ok bytes -> length bytes = RECEIPT_BYTES ->
  (offset = 0 \/ offset = 40 \/ offset = 80)%nat ->
  exists p, LargeOperation_part o op context offset = Ok p /\ carries p bytes op context (oi_sequence (fo_id o)) offset.
Proof.
  intros Hok He L Ho. destruct (FileOperation_round _ (identity_ok o Hok)) as (b0 & E0 & L0 & _).
  destruct (part_carries (LargeOperation_identity o) b0 op context offset E0 L0 Ho) as (p & Hp & Hc & Hn).
  unfold LargeOperation_part. rewrite Hp, He. destruct Hc as (C1 & C2 & C3 & C4 & C5 & C6 & _ & C8).
  eexists. split; [reflexivity|]. unfold carries. fields. do 6 (split; [done|]). unfold Packet_payload. fields. wire_unfold.
  rewrite Hn, Nat2Z.id. replace (offset + (Nat.min (offset + 40) 104 - offset))%nat with (Nat.min (offset + 40) 104) by lia.
  assert (Ls : length (slice bytes offset (Nat.min (offset + 40) 104)) = (Nat.min (offset + 40) 104 - offset)%nat)
    by (rewrite length_slice; lia). split.
  - rewrite <- (Nat2Z.id (Nat.min (offset + 40) 104 - offset)) at 1. apply payload_write; [done|done|lia].
  - rewrite length_write; lia.
Qed.

Lemma gathered_receipt p0 p1 p2 bytes op c s : length bytes = RECEIPT_BYTES ->
  carries p0 bytes op c s 0 -> carries p1 bytes op c s 40 -> carries p2 bytes op c s 80 -> gathered [p0; p1; p2] = bytes.
Proof.
  intros L (_ & _ & _ & _ & _ & _ & H0 & _) (_ & _ & _ & _ & _ & _ & H1 & _) (_ & _ & _ & _ & _ & _ & H2 & _).
  unfold gathered. cbn [fmap list_fmap concat]. rewrite H0, H1, H2, app_nil_r. cbn [Nat.min Nat.add].
  rewrite !slice_app by lia. by apply slice_full.
Qed.

(** ** Claims *)
(** Completed-operation receipts of both profiles round trip, every
    accepted 104-byte receipt is the canonical one of an operation whose identities, versions and
    size are consistent, the profiles refuse each other's receipts, and the three fragments of a
    receipt reassemble to it. *)
Theorem file_receipts_are_canonical :
  (forall o, operation_ok 1024 o -> exists b, FileOperation_encode o = Ok b /\ FileOperation_decode b = Ok o /\
     forall op c, exists p0 p1 p2, FileOperation_part o op c 0 = Ok p0 /\ FileOperation_part o op c 40 = Ok p1 /\
       FileOperation_part o op c 80 = Ok p2 /\ gathered [p0; p1; p2] = b) /\
  (forall o, operation_ok MAX_FILE_BYTES o -> exists b, LargeOperation_encode o = Ok b /\ LargeOperation_decode b = Ok o /\
     forall op c, exists p0 p1 p2, LargeOperation_part o op c 0 = Ok p0 /\ LargeOperation_part o op c 40 = Ok p1 /\
       LargeOperation_part o op c 80 = Ok p2 /\ gathered [p0; p1; p2] = b) /\
  (forall b o, length b = RECEIPT_BYTES -> bytes_ok b ->
     (FileOperation_decode b = Ok o -> operation_ok 1024 o /\ FileOperation_encode o = Ok b /\ LargeOperation_decode b = Err FProtocol) /\
     (LargeOperation_decode b = Ok o -> operation_ok MAX_FILE_BYTES o /\ LargeOperation_encode o = Ok b)).
Proof.
  split; [|split].
  - intros o Ho. destruct (FileOperation_round o Ho) as (b & E & L & _ & _ & _ & D).
    exists b. split; [done|]. split; [done|]. intros op c.
    destruct (part_carries o b op c 0 E L) as (p0 & -> & C0 & _); [auto|].
    destruct (part_carries o b op c 40 E L) as (p1 & -> & C1 & _); [auto|].
    destruct (part_carries o b op c 80 E L) as (p2 & -> & C2 & _); [auto|].
    exists p0, p1, p2. do 3 (split; [done|]). by eapply gathered_receipt.
  - intros o Ho. destruct (LargeOperation_round o Ho) as (b & E & L & _ & D).
    exists b. split; [done|]. split; [done|]. intros op c.
    destruct (large_part_carries o b op c 0 Ho E L) as (p0 & -> & C0); [auto|].
    destruct (large_part_carries o b op c 40 Ho E L) as (p1 & -> & C1); [auto|].
    destruct (large_part_carries o b op c 80 Ho E L) as (p2 & -> & C2); [auto|].
    exists p0, p1, p2. do 3 (split; [done|]). by eapply gathered_receipt.
  - intros b o L B. split.
    + intros H. destruct (FileOperation_canonical b o L B H). split; [done|]. split; [done|]. by eapply receipt_profiles_disjoint.
    + by apply LargeOperation_canonical.
Qed.
