(* ===== verification/AbiAdmission.v ===== *)
(** * Admissions (crates/abi/src/files/admission, files/lifecycle)

    Admission identities, durable statuses, live activities and the two
    observation profiles over the packet, the cancellation acknowledgement, and
    the service-v2 lifecycle projection. *)
From stdpp Require Import base list option numbers.
From Stdlib Require Import ZArith Lia Bool.
From S2P Require Import Prelude Bytes Codec AbiFiles AbiIdentity AbiMessages.

Definition ADM_ACCEPT : Z := 50.
Definition ADM_GET : Z := 52.
Definition ADM_RETRY : Z := 53.
Definition ADM_EXECUTE : Z := 54.
Definition ADM_CANCEL : Z := 55.
Definition ADM_ACTIVITY : Z := 56.
Definition ADM_REQUEST_CANCEL : Z := 57.
Definition ADM_SCHEDULE : Z := 59.
Definition ADM_OBSERVE : Z := 60.
Definition OBSERVATION_VERSION : Z := 1.
Definition OBSERVATION_V2 : Z := 2.
Definition LIFECYCLE_VERSION : Z := 2.
Definition LIFECYCLE_CANCEL : Z := 61.

Definition adm_live (op : Z) : bool := (op =? ADM_ACTIVITY) || (op =? ADM_REQUEST_CANCEL).

(** ** Identities (identity.rs) *)
Definition id_op (op : Z) : bool :=
  (op =? ADM_GET) || (op =? ADM_EXECUTE) || (op =? ADM_CANCEL) || (op =? ADM_SCHEDULE) || (op =? ADM_OBSERVE) || adm_live op.

Definition AdmissionId_packet (a : AdmissionId) (op context : Z) : outcome FileError Packet :=
  if negb (id_op op) then Err FProtocol
  else
    let p := Packet_new op in
    Ok (mkPacket (p_op p) (p_status p) 16 (p_id p) (if op =? ADM_OBSERVE then OBSERVATION_VERSION else p_arg p) context
          (ai_number a) (write (p_data p) 0 (ai_lineage a))).

Definition AdmissionId_decode (p : Packet) : outcome FileError AdmissionId :=
  if negb (id_op (p_op p)) || negb (p_status p =? 0) || negb (p_id p =? 0)
     || (if p_op p =? ADM_OBSERVE then negb ((p_arg p =? OBSERVATION_VERSION) || (p_arg p =? OBSERVATION_V2))
         else negb (p_arg p =? 0))
     || negb (p_count p =? 16) || negb (bool_decide (slice (p_data p) 16 40 = zeros 24))
  then Err FProtocol
  else AdmissionId_new (slice (p_data p) 0 16) (p_version p).

(** ** Durable statuses (status.rs) *)
Inductive AdmState := AAdmitted | ACancelled | ACommitted.
#[global] Instance AdmState_eq_dec : EqDecision AdmState.
Proof. solve_decision. Defined.

Record Status := mkStatus { ss_id : AdmissionId; ss_state : AdmState; ss_instance : Instance_; ss_terminal : Z }.

Definition Status_validate (s : Status) : outcome FileError unit :=
  if negb (bool_decide (Instance_lineage (ss_instance s) = ai_lineage (ss_id s)))
     || (ai_number (ss_id s) <? Instance_sequence (ss_instance s))
     || match ss_state s with
        | AAdmitted => negb (ss_terminal s =? 0)
        | ACancelled | ACommitted => ss_terminal s <=? ai_number (ss_id s)
        end
  then Err FProtocol else Ok tt.

Definition Status_completion (s : Status) : option OperationId :=
  if bool_decide (ss_state s = ACommitted) then
    match OperationId_new (ai_lineage (ss_id s)) (ss_terminal s) with Ok id => Some id | _ => None end
  else None.

Definition status_op (op : Z) : bool :=
  (op =? ADM_ACCEPT) || (op =? ADM_GET) || (op =? ADM_RETRY) || (op =? ADM_EXECUTE) || (op =? ADM_CANCEL).

Definition AdmState_code (s : AdmState) : Z := match s with AAdmitted => 1 | ACancelled => 2 | ACommitted => 3 end.
Definition AdmState_parse (v : Z) : outcome FileError AdmState :=
  if v =? 1 then Ok AAdmitted else if v =? 2 then Ok ACancelled else if v =? 3 then Ok ACommitted else Err FProtocol.

Definition Status_packet (s : Status) (op context : Z) : outcome FileError Packet :=
  let? _ := Status_validate s in
  if negb (status_op op) then Err FProtocol
  else
    let p := Packet_new op in
    let d := write (p_data p) 0 (ai_lineage (ss_id s)) in
    let d := write d 16 (le_bytes 8 (Instance_sequence (ss_instance s))) in
    let d := write d 24 (le_bytes 8 (ss_terminal s)) in
    Ok (mkPacket (p_op p) (p_status p) 32 (p_id p) (AdmState_code (ss_state s)) context (ai_number (ss_id s)) d).

Definition Status_decode (p : Packet) : outcome FileError Status :=
  if negb (status_op (p_op p)) || negb (p_status p =? 0) || negb (p_id p =? 0) || negb (p_count p =? 32)
     || negb (bool_decide (slice (p_data p) 32 40 = zeros 8))
  then Err FProtocol
  else
    let lineage := slice (p_data p) 0 16 in
    let? id := map_err (fun _ => FProtocol) (AdmissionId_new lineage (p_version p)) in
    let? st := AdmState_parse (p_arg p) in
    let? inst := map_err (fun _ => FProtocol) (Instance_new lineage (u64_at (p_data p) 16)) in
    let result := mkStatus id st inst (u64_at (p_data p) 24) in
    let? _ := Status_validate result in Ok result.

(** ** Live activities (activity.rs) *)
Inductive ActivityPhase := Queued | Running | Stopping | Settling.
#[global] Instance ActivityPhase_eq_dec : EqDecision ActivityPhase.
Proof. solve_decision. Defined.

Record Activity := mkActivity {
  ac_id : AdmissionId; ac_instance : Instance_; ac_phase : ActivityPhase; ac_cancel : bool; ac_io : bool }.

Definition phase_is (p q : ActivityPhase) : bool := bool_decide (p = q).

Definition Activity_validate (a : Activity) (op : Z) : outcome FileError unit :=
  if negb (adm_live op || (op =? ADM_SCHEDULE))
     || negb (bool_decide (Instance_lineage (ac_instance a) = ai_lineage (ac_id a)))
     || (ai_number (ac_id a) <? Instance_sequence (ac_instance a))
     || (((op =? ADM_REQUEST_CANCEL) || phase_is (ac_phase a) Stopping) && negb (ac_cancel a))
     || (phase_is (ac_phase a) Running && ac_cancel a)
     || (phase_is (ac_phase a) Queued && ac_io a)
  then Err FProtocol else Ok tt.

Definition phase_code (p : ActivityPhase) : Z := match p with Queued => 4 | Running => 1 | Stopping => 2 | Settling => 3 end.
Definition phase_parse (v : Z) : outcome FileError ActivityPhase :=
  if v =? 4 then Ok Queued else if v =? 1 then Ok Running else if v =? 2 then Ok Stopping
  else if v =? 3 then Ok Settling else Err FProtocol.

Definition Activity_arg (a : Activity) : Z :=
  Z.lor (Z.lor (phase_code (ac_phase a)) (Z.shiftl (if ac_cancel a then 1 else 0) 8)) (Z.shiftl (if ac_io a then 1 else 0) 9).

Definition Activity_packet (a : Activity) (op context : Z) : outcome FileError Packet :=
  let? _ := Activity_validate a op in
  let p := Packet_new op in
  let d := write (p_data p) 0 (ai_lineage (ac_id a)) in
  let d := write d 16 (le_bytes 8 (Instance_sequence (ac_instance a))) in
  Ok (mkPacket (p_op p) (p_status p) 24 (p_id p) (Activity_arg a) context (ai_number (ac_id a)) d).

Definition Activity_decode (p : Packet) : outcome FileError Activity :=
  if negb (p_status p =? 0) || negb (p_id p =? 0) || negb (p_count p =? 24)
     || negb (bool_decide (slice (p_data p) 24 40 = zeros 16)) || negb (Z.land (p_arg p) (unot 32 775) =? 0)
  then Err FProtocol
  else
    let lineage := slice (p_data p) 0 16 in
    let? id := map_err (fun _ => FProtocol) (AdmissionId_new lineage (p_version p)) in
    let? inst := map_err (fun _ => FProtocol) (Instance_new lineage (u64_at (p_data p) 16)) in
    let? phase := phase_parse (Z.land (p_arg p) 7) in
    let result := mkActivity id inst phase (negb (Z.land (p_arg p) 256 =? 0)) (negb (Z.land (p_arg p) 512 =? 0)) in
    let? _ := Activity_validate result (p_op p) in Ok result.

(** ** Observations (observation.rs, observation_v2.rs) *)
Inductive Observation := Retained (s : Status) | Active (a : Activity).

Definition Observation_id (o : Observation) : AdmissionId := match o with Retained v => ss_id v | Active v => ac_id v end.
Definition Observation_instance (o : Observation) : Instance_ :=
  match o with Retained v => ss_instance v | Active v => ac_instance v end.

Definition Observation_packet (o : Observation) (context : Z) : outcome FileError Packet :=
  let? p := match o with
            | Retained v => Status_packet v ADM_GET context
            | Active v => Activity_packet v ADM_ACTIVITY context
            end in
  Ok (mkPacket ADM_OBSERVE (p_status p) (p_count p) OBSERVATION_VERSION (p_arg p) (p_context p) (p_version p) (p_data p)).

Definition Observation_decode (p : Packet) : outcome FileError Observation :=
  if negb (p_op p =? ADM_OBSERVE) || negb (p_id p =? OBSERVATION_VERSION) then Err FProtocol
  else
    let inner op := mkPacket op (p_status p) (p_count p) 0 (p_arg p) (p_context p) (p_version p) (p_data p) in
    if p_count p =? 32 then let? v := Status_decode (inner ADM_GET) in Ok (Retained v)
    else if p_count p =? 24 then let? v := Activity_decode (inner ADM_ACTIVITY) in Ok (Active v)
    else Err FProtocol.

Inductive PreventionReason := PUnknown | PRequested | PVersionConflict | PAuthorityLost.
#[global] Instance PreventionReason_eq_dec : EqDecision PreventionReason.
Proof. solve_decision. Defined.
Definition PreventionReason_repr (r : PreventionReason) : Z :=
  match r with PUnknown => 1 | PRequested => 2 | PVersionConflict => 3 | PAuthorityLost => 4 end.

Inductive ObservationV2 :=
| RetainedV2 (status : Status) (prevention : option PreventionReason)
| ActiveV2 (a : Activity).

Definition ObservationV2_request (id : AdmissionId) (context : Z) : outcome FileError Packet :=
  let? p := AdmissionId_packet id ADM_OBSERVE context in
  Ok (mkPacket (p_op p) (p_status p) (p_count p) (p_id p) OBSERVATION_V2 (p_context p) (p_version p) (p_data p)).

Definition ObservationV2_coarse (o : ObservationV2) : Observation :=
  match o with RetainedV2 s _ => Retained s | ActiveV2 a => Active a end.

Definition cancelled (s : Status) : bool := bool_decide (ss_state s = ACancelled).
Definition is_some {A} (o : option A) : bool := match o with Some _ => true | None => false end.

Definition ObservationV2_packet (o : ObservationV2) (context : Z) : outcome FileError Packet :=
  let? p := Observation_packet (ObservationV2_coarse o) context in
  match o with
  | RetainedV2 status prevention =>
    if negb (Bool.eqb (cancelled status) (is_some prevention)) then Err FProtocol
    else Ok (mkPacket (p_op p) (p_status p) 33 OBSERVATION_V2 (p_arg p) (p_context p) (p_version p)
               (write (p_data p) 32 (le_bytes 1 (match prevention with None => 0 | Some v => PreventionReason_repr v end))))
  | ActiveV2 _ =>
    Ok (mkPacket (p_op p) (p_status p) (p_count p) OBSERVATION_V2 (p_arg p) (p_context p) (p_version p) (p_data p))
  end.

Definition prevention_parse (v : Z) : outcome FileError (option PreventionReason) :=
  if v =? 0 then Ok None else if v =? 1 then Ok (Some PUnknown) else if v =? 2 then Ok (Some PRequested)
  else if v =? 3 then Ok (Some PVersionConflict) else if v =? 4 then Ok (Some PAuthorityLost) else Err FProtocol.

Definition ObservationV2_decode (p : Packet) : outcome FileError ObservationV2 :=
  if negb (p_op p =? ADM_OBSERVE) || negb (p_id p =? OBSERVATION_V2) then Err FProtocol
  else if p_count p =? 24 then
    let? o := Observation_decode (mkPacket (p_op p) (p_status p) (p_count p) OBSERVATION_VERSION (p_arg p) (p_context p)
                                    (p_version p) (p_data p)) in
    match o with Active v => Ok (ActiveV2 v) | Retained _ => Err FProtocol end
  else if p_count p =? 33 then
    let? prevention := prevention_parse (byte_at (p_data p) 32) in
    let? o := Observation_decode (mkPacket (p_op p) (p_status p) 32 OBSERVATION_VERSION (p_arg p) (p_context p)
                                    (p_version p) (write (p_data p) 32 [0])) in
    match o with
    | Retained status =>
      if negb (Bool.eqb (cancelled status) (is_some prevention)) then Err FProtocol else Ok (RetainedV2 status prevention)
    | Active _ => Err FProtocol
    end
  else Err FProtocol.

(** ** Cancellation acknowledgement (lifecycle/cancellation.rs) *)
Inductive Disposition := DRequested | DAlreadyRequested | DTooLate.
Definition Disposition_repr (d : Disposition) : Z := match d with DRequested => 1 | DAlreadyRequested => 2 | DTooLate => 3 end.
Definition Disposition_parse (v : Z) : outcome FileError Disposition :=
  if v =? 1 then Ok DRequested else if v =? 2 then Ok DAlreadyRequested else if v =? 3 then Ok DTooLate else Err FProtocol.

Record CancelAck := mkCancelAck { ck_id : AdmissionId; ck_disposition : Disposition }.

Definition CancelAck_request (id : AdmissionId) (context : Z) : outcome FileError Packet :=
  let? p := AdmissionId_packet id ADM_GET context in
  Ok (mkPacket LIFECYCLE_CANCEL (p_status p) (p_count p) (p_id p) LIFECYCLE_VERSION (p_context p) (p_version p) (p_data p)).

Definition CancelAck_decode_request (p : Packet) : outcome FileError AdmissionId :=
  if negb (p_op p =? LIFECYCLE_CANCEL) || negb (p_arg p =? LIFECYCLE_VERSION) then Err FProtocol
  else map_err (fun _ => FProtocol)
         (AdmissionId_decode (mkPacket ADM_GET (p_status p) (p_count p) (p_id p) 0 (p_context p) (p_version p) (p_data p))).

Definition CancelAck_packet (a : CancelAck) (context : Z) : outcome FileError Packet :=
  let? p := CancelAck_request (ck_id a) context in
  Ok (mkPacket (p_op p) (p_status p) (p_count p) LIFECYCLE_VERSION (Disposition_repr (ck_disposition a)) (p_context p)
        (p_version p) (p_data p)).

Definition CancelAck_decode (p : Packet) : outcome FileError CancelAck :=
  if negb (p_id p =? LIFECYCLE_VERSION) then Err FProtocol
  else
    let? disposition := Disposition_parse (p_arg p) in
    let? id := CancelAck_decode_request
      (mkPacket (p_op p) (p_status p) (p_count p) 0 LIFECYCLE_VERSION (p_context p) (p_version p) (p_data p)) in
    Ok (mkCancelAck id disposition).

(** ** The lifecycle projection (lifecycle/observation.rs) *)
Inductive Failure := FailVersionConflict | FailAccessDenied.
Inductive LifeState :=
| LPrepared | LQueued (stop_pending : bool) | LRunning (stop_pending : bool) | LReconciling (stop_pending : bool)
| LSucceeded (completion_id : OperationId) | LCancelled | LFailed (failure : Failure) | LPrevented.
Record LifeOperation := mkLifeOperation { lo_id : AdmissionId; lo_instance : Instance_; lo_state : LifeState }.

Definition life_state (view : ObservationV2) : outcome FileError LifeState :=
  match view with
  | ActiveV2 v =>
    Ok match ac_phase v with
       | Queued => LQueued (ac_cancel v)
       | Running | Stopping => LRunning (ac_cancel v)
       | Settling => LReconciling (ac_cancel v)
       end
  | RetainedV2 status prevention =>
    match ss_state status with
    | AAdmitted => Ok LPrepared
    | ACommitted => let? id := ok_or (Status_completion status) FProtocol in Ok (LSucceeded id)
    | ACancelled =>
      let? r := ok_or prevention FProtocol in
      Ok match r with
         | PRequested => LCancelled
         | PUnknown => LPrevented
         | PVersionConflict => LFailed FailVersionConflict
         | PAuthorityLost => LFailed FailAccessDenied
         end
    end
  end.

Definition LifeOperation_try_from (view : ObservationV2) : outcome FileError LifeOperation :=
  let? _ := ObservationV2_packet view 0 in
  let? st := life_state view in
  Ok (mkLifeOperation (Observation_id (ObservationV2_coarse view)) (Observation_instance (ObservationV2_coarse view)) st).

(** ** Admission messages are canonical

    Codec laws of identities, statuses, activities, both observation profiles
    and cancellation acknowledgements, and the meaning of the lifecycle
    projection. *)
Definition admission_ok (a : AdmissionId) : Prop := lineage_ok (ai_lineage a) /\ number_ok (ai_number a).

Ltac admfields :=
  cbn [ss_id ss_state ss_instance ss_terminal ac_id ac_instance ac_phase ac_cancel ac_io ck_id ck_disposition
       Instance_lineage Instance_sequence fst snd] in *;
  unfold Instance_lineage, Instance_sequence in *; fields.

(** ** Identities *)
Definition id_arg (op arg : Z) : Prop := if op =? ADM_OBSERVE then arg = 1 \/ arg = 2 else arg = 0.

Definition id_valid (op : Z) (m : AdmissionId * Z) : Prop := id_op op = true /\ admission_ok m.1 /\ id_arg op m.2.

(** A request for an admission under an observation profile. *)
Definition id_packet (m : AdmissionId * Z) (op context : Z) : outcome FileError Packet :=
  let? p := AdmissionId_packet m.1 op context in
  Ok (mkPacket (p_op p) (p_status p) (p_count p) (p_id p) m.2 (p_context p) (p_version p) (p_data p)).

Ltac op_cases H :=
  repeat match type of H with (_ || _) = true => apply orb_true_iff in H as [H|H] end; apply Z.eqb_eq in H.

Lemma id_op_known op : id_op op = true -> fits 8 op /\ known_op op = true.
Proof. unfold id_op, adm_live. intros H. op_cases H; subst op; by vm_compute. Qed.

Lemma AdmissionId_message :
  message_laws id_packet (fun p => let? a := AdmissionId_decode p in Ok (a, p_arg p)) id_valid.
Proof.
  split.
  - intros op c [[l n] arg] (Hop & ((L & B & Z) & Hn & Fn) & Ha) Hc. admfields. unfold id_packet, AdmissionId_packet. admfields.
    destruct (id_op_known op Hop) as [F8 K]. rewrite Hop. fields. set (d := write _ 0 l). wire_unfold.
    assert (D0 : length d = 40%nat) by (unfold d; wire_length).
    assert (D1 : slice d 0 16 = l) by (unfold d; wire_reads; done).
    assert (D2 : slice d 16 40 = zeros 24) by (unfold d; wire_reads; done).
    eexists. split; [reflexivity|]. split; [apply packet_frame; try done; try (unfold fits; lia)|].
    + unfold id_arg in Ha. unfold fits. destruct (op =? ADM_OBSERVE); lia.
    + unfold d. wire_bytes.
    + change (Z.to_nat 16) with 16%nat. rewrite drop_slice, D0, D2. apply all_zero_zeros.
    + split; [done|]. split; [done|]. unfold AdmissionId_decode, AdmissionId_new, no_lineage. fields. rewrite Hop, D1, D2.
      rewrite (bool_decide_eq_true_2 (zeros 24 = zeros 24)) by done. unfold id_arg in Ha. fields.
      destruct (op =? ADM_OBSERVE); [destruct Ha as [-> | ->]|subst arg]; cbn [OBSERVATION_VERSION OBSERVATION_V2 Z.eqb Pos.eqb]; fields; pass; done.
  - intros p [a arg] ([F1 F2 F3 F4 F5 F6 F7 L B] & Hop & Hc & Hz) H. unfold AdmissionId_decode, AdmissionId_new in H.
    destruct p as [op st ct id ar cx ve d]. fields.
    destruct (_ || _) eqn:G in H; [done|]. destruct (_ || _) eqn:G2 in H; [done|].
    repeat match goal with G : (_ || _) = false |- _ => apply orb_false_iff in G as [? ?] end. lineage_cases. subst. injection H as <- <-.
    wire_unfold. assert (Hlin : lineage_ok (slice d 0 16)) by (by apply data_lineage).
    assert (Ha : id_arg op ar).
    { unfold id_arg. destruct (op =? ADM_OBSERVE); bools; [|done].
      match goal with G : (_ || _) = true |- _ => apply orb_true_iff in G as [G|G]; apply Z.eqb_eq in G; auto end. }
    split; [done|]. unfold id_packet, AdmissionId_packet. admfields.
    match goal with G : id_op op = true |- _ => rewrite G end. fields. do 2 f_equal.
    assert (length (slice d 0 16) = 16%nat) by (rewrite length_slice; lia). wire_unfold.
    wire_fields [16; 40]%nat.
  - intros p. unfold AdmissionId_decode, AdmissionId_new. no_panic.
Qed.

(** ** Statuses *)
Definition status_ok (s : Status) : Prop :=
  admission_ok (ss_id s) /\ Instance_lineage (ss_instance s) = ai_lineage (ss_id s) /\
  number_ok (Instance_sequence (ss_instance s)) /\ Instance_sequence (ss_instance s) <= ai_number (ss_id s) /\ fits 64 (ss_terminal s) /\
  match ss_state s with AAdmitted => ss_terminal s = 0 | ACancelled | ACommitted => ai_number (ss_id s) < ss_terminal s end.

Lemma Status_validate_Ok s : Status_validate s = Ok tt <->
  Instance_lineage (ss_instance s) = ai_lineage (ss_id s) /\ Instance_sequence (ss_instance s) <= ai_number (ss_id s) /\
  match ss_state s with AAdmitted => ss_terminal s = 0 | ACancelled | ACommitted => ai_number (ss_id s) < ss_terminal s end.
Proof.
  unfold Status_validate. destruct (_ || _) eqn:G.
  - split; [done|]. intros (H1 & H2 & H3). exfalso.
    repeat match goal with G : (_ || _) = true |- _ => apply orb_true_iff in G as [G|G] end; destruct (ss_state s); bools; lia || done.
  - split; [intros _|done]. repeat match goal with G : (_ || _) = false |- _ => apply orb_false_iff in G as [G ?] end.
    bools. split; [done|]. split; [lia|]. destruct (ss_state s); bools; lia.
Qed.

Lemma AdmState_parse_code v s : AdmState_parse v = Ok s <-> v = AdmState_code s.
Proof.
  unfold AdmState_parse. split; [|intros ->; by destruct s]. repeat case_match; intros; simplify_eq; bools; done.
Qed.

Lemma status_op_known op : status_op op = true -> fits 8 op /\ known_op op = true.
Proof. unfold status_op. intros H. op_cases H; subst op; by vm_compute. Qed.

Lemma Status_message : message_laws Status_packet Status_decode (fun op s => status_op op = true /\ status_ok s).
Proof.
  split.
  - intros op c [[l n] st [[l' i]] t] (Hop & (((L & B & Z) & Hn & Fn) & Hl & (Hi & Fi) & Hle & Ft & Hst)) Hc.
    assert (Hval : Status_validate (mkStatus (mkAdmissionId l n) st (mkInstance (mkOperationId l' i)) t) = Ok tt) by (by apply Status_validate_Ok).
    admfields. subst l'. unfold Status_packet. rewrite Hval. admfields. destruct (status_op_known op Hop) as [F8 K].
    rewrite Hop. fields. set (d := write _ 24 _). wire_unfold.
    assert (D0 : length d = 40%nat) by (unfold d; wire_length).
    assert (D1 : slice d 0 16 = l) by (unfold d; wire_reads; done).
    assert (D2 : u64_at d 16 = i) by (unfold d; wire_read).
    assert (D3 : u64_at d 24 = t) by (unfold d; wire_read).
    assert (D4 : slice d 32 40 = zeros 8) by (unfold d; wire_reads; done).
    eexists. split; [reflexivity|]. split; [apply packet_frame; try done; try (unfold fits; lia)|].
    + by destruct st.
    + unfold d. wire_bytes.
    + change (Z.to_nat 32) with 32%nat. by rewrite drop_slice, D0, D4.
    + split; [done|]. split; [done|]. unfold Status_decode, AdmissionId_new, Instance_new, OperationId_new, no_lineage, map_err.
      fields. rewrite Hop, D1, D2, D3, D4. rewrite (bool_decide_eq_true_2 (zeros 8 = zeros 8)) by done.
      rewrite (proj2 (AdmState_parse_code _ st) eq_refl). cbn [Z.eqb Pos.eqb]. fields. pass. by rewrite Hval.
  - intros p s ([F1 F2 F3 F4 F5 F6 F7 L B] & Hop & Hc & Hz) H. unfold Status_decode, AdmissionId_new, Instance_new, OperationId_new, map_err in H.
    destruct p as [op st ct id ar cx ve d]. fields. cbv zeta in H.
    destruct (_ || _) eqn:G in H; [done|]. destruct (_ || _) eqn:G2 in H; [done|].
    destruct (AdmState_parse ar) as [s0|?|] eqn:Es; [|done|done]. apply AdmState_parse_code in Es.
    destruct (_ || _) eqn:G3 in H; [done|].
    destruct (Status_validate _) as [[]|?|] eqn:Ev in H; [|done|done]. injection H as <-.
    repeat match goal with G : (_ || _) = false |- _ => apply orb_false_iff in G as [? ?] end. lineage_cases. subst. wire_unfold.
    assert (Hlin : lineage_ok (slice d 0 16)) by (by apply data_lineage).
    assert (F8 : fits 64 (le_value (slice d 16 24))) by (apply (data_fits d 16 24 8); [done|done|lia|done]).
    assert (F9 : fits 64 (le_value (slice d 24 32))) by (apply (data_fits d 24 32 8); [done|done|lia|done]).
    pose proof (proj1 (Status_validate_Ok _) Ev) as (V1 & V2 & V3). split; [done|].
    unfold Status_packet. rewrite Ev. admfields. match goal with G : status_op op = true |- _ => rewrite G end. fields. do 2 f_equal.
    assert (length (slice d 0 16) = 16%nat) by (rewrite length_slice; lia). wire_unfold.
    wire_fields [16; 24; 32; 40]%nat.
  - intros p. unfold Status_decode, AdmissionId_new, Instance_new, OperationId_new, Status_validate, AdmState_parse, map_err.
    no_panic.
Qed.

(** ** Activities *)
Definition activity_ok (op : Z) (a : Activity) : Prop :=
  admission_ok (ac_id a) /\ number_ok (Instance_sequence (ac_instance a)) /\ Activity_validate a op = Ok tt.

Lemma Activity_validate_lineage a op : Activity_validate a op = Ok tt ->
  Instance_lineage (ac_instance a) = ai_lineage (ac_id a) /\ (adm_live op || (op =? ADM_SCHEDULE)) = true.
Proof.
  unfold Activity_validate. destruct (_ || _) eqn:G; [done|]. intros _.
  repeat match goal with G : (_ || _) = false |- _ => apply orb_false_iff in G as [G ?] end. bools. done.
Qed.

Lemma phase_parse_code v p : phase_parse v = Ok p <-> v = phase_code p.
Proof.
  unfold phase_parse. split; [|intros ->; by destruct p]. repeat case_match; intros; simplify_eq; bools; done.
Qed.

(** The packed word of an activity and its parts. *)
Lemma activity_arg_parts a : let w := Activity_arg a in
  fits 32 w /\ Z.land w (unot 32 775) = 0 /\ Z.land w 7 = phase_code (ac_phase a) /\
  negb (Z.land w 256 =? 0) = ac_cancel a /\ negb (Z.land w 512 =? 0) = ac_io a.
Proof. destruct a as [i s [] [] []]; repeat split; by vm_compute. Qed.

Lemma activity_arg_join w p i s : fits 32 w -> Z.land w (unot 32 775) = 0 -> Z.land w 7 = phase_code p ->
  Activity_arg (mkActivity i s p (negb (Z.land w 256 =? 0)) (negb (Z.land w 512 =? 0))) = w.
Proof.
  intros Hw H775 Hp. apply unot_land_zero in H775; [|lia|done].
  assert (Hall : forallb (fun n => let w := Z.of_nat n in
    implb ((Z.land w 775 =? w)%Z)
      ((Z.lor (Z.lor (Z.land w 7) (Z.shiftl (if negb (Z.land w 256 =? 0) then 1 else 0) 8))
          (Z.shiftl (if negb (Z.land w 512 =? 0) then 1 else 0) 9)) =? w)%Z) (seq 0 1024) = true) by (by vm_compute).
  rewrite forallb_forall in Hall.
  assert (Hlt : w < 1024).
  { rewrite <- H775. apply Z.log2_lt_cancel. change (Z.log2 1024) with 10.
    pose proof (Z.log2_land w 775 ltac:(unfold fits in Hw; lia) ltac:(lia)) as Hl. change (Z.log2 775) with 9 in Hl. lia. }
  specialize (Hall (Z.to_nat w)). rewrite in_seq, Z2Nat.id in Hall by (unfold fits in Hw; lia). specialize (Hall ltac:(lia)).
  cbv zeta in Hall. rewrite H775, Z.eqb_refl in Hall. cbn [implb] in Hall. apply Z.eqb_eq in Hall.
  unfold Activity_arg. cbn [ac_phase ac_cancel ac_io]. rewrite <- Hp. exact Hall.
Qed.

Lemma live_op_known op : (adm_live op || (op =? ADM_SCHEDULE)) = true -> fits 8 op /\ known_op op = true.
Proof. unfold adm_live. intros H. op_cases H; subst op; by vm_compute. Qed.

Lemma Activity_message : message_laws Activity_packet Activity_decode activity_ok.
Proof.
  split.
  - intros op c [[l n] [[l' i]] ph ca io] (((L & B & Z) & Hn & Fn) & (Hi & Fi) & Hval) Hc.
    destruct (Activity_validate_lineage _ _ Hval) as [Hl Hop]. destruct (live_op_known op Hop) as [F8 K].
    unfold Activity_packet. rewrite Hval.
    pose proof (activity_arg_parts (mkActivity (mkAdmissionId l n) (mkInstance (mkOperationId l' i)) ph ca io)) as (A1 & A2 & A3 & A4 & A5).
    admfields. subst l'. set (w := Activity_arg _) in *. set (d := write _ 16 _). wire_unfold.
    assert (D0 : length d = 40%nat) by (unfold d; wire_length).
    assert (D1 : slice d 0 16 = l) by (unfold d; wire_reads; done).
    assert (D2 : u64_at d 16 = i) by (unfold d; wire_read).
    assert (D4 : slice d 24 40 = zeros 16) by (unfold d; wire_reads; done).
    eexists. split; [reflexivity|]. split; [apply packet_frame; try done; try (unfold fits; lia)|].
    + unfold d. wire_bytes.
    + change (Z.to_nat 24) with 24%nat. by rewrite drop_slice, D0, D4.
    + split; [done|]. split; [done|]. unfold Activity_decode, AdmissionId_new, Instance_new, OperationId_new, no_lineage, map_err.
      fields. rewrite D1, D2, D4, A2, A3, A4, A5. rewrite (bool_decide_eq_true_2 (zeros 16 = zeros 16)) by done.
      rewrite (proj2 (phase_parse_code _ ph) eq_refl). cbn [Z.eqb Pos.eqb]. fields. pass. by rewrite Hval.
  - intros p s ([F1 F2 F3 F4 F5 F6 F7 L B] & Hop & Hc & Hz) H. unfold Activity_decode, AdmissionId_new, Instance_new, OperationId_new, map_err in H.
    destruct p as [op st ct id ar cx ve d]. fields. cbv zeta in H.
    destruct (_ || _) eqn:G in H; [done|]. destruct (_ || _) eqn:G2 in H; [done|]. destruct (_ || _) eqn:G3 in H; [done|].
    destruct (phase_parse _) as [ph|?|] eqn:Es; [|done|done]. apply phase_parse_code in Es.
    destruct (Activity_validate _ _) as [[]|?|] eqn:Ev in H; [|done|done]. injection H as <-.
    repeat match goal with G : (_ || _) = false |- _ => apply orb_false_iff in G as [? ?] end. lineage_cases. subst. wire_unfold.
    assert (Hlin : lineage_ok (slice d 0 16)) by (by apply data_lineage).
    assert (F8 : fits 64 (le_value (slice d 16 24))) by (apply (data_fits d 16 24 8); [done|done|lia|done]).
    split; [done|]. unfold Activity_packet. rewrite Ev, activity_arg_join by done. admfields. do 2 f_equal.
    assert (length (slice d 0 16) = 16%nat) by (rewrite length_slice; lia). wire_unfold. wire_fields [16; 24; 40]%nat.
  - intros p. unfold Activity_decode, AdmissionId_new, Instance_new, OperationId_new, Activity_validate, phase_parse, map_err. no_panic.
Qed.

(** ** Observations *)
Definition observation_ok (o : Observation) : Prop :=
  match o with Retained s => status_ok s | Active a => activity_ok ADM_ACTIVITY a end.

(** A message laws instance whose frame is renamed. *)
Lemma Observation_message :
  message_laws (fun o _ c => Observation_packet o c) Observation_decode (fun op o => op = ADM_OBSERVE /\ observation_ok o).
Proof.
  assert (Hre : forall p, Packet_valid p -> Packet_valid (mkPacket ADM_OBSERVE (p_status p) (p_count p) OBSERVATION_VERSION (p_arg p) (p_context p) (p_version p) (p_data p))).
  { intros p ([] & _ & Hc & Hz). split; [split; try done; by vm_compute|]. split; [done|]. split; done. }
  assert (Hin : forall p op, known_op op = true -> fits 8 op -> Packet_valid p -> Packet_valid (mkPacket op (p_status p) (p_count p) 0 (p_arg p) (p_context p) (p_version p) (p_data p))).
  { intros p op K F ([] & _ & Hc & Hz). split; [split; try done; by vm_compute|]. split; [done|]. split; done. }
  split.
  - intros op c o (-> & Ho) Hc. destruct o as [s|a]; cbn [observation_ok] in Ho; unfold Observation_packet.
    + destruct (msg_round _ _ _ Status_message ADM_GET c s) as (p & -> & Hv & Eo & Ec & Ed); [done|done|].
      eexists. split; [reflexivity|]. split; [by apply Hre|]. split; [done|]. split; [done|].
      unfold Observation_decode. fields. pose proof Ed as Eg. unfold Status_decode in Eg. destruct (_ || _) eqn:G in Eg; [done|].
      repeat match goal with G : (_ || _) = false |- _ => apply orb_false_iff in G as [? ?] end. bools.
      destruct p as [po ps pc pi pa px pv d]. fields. subst. cbn [Z.eqb Pos.eqb ADM_OBSERVE OBSERVATION_VERSION]. fields. by rewrite Ed.
    + destruct (msg_round _ _ _ Activity_message ADM_ACTIVITY c a) as (p & -> & Hv & Eo & Ec & Ed); [done|done|].
      eexists. split; [reflexivity|]. split; [by apply Hre|]. split; [done|]. split; [done|].
      unfold Observation_decode. fields. pose proof Ed as Eg. unfold Activity_decode in Eg. destruct (_ || _) eqn:G in Eg; [done|].
      repeat match goal with G : (_ || _) = false |- _ => apply orb_false_iff in G as [? ?] end. bools.
      destruct p as [po ps pc pi pa px pv d]. fields. subst. cbn [Z.eqb Pos.eqb ADM_OBSERVE OBSERVATION_VERSION]. fields. by rewrite Ed.
  - intros p o Hv H. unfold Observation_decode in H. destruct (_ || _) eqn:G in H; [done|]. bools. cbv zeta in H.
    destruct (Z.eqb_spec (p_count p) 32) as [E32|]; [|destruct (Z.eqb_spec (p_count p) 24) as [E24|]; [|done]].
    + destruct (Status_decode _) as [s|?|] eqn:Ed; [|done|done]. injection H as <-.
      destruct (msg_canonical _ _ _ Status_message _ s (Hin p ADM_GET eq_refl ltac:(by vm_compute) Hv) Ed) as [[_ Hs] Hp]. fields.
      split; [done|]. unfold Observation_packet. rewrite Hp. fields. destruct p. fields. congruence.
    + destruct (Activity_decode _) as [s|?|] eqn:Ed; [|done|done]. injection H as <-.
      destruct (msg_canonical _ _ _ Activity_message _ s (Hin p ADM_ACTIVITY eq_refl ltac:(by vm_compute) Hv) Ed) as [Hs Hp]. fields.
      split; [done|]. unfold Observation_packet. rewrite Hp. fields. destruct p. fields. congruence.
  - intros p. unfold Observation_decode. cbv zeta. destruct (_ || _); [done|].
    destruct (_ =? 32); [|destruct (_ =? 24); [|done]];
      match goal with
      | |- context [Status_decode ?x] => pose proof (msg_total _ _ _ Status_message x); by destruct (Status_decode x)
      | |- context [Activity_decode ?x] => pose proof (msg_total _ _ _ Activity_message x); by destruct (Activity_decode x)
      end.
Qed.

Definition observation2_ok (o : ObservationV2) : Prop :=
  match o with
  | RetainedV2 s r => status_ok s /\ cancelled s = is_some r
  | ActiveV2 a => activity_ok ADM_ACTIVITY a
  end.

Definition prevention_code (r : option PreventionReason) : Z := match r with None => 0 | Some v => PreventionReason_repr v end.

Lemma prevention_parse_code v r : prevention_parse v = Ok r <-> v = prevention_code r.
Proof.
  unfold prevention_parse. split; [|intros ->; by destruct r as [[]|]]. repeat case_match; intros; simplify_eq; bools; done.
Qed.

(** An accepted profile-1 frame of a retained status has an empty tail. *)
Lemma retained_frame p s : Observation_decode p = Ok (Retained s) -> p_count p = 32 /\ p_status p = 0 /\ slice (p_data p) 32 40 = zeros 8.
Proof.
  unfold Observation_decode. destruct (_ || _); [done|]. cbv zeta.
  destruct (Z.eqb_spec (p_count p) 32) as [E|].
  - unfold Status_decode. fields. destruct (_ || _) eqn:G; [done|].
    repeat match goal with G : (_ || _) = false |- _ => apply orb_false_iff in G as [? ?] end. bools. done.
  - destruct (p_count p =? 24); [|done]. by destruct (Activity_decode _).
Qed.

Lemma active_frame p a : Observation_decode p = Ok (Active a) -> p_count p = 24.
Proof.
  unfold Observation_decode. destruct (_ || _); [done|]. cbv zeta.
  destruct (p_count p =? 32); [by destruct (Status_decode _)|]. by destruct (Z.eqb_spec (p_count p) 24).
Qed.

Lemma reason_byte d x : length d = DATA -> length x = 1%nat -> slice d 32 33 = [0] -> write (write d 32 x) 32 [0] = d.
Proof.
  intros L Lx H. wire_unfold. apply (eq_by_fields _ _ [32; 33; 40]%nat). cbn [same_fields].
  split; [lia|]. split; [by rewrite !slice_write_before by wire_len|]. split; [lia|].
  split; [rewrite slice_write_same by wire_len; done|]. split; [lia|].
  split; [by rewrite !slice_write_after by wire_len|]. split; [wire_len|lia].
Qed.

Lemma reason_back d : length d = DATA -> bytes_ok d -> write (write d 32 [0]) 32 (le_bytes 1 (byte_at d 32)) = d.
Proof. intros L B. wire_unfold. wire_fields [32; 33; 40]%nat. Qed.

Lemma ObservationV2_message :
  message_laws (fun o _ c => ObservationV2_packet o c) ObservationV2_decode (fun op o => op = ADM_OBSERVE /\ observation2_ok o).
Proof.
  split.
  - intros op c o (-> & Ho) Hc. destruct o as [s r|a]; cbn [observation2_ok] in Ho; unfold ObservationV2_packet; cbn [ObservationV2_coarse].
    + destruct Ho as [Hs Hr]. destruct (msg_round _ _ _ Observation_message ADM_OBSERVE c (Retained s)) as (p & -> & Hv & Eo & Ec & Ed); [done|done|].
      rewrite Hr, eqb_reflx. cbn [negb]. destruct (retained_frame p s Ed) as (E1 & E2 & E3).
      assert (Hid : p_id p = OBSERVATION_VERSION).
      { unfold Observation_decode in Ed. destruct (_ || _) eqn:G in Ed; [done|]. bools. done. }
      destruct Hv as ([F1 F2 F3 F4 F5 F6 F7 L B] & K & _ & _). destruct p as [po ps pc pi pa px pv d]. fields. subst.
      change (match r with Some v => PreventionReason_repr v | None => 0 end) with (prevention_code r).
      assert (Fr : fits 8 (prevention_code r)) by (by destruct r as [[]|]). set (d' := write d 32 _). wire_unfold.
      assert (D0 : length d' = 40%nat) by (unfold d'; wire_length).
      assert (D1 : byte_at d' 32 = prevention_code r) by (unfold d'; wire_read).
      assert (Es : slice d 33 40 = zeros 7).
      { replace (slice d 33 40) with (slice (slice d 32 40) 1 8) by (by rewrite slice_slice by lia). by rewrite E3, slice_zeros by lia. }
      assert (Eh : slice d 32 33 = [0]).
      { replace (slice d 32 33) with (slice (slice d 32 40) 0 1) by (by rewrite slice_slice by lia). by rewrite E3, slice_zeros by lia. }
      eexists. split; [reflexivity|]. split; [apply packet_frame; try done; try (unfold fits; lia)|].
      * unfold d'. wire_bytes.
      * change (Z.to_nat 33) with 33%nat. rewrite drop_slice, D0. unfold d'. rewrite slice_write_after by wire_len. by rewrite Es, all_zero_zeros.
      * split; [done|]. split; [done|]. unfold ObservationV2_decode. fields. cbn [Z.eqb Pos.eqb ADM_OBSERVE OBSERVATION_V2]. fields.
        rewrite D1, (proj2 (prevention_parse_code _ r) eq_refl). unfold d'.
        rewrite reason_byte by (done || apply length_le_bytes). change 60 with ADM_OBSERVE. by rewrite Ed, Hr, eqb_reflx.
    + destruct (msg_round _ _ _ Observation_message ADM_OBSERVE c (Active a)) as (p & -> & Hv & Eo & Ec & Ed); [done|done|].
      pose proof (active_frame p a Ed) as E1.
      assert (Hid : p_id p = OBSERVATION_VERSION).
      { unfold Observation_decode in Ed. destruct (_ || _) eqn:G in Ed; [done|]. bools. done. }
      destruct Hv as ([F1 F2 F3 F4 F5 F6 F7 L B] & K & Hct & Hz). destruct p as [po ps pc pi pa px pv d]. fields. subst.
      eexists. split; [reflexivity|]. split; [split; [split; try done; by vm_compute|done]|].
      split; [done|]. split; [done|]. unfold ObservationV2_decode. fields. cbn [Z.eqb Pos.eqb ADM_OBSERVE OBSERVATION_V2]. fields.
      change 60 with ADM_OBSERVE. by rewrite Ed.
  - intros p o ([F1 F2 F3 F4 F5 F6 F7 L B] & K & Hct & Hz) H. unfold ObservationV2_decode in H.
    destruct (_ || _) eqn:G in H; [done|]. bools. destruct p as [po ps pc pi pa px pv d]. fields. subst.
    destruct (Z.eqb_spec pc 24) as [->|]; [|destruct (Z.eqb_spec pc 33) as [->|]; [|done]].
    + destruct (Observation_decode _) as [[s|a]|?|] eqn:Ed; [done| |done|done]. injection H as <-.
      apply (msg_canonical _ _ _ Observation_message) in Ed as [[_ Ha] Hp]; [|split; [split; try done; by vm_compute|done]].
      cbn [observation_ok] in Ha. fields. split; [done|]. unfold ObservationV2_packet. cbn [ObservationV2_coarse]. rewrite Hp. fields. done.
    + destruct (prevention_parse _) as [r|?|] eqn:Er; [|done|done]. apply prevention_parse_code in Er.
      destruct (Observation_decode _) as [[s|a]|?|] eqn:Ed; [|done|done|done]. destruct (negb _) eqn:Gc in H; [done|]. injection H as <-.
      apply negb_false_iff, eqb_prop in Gc. destruct (retained_frame _ _ Ed) as (_ & Hs0 & Hs8). fields. subst ps.
      change (Z.to_nat 33) with 33%nat in Hz. wire_unfold.
      apply (msg_canonical _ _ _ Observation_message) in Ed as [[_ Hs] Hp].
      * cbn [observation_ok] in Hs. fields. split; [done|]. unfold ObservationV2_packet. cbn [ObservationV2_coarse]. rewrite Hp. fields.
        rewrite Gc, eqb_reflx. cbn [negb]. do 2 f_equal.
        change (match r with Some v => PreventionReason_repr v | None => 0 end) with (prevention_code r).
        rewrite <- Er. change (le_value (slice d 32 33)) with (byte_at d 32). by apply reason_back.
      * apply packet_frame; try done; try (unfold fits; lia).
        -- wire_unfold. wire_length.
        -- apply bytes_ok_write; [done|by repeat constructor].
        -- change (Z.to_nat 32) with 32%nat. rewrite drop_slice.
           replace (length (write d 32 [0])) with 40%nat by (symmetry; wire_length). by rewrite Hs8.
  - intros p. unfold ObservationV2_decode, prevention_parse. destruct (_ || _); [done|].
    pose proof (msg_total _ _ _ Observation_message) as Ht.
    destruct (_ =? 24); [|destruct (_ =? 33); [|done]].
    + match goal with |- context [Observation_decode ?x] => specialize (Ht x); by destruct (Observation_decode x) as [[]|?|] end.
    + match goal with |- context [Observation_decode ?x] => specialize (Ht x); destruct (Observation_decode x) as [[]|?|]; no_panic end.
Qed.

(** ** Cancellation *)
Lemma Disposition_parse_code v d : Disposition_parse v = Ok d <-> v = Disposition_repr d.
Proof.
  unfold Disposition_parse. split; [|intros ->; by destruct d]. repeat case_match; intros; simplify_eq; bools; done.
Qed.

Lemma CancelAck_request_message :
  message_laws (fun id _ c => CancelAck_request id c) CancelAck_decode_request (fun op id => op = LIFECYCLE_CANCEL /\ admission_ok id).
Proof.
  split.
  - intros op c id (-> & Hid) Hc.
    destruct (msg_round _ _ _ AdmissionId_message ADM_GET c (id, 0)) as (p & E & Hv & Eo & Ec & Ed); [done|done|].
    unfold id_packet in E. cbn [fst snd] in E. unfold CancelAck_request. destruct (AdmissionId_packet id ADM_GET c) as [q|?|]; [|done|done].
    eexists. split; [reflexivity|]. injection E as <-. destruct Hv as ([F1 F2 F3 F4 F5 F6 F7 L B] & K & Hct & Hz). fields.
    split; [split; [split; try done; by vm_compute|done]|]. split; [done|]. split; [done|].
    unfold CancelAck_decode_request. fields. cbn [Z.eqb Pos.eqb LIFECYCLE_CANCEL LIFECYCLE_VERSION]. fields. rewrite Eo in Ed.
    destruct (AdmissionId_decode _) as [x|?|]; [|done|done]. by injection Ed as ->.
  - intros p id ([F1 F2 F3 F4 F5 F6 F7 L B] & K & Hct & Hz) H. unfold CancelAck_decode_request in H.
    destruct (_ || _) eqn:G in H; [done|]. bools. set (p0 := mkPacket _ _ _ _ _ _ _ _) in H.
    destruct (AdmissionId_decode p0) as [x|?|] eqn:Ed; [|done|done]. injection H as ->.
    assert (Hp0 : Packet_valid p0) by (split; [split; try done; by vm_compute|done]).
    destruct (msg_canonical _ _ _ AdmissionId_message p0 (id, 0) Hp0) as [(_ & Hid & _) Hp]; [by rewrite Ed|].
    split; [done|]. unfold id_packet in Hp. cbn [fst snd] in Hp. unfold CancelAck_request. unfold p0 in Hp. fields.
    destruct (AdmissionId_packet id ADM_GET (p_context p)) as [q|?|]; [|done|done]. destruct p. fields. injection Hp. intros. congruence.
  - intros p. unfold CancelAck_decode_request. destruct (_ || _); [done|]. pose proof (msg_total _ _ _ AdmissionId_message) as Ht.
    match goal with |- context [AdmissionId_decode ?x] => specialize (Ht x); cbn beta in Ht; revert Ht; by destruct (AdmissionId_decode x) end.
Qed.

Lemma CancelAck_message :
  message_laws (fun a _ c => CancelAck_packet a c) CancelAck_decode (fun op a => op = LIFECYCLE_CANCEL /\ admission_ok (ck_id a)).
Proof.
  split.
  - intros op c [id d] (-> & Hid) Hc. admfields. unfold CancelAck_packet. admfields.
    destruct (msg_round _ _ _ CancelAck_request_message LIFECYCLE_CANCEL c id) as (p & -> & Hv & Eo & Ec & Ed); [done|done|].
    pose proof Ed as Eg. unfold CancelAck_decode_request in Eg. destruct (_ || _) eqn:G in Eg; [done|]. bools.
    assert (Ei : p_id p = 0).
    { unfold map_err in Eg. destruct (AdmissionId_decode _) as [x|?|] eqn:Ea in Eg; [|done|done]. unfold AdmissionId_decode in Ea.
      destruct (_ || _) eqn:G2 in Ea; [done|]. repeat match goal with G : (_ || _) = false |- _ => apply orb_false_iff in G as [? ?] end. bools. done. }
    destruct Hv as ([F1 F2 F3 F4 F5 F6 F7 L B] & K & Hct & Hz).
    eexists. split; [reflexivity|]. split; [split; [split; try done; by destruct d|done]|]. split; [done|]. split; [done|].
    unfold CancelAck_decode. fields. cbn [LIFECYCLE_VERSION Z.eqb Pos.eqb]. fields. rewrite (proj2 (Disposition_parse_code _ d) eq_refl).
    destruct p. fields. subst. by rewrite Ed.
  - intros p a ([F1 F2 F3 F4 F5 F6 F7 L B] & K & Hct & Hz) H. unfold CancelAck_decode in H. destruct (negb _) eqn:G in H; [done|]. bools.
    destruct (Disposition_parse _) as [d|?|] eqn:Edp; [|done|done]. apply Disposition_parse_code in Edp.
    destruct (CancelAck_decode_request _) as [id|?|] eqn:Ed; [|done|done]. injection H as <-.
    apply (msg_canonical _ _ _ CancelAck_request_message) in Ed as [[Ho Hid] Hp]; [|split; [split; try done; by vm_compute|done]].
    fields. split; [done|]. unfold CancelAck_packet. admfields. rewrite Hp. fields. destruct p. fields. congruence.
  - intros p. unfold CancelAck_decode, Disposition_parse. destruct (negb _); [done|].
    pose proof (msg_total _ _ _ CancelAck_request_message) as Ht.
    match goal with |- context [CancelAck_decode_request ?x] => specialize (Ht x); destruct (CancelAck_decode_request x); no_panic end.
Qed.

(** ** The lifecycle *)
(** What a client may conclude from a projected operation. *)
Definition life_meaning (view : ObservationV2) (l : LifeState) : Prop :=
  match l with
  | LPrepared => exists s, view = RetainedV2 s None /\ ss_state s = AAdmitted
  | LQueued b | LRunning b | LReconciling b => exists a, view = ActiveV2 a /\ ac_cancel a = b
  | LSucceeded id => exists s, view = RetainedV2 s None /\ ss_state s = ACommitted /\
      id = mkOperationId (ai_lineage (ss_id s)) (ss_terminal s) /\ ai_number (ss_id s) < oi_sequence id
  | LCancelled => exists s, view = RetainedV2 s (Some PRequested) /\ ss_state s = ACancelled
  | LFailed f => exists s r, view = RetainedV2 s (Some r) /\ ss_state s = ACancelled /\ f = match r with PVersionConflict => FailVersionConflict | _ => FailAccessDenied end /\
      (r = PVersionConflict \/ r = PAuthorityLost)
  | LPrevented => exists s, view = RetainedV2 s (Some PUnknown) /\ ss_state s = ACancelled
  end.

Lemma status_completion_Some s : status_ok s -> ss_state s = ACommitted ->
  Status_completion s = Some (mkOperationId (ai_lineage (ss_id s)) (ss_terminal s)).
Proof.
  intros (((_ & _ & Hz) & Hn & Fn) & _ & _ & _ & Ft & Ht) Hs. unfold Status_completion. rewrite bool_decide_eq_true_2 by done. rewrite Hs in Ht.
  unfold OperationId_new. apply no_lineage_false in Hz. rewrite Hz. cbn [orb].
  destruct (Z.eqb_spec (ss_terminal s) 0); [unfold fits in *; lia|done].
Qed.

Lemma life_total view : observation2_ok view ->
  exists l, LifeOperation_try_from view = Ok (mkLifeOperation (Observation_id (ObservationV2_coarse view))
      (Observation_instance (ObservationV2_coarse view)) l) /\ life_meaning view l.
Proof.
  intros Hok. unfold LifeOperation_try_from.
  destruct (msg_round _ _ _ ObservationV2_message ADM_OBSERVE 0 view) as (p & -> & _); [done|by vm_compute|].
  destruct view as [s r|a]; cbn [observation2_ok life_state] in *.
  - destruct Hok as [Hs Hr]. destruct (ss_state s) eqn:Es.
    + assert (r = None) as -> by (unfold cancelled in Hr; rewrite Es in Hr; by destruct r). exists LPrepared. split; [done|]. by exists s.
    + unfold cancelled in Hr. rewrite Es in Hr. destruct r as [r|]; [|done]. cbn [ok_or].
      destruct r; eexists; (split; [reflexivity|]); cbn [life_meaning]; eauto 10.
    + assert (r = None) as -> by (unfold cancelled in Hr; rewrite Es in Hr; by destruct r).
      rewrite (status_completion_Some s Hs Es). cbn [ok_or]. eexists. split; [reflexivity|]. exists s. do 2 (split; [done|]). split; [done|].
      destruct Hs as (_ & _ & _ & _ & _ & Ht). rewrite Es in Ht. exact Ht.
  - destruct (ac_phase a); eexists; (split; [reflexivity|]); by exists a.
Qed.
