(* ===== verification/AbiServices.v ===== *)
(** * Range reads, capabilities and negotiation (crates/abi/src/files/read,
      files/capabilities.rs, files/negotiation, services.rs)

    The bounded range request and its answer, the capability report and the
    reviewed single-method negotiation. *)
From stdpp Require Import base list option numbers.
From Stdlib Require Import ZArith Lia Bool.
From S2P Require Import Prelude Bytes Codec AbiFiles AbiIdentity AbiMessages AbiAdmission.

Definition READ_VERSION : Z := 1.
Definition MAX_RANGE : Z := 1024.
Definition MAX_INTEGER : Z := Z.shiftl 1 53 - 1.

(** ** Range requests (read/request.rs) *)
Record ReadRequest := mkReadRequest {
  rr_workspace : Workspace; rr_resource : Resource; rr_expected : option Version; rr_offset : Z; rr_length : Z }.

Definition ReadRequest_validate (r : ReadRequest) : outcome FileError unit :=
  if negb (bool_decide (rr_workspace r = rs_workspace (rr_resource r))) || (rr_length r =? 0) || (MAX_RANGE <? rr_length r)
     || match checked_add (rr_offset r) (rr_length r) with None => true | Some e => MAX_INTEGER <? e end
  then Err FInvalid else Ok tt.

Definition expected_value (v : option Version) : Z := match v with None => 0 | Some v => v_value v end.

Definition ReadRequest_packet (r : ReadRequest) (op context : Z) : outcome FileError Packet :=
  let? _ := ReadRequest_validate r in
  if negb ((op =? READ_OPEN) || (op =? READ_CHUNK))
     || ((op =? READ_CHUNK) && ((match rr_expected r with None => true | Some _ => false end) || (Z.of_nat DATA <? rr_length r)))
  then Err FInvalid
  else
    let p := Packet_new op in
    let d := write (p_data p) 0 (ws_lineage (rr_workspace r)) in
    let d := write d 16 (le_bytes 4 (ws_root (rr_workspace r))) in
    let d := write d 20 (le_bytes 8 (rr_offset r)) in
    let d := write d 28 (le_bytes 2 READ_VERSION) in
    Ok (mkPacket (p_op p) (p_status p) 30 (rs_object (rr_resource r)) (rr_length r) context (expected_value (rr_expected r)) d).

Definition ReadRequest_decode (p : Packet) : outcome FileError ReadRequest :=
  if negb ((p_op p =? READ_OPEN) || (p_op p =? READ_CHUNK)) || negb (p_status p =? 0) || negb (p_count p =? 30)
     || negb (all_zero (drop 30 (p_data p)))
  then Err FInvalid
  else if negb (u16_at (p_data p) 28 =? READ_VERSION) then Err FUnsupportedVersion
  else
    let? workspace := Workspace_new (slice (p_data p) 0 16) (u32_at (p_data p) 16) in
    let? resource := Resource_new workspace (p_id p) in
    let? expected := (if p_version p =? 0 then Ok None else let? v := Version_new (p_version p) in Ok (Some v)) in
    let? len := (if u16_max <? p_arg p then Err FInvalid else Ok (p_arg p)) in
    let result := mkReadRequest workspace resource expected (u64_at (p_data p) 20) len in
    let? _ := ReadRequest_packet result (p_op p) (p_context p) in Ok result.

(** ** Range answers (read/response.rs) *)
Record ReadHeader := mkReadHeader { rh_id : Z; rh_size : Z; rh_version : Version; rh_sha256 : list Z; rh_epoch : Epoch }.

Definition ReadHeader_packet (h : ReadHeader) (context : Z) : outcome FileError Packet :=
  if (rh_id h =? 0) || (MAX_FILE_BYTES <? rh_size h) then Err FInvalid
  else
    let p := Packet_new READ_OPEN in
    let d := write (p_data p) 0 (rh_sha256 h) in
    let d := write d 32 (le_bytes 8 (e_value (rh_epoch h))) in
    Ok (mkPacket (p_op p) (p_status p) 40 (rh_id h) (rh_size h) context (v_value (rh_version h)) d).

Definition ReadHeader_decode (p : Packet) : outcome FileError ReadHeader :=
  if negb (p_op p =? READ_OPEN) || negb (p_status p =? 0) || negb (p_count p =? 40) || (p_id p =? 0)
     || (MAX_FILE_BYTES <? p_arg p)
  then Err FProtocol
  else
    let? version := map_err (fun _ => FProtocol) (Version_new (p_version p)) in
    let? epoch := map_err (fun _ => FProtocol) (Epoch_new (u64_at (p_data p) 32)) in
    Ok (mkReadHeader (p_id p) (p_arg p) version (slice (p_data p) 0 32) epoch).

Record ReadInfo := mkReadInfo {
  ri_references : References; ri_version : Version; ri_size : Z; ri_offset : Z; ri_length : Z; ri_sha256 : list Z;
  ri_eof : bool; ri_epoch : Epoch }.

Definition ReadInfo_from_header (r : ReadRequest) (h : ReadHeader) : outcome FileError ReadInfo :=
  let? _ := ReadRequest_validate r in
  if negb (rh_id h =? rs_object (rr_resource r)) || (MAX_FILE_BYTES <? rh_size h) || (rh_size h <? rr_offset r)
     || match rr_expected r with None => false | Some v => negb (bool_decide (v = rh_version h)) end
  then Err FProtocol
  else
    let length := Z.min (rh_size h - rr_offset r) (rr_length r) in
    Ok (mkReadInfo (mkReferences (rr_workspace r) (rr_resource r)) (rh_version h) (rh_size h) (rr_offset r) length
          (rh_sha256 h) (rr_offset r + length =? rh_size h) (rh_epoch h)).

(** ** Methods and availability (services.rs) *)
Inductive Method :=
| CapabilitiesList | CapabilitiesDescribe | FilesRead | FilesReplace | OperationsGet | OperationsCancel | EventsRead | SystemStatus.
#[global] Instance Method_eq_dec : EqDecision Method.
Proof. solve_decision. Defined.
Definition Method_repr (m : Method) : Z :=
  match m with
  | CapabilitiesList => 1 | CapabilitiesDescribe => 2 | FilesRead => 3 | FilesReplace => 4
  | OperationsGet => 5 | OperationsCancel => 6 | EventsRead => 7 | SystemStatus => 8
  end.
Definition METHODS : nat := 8.
#[export] Hint Unfold METHODS : wire_sizes.
Definition Method_ALL : list Method :=
  [CapabilitiesList; CapabilitiesDescribe; FilesRead; FilesReplace; OperationsGet; OperationsCancel; EventsRead; SystemStatus].
Definition Method_decode (value : Z) : option Method := List.find (fun m => Method_repr m =? value) Method_ALL.

Inductive Availability := Available | Degraded | Unavailable.
#[global] Instance Availability_eq_dec : EqDecision Availability.
Proof. solve_decision. Defined.
Definition Availability_repr (a : Availability) : Z := match a with Available => 1 | Degraded => 2 | Unavailable => 3 end.
Definition Availability_decode (value : Z) : option Availability :=
  if value =? 1 then Some Available else if value =? 2 then Some Degraded else if value =? 3 then Some Unavailable else None.

(** ** Capability reports (capabilities.rs) *)
Record Bounds := mkBounds { bo_inline : Z; bo_page : Z; bo_receipts : Z }.
Record Capabilities := mkCapabilities { ca_availability : list Availability; ca_bounds : Bounds }.

Definition Capabilities_of (c : Capabilities) (m : Method) : option Availability :=
  ca_availability c !! Z.to_nat (Method_repr m - 1).

Definition bounds_bad (b : Bounds) : bool := (MAX_INLINE <? bo_inline b) || (bo_page b =? 0) || (bo_receipts b =? 0).

Definition bounds_word (b : Bounds) : Z := Z.lor (Z.lor (bo_inline b) (Z.shiftl (bo_page b) 16)) (Z.shiftl (bo_receipts b) 24).
Definition bounds_parse (w : Z) : Bounds :=
  mkBounds (Z.land w 65535) (Z.land (Z.shiftr w 16) 255) (Z.shiftr w 24 mod 256).

Definition Capabilities_packet (c : Capabilities) (context : Z) : outcome FileError Packet :=
  if bounds_bad (ca_bounds c) then Err FProtocol
  else
    let p := Packet_new OP_CAPABILITIES in
    Ok (mkPacket (p_op p) (p_status p) (Z.of_nat METHODS) (p_id p) (bounds_word (ca_bounds c)) context 1
          (write (p_data p) 0 (Availability_repr <$> ca_availability c))).

(** The decoding loop over the report bytes. *)
Fixpoint availability_loop (l : list Z) : outcome FileError (list Availability) :=
  match l with
  | [] => Ok []
  | b :: l =>
    let? a := ok_or (Availability_decode b) FProtocol in
    let? r := availability_loop l in Ok (a :: r)
  end.

Definition Capabilities_decode (p : Packet) : outcome FileError Capabilities :=
  if negb (p_op p =? OP_CAPABILITIES) || negb (p_status p =? 0) || negb (p_id p =? 0)
     || negb (p_count p =? Z.of_nat METHODS) || negb (p_version p =? 1)
     || negb (bool_decide (slice (p_data p) METHODS DATA = zeros (DATA - METHODS)))
  then Err FProtocol
  else
    let? availability := availability_loop (slice (p_data p) 0 METHODS) in
    let bounds := bounds_parse (p_arg p) in
    if bounds_bad bounds then Err FProtocol else Ok (mkCapabilities availability bounds).

(** ** Negotiation (negotiation) *)
Definition OP_DESCRIBE : Z := 62.
Definition NEGOTIATION_VERSION : Z := 2.
Definition NEGOTIATION_PROFILE : Z := 1.

Definition DIGEST_GET : list Z :=
  [37; 28; 244; 26; 97; 30; 156; 109; 196; 188; 140; 19; 242; 49; 198; 252;
   117; 63; 2; 211; 202; 128; 119; 107; 187; 180; 47; 157; 207; 159; 116; 208].
Definition DIGEST_CANCEL : list Z :=
  [125; 84; 101; 180; 241; 211; 3; 153; 223; 240; 121; 243; 59; 157; 179; 86;
   38; 243; 181; 58; 47; 247; 24; 20; 83; 133; 96; 154; 152; 21; 111; 69].

Definition reviewed_digest (m : Method) : outcome FileError (list Z) :=
  match m with OperationsGet => Ok DIGEST_GET | OperationsCancel => Ok DIGEST_CANCEL | _ => Err FUnsupported end.

Definition negotiation_request (m : Method) (context : Z) : outcome FileError Packet :=
  let? _ := reviewed_digest m in
  let p := Packet_new OP_DESCRIBE in
  Ok (mkPacket (p_op p) (p_status p) (p_count p) (Method_repr m) NEGOTIATION_PROFILE context NEGOTIATION_VERSION (p_data p)).

Definition negotiation_method (id : Z) : outcome FileError Method :=
  if id =? 5 then Ok OperationsGet else if id =? 6 then Ok OperationsCancel else Err FUnsupported.

Definition negotiation_decode_request (p : Packet) : outcome FileError Method :=
  if negb (p_op p =? OP_DESCRIBE) || negb (p_status p =? 0) || negb (p_count p =? 0)
     || negb (bool_decide (p_data p = zeros 40))
  then Err FProtocol
  else if negb (p_version p =? NEGOTIATION_VERSION) || negb (p_arg p =? NEGOTIATION_PROFILE) then Err FUnsupportedVersion
  else negotiation_method (p_id p).

Record Limits := mkLimits { li_retained : Z; li_tickets : Z; li_active : Z }.
Record Descriptor := mkDescriptor { de_method : Method; de_availability : Availability; de_limits : Limits; de_sha256 : list Z }.

Definition Descriptor_reviewed (m : Method) (a : Availability) (l : Limits) : outcome FileError Descriptor :=
  let? d := reviewed_digest m in Ok (mkDescriptor m a l d).

Definition Descriptor_validate (d : Descriptor) : outcome FileError unit :=
  let? digest := reviewed_digest (de_method d) in
  if negb (bool_decide (de_sha256 d = digest)) || bool_decide (de_availability d = Degraded)
     || (li_retained (de_limits d) =? 0) || (li_tickets (de_limits d) =? 0)
     || (li_retained (de_limits d) <? li_tickets (de_limits d)) || negb (li_active (de_limits d) =? 1)
  then Err FProtocol else Ok tt.

Definition Descriptor_packet (d : Descriptor) (context : Z) : outcome FileError Packet :=
  let? _ := Descriptor_validate d in
  let? p := negotiation_request (de_method d) context in
  let b := write (p_data p) 0 (le_bytes 1 (Availability_repr (de_availability d))) in
  let b := write b 1 (le_bytes 1 (li_retained (de_limits d))) in
  let b := write b 2 (le_bytes 1 (li_tickets (de_limits d))) in
  let b := write b 3 (le_bytes 1 (li_active (de_limits d))) in
  let b := write b 4 (de_sha256 d) in
  Ok (mkPacket (p_op p) (p_status p) 36 (p_id p) (p_arg p) (p_context p) (p_version p) b).

Definition Descriptor_decode (p : Packet) (expected : Method) : outcome FileError Descriptor :=
  if negb (p_op p =? OP_DESCRIBE) || negb (p_status p =? 0) || negb (p_count p =? 36)
     || negb (p_id p =? Method_repr expected) || negb (p_version p =? NEGOTIATION_VERSION)
     || negb (p_arg p =? NEGOTIATION_PROFILE) || negb (bool_decide (slice (p_data p) 36 40 = zeros 4))
  then Err FProtocol
  else
    let? m := negotiation_method (p_id p) in
    let? a := ok_or (Availability_decode (byte_at (p_data p) 0)) FProtocol in
    let result := mkDescriptor m a (mkLimits (byte_at (p_data p) 1) (byte_at (p_data p) 2) (byte_at (p_data p) 3))
                    (slice (p_data p) 4 36) in
    let? _ := Descriptor_validate result in Ok result.

(** ** Reads, capabilities and negotiation are canonical; the file-service claims

    Codec laws of the remaining packet messages, the range answer's geometry and
    the claims over every message of the file-service ABI. *)
Ltac svcfields :=
  cbn [rr_workspace rr_resource rr_expected rr_offset rr_length rh_id rh_size rh_version rh_sha256 rh_epoch
       ca_availability ca_bounds bo_inline bo_page bo_receipts de_method de_availability de_limits de_sha256
       li_retained li_tickets li_active] in *; fields.

Ltac split_guards := repeat match goal with G : (_ || _) = false |- _ => apply orb_false_iff in G as [? ?] end.

(** ** Range reads *)
Definition read_ok (op : Z) (r : ReadRequest) : Prop :=
  workspace_ok (rr_workspace r) /\ rs_workspace (rr_resource r) = rr_workspace r /\
  rs_object (rr_resource r) <> 0 /\ fits 32 (rs_object (rr_resource r)) /\
  0 < rr_length r <= MAX_RANGE /\ 0 <= rr_offset r /\ rr_offset r + rr_length r <= MAX_INTEGER /\
  match rr_expected r with Some v => number_ok (v_value v) | None => True end /\
  (op = READ_OPEN \/ (op = READ_CHUNK /\ rr_expected r <> None /\ rr_length r <= 40)).

Lemma ReadRequest_validate_Ok r : 0 <= rr_offset r -> 0 <= rr_length r ->
  ReadRequest_validate r = Ok tt <-> rr_workspace r = rs_workspace (rr_resource r) /\ 0 < rr_length r <= MAX_RANGE /\
    rr_offset r + rr_length r <= MAX_INTEGER.
Proof.
  intros H0 H1. unfold ReadRequest_validate. assert (Hm : MAX_INTEGER <= u64_max) by (by vm_compute).
  destruct (checked_add (rr_offset r) (rr_length r)) as [e|] eqn:E.
  - apply checked_add_Some in E as [-> _]. destruct (_ || _) eqn:G.
    + split; [done|]. intros (? & ? & ?). exfalso. refute.
    + split; [intros _|done]. split_guards. bools. split; [done|lia].
  - apply checked_add_None in E. rewrite orb_true_r. split; [done|]. intros (_ & _ & ?). lia.
Qed.

(** The acceptance condition of a request's frame. *)
Lemma ReadRequest_packet_Ok r op c : 0 <= rr_offset r -> 0 <= rr_length r ->
  is_ok (ReadRequest_packet r op c) = true <->
  ReadRequest_validate r = Ok tt /\ (op = READ_OPEN \/ (op = READ_CHUNK /\ rr_expected r <> None /\ rr_length r <= 40)).
Proof.
  intros H0 H1. unfold ReadRequest_packet.
  destruct (ReadRequest_validate r) as [[]|e|]; [|split; [done|by intros [? _]]|split; [done|by intros [? _]]].
  destruct (_ || _) eqn:G; cbn [is_ok].
  - split; [done|]. intros [_ Hop]. exfalso. apply orb_true_iff in G as [G|G].
    + bools. destruct Hop as [-> | (-> & _)]; done.
    + apply andb_true_iff in G as [G1 G2]. bools. destruct Hop as [-> | (_ & He & Hl)]; [done|].
      apply orb_true_iff in G2 as [G2|G2]; [by destruct (rr_expected r)|]. bools. wire_unfold. lia.
  - split; [intros _|done]. split; [done|]. apply orb_false_iff in G as [G1 G2].
    apply negb_false_iff, orb_true_iff in G1 as [G1|G1]; apply Z.eqb_eq in G1; [by left|].
    right. split; [done|]. subst op. apply andb_false_iff in G2 as [G2|G2]; [done|]. apply orb_false_iff in G2 as [G2 G3]. bools. wire_unfold.
    split; [by destruct (rr_expected r)|lia].
Qed.

Lemma ReadRequest_message : message_laws ReadRequest_packet ReadRequest_decode read_ok.
Proof.
  split.
  - intros op c r (((L & B & Z) & Hr & Fr) & Hw & Ho & Fo & Hl & H0 & He & Hv & Hop) Hc.
    assert (Hok : is_ok (ReadRequest_packet r op c) = true).
    { apply ReadRequest_packet_Ok; [lia|lia|]. split; [|done]. apply ReadRequest_validate_Ok; [lia|lia|]. split; [done|lia]. }
    assert (fits 8 op /\ known_op op = true) as [Fop Kop] by (destruct Hop as [-> | (-> & _)]; by vm_compute).
    destruct (ReadRequest_packet r op c) as [p|?|] eqn:Ep; [|done|done]. exists p. split; [done|].
    unfold ReadRequest_packet in Ep. destruct (ReadRequest_validate r) as [[]|?|]; [|done|done]. destruct (_ || _) eqn:G in Ep; [done|].
    destruct r as [[l rt] [w o] ex off len]. svcfields. subst w. injection Ep as Ep. set (d := write _ 28 _) in Ep.
    assert (Fl : fits 32 len) by (unfold fits, MAX_RANGE in *; lia). assert (Fof : fits 64 off) by (unfold fits, MAX_RANGE in *; assert (MAX_INTEGER < 2 ^ 64) by (by vm_compute); lia).
    wire_unfold. assert (D0 : length d = 40%nat) by (unfold d; wire_length).
    assert (D1 : slice d 0 16 = l) by (unfold d; wire_reads; done).
    assert (D2 : u32_at d 16 = rt) by (unfold d; wire_read).
    assert (D3 : u64_at d 20 = off) by (unfold d; wire_read).
    assert (D4 : u16_at d 28 = READ_VERSION) by (unfold d; wire_read).
    assert (D5 : slice d 30 40 = zeros 10) by (unfold d; wire_reads; done).
    assert (D6 : bytes_ok d) by (unfold d; wire_bytes). clearbody d.
    assert (D7 : drop 30 d = zeros 10) by (by rewrite drop_slice, D0).
    assert (Fe : fits 64 (expected_value ex)) by (destruct ex as [[v]|]; [by destruct Hv|unfold fits; simpl; lia]).
    subst p. split; [apply packet_frame; try done; try lia|].
    + change (Z.to_nat 30) with 30%nat. by rewrite D7.
    + split; [done|]. split; [done|].
      assert (Hd : ReadRequest_packet (mkReadRequest (mkWorkspace l rt) (mkResource (mkWorkspace l rt) o) ex off len) op c <> Panic /\
                   is_ok (ReadRequest_packet (mkReadRequest (mkWorkspace l rt) (mkResource (mkWorkspace l rt) o) ex off len) op c) = true).
      { assert (E : is_ok (ReadRequest_packet (mkReadRequest (mkWorkspace l rt) (mkResource (mkWorkspace l rt) o) ex off len) op c) = true).
        { apply ReadRequest_packet_Ok; [svcfields; lia|svcfields; lia|]. split; [|done].
          apply ReadRequest_validate_Ok; svcfields; [lia|lia|]. split; [done|lia]. }
        split; [|done]. intros Ex. by rewrite Ex in E. }
      unfold ReadRequest_decode. fields. rewrite D1, D2, D3, D4, D7, all_zero_zeros. cbn [READ_VERSION Z.eqb Pos.eqb]. fields.
      replace ((op =? READ_OPEN) || (op =? READ_CHUNK)) with true by (destruct Hop as [-> | (-> & _)]; done). fields.
      unfold Workspace_new, Resource_new, no_lineage, u16_max.
      assert (Eexp : (if expected_value ex =? 0 then Ok None else let? v := Version_new (expected_value ex) in Ok (Some v)) = Ok (E := FileError) ex).
      { destruct ex as [[v]|]; [|done]. unfold expected_value, Version_new. fields. destruct Hv as [Hv _]. by pass. }
      rewrite Eexp. unfold MAX_RANGE in Hl. pass. destruct Hd as [_ Hd].
      by destruct (ReadRequest_packet _ op c).
  - intros p r ([F1 F2 F3 F4 F5 F6 F7 L B] & Hop & Hc & Hz) H. unfold ReadRequest_decode, Workspace_new, Resource_new, Version_new in H.
    destruct p as [op st ct id ar cx ve d]. fields. cbv zeta in H. destruct (_ || _) eqn:G in H; [done|]. destruct (negb _) eqn:G2 in H; [done|].
    destruct (_ || _) eqn:G3 in H; [done|]. destruct (id =? 0) eqn:G4 in H; [done|].
    destruct (if ve =? 0 then _ else _) as [ex|?|] eqn:Eex in H; [|done|done]. destruct (u16_max <? ar) eqn:G5 in H; [done|].
    set (r0 := mkReadRequest _ _ _ _ _) in H. destruct (ReadRequest_packet r0 op cx) as [q|?|] eqn:Eq; [|done|done]. injection H as <-.
    split_guards. lineage_cases. subst. wire_unfold.
    assert (Hlin : lineage_ok (slice d 0 16)) by (by apply data_lineage).
    assert (F8 : fits 32 (le_value (slice d 16 20))) by (apply (data_fits d 16 20 4); [done|done|lia|done]).
    assert (F9 : fits 64 (le_value (slice d 20 28))) by (apply (data_fits d 20 28 8); [done|done|lia|done]).
    assert (Hex : ve = expected_value ex /\ match ex with Some v => number_ok (v_value v) | None => True end).
    { destruct (Z.eqb_spec ve 0); [injection Eex as <-; done|]. injection Eex as <-. done. }
    destruct Hex as [Hex Hexn].
    assert (Hacc : is_ok (ReadRequest_packet r0 op cx) = true) by (by rewrite Eq).
    apply ReadRequest_packet_Ok in Hacc as [Hval Hops]; [|unfold r0, fits in *; svcfields; lia|unfold r0, fits in *; svcfields; lia].
    apply ReadRequest_validate_Ok in Hval as (V1 & V2 & V3); [|unfold r0, fits in *; svcfields; lia|unfold r0, fits in *; svcfields; lia].
    unfold r0 in *. svcfields. split.
    + split; [done|]. svcfields. split; [done|]. split; [done|]. split; [done|]. split; [lia|]. split; [unfold fits in F9; lia|]. split; [lia|]. done.
    + rewrite Eq. f_equal. unfold ReadRequest_packet in Eq. destruct (ReadRequest_validate _) as [[]|?|] in Eq; [|done|done].
      destruct (_ || _) in Eq; [done|]. injection Eq as <-. svcfields. rewrite Hex. f_equal. tails.
      assert (length (slice d 0 16) = 16%nat) by (rewrite length_slice; lia). wire_unfold. wire_fields [16; 20; 28; 30; 40]%nat.
  - intros p. unfold ReadRequest_decode, Workspace_new, Resource_new, Version_new.
    assert (Ht : forall r op c, ReadRequest_packet r op c <> Panic) by (intros; unfold ReadRequest_packet, ReadRequest_validate; no_panic).
    cbv zeta. repeat (match goal with |- context [if ?c then _ else _] => destruct c; try done end);
      match goal with |- context [ReadRequest_packet ?a ?b ?c] => specialize (Ht a b c); by destruct (ReadRequest_packet a b c) end.
Qed.

Definition header_ok (op : Z) (h : ReadHeader) : Prop :=
  op = READ_OPEN /\ rh_id h <> 0 /\ fits 32 (rh_id h) /\ 0 <= rh_size h <= MAX_FILE_BYTES /\ number_ok (v_value (rh_version h)) /\
  number_ok (e_value (rh_epoch h)) /\ length (rh_sha256 h) = 32%nat /\ bytes_ok (rh_sha256 h).

Lemma ReadHeader_message : message_laws (fun h _ c => ReadHeader_packet h c) ReadHeader_decode header_ok.
Proof.
  split.
  - intros op c [id n [v] sha [e]] (-> & Hid & Fid & Hn & (Hv & Fv) & (He & Fe) & L & B) Hc. svcfields.
    unfold ReadHeader_packet. svcfields. pass. svcfields. set (d := write _ 32 _). wire_unfold.
    assert (D0 : length d = 40%nat) by (unfold d; wire_length).
    assert (D1 : slice d 0 32 = sha) by (unfold d; wire_reads; done).
    assert (D2 : u64_at d 32 = e) by (unfold d; wire_read).
    assert (Fn : fits 32 n) by (unfold fits, MAX_FILE_BYTES in *; lia).
    eexists. split; [reflexivity|]. split; [apply packet_frame; try done; try (unfold fits, READ_OPEN; lia)|].
    + unfold d. wire_bytes.
    + change (Z.to_nat 40) with 40%nat. by rewrite drop_ge by lia.
    + split; [done|]. split; [done|]. unfold ReadHeader_decode, Version_new, Epoch_new, map_err. fields. rewrite D1, D2.
      cbn [READ_OPEN Z.eqb Pos.eqb]. fields. pass. done.
  - intros p h ([F1 F2 F3 F4 F5 F6 F7 L B] & Hop & Hc & Hz) H. unfold ReadHeader_decode, Version_new, Epoch_new, map_err in H.
    destruct p as [op st ct id ar cx ve d]. fields. destruct (_ || _) eqn:G in H; [done|]. destruct (ve =? 0) eqn:G2 in H; [done|].
    destruct (_ =? 0) eqn:G3 in H; [done|]. injection H as <-. split_guards. bools. subst. wire_unfold.
    assert (F8 : fits 64 (le_value (slice d 32 40))) by (apply (data_fits d 32 40 8); [done|done|lia|done]).
    assert (Ls : length (slice d 0 32) = 32%nat) by (rewrite length_slice; lia). split.
    + split; [done|]. svcfields. unfold fits in F5. split; [done|]. split; [done|]. split; [lia|]. split; [done|]. split; [done|].
      split; [done|by apply bytes_ok_slice].
    + unfold ReadHeader_packet. svcfields. pass. svcfields. do 2 f_equal. wire_unfold. wire_fields [32; 40]%nat.
  - intros p. unfold ReadHeader_decode, Version_new, Epoch_new, map_err. no_panic.
Qed.

(** The range an accepted answer delivers. *)
Lemma ReadInfo_range r h i op : read_ok op r -> header_ok READ_OPEN h -> ReadInfo_from_header r h = Ok i ->
  ri_offset i = rr_offset r /\ 0 <= ri_length i <= rr_length r /\ ri_offset i + ri_length i <= ri_size i /\
  ri_size i = rh_size h /\ (ri_eof i = true <-> ri_offset i + ri_length i = ri_size i) /\
  (ri_length i < rr_length r -> ri_eof i = true) /\
  (forall v, rr_expected r = Some v -> ri_version i = v) /\ rs_object (rf_resource (ri_references i)) = rh_id h.
Proof.
  intros (_ & _ & _ & _ & Hl & H0 & _) _ H. unfold ReadInfo_from_header in H.
  destruct (ReadRequest_validate r) as [[]|?|]; [|done|done]. destruct (_ || _) eqn:G in H; [done|].
  injection H as <-. cbn [ri_offset ri_length ri_size ri_eof ri_version ri_references rf_resource].
  split_guards. bools. rewrite Z.eqb_eq. split; [done|]. split; [lia|]. split; [lia|]. split; [done|]. split; [done|]. split; [lia|].
  split; [|done]. intros v Hv. rewrite Hv in *. bools. congruence.
Qed.

(** ** Capability reports *)
Definition capabilities_ok (op : Z) (c : Capabilities) : Prop :=
  op = OP_CAPABILITIES /\ length (ca_availability c) = METHODS /\ 0 <= bo_inline (ca_bounds c) <= MAX_INLINE /\
  1 <= bo_page (ca_bounds c) < 256 /\ 1 <= bo_receipts (ca_bounds c) < 256.

Lemma bounds_word_value i p r : 0 <= i < 65536 -> 0 <= p < 256 -> 0 <= r < 256 ->
  bounds_word (mkBounds i p r) = i + 65536 * p + 16777216 * r.
Proof.
  intros Hi Hp Hr. unfold bounds_word. svcfields.
  assert (H1 : Z.lor i (Z.shiftl p 16) = i + 65536 * p).
  { rewrite Z.lor_comm, (lor_shiftl_add p i 16) by (lia || by unfold fits). rewrite Z.shiftl_mul_pow2 by lia. lia. }
  rewrite H1, Z.lor_comm, (lor_shiftl_add r _ 24) by (lia || (unfold fits; lia)). rewrite Z.shiftl_mul_pow2 by lia. lia.
Qed.

Lemma bounds_round b : 0 <= bo_inline b < 65536 -> 0 <= bo_page b < 256 -> 0 <= bo_receipts b < 256 ->
  bounds_parse (bounds_word b) = b.
Proof.
  destruct b as [i p r]. svcfields. intros Hi Hp Hr. rewrite bounds_word_value by done. unfold bounds_parse.
  change 65535 with (Z.ones 16). change 255 with (Z.ones 8). rewrite !Z.land_ones, !Z.shiftr_div_pow2 by lia.
  change (2 ^ 16) with 65536. change (2 ^ 24) with 16777216. change (2 ^ 8) with 256. f_equal.
  - symmetry. apply (Z.mod_unique_pos _ _ (p + 256 * r)); lia.
  - replace ((i + 65536 * p + 16777216 * r) / 65536) with (p + 256 * r) by (apply (Z.div_unique_pos _ _ _ i); lia).
    symmetry. apply (Z.mod_unique_pos _ _ r); lia.
  - replace ((i + 65536 * p + 16777216 * r) / 16777216) with r by (apply (Z.div_unique_pos _ _ _ (i + 65536 * p)); lia).
    apply Z.mod_small. lia.
Qed.

Lemma bounds_canonical w : fits 32 w -> let b := bounds_parse w in
  bounds_word b = w /\ 0 <= bo_inline b < 65536 /\ 0 <= bo_page b < 256 /\ 0 <= bo_receipts b < 256.
Proof.
  intros Hw. cbv zeta. unfold fits in Hw. change (2 ^ 32) with 4294967296 in Hw.
  assert (Hb : 0 <= bo_inline (bounds_parse w) < 65536 /\ 0 <= bo_page (bounds_parse w) < 256 /\ 0 <= bo_receipts (bounds_parse w) < 256).
  { unfold bounds_parse. svcfields. change 65535 with (Z.ones 16). change 255 with (Z.ones 8). rewrite !Z.land_ones by lia.
    repeat split; apply Z.mod_pos_bound; lia. }
  destruct Hb as (B1 & B2 & B3). split; [|done]. destruct (bounds_parse w) as [i p r] eqn:E. svcfields.
  rewrite bounds_word_value by done. unfold bounds_parse in E. injection E as E1 E2 E3. revert E1 E2 E3.
  change 65535 with (Z.ones 16). change 255 with (Z.ones 8). rewrite !Z.land_ones, !Z.shiftr_div_pow2 by lia.
  change (2 ^ 16) with 65536. change (2 ^ 24) with 16777216. change (2 ^ 8) with 256. intros E1 E2 E3.
  pose proof (Z.div_mod w 65536). pose proof (Z.div_mod (w / 65536) 256). pose proof (Z.div_div w 65536 256 ltac:(lia) ltac:(lia)) as Hd.
  change (65536 * 256) with 16777216 in Hd. rewrite Z.mod_small in E3; [|split; [apply Z.div_pos; lia|apply Z.div_lt_upper_bound; lia]]. lia.
Qed.

Lemma availability_round l : availability_loop (Availability_repr <$> l) = Ok l.
Proof. induction l as [|a l IH]; [done|]. cbn [fmap list_fmap availability_loop]. unfold Availability_decode. cbn in IH. rewrite IH. by destruct a. Qed.

Lemma availability_canonical l a : availability_loop l = Ok a -> length a = length l /\ Availability_repr <$> a = l.
Proof.
  revert a. induction l as [|b l IH]; intros a H; cbn [availability_loop] in H; [injection H as <-; done|].
  destruct (Availability_decode b) as [x|] eqn:Ex; [|done]. cbn [ok_or] in H.
  destruct (availability_loop l) as [r|?|]; [|done|done]. injection H as <-. destruct (IH r eq_refl) as [Hl Hr].
  cbn [length fmap list_fmap]. split; [lia|]. f_equal; [|exact Hr].
  unfold Availability_decode in Ex. repeat case_match; simplify_eq; bools; done.
Qed.

Lemma Capabilities_message : message_laws (fun a _ c => Capabilities_packet a c) Capabilities_decode capabilities_ok.
Proof.
  split.
  - intros op c [av b] (-> & La & Hi & Hp & Hr) Hc. svcfields. unfold Capabilities_packet. svcfields. unfold MAX_INLINE in Hi.
    assert (Hgood : bounds_bad b = false) by (unfold bounds_bad, MAX_INLINE; destruct (_ || _) eqn:G; [exfalso; refute|done]).
    rewrite Hgood. set (d := write _ 0 _). wire_unfold.
    assert (Lr : length (Availability_repr <$> av) = 8%nat) by (by rewrite length_fmap).
    assert (Br : bytes_ok (Availability_repr <$> av)) by (apply Forall_fmap, list.Forall_forall; intros [] _; unfold is_byte; simpl; lia).
    assert (D0 : length d = 40%nat) by (unfold d; wire_length).
    assert (D1 : slice d 0 8 = Availability_repr <$> av) by (unfold d; wire_reads; done).
    assert (D2 : slice d 8 40 = zeros 32) by (unfold d; wire_reads; done).
    assert (Fw : fits 32 (bounds_word b)) by (destruct b as [i pg rc]; svcfields; rewrite bounds_word_value by lia; unfold fits; lia).
    eexists. split; [reflexivity|]. split; [apply packet_frame; try done; try (unfold fits; lia)|].
    + unfold d. wire_bytes.
    + change (Z.to_nat (Z.of_nat 8)) with 8%nat. by rewrite drop_slice, D0, D2.
    + split; [done|]. split; [done|]. unfold Capabilities_decode. fields. wire_unfold. rewrite D1, D2, availability_round.
      rewrite (bool_decide_eq_true_2 (zeros 32 = zeros 32)) by done. cbn [OP_CAPABILITIES Z.eqb Pos.eqb Z.of_nat Pos.of_succ_nat Pos.succ]. fields.
      rewrite bounds_round, Hgood by lia. done.
  - intros p h ([F1 F2 F3 F4 F5 F6 F7 L B] & Hop & Hc & Hz) H. unfold Capabilities_decode in H.
    destruct p as [op st ct id ar cx ve d]. fields. destruct (_ || _) eqn:G in H; [done|].
    destruct (availability_loop _) as [av|?|] eqn:Eav; [|done|done]. cbv zeta in H. destruct (bounds_bad _) eqn:Gb in H; [done|]. injection H as <-.
    split_guards. bools. subst. wire_unfold. apply availability_canonical in Eav as [La Ea]. rewrite length_slice in La by lia.
    destruct (bounds_canonical ar F5) as (W1 & W2 & W3 & W4). pose proof Gb as Gb'. unfold bounds_bad in Gb'. split_guards. bools. split.
    + split; [done|]. split; [svcfields; done|]. svcfields. lia.
    + unfold Capabilities_packet. svcfields. rewrite Gb, W1, Ea. do 2 f_equal.
      assert (length (slice d 0 8) = 8%nat) by (rewrite length_slice; lia). wire_unfold. wire_fields [8; 40]%nat.
  - intros p. unfold Capabilities_decode. destruct (_ || _); [done|].
    assert (Ht : forall l, availability_loop l <> Panic).
    { intros l. induction l as [|b l IH]; [done|]. cbn [availability_loop]. unfold Availability_decode. by repeat case_match. }
    specialize (Ht (slice (p_data p) 0 METHODS)). destruct (availability_loop _); [no_panic|done|done].
Qed.

(** ** Negotiation *)
Lemma negotiation_message : message_laws (fun m _ c => negotiation_request m c) negotiation_decode_request
  (fun op m => op = OP_DESCRIBE /\ (m = OperationsGet \/ m = OperationsCancel)).
Proof.
  split.
  - intros op c m (-> & Hm) Hc. unfold negotiation_request.
    assert (Hd : exists d, reviewed_digest m = Ok d) by (destruct Hm as [-> | ->]; by eexists). destruct Hd as [dg ->].
    assert (Fm : fits 32 (Method_repr m)) by (by destruct m). eexists. split; [reflexivity|]. fields.
    split; [apply packet_frame; try done; try (unfold fits; lia); [apply bytes_ok_zeros]|].
    split; [done|]. split; [done|]. unfold negotiation_decode_request. fields. rewrite bool_decide_eq_true_2 by done.
    by destruct Hm as [-> | ->].
  - intros p m ([F1 F2 F3 F4 F5 F6 F7 L B] & Hop & Hc & Hz) H. unfold negotiation_decode_request in H.
    destruct p as [op st ct id ar cx ve d]. fields. destruct (_ || _) eqn:G in H; [done|]. destruct (_ || _) eqn:G2 in H; [done|].
    split_guards. bools. subst. unfold negotiation_method in H.
    destruct (Z.eqb_spec id 5) as [->|]; [injection H as <-|destruct (Z.eqb_spec id 6) as [->|]; [injection H as <-|done]];
      (split; [auto|done]).
  - intros p. unfold negotiation_decode_request, negotiation_method. no_panic.
Qed.

Definition descriptor_ok (m : Method) (op : Z) (d : Descriptor) : Prop :=
  op = OP_DESCRIBE /\ de_method d = m /\ Descriptor_validate d = Ok tt /\
  fits 8 (li_retained (de_limits d)) /\ fits 8 (li_tickets (de_limits d)).

Lemma digest_ok m g : reviewed_digest m = Ok g -> length g = 32%nat /\ bytes_ok g /\ negotiation_method (Method_repr m) = Ok m.
Proof. destruct m; intros [= <-]; (split; [done|]; split; [|done]); by apply (bool_decide_unpack _). Qed.

Lemma Descriptor_message m :
  message_laws (fun d _ c => Descriptor_packet d c) (fun p => Descriptor_decode p m) (descriptor_ok m).
Proof.
  split.
  - intros op c [m' a [rt tk ac] sha] (-> & Hm & Hv & Frt & Ftk) Hc. svcfields. subst m'. unfold Descriptor_packet. rewrite Hv.
    pose proof Hv as Hv'. unfold Descriptor_validate in Hv'. svcfields. destruct (reviewed_digest m) as [g|?|] eqn:Eg; [|done|done].
    destruct (_ || _) eqn:G in Hv'; [done|]. split_guards. bools. subst sha ac. destruct (digest_ok m g Eg) as (Lg & Bg & Em).
    unfold negotiation_request. rewrite Eg. svcfields. set (d := write _ 4 g). wire_unfold.
    assert (Fa : fits 8 (Availability_repr a)) by (by destruct a).
    assert (D0 : length d = 40%nat) by (unfold d; wire_length).
    assert (D1 : byte_at d 0 = Availability_repr a) by (unfold d; wire_read).
    assert (D2 : byte_at d 1 = rt) by (unfold d; wire_read).
    assert (D3 : byte_at d 2 = tk) by (unfold d; wire_read).
    assert (D4 : byte_at d 3 = 1) by (unfold d; wire_read).
    assert (D5 : slice d 4 36 = g) by (unfold d; wire_reads; done).
    assert (D6 : slice d 36 40 = zeros 4) by (unfold d; wire_reads; done).
    assert (Fm : fits 32 (Method_repr m)) by (by destruct m).
    eexists. split; [reflexivity|]. split; [apply packet_frame; try done; try (unfold fits; lia)|].
    + unfold d. wire_bytes.
    + change (Z.to_nat 36) with 36%nat. by rewrite drop_slice, D0, D6.
    + split; [done|]. split; [done|]. unfold Descriptor_decode. fields. rewrite D1, D2, D3, D4, D5, D6, Em, !Z.eqb_refl.
      rewrite (bool_decide_eq_true_2 (zeros 4 = zeros 4)) by done. cbn [OP_DESCRIBE NEGOTIATION_VERSION NEGOTIATION_PROFILE Z.eqb Pos.eqb]. fields.
      assert (Ea : Availability_decode (Availability_repr a) = Some a) by (by destruct a). rewrite Ea. cbn [ok_or]. by rewrite Hv.
  - intros p x ([F1 F2 F3 F4 F5 F6 F7 L B] & Hop & Hc & Hz) H. unfold Descriptor_decode in H.
    destruct p as [op st ct id ar cx ve d]. fields. destruct (_ || _) eqn:G in H; [done|].
    destruct (negotiation_method id) as [m'|?|] eqn:Em; [|done|done]. destruct (Availability_decode _) as [a|] eqn:Ea; [|done]. cbn [ok_or] in H.
    cbv zeta in H. destruct (Descriptor_validate _) as [[]|?|] eqn:Hv in H; [|done|done]. injection H as <-. split_guards. bools. subst.
    assert (m' = m) as -> by (destruct m; vm_compute in Em; congruence). pose proof Hv as Hv'. unfold Descriptor_validate in Hv'. svcfields.
    destruct (reviewed_digest m) as [g|?|] eqn:Eg; [|done|done]. destruct (_ || _) eqn:G in Hv'; [done|]. split_guards. bools.
    assert (Ear : byte_at d 0 = Availability_repr a) by (unfold Availability_decode in Ea; repeat case_match; simplify_eq; bools; done).
    wire_unfold. assert (F8 : fits 8 (le_value (slice d 1 2))) by (apply (data_fits d 1 2 1); [done|done|lia|done]).
    assert (F9 : fits 8 (le_value (slice d 2 3))) by (apply (data_fits d 2 3 1); [done|done|lia|done]).
    split; [done|]. unfold Descriptor_packet. rewrite Hv. unfold negotiation_request. svcfields. rewrite Eg. svcfields. do 2 f_equal.
    assert (length (slice d 4 36) = 32%nat) by (rewrite length_slice; lia). wire_unfold. wire_fields [1; 2; 3; 4; 36; 40]%nat.
  - intros p. unfold Descriptor_decode. destruct (_ || _); [done|]. unfold negotiation_method, Descriptor_validate.
    destruct (if p_id p =? 5 then _ else _) as [m'|?|] eqn:Em; [|done|by repeat case_match].
    destruct (Availability_decode _); [|done]. cbn [ok_or]. cbv zeta. svcfields.
    assert (Hg : reviewed_digest m' <> Panic) by (by destruct m'). destruct (reviewed_digest m'); [no_panic|done|done].
Qed.

(** ** Claims *)
(** The packet frame and every typed message over it -- identity
    bootstrap, replacement and lookup requests of both profiles, range reads and their headers,
    admission identities, statuses, activities, both observation profiles, cancellation requests and
    acknowledgements, capability reports, negotiation requests and descriptors -- round trip through
    valid frames; every accepted frame is the one canonical frame of a valid message; no decoder
    panics. *)
Theorem file_messages_are_canonical :
  codec_laws Packet_encode Packet_decode Packet_valid /\
  message_laws (fun r _ c => References_packet r c) References_decode References_valid /\
  message_laws (fun m op c => let? p := Replacement_packet m.1 m.2 c in Ok (retag op p))
    (fun p => let? r := Replacement_decode p in Ok (r, p_arg p)) (Replacement_valid 1024) /\
  message_laws (fun m op c => let? p := LargeReplacement_packet m.1 m.2 c in Ok (retag op p))
    (fun p => let? r := LargeReplacement_decode p in Ok (r, p_arg p)) (Replacement_valid MAX_FILE_BYTES) /\
  message_laws large_lookup_packet (fun p => let? l := LargeLookup_decode p in Ok (l, p_arg p)) LargeLookup_valid /\
  message_laws ReadRequest_packet ReadRequest_decode read_ok /\
  message_laws (fun h _ c => ReadHeader_packet h c) ReadHeader_decode header_ok /\
  message_laws id_packet (fun p => let? a := AdmissionId_decode p in Ok (a, p_arg p)) id_valid /\
  message_laws Status_packet Status_decode (fun op s => status_op op = true /\ status_ok s) /\
  message_laws Activity_packet Activity_decode activity_ok /\
  message_laws (fun o _ c => Observation_packet o c) Observation_decode (fun op o => op = ADM_OBSERVE /\ observation_ok o) /\
  message_laws (fun o _ c => ObservationV2_packet o c) ObservationV2_decode (fun op o => op = ADM_OBSERVE /\ observation2_ok o) /\
  message_laws (fun id _ c => CancelAck_request id c) CancelAck_decode_request (fun op id => op = LIFECYCLE_CANCEL /\ admission_ok id) /\
  message_laws (fun a _ c => CancelAck_packet a c) CancelAck_decode (fun op a => op = LIFECYCLE_CANCEL /\ admission_ok (ck_id a)) /\
  message_laws (fun a _ c => Capabilities_packet a c) Capabilities_decode capabilities_ok /\
  message_laws (fun m _ c => negotiation_request m c) negotiation_decode_request
    (fun op m => op = OP_DESCRIBE /\ (m = OperationsGet \/ m = OperationsCancel)) /\
  (forall m, message_laws (fun d _ c => Descriptor_packet d c) (fun p => Descriptor_decode p m) (descriptor_ok m)).
Proof.
  split; [apply Packet_laws|]. split; [apply References_message|]. split; [apply Replacement_message|].
  split; [apply LargeReplacement_message|]. split; [apply LargeLookup_message|]. split; [apply ReadRequest_message|].
  split; [apply ReadHeader_message|]. split; [apply AdmissionId_message|]. split; [apply Status_message|].
  split; [apply Activity_message|]. split; [apply Observation_message|]. split; [apply ObservationV2_message|].
  split; [apply CancelAck_request_message|]. split; [apply CancelAck_message|]. split; [apply Capabilities_message|].
  split; [apply negotiation_message|apply Descriptor_message].
Qed.

(** every valid observation of profile 2 projects to exactly one
    lifecycle state with its own identity: success carries the durable completion of a committed
    admission, cancellation and failure only follow a retained prevention with its cause, and a live
    stop request is reported as pending, never as a result. *)
Theorem lifecycle_projection_is_faithful view : observation2_ok view ->
  exists l, LifeOperation_try_from view = Ok (mkLifeOperation (Observation_id (ObservationV2_coarse view))
      (Observation_instance (ObservationV2_coarse view)) l) /\ life_meaning view l.
Proof. apply life_total. Qed.
Definition sample_lineage : list Z := 1 :: zeros 15.
Definition sample_view : ObservationV2 :=
  RetainedV2 (mkStatus (mkAdmissionId sample_lineage 4) ACancelled (mkInstance (mkOperationId sample_lineage 3)) 9) (Some PVersionConflict).
Lemma lifecycle_projection_is_faithful_witness :
  exists l, LifeOperation_try_from sample_view = Ok (mkLifeOperation (Observation_id (ObservationV2_coarse sample_view))
      (Observation_instance (ObservationV2_coarse sample_view)) l) /\ life_meaning sample_view l.
Proof.
  apply (lifecycle_projection_is_faithful sample_view).
  assert (Hl : lineage_ok sample_lineage) by (split; [done|]; split; [by apply (bool_decide_unpack _)|done]).
  split; [|done]. split; [split; [done|by split; [|by vm_compute]]|]. split; [done|].
  split; [split; [done|by vm_compute]|]. split; [by vm_compute|]. split; [by vm_compute|by vm_compute].
Defined.

(** an accepted range answer stays inside the file and the request,
    names the requested object and the pinned version, is short only at the end of the file, and
    reports the end exactly when it reaches it. *)
Theorem range_answers_are_consistent r h i op : read_ok op r -> header_ok READ_OPEN h -> ReadInfo_from_header r h = Ok i ->
  ri_offset i = rr_offset r /\ 0 <= ri_length i <= rr_length r /\ ri_offset i + ri_length i <= ri_size i /\
  ri_size i = rh_size h /\ (ri_eof i = true <-> ri_offset i + ri_length i = ri_size i) /\
  (ri_length i < rr_length r -> ri_eof i = true) /\
  (forall v, rr_expected r = Some v -> ri_version i = v) /\ rs_object (rf_resource (ri_references i)) = rh_id h.
Proof. apply ReadInfo_range. Qed.
Definition sample_workspace : Workspace := mkWorkspace sample_lineage 2.
Definition sample_read : ReadRequest := mkReadRequest sample_workspace (mkResource sample_workspace 9) (Some (mkVersion 5)) 100 64.
Definition sample_header : ReadHeader := mkReadHeader 9 120 (mkVersion 5) (zeros 32) (mkEpoch 1).
Definition sample_info : ReadInfo :=
  mkReadInfo (mkReferences sample_workspace (mkResource sample_workspace 9)) (mkVersion 5) 120 100 20 (zeros 32) true (mkEpoch 1).
Lemma range_answers_are_consistent_witness :
  ri_offset sample_info = 100 /\ 0 <= ri_length sample_info <= 64 /\ ri_offset sample_info + ri_length sample_info <= ri_size sample_info /\
  ri_size sample_info = 120 /\ (ri_eof sample_info = true <-> ri_offset sample_info + ri_length sample_info = ri_size sample_info) /\
  (ri_length sample_info < 64 -> ri_eof sample_info = true) /\
  (forall v, Some (mkVersion 5) = Some v -> ri_version sample_info = v) /\ 9 = 9.
Proof.
  apply (range_answers_are_consistent sample_read sample_header sample_info READ_OPEN); [| |reflexivity].
  - assert (Hl : lineage_ok sample_lineage) by (split; [done|]; split; [by apply (bool_decide_unpack _)|done]).
    split; [split; [done|split; [done|by vm_compute]]|]. split; [done|]. split; [done|]. split; [by vm_compute|].
    split; [by vm_compute|]. split; [by vm_compute|]. split; [by vm_compute|].
    split; [split; [done|by vm_compute]|by left].
  - split; [done|]. split; [done|]. split; [by vm_compute|]. split; [by vm_compute|].
    split; [split; [done|by vm_compute]|]. split; [split; [done|by vm_compute]|]. split; [done|apply bytes_ok_zeros].
Defined.
