(* ===== verification/AbiRuntime.v ===== *)
(** * Runtime control words and application manifests (crates/abi/src/runtime.rs,
      application.rs, memory.rs)

    Native error codes, the shape check of supervisor control requests, the word
    array codec, the heap extension's argument checks, and the admission manifest
    an application image carries. *)
From stdpp Require Import base list option numbers.
From Stdlib Require Import ZArith Lia Bool.
From S2P Require Import Prelude Bytes Codec AbiMessages.

(** ** Errors (runtime.rs) *)
Inductive RuntimeError :=
| RDenied | RAddress | RSize | RInvalid | RBusy | RNotFound | RFull | RWouldBlock | RClosed | RProtocol.
#[global] Instance RuntimeError_eq_dec : EqDecision RuntimeError.
Proof. solve_decision. Defined.

Definition RuntimeError_repr (e : RuntimeError) : Z :=
  match e with
  | RDenied => 0 | RAddress => 1 | RSize => 2 | RInvalid => 3 | RBusy => 4 | RNotFound => 5 | RFull => 6
  | RWouldBlock => 7 | RClosed => 8 | RProtocol => 9
  end.
Definition RuntimeError_code (e : RuntimeError) : Z := u64_max - 64 - RuntimeError_repr e.
Definition runtime_errors : list RuntimeError :=
  [RDenied; RAddress; RSize; RInvalid; RBusy; RNotFound; RFull; RWouldBlock; RClosed; RProtocol].

Definition RuntimeError_decode (value : Z) : outcome RuntimeError Z :=
  match List.find (fun e => value =? RuntimeError_code e) runtime_errors with
  | Some e => Err e
  | None => if u64_max - 4096 <? value then Err RProtocol else Ok value
  end.

(** ** Control requests *)
Definition CTL_INFO : Z := 0.
Definition CTL_SPAWN : Z := 1.
Definition CTL_START : Z := 2.
Definition CTL_CONNECT : Z := 3.
Definition CTL_BLOCK_GRANT : Z := 4.
Definition CTL_CONSOLE_GRANT : Z := 5.
Definition CTL_PROCESS : Z := 6.
Definition CTL_KILL : Z := 7.
Definition CTL_REAP : Z := 8.
Definition CTL_SHUTDOWN : Z := 9.
Definition CTL_IPC_INFO : Z := 10.
Definition CTL_DEVICE : Z := 11.
Definition CTL_CLOSE_ENDPOINT : Z := 12.
Definition CTL_MOVE_ENDPOINT : Z := 13.
Definition CTL_HOLD_COMPLETION : Z := 14.
Definition CTL_OBSERVATION_STATUS : Z := 15.
Definition CTL_STAGE_BEGIN : Z := 16.
Definition CTL_STAGE_COPY : Z := 17.
Definition CTL_STAGE_COMMIT : Z := 18.
Definition CTL_STAGE_ABORT : Z := 19.

Definition one_of (x : Z) (l : list Z) : bool := existsb (Z.eqb x) l.

(** The number of words a request uses. *)
Definition control_words (op : Z) : option nat :=
  if one_of op [CTL_INFO; CTL_IPC_INFO; CTL_SHUTDOWN; CTL_DEVICE; CTL_OBSERVATION_STATUS] then Some 1%nat
  else if op =? CTL_HOLD_COMPLETION then Some 4%nat
  else if one_of op [CTL_SPAWN; CTL_CONSOLE_GRANT; CTL_PROCESS; CTL_KILL; CTL_REAP; CTL_STAGE_COMMIT; CTL_STAGE_ABORT] then Some 2%nat
  else if one_of op [CTL_CONNECT; CTL_CLOSE_ENDPOINT] then Some 3%nat
  else if op =? CTL_STAGE_BEGIN then Some 4%nat
  else if one_of op [CTL_START; CTL_BLOCK_GRANT; CTL_MOVE_ENDPOINT; CTL_STAGE_COPY] then Some 5%nat
  else None.

(** [w] has eight words by its type. *)
Definition validate_control (w : list Z) : outcome RuntimeError unit :=
  match control_words (nth 0 w 0) with
  | None => Err RInvalid
  | Some fin => if existsb (fun v => negb (v =? 0)) (drop fin w) then Err RInvalid else Ok tt
  end.

(** [as_chunks::<8>] of a byte array. *)
Fixpoint words_encode (w : list Z) : list Z :=
  match w with [] => [] | x :: w => le_bytes 8 x ++ words_encode w end.

Fixpoint words_decode_loop (n : nat) (b : list Z) : list Z :=
  match n with
  | O => []
  | S n => le_value (take 8 b) :: words_decode_loop n (drop 8 b)
  end.

Definition words_decode (b : list Z) : outcome RuntimeError (list Z) :=
  if negb (length b =? 64)%nat then Err RSize else Ok (words_decode_loop 8 b).

(** ** The heap extension (memory.rs) *)
Definition HEAP_WRITE : Z := 1.
Definition HEAP_WINDOW_PAGES : Z := 3.
Definition flags_valid (flags : Z) : bool := Z.land flags (unot 64 HEAP_WRITE) =? 0.
Definition selector_valid (selector : Z) : bool := selector <=? HEAP_WINDOW_PAGES.

(** ** Application manifests (application.rs) *)
Definition MANIFEST_SIZE : nat := 128.
#[export] Hint Unfold MANIFEST_SIZE : wire_sizes.
Definition MANIFEST_VERSION : Z := 2.
Definition CAP_IPC : Z := 1.
Definition CAP_DIAGNOSTIC : Z := 2.
Definition CAP_BLOCK : Z := 4.
Definition CAP_CONSOLE : Z := 8.
Definition CAP_CONTROL : Z := 16.
Definition CAP_KNOWN : Z := Z.lor (Z.lor (Z.lor (Z.lor CAP_IPC CAP_DIAGNOSTIC) CAP_BLOCK) CAP_CONSOLE) CAP_CONTROL.
Definition PROCESS_VERSION : Z := 65536.
Definition IPC_ABI_VERSION : Z := 1.

(** [b"RUSTAPP\0"] and [".elf"]. *)
Definition MANIFEST_MAGIC : list Z := [82; 85; 83; 84; 65; 80; 80; 0].
Definition text_elf : list Z := [46; 101; 108; 102].

Inductive ManifestError := MLength | MMagic | MVersion | MAbi | MIpc | MIdentity | MExecutable | MCapabilities.

Record Manifest := mkManifest {
  mf_identity : list Z; mf_executable : list Z; mf_version : list Z; mf_requests : Z; mf_sha256 : list Z }.

Definition is_lower (b : Z) : bool := (97 <=? b) && (b <=? 122).
Definition is_digit (b : Z) : bool := (48 <=? b) && (b <=? 57).
Definition name_byte (b : Z) : bool := is_lower b || is_digit b || one_of b [46; 95; 45].

(** [iter().position(|b| *b == 0)]. *)
Fixpoint zero_position (l : list Z) : option nat :=
  match l with
  | [] => None
  | b :: l => if b =? 0 then Some 0%nat else n ← zero_position l; Some (S n)
  end.

Definition manifest_name (bytes : list Z) : option (list Z) :=
  fin ← zero_position bytes;
  let value := take fin bytes in
  if (length value =? 0)%nat || negb (is_lower (nth 0 value 0)) || negb (forallb name_byte value)
     || negb (all_zero (drop fin bytes))
  then None else Some value.

Definition ends_elf (s : list Z) : bool := bool_decide (drop (length s - 4) s = text_elf).

Definition Manifest_parse (b : list Z) : outcome ManifestError Manifest :=
  if negb (length b =? MANIFEST_SIZE)%nat then Err MLength
  else if negb (bool_decide (slice b 0 8 = MANIFEST_MAGIC)) then Err MMagic
  else if negb (u16_at b 8 =? MANIFEST_VERSION) || negb (u16_at b 10 =? Z.of_nat MANIFEST_SIZE) then Err MVersion
  else if negb (u32_at b 12 =? PROCESS_VERSION) then Err MAbi
  else if negb (u16_at b 16 =? IPC_ABI_VERSION) then Err MIpc
  else
    let? identity := ok_or (manifest_name (slice b 32 64)) MIdentity in
    let? executable := ok_or (s ← manifest_name (slice b 64 96); if ends_elf s then Some s else None) MExecutable in
    let requests := u64_at b 24 in
    if negb (Z.land requests (unot 64 CAP_KNOWN) =? 0) then Err MCapabilities
    else Ok (mkManifest identity executable [u16_at b 18; u16_at b 20; u16_at b 22] requests (slice b 96 128)).

Definition Manifest_admitted (m : Manifest) (available : Z) : bool := Z.land (mf_requests m) (unot 64 available) =? 0.

(** ** Word arrays *)
Lemma words_round w : Forall (fits 64) w -> words_decode_loop (length w) (words_encode w) = w.
Proof.
  induction 1 as [|x w Hx _ IH]; [done|]. cbn [length words_encode words_decode_loop].
  assert (L := length_le_bytes 8 x). rewrite take_app_length', drop_app_length' by done. by rewrite le_value_bytes, IH.
Qed.

Lemma words_canonical n b : length b = (8 * n)%nat -> bytes_ok b ->
  words_encode (words_decode_loop n b) = b /\ Forall (fits 64) (words_decode_loop n b) /\ length (words_decode_loop n b) = n.
Proof.
  revert b. induction n as [|n IH]; intros b L B; cbn [words_decode_loop words_encode length].
  { destruct b; [split; [done|]; split; [constructor|done]|simpl in L; lia]. }
  destruct (IH (drop 8 b)) as (E & F & Ln); [rewrite length_drop; lia|by apply Forall_drop|].
  assert (Lt : length (take 8 b) = 8%nat) by (rewrite length_take; lia).
  assert (Bt : bytes_ok (take 8 b)) by (by apply Forall_take).
  rewrite E. rewrite <- Lt at 1. rewrite le_bytes_value by done. split; [by rewrite take_drop|]. split; [|by rewrite Ln].
  constructor; [|done]. pose proof (le_value_fits _ Bt) as H. by rewrite Lt in H.
Qed.

Lemma length_words_encode w : length (words_encode w) = (8 * length w)%nat.
Proof. induction w as [|x w IH]; [done|]. cbn [words_encode length]. rewrite length_app, length_le_bytes, IH. lia. Qed.

Lemma bytes_ok_words w : bytes_ok (words_encode w).
Proof. induction w as [|x w IH]; [constructor|]. cbn [words_encode]. apply Forall_app. split; [apply bytes_ok_le_bytes|done]. Qed.

Lemma words_laws : codec_laws words_encode words_decode (fun w => length w = 8%nat /\ Forall (fits 64) w).
Proof.
  split.
  - intros w [L F]. unfold words_decode. rewrite length_words_encode, L. change (negb (8 * 8 =? 64)%nat) with false. cbv iota.
    pose proof (words_round w F) as E. rewrite L in E. by rewrite E.
  - intros b w B H. unfold words_decode in H. destruct (Nat.eqb_spec (length b) 64) as [L|]; [|done]. injection H as <-.
    destruct (words_canonical 8 b L B) as (E & F & Ln). done.
  - intros w _. apply bytes_ok_words.
  - intros b. unfold words_decode. no_panic.
Qed.

(** ** Names *)
Definition name_ok (v : list Z) : Prop :=
  v <> [] /\ is_lower (nth 0 v 0) = true /\ forallb name_byte v = true /\ (length v < 32)%nat.

Definition padded (n : nat) (v : list Z) : list Z := v ++ zeros (n - length v).

Lemma name_byte_nonzero b : name_byte b = true -> b <> 0 /\ is_byte b.
Proof.
  unfold name_byte, is_lower, is_digit, one_of, is_byte. cbn [existsb]. rewrite !orb_true_iff, !andb_true_iff, !Z.leb_le, !Z.eqb_eq. lia.
Qed.

Lemma zero_position_app v n : Forall (fun b => b <> 0) v -> (0 < n)%nat -> zero_position (v ++ zeros n) = Some (length v).
Proof.
  intros Hv Hn. induction Hv as [|b v Hb _ IH]; cbn [app zero_position length].
  - destruct n; [lia|]. done.
  - destruct (Z.eqb_spec b 0); [done|]. by rewrite IH.
Qed.

Lemma zero_position_lt l n : zero_position l = Some n -> (n < length l)%nat.
Proof.
  revert n. induction l as [|b l IH]; intros n; cbn [zero_position length]; [done|]. destruct (b =? 0); [intros [= <-]; lia|].
  destruct (zero_position l) as [m|]; [|done]. intros [= <-]. specialize (IH m eq_refl). lia.
Qed.

Lemma manifest_name_spec b v : length b = 32%nat -> manifest_name b = Some v <-> name_ok v /\ b = padded 32 v.
Proof.
  intros L. unfold manifest_name. split.
  - destruct (zero_position b) as [n|] eqn:Ez; [|done]. cbn [mbind option_bind]. cbv zeta. destruct (_ || _) eqn:G; [done|]. intros [= <-].
    apply zero_position_lt in Ez. repeat match goal with G : (_ || _) = false |- _ => apply orb_false_iff in G as [? ?] end. bools.
    assert (Lt : length (take n b) = n) by (rewrite length_take; lia). split.
    + split; [intros E; by rewrite E in *|]. split; [done|]. split; [done|lia].
    + unfold padded. rewrite Lt. match goal with Hz : all_zero _ = true |- _ => apply all_zero_eq in Hz; rewrite length_drop, L in Hz; rewrite <- Hz end.
      by rewrite take_drop.
  - intros ((Hne & Hl & Hall & Hlt) & ->). assert (Hnz : Forall (fun b => b <> 0) v).
    { rewrite forallb_forall in Hall. apply Forall_forall. intros x Hx%Hall. by apply name_byte_nonzero. }
    unfold padded. rewrite zero_position_app by (done || lia). cbn [mbind option_bind]. cbv zeta.
    rewrite take_app_length, drop_app_length, Hl, Hall, all_zero_zeros. destruct v; [done|]. done.
Qed.

(** ** Manifests *)
Definition manifest_ok (m : Manifest) : Prop :=
  name_ok (mf_identity m) /\ name_ok (mf_executable m) /\ ends_elf (mf_executable m) = true /\
  (exists x y z, mf_version m = [x; y; z] /\ fits 16 x /\ fits 16 y /\ fits 16 z) /\
  fits 64 (mf_requests m) /\ Z.land (mf_requests m) CAP_KNOWN = mf_requests m /\ length (mf_sha256 m) = 32%nat /\ bytes_ok (mf_sha256 m).

(** The one image of a manifest. *)
Definition manifest_image (m : Manifest) : list Z :=
  let b := zeros MANIFEST_SIZE in
  let b := write b 0 MANIFEST_MAGIC in
  let b := write b 8 (le_bytes 2 MANIFEST_VERSION) in
  let b := write b 10 (le_bytes 2 (Z.of_nat MANIFEST_SIZE)) in
  let b := write b 12 (le_bytes 4 PROCESS_VERSION) in
  let b := write b 16 (le_bytes 2 IPC_ABI_VERSION) in
  let b := write b 18 (le_bytes 2 (nth 0 (mf_version m) 0)) in
  let b := write b 20 (le_bytes 2 (nth 1 (mf_version m) 0)) in
  let b := write b 22 (le_bytes 2 (nth 2 (mf_version m) 0)) in
  let b := write b 24 (le_bytes 8 (mf_requests m)) in
  let b := write b 32 (padded 32 (mf_identity m)) in
  let b := write b 64 (padded 32 (mf_executable m)) in
  write b 96 (mf_sha256 m).

Lemma length_padded v : (length v <= 32)%nat -> length (padded 32 v) = 32%nat.
Proof. intros. unfold padded. rewrite length_app, length_zeros. lia. Qed.

Lemma Manifest_parse_spec b m : bytes_ok b -> Manifest_parse b = Ok m <-> manifest_ok m /\ b = manifest_image m.
Proof.
  intros B. assert (LM : length MANIFEST_MAGIC = 8%nat) by done. split.
  - intros H. unfold Manifest_parse in H. guards H. cbv zeta in H.
    destruct (manifest_name (slice b 32 64)) as [i|] eqn:Ei; [|done]. cbn [ok_or] in H.
    destruct (manifest_name (slice b 64 96)) as [x|] eqn:Ex; [|done]. cbn [mbind option_bind] in H.
    destruct (ends_elf x) eqn:Ee; [|done]. cbn [ok_or] in H. guards H. injection H as <-.
    repeat match goal with G : (_ || _) = false |- _ => apply orb_false_iff in G as [? ?] end. bools. wire_unfold.
    apply manifest_name_spec in Ei as [Hi Ei]; [|rewrite length_slice; lia]. apply manifest_name_spec in Ex as [Hx Ex]; [|rewrite length_slice; lia].
    assert (Hf : forall i j n, (j <= 128)%nat -> (n = j - i)%nat -> fits (8 * Z.of_nat n) (le_value (slice b i j)))
      by (intros; eapply field_fits; [done|lia|done|done]). split.
    + unfold manifest_ok. cbn [mf_identity mf_executable mf_version mf_requests mf_sha256].
      split; [done|]. split; [done|]. split; [done|]. split; [|split; [by apply (Hf 24 32 8)%nat; [lia|]|split; [|split; [rewrite length_slice; lia|by apply bytes_ok_slice]]]].
      * eexists _, _, _. split; [reflexivity|]. split; [by apply (Hf 18 20 2)%nat; [lia|]|split; [by apply (Hf 20 22 2)%nat; [lia|]|by apply (Hf 22 24 2)%nat; [lia|]]].
      * cbn [mf_requests]. match goal with G : Z.land _ (unot 64 _) = 0 |- _ => apply unot_land_zero in G; [done|lia|by apply (Hf 24 32 8)%nat; [lia|]] end.
    + unfold manifest_image. cbn [mf_identity mf_executable mf_version mf_requests mf_sha256 nth]. rewrite <- Ei, <- Ex. wire_unfold.
      assert (length (slice b 32 64) = 32%nat) by (rewrite length_slice; lia). assert (length (slice b 64 96) = 32%nat) by (rewrite length_slice; lia).
      assert (length (slice b 96 128) = 32%nat) by (rewrite length_slice; lia).
      symmetry. wire_fields [8; 10; 12; 16; 18; 20; 22; 24; 32; 64; 96; 128]%nat.
  - intros ((Hi & Hx & Hel & (x & y & z & Hver & Fx & Fy & Fz) & Fr & Hr & Ls & Bs) & ->).
    destruct m as [i e v r s]. cbn [mf_identity mf_executable mf_version mf_requests mf_sha256] in *. subst v. set (b := manifest_image _).
    assert (Li : length (padded 32 i) = 32%nat) by (apply length_padded; destruct Hi; lia).
    assert (Le : length (padded 32 e) = 32%nat) by (apply length_padded; destruct Hx; lia).
    assert (Hfld : length b = 128%nat /\ slice b 0 8 = MANIFEST_MAGIC /\ u16_at b 8 = MANIFEST_VERSION /\ u16_at b 10 = 128 /\
      u32_at b 12 = PROCESS_VERSION /\ u16_at b 16 = IPC_ABI_VERSION /\ u16_at b 18 = x /\ u16_at b 20 = y /\ u16_at b 22 = z /\
      u64_at b 24 = r /\ slice b 32 64 = padded 32 i /\ slice b 64 96 = padded 32 e /\ slice b 96 128 = s).
    { unfold b, manifest_image. cbn [mf_identity mf_executable mf_version mf_requests mf_sha256 nth]. wire_unfold.
      repeat match goal with |- _ /\ _ => split end; try wire_read. wire_length. }
    destruct Hfld as (E0 & E1 & E2 & E3 & E4 & E5 & E6 & E7 & E8 & E9 & Ea & Eb & Ec). clearbody b.
    unfold Manifest_parse. wire_unfold. cbv zeta. rewrite E0, E1, E2, E3, E4, E5, E6, E7, E8, E9, Ea, Eb, Ec.
    rewrite (proj2 (manifest_name_spec (padded 32 i) i Li)), (proj2 (manifest_name_spec (padded 32 e) e Le)) by done.
    rewrite bool_decide_eq_true_2 by done. cbn [ok_or mbind option_bind]. rewrite Hel. cbn [ok_or].
    rewrite (proj2 (unot_land_zero 64 r CAP_KNOWN ltac:(lia) Fr) Hr). done.
Qed.

(** ** Claims *)
(** The loader accepts exactly the canonical images of
    well-formed manifests (lowercase names, an .elf executable, known capability requests only), and
    admits one exactly when every request bit is available. *)
Theorem application_manifest_is_canonical b m available : bytes_ok b -> 0 <= available < 2 ^ 64 ->
  (Manifest_parse b = Ok m <-> manifest_ok m /\ b = manifest_image m) /\
  (manifest_ok m -> Manifest_admitted m available = true <-> Z.land (mf_requests m) available = mf_requests m).
Proof.
  intros B _. split; [by apply Manifest_parse_spec|]. intros (_ & _ & _ & _ & Fr & _). unfold Manifest_admitted. rewrite Z.eqb_eq.
  by apply unot_land_zero.
Qed.
Definition sample_manifest : Manifest :=
  mkManifest [97; 112; 112] [97; 46; 101; 108; 102] [1; 2; 3] 5 (zeros 32).
Lemma application_manifest_is_canonical_witness :
  (Manifest_parse (manifest_image sample_manifest) = Ok sample_manifest <->
     manifest_ok sample_manifest /\ manifest_image sample_manifest = manifest_image sample_manifest) /\
  (manifest_ok sample_manifest -> Manifest_admitted sample_manifest 7 = true <-> Z.land (mf_requests sample_manifest) 7 = mf_requests sample_manifest).
Proof. apply (application_manifest_is_canonical (manifest_image sample_manifest) sample_manifest 7); [by apply (bool_decide_unpack _)|lia]. Defined.

(** control requests travel as eight words in one canonical
    64-byte form; a result word is either a value or one distinct error, never both; and no error
    code is a value. *)
Theorem control_words_are_unambiguous :
  codec_laws words_encode words_decode (fun w => length w = 8%nat /\ Forall (fits 64) w) /\
  (forall e, RuntimeError_decode (RuntimeError_code e) = Err e) /\
  (forall v x, RuntimeError_decode v = Ok x -> x = v /\ v <= u64_max - 4096 /\ forall e, v <> RuntimeError_code e) /\
  (forall e e', RuntimeError_code e = RuntimeError_code e' -> e = e').
Proof.
  split; [apply words_laws|]. split; [by intros []|]. split.
  - intros v x H. unfold RuntimeError_decode in H. destruct (List.find _ _) as [e|] eqn:Ef; [done|].
    destruct (Z.ltb_spec (u64_max - 4096) v) as [|Hv]; [done|]. injection H as <-. split; [done|]. split; [done|].
    intros e He. assert (Hin : List.In e runtime_errors) by (destruct e; simpl; auto 12).
    pose proof (find_none _ _ Ef e Hin) as Hn. cbn beta in Hn. apply Z.eqb_neq in Hn. done.
  - intros e e' H. unfold RuntimeError_code in H. assert (E : RuntimeError_repr e = RuntimeError_repr e') by lia. by destruct e, e'.
Qed.
