(* ===== verification/Ipc.v ===== *)
(** * IPC transport (kernel/src/ipc, crates/abi/src/ipc.rs)

    [Message] (framing and validation), [Queue]/[Channel] (the bounded
    two-message ring per direction) and [Broker] (channels plus the endpoint
    handle table).  Numbers follow crates/abi/src/ipc.rs. *)
From stdpp Require Import base list option numbers gmap.
From Stdlib Require Import ZArith Lia Bool.
From S2P Require Import Prelude Bytes Handles.

(** ** ABI constants and errors *)
Definition IPC_VERSION : Z := 1.
Definition IPC_DATA : Z := 1.
Definition HEADER : nat := 24.
Definition PAYLOAD : nat := 64.
Definition MAX_MESSAGE : nat := HEADER + PAYLOAD.
Definition IPC_READ : Z := 1.
Definition IPC_WRITE : Z := 2.
Definition IPC_TRANSFER : Z := 4.
Definition IPC_ALL : Z := Z.lor (Z.lor IPC_READ IPC_WRITE) IPC_TRANSFER.
Definition CHANNELS : nat := 24.
Definition ENDPOINT_HANDLES : nat := 64.
Definition HANDLES_PER_OWNER : nat := 24.

Inductive IpcError :=
| IpcHandle | IpcDenied | IpcAddress | IpcSize | IpcVersion
| IpcMessage | IpcWouldBlock | IpcClosed | IpcCancelled | IpcQuota.
#[global] Instance IpcError_eq_dec : EqDecision IpcError.
Proof. solve_decision. Defined.

Definition IpcError_code (e : IpcError) : Z :=
  u64_max -
  match e with
  | IpcHandle => 2 | IpcDenied => 3 | IpcAddress => 4 | IpcSize => 5 | IpcVersion => 6
  | IpcMessage => 7 | IpcWouldBlock => 8 | IpcClosed => 9 | IpcCancelled => 10 | IpcQuota => 11
  end.

(** [impl From<handles::Error> for ipc::Error]. *)
Definition IpcError_from (e : HandleError) : IpcError :=
  match e with Handle => IpcHandle | Denied => IpcDenied | Quota => IpcQuota end.

(** ** Messages *)
Record Message := mkMessage {
  m_correlation : Z;
  m_sender : Z;
  m_payload : list Z;
  m_len : nat;
}.
#[global] Instance Message_eq_dec : EqDecision Message.
Proof. solve_decision. Defined.

Definition Message_decode (bytes : list Z) (sender : Z) : outcome IpcError Message :=
  if negb ((HEADER <=? length bytes) && (length bytes <=? MAX_MESSAGE))%nat then Err IpcSize
  else if negb (u16_at bytes 0 =? IPC_VERSION) then Err IpcVersion
  else if negb (u16_at bytes 2 =? IPC_DATA) || negb (all_zero (slice bytes 16 24)) then Err IpcMessage
  else
    let len := Z.to_nat (u32_at bytes 4) in
    if (PAYLOAD <? len)%nat || negb (length bytes =? HEADER + len)%nat then Err IpcSize
    else Ok (mkMessage (u64_at bytes 8) sender
               (write (zeros PAYLOAD) 0 (drop HEADER bytes)) len).

Definition Message_length (m : Message) : nat := HEADER + m_len m.

Definition Message_encode (m : Message) : list Z :=
  let b := zeros MAX_MESSAGE in
  let b := write b 0 (le_bytes 2 IPC_VERSION) in
  let b := write b 2 (le_bytes 2 IPC_DATA) in
  let b := write b 4 (le_bytes 4 (Z.of_nat (m_len m))) in
  let b := write b 8 (le_bytes 8 (m_correlation m)) in
  let b := write b 16 (le_bytes 8 (m_sender m)) in
  write b HEADER (take (m_len m) (m_payload m)).

Record Message_wf (m : Message) : Prop := {
  mwf_correlation : fits 64 (m_correlation m);
  mwf_len : (m_len m <= PAYLOAD)%nat;
  mwf_payload : length (m_payload m) = PAYLOAD;
}.

(** ** Queues and channels *)
Record Queue := mkQueue { q_messages : list (option Message); q_head : nat; q_len : nat }.

Definition Queue_new : Queue := mkQueue [None; None] 0 0.

Definition Queue_push (q : Queue) (m : Message) : outcome IpcError unit * Queue :=
  if (q_len q =? 2)%nat then (Err IpcWouldBlock, q)
  else (Ok tt, mkQueue (<[(q_head q + q_len q) mod 2 := Some m]> (q_messages q))%nat
                 (q_head q) (q_len q + 1)).

Definition Queue_peek (q : Queue) : option Message := mjoin (q_messages q !! q_head q).

Definition Queue_pop (q : Queue) : outcome IpcError unit * Queue :=
  if (0 <? q_len q)%nat
  then (Ok tt, mkQueue (<[q_head q := None]> (q_messages q)) ((q_head q + 1) mod 2) (q_len q - 1))
  else (Panic, q).

(** [id], [open: [bool; 2]], [queues: [Queue; 2]]. *)
Record Channel := mkChannel { c_id : Z; c_open : list bool; c_queues : list Queue }.

Definition Channel_new (id : Z) : Channel := mkChannel id [true; true] [Queue_new; Queue_new].

(** [1 - side] on [usize]. *)
Definition peer (side : nat) : option nat := if (side <=? 1)%nat then Some (1 - side)%nat else None.

Definition Channel_send (c : Channel) (side : nat) (m : Message) : outcome IpcError unit * Channel :=
  match peer side with
  | None => (Panic, c)
  | Some p =>
    match c_open c !! p, c_queues c !! p with
    | Some open, Some q =>
      if negb open then (Err IpcClosed, c)
      else let (r, q') := Queue_push q m in
           (r, mkChannel (c_id c) (c_open c) (<[p := q']> (c_queues c)))
    | _, _ => (Panic, c)
    end
  end.

Definition Channel_peek (c : Channel) (side : nat) : outcome IpcError Message :=
  match c_queues c !! side, peer side with
  | Some q, Some p =>
    match c_open c !! p with
    | Some open => ok_or (Queue_peek q) (if (open : bool) then IpcWouldBlock else IpcClosed)
    | None => Panic
    end
  | _, _ => Panic
  end.

Definition Channel_pop (c : Channel) (side : nat) : outcome IpcError unit * Channel :=
  match c_queues c !! side with
  | Some q => let (r, q') := Queue_pop q in
              (r, mkChannel (c_id c) (c_open c) (<[side := q']> (c_queues c)))
  | None => (Panic, c)
  end.

(** Returns whether both ends are now closed. *)
Definition Channel_close (c : Channel) (side : nat) : outcome IpcError bool * Channel :=
  if (side <? 2)%nat then
    let c' := mkChannel (c_id c) (<[side := false]> (c_open c)) (<[side := Queue_new]> (c_queues c)) in
    match c_open c' !! 0%nat, c_open c' !! 1%nat with
    | Some a, Some b => (Ok (negb a && negb b), c')
    | _, _ => (Panic, c')
    end
  else (Panic, c).

(** ** Broker *)
Record Endpoint := mkEndpoint { ep_channel : Z; ep_side : nat }.
#[global] Instance Endpoint_eq_dec : EqDecision Endpoint.
Proof. solve_decision. Defined.

Record Broker := mkBroker {
  b_channels : list (option Channel);
  b_handles : Table Endpoint;
  b_next_channel : Z;
}.

Definition Broker_new : Broker :=
  mkBroker (replicate CHANNELS None) (Table_new ENDPOINT_HANDLES 0 IPC_ALL IPC_TRANSFER) 1.

Definition set_handles (b : Broker) h : Broker := mkBroker (b_channels b) h (b_next_channel b).
Definition set_channel (b : Broker) slot (c : option Channel) : Broker :=
  mkBroker (<[slot := c]> (b_channels b)) (b_handles b) (b_next_channel b).

(** [expect("live handle owns channel")]. *)
Definition Broker_slot (b : Broker) (ep : Endpoint) : outcome IpcError nat :=
  match position (is_some_and (fun c => c_id c =? ep_channel ep)) (b_channels b) with
  | Some i => Ok i
  | None => Panic
  end.

(** [self.channels[slot].as_ref().unwrap()]. *)
Definition channel_at (b : Broker) (slot : nat) : outcome IpcError Channel :=
  match b_channels b !! slot with Some (Some c) => Ok c | _ => Panic end.

Definition Broker_connect (b : Broker) (x y : Z) : outcome IpcError (Z * Z) * Broker :=
  match position is_none (b_channels b) with
  | None => (Err IpcQuota, b)
  | Some slot =>
    match checked_add (b_next_channel b) 1 with
    | None => (Err IpcQuota, b)
    | Some next =>
      match Table_grant HANDLES_PER_OWNER (b_handles b) x (mkEndpoint (b_next_channel b) 0) IPC_ALL with
      | (Ok first, h1) =>
        match Table_grant HANDLES_PER_OWNER h1 y (mkEndpoint (b_next_channel b) 1) IPC_ALL with
        | (Ok second, h2) =>
          (Ok (first, second),
           mkBroker (<[slot := Some (Channel_new (b_next_channel b))]> (b_channels b)) h2 next)
        | (Err e, h2) =>
          match Table_remove h2 x first with
          | (Ok _, h3) => (Err (IpcError_from e), set_handles b h3)
          | (Err e', h3) => (Err (IpcError_from e'), set_handles b h3)
          | (Panic, h3) => (Panic, set_handles b h3)
          end
        | (Panic, h2) => (Panic, set_handles b h2)
        end
      | (Err e, h1) => (Err (IpcError_from e), set_handles b h1)
      | (Panic, h1) => (Panic, set_handles b h1)
      end
    end
  end.

Definition Broker_check (b : Broker) (who handle right : Z) : outcome IpcError unit :=
  let? _ := map_err IpcError_from (Table_resolve (b_handles b) who handle right) in Ok tt.

Definition Broker_send (b : Broker) (who handle : Z) (bytes : list Z) : outcome IpcError unit * Broker :=
  match map_err IpcError_from (Table_resolve (b_handles b) who handle IPC_WRITE) with
  | Ok ep =>
    match Message_decode bytes who with
    | Ok m =>
      match Broker_slot b ep with
      | Ok slot =>
        match channel_at b slot with
        | Ok c => let (r, c') := Channel_send c (ep_side ep) m in (r, set_channel b slot (Some c'))
        | Err e => (Err e, b) | Panic => (Panic, b)
        end
      | Err e => (Err e, b) | Panic => (Panic, b)
      end
    | Err e => (Err e, b) | Panic => (Panic, b)
    end
  | Err e => (Err e, b) | Panic => (Panic, b)
  end.

Definition Broker_peek (b : Broker) (who handle : Z) : outcome IpcError Message :=
  let? ep := map_err IpcError_from (Table_resolve (b_handles b) who handle IPC_READ) in
  let? slot := Broker_slot b ep in
  let? c := channel_at b slot in
  Channel_peek c (ep_side ep).

Definition Broker_consume (b : Broker) (who handle : Z) : outcome IpcError unit * Broker :=
  match map_err IpcError_from (Table_resolve (b_handles b) who handle IPC_READ) with
  | Ok ep =>
    match Broker_slot b ep with
    | Ok slot =>
      match channel_at b slot with
      | Ok c =>
        match Channel_peek c (ep_side ep) with
        | Ok _ => let (r, c') := Channel_pop c (ep_side ep) in (r, set_channel b slot (Some c'))
        | Err e => (Err e, b) | Panic => (Panic, b)
        end
      | Err e => (Err e, b) | Panic => (Panic, b)
      end
    | Err e => (Err e, b) | Panic => (Panic, b)
    end
  | Err e => (Err e, b) | Panic => (Panic, b)
  end.

Definition Broker_close (b : Broker) (who handle : Z) : outcome IpcError unit * Broker :=
  match Table_remove (b_handles b) who handle with
  | (Ok ep, h) =>
    let b := set_handles b h in
    match Broker_slot b ep with
    | Ok slot =>
      match channel_at b slot with
      | Ok c =>
        match Channel_close c (ep_side ep) with
        | (Ok true, _) => (Ok tt, set_channel b slot None)
        | (Ok false, c') => (Ok tt, set_channel b slot (Some c'))
        | (Err e, c') => (Err e, set_channel b slot (Some c'))
        | (Panic, c') => (Panic, set_channel b slot (Some c'))
        end
      | Err e => (Err e, b) | Panic => (Panic, b)
      end
    | Err e => (Err e, b) | Panic => (Panic, b)
    end
  | (Err e, h) => (Err (IpcError_from e), set_handles b h)
  | (Panic, h) => (Panic, set_handles b h)
  end.

(** The [while let Some(handle)] loop; [None] means the fuel ran out. *)
Fixpoint close_owner_loop (fuel : nat) (b : Broker) (who : Z) : option (outcome IpcError unit * Broker) :=
  match fuel with
  | O => None
  | S fuel =>
    match Table_first (b_handles b) who with
    | None => Some (Ok tt, b)
    | Some handle =>
      match Broker_close b who handle with
      | (Ok _, b') => close_owner_loop fuel b' who
      | (_, b') => Some (Panic, b')
      end
    end
  end.

(** One iteration per handle suffices. *)
Definition Broker_close_owner (b : Broker) (who : Z) : option (outcome IpcError unit * Broker) :=
  close_owner_loop (S (Table_count (b_handles b))) b who.

Definition Broker_transfer (b : Broker) (who handle target r : Z) : outcome IpcError Z * Broker :=
  let (res, h) := Table_transfer HANDLES_PER_OWNER (b_handles b) who handle target r in
  (map_err IpcError_from res, set_handles b h).

Definition Broker_counts (b : Broker) : nat * nat :=
  (length (slots (b_channels b)), Table_count (b_handles b)).

Definition Broker_max_owner_handles (b : Broker) : nat := Table_max_owner_count (b_handles b).

Lemma length_Message_encode m :
  (m_len m <= PAYLOAD)%nat -> length (m_payload m) = PAYLOAD ->
  length (Message_encode m) = MAX_MESSAGE.
Proof.
  intros Hl Hp. unfold Message_encode. unfold PAYLOAD in *.
  assert (length (take (m_len m) (m_payload m)) = m_len m) by (rewrite length_take; lia).
  cbv zeta. unfold MAX_MESSAGE, HEADER, PAYLOAD. wire_length.
Qed.

(** What a successful validation establishes. *)
Lemma Message_decode_Ok bytes s m :
  Message_decode bytes s = Ok m ->
  length bytes = Message_length m /\ (m_len m <= PAYLOAD)%nat /\
  u16_at bytes 0 = IPC_VERSION /\ u16_at bytes 2 = IPC_DATA /\
  m_len m = Z.to_nat (u32_at bytes 4) /\
  m = mkMessage (u64_at bytes 8) s (write (zeros PAYLOAD) 0 (drop HEADER bytes)) (m_len m).
Proof.
  unfold Message_decode. destruct (negb _) eqn:E1; [done|].
  destruct (Z.eqb_spec (u16_at bytes 0) IPC_VERSION) as [Hv|]; [|done].
  destruct (Z.eqb_spec (u16_at bytes 2) IPC_DATA) as [Hd|]; [|done]. cbn [negb orb].
  destruct (all_zero (slice bytes 16 24)); [|done]. cbn [negb orb].
  destruct (Nat.ltb_spec PAYLOAD (Z.to_nat (u32_at bytes 4))) as [|Hp]; [done|]. cbn [negb orb].
  destruct (Nat.eqb_spec (length bytes) (HEADER + Z.to_nat (u32_at bytes 4))) as [Hl|]; [|done].
  intros H. injection H as <-. done.
Qed.

(** Whenever the kernel accepts a
    message, the bytes it later copies out are the sender's bytes with only the
    sender field replaced by the kernel's identity of the sending process; the
    sender field of the submitted bytes is never trusted. *)
Theorem ipc_message_is_delivered_stamped bytes s m :
  bytes_ok bytes -> fits 64 s -> Message_decode bytes s = Ok m ->
  Message_wf m /\ m_sender m = s /\ length (Message_encode m) = MAX_MESSAGE /\
  take (Message_length m) (Message_encode m) = write bytes 16 (le_bytes 8 s).
Proof.
  intros Hb Hs Hm. destruct (Message_decode_Ok bytes s m Hm) as (Hlen & Hp & Hver & Hdat & Hml & Hmeq).
  unfold Message_length, HEADER, PAYLOAD in *.
  assert (Hdrop : length (drop 24 bytes) = m_len m) by (rewrite length_drop; lia).
  assert (Hpl : length (m_payload m) = 64%nat).
  { rewrite Hmeq. simpl m_payload. eapply length_write_at; [apply length_zeros|exact Hdrop|lia]. }
  assert (Htake : take (m_len m) (m_payload m) = drop 24 bytes).
  { rewrite Hmeq. simpl m_payload. simpl m_len. unfold write. rewrite take_0. simpl.
    rewrite take_app_le by lia. apply take_ge. lia. }
  assert (Hu32 : fits 32 (u32_at bytes 4)).
  { unfold u32_at. pose proof (le_value_fits (slice bytes 4 (4 + 4)) (bytes_ok_slice _ _ _ Hb)) as H.
    by rewrite length_slice in H by lia. }
  split; [|split; [by rewrite Hmeq|split; [by apply length_Message_encode|]]].
  - split; [|done|done]. rewrite Hmeq. simpl. unfold u64_at.
    pose proof (le_value_fits (slice bytes 8 (8 + 8)) (bytes_ok_slice _ _ _ Hb)) as H.
    by rewrite length_slice in H by lia.
  - assert (Htl : length (take (m_len m) (m_payload m)) = m_len m) by (by rewrite Htake).
    unfold Message_encode. cbv zeta. unfold MAX_MESSAGE, HEADER, PAYLOAD. simpl Nat.add.
    apply (eq_by_fields _ _ [2; 4; 8; 16; 24; 24 + m_len m]%nat). cbn [same_fields].
    repeat (rewrite slice_take by (simpl; lia)).
    assert (Hlb : length bytes = (24 + m_len m)%nat) by done.
    assert (He : length (write bytes 16 (le_bytes 8 s)) = (24 + m_len m)%nat)
      by (eapply length_write_at; [exact Hlb|apply length_le_bytes|lia]).
    repeat split; try lia.
    + wire_reads. rewrite <- Hver. apply le_bytes_slice; (done || lia).
    + wire_reads. rewrite <- Hdat. apply le_bytes_slice; (done || lia).
    + wire_reads. rewrite Hml, Z2Nat.id by (unfold fits in Hu32; lia).
      apply le_bytes_slice; (done || lia).
    + wire_reads. rewrite Hmeq. simpl. apply le_bytes_slice; (done || lia).
    + wire_reads. by rewrite Hmeq.
    + rewrite slice_write_same by wire_len. rewrite slice_write_after by wire_len.
      rewrite Htake, drop_slice. by rewrite Hlb.
    + rewrite length_take. lia.
Qed.

Lemma ipc_message_is_delivered_stamped_witness :
  take 26 (Message_encode (mkMessage 5 9 ([72; 73] ++ zeros 62) 2)) =
    write ([1; 0; 1; 0; 2; 0; 0; 0; 5] ++ zeros 15 ++ [72; 73]) 16 (le_bytes 8 9).
Proof.
  refine (proj2 (proj2 (proj2 (ipc_message_is_delivered_stamped
    ([1; 0; 1; 0; 2; 0; 0; 0; 5] ++ zeros 15 ++ [72; 73]) 9 _ _ _ _)))).
  - apply (bool_decide_unpack _). by vm_compute.
  - by vm_compute.
  - by vm_compute.
Defined.
