(* ===== verification/IpcFacts.v ===== *)
(** * IPC: the broker implements an abstract network of mailboxes

    The abstract state [net] maps every open endpoint to the messages waiting
    to be received there, oldest first.  [Broker_rep] relates a broker to its
    network; the contracts below give each operation's effect on it, branch by
    branch. *)
From stdpp Require Import base list option numbers gmap countable.
From Stdlib Require Import ZArith Lia Bool.
From S2P Require Import Prelude Bytes Handles Ipc.

#[global] Instance Endpoint_countable : Countable Endpoint.
Proof.
  apply (inj_countable' (fun ep => (ep_channel ep, ep_side ep)) (fun '(c, s) => mkEndpoint c s)).
  by intros [].
Defined.

(** ** Ring buffers represent lists of at most two messages *)
Inductive Queue_rep : Queue -> list Message -> Prop :=
| rep_empty h : (h < 2)%nat -> Queue_rep (mkQueue [None; None] h 0) []
| rep_one_0 a : Queue_rep (mkQueue [Some a; None] 0 1) [a]
| rep_one_1 a : Queue_rep (mkQueue [None; Some a] 1 1) [a]
| rep_two_0 a b : Queue_rep (mkQueue [Some a; Some b] 0 2) [a; b]
| rep_two_1 a b : Queue_rep (mkQueue [Some b; Some a] 1 2) [a; b].

Lemma Queue_new_rep : Queue_rep Queue_new [].
Proof. constructor. lia. Qed.

Lemma Queue_push_rep q l m :
  Queue_rep q l ->
  (length l = 2%nat /\ Queue_push q m = (Err IpcWouldBlock, q)) \/
  ((length l < 2)%nat /\ exists q', Queue_push q m = (Ok tt, q') /\ Queue_rep q' (l ++ [m])).
Proof.
  intros H. inversion H as [h Hh| | | |]; subst; simpl.
  - right. split; [lia|]. eexists. split; [done|].
    destruct h as [|[|h]]; [constructor|constructor|lia].
  - right. split; [lia|]. eexists. split; [done|]. constructor.
  - right. split; [lia|]. eexists. split; [done|]. constructor.
  - by left.
  - by left.
Qed.

Lemma Queue_peek_rep q l : Queue_rep q l -> Queue_peek q = head l.
Proof. intros H. inversion H as [[|[|h]]| | | |]; subst; done. Qed.

Lemma Queue_pop_rep q m l :
  Queue_rep q (m :: l) -> exists q', Queue_pop q = (Ok tt, q') /\ Queue_rep q' l.
Proof.
  intros H. inversion H; subst; unfold Queue_pop; simpl; eexists; (split; [done|]); simpl;
    constructor; lia.
Qed.

(** One side of a channel: an open side holds a mailbox, a closed one nothing. *)
Definition side_rep (open : bool) (q : Queue) (box : option (list Message)) : Prop :=
  match box with
  | Some l => open = true /\ Queue_rep q l
  | None => open = false /\ Queue_rep q []
  end.

Definition Channel_rep (c : Channel) (box : nat -> option (list Message)) : Prop :=
  exists o0 o1 q0 q1,
    c = mkChannel (c_id c) [o0; o1] [q0; q1] /\
    side_rep o0 q0 (box 0%nat) /\ side_rep o1 q1 (box 1%nat) /\
    o0 || o1 = true /\ (forall s, (2 <= s)%nat -> box s = None).

Lemma Channel_rep_ext c box box' :
  (forall s, box s = box' s) -> Channel_rep c box -> Channel_rep c box'.
Proof.
  intros He (o0 & o1 & q0 & q1 & Hc & H0 & H1 & Ho & Hs). rewrite He in H0, H1.
  exists o0, o1, q0, q1. repeat (split; [done|]). intros s. rewrite <- He. apply Hs.
Qed.

Definition upd (box : nat -> option (list Message)) (s : nat) (v : option (list Message)) :
    nat -> option (list Message) :=
  fun s' => if decide (s' = s) then v else box s'.

Lemma Channel_new_rep id :
  Channel_rep (Channel_new id) (fun s => if (s <? 2)%nat then Some [] else None).
Proof.
  exists true, true, Queue_new, Queue_new. split; [done|].
  split; [by split; [|apply Queue_new_rep]|]. split; [by split; [|apply Queue_new_rep]|].
  split; [done|]. intros s Hs. by destruct (Nat.ltb_spec s 2); [lia|].
Qed.

Ltac two_sides s := destruct s as [|[|s]]; [| |simpl in *; try lia].

Lemma Channel_send_rep c box side m :
  Channel_rep c box -> (side < 2)%nat ->
  match box (1 - side)%nat with
  | None => Channel_send c side m = (Err IpcClosed, c)
  | Some l =>
    if decide (length l = 2%nat) then Channel_send c side m = (Err IpcWouldBlock, c)
    else exists c', Channel_send c side m = (Ok tt, c') /\ c_id c' = c_id c /\
                    Channel_rep c' (upd box (1 - side) (Some (l ++ [m])))
  end.
Proof.
  intros (o0 & o1 & q0 & q1 & -> & H0 & H1 & Ho & Hs) Hside. two_sides side; simpl.
  - destruct (box 1%nat) as [l|] eqn:E; destruct H1 as [-> Hq]; [|done]. simpl.
    unfold Channel_send; simpl. destruct (Queue_push_rep q1 l m Hq) as [[Hl ->]|[Hl (q' & -> & Hq')]].
    + by rewrite decide_True by done.
    + rewrite decide_False by lia. eexists. split; [done|]. split; [done|].
      exists o0, true, q0, q'. split; [done|]. unfold upd. simpl.
      split; [done|]. split; [done|]. split; [done|].
      intros s Hs'. rewrite decide_False by lia. by apply Hs.
  - destruct (box 0%nat) as [l|] eqn:E; destruct H0 as [-> Hq]; [|done]. simpl.
    unfold Channel_send; simpl. destruct (Queue_push_rep q0 l m Hq) as [[Hl ->]|[Hl (q' & -> & Hq')]].
    + by rewrite decide_True by done.
    + rewrite decide_False by lia. eexists. split; [done|]. split; [done|].
      exists true, o1, q', q1. split; [done|]. unfold upd. simpl.
      split; [done|]. split; [done|]. split; [done|].
      intros s Hs'. rewrite decide_False by lia. by apply Hs.
Qed.

Lemma Channel_peek_rep c box side l :
  Channel_rep c box -> (side < 2)%nat -> box side = Some l ->
  Channel_peek c side =
  match head l with
  | Some m => Ok m
  | None => Err (match box (1 - side)%nat with Some _ => IpcWouldBlock | None => IpcClosed end)
  end.
Proof.
  intros (o0 & o1 & q0 & q1 & -> & H0 & H1 & Ho & Hs) Hside Hl.
  two_sides side; rewrite Hl in *; unfold Channel_peek; simpl.
  - destruct H0 as [-> Hq]. rewrite (Queue_peek_rep q0 l Hq).
    destruct (head l); simpl; [done|]. destruct (box 1%nat); by destruct H1 as [-> _].
  - destruct H1 as [-> Hq]. rewrite (Queue_peek_rep q1 l Hq).
    destruct (head l); simpl; [done|]. destruct (box 0%nat); by destruct H0 as [-> _].
Qed.

Lemma Channel_pop_rep c box side m l :
  Channel_rep c box -> (side < 2)%nat -> box side = Some (m :: l) ->
  exists c', Channel_pop c side = (Ok tt, c') /\ c_id c' = c_id c /\
             Channel_rep c' (upd box side (Some l)).
Proof.
  intros (o0 & o1 & q0 & q1 & -> & H0 & H1 & Ho & Hs) Hside Hl.
  two_sides side; rewrite Hl in *; unfold Channel_pop; simpl.
  - destruct H0 as [-> Hq]. destruct (Queue_pop_rep q0 m l Hq) as (q' & -> & Hq').
    eexists. split; [done|]. split; [done|]. exists true, o1, q', q1. split; [done|].
    unfold upd. simpl. split; [done|]. split; [done|]. split; [done|].
    intros s Hs'. rewrite decide_False by lia. by apply Hs.
  - destruct H1 as [-> Hq]. destruct (Queue_pop_rep q1 m l Hq) as (q' & -> & Hq').
    eexists. split; [done|]. split; [done|]. exists o0, true, q0, q'. split; [done|].
    unfold upd. simpl. split; [done|]. split; [done|]. split; [done|].
    intros s Hs'. rewrite decide_False by lia. by apply Hs.
Qed.

(** Closing one end: the channel survives exactly while the peer is open. *)
Lemma Channel_close_rep c box side l :
  Channel_rep c box -> (side < 2)%nat -> box side = Some l ->
  match box (1 - side)%nat with
  | None => exists c', Channel_close c side = (Ok true, c')
  | Some _ => exists c', Channel_close c side = (Ok false, c') /\ c_id c' = c_id c /\
                         Channel_rep c' (upd box side None)
  end.
Proof.
  intros (o0 & o1 & q0 & q1 & -> & H0 & H1 & Ho & Hs) Hside Hl.
  two_sides side; unfold Channel_close; simpl.
  - destruct (box 1%nat) as [l1|] eqn:E1; destruct H1 as [-> Hq1]; eexists; [|done].
    split; [done|]. split; [done|]. exists false, true, Queue_new, q1. split; [done|].
    unfold upd. simpl. rewrite E1. split; [by split; [|apply Queue_new_rep]|].
    split; [done|]. split; [done|]. intros s Hs'. rewrite decide_False by lia. by apply Hs.
  - destruct (box 0%nat) as [l1|] eqn:E0; destruct H0 as [-> Hq0]; eexists; [|done].
    split; [done|]. split; [done|]. exists true, false, q0, Queue_new. split; [done|].
    unfold upd. simpl. rewrite E0. split; [done|].
    split; [by split; [|apply Queue_new_rep]|]. split; [done|].
    intros s Hs'. rewrite decide_False by lia. by apply Hs.
Qed.

(** ** The broker and its network *)
Abbreviation network := (gmap Endpoint (list Message)).

Definition twin (ep : Endpoint) : Endpoint := mkEndpoint (ep_channel ep) (1 - ep_side ep).

Definition boxes (net : network) (id : Z) : nat -> option (list Message) :=
  fun s => net !! mkEndpoint id s.

Definition ipc_policy (t : Table Endpoint) : Prop :=
  t_allowed t = IPC_ALL /\ t_transfer_right t = IPC_TRANSFER.

Lemma ipc_policy_same t t' : ipc_policy t -> same_policy t t' -> ipc_policy t'.
Proof. intros [Ha Ht] (_ & Ha' & Ht'). split; congruence. Qed.

Record Broker_rep (b : Broker) (net : network) : Prop := {
  br_handles : Table_wf ENDPOINT_HANDLES HANDLES_PER_OWNER (b_handles b);
  br_policy : ipc_policy (b_handles b);
  br_length : length (b_channels b) = CHANNELS;
  br_next : 1 <= b_next_channel b <= u64_max;
  br_channel : forall i c, b_channels b !! i = Some (Some c) ->
    Channel_rep c (boxes net (c_id c)) /\ 1 <= c_id c < b_next_channel b;
  br_unique : forall i j c d, b_channels b !! i = Some (Some c) ->
    b_channels b !! j = Some (Some d) -> c_id c = c_id d -> i = j;
  br_live : forall ep l, net !! ep = Some l ->
    exists i c, b_channels b !! i = Some (Some c) /\ c_id c = ep_channel ep;
  br_token : forall ep, is_Some (net !! ep) <->
    exists token who r, view (b_handles b) !! token = Some (who, ep, r);
  br_single : forall token token' who who' ep r r',
    view (b_handles b) !! token = Some (who, ep, r) ->
    view (b_handles b) !! token' = Some (who', ep, r') -> token = token';
}.

Lemma Broker_new_rep : Broker_rep Broker_new ∅.
Proof.
  assert (Hv : view (b_handles Broker_new) = ∅) by apply view_new.
  split; unfold Broker_new in *; cbn [b_channels b_handles b_next_channel] in *.
  - apply wf_new. by vm_compute.
  - done.
  - done.
  - unfold u64_max. lia.
  - intros i c Hi. apply lookup_replicate in Hi as [? _]. done.
  - intros i j c d Hi. apply lookup_replicate in Hi as [? _]. done.
  - intros ep l. by rewrite lookup_empty.
  - intros ep. rewrite lookup_empty. split; [by intros [? ?]|].
    intros (tk & who & r & H). by rewrite Hv in H.
  - intros tk tk' who who' ep r r' H. by rewrite Hv in H.
Qed.

Section BrokerFacts.
Context (b : Broker) (net : network) (Hrep : Broker_rep b net).

Lemma rep_side ep : is_Some (net !! ep) -> (ep_side ep < 2)%nat.
Proof.
  intros [l Hl]. destruct (br_live _ _ Hrep ep l Hl) as (i & c & Hi & Hid).
  destruct (br_channel _ _ Hrep i c Hi) as [(? & ? & ? & ? & _ & _ & _ & _ & Hs) _].
  destruct (decide (2 <= ep_side ep)%nat) as [Hge|]; [|lia].
  specialize (Hs _ Hge). unfold boxes in Hs. rewrite Hid in Hs. destruct ep. simpl in *. congruence.
Qed.

Lemma slot_of_id i c ep :
  b_channels b !! i = Some (Some c) -> c_id c = ep_channel ep -> Broker_slot b ep = Ok i.
Proof.
  intros Hi Hid. unfold Broker_slot. destruct (position _ _) as [j|] eqn:E.
  - apply position_Some in E as [(o & Ho & Hp) _]. destruct o as [d|]; [|done].
    simpl in Hp. apply Z.eqb_eq in Hp. f_equal. eapply (br_unique _ _ Hrep); [done|done|congruence].
  - apply (proj1 (position_None _ _) E) in Hi. simpl in Hi. apply Z.eqb_neq in Hi. congruence.
Qed.

(** A live endpoint names its channel: [slot] and the unwraps succeed. *)
Lemma rep_slot ep l :
  net !! ep = Some l ->
  exists i c, Broker_slot b ep = Ok i /\ channel_at b i = Ok c /\
    b_channels b !! i = Some (Some c) /\ c_id c = ep_channel ep /\
    Channel_rep c (boxes net (ep_channel ep)) /\ (ep_side ep < 2)%nat /\
    boxes net (ep_channel ep) (ep_side ep) = Some l /\
    boxes net (ep_channel ep) (1 - ep_side ep) = net !! twin ep.
Proof.
  intros Hl. destruct (br_live _ _ Hrep ep l Hl) as (i & c & Hi & Hid). exists i, c.
  split; [by apply (slot_of_id i c)|]. split; [unfold channel_at; by rewrite Hi|].
  split; [done|]. split; [done|]. destruct (br_channel _ _ Hrep i c Hi) as [Hc _].
  rewrite Hid in Hc. split; [done|]. split; [apply rep_side; eauto|].
  split; [|done]. unfold boxes. by destruct ep.
Qed.

(** Replacing one live channel and updating its boxes. *)
Lemma rep_set_channel i c c' net' :
  b_channels b !! i = Some (Some c) -> c_id c' = c_id c ->
  Channel_rep c' (boxes net' (c_id c)) ->
  (forall ep, ep_channel ep <> c_id c -> net' !! ep = net !! ep) ->
  (forall ep, is_Some (net' !! ep) <-> is_Some (net !! ep)) ->
  Broker_rep (set_channel b i (Some c')) net'.
Proof.
  intros Hi Hid Hc' Hother Hsome.
  assert (Hlt : (i < length (b_channels b))%nat) by (by eapply lookup_lt_Some).
  assert (Hlk : forall j d, <[i := Some c']> (b_channels b) !! j = Some (Some d) ->
     exists d0, b_channels b !! j = Some (Some d0) /\ c_id d0 = c_id d /\ (j = i /\ d = c' \/ j <> i /\ d = d0)).
  { intros j d. destruct (decide (j = i)) as [->|Hne].
    - rewrite list_lookup_insert_eq by done. intros [= <-]. eauto 10.
    - rewrite list_lookup_insert_ne by done. eauto 10. }
  split; simpl; try apply Hrep.
  - rewrite length_insert. apply Hrep.
  - intros j d Hj. destruct (Hlk j d Hj) as (d0 & Hd0 & Hdid & [[-> ->]|[Hne ->]]).
    + destruct (br_channel _ _ Hrep i c Hi) as [_ Hr]. rewrite Hid. by split.
    + destruct (br_channel _ _ Hrep j d0 Hd0) as [Hd Hr]. split; [|done].
      eapply Channel_rep_ext; [|done]. intros s. unfold boxes. symmetry. apply Hother. simpl.
      intros Heq. apply Hne. by eapply (br_unique _ _ Hrep).
  - intros j k d e Hj Hk Heq.
    destruct (Hlk j d Hj) as (d0 & Hd0 & Hd & _), (Hlk k e Hk) as (e0 & He0 & He & _).
    eapply (br_unique _ _ Hrep); [done|done|congruence].
  - intros ep l Hl. assert (Hs : is_Some (net !! ep)) by (apply Hsome; eauto).
    destruct Hs as [l0 Hl0]. destruct (br_live _ _ Hrep ep l0 Hl0) as (j & d & Hj & Hd).
    destruct (decide (j = i)) as [->|Hne].
    + exists i, c'. rewrite list_lookup_insert_eq by done. split; [done|].
      rewrite Hi in Hj. injection Hj as <-. congruence.
    + exists j, d. by rewrite list_lookup_insert_ne by done.
  - intros ep. rewrite Hsome. apply Hrep.
Qed.
End BrokerFacts.

(** ** The abstract operations *)
Definition abs_resolve (hv : gmap Z (binding Endpoint)) (who handle right : Z) : outcome IpcError Endpoint :=
  match hv !! handle with
  | Some (o, ep, r) =>
    if decide (o = who) then if decide (Z.land r right = right) then Ok ep else Err IpcDenied
    else Err IpcHandle
  | None => Err IpcHandle
  end.

Definition abs_send (hv : gmap Z (binding Endpoint)) (net : network) who handle bytes :
    outcome IpcError network :=
  let? ep := abs_resolve hv who handle IPC_WRITE in
  let? m := Message_decode bytes who in
  match net !! twin ep with
  | None => Err IpcClosed
  | Some l => if decide (length l = 2%nat) then Err IpcWouldBlock
              else Ok (<[twin ep := l ++ [m]]> net)
  end.

Definition abs_peek (hv : gmap Z (binding Endpoint)) (net : network) who handle :
    outcome IpcError Message :=
  let? ep := abs_resolve hv who handle IPC_READ in
  match net !! ep with
  | Some (m :: _) => Ok m
  | _ => Err (match net !! twin ep with Some _ => IpcWouldBlock | None => IpcClosed end)
  end.

Definition abs_consume (hv : gmap Z (binding Endpoint)) (net : network) who handle :
    outcome IpcError network :=
  let? _ := abs_peek hv net who handle in
  let? ep := abs_resolve hv who handle IPC_READ in
  Ok (alter tail ep net).

Definition abs_close (hv : gmap Z (binding Endpoint)) (net : network) (who handle : Z) :
    outcome IpcError (gmap Z (binding Endpoint) * network) :=
  let? ep := abs_resolve hv who handle 0 in Ok (delete handle hv, delete ep net).

Lemma resolve_refines t who handle right :
  Table_wf ENDPOINT_HANDLES HANDLES_PER_OWNER t ->
  map_err IpcError_from (Table_resolve t who handle right) = abs_resolve (view t) who handle right.
Proof.
  intros Hwf. unfold Table_resolve, abs_resolve.
  destruct (index_cases t who handle Hwf) as [(i & e & -> & -> & _ & _ & _ & ->)|[-> Hn]]; simpl.
  - rewrite decide_True by done. case_decide as Hr.
    + by rewrite (proj2 (Z.eqb_eq _ _) Hr).
    + by rewrite (proj2 (Z.eqb_neq _ _) Hr).
  - destruct (view t !! handle) as [[[o ep] r]|] eqn:E; [|done].
    rewrite decide_False; [done|]. intros ->. by destruct (Hn ep r).
Qed.

Lemma abs_resolve_Ok hv who handle right ep :
  abs_resolve hv who handle right = Ok ep ->
  exists r, hv !! handle = Some (who, ep, r) /\ Z.land r right = right.
Proof.
  unfold abs_resolve. destruct (hv !! handle) as [[[o ep'] r]|]; [|done].
  repeat case_decide; try done. intros [= ->]. subst. eauto.
Qed.

Lemma abs_resolve_total hv who handle right : abs_resolve hv who handle right <> Panic.
Proof.
  unfold abs_resolve. destruct (hv !! handle) as [[[o ep'] r]|]; repeat case_decide; done.
Qed.

Lemma decode_total bytes who : Message_decode bytes who <> Panic.
Proof. unfold Message_decode. repeat case_match; done. Qed.

Section BrokerOperations.
Context (b : Broker) (net : network) (Hrep : Broker_rep b net).
Local Abbreviation hv := (view (b_handles b)).

Lemma resolved_live who handle right ep :
  abs_resolve hv who handle right = Ok ep -> exists l, net !! ep = Some l.
Proof.
  intros (r & Hv & _)%abs_resolve_Ok. apply (br_token _ _ Hrep). eauto.
Qed.

Lemma twin_involutive ep : (ep_side ep < 2)%nat -> twin (twin ep) = ep.
Proof. intros. destruct ep as [c s]. unfold twin; simpl in *. f_equal. lia. Qed.

Lemma set_channel_same i c : b_channels b !! i = Some (Some c) -> set_channel b i (Some c) = b.
Proof. intros Hi. unfold set_channel. rewrite list_insert_id by done. by destruct b. Qed.

Lemma boxes_insert ep l s :
  boxes (<[ep := l]> net) (ep_channel ep) s = upd (boxes net (ep_channel ep)) (ep_side ep) (Some l) s.
Proof.
  unfold boxes, upd. case_decide as E.
  - subst s. destruct ep. apply lookup_insert_eq.
  - apply lookup_insert_ne. destruct ep. simpl in *. congruence.
Qed.

Lemma insert_same_support ep l l' :
  net !! ep = Some l -> forall e, is_Some ((<[ep := l']> net) !! e) <-> is_Some (net !! e).
Proof.
  intros Hl e. rewrite lookup_insert. case_decide as E; [|done]. subst.
  rewrite Hl. split; eauto.
Qed.

Lemma Broker_send_refines who handle bytes :
  match abs_send hv net who handle bytes with
  | Ok net' => exists b', Broker_send b who handle bytes = (Ok tt, b') /\
                          Broker_rep b' net' /\ b_handles b' = b_handles b
  | Err e => Broker_send b who handle bytes = (Err e, b)
  | Panic => False
  end.
Proof.
  unfold abs_send, Broker_send. rewrite resolve_refines by apply Hrep.
  destruct (abs_resolve hv who handle IPC_WRITE) as [ep|e|] eqn:Er;
    [|done|by apply abs_resolve_total in Er].
  destruct (Message_decode bytes who) as [m|e|] eqn:Em; [|done|by apply decode_total in Em].
  destruct (resolved_live _ _ _ _ Er) as [l0 Hl0].
  destruct (rep_slot b net Hrep ep l0 Hl0) as (i & c & -> & -> & Hi & Hid & Hc & Hs & Hbox & Htw).
  pose proof (Channel_send_rep c _ (ep_side ep) m Hc Hs) as Hsend. rewrite Htw in Hsend.
  destruct (net !! twin ep) as [l|] eqn:El.
  - case_decide as Hlen.
    + rewrite Hsend. by rewrite set_channel_same.
    + destruct Hsend as (c' & -> & Hid' & Hc'). eexists. split; [done|]. split; [|done].
      apply (rep_set_channel b net Hrep i c); [done|done| | |].
      * rewrite Hid. eapply Channel_rep_ext; [|done]. intros s. symmetry.
        apply (boxes_insert (twin ep)).
      * intros e He. apply lookup_insert_ne. intros <-. apply He. by rewrite Hid.
      * by eapply insert_same_support.
  - rewrite Hsend. by rewrite set_channel_same.
Qed.

Lemma Broker_peek_refines who handle : Broker_peek b who handle = abs_peek hv net who handle.
Proof.
  unfold abs_peek, Broker_peek. rewrite resolve_refines by apply Hrep.
  destruct (abs_resolve hv who handle IPC_READ) as [ep|e|] eqn:Er; [|done|done].
  destruct (resolved_live _ _ _ _ Er) as [l Hl]. rewrite Hl.
  destruct (rep_slot b net Hrep ep l Hl) as (i & c & -> & -> & Hi & Hid & Hc & Hs & Hbox & Htw).
  rewrite (Channel_peek_rep c _ _ l Hc Hs Hbox), Htw. by destruct l.
Qed.

Lemma Broker_consume_refines who handle :
  match abs_consume hv net who handle with
  | Ok net' => exists b', Broker_consume b who handle = (Ok tt, b') /\
                          Broker_rep b' net' /\ b_handles b' = b_handles b
  | Err e => Broker_consume b who handle = (Err e, b)
  | Panic => False
  end.
Proof.
  unfold abs_consume, abs_peek, Broker_consume. rewrite resolve_refines by apply Hrep.
  destruct (abs_resolve hv who handle IPC_READ) as [ep|e|] eqn:Er;
    [|done|by apply abs_resolve_total in Er].
  destruct (resolved_live _ _ _ _ Er) as [l Hl]. rewrite Hl.
  destruct (rep_slot b net Hrep ep l Hl) as (i & c & -> & -> & Hi & Hid & Hc & Hs & Hbox & Htw).
  rewrite (Channel_peek_rep c _ _ l Hc Hs Hbox), Htw. destruct l as [|m l]; simpl; [done|].
  destruct (Channel_pop_rep c _ _ m l Hc Hs Hbox) as (c' & -> & Hid' & Hc').
  eexists. split; [done|]. split; [|done].
  assert (Ha : alter tail ep net = <[ep := l]> net).
  { apply map_eq. intros e. rewrite lookup_alter, lookup_insert.
    case_decide; [|done]. subst. by rewrite Hl. }
  rewrite Ha. apply (rep_set_channel b net Hrep i c); [done|done| | |].
  - rewrite Hid. eapply Channel_rep_ext; [|done]. intros s. symmetry. apply boxes_insert.
  - intros e He. apply lookup_insert_ne. intros <-. by apply He.
  - by eapply insert_same_support.
Qed.
End BrokerOperations.

(** ** Closing, connecting and moving endpoints *)
Section BrokerLifetime.
Context (b : Broker) (net : network) (Hrep : Broker_rep b net).
Local Abbreviation hv := (view (b_handles b)).
Local Abbreviation table_wf := (Table_wf ENDPOINT_HANDLES HANDLES_PER_OWNER).

Lemma rep_set_handles h' :
  table_wf h' -> ipc_policy h' ->
  (forall ep, (exists token who r, view h' !! token = Some (who, ep, r)) <-> is_Some (net !! ep)) ->
  (forall token token' who who' ep r r',
    view h' !! token = Some (who, ep, r) -> view h' !! token' = Some (who', ep, r') -> token = token') ->
  Broker_rep (set_handles b h') net.
Proof.
  intros Hwf Hall Htok Hsingle. split; simpl; by apply Hrep || done.
Qed.

Lemma delete_token_iff handle who ep r ep' :
  hv !! handle = Some (who, ep, r) ->
  (exists token o q, delete handle hv !! token = Some (o, ep', q)) <->
  is_Some (delete ep net !! ep').
Proof.
  intros Hh. rewrite lookup_delete. case_decide as E.
  - subst ep'. split; [|by intros [? ?]]. intros (token & o & q & Ht).
    apply lookup_delete_Some in Ht as [Hne Ht]. destruct Hne.
    by eapply (br_single _ _ Hrep).
  - rewrite (br_token _ _ Hrep). split.
    + intros (token & o & q & Ht). apply lookup_delete_Some in Ht as [_ Ht]. eauto.
    + intros (token & o & q & Ht). exists token, o, q. rewrite lookup_delete_ne; [done|].
      intros <-. congruence.
Qed.

(** Removing one end: the channel becomes [co], which represents what is left. *)
Lemma rep_close h' i c co handle who ep r :
  table_wf h' -> ipc_policy h' -> view h' = delete handle hv ->
  hv !! handle = Some (who, ep, r) ->
  b_channels b !! i = Some (Some c) -> c_id c = ep_channel ep ->
  match co with
  | Some c' => c_id c' = c_id c /\ Channel_rep c' (boxes (delete ep net) (c_id c))
  | None => forall s, boxes (delete ep net) (c_id c) s = None
  end ->
  Broker_rep (mkBroker (<[i := co]> (b_channels b)) h' (b_next_channel b)) (delete ep net).
Proof.
  intros Hwf Hall Hv Hh Hi Hid Hco.
  assert (Hlt : (i < length (b_channels b))%nat) by (by eapply lookup_lt_Some).
  assert (Hlk : forall j d, <[i := co]> (b_channels b) !! j = Some (Some d) ->
     exists d0, b_channels b !! j = Some (Some d0) /\ c_id d0 = c_id d /\
       (j = i /\ co = Some d \/ j <> i /\ d = d0)).
  { intros j d. destruct (decide (j = i)) as [->|Hne].
    - rewrite list_lookup_insert_eq by done. intros [= ->]. exists c.
      destruct Hco as [Hc _]. auto.
    - rewrite list_lookup_insert_ne by done. eauto 10. }
  split; cbn [b_channels b_handles b_next_channel]; try done.
  - rewrite length_insert. apply Hrep.
  - apply Hrep.
  - intros j d Hj. destruct (Hlk j d Hj) as (d0 & Hd0 & Hdid & [[-> ->]|[Hne ->]]).
    + destruct Hco as [Hc1 Hc2]. destruct (br_channel _ _ Hrep i c Hi) as [_ Hr]. rewrite Hc1. by split.
    + destruct (br_channel _ _ Hrep j d0 Hd0) as [Hd Hr]. split; [|done].
      eapply Channel_rep_ext; [|done]. intros s. unfold boxes. symmetry. apply lookup_delete_ne.
      intros ->. apply Hne. eapply (br_unique _ _ Hrep); [done|done|]. simpl in Hid. congruence.
  - intros j k d e Hj Hk Heq.
    destruct (Hlk j d Hj) as (d0 & Hd0 & Hd & _), (Hlk k e Hk) as (e0 & He0 & He & _).
    eapply (br_unique _ _ Hrep); [done|done|congruence].
  - intros e l Hl. pose proof Hl as Hl'. apply lookup_delete_Some in Hl as [Hne Hl].
    destruct (br_live _ _ Hrep e l Hl) as (j & d & Hj & Hd).
    destruct (decide (j = i)) as [->|Hni].
    + rewrite Hi in Hj. injection Hj as <-. destruct co as [c'|].
      * exists i, c'. rewrite list_lookup_insert_eq by done. split; [done|].
        destruct Hco as [-> _]. done.
      * specialize (Hco (ep_side e)). unfold boxes in Hco. rewrite Hd in Hco.
        destruct e; simpl in *. congruence.
    + exists j, d. by rewrite list_lookup_insert_ne by done.
  - intros e. rewrite Hv. symmetry. by eapply delete_token_iff.
  - rewrite Hv. intros tk tk' w w' e q q' H1 H2.
    apply lookup_delete_Some in H1 as [_ H1]. apply lookup_delete_Some in H2 as [_ H2].
    by eapply (br_single _ _ Hrep).
Qed.

Lemma boxes_delete ep s :
  boxes (delete ep net) (ep_channel ep) s = upd (boxes net (ep_channel ep)) (ep_side ep) None s.
Proof.
  unfold boxes, upd. case_decide as E.
  - subst s. destruct ep. apply lookup_delete_eq.
  - apply lookup_delete_ne. destruct ep. simpl in *. congruence.
Qed.

Lemma Broker_close_refines who handle :
  match abs_close hv net who handle with
  | Ok (hv', net') => exists b', Broker_close b who handle = (Ok tt, b') /\
                                 Broker_rep b' net' /\ view (b_handles b') = hv'
  | Err e => Broker_close b who handle = (Err e, b)
  | Panic => False
  end.
Proof.
  unfold abs_close, Broker_close.
  pose proof (remove_meets_contract _ who handle (br_handles _ _ Hrep)) as Hc.
  rewrite <- resolve_refines by apply Hrep.
  destruct (Table_resolve (b_handles b) who handle 0) as [ep|e|] eqn:Er;
    [| |by apply (resolve_not_panic _ _ _ _ (br_handles _ _ Hrep)) in Er].
  - destruct (proj1 (resolve_Ok_iff _ who handle 0 ep (br_handles _ _ Hrep)) Er) as (r & Hv & _).
    simpl. unfold remove_contract in Hc.
    destruct (Table_remove (b_handles b) who handle) as [[ep'|[]|] h']; try done.
    2:{ destruct Hc as [_ Hn]. by destruct (Hn ep r). }
    destruct Hc as (Hwf' & Hv' & (r' & Hr') & _ & Hpol).
    assert (ep' = ep) as -> by congruence.
    pose proof (ipc_policy_same _ _ (br_policy _ _ Hrep) Hpol) as Hall.
    assert (Hlive : is_Some (net !! ep)) by (apply (br_token _ _ Hrep); eauto).
    destruct Hlive as [l Hl].
    destruct (rep_slot b net Hrep ep l Hl) as (i & c & Hslot & Hat & Hi & Hid & Hch & Hs & Hbox & Htw).
    change (Broker_slot (set_handles b h') ep) with (Broker_slot b ep). rewrite Hslot.
    change (channel_at (set_handles b h') i) with (channel_at b i). rewrite Hat.
    pose proof (Channel_close_rep c _ _ l Hch Hs Hbox) as Hclose. rewrite Htw in Hclose.
    destruct (net !! twin ep) as [lt|] eqn:Et.
    + destruct Hclose as (c' & -> & Hcid & Hc'). eexists. split; [done|]. split; [|done].
      eapply rep_close; try done. split; [done|]. rewrite Hid.
      eapply Channel_rep_ext; [|done]. intros s. symmetry. apply boxes_delete.
    + destruct Hclose as (c' & ->). eexists. split; [done|]. split; [|done].
      eapply rep_close; try done. intros s. rewrite Hid, boxes_delete. unfold upd.
      case_decide as E; [done|]. destruct Hch as (_ & _ & _ & _ & _ & _ & _ & _ & Hge).
      destruct (decide (2 <= s)%nat); [by apply Hge|].
      replace s with (1 - ep_side ep)%nat by lia. by rewrite Htw.
  - simpl. unfold Table_resolve in Er. unfold Table_remove.
    destruct (index_cases _ who handle (br_handles _ _ Hrep)) as [(i & en & Hx & Hen & _)|[Hx _]].
    + rewrite Hx, Hen in Er. by rewrite Z.land_0_r in Er.
    + rewrite Hx in *. injection Er as <-. destruct b; done.
Qed.
End BrokerLifetime.

(** ** Releasing everything a process owns *)
Definition held_by (hv : gmap Z (binding Endpoint)) (who : Z) (ep : Endpoint) : Prop :=
  exists token r, hv !! token = Some (who, ep, r).

(** The state after an owner is gone: its tokens and its mailboxes disappear,
    everything else is untouched. *)
Record owner_released (hv hv' : gmap Z (binding Endpoint)) (net net' : network) (who : Z) : Prop := {
  or_tokens : forall token bd, hv' !! token = Some bd <->
    hv !! token = Some bd /\ bd.1.1 <> who;
  or_boxes : forall ep l, net' !! ep = Some l <->
    net !! ep = Some l /\ ~ held_by hv who ep;
}.

Lemma close_owner_loop_releases fuel : forall b net who,
  Broker_rep b net -> (size (view (b_handles b)) < fuel)%nat ->
  exists b' net', close_owner_loop fuel b who = Some (Ok tt, b') /\ Broker_rep b' net' /\
    owner_released (view (b_handles b)) (view (b_handles b')) net net' who.
Proof.
  induction fuel as [|fuel IH]; intros b net who Hrep Hsz; [lia|]. simpl.
  destruct (Table_first (b_handles b) who) as [handle|] eqn:Ef.
  - destruct (first_Some _ _ _ (br_handles _ _ Hrep) Ef) as (ep & r & Hv).
    pose proof (Broker_close_refines b net Hrep who handle) as Hc.
    unfold abs_close, abs_resolve in Hc. rewrite Hv in Hc.
    rewrite decide_True, Z.land_0_r in Hc by done. simpl in Hc.
    destruct Hc as (b1 & -> & Hrep1 & Hv1).
    destruct (IH b1 (delete ep net) who Hrep1) as (b' & net' & -> & Hrep' & [Ht Hb]).
    { rewrite Hv1, map_size_delete_Some by eauto.
      assert (size (view (b_handles b)) <> 0%nat); [|lia].
      intros Hz. apply map_size_empty_inv in Hz. by rewrite Hz in Hv. }
    exists b', net'. split; [done|]. split; [done|]. split.
    + intros token bd. rewrite Ht, Hv1, lookup_delete_Some. split; [tauto|].
      intros [H1 H2]. split; [|done]. split; [|done]. intros <-. rewrite Hv in H1.
      injection H1 as <-. by apply H2.
    + intros e l. rewrite Hb, lookup_delete_Some, Hv1. unfold held_by. split.
      * intros [[Hne Hl] Hn]. split; [done|]. intros (tk & q & Hq). apply Hn. exists tk, q.
        rewrite lookup_delete_ne; [done|]. intros <-. congruence.
      * intros [Hl Hn]. split.
        -- split; [|done]. intros <-. apply Hn. eauto.
        -- intros (tk & q & Hq). apply lookup_delete_Some in Hq as [_ Hq]. apply Hn. eauto.
  - exists b, net. split; [done|]. split; [done|].
    pose proof (first_None _ _ (br_handles _ _ Hrep) Ef) as Hn. split.
    + intros token [[o ep] r]. simpl. split; [|tauto]. intros H. split; [done|].
      intros ->. by apply (Hn token ep r).
    + intros ep l. split; [|tauto]. intros H. split; [done|].
      intros (tk & r & Hr). by apply (Hn tk ep r).
Qed.

Lemma Broker_close_owner_releases b net who :
  Broker_rep b net ->
  exists b' net', Broker_close_owner b who = Some (Ok tt, b') /\ Broker_rep b' net' /\
    owner_released (view (b_handles b)) (view (b_handles b')) net net' who.
Proof.
  intros Hrep. apply close_owner_loop_releases; [done|].
  rewrite (table_count_size _ _ _ (br_handles _ _ Hrep)). lia.
Qed.

(** ** Connecting two processes *)
Section BrokerConnect.
Context (b : Broker) (net : network) (Hrep : Broker_rep b net).
Local Abbreviation hv := (view (b_handles b)).

Definition connected (net : network) (id : Z) : network :=
  <[mkEndpoint id 0 := []]> (<[mkEndpoint id 1 := []]> net).

Lemma fresh_channel_unused s : net !! mkEndpoint (b_next_channel b) s = None.
Proof.
  destruct (net !! _) as [l|] eqn:E; [|done].
  destruct (br_live _ _ Hrep _ l E) as (i & c & Hi & Hid). simpl in Hid.
  destruct (br_channel _ _ Hrep i c Hi) as [_ Hr]. lia.
Qed.

Lemma connected_lookup id ep :
  connected net id !! ep =
  if decide (ep_channel ep = id /\ (ep_side ep < 2)%nat) then Some [] else net !! ep.
Proof.
  unfold connected. case_decide as Hd; destruct ep as [c s]; simpl in Hd.
  - destruct Hd as [-> Hs]. destruct s as [|[|s]]; [apply lookup_insert_eq| |lia].
    rewrite lookup_insert_ne by done. apply lookup_insert_eq.
  - rewrite !lookup_insert_ne; [done| |]; intros [= <- <-]; apply Hd; lia.
Qed.

Lemma connected_rep slot h2 x y first second :
  b_channels b !! slot = Some None ->
  Table_wf ENDPOINT_HANDLES HANDLES_PER_OWNER h2 -> ipc_policy h2 ->
  b_next_channel b + 1 <= u64_max ->
  hv !! first = None -> hv !! second = None -> first <> second ->
  view h2 = <[second := (y, mkEndpoint (b_next_channel b) 1, IPC_ALL)]>
              (<[first := (x, mkEndpoint (b_next_channel b) 0, IPC_ALL)]> hv) ->
  Broker_rep (mkBroker (<[slot := Some (Channel_new (b_next_channel b))]> (b_channels b)) h2
                (b_next_channel b + 1)) (connected net (b_next_channel b)).
Proof.
  intros Hslot Hwf Hall Hnext Hf Hs Hne Hv. set (n := b_next_channel b) in *.
  pose proof (br_next _ _ Hrep) as Hn. fold n in Hn.
  assert (Hlt : (slot < length (b_channels b))%nat) by (by eapply lookup_lt_Some).
  assert (Hold : forall tk w e r, hv !! tk = Some (w, e, r) -> ep_channel e <> n).
  { intros tk w e r Ht. assert (Hl : is_Some (net !! e)) by (apply (br_token _ _ Hrep); eauto).
    destruct Hl as [l Hl]. intros Heq. pose proof (fresh_channel_unused (ep_side e)) as Hu.
    fold n in Hu. rewrite <- Heq in Hu. destruct e; simpl in *. congruence. }
  assert (Hcases : forall j d, <[slot := Some (Channel_new n)]> (b_channels b) !! j = Some (Some d) ->
     (j = slot /\ d = Channel_new n) \/ (j <> slot /\ b_channels b !! j = Some (Some d) /\ c_id d < n)).
  { intros j d. destruct (decide (j = slot)) as [->|Hj].
    - rewrite list_lookup_insert_eq by done. intros [= <-]. auto.
    - rewrite list_lookup_insert_ne by done. intros Hd. right. split; [done|]. split; [done|].
      apply (br_channel _ _ Hrep j d Hd). }
  split; cbn [b_channels b_handles b_next_channel].
  - done.
  - done.
  - rewrite length_insert. apply Hrep.
  - lia.
  - intros j d Hj. destruct (Hcases j d Hj) as [[-> ->]|(Hjs & Hd & Hlt')].
    + split; [|simpl; lia]. eapply Channel_rep_ext; [|apply Channel_new_rep]. intros s.
      unfold boxes. rewrite connected_lookup. simpl. destruct (Nat.ltb_spec s 2).
      * by rewrite decide_True by lia.
      * rewrite decide_False by lia. by rewrite fresh_channel_unused.
    + destruct (br_channel _ _ Hrep j d Hd) as [Hc Hr]. split; [|fold n in Hr; lia].
      eapply Channel_rep_ext; [|done]. intros s. unfold boxes. rewrite connected_lookup.
      by rewrite decide_False by (simpl; lia).
  - intros j k d e Hj Hk Heq.
    destruct (Hcases j d Hj) as [[-> ->]|(Hj1 & Hd1 & Hd2)],
             (Hcases k e Hk) as [[-> ->]|(Hk1 & He1 & He2)]; simpl in *; try done; try lia.
    by eapply (br_unique _ _ Hrep).
  - intros ep l. rewrite connected_lookup. case_decide as Hd.
    + intros _. exists slot, (Channel_new n). rewrite list_lookup_insert_eq by done. split; [done|].
      simpl. by destruct Hd as [-> _].
    + intros Hl. destruct (br_live _ _ Hrep ep l Hl) as (i & c & Hi & Hid). exists i, c.
      rewrite list_lookup_insert_ne; [done|]. intros <-. congruence.
  - intros ep. rewrite connected_lookup, Hv. case_decide as Hd.
    + split; [|eauto]. intros _. destruct ep as [c s]. simpl in *. destruct Hd as [-> Hs2].
      destruct s as [|[|s]]; [| |lia].
      * exists first, x, IPC_ALL. rewrite lookup_insert_ne by done. apply lookup_insert_eq.
      * exists second, y, IPC_ALL. apply lookup_insert_eq.
    + rewrite (br_token _ _ Hrep). split.
      * intros (tk & w & r & Ht). exists tk, w, r.
        rewrite !lookup_insert_ne; [done| |]; intros <-; by rewrite ?Hf, ?Hs in Ht.
      * intros (tk & w & r & Ht). rewrite !lookup_insert in Ht. repeat case_decide; simplify_eq.
        -- exfalso. apply Hd. simpl. lia.
        -- exfalso. apply Hd. simpl. lia.
        -- eauto.
  - rewrite Hv. intros tk tk' w w' e r r' Hx Hy. rewrite !lookup_insert in Hx, Hy.
    repeat case_decide; simplify_eq; try done;
      try (by apply Hold in Hx); try (by apply Hold in Hy).
    by eapply (br_single _ _ Hrep).
Qed.

(** A success installs two fresh tokens for the two ends of a new channel; a
    refusal leaves every binding and every mailbox as it was. *)
Lemma Broker_connect_spec x y :
  match Broker_connect b x y with
  | (Ok (first, second), b') =>
      hv !! first = None /\ hv !! second = None /\ first <> second /\
      Broker_rep b' (connected net (b_next_channel b)) /\
      view (b_handles b') =
        <[second := (y, mkEndpoint (b_next_channel b) 1, IPC_ALL)]>
          (<[first := (x, mkEndpoint (b_next_channel b) 0, IPC_ALL)]> hv)
  | (Err e, b') => e = IpcQuota /\ Broker_rep b' net /\ view (b_handles b') = hv
  | (Panic, _) => False
  end.
Proof.
  unfold Broker_connect. pose proof (br_handles _ _ Hrep) as Hwf.
  destruct (position is_none (b_channels b)) as [slot|] eqn:Ep; [|by split].
  apply position_Some in Ep as [(o & Hslot & Ho) _]. destruct o; [done|].
  destruct (checked_add (b_next_channel b) 1) as [next|] eqn:En; [|by split].
  apply checked_add_Some in En as [-> Hnext].
  assert (Hfit : fits 8 IPC_ALL) by (by vm_compute).
  assert (Hgo : forall t who obj,
    Table_wf ENDPOINT_HANDLES HANDLES_PER_OWNER t -> ipc_policy t ->
    match Table_grant HANDLES_PER_OWNER t who obj IPC_ALL with
    | (Ok tok, t') => Table_wf ENDPOINT_HANDLES HANDLES_PER_OWNER t' /\ ipc_policy t' /\
        view t !! tok = None /\ view t' = <[tok := (who, obj, IPC_ALL)]> (view t)
    | (Err e, t') => e = Quota /\ t' = t
    | (Panic, _) => False
    end).
  { intros t who obj Ht Hall. pose proof (grant_meets_contract t who obj IPC_ALL Ht Hfit) as Hg.
    unfold grant_contract in Hg. destruct (Table_grant _ _ _ _ _) as [[tok|[]|] t']; try done.
    - destruct Hg as (Hw & Hnone & Hv & _ & _ & Hpol & _).
      pose proof (ipc_policy_same _ _ Hall Hpol). done.
    - destruct Hg as [_ [H|H]]; exfalso; [done|apply H]. destruct Hall as [-> _]. done.
    - by destruct Hg as [-> _]. }
  pose proof (Hgo (b_handles b) x (mkEndpoint (b_next_channel b) 0) Hwf (br_policy _ _ Hrep)) as Hg1.
  destruct (Table_grant _ _ x _ _) as [[first|e|] h1]; [| |done].
  2:{ destruct Hg1 as [-> ->]. split; [done|]. by destruct b. }
  destruct Hg1 as (Hw1 & Ha1 & Hn1 & Hv1).
  pose proof (Hgo h1 y (mkEndpoint (b_next_channel b) 1) Hw1 Ha1) as Hg2.
  destruct (Table_grant _ h1 y _ _) as [[second|e|] h2]; [| |done].
  - destruct Hg2 as (Hw2 & Ha2 & Hn2 & Hv2). rewrite Hv1 in Hn2.
    apply lookup_insert_None in Hn2 as [Hn2 Hne]. rewrite Hv1 in Hv2.
    repeat (split; [done|]). split; [|done].
    by apply (connected_rep slot h2 x y first second).
  - destruct Hg2 as [-> ->].
    pose proof (remove_meets_contract h1 x first Hw1) as Hr. unfold remove_contract in Hr.
    destruct (Table_remove h1 x first) as [[obj|[]|] h3]; try done.
    + destruct Hr as (Hw3 & Hv3 & _ & _ & Hpol). pose proof (ipc_policy_same _ _ Ha1 Hpol) as Ha3.
      rewrite Hv1, delete_insert_id in Hv3 by done. split; [done|]. split; [|done].
      apply (rep_set_handles b net Hrep); [done|done| |]; rewrite Hv3.
      * intros ep. symmetry. apply (br_token _ _ Hrep).
      * apply (br_single _ _ Hrep).
    + destruct Hr as [_ Hr]. destruct (Hr (mkEndpoint (b_next_channel b) 0) IPC_ALL).
      rewrite Hv1. apply lookup_insert_eq.
Qed.

(** Moving an endpoint: the same mailbox is reached through a fresh token whose
    rights are a subset of the old ones; the old token is gone. *)
Lemma Broker_transfer_spec who handle target r :
  fits 8 r ->
  match Broker_transfer b who handle target r with
  | (Ok token, b') =>
      exists ep r0, hv !! handle = Some (who, ep, r0) /\ Z.land r0 IPC_TRANSFER <> 0 /\
        Z.land r r0 = r /\ hv !! token = None /\ Broker_rep b' net /\
        view (b_handles b') = <[token := (target, ep, r)]> (delete handle hv)
  | (Err e, b') => b' = b
  | (Panic, _) => False
  end.
Proof.
  intros Hr. unfold Broker_transfer.
  pose proof (transfer_meets_contract _ who handle target r (br_handles _ _ Hrep) Hr) as Hc.
  unfold transfer_contract in Hc.
  destruct (Table_transfer _ _ _ _ _ _) as [[token|[]|] h']; simpl; try done.
  - destruct Hc as (ep & r0 & Hv & Hsub & _ & Ht & Hwf' & Hfresh & Hv' & _ & _ & Hpol).
    destruct (br_policy _ _ Hrep) as [_ Htr]. rewrite Htr in Ht.
    exists ep, r0. repeat (split; [done|]). split; [|done].
    apply (rep_set_handles b net Hrep);
      [done|by eapply ipc_policy_same, Hpol; apply Hrep| |]; rewrite Hv'.
    + intros e. rewrite (br_token _ _ Hrep). split.
      * intros (tk & w & q & H). rewrite lookup_insert, lookup_delete in H.
        repeat case_decide; simplify_eq; eauto.
      * intros (tk & w & q & H). destruct (decide (tk = handle)) as [->|Hne].
        -- rewrite Hv in H. simplify_eq. exists token, target, r. apply lookup_insert_eq.
        -- exists tk, w, q. rewrite lookup_insert_ne by congruence. by rewrite lookup_delete_ne.
    + intros tk tk' w w' e q q' Hx Hy. rewrite !lookup_insert, !lookup_delete in Hx, Hy.
      repeat case_decide; simplify_eq; try done.
      * exfalso. by match goal with H : handle <> ?t |- _ =>
          apply H; eapply (br_single _ _ Hrep) end.
      * exfalso. by match goal with H : handle <> ?t |- _ =>
          apply H; eapply (br_single _ _ Hrep) end.
      * by eapply (br_single _ _ Hrep).
  - destruct Hc as [-> _]. by destruct b.
  - destruct Hc as [-> _]. by destruct b.
  - destruct Hc as [-> _]. by destruct b.
Qed.
End BrokerConnect.

(** ** Reachable brokers *)
Inductive broker_step : Broker -> Broker -> Prop :=
| bstep_connect b x y : broker_step b (Broker_connect b x y).2
| bstep_send b who handle bytes : broker_step b (Broker_send b who handle bytes).2
| bstep_consume b who handle : broker_step b (Broker_consume b who handle).2
| bstep_close b who handle : broker_step b (Broker_close b who handle).2
| bstep_close_owner b who res b' : Broker_close_owner b who = Some (res, b') -> broker_step b b'
| bstep_transfer b who handle target r :
    fits 8 r -> broker_step b (Broker_transfer b who handle target r).2.

Lemma broker_step_rep b b' net :
  Broker_rep b net -> broker_step b b' -> exists net', Broker_rep b' net'.
Proof.
  intros Hrep Hstep.
  destruct Hstep as [b x y|b who h bytes|b who h|b who h|b who res b' Hc|b who h target r Hr].
  - pose proof (Broker_connect_spec b net Hrep x y) as H.
    destruct (Broker_connect b x y) as [[[f s]|e|] b1]; simpl; [| |done].
    + destruct H as (_ & _ & _ & H & _). eauto.
    + destruct H as (_ & H & _). eauto.
  - pose proof (Broker_send_refines b net Hrep who h bytes) as H.
    destruct (abs_send _ _ _ _ _) as [net'|e|]; [|rewrite H; eauto|done].
    destruct H as (b1 & -> & H & _). eauto.
  - pose proof (Broker_consume_refines b net Hrep who h) as H.
    destruct (abs_consume _ _ _ _) as [net'|e|]; [|rewrite H; eauto|done].
    destruct H as (b1 & -> & H & _). eauto.
  - pose proof (Broker_close_refines b net Hrep who h) as H.
    destruct (abs_close _ _ _ _) as [[hv' net']|e|]; [|rewrite H; eauto|done].
    destruct H as (b1 & -> & H & _). eauto.
  - destruct (Broker_close_owner_releases b net who Hrep) as (b1 & net1 & Hc' & H & _).
    rewrite Hc' in Hc. injection Hc as _ <-. eauto.
  - pose proof (Broker_transfer_spec b net Hrep who h target r Hr) as H.
    destruct (Broker_transfer b who h target r) as [[tk|e|] b1]; simpl; [| |done].
    + destruct H as (ep & r0 & _ & _ & _ & _ & H & _). eauto.
    + subst. eauto.
Qed.

Lemma broker_reachable_rep b : rtc broker_step Broker_new b -> exists net, Broker_rep b net.
Proof.
  remember Broker_new as b0 eqn:E0. intros Hs.
  assert (H0 : exists net, Broker_rep b0 net) by (subst; eexists; apply Broker_new_rep).
  clear E0. induction Hs as [|b0 b1 b' Hstep _ IH]; [done|].
  apply IH. destruct H0 as [net H0]. by eapply broker_step_rep.
Qed.

(** No channel outlives its last handle. *)
Lemma no_handle_no_channel b net :
  Broker_rep b net -> view (b_handles b) = ∅ -> slots (b_channels b) = [].
Proof.
  intros Hrep Hv. destruct (slots (b_channels b)) as [|c cs] eqn:E; [done|exfalso].
  assert (Hin : c ∈ slots (b_channels b)) by (rewrite E; left).
  apply elem_of_slots in Hin as [i Hi].
  destruct (br_channel _ _ Hrep i c Hi) as [(o0 & o1 & q0 & q1 & _ & H0 & H1 & Ho & _) _].
  assert (Hs : exists ep, is_Some (net !! ep)).
  { unfold boxes in *. destruct (net !! mkEndpoint (c_id c) 0) eqn:E0; [eauto|].
    destruct (net !! mkEndpoint (c_id c) 1) eqn:E1; [eauto|].
    destruct H0 as [-> _], H1 as [-> _]. done. }
  destruct Hs as [ep Hs]. apply (br_token _ _ Hrep) in Hs as (tk & w & r & Ht).
  by rewrite Hv in Ht.
Qed.

Definition two_process_broker : Broker := (Broker_connect Broker_new 1 2).2.
Definition ping : list Z := [1; 0; 1; 0; 3; 0; 0; 0; 7; 0; 0; 0; 0; 0; 0; 0; 0; 0; 0; 0; 0; 0; 0; 0; 65; 66; 67].

Definition two_process_network : network := connected ∅ 1.

Lemma two_process_broker_rep : Broker_rep two_process_broker two_process_network.
Proof.
  pose proof (Broker_connect_spec Broker_new ∅ Broker_new_rep 1 2) as H.
  unfold two_process_broker. destruct (Broker_connect Broker_new 1 2) as [[[f s]|e|] b'] eqn:E; [| |done].
  - apply H.
  - exfalso. vm_compute in E. discriminate.
Qed.

(** [ping] as process 2 receives it, stamped with its sender, and the networks
    with one and with two of them waiting. *)
Definition stamped_ping : outcome IpcError Message := Message_decode ping 1.
Definition ping_network (waiting : nat) : network :=
  match stamped_ping with
  | Ok m => <[mkEndpoint 1 1 := replicate waiting m]> two_process_network
  | _ => two_process_network
  end.

(** C12 (ipc_broker_refines_network): on every broker that represents a network
    of mailboxes, [send], [peek], [consume] and [close] have exactly the effect of
    the abstract operations: a message is appended to the peer's mailbox stamped
    with the caller's identity when the caller holds the write right, the message
    is valid, the peer is open and fewer than two messages wait; reads return the
    oldest message; closing removes the endpoint; every refusal returns the
    abstract error and leaves the broker unchanged.  [close_owner] finishes without
    an error and removes exactly the tokens and the mailboxes the owner held. *)
Theorem ipc_broker_refines_network b net who handle bytes :
  Broker_rep b net ->
  (match abs_send (view (b_handles b)) net who handle bytes with
   | Ok net' => exists b', Broker_send b who handle bytes = (Ok tt, b') /\
                           Broker_rep b' net' /\ b_handles b' = b_handles b
   | Err e => Broker_send b who handle bytes = (Err e, b)
   | Panic => False
   end) /\
  Broker_peek b who handle = abs_peek (view (b_handles b)) net who handle /\
  (match abs_consume (view (b_handles b)) net who handle with
   | Ok net' => exists b', Broker_consume b who handle = (Ok tt, b') /\
                           Broker_rep b' net' /\ b_handles b' = b_handles b
   | Err e => Broker_consume b who handle = (Err e, b)
   | Panic => False
   end) /\
  (match abs_close (view (b_handles b)) net who handle with
   | Ok (hv', net') => exists b', Broker_close b who handle = (Ok tt, b') /\
                                  Broker_rep b' net' /\ view (b_handles b') = hv'
   | Err e => Broker_close b who handle = (Err e, b)
   | Panic => False
   end) /\
  (exists b' net', Broker_close_owner b who = Some (Ok tt, b') /\ Broker_rep b' net' /\
     owner_released (view (b_handles b)) (view (b_handles b')) net net' who).
Proof.
  intros Hrep. split; [by apply Broker_send_refines|]. split; [by apply Broker_peek_refines|].
  split; [by apply Broker_consume_refines|]. split; [by apply Broker_close_refines|].
  by apply Broker_close_owner_releases.
Qed.

(** Process 1 sends; process 2 reads the stamped message, takes it and finds its
    mailbox empty; a third send into a full mailbox is put off; the exit of
    process 1 takes its token away. *)
Lemma ipc_broker_refines_network_witness :
  exists m b1 b2 b3 b4,
    stamped_ping = Ok m /\
    Broker_send two_process_broker 1 1 ping = (Ok tt, b1) /\ Broker_peek b1 2 2 = Ok m /\
    Broker_consume b1 2 2 = (Ok tt, b2) /\ Broker_peek b2 2 2 = Err IpcWouldBlock /\
    Broker_send b1 1 1 ping = (Ok tt, b3) /\ Broker_send b3 1 1 ping = (Err IpcWouldBlock, b3) /\
    Broker_close_owner b3 1 = Some (Ok tt, b4) /\ view (b_handles b4) !! 1 = None.
Proof.
  assert (E1 : abs_send (view (b_handles two_process_broker)) two_process_network 1 1 ping = Ok (ping_network 1)) by (vm_compute; reflexivity).
  assert (E2 : abs_consume (view (b_handles two_process_broker)) (ping_network 1) 2 2 = Ok (ping_network 0)) by (vm_compute; reflexivity).
  assert (E3 : abs_send (view (b_handles two_process_broker)) (ping_network 1) 1 1 ping = Ok (ping_network 2)) by (vm_compute; reflexivity).
  assert (E4 : abs_send (view (b_handles two_process_broker)) (ping_network 2) 1 1 ping = Err IpcWouldBlock) by (vm_compute; reflexivity).
  assert (E5 : abs_peek (view (b_handles two_process_broker)) (ping_network 1) 2 2 = stamped_ping) by (vm_compute; reflexivity).
  assert (E6 : abs_peek (view (b_handles two_process_broker)) (ping_network 0) 2 2 = Err IpcWouldBlock) by (vm_compute; reflexivity).
  assert (E7 : (fun b => b.1.1) <$> (view (b_handles two_process_broker)) !! 1 = Some 1) by (vm_compute; reflexivity).
  destruct (ipc_broker_refines_network _ _ 1 1 ping two_process_broker_rep) as (H & _).
 rewrite E1 in H. destruct H as (b1 & S1 & R1 & V1).
  destruct (ipc_broker_refines_network _ _ 2 2 ping R1) as (_ & P1 & C1 & _).
  destruct (ipc_broker_refines_network _ _ 1 1 ping R1) as (S2 & _).
  rewrite V1 in P1, C1, S2. rewrite E5 in P1. rewrite E2 in C1. rewrite E3 in S2.
  destruct C1 as (b2 & C1 & R2 & V2). destruct S2 as (b3 & S2 & R3 & V3).
  destruct (ipc_broker_refines_network _ _ 2 2 ping R2) as (_ & P2 & _).
  destruct (ipc_broker_refines_network _ _ 1 1 ping R3) as (S3 & _ & _ & _ & b4 & n4 & K4 & _ & O4).
  rewrite V2 in P2. rewrite E6 in P2.
  rewrite V3 in S3, O4. rewrite E4 in S3.
  destruct stamped_ping as [m|e|] eqn:Em; [|vm_compute in Em; discriminate..].
  exists m, b1, b2, b3, b4. repeat (split; [done|]).
  destruct (view (b_handles b4) !! 1) as [bd|] eqn:E; [|done].
  apply (or_tokens _ _ _ _ _ O4) in E as [E Hne]. rewrite E in E7. injection E7 as E7. done.
Defined.

(** connecting two processes adds two empty
    mailboxes of a new channel reached through two fresh tokens, one per process;
    moving an endpoint needs the transfer right, ends the old token and gives the
    target a fresh one with a subset of the rights, leaving every mailbox as it
    was; a refused connection changes neither bindings nor mailboxes. *)
Theorem ipc_connect_and_transfer b net :
  Broker_rep b net ->
  (forall x y,
   match Broker_connect b x y with
   | (Ok (first, second), b') =>
       view (b_handles b) !! first = None /\ view (b_handles b) !! second = None /\
       first <> second /\ Broker_rep b' (connected net (b_next_channel b)) /\
       view (b_handles b') =
         <[second := (y, mkEndpoint (b_next_channel b) 1, IPC_ALL)]>
           (<[first := (x, mkEndpoint (b_next_channel b) 0, IPC_ALL)]> (view (b_handles b)))
   | (Err e, b') => e = IpcQuota /\ Broker_rep b' net /\ view (b_handles b') = view (b_handles b)
   | (Panic, _) => False
   end) /\
  (forall who handle target r, fits 8 r ->
   match Broker_transfer b who handle target r with
   | (Ok token, b') =>
       exists ep r0, view (b_handles b) !! handle = Some (who, ep, r0) /\
         Z.land r0 IPC_TRANSFER <> 0 /\ Z.land r r0 = r /\
         view (b_handles b) !! token = None /\ Broker_rep b' net /\
         view (b_handles b') = <[token := (target, ep, r)]> (delete handle (view (b_handles b)))
   | (Err e, b') => b' = b
   | (Panic, _) => False
   end).
Proof.
  intros Hrep. split.
  - intros x y. by apply Broker_connect_spec.
  - intros who handle target r Hr. by apply Broker_transfer_spec.
Qed.

Lemma ipc_connect_and_transfer_witness :
  view (b_handles Broker_new) !! 1 = None /\ Broker_rep two_process_broker (connected ∅ 1).
Proof.
  pose proof (proj1 (ipc_connect_and_transfer Broker_new ∅ Broker_new_rep) 1 2) as H.
  destruct (Broker_connect Broker_new 1 2) as [[[f s]|e|] b'] eqn:E; [| |done].
  - destruct H as (H1 & _ & _ & H2 & _). split; [by vm_compute|].
    unfold two_process_broker. rewrite E. exact H2.
  - exfalso. vm_compute in E. discriminate.
Defined.

(** The cleanup loop of a dead process always
    finishes, without panicking, and leaves exactly the tokens and mailboxes that
    the process did not own. *)
Theorem ipc_close_owner_terminates b net who :
  Broker_rep b net ->
  exists b' net', Broker_close_owner b who = Some (Ok tt, b') /\ Broker_rep b' net' /\
    owner_released (view (b_handles b)) (view (b_handles b')) net net' who.
Proof. apply Broker_close_owner_releases. Qed.

Lemma ipc_close_owner_terminates_witness :
  exists b' net', Broker_close_owner two_process_broker 1 = Some (Ok tt, b') /\ Broker_rep b' net'.
Proof.
  destruct (ipc_close_owner_terminates two_process_broker _ 1 two_process_broker_rep) as (b' & net' & H1 & H2 & _).
  eauto.
Defined.

(** Whatever sequence of operations a
    broker has been through, none of its operations panics ([expect("live handle
    owns channel")] and the unwraps always succeed), and when no handle is left no
    channel slot is occupied. *)
Theorem ipc_reachable_brokers_are_safe b :
  rtc broker_step Broker_new b ->
  (forall x y, (Broker_connect b x y).1 <> Panic) /\
  (forall who h bytes, (Broker_send b who h bytes).1 <> Panic) /\
  (forall who h, Broker_peek b who h <> Panic) /\
  (forall who h, (Broker_consume b who h).1 <> Panic) /\
  (forall who h, (Broker_close b who h).1 <> Panic) /\
  (forall who h target r, fits 8 r -> (Broker_transfer b who h target r).1 <> Panic) /\
  (Table_count (b_handles b) = 0%nat -> slots (b_channels b) = []).
Proof.
  intros [net Hrep]%broker_reachable_rep. repeat split.
  - intros x y. pose proof (Broker_connect_spec b net Hrep x y) as H.
    by destruct (Broker_connect b x y) as [[[f s]|e|] b1].
  - intros who h bytes. pose proof (Broker_send_refines b net Hrep who h bytes) as H.
    destruct (abs_send _ _ _ _ _) as [net'|e|]; [|by rewrite H|done].
    by destruct H as (b1 & -> & _).
  - intros who h. rewrite (Broker_peek_refines b net Hrep). unfold abs_peek.
    destruct (abs_resolve _ _ _ _) eqn:E; [|done|by apply abs_resolve_total in E].
    by repeat case_match.
  - intros who h. pose proof (Broker_consume_refines b net Hrep who h) as H.
    destruct (abs_consume _ _ _ _) as [net'|e|]; [|by rewrite H|done].
    by destruct H as (b1 & -> & _).
  - intros who h. pose proof (Broker_close_refines b net Hrep who h) as H.
    destruct (abs_close _ _ _ _) as [[hv' net']|e|]; [|by rewrite H|done].
    by destruct H as (b1 & -> & _).
  - intros who h target r Hr. pose proof (Broker_transfer_spec b net Hrep who h target r Hr) as H.
    by destruct (Broker_transfer b who h target r) as [[tk|e|] b1].
  - rewrite (table_count_size _ _ _ (br_handles _ _ Hrep)). intros Hz.
    apply (no_handle_no_channel b net Hrep). by apply map_size_empty_inv.
Qed.

Lemma ipc_reachable_brokers_are_safe_witness :
  (Broker_send two_process_broker 1 1 ping).1 <> Panic.
Proof.
  apply (ipc_reachable_brokers_are_safe two_process_broker).
  apply rtc_once, bstep_connect.
Defined.
