(* ===== verification/Bitmap.v ===== *)
(** * Bitmaps over 64-bit words

    [FrameAllocator] and the per-process heap [Region] both keep page ownership
    in arrays of [u64].  [bit l f] is the bit of page [f]; [set_bit] and
    [clear_bit] are the source's [|= mask] and [&= !mask]. *)
From stdpp Require Import base list option numbers.
From Stdlib Require Import ZArith Lia Bool.
From S2P Require Import Prelude.

Definition word (l : list Z) (i : nat) : Z := default 0 (l !! i).
Definition mask (f : nat) : Z := Z.shiftl 1 (Z.of_nat (f mod 64)).
Definition bit (l : list Z) (f : nat) : bool := Z.testbit (word l (f / 64)) (Z.of_nat (f mod 64)).
(** [l[f / 64] & mask != 0]. *)
Definition masked (l : list Z) (f : nat) : bool := negb (Z.land (word l (f / 64)) (mask f) =? 0).
Definition set_bit (l : list Z) (f : nat) : list Z := <[(f / 64)%nat := Z.lor (word l (f / 64)) (mask f)]> l.
Definition clear_bit (l : list Z) (f : nat) : list Z :=
  <[(f / 64)%nat := Z.land (word l (f / 64)) (unot 64 (mask f))]> l.
Definition words_ok (l : list Z) : Prop := Forall (fits 64) l.
Definition pages (l : list Z) : nat := (64 * length l)%nat.

Lemma mask_testbit f i : 0 <= i -> Z.testbit (mask f) i = (i =? Z.of_nat (f mod 64)).
Proof.
  intros Hi. unfold mask. rewrite Z.shiftl_spec by done.
  destruct (Z.eqb_spec i (Z.of_nat (f mod 64))) as [->|Hne].
  - by rewrite Z.sub_diag.
  - destruct (Z.ltb_spec i (Z.of_nat (f mod 64))).
    + by rewrite Z.testbit_neg_r by lia.
    + change 1 with (2 ^ 0). by rewrite Z.pow2_bits_false by lia.
Qed.

Lemma mod64 f : (f mod 64 < 64)%nat.
Proof. apply Nat.mod_upper_bound. lia. Qed.

Lemma div_mod64 f g : (f / 64 = g / 64 -> f mod 64 = g mod 64 -> f = g)%nat.
Proof.
  intros H1 H2. rewrite (Nat.div_mod_eq f 64), (Nat.div_mod_eq g 64). by rewrite H1, H2.
Qed.

Lemma page_word f l : (f < pages l)%nat <-> (f / 64 < length l)%nat.
Proof.
  unfold pages. split; intros H.
  - apply Nat.Div0.div_lt_upper_bound. done.
  - pose proof (Nat.div_mod_eq f 64). pose proof (mod64 f). nia.
Qed.

Lemma land_mask w f : negb (Z.land w (mask f) =? 0) = Z.testbit w (Z.of_nat (f mod 64)).
Proof.
  destruct (Z.testbit w (Z.of_nat (f mod 64))) eqn:E.
  - destruct (Z.eqb_spec (Z.land w (mask f)) 0) as [H|]; [|done].
    apply (f_equal (fun z => Z.testbit z (Z.of_nat (f mod 64)))) in H.
    rewrite Z.land_spec, mask_testbit, E, Z.eqb_refl, Z.bits_0 in H by lia. done.
  - destruct (Z.eqb_spec (Z.land w (mask f)) 0) as [|H]; [done|].
    exfalso. apply H. apply Z.bits_inj'. intros i Hi.
    rewrite Z.land_spec, mask_testbit, Z.bits_0 by done.
    destruct (Z.eqb_spec i (Z.of_nat (f mod 64))) as [->|]; [by rewrite E|apply andb_false_r].
Qed.

Lemma masked_bit l f : masked l f = bit l f.
Proof. apply land_mask. Qed.

Lemma word_fits l i : words_ok l -> fits 64 (word l i).
Proof.
  intros Hl. unfold word. destruct (l !! i) as [w|] eqn:E; simpl; [|by vm_compute].
  eapply Forall_lookup_1; [exact Hl|exact E].
Qed.

Lemma bit_high l f : (pages l <= f)%nat -> bit l f = false.
Proof.
  intros H. unfold bit, word. rewrite lookup_ge_None_2; [apply Z.bits_0|].
  destruct (decide (f / 64 < length l)%nat) as [Hlt|]; [|lia].
  apply page_word in Hlt. lia.
Qed.

Lemma word_insert l i j w :
  (i < length l)%nat -> word (<[i := w]> l) j = if decide (i = j) then w else word l j.
Proof.
  intros Hi. unfold word. case_decide as E; [subst; by rewrite list_lookup_insert_eq|].
  by rewrite list_lookup_insert_ne.
Qed.

Lemma bit_set_bit l f g : (f < pages l)%nat -> bit (set_bit l f) g = (g =? f)%nat || bit l g.
Proof.
  intros Hf%page_word. unfold bit, set_bit. rewrite word_insert by done. case_decide as E.
  - rewrite Z.lor_spec, mask_testbit by lia. destruct (Nat.eqb_spec g f) as [->|Hne].
    + rewrite Z.eqb_refl. apply orb_true_r.
    + destruct (Z.eqb_spec (Z.of_nat (g mod 64)) (Z.of_nat (f mod 64))) as [Hm|].
      * exfalso. apply Hne. apply div_mod64; lia.
      * rewrite orb_false_r, E. done.
  - destruct (Nat.eqb_spec g f) as [->|]; [congruence|done].
Qed.

Lemma bit_clear_bit l f g :
  (f < pages l)%nat -> bit (clear_bit l f) g = negb (g =? f)%nat && bit l g.
Proof.
  intros Hf%page_word. unfold bit, clear_bit, unot. rewrite word_insert by done. case_decide as E.
  - rewrite Z.land_spec, Z.lxor_spec, mask_testbit, E by lia.
    rewrite Z.ones_spec_low by (pose proof (mod64 g); lia).
    destruct (Nat.eqb_spec g f) as [->|Hne].
    + rewrite Z.eqb_refl. apply andb_false_r.
    + destruct (Z.eqb_spec (Z.of_nat (g mod 64)) (Z.of_nat (f mod 64))) as [Hm|].
      * exfalso. apply Hne. apply div_mod64; lia.
      * apply andb_true_r.
  - destruct (Nat.eqb_spec g f) as [->|]; [congruence|done].
Qed.

Lemma length_set_bit l f : length (set_bit l f) = length l.
Proof. apply length_insert. Qed.
Lemma length_clear_bit l f : length (clear_bit l f) = length l.
Proof. apply length_insert. Qed.
Lemma pages_set_bit l f : pages (set_bit l f) = pages l.
Proof. unfold pages. by rewrite length_set_bit. Qed.
Lemma pages_clear_bit l f : pages (clear_bit l f) = pages l.
Proof. unfold pages. by rewrite length_clear_bit. Qed.

Lemma mask_fits f : fits 64 (mask f).
Proof.
  unfold mask, fits. rewrite Z.shiftl_1_l. split; [by apply Z.pow_nonneg|].
  apply Z.pow_lt_mono_r; pose proof (mod64 f); lia.
Qed.

Lemma fits_testbit w x : 0 <= w -> 0 <= x -> (forall i, w <= i -> Z.testbit x i = false) -> fits w x.
Proof.
  intros Hw Hx Hb. split; [done|]. destruct (Z.eq_dec x 0) as [->|]; [by apply Z.pow_pos_nonneg|].
  destruct (Z.lt_ge_cases x (2 ^ w)) as [|Hge]; [done|exfalso].
  assert (w <= Z.log2 x) by (apply Z.log2_le_pow2; lia).
  specialize (Hb (Z.log2 x) ltac:(done)). rewrite Z.bit_log2 in Hb by lia. done.
Qed.

Lemma fits_high w x i : 0 <= w -> fits w x -> w <= i -> Z.testbit x i = false.
Proof.
  intros Hw Hx Hi. rewrite <- (Z.mod_small x (2 ^ w)) by done. by apply Z.mod_pow2_bits_high.
Qed.

Lemma fits_lor w x y : 0 <= w -> fits w x -> fits w y -> fits w (Z.lor x y).
Proof.
  intros Hw Hx Hy. apply fits_testbit; [done|apply Z.lor_nonneg; split; [apply Hx|apply Hy]|].
  intros i Hi. rewrite Z.lor_spec, !(fits_high w) by done. done.
Qed.

Lemma fits_land w x y : 0 <= w -> fits w x -> 0 <= y -> fits w (Z.land x y).
Proof.
  intros Hw Hx Hy. apply fits_testbit; [done|apply Z.land_nonneg; right; done|].
  intros i Hi. rewrite Z.land_spec, (fits_high w x) by done. done.
Qed.

Lemma unot_nonneg w x : 0 <= w -> 0 <= x -> 0 <= unot w x.
Proof.
  intros Hw Hx. unfold unot. apply Z.lxor_nonneg. split; [|done]. intros _.
  rewrite Z.ones_equiv. pose proof (Z.pow_pos_nonneg 2 w). lia.
Qed.

Lemma words_ok_set_bit l f : words_ok l -> words_ok (set_bit l f).
Proof.
  intros Hl. apply Forall_insert; [done|]. apply fits_lor; [lia|by apply word_fits|apply mask_fits].
Qed.

Lemma words_ok_clear_bit l f : words_ok l -> words_ok (clear_bit l f).
Proof.
  intros Hl. apply Forall_insert; [done|]. apply fits_land; [lia|by apply word_fits|].
  apply unot_nonneg; [lia|apply mask_fits].
Qed.

Lemma bit_zeros n f : bit (replicate n 0) f = false.
Proof.
  unfold bit, word. destruct (replicate n 0 !! (f / 64)%nat) as [w|] eqn:E; [|apply Z.bits_0].
  apply lookup_replicate in E as [-> _]. apply Z.bits_0.
Qed.

(** ** Counting pages with a property *)
Definition tally (p : nat -> bool) (n : nat) : nat := length (List.filter p (seq 0 n)).

Lemma tally_S p n : tally p (S n) = (tally p n + if p n then 1 else 0)%nat.
Proof.
  unfold tally. rewrite seq_S, List.filter_app, length_app. simpl. by destruct (p n).
Qed.

Lemma tally_ext p q n : (forall i, (i < n)%nat -> p i = q i) -> tally p n = tally q n.
Proof.
  induction n as [|n IH]; intros H; [done|]. rewrite !tally_S, IH, (H n) by auto. done.
Qed.

Lemma tally_false p n : (forall i, (i < n)%nat -> p i = false) -> tally p n = 0%nat.
Proof.
  induction n as [|n IH]; intros H; [done|]. rewrite tally_S, IH, (H n) by auto. done.
Qed.

(** Setting one page adds one, when it was not counted before. *)
Lemma tally_add p q n f :
  (f < n)%nat -> p f = false -> (forall i, q i = (i =? f)%nat || p i) -> tally q n = S (tally p n).
Proof.
  intros Hf Hp Hq. revert Hf. induction n as [|n IH]; intros Hf; [lia|].
  rewrite !tally_S, Hq. destruct (Nat.eqb_spec n f) as [->|Hne].
  - rewrite Hp, (tally_ext q p f); [simpl; lia|]. intros i Hi. rewrite Hq.
    by destruct (Nat.eqb_spec i f); [lia|].
  - rewrite IH by lia. simpl. lia.
Qed.

Lemma tally_pos p n : (0 < tally p n)%nat -> exists f, (f < n)%nat /\ p f = true.
Proof.
  induction n as [|n IH]; intros H; [cbn in H; lia|]. rewrite tally_S in H.
  destruct (p n) eqn:E; [eauto|]. destruct IH as (f & Hf & Hp); [lia|]. exists f. split; [lia|done].
Qed.

Lemma tally_le p n : (tally p n <= n)%nat.
Proof. induction n as [|n IH]; [done|]. rewrite tally_S. destruct (p n); lia. Qed.

(** ** Marking a run of pages *)
Definition in_run (first count i : nat) : bool := (first <=? i)%nat && (i <? first + count)%nat.

Lemma in_run_iff first count i : in_run first count i = true <-> (first <= i < first + count)%nat.
Proof. unfold in_run. rewrite andb_true_iff, Nat.leb_le, Nat.ltb_lt. done. Qed.

Lemma bit_set_run l first count g :
  (first + count <= pages l)%nat ->
  bit (foldl set_bit l (seq first count)) g = in_run first count g || bit l g /\
  pages (foldl set_bit l (seq first count)) = pages l /\
  (words_ok l -> words_ok (foldl set_bit l (seq first count))).
Proof.
  revert l first. induction count as [|count IH]; intros l first H; simpl.
  - unfold in_run. split; [|done]. destruct (Nat.leb_spec first g), (Nat.ltb_spec g (first + 0)); simpl; done || lia.
  - destruct (IH (set_bit l first) (S first)) as (Hb & Hp & Hw); [rewrite pages_set_bit; lia|].
    rewrite Hb, Hp, pages_set_bit, bit_set_bit by lia. split; [|split; [done|]].
    + unfold in_run. destruct (Nat.eqb_spec g first), (Nat.leb_spec first g), (Nat.leb_spec (S first) g),
        (Nat.ltb_spec g (first + S count)), (Nat.ltb_spec g (S first + count)); simpl; done || lia.
    + intros Hl. by apply Hw, words_ok_set_bit.
Qed.

Lemma bit_clear_run l first count g :
  (first + count <= pages l)%nat ->
  bit (foldl clear_bit l (seq first count)) g = negb (in_run first count g) && bit l g /\
  pages (foldl clear_bit l (seq first count)) = pages l /\
  (words_ok l -> words_ok (foldl clear_bit l (seq first count))).
Proof.
  revert l first. induction count as [|count IH]; intros l first H; simpl.
  - unfold in_run. split; [|done]. destruct (Nat.leb_spec first g), (Nat.ltb_spec g (first + 0)); simpl; done || lia.
  - destruct (IH (clear_bit l first) (S first)) as (Hb & Hp & Hw); [rewrite pages_clear_bit; lia|].
    rewrite Hb, Hp, pages_clear_bit, bit_clear_bit by lia. split; [|split; [done|]].
    + unfold in_run. destruct (Nat.eqb_spec g first), (Nat.leb_spec first g), (Nat.leb_spec (S first) g),
        (Nat.ltb_spec g (first + S count)), (Nat.ltb_spec g (S first + count)); simpl; done || lia.
    + intros Hl. by apply Hw, words_ok_clear_bit.
Qed.

(** A run outside [p] adds its length to the count. *)
Lemma tally_run p q first count n :
  (first + count <= n)%nat ->
  (forall i, in_run first count i = true -> p i = false) ->
  (forall i, q i = in_run first count i || p i) -> tally q n = (count + tally p n)%nat.
Proof.
  revert q. induction count as [|count IH]; intros q Hn Hp Hq.
  - apply tally_ext. intros i _. rewrite Hq. unfold in_run.
    destruct (Nat.leb_spec first i), (Nat.ltb_spec i (first + 0)); simpl; done || lia.
  - rewrite (tally_add (fun i => in_run first count i || p i) q n (first + count)).
    + rewrite (IH (fun i => in_run first count i || p i)); [lia|lia| |done].
      intros i Hi. apply Hp. apply in_run_iff in Hi. apply in_run_iff. lia.
    + lia.
    + rewrite (Hp (first + count)%nat) by (apply in_run_iff; lia).
      destruct (in_run first count (first + count)) eqn:E; [|done]. apply in_run_iff in E. lia.
    + intros i. rewrite Hq. unfold in_run.
      destruct (Nat.eqb_spec i (first + count)), (Nat.leb_spec first i), (Nat.ltb_spec i (first + S count)),
        (Nat.ltb_spec i (first + count)); simpl; done || lia.
Qed.
