(* ===== verification/Boot.v ===== *)
(** * Boot information (kernel/src/boot/region.rs, map.rs, mode.rs)

    Physical regions, validation of the firmware memory map and selection of the
    boot mode. *)
From stdpp Require Import base list option numbers strings.
From Stdlib Require Import ZArith Lia Bool Ascii.
From S2P Require Import Prelude.

(** ** Regions *)
Record MemoryRegion := mkRegion { region_start : Z; region_end : Z }.

Inductive RegionError := RegionEmpty | AddressOverflow.

Definition MemoryRegion_new (start length : Z) : outcome RegionError MemoryRegion :=
  if length =? 0 then Err RegionEmpty
  else match checked_add start length with
       | Some e => Ok (mkRegion start e)
       | None => Err AddressOverflow
       end.

Definition MemoryRegion_contains (r : MemoryRegion) (address : Z) : bool :=
  (region_start r <=? address) && (address <? region_end r).

Definition MemoryRegion_overlaps (r other : MemoryRegion) : bool :=
  (region_start r <? region_end other) && (region_start other <? region_end r).

(** ** Memory maps *)
Record MapSummary := mkSummary { map_entries : Z; usable_bytes : Z }.
Inductive MapError := InvalidRange | UnorderedOrOverlapping | TooManyEntries | NoUsableMemory.

(** The [for] loop over (base, length, usable), with its three variables. *)
Fixpoint validate_map_loop (entries : list (Z * Z * bool)) (s : MapSummary) (previous_end : Z) :
    outcome MapError MapSummary :=
  match entries with
  | [] => Ok s
  | (base, len, usable) :: entries =>
    if map_entries s =? 4096 then Err TooManyEntries
    else match MemoryRegion_new base len with
    | Ok region =>
      if base <? previous_end then Err UnorderedOrOverlapping
      else if usable then
        match checked_add (usable_bytes s) len with
        | None => Err InvalidRange
        | Some total => validate_map_loop entries (mkSummary (map_entries s + 1) total) (region_end region)
        end
      else validate_map_loop entries (mkSummary (map_entries s + 1) (usable_bytes s)) (region_end region)
    | Err _ => Err InvalidRange
    | Panic => Panic
    end
  end.

Definition validate_map (entries : list (Z * Z * bool)) : outcome MapError MapSummary :=
  let? s := validate_map_loop entries (mkSummary 0 0) 0 in
  if usable_bytes s =? 0 then Err NoUsableMemory else Ok s.

(** What a valid map is: non-empty regions in address order without overlap. *)
Fixpoint sorted_regions (from : Z) (entries : list (Z * Z * bool)) : Prop :=
  match entries with
  | [] => True
  | (base, len, _) :: entries =>
    from <= base /\ 0 < len /\ base + len <= u64_max /\ sorted_regions (base + len) entries
  end.

Definition usable_total (entries : list (Z * Z * bool)) : Z :=
  foldr (fun '(_, len, usable) acc => if (usable : bool) then len + acc else acc) 0 entries.

Definition map_fits (entries : list (Z * Z * bool)) : Prop :=
  Forall (fun '(base, len, _) => fits 64 base /\ fits 64 len) entries.

Lemma validate_map_loop_iff entries n used from s :
  map_fits entries -> 0 <= used <= from -> from <= u64_max -> 0 <= n <= 4096 ->
  validate_map_loop entries (mkSummary n used) from = Ok s <->
  sorted_regions from entries /\ n + Z.of_nat (length entries) <= 4096 /\
  s = mkSummary (n + Z.of_nat (length entries)) (used + usable_total entries).
Proof.
  revert n used from. induction entries as [|[[base len] usable] entries IH];
    intros n used from Hf Hu Hm Hn; simpl.
  { rewrite !Z.add_0_r. split; [intros [= <-]; auto with lia|]. by intros (_ & _ & ->). }
  apply Forall_cons_1 in Hf as [Hbl Hf']. destruct Hbl as [Hb Hl]. unfold fits in Hb, Hl.
  destruct (Z.eqb_spec n 4096) as [->|Hne].
  { split; [done|]. intros (_ & H & _). lia. }
  unfold MemoryRegion_new. destruct (Z.eqb_spec len 0) as [->|Hlen].
  { split; [done|]. intros [(_ & H & _) _]. lia. }
  destruct (checked_add base len) as [e|] eqn:Ec.
  2:{ apply checked_add_None in Ec. split; [done|]. intros [(_ & _ & H & _) _]. lia. }
  apply checked_add_Some in Ec as [-> He]. simpl.
  destruct (Z.ltb_spec base from).
  { split; [done|]. intros [(Hx & _) _]. lia. }
  assert (Hc : n + Z.of_nat (S (length entries)) = n + 1 + Z.of_nat (length entries)) by lia.
  rewrite Hc. destruct usable.
  - destruct (checked_add used len) as [t|] eqn:Et.
    2:{ apply checked_add_None in Et. lia. }
    apply checked_add_Some in Et as [-> Ht]. rewrite IH, Z.add_assoc by (done || lia).
    intuition lia.
  - rewrite IH by (done || lia). intuition lia.
Qed.

Lemma sorted_regions_weaken from from' entries :
  from' <= from -> sorted_regions from entries -> sorted_regions from' entries.
Proof. destruct entries as [|[[b l] u] es]; simpl; [done|]. intuition lia. Qed.

Lemma validate_map_Ok_iff entries s :
  map_fits entries ->
  validate_map entries = Ok s <->
  sorted_regions 0 entries /\ Z.of_nat (length entries) <= 4096 /\ 0 < usable_total entries /\
  s = mkSummary (Z.of_nat (length entries)) (usable_total entries).
Proof.
  intros Hf. unfold validate_map.
  assert (Hloop : forall s, validate_map_loop entries (mkSummary 0 0) 0 = Ok s <->
    sorted_regions 0 entries /\ Z.of_nat (length entries) <= 4096 /\
    s = mkSummary (Z.of_nat (length entries)) (usable_total entries)).
  { intros s'. rewrite validate_map_loop_iff by (done || unfold u64_max; lia).
    by rewrite !Z.add_0_l. }
  assert (Hnn : sorted_regions 0 entries -> 0 <= usable_total entries).
  { clear. generalize 0 at 1. induction entries as [|[[b l] u] es IH]; simpl; [lia|].
    intros f (_ & Hl & _ & Hs). specialize (IH _ Hs). destruct u; lia. }
  destruct (validate_map_loop entries (mkSummary 0 0) 0) as [s'|e|].
  - destruct (proj1 (Hloop s') eq_refl) as (Hs & Hc & ->). simpl.
    destruct (Z.eqb_spec (usable_total entries) 0) as [Hz|Hz].
    + split; [done|]. intros (_ & _ & H & _). lia.
    + specialize (Hnn Hs). split.
      * intros [= <-]. auto with lia.
      * by intros (_ & _ & _ & ->).
  - split; [done|]. intros (Hs & Hc & _ & _).
    enough (H : Err e = Ok (mkSummary (Z.of_nat (length entries)) (usable_total entries))) by done.
    by apply Hloop.
  - split; [done|]. intros (Hs & Hc & _ & _).
    enough (H : @Panic MapError MapSummary = Ok (mkSummary (Z.of_nat (length entries)) (usable_total entries))) by done.
    by apply Hloop.
Qed.

(** [validate_map] accepts a firmware map
    exactly when its regions are non-empty, do not wrap, are in address order
    without overlap, number at most 4096 and contain usable memory; the summary
    then counts the entries and the usable bytes, and its checked sum cannot
    overflow. *)
Theorem validate_map_characterized entries s :
  map_fits entries ->
  validate_map entries = Ok s <->
  sorted_regions 0 entries /\ Z.of_nat (length entries) <= 4096 /\ 0 < usable_total entries /\
  s = mkSummary (Z.of_nat (length entries)) (usable_total entries).
Proof. apply validate_map_Ok_iff. Qed.

Lemma validate_map_characterized_witness :
  validate_map [(0, 4096, false); (4096, 8192, true)] = Ok (mkSummary 2 8192).
Proof.
  apply (validate_map_characterized [(0, 4096, false); (4096, 8192, true)]).
  - unfold map_fits, fits. repeat apply Forall_cons_2; simpl; auto; lia.
  - repeat split; simpl; unfold u64_max; lia.
Defined.

(** ** Boot mode *)
Inductive BootMode :=
| ModeOk | Terminal | TerminalInit | TerminalV7 | ModePanic | Hang | Exception | GeneralProtection
| DoubleFault | TimerStall | MemoryReadOnly | MemoryNx | MemoryUnmapped | MemoryTextAlias
| MemoryGuard | BlockPersist | BlockReadOnly | BlockError | BlockTimeout | BlockMissing
| BlockUser | BlockUserFaults.

(** A byte-string literal. *)
Definition ascii_bytes (s : string) : list Z :=
  (fun a => Z.of_N (N_of_ascii a)) <$> String.list_ascii_of_string s.

(** The arms of the [match], in order. *)
Definition boot_modes : list (string * BootMode) :=
  [ ("mode=terminal", Terminal); ("mode=terminal-init", TerminalInit);
    ("mode=terminal-test", TerminalInit); ("mode=recovery-test", TerminalInit);
    ("mode=terminal-v7", TerminalV7); ("mode=ok", ModeOk); ("mode=panic", ModePanic);
    ("mode=hang", Hang); ("mode=exception", Exception); ("mode=gp", GeneralProtection);
    ("mode=doublefault", DoubleFault); ("mode=timer-stall", TimerStall);
    ("mode=memory-ro", MemoryReadOnly); ("mode=memory-nx", MemoryNx);
    ("mode=memory-unmapped", MemoryUnmapped); ("mode=memory-text-alias", MemoryTextAlias);
    ("mode=memory-guard", MemoryGuard); ("mode=block-persist", BlockPersist);
    ("mode=block-readonly", BlockReadOnly); ("mode=block-error", BlockError);
    ("mode=block-timeout", BlockTimeout); ("mode=block-missing", BlockMissing);
    ("mode=block-user", BlockUser); ("mode=block-user-faults", BlockUserFaults) ]%string.

Definition BootMode_parse (input : list Z) : option BootMode :=
  snd <$> List.find (fun '(text, _) => bool_decide (input = ascii_bytes text)) boot_modes.
