(* ===== verification/Frames.v ===== *)
(** * Physical frames (kernel/src/memory)

    Page policy ([page.rs]) and the bitmap frame allocator ([frames.rs]).  The
    allocator is related to the sets of managed and of allocated frames; its
    counters are the cardinalities of those sets. *)
From stdpp Require Import base list option numbers.
From Stdlib Require Import ZArith Lia Bool.
From S2P Require Import Prelude Bitmap Boot.

(** ** Pages *)
Definition PAGE_SIZE : Z := 4096.

Definition canonical (address : Z) : bool :=
  (address <=? 0x00007fffffffffff) || (0xffff800000000000 <=? address).

Definition VirtualPage_new (address : Z) : option Z :=
  if (PAGE_SIZE <=? address) && (address <? Z.shiftl 1 47) && (address mod PAGE_SIZE =? 0)
  then Some address else None.

Record PagePermissions := mkPermissions { writable : bool; executable : bool; user : bool }.
Definition READ_ONLY : PagePermissions := mkPermissions false false false.
Definition READ_WRITE : PagePermissions := mkPermissions true false false.
Definition CODE : PagePermissions := mkPermissions false true false.
Definition PagePermissions_valid (p : PagePermissions) : bool := negb (writable p && executable p).

(** ** The allocator *)
Inductive FrameError :=
| InvalidMap | InvalidStorage | AddressLimit | FrameInvalidRange
| NotManaged | NotAllocated | InUse | Exhausted.

Record FrameAllocator := mkFrames {
  f_managed : list Z;
  f_allocated : list Z;
  f_free : nat;
  f_total : nat;
  f_cursor : nat;
}.

Definition FrameAllocator_new (managed allocated : list Z) : outcome FrameError FrameAllocator :=
  if (length managed =? 0)%nat || negb (length managed =? length allocated)%nat then Err InvalidStorage
  else Ok (mkFrames (replicate (length managed) 0) (replicate (length allocated) 0) 0 0 0).

(** [first..last] as frame numbers. *)
Definition frame_range (first last : Z) : list nat :=
  seq (Z.to_nat first) (Z.to_nat last - Z.to_nat first).

Definition address_limit (fa : FrameAllocator) : Z := Z.of_nat (length (f_managed fa)) * 64 * PAGE_SIZE.

Definition import_frame (fa : FrameAllocator) (frame : nat) : FrameAllocator :=
  mkFrames (set_bit (f_managed fa) frame) (f_allocated fa) (f_free fa + 1) (f_total fa + 1) (f_cursor fa).

Definition import_entry (fa : FrameAllocator) (e : Z * Z * bool) : FrameAllocator :=
  let '(start, len, usable) := e in
  if negb usable then fa
  else foldl import_frame fa (frame_range (div_ceil start PAGE_SIZE) ((start + len) / PAGE_SIZE)).

Definition FrameAllocator_import (fa : FrameAllocator) (entries : list (Z * Z * bool)) :
    outcome FrameError unit * FrameAllocator :=
  if negb (f_total fa =? 0)%nat then (Err InUse, fa)
  else match validate_map entries with
  | Err _ => (Err InvalidMap, fa)
  | Panic => (Panic, fa)
  | Ok _ =>
    let limit := address_limit fa in
    if existsb (fun '(start, len, usable) =>
         usable && match checked_add start len with None => true | Some e => limit <? e end) entries
    then (Err AddressLimit, fa)
    else (Ok tt, foldl import_entry fa entries)
  end.

Definition reserve_frame (fa : FrameAllocator) (frame : nat) : FrameAllocator :=
  if masked (f_managed fa) frame
  then mkFrames (clear_bit (f_managed fa) frame) (f_allocated fa) (f_free fa - 1) (f_total fa - 1) (f_cursor fa)
  else fa.

Definition FrameAllocator_reserve (fa : FrameAllocator) (start len : Z) :
    outcome FrameError unit * FrameAllocator :=
  match (if len =? 0 then None else checked_add start len) with
  | None => (Err FrameInvalidRange, fa)
  | Some e =>
    let first := start / PAGE_SIZE in
    let last := Z.min (div_ceil e PAGE_SIZE) (Z.of_nat (length (f_managed fa)) * 64) in
    let frames := frame_range first last in
    if existsb (masked (f_allocated fa)) frames then (Err InUse, fa)
    else (Ok tt, foldl reserve_frame fa frames)
  end.

(** [u64::trailing_zeros]. *)
Definition trailing_zeros (w : Z) : nat :=
  default 64%nat (List.find (fun i => Z.testbit w (Z.of_nat i)) (seq 0 64)).

Definition available (fa : FrameAllocator) (index : nat) : Z :=
  Z.land (word (f_managed fa) index) (unot 64 (word (f_allocated fa) index)).

Definition FrameAllocator_allocate (fa : FrameAllocator) : outcome FrameError Z * FrameAllocator :=
  if (f_free fa =? 0)%nat then (Err Exhausted, fa)
  else
    let n := length (f_managed fa) in
    match List.find (fun offset => negb (available fa ((f_cursor fa + offset) mod n) =? 0)) (seq 0 n) with
    | None => (Err Exhausted, fa)
    | Some offset =>
      let index := ((f_cursor fa + offset) mod n)%nat in
      let b := trailing_zeros (available fa index) in
      (Ok ((Z.of_nat index * 64 + Z.of_nat b) * PAGE_SIZE),
       mkFrames (f_managed fa)
         (<[index := Z.lor (word (f_allocated fa) index) (Z.shiftl 1 (Z.of_nat b))]> (f_allocated fa))
         (f_free fa - 1) (f_total fa) index)
    end.

(** The frame of an aligned address inside the bitmaps. *)
Definition FrameAllocator_locate (fa : FrameAllocator) (address : Z) : outcome FrameError nat :=
  if negb (address mod PAGE_SIZE =? 0) then Err FrameInvalidRange
  else
    let frame := address / PAGE_SIZE in
    if Z.of_nat (length (f_managed fa)) * 64 <=? frame then Err AddressLimit
    else Ok (Z.to_nat frame).

Definition FrameAllocator_release (fa : FrameAllocator) (address : Z) :
    outcome FrameError unit * FrameAllocator :=
  match FrameAllocator_locate fa address with
  | Ok frame =>
    if negb (masked (f_managed fa) frame) then (Err NotManaged, fa)
    else if negb (masked (f_allocated fa) frame) then (Err NotAllocated, fa)
    else (Ok tt, mkFrames (f_managed fa) (clear_bit (f_allocated fa) frame)
                   (f_free fa + 1) (f_total fa) (frame / 64))
  | Err e => (Err e, fa)
  | Panic => (Panic, fa)
  end.

(** [managed[frame / 64] & !allocated[frame / 64] & mask != 0]. *)
Definition frame_free (fa : FrameAllocator) (frame : nat) : bool :=
  negb (Z.land (available fa (frame / 64)) (mask frame) =? 0).

(** The scan with its [run] counter: the first frame of the run it finds. *)
Fixpoint contiguous_scan (fa : FrameAllocator) (count : nat) (frames : list nat) (run : nat) : option nat :=
  match frames with
  | [] => None
  | frame :: frames =>
    if frame_free fa frame then
      if (run + 1 =? count)%nat then Some (frame + 1 - count)%nat
      else contiguous_scan fa count frames (run + 1)
    else contiguous_scan fa count frames 0
  end.

Definition FrameAllocator_allocate_contiguous_bounded (fa : FrameAllocator) (count maximum : nat) :
    outcome FrameError Z * FrameAllocator :=
  if (count =? 0)%nat || (maximum <? count)%nat || (128 <? maximum)%nat then (Err FrameInvalidRange, fa)
  else match contiguous_scan fa count (seq 0 (length (f_managed fa) * 64)) 0 with
  | None => (Err Exhausted, fa)
  | Some first =>
    (Ok (Z.of_nat first * PAGE_SIZE),
     mkFrames (f_managed fa) (foldl set_bit (f_allocated fa) (seq first count))
       (f_free fa - count) (f_total fa) (f_cursor fa))
  end.

Definition FrameAllocator_allocate_contiguous (fa : FrameAllocator) (count : nat) :=
  FrameAllocator_allocate_contiguous_bounded fa count 4.

Definition FrameAllocator_is_allocated (fa : FrameAllocator) (address : Z) : bool :=
  match FrameAllocator_locate fa address with
  | Ok frame => masked (f_allocated fa) frame
  | _ => false
  end.

(** ** Invariant *)
Definition is_managed (fa : FrameAllocator) (f : nat) : bool := bit (f_managed fa) f.
Definition is_used (fa : FrameAllocator) (f : nat) : bool := bit (f_allocated fa) f.
Definition is_free (fa : FrameAllocator) (f : nat) : bool := is_managed fa f && negb (is_used fa f).

Record Frames_wf (fa : FrameAllocator) : Prop := {
  fw_words : words_ok (f_managed fa) /\ words_ok (f_allocated fa);
  fw_length : length (f_allocated fa) = length (f_managed fa);
  fw_cursor : (f_cursor fa < length (f_managed fa))%nat;
  fw_subset : forall f, is_used fa f = true -> is_managed fa f = true;
  fw_free : f_free fa = tally (is_free fa) (pages (f_managed fa));
  fw_total : f_total fa = tally (is_managed fa) (pages (f_managed fa));
}.

(** ** Bits of the allocator *)
Lemma available_testbit fa i k :
  (k < 64)%nat ->
  Z.testbit (available fa i) (Z.of_nat k) =
  Z.testbit (word (f_managed fa) i) (Z.of_nat k) && negb (Z.testbit (word (f_allocated fa) i) (Z.of_nat k)).
Proof.
  intros Hk. unfold available, unot. rewrite Z.land_spec, Z.lxor_spec, Z.ones_spec_low by lia.
  by rewrite xorb_true_r.
Qed.

Lemma frame_free_is_free fa f : frame_free fa f = is_free fa f.
Proof.
  unfold frame_free. rewrite land_mask, available_testbit by apply mod64. done.
Qed.

Lemma trailing_zeros_spec w :
  fits 64 w -> w <> 0 ->
  (trailing_zeros w < 64)%nat /\ Z.testbit w (Z.of_nat (trailing_zeros w)) = true.
Proof.
  intros Hf Hw. unfold trailing_zeros. destruct (List.find _ _) as [k|] eqn:E; simpl.
  - apply List.find_some in E as [Hin Hb]. apply in_seq in Hin. split; [lia|done].
  - exfalso. apply Hw. apply Z.bits_inj'. intros i Hi. rewrite Z.bits_0.
    destruct (Z.lt_ge_cases i 64); [|by apply (fits_high 64)].
    eapply List.find_none in E; [|apply (in_seq 64 0 (Z.to_nat i)); lia].
    by rewrite Z2Nat.id in E by done.
Qed.

Lemma available_fits fa i : Frames_wf fa -> fits 64 (available fa i).
Proof.
  intros Hwf. destruct (fw_words _ Hwf). apply fits_land; [lia|by apply word_fits|].
  apply unot_nonneg; [lia|by apply word_fits].
Qed.

(** Frame [64 * i + k] is bit [k] of word [i]. *)
Lemma frame_split i k : (k < 64)%nat -> ((i * 64 + k) / 64 = i /\ (i * 64 + k) mod 64 = k)%nat.
Proof.
  intros Hk. rewrite (Nat.add_comm (i * 64)). rewrite Nat.div_add, Nat.Div0.mod_add by lia.
  rewrite Nat.div_small, Nat.mod_small by lia. lia.
Qed.

Lemma is_free_split fa i k :
  (k < 64)%nat -> is_free fa (i * 64 + k) = Z.testbit (available fa i) (Z.of_nat k).
Proof.
  intros Hk. destruct (frame_split i k Hk) as [Hd Hm].
  rewrite available_testbit by done. unfold is_free, is_managed, is_used, bit. by rewrite Hd, Hm.
Qed.

Lemma is_free_bound fa f : is_free fa f = true -> (f < pages (f_managed fa))%nat.
Proof.
  intros H. destruct (decide (f < pages (f_managed fa))%nat) as [|Hge]; [done|].
  unfold is_free, is_managed in H. rewrite bit_high in H by lia. done.
Qed.

Lemma is_used_bound fa f : Frames_wf fa -> is_used fa f = true -> (f < pages (f_managed fa))%nat.
Proof.
  intros Hwf H. apply (fw_subset _ Hwf) in H.
  destruct (decide (f < pages (f_managed fa))%nat) as [|Hge]; [done|].
  unfold is_managed in H. rewrite bit_high in H by lia. done.
Qed.

Lemma pages_allocated fa : Frames_wf fa -> pages (f_allocated fa) = pages (f_managed fa).
Proof. intros Hwf. unfold pages. by rewrite (fw_length _ Hwf). Qed.

(** Taking a run of free frames. *)
Lemma use_run_wf fa first count cursor :
  Frames_wf fa -> (0 < count)%nat -> (cursor < length (f_managed fa))%nat ->
  (forall i, in_run first count i = true -> is_free fa i = true) ->
  let fa' := mkFrames (f_managed fa) (foldl set_bit (f_allocated fa) (seq first count))
               (f_free fa - count) (f_total fa) cursor in
  Frames_wf fa' /\ (count <= f_free fa)%nat /\
  (forall g, is_used fa' g = in_run first count g || is_used fa g) /\
  (forall g, is_free fa g = in_run first count g || is_free fa' g).
Proof.
  intros Hwf Hc Hcur Hfree fa'.
  assert (Hend : (first + count <= pages (f_allocated fa))%nat).
  { rewrite pages_allocated by done.
    assert (is_free fa (first + count - 1) = true) as H%is_free_bound by (apply Hfree, in_run_iff; lia).
    lia. }
  pose proof (fun g => bit_set_run (f_allocated fa) first count g Hend) as Hrun.
  assert (Hu : forall g, is_used fa' g = in_run first count g || is_used fa g) by apply Hrun.
  assert (Hf : forall g, is_free fa g = in_run first count g || is_free fa' g).
  { intros g. unfold is_free at 2. rewrite Hu. change (is_managed fa' g) with (is_managed fa g).
    destruct (in_run first count g) eqn:E; [by rewrite (Hfree g E)|]. done. }
  assert (Htally : tally (is_free fa) (pages (f_managed fa)) =
                   (count + tally (is_free fa') (pages (f_managed fa)))%nat).
  { apply (tally_run _ _ first); [by rewrite <- pages_allocated| |done].
    intros i Hi. unfold is_free. rewrite Hu, Hi. apply andb_false_r. }
  assert (Hle : (count <= f_free fa)%nat) by (rewrite (fw_free _ Hwf); lia).
  split; [|done]. destruct (fw_words _ Hwf) as [Hm Ha]. destruct (Hrun 0%nat) as (_ & Hp & Hw).
  split; simpl.
  - auto.
  - unfold pages in Hp. rewrite <- (fw_length _ Hwf). lia.
  - done.
  - intros f. rewrite Hu. intros [H|H]%orb_true_iff; [|by apply (fw_subset _ Hwf)].
    apply Hfree in H. unfold is_free in H. by apply andb_true_iff in H as [H _].
  - rewrite (fw_free _ Hwf), Htally. lia.
  - apply (fw_total _ Hwf).
Qed.

Definition allocate_contract (fa : FrameAllocator) (res : outcome FrameError Z * FrameAllocator) : Prop :=
  match res with
  | (Ok address, fa') =>
      exists f, address = Z.of_nat f * PAGE_SIZE /\ is_free fa f = true /\ Frames_wf fa' /\
        f_managed fa' = f_managed fa /\ (forall g, is_used fa' g = (g =? f)%nat || is_used fa g) /\
        f_free fa = S (f_free fa') /\ f_total fa' = f_total fa
  | (Err Exhausted, fa') => fa' = fa /\ forall f, is_free fa f = false
  | _ => False
  end.

Lemma in_run_one f g : in_run f 1 g = (g =? f)%nat.
Proof.
  unfold in_run. destruct (Nat.leb_spec f g), (Nat.ltb_spec g (f + 1)), (Nat.eqb_spec g f); done || lia.
Qed.

Lemma wf_nonempty fa : Frames_wf fa -> (0 < length (f_managed fa))%nat.
Proof. intros Hwf. pose proof (fw_cursor _ Hwf). lia. Qed.

Lemma allocate_meets_contract fa :
  Frames_wf fa -> allocate_contract fa (FrameAllocator_allocate fa).
Proof.
  intros Hwf. unfold FrameAllocator_allocate, allocate_contract.
  pose proof (wf_nonempty fa Hwf) as Hne. set (n := length (f_managed fa)) in *.
  destruct (Nat.eqb_spec (f_free fa) 0) as [Hz|Hz].
  { split; [done|]. intros f. destruct (is_free fa f) eqn:E; [|done]. exfalso.
    pose proof (is_free_bound fa f E) as Hb. rewrite (fw_free _ Hwf) in Hz.
    assert (Ht : tally (is_free fa) (pages (f_managed fa)) =
                 S (tally (fun i => negb (i =? f)%nat && is_free fa i) (pages (f_managed fa)))).
    { apply (tally_add _ _ _ f); [done|by rewrite Nat.eqb_refl|].
      intros i. destruct (Nat.eqb_spec i f) as [->|]; [by rewrite E|done]. }
    lia. }
  destruct (List.find _ _) as [offset|] eqn:E.
  - apply List.find_some in E as [_ Hav]. apply negb_true_iff, Z.eqb_neq in Hav.
    set (index := ((f_cursor fa + offset) mod n)%nat) in *.
    destruct (trailing_zeros_spec _ (available_fits fa index Hwf) Hav) as [Hb Hbit].
    set (b := trailing_zeros (available fa index)) in *.
    destruct (frame_split index b Hb) as [Hd Hm].
    assert (Hidx : (index < length (f_managed fa))%nat) by (apply Nat.mod_upper_bound; lia).
    assert (Hfr : is_free fa (index * 64 + b) = true) by (by rewrite is_free_split).
    assert (Hset : <[index := Z.lor (word (f_allocated fa) index) (Z.shiftl 1 (Z.of_nat b))]> (f_allocated fa)
                   = foldl set_bit (f_allocated fa) (seq (index * 64 + b) 1)).
    { simpl. unfold set_bit, mask. by rewrite Hd, Hm. }
    rewrite Hset.
    destruct (use_run_wf fa (index * 64 + b) 1 index Hwf) as (Hwf' & Hle & Hu & _); [lia|done| |].
    { intros i Hi. rewrite in_run_one in Hi. by apply Nat.eqb_eq in Hi as ->. }
    exists (index * 64 + b)%nat. split; [f_equal; lia|]. split; [done|]. split; [done|].
    split; [done|]. split; [intros g; by rewrite Hu, in_run_one|]. simpl. split; [lia|done].
  - assert (Hfree : (0 < tally (is_free fa) (pages (f_managed fa)))%nat) by (rewrite <- (fw_free _ Hwf); lia).
    apply tally_pos in Hfree as (f & Hf & Hfr). exfalso.
    assert (Hi : (f / 64 < n)%nat) by (by apply page_word in Hf).
    pose proof (fw_cursor _ Hwf) as Hcur. fold n in Hcur.
    eapply List.find_none in E; [|apply (in_seq n 0 ((f / 64 + (n - f_cursor fa)) mod n)); split;
      [lia|apply Nat.mod_upper_bound; lia]].
    apply negb_false_iff, Z.eqb_eq in E.
    rewrite Nat.Div0.add_mod_idemp_r in E.
    replace (f_cursor fa + (f / 64 + (n - f_cursor fa)))%nat with (f / 64 + 1 * n)%nat in E by lia.
    rewrite Nat.Div0.mod_add, Nat.mod_small in E by done.
    rewrite (Nat.div_mod_eq f 64), Nat.mul_comm, is_free_split, E, Z.bits_0 in Hfr by apply mod64. done.
Qed.

(** ** Release *)
Definition release_contract (fa : FrameAllocator) (address : Z) (res : outcome FrameError unit * FrameAllocator) : Prop :=
  let f := Z.to_nat (address / PAGE_SIZE) in
  match res with
  | (Ok _, fa') =>
      address = Z.of_nat f * PAGE_SIZE /\ is_used fa f = true /\ Frames_wf fa' /\
      f_managed fa' = f_managed fa /\ (forall g, is_used fa' g = negb (g =? f)%nat && is_used fa g) /\
      f_free fa' = S (f_free fa) /\ f_total fa' = f_total fa
  | (Err FrameInvalidRange, fa') => fa' = fa /\ address mod PAGE_SIZE <> 0
  | (Err AddressLimit, fa') => fa' = fa /\ address mod PAGE_SIZE = 0 /\ address_limit fa <= address
  | (Err NotManaged, fa') => fa' = fa /\ address mod PAGE_SIZE = 0 /\ address < address_limit fa /\ is_managed fa f = false
  | (Err NotAllocated, fa') => fa' = fa /\ is_managed fa f = true /\ is_used fa f = false
  | _ => False
  end.

Lemma page_of_address address : address mod PAGE_SIZE = 0 -> address = address / PAGE_SIZE * PAGE_SIZE.
Proof. intros H. pose proof (Z.div_mod address PAGE_SIZE ltac:(done)). lia. Qed.

Lemma release_wf fa f :
  Frames_wf fa -> is_used fa f = true ->
  let fa' := mkFrames (f_managed fa) (clear_bit (f_allocated fa) f) (f_free fa + 1) (f_total fa) (f / 64) in
  Frames_wf fa' /\ forall g, is_used fa' g = negb (g =? f)%nat && is_used fa g.
Proof.
  intros Hwf Hu fa'. pose proof (is_used_bound fa f Hwf Hu) as Hb.
  assert (Hbit : forall g, is_used fa' g = negb (g =? f)%nat && is_used fa g)
    by (intros g; apply bit_clear_bit; by rewrite pages_allocated).
  split; [|done]. destruct (fw_words _ Hwf) as [Hm Ha]. split; simpl.
  - auto using words_ok_clear_bit.
  - rewrite length_clear_bit. apply (fw_length _ Hwf).
  - by apply page_word.
  - intros g. rewrite Hbit. intros [_ H]%andb_true_iff. by apply (fw_subset _ Hwf).
  - rewrite (tally_add (is_free fa) _ _ f); [rewrite (fw_free _ Hwf); lia|done| |].
    + unfold is_free. by rewrite Hu, andb_false_r.
    + intros g. unfold is_free. rewrite Hbit. change (is_managed fa' g) with (is_managed fa g).
      destruct (Nat.eqb_spec g f) as [->|]; [by rewrite (fw_subset _ Hwf f Hu)|done].
  - apply (fw_total _ Hwf).
Qed.

Lemma release_meets_contract fa address :
  Frames_wf fa -> 0 <= address -> release_contract fa address (FrameAllocator_release fa address).
Proof.
  intros Hwf Hpos. unfold FrameAllocator_release, FrameAllocator_locate, release_contract, address_limit.
  destruct (Z.eqb_spec (address mod PAGE_SIZE) 0) as [Hal|Hal]; simpl; [|done].
  pose proof (page_of_address address Hal) as Hpg.
  assert (Hq : 0 <= address / PAGE_SIZE) by (by apply Z.div_pos).
  destruct (Z.leb_spec (Z.of_nat (length (f_managed fa)) * 64) (address / PAGE_SIZE)) as [Hlim|Hlim].
  { split; [done|]. split; [done|]. rewrite Hpg. unfold PAGE_SIZE in *. nia. }
  rewrite !masked_bit. set (f := Z.to_nat (address / PAGE_SIZE)).
  fold (is_managed fa f) (is_used fa f).
  destruct (is_managed fa f) eqn:Em; simpl.
  2:{ repeat split; try done. rewrite Hpg. unfold PAGE_SIZE in *. nia. }
  destruct (is_used fa f) eqn:Eu; simpl; [|done].
  destruct (release_wf fa f Hwf Eu) as [Hwf' Hbits].
  split; [unfold f; by rewrite Z2Nat.id|]. repeat (split; [done|]). simpl. split; [lia|done].
Qed.

(** ** Contiguous runs *)
Definition free_run (fa : FrameAllocator) (first count : nat) : Prop :=
  forall i, in_run first count i = true -> is_free fa i = true.

(** The scan keeps [run] free frames behind it and has refuted every earlier run. *)
Lemma contiguous_scan_spec fa count n start run :
  (0 < count)%nat -> (run < count)%nat -> (run <= start)%nat -> free_run fa (start - run) run ->
  (forall first, (first + count <= start)%nat -> ~ free_run fa first count) ->
  (forall first, (first < start - run)%nat -> ~ free_run fa first count) ->
  match contiguous_scan fa count (seq start n) run with
  | Some first => (first + count <= start + n)%nat /\ free_run fa first count /\
                  forall g, (g < first)%nat -> ~ free_run fa g count
  | None => forall first, (first + count <= start + n)%nat -> ~ free_run fa first count
  end.
Proof.
  revert start run. induction n as [|n IH]; intros start run Hc Hr Hle Hrun Hpast Hlow; simpl.
  { intros first Hf. apply Hpast. lia. }
  rewrite frame_free_is_free. destruct (is_free fa start) eqn:E.
  - assert (Hrun' : free_run fa (S start - (run + 1)) (run + 1)).
    { intros i Hi. apply in_run_iff in Hi. destruct (decide (i = start)) as [->|]; [done|].
      apply Hrun, in_run_iff. lia. }
    destruct (Nat.eqb_spec (run + 1) count) as [Hdone|Hmore].
    + replace (start + 1 - count)%nat with (start - run)%nat by lia.
      replace (S start - (run + 1))%nat with (start - run)%nat in Hrun' by lia.
      rewrite Hdone in Hrun'. split; [lia|]. split; [done|]. exact Hlow.
    + replace (start + S n)%nat with (S start + n)%nat by lia. apply IH; try lia; [done| |].
      * intros first Hf Hx. destruct (decide (first + count <= start)%nat) as [Hp|Hp]; [by apply (Hpast first)|].
        apply (Hlow first); [lia|done].
      * intros first Hf. apply Hlow. lia.
  - assert (Hno : forall first, (first <= start < first + count)%nat -> ~ free_run fa first count).
    { intros first Hf Hx. specialize (Hx start). rewrite in_run_iff in Hx. rewrite Hx in E by lia. done. }
    replace (start + S n)%nat with (S start + n)%nat by lia. apply IH; try lia.
    + intros i Hi. apply in_run_iff in Hi. lia.
    + intros first Hf. destruct (decide (first + count <= start)%nat); [by apply Hpast|apply Hno; lia].
    + intros first Hf. destruct (decide (first + count <= start)%nat); [by apply Hpast|apply Hno; lia].
Qed.

Definition contiguous_contract (fa : FrameAllocator) (count maximum : nat)
    (res : outcome FrameError Z * FrameAllocator) : Prop :=
  match res with
  | (Ok address, fa') =>
      exists first, address = Z.of_nat first * PAGE_SIZE /\ free_run fa first count /\
        (forall g, (g < first)%nat -> ~ free_run fa g count) /\ Frames_wf fa' /\
        f_managed fa' = f_managed fa /\ (forall g, is_used fa' g = in_run first count g || is_used fa g) /\
        (f_free fa = count + f_free fa')%nat /\ f_total fa' = f_total fa
  | (Err FrameInvalidRange, fa') => fa' = fa /\ (count = 0%nat \/ (maximum < count)%nat \/ (128 < maximum)%nat)
  | (Err Exhausted, fa') => fa' = fa /\ forall first, ~ free_run fa first count
  | _ => False
  end.

Lemma contiguous_meets_contract fa count maximum :
  Frames_wf fa ->
  contiguous_contract fa count maximum (FrameAllocator_allocate_contiguous_bounded fa count maximum).
Proof.
  intros Hwf. unfold FrameAllocator_allocate_contiguous_bounded, contiguous_contract.
  destruct (Nat.eqb_spec count 0) as [|Hc]; [simpl; auto|].
  destruct (Nat.ltb_spec maximum count) as [|Hm]; [simpl; auto|].
  destruct (Nat.ltb_spec 128 maximum) as [|Hx]; [simpl; auto|]. simpl orb. cbv iota.
  assert (Hscan := contiguous_scan_spec fa count (length (f_managed fa) * 64) 0 0).
  destruct (contiguous_scan _ _ _ _) as [first|].
  - destruct Hscan as (Hend & Hrun & Hlow); [lia|lia|lia| | | |].
    1: intros i Hi%in_run_iff; lia.
    1,2: intros g Hg; lia.
    destruct (use_run_wf fa first count (f_cursor fa) Hwf) as (Hwf' & Hle & Hu & _);
      [lia|apply (fw_cursor _ Hwf)|done|].
    exists first. repeat (split; [done|]). simpl. split; [lia|done].
  - split; [done|]. intros first Hrun. apply (Hscan ltac:(lia) ltac:(lia) ltac:(lia)) with first; [|lia|lia| |done].
    + intros i Hi%in_run_iff. lia.
    + assert (Hl : is_free fa (first + count - 1) = true) by (apply Hrun, in_run_iff; lia).
      apply is_free_bound in Hl. unfold pages in Hl. lia.
Qed.

(** ** Ranges of frames *)
Lemma elem_of_frame_range first last f :
  0 <= first -> f ∈ frame_range first last <-> first <= Z.of_nat f < last.
Proof. intros Hf. unfold frame_range. rewrite elem_of_seq. lia. Qed.

Lemma div_ceil_le a b n : 0 < b -> div_ceil a b <= n <-> a <= n * b.
Proof.
  intros Hb. unfold div_ceil. split; intros H.
  - pose proof (Z.mul_succ_div_gt (a + b - 1) b Hb). nia.
  - enough ((a + b - 1) / b < n + 1) by lia. apply Z.div_lt_upper_bound; lia.
Qed.

(** Frames that lie wholly inside, or that touch, a range of bytes. *)
Definition frame_inside (start len : Z) (f : nat) : Prop :=
  start <= Z.of_nat f * PAGE_SIZE /\ Z.of_nat f * PAGE_SIZE + PAGE_SIZE <= start + len.
Definition frame_touches (start len : Z) (f : nat) : Prop :=
  Z.of_nat f * PAGE_SIZE < start + len /\ start < Z.of_nat f * PAGE_SIZE + PAGE_SIZE.

Lemma inside_range start len f :
  0 <= start ->
  f ∈ frame_range (div_ceil start PAGE_SIZE) ((start + len) / PAGE_SIZE) <-> frame_inside start len f.
Proof.
  intros Hs. rewrite elem_of_frame_range by (apply Z.div_pos; unfold PAGE_SIZE; lia).
  rewrite div_ceil_le by done. unfold frame_inside.
  enough (Z.of_nat f < (start + len) / PAGE_SIZE <-> Z.of_nat f * PAGE_SIZE + PAGE_SIZE <= start + len) by tauto.
  pose proof (Z.div_mod (start + len) PAGE_SIZE ltac:(done)).
  pose proof (Z.mod_pos_bound (start + len) PAGE_SIZE ltac:(done)). unfold PAGE_SIZE in *. lia.
Qed.

Lemma touches_range start len limit f :
  0 <= start ->
  f ∈ frame_range (start / PAGE_SIZE) (Z.min (div_ceil (start + len) PAGE_SIZE) limit) <->
  frame_touches start len f /\ Z.of_nat f < limit.
Proof.
  intros Hs. rewrite elem_of_frame_range by (by apply Z.div_pos).
  rewrite Z.min_glb_lt_iff. unfold frame_touches.
  assert (H1 : Z.of_nat f < div_ceil (start + len) PAGE_SIZE <-> Z.of_nat f * PAGE_SIZE < start + len).
  { rewrite !Z.lt_nge, div_ceil_le by done. done. }
  assert (H2 : start / PAGE_SIZE <= Z.of_nat f <-> start < Z.of_nat f * PAGE_SIZE + PAGE_SIZE).
  { split; intros H.
    - pose proof (Z.mul_succ_div_gt start PAGE_SIZE ltac:(done)). unfold PAGE_SIZE in *. nia.
    - enough (start / PAGE_SIZE < Z.of_nat f + 1) by lia. apply Z.div_lt_upper_bound; [done|lia]. }
  tauto.
Qed.

(** ** Import *)
Lemma import_frame_wf fa f :
  Frames_wf fa -> (f < pages (f_managed fa))%nat -> is_managed fa f = false ->
  Frames_wf (import_frame fa f) /\ forall g, is_managed (import_frame fa f) g = (g =? f)%nat || is_managed fa g.
Proof.
  intros Hwf Hb Hm. assert (Hbit : forall g, is_managed (import_frame fa f) g = (g =? f)%nat || is_managed fa g)
    by (intros g; by apply bit_set_bit).
  split; [|done]. destruct (fw_words _ Hwf) as [Hwm Hwa].
  assert (Hunused : is_used fa f = false).
  { destruct (is_used fa f) eqn:E; [|done]. apply (fw_subset _ Hwf) in E. congruence. }
  split; simpl.
  - auto using words_ok_set_bit.
  - rewrite length_set_bit. apply (fw_length _ Hwf).
  - rewrite length_set_bit. apply (fw_cursor _ Hwf).
  - intros g Hg. rewrite Hbit, orb_true_iff. right. by apply (fw_subset _ Hwf).
  - rewrite pages_set_bit, (tally_add (is_free fa) _ _ f); [rewrite (fw_free _ Hwf); lia|done| |].
    + unfold is_free. by rewrite Hm.
    + intros g. unfold is_free. rewrite Hbit. change (is_used (import_frame fa f) g) with (is_used fa g).
      destruct (Nat.eqb_spec g f) as [->|]; [by rewrite Hunused|done].
  - rewrite pages_set_bit, (tally_add (is_managed fa) _ _ f); [rewrite (fw_total _ Hwf); lia|done..].
Qed.

Lemma import_frames_spec frames fa :
  Frames_wf fa -> NoDup frames ->
  (forall f, f ∈ frames -> (f < pages (f_managed fa))%nat /\ is_managed fa f = false) ->
  let fa' := foldl import_frame fa frames in
  Frames_wf fa' /\ pages (f_managed fa') = pages (f_managed fa) /\ f_allocated fa' = f_allocated fa /\
  forall g, is_managed fa' g = true <-> g ∈ frames \/ is_managed fa g = true.
Proof.
  revert fa. induction frames as [|f frames IH]; intros fa Hwf Hnd Hfr fa'; simpl in fa'.
  { subst fa'. do 3 (split; [done|]). intros g. split; [by right|].
    intros [H|]; [by apply elem_of_nil in H|done]. }
  apply list.NoDup_cons in Hnd as [Hni Hnd]. destruct (Hfr f) as [Hb Hm]; [by left|].
  destruct (import_frame_wf fa f Hwf Hb Hm) as [Hwf1 Hbit].
  destruct (IH (import_frame fa f)) as (Hwf' & Hp & Ha & Hg); [done|done| |].
  { intros g Hgin. destruct (Hfr g) as [Hbg Hmg]; [by right|]. split; [by simpl; rewrite pages_set_bit|].
    rewrite Hbit, Hmg, orb_false_r. apply Nat.eqb_neq. by intros ->. }
  split; [done|]. split; [etrans; [exact Hp|apply pages_set_bit]|]. split; [done|].
  intros g. etrans; [apply Hg|]. rewrite Hbit, elem_of_cons, orb_true_iff, Nat.eqb_eq. tauto.
Qed.

(** A frame is usable when one usable region contains it. *)
Definition usable_frame (entries : list (Z * Z * bool)) (f : nat) : Prop :=
  exists start len, (start, len, true) ∈ entries /\ frame_inside start len f.

Lemma usable_frame_cons e entries f :
  usable_frame (e :: entries) f <->
  (let '(start, len, usable) := e in usable = true /\ frame_inside start len f) \/ usable_frame entries f.
Proof.
  destruct e as [[s l] u]. unfold usable_frame. split.
  - intros (s' & l' & [[= <- <- <-]|H]%elem_of_cons & Hin); [by left|]. right. eauto.
  - intros [[-> H]|(s' & l' & H & Hin)]; [exists s, l|exists s', l']; split; try done; [by left|by right].
Qed.

Lemma import_entries_spec entries fa from :
  Frames_wf fa -> 0 <= from -> sorted_regions from entries ->
  (forall f, is_managed fa f = true -> Z.of_nat f * PAGE_SIZE < from) ->
  (forall s l, (s, l, true) ∈ entries -> s + l <= address_limit fa) ->
  let fa' := foldl import_entry fa entries in
  Frames_wf fa' /\ f_allocated fa' = f_allocated fa /\
  forall g, is_managed fa' g = true <-> usable_frame entries g \/ is_managed fa g = true.
Proof.
  revert fa from. induction entries as [|[[s l] u] entries IH]; intros fa from Hwf Hfrom Hsort Hlow Hlim.
  { simpl. split; [done|]. split; [done|]. intros g. split; [by right|].
    intros [(? & ? & H & _)|]; [by apply elem_of_nil in H|done]. }
  simpl in Hsort. destruct Hsort as (Hs & Hl & Hmax & Hsort). cbn [foldl].
  destruct u; simpl import_entry.
  2:{ destruct (IH fa (s + l)) as (Hwf' & Ha & Hg); [done|lia|done| | |].
      - intros f Hf. apply Hlow in Hf. lia.
      - intros s' l' H. apply (Hlim s' l'). by right.
      - split; [done|]. split; [done|]. intros g. rewrite Hg, usable_frame_cons.
        split; [tauto|]. by intros [[[? _]|]|]; [|left|right]. }
  assert (Hsl : s + l <= address_limit fa) by (apply (Hlim s l); by left).
  destruct (import_frames_spec (frame_range (div_ceil s PAGE_SIZE) ((s + l) / PAGE_SIZE)) fa)
    as (Hwf1 & Hp & Ha1 & Hg1); [done|apply NoDup_seq| |].
  { intros f [Hf1 Hf2]%inside_range; [|lia]. unfold address_limit, pages, PAGE_SIZE in *. split; [lia|].
    destruct (is_managed fa f) eqn:E; [|done]. apply Hlow in E. lia. }
  set (fa1 := foldl import_frame fa _) in *.
  destruct (IH fa1 (s + l)) as (Hwf' & Ha & Hg); [done|lia|done| | |].
  { intros f [Hf|Hf]%Hg1; [|apply Hlow in Hf; lia]. apply inside_range in Hf as [_ Hf]; [|lia].
    unfold PAGE_SIZE in *. lia. }
  { intros s' l' H. unfold address_limit in *. unfold pages in Hp.
    replace (length (f_managed fa1)) with (length (f_managed fa)) by lia. apply (Hlim s' l'). by right. }
  split; [done|]. split; [congruence|]. intros g.
  rewrite Hg, Hg1, usable_frame_cons, inside_range by lia. tauto.
Qed.

Definition import_contract (fa : FrameAllocator) (entries : list (Z * Z * bool))
    (res : outcome FrameError unit * FrameAllocator) : Prop :=
  match res with
  | (Ok _, fa') => Frames_wf fa' /\ f_allocated fa' = f_allocated fa /\
      (forall g, is_managed fa' g = true <-> usable_frame entries g) /\
      (forall s l, (s, l, true) ∈ entries -> s + l <= address_limit fa)
  | (Err InUse, fa') => fa' = fa /\ exists f, is_managed fa f = true
  | (Err InvalidMap, fa') => fa' = fa /\ forall s, validate_map entries <> Ok s
  | (Err AddressLimit, fa') => fa' = fa /\ exists s l, (s, l, true) ∈ entries /\ address_limit fa < s + l
  | _ => False
  end.

Lemma wf_no_managed fa : Frames_wf fa -> f_total fa = 0%nat -> forall f, is_managed fa f = false.
Proof.
  intros Hwf H0 f. destruct (is_managed fa f) eqn:E; [|done]. exfalso.
  destruct (decide (f < pages (f_managed fa))%nat) as [Hlt|Hge].
  - assert (tally (is_managed fa) (pages (f_managed fa)) =
            S (tally (fun i => negb (i =? f)%nat && is_managed fa i) (pages (f_managed fa)))) as Ht.
    { apply (tally_add _ _ _ f); [done|by rewrite Nat.eqb_refl|].
      intros i. by destruct (Nat.eqb_spec i f) as [->|]; [rewrite E|]. }
    rewrite <- (fw_total _ Hwf) in Ht. lia.
  - unfold is_managed in E. rewrite bit_high in E by lia. done.
Qed.

Lemma validate_map_no_panic_loop entries s from : validate_map_loop entries s from <> Panic.
Proof.
  revert s from. induction entries as [|[[b l] u] es IH]; intros s from; simpl; [done|].
  unfold MemoryRegion_new. repeat case_match; simplify_eq; try done; apply IH.
Qed.

Lemma import_meets_contract fa entries :
  Frames_wf fa -> map_fits entries -> import_contract fa entries (FrameAllocator_import fa entries).
Proof.
  intros Hwf Hfits. unfold FrameAllocator_import, import_contract.
  destruct (Nat.eqb_spec (f_total fa) 0) as [H0|H0]; simpl.
  2:{ split; [done|]. rewrite (fw_total _ Hwf) in H0.
      destruct (tally_pos (is_managed fa) (pages (f_managed fa))) as (f & _ & Hf); [lia|]. by exists f. }
  destruct (validate_map entries) as [s|e|] eqn:Ev; [| |].
  2:{ split; [done|]. done. }
  2:{ unfold validate_map in Ev. pose proof (validate_map_no_panic_loop entries (mkSummary 0 0) 0).
      destruct (validate_map_loop _ _ _); simpl in Ev; repeat case_match; congruence. }
  apply validate_map_Ok_iff in Ev as (Hsort & _ & _ & _); [|done].
  destruct (existsb _ entries) eqn:Ex.
  - split; [done|]. apply existsb_exists in Ex as ([[s' l'] u] & Hin & [-> Hov]%andb_true_iff).
    exists s', l'. apply list_elem_of_In in Hin. split; [done|].
    assert (Hle : s' + l' <= u64_max).
    { clear -Hsort Hin. revert Hsort. generalize 0 as from. induction entries as [|[[b l] u] es IH]; intros from.
      - by apply elem_of_nil in Hin.
      - simpl. intros (_ & _ & Hm & Hs). apply elem_of_cons in Hin as [[= <- <- <-]|Hin]; [done|by eapply IH]. }
    destruct (checked_add s' l') as [e|] eqn:Ec; [|apply checked_add_None in Ec; lia].
    apply checked_add_Some in Ec as [-> _]. by apply Z.ltb_lt in Hov.
  - assert (Hlim : forall s l, (s, l, true) ∈ entries -> s + l <= address_limit fa).
    { intros s' l' Hin%list_elem_of_In. rewrite <- not_true_iff_false, existsb_exists in Ex.
      destruct (Z.le_gt_cases (s' + l') (address_limit fa)) as [|Hgt]; [done|]. exfalso. apply Ex.
      exists (s', l', true). split; [done|]. simpl. destruct (checked_add s' l') as [e|] eqn:Ec; [|done].
      apply checked_add_Some in Ec as [-> _]. by apply Z.ltb_lt. }
    pose proof (wf_no_managed fa Hwf H0) as Hnone.
    destruct (import_entries_spec entries fa 0) as (Hwf' & Ha & Hg); try done.
    { intros f Hf. by rewrite Hnone in Hf. }
    repeat (split; [done|]). split; [|done]. intros g. rewrite Hg, Hnone. intuition done.
Qed.

(** ** Reservation *)
Lemma reserve_frame_wf fa f :
  Frames_wf fa -> is_used fa f = false ->
  Frames_wf (reserve_frame fa f) /\
  forall g, is_managed (reserve_frame fa f) g = negb (g =? f)%nat && is_managed fa g.
Proof.
  intros Hwf Hu. unfold reserve_frame. rewrite masked_bit. fold (is_managed fa f).
  destruct (is_managed fa f) eqn:Em.
  2:{ split; [done|]. intros g. by destruct (Nat.eqb_spec g f) as [->|]. }
  set (fa' := mkFrames _ _ _ _ _).
  assert (Hb : (f < pages (f_managed fa))%nat)
    by (apply is_free_bound; unfold is_free; by rewrite Em, Hu).
  assert (Hbit : forall g, is_managed fa' g = negb (g =? f)%nat && is_managed fa g)
    by (intros g; by apply bit_clear_bit).
  split; [|done]. destruct (fw_words _ Hwf) as [Hwm Hwa].
  assert (Hfree : tally (is_free fa) (pages (f_managed fa)) = S (tally (is_free fa') (pages (f_managed fa)))).
  { apply (tally_add _ _ _ f); [done| |].
    - unfold is_free. by rewrite Hbit, Nat.eqb_refl.
    - intros g. unfold is_free. rewrite Hbit. change (is_used fa' g) with (is_used fa g).
      by destruct (Nat.eqb_spec g f) as [->|]; [rewrite Em, Hu|]. }
  assert (Htot : tally (is_managed fa) (pages (f_managed fa)) = S (tally (is_managed fa') (pages (f_managed fa)))).
  { apply (tally_add _ _ _ f); [done| |].
    - by rewrite Hbit, Nat.eqb_refl.
    - intros g. rewrite Hbit. by destruct (Nat.eqb_spec g f) as [->|]. }
  split.
  - simpl. auto using words_ok_clear_bit.
  - simpl. rewrite length_clear_bit. apply (fw_length _ Hwf).
  - simpl. rewrite length_clear_bit. apply (fw_cursor _ Hwf).
  - intros g Hg. change (is_used fa' g) with (is_used fa g) in Hg.
    rewrite Hbit, (fw_subset _ Hwf g Hg), andb_true_r.
    destruct (Nat.eqb_spec g f) as [->|]; [congruence|done].
  - simpl. rewrite pages_clear_bit, (fw_free _ Hwf). lia.
  - simpl. rewrite pages_clear_bit, (fw_total _ Hwf). lia.
Qed.

Lemma reserve_frame_allocated fa f : f_allocated (reserve_frame fa f) = f_allocated fa.
Proof. unfold reserve_frame. by destruct (masked _ _). Qed.

Lemma reserve_frames_spec frames fa :
  Frames_wf fa -> (forall f, f ∈ frames -> is_used fa f = false) ->
  let fa' := foldl reserve_frame fa frames in
  Frames_wf fa' /\ f_allocated fa' = f_allocated fa /\
  forall g, is_managed fa' g = true <-> (g ∉ frames) /\ is_managed fa g = true.
Proof.
  revert fa. induction frames as [|f frames IH]; intros fa Hwf Hu; simpl.
  { do 2 (split; [done|]). intros g. rewrite elem_of_nil. tauto. }
  destruct (reserve_frame_wf fa f Hwf) as [Hwf1 Hbit]; [apply Hu; by left|].
  destruct (IH (reserve_frame fa f) Hwf1) as (Hwf' & Ha & Hg).
  { intros g Hgin. unfold is_used. rewrite reserve_frame_allocated. apply Hu. by right. }
  split; [done|]. split; [by rewrite Ha, reserve_frame_allocated|].
  intros g. rewrite Hg, Hbit, andb_true_iff, negb_true_iff, Nat.eqb_neq, elem_of_cons. tauto.
Qed.

Definition reserve_contract (fa : FrameAllocator) (start len : Z)
    (res : outcome FrameError unit * FrameAllocator) : Prop :=
  match res with
  | (Ok _, fa') => Frames_wf fa' /\ f_allocated fa' = f_allocated fa /\
      (forall g, is_managed fa' g = true <-> ~ frame_touches start len g /\ is_managed fa g = true) /\
      (forall g, frame_touches start len g -> is_used fa g = false)
  | (Err FrameInvalidRange, fa') => fa' = fa /\ (len = 0 \/ u64_max < start + len)
  | (Err InUse, fa') => fa' = fa /\ exists f, frame_touches start len f /\ is_used fa f = true
  | _ => False
  end.

Lemma reserve_meets_contract fa start len :
  Frames_wf fa -> fits 64 start -> reserve_contract fa start len (FrameAllocator_reserve fa start len).
Proof.
  intros Hwf [Hs _]. unfold FrameAllocator_reserve, reserve_contract.
  destruct (Z.eqb_spec len 0) as [->|Hlen]; [split; auto|].
  destruct (checked_add start len) as [e|] eqn:Ec; [|apply checked_add_None in Ec; auto].
  apply checked_add_Some in Ec as [-> _].
  pose proof (touches_range start len (Z.of_nat (length (f_managed fa)) * 64)) as Hin.
  set (frames := frame_range _ _) in *.
  assert (Hbound : forall f, is_managed fa f = true -> Z.of_nat f < Z.of_nat (length (f_managed fa)) * 64).
  { intros f Hf. destruct (decide (f < pages (f_managed fa))%nat) as [|Hge]; [unfold pages in *; lia|].
    unfold is_managed in Hf. rewrite bit_high in Hf by lia. done. }
  destruct (existsb _ frames) eqn:Ex.
  - split; [done|]. apply existsb_exists in Ex as (f & Hf & Hm). rewrite masked_bit in Hm.
    apply list_elem_of_In, Hin in Hf as [Hf _]; [|done]. by exists f.
  - assert (Hunused : forall f, f ∈ frames -> is_used fa f = false).
    { intros f Hf. rewrite <- not_true_iff_false in *. rewrite existsb_exists in Ex. intros Hu. apply Ex.
      exists f. rewrite masked_bit. by rewrite <- list_elem_of_In. }
    destruct (reserve_frames_spec frames fa Hwf Hunused) as (Hwf' & Ha & Hg).
    do 2 (split; [done|]). split.
    + intros g. rewrite Hg. split; intros [H1 H2]; split; try done.
      * intros Ht. apply H1, Hin; auto.
      * intros Hx%Hin; [|done]. by destruct Hx.
    + intros g Ht. destruct (is_used fa g) eqn:Eu; [|done]. rewrite <- Eu.
      apply Hunused, Hin; [done|]. split; [done|]. by apply Hbound, (fw_subset _ Hwf).
Qed.

(** ** Creation *)
Lemma new_wf managed allocated fa :
  FrameAllocator_new managed allocated = Ok fa ->
  Frames_wf fa /\ length (f_managed fa) = length managed /\
  (forall f, is_managed fa f = false) /\ (forall f, is_used fa f = false).
Proof.
  unfold FrameAllocator_new. destruct (Nat.eqb_spec (length managed) 0) as [|Hne]; [done|].
  destruct (Nat.eqb_spec (length managed) (length allocated)) as [Heq|]; [|done]. simpl. intros [= <-].
  assert (Hz : forall n f, bit (replicate n 0) f = false) by apply bit_zeros.
  assert (Hw : forall n, words_ok (replicate n 0)) by (intros n; by apply Forall_replicate).
  split; [|simpl; rewrite length_replicate; split; [done|]; split; intros f; apply Hz].
  split; simpl; rewrite ?length_replicate; auto with lia.
  - intros f. unfold is_used. simpl. by rewrite Hz.
  - rewrite tally_false; [done|]. intros i _. unfold is_free, is_managed. simpl. by rewrite Hz.
  - rewrite tally_false; [done|]. intros i _. unfold is_managed. simpl. by rewrite Hz.
Qed.

(** ** Properties *)

(** One call on an allocator. *)
Inductive frame_call :=
| CallImport (entries : list (Z * Z * bool))
| CallReserve (start len : Z)
| CallAllocate
| CallContiguous (count maximum : nat)
| CallRelease (address : Z).

Definition frame_call_ok (c : frame_call) : Prop :=
  match c with
  | CallImport entries => map_fits entries
  | CallReserve start _ => fits 64 start
  | CallRelease address => 0 <= address
  | _ => True
  end.

Definition frame_state (c : frame_call) (fa : FrameAllocator) : FrameAllocator :=
  match c with
  | CallImport entries => snd (FrameAllocator_import fa entries)
  | CallReserve start len => snd (FrameAllocator_reserve fa start len)
  | CallAllocate => snd (FrameAllocator_allocate fa)
  | CallContiguous count maximum => snd (FrameAllocator_allocate_contiguous_bounded fa count maximum)
  | CallRelease address => snd (FrameAllocator_release fa address)
  end.

Lemma contract_wf (c : frame_call) fa :
  Frames_wf fa -> frame_call_ok c -> Frames_wf (frame_state c fa).
Proof.
  intros Hwf Hok. destruct c as [entries|start len| |count maximum|address]; simpl in *.
  - pose proof (import_meets_contract fa entries Hwf Hok) as H. destruct (FrameAllocator_import fa entries) as [[[]|[]|] fa'];
      simpl in *; by intuition subst.
  - pose proof (reserve_meets_contract fa start len Hwf Hok) as H. destruct (FrameAllocator_reserve fa start len) as [[[]|[]|] fa'];
      simpl in *; by intuition subst.
  - pose proof (allocate_meets_contract fa Hwf) as H. destruct (FrameAllocator_allocate fa) as [[a|[]|] fa'];
      simpl in *; try (by intuition subst). by destruct H as (f & _ & _ & H & _).
  - pose proof (contiguous_meets_contract fa count maximum Hwf) as H.
    destruct (FrameAllocator_allocate_contiguous_bounded fa count maximum) as [[a|[]|] fa'];
      simpl in *; try (by intuition subst). by destruct H as (f & _ & _ & _ & H & _).
  - pose proof (release_meets_contract fa address Hwf Hok) as H. destruct (FrameAllocator_release fa address) as [[[]|[]|] fa'];
      simpl in *; by intuition subst.
Qed.

Lemma frame_states_wf calls fa :
  Frames_wf fa -> Forall frame_call_ok calls -> Frames_wf (foldl (fun fa c => frame_state c fa) fa calls).
Proof.
  revert fa. induction calls as [|c calls IH]; intros fa Hwf Hok; [done|].
  apply Forall_cons_1 in Hok as [Hc Hok]. simpl. apply IH; [by apply contract_wf|done].
Qed.

(** C27 (frame_allocator_refines_sets): from [FrameAllocator::new] every sequence
    of import, reserve, allocate, allocate_contiguous_bounded and release calls
    keeps the allocator well formed (allocated frames are managed and both
    counters are the exact numbers of free and of managed frames), and in each
    such state each call meets its contract over the sets of managed and used
    frames: import manages exactly the whole pages of usable regions, reserve
    removes exactly the pages the range touches and refuses when one of them is
    allocated, allocate takes one free frame and is exhausted only when there is
    none, a contiguous allocation takes the lowest free run, release frees
    exactly its frame; every error leaves the allocator as it was. *)
Theorem frame_allocator_refines_sets managed allocated fa0 calls :
  FrameAllocator_new managed allocated = Ok fa0 -> Forall frame_call_ok calls ->
  let fa := foldl (fun fa c => frame_state c fa) fa0 calls in
  Frames_wf fa /\ allocate_contract fa (FrameAllocator_allocate fa) /\
  (forall count maximum,
     contiguous_contract fa count maximum (FrameAllocator_allocate_contiguous_bounded fa count maximum)) /\
  (forall address, 0 <= address -> release_contract fa address (FrameAllocator_release fa address)) /\
  (forall start len, fits 64 start -> reserve_contract fa start len (FrameAllocator_reserve fa start len)) /\
  (forall entries, map_fits entries -> import_contract fa entries (FrameAllocator_import fa entries)).
Proof.
  intros Hnew Hcalls fa. destruct (new_wf _ _ _ Hnew) as [Hwf0 _].
  assert (Hwf : Frames_wf fa) by (by apply frame_states_wf).
  split; [done|]. split; [by apply allocate_meets_contract|].
  auto using contiguous_meets_contract, release_meets_contract, reserve_meets_contract, import_meets_contract.
Qed.

Lemma frame_allocator_refines_sets_witness :
  let fa0 := mkFrames [0] [0] 0 0 0 in
  let fa := foldl (fun fa c => frame_state c fa) fa0
              [CallImport [(0, 4096, false); (4096, 65536, true)]; CallReserve 8192 1; CallAllocate;
               CallContiguous 4 4; CallRelease 4096] in
  Frames_wf fa /\ fst (FrameAllocator_release fa 12288) = Ok tt.
Proof.
  intros fa0 fa.
  destruct (frame_allocator_refines_sets [7] [9] fa0
              [CallImport [(0, 4096, false); (4096, 65536, true)]; CallReserve 8192 1; CallAllocate;
               CallContiguous 4 4; CallRelease 4096]) as [Hwf _].
  - reflexivity.
  - repeat apply Forall_cons_2; simpl; unfold map_fits, fits; try lia; try done.
  - split; [exact Hwf|]. by vm_compute.
Defined.

(** a frame obtained from [allocate] reads
    as allocated, can be released, and releasing it restores the free count and
    the set of used frames. *)
Theorem frame_release_inverts_allocate fa address fa' :
  Frames_wf fa -> FrameAllocator_allocate fa = (Ok address, fa') ->
  FrameAllocator_is_allocated fa' address = true /\
  exists fa'', FrameAllocator_release fa' address = (Ok tt, fa'') /\
    f_free fa'' = f_free fa /\ f_total fa'' = f_total fa /\
    (forall g, is_used fa'' g = is_used fa g) /\ (forall g, is_managed fa'' g = is_managed fa g).
Proof.
  intros Hwf Ha. pose proof (allocate_meets_contract fa Hwf) as H. rewrite Ha in H.
  destruct H as (f & -> & Hf & Hwf' & Hm & Hu & Hfree & Htot).
  pose proof (is_free_bound fa f Hf) as Hb. apply andb_true_iff in Hf as [Hman Hunused].
  assert (Hdiv : Z.of_nat f * PAGE_SIZE / PAGE_SIZE = Z.of_nat f) by (by apply Z.div_mul).
  assert (Hloc : FrameAllocator_locate fa' (Z.of_nat f * PAGE_SIZE) = Ok f).
  { unfold FrameAllocator_locate. rewrite Z.mod_mul, Hdiv, Hm, Nat2Z.id by done. simpl.
    unfold pages in Hb. by destruct (Z.leb_spec (Z.of_nat (length (f_managed fa)) * 64) (Z.of_nat f)); [lia|]. }
  assert (Hused : is_used fa' f = true) by (by rewrite Hu, Nat.eqb_refl).
  split.
  { unfold FrameAllocator_is_allocated. by rewrite Hloc, masked_bit. }
  destruct (release_wf fa' f Hwf' Hused) as [Hwf'' Hbits].
  unfold FrameAllocator_release. rewrite Hloc, !masked_bit. fold (is_used fa' f). rewrite Hused.
  rewrite Hm. fold (is_managed fa f). rewrite Hman. simpl.
  eexists. split; [reflexivity|]. simpl. split; [lia|]. split; [done|]. split; [|done].
  intros g. etrans; [apply Hbits|]. rewrite Hu. apply negb_true_iff in Hunused.
  destruct (Nat.eqb_spec g f) as [->|]; [done|done].
Qed.

Lemma frame_release_inverts_allocate_witness :
  FrameAllocator_is_allocated (mkFrames [6] [2] 1 2 0) 4096 = true.
Proof.
  apply (frame_release_inverts_allocate (mkFrames [6] [0] 2 2 0)); [|reflexivity].
  destruct (new_wf [0] [0] _ eq_refl) as [Hwf _].
  exact (contract_wf (CallImport [(4096, 8192, true)]) _ Hwf
    ltac:(simpl; unfold map_fits, fits; repeat apply Forall_cons_2; simpl; auto; lia)).
Defined.
