(* ===== verification/Heap.v ===== *)
(** * The per-process heap window (kernel/src/process/heap.rs)

    [Region] is the bitmap of the window pages one process owns, with its page
    count.  It is related to the set of owned pages: the contracts of [reserve]
    and [release] say which pages each call takes or gives back, and which
    classification each refusal has. *)
From stdpp Require Import base list option numbers.
From Stdlib Require Import ZArith Lia Bool.
From S2P Require Import Prelude Bitmap Boot Frames.

Definition WINDOW_BASE : Z := 0x10000000.
Definition WINDOW_PAGES : Z := 128.
Definition PROCESS_PAGES : Z := 64.
Definition WINDOW_END : Z := WINDOW_BASE + WINDOW_PAGES * PAGE_SIZE.
Definition WORDS : nat := Z.to_nat (div_ceil WINDOW_PAGES 64).

Inductive HeapError := HeapSize | HeapAddress | HeapInvalid | HeapFull.

Record Region := mkHeap { h_pages : list Z; h_used : Z }.

Definition index_of (address pages : Z) : outcome HeapError Z :=
  if negb (address mod PAGE_SIZE =? 0) || (address <? WINDOW_BASE) then Err HeapAddress
  else
    let index := (address - WINDOW_BASE) / PAGE_SIZE in
    match checked_add index pages with
    | None => Err HeapAddress
    | Some e => if WINDOW_PAGES <? e then Err HeapAddress else Ok index
    end.

Definition Region_new : Region := mkHeap (replicate WORDS 0) 0.

(** [index..index + pages]; every caller has checked that it is in the window. *)
Definition page_run (index pages : Z) : list nat := seq (Z.to_nat index) (Z.to_nat pages).

Definition Region_taken (r : Region) (index : nat) : bool := masked (h_pages r) index.

Definition Region_mark (pages : list Z) (index : nat) (owned : bool) : list Z :=
  if owned then set_bit pages index else clear_bit pages index.

Definition Region_free (r : Region) (index pages : Z) : bool :=
  forallb (fun page => negb (Region_taken r page)) (page_run index pages).

Definition Region_lowest_fit (r : Region) (pages : Z) : option Z :=
  if WINDOW_PAGES <? pages then None
  else List.find (fun index => Region_free r index pages)
         (Z.of_nat <$> seq 0 (Z.to_nat (WINDOW_PAGES - pages) + 1)).

Definition Region_owns (r : Region) (address pages : Z) : bool :=
  negb (pages =? 0) &&
  match index_of address pages with
  | Ok index => forallb (Region_taken r) (page_run index pages)
  | _ => false
  end.

Definition Region_reserve (r : Region) (address : option Z) (pages : Z) : outcome HeapError Z * Region :=
  if (pages =? 0) || (PROCESS_PAGES <? pages) then (Err HeapSize, r)
  else
    let requested :=
      match address with
      | Some address => let? index := index_of address pages in Ok (Some index)
      | None => Ok None
      end in
    match requested with
    | Ok requested =>
      if PROCESS_PAGES <? h_used r + pages then (Err HeapFull, r)
      else
        let index :=
          match requested with
          | Some index => if negb (Region_free r index pages) then Err HeapAddress else Ok index
          | None => ok_or (Region_lowest_fit r pages) HeapAddress
          end in
        match index with
        | Ok index =>
          (Ok (WINDOW_BASE + index * PAGE_SIZE),
           mkHeap (foldl (fun l page => Region_mark l page true) (h_pages r) (page_run index pages))
             (h_used r + pages))
        | Err e => (Err e, r)
        | Panic => (Panic, r)
        end
    | Err e => (Err e, r)
    | Panic => (Panic, r)
    end.

Definition Region_release (r : Region) (address pages : Z) : outcome HeapError unit * Region :=
  if pages =? 0 then (Err HeapSize, r)
  else match index_of address pages with
  | Ok index =>
    if negb (Region_owns r address pages) then (Err HeapInvalid, r)
    else (Ok tt,
          mkHeap (foldl (fun l page => Region_mark l page false) (h_pages r) (page_run index pages))
            (h_used r - pages))
  | Err e => (Err e, r)
  | Panic => (Panic, r)
  end.

(** ** Invariant *)
Definition owned (r : Region) (page : nat) : bool := bit (h_pages r) page.

Record Region_wf (r : Region) : Prop := {
  rw_words : words_ok (h_pages r);
  rw_length : length (h_pages r) = 2%nat;
  rw_used : h_used r = Z.of_nat (tally (owned r) (pages (h_pages r)));
  rw_budget : h_used r <= PROCESS_PAGES;
}.

Lemma Region_new_wf : Region_wf Region_new /\ forall page, owned Region_new page = false.
Proof.
  assert (H : forall page, owned Region_new page = false) by (intros page; apply bit_zeros).
  split; [|done]. split; [|done| |done].
  - by apply Forall_replicate.
  - rewrite tally_false; [done|]. intros i _. apply H.
Qed.

Lemma wf_pages r : Region_wf r -> pages (h_pages r) = 128%nat.
Proof. intros Hwf. unfold pages. by rewrite (rw_length _ Hwf). Qed.

(** The window address of page [i]. *)
Definition page_address (i : nat) : Z := WINDOW_BASE + Z.of_nat i * PAGE_SIZE.

Lemma index_of_Ok address pages index :
  0 <= pages -> index_of address pages = Ok index <->
  exists i : nat, index = Z.of_nat i /\ address = page_address i /\ Z.of_nat i + pages <= WINDOW_PAGES.
Proof.
  intros Hp. unfold index_of, page_address.
  destruct (Z.eqb_spec (address mod PAGE_SIZE) 0) as [Ha|Ha]; simpl.
  2:{ split; [done|]. intros (i & _ & -> & _). exfalso. apply Ha.
      replace (WINDOW_BASE + Z.of_nat i * PAGE_SIZE) with ((65536 + Z.of_nat i) * PAGE_SIZE)
        by (unfold WINDOW_BASE, PAGE_SIZE; lia). by apply Z.mod_mul. }
  pose proof (page_of_address address Ha) as Hpg.
  assert (Hi : (address - WINDOW_BASE) / PAGE_SIZE = address / PAGE_SIZE - 65536).
  { rewrite Hpg. replace (address / PAGE_SIZE * PAGE_SIZE - WINDOW_BASE) with
      ((address / PAGE_SIZE - 65536) * PAGE_SIZE) by (unfold WINDOW_BASE, PAGE_SIZE; lia).
    by rewrite !Z.div_mul. }
  destruct (Z.ltb_spec address WINDOW_BASE) as [Hb|Hb].
  { split; [done|]. intros (i & _ & -> & _). unfold PAGE_SIZE in *. lia. }
  set (q := address / PAGE_SIZE) in *. rewrite Hi.
  assert (Hq : 65536 <= q) by (unfold WINDOW_BASE, PAGE_SIZE in *; lia).
  destruct (checked_add (q - 65536) pages) as [e|] eqn:Ec.
  - apply checked_add_Some in Ec as [-> _].
    destruct (Z.ltb_spec WINDOW_PAGES (q - 65536 + pages)).
    + split; [done|]. intros (i & _ & Hx & Hle). rewrite Hpg in Hx. unfold WINDOW_BASE, PAGE_SIZE in *. lia.
    + split.
      * intros [= <-]. exists (Z.to_nat (q - 65536)). unfold WINDOW_BASE, PAGE_SIZE in *. lia.
      * intros (i & -> & Hx & Hle). rewrite Hpg in Hx. f_equal. unfold WINDOW_BASE, PAGE_SIZE in *. lia.
  - apply checked_add_None in Ec. split; [done|]. intros (i & _ & Hx & Hle). rewrite Hpg in Hx.
    unfold WINDOW_PAGES, WINDOW_BASE, PAGE_SIZE, u64_max in *. lia.
Qed.

Lemma index_of_not_panic address pages : index_of address pages <> Panic.
Proof. unfold index_of. repeat case_match; done. Qed.

Lemma index_of_Err address pages e : index_of address pages = Err e -> e = HeapAddress.
Proof. unfold index_of. repeat case_match; congruence. Qed.

(** Runs of pages *)
Definition run_free (r : Region) (first count : nat) : Prop :=
  forall i, in_run first count i = true -> owned r i = false.
Definition run_owned (r : Region) (first count : nat) : Prop :=
  forall i, in_run first count i = true -> owned r i = true.

Lemma forallb_run (p : nat -> bool) first count :
  forallb p (seq first count) = true <-> forall i, in_run first count i = true -> p i = true.
Proof.
  rewrite forallb_forall. split; intros H i Hi.
  - apply in_run_iff in Hi. apply H, in_seq. lia.
  - apply H, in_run_iff, in_seq. done.
Qed.

Lemma Region_free_iff r first count :
  Region_free r (Z.of_nat first) (Z.of_nat count) = true <-> run_free r first count.
Proof.
  unfold Region_free, page_run. rewrite !Nat2Z.id, forallb_run. unfold run_free, Region_taken.
  split; intros H i Hi; specialize (H i Hi); rewrite masked_bit in *; by apply negb_true_iff.
Qed.

Lemma taken_run_iff r first count :
  forallb (Region_taken r) (page_run (Z.of_nat first) (Z.of_nat count)) = true <-> run_owned r first count.
Proof.
  unfold page_run. rewrite !Nat2Z.id, forallb_run. unfold run_owned, Region_taken.
  split; intros H i Hi; specialize (H i Hi); by rewrite masked_bit in *.
Qed.

Lemma lowest_fit_Some r count index :
  (count <= 128)%nat -> Region_lowest_fit r (Z.of_nat count) = Some index ->
  exists first, index = Z.of_nat first /\ (first + count <= 128)%nat /\ run_free r first count /\
    forall g, (g < first)%nat -> ~ run_free r g count.
Proof.
  intros Hc. unfold Region_lowest_fit. unfold WINDOW_PAGES.
  destruct (Z.ltb_spec 128 (Z.of_nat count)) as [|_]; [lia|].
  replace (Z.to_nat (128 - Z.of_nat count) + 1)%nat with (129 - count)%nat by lia.
  generalize (eq_refl (129 - count)%nat). generalize (129 - count)%nat at 2 3 as n. intros n Hn.
  assert (Hgen : forall start, (start + n <= 129 - count)%nat ->
    (forall g, (g < start)%nat -> ~ run_free r g count) ->
    List.find (fun index => Region_free r index (Z.of_nat count)) (Z.of_nat <$> seq start n) = Some index ->
    exists first, index = Z.of_nat first /\ (first + count <= 128)%nat /\ run_free r first count /\
      forall g, (g < first)%nat -> ~ run_free r g count).
  { clear Hn. induction n as [|n IH]; intros start Hs Hlow; simpl; [done|].
    destruct (Region_free r (Z.of_nat start) (Z.of_nat count)) eqn:E.
    - intros [= <-]. apply Region_free_iff in E. exists start. split; [done|]. split; [lia|done].
    - apply IH; [lia|]. intros g Hg Hr. destruct (decide (g = start)) as [->|]; [|apply (Hlow g); [lia|done]].
      apply Region_free_iff in Hr. congruence. }
  apply Hgen; [lia|]. intros g Hg. lia.
Qed.

Lemma lowest_fit_None r count :
  (count <= 128)%nat -> Region_lowest_fit r (Z.of_nat count) = None ->
  forall first, (first + count <= 128)%nat -> ~ run_free r first count.
Proof.
  intros Hc. unfold Region_lowest_fit, WINDOW_PAGES.
  destruct (Z.ltb_spec 128 (Z.of_nat count)) as [|_]; [lia|]. intros H first Hf Hr.
  eapply List.find_none in H.
  2:{ apply list_elem_of_In, list_elem_of_fmap. exists first. split; [done|]. apply elem_of_seq. lia. }
  simpl in H. apply Region_free_iff in Hr. congruence.
Qed.

(** ** Taking and giving back runs *)
Lemma page_run_seq first count : page_run (Z.of_nat first) (Z.of_nat count) = seq first count.
Proof. unfold page_run. by rewrite !Nat2Z.id. Qed.

Lemma take_run_wf r first count :
  Region_wf r -> (first + count <= 128)%nat -> run_free r first count ->
  h_used r + Z.of_nat count <= PROCESS_PAGES ->
  let r' := mkHeap (foldl (fun l page => Region_mark l page true) (h_pages r)
                      (page_run (Z.of_nat first) (Z.of_nat count))) (h_used r + Z.of_nat count) in
  Region_wf r' /\ forall g, owned r' g = in_run first count g || owned r g.
Proof.
  intros Hwf Hend Hfree Hbud r0.
  set (r' := mkHeap (foldl (fun l page => Region_mark l page true) (h_pages r) (seq first count))
               (h_used r + Z.of_nat count)).
  assert (Hr0 : r0 = r') by (unfold r0; by rewrite page_run_seq). clearbody r0. subst r0.
  rewrite <- (wf_pages r Hwf) in Hend.
  pose proof (fun g => bit_set_run (h_pages r) first count g Hend) as Hrun.
  assert (Ho : forall g, owned r' g = in_run first count g || owned r g) by apply Hrun.
  split; [|done]. destruct (Hrun 0%nat) as (_ & Hp & Hw). split.
  - by apply Hw, rw_words.
  - change (pages (h_pages r') = pages (h_pages r)) in Hp. unfold pages in Hp. pose proof (rw_length _ Hwf). lia.
  - change (pages (h_pages r')) with (pages (foldl set_bit (h_pages r) (seq first count))). rewrite Hp.
    rewrite (tally_run (owned r) (owned r') first count) by done. simpl. rewrite (rw_used _ Hwf). lia.
  - done.
Qed.

Lemma give_run_wf r first count :
  Region_wf r -> (first + count <= 128)%nat -> run_owned r first count ->
  let r' := mkHeap (foldl (fun l page => Region_mark l page false) (h_pages r)
                      (page_run (Z.of_nat first) (Z.of_nat count))) (h_used r - Z.of_nat count) in
  Region_wf r' /\ forall g, owned r' g = negb (in_run first count g) && owned r g.
Proof.
  intros Hwf Hend Hown r0.
  set (r' := mkHeap (foldl (fun l page => Region_mark l page false) (h_pages r) (seq first count))
               (h_used r - Z.of_nat count)).
  assert (Hr0 : r0 = r') by (unfold r0; by rewrite page_run_seq). clearbody r0. subst r0.
  rewrite <- (wf_pages r Hwf) in Hend.
  pose proof (fun g => bit_clear_run (h_pages r) first count g Hend) as Hrun.
  assert (Ho : forall g, owned r' g = negb (in_run first count g) && owned r g) by apply Hrun.
  assert (Ht : tally (owned r) (pages (h_pages r)) = (count + tally (owned r') (pages (h_pages r)))%nat).
  { apply (tally_run _ _ first); [done| |].
    - intros i Hi. by rewrite Ho, Hi.
    - intros i. rewrite Ho. destruct (in_run first count i) eqn:E; [by rewrite Hown|done]. }
  split; [|done]. destruct (Hrun 0%nat) as (_ & Hp & Hw). pose proof (rw_used _ Hwf). split.
  - by apply Hw, rw_words.
  - change (pages (h_pages r') = pages (h_pages r)) in Hp. unfold pages in Hp. pose proof (rw_length _ Hwf). lia.
  - change (pages (h_pages r')) with (pages (foldl clear_bit (h_pages r) (seq first count))). rewrite Hp.
    simpl. lia.
  - simpl. pose proof (rw_budget _ Hwf). lia.
Qed.

(** ** Contracts *)
Definition in_window (address : Z) (count : nat) : Prop :=
  exists i, address = page_address i /\ (i + count <= 128)%nat.

Definition reserve_meets (r : Region) (address : option Z) (count : nat)
    (res : outcome HeapError Z * Region) : Prop :=
  match res with
  | (Ok base, r') =>
      exists first, base = page_address first /\ (0 < count <= 64)%nat /\ (first + count <= 128)%nat /\
        run_free r first count /\ Region_wf r' /\ h_used r' = h_used r + Z.of_nat count /\
        (forall g, owned r' g = in_run first count g || owned r g) /\
        match address with
        | Some a => base = a
        | None => forall g, (g < first)%nat -> ~ run_free r g count
        end
  | (Err HeapSize, r') => r' = r /\ (count = 0 \/ 64 < count)%nat
  | (Err HeapFull, r') => r' = r /\ PROCESS_PAGES < h_used r + Z.of_nat count /\
      (forall a, address = Some a -> in_window a count)
  | (Err HeapAddress, r') => r' = r /\
      match address with
      | Some a => ~ in_window a count \/ exists i, a = page_address i /\ ~ run_free r i count
      | None => forall first, (first + count <= 128)%nat -> ~ run_free r first count
      end
  | _ => False
  end.

Definition release_meets (r : Region) (address : Z) (count : nat)
    (res : outcome HeapError unit * Region) : Prop :=
  match res with
  | (Ok _, r') =>
      exists first, address = page_address first /\ (0 < count)%nat /\ (first + count <= 128)%nat /\
        run_owned r first count /\ Region_wf r' /\ h_used r' = h_used r - Z.of_nat count /\
        (forall g, owned r' g = negb (in_run first count g) && owned r g)
  | (Err HeapSize, r') => r' = r /\ count = 0%nat
  | (Err HeapAddress, r') => r' = r /\ ~ in_window address count
  | (Err HeapInvalid, r') => r' = r /\ exists first, address = page_address first /\ ~ run_owned r first count
  | _ => False
  end.

Lemma page_address_inj i j : page_address i = page_address j -> i = j.
Proof. unfold page_address, PAGE_SIZE. lia. Qed.

Lemma index_of_window address count :
  match index_of address (Z.of_nat count) with
  | Ok index => exists i, index = Z.of_nat i /\ address = page_address i /\ (i + count <= 128)%nat
  | Err e => e = HeapAddress /\ ~ in_window address count
  | Panic => False
  end.
Proof.
  pose proof (fun index => index_of_Ok address (Z.of_nat count) index ltac:(lia)) as Hok.
  destruct (index_of address (Z.of_nat count)) as [index|e|] eqn:E.
  - destruct (proj1 (Hok index) eq_refl) as (i & -> & -> & Hle). exists i. unfold WINDOW_PAGES in Hle. lia.
  - split; [by eapply index_of_Err|]. intros (i & -> & Hle).
    assert (Hx : Err e = Ok (Z.of_nat i)); [|done]. apply Hok. exists i. unfold WINDOW_PAGES. lia.
  - by apply index_of_not_panic in E.
Qed.

Lemma owns_window r count i :
  (0 < count)%nat -> (i + count <= 128)%nat ->
  Region_owns r (page_address i) (Z.of_nat count) = true <-> run_owned r i count.
Proof.
  intros Hc Hi. unfold Region_owns. destruct (Z.eqb_spec (Z.of_nat count) 0) as [|_]; [lia|]. simpl.
  assert (Hx : index_of (page_address i) (Z.of_nat count) = Ok (Z.of_nat i)).
  { apply index_of_Ok; [lia|]. exists i. unfold WINDOW_PAGES. lia. }
  rewrite Hx. apply taken_run_iff.
Qed.

Lemma reserve_correct r address count :
  Region_wf r -> reserve_meets r address count (Region_reserve r address (Z.of_nat count)).
Proof.
  intros Hwf. unfold Region_reserve, reserve_meets.
  destruct (Z.eqb_spec (Z.of_nat count) 0) as [|Hc0]; simpl; [split; [done|lia]|].
  destruct (Z.ltb_spec PROCESS_PAGES (Z.of_nat count)) as [|Hc]; [split; [done|unfold PROCESS_PAGES in *; lia]|].
  assert (Hcc : (0 < count <= 64)%nat) by (unfold PROCESS_PAGES in Hc; lia).
  destruct address as [a|]; simpl.
  - pose proof (index_of_window a count) as Hw.
    destruct (index_of a (Z.of_nat count)) as [index|e|]; simpl; [|destruct Hw as [-> Hw]; auto|done].
    destruct Hw as (i & -> & -> & Hend).
    destruct (Z.ltb_spec PROCESS_PAGES (h_used r + Z.of_nat count)) as [Hfull|Hbud].
    { split; [done|]. split; [done|]. intros a [= <-]. by exists i. }
    pose proof (Region_free_iff r i count) as Hf.
    destruct (Region_free r (Z.of_nat i) (Z.of_nat count)); simpl.
    + assert (Hfree : run_free r i count) by (by apply Hf).
      destruct (take_run_wf r i count Hwf Hend Hfree Hbud) as [Hwf' Ho]. exists i. auto 10.
    + split; [done|]. right. exists i. split; [done|]. intros Hx%Hf. done.
  - destruct (Z.ltb_spec PROCESS_PAGES (h_used r + Z.of_nat count)) as [Hfull|Hbud]; [done|].
    destruct (Region_lowest_fit r (Z.of_nat count)) as [index|] eqn:E; simpl.
    + apply lowest_fit_Some in E as (first & -> & Hend & Hfree & Hlow); [|lia].
      destruct (take_run_wf r first count Hwf Hend Hfree Hbud) as [Hwf' Ho]. exists first. auto 10.
    + split; [done|]. apply lowest_fit_None; [lia|done].
Qed.

Lemma release_correct r address count :
  Region_wf r -> release_meets r address count (Region_release r address (Z.of_nat count)).
Proof.
  intros Hwf. unfold Region_release, release_meets.
  destruct (Z.eqb_spec (Z.of_nat count) 0) as [|Hc0]; [split; [done|lia]|].
  pose proof (index_of_window address count) as Hw.
  destruct (index_of address (Z.of_nat count)) as [index|e|]; [|by destruct Hw as [-> Hw]|done].
  destruct Hw as (i & -> & -> & Hend).
  pose proof (owns_window r count i ltac:(lia) Hend) as Hown.
  destruct (Region_owns r (page_address i) (Z.of_nat count)); simpl.
  - assert (Ho : run_owned r i count) by (by apply Hown).
    destruct (give_run_wf r i count Hwf Hend Ho) as [Hwf' Hg]. exists i. repeat (split; [lia || done|]). done.
  - split; [done|]. exists i. split; [done|]. intros Hx%Hown. done.
Qed.

(** ** Properties *)
Inductive heap_call := HeapReserve (address : option Z) (count : nat) | HeapRelease (address : Z) (count : nat).
Definition heap_state (r : Region) (c : heap_call) : Region :=
  match c with
  | HeapReserve a n => snd (Region_reserve r a (Z.of_nat n))
  | HeapRelease a n => snd (Region_release r a (Z.of_nat n))
  end.

Lemma heap_state_wf r c : Region_wf r -> Region_wf (heap_state r c).
Proof.
  intros Hwf. destruct c as [a n|a n]; simpl.
  - pose proof (reserve_correct r a n Hwf) as H.
    destruct (Region_reserve r a (Z.of_nat n)) as [[b|[]|] r']; simpl in *; try (by intuition subst).
    by destruct H as (f & _ & _ & _ & _ & H & _).
  - pose proof (release_correct r a n Hwf) as H.
    destruct (Region_release r a (Z.of_nat n)) as [[b|[]|] r']; simpl in *; try (by intuition subst).
    by destruct H as (f & _ & _ & _ & _ & H & _).
Qed.

Lemma heap_states_wf calls r : Region_wf r -> Region_wf (foldl heap_state r calls).
Proof. revert r. induction calls as [|c calls IH]; intros r Hwf; [done|]. apply IH, heap_state_wf, Hwf. Qed.

(** C30 (heap_window_refines_page_set): after any calls from [Region::new] the
    page count of a heap window is the exact number of owned pages and never
    exceeds the process budget, and [reserve] and [release] meet their
    contracts: a reservation takes exactly one free run inside the window (the
    requested one, or the lowest that fits), a release gives back exactly one
    completely owned run, each refusal carries the documented classification
    and changes nothing. *)
Theorem heap_window_refines_page_set calls address release_at count :
  let r := foldl heap_state Region_new calls in
  Region_wf r /\ reserve_meets r address count (Region_reserve r address (Z.of_nat count)) /\
  release_meets r release_at count (Region_release r release_at (Z.of_nat count)).
Proof.
  intros r. assert (Hwf : Region_wf r) by apply heap_states_wf, Region_new_wf.
  auto using reserve_correct, release_correct.
Qed.

(** a run just reserved is owned, can be
    released once, restores the page count and the owned pages, and a second
    release of it is refused as [Invalid]. *)
Theorem heap_release_inverts_reserve r address count base r1 :
  Region_wf r -> Region_reserve r address (Z.of_nat count) = (Ok base, r1) ->
  Region_owns r1 base (Z.of_nat count) = true /\
  exists r2, Region_release r1 base (Z.of_nat count) = (Ok tt, r2) /\ h_used r2 = h_used r /\
    (forall g, owned r2 g = owned r g) /\ Region_release r2 base (Z.of_nat count) = (Err HeapInvalid, r2).
Proof.
  intros Hwf Hr. pose proof (reserve_correct r address count Hwf) as H. rewrite Hr in H.
  destruct H as (first & -> & Hc & Hend & Hfree & Hwf1 & Hu & Ho & _).
  assert (Hown : run_owned r1 first count) by (intros i Hi; by rewrite Ho, Hi).
  assert (Hix : index_of (page_address first) (Z.of_nat count) = Ok (Z.of_nat first)).
  { apply index_of_Ok; [lia|]. exists first. unfold WINDOW_PAGES. lia. }
  pose proof (owns_window r1 count first ltac:(lia) Hend) as Hw1.
  destruct (give_run_wf r1 first count Hwf1 Hend Hown) as [Hwf2 Hg].
  unfold Region_release. rewrite Hix. destruct (Z.eqb_spec (Z.of_nat count) 0) as [|_]; [lia|].
  rewrite (proj2 Hw1 Hown). split; [done|]. simpl. eexists. split; [reflexivity|]. split; [simpl; lia|].
  set (r2 := mkHeap _ _) in *. assert (Hsame : forall g, owned r2 g = owned r g).
  { intros g. rewrite Hg, Ho. destruct (in_run first count g) eqn:E; [by rewrite Hfree|done]. }
  split; [done|]. pose proof (owns_window r2 count first ltac:(lia) Hend) as Hw2.
  destruct (Region_owns r2 (page_address first) (Z.of_nat count)); simpl; [|done].
  pose proof (proj1 Hw2 eq_refl first ltac:(apply in_run_iff; lia)) as Hx.
  rewrite Hsame, Hfree in Hx; [done|]. apply in_run_iff. lia.
Qed.

Lemma heap_release_inverts_reserve_witness :
  Region_owns (mkHeap [7; 0] 3) WINDOW_BASE 3 = true.
Proof.
  apply (heap_release_inverts_reserve Region_new None 3); [apply Region_new_wf|].
  by vm_compute.
Defined.
