(* ===== verification/Elf.v ===== *)
(** * Program images (kernel/src/process/elf.rs)

    The parser of the bounded static ELF64 subset.  An accepted image only has
    segments that lie between the first page and the stack guard, keep out of
    the heap window, are pairwise disjoint as pages, are never writable and
    executable at once, and are backed by bytes of the file; the entry point is
    in file-backed executable code. *)
From stdpp Require Import base list option numbers.
From Stdlib Require Import ZArith Lia Bool.
From S2P Require Import Prelude Bytes Bitmap Frames Heap.

Definition MAX_SEGMENTS : nat := 8.
Definition ELF_MAX_BYTES : Z := 1024 * 1024.
Definition MAX_PAGES : Z := 256.
Definition STACK_TOP : Z := 0x80000000.
Definition STACK_PAGES : Z := 16.
Definition STACK_GUARD : Z := STACK_TOP - (STACK_PAGES + 1) * PAGE_SIZE.

Inductive ElfError := ElfHeader | ElfBounds | ElfUnsupported | ElfSegment | ElfOverlap | ElfBudget | ElfEntry.

Record Segment := mkSegment {
  s_address : Z;
  s_memory_size : Z;
  s_offset : Z;
  s_file_size : Z;
  s_writable : bool;
  s_executable : bool;
}.

Definition start_page (s : Segment) : Z := Z.land (s_address s) (unot 64 (PAGE_SIZE - 1)).
Definition end_page (s : Segment) : Z :=
  Z.land (s_address s + s_memory_size s + PAGE_SIZE - 1) (unot 64 (PAGE_SIZE - 1)).

(** [i_segments] is the used prefix [segments[..count]] of the array. *)
Record Image := mkImage { i_bytes : list Z; i_entry : Z; i_segments : list Segment }.

Definition len (bytes : list Z) : Z := Z.of_nat (length bytes).

(** The little-endian fold [n | byte << (i * 8)]. *)
Definition fold_le (field : list Z) : Z :=
  foldl (fun n '(i, b) => Z.lor n (Z.shiftl b (Z.of_nat i * 8))) 0 (imap pair field).

Definition number (bytes : list Z) (at_ size : Z) : outcome ElfError Z :=
  match checked_add at_ size with
  | None => Err ElfBounds
  | Some e => if e <=? len bytes then Ok (fold_le (slice bytes (Z.to_nat at_) (Z.to_nat e))) else Err ElfBounds
  end.

Definition elf_magic : list Z := [0x7f; 0x45; 0x4c; 0x46; 2; 1; 1; 0; 0].

(** The condition of the first [if], left to right. *)
Definition parse_header (bytes : list Z) : outcome ElfError unit :=
  if (len bytes <? 64) || (ELF_MAX_BYTES <? len bytes) then Err ElfHeader
  else if negb (bool_decide (slice bytes 0 9 = elf_magic)) || negb (all_zero (slice bytes 9 16)) then Err ElfHeader
  else let? type := number bytes 16 2 in if negb (type =? 2) then Err ElfHeader
  else let? machine := number bytes 18 2 in if negb (machine =? 62) then Err ElfHeader
  else let? version := number bytes 20 4 in if negb (version =? 1) then Err ElfHeader
  else let? flags := number bytes 48 4 in if negb (flags =? 0) then Err ElfHeader
  else let? header := number bytes 52 2 in if negb (header =? 64) then Err ElfHeader
  else let? entry := number bytes 54 2 in if negb (entry =? 56) then Err ElfHeader
  else Ok tt.

Record ElfScan := mkScan { x_segments : list Segment; x_pages : Z; x_previous_end : Z }.

(** The body of the [for] loop for a loadable header at [at_]. *)
Definition parse_segment (bytes : list Z) (at_ : Z) (x : ElfScan) : outcome ElfError ElfScan :=
  let? flags := number bytes (at_ + 4) 4 in
  let? file_offset := number bytes (at_ + 8) 8 in
  let? address := number bytes (at_ + 16) 8 in
  let? file_size := number bytes (at_ + 32) 8 in
  let? memory_size := number bytes (at_ + 40) 8 in
  let? alignment := number bytes (at_ + 48) 8 in
  let? end_ := ok_or (checked_add address memory_size) ElfBounds in
  if negb ((4 <=? flags) && (flags <=? 6)) || (memory_size =? 0) || (memory_size <? file_size)
     || (address <? PAGE_SIZE) || (STACK_GUARD <? end_)
     || negb (file_offset mod PAGE_SIZE =? address mod PAGE_SIZE)
     || ((1 <? alignment) && (negb (is_power_of_two alignment)
                               || negb (address mod alignment =? file_offset mod alignment)))
  then Err ElfSegment
  else if match checked_add file_offset file_size with None => true | Some e => len bytes <? e end
  then Err ElfBounds
  else
    let segment := mkSegment address memory_size file_offset file_size
                     (negb (Z.land flags 2 =? 0)) (negb (Z.land flags 1 =? 0)) in
    if (start_page segment <? WINDOW_END) && (WINDOW_BASE <? end_page segment) then Err ElfSegment
    else if start_page segment <? x_previous_end x then Err ElfOverlap
    else
      let pages := x_pages x + (end_page segment - start_page segment) / PAGE_SIZE in
      if (MAX_PAGES <? pages) || (length (x_segments x) =? MAX_SEGMENTS)%nat then Err ElfBudget
      else Ok (mkScan (x_segments x ++ [segment]) pages (end_page segment)).

Fixpoint parse_segments (bytes : list Z) (offset : Z) (indices : list nat) (x : ElfScan) :
    outcome ElfError ElfScan :=
  match indices with
  | [] => Ok x
  | index :: indices =>
    let at_ := offset + Z.of_nat index * 56 in
    let? kind := number bytes at_ 4 in
    if kind =? 0 then parse_segments bytes offset indices x
    else if negb (kind =? 1) then Err ElfUnsupported
    else let? x := parse_segment bytes at_ x in parse_segments bytes offset indices x
  end.

Definition Image_parse (bytes : list Z) : outcome ElfError Image :=
  let? _ := parse_header bytes in
  let? offset := number bytes 32 8 in
  let? count := number bytes 56 2 in
  if negb ((1 <=? count) && (count <=? 16)) then Err ElfBudget
  else if (offset <? 64) || match checked_add offset (count * 56) with None => true | Some n => len bytes <? n end
  then Err ElfBounds
  else
    let? entry := number bytes 24 8 in
    let? x := parse_segments bytes offset (seq 0 (Z.to_nat count)) (mkScan [] STACK_PAGES PAGE_SIZE) in
    if existsb (fun s => s_executable s && (s_address s <=? entry) && (entry <? s_address s + s_file_size s))
         (x_segments x)
    then Ok (mkImage bytes entry (x_segments x))
    else Err ElfEntry.

Definition Image_data (i : Image) (s : Segment) : outcome ElfError (list Z) :=
  if s_offset s + s_file_size s <=? len (i_bytes i)
  then Ok (slice (i_bytes i) (Z.to_nat (s_offset s)) (Z.to_nat (s_offset s + s_file_size s)))
  else Panic.

(** ** Numbers and pages *)
Lemma fold_le_value field : bytes_ok field -> fold_le field = le_value field.
Proof.
  intros Hok. unfold fold_le.
  assert (Hgen : forall k acc, 0 <= acc < 2 ^ (Z.of_nat k * 8) ->
    foldl (fun n '(i, b) => Z.lor n (Z.shiftl b (Z.of_nat i * 8))) acc (imap (fun i b => (k + i, b)%nat) field)
    = acc + 2 ^ (Z.of_nat k * 8) * le_value field).
  { induction Hok as [|b field Hb _ IH]; intros k acc Hacc; [cbn [imap foldl]; change (le_value []) with 0; lia|].
    cbn [imap foldl le_value]. rewrite Nat.add_0_r.
    assert (Hlor : Z.lor acc (Z.shiftl b (Z.of_nat k * 8)) = acc + b * 2 ^ (Z.of_nat k * 8)).
    { rewrite Z.lor_comm, lor_shiftl_add by (lia || done). rewrite Z.shiftl_mul_pow2 by lia. lia. }
    rewrite Hlor.
    assert (Hpow : 2 ^ (Z.of_nat (S k) * 8) = 256 * 2 ^ (Z.of_nat k * 8)).
    { replace (Z.of_nat (S k) * 8) with (8 + Z.of_nat k * 8) by lia. by rewrite Z.pow_add_r by lia. }
    pose proof (Z.pow_pos_nonneg 2 (Z.of_nat k * 8) ltac:(lia) ltac:(lia)).
    rewrite (imap_ext _ (fun i b => (S k + i, b)%nat)) by (intros; unfold compose; f_equal; lia).
    rewrite IH, Hpow by (rewrite Hpow; unfold is_byte in Hb; nia). unfold le_value; fold le_value. lia. }
  specialize (Hgen 0%nat 0 ltac:(lia)). rewrite Z.mul_1_l, Z.add_0_l in Hgen. exact Hgen.
Qed.

Lemma number_Ok bytes at_ size n :
  bytes_ok bytes -> 0 <= at_ -> 0 <= size -> number bytes at_ size = Ok n ->
  at_ + size <= len bytes /\ n = le_value (slice bytes (Z.to_nat at_) (Z.to_nat (at_ + size))) /\
  fits (8 * size) n.
Proof.
  intros Hok Ha Hs. unfold number. destruct (checked_add at_ size) as [e|] eqn:E; [|done].
  apply checked_add_Some in E as [-> _]. destruct (Z.leb_spec (at_ + size) (len bytes)) as [Hle|]; [|done].
  assert (Hsl : bytes_ok (slice bytes (Z.to_nat at_) (Z.to_nat (at_ + size)))) by (by apply bytes_ok_slice).
  intros [= <-]. rewrite fold_le_value by done. split; [done|]. split; [done|].
  pose proof (le_value_fits _ Hsl) as Hf. rewrite length_slice in Hf by (unfold len in *; lia).
  replace (8 * Z.of_nat (Z.to_nat (at_ + size) - Z.to_nat at_)) with (8 * size) in Hf by lia. done.
Qed.

(** [x & !(PAGE_SIZE - 1)] rounds down to a page. *)
Lemma page_floor x : fits 64 x -> Z.land x (unot 64 (PAGE_SIZE - 1)) = x / PAGE_SIZE * PAGE_SIZE.
Proof.
  intros Hx. transitivity (Z.shiftl (Z.shiftr x 12) 12).
  - rewrite <- Z.ldiff_ones_r by lia. apply Z.bits_inj'. intros i Hi.
    unfold unot. change (PAGE_SIZE - 1) with (Z.ones 12).
    rewrite Z.land_spec, Z.lxor_spec, Z.ldiff_spec.
    destruct (Z.lt_ge_cases i 64).
    + rewrite (Z.ones_spec_low 64) by lia. by rewrite xorb_true_r.
    + by rewrite (fits_high 64 x) by (lia || done).
  - rewrite Z.shiftl_mul_pow2, Z.shiftr_div_pow2 by lia. done.
Qed.

(** ** What an accepted segment is *)
Record segment_ok (bytes : list Z) (s : Segment) : Prop := {
  sg_low : PAGE_SIZE <= s_address s;
  sg_size : 0 < s_memory_size s;
  sg_high : s_address s + s_memory_size s <= STACK_GUARD;
  sg_file : 0 <= s_file_size s <= s_memory_size s;
  sg_backed : 0 <= s_offset s /\ s_offset s + s_file_size s <= len bytes;
  sg_congruent : s_offset s mod PAGE_SIZE = s_address s mod PAGE_SIZE;
  sg_wx : s_writable s && s_executable s = false;
  sg_heap : end_page s <= WINDOW_BASE \/ WINDOW_END <= start_page s;
}.

Definition segment_pages (s : Segment) : Z := (end_page s - start_page s) / PAGE_SIZE.
Definition total_pages (l : list Segment) : Z := foldr (fun s n => segment_pages s + n) 0 l.

(** Page ranges in increasing order from [from] to [last]. *)
Fixpoint pages_ordered (from : Z) (l : list Segment) (last : Z) : Prop :=
  match l with
  | [] => from = last
  | s :: l => from <= start_page s /\ start_page s < end_page s /\ pages_ordered (end_page s) l last
  end.

Lemma pages_ordered_snoc from l last s :
  pages_ordered from l last -> last <= start_page s -> start_page s < end_page s ->
  pages_ordered from (l ++ [s]) (end_page s).
Proof.
  revert from. induction l as [|t l IH]; intros from H Hs He; simpl in *; [subst; done|].
  destruct H as (H1 & H2 & H3). auto.
Qed.

Lemma pages_ordered_le from l last : pages_ordered from l last -> from <= last.
Proof.
  revert from. induction l as [|s l IH]; intros from; simpl; [lia|]. intros (H1 & H2 & H3%IH). lia.
Qed.

Lemma pages_ordered_disjoint from l last i j s t :
  pages_ordered from l last -> l !! i = Some s -> l !! j = Some t -> (i < j)%nat -> end_page s <= start_page t.
Proof.
  revert from i j. induction l as [|u l IH]; intros from i j H; [by rewrite lookup_nil|].
  destruct H as (H1 & H2 & H3). destruct j as [|j]; [lia|].
  destruct i as [|i]; simpl; [|intros Hi Hj Hlt; eapply (IH _ i j); [done|done|done|lia]].
  intros [= ->] Hj _. clear IH H1 H2. revert j Hj H3. generalize (end_page s) as from'.
  induction l as [|v l IH]; intros from' j; [by rewrite lookup_nil|]. simpl.
  intros Hj (Hv1 & Hv2 & Hv3). destruct j as [|j]; simpl in Hj; [by simplify_eq|].
  specialize (IH _ _ Hj Hv3). lia.
Qed.

Lemma total_pages_snoc l s : total_pages (l ++ [s]) = total_pages l + segment_pages s.
Proof. induction l as [|t l IH]; simpl; [lia|]. rewrite IH. lia. Qed.

Record scan_ok (bytes : list Z) (x : ElfScan) : Prop := {
  so_segments : Forall (segment_ok bytes) (x_segments x);
  so_order : pages_ordered PAGE_SIZE (x_segments x) (x_previous_end x);
  so_pages : x_pages x = STACK_PAGES + total_pages (x_segments x);
  so_budget : x_pages x <= MAX_PAGES;
  so_count : (length (x_segments x) <= MAX_SEGMENTS)%nat;
}.

Lemma page_bounds s :
  PAGE_SIZE <= s_address s -> 0 < s_memory_size s -> s_address s + s_memory_size s <= STACK_GUARD ->
  PAGE_SIZE <= start_page s <= s_address s /\ start_page s < end_page s /\
  s_address s + s_memory_size s <= end_page s <= STACK_GUARD.
Proof.
  intros H1 H2 H3. unfold start_page, end_page.
  assert (fits 64 (s_address s)) by (unfold fits, STACK_GUARD, STACK_TOP, STACK_PAGES, PAGE_SIZE in *; lia).
  assert (fits 64 (s_address s + s_memory_size s + PAGE_SIZE - 1))
    by (unfold fits, STACK_GUARD, STACK_TOP, STACK_PAGES, PAGE_SIZE in *; lia).
  rewrite !page_floor by done. unfold STACK_GUARD, STACK_TOP, STACK_PAGES, PAGE_SIZE in *.
  pose proof (Z.div_mod (s_address s) 4096 ltac:(lia)).
  pose proof (Z.mod_pos_bound (s_address s) 4096 ltac:(lia)).
  set (e := s_address s + s_memory_size s + 4096 - 1) in *.
  pose proof (Z.div_mod e 4096 ltac:(lia)). pose proof (Z.mod_pos_bound e 4096 ltac:(lia)). lia.
Qed.

Lemma flags_wx flags :
  4 <= flags <= 6 -> negb (Z.land flags 2 =? 0) && negb (Z.land flags 1 =? 0) = false.
Proof. intros H. assert (flags = 4 \/ flags = 5 \/ flags = 6) as [->|[->| ->]] by lia; done. Qed.

(** Steps through a chain of [?] on [number]. *)
Ltac take_number H x :=
  match type of H with
  | context [number ?b ?a ?s] =>
      let E := fresh "E" x in
      destruct (number b a s) as [x|?|] eqn:E; [|discriminate H|discriminate H];
      apply number_Ok in E as (_ & _ & E); [|done|lia|lia]
  end.

Lemma parse_segment_ok bytes at_ x x' :
  bytes_ok bytes -> 0 <= at_ -> scan_ok bytes x -> parse_segment bytes at_ x = Ok x' -> scan_ok bytes x'.
Proof.
  intros Hb Hat Hx H. unfold parse_segment in H.
  take_number H flags. take_number H file_offset. take_number H address. take_number H file_size.
  take_number H memory_size. take_number H alignment. unfold fits in *.
  destruct (checked_add address memory_size) as [e|] eqn:Ee; simpl in H; [|done].
  apply checked_add_Some in Ee as [-> _].
  match type of H with (if ?c then _ else _) = _ => destruct c eqn:Ec; [done|] end.
  rewrite !orb_false_iff, negb_false_iff, andb_true_iff, Z.leb_le, Z.eqb_neq, !Z.ltb_ge, negb_false_iff, Z.eqb_eq in Ec.
  destruct Ec as ((((((Hfl & Hmem) & Hfile) & Hlow) & Hhigh) & Hcong) & _).
  destruct Hfl as [Hfl4 Hfl6%Z.leb_le].
  destruct (checked_add file_offset file_size) as [fe|] eqn:Ef; [|done].
  apply checked_add_Some in Ef as [-> _].
  destruct (Z.ltb_spec (len bytes) (file_offset + file_size)) as [|Hback]; [done|].
  set (s := mkSegment _ _ _ _ _ _) in H.
  destruct (page_bounds s) as (Hs1 & Hs2 & Hs3); [done|simpl; lia|done|].
  match type of H with (if ?c then _ else _) = _ => destruct c eqn:Ew; [done|] end.
  apply andb_false_iff in Ew. rewrite !Z.ltb_ge in Ew.
  destruct (Z.ltb_spec (start_page s) (x_previous_end x)) as [|Hord]; [done|].
  match type of H with (if ?c then _ else _) = _ => destruct c eqn:Ebud; [done|] end.
  apply orb_false_iff in Ebud as [Hpg%Z.ltb_ge Hcnt%Nat.eqb_neq]. injection H as <-.
  destruct Hx as [Hseg Hpo Hpages Hbudget Hcount]. split; simpl.
  - apply Forall_app. split; [done|]. apply Forall_singleton. split; simpl; try done; try lia.
    by apply flags_wx.
  - by apply pages_ordered_snoc with (x_previous_end x).
  - rewrite total_pages_snoc, Hpages. unfold segment_pages. lia.
  - done.
  - rewrite length_app. simpl. lia.
Qed.

Lemma parse_segments_ok bytes offset indices x x' :
  bytes_ok bytes -> 0 <= offset -> scan_ok bytes x ->
  parse_segments bytes offset indices x = Ok x' -> scan_ok bytes x'.
Proof.
  intros Hb Ho. revert x. induction indices as [|i indices IH]; intros x Hx H; simpl in H; [by simplify_eq|].
  destruct (number bytes (offset + Z.of_nat i * 56) 4) as [kind|?|]; [|done|done].
  destruct (kind =? 0); [by eapply IH|]. destruct (negb (kind =? 1)); [done|].
  destruct (parse_segment bytes (offset + Z.of_nat i * 56) x) as [x1|?|] eqn:E; [|done|done].
  eapply IH; [|done]. eapply parse_segment_ok; [done| |done|done]. lia.
Qed.

Record image_safe (bytes : list Z) (i : Image) : Prop := {
  im_bytes : i_bytes i = bytes;
  im_segments : Forall (segment_ok bytes) (i_segments i);
  im_count : (length (i_segments i) <= MAX_SEGMENTS)%nat;
  im_disjoint : forall a b s t, (a < b)%nat -> i_segments i !! a = Some s -> i_segments i !! b = Some t ->
                end_page s <= start_page t;
  im_range : Forall (fun s => PAGE_SIZE <= start_page s /\ end_page s <= STACK_GUARD) (i_segments i);
  im_budget : STACK_PAGES + total_pages (i_segments i) <= MAX_PAGES;
  im_entry : exists s, s ∈ i_segments i /\ s_executable s = true /\
             s_address s <= i_entry i < s_address s + s_file_size s;
  im_data : forall s, s ∈ i_segments i ->
            exists d, Image_data i s = Ok d /\ Z.of_nat (length d) = s_file_size s;
}.

Lemma Image_data_ok bytes entry l s :
  segment_ok bytes s -> exists d, Image_data (mkImage bytes entry l) s = Ok d /\ Z.of_nat (length d) = s_file_size s.
Proof.
  intros [_ _ _ Hf [Ho Hb] _ _ _]. unfold Image_data. simpl.
  destruct (Z.leb_spec (s_offset s + s_file_size s) (len bytes)); [|lia].
  eexists. split; [done|]. rewrite length_slice by (unfold len in *; lia). lia.
Qed.

Lemma number_not_panic bytes at_ size : number bytes at_ size <> Panic.
Proof. unfold number. repeat case_match; done. Qed.

Ltac number_cases :=
  repeat case_match; simplify_eq; try done;
  match goal with H : number _ _ _ = Panic |- _ => by apply number_not_panic in H end.

Lemma parse_header_not_panic bytes : parse_header bytes <> Panic.
Proof. unfold parse_header. number_cases. Qed.

Lemma parse_segment_not_panic bytes at_ x : parse_segment bytes at_ x <> Panic.
Proof. unfold parse_segment, ok_or. number_cases. Qed.

Lemma parse_segments_not_panic bytes offset indices x : parse_segments bytes offset indices x <> Panic.
Proof.
  revert x. induction indices as [|i indices IH]; intros x; simpl; [done|].
  destruct (number _ _ _) as [kind|e|] eqn:En; [|done|by apply number_not_panic in En].
  destruct (_ =? 0); [apply IH|]. destruct (negb _); [done|].
  destruct (parse_segment bytes _ x) as [x1|e|] eqn:E; [apply IH|done|by apply parse_segment_not_panic in E].
Qed.

(** Parsing never panics, and an accepted image has at
    most eight segments whose pages are pairwise disjoint and lie between the
    first page and the stack guard, outside the heap window, never writable and
    executable at once, within the page budget that includes the stack; the
    file-backed part of each is inside the file, so reading it back does not
    panic, and the entry point is file-backed executable code. *)
Theorem elf_parse_is_safe bytes :
  bytes_ok bytes ->
  match Image_parse bytes with
  | Ok image => image_safe bytes image
  | Err _ => True
  | Panic => False
  end.
Proof.
  intros Hb. unfold Image_parse.
  pose proof (number_not_panic bytes) as Hn. pose proof (parse_header_not_panic bytes) as Hh.
  destruct (parse_header bytes) as [[]|e|]; [|done|done].
  destruct (number bytes 32 8) as [offset|e|] eqn:Eo; [|done|by eapply Hn].
  apply number_Ok in Eo as (_ & _ & [Ho _]); [|done|lia|lia].
  destruct (number bytes 56 2) as [count|e|] eqn:Ecn; [|done|by eapply Hn].
  destruct (negb _); [done|]. destruct (_ || _); [done|].
  destruct (number bytes 24 8) as [entry|e|] eqn:Een; [|done|by eapply Hn].
  destruct (parse_segments _ _ _ _) as [x|e|] eqn:Ex; [|done|by eapply parse_segments_not_panic].
  apply parse_segments_ok in Ex as [Hseg Hord Hpg Hbud Hcnt]; [|done|done|].
  2:{ split; simpl; [done|done|done|by vm_compute|lia]. }
  destruct (existsb _ _) eqn:Eex; [|done].
  apply existsb_exists in Eex as (s & Hin & Hs). apply list_elem_of_In in Hin.
  rewrite !andb_true_iff, Z.leb_le, Z.ltb_lt in Hs.
  split; simpl.
  - done.
  - done.
  - done.
  - intros a b s1 s2 Hlt H1 H2. by eapply pages_ordered_disjoint.
  - revert Hseg. apply Forall_impl. intros t [? ? ? _ _ _ _ _].
    destruct (page_bounds t) as ([? ?] & ? & [? ?]); done.
  - lia.
  - exists s. tauto.
  - intros t Ht. apply Image_data_ok. rewrite list.Forall_forall in Hseg. by apply Hseg.
Qed.

(** A minimal image: one read-execute segment over the whole file. *)
Definition elf_example : list Z :=
  elf_magic ++ zeros 7 ++ le_bytes 2 2 ++ le_bytes 2 62 ++ le_bytes 4 1 ++ le_bytes 8 0x400078 ++
  le_bytes 8 64 ++ le_bytes 8 0 ++ le_bytes 4 0 ++ le_bytes 2 64 ++ le_bytes 2 56 ++ le_bytes 2 1 ++ zeros 6 ++
  le_bytes 4 1 ++ le_bytes 4 5 ++ le_bytes 8 0 ++ le_bytes 8 0x400000 ++ le_bytes 8 0x400000 ++
  le_bytes 8 128 ++ le_bytes 8 8192 ++ le_bytes 8 4096 ++ zeros 8.

Lemma elf_parse_is_safe_witness :
  image_safe elf_example (mkImage elf_example 0x400078 [mkSegment 0x400000 8192 0 128 false true]).
Proof.
  assert (Hok : bytes_ok elf_example) by (apply (bool_decide_unpack _); by vm_compute).
  pose proof (elf_parse_is_safe elf_example Hok) as H.
  assert (Hp : Image_parse elf_example =
    Ok (mkImage elf_example 0x400078 [mkSegment 0x400000 8192 0 128 false true])) by (by vm_compute).
  rewrite Hp in H. exact H.
Defined.
