(* ===== verification/Lifecycle.v ===== *)
(** * Process lifecycle (kernel/src/process/lifecycle.rs)

    The sixteen-slot process table: creation with monotonic process numbers, the
    state machine of one process and the round-robin scheduler.  The table is
    related to the map from process numbers to states; the scheduler is shown
    fair along every history. *)
From stdpp Require Import base list option numbers.
From Stdlib Require Import ZArith Lia Bool.
From S2P Require Import Prelude.

Definition CAPACITY : nat := 16.

Inductive Exit := ExitCode (code : Z) | Fault (vector error address : Z) | Killed.
#[global] Instance Exit_eq_dec : EqDecision Exit.
Proof. solve_decision. Defined.

Inductive State := Dormant | Ready | Running | Blocked | Exited (exit : Exit).
#[global] Instance State_eq_dec : EqDecision State.
Proof. solve_decision. Defined.

Inductive LifeError :=
| LifeFull | Unknown | LifeRunning | NotExited | AlreadyExited | NotRunning | NotBlocked | LifeExhausted.

Record Process := mkProcess { p_pid : Z; p_state : State }.

Record ProcessTable := mkProcesses { l_slots : list (option Process); l_next : Z; l_cursor : nat }.

Definition ProcessTable_new : ProcessTable := mkProcesses (replicate CAPACITY None) 1 (CAPACITY - 1).

Definition set_slot (t : ProcessTable) (slot : nat) (p : option Process) : ProcessTable :=
  mkProcesses (<[slot := p]> (l_slots t)) (l_next t) (l_cursor t).

Definition ProcessTable_create (t : ProcessTable) : outcome LifeError (nat * Z) * ProcessTable :=
  match position is_none (l_slots t) with
  | None => (Err LifeFull, t)
  | Some slot =>
    match checked_add (l_next t) 1 with
    | None => (Err LifeExhausted, t)
    | Some next =>
      (Ok (slot, l_next t),
       mkProcesses (<[slot := Some (mkProcess (l_next t) Ready)]> (l_slots t)) next (l_cursor t))
    end
  end.

Definition ProcessTable_slot (t : ProcessTable) (pid : Z) : outcome LifeError nat :=
  ok_or (position (is_some_and (fun r => p_pid r =? pid)) (l_slots t)) Unknown.

(** [self.slots[self.slot(pid)?].as_mut().unwrap()], then [f] on the state. *)
Definition with_record (t : ProcessTable) (pid : Z) (f : State -> outcome LifeError State) :
    outcome LifeError unit * ProcessTable :=
  match ProcessTable_slot t pid with
  | Ok slot =>
    match mjoin (l_slots t !! slot) with
    | Some record =>
      match f (p_state record) with
      | Ok state => (Ok tt, set_slot t slot (Some (mkProcess (p_pid record) state)))
      | Err e => (Err e, t)
      | Panic => (Panic, t)
      end
    | None => (Panic, t)
    end
  | Err e => (Err e, t)
  | Panic => (Panic, t)
  end.

Definition ProcessTable_hold (t : ProcessTable) (pid : Z) :=
  with_record t pid (fun s => if decide (s = Ready) then Ok Dormant else Err NotRunning).
Definition ProcessTable_start (t : ProcessTable) (pid : Z) :=
  with_record t pid (fun s => if decide (s = Dormant) then Ok Ready else Err NotRunning).
Definition ProcessTable_suspend (t : ProcessTable) (pid : Z) :=
  with_record t pid (fun s => if decide (s = Running) then Ok Ready else Err NotRunning).
Definition ProcessTable_finish (t : ProcessTable) (pid : Z) (exit : Exit) :=
  with_record t pid (fun s => match s with Exited _ => Err AlreadyExited | _ => Ok (Exited exit) end).
Definition ProcessTable_block (t : ProcessTable) (pid : Z) :=
  with_record t pid (fun s => if decide (s = Running) then Ok Blocked else Err NotRunning).
Definition ProcessTable_wake (t : ProcessTable) (pid : Z) :=
  with_record t pid (fun s => if decide (s = Blocked) then Ok Ready else Err NotBlocked).

Definition ProcessTable_state (t : ProcessTable) (pid : Z) : outcome LifeError State :=
  let? slot := ProcessTable_slot t pid in
  match mjoin (l_slots t !! slot) with Some r => Ok (p_state r) | None => Panic end.

(** [schedule]'s loop over the distances [1..=CAPACITY]. *)
Fixpoint schedule_scan (t : ProcessTable) (distances : list nat) : option (nat * Z) :=
  match distances with
  | [] => None
  | distance :: distances =>
    let slot := ((l_cursor t + distance) mod CAPACITY)%nat in
    match mjoin (l_slots t !! slot) with
    | Some record => if decide (p_state record = Ready) then Some (slot, p_pid record)
                     else schedule_scan t distances
    | None => schedule_scan t distances
    end
  end.

Definition ProcessTable_schedule (t : ProcessTable) : outcome LifeError (option (nat * Z)) * ProcessTable :=
  if existsb (is_some_and (fun r => bool_decide (p_state r = Running))) (l_slots t) then (Err LifeRunning, t)
  else match schedule_scan t (seq 1 CAPACITY) with
  | Some (slot, pid) =>
    (Ok (Some (slot, pid)),
     mkProcesses (<[slot := Some (mkProcess pid Running)]> (l_slots t)) (l_next t) slot)
  | None => (Ok None, t)
  end.

Definition ProcessTable_pid_at (t : ProcessTable) (slot : nat) : option Z :=
  p_pid <$> mjoin (l_slots t !! slot).

Definition ProcessTable_reap (t : ProcessTable) (pid : Z) : outcome LifeError Exit * ProcessTable :=
  match ProcessTable_slot t pid with
  | Ok slot =>
    match mjoin (l_slots t !! slot) with
    | Some record =>
      match p_state record with
      | Exited exit => (Ok exit, set_slot t slot None)
      | _ => (Err NotExited, t)
      end
    | None => (Panic, t)
    end
  | Err e => (Err e, t)
  | Panic => (Panic, t)
  end.

(** ** Invariant and the abstract map *)
Definition at_slot (t : ProcessTable) (slot : nat) (pid : Z) (s : State) : Prop :=
  l_slots t !! slot = Some (Some (mkProcess pid s)).

Record Table_ok (t : ProcessTable) : Prop := {
  to_length : length (l_slots t) = CAPACITY;
  to_cursor : (l_cursor t < CAPACITY)%nat;
  to_next : 1 <= l_next t <= u64_max;
  to_pids : forall i pid s, at_slot t i pid s -> 1 <= pid < l_next t;
  to_unique : forall i j pid s s', at_slot t i pid s -> at_slot t j pid s' -> i = j;
  to_running : forall i j pid pid' , at_slot t i pid Running -> at_slot t j pid' Running -> i = j;
}.

(** The state of a process, if it is in the table. *)
Definition status (t : ProcessTable) (pid : Z) : option State :=
  match ProcessTable_state t pid with Ok s => Some s | _ => None end.

Lemma slot_spec t pid :
  match ProcessTable_slot t pid with
  | Ok i => exists s, at_slot t i pid s
  | Err e => e = Unknown /\ forall i s, ~ at_slot t i pid s
  | Panic => False
  end.
Proof.
  unfold ProcessTable_slot. destruct (position _ _) as [i|] eqn:E; simpl.
  - apply position_Some in E as [(o & Ho & Hp) _]. destruct o as [[q s]|]; simpl in Hp; [|done].
    apply Z.eqb_eq in Hp as ->. by exists s.
  - split; [done|]. intros i s Hat. rewrite position_None in E.
    specialize (E _ _ Hat). simpl in E. by rewrite Z.eqb_refl in E.
Qed.

Lemma state_at t pid i s : Table_ok t -> at_slot t i pid s -> ProcessTable_state t pid = Ok s.
Proof.
  intros Hok Hat. unfold ProcessTable_state. pose proof (slot_spec t pid) as Hs.
  destruct (ProcessTable_slot t pid) as [j|e|]; [|by destruct Hs as [_ H]; apply H in Hat|done].
  destruct Hs as [s' Hj]. pose proof (to_unique _ Hok _ _ _ _ _ Hat Hj) as <-.
  unfold at_slot in *. rewrite Hj in Hat. injection Hat as ->. by rewrite Hj.
Qed.

Lemma status_Some t pid s : Table_ok t -> status t pid = Some s <-> exists i, at_slot t i pid s.
Proof.
  intros Hok. split.
  - unfold status, ProcessTable_state. pose proof (slot_spec t pid) as Hs.
    destruct (ProcessTable_slot t pid) as [j|e|]; [|done|done]. destruct Hs as [s' Hj].
    unfold at_slot in Hj. rewrite Hj. simpl. intros [= ->]. by exists j.
  - intros [i Hi]. unfold status. by rewrite (state_at t pid i s).
Qed.

Lemma status_None t pid : Table_ok t -> status t pid = None <-> forall i s, ~ at_slot t i pid s.
Proof.
  intros Hok. split.
  - intros H i s Hi. assert (status t pid = Some s) by (apply status_Some; [done|by exists i]). congruence.
  - intros H. destruct (status t pid) as [s|] eqn:E; [|done].
    apply status_Some in E as [i Hi]; [|done]. by apply H in Hi.
Qed.

Lemma new_table_ok : Table_ok ProcessTable_new /\ forall pid, status ProcessTable_new pid = None.
Proof.
  assert (Hno : forall i pid s, ~ at_slot ProcessTable_new i pid s).
  { intros i pid s Hi. unfold at_slot in Hi. apply lookup_replicate in Hi as [Hi _]. done. }
  assert (Hok : Table_ok ProcessTable_new).
  { split; [done|unfold CAPACITY; simpl; lia|simpl; unfold u64_max; lia|..]; intros; by (exfalso; eapply Hno; eassumption). }
  split; [done|]. intros pid. by apply status_None.
Qed.

(** ** Changing one slot *)
Lemma at_set_slot t i o j q s :
  (i < length (l_slots t))%nat ->
  at_slot (set_slot t i o) j q s <-> (i = j /\ o = Some (mkProcess q s)) \/ (i <> j /\ at_slot t j q s).
Proof.
  intros Hi. unfold at_slot. simpl. destruct (decide (i = j)) as [->|Hne].
  - rewrite list_lookup_insert_eq by done. split; [intros [= ->]; by left|]. by intros [[_ ->]|[? _]].
  - rewrite list_lookup_insert_ne by done. split; [by right|]. by intros [[? _]|[_ ?]].
Qed.

Lemma at_slot_lt t i pid s : at_slot t i pid s -> (i < length (l_slots t))%nat.
Proof. apply lookup_lt_Some. Qed.

(** Both tables agree on every process but [pid]. *)
Definition only_changes (t t' : ProcessTable) (pid : Z) (s : option State) : Prop :=
  status t' pid = s /\ (forall q, q <> pid -> status t' q = status t q).

Lemma status_ext t t' q :
  Table_ok t -> Table_ok t' -> (forall i s, at_slot t' i q s <-> at_slot t i q s) -> status t' q = status t q.
Proof.
  intros Hok Hok' H. destruct (status t q) as [s|] eqn:E.
  - apply status_Some; [done|]. apply status_Some in E as [i Hi]; [|done]. exists i. by apply H.
  - apply status_None; [done|]. intros i s Hi%H. by eapply status_None in E.
Qed.

Lemma set_state_ok t i pid s s' :
  Table_ok t -> at_slot t i pid s -> (s' = Running -> forall j q, ~ at_slot t j q Running) ->
  let t' := set_slot t i (Some (mkProcess pid s')) in
  Table_ok t' /\ only_changes t t' pid (Some s').
Proof.
  intros Hok Hi Hrun t'. pose proof (at_slot_lt _ _ _ _ Hi) as Hlt.
  pose proof (fun j q x => at_set_slot t i (Some (mkProcess pid s')) j q x Hlt) as Hat. fold t' in Hat.
  assert (Hback : forall j q x, at_slot t' j q x ->
    exists x0, at_slot t j q x0 /\ (x = Running -> x0 = Running \/ (s' = Running /\ j = i))).
  { intros j q x [[<- [= <- <-]]|[_ H]]%Hat; [exists s|exists x]; auto. }
  assert (Hok' : Table_ok t').
  { destruct Hok as [H1 H2 H3 H4 H5 H6]. split; simpl.
    - by rewrite length_insert.
    - done.
    - done.
    - intros j q x (x0 & H & _)%Hback. by eapply H4.
    - intros j k q x y (x0 & Hj & _)%Hback (y0 & Hk & _)%Hback. by eapply H5.
    - intros j k q q' (x0 & Hj & Hjr)%Hback (y0 & Hk & Hkr)%Hback.
      destruct (Hjr eq_refl) as [->|[Hs ->]], (Hkr eq_refl) as [->|[Hs' ->]]; [by eapply H6| | |done].
      + by eapply Hrun in Hj.
      + by eapply Hrun in Hk. }
  split; [done|]. split.
  - apply status_Some; [done|]. exists i. apply Hat. by left.
  - intros q Hq. apply status_ext; [done|done|]. intros j x. rewrite Hat. split.
    + intros [[_ [= <- _]]|[_ H]]; done.
    + intros H. right. split; [|done]. intros <-. unfold at_slot in *. congruence.
Qed.

(** Removing the process of a slot. *)
Lemma clear_slot_ok t i pid s :
  Table_ok t -> at_slot t i pid s ->
  Table_ok (set_slot t i None) /\ only_changes t (set_slot t i None) pid None.
Proof.
  intros Hok Hi. pose proof (at_slot_lt _ _ _ _ Hi) as Hlt.
  pose proof (fun j q x => at_set_slot t i None j q x Hlt) as Hat.
  assert (Hback : forall j q x, at_slot (set_slot t i None) j q x -> i <> j /\ at_slot t j q x).
  { intros j q x [[_ ?]|H]%Hat; done. }
  assert (Hok' : Table_ok (set_slot t i None)).
  { destruct Hok as [H1 H2 H3 H4 H5 H6]. split; simpl; [by rewrite length_insert|done|done|..].
    - intros j q x [_ H]%Hback. by eapply H4.
    - intros j k q x y [_ Hj]%Hback [_ Hk]%Hback. by eapply H5.
    - intros j k q q' [_ Hj]%Hback [_ Hk]%Hback. by eapply H6. }
  split; [done|]. split.
  - apply status_None; [done|]. intros j x [Hne H]%Hback. apply Hne. by eapply (to_unique _ Hok).
  - intros q Hq. apply status_ext; [done|done|]. intros j x. rewrite Hat. split.
    + intros [[_ ?]|[_ H]]; done.
    + intros H. right. split; [|done]. intros <-. unfold at_slot in *. congruence.
Qed.

(** ** The state machine of one process *)
Inductive verb := Hold | Start | Suspend | Finish (exit : Exit) | Block | Wake.

Definition ProcessTable_verb (t : ProcessTable) (v : verb) (pid : Z) : outcome LifeError unit * ProcessTable :=
  match v with
  | Hold => ProcessTable_hold t pid
  | Start => ProcessTable_start t pid
  | Suspend => ProcessTable_suspend t pid
  | Finish exit => ProcessTable_finish t pid exit
  | Block => ProcessTable_block t pid
  | Wake => ProcessTable_wake t pid
  end.

Inductive edge : State -> verb -> State -> Prop :=
| edge_hold : edge Ready Hold Dormant
| edge_start : edge Dormant Start Ready
| edge_suspend : edge Running Suspend Ready
| edge_block : edge Running Block Blocked
| edge_wake : edge Blocked Wake Ready
| edge_finish s x : (forall y, s <> Exited y) -> edge s (Finish x) (Exited x).
#[local] Hint Constructors edge : core.

Definition verb_contract (t : ProcessTable) (v : verb) (pid : Z) (res : outcome LifeError unit * ProcessTable) : Prop :=
  match res with
  | (Ok _, t') => exists s s', status t pid = Some s /\ edge s v s' /\ Table_ok t' /\
      only_changes t t' pid (Some s') /\ l_next t' = l_next t /\ l_cursor t' = l_cursor t
  | (Err Unknown, t') => t' = t /\ status t pid = None
  | (Err _, t') => t' = t /\ exists s, status t pid = Some s /\ forall s', ~ edge s v s'
  | (Panic, _) => False
  end.

Lemma with_record_spec t pid f :
  Table_ok t ->
  match status t pid with
  | None => with_record t pid f = (Err Unknown, t)
  | Some s => exists i, at_slot t i pid s /\
      with_record t pid f =
        match f s with
        | Ok s' => (Ok tt, set_slot t i (Some (mkProcess pid s')))
        | Err e => (Err e, t)
        | Panic => (Panic, t)
        end
  end.
Proof.
  intros Hok. pose proof (slot_spec t pid) as Hs. unfold with_record.
  destruct (ProcessTable_slot t pid) as [i|e|] eqn:E; [| |done].
  - destruct Hs as [s Hi]. assert (Hst : status t pid = Some s) by (apply status_Some; [done|by exists i]).
    rewrite Hst. exists i. split; [done|]. unfold at_slot in Hi. rewrite Hi. simpl. by destruct (f s).
  - destruct Hs as [-> Hno]. assert (Hst : status t pid = None) by (by apply status_None). by rewrite Hst.
Qed.

Lemma verb_meets_contract t v pid : Table_ok t -> verb_contract t v pid (ProcessTable_verb t v pid).
Proof.
  intros Hok.
  assert (Hgen : forall f : State -> outcome LifeError State,
    (forall s, match f s with
               | Ok s' => edge s v s' /\ s' <> Running
               | Err Unknown => False
               | Err _ => forall s', ~ edge s v s'
               | Panic => False end) -> verb_contract t v pid (with_record t pid f)).
  { intros f Hf. pose proof (with_record_spec t pid f Hok) as H.
    destruct (status t pid) as [s|] eqn:Es; [|by rewrite H].
    destruct H as (i & Hi & ->). specialize (Hf s). destruct (f s) as [s'|e|]; [| |done].
    - destruct Hf as [He Hr]. destruct (set_state_ok t i pid s s' Hok Hi) as [Hok' Hch]; [done|].
      exists s, s'. auto 10.
    - destruct e; simpl; eauto; done. }
  destruct v; apply Hgen; intros s; destruct s; simpl; try (split; [|done]); auto;
    try (intros s' He; inversion He; congruence); try (constructor; congruence).
Qed.

(** ** Creation, scheduling and reaping *)
Definition create_contract (t : ProcessTable) (res : outcome LifeError (nat * Z) * ProcessTable) : Prop :=
  match res with
  | (Ok (slot, pid), t') => pid = l_next t /\ status t pid = None /\ Table_ok t' /\
      only_changes t t' pid (Some Ready) /\ ProcessTable_pid_at t slot = None /\
      at_slot t' slot pid Ready /\ l_next t' = pid + 1 /\ l_cursor t' = l_cursor t /\
      (forall i q s, at_slot t i q s -> at_slot t' i q s)
  | (Err LifeFull, t') => t' = t /\ forall i, (i < CAPACITY)%nat -> exists pid s, at_slot t i pid s
  | (Err LifeExhausted, t') => t' = t /\ l_next t = u64_max
  | _ => False
  end.

Lemma create_meets_contract t : Table_ok t -> create_contract t (ProcessTable_create t).
Proof.
  intros Hok. unfold ProcessTable_create, create_contract.
  destruct (position is_none (l_slots t)) as [i|] eqn:E.
  2:{ split; [done|]. intros i Hi. rewrite position_None in E. rewrite <- (to_length _ Hok) in Hi.
      apply lookup_lt_is_Some in Hi as [o Ho]. specialize (E _ _ Ho).
      destruct o as [[pid s]|]; [|done]. by exists pid, s. }
  apply position_Some in E as [(o & Ho & Hn) _]. destruct o; [done|].
  destruct (checked_add (l_next t) 1) as [next|] eqn:Ec.
  2:{ apply checked_add_None in Ec. split; [done|]. pose proof (to_next _ Hok). lia. }
  apply checked_add_Some in Ec as [-> Hmax].
  pose proof (lookup_lt_Some _ _ _ Ho) as Hlt. set (pid := l_next t).
  assert (Hfresh : forall j s, ~ at_slot t j pid s).
  { intros j s Hj. pose proof (to_pids _ Hok _ _ _ Hj). unfold pid in *. lia. }
  set (t' := mkProcesses _ _ _).
  assert (Hat : forall j q x, at_slot t' j q x <-> (i = j /\ q = pid /\ x = Ready) \/ at_slot t j q x).
  { intros j q x. pose proof (at_set_slot t i (Some (mkProcess pid Ready)) j q x Hlt) as H.
    unfold at_slot in *. simpl in *. rewrite H. split.
    - intros [[-> [= <- <-]]|[_ ?]]; auto.
    - intros [(-> & -> & ->)|Hx]; [by left|]. right. split; [|done]. intros <-. congruence. }
  assert (Hok' : Table_ok t').
  { destruct Hok as [H1 H2 H3 H4 H5 H6]. split; simpl; [by rewrite length_insert|done|lia|..].
    - intros j q x [(_ & -> & _)|H]%Hat; [unfold pid; lia|]. apply H4 in H. lia.
    - intros j k q x y [(<- & -> & ->)|Hj]%Hat [(<- & Hq & ->)|Hk]%Hat; [done| | |by eapply H5].
      + by apply Hfresh in Hk.
      + subst q. by apply Hfresh in Hj.
    - intros j k q q' [(_ & _ & ?)|Hj]%Hat [(_ & _ & ?)|Hk]%Hat; try done. by eapply H6. }
  split; [done|]. split; [by apply status_None|]. split; [done|]. split; [split|].
  - apply status_Some; [done|]. exists i. apply Hat. auto.
  - intros q Hq. apply status_ext; [done|done|]. intros j x. rewrite Hat. intuition congruence.
  - split; [by unfold ProcessTable_pid_at; rewrite Ho|]. split; [apply Hat; auto|].
    split; [done|]. split; [done|]. intros j q s Hj. apply Hat. auto.
Qed.

Definition reap_contract (t : ProcessTable) (pid : Z) (res : outcome LifeError Exit * ProcessTable) : Prop :=
  match res with
  | (Ok exit, t') => status t pid = Some (Exited exit) /\ Table_ok t' /\ only_changes t t' pid None /\
      l_next t' = l_next t /\ l_cursor t' = l_cursor t
  | (Err Unknown, t') => t' = t /\ status t pid = None
  | (Err NotExited, t') => t' = t /\ exists s, status t pid = Some s /\ forall x, s <> Exited x
  | _ => False
  end.

Lemma reap_meets_contract t pid : Table_ok t -> reap_contract t pid (ProcessTable_reap t pid).
Proof.
  intros Hok. unfold ProcessTable_reap, reap_contract. pose proof (slot_spec t pid) as Hs.
  destruct (ProcessTable_slot t pid) as [i|e|]; [| |done].
  - destruct Hs as [s Hi]. assert (Hst : status t pid = Some s) by (apply status_Some; [done|by exists i]).
    pose proof Hi as Hi'. unfold at_slot in Hi'. rewrite Hi'. simpl.
    destruct s; try (split; [done|]; eexists; split; [exact Hst|done]).
    destruct (clear_slot_ok t i pid _ Hok Hi) as [Hok' Hch]. auto.
  - destruct Hs as [-> Hno]. split; [done|]. by apply status_None.
Qed.

(** How many steps of the round robin separate a slot from the cursor. *)
Definition distance (t : ProcessTable) (slot : nat) : nat :=
  ((slot + (2 * CAPACITY - 1 - l_cursor t)) mod CAPACITY)%nat.

Lemma distance_lt t slot : (distance t slot < CAPACITY)%nat.
Proof. by apply Nat.mod_upper_bound. Qed.

Lemma distance_scan t d : (l_cursor t < CAPACITY)%nat -> (d < CAPACITY)%nat ->
  distance t ((l_cursor t + S d) mod CAPACITY) = d.
Proof.
  intros Hc Hd. unfold distance. rewrite Nat.Div0.add_mod_idemp_l.
  replace (l_cursor t + S d + (2 * CAPACITY - 1 - l_cursor t))%nat with (d + 2 * CAPACITY)%nat by lia.
  rewrite Nat.Div0.mod_add. by apply Nat.mod_small.
Qed.

Lemma scan_distance t slot : (l_cursor t < CAPACITY)%nat -> (slot < CAPACITY)%nat ->
  ((l_cursor t + S (distance t slot)) mod CAPACITY = slot)%nat.
Proof.
  intros Hc Hs. unfold distance. rewrite <- Nat.add_1_r, Nat.add_assoc.
  rewrite <- (Nat.Div0.add_mod_idemp_l _ 1), Nat.Div0.add_mod_idemp_r, Nat.Div0.add_mod_idemp_l.
  replace (l_cursor t + (slot + (2 * CAPACITY - 1 - l_cursor t)) + 1)%nat with (slot + 2 * CAPACITY)%nat by lia.
  rewrite Nat.Div0.mod_add. by apply Nat.mod_small.
Qed.

Lemma schedule_scan_spec t ds :
  match schedule_scan t ds with
  | Some (slot, pid) => exists pre d post, ds = pre ++ d :: post /\ slot = ((l_cursor t + d) mod CAPACITY)%nat /\
      at_slot t slot pid Ready /\ forall e q, e ∈ pre -> ~ at_slot t ((l_cursor t + e) mod CAPACITY) q Ready
  | None => forall e q, e ∈ ds -> ~ at_slot t ((l_cursor t + e) mod CAPACITY) q Ready
  end.
Proof.
  induction ds as [|d ds IH]; cbn [schedule_scan]; [intros e q H; by apply elem_of_nil in H|].
  set (slot := ((l_cursor t + d) mod CAPACITY)%nat).
  destruct (mjoin (l_slots t !! slot)) as [[pid s]|] eqn:E; [destruct (decide (p_state (mkProcess pid s) = Ready)) as [Hr|Hr]|].
  { simpl in Hr. subst s. exists [], d, ds. split; [done|]. split; [done|].
    split; [|intros e q H; by apply elem_of_nil in H]. unfold at_slot. simpl.
    destruct (l_slots t !! slot) as [[?|]|] eqn:E'; simpl in E; congruence. }
  all: assert (Hno : forall q, ~ at_slot t slot q Ready) by
    (intros q Hq; unfold at_slot in Hq; rewrite Hq in E; simpl in *; congruence).
  all: destruct (schedule_scan t ds) as [[slot' pid']|];
    [destruct IH as (pre & d' & post & -> & Hsl & Hat & Hpre); exists (d :: pre), d', post;
     do 3 (split; [done|])|];
    intros e q [->|He]%elem_of_cons; auto.
Qed.

Definition schedule_contract (t : ProcessTable) (res : outcome LifeError (option (nat * Z)) * ProcessTable) : Prop :=
  match res with
  | (Ok (Some (slot, pid)), t') => at_slot t slot pid Ready /\ Table_ok t' /\
      only_changes t t' pid (Some Running) /\ l_next t' = l_next t /\ l_cursor t' = slot /\
      (forall j q, (distance t j < distance t slot)%nat -> ~ at_slot t j q Ready) /\
      (forall q, status t q <> Some Running)
  | (Ok None, t') => t' = t /\ forall q, status t q <> Some Ready /\ status t q <> Some Running
  | (Err LifeRunning, t') => t' = t /\ exists q, status t q = Some Running
  | _ => False
  end.

Lemma schedule_meets_contract t : Table_ok t -> schedule_contract t (ProcessTable_schedule t).
Proof.
  intros Hok. unfold ProcessTable_schedule, schedule_contract.
  assert (Hlen : forall j q s, at_slot t j q s -> (j < CAPACITY)%nat).
  { intros j q s H%at_slot_lt. by rewrite (to_length _ Hok) in H. }
  destruct (existsb _ (l_slots t)) eqn:Ex.
  { split; [done|]. apply existsb_exists in Ex as (o & Hin & Ho). destruct o as [[q s]|]; [|done].
    simpl in Ho. apply bool_decide_eq_true in Ho as ->. apply list_elem_of_In, list_elem_of_lookup in Hin as [i Hi].
    exists q. apply status_Some; [done|]. by exists i. }
  assert (Hnorun : forall j q, ~ at_slot t j q Running).
  { intros j q Hj. rewrite <- not_true_iff_false, existsb_exists in Ex. apply Ex.
    exists (Some (mkProcess q Running)). split; [|done]. apply list_elem_of_In, list_elem_of_lookup. by exists j. }
  assert (Hnostat : forall q, status t q <> Some Running).
  { intros q Hq. apply status_Some in Hq as [j Hj]; [|done]. by apply Hnorun in Hj. }
  pose proof (schedule_scan_spec t (seq 1 CAPACITY)) as Hscan. pose proof (to_cursor _ Hok) as Hcur.
  destruct (schedule_scan t (seq 1 CAPACITY)) as [[slot pid]|].
  - destruct Hscan as (pre & d & post & Hseq & -> & Hat & Hpre).
    set (slot := ((l_cursor t + d) mod CAPACITY)%nat) in *.
    destruct (set_state_ok t slot pid Ready Running Hok Hat) as [Hok' Hch]; [by intros _; apply Hnorun|].
    assert (Hd : pre = seq 1 (length pre) /\ d = S (length pre) /\ (length pre < CAPACITY)%nat).
    { assert (Hl : length (seq 1 CAPACITY) = length (pre ++ d :: post)) by (by rewrite Hseq).
      rewrite length_seq, length_app in Hl. simpl in Hl.
      assert (Hcap : CAPACITY = (length pre + S (length post))%nat) by lia.
      rewrite Hcap, seq_app in Hseq. apply app_inj_1 in Hseq as [Hp Hq]; [|apply length_seq].
      simpl in Hq. injection Hq as <- _. split; [done|]. split; lia. }
    destruct Hd as (Hp & -> & Hpl).
    split; [done|]. split.
    { destruct Hok' as [H1 H2 H3 H4 H5 H6]. split; try done. simpl. by apply Nat.mod_upper_bound. }
    split; [done|]. split; [done|]. split; [done|]. split; [|done].
    intros j q Hdist Hj. unfold slot in Hdist. rewrite distance_scan in Hdist by done.
    apply (Hpre (S (distance t j)) q).
    + rewrite Hp. apply elem_of_seq. lia.
    + by rewrite scan_distance by (done || by eapply Hlen).
  - split; [done|]. intros q. split; [|done]. intros Hq. apply status_Some in Hq as [j Hj]; [|done].
    apply (Hscan (S (distance t j)) q).
    + apply elem_of_seq. pose proof (distance_lt t j). lia.
    + by rewrite scan_distance by (done || by eapply Hlen).
Qed.

(** ** Histories *)
Inductive life_call := LCreate | LVerb (v : verb) (pid : Z) | LSchedule | LReap (pid : Z).

Definition life_step (t : ProcessTable) (c : life_call) : ProcessTable :=
  match c with
  | LCreate => snd (ProcessTable_create t)
  | LVerb v pid => snd (ProcessTable_verb t v pid)
  | LSchedule => snd (ProcessTable_schedule t)
  | LReap pid => snd (ProcessTable_reap t pid)
  end.

(** What one call may do to the status of a process. *)
Inductive status_step (t t' : ProcessTable) (q : Z) : Prop :=
| st_same : status t' q = status t q -> status_step t t' q
| st_born : q = l_next t -> status t q = None -> status t' q = Some Ready -> status_step t t' q
| st_edge v s s' : status t q = Some s -> edge s v s' -> status t' q = Some s' -> status_step t t' q
| st_pick : status t q = Some Ready -> status t' q = Some Running -> status_step t t' q
| st_reap x : status t q = Some (Exited x) -> status t' q = None -> status_step t t' q.

Lemma life_step_ok t c :
  Table_ok t -> Table_ok (life_step t c) /\ l_next t <= l_next (life_step t c) /\
  forall q, status_step t (life_step t c) q /\ (q < l_next t -> status t q = None -> status (life_step t c) q = None).
Proof.
  intros Hok. assert (Hsame : Table_ok t /\ l_next t <= l_next t /\
    forall q, status_step t t q /\ (q < l_next t -> status t q = None -> status t q = None)) by (split; [done|]; split; [lia|]; auto using st_same).
  destruct c as [|v pid| |pid]; simpl.
  - pose proof (create_meets_contract t Hok) as H. destruct (ProcessTable_create t) as [[[slot pid]|[]|] t'];
      simpl in *; try done; try (by destruct H as [-> _]).
    destruct H as (-> & Hnone & Hok' & [Hch Hoth] & _ & _ & Hn & _). split; [done|]. split; [lia|]. intros q.
    destruct (decide (q = l_next t)) as [->|Hq]; [split; [by apply st_born|lia]|].
    rewrite (Hoth q Hq). split; [by apply st_same, Hoth|done].
  - pose proof (verb_meets_contract t v pid Hok) as H. destruct (ProcessTable_verb t v pid) as [[[]|[]|] t'];
      simpl in *; try done; try (by destruct H as [-> _]).
    destruct H as (s & s' & Hs & He & Hok' & [Hch Hoth] & Hn & _). split; [done|]. split; [lia|]. intros q.
    destruct (decide (q = pid)) as [->|Hq]; [split; [by eapply st_edge|congruence]|].
    rewrite (Hoth q Hq). split; [by apply st_same, Hoth|done].
  - pose proof (schedule_meets_contract t Hok) as H. destruct (ProcessTable_schedule t) as [[[[slot pid]|]|[]|] t'];
      simpl in *; try done; try (by destruct H as [-> _]).
    destruct H as (Hat & Hok' & [Hch Hoth] & Hn & _). split; [done|]. split; [lia|]. intros q.
    assert (Hs : status t pid = Some Ready) by (apply status_Some; [done|by exists slot]).
    destruct (decide (q = pid)) as [->|Hq]; [split; [by apply st_pick|congruence]|].
    rewrite (Hoth q Hq). split; [by apply st_same, Hoth|done].
  - pose proof (reap_meets_contract t pid Hok) as H. destruct (ProcessTable_reap t pid) as [[x|[]|] t'];
      simpl in *; try done; try (by destruct H as [-> _]).
    destruct H as (Hs & Hok' & [Hch Hoth] & Hn & _). split; [done|]. split; [lia|]. intros q.
    destruct (decide (q = pid)) as [->|Hq]; [split; [by eapply st_reap|congruence]|].
    rewrite (Hoth q Hq). split; [by apply st_same, Hoth|done].
Qed.

(** A process keeps its slot. *)
Lemma life_step_slots t c j q x :
  Table_ok t -> at_slot (life_step t c) j q x -> (exists x0, at_slot t j q x0) \/ q = l_next t.
Proof.
  intros Hok.
  assert (Hset : forall i o, at_slot (set_slot t i o) j q x ->
    (forall p, o = Some p -> exists s, at_slot t i (p_pid p) s) -> exists x0, at_slot t j q x0).
  { intros i o H Ho. destruct (decide (i < length (l_slots t))%nat) as [Hlt|Hge].
    - apply at_set_slot in H as [[<- ->]|[_ H]]; [|by exists x|done]. destruct (Ho _ eq_refl) as [s Hs]. by exists s.
    - unfold at_slot in H. simpl in H. rewrite list_insert_ge in H by lia. by exists x. }
  destruct c as [|v pid| |pid]; simpl.
  - unfold ProcessTable_create. destruct (position _ _) as [i|] eqn:E; [|by eauto].
    destruct (checked_add _ _) as [n|]; [|by eauto]. simpl. intros H.
    apply position_lt in E. pose proof (at_set_slot t i (Some (mkProcess (l_next t) Ready)) j q x E) as Hat.
    unfold at_slot in *. simpl in *. apply Hat in H as [[_ [= <- _]]|[_ H]]; eauto.
  - intros H. left. assert (Hgen : forall f, at_slot (snd (with_record t pid f)) j q x -> exists x0, at_slot t j q x0).
    { intros f. pose proof (with_record_spec t pid f Hok) as Hw. destruct (status t pid) as [s|]; [|rewrite Hw; eauto].
      destruct Hw as (i & Hi & ->). destruct (f s); simpl; eauto. intros Hx. eapply Hset; [exact Hx|].
      intros p [= <-]. eauto. }
    destruct v; by eapply Hgen.
  - pose proof (schedule_meets_contract t Hok) as H. unfold ProcessTable_schedule in *.
    destruct (existsb _ _); [by eauto|]. destruct (schedule_scan _ _) as [[slot pid]|]; [|by eauto]. simpl in *.
    destruct H as [Hat _]. intros Hx. left. eapply (Hset slot); [exact Hx|]. intros p [= <-]. eauto.
  - unfold ProcessTable_reap. destruct (ProcessTable_slot t pid) as [i|e|]; [|by eauto|by eauto].
    destruct (mjoin _) as [[p s]|]; [|by eauto]. simpl. destruct s; try (by eauto). intros Hx. left.
    eapply Hset; [exact Hx|done].
Qed.

Lemma step_keeps_slot t c i pid s s' :
  Table_ok t -> at_slot t i pid s -> status (life_step t c) pid = Some s' -> at_slot (life_step t c) i pid s'.
Proof.
  intros Hok Hi Hs. destruct (life_step_ok t c Hok) as (Hok' & _).
  apply status_Some in Hs as [j Hj]; [|done].
  destruct (life_step_slots t c j pid s' Hok Hj) as [[x0 Hj0]| ->].
  - by rewrite (to_unique _ Hok i j pid s x0 Hi Hj0).
  - pose proof (to_pids _ Hok _ _ _ Hi). lia.
Qed.

(** Whether this call handed the processor to some process. *)
Definition picks (t : ProcessTable) (c : life_call) : nat :=
  match c with
  | LSchedule => match fst (ProcessTable_schedule t) with Ok (Some _) => 1%nat | _ => 0%nat end
  | _ => 0%nat
  end.

Lemma life_step_distance t c i pid :
  Table_ok t -> at_slot t i pid Ready -> at_slot (life_step t c) i pid Ready ->
  (picks t c + distance (life_step t c) i <= distance t i)%nat.
Proof.
  intros Hok Hi Hi'. pose proof (at_slot_lt _ _ _ _ Hi) as Hlt. rewrite (to_length _ Hok) in Hlt.
  destruct c as [|v q| |q]; simpl.
  - pose proof (create_meets_contract t Hok) as H. destruct (ProcessTable_create t) as [[[slot p]|[]|] t'];
      simpl in *; try done; try (by destruct H as [-> _]).
    unfold distance. destruct H as (_ & _ & _ & _ & _ & _ & _ & -> & _). done.
  - pose proof (verb_meets_contract t v q Hok) as H. destruct (ProcessTable_verb t v q) as [[[]|[]|] t'];
      simpl in *; try done; try (by destruct H as [-> _]).
    unfold distance. by destruct H as (s & s' & _ & _ & _ & _ & _ & ->).
  - pose proof (schedule_meets_contract t Hok) as H. simpl in Hi'.
    destruct (ProcessTable_schedule t) as [[[[slot p]|]|[]|] t']; simpl in *; try done; try (by destruct H as [-> _]).
    destruct H as (Hat & Hok' & [Hch _] & _ & Hcur & Hmin & _).
    assert (Hne : slot <> i).
    { intros ->. unfold at_slot in Hi, Hat. rewrite Hi in Hat. injection Hat as ->.
      assert (status t' p = Some Ready) by (apply status_Some; [done|by exists i]). congruence. }
    pose proof (at_slot_lt _ _ _ _ Hat) as Hsl. rewrite (to_length _ Hok) in Hsl.
    pose proof (to_cursor _ Hok) as Hc.
    assert (Hle : (distance t slot <= distance t i)%nat).
    { destruct (decide (distance t i < distance t slot)%nat) as [Hd|]; [|lia]. by apply (Hmin i pid) in Hd. }
    assert (Hneq : distance t slot <> distance t i).
    { intros Heq. apply Hne. rewrite <- (scan_distance t slot), Heq, scan_distance by done. done. }
    (* advancing the cursor to [slot] shortens the way to [i] by more than [distance t slot] *)
    rewrite <- (scan_distance t i) at 1 by done.
    pose proof (scan_distance t slot Hc Hsl) as Hslot.
    set (d := distance t slot) in *. set (e := distance t i) in *.
    pose proof (distance_lt t i) as He. fold e in He.
    replace ((l_cursor t + S e) mod CAPACITY)%nat with ((l_cursor t' + S (e - d - 1)) mod CAPACITY)%nat.
    + rewrite distance_scan; [lia| |lia]. apply (to_cursor _ Hok').
    + rewrite Hcur, <- Hslot, Nat.Div0.add_mod_idemp_l. f_equal. lia.
  - pose proof (reap_meets_contract t q Hok) as H. destruct (ProcessTable_reap t q) as [[x|[]|] t'];
      simpl in *; try done; try (by destruct H as [-> _]).
    unfold distance. by destruct H as (_ & _ & _ & _ & ->).
Qed.

Lemma life_steps_ok calls t : Table_ok t -> Table_ok (foldl life_step t calls) /\ l_next t <= l_next (foldl life_step t calls).
Proof.
  revert t. induction calls as [|c calls IH]; intros t Hok; simpl; [split; [done|lia]|].
  destruct (life_step_ok t c Hok) as (Hok' & Hn & _). destruct (IH _ Hok'). split; [done|lia].
Qed.

Lemma gone_stays_gone calls t q :
  Table_ok t -> q < l_next t -> status t q = None -> status (foldl life_step t calls) q = None.
Proof.
  revert t. induction calls as [|c calls IH]; intros t Hok Hq Hn; simpl; [done|].
  destruct (life_step_ok t c Hok) as (Hok' & Hnext & Hst). apply IH; [done|lia|by apply Hst].
Qed.

(** [pid] is ready in [t] and stays so through every call. *)
Fixpoint stays_ready (t : ProcessTable) (pid : Z) (calls : list life_call) : Prop :=
  status t pid = Some Ready /\
  match calls with [] => True | c :: calls => stays_ready (life_step t c) pid calls end.

Fixpoint total_picks (t : ProcessTable) (calls : list life_call) : nat :=
  match calls with [] => 0%nat | c :: calls => (picks t c + total_picks (life_step t c) calls)%nat end.

Lemma total_picks_distance calls t i pid :
  Table_ok t -> at_slot t i pid Ready -> stays_ready t pid calls -> (total_picks t calls <= distance t i)%nat.
Proof.
  revert t. induction calls as [|c calls IH]; intros t Hok Hi Hstay; simpl; [lia|].
  destruct Hstay as [_ Hstay]. destruct (life_step_ok t c Hok) as [Hok' _].
  assert (Hs : status (life_step t c) pid = Some Ready) by (destruct calls; apply Hstay).
  assert (Hi' : at_slot (life_step t c) i pid Ready) by (by eapply step_keeps_slot).
  pose proof (life_step_distance t c i pid Hok Hi Hi'). specialize (IH _ Hok' Hi' Hstay). lia.
Qed.

(** ** Properties *)

(** C16 (lifecycle_refines_state_graph): in every state reached from
    [Table::new], each call implements the process graph: hold, start, suspend,
    finish, block and wake succeed exactly when the state graph has the edge and
    then change that process only; create makes a ready process with a fresh
    number; schedule runs the ready process nearest after the cursor, reports
    that none is ready, or that one is running; reap removes an exited process
    only; at most one process runs, and no call panics. *)
Theorem lifecycle_refines_state_graph calls v pid :
  let t := foldl life_step ProcessTable_new calls in
  Table_ok t /\ verb_contract t v pid (ProcessTable_verb t v pid) /\
  create_contract t (ProcessTable_create t) /\ schedule_contract t (ProcessTable_schedule t) /\
  reap_contract t pid (ProcessTable_reap t pid).
Proof.
  intros t. assert (Hok : Table_ok t) by (apply life_steps_ok, new_table_ok).
  auto 10 using verb_meets_contract, create_meets_contract, schedule_meets_contract, reap_meets_contract.
Qed.

(** C35 (scheduler_is_fair): while a process stays ready, whatever calls are
    made, at most fifteen other processes are handed the processor before it:
    after [CAPACITY] successful picks it cannot still be waiting. *)
Theorem scheduler_is_fair before pid calls :
  let t := foldl life_step ProcessTable_new before in
  stays_ready t pid calls -> (total_picks t calls < CAPACITY)%nat.
Proof.
  intros t Hstay. assert (Hok : Table_ok t) by (apply life_steps_ok, new_table_ok).
  assert (Hs : status t pid = Some Ready) by (by destruct calls; apply Hstay).
  apply status_Some in Hs as [i Hi]; [|done].
  pose proof (total_picks_distance calls t i pid Hok Hi Hstay). pose proof (distance_lt t i). lia.
Qed.

Lemma scheduler_is_fair_witness :
  (total_picks (foldl life_step ProcessTable_new [LCreate; LCreate]) [LSchedule; LVerb Suspend 1] < CAPACITY)%nat.
Proof.
  apply (scheduler_is_fair [LCreate; LCreate] 2 [LSchedule; LVerb Suspend 1]).
  repeat split; by vm_compute.
Defined.

(** a process number that was issued and is no
    longer in the table never names a process again. *)
Theorem pids_are_never_reused before calls q :
  let t := foldl life_step ProcessTable_new before in
  q < l_next t -> status t q = None -> status (foldl life_step t calls) q = None.
Proof. intros t. apply gone_stays_gone, life_steps_ok, new_table_ok. Qed.

Lemma pids_are_never_reused_witness :
  status (foldl life_step (foldl life_step ProcessTable_new [LCreate; LVerb (Finish Killed) 1; LReap 1])
            [LCreate; LCreate; LSchedule]) 1 = None.
Proof.
  apply (pids_are_never_reused [LCreate; LVerb (Finish Killed) 1; LReap 1] [LCreate; LCreate; LSchedule] 1);
    by vm_compute.
Defined.
