(* ===== verification/Time.v ===== *)
(** * Deadlines (kernel/src/time)

    Monotonic deadlines, the tick conversion and the set of simultaneous waits. *)
From stdpp Require Import base list option numbers.
From Stdlib Require Import ZArith Lia Bool.
From S2P Require Import Prelude.

Inductive Overflow := TimeOverflow.

(** A [Deadline] is its tick. *)
Definition Deadline_after (now ticks : Z) : outcome Overflow Z := ok_or (checked_add now ticks) TimeOverflow.
Definition Deadline_reached (deadline now : Z) : bool := deadline <=? now.

(** The product is computed in [u128]. *)
Definition ticks_to_nanos (ticks divisor input_hz : Z) : option Z :=
  if (input_hz =? 0) || (divisor =? 0) then None
  else Some (Z.min (ticks * divisor * 1000000000 / input_hz) u64_max).

Inductive WaitError := InvalidSlot | Occupied.

(** [WaitSet<N>]: its [slots]. *)
Abbreviation WaitSet := (list (option Z)).

Definition WaitSet_new (n : nat) : WaitSet := replicate n None.

Definition WaitSet_register (w : WaitSet) (slot : nat) (deadline : Z) : outcome WaitError unit * WaitSet :=
  match w !! slot with
  | None => (Err InvalidSlot, w)
  | Some (Some _) => (Err Occupied, w)
  | Some None => (Ok tt, <[slot := Some deadline]> w)
  end.

Definition WaitSet_cancel (w : WaitSet) (slot : nat) : outcome WaitError bool * WaitSet :=
  match w !! slot with
  | None => (Err InvalidSlot, w)
  | Some entry => (Ok (negb (is_none entry)), <[slot := None]> w)
  end.

(** [min_by_key]: the first least element. *)
Fixpoint min_by_key {A} (key : A -> Z) (l : list A) : option A :=
  match l with
  | [] => None
  | a :: l =>
    match min_by_key key l with
    | Some b => if key b <? key a then Some b else Some a
    | None => Some a
    end
  end.

Definition WaitSet_next_deadline (w : WaitSet) : option Z := min_by_key id (slots w).

(** [array::from_fn] runs the closure for each index in order; the closure
    clears the slots that are due. *)
Fixpoint complete_loop (indices : list nat) (w : WaitSet) (now : Z) : list bool * WaitSet :=
  match indices with
  | [] => ([], w)
  | index :: indices =>
    let due := is_some_and (fun d => Deadline_reached d now) (mjoin (w !! index)) in
    let w := if due then <[index := None]> w else w in
    let (flags, w) := complete_loop indices w now in (due :: flags, w)
  end.

Definition WaitSet_complete (w : WaitSet) (now : Z) : list bool * WaitSet :=
  complete_loop (seq 0 (length w)) w now.

(** ** Lemmas *)
Lemma min_by_key_spec {A} (key : A -> Z) l :
  match min_by_key key l with
  | Some a => a ∈ l /\ forall b, b ∈ l -> key a <= key b
  | None => l = []
  end.
Proof.
  induction l as [|x l IH]; simpl; [done|].
  destruct (min_by_key key l) as [b|]; [destruct (Z.ltb_spec (key b) (key x))|].
  - destruct IH as [Hin Hle]. split; [by right|]. intros c [->|Hc]%elem_of_cons; [lia|auto].
  - destruct IH as [Hin Hle]. split; [by left|]. intros c [->|Hc]%elem_of_cons; [lia|].
    specialize (Hle c Hc). lia.
  - subst l. split; [by left|]. intros c [->|Hc%elem_of_nil]%elem_of_cons; [lia|done].
Qed.

Definition due_at (now : Z) (entry : option Z) : bool := is_some_and (fun d => Deadline_reached d now) entry.
Definition expire (now : Z) (entry : option Z) : option Z := if due_at now entry then None else entry.

Lemma complete_loop_spec done_ rest now :
  complete_loop (seq (length done_) (length rest)) (done_ ++ rest) now =
  (due_at now <$> rest, done_ ++ (expire now <$> rest)).
Proof.
  revert done_. induction rest as [|entry rest IH]; intros done_; [done|].
  cbn [length seq complete_loop fmap list_fmap]. rewrite lookup_app_r, Nat.sub_diag by lia.
  change (mjoin ((entry :: rest) !! 0%nat)) with entry. fold (due_at now entry).
  assert (Hstep : (if due_at now entry then <[length done_ := None]> (done_ ++ entry :: rest)
                   else done_ ++ entry :: rest) = (done_ ++ [expire now entry]) ++ rest).
  { unfold expire. rewrite <- app_assoc. destruct (due_at now entry); [|done].
    rewrite insert_app_r_alt by lia. by rewrite Nat.sub_diag. }
  rewrite Hstep. specialize (IH (done_ ++ [expire now entry])). rewrite length_app, Nat.add_1_r in IH.
  rewrite IH. by rewrite <- app_assoc.
Qed.

Lemma WaitSet_complete_spec w now : WaitSet_complete w now = (due_at now <$> w, expire now <$> w).
Proof. apply (complete_loop_spec []). Qed.

(** [complete] reports exactly the waits whose
    deadline has been reached, equal deadlines included, and removes exactly
    those; a second call at the same or an earlier tick reports none of them
    again, and the next deadline it leaves is the least of the waits that remain
    and lies in the future. *)
Theorem waits_complete_exactly_once (w : WaitSet) now earlier flags w' :
  earlier <= now -> WaitSet_complete w now = (flags, w') ->
  length flags = length w /\ length w' = length w /\
  (forall i, flags !! i = Some true <-> exists d, w !! i = Some (Some d) /\ d <= now) /\
  (forall i d, w' !! i = Some (Some d) <-> w !! i = Some (Some d) /\ now < d) /\
  WaitSet_complete w' earlier = (replicate (length w) false, w') /\
  match WaitSet_next_deadline w' with
  | Some d => now < d /\ d ∈ slots w' /\ forall e, e ∈ slots w' -> d <= e
  | None => forall i d, w' !! i <> Some (Some d)
  end.
Proof.
  intros He Hc. rewrite WaitSet_complete_spec in Hc. injection Hc as <- <-.
  assert (Hrest : forall i d, (expire now <$> w) !! i = Some (Some d) <-> w !! i = Some (Some d) /\ now < d).
  { intros i d. rewrite list_lookup_fmap. destruct (w !! i) as [[e|]|]; simpl; [|by split; [|intros [? _]]..].
    unfold expire, due_at, Deadline_reached. simpl. destruct (Z.leb_spec e now).
    - split; [done|]. intros [[= ->] ?]. lia.
    - split; [intros [= ->]; auto|]. by intros [[= ->] _]. }
  split; [by rewrite length_fmap|]. split; [by rewrite length_fmap|]. split; [|split; [done|split]].
  - intros i. rewrite list_lookup_fmap. destruct (w !! i) as [[e|]|]; simpl.
    + unfold due_at, Deadline_reached. simpl. split.
      * intros [= H%Z.leb_le]. eauto.
      * intros (d & [= ->] & H). f_equal. by apply Z.leb_le.
    + split; [done|]. by intros (d & ? & _).
    + split; [done|]. by intros (d & ? & _).
  - rewrite WaitSet_complete_spec. assert (Hall : forall o, due_at earlier (expire now o) = false).
    { intros [d|]; [|done]. unfold expire, due_at, Deadline_reached. simpl.
      destruct (Z.leb_spec d now); [done|]. simpl. apply Z.leb_gt. lia. }
    f_equal.
    + clear -Hall. induction w as [|o w IH]; [done|]. simpl. rewrite Hall. f_equal. apply IH.
    + rewrite <- list_fmap_compose. apply list_fmap_ext. intros i o _. unfold compose.
      unfold expire at 1. by rewrite Hall.
  - unfold WaitSet_next_deadline. pose proof (min_by_key_spec id (slots (expire now <$> w))) as Hm.
    destruct (min_by_key _ _) as [d|].
    + destruct Hm as [Hin Hle]. split; [|done]. apply elem_of_slots in Hin as [i Hi]. by apply Hrest in Hi as [_ ?].
    + intros i d Hi. assert (Hin : d ∈ slots (expire now <$> w)) by (apply elem_of_slots; eauto).
      rewrite Hm in Hin. by apply elem_of_nil in Hin.
Qed.

Lemma waits_complete_exactly_once_witness :
  WaitSet_complete [None; None; Some 9; None] 4 = (replicate 4 false, [None; None; Some 9; None]).
Proof.
  apply (waits_complete_exactly_once [Some 5; Some 5; Some 9; None] 5 4 [true; true; false; false]); [lia|].
  by vm_compute.
Defined.

(** for a [u64] tick count, a non-zero [u16]
    divisor and a non-zero [u32] frequency the conversion is defined, its
    intermediate product fits in [u128], its result fits in [u64], is monotonic
    in the ticks, and is the exact quotient rounded down whenever that fits. *)
Theorem tick_conversion_is_exact ticks ticks' divisor hz :
  fits 64 ticks -> 0 <= ticks' <= ticks -> 0 < divisor < 2 ^ 16 -> 0 < hz < 2 ^ 32 ->
  fits 128 (ticks * divisor * 1000000000) /\
  exists nanos nanos', ticks_to_nanos ticks divisor hz = Some nanos /\ ticks_to_nanos ticks' divisor hz = Some nanos' /\
    fits 64 nanos /\ nanos' <= nanos /\
    (nanos < u64_max -> nanos * hz <= ticks * divisor * 1000000000 < nanos * hz + hz).
Proof.
  intros Ht Ht' Hd Hh. unfold fits in *. split; [nia|]. unfold ticks_to_nanos.
  destruct (Z.eqb_spec hz 0); [lia|]. destruct (Z.eqb_spec divisor 0); [lia|]. simpl.
  eexists _, _. split; [reflexivity|]. split; [reflexivity|].
  set (x := ticks * divisor * 1000000000). set (y := ticks' * divisor * 1000000000).
  assert (Hy : 0 <= y <= x) by (unfold x, y; nia).
  pose proof (Z.div_le_mono y x hz ltac:(lia) ltac:(lia)).
  pose proof (Z.div_pos x hz ltac:(lia) ltac:(lia)).
  pose proof (Z.div_mod x hz ltac:(lia)). pose proof (Z.mod_pos_bound x hz ltac:(lia)).
  unfold u64_max. split; [lia|]. split; [lia|]. intros Hlt. rewrite Z.min_l by lia. lia.
Qed.

Lemma tick_conversion_is_exact_witness : exists nanos, ticks_to_nanos 100 11931 1193180 = Some nanos /\ fits 64 nanos.
Proof.
  destruct (tick_conversion_is_exact 100 50 11931 1193180) as (_ & n & n' & Hn & _ & Hf & _);
    [unfold fits; lia|lia|lia|lia|]. by exists n.
Defined.
