(* ===== verification/Block.v ===== *)
(** * Block devices (kernel/src/block)

    The sector contract and queue layout, the request budget, the diagnostic
    hold, and the access broker that owns grants and the two-request queue. *)
From stdpp Require Import base list option numbers gmap.
From Stdlib Require Import ZArith Lia Bool.
From S2P Require Import Prelude Bytes Codec AbiBlock Handles Time.

(** ** Sector contract (block/mod.rs) *)
Inductive DeviceError :=
| DMissing | DUnsupported | DBusy | DMemory | DSize | DRange | DReadOnly | DIo | DTimeout | DProtocol | DReset.
#[global] Instance DeviceError_eq_dec : EqDecision DeviceError.
Proof. solve_decision. Defined.

Definition BLOCK_MAX_BYTES : nat := SECTOR.

Record Geometry := mkGeometry { geo_sectors : Z; geo_read_only : bool }.

Definition Geometry_validate (g : Geometry) (sector : Z) (length : nat) (write : bool) : outcome DeviceError unit :=
  if negb (length =? BLOCK_MAX_BYTES)%nat then Err DSize
  else if match checked_add sector (Z.of_nat (length / SECTOR)) with
          | None => true | Some e => geo_sectors g <? e end then Err DRange
  else if write && geo_read_only g then Err DReadOnly
  else Ok tt.

(** ** Virtqueue layout (block/queue.rs) *)
Record Layout := mkLayout { la_size : Z; la_available : Z; la_used : Z; la_pages : Z }.

Definition Layout_new (size : Z) : outcome DeviceError Layout :=
  if negb ((4 <=? size) && (size <=? 256)) || negb (is_power_of_two size) then Err DUnsupported
  else
    let available := size * 16 in
    let used := div_ceil (available + 6 + size * 2) 4096 * 4096 in
    let pages := div_ceil (used + 6 + size * 8) 4096 in
    Ok (mkLayout size available used pages).

Definition Layout_completed (expected observed id status : Z) : outcome DeviceError unit :=
  if negb (observed =? (expected + 1) mod 2 ^ 16) || negb (id =? 0) then Err DProtocol
  else if status =? 0 then Ok tt
  else if status =? 1 then Err DIo
  else if status =? 2 then Err DUnsupported
  else Err DProtocol.

(** ** Request budget (block/deadline.rs) *)
Definition REQUEST_TICKS : Z := 500.
Definition STALLED_POLLS : Z := 5000000.

Record RequestBudget := mkBudget { rb_started : Z; rb_observed_tick : Z; rb_polls : Z; rb_stalled_polls : Z }.

Definition RequestBudget_new (now : Z) : RequestBudget := mkBudget now now 0 0.

Definition RequestBudget_expired_pending (b : RequestBudget) (now : Z) : bool * RequestBudget :=
  let polls := saturating_add (rb_polls b) 1 in
  let b :=
    if now =? rb_observed_tick b
    then mkBudget (rb_started b) (rb_observed_tick b) polls (saturating_add (rb_stalled_polls b) 1)
    else mkBudget (rb_started b) now polls 0 in
  ((REQUEST_TICKS <=? saturating_sub now (rb_started b)) || (STALLED_POLLS <=? rb_stalled_polls b), b).

(** ** Diagnostic hold (block/observation.rs) *)
Record Withhold := mkWithhold { wh_armed : option (Z * Z * Z); wh_held : option (Z * Z * Z) }.

Definition Hold_default : Withhold := mkWithhold None None.

Definition Hold_arm (h : Withhold) (owner skip ticks : Z) : bool * Withhold :=
  if (owner =? 0) || (16 <? skip) || negb ((1 <=? ticks) && (ticks <=? 500)) || negb (is_none (wh_held h))
  then (false, h)
  else (true, mkWithhold (Some (owner, skip, ticks)) (wh_held h)).

Definition Hold_submitted (h : Withhold) (owner id : Z) (mutation : bool) (now : Z) : bool * Withhold :=
  match wh_armed h with
  | None => (false, h)
  | Some (target, skip, ticks) =>
    if negb (target =? owner) || negb mutation then (false, h)
    else if negb (skip =? 0) then (false, mkWithhold (Some (target, skip - 1, ticks)) (wh_held h))
    else (true, mkWithhold None (Some (owner, id, saturating_add now ticks)))
  end.

Definition Hold_withheld (h : Withhold) (id now : Z) : bool * Withhold :=
  match wh_held h with
  | None => (false, h)
  | Some (_, active, deadline) =>
    if negb (id =? active) then (false, h)
    else if now <? deadline then (true, h)
    else (false, mkWithhold (wh_armed h) None)
  end.

Definition Hold_status (h : Withhold) : list Z :=
  match wh_held h with
  | Some (owner, id, until) => [1; owner; id; until; 0; 0; 0; 0]
  | None =>
    match wh_armed h with
    | Some (owner, skip, ticks) => [0; owner; 0; 0; 1; skip; ticks; 0]
    | None => [0; 0; 0; 0; 0; 0; 0; 0]
    end
  end.

(** ** Grants (block/access/grants.rs, mod.rs) *)
Record Grant := mkGrant { gr_first : Z; gr_sectors : Z; gr_rights : Z }.

Definition Grant_validate (g : Grant) (capacity : Z) : outcome BlockError unit :=
  if (gr_sectors g =? 0) ||
     match checked_add (gr_first g) (gr_sectors g) with None => true | Some e => capacity <? e end
  then Err BRange
  else if negb (Z.land (gr_rights g) BLOCK_FLUSH =? 0) && (negb (gr_first g =? 0) || negb (gr_sectors g =? capacity))
  then Err BDenied
  else Ok tt.

Definition Grant_sector (g : Grant) (relative : Z) : outcome BlockError Z :=
  if gr_sectors g <=? relative then Err BRange
  else ok_or (checked_add (gr_first g) relative) BRange.

Definition BlockError_from (e : HandleError) : BlockError :=
  match e with Handle => BHandle | Denied => BDenied | Quota => BQuota end.

(** ** The access broker (block/access/queue.rs) *)
Inductive Phase := PhQueued | PhActive | PhComplete.
#[global] Instance Phase_eq_dec : EqDecision Phase.
Proof. solve_decision. Defined.

Record BlockRecord := mkBlockRecord {
  bk_owner : Z;
  bk_handle : Z;
  bk_sector : Z;
  bk_phase : Phase;
  bk_abandoned : bool;
  bk_result : Completion;
}.

Record BlockPending := mkBlockPending {
  pd_owner : Z;
  pd_id : Z;
  pd_operation : Operation;
  pd_sector : Z;
  pd_data : list Z;
}.

Record BlockBroker := mkBlockBroker {
  k_handles : Table Grant;
  k_records : list (option BlockRecord);
  k_next : Z;
}.

(** [Table<Grant, 4, 1>]. *)
Definition GRANTS : nat := 4.
Definition GRANTS_PER_OWNER : nat := 1.

Definition BlockBroker_new : BlockBroker := mkBlockBroker (Table_new GRANTS 1 BLOCK_ALL 0) [None; None] 1.

Definition set_records (b : BlockBroker) records : BlockBroker := mkBlockBroker (k_handles b) records (k_next b).

Definition BlockBroker_grant (b : BlockBroker) (owner : Z) (grant : Grant) (capacity : Z) :
    outcome BlockError Z * BlockBroker :=
  match Grant_validate grant capacity with
  | Ok _ =>
    let (r, h) := Table_grant GRANTS_PER_OWNER (k_handles b) owner grant (gr_rights grant) in
    (map_err BlockError_from r, mkBlockBroker h (k_records b) (k_next b))
  | Err e => (Err e, b)
  | Panic => (Panic, b)
  end.

Definition BlockBroker_resolve (b : BlockBroker) (owner handle right : Z) : outcome BlockError Grant :=
  map_err BlockError_from (Table_resolve (k_handles b) owner handle right).

Definition BlockBroker_geometry (b : BlockBroker) (owner handle : Z) (physical : Geometry) :
    outcome BlockError BlockGeometry :=
  let? grant := BlockBroker_resolve b owner handle 0 in
  Ok (mkBlockGeometry (gr_sectors grant) (gr_rights grant) (geo_read_only physical)).

Definition BlockBroker_check (b : BlockBroker) (owner handle : Z) (operation : Operation) (relative : Z)
    (physical : Geometry) : outcome BlockError Z :=
  let? grant := BlockBroker_resolve b owner handle (Operation_right operation) in
  let? sector := (if decide (operation = OpFlush) then Ok 0 else Grant_sector grant relative) in
  if negb (bool_decide (operation = OpRead)) && geo_read_only physical then Err BReadOnly
  else Ok sector.

Definition BlockBroker_admit (b : BlockBroker) (owner handle : Z) (operation : Operation) (sector : Z)
    (data : list Z) (physical : Geometry) : outcome BlockError Z * BlockBroker :=
  match BlockBroker_check b owner handle operation sector physical with
  | Ok sector =>
    if existsb (is_some_and (fun r => bk_owner r =? owner)) (k_records b) then (Err BBusy, b)
    else match position is_none (k_records b) with
    | None => (Err BBusy, b)
    | Some slot =>
      match match checked_add (k_next b) 1 with
            | Some n => if n <=? MAX_ID then Some n else None
            | None => None end with
      | None => (Err BQuota, b)
      | Some next =>
        let id := k_next b in
        (Ok id,
         mkBlockBroker (k_handles b)
           (<[slot := Some (mkBlockRecord owner handle sector PhQueued false
                              (mkCompletion id operation StSuccess EffectNone data))]> (k_records b))
           next)
      end
    end
  | Err e => (Err e, b)
  | Panic => (Panic, b)
  end.

(** [iter().flatten()] with the slot of each record. *)
Definition indexed {A} (l : list (option A)) : list (nat * A) :=
  omap (fun '(i, o) => a ← o; Some (i, a)) (imap pair l).

Definition BlockBroker_start (b : BlockBroker) : option BlockPending * BlockBroker :=
  if existsb (is_some_and (fun r => bool_decide (bk_phase r = PhActive))) (k_records b) then (None, b)
  else
    match min_by_key (fun '(_, r) => cp_id (bk_result r))
            (filter (fun '(_, r) => bk_phase r = PhQueued) (indexed (k_records b))) with
    | None => (None, b)
    | Some (slot, r) =>
      (Some (mkBlockPending (bk_owner r) (cp_id (bk_result r)) (cp_operation (bk_result r)) (bk_sector r)
               (cp_data (bk_result r))),
       set_records b
         (<[slot := Some (mkBlockRecord (bk_owner r) (bk_handle r) (bk_sector r) PhActive (bk_abandoned r)
                            (bk_result r))]> (k_records b)))
    end.

Definition finished (c : Completion) (status : BlockStatus) (data : list Z) : Completion :=
  mkCompletion (cp_id c) (cp_operation c) status
    (if bool_decide (cp_operation c = OpRead) || bool_decide (status = StUnavailable) then EffectNone
     else if bool_decide (status = StSuccess) then EffectCompleted else EffectUnknown)
    (if bool_decide (cp_operation c = OpRead) && bool_decide (status = StSuccess) then data else zeros SECTOR).

(** [expect] panics when no active request has this number. *)
Definition BlockBroker_finish (b : BlockBroker) (id : Z) (status : BlockStatus) (data : list Z) :
    outcome BlockError unit * BlockBroker :=
  match position (is_some_and (fun r => (cp_id (bk_result r) =? id) && bool_decide (bk_phase r = PhActive)))
          (k_records b) with
  | None => (Panic, b)
  | Some slot =>
    match mjoin (k_records b !! slot) with
    | None => (Panic, b)
    | Some r =>
      if bk_abandoned r then (Ok tt, set_records b (<[slot := None]> (k_records b)))
      else (Ok tt, set_records b
             (<[slot := Some (mkBlockRecord (bk_owner r) (bk_handle r) (bk_sector r) PhComplete (bk_abandoned r)
                                (finished (bk_result r) status data))]> (k_records b)))
    end
  end.

Definition BlockBroker_slot (b : BlockBroker) (owner handle : Z) : outcome BlockError nat :=
  let? _ := BlockBroker_resolve b owner handle 0 in
  ok_or (position (is_some_and (fun r => (bk_owner r =? owner) && (bk_handle r =? handle))) (k_records b)) BNoRequest.

(** [self.records[self.slot(owner, handle)?].unwrap()]. *)
Definition BlockBroker_record (b : BlockBroker) (owner handle : Z) : outcome BlockError (nat * BlockRecord) :=
  let? slot := BlockBroker_slot b owner handle in
  match mjoin (k_records b !! slot) with Some r => Ok (slot, r) | None => Panic end.

Definition BlockBroker_peek (b : BlockBroker) (owner handle : Z) : outcome BlockError Completion :=
  let? (_, r) := BlockBroker_record b owner handle in
  if negb (bool_decide (bk_phase r = PhComplete)) then Err BWouldBlock else Ok (bk_result r).

Definition BlockBroker_wait (b : BlockBroker) (owner handle id : Z) : outcome BlockError unit :=
  let? (_, r) := BlockBroker_record b owner handle in
  if negb (cp_id (bk_result r) =? id) then Err BNoRequest
  else let? _ := BlockBroker_peek b owner handle in Ok tt.

Definition BlockBroker_consume (b : BlockBroker) (owner handle : Z) : outcome BlockError unit * BlockBroker :=
  match BlockBroker_peek b owner handle with
  | Ok _ =>
    match BlockBroker_slot b owner handle with
    | Ok slot => (Ok tt, set_records b (<[slot := None]> (k_records b)))
    | Err e => (Err e, b)
    | Panic => (Panic, b)
    end
  | Err e => (Err e, b)
  | Panic => (Panic, b)
  end.

Definition BlockBroker_cancel (b : BlockBroker) (owner handle id : Z) : outcome BlockError Z * BlockBroker :=
  match BlockBroker_record b owner handle with
  | Ok (slot, r) =>
    if negb (cp_id (bk_result r) =? id) then (Err BNoRequest, b)
    else if negb (bool_decide (bk_phase r = PhQueued)) then (Ok 1, b)
    else (Ok 0, set_records b
            (<[slot := Some (mkBlockRecord (bk_owner r) (bk_handle r) (bk_sector r) PhComplete (bk_abandoned r)
                (mkCompletion (cp_id (bk_result r)) (cp_operation (bk_result r)) StCancelled
                   (cp_effect (bk_result r)) (zeros SECTOR)))]> (k_records b)))
  | Err e => (Err e, b)
  | Panic => (Panic, b)
  end.

(** The loop of [close] on one slot. *)
Definition close_record (handle : Z) (o : option BlockRecord) : option BlockRecord :=
  match o with
  | Some r =>
    if bk_handle r =? handle then
      if decide (bk_phase r = PhActive)
      then Some (mkBlockRecord (bk_owner r) (bk_handle r) (bk_sector r) (bk_phase r) true (bk_result r))
      else None
    else Some r
  | None => None
  end.

Definition BlockBroker_close (b : BlockBroker) (owner handle : Z) : outcome BlockError unit * BlockBroker :=
  match Table_remove (k_handles b) owner handle with
  | (Ok _, h) => (Ok tt, mkBlockBroker h (close_record handle <$> k_records b) (k_next b))
  | (Err e, h) => (Err (BlockError_from e), mkBlockBroker h (k_records b) (k_next b))
  | (Panic, h) => (Panic, mkBlockBroker h (k_records b) (k_next b))
  end.

(** The [while let] loop, with [expect] on each close. *)
Fixpoint block_close_owner_loop (fuel : nat) (b : BlockBroker) (owner : Z) :
    option (outcome BlockError unit * BlockBroker) :=
  match fuel with
  | O => None
  | S fuel =>
    match Table_first (k_handles b) owner with
    | None => Some (Ok tt, b)
    | Some handle =>
      match BlockBroker_close b owner handle with
      | (Ok _, b) => block_close_owner_loop fuel b owner
      | (_, b) => Some (Panic, b)
      end
    end
  end.

Definition BlockBroker_close_owner (b : BlockBroker) (owner : Z) : option (outcome BlockError unit * BlockBroker) :=
  block_close_owner_loop (S (Table_count (k_handles b))) b owner.

Definition BlockBroker_counts (b : BlockBroker) : nat * nat :=
  (Table_count (k_handles b), length (slots (k_records b))).

Definition BlockBroker_active (b : BlockBroker) : option Z :=
  (fun r => cp_id (bk_result r)) <$> List.find (fun r => bool_decide (bk_phase r = PhActive)) (slots (k_records b)).
