(* ===== verification/BlockFacts.v ===== *)
(** * The block broker is safe

    The representation invariant of the block broker, its preservation by every
    operation, authorization of what is dispatched to the device, the lifecycle
    of a request and the small contracts of the device layer. *)
From stdpp Require Import base list option numbers gmap.
From Stdlib Require Import ZArith Lia Bool.
From S2P Require Import Prelude Bytes Codec AbiBlock Handles Time Block.

Section Invariant.
(** Sectors of the physical device; every grant is checked against it. *)
Context (capacity : Z).

Definition grant_ok (g : Grant) : Prop :=
  0 <= gr_first g /\ 0 < gr_sectors g /\ gr_first g + gr_sectors g <= capacity /\
  (Z.land (gr_rights g) BLOCK_FLUSH <> 0 -> gr_first g = 0 /\ gr_sectors g = capacity).

(** [op] on absolute [sector] is covered by the grant [g] held with [rights]. *)
Definition authorized (g : Grant) (rights : Z) (op : Operation) (sector : Z) : Prop :=
  Z.land rights (Operation_right op) = Operation_right op /\
  match op with
  | OpFlush => sector = 0
  | _ => gr_first g <= sector < gr_first g + gr_sectors g
  end.

Record record_ok (h : Table Grant) (next : Z) (r : BlockRecord) : Prop := {
  ro_id : 1 <= cp_id (bk_result r) < next;
  ro_sector : match cp_operation (bk_result r) with OpFlush => bk_sector r = 0 | _ => 0 <= bk_sector r < capacity end;
  ro_bound :
    if bk_abandoned r
    then bk_phase r = PhActive /\ view h !! bk_handle r = None /\ issued h (bk_handle r)
    else exists g rights, view h !! bk_handle r = Some (bk_owner r, g, rights) /\
           authorized g rights (cp_operation (bk_result r)) (bk_sector r);
  ro_result :
    match bk_phase r with
    | PhComplete => Completion_valid (bk_result r)
    | _ => cp_status (bk_result r) = StSuccess /\ cp_effect (bk_result r) = EffectNone /\
           length (cp_data (bk_result r)) = SECTOR /\ bytes_ok (cp_data (bk_result r))
    end;
}.

Definition compatible (r r' : BlockRecord) : Prop :=
  bk_owner r <> bk_owner r' /\ cp_id (bk_result r) <> cp_id (bk_result r') /\
  ~ (bk_phase r = PhActive /\ bk_phase r' = PhActive).

Record Broker_ok (b : BlockBroker) : Prop := {
  bo_handles : Table_wf GRANTS GRANTS_PER_OWNER (k_handles b);
  bo_allowed : t_allowed (k_handles b) = BLOCK_ALL;
  bo_grants : forall token who g r, view (k_handles b) !! token = Some (who, g, r) -> r = gr_rights g /\ grant_ok g;
  bo_length : length (k_records b) = 2%nat;
  bo_next : 1 <= k_next b <= MAX_ID;
  bo_records : forall i r, k_records b !! i = Some (Some r) -> record_ok (k_handles b) (k_next b) r;
  bo_compatible : forall i j r r', i <> j -> k_records b !! i = Some (Some r) -> k_records b !! j = Some (Some r') ->
                  compatible r r';
}.

Lemma new_broker_ok : Broker_ok BlockBroker_new.
Proof.
  assert (Hno : forall i (r : BlockRecord), k_records BlockBroker_new !! i = Some (Some r) -> False).
  { intros i r. destruct i as [|[|i]]; simpl; done. }
  split; simpl.
  - by apply wf_new.
  - done.
  - intros token who g r H. by rewrite view_new, lookup_empty in H.
  - done.
  - by vm_compute.
  - intros i r Hi. by apply Hno in Hi.
  - intros i j r r' _ Hi. by apply Hno in Hi.
Qed.

Lemma compatible_sym r r' : compatible r r' -> compatible r' r.
Proof. unfold compatible. intuition congruence. Qed.

(** Replacing the content of one slot. *)
Lemma set_record_ok b slot o :
  Broker_ok b -> (slot < 2)%nat ->
  (forall r, o = Some r -> record_ok (k_handles b) (k_next b) r /\
     forall j r', j <> slot -> k_records b !! j = Some (Some r') -> compatible r' r) ->
  Broker_ok (set_records b (<[slot := o]> (k_records b))).
Proof.
  intros [H1 H2 H3 H4 H5 H6 H7] Hs Ho.
  assert (Hlk : forall i r, <[slot := o]> (k_records b) !! i = Some (Some r) ->
    (i = slot /\ o = Some r) \/ (i <> slot /\ k_records b !! i = Some (Some r))).
  { intros i r. destruct (decide (i = slot)) as [->|Hne].
    - rewrite list_lookup_insert_eq by lia. intros [= ->]. by left.
    - rewrite list_lookup_insert_ne by done. by right. }
  split; simpl; try done.
  - by rewrite length_insert.
  - intros i r [[-> ->]|[_ Hi]]%Hlk; [by apply Ho|by eapply H6].
  - intros i j r r' Hne [[-> Hr]|[Hi Hr]]%Hlk [[-> Hr']|[Hj Hr']]%Hlk; [done| | |by eapply (H7 i j)].
    + apply compatible_sym. by eapply (Ho r Hr).
    + by eapply (Ho r' Hr').
Qed.

Lemma slot_lt b i o : Broker_ok b -> k_records b !! i = Some o -> (i < 2)%nat.
Proof. intros Hok Hi%lookup_lt_Some. by rewrite (bo_length _ Hok) in Hi. Qed.

(** The records found by the lookups of the code. *)
Lemma resolve_spec b owner handle right :
  Broker_ok b ->
  match BlockBroker_resolve b owner handle right with
  | Ok g => exists rights, view (k_handles b) !! handle = Some (owner, g, rights) /\ Z.land rights right = right
  | Err e => (e = BHandle \/ e = BDenied) /\
      forall g rights, view (k_handles b) !! handle = Some (owner, g, rights) -> Z.land rights right <> right
  | Panic => False
  end.
Proof.
  intros Hok. unfold BlockBroker_resolve.
  pose proof (fun g => resolve_Ok_iff (CAPACITY := GRANTS) (PER_OWNER := GRANTS_PER_OWNER) (k_handles b) owner handle right g (bo_handles _ Hok)) as H.
  pose proof (resolve_not_panic (CAPACITY := GRANTS) (PER_OWNER := GRANTS_PER_OWNER) (k_handles b) owner handle right (bo_handles _ Hok)) as Hp.
  destruct (Table_resolve _ _ _ _) as [g|e|] eqn:E; simpl; [by apply H| |done]. split.
  - unfold Table_resolve, Table_index, entry_at, ok_or in E. repeat case_match; simplify_eq; simpl; auto.
  - intros g rights Hv Hr. assert (Err e = Ok g) by (apply H; eauto). done.
Qed.

Lemma record_spec b owner handle :
  Broker_ok b ->
  match BlockBroker_record b owner handle with
  | Ok (slot, r) => k_records b !! slot = Some (Some r) /\ bk_owner r = owner /\ bk_handle r = handle /\
      bk_abandoned r = false /\ BlockBroker_slot b owner handle = Ok slot
  | Err e => e = BHandle \/ e = BDenied \/ (e = BNoRequest /\
      forall i r, k_records b !! i = Some (Some r) -> ~ (bk_owner r = owner /\ bk_handle r = handle))
  | Panic => False
  end.
Proof.
  intros Hok. unfold BlockBroker_record, BlockBroker_slot.
  pose proof (resolve_spec b owner handle 0 Hok) as Hr.
  destruct (BlockBroker_resolve b owner handle 0) as [g|e|]; [|by destruct Hr as [[]]; auto|done].
  destruct Hr as (rights & Hv & _).
  destruct (position _ (k_records b)) as [slot|] eqn:E; simpl.
  - apply position_Some in E as [(o & Ho & Hp) _]. rewrite Ho. destruct o as [r|]; [|done]. simpl in *.
    apply andb_true_iff in Hp as [Hown%Z.eqb_eq Hhan%Z.eqb_eq]. do 3 (split; [done|]). split; [|done].
    pose proof (ro_bound _ _ _ (bo_records _ Hok _ _ Ho)) as Hb.
    destruct (bk_abandoned r); [|done]. destruct Hb as (_ & Hb & _). congruence.
  - right. right. split; [done|]. intros i r Hi [<- <-]. rewrite position_None in E. specialize (E _ _ Hi).
    simpl in E. by rewrite !Z.eqb_refl in E.
Qed.

(** ** Grants *)
(** Records survive a change of the handle table that keeps their tokens. *)
Lemma record_ok_handles h h' next r :
  record_ok h next r -> (forall token, issued h token -> issued h' token) ->
  (forall token, issued h token -> view h' !! token = view h !! token) ->
  Table_wf GRANTS GRANTS_PER_OWNER h -> record_ok h' next r.
Proof.
  intros [H1 H2 H3 H4] Hiss Hv Hwf. split; [done|done| |done].
  destruct (bk_abandoned r).
  - destruct H3 as (Hp & Hn & Hi). rewrite Hv by done. auto.
  - destruct H3 as (g & rights & Hb & Ha). exists g, rights. split; [|done].
    rewrite Hv; [done|]. by eapply view_issued.
Qed.

Lemma Grant_validate_ok g :
  0 <= gr_first g -> 0 <= gr_sectors g -> Grant_validate g capacity = Ok tt -> grant_ok g.
Proof.
  intros H1 H2 H. unfold Grant_validate in H. guards H. apply orb_false_iff in G as [Gz Gr]. bools.
  destruct (checked_add _ _) as [e|] eqn:E; [|done]. apply checked_add_Some in E as [-> _]. bools.
  unfold grant_ok. split; [done|]. split; [lia|]. split; [lia|]. intros Hf.
  destruct (Z.eqb_spec (Z.land (gr_rights g) BLOCK_FLUSH) 0) as [|_]; [done|]. simpl in G0. bools. done.
Qed.

Lemma grant_keeps_ok b owner g :
  Broker_ok b -> 0 <= gr_first g -> 0 <= gr_sectors g -> fits 8 (gr_rights g) ->
  match BlockBroker_grant b owner g capacity with
  | (Ok token, b') => Broker_ok b' /\ grant_ok g /\ k_records b' = k_records b /\
      view (k_handles b) !! token = None /\
      view (k_handles b') = <[token := (owner, g, gr_rights g)]> (view (k_handles b))
  | (Err _, b') => b' = b
  | (Panic, _) => False
  end.
Proof.
  intros Hok H1 H2 H3. unfold BlockBroker_grant.
  destruct (Grant_validate g capacity) as [[]|e|] eqn:E; [|done|].
  2:{ unfold Grant_validate in E. repeat case_match; done. }
  pose proof (grant_meets_contract (CAPACITY := GRANTS) (PER_OWNER := GRANTS_PER_OWNER)
                (k_handles b) owner g (gr_rights g) (bo_handles _ Hok) H3) as Hc.
  destruct (Table_grant _ _ _ _ _) as [[token|[]|] h]; simpl in *;
    try done; try (destruct Hc as [-> _]; by destruct b).
  destruct Hc as (Hwf & Hnone & Hv & Htok & Hn & (Hd & Hall & _) & _).
  pose proof (Grant_validate_ok g H1 H2 E) as Hg. split; [|done].
  assert (Hiss : forall t, issued (k_handles b) t -> issued h t).
  { intros t. apply issued_mono; [done|lia]. }
  assert (Hkeep : forall t, issued (k_handles b) t -> view h !! t = view (k_handles b) !! t).
  { intros t Ht. rewrite Hv, lookup_insert_ne; [done|]. rewrite Htok.
    intros <-. by apply (fresh_token_not_issued (CAPACITY := GRANTS) (PER_OWNER := GRANTS_PER_OWNER) (k_handles b) (bo_handles _ Hok)). }
  destruct Hok as [O1 O2 O3 O4 O5 O6 O7]. split; simpl; try done.
  - congruence.
  - intros t who g' r Hl. rewrite Hv in Hl. destruct (decide (t = token)) as [->|Hne].
    + rewrite lookup_insert_eq in Hl. injection Hl as <- <- <-. done.
    + rewrite lookup_insert_ne in Hl by done. by eapply O3.
  - intros i r Hi. eapply record_ok_handles; [by eapply O6|done|done|done].
Qed.

(** ** Admission *)
Lemma check_spec b owner handle op relative physical sector :
  Broker_ok b -> 0 <= relative -> BlockBroker_check b owner handle op relative physical = Ok sector ->
  exists g rights, view (k_handles b) !! handle = Some (owner, g, rights) /\ authorized g rights op sector /\
    (op <> OpRead -> geo_read_only physical = false) /\ (op <> OpFlush -> sector = gr_first g + relative).
Proof.
  intros Hok Hrel H. unfold BlockBroker_check in H.
  pose proof (resolve_spec b owner handle (Operation_right op) Hok) as Hr.
  destruct (BlockBroker_resolve _ _ _ _) as [g|e|]; [|done|done]. destruct Hr as (rights & Hv & Hand).
  exists g, rights. split; [done|]. destruct (bo_grants _ Hok _ _ _ _ Hv) as [_ (Hg1 & Hg2 & Hg3 & _)].
  destruct (decide (op = OpFlush)) as [->|Hnf].
  - simpl in H. destruct (geo_read_only physical); [done|]. injection H as <-. done.
  - destruct (Grant_sector g relative) as [s|e|] eqn:Es; [|done|done].
    unfold Grant_sector in Es. destruct (Z.leb_spec (gr_sectors g) relative) as [|Hlt]; [done|].
    destruct (checked_add _ _) as [s'|] eqn:Ec; [|done]. injection Es as ->. apply checked_add_Some in Ec as [-> _].
    destruct (negb (bool_decide (op = OpRead)) && geo_read_only physical) eqn:Ero; [done|]. injection H as <-.
    split; [split; [done|destruct op; try done; lia]|]. split; [|done]. intros Hop.
    rewrite bool_decide_eq_false_2 in Ero by done. done.
Qed.

Lemma admit_keeps_ok b owner handle op relative data physical :
  Broker_ok b -> 0 <= relative -> length data = SECTOR -> bytes_ok data ->
  match BlockBroker_admit b owner handle op relative data physical with
  | (Ok id, b') => Broker_ok b' /\ id = k_next b /\ k_handles b' = k_handles b /\
      (exists slot sector g rights,
        k_records b !! slot = Some None /\
        k_records b' = <[slot := Some (mkBlockRecord owner handle sector PhQueued false
                                 (mkCompletion id op StSuccess EffectNone data))]> (k_records b) /\
        view (k_handles b) !! handle = Some (owner, g, rights) /\ authorized g rights op sector /\
        (op <> OpRead -> geo_read_only physical = false) /\ (op <> OpFlush -> sector = gr_first g + relative)) /\
      (forall i r, k_records b !! i = Some (Some r) -> bk_owner r <> owner)
  | (Err _, b') => b' = b
  | (Panic, _) => False
  end.
Proof.
  intros Hok Hrel Hlen Hdata. unfold BlockBroker_admit.
  destruct (BlockBroker_check b owner handle op relative physical) as [sector|e|] eqn:Ec; [|done|].
  2:{ unfold BlockBroker_check, Grant_sector, ok_or in Ec. pose proof (resolve_spec b owner handle (Operation_right op) Hok) as Hr.
      destruct (BlockBroker_resolve _ _ _ _); [|done|done]. repeat case_match; simplify_eq; done. }
  apply check_spec in Ec as (g & rights & Hv & Hauth & Hro & Hsec); [|done|done].
  destruct (existsb _ (k_records b)) eqn:Ex; [done|].
  assert (Hno : forall i r, k_records b !! i = Some (Some r) -> bk_owner r <> owner).
  { intros i r Hi Heq. rewrite <- not_true_iff_false, existsb_exists in Ex. apply Ex.
    exists (Some r). split; [apply list_elem_of_In, list_elem_of_lookup; by exists i|]. simpl. by apply Z.eqb_eq. }
  destruct (position is_none (k_records b)) as [slot|] eqn:Ep; [|done].
  apply position_Some in Ep as [(o & Hslot & Hnone) _]. destruct o as [|]; [done|].
  destruct (checked_add (k_next b) 1) as [n|] eqn:En; [|done]. apply checked_add_Some in En as [-> _].
  destruct (Z.leb_spec (k_next b + 1) MAX_ID) as [Hmax|]; [|done].
  set (r0 := mkBlockRecord _ _ _ _ _ _).
  pose proof (slot_lt b slot None Hok Hslot) as Hlt.
  pose proof (bo_grants _ Hok _ _ _ _ Hv) as [_ (Hg1 & Hg2 & Hg3 & _)].
  split; [|split; [done|split; [done|split; [|done]]]].
  2:{ exists slot, sector, g, rights. auto 10. }
  set (b1 := mkBlockBroker (k_handles b) (k_records b) (k_next b + 1)).
  assert (Hok1 : Broker_ok b1).
  { destruct Hok as [O1 O2 O3 O4 O5 O6 O7]. split; simpl; try done; [lia|].
    intros i r Hi. destruct (O6 i r Hi) as [R1 R2 R3 R4]. split; try done. lia. }
  apply (set_record_ok b1 slot (Some r0) Hok1 Hlt). intros r [= <-]. split.
  - split; simpl; [pose proof (bo_next _ Hok); lia| |by exists g, rights|done].
    destruct Hauth as [_ Ha]. destruct op; simpl in *; [lia|lia|done].
  - intros j r' Hne Hj. split; [by eapply Hno|]. split; [|by intros []].
    simpl. pose proof (ro_id _ _ _ (bo_records _ Hok _ _ Hj)). lia.
Qed.

(** ** Dispatch *)
Lemma elem_of_indexed {A} (l : list (option A)) i a : (i, a) ∈ indexed l <-> l !! i = Some (Some a).
Proof.
  unfold indexed. rewrite list_elem_of_omap. split.
  - intros ([j o] & Hin & Ho). apply elem_of_lookup_imap in Hin as (k & y & [= -> ->] & Hk).
    destruct y as [a'|]; simpl in Ho; [|done]. by injection Ho as -> ->.
  - intros Hi. exists (i, Some a). split; [|done]. apply elem_of_lookup_imap. by exists i, (Some a).
Qed.

Definition active_record (b : BlockBroker) (i : nat) (r : BlockRecord) : Prop :=
  k_records b !! i = Some (Some r) /\ bk_phase r = PhActive.

Lemma active_Some b id :
  BlockBroker_active b = Some id -> exists i r, active_record b i r /\ cp_id (bk_result r) = id.
Proof.
  unfold BlockBroker_active. destruct (List.find _ _) as [r|] eqn:E; simpl; [|done]. intros [= <-].
  apply List.find_some in E as [Hin Hp%bool_decide_eq_true]. apply list_elem_of_In, elem_of_slots in Hin as [i Hi].
  by exists i, r.
Qed.

Lemma active_of b i r : Broker_ok b -> active_record b i r -> BlockBroker_active b = Some (cp_id (bk_result r)).
Proof.
  intros Hok [Hi Hp]. unfold BlockBroker_active. destruct (List.find _ _) as [r'|] eqn:E; simpl.
  - apply List.find_some in E as [Hin Hp'%bool_decide_eq_true]. apply list_elem_of_In, elem_of_slots in Hin as [j Hj].
    destruct (decide (i = j)) as [->|Hne]; [by rewrite Hi in Hj; injection Hj as ->|].
    by destruct (bo_compatible _ Hok i j r r' Hne Hi Hj) as (_ & _ & []).
  - eapply List.find_none in E; [|apply list_elem_of_In, elem_of_slots; by exists i].
    simpl in E. by rewrite bool_decide_eq_true_2 in E.
Qed.

Lemma active_None b : BlockBroker_active b = None <-> forall i r, ~ active_record b i r.
Proof.
  unfold BlockBroker_active. destruct (List.find _ _) as [r|] eqn:E; simpl.
  - split; [done|]. intros H. apply List.find_some in E as [Hin Hp%bool_decide_eq_true].
    apply list_elem_of_In, elem_of_slots in Hin as [i Hi]. by destruct (H i r).
  - split; [|done]. intros _ i r [Hi Hp]. eapply List.find_none in E; [|apply list_elem_of_In, elem_of_slots; by exists i].
    simpl in E. by rewrite bool_decide_eq_true_2 in E.
Qed.

Definition activated (r : BlockRecord) : BlockRecord :=
  mkBlockRecord (bk_owner r) (bk_handle r) (bk_sector r) PhActive (bk_abandoned r) (bk_result r).

Lemma start_keeps_ok b :
  Broker_ok b ->
  match BlockBroker_start b with
  | (Some p, b') => Broker_ok b' /\ BlockBroker_active b = None /\ BlockBroker_active b' = Some (pd_id p) /\
      exists slot r g rights,
        k_records b !! slot = Some (Some r) /\ bk_phase r = PhQueued /\
        b' = set_records b (<[slot := Some (activated r)]> (k_records b)) /\
        p = mkBlockPending (bk_owner r) (cp_id (bk_result r)) (cp_operation (bk_result r)) (bk_sector r)
              (cp_data (bk_result r)) /\
        view (k_handles b) !! bk_handle r = Some (pd_owner p, g, rights) /\
        authorized g rights (pd_operation p) (pd_sector p) /\
        (pd_operation p <> OpFlush -> 0 <= pd_sector p < capacity) /\
        (forall i r', k_records b !! i = Some (Some r') -> bk_phase r' = PhQueued -> pd_id p <= cp_id (bk_result r'))
  | (None, b') => b' = b /\
      (BlockBroker_active b <> None \/ forall i r, k_records b !! i = Some (Some r) -> bk_phase r <> PhQueued)
  end.
Proof.
  intros Hok. unfold BlockBroker_start. destruct (existsb _ (k_records b)) eqn:Ex.
  { split; [done|]. left. apply existsb_exists in Ex as (o & Hin & Ho). destruct o as [r|]; [|done].
    simpl in Ho. apply bool_decide_eq_true in Ho. apply list_elem_of_In, list_elem_of_lookup in Hin as [i Hi].
    by rewrite (active_of b i r Hok). }
  assert (Hidle : forall i r, ~ active_record b i r).
  { intros i r [Hi Hp]. rewrite <- not_true_iff_false, existsb_exists in Ex. apply Ex. exists (Some r).
    split; [apply list_elem_of_In, list_elem_of_lookup; by exists i|]. simpl. by apply bool_decide_eq_true. }
  pose proof (min_by_key_spec (fun '(_, r) => cp_id (bk_result r))
    (filter (fun '(_, r) => bk_phase r = PhQueued) (indexed (k_records b)))) as Hm.
  destruct (min_by_key _ _) as [[slot r]|].
  - destruct Hm as [Hin Hle]. apply list_elem_of_filter in Hin as [Hq Hin]. apply elem_of_indexed in Hin.
    destruct (bo_records _ Hok _ _ Hin) as [R1 R2 R3 R4].
    destruct (bk_abandoned r) eqn:Eab; [destruct R3; congruence|]. destruct R3 as (g & rights & Hv & Hauth).
    set (b' := set_records _ _). assert (Hok' : Broker_ok b').
    { apply set_record_ok; [done|by eapply slot_lt|]. intros r0 [= <-]. split.
      - split; simpl; [done|done|by exists g, rights|by rewrite Hq in R4].
      - intros j r' Hne Hj. destruct (bo_compatible _ Hok j slot r' r Hne Hj Hin) as (C1 & C2 & _).
        split; [done|]. split; [done|]. intros [Hj' _]. by apply (Hidle j r'). }
    split; [done|]. split; [by apply active_None|]. split.
    { apply (active_of b' slot (activated r) Hok'). split; [|done]. simpl.
      unfold activated. rewrite Eab. apply list_lookup_insert_eq. by eapply lookup_lt_Some. }
    exists slot, r, g, rights. split; [done|]. split; [done|]. split; [by unfold b', activated; rewrite Eab|].
    split; [done|]. split; [done|]. split; [done|]. split.
    + simpl. intros Hop. by destruct (cp_operation (bk_result r)).
    + intros i r' Hi Hp. simpl. apply (Hle (i, r')). apply list_elem_of_filter. split; [done|]. by apply elem_of_indexed.
  - split; [done|]. right. intros i r Hi Hp.
    assert (Hx : (i, r) ∈ filter (fun '(_, r) => bk_phase r = PhQueued) (indexed (k_records b)))
      by (apply list_elem_of_filter; split; [done|by apply elem_of_indexed]).
    rewrite Hm in Hx. by apply elem_of_nil in Hx.
Qed.

(** ** Completion *)
Definition completed (r : BlockRecord) (c : Completion) : BlockRecord :=
  mkBlockRecord (bk_owner r) (bk_handle r) (bk_sector r) PhComplete (bk_abandoned r) c.

Lemma finished_valid c status data :
  0 < cp_id c <= MAX_ID -> status <> StCancelled -> length data = SECTOR -> bytes_ok data ->
  Completion_valid (finished c status data).
Proof.
  intros Hid Hst Hlen Hdata. unfold Completion_valid, finished. simpl.
  split; [done|]. split; [by destruct (cp_operation c), status|].
  destruct (bool_decide (cp_operation c = OpRead) && bool_decide (status = StSuccess)) eqn:E.
  - split; [done|]. split; [done|]. unfold carries_data. rewrite andb_comm, E. done.
  - split; [apply length_zeros|]. split; [apply bytes_ok_zeros|done].
Qed.

Lemma finish_keeps_ok b id status data :
  Broker_ok b -> BlockBroker_active b = Some id -> status <> StCancelled -> length data = SECTOR -> bytes_ok data ->
  exists slot r b', BlockBroker_finish b id status data = (Ok tt, b') /\ Broker_ok b' /\
    active_record b slot r /\ cp_id (bk_result r) = id /\ BlockBroker_active b' = None /\
    b' = set_records b (<[slot := if bk_abandoned r then None
                                  else Some (completed r (finished (bk_result r) status data))]> (k_records b)).
Proof.
  intros Hok Hact Hst Hlen Hdata. unfold BlockBroker_finish.
  destruct (active_Some b id Hact) as (i0 & r0 & [Hi0 Hp0] & Hid0).
  destruct (position _ (k_records b)) as [slot|] eqn:Ep.
  2:{ exfalso. rewrite position_None in Ep. specialize (Ep _ _ Hi0). simpl in Ep.
      by rewrite Hid0, Z.eqb_refl, bool_decide_eq_true_2 in Ep. }
  apply position_Some in Ep as [(o & Hslot & Hp) _]. destruct o as [r|]; [|done]. simpl in Hp.
  apply andb_true_iff in Hp as [Hid%Z.eqb_eq Hph%bool_decide_eq_true].
  destruct (bo_records _ Hok _ _ Hslot) as [R1 R2 R3 R4].
  pose proof (slot_lt b slot _ Hok Hslot) as Hlt.
  assert (Hother : forall j r', j <> slot -> k_records b !! j = Some (Some r') -> compatible r' r /\ bk_phase r' <> PhActive).
  { intros j r' Hne Hj. pose proof (bo_compatible _ Hok j slot r' r Hne Hj Hslot) as Hc.
    split; [done|]. intros Hpj. by destruct Hc as (_ & _ & []). }
  rewrite Hslot. simpl. set (o' := if bk_abandoned r then None else Some (completed r (finished (bk_result r) status data))).
  exists slot, r, (set_records b (<[slot := o']> (k_records b))).
  split; [unfold o', completed; by destruct (bk_abandoned r)|].
  assert (Ho' : forall r1, o' = Some r1 -> r1 = completed r (finished (bk_result r) status data) /\ bk_abandoned r = false).
  { intros r1. unfold o'. by destruct (bk_abandoned r); [|intros [= <-]]. }
  split; [|split; [done|split; [done|split; [|done]]]].
  - apply set_record_ok; [done|done|]. intros r1 [-> Hab]%Ho'. rewrite Hab in R3. split.
    + split; simpl; [done|done|by rewrite Hab|]. apply finished_valid; try done. pose proof (bo_next _ Hok). lia.
    + intros j r' Hne Hj. destruct (Hother j r' Hne Hj) as [(C1 & C2 & _) _]. split; [done|]. split; [done|]. by intros [].
  - apply active_None. intros j r' [Hj Hpj]. simpl in Hj. destruct (decide (j = slot)) as [->|Hne].
    + rewrite list_lookup_insert_eq in Hj by (by eapply lookup_lt_Some). injection Hj as Hj.
      apply Ho' in Hj as [-> _]. done.
    + rewrite list_lookup_insert_ne in Hj by done. by apply (Hother j r').
Qed.

(** ** Reading, cancelling and closing *)
Lemma peek_spec b owner handle :
  Broker_ok b ->
  match BlockBroker_peek b owner handle with
  | Ok c => Completion_valid c /\ exists slot r, k_records b !! slot = Some (Some r) /\ bk_owner r = owner /\
      bk_handle r = handle /\ bk_phase r = PhComplete /\ c = bk_result r /\ BlockBroker_slot b owner handle = Ok slot
  | Err e => e = BHandle \/ e = BDenied \/ e = BNoRequest \/ e = BWouldBlock
  | Panic => False
  end.
Proof.
  intros Hok. unfold BlockBroker_peek. pose proof (record_spec b owner handle Hok) as Hr.
  destruct (BlockBroker_record b owner handle) as [[slot r]|e|]; [|by intuition|done].
  destruct Hr as (Hslot & Ho & Hh & _ & Hs).
  destruct (bool_decide_reflect (bk_phase r = PhComplete)) as [Hp|]; simpl; [|auto].
  pose proof (ro_result _ _ _ (bo_records _ Hok _ _ Hslot)) as Hv. rewrite Hp in Hv. split; [done|]. by exists slot, r.
Qed.

Lemma consume_keeps_ok b owner handle :
  Broker_ok b ->
  match BlockBroker_consume b owner handle with
  | (Ok _, b') => Broker_ok b' /\ exists slot r, k_records b !! slot = Some (Some r) /\ bk_owner r = owner /\
      bk_handle r = handle /\ bk_phase r = PhComplete /\ b' = set_records b (<[slot := None]> (k_records b))
  | (Err _, b') => b' = b
  | (Panic, _) => False
  end.
Proof.
  intros Hok. unfold BlockBroker_consume. pose proof (peek_spec b owner handle Hok) as Hp.
  destruct (BlockBroker_peek b owner handle) as [c|e|]; [|done|done].
  destruct Hp as (_ & slot & r & Hslot & Ho & Hh & Hph & _ & ->). split; [|by exists slot, r].
  apply set_record_ok; [done|by eapply slot_lt|done].
Qed.

Definition cancelled (r : BlockRecord) : BlockRecord :=
  completed r (mkCompletion (cp_id (bk_result r)) (cp_operation (bk_result r)) StCancelled EffectNone (zeros SECTOR)).

Lemma cancel_keeps_ok b owner handle id :
  Broker_ok b ->
  match BlockBroker_cancel b owner handle id with
  | (Ok 0, b') => Broker_ok b' /\ exists slot r, k_records b !! slot = Some (Some r) /\ bk_owner r = owner /\
      bk_handle r = handle /\ bk_phase r = PhQueued /\ cp_id (bk_result r) = id /\
      b' = set_records b (<[slot := Some (cancelled r)]> (k_records b))
  | (Ok 1, b') => b' = b /\ exists slot r, k_records b !! slot = Some (Some r) /\ bk_owner r = owner /\
      bk_handle r = handle /\ bk_phase r <> PhQueued /\ cp_id (bk_result r) = id
  | (Ok _, _) => False
  | (Err _, b') => b' = b
  | (Panic, _) => False
  end.
Proof.
  intros Hok. unfold BlockBroker_cancel. pose proof (record_spec b owner handle Hok) as Hr.
  destruct (BlockBroker_record b owner handle) as [[slot r]|e|]; [|done|done].
  destruct Hr as (Hslot & Ho & Hh & Hab & _). destruct (Z.eqb_spec (cp_id (bk_result r)) id) as [Hid|]; [|done]. simpl.
  destruct (bool_decide_reflect (bk_phase r = PhQueued)) as [Hq|Hq]; simpl; [|split; [done|by exists slot, r]].
  destruct (bo_records _ Hok _ _ Hslot) as [R1 R2 R3 R4]. rewrite Hab in R3. rewrite Hq in R4.
  destruct R4 as (_ & He & _).
  assert (Hsame : mkBlockRecord (bk_owner r) (bk_handle r) (bk_sector r) PhComplete (bk_abandoned r)
    (mkCompletion (cp_id (bk_result r)) (cp_operation (bk_result r)) StCancelled (cp_effect (bk_result r)) (zeros SECTOR))
    = cancelled r) by (unfold cancelled, completed; by rewrite He).
  rewrite Hsame. split; [|by exists slot, r].
  apply set_record_ok; [done|by eapply slot_lt|]. intros r1 [= <-]. split.
  - split; simpl; [done|done|by rewrite Hab|]. unfold Completion_valid. simpl.
    split; [pose proof (bo_next _ Hok); lia|]. split; [by destruct (cp_operation _)|].
    split; [done|]. split; [apply bytes_ok_zeros|done].
  - intros j r' Hne Hj. destruct (bo_compatible _ Hok j slot r' r Hne Hj Hslot) as (C1 & C2 & _).
    split; [done|]. split; [done|]. by intros [].
Qed.

Lemma close_record_spec handle o r :
  close_record handle o = Some r <->
  exists r0, o = Some r0 /\
    ((bk_handle r0 <> handle /\ r = r0) \/
     (bk_handle r0 = handle /\ bk_phase r0 = PhActive /\
      r = mkBlockRecord (bk_owner r0) (bk_handle r0) (bk_sector r0) (bk_phase r0) true (bk_result r0))).
Proof.
  destruct o as [r0|]; simpl; [|split; [done|]; by intros (? & ? & _)].
  destruct (Z.eqb_spec (bk_handle r0) handle) as [He|He]; [destruct (decide (bk_phase r0 = PhActive)) as [Hp|Hp]|].
  - split; [intros [= <-]; exists r0; auto 10|]. intros (r1 & [= <-] & [[? _]|(_ & _ & ->)]); done.
  - split; [done|]. by intros (r1 & [= <-] & [[? _]|(_ & ? & _)]).
  - split; [intros [= <-]; exists r0; auto|]. by intros (r1 & [= <-] & [[_ ->]|(? & _ & _)]).
Qed.

Lemma close_keeps_ok b owner handle :
  Broker_ok b ->
  match BlockBroker_close b owner handle with
  | (Ok _, b') => Broker_ok b' /\ (exists g r, view (k_handles b) !! handle = Some (owner, g, r)) /\
      view (k_handles b') = delete handle (view (k_handles b)) /\
      k_records b' = close_record handle <$> k_records b /\ k_next b' = k_next b
  | (Err e, b') => b' = b /\ e = BHandle /\ forall g r, view (k_handles b) !! handle <> Some (owner, g, r)
  | (Panic, _) => False
  end.
Proof.
  intros Hok. unfold BlockBroker_close.
  pose proof (remove_meets_contract (CAPACITY := GRANTS) (PER_OWNER := GRANTS_PER_OWNER)
                (k_handles b) owner handle (bo_handles _ Hok)) as Hc.
  destruct (Table_remove _ _ _) as [[g|[]|] h]; simpl in *; try done.
  2:{ destruct Hc as [-> Hno]. split; [by destruct b|]. split; [done|exact Hno]. }
  destruct Hc as (Hwf & Hv & [rg Hg] & Hn & Hd & Hall & _).
  split; [|eauto 10]. pose proof Hok as [O1 O2 O3 O4 O5 O6 O7].
  assert (Hiss : forall t, issued (k_handles b) t -> issued h t) by (intros t; apply issued_mono; [done|lia]).
  assert (Hhandle : issued h handle) by (eapply Hiss, view_issued; [exact O1|exact Hg]).
  assert (Hlk : forall i r, (close_record handle <$> k_records b) !! i = Some (Some r) ->
    exists r0, k_records b !! i = Some (Some r0) /\ close_record handle (Some r0) = Some r).
  { intros i r. rewrite list_lookup_fmap. destruct (k_records b !! i) as [o|] eqn:E; simpl; [|done].
    intros [= Hr]. destruct o as [r0|]; [|done]. by exists r0. }
  split; simpl; try done.
  - congruence.
  - intros t who g' r Hl. rewrite Hv in Hl. apply lookup_delete_Some in Hl as [_ Hl]. by eapply O3.
  - by rewrite length_fmap.
  - intros i r (r0 & Hi & Hcl)%Hlk. destruct (O6 i r0 Hi) as [R1 R2 R3 R4].
    apply close_record_spec in Hcl as (r1 & [= <-] & [[Hne ->]|(He & Hp & ->)]).
    + split; [done|done| |done]. destruct (bk_abandoned r0).
      * destruct R3 as (Hp & Hnone & Hi'). split; [done|]. split; [|auto]. rewrite Hv. by rewrite lookup_delete_ne.
      * destruct R3 as (g' & rights & Hl & Ha). exists g', rights. rewrite Hv. by rewrite lookup_delete_ne.
    + split; simpl; [done|done| |done]. split; [done|]. rewrite He, Hv. split; [apply lookup_delete_eq|done].
  - intros i j r r' Hne (r0 & Hi & Hci)%Hlk (r0' & Hj & Hcj)%Hlk.
    pose proof (O7 i j r0 r0' Hne Hi Hj) as Hcmp.
    apply close_record_spec in Hci as (? & [= <-] & [[_ ->]|(_ & _ & ->)]);
      apply close_record_spec in Hcj as (? & [= <-] & [[_ ->]|(_ & _ & ->)]); exact Hcmp.
Qed.

Lemma close_owner_loop_spec fuel b owner :
  Broker_ok b -> (Table_count (k_handles b) < fuel)%nat ->
  exists b', block_close_owner_loop fuel b owner = Some (Ok tt, b') /\ Broker_ok b' /\
    (forall t g r, view (k_handles b') !! t <> Some (owner, g, r)) /\
    (forall t who g r, who <> owner -> view (k_handles b') !! t = Some (who, g, r) <-> view (k_handles b) !! t = Some (who, g, r)).
Proof.
  revert b. induction fuel as [|fuel IH]; intros b Hok Hf; [lia|]. simpl.
  destruct (Table_first (k_handles b) owner) as [handle|] eqn:E.
  - apply (first_Some (CAPACITY := GRANTS) (PER_OWNER := GRANTS_PER_OWNER)) in E as (g & r & Hg); [|apply (bo_handles _ Hok)].
    pose proof (close_keeps_ok b owner handle Hok) as Hc.
    destruct (BlockBroker_close b owner handle) as [[[]|e|] b1]; [| |done].
    2:{ destruct Hc as (_ & _ & Hno). by apply Hno in Hg. }
    destruct Hc as (Hok1 & _ & Hv & _).
    assert (Hcount : (Table_count (k_handles b1) < fuel)%nat).
    { rewrite (table_count_size GRANTS GRANTS_PER_OWNER) by apply (bo_handles _ Hok1).
      rewrite (table_count_size GRANTS GRANTS_PER_OWNER) in Hf by apply (bo_handles _ Hok).
      rewrite Hv, map_size_delete, Hg. pose proof (map_size_ne_0_lookup_2 _ _ (ex_intro _ _ Hg)). simpl. lia. }
    destruct (IH b1 Hok1 Hcount) as (b' & He & Hok' & Hnone & Hoth). exists b'.
    split; [done|]. split; [done|]. split; [done|]. intros t who g' r' Hne. rewrite (Hoth t who g' r' Hne), Hv.
    rewrite lookup_delete_Some. split; [by intros []|]. intros Hl. split; [|done]. intros ->. congruence.
  - exists b. split; [done|]. split; [done|]. split; [|done].
    eapply (first_None (CAPACITY := GRANTS) (PER_OWNER := GRANTS_PER_OWNER)); [apply (bo_handles _ Hok)|exact E].
Qed.

(** ** Looking up a request *)
Lemma record_of b slot r :
  Broker_ok b -> k_records b !! slot = Some (Some r) -> bk_abandoned r = false ->
  BlockBroker_record b (bk_owner r) (bk_handle r) = Ok (slot, r).
Proof.
  intros Hok Hslot Hab. pose proof (ro_bound _ _ _ (bo_records _ Hok _ _ Hslot)) as Hb. rewrite Hab in Hb.
  destruct Hb as (g & rights & Hv & _).
  pose proof (record_spec b (bk_owner r) (bk_handle r) Hok) as Hr.
  pose proof (resolve_spec b (bk_owner r) (bk_handle r) 0 Hok) as Hres.
  destruct (BlockBroker_record b (bk_owner r) (bk_handle r)) as [[j r']|e|] eqn:E; [| |done].
  - destruct Hr as (Hj & Ho & _). destruct (decide (j = slot)) as [->|Hne]; [congruence|].
    by destruct (bo_compatible _ Hok j slot r' r Hne Hj Hslot) as [? _].
  - unfold BlockBroker_record, BlockBroker_slot in E.
    destruct (BlockBroker_resolve b (bk_owner r) (bk_handle r) 0) as [g'|e'|]; [| |done].
    + destruct (position _ (k_records b)) as [j|] eqn:Ep.
      * simpl in E. apply position_Some in Ep as [(o & Ho & Hp) _]. rewrite Ho in E. by destruct o.
      * rewrite position_None in Ep. specialize (Ep _ _ Hslot). simpl in Ep. by rewrite !Z.eqb_refl in Ep.
    + destruct Hres as [_ Hno]. exfalso. by eapply Hno; [exact Hv|apply Z.land_0_r].
Qed.

Lemma position_ext {A} (p : A -> bool) l l' : (p <$> l) = (p <$> l') -> position p l = position p l'.
Proof.
  revert l'. induction l as [|x l IH]; intros [|y l']; simpl; try done.
  intros [= Hp Hl]. rewrite Hp, (IH l' Hl). done.
Qed.

(** Changing another owner's request is not observable. *)
Lemma record_other b slot r o who handle :
  Broker_ok b -> Broker_ok (set_records b (<[slot := o]> (k_records b))) ->
  k_records b !! slot = Some (Some r) -> bk_owner r <> who -> (forall r', o = Some r' -> bk_owner r' <> who) ->
  BlockBroker_record (set_records b (<[slot := o]> (k_records b))) who handle = BlockBroker_record b who handle.
Proof.
  intros Hok Hok' Hslot Hw Ho. unfold BlockBroker_record, BlockBroker_slot, BlockBroker_resolve. cbn [k_handles set_records k_records].
  destruct (map_err _ _) as [g|e|]; [|done|done].
  set (p := is_some_and _). assert (Hpos : position p (<[slot := o]> (k_records b)) = position p (k_records b)).
  { apply position_ext. rewrite list_fmap_insert. apply list_insert_id. rewrite list_lookup_fmap, Hslot. simpl. f_equal.
    unfold p. simpl. destruct (Z.eqb_spec (bk_owner r) who) as [|_]; [done|]. simpl.
    destruct o as [r'|]; [|done]. simpl. destruct (Z.eqb_spec (bk_owner r') who) as [He|_]; [|done]. by apply Ho in He. }
  rewrite Hpos. destruct (position p (k_records b)) as [j|] eqn:Ep; [|done]. simpl.
  destruct (decide (j = slot)) as [->|Hne]; [|by rewrite list_lookup_insert_ne].
  exfalso. apply position_Some in Ep as [(o' & Ho' & Hp) _]. rewrite Hslot in Ho'. injection Ho' as <-.
  unfold p in Hp. simpl in Hp. apply andb_true_iff in Hp as [Hp%Z.eqb_eq _]. done.
Qed.

(** ** Reachable brokers *)
Inductive block_step (b : BlockBroker) : BlockBroker -> Prop :=
| bs_grant owner g : 0 <= gr_first g -> 0 <= gr_sectors g -> fits 8 (gr_rights g) ->
    block_step b (BlockBroker_grant b owner g capacity).2
| bs_admit owner handle op relative data physical :
    0 <= relative -> length data = SECTOR -> bytes_ok data ->
    block_step b (BlockBroker_admit b owner handle op relative data physical).2
| bs_start : block_step b (BlockBroker_start b).2
| bs_finish id status data :
    BlockBroker_active b = Some id -> status <> StCancelled -> length data = SECTOR -> bytes_ok data ->
    block_step b (BlockBroker_finish b id status data).2
| bs_consume owner handle : block_step b (BlockBroker_consume b owner handle).2
| bs_cancel owner handle id : block_step b (BlockBroker_cancel b owner handle id).2
| bs_close owner handle : block_step b (BlockBroker_close b owner handle).2
| bs_close_owner owner r b' : BlockBroker_close_owner b owner = Some (r, b') -> block_step b b'.

Lemma block_step_ok b b' : Broker_ok b -> block_step b b' -> Broker_ok b'.
Proof.
  intros Hok []; simpl.
  - pose proof (grant_keeps_ok b owner g Hok) as Hk. specialize (Hk ltac:(done) ltac:(done) ltac:(done)).
    destruct (BlockBroker_grant b owner g capacity) as [[t|e|] b1]; simpl; [by destruct Hk|by subst|done].
  - pose proof (admit_keeps_ok b owner handle op relative data physical Hok) as Hk.
    specialize (Hk ltac:(done) ltac:(done) ltac:(done)).
    destruct (BlockBroker_admit _ _ _ _ _ _ _) as [[t|e|] b1]; simpl; [by destruct Hk|by subst|done].
  - pose proof (start_keeps_ok b Hok) as Hk. destruct (BlockBroker_start b) as [[p|] b1]; simpl; [by destruct Hk|].
    by destruct Hk as [-> _].
  - destruct (finish_keeps_ok b id status data Hok) as (slot & r & b1 & -> & Hok1 & _); done.
  - pose proof (consume_keeps_ok b owner handle Hok) as Hk.
    destruct (BlockBroker_consume b owner handle) as [[t|e|] b1]; simpl; [by destruct Hk|by subst|done].
  - pose proof (cancel_keeps_ok b owner handle id Hok) as Hk.
    destruct (BlockBroker_cancel b owner handle id) as [[t|e|] b1]; simpl; [|by subst|done].
    destruct t as [|[]|]; try done; [by destruct Hk|by destruct Hk as [-> _]].
  - pose proof (close_keeps_ok b owner handle Hok) as Hk.
    destruct (BlockBroker_close b owner handle) as [[t|e|] b1]; simpl; [by destruct Hk|by destruct Hk as [-> _]|done].
  - unfold BlockBroker_close_owner in *. destruct (close_owner_loop_spec (S (Table_count (k_handles b))) b owner Hok)
      as (b1 & He & Hok1 & _); [lia|]. congruence.
Qed.

Definition reachable (b : BlockBroker) : Prop := rtc block_step BlockBroker_new b.

Lemma reachable_ok b : reachable b -> Broker_ok b.
Proof.
  unfold reachable. pose proof new_broker_ok as H0. revert H0. generalize BlockBroker_new as b0.
  intros b0 H0 Hr. revert H0. induction Hr as [|x y z Hxy _ IH]; [done|]. intros Hx. apply IH. by eapply block_step_ok.
Qed.
End Invariant.

(** ** Properties *)

(** In every state the broker can reach,
    grants lie inside the device, every queued or active request is covered by
    the grant it was admitted under unless it was abandoned by a close, owners
    and request numbers are unique, at most one request is active; no operation
    panics ([finish] for the active request), [peek] returns only well-formed
    completions and [close_owner] terminates leaving the owner without handles
    and every other owner's handles untouched. *)
Theorem block_reachable_brokers_are_safe capacity b owner handle id :
  reachable capacity b ->
  Broker_ok capacity b /\
  fst (BlockBroker_consume b owner handle) <> Panic /\
  fst (BlockBroker_cancel b owner handle id) <> Panic /\
  fst (BlockBroker_close b owner handle) <> Panic /\
  match BlockBroker_peek b owner handle with Ok c => Completion_valid c | Err _ => True | Panic => False end /\
  (forall status data, BlockBroker_active b = Some id -> status <> StCancelled -> length data = SECTOR ->
     bytes_ok data -> fst (BlockBroker_finish b id status data) = Ok tt) /\
  (exists b', BlockBroker_close_owner b owner = Some (Ok tt, b') /\
     (forall t g r, view (k_handles b') !! t <> Some (owner, g, r)) /\
     (forall t who g r, who <> owner ->
        view (k_handles b') !! t = Some (who, g, r) <-> view (k_handles b) !! t = Some (who, g, r))).
Proof.
  intros Hr%reachable_ok. split; [done|]. split; [|split; [|split; [|split; [|split]]]].
  - pose proof (consume_keeps_ok capacity b owner handle Hr). by destruct (BlockBroker_consume _ _ _) as [[]].
  - pose proof (cancel_keeps_ok capacity b owner handle id Hr). by destruct (BlockBroker_cancel _ _ _ _) as [[]].
  - pose proof (close_keeps_ok capacity b owner handle Hr). by destruct (BlockBroker_close _ _ _) as [[]].
  - pose proof (peek_spec capacity b owner handle Hr). by destruct (BlockBroker_peek _ _ _); [tauto|..].
  - intros status data Ha Hs Hl Hd. by destruct (finish_keeps_ok capacity b id status data Hr Ha Hs Hl Hd) as (? & ? & ? & -> & _).
  - destruct (close_owner_loop_spec capacity (S (Table_count (k_handles b))) b owner Hr) as (b' & He & _ & H1 & H2); [lia|].
    by exists b'.
Qed.

Definition example_grant : Grant := mkGrant 8 16 3.
Definition example_broker : BlockBroker :=
  (BlockBroker_admit (BlockBroker_grant BlockBroker_new 5 example_grant 64).2 5 (2 ^ 56 + 1) OpWrite 3
     (replicate SECTOR 7) (mkGeometry 64 false)).2.

Lemma example_broker_reachable : reachable 64 example_broker.
Proof.
  eapply rtc_l; [apply (bs_grant 64 _ 5 example_grant); by vm_compute|].
  apply rtc_once. unfold example_broker.
  apply (bs_admit 64 _ 5 (2 ^ 56 + 1) OpWrite 3 (replicate SECTOR 7) (mkGeometry 64 false)); [lia|done|].
  apply (bool_decide_unpack _). by vm_compute.
Qed.

Lemma block_reachable_brokers_are_safe_witness :
  exists b', BlockBroker_close_owner example_broker 5 = Some (Ok tt, b') /\
    forall t g r, view (k_handles b') !! t <> Some (5, g, r).
Proof.
  destruct (block_reachable_brokers_are_safe 64 example_broker 5 0 0 example_broker_reachable)
    as (_ & _ & _ & _ & _ & _ & b' & He & Hn & _). by exists b'.
Defined.

(** C14 (block_dispatch_is_authorized): what the broker hands to the device is
    always a request of a process that still holds the grant it was admitted
    under: the right matches the operation, the absolute sector lies in the
    granted range and on the device, no other request is active, and it is the
    oldest queued request. *)
Theorem block_dispatch_is_authorized capacity b p b' :
  reachable capacity b -> BlockBroker_start b = (Some p, b') ->
  BlockBroker_active b = None /\ BlockBroker_active b' = Some (pd_id p) /\
  (exists handle g rights, view (k_handles b) !! handle = Some (pd_owner p, g, rights) /\ grant_ok capacity g /\
     authorized g rights (pd_operation p) (pd_sector p)) /\
  (pd_operation p <> OpFlush -> 0 <= pd_sector p < capacity) /\
  (forall i r, k_records b !! i = Some (Some r) -> bk_phase r = PhQueued -> pd_id p <= cp_id (bk_result r)).
Proof.
  intros Hr%reachable_ok Hs. pose proof (start_keeps_ok capacity b Hr) as H. rewrite Hs in H.
  destruct H as (_ & Hn & Ha & slot & r & g & rights & _ & _ & _ & _ & Hv & Hauth & Hsec & Hmin).
  destruct (bo_grants _ _ Hr _ _ _ _ Hv) as [_ Hg]. split; [done|]. split; [done|]. split; [by exists (bk_handle r), g, rights|done].
Qed.

Lemma block_dispatch_is_authorized_witness :
  exists p b', BlockBroker_start example_broker = (Some p, b') /\ 0 <= pd_sector p < 64.
Proof.
  destruct (BlockBroker_start example_broker) as [[p|] b'] eqn:E; [|by vm_compute in E].
  exists p, b'. split; [done|].
  apply (block_dispatch_is_authorized 64 example_broker p b' example_broker_reachable E).
  intros Hf. apply (f_equal fst) in E. vm_compute in E. injection E as <-. done.
Defined.

(** After a dispatched request is finished,
    its owner reads exactly that completion: before, [peek] would block; after,
    it returns the same number and operation, the device's status, the data for
    a successful read and zeros otherwise; the record written to user memory
    decodes to it, and no other process observes a change. *)
Theorem block_completion_reaches_owner capacity b p b1 status data :
  reachable capacity b -> BlockBroker_start b = (Some p, b1) ->
  status <> StCancelled -> length data = SECTOR -> bytes_ok data ->
  exists handle b2 c, BlockBroker_finish b1 (pd_id p) status data = (Ok tt, b2) /\
    BlockBroker_peek b1 (pd_owner p) handle = Err BWouldBlock /\ BlockBroker_peek b2 (pd_owner p) handle = Ok c /\
    cp_id c = pd_id p /\ cp_operation c = pd_operation p /\ cp_status c = status /\
    cp_data c = (if carries_data status (pd_operation p) then data else zeros SECTOR) /\
    Completion_decode (Completion_encode c) = Ok c /\
    (forall who h, who <> pd_owner p -> BlockBroker_peek b2 who h = BlockBroker_peek b1 who h).
Proof.
  intros Hr%reachable_ok Hs Hst Hlen Hdata. pose proof (start_keeps_ok capacity b Hr) as H. rewrite Hs in H.
  destruct H as (Hok1 & _ & Hact & slot & r & g & rights & Hslot & Hq & Hb1 & Hp & Hv & _).
  pose proof (ro_bound _ _ _ _ (bo_records _ _ Hr _ _ Hslot)) as Hbound.
  assert (Hab : bk_abandoned r = false) by (destruct (bk_abandoned r); [destruct Hbound; congruence|done]).
  assert (Hslot1 : k_records b1 !! slot = Some (Some (activated r)))
    by (rewrite Hb1; simpl; apply list_lookup_insert_eq; by eapply lookup_lt_Some).
  destruct (finish_keeps_ok capacity b1 (pd_id p) status data Hok1 Hact Hst Hlen Hdata)
    as (slot2 & r2 & b2 & Hfin & Hok2 & [Hs2 Hp2] & Hid2 & _ & Hb2).
  assert (slot2 = slot) as ->.
  { destruct (decide (slot2 = slot)) as [|Hne]; [done|].
    destruct (bo_compatible _ _ Hok1 slot2 slot r2 (activated r) Hne Hs2 Hslot1) as (_ & _ & []). done. }
  rewrite Hslot1 in Hs2. injection Hs2 as <-. cbn [activated bk_abandoned] in Hb2. rewrite Hab in Hb2.
  set (c := finished (bk_result r) status data). subst p. cbn [pd_owner pd_id pd_operation] in *.
  assert (Hslot2 : k_records b2 !! slot = Some (Some (completed (activated r) c)))
    by (rewrite Hb2; simpl; apply list_lookup_insert_eq; by eapply lookup_lt_Some).
  pose proof (record_of capacity b1 slot (activated r) Hok1 Hslot1 Hab) as Hrec1.
  pose proof (record_of capacity b2 slot (completed (activated r) c) Hok2 Hslot2 Hab) as Hrec2.
  cbn [activated completed bk_owner bk_handle] in Hrec1, Hrec2.
  exists (bk_handle r), b2, c. split; [done|]. unfold BlockBroker_peek at 1 2. rewrite Hrec1, Hrec2.
  split; [done|]. split; [done|]. do 3 (split; [done|]). split.
  { unfold c, finished, carries_data. cbn [cp_data]. by rewrite andb_comm. }
  split.
  { apply Completion_round. pose proof (ro_result _ _ _ _ (bo_records _ _ Hok2 _ _ Hslot2)) as Hv2. exact Hv2. }
  intros who h Hw. unfold BlockBroker_peek. rewrite Hb2.
  rewrite (record_other capacity b1 slot (activated r)); [done|done|by rewrite <- Hb2|done|done|].
  intros r' [= <-]. done.
Qed.

Lemma block_completion_reaches_owner_witness :
  exists handle b2 c p b1, BlockBroker_start example_broker = (Some p, b1) /\
    BlockBroker_finish b1 (pd_id p) StSuccess (zeros SECTOR) = (Ok tt, b2) /\
    BlockBroker_peek b2 (pd_owner p) handle = Ok c /\ cp_status c = StSuccess.
Proof.
  destruct (BlockBroker_start example_broker) as [[p|] b1] eqn:E; [|by vm_compute in E].
  destruct (block_completion_reaches_owner 64 example_broker p b1 StSuccess (zeros SECTOR) example_broker_reachable E)
    as (h & b2 & c & H1 & _ & H2 & _ & _ & H3 & _); [done|done|apply bytes_ok_zeros|].
  by exists h, b2, c, p, b1.
Defined.
