(* ===== verification/BlockDevice.v ===== *)
(** * The device side of block requests

    Facts about the virtqueue layout, the request budget that bounds polling and
    the diagnostic hold (kernel/src/block/queue.rs, deadline.rs, observation.rs)
    and the error codes and wire records of crates/abi/src/block. *)
From stdpp Require Import base list option numbers gmap.
From Stdlib Require Import ZArith Lia Bool.
From S2P Require Import Prelude Bytes Codec AbiBlock Handles Time Block.

(** ** Virtqueue layout *)
Lemma div_ceil_bounds a b : 0 < b -> a <= div_ceil a b * b < a + b.
Proof.
  intros Hb. unfold div_ceil. pose proof (Z.div_mod (a + b - 1) b ltac:(lia)).
  pose proof (Z.mod_pos_bound (a + b - 1) b Hb). lia.
Qed.

(** A queue layout exists exactly for powers
    of two from 4 to 256; the descriptor table, the available ring and the used
    ring then follow each other without overlap, the used ring starts on a page,
    everything fits in the pages the layout asks for, and at most four pages are
    asked for, the bound of contiguous DMA allocation. *)
Theorem virtqueue_layout_is_disjoint size :
  0 <= size ->
  match Layout_new size with
  | Ok l => (exists k, 2 <= k <= 8 /\ size = 2 ^ k) /\ la_size l = size /\
      la_available l = size * 16 /\ la_available l + 6 + size * 2 <= la_used l /\ la_used l mod 4096 = 0 /\
      la_used l + 6 + size * 8 <= la_pages l * 4096 /\ la_pages l <= 4
  | Err e => e = DUnsupported /\ forall k, 2 <= k <= 8 -> size <> 2 ^ k
  | Panic => False
  end.
Proof.
  intros Hs. unfold Layout_new.
  assert (Hall : forall n : nat, (n <= 256)%nat ->
    (if negb ((4 <=? Z.of_nat n) && (Z.of_nat n <=? 256)) || negb (is_power_of_two (Z.of_nat n)) then
       forallb (fun k => negb (Z.of_nat n =? 2 ^ k)) [2; 3; 4; 5; 6; 7; 8]
     else existsb (fun k => Z.of_nat n =? 2 ^ k) [2; 3; 4; 5; 6; 7; 8]) = true).
  { assert (Hf : forallb (fun n =>
      (if negb ((4 <=? Z.of_nat n) && (Z.of_nat n <=? 256)) || negb (is_power_of_two (Z.of_nat n)) then
         forallb (fun k => negb (Z.of_nat n =? 2 ^ k)) [2; 3; 4; 5; 6; 7; 8]
       else existsb (fun k => Z.of_nat n =? 2 ^ k) [2; 3; 4; 5; 6; 7; 8])) (seq 0 257) = true) by (by vm_compute).
    intros n Hn. rewrite forallb_forall in Hf. apply Hf, in_seq. lia. }
  destruct (Z.le_gt_cases size 256) as [Hle|Hgt].
  2:{ destruct (Z.leb_spec 4 size); [|lia]. destruct (Z.leb_spec size 256); [lia|]. simpl. split; [done|].
      intros k Hk ->. pose proof (Z.pow_le_mono_r 2 k 8 ltac:(lia) ltac:(lia)). lia. }
  specialize (Hall (Z.to_nat size) ltac:(lia)). rewrite Z2Nat.id in Hall by done.
  destruct (negb _ || negb _) eqn:E.
  - split; [done|]. intros k Hk Heq. rewrite forallb_forall in Hall.
    assert (Hin : In k [2; 3; 4; 5; 6; 7; 8]) by (simpl; lia). apply Hall in Hin.
    apply negb_true_iff, Z.eqb_neq in Hin. done.
  - apply existsb_exists in Hall as (k & Hin & Hk%Z.eqb_eq).
    assert (Hk8 : 2 <= k <= 8) by (simpl in Hin; lia).
    assert (Hb : 4 <= size <= 256).
    { rewrite Hk. split; [change 4 with (2 ^ 2)|change 256 with (2 ^ 8)]; apply Z.pow_le_mono_r; lia. }
    cbv zeta. cbn [la_size la_available la_used la_pages].
    pose proof (div_ceil_bounds (size * 16 + 6 + size * 2) 4096 ltac:(lia)) as H1.
    set (u := div_ceil (size * 16 + 6 + size * 2) 4096) in *.
    pose proof (div_ceil_bounds (u * 4096 + 6 + size * 8) 4096 ltac:(lia)) as H2.
    split; [by exists k|]. split; [done|]. split; [done|]. split; [lia|]. split; [by apply Z.mod_mul|].
    split; [lia|]. assert (u <= 2) by lia. lia.
Qed.

Lemma virtqueue_layout_is_disjoint_witness :
  la_used (mkLayout 256 4096 8192 3) + 6 + 256 * 8 <= 3 * 4096.
Proof.
  pose proof (virtqueue_layout_is_disjoint 256 ltac:(lia)) as H. vm_compute Layout_new in H.
  destruct H as (_ & _ & _ & _ & _ & H & _). exact H.
Defined.

(** ** Request budget *)
(** Polls at the ticks [nows]; the results and the final budget. *)
Fixpoint budget_run (b : RequestBudget) (nows : list Z) : list bool * RequestBudget :=
  match nows with
  | [] => ([], b)
  | now :: nows =>
    let (e, b) := RequestBudget_expired_pending b now in
    let (es, b) := budget_run b nows in (e :: es, b)
  end.

(** Ticks never go backwards from [from]. *)
Fixpoint nondecreasing (from : Z) (l : list Z) : Prop :=
  match l with [] => True | x :: l => from <= x /\ nondecreasing x l end.

Record budget_ok (b : RequestBudget) (polls : Z) : Prop := {
  bu_started : 0 <= rb_started b <= rb_observed_tick b;
  bu_elapsed : rb_observed_tick b - rb_started b < REQUEST_TICKS;
  bu_stalled : 0 <= rb_stalled_polls b < STALLED_POLLS;
  bu_polls : polls <= (rb_observed_tick b - rb_started b) * STALLED_POLLS + rb_stalled_polls b;
}.

Lemma budget_step b polls now :
  budget_ok b polls -> rb_observed_tick b <= now ->
  let (e, b') := RequestBudget_expired_pending b now in
  rb_observed_tick b' = now /\ rb_started b' = rb_started b /\
  (e = true <-> REQUEST_TICKS <= now - rb_started b \/ STALLED_POLLS <= rb_stalled_polls b') /\
  (e = false -> budget_ok b' (polls + 1)).
Proof.
  intros [H1 H2 H3 H4] Hn. unfold RequestBudget_expired_pending.
  assert (Hsat : saturating_sub now (rb_started b) = now - rb_started b) by (unfold saturating_sub; lia).
  assert (Hadd : saturating_add (rb_stalled_polls b) 1 = rb_stalled_polls b + 1)
    by (unfold saturating_add, STALLED_POLLS, u64_max in *; lia).
  destruct (Z.eqb_spec now (rb_observed_tick b)) as [->|Hne]; cbn [rb_started rb_observed_tick rb_stalled_polls];
    rewrite Hsat, ?Hadd; (split; [done|]); (split; [done|]);
    (split; [by rewrite orb_true_iff, !Z.leb_le|]); intros [E1 E2]%orb_false_iff; apply Z.leb_gt in E1, E2.
  - split; cbn [rb_started rb_observed_tick rb_stalled_polls]; try lia.
  - split; cbn [rb_started rb_observed_tick rb_stalled_polls]; unfold STALLED_POLLS in *; try lia.
Qed.

Lemma budget_run_bound nows b polls es b' :
  budget_ok b polls -> nondecreasing (rb_observed_tick b) nows -> budget_run b nows = (es, b') ->
  Forall (fun e => e = false) es -> budget_ok b' (polls + Z.of_nat (length nows)).
Proof.
  revert b polls es. induction nows as [|now nows IH]; intros b polls es Hok Hmono Hrun Hall.
  { injection Hrun as <- <-. simpl. by rewrite Z.add_0_r. }
  destruct Hmono as [Hle Hmono]. cbn [budget_run] in Hrun.
  pose proof (budget_step b polls now Hok Hle) as Hs.
  destruct (RequestBudget_expired_pending b now) as [e b1]. destruct Hs as (Hobs & _ & _ & Hnext).
  destruct (budget_run b1 nows) as [es1 b2] eqn:E. injection Hrun as <- <-.
  apply Forall_cons_1 in Hall as [-> Hall]. cbn [length].
  replace (polls + Z.of_nat (S (length nows))) with (polls + 1 + Z.of_nat (length nows)) by lia.
  eapply IH; [by apply Hnext|by rewrite Hobs|exact E|done].
Qed.

(** Polls of a pending request at ticks
    that never go backwards cannot go on unexpired for ever: within
    [REQUEST_TICKS * STALLED_POLLS] polls one reports expiry, and as long as none
    has, fewer than [REQUEST_TICKS] ticks have elapsed. *)
Theorem request_budget_terminates_polling start nows es b' :
  0 <= start -> nondecreasing start nows -> budget_run (RequestBudget_new start) nows = (es, b') ->
  Forall (fun e => e = false) es ->
  Z.of_nat (length nows) < REQUEST_TICKS * STALLED_POLLS /\ rb_observed_tick b' - start < REQUEST_TICKS.
Proof.
  intros Hs Hmono Hrun Hall.
  assert (H0 : budget_ok (RequestBudget_new start) 0).
  { split; simpl; unfold REQUEST_TICKS, STALLED_POLLS; lia. }
  pose proof (budget_run_bound _ _ _ _ _ H0 Hmono Hrun Hall) as [B1 B2 B3 B4].
  assert (Hst : rb_started b' = start).
  { clear -Hrun. change start with (rb_started (RequestBudget_new start)).
    revert Hrun. generalize (RequestBudget_new start) as b. revert es. induction nows as [|n nows IH]; intros es b Hrun.
    - by injection Hrun as _ <-.
    - cbn [budget_run] in Hrun. destruct (RequestBudget_expired_pending b n) as [e b1] eqn:E1.
      destruct (budget_run b1 nows) as [es1 b2] eqn:E2. injection Hrun as _ <-. rewrite (IH _ _ E2).
      unfold RequestBudget_expired_pending in E1. cbv zeta in E1. injection E1 as _ <-. by destruct (n =? _). }
  rewrite Hst in *. split; [|done]. unfold REQUEST_TICKS, STALLED_POLLS in *. lia.
Qed.

Lemma request_budget_terminates_polling_witness :
  Z.of_nat (length [10; 10; 35; 509]) < REQUEST_TICKS * STALLED_POLLS.
Proof.
  apply (request_budget_terminates_polling 10 [10; 10; 35; 509] [false; false; false; false] (mkBudget 10 509 4 0));
    [lia|simpl; lia|by vm_compute|by repeat constructor].
Defined.

(** the budget does not give up early
    either: a poll expires only if [REQUEST_TICKS] ticks have elapsed since the
    request started or the clock did not move during the last [STALLED_POLLS]
    polls. *)
Theorem request_budget_respects_the_device start before now es b e b' :
  0 <= start -> nondecreasing start (before ++ [now]) ->
  budget_run (RequestBudget_new start) before = (es, b) -> Forall (fun e => e = false) es ->
  RequestBudget_expired_pending b now = (e, b') ->
  e = true <-> REQUEST_TICKS <= now - start \/
    (STALLED_POLLS <= Z.of_nat (length before) + 1 /\ rb_stalled_polls b' = STALLED_POLLS).
Proof.
  intros Hs Hmono Hrun Hall He.
  assert (H0 : budget_ok (RequestBudget_new start) 0).
  { split; simpl; unfold REQUEST_TICKS, STALLED_POLLS; lia. }
  assert (Hpre : nondecreasing start before /\ rb_observed_tick b <= now /\ rb_started b = start /\
                 rb_stalled_polls b <= Z.of_nat (length before)).
  { assert (Hgen : forall b0 from k, rb_observed_tick b0 = from -> 0 <= k -> rb_stalled_polls b0 <= k ->
      nondecreasing from (before ++ [now]) ->
      forall es b, budget_run b0 before = (es, b) ->
      nondecreasing from before /\ rb_observed_tick b <= now /\ rb_started b = rb_started b0 /\
      rb_stalled_polls b <= k + Z.of_nat (length before)).
    { clear. induction before as [|n before IH]; intros b0 from k Hfrom Hk0 Hk Hmono es b Hrun.
      - injection Hrun as _ <-. simpl in *. rewrite Hfrom. split; [done|]. split; [apply Hmono|]. split; [done|lia].
      - cbn [budget_run app nondecreasing] in Hmono, Hrun. destruct Hmono as [Hle Hmono].
        destruct (RequestBudget_expired_pending b0 n) as [e1 b1] eqn:E1.
        destruct (budget_run b1 before) as [es1 b2] eqn:E2. injection Hrun as _ <-.
        unfold RequestBudget_expired_pending in E1. cbv zeta in E1. injection E1 as _ Hb1.
        destruct (IH b1 n (k + 1)) with (es := es1) (b := b2) as (I1 & I2 & I3 & I4); try done; try lia.
        + subst b1. by destruct (Z.eqb_spec n (rb_observed_tick b0)).
        + subst b1. destruct (n =? rb_observed_tick b0); simpl; [unfold saturating_add; lia|lia].
        + split; [done|]. split; [done|]. split; [|simpl length; lia].
          rewrite I3. subst b1. by destruct (n =? _). }
    apply (Hgen (RequestBudget_new start) start 0) with (es := es); try done; simpl; lia. }
  destruct Hpre as (Hpre & Hobs & Hst & Hcount).
  pose proof (budget_run_bound _ _ _ _ _ H0 Hpre Hrun Hall) as Hok.
  pose proof (budget_step b _ now Hok Hobs) as Hstep. rewrite He in Hstep.
  destruct Hstep as (_ & _ & Hiff & _). rewrite Hst in Hiff. rewrite Hiff.
  destruct Hok as [_ _ B3 _]. unfold RequestBudget_expired_pending in He. cbv zeta in He. injection He as _ <-.
  destruct (now =? rb_observed_tick b); cbn [rb_stalled_polls]; unfold saturating_add, STALLED_POLLS, u64_max in *; lia.
Qed.

Lemma request_budget_respects_the_device_witness :
  fst (RequestBudget_expired_pending (mkBudget 10 509 3 0) 510) = true.
Proof.
  apply (request_budget_respects_the_device 10 [35; 110; 509] 510 [false; false; false] (mkBudget 10 509 3 0) _
           (mkBudget 10 510 4 0));
    [lia|simpl; lia|by vm_compute|by repeat constructor|by vm_compute|left; unfold REQUEST_TICKS; lia].
Defined.

(** ** Wire records *)

(** The three block records round trip, every
    accepted byte string is the single encoding of a valid record, decoding
    never panics; each error code decodes to its error, request numbers decode to
    themselves and the two ranges do not meet. *)
Theorem block_records_are_canonical :
  codec_laws Request_encode Request_decode Request_valid /\
  codec_laws BlockGeometry_encode BlockGeometry_decode BlockGeometry_valid /\
  codec_laws Completion_encode Completion_decode Completion_valid /\
  (forall e, BlockError_decode (BlockError_code e) = Err e) /\
  (forall id, 0 <= id <= MAX_ID -> BlockError_decode id = Ok id) /\
  (forall v id, BlockError_decode v = Ok id -> v = id /\ id <= MAX_ID).
Proof.
  split; [apply Request_laws|]. split; [apply BlockGeometry_laws|]. split; [apply Completion_laws|].
  assert (Hcode : forall e, MAX_ID < BlockError_code e) by (intros []; by vm_compute).
  split; [by intros []; vm_compute|].
  assert (Hnone : forall id, id <= MAX_ID -> List.find (fun e => id =? BlockError_code e) block_errors = None).
  { intros id Hid. destruct (List.find _ _) as [e|] eqn:E; [|done]. apply List.find_some in E as [_ E%Z.eqb_eq].
    specialize (Hcode e). lia. }
  split.
  - intros id Hid. unfold BlockError_decode. rewrite Hnone by lia. destruct (Z.ltb_spec MAX_ID id); [lia|done].
  - intros v id. unfold BlockError_decode. destruct (List.find _ _); [done|].
    destruct (Z.ltb_spec MAX_ID v); [done|]. intros [= ->]. done.
Qed.

(** a request withheld by the diagnostic hold is
    withheld only while the clock is before a deadline at most 500 ticks after
    its submission; at the deadline it is released for good, and no other
    request is ever withheld. *)
Theorem hold_retention_is_bounded h0 owner0 skip ticks h1 owner id mutation now h2 later other :
  wh_armed h0 = None -> wh_held h0 = None ->
  Hold_arm h0 owner0 skip ticks = (true, h1) -> Hold_submitted h1 owner id mutation now = (true, h2) ->
  owner = owner0 /\ mutation = true /\
  (fst (Hold_withheld h2 id later) = true -> later < now + 500) /\
  (now + 500 <= later -> later <= u64_max -> Hold_withheld h2 id later = (false, Hold_default)) /\
  (other <> id -> Hold_withheld h2 other later = (false, h2)).
Proof.
  intros Ha Hh Harm Hsub. unfold Hold_arm in Harm. destruct (_ || _) eqn:E; [done|]. injection Harm as <-.
  bools. unfold Hold_submitted in Hsub. simpl in Hsub.
  destruct (Z.eqb_spec owner0 owner) as [<-|]; simpl in Hsub; [|done].
  destruct mutation; simpl in Hsub; [|done]. destruct (Z.eqb_spec skip 0) as [->|]; simpl in Hsub; [|done].
  injection Hsub as <-. unfold Hold_withheld. simpl. rewrite Z.eqb_refl. simpl.
  do 2 (split; [done|]). unfold saturating_add. split; [|split].
  - destruct (Z.ltb_spec later (Z.min (now + ticks) u64_max)); [intros _; lia|done].
  - intros Hl1 Hl2. destruct (Z.ltb_spec later (Z.min (now + ticks) u64_max)); [lia|done].
  - intros Hne. by destruct (Z.eqb_spec other id).
Qed.

Lemma hold_retention_is_bounded_witness :
  Hold_withheld (mkWithhold None (Some (2, 4, 60))) 5 59 = (false, mkWithhold None (Some (2, 4, 60))).
Proof.
  apply (hold_retention_is_bounded Hold_default 2 0 50 (mkWithhold (Some (2, 0, 50)) None) 2 4 true 10 _ 59 5);
    by vm_compute.
Defined.
