(* ===== verification/Allocator.v ===== *)
(** * The user heap allocator (crates/sdk/src/memory/region.rs, allocator.rs)

    The bounds-checked region and the first-fit block allocator whose free list
    lives inside it.  The region's memory is a map from word offsets (multiples
    of eight) to 64-bit words; a header is three of them.  [usize] additions on
    values the caller or the memory content controls wrap, as in a release
    build. *)
From stdpp Require Import base list option numbers.
From Stdlib Require Import ZArith Lia Bool.
From S2P Require Import Prelude.

(** [a + b] on [usize]. *)
Definition wadd (a b : Z) : Z := (a + b) mod 2 ^ 64.

(** [a - b] on [usize]. *)
Definition wsub (a b : Z) : Z := (a - b) mod 2 ^ 64.

(** [usize::checked_next_multiple_of]. *)
Definition checked_next_multiple_of (x m : Z) : option Z :=
  if m =? 0 then None else if x mod m =? 0 then Some x else checked_add x (m - x mod m).

(** ** Regions (region.rs) *)
Definition ALIGN : Z := 8.
Definition BLOCK_HEADER : Z := 24.

Record Header := mkHeader { hd_size : Z; hd_prev : Z; hd_state : Z }.

(** [Region]: base address, length and the words of the owned range. *)
Record Arena := mkArena { r_base : Z; r_len : Z; r_mem : Z -> Z }.

Definition update (m : Z -> Z) (k v : Z) : Z -> Z := fun x => if x =? k then v else m x.

(** [mem] is the content of the aligned range the constructor keeps. *)
Definition Arena_new (start total : Z) (mem : Z -> Z) : option Arena :=
  let padding := div_ceil start ALIGN * ALIGN - start in
  if total <? padding then None
  else
    let len := Z.land (total - padding) (unot 64 (ALIGN - 1)) in
    if len =? 0 then None else Some (mkArena (start + padding) len mem).

Definition Arena_from_raw (base len : Z) (mem : Z -> Z) : option Arena :=
  if negb (base mod ALIGN =? 0) then None
  else
    let len := Z.land len (unot 64 (ALIGN - 1)) in
    if len =? 0 then None else Some (mkArena base len mem).

Definition Arena_holds (r : Arena) (offset len : Z) : bool :=
  match checked_add offset len with Some e => e <=? r_len r | None => false end.

Definition Arena_header (r : Arena) (offset : Z) : option Header :=
  if negb (offset mod ALIGN =? 0) || negb (Arena_holds r offset BLOCK_HEADER) then None
  else Some (mkHeader (r_mem r offset) (r_mem r (offset + 8)) (r_mem r (offset + 16))).

Definition Arena_set_header (r : Arena) (offset : Z) (h : Header) : bool * Arena :=
  if negb (offset mod ALIGN =? 0) || negb (Arena_holds r offset BLOCK_HEADER) then (false, r)
  else (true, mkArena (r_base r) (r_len r)
                (update (update (update (r_mem r) offset (hd_size h)) (offset + 8) (hd_prev h))
                   (offset + 16) (hd_state h))).

Definition Arena_pointer (r : Arena) (offset : Z) : option Z :=
  if r_len r <? offset then None else Some (r_base r + offset).

(** The byte at [offset] of the little-endian words. *)
Definition Arena_byte (r : Arena) (offset : Z) : Z :=
  Z.land (Z.shiftr (r_mem r (offset - offset mod 8)) (8 * (offset mod 8))) 255.

Definition Arena_bytes (r : Arena) (offset len : Z) : option (list Z) :=
  if negb (Arena_holds r offset len) then None
  else Some ((fun i => Arena_byte r (offset + Z.of_nat i)) <$> seq 0 (Z.to_nat len)).

Definition Arena_grow (r : Arena) (extra : Z) : Arena := mkArena (r_base r) (r_len r + extra) (r_mem r).

Definition Arena_shrink (r : Arena) (len : Z) : bool * Arena :=
  if r_len r <? len then (false, r) else (true, mkArena (r_base r) len (r_mem r)).

(** ** Blocks (allocator.rs) *)
Definition FREE : Z := 0.
Definition USED : Z := 1.
Definition STATE : Z := 1.

Definition state (h : Header) : Z := Z.land (hd_state h) STATE.
Definition generation (h : Header) : Z := Z.shiftr (hd_state h) 1.
Definition tag (gen st : Z) : Z := Z.lor (Z.shiftl gen 1) st.

Inductive AllocError := ARequest | AEmpty | AExhausted | AUnowned | ADoubleFree | ARegion.

Record AllocBlock := mkAllocBlock { ab_address : Z; ab_size : Z; ab_generation : Z }.

Record Stats := mkStats {
  st_capacity : Z; st_used : Z; st_free : Z; st_largest_free : Z; st_peak_used : Z; st_blocks : Z }.

Record Allocator := mkAllocator {
  a_region : Arena;
  a_used : Z;
  a_live : Z;
  a_peak : Z;
  a_generation : Z;
}.

Definition MAX_ALIGN : Z := 4096.

Definition set_region (a : Allocator) (r : Arena) : Allocator :=
  mkAllocator r (a_used a) (a_live a) (a_peak a) (a_generation a).

Definition Allocator_initialise (r : Arena) : outcome AllocError Allocator :=
  let len := r_len r in
  if len <? BLOCK_HEADER then Err ARegion
  else
    let (done_, r) := Arena_set_header r 0 (mkHeader len 0 (tag 0 FREE)) in
    if negb done_ then Err ARegion else Ok (mkAllocator r 0 0 0 1).

Definition Allocator_read (a : Allocator) (offset : Z) : outcome AllocError Header :=
  ok_or (Arena_header (a_region a) offset) ARegion.

Definition Allocator_write (a : Allocator) (offset : Z) (h : Header) : outcome AllocError unit * Allocator :=
  let (done_, r) := Arena_set_header (a_region a) offset h in
  if done_ then (Ok tt, set_region a r) else (Err ARegion, a).

(** [?] on a call that changes the allocator. *)
Notation "'let!' a ':=' m 'in' k" :=
  (match m with (Ok _, a) => k | (Err e, a) => (Err e, a) | (Panic, a) => (Panic, a) end)
  (at level 10, a name, m at level 100, k at level 200) : rust_scope.

Definition free_bytes (a : Allocator) : Z := wsub (r_len (a_region a)) (a_used a).

Definition Allocator_step (a : Allocator) (offset : Z) : option (Z * Header) :=
  let r := a_region a in
  if r_len r <? wadd offset BLOCK_HEADER then None
  else match Arena_header r offset with
  | None => None
  | Some h =>
    if (hd_size h <? BLOCK_HEADER) || (r_len r <? wadd offset (hd_size h)) then None
    else Some (wadd offset (hd_size h), h)
  end.

(** Every block has at least a header, so this many steps reach the end. *)
Definition walk_fuel (a : Allocator) : nat := S (Z.to_nat (r_len (a_region a) / BLOCK_HEADER)).

Fixpoint largest_free_loop (fuel : nat) (a : Allocator) (offset largest : Z) : option Z :=
  match fuel with
  | O => None
  | S fuel =>
    match Allocator_step a offset with
    | None => Some largest
    | Some (next, h) =>
      largest_free_loop fuel a next (if (state h =? FREE) && (largest <? hd_size h) then hd_size h else largest)
    end
  end.

Definition largest_free (a : Allocator) : option Z := largest_free_loop (walk_fuel a) a 0 0.

Definition Allocator_stats (a : Allocator) : option Stats :=
  largest ← largest_free a;
  Some (mkStats (r_len (a_region a)) (a_used a) (free_bytes a) largest (a_peak a) (a_live a)).

(** The inner [while] of [leading_gap]: each turn adds at least one byte. *)
Fixpoint gap_loop (fuel : nat) (gap align : Z) : option (option Z) :=
  match fuel with
  | O => None
  | S fuel =>
    if negb (gap =? 0) && (gap <? BLOCK_HEADER) then
      match checked_add gap align with
      | None => Some None
      | Some gap => gap_loop fuel gap align
      end
    else Some (Some gap)
  end.

Definition gap_fuel : nat := 25.

Definition leading_gap (block align : Z) : option (option Z) :=
  match checked_add block BLOCK_HEADER with
  | None => Some None
  | Some p =>
    match checked_next_multiple_of p align with
    | None => Some None
    | Some payload => gap_loop gap_fuel (payload - BLOCK_HEADER - block) align
    end
  end.

(** The search of [alloc]; the outer [None] is exhausted fuel. *)
Fixpoint find_fit (fuel : nat) (a : Allocator) (need align offset : Z) : option (option (Z * Header * Z)) :=
  match fuel with
  | O => None
  | S fuel =>
    match Allocator_step a offset with
    | None => Some None
    | Some (next, h) =>
      if state h =? FREE then
        gap ← leading_gap (wadd (r_base (a_region a)) offset) align;
        match gap with
        | Some gap =>
          if wadd (wadd gap BLOCK_HEADER) need <=? hd_size h then Some (Some (offset, h, gap))
          else find_fit fuel a need align next
        | None => find_fit fuel a need align next
        end
      else find_fit fuel a need align next
    end
  end.

Definition Allocator_relink (a : Allocator) (offset size : Z) : outcome AllocError unit * Allocator :=
  if r_len (a_region a) <? wadd offset BLOCK_HEADER then (Ok tt, a)
  else match Allocator_read a offset with
  | Ok h => Allocator_write a offset (mkHeader (hd_size h) size (hd_state h))
  | Err e => (Err e, a)
  | Panic => (Panic, a)
  end.

(** The bookkeeping of [alloc] once a free block was found. *)
Definition Allocator_place (a : Allocator) (size need offset : Z) (h : Header) (gap : Z) :
    outcome AllocError AllocBlock * Allocator :=
  let end_ := wadd offset (hd_size h) in
  let start := if 0 <? gap then wadd offset gap else offset in
  let block := if 0 <? gap then wsub (hd_size h) gap else hd_size h in
  let prev := if 0 <? gap then gap else hd_prev h in
  let! a := (if 0 <? gap then Allocator_write a offset (mkHeader gap (hd_prev h) (tag 0 FREE)) else (Ok tt, a)) in
  let want := wadd BLOCK_HEADER need in
  let split := wadd want BLOCK_HEADER <=? block in
  let last := if split then wsub block want else block in
  let! a := (if split then Allocator_write a (wadd start want) (mkHeader (wsub block want) want (tag 0 FREE))
             else (Ok tt, a)) in
  let block := if split then want else block in
  let gen := a_generation a in
  let! a := Allocator_write a start (mkHeader block prev (tag gen USED)) in
  let! a := Allocator_relink a end_ last in
  let used := wadd (a_used a) block in
  let next := Z.land (wadd gen 1) (Z.shiftr u64_max 1) in
  let a := mkAllocator (a_region a) used (wadd (a_live a) 1) (if a_peak a <? used then used else a_peak a)
             (if next =? 0 then 1 else next) in
  match Arena_pointer (a_region a) (wadd start BLOCK_HEADER) with
  | None => (Err ARegion, a)
  | Some ptr => (Ok (mkAllocBlock ptr size gen), a)
  end.

Definition Allocator_alloc (a : Allocator) (size align : Z) : option (outcome AllocError AllocBlock * Allocator) :=
  if (size =? 0) || negb (is_power_of_two align) || (MAX_ALIGN <? align) then Some (Err ARequest, a)
  else match checked_next_multiple_of size ALIGN with
  | None => Some (Err ARequest, a)
  | Some need =>
    found ← find_fit (walk_fuel a) a need align 0;
    match found with
    | None => Some (Err (if free_bytes a =? 0 then AEmpty else AExhausted), a)
    | Some (offset, h, gap) => Some (Allocator_place a size need offset h gap)
    end
  end.

Fixpoint start_of_loop (fuel : nat) (a : Allocator) (block : AllocBlock) (target offset : Z) :
    option (outcome AllocError Z) :=
  match fuel with
  | O => None
  | S fuel =>
    match Allocator_step a offset with
    | None => Some (Err AUnowned)
    | Some (next, h) =>
      if target <? next then
        if state h =? FREE then Some (Err ADoubleFree)
        else if (target =? wadd offset BLOCK_HEADER) && (ab_size block <=? wsub (hd_size h) BLOCK_HEADER)
                && (ab_generation block =? generation h)
        then Some (Ok offset) else Some (Err AUnowned)
      else start_of_loop fuel a block target next
    end
  end.

Definition Allocator_start_of (a : Allocator) (block : AllocBlock) : option (outcome AllocError Z) :=
  let base := r_base (a_region a) in
  let address := ab_address block in
  if (address <? base) || (r_len (a_region a) <=? address - base) then Some (Err AUnowned)
  else start_of_loop (walk_fuel a) a block (address - base) 0.

(** The first half of [coalesce]: a free next neighbour. *)
Definition merge_next (a : Allocator) (offset : Z) (header : Header) : outcome AllocError Header * Allocator :=
  let next := wadd offset (hd_size header) in
  if wadd next BLOCK_HEADER <=? r_len (a_region a) then
    match Allocator_read a next with
    | Ok following =>
      if state following =? FREE then
        let header := mkHeader (wadd (hd_size header) (hd_size following)) (hd_prev header) (hd_state header) in
        let! a := Allocator_write a offset header in (Ok header, a)
      else (Ok header, a)
    | Err e => (Err e, a)
    | Panic => (Panic, a)
    end
  else (Ok header, a).

(** The second half: a free previous neighbour; the start and header to relink. *)
Definition merge_previous (a : Allocator) (offset : Z) (header : Header) :
    outcome AllocError (Z * Header) * Allocator :=
  if negb (hd_prev header =? 0) then
    let previous := wsub offset (hd_prev header) in
    match Allocator_read a previous with
    | Ok merged =>
      if state merged =? FREE then
        let merged := mkHeader (wadd (hd_size merged) (hd_size header)) (hd_prev merged) (hd_state merged) in
        let! a := Allocator_write a previous merged in (Ok (previous, merged), a)
      else (Ok (offset, header), a)
    | Err e => (Err e, a)
    | Panic => (Panic, a)
    end
  else (Ok (offset, header), a).

Definition Allocator_coalesce (a : Allocator) (offset : Z) : outcome AllocError unit * Allocator :=
  match Allocator_read a offset with
  | Err e => (Err e, a)
  | Panic => (Panic, a)
  | Ok header =>
    match merge_next a offset header with
    | (Err e, a) => (Err e, a)
    | (Panic, a) => (Panic, a)
    | (Ok header, a) =>
      match merge_previous a offset header with
      | (Err e, a) => (Err e, a)
      | (Panic, a) => (Panic, a)
      | (Ok (start, header), a) => Allocator_relink a (wadd start (hd_size header)) (hd_size header)
      end
    end
  end.

Definition Allocator_free (a : Allocator) (block : AllocBlock) : option (outcome AllocError unit * Allocator) :=
  offset ← Allocator_start_of a block;
  Some match offset with
  | Err e => (Err e, a)
  | Panic => (Panic, a)
  | Ok offset =>
    match Allocator_read a offset with
    | Err e => (Err e, a)
    | Panic => (Panic, a)
    | Ok header =>
      let! a := Allocator_write a offset (mkHeader (hd_size header) (hd_prev header) (tag 0 FREE)) in
      let a := mkAllocator (a_region a) (wsub (a_used a) (hd_size header)) (wsub (a_live a) 1) (a_peak a) (a_generation a) in
      Allocator_coalesce a offset
    end
  end.

Definition Allocator_bytes (a : Allocator) (block : AllocBlock) : option (outcome AllocError (list Z)) :=
  offset ← Allocator_start_of a block;
  Some (let? offset := offset in ok_or (Arena_bytes (a_region a) (wadd offset BLOCK_HEADER) (ab_size block)) ARegion).

Fixpoint last_loop (fuel : nat) (a : Allocator) (offset : Z) (found : option (Z * Header)) :
    option (option (Z * Header)) :=
  match fuel with
  | O => None
  | S fuel =>
    match Allocator_step a offset with
    | None => Some found
    | Some (next, h) => last_loop fuel a next (Some (offset, h))
    end
  end.

Definition Allocator_last (a : Allocator) : option (option (Z * Header)) := last_loop (walk_fuel a) a 0 None.

Definition Allocator_extend (a : Allocator) (extra : Z) : option (outcome AllocError unit * Allocator) :=
  if (extra <? BLOCK_HEADER) || negb (extra mod ALIGN =? 0) then Some (Err ARegion, a)
  else
    let len := r_len (a_region a) in
    match checked_add len extra with
    | None => Some (Err ARegion, a)
    | Some grown =>
      last ← Allocator_last a;
      let plan :=
        match last with
        | Some (offset, h) =>
          if state h =? FREE then
            let? size := ok_or (checked_add (hd_size h) extra) ARegion in
            Ok (offset, mkHeader size (hd_prev h) (hd_state h))
          else Ok (len, mkHeader extra (hd_size h) (tag 0 FREE))
        | None => Ok (len, mkHeader extra 0 (tag 0 FREE))
        end in
      Some match plan with
      | Err e => (Err e, a)
      | Panic => (Panic, a)
      | Ok (offset, h) =>
        if negb (offset mod ALIGN =? 0) || match checked_add offset BLOCK_HEADER with None => true | Some e => grown <? e end
        then (Err ARegion, a)
        else Allocator_write (set_region a (Arena_grow (a_region a) extra)) offset h
      end
    end.

Definition truncation_target (a : Allocator) (granularity : Z) : option Z :=
  let len := r_len (a_region a) in
  if negb (is_power_of_two granularity) then Some len
  else
    last ← Allocator_last a;
    Some match last with
    | None => len
    | Some (offset, h) =>
      if negb (state h =? FREE) then len
      else
        match (if offset mod granularity =? 0 then Some offset
               else checked_next_multiple_of (wadd offset BLOCK_HEADER) granularity) with
        | None => len
        | Some target => if len <=? target then len else target
        end
    end.

Definition Allocator_truncate (a : Allocator) (len : Z) : option (outcome AllocError unit * Allocator) :=
  if negb (len mod ALIGN =? 0) then Some (Err ARegion, a)
  else
    let current := r_len (a_region a) in
    if len =? current then Some (Ok tt, a)
    else
      last ← Allocator_last a;
      Some match last with
      | None => (Err ARegion, a)
      | Some (offset, h) =>
        if (current <? len) || negb (state h =? FREE) || (len <? offset) then (Err ARegion, a)
        else
          let remainder := len - offset in
          if negb (remainder =? 0) && (remainder <? BLOCK_HEADER) then (Err ARegion, a)
          else
            let! a := (if negb (remainder =? 0) then Allocator_write a offset (mkHeader remainder (hd_prev h) (hd_state h))
                       else (Ok tt, a)) in
            let (done_, r) := Arena_shrink (a_region a) len in
            if negb done_ then (Err ARegion, a) else (Ok tt, set_region a r)
      end.
