(* ===== verification/AllocatorFacts.v ===== *)
(** * The heap allocator keeps a tiling of its region

    The headers inside the region describe a list of blocks that tile it without
    gaps, with no two free neighbours.  [alloc] splits the first free block that
    can hold the request, [free] merges the block back; live blocks keep their
    place, their size and their payload words. *)
From Stdlib Require Import ZArith Lia Bool.
From stdpp Require Import base list option numbers.
From S2P Require Import Prelude Bitmap Allocator.

(** ** The abstract layout *)
Record blk := mkBlk { b_size : Z; b_use : option Z }.

(** The state word of a block: free, or used with its generation. *)
Definition state_word (b : blk) : Z := match b_use b with None => 0 | Some g => 2 * g + 1 end.

Record blk_ok (b : blk) : Prop := {
  bl_size : 24 <= b_size b;
  bl_align : b_size b mod 8 = 0;
  bl_gen : forall g, b_use b = Some g -> 1 <= g < 2 ^ 63;
}.

Definition total (bl : list blk) : Z := foldr (fun b n => b_size b + n) 0 bl.
Definition used_total (bl : list blk) : Z := foldr (fun b n => (match b_use b with Some _ => b_size b | None => 0 end) + n) 0 bl.
Definition live_count (bl : list blk) : Z := foldr (fun b n => (match b_use b with Some _ => 1 | None => 0 end) + n) 0 bl.

(** Size of the last block, or [prev]. *)
Definition prev_size (prev : Z) (bl : list blk) : Z := match list.last bl with Some b => b_size b | None => prev end.

(** The headers of memory [m] describe the blocks [bl] from [off] to [fin]. *)
Fixpoint tiled (m : Z -> Z) (off prev : Z) (bl : list blk) (fin : Z) : Prop :=
  match bl with
  | [] => off = fin
  | b :: bl => m off = b_size b /\ m (off + 8) = prev /\ m (off + 16) = state_word b /\
               tiled m (off + b_size b) (b_size b) bl fin
  end.

Definition blk_free (b : blk) : Prop := b_use b = None.

Fixpoint no_free_pair (bl : list blk) : Prop :=
  match bl with
  | b :: ((c :: _) as bl') => ~ (blk_free b /\ blk_free c) /\ no_free_pair bl'
  | _ => True
  end.

Record alloc_wf (a : Allocator) (bl : list blk) : Prop := {
  aw_base : 0 <= r_base (a_region a) /\ r_base (a_region a) mod 8 = 0;
  aw_space : r_base (a_region a) + r_len (a_region a) <= 2 ^ 62;
  aw_len : r_len (a_region a) = total bl;
  aw_blocks : Forall blk_ok bl;
  aw_tiled : tiled (r_mem (a_region a)) 0 0 bl (total bl);
  aw_merged : no_free_pair bl;
  aw_used : a_used a = used_total bl;
  aw_live : a_live a = live_count bl;
  aw_gen : 1 <= a_generation a < 2 ^ 63;
  aw_issued : forall b g, b ∈ bl -> b_use b = Some g -> g < a_generation a;
}.

(** ** Lists of blocks *)
Lemma total_app l k : total (l ++ k) = total l + total k.
Proof. induction l as [|b l IH]; cbn [app foldr total]; [done|]. unfold total in *. simpl. rewrite IH. lia. Qed.
Lemma used_total_app l k : used_total (l ++ k) = used_total l + used_total k.
Proof. induction l as [|b l IH]; [done|]. unfold used_total in *. simpl. rewrite IH. lia. Qed.
Lemma live_count_app l k : live_count (l ++ k) = live_count l + live_count k.
Proof. induction l as [|b l IH]; [done|]. unfold live_count in *. simpl. rewrite IH. lia. Qed.
Lemma total_cons b l : total (b :: l) = b_size b + total l.
Proof. done. Qed.

Lemma total_nonneg l : Forall blk_ok l -> 0 <= total l /\ total l mod 8 = 0.
Proof.
  induction 1 as [|b l [H1 H2 _] _ [IH1 IH2]]; [done|]. rewrite total_cons. split; [lia|].
  by rewrite Z.add_mod, H2, IH2 by lia.
Qed.

Lemma used_le_total l : Forall blk_ok l -> 0 <= used_total l <= total l.
Proof.
  induction 1 as [|b l [H1 _ _] _ IH]; [done|]. unfold used_total in *. rewrite total_cons. simpl.
  destruct (b_use b); lia.
Qed.

Lemma used_all l : Forall blk_ok l -> used_total l = total l <-> Forall (fun b => ~ blk_free b) l.
Proof.
  induction 1 as [|b l [H1 H2 H3] Hl IH]; [done|]. pose proof (used_le_total l Hl) as Hle.
  rewrite list.Forall_cons. unfold used_total in *. rewrite total_cons. simpl. unfold blk_free.
  destruct (b_use b) as [g|].
  - rewrite <- IH. split; [intros H; split; [done|lia]|intros [_ H]; lia].
  - split; [lia|]. by intros [[] _].
Qed.

Lemma length_blocks l : Forall blk_ok l -> 24 * Z.of_nat (length l) <= total l.
Proof.
  induction 1 as [|b l [H1 _ _] _ IH]; [done|]. rewrite total_cons. cbn [length]. lia.
Qed.

Lemma prev_size_app prev l k : prev_size prev (l ++ k) = prev_size (prev_size prev l) k.
Proof.
  unfold prev_size. rewrite last_app. by destruct (list.last k).
Qed.

Lemma tiled_app m off prev l k fin :
  tiled m off prev (l ++ k) fin <->
  tiled m off prev l (off + total l) /\ tiled m (off + total l) (prev_size prev l) k fin.
Proof.
  revert off prev. induction l as [|b l IH]; intros off prev; cbn [app tiled].
  { change (total []) with 0. rewrite Z.add_0_r. unfold prev_size. simpl. tauto. }
  rewrite IH, total_cons, Z.add_assoc.
  replace (prev_size prev (b :: l)) with (prev_size (b_size b) l); [tauto|].
  change (b :: l) with ([b] ++ l). by rewrite prev_size_app.
Qed.

Lemma tiled_frame m m' off prev l fin :
  Forall blk_ok l -> (forall o, off <= o < off + total l -> m' o = m o) ->
  tiled m off prev l fin -> tiled m' off prev l fin.
Proof.
  intros Hok. revert off prev. induction Hok as [|b l [H1 _ _] Hl IH]; intros off prev Hf H; cbn [tiled] in *; [done|].
  rewrite total_cons in Hf. pose proof (total_nonneg l Hl).
  destruct H as (Ha & Hb & Hc & H). rewrite !Hf by lia. repeat split; try done.
  apply IH; [|done]. intros o Ho. apply Hf. lia.
Qed.

(** ** Writing a header *)
Definition put (m : Z -> Z) (off : Z) (h : Header) : Z -> Z :=
  update (update (update m off (hd_size h)) (off + 8) (hd_prev h)) (off + 16) (hd_state h).

Lemma put_other m off h o : o < off \/ off + 24 <= o -> put m off h o = m o.
Proof.
  intros Ho. unfold put, update. destruct (Z.eqb_spec o (off + 16)); [lia|].
  destruct (Z.eqb_spec o (off + 8)); [lia|]. by destruct (Z.eqb_spec o off); [lia|].
Qed.
Lemma put_size m off h : put m off h off = hd_size h.
Proof.
  unfold put, update. destruct (Z.eqb_spec off (off + 16)); [lia|].
  destruct (Z.eqb_spec off (off + 8)); [lia|]. by rewrite Z.eqb_refl.
Qed.
Lemma put_prev m off h : put m off h (off + 8) = hd_prev h.
Proof. unfold put, update. destruct (Z.eqb_spec (off + 8) (off + 16)); [lia|]. by rewrite Z.eqb_refl. Qed.
Lemma put_state m off h : put m off h (off + 16) = hd_state h.
Proof. unfold put, update. by rewrite Z.eqb_refl. Qed.

Lemma tiled_put_cons m off b prev l fin :
  Forall blk_ok l -> 24 <= b_size b -> tiled m (off + b_size b) (b_size b) l fin ->
  tiled (put m off (mkHeader (b_size b) prev (state_word b))) off prev (b :: l) fin.
Proof.
  intros Hok Hs H. cbn [tiled]. rewrite put_size, put_prev, put_state. repeat split.
  apply (tiled_frame m); [done| |done]. intros o Ho. apply put_other. lia.
Qed.

(** The allocator over a given memory. *)
Definition with_mem (a : Allocator) (m : Z -> Z) : Allocator :=
  set_region a (mkArena (r_base (a_region a)) (r_len (a_region a)) m).

Lemma write_ok a off h :
  0 <= off -> off mod 8 = 0 -> off + 24 <= r_len (a_region a) -> r_len (a_region a) <= 2 ^ 62 ->
  Allocator_write a off h = (Ok tt, with_mem a (put (r_mem (a_region a)) off h)).
Proof.
  intros H0 H8 Hl Hm. unfold Allocator_write, Arena_set_header, Arena_holds, ALIGN, BLOCK_HEADER.
  rewrite H8. destruct (checked_add off 24) as [e|] eqn:E.
  - apply checked_add_Some in E as [-> _]. by destruct (Z.leb_spec (off + 24) (r_len (a_region a))); [|lia].
  - apply checked_add_None in E. unfold u64_max in E. lia.
Qed.

Lemma header_ok a off :
  0 <= off -> off mod 8 = 0 -> off + 24 <= r_len (a_region a) -> r_len (a_region a) <= 2 ^ 62 ->
  let m := r_mem (a_region a) in
  Arena_header (a_region a) off = Some (mkHeader (m off) (m (off + 8)) (m (off + 16))).
Proof.
  intros H0 H8 Hl Hm. unfold Arena_header, Arena_holds, ALIGN, BLOCK_HEADER. rewrite H8.
  destruct (checked_add off 24) as [e|] eqn:E.
  - apply checked_add_Some in E as [-> _]. by destruct (Z.leb_spec (off + 24) (r_len (a_region a))); [|lia].
  - apply checked_add_None in E. unfold u64_max in E. lia.
Qed.

Lemma read_ok a off :
  0 <= off -> off mod 8 = 0 -> off + 24 <= r_len (a_region a) -> r_len (a_region a) <= 2 ^ 62 ->
  let m := r_mem (a_region a) in
  Allocator_read a off = Ok (mkHeader (m off) (m (off + 8)) (m (off + 16))).
Proof. intros. unfold Allocator_read. by rewrite header_ok. Qed.

Lemma wadd_small x y : 0 <= x + y < 2 ^ 64 -> wadd x y = x + y.
Proof. intros H. unfold wadd. by apply Z.mod_small. Qed.
Lemma wsub_small x y : 0 <= y <= x -> x < 2 ^ 64 -> wsub x y = x - y.
Proof. intros. unfold wsub. apply Z.mod_small. lia. Qed.

Lemma live_le_total l : Forall blk_ok l -> 0 <= live_count l <= total l.
Proof.
  induction 1 as [|b l [H1 _ _] _ IH]; [done|]. unfold live_count in *. rewrite total_cons. simpl.
  destruct (b_use b); lia.
Qed.

(** Machine additions and subtractions that stay in range. *)
Ltac in_range :=
  repeat match goal with
  | |- context [wadd ?x ?y] => rewrite (wadd_small x y) by lia
  | |- context [wsub ?x ?y] => rewrite (wsub_small x y) by lia
  end.

(** Recording the size of the predecessor of the block at [off]. *)
Lemma relink_ok a off prev prev' l fin :
  0 <= off -> off mod 8 = 0 -> Forall blk_ok l -> fin = r_len (a_region a) -> fin <= 2 ^ 62 ->
  off + total l = fin -> tiled (r_mem (a_region a)) off prev l fin ->
  exists m', Allocator_relink a off prev' = (Ok tt, with_mem a m') /\ tiled m' off prev' l fin /\
    (forall o, o < off \/ off + 24 <= o -> m' o = r_mem (a_region a) o).
Proof.
  intros H0 H8 Hok -> Hmax Hfin H. unfold Allocator_relink, BLOCK_HEADER.
  destruct l as [|b l].
  - change (total []) with 0 in Hfin. in_range. destruct (Z.ltb_spec (r_len (a_region a)) (off + 24)) as [_|]; [|lia].
    exists (r_mem (a_region a)). split; [by destruct a as [[] ? ? ? ?]|]. cbn [tiled]. split; [lia|done].
  - apply Forall_cons_1 in Hok as [[Hs Ha Hg] Hok]. rewrite total_cons in Hfin.
    pose proof (total_nonneg l Hok). cbn [tiled] in H. destruct H as (E1 & E2 & E3 & H).
    in_range. destruct (Z.ltb_spec (r_len (a_region a)) (off + 24)) as [|_]; [lia|].
    rewrite read_ok by (done || lia). cbn [hd_size hd_prev hd_state]. rewrite write_ok by (done || lia).
    eexists. split; [reflexivity|]. split; [|intros o Ho; by apply put_other].
    rewrite E1, E3. by apply (tiled_put_cons _ _ b).
Qed.

(** ** Walking the tiling *)
Definition header_of (prev : Z) (b : blk) : Header := mkHeader (b_size b) prev (state_word b).

Lemma tag_used g : tag g USED = 2 * g + 1.
Proof.
  unfold tag, USED. rewrite (lor_shiftl_add g 1 1); [|lia|done]. rewrite Z.shiftl_mul_pow2 by lia. lia.
Qed.

Lemma state_header prev b : blk_ok b -> state (header_of prev b) = match b_use b with None => FREE | Some _ => USED end.
Proof.
  intros [_ _ Hg]. unfold state, header_of, state_word, STATE. cbn [hd_state].
  change 1 with (Z.ones 1) at 2. rewrite Z.land_ones by lia. change (2 ^ 1) with 2.
  destruct (b_use b) as [g|]; [|done]. rewrite Z.add_comm, Z.mul_comm, Z.mod_add by lia. done.
Qed.

Lemma generation_header prev b g : b_use b = Some g -> generation (header_of prev b) = g.
Proof.
  intros Hu. unfold generation, header_of, state_word. cbn [hd_state]. rewrite Hu, Z.shiftr_div_pow2 by lia.
  change (2 ^ 1) with 2. symmetry. apply (Z.div_unique_pos _ 2 g 1); lia.
Qed.


Section Walk.
Context (a : Allocator) (bl : list blk) (Hwf : alloc_wf a bl).

Lemma wf_split pre post :
  bl = pre ++ post ->
  Forall blk_ok pre /\ Forall blk_ok post /\ 0 <= total pre /\ total pre mod 8 = 0 /\
  total pre + total post = r_len (a_region a) /\ r_len (a_region a) <= 2 ^ 62 /\
  tiled (r_mem (a_region a)) 0 0 pre (total pre) /\
  tiled (r_mem (a_region a)) (total pre) (prev_size 0 pre) post (r_len (a_region a)).
Proof.
  intros ->. destruct Hwf as [[Hb _] Hs Hl Hok Ht _ _ _ _ _]. rewrite Forall_app in Hok. destruct Hok as [Hp Hq].
  rewrite total_app in Hl. pose proof (total_nonneg pre Hp) as [H1 H2].
  rewrite <- Hl in Ht at 1 || idtac. apply tiled_app in Ht as [Ht1 Ht2]. rewrite Z.add_0_l in *.
  rewrite total_app, <- Hl in Ht2. repeat split; try done; lia.
Qed.

Lemma step_at pre b post :
  bl = pre ++ b :: post ->
  Allocator_step a (total pre) = Some (total pre + b_size b, header_of (prev_size 0 pre) b).
Proof.
  intros Heq. destruct (wf_split pre (b :: post) Heq) as (Hp & Hq & H0 & H8 & Hsum & Hmax & _ & Ht).
  apply Forall_cons_1 in Hq as [[Hs Ha Hg] Hq]. rewrite total_cons in Hsum. pose proof (total_nonneg post Hq) as [Hn _].
  destruct Ht as (E1 & E2 & E3 & _). unfold Allocator_step, BLOCK_HEADER.
  in_range. destruct (Z.ltb_spec (r_len (a_region a)) (total pre + 24)) as [|_]; [lia|].
  rewrite header_ok by (done || lia). cbv zeta. rewrite E1, E2, E3. cbn [hd_size].
  in_range. destruct (Z.ltb_spec (b_size b) 24) as [|_]; [lia|].
  by destruct (Z.ltb_spec (r_len (a_region a)) (total pre + b_size b)) as [|_]; [lia|].
Qed.

Lemma step_end : Allocator_step a (total bl) = None.
Proof.
  unfold Allocator_step, BLOCK_HEADER. rewrite (aw_len _ _ Hwf).
  pose proof (total_nonneg bl (aw_blocks _ _ Hwf)). destruct (aw_base _ _ Hwf).
  pose proof (aw_space _ _ Hwf). rewrite (aw_len _ _ Hwf) in *. in_range.
  by destruct (Z.ltb_spec (total bl) (total bl + 24)); [|lia].
Qed.

Lemma walk_fuel_enough : (length bl < walk_fuel a)%nat.
Proof.
  unfold walk_fuel, BLOCK_HEADER. rewrite (aw_len _ _ Hwf).
  pose proof (length_blocks bl (aw_blocks _ _ Hwf)).
  assert (Z.of_nat (length bl) <= total bl / 24) by (apply Z.div_le_lower_bound; lia). lia.
Qed.
End Walk.

(** ** The leading gap *)
Lemma gap_loop_spec fuel g align :
  0 < align <= 4096 -> 0 <= g <= 2 ^ 62 -> (0 < fuel)%nat -> (g = 0 \/ 24 - g < Z.of_nat fuel) ->
  exists k, 0 <= k /\ gap_loop fuel g align = Some (Some (g + k * align)) /\
    (g + k * align = 0 \/ 24 <= g + k * align) /\ g + k * align <= Z.max g (24 + align) /\
    forall j, 0 <= j < k -> 0 < g + j * align < 24.
Proof.
  intros Hal. revert g. induction fuel as [|fuel IH]; intros g Hg H0 Hf; [lia|]. cbn [gap_loop]. unfold BLOCK_HEADER.
  destruct (Z.eqb_spec g 0) as [->|Hz]; cbn [negb andb].
  { exists 0. split; [lia|]. split; [done|]. split; [lia|]. split; [lia|]. intros j Hj. lia. }
  destruct (Z.ltb_spec g 24) as [Hlt|Hge].
  2:{ exists 0. split; [lia|]. rewrite Z.add_0_r. split; [done|]. split; [lia|]. split; [lia|]. intros j Hj. lia. }
  destruct (checked_add g align) as [g'|] eqn:E.
  2:{ apply checked_add_None in E. unfold u64_max in E. lia. }
  apply checked_add_Some in E as [-> _].
  destruct (IH (g + align)) as (k & Hk & Hr & Hc & Hb & Hmin); [lia|lia|lia|].
  exists (k + 1). replace (g + (k + 1) * align) with (g + align + k * align) by lia.
  split; [lia|]. split; [done|]. split; [lia|]. split; [lia|].
  intros j Hj. destruct (decide (j = 0)) as [->|]; [lia|].
  specialize (Hmin (j - 1) ltac:(lia)). lia.
Qed.

Lemma power_of_two_align align :
  0 <= align -> align <= 4096 -> is_power_of_two align = true ->
  0 < align /\ (align = 1 \/ align = 2 \/ align = 4 \/ align mod 8 = 0).
Proof.
  intros H0 _ (k & Hk & ->)%is_power_of_two_spec; [|done]. split; [by apply Z.pow_pos_nonneg|].
  destruct (Z.le_gt_cases 3 k) as [H3|H3].
  - do 3 right. replace k with (k - 3 + 3) by lia. rewrite Z.pow_add_r by lia. apply Z.mod_mul. lia.
  - assert (k = 0 \/ k = 1 \/ k = 2) as [Hz|[Hz|Hz]] by lia; rewrite Hz; auto.
Qed.

(** A gap is usable when it is empty or can carry a header, and the payload after it is aligned. *)
Definition usable_gap (x align g : Z) : Prop := 0 <= g /\ (g = 0 \/ 24 <= g) /\ (x + g + 24) mod align = 0.

Lemma leading_gap_spec x align :
  0 <= x <= 2 ^ 62 -> x mod 8 = 0 -> 0 <= align <= 4096 -> is_power_of_two align = true ->
  exists g, leading_gap x align = Some (Some g) /\ usable_gap x align g /\ g mod 8 = 0 /\ g <= 4120 /\
    forall g', usable_gap x align g' -> g <= g'.
Proof.
  intros Hx H8 Hal Hp. destruct (power_of_two_align align) as [Hpos Hmul]; [lia|lia|done|].
  unfold leading_gap, BLOCK_HEADER. destruct (checked_add x 24) as [p|] eqn:E.
  2:{ apply checked_add_None in E. unfold u64_max in E. lia. }
  apply checked_add_Some in E as [-> _].
  pose proof (Z.mod_pos_bound (x + 24) align Hpos) as Hm.
  pose proof (Z.div_mod (x + 24) align ltac:(lia)) as Hdm.
  set (r := (x + 24) mod align) in *. set (g0 := if r =? 0 then 0 else align - r).
  assert (Hg0 : 0 <= g0 < align) by (unfold g0; destruct (Z.eqb_spec r 0); lia).
  assert (Hg0mod : (x + 24 + g0) mod align = 0).
  { unfold g0. destruct (Z.eqb_spec r 0) as [Hr|Hr]; [rewrite Z.add_0_r; exact Hr|].
    replace (x + 24 + (align - r)) with (((x + 24) / align + 1) * align) by lia. apply Z.mod_mul. lia. }
  assert (Hnext : checked_next_multiple_of (x + 24) align = Some (x + 24 + g0)).
  { unfold checked_next_multiple_of. destruct (Z.eqb_spec align 0); [lia|]. fold r. unfold g0.
    destruct (Z.eqb_spec r 0); [f_equal; lia|]. apply checked_add_Some. unfold u64_max. lia. }
  rewrite Hnext. replace (x + 24 + g0 - 24 - x) with g0 by lia.
  destruct (gap_loop_spec gap_fuel g0 align) as (k & Hk & -> & Hc & Hb & Hmin); [lia|lia|unfold gap_fuel; lia|unfold gap_fuel; lia|].
  exists (g0 + k * align). split; [done|]. split; [split; [nia|split; [done|]]|].
  - replace (x + (g0 + k * align) + 24) with (x + 24 + g0 + k * align) by lia. by rewrite Z.mod_add by lia.
  - split; [|split; [lia|]].
    + assert (H24 : (x + 24) mod 8 = 0) by (rewrite Z.add_mod, H8 by lia; done).
      destruct Hmul as [->|[->|[->|H8a]]].
      1-3: pose proof (Z.div_mod (x + 24) 8 ltac:(lia)); assert (Hr0 : r = 0) by (clearbody r; lia);
           assert (g0 = 0) as -> by (unfold g0; by rewrite Hr0);
           destruct (decide (k = 0)) as [->|]; [done|]; specialize (Hmin 0 ltac:(lia)); lia.
      pose proof (Z.div_mod (x + 24 + g0) align ltac:(lia)). pose proof (Z.div_mod align 8 ltac:(lia)).
      pose proof (Z.div_mod (x + 24) 8 ltac:(lia)).
      assert (exists q, g0 + k * align = 8 * q) as [q ->]; [|by rewrite Z.mul_comm, Z.mod_mul].
      exists ((align / 8) * ((x + 24 + g0) / align) - (x + 24) / 8 + k * (align / 8)). nia.
    + intros g' (Hg1 & Hg2 & Hg3). replace (x + g' + 24) with (x + 24 + g') in Hg3 by lia.
      pose proof (Z.div_mod (x + 24 + g') align ltac:(lia)). pose proof (Z.div_mod (x + 24 + g0) align ltac:(lia)).
      set (j := (x + 24 + g') / align - (x + 24 + g0) / align).
      assert (Hj : g' = g0 + j * align) by (unfold j; nia).
      assert (Hj0 : 0 <= j) by nia.
      destruct (Z.le_gt_cases k j); [nia|]. specialize (Hmin j ltac:(lia)). lia.
Qed.

(** ** Neighbours *)
Definition joins (l k : list blk) : Prop :=
  forall b c, list.last l = Some b -> head k = Some c -> ~ (blk_free b /\ blk_free c).

Lemma no_free_pair_app l k : no_free_pair (l ++ k) <-> no_free_pair l /\ no_free_pair k /\ joins l k.
Proof.
  induction l as [|b l IH]; cbn [app].
  { split; [|tauto]. intros H. split; [done|]. split; [done|]. intros b c ?. done. }
  destruct l as [|c l].
  - cbn [app]. destruct k as [|c k]; simpl.
    + split; [|tauto]. intros _. split; [done|]. split; [done|]. intros x y ? ?. done.
    + split.
      * intros [H1 H2]. split; [done|]. split; [done|]. intros x y [= <-] [= <-]. done.
      * intros (_ & H2 & H3). split; [|done]. by apply H3.
  - change (no_free_pair (b :: (c :: l) ++ k)) with (~ (blk_free b /\ blk_free c) /\ no_free_pair ((c :: l) ++ k)).
    rewrite IH. change (no_free_pair (b :: c :: l)) with (~ (blk_free b /\ blk_free c) /\ no_free_pair (c :: l)).
    assert (Hj : joins (b :: c :: l) k <-> joins (c :: l) k) by done. rewrite Hj. tauto.
Qed.

Definition free_if (g : Z) : list blk := if g =? 0 then [] else [mkBlk g None].

Lemma free_if_ok g : (g = 0 \/ 24 <= g) -> g mod 8 = 0 ->
  Forall blk_ok (free_if g) /\ total (free_if g) = g /\ used_total (free_if g) = 0 /\ live_count (free_if g) = 0 /\
  no_free_pair (free_if g).
Proof.
  intros Hg H8. unfold free_if. destruct (Z.eqb_spec g 0) as [->|Hne]; [by repeat split; constructor|].
  split; [|unfold total, used_total, live_count; simpl; split; [lia|done]].
  repeat constructor; simpl; [lia|done| |]; intros; done.
Qed.

Lemma free_if_free g b : b ∈ free_if g -> blk_free b.
Proof. unfold free_if. destruct (g =? 0); [by intros ?%elem_of_nil|]. intros ->%list_elem_of_singleton. done. Qed.

Section Placement.
Context (a : Allocator) (bl : list blk) (Hwf : alloc_wf a bl).
Context (need align : Z) (Hneed : 0 < need <= 2 ^ 64 - 2 ^ 13 /\ need mod 8 = 0).
Context (Halign : 0 <= align <= 4096 /\ is_power_of_two align = true).

(** [g] bytes of padding place the request in the free block [b] at [off]. *)
Definition placement (off : Z) (b : blk) (g : Z) : Prop :=
  usable_gap (r_base (a_region a) + off) align g /\ g + 24 + need <= b_size b.

Lemma find_fit_spec post : forall pre fuel, bl = pre ++ post -> (length post < fuel)%nat ->
  match find_fit fuel a need align (total pre) with
  | None => False
  | Some None => forall p b q g, post = p ++ b :: q -> blk_free b -> ~ placement (total (pre ++ p)) b g
  | Some (Some (off, h, gap)) => exists p b q, post = p ++ b :: q /\ off = total (pre ++ p) /\
      h = header_of (prev_size 0 (pre ++ p)) b /\ blk_free b /\ placement off b gap /\ gap mod 8 = 0 /\
      forall p' b' q' g, p = p' ++ b' :: q' -> blk_free b' -> ~ placement (total (pre ++ p')) b' g
  end.
Proof.
  induction post as [|b post IH]; intros pre fuel Heq Hfuel; (destruct fuel as [|fuel]; [simpl in Hfuel; lia|]);
    cbn [find_fit].
  { rewrite app_nil_r in Heq. rewrite <- Heq, (step_end a bl Hwf). intros p b q g Hp. by destruct p. }
  rewrite (step_at a bl Hwf pre b post Heq).
  destruct (wf_split a bl Hwf pre (b :: post) Heq) as (Hp & Hq & H0 & H8 & Hsum & Hmax & _ & _).
  apply Forall_cons_1 in Hq as [Hb Hq]. pose proof (total_nonneg post Hq) as [Hn _]. pose proof (bl_size _ Hb) as Hs.
  rewrite total_cons in Hsum.
  assert (Hrec : forall (Hskip : forall g, blk_free b -> ~ placement (total pre) b g),
    match find_fit fuel a need align (total pre + b_size b) with
    | None => False
    | Some None => forall p b0 q g, b :: post = p ++ b0 :: q -> blk_free b0 -> ~ placement (total (pre ++ p)) b0 g
    | Some (Some (off, h, gap)) => exists p b0 q, b :: post = p ++ b0 :: q /\ off = total (pre ++ p) /\
        h = header_of (prev_size 0 (pre ++ p)) b0 /\ blk_free b0 /\ placement off b0 gap /\ gap mod 8 = 0 /\
        forall p' b' q' g, p = p' ++ b' :: q' -> blk_free b' -> ~ placement (total (pre ++ p')) b' g
    end).
  { intros Hskip. specialize (IH (pre ++ [b]) fuel).
    rewrite <- app_assoc in IH. specialize (IH Heq ltac:(simpl in Hfuel; lia)).
    rewrite total_app, total_cons in IH. change (total []) with 0 in IH. rewrite Z.add_0_r in IH.
    destruct (find_fit fuel a need align (total pre + b_size b)) as [[[[off h] gap]|]|]; [| |done].
    - destruct IH as (p & b0 & q & -> & Hoff & Hh & Hf & Hpl & Hg8 & Hmin).
      rewrite <- app_assoc in Hoff, Hh. exists (b :: p), b0, q. do 6 (split; [done|]).
      intros [|b1 p'] b' q' g Hpp Hbf; [simplify_eq/=; rewrite app_nil_r; by apply Hskip|].
      simplify_eq/=. specialize (Hmin p' b' q' g eq_refl Hbf). by rewrite <- app_assoc in Hmin.
    - intros [|b1 p] b0 q g Hpp Hbf; [simplify_eq/=; rewrite app_nil_r; by apply Hskip|].
      simplify_eq/=. specialize (IH p b0 q g eq_refl Hbf). by rewrite <- app_assoc in IH. }
  rewrite (state_header _ b Hb). destruct (b_use b) as [gen|] eqn:Eu.
  { cbn [Z.eqb]. apply Hrec. intros g Hf. unfold blk_free in Hf. congruence. }
  change (FREE =? FREE) with true. cbv iota.
  destruct (aw_base _ _ Hwf) as [Hbase Hbase8]. pose proof (aw_space _ _ Hwf) as Hspace.
  rewrite wadd_small by lia.
  destruct (leading_gap_spec (r_base (a_region a) + total pre) align) as (g & -> & Hu & Hg8 & Hgmax & Hmin);
    [lia|by rewrite Z.add_mod, Hbase8, H8 by lia|lia|by destruct Halign|].
  simpl mbind. unfold BLOCK_HEADER. destruct Hu as (Hg0 & Hg1 & Hg2).
  rewrite (wadd_small g 24) by lia. rewrite wadd_small by lia. cbn [hd_size header_of].
  destruct (Z.leb_spec (g + 24 + need) (b_size b)) as [Hfit|Hno].
  - exists [], b, post. rewrite app_nil_r. split; [done|]. split; [done|]. split; [done|]. split; [done|].
    split; [by split|]. split; [done|]. intros p' b' q' g' Hpp. by destruct p'.
  - apply Hrec. intros g' _ [Hu' Hf']. apply Hmin in Hu'. lia.
Qed.
End Placement.

(** ** Replacing one free block *)
(** The blocks a free block is split into. *)
Definition carved (gap block rest gen : Z) : list blk :=
  free_if gap ++ mkBlk block (Some gen) :: free_if rest.

Lemma carved_ok gap block rest gen :
  (gap = 0 \/ 24 <= gap) -> gap mod 8 = 0 -> (rest = 0 \/ 24 <= rest) -> rest mod 8 = 0 ->
  24 <= block -> block mod 8 = 0 -> 1 <= gen < 2 ^ 63 ->
  Forall blk_ok (carved gap block rest gen) /\ total (carved gap block rest gen) = gap + block + rest /\
  used_total (carved gap block rest gen) = block /\ live_count (carved gap block rest gen) = 1.
Proof.
  intros Hg Hg8 Hr Hr8 Hb Hb8 Hgen. unfold carved.
  destruct (free_if_ok gap Hg Hg8) as (G1 & G2 & G3 & G4 & _). destruct (free_if_ok rest Hr Hr8) as (R1 & R2 & R3 & R4 & _).
  rewrite total_app, used_total_app, live_count_app, total_cons, G2, G3, G4, R2.
  change (used_total (mkBlk block (Some gen) :: free_if rest)) with (block + used_total (free_if rest)).
  change (live_count (mkBlk block (Some gen) :: free_if rest)) with (1 + live_count (free_if rest)).
  rewrite R3, R4. cbn [b_size]. split; [|lia]. apply Forall_app. split; [done|]. constructor; [|done].
  split; simpl; [done|done|]. by intros g [= <-].
Qed.

Lemma carved_merged pre b post gap block rest gen :
  blk_free b -> no_free_pair (pre ++ b :: post) -> no_free_pair (pre ++ carved gap block rest gen ++ post).
Proof.
  intros Hb H. apply no_free_pair_app in H as (Hpre & Hbp & Hj).
  change (b :: post) with ([b] ++ post) in Hbp. apply no_free_pair_app in Hbp as (_ & Hpost & Hj2).
  assert (Hnl : forall c, list.last pre = Some c -> ~ blk_free c) by (intros c Hc Hf; by apply (Hj c b)).
  assert (Hnh : forall c, head post = Some c -> ~ blk_free c) by (intros c Hc Hf; by apply (Hj2 b c)).
  unfold carved. rewrite <- app_assoc. cbn [app].
  assert (Hone : forall g, no_free_pair (free_if g)) by (intros g; unfold free_if; by destruct (g =? 0)).
  apply no_free_pair_app. split; [done|]. split; [apply no_free_pair_app; split; [done|split]|].
  - change (mkBlk block (Some gen) :: free_if rest ++ post) with ([mkBlk block (Some gen)] ++ free_if rest ++ post).
    apply no_free_pair_app. split; [done|]. split.
    + apply no_free_pair_app. split; [done|]. split; [done|]. intros x y _ Hy [_ Hf]. by apply (Hnh y).
    + intros x y [= <-] _ [Hf _]. done.
  - intros x y _ [= <-] [_ Hf]. done.
  - intros x y Hx _ [Hf _]. by apply (Hnl x).
Qed.

Lemma elem_of_carved gap block rest gen b g :
  b ∈ carved gap block rest gen -> b_use b = Some g -> g = gen.
Proof.
  unfold carved. rewrite elem_of_app, elem_of_cons. intros [H|[->|H]]; [|by intros [= <-]|];
    apply free_if_free in H; unfold blk_free in H; congruence.
Qed.

Lemma head_carved pre prev gap block rest gen :
  prev_size prev (pre ++ carved gap block rest gen) = if rest =? 0 then block else rest.
Proof.
  unfold carved, prev_size. rewrite last_app. rewrite last_app. unfold free_if. by destruct (rest =? 0).
Qed.

(** Memory after the writes of [alloc] inside the chosen block. *)
Lemma carved_tiled m off prev gap block rest gen :
  (gap = 0 \/ 24 <= gap) -> (rest = 0 \/ 24 <= rest) -> 24 <= block ->
  let start := off + gap in
  let m1 := if 0 <? gap then put m off (mkHeader gap prev 0) else m in
  let m2 := if rest =? 0 then m1 else put m1 (start + block) (mkHeader rest block 0) in
  let m3 := put m2 start (mkHeader block (if 0 <? gap then gap else prev) (2 * gen + 1)) in
  tiled m3 off prev (carved gap block rest gen) (off + gap + block + rest) /\
  (forall o, o < off \/ off + gap + block + rest <= o -> m3 o = m o).
Proof.
  intros Hg Hr Hb start m1 m2 m3.
  assert (Hm1 : forall o, o < off \/ start <= o -> m1 o = m o).
  { intros o Ho. unfold m1, start in *. destruct (Z.ltb_spec 0 gap); [apply put_other; lia|done]. }
  assert (Hm2 : forall o, o < start + block \/ start + block + rest <= o -> m2 o = m1 o).
  { intros o Ho. unfold m2. destruct (Z.eqb_spec rest 0); [done|apply put_other; lia]. }
  assert (Hm3 : forall o, o < start \/ start + block <= o -> m3 o = m2 o).
  { intros o Ho. unfold m3. apply put_other. lia. }
  split.
  2:{ intros o Ho. rewrite Hm3, Hm2, Hm1 by (unfold start; lia). done. }
  assert (Htail : tiled m3 start (if 0 <? gap then gap else prev) (mkBlk block (Some gen) :: free_if rest)
                    (start + block + rest)).
  { cbn [tiled]. unfold m3 at 1 2 3. rewrite put_size, put_prev, put_state. do 3 (split; [done|]). cbn [b_size].
    unfold free_if. destruct (Z.eqb_spec rest 0) as [->|Hne]; cbn [tiled]; [lia|].
    rewrite !Hm3 by lia. unfold m2. destruct (Z.eqb_spec rest 0); [done|].
    rewrite put_size, put_prev, put_state. by repeat split. }
  unfold carved. unfold free_if at 1. destruct (Z.eqb_spec gap 0) as [->|Hne]; cbn [app].
  - unfold start in *. rewrite Z.add_0_r in *. exact Htail.
  - cbn [tiled]. rewrite !Hm3, !Hm2 by (unfold start; lia). unfold m1.
    destruct (Z.ltb_spec 0 gap); [|lia]. rewrite put_size, put_prev, put_state. do 3 (split; [done|]).
    exact Htail.
Qed.

Lemma with_mem_id a : with_mem a (r_mem (a_region a)) = a.
Proof. by destruct a as [[] ? ? ? ?]. Qed.

(** The words of every other block are untouched. *)
Definition same_words (a a' : Allocator) (lo hi : Z) : Prop :=
  forall o, o < lo \/ hi + 24 <= o -> r_mem (a_region a') o = r_mem (a_region a) o.

Definition place_block (need gap : Z) (b : blk) : Z :=
  if 24 + need + 24 <=? b_size b - gap then 24 + need else b_size b - gap.

Lemma place_writes a size need gap off b prev :
  0 <= off -> off mod 8 = 0 -> b_size b mod 8 = 0 -> off + b_size b <= r_len (a_region a) ->
  r_len (a_region a) <= 2 ^ 62 -> blk_free b ->
  (gap = 0 \/ 24 <= gap) -> gap mod 8 = 0 -> 0 < need -> need mod 8 = 0 -> gap + 24 + need <= b_size b ->
  let block := place_block need gap b in
  let rest := b_size b - gap - block in
  exists m3, (rest = 0 \/ 24 <= rest) /\ rest mod 8 = 0 /\ 24 + need <= block /\ block mod 8 = 0 /\
    tiled m3 off prev (carved gap block rest (a_generation a)) (off + b_size b) /\
    (forall o, o < off \/ off + b_size b <= o -> m3 o = r_mem (a_region a) o) /\
    Allocator_place a size need off (header_of prev b) gap =
      (let! a1 := Allocator_relink (with_mem a m3) (off + b_size b) (if rest =? 0 then block else rest) in
       let used := wadd (a_used a1) block in
       let next := Z.land (wadd (a_generation a) 1) (Z.shiftr u64_max 1) in
       let a' := mkAllocator (a_region a1) used (wadd (a_live a1) 1) (if a_peak a1 <? used then used else a_peak a1)
                   (if next =? 0 then 1 else next) in
       match Arena_pointer (a_region a1) (off + gap + 24) with
       | None => (Err ARegion, a')
       | Some ptr => (Ok (mkAllocBlock ptr size (a_generation a)), a')
       end).
Proof.
  intros H0 H8 Hb8 Hend Hmax Hfree Hg Hg8 Hn Hn8 Hfit block rest.
  assert (Hblock : 24 + need <= block /\ (rest = 0 \/ 24 <= rest) /\ block mod 8 = 0 /\ rest mod 8 = 0 /\
                   (24 + need + 24 <=? b_size b - gap) = negb (rest =? 0) /\ (rest <> 0 -> block = 24 + need)).
  { unfold rest, block, place_block.
    pose proof (Z.div_mod (b_size b) 8 ltac:(lia)). pose proof (Z.div_mod gap 8 ltac:(lia)).
    pose proof (Z.div_mod need 8 ltac:(lia)).
    destruct (Z.leb_spec (24 + need + 24) (b_size b - gap)).
    - split; [lia|]. split; [lia|]. split; [rewrite Z.add_mod, Hn8 by lia; done|].
      split; [|split; [destruct (Z.eqb_spec (b_size b - gap - (24 + need)) 0); [lia|done]|done]].
      replace (b_size b - gap - (24 + need)) with (8 * (b_size b / 8 - gap / 8 - need / 8 - 3)) by lia.
      by rewrite Z.mul_comm, Z.mod_mul.
    - split; [lia|]. split; [lia|]. rewrite Z.sub_diag. split; [|done].
      replace (b_size b - gap) with (8 * (b_size b / 8 - gap / 8)) by lia. by rewrite Z.mul_comm, Z.mod_mul. }
  destruct Hblock as (Hwant & Hrest & Hblock8 & Hrest8 & Hsplit & Hexact).
  set (m := r_mem (a_region a)). set (gen := a_generation a).
  destruct (carved_tiled m off prev gap block rest gen) as [Ht Hf]; [done|done|lia|].
  set (m1 := if 0 <? gap then put m off (mkHeader gap prev 0) else m) in *.
  set (m2 := if rest =? 0 then m1 else put m1 (off + gap + block) (mkHeader rest block 0)) in *.
  set (m3 := put m2 (off + gap) (mkHeader block (if 0 <? gap then gap else prev) (2 * gen + 1))) in *.
  exists m3. replace (off + gap + block + rest) with (off + b_size b) in * by (unfold rest; lia).
  do 6 (split; [done|]).
  assert (Hstart8 : (off + gap) mod 8 = 0) by (rewrite Z.add_mod, H8, Hg8 by lia; done).
  unfold Allocator_place, BLOCK_HEADER. cbn [header_of hd_size hd_prev].
  change (tag 0 FREE) with 0. rewrite (wadd_small 24 need) by lia. rewrite (wadd_small (24 + need) 24) by lia.
  assert (E1 : (if 0 <? gap then Allocator_write a off (mkHeader gap prev 0) else (Ok tt, a)) = (Ok tt, with_mem a m1)).
  { unfold m1. destruct (Z.ltb_spec 0 gap); [apply write_ok; (done || lia)|]. by rewrite with_mem_id. }
  rewrite E1. assert (Estart : (if 0 <? gap then wadd off gap else off) = off + gap) by (in_range; destruct (Z.ltb_spec 0 gap); lia).
  assert (Eblk : (if 0 <? gap then wsub (b_size b) gap else b_size b) = b_size b - gap) by (in_range; destruct (Z.ltb_spec 0 gap); lia).
  rewrite Estart, Eblk, Hsplit.
  assert (E2 : (if negb (rest =? 0) then
      Allocator_write (with_mem a m1) (wadd (off + gap) (24 + need)) (mkHeader (wsub (b_size b - gap) (24 + need)) (24 + need) 0)
      else (Ok tt, with_mem a m1)) = (Ok tt, with_mem a m2)).
  { unfold m2. destruct (Z.eqb_spec rest 0) as [|Hne]; [done|]. cbn [negb].
    rewrite <- (Hexact Hne). in_range. fold rest. rewrite write_ok; [done| | | |]; cbn [a_region with_mem set_region r_len]; try lia.
    rewrite Z.add_mod, Hstart8, Hblock8 by lia. done. }
  rewrite E2.
  assert (Ebl : (if negb (rest =? 0) then 24 + need else b_size b - gap) = block).
  { destruct (Z.eqb_spec rest 0) as [Hz|Hne]; cbn [negb]; [unfold rest in Hz; lia|by rewrite Hexact]. }
  assert (Elast : (if negb (rest =? 0) then wsub (b_size b - gap) (24 + need) else b_size b - gap) =
                  (if rest =? 0 then block else rest)).
  { destruct (Z.eqb_spec rest 0) as [Hz|Hne]; cbn [negb]; [unfold rest in Hz; lia|].
    rewrite <- (Hexact Hne). in_range. done. }
  rewrite Ebl, Elast, (wadd_small off (b_size b)), (wadd_small (off + gap) 24), write_ok; cbn [a_region with_mem set_region r_len r_mem]; [|lia|done|lia|lia|lia|lia].
  rewrite tag_used. reflexivity.
Qed.

Lemma next_generation gen :
  1 <= gen -> gen + 1 < 2 ^ 63 -> Z.land (wadd gen 1) (Z.shiftr u64_max 1) = gen + 1.
Proof.
  intros H1 H2. rewrite wadd_small by lia. change (Z.shiftr u64_max 1) with (Z.ones 63).
  rewrite Z.land_ones by lia. apply Z.mod_small. lia.
Qed.

Definition allocated_in (a a' : Allocator) (pre post : list blk) (b : blk) (gap need size : Z) (r : AllocBlock) : Prop :=
  let block := place_block need gap b in
  let rest := b_size b - gap - block in
  r = mkAllocBlock (r_base (a_region a) + total pre + gap + 24) size (a_generation a) /\
  24 + need <= block /\ (rest = 0 \/ 24 <= rest) /\
  alloc_wf a' (pre ++ carved gap block rest (a_generation a) ++ post) /\
  r_base (a_region a') = r_base (a_region a) /\ r_len (a_region a') = r_len (a_region a) /\
  a_generation a' = a_generation a + 1 /\
  same_words a a' (total pre) (total pre + b_size b).

(** Length and counter never underflow. *)
Lemma free_bytes_total a bl : alloc_wf a bl -> free_bytes a = total bl - used_total bl.
Proof.
  intros Hwf. pose proof (used_le_total bl (aw_blocks _ _ Hwf)). pose proof (aw_space _ _ Hwf).
  pose proof (aw_base _ _ Hwf) as [? _]. unfold free_bytes. rewrite (aw_len _ _ Hwf), (aw_used _ _ Hwf) in *.
  by in_range.
Qed.

(** The counters leave room for the block a free one becomes. *)
Lemma room_for_one a bl pre b post :
  alloc_wf a bl -> bl = pre ++ b :: post -> blk_free b ->
  0 <= a_used a <= 2 ^ 62 - b_size b /\ 0 <= a_live a <= 2 ^ 62.
Proof.
  intros Hwf Heq Hf. destruct (wf_split a bl Hwf pre (b :: post) Heq) as (Hp & Hq & _ & _ & Hsum & Hmax & _).
  apply Forall_cons_1 in Hq as [Hb Hq]. rewrite total_cons in Hsum.
  pose proof (used_le_total pre Hp). pose proof (used_le_total post Hq).
  pose proof (live_le_total bl (aw_blocks _ _ Hwf)). rewrite <- (aw_len _ _ Hwf), <- (aw_live _ _ Hwf) in *.
  rewrite (aw_used _ _ Hwf), Heq, used_total_app. change (used_total (b :: post)) with
    ((match b_use b with Some _ => b_size b | None => 0 end) + used_total post).
  unfold blk_free in Hf. rewrite Hf. lia.
Qed.

Lemma place_ok a bl pre b post size need gap :
  alloc_wf a bl -> bl = pre ++ b :: post -> blk_free b ->
  (gap = 0 \/ 24 <= gap) -> gap mod 8 = 0 -> 0 < need -> need mod 8 = 0 -> gap + 24 + need <= b_size b ->
  a_generation a + 1 < 2 ^ 63 ->
  exists r a', Allocator_place a size need (total pre) (header_of (prev_size 0 pre) b) gap = (Ok r, a') /\
    allocated_in a a' pre post b gap need size r.
Proof.
  intros Hwf Heq Hfree Hg Hg8 Hn Hn8 Hfit Hgen.
  destruct (wf_split a bl Hwf pre (b :: post) Heq) as (Hp & Hq & H0 & H8 & Hsum & Hmax & Ht1 & Ht2).
  apply Forall_cons_1 in Hq as [Hb Hq]. rewrite total_cons in Hsum. pose proof (total_nonneg post Hq) as [Hpost _].
  destruct Ht2 as (_ & _ & _ & Ht2). pose proof (bl_size _ Hb) as Hs. pose proof (bl_align _ Hb) as Hb8.
  pose proof (aw_gen _ _ Hwf) as Hgen1.
  destruct (place_writes a size need gap (total pre) b (prev_size 0 pre)) as
    (m3 & Hrest & Hrest8 & Hblock & Hblock8 & Ht & Hf & ->); try done; try lia.
  set (block := place_block need gap b) in *. set (rest := b_size b - gap - block) in *.
  destruct (relink_ok (with_mem a m3) (total pre + b_size b) (b_size b) (if rest =? 0 then block else rest) post
              (r_len (a_region a))) as (m' & Hre & Htp & Hf'); try done; try lia.
  { rewrite Z.add_mod, H8, Hb8 by lia. done. }
  { apply (tiled_frame (r_mem (a_region a))); [done| |done]. intros o Ho. apply Hf. lia. }
  rewrite Hre. cbn [with_mem set_region a_region a_used a_live a_peak a_generation r_base r_len r_mem].
  unfold Arena_pointer. cbn [r_len r_base].
  destruct (Z.ltb_spec (r_len (a_region a)) (total pre + gap + 24)) as [|_]; [unfold rest in *; lia|].
  pose proof (room_for_one a bl pre b post Hwf Heq Hfree) as [Hroom Hcount].
  rewrite (wadd_small (a_used a)), (wadd_small (a_live a)) by (unfold rest in *; lia).
  rewrite next_generation by lia. destruct (Z.eqb_spec (a_generation a + 1) 0) as [|_]; [lia|].
  eexists _, _. split; [reflexivity|]. unfold allocated_in. fold block. fold rest.
  cbn [a_region r_base r_len a_generation].
  destruct (carved_ok gap block rest (a_generation a)) as (C1 & C2 & C3 & C4); try done; try lia.
  assert (Hbl : b_size b = gap + block + rest) by (unfold rest; lia).
  split; [f_equal; lia|]. split; [done|]. split; [done|]. split; [|split; [done|split; [done|split; [done|]]]].
  - destruct Hwf as [W1 W2 W3 W4 W5 W6 W7 W8 W9 W10]. rewrite Heq in W3, W6, W7, W8.
    assert (Htot : total (pre ++ carved gap block rest (a_generation a) ++ post) = total (pre ++ b :: post)).
    { rewrite !total_app, total_cons, C2. lia. }
    split; cbn [a_region r_base r_len r_mem a_used a_live a_generation]; try done.
    + by rewrite Htot.
    + rewrite !Forall_app. done.
    + rewrite Htot, <- W3. apply tiled_app. rewrite Z.add_0_l. split.
      * apply (tiled_frame (r_mem (a_region a))); [done| |done]. intros o Ho. rewrite Hf' by (cbn; lia). apply Hf. lia.
      * apply tiled_app. rewrite C2. replace (total pre + (gap + block + rest)) with (total pre + b_size b) by lia. split.
        -- apply (tiled_frame m3); [done| |done]. intros o Ho. apply Hf'. lia.
        -- replace (prev_size (prev_size 0 pre) (carved gap block rest (a_generation a))) with
             (if rest =? 0 then block else rest); [done|].
           symmetry. rewrite <- prev_size_app. apply head_carved.
    + by eapply carved_merged.
    + rewrite W7, !used_total_app, C3. change (used_total (b :: post)) with
        ((match b_use b with Some _ => b_size b | None => 0 end) + used_total post). unfold blk_free in Hfree.
      rewrite Hfree. lia.
    + rewrite W8, !live_count_app, C4. change (live_count (b :: post)) with
        ((match b_use b with Some _ => 1 | None => 0 end) + live_count post). unfold blk_free in Hfree.
      rewrite Hfree. lia.
    + lia.
    + intros c g Hc Hu. rewrite !elem_of_app in Hc. destruct Hc as [Hc|[Hc|Hc]].
      * assert (g < a_generation a); [|lia]. apply (W10 c); [|done]. rewrite Heq, elem_of_app. by left.
      * pose proof (elem_of_carved _ _ _ _ c g Hc Hu). lia.
      * assert (g < a_generation a); [|lia]. apply (W10 c); [|done]. rewrite Heq, elem_of_app, elem_of_cons. auto.
  - intros o Ho. cbn [a_region r_mem]. rewrite Hf' by (cbn; lia). apply Hf. lia.
Qed.

(** ** Allocation *)
Definition rounds_to (size need : Z) : Prop := size <= need < size + 8 /\ need mod 8 = 0.

Definition alloc_contract (a : Allocator) (bl : list blk) (size align : Z)
    (res : option (outcome AllocError AllocBlock * Allocator)) : Prop :=
  match res with
  | Some (Ok r, a') => exists pre b post gap need, bl = pre ++ b :: post /\ blk_free b /\ rounds_to size need /\
      placement a need align (total pre) b gap /\ allocated_in a a' pre post b gap need size r /\
      (forall p c q g, pre = p ++ c :: q -> blk_free c -> ~ placement a need align (total p) c g)
  | Some (Err ARequest, a') => a' = a /\ (size = 0 \/ is_power_of_two align = false \/ MAX_ALIGN < align)
  | Some (Err AEmpty, a') => a' = a /\ Forall (fun b => ~ blk_free b) bl
  | Some (Err AExhausted, a') => a' = a /\ ~ Forall (fun b => ~ blk_free b) bl /\
      exists need, rounds_to size need /\
        forall p c q g, bl = p ++ c :: q -> blk_free c -> ~ placement a need align (total p) c g
  | _ => False
  end.

Lemma next_multiple_8 size :
  0 <= size <= 2 ^ 64 - 2 ^ 14 -> exists need, checked_next_multiple_of size ALIGN = Some need /\ rounds_to size need.
Proof.
  intros Hs. unfold checked_next_multiple_of, ALIGN, rounds_to. cbn [Z.eqb].
  pose proof (Z.mod_pos_bound size 8 ltac:(lia)). pose proof (Z.div_mod size 8 ltac:(lia)).
  destruct (Z.eqb_spec (size mod 8) 0) as [H8|H8]; [exists size; split; [done|split; [lia|done]]|].
  exists (size + (8 - size mod 8)). split; [apply checked_add_Some; unfold u64_max; lia|]. split; [lia|].
  replace (size + (8 - size mod 8)) with ((size / 8 + 1) * 8) by lia. apply Z.mod_mul. lia.
Qed.

Lemma alloc_correct a bl size align :
  alloc_wf a bl -> 0 <= size <= 2 ^ 64 - 2 ^ 14 -> 0 <= align -> a_generation a + 1 < 2 ^ 63 ->
  alloc_contract a bl size align (Allocator_alloc a size align).
Proof.
  intros Hwf Hsize Hal Hgen. unfold Allocator_alloc.
  destruct (Z.eqb_spec size 0) as [->|Hz]; cbn [orb]; [split; auto|].
  destruct (is_power_of_two align) eqn:Hp; cbn [negb orb]; [|split; auto].
  destruct (Z.ltb_spec MAX_ALIGN align) as [Hbig|Hsmall]; [split; auto|]. unfold MAX_ALIGN in Hsmall.
  destruct (next_multiple_8 size Hsize) as (need & -> & Hr). pose proof Hr as [Hr1 Hr8].
  pose proof (find_fit_spec a bl Hwf need align ltac:(lia) ltac:(done) bl [] (walk_fuel a) eq_refl
                (walk_fuel_enough a bl Hwf)) as Hf. cbn [app] in Hf. change (total []) with 0 in Hf.
  destruct (find_fit (walk_fuel a) a need align 0) as [[[[off h] gap]|]|]; cbn [mbind option_bind]; [| |done].
  - destruct Hf as (p & b & q & Heq & -> & -> & Hfree & Hpl & Hg8 & Hfirst).
    destruct Hpl as [(Hg0 & Hg1 & Hg2) Hfit].
    destruct (place_ok a bl p b q size need gap) as (r & a' & -> & Hal'); try done; try lia.
    cbn [alloc_contract]. exists p, b, q, gap, need. repeat (split; [done|]). done.
  - assert (Hfb : (free_bytes a =? 0) = bool_decide (Forall (fun b => ~ blk_free b) bl)).
    { rewrite (free_bytes_total a bl Hwf).
      pose proof (used_all bl (aw_blocks _ _ Hwf)) as Hall. unfold blk_free in *.
      destruct (Z.eqb_spec (total bl - used_total bl) 0); symmetry; [apply bool_decide_eq_true|apply bool_decide_eq_false];
        rewrite <- Hall; lia. }
    rewrite Hfb. destruct (bool_decide_reflect (Forall (fun b => ~ blk_free b) bl)) as [Hnone|Hsome];
      cbn [alloc_contract]; [done|].
    split; [done|]. split; [done|]. exists need. split; [done|]. intros p c q g Hpq. by apply (Hf p c q g).
Qed.

(** ** Handles *)
(** [r] names the used block [b] that follows [pre]. *)
Definition names (a : Allocator) (r : AllocBlock) (pre : list blk) (b : blk) : Prop :=
  ab_address r = r_base (a_region a) + total pre + 24 /\ 0 < ab_size r <= b_size b - 24 /\
  b_use b = Some (ab_generation r).

Lemma start_of_loop_spec a bl r : alloc_wf a bl -> 0 < ab_size r -> forall post pre fuel,
  bl = pre ++ post -> (length post < fuel)%nat -> total pre <= ab_address r - r_base (a_region a) ->
  match start_of_loop fuel a r (ab_address r - r_base (a_region a)) (total pre) with
  | None => False
  | Some (Ok off) => exists p b q, post = p ++ b :: q /\ off = total (pre ++ p) /\ names a r (pre ++ p) b
  | Some (Err e) => (e = AUnowned \/ e = ADoubleFree) /\ forall p b q, post = p ++ b :: q -> ~ names a r (pre ++ p) b
  | Some Panic => False
  end.
Proof.
  intros Hwf Hsz post. induction post as [|b post IH]; intros pre fuel Heq Hfuel Hle;
    (destruct fuel as [|fuel]; [simpl in Hfuel; lia|]); cbn [start_of_loop].
  { rewrite app_nil_r in Heq. rewrite <- Heq, (step_end a bl Hwf). split; [auto|]. intros p b q Hp. by destruct p. }
  rewrite (step_at a bl Hwf pre b post Heq).
  destruct (wf_split a bl Hwf pre (b :: post) Heq) as (Hp & Hq & H0 & _ & Hsum & Hmax & _).
  apply Forall_cons_1 in Hq as [Hb Hq]. pose proof (bl_size _ Hb) as Hs.
  rewrite total_cons in Hsum. pose proof (total_nonneg post Hq) as [Hpost _].
  assert (Hlater : forall p c q, post = p ++ c :: q -> names a r (pre ++ b :: p) c ->
    total pre + b_size b <= ab_address r - r_base (a_region a)).
  { intros p c q -> (Ha & _). rewrite total_app, total_cons in Ha.
    apply Forall_app in Hq as [Hq _]. pose proof (total_nonneg p Hq). lia. }
  destruct (Z.ltb_spec (ab_address r - r_base (a_region a)) (total pre + b_size b)) as [Hin|Hout].
  - assert (Hskip : forall p c q, b :: post = p ++ c :: q -> names a r (pre ++ p) c -> p = [] /\ c = b).
    { intros [|b1 p] c q Hpq Hn; simplify_eq/=; [done|]. eapply Hlater in Hn; [|done]. lia. }
    rewrite (state_header _ b Hb). destruct (b_use b) as [g|] eqn:Eu.
    + cbn [Z.eqb USED FREE]. unfold BLOCK_HEADER. cbn [header_of hd_size]. in_range.
      rewrite (generation_header _ b g Eu).
      destruct (Z.eqb_spec (ab_address r - r_base (a_region a)) (total pre + 24)) as [Ha|Ha]; cbn [andb];
        [destruct (Z.leb_spec (ab_size r) (b_size b - 24)) as [Hz|Hz]; cbn [andb];
          [destruct (Z.eqb_spec (ab_generation r) g) as [Hg|Hg]|]|].
      * exists [], b, post. rewrite app_nil_r. split; [done|]. split; [done|]. split; [lia|]. split; [lia|congruence].
      * split; [auto|]. intros p c q Hpq Hn. destruct (Hskip p c q Hpq Hn) as [-> ->].
        destruct Hn as (_ & _ & Hn). congruence.
      * split; [auto|]. intros p c q Hpq Hn. destruct (Hskip p c q Hpq Hn) as [-> ->]. destruct Hn as (_ & Hn & _). lia.
      * split; [auto|]. intros p c q Hpq Hn. destruct (Hskip p c q Hpq Hn) as [-> ->]. rewrite app_nil_r in Hn.
        destruct Hn as (Hn & _). lia.
    + cbn [Z.eqb FREE]. split; [auto|]. intros p c q Hpq Hn. destruct (Hskip p c q Hpq Hn) as [-> ->].
      destruct Hn as (_ & _ & Hn). congruence.
  - specialize (IH (pre ++ [b]) fuel). rewrite <- app_assoc in IH. cbn [app] in IH.
    rewrite total_app, total_cons in IH. change (total []) with 0 in IH. rewrite Z.add_0_r in IH.
    specialize (IH Heq ltac:(simpl in Hfuel; lia) ltac:(lia)).
    destruct (start_of_loop fuel a r (ab_address r - r_base (a_region a)) (total pre + b_size b)) as [[off|e|]|];
      [| |done|done].
    + destruct IH as (p & c & q & -> & Hoff & Hn). rewrite <- app_assoc in Hoff, Hn. by exists (b :: p), c, q.
    + destruct IH as [He Hno]. split; [done|]. intros [|b1 p] c q Hpq Hn; simplify_eq/=.
      * rewrite app_nil_r in Hn. destruct Hn as (Ha & Hz & _). lia.
      * apply (Hno p c q eq_refl). by rewrite <- app_assoc.
Qed.

Lemma start_of_spec a bl r :
  alloc_wf a bl -> 0 < ab_size r ->
  match Allocator_start_of a r with
  | None => False
  | Some (Ok off) => exists pre b post, bl = pre ++ b :: post /\ off = total pre /\ names a r pre b
  | Some (Err e) => (e = AUnowned \/ e = ADoubleFree) /\ forall pre b post, bl = pre ++ b :: post -> ~ names a r pre b
  | Some Panic => False
  end.
Proof.
  intros Hwf Hsz. unfold Allocator_start_of. cbv zeta. destruct (_ || _) eqn:E.
  - split; [auto|]. intros pre b post Heq (Ha & Hs & _).
    destruct (wf_split a bl Hwf pre (b :: post) Heq) as (Hp & Hq & H0 & _ & Hsum & _).
    apply Forall_cons_1 in Hq as [Hb Hq]. rewrite total_cons in Hsum. pose proof (total_nonneg post Hq).
    apply orb_true_iff in E as [E%Z.ltb_lt|E%Z.leb_le]; [lia|].
    lia.
  - apply orb_false_iff in E as [E1%Z.ltb_ge E2%Z.leb_gt].
    pose proof (start_of_loop_spec a bl r Hwf Hsz bl [] (walk_fuel a) eq_refl (walk_fuel_enough a bl Hwf)) as H.
    change (total []) with 0 in H. specialize (H ltac:(lia)). cbn [app] in H. exact H.
Qed.

(** ** Release *)
(** Merging with the next block. *)
Lemma merge_next_ok a pre s prev post :
  let m := r_mem (a_region a) in
  let off := total pre in
  Forall blk_ok pre -> Forall blk_ok post -> 24 <= s -> s mod 8 = 0 ->
  off + s + total post = r_len (a_region a) -> r_len (a_region a) <= 2 ^ 62 ->
  tiled m (off + s) s post (r_len (a_region a)) ->
  exists n post0 m', post = n ++ post0 /\ Forall blk_free n /\ (n = [] -> forall c, head post = Some c -> ~ blk_free c) /\
    (length n <= 1)%nat /\
    merge_next a off (mkHeader s prev 0) = (Ok (mkHeader (s + total n) prev 0), with_mem a m') /\
    tiled m' (off + (s + total n)) (prev_size s n) post0 (r_len (a_region a)) /\
    (forall o, o < off \/ off + 24 <= o -> m' o = m o) /\
    (m off = s -> m (off + 8) = prev -> m (off + 16) = 0 ->
     m' off = s + total n /\ m' (off + 8) = prev /\ m' (off + 16) = 0).
Proof.
  intros m off Hp Hq Hs Hs8 Hsum Hmax Ht. unfold merge_next, BLOCK_HEADER. cbn [hd_size hd_prev hd_state].
  pose proof (total_nonneg pre Hp) as [H0 H8]. fold off in H0, H8.
  assert (Hoff8 : (off + s) mod 8 = 0) by (rewrite Z.add_mod, H8, Hs8 by lia; done).
  destruct post as [|c post].
  - change (total []) with 0 in Hsum. in_range. destruct (Z.leb_spec (off + s + 24) (r_len (a_region a))); [lia|].
    exists [], [], m. change (total []) with 0. rewrite Z.add_0_r. split; [done|]. split; [done|]. split; [done|].
    split; [simpl; lia|]. split; [by rewrite with_mem_id|]. split; [cbn [tiled]; lia|]. auto.
  - apply Forall_cons_1 in Hq as [Hc Hq]. pose proof (total_nonneg post Hq) as [Hn _].
    pose proof (bl_size _ Hc) as Hcs. rewrite total_cons in Hsum. in_range.
    destruct (Z.leb_spec (off + s + 24) (r_len (a_region a))); [|lia].
    destruct Ht as (E1 & E2 & E3 & Ht). rewrite read_ok by (done || lia). fold m. rewrite E1, E2, E3.
    change (mkHeader (b_size c) s (state_word c)) with (header_of s c). rewrite (state_header s c Hc).
    destruct (b_use c) as [g|] eqn:Eu.
    + cbn [Z.eqb USED FREE]. exists [], (c :: post), m. change (total []) with 0. rewrite Z.add_0_r.
      split; [done|]. split; [done|]. split; [intros _ c' [= <-]; unfold blk_free; congruence|].
      split; [simpl; lia|]. split; [by rewrite with_mem_id|]. split; [cbn [tiled]; auto|]. auto.
    + cbn [Z.eqb FREE header_of hd_size]. in_range. rewrite write_ok by (done || lia). fold m.
      exists [c], post, (put m off (mkHeader (s + b_size c) prev 0)).
      rewrite total_cons. change (total []) with 0. rewrite Z.add_0_r.
      split; [done|]. split; [by repeat constructor|]. split; [done|]. split; [simpl; lia|]. split; [done|].
      split; [|split; [intros o Ho; by apply put_other|by rewrite put_size, put_prev, put_state]].
      rewrite Z.add_assoc. apply (tiled_frame m); [done| |done]. intros o Ho. apply put_other. lia.
Qed.

(** Merging with the previous block. *)
Lemma merge_previous_ok a pre s post prevn :
  let m := r_mem (a_region a) in
  let off := total pre in
  Forall blk_ok pre -> Forall blk_ok post -> 24 <= s -> off + s + total post = r_len (a_region a) ->
  r_len (a_region a) <= 2 ^ 62 -> tiled m 0 0 pre off -> tiled m (off + s) prevn post (r_len (a_region a)) ->
  m off = s -> m (off + 8) = prev_size 0 pre -> m (off + 16) = 0 ->
  exists pre0 p m', pre = pre0 ++ p /\ Forall blk_free p /\ (p = [] -> forall c, list.last pre = Some c -> ~ blk_free c) /\
    (length p <= 1)%nat /\
    merge_previous a off (mkHeader s (prev_size 0 pre) 0) =
      (Ok (total pre0, mkHeader (total p + s) (prev_size 0 pre0) 0), with_mem a m') /\
    tiled m' 0 0 (pre0 ++ [mkBlk (total p + s) None]) (off + s) /\
    tiled m' (off + s) prevn post (r_len (a_region a)) /\
    (forall o, o < total pre0 \/ off + 24 <= o -> m' o = m o).
Proof.
  intros m off Hp Hq Hs Hsum Hmax Ht1 Ht2 M1 M2 M3. unfold merge_previous. cbn [hd_size hd_prev hd_state].
  pose proof (total_nonneg post Hq) as [Hn _].
  destruct pre as [|c pre0 _] using rev_ind.
  - exists [], [], m. split; [done|]. split; [done|]. split; [done|]. split; [simpl; lia|].
    split; [by rewrite with_mem_id|]. split; [|done]. unfold off in *. change (total []) with 0 in *. cbn [app tiled b_size]. rewrite M1, M2, M3. done.
  - apply Forall_app in Hp as [Hp Hc]. apply Forall_cons_1 in Hc as [Hc _]. pose proof (bl_size _ Hc) as Hcs.
    pose proof (total_nonneg pre0 Hp) as [H0 H8].
    assert (Hoff : off = total pre0 + b_size c) by (unfold off; rewrite total_app, total_cons; change (total []) with 0; lia).
    assert (Hps : prev_size 0 (pre0 ++ [c]) = b_size c) by (rewrite prev_size_app; done).
    rewrite Hps in *. destruct (Z.eqb_spec (b_size c) 0); [lia|]. cbn [negb].
    in_range. replace (off - b_size c) with (total pre0) by lia.
    apply tiled_app in Ht1 as [Ht1 Htc]. rewrite Z.add_0_l in *. destruct Htc as (E1 & E2 & E3 & _).
    rewrite read_ok by (done || lia). fold m. rewrite E1, E2, E3.
    change (mkHeader (b_size c) (prev_size 0 pre0) (state_word c)) with (header_of (prev_size 0 pre0) c).
    rewrite (state_header _ c Hc). destruct (b_use c) as [g|] eqn:Eu.
    + cbn [Z.eqb USED FREE]. exists (pre0 ++ [c]), [], m. change (total []) with 0. rewrite Z.add_0_l, app_nil_r.
      split; [done|]. split; [done|]. split.
      { intros _ c' Hl. rewrite last_snoc in Hl. injection Hl as <-. unfold blk_free. congruence. }
      split; [simpl; lia|]. split; [by rewrite with_mem_id, Hps|]. split; [|done].
      rewrite <- app_assoc. apply tiled_app. rewrite Z.add_0_l. split; [done|]. cbn [app tiled b_size].
      rewrite <- Hoff, E1, E2, E3, M1, M2, M3. done.
    + assert (Hw : state_word c = 0) by (unfold state_word; by rewrite Eu).
      cbn [Z.eqb FREE header_of hd_size hd_prev hd_state]. in_range. rewrite write_ok by (done || lia). fold m. rewrite Hw.
      exists pre0, [c], (put m (total pre0) (mkHeader (b_size c + s) (prev_size 0 pre0) 0)).
      rewrite total_cons. change (total []) with 0. rewrite Z.add_0_r.
      split; [done|]. split; [by repeat constructor|]. split; [done|]. split; [simpl; lia|]. split; [done|].
      split; [|split].
      * apply tiled_app. rewrite Z.add_0_l. split.
        -- apply (tiled_frame m); [done| |done]. intros o Ho. apply put_other. lia.
        -- cbn [tiled b_size]. rewrite put_size, put_prev, put_state. unfold state_word. simpl. repeat split. lia.
      * apply (tiled_frame m); [done| |done]. intros o Ho. apply put_other. lia.
      * intros o Ho. apply put_other. lia.
Qed.

Lemma free_run_totals l : Forall blk_free l -> used_total l = 0 /\ live_count l = 0.
Proof.
  induction 1 as [|b l Hb _ [IH1 IH2]]; [done|]. unfold used_total, live_count in *. simpl.
  unfold blk_free in Hb. rewrite Hb. lia.
Qed.

Definition released (a a' : Allocator) (pre post : list blk) (b : blk) : Prop :=
  exists pre0 p n post0, pre = pre0 ++ p /\ post = n ++ post0 /\ Forall blk_free p /\ Forall blk_free n /\
    (length p <= 1)%nat /\ (length n <= 1)%nat /\
    alloc_wf a' (pre0 ++ mkBlk (total p + b_size b + total n) None :: post0) /\
    r_base (a_region a') = r_base (a_region a) /\ r_len (a_region a') = r_len (a_region a) /\
    a_generation a' = a_generation a /\
    same_words a a' (total pre0) (total pre0 + (total p + b_size b + total n)).

(** The neighbours of the merged block are not free. *)
Lemma merged_pairs pre0 p b n post0 g :
  no_free_pair ((pre0 ++ p) ++ b :: n ++ post0) -> b_use b = Some g -> Forall blk_free p -> Forall blk_free n ->
  (length p <= 1)%nat -> (length n <= 1)%nat ->
  (p = [] -> forall c, list.last (pre0 ++ p) = Some c -> ~ blk_free c) ->
  (n = [] -> forall c, head (n ++ post0) = Some c -> ~ blk_free c) ->
  forall s, no_free_pair (pre0 ++ mkBlk s None :: post0).
Proof.
  intros H Hu Hpf Hnf Hpl Hnl Hp Hn s.
  apply no_free_pair_app in H as (H1 & H2 & _). apply no_free_pair_app in H1 as (Hpre & _ & Hj1).
  change (b :: n ++ post0) with ([b] ++ n ++ post0) in H2. apply no_free_pair_app in H2 as (_ & H3 & _).
  apply no_free_pair_app in H3 as (_ & Hpost & Hj2).
  assert (Hlast : forall c, list.last pre0 = Some c -> ~ blk_free c).
  { destruct p as [|x [|]]; [| |simpl in Hpl; lia].
    - rewrite app_nil_r in Hp. by apply Hp.
    - intros c Hc Hf. apply Forall_cons_1 in Hpf as [Hx _]. by apply (Hj1 c x). }
  assert (Hhead : forall c, head post0 = Some c -> ~ blk_free c).
  { destruct n as [|x [|]]; [| |simpl in Hnl; lia].
    - by apply Hn.
    - intros c Hc Hf. apply Forall_cons_1 in Hnf as [Hx _]. by apply (Hj2 x c). }
  apply no_free_pair_app. split; [done|]. split.
  - change (mkBlk s None :: post0) with ([mkBlk s None] ++ post0). apply no_free_pair_app. split; [done|]. split; [done|].
    intros x y _ Hy [_ Hf]. by apply (Hhead y).
  - intros x y Hx _ [Hf _]. by apply (Hlast x).
Qed.

(** A used block is counted. *)
Lemma used_counts a bl pre b post g :
  alloc_wf a bl -> bl = pre ++ b :: post -> b_use b = Some g ->
  b_size b <= a_used a <= 2 ^ 62 /\ 1 <= a_live a <= 2 ^ 62.
Proof.
  intros Hwf Heq Hu. pose proof (aw_blocks _ _ Hwf) as Hok. pose proof (aw_space _ _ Hwf).
  pose proof (aw_base _ _ Hwf) as [? _]. rewrite (aw_len _ _ Hwf) in *.
  pose proof (used_le_total bl Hok). pose proof (live_le_total bl Hok).
  rewrite (aw_used _ _ Hwf), (aw_live _ _ Hwf). split; [split; [|lia]|split; [|lia]]; subst bl;
    apply Forall_app in Hok as [Hp Hq]; apply Forall_cons_1 in Hq as [_ Hq].
  - rewrite used_total_app. pose proof (used_le_total pre Hp). pose proof (used_le_total post Hq).
    change (used_total (b :: post)) with ((match b_use b with Some _ => b_size b | None => 0 end) + used_total post).
    rewrite Hu. lia.
  - rewrite live_count_app. pose proof (live_le_total pre Hp). pose proof (live_le_total post Hq).
    change (live_count (b :: post)) with ((match b_use b with Some _ => 1 | None => 0 end) + live_count post).
    rewrite Hu. lia.
Qed.

Lemma release_ok a bl pre b post g :
  alloc_wf a bl -> bl = pre ++ b :: post -> b_use b = Some g ->
  exists a', (let! a1 := Allocator_write a (total pre) (mkHeader (b_size b) (prev_size 0 pre) 0) in
              Allocator_coalesce (mkAllocator (a_region a1) (wsub (a_used a1) (b_size b)) (wsub (a_live a1) 1) (a_peak a1) (a_generation a1))
                (total pre)) = (Ok tt, a') /\ released a a' pre post b.
Proof.
  intros Hwf Heq Hu. pose proof (wf_split a bl Hwf pre (b :: post) Heq) as (Hp & Hq & H0 & H8 & Hsum & Hmax & Ht1 & Ht2).
  apply Forall_cons_1 in Hq as [Hb Hq]. rewrite total_cons in Hsum. pose proof (total_nonneg post Hq) as [Hn _].
  destruct Ht2 as (E1 & E2 & E3 & Ht2). pose proof (bl_size _ Hb) as Hs. pose proof (bl_align _ Hb) as Hb8.
  rewrite write_ok by (done || lia). cbn [with_mem set_region a_region a_used a_live a_peak a_generation].
  pose proof (used_counts a bl pre b post g Hwf Heq Hu) as [Hc1 Hc2]. in_range.
  set (m := r_mem (a_region a)) in *. set (m1 := put m (total pre) (mkHeader (b_size b) (prev_size 0 pre) 0)).
  set (a1 := mkAllocator _ _ _ _ _).
  assert (Hr1 : a_region a1 = mkArena (r_base (a_region a)) (r_len (a_region a)) m1) by done.
  assert (Hm1 : forall o, o < total pre \/ total pre + 24 <= o -> m1 o = m o) by (intros o Ho; by apply put_other).
  unfold Allocator_coalesce. rewrite read_ok; rewrite ?Hr1; cbn [r_len r_mem]; try done; try lia.
  unfold m1 at 1 2 3. rewrite put_size, put_prev, put_state. cbn [hd_size hd_prev hd_state].
  destruct (merge_next_ok a1 pre (b_size b) (prev_size 0 pre) post) as
    (n & post0 & m2 & Hpost & Hnf & Hnh & Hnl & Hmn & Ht3 & Hf2 & Hhdr); rewrite ?Hr1; cbn [r_len r_mem]; try done; try lia.
  { apply (tiled_frame m); [done| |done]. intros o Ho. apply Hm1. lia. }
  rewrite Hmn. rewrite Hr1 in Ht3, Hf2, Hhdr. cbn [r_len r_mem] in Ht3, Hf2, Hhdr.
  destruct Hhdr as (M1 & M2 & M3); [apply put_size|apply put_prev|apply put_state|].
  assert (Hqn : Forall blk_ok n /\ Forall blk_ok post0) by (by rewrite Hpost, Forall_app in Hq).
  destruct Hqn as [Hqn Hq0]. pose proof (total_nonneg n Hqn) as [Hn0 _].
  assert (Hsum0 : total pre + (b_size b + total n) + total post0 = r_len (a_region a))
    by (rewrite Hpost, total_app in Hsum; lia).
  set (a2 := with_mem a1 m2). assert (Hr2 : a_region a2 = mkArena (r_base (a_region a)) (r_len (a_region a)) m2) by done.
  destruct (merge_previous_ok a2 pre (b_size b + total n) post0 (prev_size (b_size b) n)) as
    (pre0 & p & m3 & Hpre & Hpf & Hph & Hpl & Hmp & Ht4 & Ht5 & Hf3); rewrite ?Hr2; cbn [r_len r_mem]; try done; try lia.
  { apply (tiled_frame m); [done| |done]. intros o Ho. rewrite Hf2, Hm1 by lia. done. }
  rewrite Hmp. cbn [hd_size].
  rewrite Hr2 in Ht5, Hf3. cbn [r_len r_mem] in Ht4, Ht5, Hf3. cbn [hd_size].
  assert (Htp : total pre = total pre0 + total p) by (by rewrite Hpre, total_app).
  assert (Hpok : Forall blk_ok pre0 /\ Forall blk_ok p) by (by rewrite Hpre, Forall_app in Hp).
  destruct Hpok as [Hp0 Hpk]. pose proof (total_nonneg pre0 Hp0) as [Hpp0 Hpp8]. pose proof (total_nonneg p Hpk) as [Hpt Hpt8].
  pose proof (total_nonneg n Hqn) as [_ Hn8].
  assert (Hmerged8 : (total p + (b_size b + total n)) mod 8 = 0).
  { rewrite Z.add_mod, Hpt8, (Z.add_mod (b_size b)), Hb8, Hn8 by lia. done. }
  set (a3 := with_mem a2 m3). assert (Hr3 : a_region a3 = mkArena (r_base (a_region a)) (r_len (a_region a)) m3) by done.
  destruct (relink_ok a3 (total pre0 + (total p + (b_size b + total n))) (prev_size (b_size b) n)
              (total p + (b_size b + total n)) post0 (r_len (a_region a))) as (m4 & Hre & Ht6 & Hf4);
    rewrite ?Hr3; cbn [r_len r_mem]; try done; try lia.
  { rewrite Z.add_mod, Hpp8, Hmerged8 by lia. done. }
  { replace (total pre0 + (total p + (b_size b + total n))) with (total pre + (b_size b + total n)) by lia. done. }
  pose proof (total_nonneg post0 Hq0) as [Hpost0 _]. in_range.
  rewrite Hre. rewrite Hr3 in Hf4. cbn [r_mem] in Hf4. eexists. split; [reflexivity|].
  exists pre0, p, n, post0. do 6 (split; [done|]). rewrite <- Z.add_assoc.
  split; [|split; [done|split; [done|split; [done|]]]].
  - destruct Hwf as [W1 W2 W3 W4 W5 W6 W7 W8 W9 W10]. rewrite Heq in W3, W6, W7, W8.
    destruct (free_run_totals p Hpf) as [P1 P2]. destruct (free_run_totals n Hnf) as [N1 N2].
    assert (Htot : total (pre0 ++ mkBlk (total p + (b_size b + total n)) None :: post0) = r_len (a_region a)).
    { rewrite total_app, total_cons. cbn [b_size]. lia. }
    split; cbn [a3 a2 a1 with_mem set_region a_region r_base r_len r_mem a_used a_live a_generation]; try done.
    + apply Forall_app. split; [done|]. constructor; [|done]. split; simpl; [lia|done|done].
    + rewrite Htot. apply tiled_app. rewrite Z.add_0_l. split.
      * apply (tiled_frame m); [done| |].
        -- intros o Ho. rewrite Hf4, Hf3, Hf2, Hm1 by lia. done.
        -- rewrite Hpre in Ht1. apply tiled_app in Ht1 as [Ht1 _]. by rewrite Z.add_0_l in Ht1.
      * apply tiled_app in Ht4 as [_ (A1 & A2 & A3 & _)]. rewrite Z.add_0_l in *. cbn [tiled b_size] in *.
        rewrite !Hf4 by lia. auto.
    + rewrite Hpre, Hpost in W6. eapply (merged_pairs pre0 p b n post0 g); try done.
      * intros ->. rewrite <- Hpre. by apply Hph.
      * intros ->. rewrite <- Hpost. by apply Hnh.
    + rewrite W7, Hpre, Hpost, !used_total_app.
      change (used_total (b :: n ++ post0)) with ((match b_use b with Some _ => b_size b | None => 0 end) + used_total (n ++ post0)).
      change (used_total (mkBlk (total p + (b_size b + total n)) None :: post0)) with (0 + used_total post0).
      rewrite Hu, used_total_app, P1, N1. lia.
    + rewrite W8, Hpre, Hpost, !live_count_app.
      change (live_count (b :: n ++ post0)) with ((match b_use b with Some _ => 1 | None => 0 end) + live_count (n ++ post0)).
      change (live_count (mkBlk (total p + (b_size b + total n)) None :: post0)) with (0 + live_count post0).
      rewrite Hu, live_count_app, P2, N2. lia.
    + intros c g' Hc Hcu. apply (W10 c); [|done]. rewrite Heq, Hpre, Hpost, !elem_of_app, elem_of_cons, elem_of_app.
      rewrite elem_of_app, elem_of_cons in Hc. destruct Hc as [Hc|[->|Hc]]; [auto|done|auto].
  - intros o Ho. cbn [a3 a2 a1 with_mem set_region a_region r_mem]. rewrite Hf4, Hf3, Hf2, Hm1 by lia. done.
Qed.
