(* ===== verification/AllocatorSpec.v ===== *)
(** * What the heap allocator promises

    Contracts of [alloc], [free], [extend] and [truncate] over the abstract
    layout, the round trip of an allocation, reachable allocators, and the one
    range of sizes for which [alloc] is wrong. *)
From Stdlib Require Import ZArith Lia Bool.
From stdpp Require Import base list option numbers.
From S2P Require Import Prelude Allocator AllocatorFacts.

(** ** Blocks by offset *)
Fixpoint block_at (off : Z) (bl : list blk) (x : Z) (c : blk) : Prop :=
  match bl with
  | [] => False
  | b :: bl => (x = off /\ c = b) \/ block_at (off + b_size b) bl x c
  end.

Lemma block_at_app off l k x c :
  block_at off (l ++ k) x c <-> block_at off l x c \/ block_at (off + total l) k x c.
Proof.
  revert off. induction l as [|b l IH]; intros off; cbn [app block_at].
  - change (total []) with 0. rewrite Z.add_0_r. tauto.
  - rewrite IH, total_cons, Z.add_assoc. tauto.
Qed.

Lemma block_at_split off bl x c : block_at off bl x c <-> exists p q, bl = p ++ c :: q /\ x = off + total p.
Proof.
  split.
  - revert off. induction bl as [|b bl IH]; intros off; [done|]. intros [[-> ->]|H].
    + exists [], bl. change (total []) with 0. split; [done|lia].
    + apply IH in H as (p & q & -> & ->). exists (b :: p), q. rewrite total_cons. split; [done|lia].
  - intros (p & q & -> & ->). apply block_at_app. right. by left.
Qed.

Lemma block_at_bounds off bl x c :
  Forall blk_ok bl -> block_at off bl x c -> off <= x /\ x + b_size c <= off + total bl /\ blk_ok c.
Proof.
  intros Hok (p & q & -> & ->)%block_at_split. apply Forall_app in Hok as [Hp Hq].
  apply Forall_cons_1 in Hq as [Hc Hq]. rewrite total_app, total_cons.
  pose proof (total_nonneg p Hp). pose proof (total_nonneg q Hq). split; [lia|]. split; [lia|done].
Qed.

Lemma block_at_unique off bl x c d : Forall blk_ok bl -> block_at off bl x c -> block_at off bl x d -> c = d.
Proof.
  intros Hok. revert off. induction Hok as [|b bl Hb Hok IH]; intros off; [done|]. cbn [block_at].
  pose proof (bl_size _ Hb). intros [[-> ->]|Hc] [[Hx ->]|Hd]; [done| | |by eapply IH].
  - apply block_at_bounds in Hd; [lia|done].
  - apply block_at_bounds in Hc; [lia|done].
Qed.

(** Distinct blocks do not overlap. *)
Lemma block_at_disjoint off bl x y c d :
  Forall blk_ok bl -> block_at off bl x c -> block_at off bl y d -> x < y -> x + b_size c <= y.
Proof.
  intros Hok. revert off. induction Hok as [|b bl Hb Hok IH]; intros off; [done|]. cbn [block_at].
  pose proof (bl_size _ Hb). intros [[-> ->]|Hc] [[-> ->]|Hd] Hlt; [lia| | |by eapply IH].
  - apply block_at_bounds in Hd; [lia|done].
  - apply block_at_bounds in Hc; [lia|done].
Qed.

(** Every used block of [bl], except the one at [gone], is in [bl'] with the same payload. *)
Definition keeps_live (a a' : Allocator) (bl bl' : list blk) (gone : option Z) : Prop :=
  forall x c g, block_at 0 bl x c -> b_use c = Some g -> gone <> Some x ->
    block_at 0 bl' x c /\ forall o, x + 24 <= o < x + b_size c -> r_mem (a_region a') o = r_mem (a_region a) o.

Lemma keeps_live_replace a a' pre mid mid' post gone :
  Forall blk_ok (pre ++ mid ++ post) -> total mid' = total mid -> same_words a a' (total pre) (total pre + total mid) ->
  (forall x c g, block_at (total pre) mid x c -> b_use c = Some g -> gone = Some x) ->
  keeps_live a a' (pre ++ mid ++ post) (pre ++ mid' ++ post) gone.
Proof.
  intros Hok Ht Hsame Hmid x c g Hx Hu Hgone. rewrite !block_at_app, Z.add_0_l in Hx. rewrite !block_at_app, Z.add_0_l, Ht.
  rewrite !Forall_app in Hok. destruct Hok as (Hp & Hm & Hq).
  destruct Hx as [Hx|[Hx|Hx]].
  - split; [by left|]. apply block_at_bounds in Hx as (H1 & H2 & H3); [|done]. intros o Ho. apply Hsame. lia.
  - destruct Hgone. by eapply Hmid.
  - split; [by right; right|]. apply block_at_bounds in Hx as (H1 & H2 & H3); [|done]. intros o Ho. apply Hsame. lia.
Qed.


(** ** Allocation keeps the live blocks *)
Section Allocated.
Context (a a' : Allocator) (pre post : list blk) (b : blk) (gap need size : Z) (r : AllocBlock).
Context (Hgap : gap = 0 \/ 24 <= gap) (Hal : allocated_in a a' pre post b gap need size r).

(** The layout [alloc] leaves. *)
Definition allocated_layout : list blk :=
  pre ++ carved gap (place_block need gap b) (b_size b - gap - place_block need gap b) (a_generation a) ++ post.

Lemma allocated_gap : gap mod 8 = 0.
Proof.
  destruct Hal as (_ & _ & _ & Hwf' & _). apply aw_blocks in Hwf'. rewrite !Forall_app in Hwf'. destruct Hwf' as (_ & Hc & _).
  unfold carved in Hc. apply Forall_app in Hc as [Hc _]. unfold free_if in Hc.
  destruct (Z.eqb_spec gap 0) as [->|]; [done|]. apply Forall_cons_1 in Hc as [Hc _]. exact (bl_align _ Hc).
Qed.

Lemma allocated_fills :
  total (carved gap (place_block need gap b) (b_size b - gap - place_block need gap b) (a_generation a)) = b_size b.
Proof.
  pose proof allocated_gap as Hg8. destruct Hal as (_ & _ & Hrest & _). unfold carved. rewrite total_app, total_cons. cbn [b_size].
  destruct (free_if_ok gap Hgap Hg8) as (_ & -> & _). set (block := place_block need gap b) in *. unfold free_if.
  destruct (Z.eqb_spec (b_size b - gap - block) 0) as [Hz|Hz]; [change (total []) with 0; lia|].
  rewrite total_cons. change (total []) with 0. cbn [b_size]. lia.
Qed.


End Allocated.

(** A layout holds no block of a generation that was not issued yet. *)
Lemma generation_fresh a bl x c : alloc_wf a bl -> block_at 0 bl x c -> b_use c <> Some (a_generation a).
Proof.
  intros Hwf (p & q & Hbl & _)%block_at_split Hu. assert (a_generation a < a_generation a); [|lia].
  apply (aw_issued _ _ Hwf c); [|done]. rewrite Hbl, elem_of_app, elem_of_cons. auto.
Qed.

(** ** Release *)
Definition free_contract (a : Allocator) (bl : list blk) (r : AllocBlock)
    (res : option (outcome AllocError unit * Allocator)) : Prop :=
  match res with
  | Some (Ok _, a') => exists pre b post bl', bl = pre ++ b :: post /\ names a r pre b /\ released a a' pre post b /\
      alloc_wf a' bl' /\ keeps_live a a' bl bl' (Some (total pre)) /\
      (forall x c, block_at 0 bl' x c -> b_use c <> Some (ab_generation r)) /\
      a_used a' = a_used a - b_size b /\ a_live a' = a_live a - 1
  | Some (Err e, a') => a' = a /\ (e = AUnowned \/ e = ADoubleFree) /\
      forall pre b post, bl = pre ++ b :: post -> ~ names a r pre b
  | _ => False
  end.

(** Generations of live blocks are distinct. *)
Definition distinct_generations (bl : list blk) : Prop :=
  forall x y c d g, block_at 0 bl x c -> block_at 0 bl y d -> b_use c = Some g -> b_use d = Some g -> x = y.

Lemma released_keeps_live a a' bl pre b post g :
  alloc_wf a bl -> distinct_generations bl -> bl = pre ++ b :: post -> b_use b = Some g ->
  released a a' pre post b ->
  exists bl', alloc_wf a' bl' /\ keeps_live a a' bl bl' (Some (total pre)) /\
    (forall x c, block_at 0 bl' x c -> b_use c <> Some g) /\
    a_used a' = a_used a - b_size b /\ a_live a' = a_live a - 1 /\
    (forall x c g', block_at 0 bl' x c -> b_use c = Some g' -> block_at 0 bl x c).
Proof.
  intros Hwf Hdist Heq Hu (pre0 & p & n & post0 & Hpre & Hpost & Hpf & Hnf & _ & _ & Hwf' & _ & _ & _ & Hsame).
  exists (pre0 ++ mkBlk (total p + b_size b + total n) None :: post0).
  assert (Hbl : bl = pre0 ++ (p ++ b :: n) ++ post0) by (by rewrite Heq, Hpre, Hpost, <- !app_assoc).
  assert (Hok : Forall blk_ok (pre0 ++ (p ++ b :: n) ++ post0)) by (rewrite <- Hbl; apply (aw_blocks _ _ Hwf)).
  assert (Htm : total (p ++ b :: n) = total p + b_size b + total n) by (rewrite total_app, total_cons; lia).
  assert (Hback : forall x c g', block_at 0 (pre0 ++ mkBlk (total p + b_size b + total n) None :: post0) x c ->
    b_use c = Some g' -> block_at 0 bl x c /\ x <> total pre).
  { intros x c g' Hx Hcu. rewrite block_at_app in Hx. cbn [block_at b_size] in Hx. rewrite Z.add_0_l in Hx.
    rewrite Hbl, !block_at_app, Z.add_0_l, Htm, Z.add_assoc. rewrite !Forall_app in Hok.
    destruct Hok as (Hok1 & (Hok2 & Hok3) & Hok4). apply Forall_cons_1 in Hok3 as [Hok3 Hok5].
    pose proof (total_nonneg p Hok2). pose proof (total_nonneg n Hok5). pose proof (bl_size _ Hok3).
    rewrite Hpre, total_app. destruct Hx as [Hx|[[_ ->]|Hx]]; [|done|].
    - apply block_at_bounds in Hx as Hb; [|done]. destruct Hb as (_ & Hb & [Hb24 _ _]). split; [by left|lia].
    - apply block_at_bounds in Hx as Hb; [|done]. rewrite Z.add_assoc in Hx. split; [by right; right|lia]. }
  split; [done|]. split; [|split; [|split; [|split]]].
  - rewrite Hbl. change (mkBlk (total p + b_size b + total n) None :: post0) with
      ([mkBlk (total p + b_size b + total n) None] ++ post0).
    apply keeps_live_replace; [done|rewrite Htm, total_cons; change (total []) with 0; cbn [b_size]; lia|by rewrite Htm|].
    intros x c g' Hx Hcu. rewrite block_at_app in Hx. cbn [block_at] in Hx.
    assert (Hfree : forall l off, Forall blk_free l -> ~ block_at off l x c).
    { intros l off Hl (u & v & -> & _)%block_at_split. apply Forall_app in Hl as [_ Hl].
      apply Forall_cons_1 in Hl as [Hl _]. unfold blk_free in Hl. congruence. }
    destruct Hx as [Hx|[[-> ->]|Hx]]; [by apply Hfree in Hx| |by apply Hfree in Hx].
    by rewrite Hpre, total_app.
  - intros x c Hx Hcu. destruct (Hback x c g Hx Hcu) as [Hold Hne]. apply Hne.
    eapply (Hdist x (total pre) c b g); [done| |done|done]. apply block_at_split. exists pre, post. split; [done|lia].
  - rewrite (aw_used _ _ Hwf'), (aw_used _ _ Hwf), Hbl, !used_total_app.
    destruct (free_run_totals p Hpf) as [P1 _]. destruct (free_run_totals n Hnf) as [N1 _].
    change (used_total (b :: n)) with ((match b_use b with Some _ => b_size b | None => 0 end) + used_total n).
    change (used_total (mkBlk (total p + b_size b + total n) None :: post0)) with (0 + used_total post0).
    rewrite Hu, P1, N1. lia.
  - rewrite (aw_live _ _ Hwf'), (aw_live _ _ Hwf), Hbl, !live_count_app.
    destruct (free_run_totals p Hpf) as [_ P2]. destruct (free_run_totals n Hnf) as [_ N2].
    change (live_count (b :: n)) with ((match b_use b with Some _ => 1 | None => 0 end) + live_count n).
    change (live_count (mkBlk (total p + b_size b + total n) None :: post0)) with (0 + live_count post0).
    rewrite Hu, P2, N2. lia.
  - intros x c g' Hx Hcu. by destruct (Hback x c g' Hx Hcu).
Qed.

Lemma free_correct a bl r :
  alloc_wf a bl -> distinct_generations bl -> 0 < ab_size r -> free_contract a bl r (Allocator_free a r).
Proof.
  intros Hwf Hdist Hsz. unfold Allocator_free. pose proof (start_of_spec a bl r Hwf Hsz) as Hs.
  destruct (Allocator_start_of a r) as [[off|e|]|]; cbn [mbind option_bind]; [|by destruct Hs|done|done].
  destruct Hs as (pre & b & post & Heq & -> & Hn).
  pose proof (wf_split a bl Hwf pre (b :: post) Heq) as (Hp & Hq & H0 & H8 & Hsum & Hmax & _ & (E1 & E2 & E3 & _)).
  apply Forall_cons_1 in Hq as [Hb Hq]. rewrite total_cons in Hsum. pose proof (total_nonneg post Hq).
  pose proof (bl_size _ Hb). rewrite read_ok by (done || lia). cbv zeta. rewrite E1, E2, E3. cbn [hd_size hd_prev].
  change (tag 0 FREE) with 0. destruct Hn as (Ha & Hz & Hu).
  destruct (release_ok a bl pre b post (ab_generation r) Hwf Heq Hu) as (a' & -> & Hrel).
  destruct (released_keeps_live a a' bl pre b post _ Hwf Hdist Heq Hu Hrel) as (bl' & K1 & K2 & K3 & K4 & K5 & _).
  cbn [free_contract]. exists pre, b, post, bl'. repeat (split; [done|]). done.
Qed.

(** ** Growth and truncation *)
Section Tail.
Context (a : Allocator) (bl : list blk) (Hwf : alloc_wf a bl).

(** What [last] returns for a layout. *)
Definition last_of (l : list blk) (res : option (Z * Header)) : Prop :=
  match res with
  | None => l = []
  | Some (off, h) => exists p b, l = p ++ [b] /\ off = total p /\ h = header_of (prev_size 0 p) b
  end.

Lemma last_loop_spec post : forall pre fuel found, bl = pre ++ post -> (length post < fuel)%nat -> last_of pre found ->
  exists res, last_loop fuel a (total pre) found = Some res /\ last_of bl res.
Proof.
  induction post as [|b post IH]; intros pre fuel found Heq Hfuel Hf; (destruct fuel as [|fuel]; [simpl in Hfuel; lia|]);
    cbn [last_loop].
  - rewrite app_nil_r in Heq. subst pre. rewrite (step_end a bl Hwf). eauto.
  - rewrite (step_at a bl Hwf pre b post Heq).
    replace (total pre + b_size b) with (total (pre ++ [b])) by (rewrite total_app, total_cons; change (total []) with 0; lia).
    apply IH; [by rewrite <- app_assoc|simpl in Hfuel; lia|]. exists pre, b. done.
Qed.

Lemma last_spec : exists res, Allocator_last a = Some res /\ last_of bl res.
Proof. apply (last_loop_spec bl []); [done|apply (walk_fuel_enough a bl Hwf)|done]. Qed.

(** Nothing but the memory above [lo] and the length changed. *)
Definition resized (a' : Allocator) (len lo : Z) : Prop :=
  r_base (a_region a') = r_base (a_region a) /\ r_len (a_region a') = len /\
  a_used a' = a_used a /\ a_live a' = a_live a /\ a_generation a' = a_generation a /\
  forall o, o < lo -> r_mem (a_region a') o = r_mem (a_region a) o.

(** Replacing the free tail of a layout keeps the allocator well formed. *)
Lemma tail_wf a' pre tl tl' :
  bl = pre ++ tl -> Forall blk_free tl -> Forall blk_free tl' -> Forall blk_ok tl' -> (length tl' <= 1)%nat ->
  joins pre tl' -> resized a' (total (pre ++ tl')) (total pre) ->
  r_base (a_region a) + total (pre ++ tl') <= 2 ^ 62 ->
  tiled (r_mem (a_region a')) (total pre) (prev_size 0 pre) tl' (total (pre ++ tl')) ->
  alloc_wf a' (pre ++ tl').
Proof.
  intros Heq Hf Hf' Hok' Hlen Hj (R1 & R2 & R3 & R4 & R5 & R6) Hsp Ht.
  destruct (wf_split a bl Hwf pre tl Heq) as (Hp & _ & _ & _ & _ & _ & Ht1 & _).
  destruct Hwf as [W1 W2 W3 W4 W5 W6 W7 W8 W9 W10]. rewrite Heq in W6, W7, W8.
  destruct (free_run_totals tl Hf) as [U1 U2]. destruct (free_run_totals tl' Hf') as [U3 U4].
  split; rewrite ?R1, ?R2, ?R3, ?R4, ?R5; try done.
  - by apply Forall_app.
  - apply tiled_app. rewrite Z.add_0_l. split; [|done].
    apply (tiled_frame (r_mem (a_region a))); [done| |done]. intros o Ho. apply R6. lia.
  - apply no_free_pair_app in W6 as (W6 & _ & _). apply no_free_pair_app. split; [done|]. split; [|done].
    destruct tl' as [|x [|]]; [done|done|simpl in Hlen; lia].
  - rewrite W7, !used_total_app. lia.
  - rewrite W8, !live_count_app. lia.
  - intros b g Hb Hu. rewrite elem_of_app in Hb. destruct Hb as [Hb|Hb].
    + apply (W10 b); [|done]. rewrite Heq, elem_of_app. by left.
    + rewrite list.Forall_forall in Hf'. apply Hf' in Hb. unfold blk_free in Hb. congruence.
Qed.
End Tail.

(** The layout after [extend]: the trailing free block grows, or a new one
    follows; nothing below [lo] is written. *)
Definition extended (bl bl' : list blk) (extra lo : Z) : Prop :=
  exists pre tl s, bl = pre ++ tl /\ bl' = pre ++ [mkBlk s None] /\ lo = total pre /\ Forall blk_free tl /\
    s = total tl + extra.

Lemma tail_keeps_live a a' pre tl tl' len :
  Forall blk_ok pre -> Forall blk_free tl -> resized a a' len (total pre) ->
  keeps_live a a' (pre ++ tl) (pre ++ tl') None.
Proof.
  intros Hok Hf (_ & _ & _ & _ & _ & Hm) x c g Hx Hu _. rewrite block_at_app in Hx. rewrite block_at_app.
  destruct Hx as [Hx|(u & v & -> & _)%block_at_split].
  - split; [by left|]. apply block_at_bounds in Hx as (H1 & H2 & H3); [|done]. intros o Ho. apply Hm. lia.
  - apply Forall_app in Hf as [_ Hf]. apply Forall_cons_1 in Hf as [Hf _]. unfold blk_free in Hf. congruence.
Qed.

Lemma joins_last pre b s : ~ blk_free b -> joins (pre ++ [b]) [mkBlk s None].
Proof.
  intros Hb x y Hx Hy [Hf _]. rewrite last_snoc in Hx. by simplify_eq.
Qed.

Lemma joins_replace pre b s : no_free_pair (pre ++ [b]) -> blk_free b -> joins pre [mkBlk s None].
Proof.
  intros (_ & _ & Hj)%no_free_pair_app Hb x y Hx Hy [Hf _]. by apply (Hj x b).
Qed.

Lemma grow_write a bl pre tl s extra :
  alloc_wf a bl -> bl = pre ++ tl -> Forall blk_free tl -> joins pre [mkBlk s None] ->
  24 <= s -> s mod 8 = 0 -> total pre + s = r_len (a_region a) + extra ->
  r_base (a_region a) + r_len (a_region a) + extra <= 2 ^ 62 ->
  exists a', Allocator_write (set_region a (Arena_grow (a_region a) extra)) (total pre)
      (mkHeader s (prev_size 0 pre) 0) = (Ok tt, a') /\
    alloc_wf a' (pre ++ [mkBlk s None]) /\ resized a a' (r_len (a_region a) + extra) (total pre).
Proof.
  intros Hwf Heq Hf Hj Hs Hs8 Hsum Hsp. pose proof (aw_base _ _ Hwf) as [Hb0 _].
  destruct (wf_split a bl Hwf pre tl Heq) as (Hp & _ & H0 & H8 & _ & _ & _ & _).
  rewrite write_ok; cbn [set_region Arena_grow a_region r_len]; [|done|done|lia|lia].
  eexists. split; [reflexivity|]. set (a' := with_mem _ _).
  assert (Hr : resized a a' (r_len (a_region a) + extra) (total pre)).
  { do 5 (split; [done|]). intros o Ho. apply put_other. lia. }
  assert (Ht : total (pre ++ [mkBlk s None]) = r_len (a_region a) + extra).
  { rewrite total_app, total_cons. change (total []) with 0. cbn [b_size]. lia. }
  split; [|done]. apply (tail_wf a bl Hwf a' pre tl); rewrite ?Ht; try done; try lia.
  - repeat constructor.
  - repeat constructor; simpl; try done; lia.
  - cbn [tiled b_size]. unfold a'. cbn [with_mem set_region Arena_grow a_region r_mem].
    rewrite put_size, put_prev, put_state. split; [done|]. split; [done|]. split; [done|]. lia.
Qed.

Lemma header_free p b : blk_ok b -> (state (header_of p b) =? FREE) = bool_decide (blk_free b).
Proof.
  intros Hb. rewrite state_header by done. unfold blk_free. by destruct (b_use b).
Qed.

(** The guard of [extend] on the header it is about to write. *)
Lemma extend_fits off fin :
  0 <= off -> off mod 8 = 0 -> off + 24 <= fin -> fin <= 2 ^ 62 ->
  negb (off mod 8 =? 0) || match checked_add off 24 with Some e => fin <? e | None => true end = false.
Proof.
  intros P0 P8 Pl Hm. rewrite P8. destruct (checked_add off 24) as [e|] eqn:Ee;
    [apply checked_add_Some in Ee as [-> _]|apply checked_add_None in Ee; unfold u64_max in Ee; lia].
  cbn [negb Z.eqb orb]. by apply Z.ltb_ge.
Qed.

Lemma extend_ok a bl extra :
  alloc_wf a bl -> 24 <= extra -> extra mod 8 = 0 -> r_base (a_region a) + r_len (a_region a) + extra <= 2 ^ 62 ->
  exists a' bl' lo, Allocator_extend a extra = Some (Ok tt, a') /\ extended bl bl' extra lo /\ alloc_wf a' bl' /\
    resized a a' (r_len (a_region a) + extra) lo.
Proof.
  intros Hwf He He8 Hsp. unfold Allocator_extend, ALIGN, BLOCK_HEADER. pose proof (aw_base _ _ Hwf) as [Hb0 _].
  pose proof (aw_len _ _ Hwf) as Hlen. pose proof (aw_blocks _ _ Hwf) as Hok. pose proof (total_nonneg bl Hok) as [Ht0 Ht8].
  rewrite He8. destruct (Z.ltb_spec extra 24) as [|_]; [lia|]. cbn [orb negb Z.eqb].
  destruct (checked_add (r_len (a_region a)) extra) as [grown|] eqn:Eg;
    [apply checked_add_Some in Eg as [-> _]|apply checked_add_None in Eg; unfold u64_max in Eg; lia].
  destruct (last_spec a bl Hwf) as (res & -> & Hlast). cbn [mbind option_bind].
  assert (Hnew : joins bl [mkBlk extra None] -> exists a' bl' lo,
    Some (if negb (total bl mod 8 =? 0) ||
        match checked_add (total bl) 24 with Some e => r_len (a_region a) + extra <? e | None => true end
      then (Err ARegion, a)
      else Allocator_write (set_region a (Arena_grow (a_region a) extra)) (total bl) (mkHeader extra (prev_size 0 bl) 0)) =
    Some (Ok tt, a') /\ extended bl bl' extra lo /\ alloc_wf a' bl' /\ resized a a' (r_len (a_region a) + extra) lo).
  { intros Hj. rewrite extend_fits by (done || lia).
    destruct (grow_write a bl bl [] extra extra Hwf) as (a' & -> & Hwf' & Hres); try done; try lia;
      [by rewrite app_nil_r|].
    exists a', (bl ++ [mkBlk extra None]), (total bl). split; [done|]. split; [|done].
    exists bl, [], extra. rewrite app_nil_r. done. }
  destruct res as [[off h]|]; cbn [last_of] in Hlast.
  - destruct Hlast as (p & b & Heq & -> & ->). rewrite Heq, Forall_app in Hok. destruct Hok as [Hp Hb].
    apply Forall_cons_1 in Hb as [Hb _]. rewrite header_free by done. pose proof (bl_size _ Hb) as Hs.
    pose proof (total_nonneg p Hp) as [Hp0 Hp8]. rewrite Heq, total_app, total_cons in Hlen. change (total []) with 0 in Hlen.
    destruct (bool_decide_reflect (blk_free b)) as [Hf|Hnf].
    + cbn [hd_size hd_prev hd_state header_of].
      destruct (checked_add (b_size b) extra) as [sz|] eqn:Es;
        [apply checked_add_Some in Es as [-> _]|apply checked_add_None in Es; unfold u64_max in Es; lia].
      cbn [ok_or]. rewrite extend_fits by (done || lia).
      unfold state_word. unfold blk_free in Hf. rewrite Hf.
      destruct (grow_write a bl p [b] (b_size b + extra) extra Hwf) as (a' & -> & Hwf' & Hres); try done; try lia.
      * by repeat constructor.
      * apply (joins_replace p b); [|done]. rewrite <- Heq. apply (aw_merged _ _ Hwf).
      * by rewrite Z.add_mod, (bl_align _ Hb), He8 by lia.
      * exists a', (p ++ [mkBlk (b_size b + extra) None]), (total p). split; [done|]. split; [|done].
        exists p, [b], (b_size b + extra). split; [done|]. split; [done|]. split; [done|].
        split; [by repeat constructor|]. rewrite total_cons. change (total []) with 0. lia.
    + rewrite (aw_len _ _ Hwf) in Hnew |- *. replace (hd_size (header_of (prev_size 0 p) b)) with (prev_size 0 bl);
        [apply Hnew|rewrite Heq; unfold prev_size; by rewrite last_snoc]. rewrite Heq. by apply joins_last.
  - subst bl. rewrite (aw_len _ _ Hwf) in Hnew |- *. apply Hnew. by intros x y Hx.
Qed.

(** [len] cuts only the trailing free block and leaves it empty or headed. *)
Definition cuts_tail (bl pre : list blk) (s len : Z) : Prop :=
  bl = pre ++ [mkBlk s None] /\ (len = total pre \/ total pre + 24 <= len) /\ len <= total pre + s.

Definition truncate_contract (a : Allocator) (bl : list blk) (len : Z)
    (res : option (outcome AllocError unit * Allocator)) : Prop :=
  match res with
  | Some (Ok _, a') => len mod 8 = 0 /\
      ((len = r_len (a_region a) /\ a' = a) \/
       exists pre s, cuts_tail bl pre s len /\ alloc_wf a' (pre ++ free_if (len - total pre)) /\ resized a a' len (total pre))
  | Some (Err e, a') => a' = a /\ e = ARegion /\ len <> r_len (a_region a) /\
      forall pre s, len mod 8 = 0 -> ~ cuts_tail bl pre s len
  | _ => False
  end.

Lemma shrink_wf a bl pre b len m :
  alloc_wf a bl -> bl = pre ++ [b] -> blk_free b -> len mod 8 = 0 ->
  (len = total pre \/ total pre + 24 <= len) -> len <= total bl ->
  (forall o, o < total pre -> m o = r_mem (a_region a) o) ->
  (total pre + 24 <= len -> m (total pre) = len - total pre /\ m (total pre + 8) = prev_size 0 pre /\ m (total pre + 16) = 0) ->
  let a' := set_region a (mkArena (r_base (a_region a)) len m) in
  alloc_wf a' (pre ++ free_if (len - total pre)) /\ resized a a' len (total pre).
Proof.
  intros Hwf Heq Hf H8 Hlen Hmax Hm Hh a'.
  destruct (wf_split a bl Hwf pre [b] Heq) as (Hp & _ & H0 & Hp8 & Hsum & _ & _ & _).
  assert (Hr8 : (len - total pre) mod 8 = 0) by (by rewrite Zminus_mod, H8, Hp8).
  destruct (free_if_ok (len - total pre) ltac:(lia) Hr8) as (F1 & F2 & F3).
  assert (Hres : resized a a' len (total pre)) by (do 5 (split; [done|]); done).
  assert (Ht : total (pre ++ free_if (len - total pre)) = len) by (rewrite total_app, F2; lia).
  pose proof (aw_space _ _ Hwf). pose proof (aw_len _ _ Hwf).
  split; [|done]. apply (tail_wf a bl Hwf a' pre [b]); rewrite ?Ht; try done; try lia.
  - by repeat constructor.
  - apply list.Forall_forall. intros c Hc. by apply free_if_free in Hc.
  - unfold free_if. case_match; simpl; lia.
  - unfold free_if. case_match; [by intros x y _ [=]|].
    apply (joins_replace pre b); [|done]. rewrite <- Heq. apply (aw_merged _ _ Hwf).
  - unfold free_if. destruct (Z.eqb_spec (len - total pre) 0); cbn [tiled b_size a' set_region a_region r_mem]; [lia|].
    destruct Hh as (-> & -> & ->); [lia|]. split; [done|]. split; [done|]. split; [done|]. lia.
Qed.

Lemma truncate_correct a bl len :
  alloc_wf a bl -> 0 <= len -> truncate_contract a bl len (Allocator_truncate a len).
Proof.
  intros Hwf H0. unfold Allocator_truncate, ALIGN, BLOCK_HEADER. pose proof (aw_len _ _ Hwf) as Hl.
  destruct (Z.eqb_spec (len mod 8) 0) as [H8|H8]; cbn [negb].
  2:{ split; [done|]. split; [done|]. split; [|done]. intros ->. apply H8. rewrite Hl. by apply total_nonneg, (aw_blocks _ _ Hwf). }
  destruct (Z.eqb_spec len (r_len (a_region a))) as [Heq|Hne]; [split; [done|]; by left|].
  destruct (last_spec a bl Hwf) as (res & -> & Hlast). cbn [mbind option_bind].
  destruct res as [[off h]|]; cbn [last_of] in Hlast.
  2:{ do 3 (split; [done|]). subst bl. intros pre s _ (Hbl & _). by destruct pre. }
  destruct Hlast as (p & b & Heq & -> & ->). pose proof (aw_blocks _ _ Hwf) as Hok. rewrite Heq, Forall_app in Hok.
  destruct Hok as [Hp Hb]. apply Forall_cons_1 in Hb as [Hb _]. rewrite header_free by done.
  destruct (wf_split a bl Hwf p [b] Heq) as (_ & _ & Hp0 & Hp8 & Hsum & Hmax & _ & _).
  rewrite total_cons in Hsum. change (total []) with 0 in Hsum. pose proof (bl_size _ Hb) as Hs.
  assert (Hrefuse : ~ (blk_free b /\ (len = total p \/ total p + 24 <= len) /\ len <= total p + b_size b) ->
    truncate_contract a bl len (Some (Err ARegion, a))).
  { intros Hno. do 3 (split; [done|]). intros pre s _ (Hbl & Hcut & Hle). rewrite Heq in Hbl.
    apply app_inj_tail in Hbl as [-> ->]. apply Hno. done. }
  destruct (Z.ltb_spec (r_len (a_region a)) len) as [Hbig|Hsmall]; cbn [orb]; [apply Hrefuse; lia|].
  destruct (bool_decide_reflect (blk_free b)) as [Hf|Hnf]; cbn [negb orb]; [|apply Hrefuse; tauto].
  destruct (Z.ltb_spec len (total p)) as [Hlow|Hhigh]; [apply Hrefuse; lia|].
  assert (Hb' : b = mkBlk (b_size b) None) by (destruct b as [s u]; unfold blk_free in Hf; simpl in *; by subst u).
  destruct (Z.eqb_spec (len - total p) 0) as [Hz|Hnz]; cbn [negb andb].
  - unfold Arena_shrink. destruct (Z.ltb_spec (r_len (a_region a)) len) as [|_]; [lia|]. cbn [negb truncate_contract].
    split; [done|]. right. exists p, (b_size b). split; [split; [by rewrite <- Hb'|lia]|].
    apply (shrink_wf a bl p b); try done; try lia.
  - destruct (Z.ltb_spec (len - total p) 24) as [Hbad|Hok]; [apply Hrefuse; lia|].
    rewrite write_ok by (done || lia). unfold Arena_shrink.
    cbn [with_mem set_region a_region r_len r_base r_mem hd_prev hd_state header_of].
    destruct (Z.ltb_spec (r_len (a_region a)) len) as [|_]; [lia|]. cbn [negb truncate_contract].
    split; [done|]. right. exists p, (b_size b). split; [split; [by rewrite <- Hb'|lia]|].
    apply (shrink_wf a bl p b); try done; try lia.
    + intros o Ho. apply put_other. lia.
    + intros _. rewrite put_size, put_prev, put_state. unfold state_word. unfold blk_free in Hf. by rewrite Hf.
Qed.

(** ** The shrink target *)
Lemma next_multiple_spec x m t :
  0 < m -> 0 <= x -> checked_next_multiple_of x m = Some t -> x <= t < x + m /\ t mod m = 0.
Proof.
  intros Hm Hx. unfold checked_next_multiple_of. destruct (Z.eqb_spec m 0) as [|_]; [lia|].
  pose proof (Z.mod_pos_bound x m Hm). pose proof (Z.div_mod x m ltac:(lia)).
  destruct (Z.eqb_spec (x mod m) 0) as [Hz|Hz]; [intros [= <-]; split; [lia|done]|].
  intros [-> _]%checked_add_Some. split; [lia|].
  replace (x + (m - x mod m)) with ((x / m + 1) * m) by lia. apply Z.mod_mul. lia.
Qed.

(** Two multiples of [m] less than [m] apart are equal. *)
Lemma multiples_apart x y m : 0 < m -> x mod m = 0 -> y mod m = 0 -> x - m < y < x + m -> x = y.
Proof. intros Hm Hx%Z.div_exact Hy%Z.div_exact H; [|lia|lia]. assert (x / m = y / m) by nia. lia. Qed.

Lemma power_of_two_multiple g x :
  is_power_of_two g = true -> 0 <= g -> x mod 8 = 0 -> x mod g = 0 \/ (0 < g /\ (8 | g)).
Proof.
  intros Hg H0 Hx. apply is_power_of_two_spec in Hg as (k & Hk & ->); [|done]. destruct (Z.le_gt_cases 3 k) as [H3|H3].
  - right. split; [by apply Z.pow_pos_nonneg|]. exists (2 ^ (k - 3)). replace 8 with (2 ^ 3) by done.
    rewrite <- Z.pow_add_r by lia. f_equal. lia.
  - left. apply Z.mod_divide; [lia|]. transitivity 8; [|by apply Z.mod_divide].
    exists (2 ^ (3 - k)). replace 8 with (2 ^ 3) by done. rewrite <- Z.pow_add_r by lia. f_equal. lia.
Qed.

(** What a region may be cut to, and what [truncation_target] picks. *)
Definition may_cut (a : Allocator) (bl : list blk) (len : Z) : Prop :=
  len mod 8 = 0 /\ (len = r_len (a_region a) \/ exists pre s, cuts_tail bl pre s len).

Lemma truncation_target_least a bl g :
  alloc_wf a bl -> is_power_of_two g = true -> 0 <= g <= 2 ^ 62 ->
  exists t, truncation_target a g = Some t /\ may_cut a bl t /\ (t = r_len (a_region a) \/ t mod g = 0) /\
    forall m, m mod g = 0 -> may_cut a bl m -> t <= m.
Proof.
  intros Hwf Hg Hgb. unfold truncation_target. rewrite Hg. cbn [negb]. pose proof (aw_len _ _ Hwf) as Hl.
  pose proof (total_nonneg bl (aw_blocks _ _ Hwf)) as [Ht0 Ht8].
  destruct (last_spec a bl Hwf) as (res & -> & Hlast). cbn [mbind option_bind].
  assert (Hall : (forall m pre s, m mod g = 0 -> m mod 8 = 0 -> cuts_tail bl pre s m -> r_len (a_region a) <= m) ->
    exists t, Some (r_len (a_region a)) = Some t /\ may_cut a bl t /\ (t = r_len (a_region a) \/ t mod g = 0) /\
      forall m, m mod g = 0 -> may_cut a bl m -> t <= m).
  { intros Hno. exists (r_len (a_region a)). split; [done|]. split; [split; [by rewrite Hl|by left]|]. split; [by left|].
    intros m Hm [Hm8 [->|(pre & s & Hc)]]; [lia|by eapply Hno]. }
  destruct res as [[off h]|]; cbn [last_of] in Hlast.
  2:{ apply Hall. intros m pre s _ _ (Hbl & _). subst bl. by destruct pre. }
  destruct Hlast as (p & b & Heq & -> & ->). pose proof (aw_blocks _ _ Hwf) as Hok. rewrite Heq, Forall_app in Hok.
  destruct Hok as [Hp Hb]. apply Forall_cons_1 in Hb as [Hb _]. rewrite header_free by done.
  assert (Hcut : forall m pre s, cuts_tail bl pre s m -> pre = p /\ b = mkBlk s None).
  { intros m pre s (Hbl & _). rewrite Heq in Hbl. by apply app_inj_tail in Hbl as [-> ->]. }
  destruct (bool_decide_reflect (blk_free b)) as [Hf|Hnf]; cbn [negb].
  2:{ apply Hall. intros m pre s _ _ Hc. apply Hcut in Hc as [_ ->]. by destruct Hnf. }
  destruct (wf_split a bl Hwf p [b] Heq) as (_ & _ & Hp0 & Hp8 & Hsum & Hmax & _ & _).
  rewrite total_cons in Hsum. change (total []) with 0 in Hsum. pose proof (bl_size _ Hb) as Hs.
  assert (Hb' : b = mkBlk (b_size b) None) by (destruct b as [s u]; unfold blk_free in Hf; simpl in *; by subst u).
  assert (Hown : forall len, (len = total p \/ total p + 24 <= len) -> len <= total p + b_size b -> cuts_tail bl p (b_size b) len)
    by (intros len H1 H2; split; [by rewrite <- Hb'|done]).
  destruct (Z.eqb_spec (total p mod g) 0) as [Hz|Hnz].
  - destruct (Z.leb_spec (r_len (a_region a)) (total p)) as [|_]; [lia|]. exists (total p). split; [done|].
    split; [split; [done|]; right; exists p, (b_size b); apply Hown; lia|]. split; [by right|].
    intros m _ [_ [->|(pre & s & Hc)]]; [lia|]. destruct (Hcut _ _ _ Hc) as [-> _]. destruct Hc as (_ & Hc & _). lia.
  - destruct (power_of_two_multiple g (total p) Hg ltac:(lia) Hp8) as [|[Hg0 Hg8]]; [done|]. unfold BLOCK_HEADER. in_range.
    assert (Hother : forall m, m mod g = 0 -> m mod 8 = 0 -> m < total p + 24 -> forall pre s, ~ cuts_tail bl pre s m).
    { intros m Hm _ Hlt pre s Hc. destruct (Hcut _ _ _ Hc) as [-> _]. destruct Hc as (_ & [->|Hc] & _); [done|lia]. }
    destruct (checked_next_multiple_of (total p + 24) g) as [t|] eqn:Et.
    2:{ exfalso. unfold checked_next_multiple_of in Et. destruct (Z.eqb_spec g 0); [lia|]. case_match; [done|].
        pose proof (Z.mod_pos_bound (total p + 24) g Hg0). apply checked_add_None in Et. unfold u64_max in Et. lia. }
    apply next_multiple_spec in Et as [Et Etg]; [|lia|lia].
    assert (Hlow : forall m, m mod g = 0 -> m mod 8 = 0 -> m < t -> forall pre s, ~ cuts_tail bl pre s m).
    { intros m Hm Hm8 Hlt. apply Hother; [done|done|]. destruct (Z.lt_ge_cases m (total p + 24)); [done|].
      assert (m = t); [|lia]. apply (multiples_apart m t g); [done|done|done|lia]. }
    destruct (Z.leb_spec (r_len (a_region a)) t) as [Hle|Hlt].
    + apply Hall. intros m pre s Hm Hm8 Hc. destruct (Z.le_gt_cases (r_len (a_region a)) m); [done|].
      exfalso. eapply Hlow; [exact Hm|exact Hm8| |exact Hc]. lia.
    + exists t. split; [done|].
      assert (Ht8' : t mod 8 = 0) by (apply Z.mod_divide; [lia|]; transitivity g; [done|]; apply Z.mod_divide; [lia|done]).
      split; [split; [done|]; right; exists p, (b_size b); apply Hown; lia|]. split; [by right|].
      intros m Hm [Hm8 [->|(pre & s & Hc)]]; [lia|]. destruct (Z.le_gt_cases t m); [done|].
      exfalso. by eapply Hlow.
Qed.

(** ** The client's view *)
Definition heap_ok (a : Allocator) (bl : list blk) : Prop := alloc_wf a bl /\ distinct_generations bl.


(** Used blocks of a carved layout are the old ones and the new one. *)
Lemma carved_used pre post gap block rest gen x c g :
  (gap = 0 \/ 24 <= gap) -> gap mod 8 = 0 ->
  block_at 0 (pre ++ carved gap block rest gen ++ post) x c -> b_use c = Some g ->
  block_at 0 pre x c \/ block_at (total pre + total (carved gap block rest gen)) post x c \/
  (x = total pre + gap /\ c = mkBlk block (Some gen)).
Proof.
  intros Hg Hg8 Hx Hu. rewrite !block_at_app, Z.add_0_l in Hx. destruct Hx as [Hx|[Hx|Hx]]; [auto| |auto].
  assert (Hfree : forall s off, ~ block_at off (free_if s) x c).
  { intros s off (u & v & Hs & _)%block_at_split. assert (Hc : c ∈ free_if s) by (rewrite Hs, elem_of_app, elem_of_cons; auto).
    apply free_if_free in Hc. unfold blk_free in Hc. congruence. }
  unfold carved in Hx. rewrite block_at_app in Hx. cbn [block_at] in Hx.
  destruct Hx as [Hx|[[-> ->]|Hx]]; [by apply Hfree in Hx| |by apply Hfree in Hx].
  right. right. destruct (free_if_ok gap Hg Hg8) as (_ & -> & _). done.
Qed.

Lemma allocated_distinct a a' bl pre b post gap need size r :
  alloc_wf a bl -> distinct_generations bl -> bl = pre ++ b :: post -> (gap = 0 \/ 24 <= gap) ->
  allocated_in a a' pre post b gap need size r -> distinct_generations (allocated_layout a pre post b gap need).
Proof.
  intros Hwf Hdist Heq Hg Hal x y c d g Hx Hy Hc Hd.
  assert (Hold : forall z e, block_at 0 (allocated_layout a pre post b gap need) z e -> b_use e = Some g ->
    block_at 0 bl z e \/ (z = total pre + gap /\ g = a_generation a)).
  { intros z e Hz Hu. apply carved_used with (g := g) in Hz; [|done|by eapply allocated_gap|done].
    erewrite allocated_fills in Hz; [|done|done]. rewrite Heq, block_at_app, Z.add_0_l. cbn [block_at].
    destruct Hz as [Hz|[Hz|[-> ->]]]; [by left; left|by left; right; right|right]. simpl in Hu. by simplify_eq. }
  destruct (Hold x c Hx Hc) as [Hx'|[-> ->]], (Hold y d Hy Hd) as [Hy'|[Hy' E]]; [by eapply Hdist| | |done].
  - subst g. by destruct (generation_fresh a bl x c Hwf Hx').
  - by destruct (generation_fresh a bl y d Hwf Hy').
Qed.


(** ** Allocating and releasing restores the layout *)
Lemma split_unique p b q p' b' q' :
  Forall blk_ok (p ++ b :: q) -> p ++ b :: q = p' ++ b' :: q' -> total p = total p' -> p = p' /\ b = b' /\ q = q'.
Proof.
  intros Hok. revert p' Hok. induction p as [|x p IH]; intros [|y p'] Hok Heq Ht; cbn [app] in *; simplify_eq.
  - done.
  - apply Forall_cons_1 in Hok as [Hy Hok]. apply Forall_app in Hok as [Hok _]. rewrite total_cons in Ht.
    change (total []) with 0 in Ht. pose proof (total_nonneg p' Hok). pose proof (bl_size _ Hy). lia.
  - apply Forall_cons_1 in Hok as [Hy Hok]. apply Forall_app in Hok as [Hok _]. rewrite total_cons in Ht.
    change (total []) with 0 in Ht. pose proof (total_nonneg p Hok). pose proof (bl_size _ Hy). lia.
  - apply Forall_cons_1 in Hok as [_ Hok]. rewrite !total_cons in Ht.
    destruct (IH p' Hok) as (-> & -> & ->); [done|lia|done].
Qed.

Definition last_used (l : list blk) : Prop := forall c, list.last l = Some c -> ~ blk_free c.
Definition head_used (l : list blk) : Prop := forall c, head l = Some c -> ~ blk_free c.

Lemma free_suffix_unique u v u' v' :
  u ++ v = u' ++ v' -> (length v <= 1)%nat -> (length v' <= 1)%nat -> Forall blk_free v -> Forall blk_free v' ->
  last_used u -> last_used u' -> u = u' /\ v = v'.
Proof.
  intros Heq Hl Hl' Hf Hf' Hu Hu'.
  destruct v as [|x [|]]; [| |simpl in Hl; lia]; (destruct v' as [|y [|]]; [| |simpl in Hl'; lia]); rewrite ?app_nil_r in Heq.
  - done.
  - apply Forall_cons_1 in Hf' as [Hy _]. subst u. destruct (Hu y); [apply last_snoc|done].
  - apply Forall_cons_1 in Hf as [Hx _]. subst u'. destruct (Hu' x); [apply last_snoc|done].
  - by apply app_inj_tail in Heq as [-> ->].
Qed.

Lemma free_prefix_unique u v u' v' :
  v ++ u = v' ++ u' -> (length v <= 1)%nat -> (length v' <= 1)%nat -> Forall blk_free v -> Forall blk_free v' ->
  head_used u -> head_used u' -> u = u' /\ v = v'.
Proof.
  intros Heq Hl Hl' Hf Hf' Hu Hu'.
  destruct v as [|x [|]]; [| |simpl in Hl; lia]; (destruct v' as [|y [|]]; [| |simpl in Hl'; lia]); simplify_eq/=.
  - done.
  - apply Forall_cons_1 in Hf' as [Hy _]. by destruct (Hu y).
  - apply Forall_cons_1 in Hf as [Hx _]. by destruct (Hu' x).
  - done.
Qed.

(** Around a free block nothing is free. *)
Lemma free_block_alone pre b post : no_free_pair (pre ++ b :: post) -> blk_free b -> last_used pre /\ head_used post.
Proof.
  intros (_ & H & Hj)%no_free_pair_app Hb. split; [intros c Hc Hf; by apply (Hj c b)|].
  intros c Hc Hf. change (b :: post) with ([b] ++ post) in H. apply no_free_pair_app in H as (_ & _ & H). by apply (H b c).
Qed.

Lemma free_if_run g : (length (free_if g) <= 1)%nat /\ Forall blk_free (free_if g).
Proof. unfold free_if. case_match; split; simpl; try lia; by repeat constructor. Qed.

Lemma alloc_free_restores a bl size align r a' :
  heap_ok a bl -> 0 <= size <= 2 ^ 64 - 2 ^ 14 -> 0 <= align -> a_generation a + 1 < 2 ^ 63 ->
  Allocator_alloc a size align = Some (Ok r, a') ->
  exists a'', Allocator_free a' r = Some (Ok tt, a'') /\ heap_ok a'' bl.
Proof.
  intros [Hwf Hdist] Hsize Hal Hgen Ea. pose proof (alloc_correct a bl size align Hwf Hsize Hal Hgen) as Hc.
  rewrite Ea in Hc. destruct Hc as (pre & b & post & gap & need & Heq & Hfree & [Hr _] & [(Hg0 & Hg & Hgm) Hfit] & Hall & _).
  assert (Hsz : size <> 0). { intros ->. by rewrite (eq_refl : Allocator_alloc a 0 align = Some (Err ARequest, a)) in Ea. }
  pose proof (allocated_distinct _ _ bl _ _ _ _ _ _ _ Hwf Hdist Heq Hg Hall) as Hdist'.
  pose proof (allocated_fills _ _ _ _ _ _ _ _ _ Hg Hall) as Hfill.
  pose proof (allocated_gap _ _ _ _ _ _ _ _ _ Hg Hall) as Hg8.
  pose proof Hall as (Hr' & Hblock & Hrest & Hwf' & Hbase & _). fold (allocated_layout a pre post b gap need) in Hwf'.
  pose proof (free_correct a' _ r Hwf' Hdist' ltac:(rewrite Hr'; simpl; lia)) as Hfc.
  set (block := place_block need gap b) in *. set (rest := b_size b - gap - block) in *.
  assert (Hlay : allocated_layout a pre post b gap need =
    (pre ++ free_if gap) ++ mkBlk block (Some (a_generation a)) :: free_if rest ++ post).
  { unfold allocated_layout, carved. by rewrite <- !app_assoc. }
  destruct (free_if_ok gap Hg Hg8) as (_ & Htg & _).
  assert (Hnames : names a' r (pre ++ free_if gap) (mkBlk block (Some (a_generation a)))).
  { rewrite Hr'. unfold names. cbn [ab_address ab_size ab_generation b_size b_use]. rewrite total_app, Htg, Hbase. split; [lia|]. split; [lia|done]. }
  destruct (Allocator_free a' r) as [[[[]|e|] a'']|]; [|destruct Hfc as (_ & _ & Hno); by destruct (Hno _ _ _ Hlay)|done|done].
  exists a''. split; [done|]. destruct Hfc as (pre1 & b1 & post1 & _ & Heq1 & (N1 & _ & _) & Hrel & _).
  destruct Hnames as (N2 & _ & _).
  destruct (split_unique pre1 b1 post1 (pre ++ free_if gap) (mkBlk block (Some (a_generation a))) (free_if rest ++ post))
    as (-> & -> & ->); [rewrite <- Heq1; apply (aw_blocks _ _ Hwf')|by rewrite <- Heq1|lia|].
  destruct Hrel as (pre0 & p & n & post0 & E1 & E2 & F1 & F2 & L1 & L2 & Hwf'' & _).
  pose proof (aw_merged _ _ Hwf) as Hm. rewrite Heq in Hm. destruct (free_block_alone _ _ _ Hm Hfree) as [U1 U2].
  destruct (free_block_alone _ _ _ (aw_merged _ _ Hwf'') eq_refl) as [U3 U4].
  destruct (free_if_run gap) as [G1 G2]. destruct (free_if_run rest) as [R1 R2].
  destruct (free_suffix_unique _ _ _ _ E1 G1 L1 G2 F1 U1 U3) as [<- <-].
  destruct (free_prefix_unique _ _ _ _ E2 R1 L2 R2 F2 U2 U4) as [<- <-].
  assert (Hmb : mkBlk (total (free_if gap) + block + total (free_if rest)) None = b).
  { unfold carved in Hfill. rewrite total_app, total_cons in Hfill. cbn [b_size] in Hfill.
    destruct b as [s u]. unfold blk_free in Hfree. simpl in Hfree. subst u. f_equal. simpl in Hfill. lia. }
  cbn [b_size] in Hwf''. rewrite Hmb, <- Heq in Hwf''. done.
Qed.




Lemma initialise_wf r a :
  0 <= r_base r -> r_base r mod 8 = 0 -> r_len r mod 8 = 0 -> r_base r + r_len r <= 2 ^ 62 ->
  Allocator_initialise r = Ok a -> heap_ok a [mkBlk (r_len r) None] /\ a_generation a = 1.
Proof.
  intros H0 H8 Hl8 Hs. unfold Allocator_initialise, BLOCK_HEADER. destruct (Z.ltb_spec (r_len r) 24) as [|Hlen]; [done|].
  pose proof (write_ok (mkAllocator r 0 0 0 1) 0 (mkHeader (r_len r) 0 (tag 0 FREE)) ltac:(done) ltac:(done)) as Hw.
  cbn [a_region] in Hw. specialize (Hw Hlen ltac:(lia)). unfold Allocator_write in Hw. cbn [a_region] in Hw.
  destruct (Arena_set_header r 0 (mkHeader (r_len r) 0 (tag 0 FREE))) as [[] r'] eqn:Er; [|done]. intros [= <-].
  cbn [negb] in *. injection Hw as ->.
  split; [split|done].
  - split; cbn [a_region r_base r_len r_mem a_used a_live a_generation]; try done.
    + by change (total [mkBlk (r_len r) None]) with (r_len r + 0); rewrite Z.add_0_r.
    + constructor; [|constructor]. split; [done|done|done].
    + cbn [tiled]. rewrite put_size, put_prev, put_state. do 3 (split; [done|]). change (total [mkBlk (r_len r) None]) with (r_len r + 0).
      cbn [b_size]. lia.
    + intros b g Hb. rewrite list_elem_of_singleton in Hb. by subst b.
  - intros x y c d g Hx _ Hc _. destruct Hx as [[_ ->]|[]]. done.
Qed.

Lemma same_used_distinct bl bl' :
  distinct_generations bl -> (forall x c g, block_at 0 bl' x c -> b_use c = Some g -> block_at 0 bl x c) ->
  distinct_generations bl'.
Proof. intros Hd Hs x y c d g Hx Hy Hc Hdd. eapply Hd; eauto. Qed.

Lemma tail_used pre tl tl' x c g :
  Forall blk_free tl' -> block_at 0 (pre ++ tl') x c -> b_use c = Some g -> block_at 0 (pre ++ tl) x c.
Proof.
  intros Hf Hx Hu. rewrite block_at_app in Hx. rewrite block_at_app.
  destruct Hx as [Hx|(u & v & -> & _)%block_at_split]; [by left|].
  apply Forall_app in Hf as [_ Hf]. apply Forall_cons_1 in Hf as [Hf _]. unfold blk_free in Hf. congruence.
Qed.






(** ** Claims *)
(** An example region of 256 bytes, and the heap over it. *)
Definition sample_arena : Arena := mkArena 4096 256 (fun _ => 0).
Definition sample_heap : Allocator := mkAllocator
  (mkArena 4096 256 (put (fun _ => 0) 0 (mkHeader 256 0 0))) 0 0 0 1.

Lemma sample_heap_ok : heap_ok sample_heap [mkBlk 256 None].
Proof. by apply (initialise_wf sample_arena sample_heap). Qed.


(** [free] accepts exactly the handles of live blocks (address, size and
    generation), removes that block alone, merges it with free neighbours, keeps every other live
    block with its payload, and afterwards no block carries the handle's generation; any other
    handle is refused as [Unowned] or [DoubleFree] with the allocator unchanged. *)
Theorem heap_free_correct a bl r :
  heap_ok a bl -> 0 < ab_size r -> free_contract a bl r (Allocator_free a r).
Proof. intros [Hwf Hd]. by apply free_correct. Qed.
Lemma heap_free_correct_witness :
  free_contract sample_heap [mkBlk 256 None] (mkAllocBlock 4120 8 1)
    (Allocator_free sample_heap (mkAllocBlock 4120 8 1)).
Proof. apply heap_free_correct; [apply sample_heap_ok|done]. Defined.

(** releasing the block just allocated always succeeds and restores
    the layout, padding and remainder merged back. *)
Theorem heap_alloc_free_roundtrip a bl size align r a' :
  heap_ok a bl -> 0 <= size <= 2 ^ 64 - 2 ^ 14 -> 0 <= align -> a_generation a + 1 < 2 ^ 63 ->
  Allocator_alloc a size align = Some (Ok r, a') ->
  exists a'', Allocator_free a' r = Some (Ok tt, a'') /\ heap_ok a'' bl.
Proof. apply alloc_free_restores. Qed.
Lemma heap_alloc_free_roundtrip_witness :
  exists a'', Allocator_free (match Allocator_alloc sample_heap 40 64 with Some (_, x) => x | None => sample_heap end)
    (mkAllocBlock 4160 40 1) = Some (Ok tt, a'') /\ heap_ok a'' [mkBlk 256 None].
Proof.
  apply (heap_alloc_free_roundtrip sample_heap [mkBlk 256 None] 40 64); [apply sample_heap_ok|lia|lia|simpl; lia|reflexivity].
Defined.


(** for a power-of-two granularity [truncation_target] is a
    length [truncate] accepts (the region keeps its live blocks, only the trailing free run shrinks),
    a multiple of the granularity unless it is the current length, and no smaller multiple is one a
    cut of the trailing free run could reach. *)
Theorem heap_truncation_target_is_least a bl g :
  heap_ok a bl -> is_power_of_two g = true -> 0 <= g <= 2 ^ 62 ->
  exists t a', truncation_target a g = Some t /\ Allocator_truncate a t = Some (Ok tt, a') /\
    truncate_contract a bl t (Some (Ok tt, a')) /\ (t = r_len (a_region a) \/ t mod g = 0) /\
    forall m, 0 <= m < t -> m mod g = 0 -> Allocator_truncate a m = Some (Err ARegion, a).
Proof.
  intros [Hwf _] Hg Hgb. destruct (truncation_target_least a bl g Hwf Hg Hgb) as (t & Ht & Hcut & Hmul & Hleast).
  assert (H0 : 0 <= t).
  { destruct Hcut as [_ [->|(pre & s & (Heq & Hc & _))]]; pose proof (aw_blocks _ _ Hwf) as Hok.
    - rewrite (aw_len _ _ Hwf). by apply total_nonneg.
    - rewrite Heq, Forall_app in Hok. destruct Hok as [Hok _]. apply total_nonneg in Hok. lia. }
  pose proof (truncate_correct a bl t Hwf H0) as Hc.
  destruct (Allocator_truncate a t) as [[[[]|e|] a']|] eqn:Et; [| |done|done].
  2:{ destruct Hc as (_ & _ & Hne & Hno), Hcut as [Ht8 [->|(pre & s & Hc)]]; [done|]. by destruct (Hno pre s). }
  exists t, a'. do 2 (split; [done|]). split; [exact Hc|]. split; [exact Hmul|]. intros m Hm Hmg. pose proof (truncate_correct a bl m Hwf ltac:(lia)) as Hcm.
  destruct (Allocator_truncate a m) as [[[[]|e|] a2]|]; [|by destruct Hcm as (-> & -> & _)|done|done].
  exfalso. destruct Hcm as [Hm8 Hcm]. assert (t <= m); [|lia]. apply Hleast; [done|]. split; [done|].
  destruct Hcm as [[-> _]|(pre & s & Hcut' & _)]; [by left|right; eauto].
Qed.
Lemma heap_truncation_target_is_least_witness :
  exists t a', truncation_target sample_heap 64 = Some t /\ Allocator_truncate sample_heap t = Some (Ok tt, a') /\
    truncate_contract sample_heap [mkBlk 256 None] t (Some (Ok tt, a')) /\ (t = 256 \/ t mod 64 = 0) /\
    forall m, 0 <= m < t -> m mod 64 = 0 -> Allocator_truncate sample_heap m = Some (Err ARegion, sample_heap).
Proof. apply (heap_truncation_target_is_least sample_heap); [apply sample_heap_ok|reflexivity|lia]. Defined.

(** [extend] by a valid amount always succeeds: the trailing free block
    grows or a new free block follows, nothing below it is written, and live blocks are kept. *)
Theorem heap_extend_correct a bl extra :
  heap_ok a bl -> 24 <= extra -> extra mod 8 = 0 -> r_base (a_region a) + r_len (a_region a) + extra <= 2 ^ 62 ->
  exists a' bl' lo, Allocator_extend a extra = Some (Ok tt, a') /\ extended bl bl' extra lo /\ heap_ok a' bl' /\
    resized a a' (r_len (a_region a) + extra) lo /\ keeps_live a a' bl bl' None.
Proof.
  intros [Hwf Hd] He He8 Hsp. destruct (extend_ok a bl extra Hwf He He8 Hsp) as (a' & bl' & lo & E & Hext & Hwf' & Hres).
  exists a', bl', lo. split; [done|]. split; [done|]. destruct Hext as (pre & tl & s & Heq & -> & -> & Hf & _). split; [split|split]; [done| |done|].
  - eapply same_used_distinct; [exact Hd|]. rewrite Heq. intros x c g. apply tail_used. by repeat constructor.
  - rewrite Heq. eapply tail_keeps_live; [|done|done]. pose proof (aw_blocks _ _ Hwf) as Hok. rewrite Heq, Forall_app in Hok. by destruct Hok.
Qed.
Lemma heap_extend_correct_witness :
  exists a' bl' lo, Allocator_extend sample_heap 4096 = Some (Ok tt, a') /\ extended [mkBlk 256 None] bl' 4096 lo /\ heap_ok a' bl' /\
    resized sample_heap a' 4352 lo /\ keeps_live sample_heap a' [mkBlk 256 None] bl' None.
Proof. apply (heap_extend_correct sample_heap); [apply sample_heap_ok|lia|done|simpl; lia]. Defined.

