(* ===== verification/FsDisk.v ===== *)
(** * The volume store: errors, checksum, sector layout and the disk contract

    crates/fs/src/lib.rs (the error type and the bounds of the first volume
    format), checksum.rs, storage.rs and storage/poll.rs, publication/command.rs.

    [Disk] and [PollDisk] are the source's traits.  [DiskLaws] is what is
    assumed of a disk: a read returns what the last writes left, a successful
    flush makes everything accepted before it durable, and an error is not a
    rollback (storage.rs).  [may_survive d n b] says that [b] may be found in
    sector [n] if the machine stops in state [d]; each sector is found on its
    own.  A sector write is NOT atomic: until a flush settles it, it may be found
    [torn], any mix of the bytes before it and its own, in every sector.  The one
    thing assumed of a tear is that the checksum shows it in the two header
    sectors ([tear_detected]), which docs/FILE-RECOVERY.md states as the purpose
    of the header checksum ("CRCs detect corruption; they are not ... a promise
    against arbitrary collisions").  [read_failure] is discussed where it is
    stated.  [Platter] is a disk with a write cache that tears sectors and a
    fault schedule; it satisfies the laws. *)
From stdpp Require Import base list option numbers gmap.
From Stdlib Require Import ZArith Lia Bool.
From S2P Require Import Prelude Bytes Codec.

Inductive FsError :=
| EIo | EUncertain | EInvalid | ECorrupt | ENotFound | EExists | ENotDirectory | EIsDirectory | ENotEmpty | EFull | ESize
| EVersion | EReadOnly | EEmpty | EExhausted | EUnsupported | ELineage | EExpiredEpoch | EOutcomeUnknown
| EIdempotencyConflict | EBusy | ECancelled.
#[export] Instance FsError_eq_dec : EqDecision FsError.
Proof. solve_decision. Defined.

Definition OBJECTS : nat := 32.
Definition MAX_FILE : nat := 1024.
Definition SECTORS : Z := 174.

(** ** checksum.rs *)
Definition CRC_POLY : Z := 0xedb88320.

(** [(value >> 1) ^ (POLY & 0u32.wrapping_sub(value & 1))]. *)
Definition crc_bit (v : Z) : Z :=
  Z.lxor (Z.shiftr v 1) (Z.land CRC_POLY ((0 - Z.land v 1) mod 2 ^ 32)).

Definition crc_byte (v b : Z) : Z := Nat.iter 8 crc_bit (Z.lxor v b).
Definition crc_update (v : Z) (bytes : list Z) : Z := foldl crc_byte v bytes.
Definition crc (bytes : list Z) : Z := unot 32 (crc_update (unot 32 0) bytes).

(** ** storage.rs: where the two generations and the payload banks live *)
Definition header_sector (bank : Z) : Z := 8 + bank * 5.
Definition data_sector (slot : nat) (bank : Z) : Z := 32 + Z.of_nat slot * 4 + bank * 2.
Definition records_sector (bank : Z) : Z := 160 + bank * 7.

(** ** The disk traits *)
Class Disk (D : Type) := {
  disk_read : D -> Z -> outcome FsError (list Z) * D;
  disk_write : D -> Z -> list Z -> outcome FsError unit * D;
  disk_flush : D -> outcome FsError unit * D;
}.

Inductive poll (A : Type) := Pending | Ready (a : A).
Arguments Pending {A}.
Arguments Ready {A} a.

Class PollDisk (D : Type) := {
  poll_write : D -> Z -> list Z -> poll (outcome FsError unit) * D;
  poll_flush : D -> poll (outcome FsError unit) * D;
}.

(** [?] on a call that changes the disk. *)
Notation "'let*' ( x , d ) ':=' m 'in' k" :=
  (match m with (Ok x, d) => k | (Err e, d) => (Err e, d) | (Panic, d) => (Panic, d) end)
  (at level 10, x pattern, d name, m at level 100, k at level 200) : rust_scope.

(** publication/command.rs *)
Inductive Command := CWrite (sector : Z) (bytes : list Z) | CFlush.

Definition Command_execute {D} `{Disk D} (c : Command) (d : D) : outcome FsError unit * D :=
  match c with CWrite n b => disk_write d n b | CFlush => disk_flush d end.

Definition Command_poll {D} `{PollDisk D} (c : Command) (d : D) : poll (outcome FsError unit) * D :=
  match c with CWrite n b => poll_write d n b | CFlush => poll_flush d end.

(** ** What a disk promises *)
Definition image := Z -> list Z.
Definition is_sector (b : list Z) : Prop := length b = 512%nat /\ bytes_ok b.
Definition image_ok (s : image) : Prop := forall n, is_sector (s n).

Class DiskView (D : Type) := {
  contents : D -> image;
  may_survive : D -> Z -> list Z -> Prop;
}.

(** [bytes: &[u8; 512]]. *)
Definition command_ok (c : Command) : Prop := match c with CWrite _ b => is_sector b | CFlush => True end.

(** The images that may be found after the machine stops in state [d]. *)
Definition survives {D} `{DiskView D} (d : D) (s : image) : Prop := forall n, may_survive d n (s n).

(** Nothing is lost or gained between the two states. *)
Definition undisturbed {D} `{DiskView D} (d d' : D) : Prop :=
  (forall n, contents d' n = contents d n) /\ (forall n b, may_survive d' n b -> may_survive d n b).

(** *** Torn sectors

    [x] mixes the bytes a sector held and the bytes written over it (storage does
    not promise more: volume6.rs, "the Disk trait does not guarantee" atomic
    sector writes). *)
Definition torn (y b x : list Z) : Prop := Forall3 (fun c c' z => z = c \/ z = c') y b x.

(** The sectors that switch from one generation to the other. *)
Definition generation_sector (n : Z) : Prop := n = header_sector 0 \/ n = header_sector 1.

(** What the header check of format.rs tests. *)
Definition checksum_fails (x : list Z) : Prop := u32_at x 28 <> crc (write x 28 (zeros 4)).

(** The checksum of a header tells a torn one. *)
Definition tear_detected (n : Z) (y b x : list Z) : Prop := generation_sector n -> x = y \/ x = b \/ checksum_fails x.

#[export] Instance generation_sector_dec n : Decision (generation_sector n).
Proof. unfold generation_sector. apply _. Defined.
#[export] Instance checksum_fails_dec x : Decision (checksum_fails x).
Proof. unfold checksum_fails. apply _. Defined.
#[export] Instance tear_detected_dec n y b x : Decision (tear_detected n y b x).
Proof. unfold tear_detected. apply _. Defined.

(** What may be found where [b] was written and not yet flushed. *)
Definition lands {D} `{DiskView D} (d : D) (n : Z) (b x : list Z) : Prop :=
  exists y, may_survive d n y /\ torn y b x /\ tear_detected n y b x.

(** The command was reported complete. *)
Definition settled {D} `{DiskView D} (c : Command) (d d' : D) : Prop :=
  match c with
  | CWrite n b => contents d' n = b /\ (forall m, m <> n -> contents d' m = contents d m) /\
                  forall m x, may_survive d' m x -> may_survive d m x \/ (m = n /\ lands d n b x)
  | CFlush => (forall n, contents d' n = contents d n) /\ (forall n x, may_survive d' n x -> x = contents d n)
  end.

(** The command failed or is outstanding: it may have taken effect, in part or in whole. *)
Definition unsettled {D} `{DiskView D} (c : Command) (d d' : D) : Prop :=
  match c with
  | CWrite n b => (forall m, m <> n -> contents d' m = contents d m) /\
                  forall m x, may_survive d' m x -> may_survive d m x \/ (m = n /\ lands d n b x)
  | CFlush => undisturbed d d'
  end.

(** [contents] and everything that may survive are sectors: [[u8; 512]]. *)
Class ViewLaws (D : Type) `{DiskView D} := {
  view_sectors : forall (d : D) n b, may_survive d n b -> is_sector b;
  view_contents : forall (d : D) n, may_survive d n (contents d n);
}.

(** [read_failure]: a failed read does not pass for a verdict on the contents.
    [Empty] and [Corrupt] are what this crate itself answers about the bytes of a
    sector, and volume.rs relies on the distinction ("A read error cannot safely
    be treated as an invalid/absent generation"); the disk of the file server
    answers only [Io] and [Uncertain] ([FsNative]). *)
Class DiskLaws (D : Type) `{Disk D} `{DiskView D} := {
  read_contents : forall (d : D) n r d', disk_read d n = (r, d') ->
    undisturbed d d' /\ match r with Ok b => b = contents d n | Err _ => True | Panic => False end;
  read_failure : forall (d : D) n e d', disk_read d n = (Err e, d') -> e <> EEmpty /\ e <> ECorrupt;
  command_law : forall (c : Command) (d : D) r d', command_ok c -> Command_execute c d = (r, d') ->
    match r with Ok _ => settled c d d' | Err _ => unsettled c d d' | Panic => False end;
}.

Lemma read_law {D} `{DiskLaws D} (d : D) n r d' : disk_read d n = (r, d') ->
  undisturbed d d' /\ match r with Ok b => b = contents d n | Err e => e <> EEmpty /\ e <> ECorrupt | Panic => False end.
Proof.
  intros E. destruct (read_contents _ _ _ _ E) as [U Hr]. split; [done|]. destruct r as [b|e|]; [done| |done]. by eapply read_failure.
Qed.

(** Submitting and polling a command: [Ready(Ok)] is settlement, [Pending] leaves it outstanding. *)
Class PollLaws (D : Type) `{PollDisk D} `{DiskView D} := {
  poll_law : forall (c : Command) (d : D) r d', command_ok c -> Command_poll c d = (r, d') ->
    match r with
    | Ready (Ok _) => settled c d d'
    | Ready (Err _) | Pending => unsettled c d d'
    | Ready Panic => False
    end;
}.

(** *** Tears *)
Lemma torn_old y b : length y = length b -> torn y b y.
Proof. revert b. induction y as [|c y IH]; intros [|c' b]; [intros _; apply Forall3_nil|done..|]. intros [= L]. apply Forall3_cons; [by left|by apply IH]. Qed.

Lemma torn_new y b : length y = length b -> torn y b b.
Proof. revert b. induction y as [|c y IH]; intros [|c' b]; [intros _; apply Forall3_nil|done..|]. intros [= L]. apply Forall3_cons; [by right|by apply IH]. Qed.

Lemma torn_prefix k y b : length y = length b -> torn y b (take k b ++ drop k y).
Proof.
  revert k b. induction y as [|c y IH]; intros [|k] [|c' b]; cbn; try done; [intros _; apply Forall3_nil|intros _; apply Forall3_nil|apply (torn_old (c :: y) (c' :: b))|].
  intros [= L]. apply Forall3_cons; [by right|by apply IH].
Qed.

Lemma torn_sector y b x : is_sector y -> is_sector b -> torn y b x -> is_sector x.
Proof.
  intros [Ly By] [_ Bb] T. split; [rewrite <- Ly; clear -T; by induction T; cbn; congruence|]. clear Ly.
  induction T as [|c c' z y b x Hz _ IH]; [constructor|]. apply list.Forall_cons in By as [? ?], Bb as [? ?].
  constructor; [by destruct Hz as [-> | ->]|by apply IH].
Qed.

Lemma lands_whole {D} `{ViewLaws D} (d : D) n b : is_sector b -> lands d n b b.
Proof.
  intros [L _]. exists (contents d n). split; [apply view_contents|]. destruct (view_sectors d n _ (view_contents d n)) as [L' _].
  split; [apply torn_new; congruence|]. intros _. by right; left.
Qed.

(** ** A disk with a write cache and a fault schedule

    [p_log] holds the writes since the last flush, newest first: the sector, the
    bytes, and how many of them a read sees (all of an accepted write, a prefix
    of a failed one, none of one that is outstanding).  Any prefix of any of them
    may be found after a stop.  Every operation takes the next entry of
    [p_faults]; an exhausted schedule means no more faults.  [Fault e k] fails a
    write after [k] bytes, and a flush after [k] of the logged writes. *)
Inductive fault := Fine | Fault (e : FsError) (k : nat) | Delay.

Record Platter := mkPlatter {
  p_stable : gmap Z (list Z);
  p_log : list (Z * list Z * nat);
  p_faults : list fault;
}.

Definition sector_of (o : option (list Z)) : list Z :=
  match o with
  | Some b => if bool_decide (length b = 512%nat) && forallb (fun x => (0 <=? x) && (x <? 256)) b then b else zeros 512
  | None => zeros 512
  end.

(** The first [k] bytes of [b] over [y]; a torn header that would pass for whole is not written at all. *)
Definition land (n : Z) (y b : list Z) (k : nat) : list Z :=
  let b := sector_of (Some b) in
  if (512 <=? k)%nat then b
  else let x := take k b ++ drop k y in if decide (tear_detected n y b x) then x else y.

(** What a read sees. *)
Fixpoint shown (st : gmap Z (list Z)) (log : list (Z * list Z * nat)) : gmap Z (list Z) :=
  match log with
  | [] => st
  | (n, b, k) :: log => let s := shown st log in <[n := land n (sector_of (s !! n)) b k]> s
  end.

(** What a stop may leave: of every logged write, any prefix over what may be left without it. *)
Fixpoint wears (st : gmap Z (list Z)) (log : list (Z * list Z * nat)) (n : Z) (x : list Z) : Prop :=
  match log with
  | [] => x = sector_of (st !! n)
  | (m, b, _) :: log => wears st log n x \/ (n = m /\ exists y k, wears st log n y /\ x = land n y b k)
  end.

Definition next_fault (d : Platter) : fault * Platter :=
  match p_faults d with
  | [] => (Fine, d)
  | f :: fs => (f, mkPlatter (p_stable d) (p_log d) fs)
  end.

(** A write of which [k] bytes show. *)
Definition platter_log (d : Platter) (n : Z) (b : list Z) (k : nat) : Platter :=
  mkPlatter (p_stable d) ((n, b, k) :: p_log d) (p_faults d).

(** The [k] oldest writes become durable as they show. *)
Definition platter_sync (d : Platter) (k : nat) : Platter :=
  let i := (length (p_log d) - k)%nat in
  mkPlatter (shown (p_stable d) (drop i (p_log d))) (take i (p_log d)) (p_faults d).

Definition platter_flush (d : Platter) : Platter := mkPlatter (shown (p_stable d) (p_log d)) [] (p_faults d).

Definition read_error (e : FsError) : FsError := match e with EEmpty | ECorrupt => EIo | e => e end.

#[export] Instance Platter_disk : Disk Platter := {
  disk_read d n :=
    let '(f, d) := next_fault d in
    match f with Fault e _ => (Err (read_error e), d) | _ => (Ok (sector_of (shown (p_stable d) (p_log d) !! n)), d) end;
  disk_write d n b :=
    let '(f, d) := next_fault d in
    match f with Fault e k => (Err e, platter_log d n b k) | _ => (Ok tt, platter_log d n b 512) end;
  disk_flush d :=
    let '(f, d) := next_fault d in
    match f with Fault e k => (Err e, platter_sync d k) | _ => (Ok tt, platter_flush d) end;
}.

#[export] Instance Platter_poll : PollDisk Platter := {
  poll_write d n b :=
    let '(f, d) := next_fault d in
    match f with
    | Fine => (Ready (Ok tt), platter_log d n b 512)
    | Fault e k => (Ready (Err e), platter_log d n b k)
    | Delay => (Pending, platter_log d n b 0)
    end;
  poll_flush d :=
    let '(f, d) := next_fault d in
    match f with
    | Fine => (Ready (Ok tt), platter_flush d)
    | Fault e k => (Ready (Err e), platter_sync d k)
    | Delay => (Pending, d)
    end;
}.

#[export] Instance Platter_view : DiskView Platter := {
  contents d n := sector_of (shown (p_stable d) (p_log d) !! n);
  may_survive d n x := wears (p_stable d) (p_log d) n x;
}.

Lemma sector_of_ok o : is_sector (sector_of o).
Proof.
  unfold sector_of. destruct o as [b|]; [|split; [done|apply bytes_ok_zeros]].
  destruct (_ && _) eqn:E; [|split; [done|apply bytes_ok_zeros]]. apply andb_true_iff in E as [E1 E2].
  split; [by apply bool_decide_eq_true in E1|]. apply list.Forall_forall. intros x Hx.
  eapply forallb_forall in E2; [|by apply list_elem_of_In]. unfold is_byte. lia.
Qed.

Lemma sector_of_id b : is_sector b -> sector_of (Some b) = b.
Proof.
  intros [L B]. unfold sector_of. rewrite bool_decide_true by done. simpl.
  replace (forallb _ b) with true; [done|]. symmetry. apply forallb_forall. intros x Hx.
  unfold bytes_ok in B. rewrite list.Forall_forall in B. specialize (B x). rewrite list_elem_of_In in B.
  specialize (B Hx). unfold is_byte in B. lia.
Qed.

(** *** The log *)
Lemma land_lands n y b k : is_sector y ->
  torn y (sector_of (Some b)) (land n y b k) /\ tear_detected n y (sector_of (Some b)) (land n y b k).
Proof.
  intros [L _]. destruct (sector_of_ok (Some b)) as [L' _]. unfold land. set (c := sector_of (Some b)) in *. clearbody c.
  destruct (512 <=? k)%nat; [split; [apply torn_new; congruence|intros _; by right; left]|].
  destruct (decide _) as [Ht|_]; [split; [apply torn_prefix; congruence|done]|].
  split; [apply torn_old; congruence|intros _; by left].
Qed.

Lemma land_sector n y b k : is_sector y -> is_sector (land n y b k).
Proof. intros Hy. eapply torn_sector; [exact Hy|apply (sector_of_ok (Some b))|by apply land_lands]. Qed.

Lemma land_none n y b : is_sector y -> land n y b 0 = y.
Proof. intros _. unfold land. cbn [Nat.leb take drop app]. by destruct (decide _). Qed.

Lemma land_whole n y b : land n y b 512 = sector_of (Some b).
Proof. done. Qed.

Lemma wears_sector st log n x : wears st log n x -> is_sector x.
Proof.
  revert n x. induction log as [|[[m b] k] log IH]; intros n x; cbn [wears]; [intros ->; apply sector_of_ok|].
  intros [H|(_ & y & j & H & ->)]; [by eapply IH|]. eapply land_sector, IH, H.
Qed.

Lemma shown_wears st log n : wears st log n (sector_of (shown st log !! n)).
Proof.
  revert n. induction log as [|[[m b] k] log IH]; intros n; [done|]. cbn [wears shown]. destruct (decide (n = m)) as [->|Hn].
  - right. split; [done|]. exists (sector_of (shown st log !! m)), k. split; [apply IH|]. rewrite lookup_insert_eq.
    apply sector_of_id, land_sector, sector_of_ok.
  - left. rewrite lookup_insert_ne by done. apply IH.
Qed.

Lemma shown_app st l l' : shown (shown st l') l = shown st (l ++ l').
Proof. induction l as [|[[m b] k] l IH]; [done|]. cbn [shown app]. by rewrite IH. Qed.

Lemma wears_app st l l' n x : wears (shown st l') l n x -> wears st (l ++ l') n x.
Proof.
  revert n x. induction l as [|[[m b] k] l IH]; intros n x; cbn [wears app]; [intros ->; apply shown_wears|].
  intros [Hx|(-> & y & j & Hy & ->)]; [left; by apply IH|]. right. split; [done|]. exists y, j. split; [by apply IH|done].
Qed.

#[export] Instance Platter_view_laws : ViewLaws Platter.
Proof. split; [intros d n b; apply wears_sector|intros d n; apply shown_wears]. Qed.

Lemma next_fault_view d f d' : next_fault d = (f, d') -> p_stable d' = p_stable d /\ p_log d' = p_log d.
Proof. unfold next_fault. destruct (p_faults d); intros [= <- <-]; done. Qed.

Lemma next_fault_undisturbed d f d' : next_fault d = (f, d') -> undisturbed d d' /\ forall n b, may_survive d n b -> may_survive d' n b.
Proof. intros [E1 E2]%next_fault_view. unfold undisturbed. cbn. by rewrite E1, E2. Qed.

Lemma platter_log_unsettled d n b k : is_sector b -> unsettled (CWrite n b) d (platter_log d n b k).
Proof.
  intros Hb. split; [intros m Hm; cbn; by rewrite lookup_insert_ne|]. intros m x [Hx|(-> & y & j & Hy & ->)]; [by left|]. right. split; [done|].
  exists y. split; [done|]. pose proof (land_lands n y b j (wears_sector _ _ _ _ Hy)) as H. by rewrite sector_of_id in H.
Qed.

Lemma platter_log_settled d n b : is_sector b -> settled (CWrite n b) d (platter_log d n b 512).
Proof.
  intros Hb. split; [|by apply (platter_log_unsettled d n b 512)]. cbn [contents Platter_view p_stable p_log platter_log shown].
  rewrite lookup_insert_eq, land_whole. by rewrite !sector_of_id by (rewrite ?sector_of_id; done).
Qed.

Lemma platter_flush_settled d : settled CFlush d (platter_flush d).
Proof. split; [done|]. by intros n x ->. Qed.

Lemma platter_sync_undisturbed d k : undisturbed d (platter_sync d k).
Proof.
  unfold undisturbed. cbn. set (i := (length (p_log d) - k)%nat). rewrite shown_app, take_drop. split; [done|].
  intros n x Hx%wears_app. by rewrite take_drop in Hx.
Qed.

Lemma settled_unsettled {D} `{ViewLaws D} c (d d' : D) : settled c d d' -> unsettled c d d'.
Proof.
  destruct c; simpl; [by intros (_ & ? & ?)|]. intros [Hc Hs]. split; [done|]. intros n b Hb.
  rewrite (Hs n b Hb). apply view_contents.
Qed.

Lemma undisturbed_unsettled {D} `{ViewLaws D} c (d d' : D) : undisturbed d d' -> unsettled c d d'.
Proof. intros [Hc Hs]. destruct c; simpl; [split; auto|done]. Qed.

(** Effects are judged against the state the fault was drawn from. *)
Lemma unsettled_from d d1 d' c f : next_fault d = (f, d1) -> unsettled c d1 d' -> unsettled c d d'.
Proof.
  intros [[Hc Hs] _]%next_fault_undisturbed H. destruct c; cbn [unsettled] in *.
  - destruct H as (H2 & H3). split; [intros; by rewrite H2|]. intros m x Hx. destruct (H3 m x Hx) as [Hy|(-> & y & Hy & Ht)]; [left; by apply Hs|].
    right. split; [done|]. exists y. split; [by apply Hs|done].
  - destruct H as (H2 & H3). split; [intros; by rewrite H2|auto].
Qed.

Lemma settled_from d d1 d' c f : next_fault d = (f, d1) -> settled c d1 d' -> settled c d d'.
Proof.
  intros E H. pose proof (unsettled_from _ _ _ _ _ E (settled_unsettled _ _ _ H)) as U. apply next_fault_undisturbed in E as [[Hc _] _].
  destruct c; cbn [settled unsettled] in *; [split; [apply H|exact U]|]. destruct H as [H1 H2]. split; [intros; by rewrite H1|].
  intros n x Hx. rewrite <- Hc. by apply H2.
Qed.

Lemma undisturbed_refl {D} `{DiskView D} (d : D) : undisturbed d d.
Proof. done. Qed.

Create HintDb platter.
#[export] Hint Resolve platter_log_settled platter_log_unsettled platter_flush_settled : platter.

#[export] Instance Platter_laws : DiskLaws Platter.
Proof.
  split.
  - intros d n r d'. simpl. destruct (next_fault d) as [f d1] eqn:E. destruct (next_fault_view _ _ _ E) as [E1 E2].
    destruct (next_fault_undisturbed _ _ _ E) as [U _]. rewrite E1, E2. by destruct f; intros [= <- <-].
  - intros d n e d'. simpl. destruct (next_fault d) as [f d1]. destruct f as [|x k|]; intros [= <- <-]. by destruct x.
  - intros [n b|] d r d' Hok; cbn [command_ok] in Hok; cbn [Command_execute disk_write disk_flush Platter_disk]; destruct (next_fault d) as [f d1] eqn:E;
      destruct f; intros [= <- <-]; cbv iota beta; first [eapply settled_from; [exact E|]; by auto with platter | eapply unsettled_from; [exact E|]; first [by auto with platter | apply undisturbed_unsettled, platter_sync_undisturbed]].
Qed.

#[export] Instance Platter_poll_laws : PollLaws Platter.
Proof.
  split. intros [n b|] d r d' Hok; cbn [command_ok] in Hok; cbn [Command_poll poll_write poll_flush Platter_poll]; destruct (next_fault d) as [f d1] eqn:E;
    destruct f; intros [= <- <-]; cbv iota beta;
    first [eapply settled_from; [exact E|]; by auto with platter
      | eapply unsettled_from; [exact E|]; first [by auto with platter | apply undisturbed_unsettled, platter_sync_undisturbed | apply undisturbed_unsettled, undisturbed_refl]].
Qed.

(** ** The synchronous adapter (file-service/src/disk.rs)

    Every command settles inside the call. *)
Definition Synchronous (D : Type) : Type := D.
Definition Synchronous_poll {D} `{Disk D} (c : Command) (d : Synchronous D) : poll (outcome FsError unit) * Synchronous D :=
  let '(r, d) := Command_execute c d in (Ready r, d).

Lemma Synchronous_law {D} `{DiskLaws D} (c : Command) (d d' : Synchronous D) r : command_ok c ->
  Synchronous_poll c d = (r, d') ->
  match r with Ready (Ok _) => settled c d d' | Ready (Err _) => unsettled c d d' | _ => False end.
Proof.
  intros Hok. unfold Synchronous_poll. destruct (Command_execute c d) as [x d1] eqn:E. intros [= <- <-].
  pose proof (command_law c d x d1 Hok E). by destruct x.
Qed.
