(* ===== verification/FsNode.v ===== *)
(** * Namespace nodes (crates/fs/src/namespace.rs)

    The 64-byte node record, the name rule, and the record's codec laws: every
    accepted record is the canonical one of the node it yields. *)
From stdpp Require Import base list option numbers.
From Stdlib Require Import ZArith Lia Bool.
From S2P Require Import Prelude Bytes Codec FsDisk.

Inductive Kind := KEmpty | KFile | KDirectory.
#[export] Instance Kind_eq_dec : EqDecision Kind.
Proof. solve_decision. Defined.

Definition Kind_repr (k : Kind) : Z := match k with KEmpty => 0 | KFile => 1 | KDirectory => 2 end.
Definition kind_is (k k' : Kind) : bool := bool_decide (k = k').

Record Node := mkNode {
  n_id : Z;
  n_parent : Z;
  n_version : Z;
  n_length : Z;
  n_kind : Kind;
  n_space : Z;
  n_bank : Z;
  n_checksum : Z;
  n_name : list Z;
  n_name_length : Z;
}.
#[export] Instance Node_eq_dec : EqDecision Node.
Proof. solve_decision. Defined.

Definition Node_EMPTY : Node := mkNode 0 0 0 0 KEmpty 0 0 0 (zeros 32) 0.

(** [b.is_ascii_alphanumeric() || b"._-".contains(b)]. *)
Definition name_char (b : Z) : bool :=
  ((48 <=? b) && (b <=? 57)) || ((65 <=? b) && (b <=? 90)) || ((97 <=? b) && (b <=? 122))
  || (b =? 46) || (b =? 95) || (b =? 45).

Definition valid_name (name : list Z) : outcome FsError unit :=
  if (length name =? 0)%nat || (31 <? length name)%nat || bool_decide (name = [46]) || bool_decide (name = [46; 46])
     || existsb (fun b => negb (name_char b)) name
  then Err EInvalid else Ok tt.

Definition Node_new (id parent space : Z) (kind : Kind) (name : list Z) (version : Z) : outcome FsError Node :=
  let? _ := valid_name name in
  Ok (mkNode id parent version 0 kind space 0 0 (write (zeros 32) 0 name) (Z.of_nat (length name))).

Definition Node_name (n : Node) : list Z := take (Z.to_nat (n_name_length n)) (n_name n).

Definition NODE_SIZE : nat := 64.

Definition Node_encode (n : Node) : list Z :=
  let b := zeros NODE_SIZE in
  let b := write b 0 (le_bytes 1 (Kind_repr (n_kind n))) in
  let b := write b 1 (le_bytes 1 (n_space n)) in
  let b := write b 2 (le_bytes 1 (n_bank n)) in
  let b := write b 3 (le_bytes 1 (n_name_length n)) in
  let b := write b 4 (le_bytes 4 (n_parent n)) in
  let b := write b 8 (le_bytes 4 (n_id n)) in
  let b := write b 12 (le_bytes 2 (n_length n)) in
  let b := write b 16 (le_bytes 8 (n_version n)) in
  let b := write b 24 (le_bytes 4 (n_checksum n)) in
  write b 32 (n_name n).

Definition Kind_decode (b : Z) : outcome FsError Kind :=
  if b =? 1 then Ok KFile else if b =? 2 then Ok KDirectory else Err ECorrupt.

Definition Node_decode (b : list Z) : outcome FsError Node :=
  if negb (length b =? NODE_SIZE)%nat then Err ECorrupt
  else if bool_decide (b = zeros NODE_SIZE) then Ok Node_EMPTY
  else
    let? kind := Kind_decode (byte_at b 0) in
    let length := u16_at b 12 in
    if negb ((1 <=? byte_at b 1) && (byte_at b 1 <=? 4)) || (1 <? byte_at b 2)
       || negb ((1 <=? byte_at b 3) && (byte_at b 3 <=? 31)) || (Z.of_nat MAX_FILE <? length)
       || negb (all_zero (slice b 14 16)) || negb (all_zero (slice b 28 32))
       || negb (all_zero (slice b (32 + Z.to_nat (byte_at b 3)) NODE_SIZE))
    then Err ECorrupt
    else
      let? node := map_err (fun _ => ECorrupt)
        (Node_new (u32_at b 8) (u32_at b 4) (byte_at b 1) kind (slice b 32 (32 + Z.to_nat (byte_at b 3))) (u64_at b 16)) in
      let node := mkNode (n_id node) (n_parent node) (n_version node) length (n_kind node) (n_space node) (byte_at b 2)
                    (u32_at b 24) (n_name node) (n_name_length node) in
      if (n_id node =? 0) || (n_version node =? 0)
         || (kind_is kind KDirectory && (negb (n_length node =? 0) || negb (n_checksum node =? 0) || negb (n_bank node =? 0)))
      then Err ECorrupt else Ok node.

(** ** Valid nodes and their codec *)
Record live_node (n : Node) : Prop := {
  ln_kind : n_kind n <> KEmpty;
  ln_id : fits 32 (n_id n) /\ n_id n <> 0;
  ln_parent : fits 32 (n_parent n);
  ln_version : fits 64 (n_version n) /\ n_version n <> 0;
  ln_length : 0 <= n_length n <= Z.of_nat MAX_FILE;
  ln_space : 1 <= n_space n <= 4;
  ln_bank : n_bank n = 0 \/ n_bank n = 1;
  ln_checksum : fits 32 (n_checksum n);
  ln_name_length : 1 <= n_name_length n <= 31;
  ln_name : valid_name (Node_name n) = Ok tt;
  ln_padded : n_name n = write (zeros 32) 0 (Node_name n);
  ln_directory : n_kind n = KDirectory -> n_length n = 0 /\ n_checksum n = 0 /\ n_bank n = 0;
}.

Definition Node_valid (n : Node) : Prop := n = Node_EMPTY \/ live_node n.

Lemma valid_name_spec name : valid_name name = Ok tt ->
  (1 <= length name <= 31)%nat /\ bytes_ok name /\ Forall (fun b => name_char b = true) name.
Proof.
  unfold valid_name. destruct (_ || _) eqn:E; [done|]. intros _. bools.
  assert (Forall (fun b => name_char b = true) name).
  { apply list.Forall_forall. intros x Hx. destruct (name_char x) eqn:Ex; [done|].
    assert (existsb (fun b => negb (name_char b)) name = true); [|congruence].
    apply existsb_exists. exists x. split; [by apply list_elem_of_In|]. by rewrite Ex. }
  split; [lia|]. split; [|done]. eapply List.Forall_impl; [|done]. intros x Hx. unfold is_byte. cbv beta in Hx. unfold name_char in Hx. lia.
Qed.

Lemma valid_name_total name : valid_name name <> Panic.
Proof. unfold valid_name. by destruct (_ || _). Qed.

Lemma Node_new_ok id parent space kind name version n : Node_new id parent space kind name version = Ok n ->
  valid_name name = Ok tt /\ n = mkNode id parent version 0 kind space 0 0 (write (zeros 32) 0 name) (Z.of_nat (length name)) /\
  Node_name n = name.
Proof.
  unfold Node_new. destruct (valid_name name) as [[]| |] eqn:E; [|done..]. intros [= <-].
  pose proof (valid_name_spec name E) as (? & _ & _). split; [done|]. split; [done|]. unfold Node_name. simpl.
  rewrite Nat2Z.id. unfold write. rewrite take_0. simpl. by rewrite take_app_length.
Qed.

Lemma length_padded_name name : (length name <= 32)%nat -> length (write (zeros 32) 0 name) = 32%nat.
Proof. intros. rewrite length_write; [done|]. rewrite length_zeros. lia. Qed.

Lemma slice_padded name : (length name <= 32)%nat ->
  slice (write (zeros 32) 0 name) 0 (length name) = name /\ all_zero (drop (length name) (write (zeros 32) 0 name)) = true.
Proof.
  intros. unfold write. rewrite take_0. simpl. split.
  - unfold slice. rewrite drop_0, Nat.sub_0_r. by rewrite take_app_length.
  - rewrite drop_app_length. apply all_zero_eq. unfold zeros. rewrite drop_replicate, length_replicate. done.
Qed.

Lemma live_name n : live_node n -> (length (Node_name n) = Z.to_nat (n_name_length n))%nat /\ length (n_name n) = 32%nat /\ bytes_ok (n_name n).
Proof.
  intros [_ _ _ _ _ _ _ _ Hl Hv Hp _]. pose proof (valid_name_spec _ Hv) as (Hlen & Hb & _). split; [|split].
  - unfold Node_name. rewrite length_take. assert (length (n_name n) = 32%nat); [|lia]. rewrite Hp. apply length_padded_name. lia.
  - rewrite Hp. apply length_padded_name. lia.
  - rewrite Hp. apply bytes_ok_write; [apply bytes_ok_zeros|done].
Qed.

Lemma length_Node_encode n : Node_valid n -> length (Node_encode n) = NODE_SIZE.
Proof.
  intros [->|H]; [done|]. destruct (live_name n H) as (_ & L & _). unfold Node_encode, NODE_SIZE. wire_length.
Qed.

Lemma Node_encode_bytes n : Node_valid n -> bytes_ok (Node_encode n).
Proof.
  intros [->|H]; [apply (bytes_ok_zeros 64)|]. destruct (live_name n H) as (_ & _ & B). unfold Node_encode. cbv zeta. wire_bytes.
Qed.

(** The fields of an encoded node. *)
Lemma Node_encode_fields n : live_node n -> exists b, Node_encode n = b /\ length b = 64%nat /\
  byte_at b 0 = Kind_repr (n_kind n) /\ byte_at b 1 = n_space n /\ byte_at b 2 = n_bank n /\ byte_at b 3 = n_name_length n /\
  u32_at b 4 = n_parent n /\ u32_at b 8 = n_id n /\ u16_at b 12 = n_length n /\ u64_at b 16 = n_version n /\
  u32_at b 24 = n_checksum n /\ slice b 14 16 = zeros 2 /\ slice b 28 32 = zeros 4 /\ slice b 32 64 = n_name n.
Proof.
  intros H. destruct (live_name n H) as (_ & L & B). pose proof (length_Node_encode n (or_intror H)) as Lb.
  destruct H as [Hk [Hi _] Hp [Hv _] Hl Hs Hba Hc Hn _ _ _]. exists (Node_encode n). split; [done|]. split; [done|].
  assert (fits 16 (n_length n)) by (unfold fits, MAX_FILE in *; lia).
  assert (fits 8 (n_space n)) by (unfold fits; lia). assert (fits 8 (n_bank n)) by (unfold fits; lia).
  assert (fits 8 (n_name_length n)) by (unfold fits; lia). assert (fits 8 (Kind_repr (n_kind n))) by (by destruct (n_kind n)).
  unfold Node_encode, NODE_SIZE. wire_unfold. repeat match goal with |- _ /\ _ => split end; try wire_read.
Qed.

Lemma Node_round n : Node_valid n -> Node_decode (Node_encode n) = Ok n.
Proof.
  intros [->|H]; [done|]. destruct (live_name n H) as (Ln & L & B).
  destruct (Node_encode_fields n H) as (b & E & Lb & R0 & R1 & R2 & R3 & R4 & R8 & R12 & R16 & R24 & R14 & R28 & R32).
  destruct H as [Hk [Hi Hi0] Hp [Hv Hv0] Hl Hs Hba Hc Hn Hname Hpad Hdir].
  unfold Node_decode. rewrite E, Lb. cbn [NODE_SIZE Nat.eqb negb].
  rewrite bool_decide_false; [|intros ->; apply Hk; revert R0; by destruct (n_kind n)].
  assert (Kd : Kind_decode (byte_at b 0) = Ok (n_kind n)) by (rewrite R0; by destruct (n_kind n)). rewrite Kd.
  cbv zeta. rewrite R1, R2, R3, R4, R8, R12, R16, R24, R14, R28.
  assert (Hs1 : slice b 32 (32 + Z.to_nat (n_name_length n)) = Node_name n).
  { unfold Node_name. rewrite <- R32. unfold slice. rewrite take_take. f_equal. lia. }
  assert (Hs2 : all_zero (slice b (32 + Z.to_nat (n_name_length n)) NODE_SIZE) = true).
  { rewrite slice_drop_tail by (rewrite Lb; unfold NODE_SIZE; lia). unfold NODE_SIZE. rewrite R32, Hpad, <- Ln.
    apply slice_padded. rewrite Ln. lia. }
  rewrite Hs1, Hs2. no_guard ltac:(first [done|unfold MAX_FILE in *; lia]).
  unfold Node_new. rewrite Hname. cbn [map_err n_id n_version n_length n_checksum n_bank n_parent n_kind n_space n_name n_name_length].
  no_guard ltac:(first [lia | unfold kind_is in *; bools; destruct (Hdir ltac:(done)) as (E1 & E2 & E3);
    match goal with H : (_ || _) = true |- _ => rewrite E1, E2, E3 in H; discriminate H end]).
  rewrite <- Hpad, Ln, Z2Nat.id by lia. by destruct n.
Qed.

Lemma Node_canonical b n : bytes_ok b -> Node_decode b = Ok n -> Node_valid n /\ Node_encode n = b.
Proof.
  intros Hb H. unfold Node_decode in H. destruct (negb _) eqn:Lb in H; [done|]. bools. unfold NODE_SIZE in Lb.
  destruct (bool_decide _) eqn:Ez in H; bools; [injection H as <-; split; [by left|by rewrite Ez]|].
  destruct (Kind_decode (byte_at b 0)) as [kind| |] eqn:Kd; [|done..]. cbv zeta in H. guards H. bools.
  destruct (Node_new _ _ _ _ _ _) as [node| |] eqn:En; [|done..]. apply Node_new_ok in En as (Hname & -> & _).
  cbn [map_err n_id n_version n_length n_checksum n_bank n_parent n_kind n_space n_name n_name_length] in H. guards H. bools.
  set (k := Z.to_nat (byte_at b 3)) in *. assert (Hk31 : (1 <= k <= 31)%nat) by (unfold k; lia).
  assert (Lk : length (slice b 32 (32 + k)) = k) by (rewrite length_slice; lia).
  assert (Hf : forall i j m, (j <= 64)%nat -> (m = j - i)%nat -> fits (8 * Z.of_nat m) (le_value (slice b i j)))
    by (intros; eapply field_fits; [done|lia|done|done]).
  assert (Kr : Kind_repr kind = byte_at b 0 /\ kind <> KEmpty).
  { revert Kd. unfold Kind_decode. destruct (Z.eqb_spec (byte_at b 0) 1) as [->|]; [by intros [= <-]|].
    destruct (Z.eqb_spec (byte_at b 0) 2) as [->|]; by intros [= <-]. }
  destruct Kr as [Kr Kne].
  set (nd := mkNode (u32_at b 8) (u32_at b 4) (u64_at b 16) (u16_at b 12) kind (byte_at b 1) (byte_at b 2) (u32_at b 24)
      (write (zeros 32) 0 (slice b 32 (32 + k))) (Z.of_nat (length (slice b 32 (32 + k))))) in *.
  assert (n = nd) as -> by (by injection H as <-). clear H.
  assert (Hlive : live_node nd).
  { assert (Hnm : Node_name nd = slice b 32 (32 + k)).
    { unfold Node_name, nd. cbn [n_name n_name_length]. rewrite Nat2Z.id. pose proof (slice_padded (slice b 32 (32 + k)) ltac:(lia)) as [Hs _].
      unfold slice at 1 in Hs. by rewrite drop_0, Nat.sub_0_r in Hs. }
    pose proof (Hf 8%nat 12%nat 4%nat ltac:(lia) ltac:(lia)). pose proof (Hf 4%nat 8%nat 4%nat ltac:(lia) ltac:(lia)).
    pose proof (Hf 16%nat 24%nat 8%nat ltac:(lia) ltac:(lia)). pose proof (Hf 24%nat 28%nat 4%nat ltac:(lia) ltac:(lia)).
    pose proof (Hf 12%nat 14%nat 2%nat ltac:(lia) ltac:(lia)). pose proof (Hf 2%nat 3%nat 1%nat ltac:(lia) ltac:(lia)).
    split; rewrite ?Hnm; unfold nd; cbn [n_id n_version n_length n_checksum n_bank n_parent n_kind n_space n_name n_name_length]; try done;
      unfold byte_at, u16_at, u32_at, u64_at, fits in *; cbn [Nat.add] in *; try lia.
    intros ->. unfold kind_is in *. rewrite bool_decide_true in * by done. simpl in *. bools. lia. }
  split; [by right|]. destruct (live_name _ Hlive) as (_ & Lnm & Bnm). unfold nd in Lnm, Bnm. cbn [n_name] in Lnm, Bnm.
  assert (Hnm : slice b 32 64 = write (zeros 32) 0 (slice b 32 (32 + k))).
  { rewrite <- (take_drop k (slice b 32 64)). unfold write. rewrite take_0, Lk. cbn [app]. rewrite Nat.add_0_l. f_equal.
    { unfold slice. rewrite take_take. f_equal. lia. }
    rewrite <- slice_drop_tail by lia.
    match goal with H : all_zero (slice b (32 + k) _) = true |- _ => apply all_zero_eq in H; change NODE_SIZE with 64%nat in H; rewrite H end.
    unfold zeros. rewrite drop_replicate, length_slice by lia. done. }
  unfold Node_encode, NODE_SIZE, nd. cbn [n_id n_version n_length n_checksum n_bank n_parent n_kind n_space n_name n_name_length].
  rewrite Kr, Lk. replace (Z.of_nat k) with (byte_at b 3) by (unfold k; rewrite Z2Nat.id; lia).
  clearbody k. remember (write (zeros 32) 0 (slice b 32 (32 + k))) as nm eqn:Enm. clear Enm.
  unfold byte_at, u16_at, u32_at, u64_at in *. cbn [Nat.add] in *.
  wire_fields [1; 2; 3; 4; 8; 12; 14; 16; 24; 28; 32; 64]%nat.
Qed.

Lemma Node_decode_error b e : Node_decode b = Err e -> e = ECorrupt.
Proof.
  unfold Node_decode. destruct (negb _); [by intros [= <-]|]. destruct (bool_decide _); [done|].
  unfold Kind_decode. destruct (_ =? 1); [|destruct (_ =? 2); [|by intros [= <-]]]; cbv zeta;
    (destruct (_ || _); [by intros [= <-]|]; destruct (Node_new _ _ _ _ _ _); cbn [map_err];
     [destruct (_ || _); congruence | congruence | done]).
Qed.

Lemma Node_decode_total b : Node_decode b <> Panic.
Proof.
  unfold Node_decode. destruct (negb _); [done|]. destruct (bool_decide _); [done|].
  unfold Kind_decode. assert (Hn : forall i p s k m v, Node_new i p s k m v <> Panic).
  { intros. unfold Node_new. pose proof (valid_name_total m). by destruct (valid_name m). }
  destruct (_ =? 1); [|destruct (_ =? 2); [|done]]; cbv zeta; (destruct (_ || _); [done|];
    match goal with |- context [Node_new ?i ?p ?s ?k ?m ?v] => specialize (Hn i p s k m v); destruct (Node_new i p s k m v) end;
    cbn [map_err]; [by destruct (_ || _)|done|done]).
Qed.

Lemma Node_laws : codec_laws Node_encode Node_decode Node_valid.
Proof. split; [apply Node_round|apply Node_canonical|apply Node_encode_bytes|apply Node_decode_total]. Qed.
#[export] Instance Node_codec : WireCodec Node FsError := {| wire_laws := Node_laws |}.
