(* ===== verification/FsRecovery.v ===== *)
(** * Retained evidence: records, their codec and its laws

    crates/fs/src/recovery/mod.rs and codec.rs, admission/mod.rs, reason.rs and
    codec.rs: the retained records (completed replacements and admissions) and
    their seven-sector encoding. *)
From stdpp Require Import base list option numbers.
From Stdlib Require Import ZArith Lia Bool.
From S2P Require Import Prelude Bytes Codec FsDisk.

Definition RETAINED : nat := 2.
Definition RECOVERY_SECTORS : nat := 7.

Record FsRetry := mkFsRetry { ry_lineage : list Z; ry_epoch : Z; ry_key : Z }.
#[export] Instance FsRetry_eq_dec : EqDecision FsRetry.
Proof. solve_decision. Defined.

Record FsReceipt := mkFsReceipt { fr_retry : FsRetry; fr_id : Z; fr_previous : Z; fr_committed : Z; fr_length : Z }.
#[export] Instance FsReceipt_eq_dec : EqDecision FsReceipt.
Proof. solve_decision. Defined.

(** admission/mod.rs, admission/reason.rs *)
Inductive FsState := FAdmitted | FCancelled | FCommitted.
#[export] Instance FsState_eq_dec : EqDecision FsState.
Proof. solve_decision. Defined.
Inductive FsReason := RUnknown | RRequested | RVersionConflict | RAuthorityLost.
#[export] Instance FsReason_eq_dec : EqDecision FsReason.
Proof. solve_decision. Defined.
Definition FsReason_repr (r : FsReason) : Z :=
  match r with RUnknown => 0 | RRequested => 1 | RVersionConflict => 2 | RAuthorityLost => 3 end.

Record Stored := mkStored { so_number : Z; so_state : FsState; so_terminal : Z; so_prevention : option FsReason }.
#[export] Instance Stored_eq_dec : EqDecision Stored.
Proof. solve_decision. Defined.

Record FsRecord := mkFsRecord {
  rd_subject : Z;
  rd_receipt : FsReceipt;
  rd_namespace : option (Z * Z);
  rd_bytes : list Z;
  rd_admission : option Stored;
}.
#[export] Instance FsRecord_eq_dec : EqDecision FsRecord.
Proof. solve_decision. Defined.

Record Recovery := mkRecovery {
  rv_lineage : list Z;
  rv_epoch : Z;
  rv_scoped : bool;
  rv_admissions : bool;
  rv_reasons : bool;
  rv_records : list (option FsRecord);
}.
#[export] Instance Recovery_eq_dec : EqDecision Recovery.
Proof. solve_decision. Defined.

Definition Recovery_new (lineage : list Z) : outcome FsError Recovery :=
  if bool_decide (lineage = zeros 16) then Err EInvalid
  else Ok (mkRecovery lineage 1 false false false (replicate RETAINED None)).

Definition Recovery_find (r : Recovery) (subject : Z) (retry : FsRetry) : outcome FsError (option FsRecord) :=
  if (subject =? 0) || (ry_key retry =? 0) || (ry_epoch retry =? 0) then Err EInvalid
  else if negb (bool_decide (ry_lineage retry = rv_lineage r)) then Err ELineage
  else
    match List.find (fun x => is_none (rd_namespace x) && (rd_subject x =? subject) && bool_decide (fr_retry (rd_receipt x) = retry))
            (slots (rv_records r)) with
    | Some x => Ok (Some x)
    | None => if negb (ry_epoch retry =? rv_epoch r) then Err EExpiredEpoch else Ok None
    end.

(** ** The admission part of a record (admission/codec.rs) *)
Definition FsState_code (s : FsState) : Z := match s with FAdmitted => 1 | FCancelled => 2 | FCommitted => 3 end.
Definition FsState_parse (v : Z) : outcome FsError FsState :=
  if v =? 1 then Ok FAdmitted else if v =? 2 then Ok FCancelled else if v =? 3 then Ok FCommitted else Err ECorrupt.

Definition Stored_encode (a : Stored) (p : list Z) : list Z :=
  let p := write p 64 (le_bytes 8 (so_number a)) in
  let p := write p 72 (le_bytes 8 (so_terminal a)) in
  let p := write p 80 (le_bytes 1 (FsState_code (so_state a))) in
  write p 81 (le_bytes 1 (match so_prevention a with None => 0 | Some r => FsReason_repr r end)).

Definition reason_parse (v : Z) : outcome FsError FsReason :=
  if v =? 0 then Ok RUnknown else if v =? 1 then Ok RRequested
  else if v =? 2 then Ok RVersionConflict else if v =? 3 then Ok RAuthorityLost else Err ECorrupt.

(** The cause is present exactly for a cancelled admission. *)
Definition cause_parse (state : FsState) (v : Z) : outcome FsError (option FsReason) :=
  match state with
  | FCancelled => let? r := reason_parse v in Ok (Some r)
  | _ => if v =? 0 then Ok None else Err ECorrupt
  end.

(** The consistency checks on an admission. *)
Definition stored_bad (a : Stored) (receipt : FsReceipt) (namespace : option (Z * Z)) (sequence : Z) : bool :=
  (so_number a =? 0) || (sequence <? so_number a) || (so_number a <=? fr_previous receipt)
  || (match namespace with None => true | Some (_, i) => (i =? 0) || (so_number a <? i) end)
  || (match so_state a with
      | FAdmitted => negb (so_terminal a =? 0) || negb (fr_committed receipt =? 0)
      | FCancelled => (so_terminal a <=? so_number a) || (sequence <? so_terminal a) || negb (fr_committed receipt =? 0)
      | FCommitted => (so_terminal a <=? so_number a) || (sequence <? so_terminal a)
                      || negb (fr_committed receipt =? so_terminal a)
      end).

Definition Stored_decode (p : list Z) (version : Z) (receipt : FsReceipt) (namespace : option (Z * Z)) (sequence : Z)
    : outcome FsError (option Stored) :=
  if all_zero (slice p 64 512) then Ok None
  else if (version <? 4) || ((version =? 4) && negb (byte_at p 81 =? 0)) || negb (all_zero (slice p 82 512)) then Err ECorrupt
  else
    let number := u64_at p 64 in
    let terminal := u64_at p 72 in
    let? state := FsState_parse (byte_at p 80) in
    let? prevention := cause_parse state (byte_at p 81) in
    let a := mkStored number state terminal prevention in
    if stored_bad a receipt namespace sequence then Err ECorrupt else Ok (Some a).

(** ** The records (recovery/codec.rs) *)
Definition rec_magic (reasons admissions scoped : bool) : list Z :=
  [82; 85; 83; 84; 82; 69; 67; if reasons then 52 else if admissions then 51 else if scoped then 50 else 49].

Definition RECORD_SIZE : nat := 1536.

Definition Record_encode (r : FsRecord) : list Z :=
  let p := zeros RECORD_SIZE in
  let p := write p 0 (le_bytes 8 (rd_subject r)) in
  let p := write p 8 (le_bytes 8 (ry_epoch (fr_retry (rd_receipt r)))) in
  let p := write p 16 (le_bytes 8 (ry_key (fr_retry (rd_receipt r)))) in
  let p := write p 24 (le_bytes 4 (fr_id (rd_receipt r))) in
  let p := write p 28 (le_bytes 2 (fr_length (rd_receipt r))) in
  let p := write p 32 (le_bytes 8 (fr_previous (rd_receipt r))) in
  let p := write p 40 (le_bytes 8 (fr_committed (rd_receipt r))) in
  let p := match rd_namespace r with
           | Some (workspace, instance) => write (write p 48 (le_bytes 4 workspace)) 56 (le_bytes 8 instance)
           | None => p
           end in
  let p := match rd_admission r with Some a => Stored_encode a p | None => p end in
  write p 512 (rd_bytes r).

Definition record_slot (slot : nat) : nat := (512 + slot * RECORD_SIZE)%nat.

Fixpoint encode_records (b : list Z) (slot : nat) (l : list (option FsRecord)) : list Z :=
  match l with
  | [] => b
  | None :: l => encode_records b (S slot) l
  | Some r :: l => encode_records (write b (record_slot slot) (Record_encode r)) (S slot) l
  end.

Definition Recovery_encode (r : Recovery) : list Z :=
  let b := zeros (RECOVERY_SECTORS * 512) in
  let b := write b 0 (rec_magic (rv_reasons r) (rv_admissions r) (rv_scoped r)) in
  let b := write b 8 (rv_lineage r) in
  let b := write b 24 (le_bytes 8 (rv_epoch r)) in
  encode_records b 0 (rv_records r).

Definition admission_number (a : option Stored) (default : Z) : Z := match a with Some a => so_number a | None => default end.
Definition admission_terminal (a : option Stored) : Z := match a with Some a => so_terminal a | None => 0 end.

(** The sequence numbers a record owns. *)
Definition record_numbers (committed : Z) (a : option Stored) : list Z :=
  [committed; admission_number a 0; admission_terminal a].

(** The record would repeat a number or a request of a retained one. *)
Definition record_clash (subject : Z) (receipt : FsReceipt) (namespace : option (Z * Z)) (a : option Stored) (r : FsRecord) : bool :=
  existsb (fun n => negb (n =? 0) && bool_decide (n ∈ record_numbers (fr_committed (rd_receipt r)) (rd_admission r)))
    (record_numbers (fr_committed receipt) a)
  || ((rd_subject r =? subject) && bool_decide (fst <$> rd_namespace r = fst <$> namespace)
      && bool_decide (fr_retry (rd_receipt r) = receipt.(fr_retry))).

(** The checks on a record's own values. *)
Definition values_bad (value : Recovery) (sequence next : Z) (r : FsRecord) : bool :=
  let receipt := rd_receipt r in
  (rd_subject r =? 0) || negb (ry_epoch (fr_retry receipt) =? rv_epoch value) || (ry_key (fr_retry receipt) =? 0)
  || (fr_id receipt <=? 4) || (next <=? fr_id receipt) || (fr_previous receipt =? 0)
  || (is_none (rd_admission r) && (fr_committed receipt <=? fr_previous receipt))
  || (sequence <? fr_committed receipt) || (Z.of_nat MAX_FILE <? fr_length receipt)
  || (match rd_namespace r with
      | None => false
      | Some (w, i) => negb (rv_scoped value) || (w =? 0) || (next <=? w) || (w =? fr_id receipt) || (i =? 0)
                       || (admission_number (rd_admission r) (fr_committed receipt) <? i)
      end).

(** ... and against the records decoded before it. *)
Definition record_bad (value : Recovery) (sequence next : Z) (r : FsRecord) : bool :=
  values_bad value sequence next r
  || existsb (record_clash (rd_subject r) (rd_receipt r) (rd_namespace r) (rd_admission r)) (slots (rv_records value)).

Definition Record_decode (value : Recovery) (p : list Z) (sequence next version : Z) : outcome FsError FsRecord :=
  let workspace := u32_at p 48 in
  let instance := u64_at p 56 in
  let namespace := if (workspace =? 0) && (instance =? 0) then None else Some (workspace, instance) in
  let receipt := mkFsReceipt (mkFsRetry (rv_lineage value) (u64_at p 8) (u64_at p 16)) (u32_at p 24) (u64_at p 32) (u64_at p 40)
                   (u16_at p 28) in
  let? admission := Stored_decode p version receipt namespace sequence in
  let r := mkFsRecord (u64_at p 0) receipt namespace (slice p 512 RECORD_SIZE) admission in
  if record_bad value sequence next r || negb (all_zero (slice p 30 32)) || negb (all_zero (slice p 52 56))
     || negb (all_zero (slice p (512 + Z.to_nat (fr_length receipt)) RECORD_SIZE))
  then Err ECorrupt else Ok r.

Definition set_record (value : Recovery) (slot : nat) (r : option FsRecord) : Recovery :=
  mkRecovery (rv_lineage value) (rv_epoch value) (rv_scoped value) (rv_admissions value) (rv_reasons value)
    (<[slot := r]> (rv_records value)).

(** The loop over the slots; [fuel] slots are left. *)
Fixpoint decode_slots (fuel : nat) (slot : nat) (value : Recovery) (b : list Z) (sequence next version : Z) : outcome FsError Recovery :=
  match fuel with
  | O => Ok value
  | S fuel =>
    let p := slice b (record_slot slot) (record_slot (S slot)) in
    if all_zero p then decode_slots fuel (S slot) value b sequence next version
    else
      let? r := Record_decode value p sequence next version in
      decode_slots fuel (S slot) (set_record value slot (Some r)) b sequence next version
  end.

Definition Recovery_decode (b : list Z) (sequence next version : Z) : outcome FsError Recovery :=
  let scoped := 3 <=? version in
  let admissions := 4 <=? version in
  let reasons := version =? 5 in
  if negb (bool_decide (slice b 0 8 = rec_magic reasons admissions scoped)) || negb (all_zero (slice b 32 512)) then Err ECorrupt
  else
    let? value := map_err (fun _ => ECorrupt) (Recovery_new (slice b 8 24)) in
    let value := mkRecovery (rv_lineage value) (u64_at b 24) scoped admissions reasons (rv_records value) in
    if (rv_epoch value =? 0) || (sequence <? rv_epoch value) then Err ECorrupt
    else decode_slots RETAINED 0 value b sequence next version.

(** ** The codec of the retained evidence: round trip and canonicity *)
(** The format version a recovery area is published under. *)
Definition version_of (r : Recovery) : Z :=
  if rv_reasons r then 5 else if rv_admissions r then 4 else if rv_scoped r then 3 else 2.

(** ** Valid admissions and records *)
Record stored_ok (version : Z) (receipt : FsReceipt) (ns : option (Z * Z)) (sequence : Z) (a : Stored) : Prop := {
  sk_version : 4 <= version;
  sk_number : fits 64 (so_number a);
  sk_terminal : fits 64 (so_terminal a);
  sk_cause : so_state a = FCancelled <-> so_prevention a <> None;
  sk_reason : version = 4 -> so_prevention a = None \/ so_prevention a = Some RUnknown;
  sk_values : stored_bad a receipt ns sequence = false;
}.

Record record_fits (lineage : list Z) (r : FsRecord) : Prop := {
  rf_subject : fits 64 (rd_subject r);
  rf_lineage : ry_lineage (fr_retry (rd_receipt r)) = lineage;
  rf_epoch : fits 64 (ry_epoch (fr_retry (rd_receipt r)));
  rf_key : fits 64 (ry_key (fr_retry (rd_receipt r)));
  rf_id : fits 32 (fr_id (rd_receipt r));
  rf_length : 0 <= fr_length (rd_receipt r) <= Z.of_nat MAX_FILE;
  rf_previous : fits 64 (fr_previous (rd_receipt r));
  rf_committed : fits 64 (fr_committed (rd_receipt r));
  rf_namespace : forall w i, rd_namespace r = Some (w, i) -> fits 32 w /\ fits 64 i;
  rf_size : length (rd_bytes r) = MAX_FILE;
  rf_bytes : bytes_ok (rd_bytes r);
  rf_tail : all_zero (drop (Z.to_nat (fr_length (rd_receipt r))) (rd_bytes r)) = true;
}.

Record fs_record_ok (value : Recovery) (sequence next version : Z) (r : FsRecord) : Prop := {
  ro_fits : record_fits (rv_lineage value) r;
  ro_values : values_bad value sequence next r = false;
  ro_admission : forall a, rd_admission r = Some a -> stored_ok version (rd_receipt r) (rd_namespace r) sequence a;
}.

Definition clash (r : FsRecord) : FsRecord -> bool := record_clash (rd_subject r) (rd_receipt r) (rd_namespace r) (rd_admission r).

Record recovery_ok (sequence next : Z) (v : Recovery) : Prop := {
  vo_lineage : length (rv_lineage v) = 16%nat /\ bytes_ok (rv_lineage v) /\ rv_lineage v <> zeros 16;
  vo_epoch : fits 64 (rv_epoch v) /\ 0 < rv_epoch v <= sequence;
  vo_flags : (rv_reasons v = true -> rv_admissions v = true) /\ (rv_admissions v = true -> rv_scoped v = true);
  vo_slots : length (rv_records v) = RETAINED;
  vo_records : forall i r, rv_records v !! i = Some (Some r) -> fs_record_ok v sequence next (version_of v) r;
  vo_distinct : forall i j r r', i <> j -> rv_records v !! i = Some (Some r) -> rv_records v !! j = Some (Some r') -> clash r r' = false;
}.

(** A record never repeats a number or request of another, whichever came first. *)
Lemma clash_sym r r' : clash r r' = clash r' r.
Proof.
  unfold clash, record_clash. f_equal.
  - apply eq_bool_prop_intro. rewrite !Is_true_true, !existsb_exists. split.
    all: intros (n & Hn & H); apply andb_true_iff in H as [H0 H]; apply bool_decide_eq_true in H; exists n;
      (split; [by apply list_elem_of_In|]); rewrite H0; apply bool_decide_eq_true; by apply list_elem_of_In.
  - f_equal; [f_equal|]; [apply Z.eqb_sym|apply bool_decide_ext; by split|apply bool_decide_ext; by split].
Qed.

(** ** The admission bytes *)
Lemma reason_parse_repr r : reason_parse (FsReason_repr r) = Ok r.
Proof. by destruct r. Qed.
Lemma reason_parse_ok v r : reason_parse v = Ok r -> FsReason_repr r = v.
Proof. unfold reason_parse. repeat match goal with |- context [v =? ?k] => destruct (Z.eqb_spec v k) as [->|]; [by intros [= <-]|] end. done. Qed.
Lemma FsState_parse_code s : FsState_parse (FsState_code s) = Ok s.
Proof. by destruct s. Qed.
Lemma FsState_parse_ok v s : FsState_parse v = Ok s -> FsState_code s = v.
Proof. unfold FsState_parse. repeat match goal with |- context [v =? ?k] => destruct (Z.eqb_spec v k) as [->|]; [by intros [= <-]|] end. done. Qed.

Definition cause_code (o : option FsReason) : Z := match o with None => 0 | Some r => FsReason_repr r end.

Lemma cause_parse_code s o : (s = FCancelled <-> o <> None) -> cause_parse s (cause_code o) = Ok o.
Proof.
  intros H. unfold cause_parse. destruct s, o as [r|]; simpl; try done.
  - discriminate (proj2 H ltac:(done)).
  - by rewrite reason_parse_repr.
  - by destruct (proj1 H eq_refl).
  - discriminate (proj2 H ltac:(done)).
Qed.

Lemma cause_parse_ok s v o : cause_parse s v = Ok o -> (s = FCancelled <-> o <> None) /\ cause_code o = v.
Proof.
  unfold cause_parse. destruct s; [destruct (Z.eqb_spec v 0) as [->|]; by intros [= <-]| |destruct (Z.eqb_spec v 0) as [->|]; by intros [= <-]].
  destruct (reason_parse v) as [r| |] eqn:E; [|done..]. intros [= <-]. split; [done|]. by apply reason_parse_ok.
Qed.

Lemma fits_cause o : fits 8 (cause_code o).
Proof. destruct o as [[]|]; by vm_compute. Qed.

(** The bytes of a record that hold its admission, read back. *)
Lemma stored_fields a p : length p = RECORD_SIZE -> fits 64 (so_number a) -> fits 64 (so_terminal a) ->
  let q := Stored_encode a p in
  length q = RECORD_SIZE /\ u64_at q 64 = so_number a /\ u64_at q 72 = so_terminal a /\ byte_at q 80 = FsState_code (so_state a) /\
  byte_at q 81 = cause_code (so_prevention a) /\ slice q 82 512 = slice p 82 512 /\
  (forall i j, (j <= 64)%nat -> (i <= j)%nat -> slice q i j = slice p i j) /\ drop 512 q = drop 512 p.
Proof.
  intros L F1 F2 q. unfold RECORD_SIZE in *. assert (fits 8 (FsState_code (so_state a))) by (by destruct (so_state a)).
  pose proof (fits_cause (so_prevention a)). fold (cause_code (so_prevention a)) in *.
  assert (Lq : length q = 1536%nat) by (unfold q, Stored_encode; wire_length). split; [done|].
  unfold q, Stored_encode. fold (cause_code (so_prevention a)). split; [wire_read|]. split; [wire_read|]. split; [wire_read|]. split; [wire_read|].
  split; [by wire_reads|]. split.
  - intros i j Hj Hi. rewrite !slice_write_before by wire_len. done.
  - rewrite !drop_slice. replace (length (write _ _ _)) with 1536%nat by (symmetry; unfold Stored_encode in Lq; exact Lq). rewrite L. by wire_reads.
Qed.

(** ** Records *)
Definition ns_workspace (ns : option (Z * Z)) : Z := match ns with Some (w, _) => w | None => 0 end.
Definition ns_instance (ns : option (Z * Z)) : Z := match ns with Some (_, i) => i | None => 0 end.

(** The record's fields outside its admission. *)
Record plain_fields (r : FsRecord) (p : list Z) : Prop := {
  pl_length : length p = RECORD_SIZE;
  pl_subject : u64_at p 0 = rd_subject r;
  pl_epoch : u64_at p 8 = ry_epoch (fr_retry (rd_receipt r));
  pl_key : u64_at p 16 = ry_key (fr_retry (rd_receipt r));
  pl_id : u32_at p 24 = fr_id (rd_receipt r);
  pl_size : u16_at p 28 = fr_length (rd_receipt r);
  pl_gap : slice p 30 32 = zeros 2;
  pl_previous : u64_at p 32 = fr_previous (rd_receipt r);
  pl_committed : u64_at p 40 = fr_committed (rd_receipt r);
  pl_workspace : u32_at p 48 = ns_workspace (rd_namespace r);
  pl_gap2 : slice p 52 56 = zeros 4;
  pl_instance : u64_at p 56 = ns_instance (rd_namespace r);
}.

Lemma plain_fields_slice r p q : plain_fields r p -> length q = RECORD_SIZE ->
  (forall i j, (j <= 64)%nat -> (i <= j)%nat -> slice q i j = slice p i j) -> plain_fields r q.
Proof.
  intros [] L H. split; try done; unfold u64_at, u32_at, u16_at in *; rewrite H by lia; assumption.
Qed.

Definition Record_base (r : FsRecord) : list Z :=
  let p := zeros RECORD_SIZE in
  let p := write p 0 (le_bytes 8 (rd_subject r)) in
  let p := write p 8 (le_bytes 8 (ry_epoch (fr_retry (rd_receipt r)))) in
  let p := write p 16 (le_bytes 8 (ry_key (fr_retry (rd_receipt r)))) in
  let p := write p 24 (le_bytes 4 (fr_id (rd_receipt r))) in
  let p := write p 28 (le_bytes 2 (fr_length (rd_receipt r))) in
  let p := write p 32 (le_bytes 8 (fr_previous (rd_receipt r))) in
  let p := write p 40 (le_bytes 8 (fr_committed (rd_receipt r))) in
  match rd_namespace r with
  | Some (workspace, instance) => write (write p 48 (le_bytes 4 workspace)) 56 (le_bytes 8 instance)
  | None => p
  end.

Lemma Record_encode_base r :
  Record_encode r = write (match rd_admission r with Some a => Stored_encode a (Record_base r) | None => Record_base r end) 512 (rd_bytes r).
Proof. unfold Record_encode, Record_base. by destruct (rd_namespace r) as [[]|]. Qed.

Lemma length_Record_base r : length (Record_base r) = RECORD_SIZE.
Proof. unfold Record_base, RECORD_SIZE. destruct (rd_namespace r) as [[w i]|]; wire_length. Qed.

Lemma Record_base_fields lineage r : record_fits lineage r -> plain_fields r (Record_base r) /\
  slice (Record_base r) 64 512 = zeros 448 /\ slice (Record_base r) 82 512 = zeros 430 /\ bytes_ok (Record_base r).
Proof.
  intros [F1 _ F2 F3 F4 F5 F6 F7 Fn _ _ _]. assert (fits 16 (fr_length (rd_receipt r))) by (unfold fits, MAX_FILE in *; lia).
  split; [split|]; try apply length_Record_base; unfold Record_base, RECORD_SIZE; (destruct (rd_namespace r) as [[w i]|];
    [destruct (Fn w i eq_refl) as [Fw Fi]|]; cbn [ns_workspace ns_instance]); try wire_read.
  all: split; [by wire_reads|split; [by wire_reads|cbv zeta; wire_bytes]].
Qed.

Lemma Record_encode_fields lineage r : record_fits lineage r ->
  (forall a, rd_admission r = Some a -> fits 64 (so_number a) /\ fits 64 (so_terminal a)) ->
  let p := Record_encode r in
  plain_fields r p /\ slice p 512 1536 = rd_bytes r /\ bytes_ok p /\
  match rd_admission r with
  | None => slice p 64 512 = zeros 448
  | Some a => u64_at p 64 = so_number a /\ u64_at p 72 = so_terminal a /\ byte_at p 80 = FsState_code (so_state a) /\
              byte_at p 81 = cause_code (so_prevention a) /\ slice p 82 512 = zeros 430
  end.
Proof.
  intros F Fa p. destruct (Record_base_fields lineage r F) as (P & Z1 & Z2 & B). pose proof (length_Record_base r) as L.
  pose proof (rf_size _ _ F) as Lb. pose proof (rf_bytes _ _ F) as Bb. unfold p. rewrite Record_encode_base. unfold RECORD_SIZE, MAX_FILE in *.
  destruct (rd_admission r) as [a|].
  - destruct (Fa a eq_refl) as [F1 F2]. destruct (stored_fields a (Record_base r) L F1 F2) as (Lq & A1 & A2 & A3 & A4 & A5 & A6 & A7).
    unfold RECORD_SIZE in *. set (q := Stored_encode a (Record_base r)) in *.
    assert (Bq : bytes_ok q) by (unfold q, Stored_encode; cbv zeta; wire_bytes).
    assert (Lw : length (write q 512 (rd_bytes r)) = 1536%nat) by wire_length.
    split; [apply (plain_fields_slice r q); [by apply (plain_fields_slice r (Record_base r))|exact Lw|intros; rewrite slice_write_before; [done|lia|lia]]|].
    split; [rewrite slice_write_same; [done|lia|lia]|]. split; [wire_bytes|].
    unfold u64_at, byte_at in *. cbn [Nat.add] in *. wire_reads. by rewrite A5.
  - assert (Lw : length (write (Record_base r) 512 (rd_bytes r)) = 1536%nat) by wire_length.
    split; [apply (plain_fields_slice r (Record_base r)); [done|exact Lw|intros; rewrite slice_write_before; [done|lia|lia]]|].
    split; [rewrite slice_write_same; [done|lia|lia]|]. split; [wire_bytes|]. by wire_reads.
Qed.

Lemma all_zero_split l i j k : (i <= j <= k)%nat -> (k <= length l)%nat ->
  all_zero (slice l i k) = all_zero (slice l i j) && all_zero (slice l j k).
Proof. intros. unfold all_zero. rewrite <- forallb_app, slice_app by lia. done. Qed.

Lemma Stored_round version receipt ns sequence p a : stored_ok version receipt ns sequence a -> length p = RECORD_SIZE ->
  u64_at p 64 = so_number a -> u64_at p 72 = so_terminal a -> byte_at p 80 = FsState_code (so_state a) ->
  byte_at p 81 = cause_code (so_prevention a) -> slice p 82 512 = zeros 430 ->
  Stored_decode p version receipt ns sequence = Ok (Some a).
Proof.
  intros [V _ _ Hc Hr Hb] L R1 R2 R3 R4 R5. unfold Stored_decode.
  assert (Hnz : all_zero (slice p 64 512) = false).
  { apply not_true_is_false. intros Hz. rewrite (all_zero_split p 64 80 512) in Hz by (rewrite ?L; unfold RECORD_SIZE; lia).
    rewrite (all_zero_split p 80 81 512) in Hz by (rewrite ?L; unfold RECORD_SIZE; lia).
    apply andb_true_iff in Hz as [_ Hz]. apply andb_true_iff in Hz as [Hz _]. apply all_zero_eq in Hz.
    unfold byte_at in R3. cbn [Nat.add] in R3. rewrite Hz, le_value_zeros in R3. by destruct (so_state a). }
  rewrite Hnz, R1, R2, R3, R4, R5, FsState_parse_code. cbv zeta.
  no_guard ltac:(first [lia | destruct (Hr ltac:(lia)) as [Hp|Hp]; rewrite Hp in *; simpl in *; lia | done]).
  rewrite cause_parse_code by done. replace (mkStored _ _ _ _) with a by (by destruct a). by rewrite Hb.
Qed.

Lemma values_bad_value value value' sequence next r : rv_epoch value = rv_epoch value' -> rv_scoped value = rv_scoped value' ->
  values_bad value sequence next r = values_bad value' sequence next r.
Proof. intros E1 E2. unfold values_bad. by rewrite E1, E2. Qed.

Lemma namespace_round value sequence next r : values_bad value sequence next r = false ->
  (if (ns_workspace (rd_namespace r) =? 0) && (ns_instance (rd_namespace r) =? 0) then None
   else Some (ns_workspace (rd_namespace r), ns_instance (rd_namespace r))) = rd_namespace r.
Proof.
  intros H. destruct (rd_namespace r) as [[w i]|] eqn:E; [|done]. unfold values_bad in H. rewrite E in H. bools.
  simpl. destruct (Z.eqb_spec w 0); [done|]. done.
Qed.

Lemma Record_round value sequence next version r : fs_record_ok value sequence next version r ->
  existsb (clash r) (slots (rv_records value)) = false ->
  Record_decode value (Record_encode r) sequence next version = Ok r.
Proof.
  intros [F Hv Ha] Hc.
  destruct (Record_encode_fields _ r F) as (P & Hb & B & Hadm).
  { intros a Ea. by destruct (Ha a Ea). }
  set (p := Record_encode r) in *. destruct P as [L R0 R8 R16 R24 R28 G1 R32 R40 R48 G2 R56].
  unfold Record_decode. cbv zeta. rewrite R0, R8, R16, R24, R28, R32, R40, R48, R56, G1, G2, (namespace_round _ _ _ _ Hv).
  replace (mkFsReceipt _ _ _ _ _) with (rd_receipt r).
  2:{ rewrite <- (rf_lineage _ _ F). destruct r as [? [[] ? ? ? ?] ? ? ?]. done. }
  assert (Hs : Stored_decode p version (rd_receipt r) (rd_namespace r) sequence = Ok (rd_admission r)).
  { destruct (rd_admission r) as [a|] eqn:Ea.
    - destruct Hadm as (A1 & A2 & A3 & A4 & A5). by apply Stored_round; [apply Ha| | | | | |].
    - unfold Stored_decode. by rewrite Hadm, all_zero_zeros. }
  rewrite Hs. unfold RECORD_SIZE. rewrite Hb. replace (mkFsRecord _ _ _ _ _) with r by (by destruct r).
  unfold record_bad. fold (clash r). rewrite Hv, Hc, !all_zero_zeros.
  pose proof (rf_tail _ _ F) as Ht. rewrite <- Hb in Ht. rewrite <- slice_drop_tail in Ht by (rewrite L; unfold RECORD_SIZE; lia). by rewrite Ht.
Qed.

(** Two well-formed byte strings agree on a field when its values agree. *)
Lemma field_eq a b i j : bytes_ok a -> bytes_ok b -> (j <= length a)%nat -> (j <= length b)%nat ->
  le_value (slice a i j) = le_value (slice b i j) -> slice a i j = slice b i j.
Proof.
  intros Ba Bb La Lb H. rewrite <- (le_bytes_slice a i j (j - i)), <- (le_bytes_slice b i j (j - i)) by done. by rewrite H.
Qed.

Lemma Stored_decode_spec p version receipt ns sequence o : bytes_ok p -> length p = RECORD_SIZE ->
  Stored_decode p version receipt ns sequence = Ok o ->
  match o with
  | None => slice p 64 512 = zeros 448
  | Some a => stored_ok version receipt ns sequence a /\ u64_at p 64 = so_number a /\ u64_at p 72 = so_terminal a /\
              byte_at p 80 = FsState_code (so_state a) /\ byte_at p 81 = cause_code (so_prevention a) /\ slice p 82 512 = zeros 430
  end.
Proof.
  intros B L H. unfold Stored_decode in H. unfold RECORD_SIZE in L. destruct (all_zero _) eqn:E.
  { injection H as <-. apply all_zero_eq in E. rewrite E, length_slice by lia. done. }
  guards H. cbv zeta in H. destruct (FsState_parse _) as [st| |] eqn:Es; [|done..]. destruct (cause_parse _ _) as [c| |] eqn:Ec; [|done..].
  guards H. injection H as <-. apply FsState_parse_ok in Es. apply cause_parse_ok in Ec as [Ec1 Ec2]. bools.
  cbn [so_number so_terminal so_state so_prevention].
  split; [|split; [done|]; split; [done|]; split; [done|]; split; [done|]].
  - split; cbn [so_number so_terminal so_state so_prevention]; try done; try lia.
    + unfold u64_at. cbn [Nat.add]. apply (field_fits p 64 72 8); [done|lia|done|done].
    + unfold u64_at. cbn [Nat.add]. apply (field_fits p 72 80 8); [done|lia|done|done].
    + intros ->. match goal with H : (4 =? 4) && _ = false |- _ => simpl in H; bools; rewrite <- Ec2 in H end.
      destruct c as [[]|]; auto; discriminate.
  - match goal with H : all_zero (slice p 82 512) = true |- _ => apply all_zero_eq in H; rewrite H end. by rewrite length_slice by lia.
Qed.

Definition admission_fields (o : option Stored) (p : list Z) : Prop :=
  match o with
  | None => slice p 64 512 = zeros 448
  | Some a => u64_at p 64 = so_number a /\ u64_at p 72 = so_terminal a /\ byte_at p 80 = FsState_code (so_state a) /\
              byte_at p 81 = cause_code (so_prevention a) /\ slice p 82 512 = zeros 430
  end.

(** A record has one encoding. *)
Lemma record_fields_unique r p q : bytes_ok p -> bytes_ok q -> plain_fields r p -> plain_fields r q ->
  admission_fields (rd_admission r) p -> admission_fields (rd_admission r) q -> slice p 512 1536 = slice q 512 1536 -> p = q.
Proof.
  intros Bp Bq [Lp P0 P8 P16 P24 P28 Pg P32 P40 P48 Ph P56] [Lq Q0 Q8 Q16 Q24 Q28 Qg Q32 Q40 Q48 Qh Q56] Ap Aq Hd.
  unfold RECORD_SIZE, u64_at, u32_at, u16_at in *. cbn [Nat.add] in *.
  assert (Ha : slice p 64 512 = slice q 64 512).
  { destruct (rd_admission r) as [a|]; cbn [admission_fields] in Ap, Aq; [|congruence].
    destruct Ap as (A1 & A2 & A3 & A4 & A5), Aq as (A1' & A2' & A3' & A4' & A5'). unfold u64_at, byte_at in *. cbn [Nat.add] in *.
    rewrite <- !(slice_app _ 64 72 512), <- !(slice_app _ 72 80 512), <- !(slice_app _ 80 81 512), <- !(slice_app _ 81 82 512) by lia.
    rewrite A5, A5'. repeat (f_equal; try (apply field_eq; [done|done|lia|lia|congruence])). }
  apply (eq_by_fields _ _ [8; 16; 24; 28; 30; 32; 40; 48; 52; 56; 64; 512; 1536]%nat). cbn [same_fields].
  repeat match goal with |- _ /\ _ => split end; try lia; try congruence; apply field_eq; first [done | lia | congruence].
Qed.

Lemma Record_decode_spec value p sequence next version r : bytes_ok p -> length p = RECORD_SIZE ->
  Record_decode value p sequence next version = Ok r ->
  fs_record_ok value sequence next version r /\ existsb (clash r) (slots (rv_records value)) = false /\ Record_encode r = p.
Proof.
  intros B L H. unfold Record_decode in H. cbv zeta in H. destruct (Stored_decode _ _ _ _ _) as [adm| |] eqn:Es; [|done..].
  apply Stored_decode_spec in Es; [|done..]. guards H. bools.
  match goal with H : record_bad _ _ _ _ = false |- _ => unfold record_bad in H; fold (clash r) in H end. bools.
  set (rr := mkFsRecord _ _ _ _ _) in *. assert (r = rr) as -> by congruence. clear H.
  assert (Lp : length p = 1536%nat) by exact L.
  assert (Hf : forall i j m, (j <= 1536)%nat -> (m = j - i)%nat -> fits (8 * Z.of_nat m) (le_value (slice p i j)))
    by (intros; eapply field_fits; [done|lia|done|done]).
  assert (F : record_fits (rv_lineage value) rr).
  { match goal with Hv : values_bad _ _ _ rr = false |- _ => pose proof Hv as Hv' end. unfold values_bad in Hv'. bools.
    pose proof (Hf 28%nat 30%nat 2%nat ltac:(lia) ltac:(lia)).
    split; unfold rr in *; cbn [rd_subject rd_receipt rd_namespace rd_bytes fr_retry fr_id fr_length fr_previous fr_committed ry_lineage ry_epoch ry_key] in *;
      unfold u64_at, u32_at, u16_at, fits in *; cbn [Nat.add] in *; try done.
    1-3, 6-7: by apply (Hf _ _ 8%nat); lia. 1: by apply (Hf _ _ 4%nat); lia. 1: lia.
    - intros w i. destruct (_ && _) eqn:E; [done|]. intros [= <- <-]. split; [by apply (Hf _ _ 4%nat); lia|by apply (Hf _ _ 8%nat); lia].
    - rewrite length_slice; unfold RECORD_SIZE, MAX_FILE; lia.
    - by apply bytes_ok_slice.
    - rewrite <- slice_drop_tail by (unfold RECORD_SIZE; lia). done. }
  assert (R : fs_record_ok value sequence next version rr).
  { split; [done|done|]. intros a Ea. change (rd_admission rr) with adm in Ea. subst adm. apply Es. }
  split; [done|]. split; [done|].
  destruct (Record_encode_fields _ rr F) as (P & Hb & B' & Hadm).
  { intros a Ea. by destruct (ro_admission _ _ _ _ _ R a Ea). }
  apply (record_fields_unique rr); [done|done|done| |done| |].
  - split; unfold rr; cbn [rd_subject rd_receipt rd_namespace fr_retry fr_id fr_length fr_previous fr_committed ry_epoch ry_key]; try done.
    + match goal with H : all_zero (slice p 30 32) = true |- _ => apply all_zero_eq in H; by rewrite H, length_slice by lia end.
    + destruct (_ && _) eqn:E; [|done]. by bools.
    + match goal with H : all_zero (slice p 52 56) = true |- _ => apply all_zero_eq in H; by rewrite H, length_slice by lia end.
    + destruct (_ && _) eqn:E; [|done]. by bools.
  - change (rd_admission rr) with adm. destruct adm; [by destruct Es as [_ Es]|done].
  - by rewrite Hb.
Qed.

(** ** The retained evidence area as a whole: round trip and canonicity *)
(** ** The whole area *)
Definition slot_bytes (o : option FsRecord) : list Z := match o with Some r => Record_encode r | None => zeros RECORD_SIZE end.

Definition prefix_bytes (v : Recovery) : list Z :=
  write (write (write (zeros 3584) 0 (rec_magic (rv_reasons v) (rv_admissions v) (rv_scoped v))) 8 (rv_lineage v)) 24
    (le_bytes 8 (rv_epoch v)).

Lemma Recovery_encode_two v o0 o1 : rv_records v = [o0; o1] ->
  Recovery_encode v =
  let b := match o0 with Some r => write (prefix_bytes v) 512 (Record_encode r) | None => prefix_bytes v end in
  match o1 with Some r => write b 2048 (Record_encode r) | None => b end.
Proof. intros E. unfold Recovery_encode. rewrite E. cbn [encode_records]. by destruct o0, o1. Qed.

Lemma prefix_fields v : length (rv_lineage v) = 16%nat -> fits 64 (rv_epoch v) ->
  let b := prefix_bytes v in
  length b = 3584%nat /\ slice b 0 8 = rec_magic (rv_reasons v) (rv_admissions v) (rv_scoped v) /\ slice b 8 24 = rv_lineage v /\
  u64_at b 24 = rv_epoch v /\ slice b 32 512 = zeros 480 /\ slice b 512 2048 = zeros 1536 /\ slice b 2048 3584 = zeros 1536.
Proof.
  intros Ll Fe b. unfold b, prefix_bytes.
  assert (Lm : length (rec_magic (rv_reasons v) (rv_admissions v) (rv_scoped v)) = 8%nat) by done.
  set (m := rec_magic _ _ _) in *. clearbody m.
  (split; [wire_length|]); (split; [by wire_reads|]); (split; [by wire_reads|]); (split; [wire_read|]); (split; [by wire_reads|]);
    split; by wire_reads.
Qed.

(** Writing a slot leaves the other parts alone. *)
Lemma write_slot b k (o : option FsRecord) i j : length b = 3584%nat -> length (slot_bytes o) = 1536%nat -> (k + 1536 <= 3584)%nat ->
  let b' := match o with Some r => write b k (Record_encode r) | None => b end in
  length b' = 3584%nat /\ ((j <= k)%nat \/ (k + 1536 <= i)%nat -> slice b' i j = slice b i j) /\
  (slice b k (k + 1536) = zeros 1536 -> slice b' k (k + 1536) = slot_bytes o).
Proof.
  intros L Lo Hk b'. unfold b'. destruct o as [r|]; cbn [slot_bytes] in *; [|done]. split; [rewrite length_write; lia|]. split.
  - intros [H|H]; [by rewrite slice_write_before by lia|by rewrite slice_write_after by lia].
  - intros _. by rewrite slice_write_same by lia.
Qed.

Lemma Recovery_encode_fields v o0 o1 : rv_records v = [o0; o1] -> length (rv_lineage v) = 16%nat -> fits 64 (rv_epoch v) ->
  length (slot_bytes o0) = 1536%nat -> length (slot_bytes o1) = 1536%nat ->
  let b := Recovery_encode v in
  length b = 3584%nat /\ slice b 0 8 = rec_magic (rv_reasons v) (rv_admissions v) (rv_scoped v) /\ slice b 8 24 = rv_lineage v /\
  u64_at b 24 = rv_epoch v /\ slice b 32 512 = zeros 480 /\ slice b 512 2048 = slot_bytes o0 /\ slice b 2048 3584 = slot_bytes o1.
Proof.
  intros E Ll Fe L0 L1 b. unfold b. rewrite (Recovery_encode_two v o0 o1 E). cbv zeta.
  destruct (prefix_fields v Ll Fe) as (L & R1 & R2 & R3 & R4 & R5 & R6). set (p := prefix_bytes v) in *. clearbody p.
  pose proof (fun i j => write_slot p 512 o0 i j L L0 ltac:(lia)) as W0. cbv zeta in W0.
  set (p0 := match o0 with Some r => write p 512 (Record_encode r) | None => p end) in *. clearbody p0.
  assert (Lp0 : length p0 = 3584%nat) by apply (W0 0 0)%nat.
  pose proof (fun i j => write_slot p0 2048 o1 i j Lp0 L1 ltac:(lia)) as W1. cbv zeta in W1.
  set (p1 := match o1 with Some r => write p0 2048 (Record_encode r) | None => p0 end) in *. clearbody p1.
  assert (Hlow : forall i j, (j <= 512)%nat -> slice p1 i j = slice p i j).
  { intros i j Hj. destruct (W1 i j) as (_ & -> & _); [|lia]. destruct (W0 i j) as (_ & -> & _); [done|lia]. }
  split; [apply (W1 0 0)%nat|]. unfold u64_at in *. cbn [Nat.add] in *. rewrite !Hlow by lia. do 4 (split; [done|]). split.
  - destruct (W1 512 2048)%nat as (_ & -> & _); [|lia]. by apply (W0 0 0)%nat.
  - apply (W1 0 0)%nat. destruct (W0 2048 3584)%nat as (_ & H & _). by rewrite H by lia.
Qed.

Lemma length_Record_encode lineage r : record_fits lineage r -> length (Record_encode r) = RECORD_SIZE.
Proof.
  intros F. rewrite Record_encode_base. pose proof (length_Record_base r). pose proof (rf_size _ _ F). unfold RECORD_SIZE, MAX_FILE in *.
  destruct (rd_admission r); [|wire_length]. unfold Stored_encode. wire_length.
Qed.

Lemma Record_encode_bytes lineage r : record_fits lineage r -> bytes_ok (Record_encode r).
Proof.
  intros F. rewrite Record_encode_base. destruct (Record_base_fields _ _ F) as (_ & _ & _ & B). pose proof (rf_bytes _ _ F).
  destruct (rd_admission r); unfold Stored_encode; cbv zeta; wire_bytes.
Qed.

Lemma two_slots {A} (l : list A) : length l = RETAINED -> exists a b, l = [a; b].
Proof. destruct l as [|a [|b [|]]]; try done. by exists a, b. Qed.

(** Everything but the records matters to a record's validity. *)
Lemma record_ok_value value value' sequence next version r : rv_lineage value = rv_lineage value' -> rv_epoch value = rv_epoch value' ->
  rv_scoped value = rv_scoped value' -> fs_record_ok value sequence next version r -> fs_record_ok value' sequence next version r.
Proof.
  intros E1 E2 E3 [F V A]. split; [by rewrite <- E1|by rewrite <- (values_bad_value value value')|done].
Qed.

Lemma Record_nonzero value sequence next version r : fs_record_ok value sequence next version r -> all_zero (Record_encode r) = false.
Proof.
  intros [F V A]. apply not_true_is_false. intros Hz.
  destruct (Record_encode_fields _ r F) as (P & _ & _ & _).
  { intros a Ea. by destruct (A a Ea). }
  pose proof (pl_subject _ _ P) as Hs. pose proof (pl_length _ _ P) as L. unfold RECORD_SIZE in L.
  rewrite <- (slice_full (Record_encode r) 1536) in Hz by done. rewrite (all_zero_split _ 0 8 1536) in Hz by lia.
  apply andb_true_iff in Hz as [Hz _]. apply all_zero_eq in Hz. unfold u64_at in Hs. cbn [Nat.add] in Hs. rewrite Hz, le_value_zeros in Hs.
  unfold values_bad in V. bools. congruence.
Qed.

Lemma decode_slot value o b sequence next version slot fuel :
  slice b (record_slot slot) (record_slot (S slot)) = slot_bytes o -> rv_records value !! slot = Some None ->
  (forall r, o = Some r -> fs_record_ok value sequence next version r /\ existsb (clash r) (slots (rv_records value)) = false) ->
  decode_slots (S fuel) slot value b sequence next version =
  decode_slots fuel (S slot) (set_record value slot o) b sequence next version.
Proof.
  intros Hs Hv Ho. cbn [decode_slots]. rewrite Hs. destruct o as [r|]; cbn [slot_bytes].
  - destruct (Ho r eq_refl) as [R C]. by rewrite (Record_nonzero _ _ _ _ _ R), (Record_round _ _ _ _ _ R C).
  - rewrite all_zero_zeros. f_equal. unfold set_record. rewrite list_insert_id by done. by destruct value.
Qed.

Lemma version_of_flags v : (rv_reasons v = true -> rv_admissions v = true) -> (rv_admissions v = true -> rv_scoped v = true) ->
  2 <= version_of v <= 5 /\ (3 <=? version_of v) = rv_scoped v /\ (4 <=? version_of v) = rv_admissions v /\ (version_of v =? 5) = rv_reasons v.
Proof. unfold version_of. destruct (rv_reasons v), (rv_admissions v), (rv_scoped v); intros H1 H2; naive_solver lia. Qed.

Lemma slot_lengths sequence next v o0 o1 : recovery_ok sequence next v -> rv_records v = [o0; o1] ->
  length (slot_bytes o0) = 1536%nat /\ length (slot_bytes o1) = 1536%nat.
Proof.
  intros H E. destruct o0 as [r0|], o1 as [r1|]; split; cbn [slot_bytes]; try apply length_zeros;
    first [eapply length_Record_encode, (vo_records _ _ _ H 0%nat); rewrite E; done
          |eapply length_Record_encode, (vo_records _ _ _ H 1%nat); rewrite E; done].
Qed.

Lemma Recovery_round sequence next v : recovery_ok sequence next v ->
  Recovery_decode (Recovery_encode v) sequence next (version_of v) = Ok v.
Proof.
  intros H. destruct (two_slots _ (vo_slots _ _ _ H)) as (o0 & o1 & E). destruct (slot_lengths _ _ _ _ _ H E) as [L0 L1].
  destruct (vo_lineage _ _ _ H) as (Ll & _ & Lz). destruct (vo_epoch _ _ _ H) as [Fe He]. destruct (vo_flags _ _ _ H) as [Hf1 Hf2].
  destruct (Recovery_encode_fields v o0 o1 E Ll Fe L0 L1) as (_ & R1 & R2 & R3 & R4 & R5 & R6).
  destruct (version_of_flags v Hf1 Hf2) as (_ & V3 & V4 & V5). set (b := Recovery_encode v) in *.
  unfold Recovery_decode. rewrite V3, V4, V5, R1, R2, R3, R4. cbv zeta. rewrite bool_decide_true, all_zero_zeros by done. cbn [negb orb].
  unfold Recovery_new. rewrite bool_decide_false by done. cbn [map_err rv_lineage rv_records rv_epoch].
  destruct (Z.eqb_spec (rv_epoch v) 0); [lia|]. destruct (Z.ltb_spec sequence (rv_epoch v)); [lia|]. cbn [orb].
  change (replicate RETAINED None) with [None; @None FsRecord]. change RETAINED with 2%nat.
  rewrite (decode_slot _ o0); [|exact R5|done|].
  2:{ intros r ->. split; [|done]. eapply (record_ok_value v); [done..|]. apply (vo_records _ _ _ H 0%nat). by rewrite E. }
  unfold set_record. cbn [rv_lineage rv_epoch rv_scoped rv_admissions rv_reasons rv_records]. cbn [insert list_insert].
  rewrite (decode_slot _ o1); [|exact R6|done|].
  2:{ intros r ->. split; [eapply (record_ok_value v); [done..|]; apply (vo_records _ _ _ H 1%nat); by rewrite E|].
      cbn [rv_records]. destruct o0 as [r0|]; [|done]. unfold slots. cbn [omap list_omap id existsb]. rewrite orb_false_r.
      apply (vo_distinct _ _ _ H 1%nat 0%nat); [done|by rewrite E|by rewrite E]. }
  unfold set_record. cbn [decode_slots rv_lineage rv_epoch rv_scoped rv_admissions rv_reasons rv_records]. cbn [insert list_insert].
  rewrite <- E. by destruct v.
Qed.

(** ** Every accepted area is the canonical one *)
Lemma decode_slot_inv value b sequence next version slot fuel v : bytes_ok b -> (record_slot (S slot) <= length b)%nat ->
  rv_records value !! slot = Some None ->
  decode_slots (S fuel) slot value b sequence next version = Ok v ->
  exists o, slice b (record_slot slot) (record_slot (S slot)) = slot_bytes o /\
    (forall r, o = Some r -> fs_record_ok value sequence next version r /\ existsb (clash r) (slots (rv_records value)) = false) /\
    decode_slots fuel (S slot) (set_record value slot o) b sequence next version = Ok v.
Proof.
  intros B L Hv H. cbn [decode_slots] in H. set (p := slice b _ _) in *.
  assert (Lp : length p = RECORD_SIZE) by (unfold p; rewrite length_slice by done; unfold record_slot, RECORD_SIZE; lia).
  assert (Bp : bytes_ok p) by (by apply bytes_ok_slice). destruct (all_zero p) eqn:Ez.
  - exists None. cbn [slot_bytes]. split; [apply all_zero_eq in Ez; by rewrite Ez, Lp|]. split; [done|].
    replace (set_record value slot None) with value; [done|]. unfold set_record. rewrite list_insert_id by done. by destruct value.
  - destruct (Record_decode value p sequence next version) as [r| |] eqn:Er; [|done..].
    destruct (Record_decode_spec _ _ _ _ _ _ Bp Lp Er) as (R & C & Hp). exists (Some r). cbn [slot_bytes].
    split; [done|]. split; [by intros ? [= <-]|done].
Qed.

Lemma version_of_parsed lineage epoch records version : 2 <= version <= 5 ->
  version_of (mkRecovery lineage epoch (3 <=? version) (4 <=? version) (version =? 5) records) = version.
Proof.
  intros H. unfold version_of. cbn [rv_reasons rv_admissions rv_scoped].
  destruct (Z.eqb_spec version 5); [done|]. destruct (Z.leb_spec 4 version); [lia|]. destruct (Z.leb_spec 3 version); lia.
Qed.

Lemma Recovery_encode_bytes sequence next v : recovery_ok sequence next v -> bytes_ok (Recovery_encode v).
Proof.
  intros H. destruct (two_slots _ (vo_slots _ _ _ H)) as (o0 & o1 & E). rewrite (Recovery_encode_two _ _ _ E). cbv zeta.
  assert (B : bytes_ok (prefix_bytes v)).
  { unfold prefix_bytes. destruct (vo_lineage _ _ _ H) as (_ & Bl & _). repeat apply bytes_ok_write; try done; try apply bytes_ok_zeros; [|apply bytes_ok_le_bytes].
    destruct (rv_reasons v), (rv_admissions v), (rv_scoped v); by repeat constructor. }
  assert (Hr : forall i r, rv_records v !! i = Some (Some r) -> bytes_ok (Record_encode r))
    by (intros i r Hi; eapply Record_encode_bytes, (vo_records _ _ _ H i r Hi)).
  rewrite E in Hr. destruct o1 as [r1|]; [apply bytes_ok_write; [|by apply (Hr 1%nat)]|];
    (destruct o0 as [r0|]; [apply bytes_ok_write; [done|by apply (Hr 0%nat)]|done]).
Qed.

Lemma Recovery_decode_spec b sequence next version v : bytes_ok b -> length b = 3584%nat -> 2 <= version <= 5 ->
  Recovery_decode b sequence next version = Ok v ->
  recovery_ok sequence next v /\ version_of v = version /\ Recovery_encode v = b.
Proof.
  intros B L Hv H. unfold Recovery_decode in H. guards H. bools.
  unfold Recovery_new in H. destruct (bool_decide (_ = zeros 16)) eqn:Ez; [done|]. bools.
  cbn [map_err rv_lineage rv_records rv_epoch] in H. cbv zeta in H. guards H. bools.
  change (replicate RETAINED None) with [None; @None FsRecord] in H. change RETAINED with 2%nat in H.
  set (value := mkRecovery _ _ _ _ _ _) in H.
  apply (decode_slot_inv value) in H as (o0 & S0 & K0 & H); [|done|rewrite L; unfold record_slot, RECORD_SIZE; lia|done].
  apply decode_slot_inv in H as (o1 & S1 & K1 & H); [|done|rewrite L; unfold record_slot, RECORD_SIZE; lia|done].
  unfold decode_slots, set_record, value in H. cbn [rv_lineage rv_epoch rv_scoped rv_admissions rv_reasons rv_records] in H.
  cbn [insert list_insert] in H. injection H as <-. set (v := mkRecovery _ _ _ _ _ _).
  pose proof (version_of_parsed (slice b 8 24) (u64_at b 24) [o0; o1] version Hv) as Ev. fold v in Ev.
  assert (Hok : recovery_ok sequence next v).
  { split; unfold v; cbn [rv_lineage rv_epoch rv_scoped rv_admissions rv_reasons rv_records].
    - split; [by rewrite length_slice by lia|]. split; [by apply bytes_ok_slice|done].
    - unfold u64_at in *. cbn [Nat.add] in *. pose proof (field_fits b 24 32 8 64 B ltac:(lia) ltac:(lia) eq_refl) as F. split; [done|]. unfold fits in F. lia.
    - lia.
    - done.
    - fold v. rewrite Ev. intros [|[|i]] r Hi; cbn in Hi; [| |done]; injection Hi as ->.
      + eapply (record_ok_value value); [done..|]. by apply K0.
      + eapply record_ok_value; [| | |by apply K1]; done.
    - assert (Hc : forall r0 r1, o0 = Some r0 -> o1 = Some r1 -> clash r1 r0 = false).
      { intros r0 r1 -> ->. destruct (K1 r1 eq_refl) as [_ C]. unfold slots in C. cbn [set_record value rv_records insert list_insert omap list_omap id existsb] in C.
        by rewrite orb_false_r in C. }
      intros [|[|i]] [|[|j]] r r' Hne Hi Hj; try done; cbn in Hi, Hj; injection Hi as ->; injection Hj as ->; [rewrite clash_sym|]; by apply Hc. }
  split; [done|]. split; [done|].
  destruct (slot_lengths _ _ v o0 o1 Hok eq_refl) as [L0 L1]. destruct (vo_lineage _ _ _ Hok) as (Ll & _ & _). destruct (vo_epoch _ _ _ Hok) as [Fe _].
  destruct (Recovery_encode_fields v o0 o1 eq_refl Ll Fe L0 L1) as (Le & R1 & R2 & R3 & R4 & R5 & R6).
  pose proof (Recovery_encode_bytes _ _ _ Hok) as Be.
  apply (eq_by_fields _ _ [8; 24; 32; 512; 2048; 3584]%nat). cbn [same_fields]. repeat match goal with |- _ /\ _ => split end; try lia.
  - by rewrite R1.
  - by rewrite R2.
  - apply field_eq; [done|done|lia|lia|]. exact R3.
  - rewrite R4. match goal with H : all_zero (slice b 32 512) = true |- _ => apply all_zero_eq in H; by rewrite H, length_slice by lia end.
  - rewrite R5. by symmetry.
  - rewrite R6. by symmetry.
Qed.

(** Refusals are always [Corrupt]. *)
Lemma Stored_decode_refusal p version receipt ns sequence :
  match Stored_decode p version receipt ns sequence with Ok _ => True | Err e => e = ECorrupt | Panic => False end.
Proof.
  unfold Stored_decode. destruct (all_zero _); [done|]. destruct (_ || _); [done|]. cbv zeta. unfold FsState_parse.
  assert (Hr : forall v, match reason_parse v with Ok _ => True | Err e => e = ECorrupt | Panic => False end).
  { intros v. unfold reason_parse. by repeat (destruct (_ =? _); [done|]). }
  specialize (Hr (byte_at p 81)). unfold cause_parse.
  destruct (_ =? 1); [|destruct (_ =? 2); [destruct (reason_parse _); try done|destruct (_ =? 3); [|done]]];
    try (destruct (_ =? 0); [|done]); by destruct (stored_bad _ _ _ _).
Qed.

Lemma decode_slots_refusal fuel slot value b sequence next version :
  match decode_slots fuel slot value b sequence next version with Ok _ => True | Err e => e = ECorrupt | Panic => False end.
Proof.
  revert slot value. induction fuel as [|fuel IH]; intros slot value; [done|]. cbn [decode_slots]. destruct (all_zero _); [apply IH|].
  unfold Record_decode. cbv zeta. set (p := slice _ _ _).
  match goal with |- context [Stored_decode ?p ?v ?r ?n ?s] => pose proof (Stored_decode_refusal p v r n s); destruct (Stored_decode p v r n s) end;
    [|done|done]. destruct (_ || _); [done|apply IH].
Qed.

Lemma Recovery_decode_refusal b sequence next version :
  match Recovery_decode b sequence next version with Ok _ => True | Err e => e = ECorrupt | Panic => False end.
Proof.
  unfold Recovery_decode. destruct (_ || _); [done|]. unfold Recovery_new. destruct (bool_decide _); [done|]. cbn [map_err]. cbv zeta.
  destruct (_ || _); [done|apply decode_slots_refusal].
Qed.
