(* ===== verification/FsFormat.v ===== *)
(** * Volume metadata: the two-bank generation format

    crates/fs/src/format.rs and format/publication.rs: the metadata record, its
    validation, its reading from one bank, and the flush-ordered commands that
    publish it to a bank. *)
From stdpp Require Import base list option numbers.
From Stdlib Require Import ZArith Lia Bool.
From S2P Require Import Prelude Bytes Codec FsDisk FsNode FsRecovery.

Record Metadata := mkMetadata {
  m_sequence : Z;
  m_next : Z;
  m_nodes : list Node;
  m_recovery : option Recovery;
}.
#[export] Instance Metadata_eq_dec : EqDecision Metadata.
Proof. solve_decision. Defined.

Definition set_nodes (m : Metadata) (nodes : list Node) : Metadata := mkMetadata (m_sequence m) (m_next m) nodes (m_recovery m).
Definition set_sequence (m : Metadata) (q : Z) : Metadata := mkMetadata q (m_next m) (m_nodes m) (m_recovery m).
Definition set_recovery (m : Metadata) (r : option Recovery) : Metadata := mkMetadata (m_sequence m) (m_next m) (m_nodes m) r.

(** [b"system"], [b"data"], [b"config"], [b"workspaces"]. *)
Definition root_names : list (list Z) :=
  [[115; 121; 115; 116; 101; 109]; [100; 97; 116; 97]; [99; 111; 110; 102; 105; 103];
   [119; 111; 114; 107; 115; 112; 97; 99; 101; 115]].

(** [Node::new(..).unwrap()] for the four roots; the other slots are empty. *)
Fixpoint initial_roots (i : Z) (names : list (list Z)) : outcome FsError (list Node) :=
  match names with
  | [] => Ok []
  | name :: names =>
    match Node_new (i + 1) 0 (i + 1) KDirectory name 1 with
    | Ok n => let? rest := initial_roots (i + 1) names in Ok (n :: rest)
    | _ => Panic
    end
  end.

Definition Metadata_initial : outcome FsError Metadata :=
  let? roots := initial_roots 0 root_names in
  Ok (mkMetadata 1 5 (roots ++ replicate (OBJECTS - 4) Node_EMPTY) None).

Definition live (n : Node) : bool := negb (kind_is (n_kind n) KEmpty).

Definition Metadata_index (m : Metadata) (id : Z) : outcome FsError nat :=
  ok_or (position (fun n => (n_id n =? id) && live n) (m_nodes m)) ENotFound.

(** [&self.nodes[i]]. *)
Definition node_at (m : Metadata) (i : nat) : outcome FsError Node :=
  match m_nodes m !! i with Some n => Ok n | None => Panic end.

(** [&self.nodes[self.index(id)?]]. *)
Definition node_of (m : Metadata) (id : Z) : outcome FsError Node :=
  let? i := Metadata_index m id in node_at m i.

Definition Metadata_bytes (m : Metadata) : list Z := concat (Node_encode <$> m_nodes m).

(** ** Validation *)
Definition corrupt {A} (r : outcome FsError A) : outcome FsError A := map_err (fun _ => ECorrupt) r.

Fixpoint ancestor_loop (fuel depth : nat) (m : Metadata) (id ancestor : Z) : outcome FsError unit :=
  match fuel with
  | O => Ok tt
  | S fuel =>
    if (ancestor =? id) || (depth =? OBJECTS - 1)%nat then Err ECorrupt
    else
      let? a := corrupt (node_of m ancestor) in
      if n_parent a =? 0 then Ok tt else ancestor_loop fuel (S depth) m id (n_parent a)
  end.

Definition root_name_bad (n : Node) : outcome FsError bool :=
  if (4 <? n_id n) || negb (kind_is (n_kind n) KDirectory) || negb (n_space n =? n_id n mod 256) then Ok true
  else if n_id n <? 1 then Panic
  else match root_names !! Z.to_nat (n_id n - 1) with
       | Some name => Ok (negb (bool_decide (Node_name n = name)))
       | None => Panic
       end.

Definition validate_place (m : Metadata) (n : Node) : outcome FsError unit :=
  if n_parent n =? 0 then
    let? bad := root_name_bad n in
    if bad : bool then Err ECorrupt else Ok tt
  else
    let? parent := corrupt (node_of m (n_parent n)) in
    if negb (kind_is (n_kind parent) KDirectory) || negb (n_space parent =? n_space n) then Err ECorrupt
    else ancestor_loop OBJECTS 0 m (n_id n) (n_parent n).

Definition same_entry (n n' : Node) : bool :=
  live n' && ((n_id n' =? n_id n) || ((n_parent n' =? n_parent n) && bool_decide (Node_name n' = Node_name n))).

Fixpoint validate_nodes (m : Metadata) (index : nat) (l : list Node) : outcome FsError unit :=
  match l with
  | [] => Ok tt
  | n :: l =>
    if kind_is (n_kind n) KEmpty then validate_nodes m (S index) l
    else if (m_next m <=? n_id n) || (m_sequence m <? n_version n) then Err ECorrupt
    else
      let? _ := validate_place m n in
      if existsb (same_entry n) (take index (m_nodes m)) then Err ECorrupt
      else validate_nodes m (S index) l
  end.

Fixpoint validate_roots (m : Metadata) (ids : list Z) : outcome FsError unit :=
  match ids with
  | [] => Ok tt
  | id :: ids =>
    let? n := corrupt (node_of m id) in
    if negb (n_parent n =? 0) then Err ECorrupt else validate_roots m ids
  end.

Definition Metadata_validate (m : Metadata) : outcome FsError unit :=
  if (m_sequence m =? 0) || (m_next m <? 5) then Err ECorrupt
  else
    let? _ := validate_nodes m 0 (m_nodes m) in
    validate_roots m [1; 2; 3; 4].

(** ** Reading one bank *)
Definition fs_magic : list Z := [82; 85; 83; 84; 70; 83; 49; 0].

Definition header_bad (b : list Z) : bool :=
  negb (bool_decide (slice b 0 8 = fs_magic)) || negb ((1 <=? byte_at b 8) && (byte_at b 8 <=? 5))
  || negb (bool_decide (slice b 9 12 = [0; 0; 2])) || negb (all_zero (slice b 36 512))
  || ((byte_at b 8 =? 1) && negb (bool_decide (slice b 32 36 = zeros 4))).

Definition check_header (b : list Z) : outcome FsError unit :=
  if bool_decide (b = zeros 512) then Err EEmpty
  else if header_bad b then Err ECorrupt
  else if negb (u32_at b 28 =? crc (write b 28 (zeros 4))) then Err ECorrupt
  else Ok tt.

(** [as_chunks::<n>().0]. *)
Fixpoint chunks (fuel n : nat) (b : list Z) : list (list Z) :=
  match fuel with O => [] | S fuel => take n b :: chunks fuel n (drop n b) end.

Fixpoint decode_nodes (l : list (list Z)) : outcome FsError (list Node) :=
  match l with
  | [] => Ok []
  | b :: l => let? n := Node_decode b in let? rest := decode_nodes l in Ok (n :: rest)
  end.

(** The parsing of a bank once its sectors are read. *)
Definition parse_nodes (b bytes : list Z) : outcome FsError (list Node) :=
  if negb (crc bytes =? u32_at b 24) then Err ECorrupt else decode_nodes (chunks OBJECTS NODE_SIZE bytes).

Definition parse_records (b records : list Z) : outcome FsError Recovery :=
  if negb (crc records =? u32_at b 32) then Err ECorrupt
  else Recovery_decode records (u64_at b 12) (u32_at b 20) (byte_at b 8).

Definition checked (m : Metadata) : outcome FsError Metadata := let? _ := Metadata_validate m in Ok m.

Section Reading.
Context {D : Type} `{Disk D}.

Fixpoint read_sectors (d : D) (start : Z) (count : nat) : outcome FsError (list Z) * D :=
  match count with
  | O => (Ok [], d)
  | S count =>
    let* (b, d) := disk_read d start in
    let* (rest, d) := read_sectors d (start + 1) count in
    (Ok (b ++ rest), d)
  end.

Definition Metadata_read (d : D) (bank : Z) : outcome FsError Metadata * D :=
  let* (b, d) := disk_read d (header_sector bank) in
  let* (_, d) := (check_header b, d) in
  let* (bytes, d) := read_sectors d (header_sector bank + 1) 4 in
  let* (nodes, d) := (parse_nodes b bytes, d) in
  if 2 <=? byte_at b 8 then
    let* (records, d) := read_sectors d (records_sector bank) RECOVERY_SECTORS in
    let* (r, d) := (parse_records b records, d) in
    (checked (mkMetadata (u64_at b 12) (u32_at b 20) nodes (Some r)), d)
  else (checked (mkMetadata (u64_at b 12) (u32_at b 20) nodes None), d).
End Reading.

(** ** Publishing (format/publication.rs) *)
Definition is_scoped (m : Metadata) : bool := match m_recovery m with Some _ => true | None => false end.

Definition write_steps (m : Metadata) : nat := if is_scoped m then 14 else 7.

Definition publication_version (m : Metadata) : Z := match m_recovery m with Some r => version_of r | None => 1 end.

Definition publication_header (m : Metadata) : list Z :=
  let b := zeros 512 in
  let b := write b 0 fs_magic in
  let b := write b 8 (le_bytes 2 (publication_version m)) in
  let b := write b 10 (le_bytes 2 512) in
  let b := write b 12 (le_bytes 8 (m_sequence m)) in
  let b := write b 20 (le_bytes 4 (m_next m)) in
  let b := write b 24 (le_bytes 4 (crc (Metadata_bytes m))) in
  let b := write b 32 (le_bytes 4 (match m_recovery m with Some r => crc (Recovery_encode r) | None => 0 end)) in
  write b 28 (le_bytes 4 (crc b)).

(** [bytes.as_chunks::<512>().0[i]]. *)
Definition sector_at (bytes : list Z) (i : nat) : list Z := slice bytes (i * 512) (S i * 512).

Definition Metadata_command (m : Metadata) (bank : Z) (step : nat) : outcome FsError Command :=
  let records := if is_scoped m then 7%nat else 0%nat in
  if (step <? records)%nat then
    match m_recovery m with
    | Some r => Ok (CWrite (records_sector bank + Z.of_nat step) (sector_at (Recovery_encode r) step))
    | None => Panic
    end
  else
    let i := (step - records)%nat in
    if (i <=? 3)%nat then Ok (CWrite (header_sector bank + 1 + Z.of_nat i) (sector_at (Metadata_bytes m) i))
    else if (i =? 4)%nat || (i =? 6)%nat then Ok CFlush
    else if (i =? 5)%nat then Ok (CWrite (header_sector bank) (publication_header m))
    else Err EInvalid.

Section Writing.
Context {D : Type} `{Disk D}.

Definition write_step (m : Metadata) (d : D) (bank : Z) (step : nat) : outcome FsError unit * D :=
  let* (c, d) := (Metadata_command m bank step, d) in Command_execute c d.

(** [for step in 0..self.write_steps()]. *)
Fixpoint write_loop (m : Metadata) (d : D) (bank : Z) (step todo : nat) : outcome FsError unit * D :=
  match todo with
  | O => (Ok tt, d)
  | S todo => let* (_, d) := write_step m d bank step in write_loop m d bank (S step) todo
  end.

Definition Metadata_write (m : Metadata) (d : D) (bank : Z) : outcome FsError unit * D := write_loop m d bank 0 (write_steps m).
End Writing.

(** ** A bank of the volume, read from an image

    [read_image] is what [Metadata_read] returns when no read fails.  It depends
    only on the sectors of the bank, it yields valid metadata, its sequence is
    the header's, and it reads back what [Metadata_command] writes. *)
Fixpoint sectors (s : image) (start : Z) (count : nat) : list Z :=
  match count with O => [] | S count => s start ++ sectors s (start + 1) count end.

Definition read_image (s : image) (bank : Z) : outcome FsError Metadata :=
  let b := s (header_sector bank) in
  let? _ := check_header b in
  let? nodes := parse_nodes b (sectors s (header_sector bank + 1) 4) in
  if 2 <=? byte_at b 8 then
    let? r := parse_records b (sectors s (records_sector bank) RECOVERY_SECTORS) in
    checked (mkMetadata (u64_at b 12) (u32_at b 20) nodes (Some r))
  else checked (mkMetadata (u64_at b 12) (u32_at b 20) nodes None).

(** The sectors of a bank. *)
Definition bank_sector (bank n : Z) : Prop :=
  header_sector bank <= n < header_sector bank + 5 \/ records_sector bank <= n < records_sector bank + 7.

Lemma sectors_ext s s' start count : (forall n, start <= n < start + Z.of_nat count -> s n = s' n) -> sectors s start count = sectors s' start count.
Proof.
  revert start. induction count as [|c IH]; intros start H; [done|]. cbn [sectors].
  rewrite (H start) by lia. f_equal. apply IH. intros n Hn. apply H. lia.
Qed.

Lemma read_image_ext s s' bank : (forall n, bank_sector bank n -> s n = s' n) -> read_image s bank = read_image s' bank.
Proof.
  intros H. unfold read_image. rewrite (H (header_sector bank)) by (left; lia).
  rewrite (sectors_ext s s' (header_sector bank + 1) 4) by (intros; apply H; left; lia).
  rewrite (sectors_ext s s' (records_sector bank) RECOVERY_SECTORS) by (intros; apply H; right; unfold RECOVERY_SECTORS in *; lia).
  done.
Qed.

(** ** Reading through a disk *)
Section Reads.
Context {D : Type} {HD : Disk D} {HV : DiskView D} {HL : DiskLaws D}.

(** A read error of the device: never taken for an invalid generation. *)
Definition device_error (e : FsError) : Prop := e <> EEmpty /\ e <> ECorrupt.

(** The call left the disk alone and returned [r], or failed with a device error. *)
Definition reads_as {A} (d : D) (x : outcome FsError A * D) (r : outcome FsError A) : Prop :=
  undisturbed d x.2 /\ (x.1 = r \/ exists e, x.1 = Err e /\ device_error e).

Lemma undisturbed_trans (d d' d'' : D) : undisturbed d d' -> undisturbed d' d'' -> undisturbed d d''.
Proof. intros [H1 H2] [H3 H4]. split; [intros; by rewrite H3, H1|auto]. Qed.

Lemma disk_read_reads d n : reads_as d (disk_read d n) (Ok (contents d n)).
Proof.
  unfold reads_as. destruct (disk_read d n) as [r d'] eqn:E. destruct (read_law _ _ _ _ E) as [U Hr]. split; [done|].
  destruct r as [b|e|]; [left; by rewrite Hr|right; by exists e|done].
Qed.

Lemma reads_bind {A B} d (x : outcome FsError A * D) a (f : A -> D -> outcome FsError B * D) (r : outcome FsError B) :
  reads_as d x (Ok a) -> (forall d', undisturbed d d' -> reads_as d' (f a d') r) ->
  reads_as d (let* (a, d') := x in f a d') r.
Proof.
  destruct x as [o d']. intros [U [E|(e' & E & He)]] Hf; cbn in *; subst.
  - destruct (Hf d' U) as [U' Hr]. split; [by eapply undisturbed_trans|done].
  - split; [done|]. right. by exists e'.
Qed.

Lemma reads_pure {A} (d : D) (r : outcome FsError A) : reads_as d (r, d) r.
Proof. split; [done|by left]. Qed.

Lemma read_sectors_reads d start count s : (forall n, contents d n = s n) -> reads_as d (read_sectors d start count) (Ok (sectors s start count)).
Proof.
  revert d start. induction count as [|c IH]; intros d start Hs; [apply reads_pure|]. cbn [read_sectors sectors].
  eapply reads_bind; [apply disk_read_reads|]. intros d' U. eapply reads_bind; [apply IH; intros; rewrite <- Hs; apply U|].
  intros d'' U'. rewrite Hs. apply reads_pure.
Qed.

Lemma Metadata_read_reads d bank : reads_as d (Metadata_read d bank) (read_image (contents d) bank).
Proof.
  unfold Metadata_read, read_image. set (s := contents d). eapply reads_bind; [apply disk_read_reads|]. intros d1 U1. fold s.
  set (b := s (header_sector bank)). destruct (check_header b); [|apply reads_pure..].
  eapply reads_bind; [apply read_sectors_reads, U1|]. intros d2 U2. destruct (parse_nodes _ _); [|apply reads_pure..].
  destruct (2 <=? byte_at b 8); [|apply reads_pure].
  eapply reads_bind; [apply read_sectors_reads; intros n; destruct U1 as [U1 _], U2 as [U2 _]; rewrite U2; apply U1|].
  intros d3 U3. destruct (parse_records _ _); apply reads_pure.
Qed.
End Reads.

(** ** Valid metadata *)
Record metadata_ok (m : Metadata) : Prop := {
  mo_sequence : fits 64 (m_sequence m);
  mo_next : fits 32 (m_next m);
  mo_count : length (m_nodes m) = OBJECTS;
  mo_nodes : Forall Node_valid (m_nodes m);
  mo_valid : Metadata_validate m = Ok tt;
  mo_recovery : forall r, m_recovery m = Some r -> recovery_ok (m_sequence m) (m_next m) r;
}.

(** *** Checksums are 32-bit words *)
Lemma fits_lxor w a b : 0 <= w -> fits w a -> fits w b -> fits w (Z.lxor a b).
Proof.
  intros Hw [Ha Ha'] [Hb Hb']. assert (0 <= Z.lxor a b) by (apply Z.lxor_nonneg; lia). split; [done|].
  rewrite Z.bounded_iff_bits_nonneg in * by lia. intros l Hl. by rewrite Z.lxor_spec, Ha', Hb'.
Qed.

Lemma fits_land_l w a b : 0 <= w -> fits w a -> fits w (Z.land a b).
Proof.
  intros Hw [Ha Ha']. assert (0 <= Z.land a b) by (apply Z.land_nonneg; lia). split; [done|].
  rewrite Z.bounded_iff_bits_nonneg in * by lia. intros l Hl. by rewrite Z.land_spec, Ha'.
Qed.

Lemma crc_bit_fits v : fits 32 v -> fits 32 (crc_bit v).
Proof.
  intros Hv. unfold crc_bit. apply fits_lxor; [lia| |].
  - unfold fits in *. rewrite Z.shiftr_div_pow2 by lia. change (2 ^ 1) with 2. split; [apply Z.div_pos; lia|].
    apply Z.div_lt_upper_bound; lia.
  - apply fits_land_l; [lia|by vm_compute].
Qed.

Lemma crc_byte_fits v b : fits 32 v -> is_byte b -> fits 32 (crc_byte v b).
Proof.
  intros Hv Hb. unfold crc_byte. assert (H0 : fits 32 (Z.lxor v b)) by (apply fits_lxor; [lia|done|unfold fits, is_byte in *; lia]).
  revert H0. generalize (Z.lxor v b). intros x Hx. do 8 (apply crc_bit_fits in Hx). exact Hx.
Qed.

Lemma crc_fits b : bytes_ok b -> fits 32 (crc b).
Proof.
  intros Hb. unfold crc, unot. apply fits_lxor; [lia| |by vm_compute].
  assert (H : forall v, fits 32 v -> fits 32 (crc_update v b)); [|by apply H; vm_compute].
  unfold crc_update. induction Hb as [|x l Hx Hl IH]; intros v Hv; [done|]. simpl. apply IH. by apply crc_byte_fits.
Qed.

(** *** Sectors of a longer record *)
Lemma sector_at_length b n i : length b = (n * 512)%nat -> (i < n)%nat -> length (sector_at b i) = 512%nat.
Proof. intros L Hi. unfold sector_at. rewrite length_slice; lia. Qed.

Lemma sector_at_ok b n i : bytes_ok b -> length b = (n * 512)%nat -> (i < n)%nat -> is_sector (sector_at b i).
Proof. intros B L Hi. split; [by eapply sector_at_length|by apply bytes_ok_slice]. Qed.

Lemma sectors_rebuild s start n b : length b = (n * 512)%nat ->
  (forall i, (i < n)%nat -> s (start + Z.of_nat i) = sector_at b i) -> sectors s start n = b.
Proof.
  intros L H. enough (Hg : forall k st, (k <= n)%nat -> (forall i, (i < k)%nat -> s (st + Z.of_nat i) = sector_at b (n - k + i)%nat) ->
    sectors s st k = slice b ((n - k) * 512) (n * 512)).
  { rewrite (Hg n start); [|done|].
    - rewrite Nat.sub_diag. by apply slice_full.
    - intros i Hi. by rewrite Nat.sub_diag, H. }
  induction k as [|k IH]; intros st Hk Hs.
  { rewrite Nat.sub_0_r. unfold slice. by rewrite Nat.sub_diag. }
  cbn [sectors]. pose proof (Hs 0%nat ltac:(lia)) as H0. rewrite Z.add_0_r, Nat.add_0_r in H0. rewrite H0, (IH (st + 1)); [|lia|].
  - unfold sector_at. replace (n - k)%nat with (S (n - S k))%nat by lia. apply slice_app; lia.
  - intros i Hi. replace (st + 1 + Z.of_nat i) with (st + Z.of_nat (S i)) by lia. rewrite Hs by lia. f_equal. lia.
Qed.

Lemma sectors_length s start n : image_ok s -> length (sectors s start n) = (n * 512)%nat /\ bytes_ok (sectors s start n).
Proof.
  intros Hs. revert start. induction n as [|n IH]; intros start; [split; [done|constructor]|]. cbn [sectors].
  destruct (IH (start + 1)) as [L B], (Hs start) as [L' B']. rewrite length_app, L, L'. split; [lia|]. by apply Forall_app.
Qed.

(** *** The node table *)
Lemma length_Metadata_bytes m : metadata_ok m -> length (Metadata_bytes m) = 2048%nat /\ bytes_ok (Metadata_bytes m).
Proof.
  intros H. unfold Metadata_bytes. pose proof (mo_count _ H) as L. pose proof (mo_nodes _ H) as V. unfold OBJECTS in L.
  assert (Hg : forall l, Forall Node_valid l -> length (concat (Node_encode <$> l)) = (length l * 64)%nat /\ bytes_ok (concat (Node_encode <$> l))).
  { intros l Hl. induction Hl as [|n l Hn Hl [IH1 IH2]]; [split; [done|constructor]|]. cbn. rewrite length_app, IH1, length_Node_encode by done.
    split; [done|]. apply Forall_app. split; [by apply Node_encode_bytes|done]. }
  destruct (Hg _ V) as [H1 H2]. rewrite H1, L. done.
Qed.

Lemma decode_nodes_round l : Forall Node_valid l -> decode_nodes (chunks (length l) NODE_SIZE (concat (Node_encode <$> l))) = Ok l.
Proof.
  induction 1 as [|n l Hn Hl IH]; [done|]. cbn [length chunks fmap list_fmap concat]. pose proof (length_Node_encode n Hn) as L.
  rewrite take_app_length' by done. rewrite drop_app_length' by done. cbn [decode_nodes]. rewrite Node_round by done.
  change (list_fmap Node Z) with (@fmap list _ Node Z) in *. by rewrite IH.
Qed.

Lemma decode_nodes_spec k b l : bytes_ok b -> length b = (k * NODE_SIZE)%nat -> decode_nodes (chunks k NODE_SIZE b) = Ok l ->
  length l = k /\ Forall Node_valid l /\ concat (Node_encode <$> l) = b.
Proof.
  revert b l. induction k as [|k IH]; intros b l B L H; cbn [chunks decode_nodes] in H.
  { injection H as <-. destruct b; [done|]. done. }
  destruct (Node_decode (take NODE_SIZE b)) as [n| |] eqn:En; [|done..].
  destruct (decode_nodes _) as [rest| |] eqn:Er; [|done..]. injection H as <-.
  apply Node_canonical in En as [Vn En]; [|by apply Forall_take].
  apply IH in Er as (Lr & Vr & Cr); [|by apply Forall_drop|rewrite length_drop; lia].
  split; [cbn; lia|]. split; [by constructor|]. cbn. rewrite En, Cr. apply take_drop.
Qed.

Lemma decode_nodes_refusal l : match decode_nodes l with Ok _ => True | Err e => e = ECorrupt | Panic => False end.
Proof.
  induction l as [|b l IH]; [done|]. cbn [decode_nodes]. pose proof (Node_decode_error b). pose proof (Node_decode_total b).
  destruct (Node_decode b); [|by eauto|done]. by destruct (decode_nodes l).
Qed.

(** *** The header *)
Lemma publication_version_range m : metadata_ok m -> 1 <= publication_version m <= 5 /\
  (publication_version m = 1 <-> m_recovery m = None).
Proof.
  intros H. unfold publication_version. destruct (m_recovery m) as [r|] eqn:E; [|split; [lia|done]].
  destruct (vo_flags _ _ _ (mo_recovery _ H r E)) as [F1 F2]. destruct (version_of_flags r F1 F2) as [Hv _]. split; [lia|]. split; [lia|done].
Qed.

Definition records_crc (m : Metadata) : Z := match m_recovery m with Some r => crc (Recovery_encode r) | None => 0 end.

Lemma records_crc_fits m : metadata_ok m -> fits 32 (records_crc m).
Proof.
  intros H. unfold records_crc. destruct (m_recovery m) as [r|] eqn:E; [|by vm_compute].
  apply crc_fits. eapply Recovery_encode_bytes. by apply (mo_recovery _ H).
Qed.

Lemma le_two v : 1 <= v <= 5 -> le_bytes 2 v = [v; 0].
Proof. intros H. unfold le_bytes. by rewrite Z.mod_small, Z.div_small by lia. Qed.

(** The header before its own checksum is written. *)
Definition bare_header (m : Metadata) : list Z :=
  write (write (write (write (write (write (write (zeros 512) 0 fs_magic) 8 (le_bytes 2 (publication_version m))) 10 (le_bytes 2 512)) 12
    (le_bytes 8 (m_sequence m))) 20 (le_bytes 4 (m_next m))) 24 (le_bytes 4 (crc (Metadata_bytes m)))) 32 (le_bytes 4 (records_crc m)).

Lemma publication_header_eq m : publication_header m = write (bare_header m) 28 (le_bytes 4 (crc (bare_header m))).
Proof. done. Qed.

Lemma bare_header_fields m : metadata_ok m -> let b := bare_header m in
  length b = 512%nat /\ bytes_ok b /\ slice b 0 8 = fs_magic /\ slice b 8 10 = le_bytes 2 (publication_version m) /\ slice b 10 12 = le_bytes 2 512 /\
  u64_at b 12 = m_sequence m /\ u32_at b 20 = m_next m /\ u32_at b 24 = crc (Metadata_bytes m) /\ slice b 28 32 = zeros 4 /\
  slice b 32 36 = le_bytes 4 (records_crc m) /\ slice b 36 512 = zeros 476.
Proof.
  intros H b. destruct (length_Metadata_bytes m H) as [_ B]. pose proof (crc_fits _ B) as Fc. pose proof (mo_sequence _ H) as Fs. pose proof (mo_next _ H) as Fn.
  assert (Lm : length fs_magic = 8%nat) by done. assert (Bm : bytes_ok fs_magic) by (by repeat constructor).
  unfold b, bare_header. set (g := fs_magic) in *. clearbody g. split; [wire_length|]. split; [wire_bytes|].
  do 3 (split; [by wire_reads|]). do 3 (split; [wire_read|]). repeat (split; [by wire_reads|]). by wire_reads.
Qed.

(** Overwriting a field with what it already holds changes nothing. *)
Lemma write_slice_id b i j : (i <= j)%nat -> (j <= length b)%nat -> write b i (slice b i j) = b.
Proof.
  intros Hi Hj. unfold write. rewrite length_slice by done. replace (i + (j - i))%nat with j by lia.
  rewrite <- (take_drop i b) at 4. f_equal. rewrite <- (take_drop (j - i) (drop i b)). unfold slice. f_equal. rewrite drop_drop. f_equal. lia.
Qed.

Lemma write_write b i x y : length x = length y -> (i + length x <= length b)%nat -> write (write b i x) i y = write b i y.
Proof.
  intros L Hi. unfold write. rewrite take_app_length' by (rewrite length_take; lia). f_equal. f_equal.
  rewrite app_assoc, drop_app_length'; [by rewrite L|]. rewrite length_app, length_take. lia.
Qed.

(** A header with these fields passes the checks. *)
Lemma check_header_ok h v : is_sector h -> 1 <= v <= 5 -> slice h 0 8 = fs_magic -> slice h 8 10 = [v; 0] -> slice h 10 12 = [0; 2] ->
  slice h 36 512 = zeros 476 -> (v = 1 -> slice h 32 36 = zeros 4) -> u32_at h 28 = crc (write h 28 (zeros 4)) ->
  byte_at h 8 = v /\ check_header h = Ok tt.
Proof.
  intros [L B] Hv R0 R8 R10 R36 R32 Rc.
  assert (E8 : slice h 8 9 = [v]) by (replace (slice h 8 9) with (slice (slice h 8 10) 0 1); [by rewrite R8|by rewrite slice_slice by lia]).
  assert (E9 : slice h 9 12 = [0; 0; 2]).
  { rewrite <- (slice_app h 9 10 12), R10 by lia.
    replace (slice h 9 10) with (slice (slice h 8 10) 1 2) by (by rewrite slice_slice by lia). by rewrite R8. }
  assert (B8 : byte_at h 8 = v) by (unfold byte_at; cbn [Nat.add]; rewrite E8; unfold le_value; lia).
  split; [done|]. unfold check_header. rewrite bool_decide_false.
  2:{ intros Ez. rewrite Ez, slice_zeros in E8 by lia. injection E8. lia. }
  unfold header_bad. rewrite B8, E9, R0, R36, Rc, Z.eqb_refl, all_zero_zeros, !(bool_decide_true (_ = _)) by done.
  rewrite (proj2 (Z.leb_le 1 _)), (proj2 (Z.leb_le _ 5)) by lia. cbn [negb andb orb].
  destruct (Z.eqb_spec v 1) as [E1|]; [|done]. by rewrite bool_decide_true by auto.
Qed.

Lemma publication_header_fields m : metadata_ok m -> let h := publication_header m in
  is_sector h /\ check_header h = Ok tt /\ byte_at h 8 = publication_version m /\ u64_at h 12 = m_sequence m /\ u32_at h 20 = m_next m /\
  u32_at h 24 = crc (Metadata_bytes m) /\ u32_at h 32 = records_crc m.
Proof.
  intros H h. destruct (bare_header_fields m H) as (L & B & R0 & R8 & R10 & R12 & R20 & R24 & R28 & R32 & R36).
  destruct (publication_version_range m H) as [Hv Hv1]. pose proof (records_crc_fits m H) as Fr. pose proof (crc_fits _ B) as Fc.
  unfold h. rewrite publication_header_eq. set (b := bare_header m) in *. clearbody b. clear h.
  assert (Hlow : forall i j, (j <= 28)%nat -> slice (write b 28 (le_bytes 4 (crc b))) i j = slice b i j)
    by (intros; apply slice_write_before; lia).
  assert (Hhigh : forall i j, (32 <= i)%nat -> slice (write b 28 (le_bytes 4 (crc b))) i j = slice b i j)
    by (intros; apply slice_write_after; rewrite length_le_bytes; lia).
  assert (Hw : write (write b 28 (le_bytes 4 (crc b))) 28 (zeros 4) = b).
  { rewrite write_write by (rewrite ?length_le_bytes, ?length_zeros; lia). rewrite <- R28. apply write_slice_id; lia. }
  assert (Hc : u32_at (write b 28 (le_bytes 4 (crc b))) 28 = crc b).
  { unfold u32_at. rewrite slice_write_same by (rewrite ?length_le_bytes; lia). by apply le_value_bytes. }
  assert (Hs : is_sector (write b 28 (le_bytes 4 (crc b)))).
  { split; [rewrite length_write; rewrite ?length_le_bytes; lia|]. apply bytes_ok_write; [done|apply bytes_ok_le_bytes]. }
  set (hd := write b 28 _) in *. clearbody hd.
  destruct (check_header_ok hd (publication_version m)) as [B8 Ck]; try done.
  - by rewrite Hlow by lia.
  - rewrite Hlow, R8 by lia. by apply le_two.
  - by rewrite Hlow, R10 by lia.
  - by rewrite Hhigh by lia.
  - intros E1. rewrite Hhigh, R32 by lia. apply Hv1 in E1. unfold records_crc. by rewrite E1.
  - by rewrite Hw, Hc.
  - unfold u64_at, u32_at in *. change (32 + 4)%nat with 36%nat in *. rewrite !Hlow by lia. rewrite Hhigh, R32 by lia. split; [exact Hs|]. split; [exact Ck|]. split; [exact B8|].
    split; [exact R12|]. split; [exact R20|]. split; [exact R24|]. by apply le_value_bytes.
Qed.

(** ** A published bank reads back *)
Record tables_hold (s : image) (bank : Z) (m : Metadata) : Prop := {
  th_nodes : forall i, (i < 4)%nat -> s (header_sector bank + 1 + Z.of_nat i) = sector_at (Metadata_bytes m) i;
  th_records : forall r, m_recovery m = Some r ->
    forall i, (i < 7)%nat -> s (records_sector bank + Z.of_nat i) = sector_at (Recovery_encode r) i;
}.

Lemma length_Recovery_encode sequence next r : recovery_ok sequence next r -> length (Recovery_encode r) = (7 * 512)%nat.
Proof.
  intros H. destruct (two_slots _ (vo_slots _ _ _ H)) as (o0 & o1 & E). destruct (slot_lengths _ _ _ _ _ H E) as [L0 L1].
  destruct (vo_lineage _ _ _ H) as (Ll & _ & _). destruct (vo_epoch _ _ _ H) as [Fe _].
  by destruct (Recovery_encode_fields r o0 o1 E Ll Fe L0 L1) as [L _].
Qed.

Lemma published_reads s bank m : metadata_ok m -> s (header_sector bank) = publication_header m -> tables_hold s bank m ->
  read_image s bank = Ok m.
Proof.
  intros H Hh [Hn Hr]. destruct (publication_header_fields m H) as (_ & Ck & R8 & R12 & R20 & R24 & R32).
  destruct (publication_version_range m H) as [Hv Hv1]. destruct (length_Metadata_bytes m H) as [L _].
  unfold read_image. rewrite Hh, Ck, (sectors_rebuild s _ 4 (Metadata_bytes m)) by (rewrite ?L; done).
  unfold parse_nodes. rewrite R24, Z.eqb_refl, R8, R12, R20. cbn [negb]. unfold Metadata_bytes at 1.
  rewrite <- (mo_count _ H), decode_nodes_round by apply (mo_nodes _ H).
  unfold checked. destruct (m_recovery m) as [r|] eqn:Er.
  - destruct (Z.leb_spec 2 (publication_version m)); [|assert (E : publication_version m = 1) by lia; by apply Hv1 in E].
    pose proof (mo_recovery _ H r Er) as Rok. pose proof (length_Recovery_encode _ _ _ Rok) as Lr.
    rewrite (sectors_rebuild s _ 7 (Recovery_encode r)) by (try done; by apply Hr).
    unfold parse_records. rewrite R32. unfold records_crc. rewrite Er, Z.eqb_refl, R12, R20, R8. cbn [negb].
    unfold publication_version. rewrite Er, (Recovery_round _ _ _ Rok). rewrite <- Er.
    replace (mkMetadata _ _ _ _) with m by (by destruct m). by rewrite (mo_valid _ H).
  - destruct (Z.leb_spec 2 (publication_version m)); [rewrite (proj2 Hv1) in *; done || lia|].
    rewrite <- Er. replace (mkMetadata _ _ _ _) with m by (by destruct m). by rewrite (mo_valid _ H).
Qed.

(** ** What an accepted bank is *)
Lemma checked_ok m m' : checked m = Ok m' -> m' = m /\ Metadata_validate m = Ok tt.
Proof. unfold checked. destruct (Metadata_validate m) as [[]| |]; by intros [= <-]. Qed.

Lemma check_header_version h : check_header h = Ok tt -> 1 <= byte_at h 8 <= 5.
Proof. unfold check_header. intros H. guards H. unfold header_bad in *. bools. lia. Qed.

Lemma sector_field h i j n : is_sector h -> (j <= 512)%nat -> (n = j - i)%nat -> fits (8 * Z.of_nat n) (le_value (slice h i j)).
Proof. intros [L B] Hj Hn. apply (field_fits h i j n); [done|lia|done|done]. Qed.

Lemma read_image_ok s bank m : image_ok s -> read_image s bank = Ok m ->
  metadata_ok m /\ m_sequence m = u64_at (s (header_sector bank)) 12.
Proof.
  intros Hs H. unfold read_image in H. destruct (check_header _) as [[]| |] eqn:Ck; [|done..].
  apply check_header_version in Ck. set (b := s (header_sector bank)) in *. pose proof (Hs (header_sector bank)) as Hb. fold b in Hb.
  destruct (sectors_length s (header_sector bank + 1) 4 Hs) as [Ln Bn]. unfold parse_nodes in H.
  destruct (negb _) in H; [done|]. destruct (decode_nodes _) as [nodes| |] eqn:En; [|done..].
  apply decode_nodes_spec in En as (Lk & Vk & _); [|done|by rewrite Ln].
  pose proof (sector_field b 12 20 8 Hb ltac:(lia) ltac:(lia)) as Fs. pose proof (sector_field b 20 24 4 Hb ltac:(lia) ltac:(lia)) as Fn.
  destruct (2 <=? byte_at b 8) eqn:E2.
  - unfold parse_records in H. destruct (negb _) in H; [done|]. destruct (Recovery_decode _ _ _ _) as [r| |] eqn:Er; [|done..].
    destruct (sectors_length s (records_sector bank) RECOVERY_SECTORS Hs) as [Lr Br].
    apply Recovery_decode_spec in Er as (Rok & _ & _); [|done|by rewrite Lr|lia].
    apply checked_ok in H as [-> Hv]. split; [|done]. split; cbn [m_sequence m_next m_nodes m_recovery]; try done. by intros ? [= <-].
  - apply checked_ok in H as [-> Hv]. split; [|done]. by split.
Qed.

(** *** Refusals: an invalid bank is [Empty] or [Corrupt], and validation does not panic *)
Lemma node_of_refusal m id :
  match corrupt (node_of m id) with Ok _ => True | Err e => e = ECorrupt | Panic => False end.
Proof.
  unfold node_of, Metadata_index, node_at. destruct (position _ _) as [i|] eqn:E; [|done]. cbn.
  apply position_lt in E. destruct (m_nodes m !! i) eqn:El; [done|]. apply lookup_ge_None in El. lia.
Qed.

Lemma ancestor_loop_refusal fuel depth m id a :
  match ancestor_loop fuel depth m id a with Ok _ => True | Err e => e = ECorrupt | Panic => False end.
Proof.
  revert depth a. induction fuel as [|fuel IH]; intros depth a; [done|]. cbn [ancestor_loop]. destruct (_ || _); [done|].
  pose proof (node_of_refusal m a). destruct (corrupt (node_of m a)); [|done..]. destruct (_ =? 0); [done|apply IH].
Qed.

Lemma validate_nodes_refusal m index l : Forall Node_valid l ->
  match validate_nodes m index l with Ok _ => True | Err e => e = ECorrupt | Panic => False end.
Proof.
  intros Hl. revert index. induction Hl as [|n l Hn Hl IH]; intros index; [done|]. cbn [validate_nodes].
  destruct (kind_is _ _) eqn:Ek; [apply IH|]. destruct (_ || _); [done|]. destruct Hn as [->|Hn]; [done|].
  assert (Hp : match validate_place m n with Ok _ => True | Err e => e = ECorrupt | Panic => False end).
  { unfold validate_place. destruct (_ =? 0).
    - unfold root_name_bad. destruct (_ || _) eqn:E; [done|]. bools. pose proof (ln_id n Hn) as [F N]. unfold fits in F.
      destruct (Z.ltb_spec (n_id n) 1); [lia|].
      destruct (root_names !! Z.to_nat (n_id n - 1)) eqn:Er; [by destruct (negb _)|]. apply lookup_ge_None in Er. cbn in Er. lia.
    - pose proof (node_of_refusal m (n_parent n)). destruct (corrupt (node_of _ _)); [|done..]. destruct (_ || _); [done|]. apply ancestor_loop_refusal. }
  destruct (validate_place m n); [|done..]. destruct (existsb _ _); [done|apply IH].
Qed.

Lemma checked_refusal m : Forall Node_valid (m_nodes m) ->
  match checked m with Ok _ => True | Err e => e = ECorrupt | Panic => False end.
Proof.
  intros H. unfold checked, Metadata_validate. destruct (_ || _); [done|]. pose proof (validate_nodes_refusal m 0 (m_nodes m) H).
  destruct (validate_nodes _ _ _); [|done..].
  assert (Hr : forall ids, match validate_roots m ids with Ok _ => True | Err e => e = ECorrupt | Panic => False end).
  { induction ids as [|id ids IH]; [done|]. cbn [validate_roots]. pose proof (node_of_refusal m id). destruct (corrupt (node_of m id)); [|done..].
    destruct (negb _); [done|apply IH]. }
  specialize (Hr [1; 2; 3; 4]). by destruct (validate_roots _ _).
Qed.

Lemma read_image_refusal s bank : image_ok s ->
  match read_image s bank with Ok _ => True | Err e => e = EEmpty \/ e = ECorrupt | Panic => False end.
Proof.
  intros Hs. unfold read_image. destruct (check_header _) as [[]|e|] eqn:Ck.
  2:{ revert Ck. unfold check_header. destruct (bool_decide _); [intros [= <-]; by left|]. destruct (header_bad _); [intros [= <-]; by right|].
      destruct (negb _); [intros [= <-]; by right|done]. }
  2:{ revert Ck. unfold check_header. by repeat (destruct (bool_decide _) || destruct (header_bad _) || destruct (negb _)). }
  destruct (sectors_length s (header_sector bank + 1) 4 Hs) as [Ln Bn]. unfold parse_nodes. destruct (negb _); [by right|].
  pose proof (decode_nodes_refusal (chunks OBJECTS NODE_SIZE (sectors s (header_sector bank + 1) 4))) as Hd.
  destruct (decode_nodes _) as [nodes| |] eqn:En; [|by right|done]. apply decode_nodes_spec in En as (_ & Vk & _); [|done|by rewrite Ln].
  destruct (2 <=? _).
  - unfold parse_records. destruct (negb _); [by right|].
    match goal with |- context [Recovery_decode ?a ?b ?c ?d] => pose proof (Recovery_decode_refusal a b c d); destruct (Recovery_decode a b c d) end;
      [|by right|done].
    match goal with |- context [checked ?m] => pose proof (checked_refusal m Vk); destruct (checked m) end; [done|by right|done].
  - match goal with |- context [checked ?m] => pose proof (checked_refusal m Vk); destruct (checked m) end; [done|by right|done].
Qed.
