(* ===== verification/FsVolume.v ===== *)
(** * The mounted volume

    crates/fs/src/volume.rs, references.rs, read.rs, provision.rs, the
    metadata-only mutations of mutations.rs, and the format transitions of
    recovery/operations.rs, recovery/scoped.rs, admission/transition.rs and
    admission/reason.rs.  A state is the volume with the disk it borrows. *)
From stdpp Require Import base list option numbers.
From Stdlib Require Import ZArith Lia Bool.
From S2P Require Import Prelude Bytes Codec FsDisk FsNode FsRecovery FsFormat.

Record Volume := mkVolume { vl_metadata : Metadata; vl_bank : Z; vl_poisoned : bool }.

Definition poison (v : Volume) (p : bool) : Volume := mkVolume (vl_metadata v) (vl_bank v) p.

Definition Volume_ready (v : Volume) : outcome FsError unit := if vl_poisoned v then Err EUncertain else Ok tt.
Definition Volume_sequence (v : Volume) : Z := m_sequence (vl_metadata v).

Definition Volume_stat (v : Volume) (id : Z) : outcome FsError Node :=
  let? _ := Volume_ready v in node_of (vl_metadata v) id.

Definition named (parent : Z) (name : list Z) (n : Node) : bool :=
  live n && (n_parent n =? parent) && bool_decide (Node_name n = name).

Definition Volume_lookup (v : Volume) (parent : Z) (name : list Z) : outcome FsError Node :=
  let? _ := Volume_ready v in
  let? _ := valid_name name in
  let? _ := (if parent =? 0 then Ok tt
             else let? n := Volume_stat v parent in
                  if kind_is (n_kind n) KDirectory then Ok tt else Err ENotDirectory) in
  ok_or (List.find (named parent name) (m_nodes (vl_metadata v))) ENotFound.

(** [.iter().enumerate().skip(cursor).find(..).map(|(i, n)| (i + 1, *n))]. *)
Fixpoint list_from (i : nat) (parent : Z) (l : list Node) : option (nat * Node) :=
  match l with
  | [] => None
  | n :: l => if live n && (n_parent n =? parent) then Some ((i + 1)%nat, n) else list_from (S i) parent l
  end.

Definition Volume_list (v : Volume) (parent : Z) (cursor : nat) : outcome FsError (option (nat * Node)) :=
  let? _ := Volume_ready v in
  if (OBJECTS <? cursor)%nat then Err EInvalid
  else
    let? _ := (if parent =? 0 then Ok tt
               else let? n := Volume_stat v parent in
                    if kind_is (n_kind n) KDirectory then Ok tt else Err ENotDirectory) in
    Ok (list_from cursor parent (drop cursor (m_nodes (vl_metadata v)))).

Fixpoint within_loop (fuel : nat) (v : Volume) (current scope : Z) : outcome FsError bool :=
  match fuel with
  | O => Ok false
  | S fuel =>
    match Volume_stat v current with
    | Panic => Panic
    | Err _ => Ok false
    | Ok n =>
      if current =? scope then Ok true
      else if n_parent n =? 0 then Ok false
      else within_loop fuel v (n_parent n) scope
    end
  end.

Definition Volume_within (v : Volume) (id scope : Z) : outcome FsError bool :=
  if scope =? 0 then match Volume_stat v id with Ok _ => Ok true | Err _ => Ok false | Panic => Panic end
  else within_loop OBJECTS v id scope.

Definition Volume_writable (v : Volume) (id : Z) : outcome FsError Node :=
  let? n := Volume_stat v id in
  if n_space n =? 1 then Err EReadOnly else Ok n.

(** references.rs *)
Definition Volume_resolve (v : Volume) (workspace id : Z) : outcome FsError Node :=
  let? directory := Volume_stat v workspace in
  if negb (kind_is (n_kind directory) KDirectory) then Err ENotDirectory
  else
    let? node := Volume_stat v id in
    let? inside := Volume_within v id workspace in
    if negb inside then Err ENotFound else Ok node.

(** [u32::checked_add]. *)
Definition checked_add32 (a b : Z) : option Z := if a + b <=? u32_max then Some (a + b) else None.

Section Operations.
Context {D : Type} `{Disk D}.
Implicit Types w : Volume * D.

Definition Volume_commit (w : Volume * D) (next : Metadata) : outcome FsError unit * (Volume * D) :=
  let '(v, d) := w in
  match checked_add (m_sequence (vl_metadata v)) 1 with
  | None => (Err EExhausted, w)
  | Some q =>
    let next := set_sequence next q in
    let v := poison v true in
    match Metadata_write next d (1 - vl_bank v) with
    | (Ok _, d) => (Ok tt, (mkVolume next (1 - vl_bank v) false, d))
    | (Err _, d) => (Err EUncertain, (v, d))
    | (Panic, d) => (Panic, (v, d))
    end
  end.

(** mutations.rs *)
Definition prepare_create (v : Volume) (parent : Z) (name : list Z) (kind : Kind) : outcome FsError (Metadata * Node) :=
  let? _ := valid_name name in
  if kind_is kind KEmpty then Err EInvalid
  else
    let? directory := Volume_writable v parent in
    if negb (kind_is (n_kind directory) KDirectory) then Err ENotDirectory
    else
      match Volume_lookup v parent name with
      | Ok _ => Err EExists
      | Err ENotFound =>
        let m := vl_metadata v in
        let? slot := ok_or (position (fun n => kind_is (n_kind n) KEmpty) (m_nodes m)) EFull in
        let id := m_next m in
        let? following := ok_or (checked_add32 id 1) EExhausted in
        let? version := ok_or (checked_add (m_sequence m) 1) EExhausted in
        let? node := Node_new id parent (n_space directory) kind name version in
        Ok (mkMetadata (m_sequence m) following (<[slot := node]> (m_nodes m)) (m_recovery m), node)
      | Err e => Err e
      | Panic => Panic
      end.

Definition Volume_create w (parent : Z) (name : list Z) (kind : Kind) : outcome FsError Node * (Volume * D) :=
  let* (p, w) := (prepare_create (w.1) parent name kind, w) in
  let* (_, w) := Volume_commit w (p.1) in
  (Ok (p.2), w).

Definition prepare_remove (v : Volume) (id : Z) : outcome FsError Metadata :=
  let? node := Volume_writable v id in
  if n_parent node =? 0 then Err EReadOnly
  else if existsb (fun n => live n && (n_parent n =? id)) (m_nodes (vl_metadata v)) then Err ENotEmpty
  else
    let? i := Metadata_index (vl_metadata v) id in
    Ok (set_nodes (vl_metadata v) (<[i := Node_EMPTY]> (m_nodes (vl_metadata v)))).

Definition Volume_remove w (id : Z) : outcome FsError unit * (Volume * D) :=
  let* (next, w) := (prepare_remove (w.1) id, w) in Volume_commit w next.

(** read.rs; [output] is the slice's length, the result what it receives. *)
Definition Volume_read_versioned (v : Volume) (d : D) (id : Z) (expected : option Z) (offset output : nat)
    : outcome FsError (Node * list Z) * D :=
  let* (node, d) := (Volume_stat v id, d) in
  if (match expected with Some version => negb (version =? n_version node) | None => false end) then (Err EVersion, d)
  else if negb (kind_is (n_kind node) KFile) then (Err EIsDirectory, d)
  else if (Z.to_nat (n_length node) <? offset)%nat then (Err ESize, d)
  else if n_length node =? 0 then (Ok (node, []), d)
  else
    let* (slot, d) := (Metadata_index (vl_metadata v) id, d) in
    let* (bytes, d) := read_sectors d (data_sector slot (n_bank node)) 2 in
    if negb (crc (take (Z.to_nat (n_length node)) bytes) =? n_checksum node) then (Err ECorrupt, d)
    else
      let count := Nat.min output (Z.to_nat (n_length node) - offset) in
      (Ok (node, slice bytes offset (offset + count)), d).

Definition Volume_read (v : Volume) (d : D) (id : Z) (offset output : nat) : outcome FsError (list Z) * D :=
  let* (r, d) := Volume_read_versioned v d id None offset output in (Ok (r.2), d).

(** provision.rs *)
Definition vol_magic : list Z := [82; 85; 83; 84; 86; 79; 76; 49].

Definition lineage_parse (b : list Z) : outcome FsError (option (list Z)) :=
  if bool_decide (b = zeros 512) then Ok None
  else
    let expected := u32_at b 24 in
    let b := write b 24 (zeros 4) in
    if negb (bool_decide (slice b 0 8 = vol_magic)) || bool_decide (slice b 8 24 = zeros 16) || negb (all_zero (slice b 28 512))
       || negb (expected =? crc b)
    then Err ECorrupt else Ok (Some (slice b 8 24)).

Definition provision_lineage (d : D) : outcome FsError (option (list Z)) * D :=
  let* (b, d) := disk_read d 1 in (lineage_parse b, d).

(** recovery/operations.rs: only zeros or a torn initial image may be resumed. *)
Definition scratch_bad (bytes expected : list Z) : bool :=
  existsb (fun p => negb (p.1 =? 0) && negb (p.1 =? p.2)) (zip bytes expected).

Fixpoint check_scratch (fuel : nat) (d : D) (sector : Z) (expected : list Z) : outcome FsError unit * D :=
  match fuel with
  | O => (Ok tt, d)
  | S fuel =>
    let* (bytes, d) := disk_read d sector in
    let offset := (Z.to_nat ((sector - 160) mod 7) * 512)%nat in
    if scratch_bad bytes (slice expected offset (offset + 512)) then (Err ECorrupt, d)
    else check_scratch fuel d (sector + 1) expected
  end.

Definition enable_recovery w (lineage : list Z) : outcome FsError unit * (Volume * D) :=
  let '(v, d) := w in
  match Volume_ready v with
  | Err e => (Err e, w)
  | Panic => (Panic, w)
  | Ok _ =>
    match m_recovery (vl_metadata v) with
    | Some r => (if bool_decide (rv_lineage r = lineage) then Ok tt else Err ELineage, w)
    | None =>
      match Recovery_new lineage with
      | Err e => (Err e, w)
      | Panic => (Panic, w)
      | Ok initial =>
        match check_scratch (Z.to_nat (SECTORS - 160)) d 160 (Recovery_encode initial) with
        | (Err e, d) => (Err e, (v, d))
        | (Panic, d) => (Panic, (v, d))
        | (Ok _, d) => Volume_commit (v, d) (set_recovery (vl_metadata v) (Some initial))
        end
      end
    end
  end.

(** [volume.rs]: a device error is never taken for an invalid generation. *)
Definition invalid_bank (e : FsError) : bool := bool_decide (e = EEmpty) || bool_decide (e = ECorrupt).

Definition pick_generation (a b : outcome FsError Metadata) : outcome FsError (Metadata * Z) :=
  match a, b with
  | Panic, _ | _, Panic => Panic
  | Err e, _ => if negb (invalid_bank e) then Err e
                else match b with
                     | Ok b => Ok (b, 1)
                     | Err e' => if negb (invalid_bank e') then Err e'
                                 else if bool_decide (e = EEmpty) && bool_decide (e' = EEmpty) then Err EEmpty else Err ECorrupt
                     | Panic => Panic
                     end
  | Ok a, Err e => if negb (invalid_bank e) then Err e else Ok (a, 0)
  | Ok a, Ok b =>
    if m_sequence a =? m_sequence b then
      if negb (bool_decide (Metadata_bytes a = Metadata_bytes b)) || negb (m_next a =? m_next b)
         || negb (bool_decide (Recovery_encode <$> m_recovery a = Recovery_encode <$> m_recovery b))
      then Err ECorrupt else Ok (a, 0)
    else if m_sequence b <? m_sequence a then Ok (a, 0) else Ok (b, 1)
  end.

Definition Volume_mount (d : D) : outcome FsError Volume * D :=
  let '(a, d) := Metadata_read d 0 in
  let '(b, d) := Metadata_read d 1 in
  let* (g, d) := (pick_generation a b, d) in
  let volume := mkVolume (g.1) (g.2) false in
  let* (lineage, d) := provision_lineage d in
  match lineage with
  | None => (Ok volume, d)
  | Some l =>
    match enable_recovery (volume, d) l with
    | (Ok _, (volume, d)) => (Ok volume, d)
    | (Err e, (_, d)) => (Err e, d)
    | (Panic, (_, d)) => (Panic, d)
    end
  end.

(** [for sector in 0..SECTORS]: every reserved sector must be zero. *)
Fixpoint check_blank (fuel : nat) (d : D) (sector : Z) (skip : bool) : outcome FsError unit * D :=
  match fuel with
  | O => (Ok tt, d)
  | S fuel =>
    if (sector =? 1) && skip then check_blank fuel d (sector + 1) skip
    else
      let* (bytes, d) := disk_read d sector in
      if bool_decide (bytes = zeros 512) then check_blank fuel d (sector + 1) skip else (Err ECorrupt, d)
  end.

Definition Volume_initialize (d : D) : outcome FsError Volume * D :=
  let* (lineage, d) := provision_lineage d in
  let* (_, d) := check_blank (Z.to_nat SECTORS) d 0 (negb (is_none lineage)) in
  let* (metadata, d) := (Metadata_initial, d) in
  let* (recovery, d) := ((match lineage with None => Ok None | Some l => let? r := Recovery_new l in Ok (Some r) end), d) in
  let metadata := set_recovery metadata recovery in
  match Metadata_write metadata d 0 with
  | (Ok _, d) => (Ok (mkVolume metadata 0 false), d)
  | (Err _, d) => (Err EUncertain, d)
  | (Panic, d) => (Panic, d)
  end.

(** Both banks carry the new format before success. *)
Definition complete_both w (upgraded : Recovery -> bool) : outcome FsError unit * (Volume * D) :=
  let '(v, d) := w in
  match Metadata_read d (1 - vl_bank v) with
  | (Ok other, d) =>
    if is_some_and upgraded (m_recovery other) then (Ok tt, (v, d)) else Volume_commit (v, d) (vl_metadata v)
  | (Err e, d) => if invalid_bank e then Volume_commit (v, d) (vl_metadata v) else (Err EUncertain, (poison v true, d))
  | (Panic, d) => (Panic, (v, d))
  end.

Definition set_flags (r : Recovery) (scoped admissions reasons : bool) : Recovery :=
  mkRecovery (rv_lineage r) (rv_epoch r) scoped admissions reasons (rv_records r).

(** One format transition: publish [r'] unless [r] already has the format, then complete both banks. *)
Definition upgrade w (r r' : Recovery) (upgraded : Recovery -> bool) : outcome FsError unit * (Volume * D) :=
  if upgraded r then complete_both w upgraded
  else
    let* (_, w) := Volume_commit w (set_recovery (vl_metadata (w.1)) (Some r')) in
    complete_both w upgraded.

Definition enable_operations w : outcome FsError unit * (Volume * D) :=
  let* (_, w) := (Volume_ready (w.1), w) in
  let* (r, w) := (ok_or (m_recovery (vl_metadata (w.1))) EUnsupported, w) in
  upgrade w r (set_flags r true (rv_admissions r) (rv_reasons r)) rv_scoped.

Definition enable_admissions w : outcome FsError unit * (Volume * D) :=
  let* (_, w) := (Volume_ready (w.1), w) in
  match m_recovery (vl_metadata (w.1)) with
  | Some r => if rv_scoped r then upgrade w r (set_flags r (rv_scoped r) true (rv_reasons r)) rv_admissions else (Err EUnsupported, w)
  | None => (Err EUnsupported, w)
  end.

(** admission/query.rs *)
Definition Volume_admissions (v : Volume) : outcome FsError Recovery :=
  let? _ := Volume_ready v in
  match m_recovery (vl_metadata v) with
  | Some r => if rv_admissions r then Ok r else Err EUnsupported
  | None => Err EUnsupported
  end.

Definition enable_prevention_reasons w : outcome FsError unit * (Volume * D) :=
  let* (r, w) := (Volume_admissions (w.1), w) in
  upgrade w r (set_flags r (rv_scoped r) (rv_admissions r) true) rv_reasons.

Definition advance_epoch w : outcome FsError Z * (Volume * D) :=
  let* (_, w) := (Volume_ready (w.1), w) in
  let* (r, w) := (ok_or (m_recovery (vl_metadata (w.1))) EUnsupported, w) in
  if existsb (fun x => is_some_and (fun a => bool_decide (so_state a = FAdmitted)) (rd_admission x)) (slots (rv_records r)) then (Err EBusy, w)
  else
    let* (epoch, w) := (ok_or (checked_add (rv_epoch r) 1) EExhausted, w) in
    let r' := mkRecovery (rv_lineage r) epoch (rv_scoped r) (rv_admissions r) (rv_reasons r) (replicate RETAINED None) in
    let* (_, w) := Volume_commit w (set_recovery (vl_metadata (w.1)) (Some r')) in
    (Ok epoch, w).
End Operations.

Definition recovery_info (v : Volume) : outcome FsError (list Z * Z) :=
  let? _ := Volume_ready v in
  let? r := ok_or (m_recovery (vl_metadata v)) EUnsupported in
  Ok (rv_lineage r, rv_epoch r).

Definition operations_enabled (v : Volume) : outcome FsError bool :=
  let? _ := Volume_ready v in Ok (is_some_and rv_scoped (m_recovery (vl_metadata v))).
