(* ===== verification/FsPublication.v ===== *)
(** * Publications: replacing a file's contents

    crates/fs/src/publication/writer.rs, the replacement operations of
    mutations.rs, recovery/operations.rs and recovery/scoped.rs, and the
    admission operations of admission/admit.rs, cancel.rs, execution.rs and
    query.rs.  A publication exclusively borrows the volume and its disk, so
    it carries both; [Publication_drop] gives them back. *)
From stdpp Require Import base list option numbers.
From Stdlib Require Import ZArith Lia Bool.
From S2P Require Import Prelude Bytes Codec FsDisk FsNode FsRecovery FsFormat FsVolume.

Inductive PublicationPhase := Preparing | ReadyToPublish | Settling | Committed | Cancelled | Uncertain.
#[export] Instance Phase_eq_dec : EqDecision PublicationPhase.
Proof. solve_decision. Defined.

Inductive CancelAnswer := CancelledNow | TooLate | Draining.

Record Publication (D T : Type) := mkPublication {
  pb_volume : Volume;
  pb_disk : D;
  pb_next : option Metadata;
  pb_data : list Z;
  pb_first : Z;
  pb_data_steps : nat;
  pb_step : nat;
  pb_phase : PublicationPhase;
  pb_result : T;
  pb_pending : bool;
  pb_stopping : bool;
}.
Arguments mkPublication {D T}.
Arguments pb_volume {D T}. Arguments pb_disk {D T}. Arguments pb_next {D T}. Arguments pb_data {D T}. Arguments pb_first {D T}.
Arguments pb_data_steps {D T}. Arguments pb_step {D T}. Arguments pb_phase {D T}. Arguments pb_result {D T}. Arguments pb_pending {D T}.
Arguments pb_stopping {D T}.

Section Publications.
Context {D T : Type}.
Implicit Types p : Publication D T.

Definition Publication_new (v : Volume) (d : D) (next : Metadata) (first : Z) (bytes : list Z) (result : T) : Publication D T :=
  mkPublication (poison v true) d (Some next) (write (zeros MAX_FILE) 0 bytes) first 3 0 Preparing result false false.

Definition Publication_metadata (v : Volume) (d : D) (next : Metadata) (result : T) : outcome FsError (Publication D T) :=
  let? q := ok_or (checked_add (Volume_sequence v) 1) EExhausted in
  let p := Publication_new v d (set_sequence next q) 0 [] result in
  Ok (mkPublication (pb_volume p) (pb_disk p) (pb_next p) (pb_data p) (pb_first p) 0 (pb_step p) (pb_phase p) (pb_result p)
        (pb_pending p) (pb_stopping p)).

Definition Publication_replayed (v : Volume) (d : D) (result : T) : Publication D T :=
  mkPublication v d None (zeros MAX_FILE) 0 0 0 Committed result false false.

Definition Publication_answer p : option T := if bool_decide (pb_phase p = Committed) then Some (pb_result p) else None.

(** The command of the current step. *)
Definition Publication_command p (next : Metadata) : outcome FsError Command :=
  if (pb_data_steps p <=? pb_step p)%nat then
    match Metadata_command next (1 - vl_bank (pb_volume p)) (pb_step p - pb_data_steps p) with
    | Ok c => Ok c
    | _ => Panic
    end
  else if (pb_step p <=? 1)%nat then Ok (CWrite (pb_first p + Z.of_nat (pb_step p)) (sector_at (pb_data p) (pb_step p)))
  else if (pb_step p =? 2)%nat then Ok CFlush
  else Panic.

Definition with_control p (d : D) (phase : PublicationPhase) (pending : bool) : Publication D T :=
  mkPublication (pb_volume p) d (pb_next p) (pb_data p) (pb_first p) (pb_data_steps p) (pb_step p) phase (pb_result p) pending (pb_stopping p).

(** A settled command moves to the next step. *)
Definition Publication_settle p (d : D) (next : Metadata) (total : nat) : Publication D T :=
  let v := pb_volume p in
  let step := S (pb_step p) in
  let '(v, n, phase) :=
    if (step =? total)%nat then (mkVolume next (1 - vl_bank v) false, None, Committed)
    else if (step =? total - 1)%nat then (v, pb_next p, Settling)
    else if (step =? total - 2)%nat then (v, pb_next p, ReadyToPublish)
    else (v, pb_next p, Preparing) in
  let '(v, phase) := if pb_stopping p then (poison v false, Cancelled) else (v, phase) in
  mkPublication v d n (pb_data p) (pb_first p) (pb_data_steps p) step phase (pb_result p) false (pb_stopping p).

Definition Publication_drive p (execute : Command -> D -> poll (outcome FsError unit) * D) : poll (outcome FsError PublicationPhase) * Publication D T :=
  match pb_phase p with
  | Committed | Cancelled => (Ready (Ok (pb_phase p)), p)
  | Uncertain => (Ready (Err EUncertain), p)
  | _ =>
    match pb_next p with
    | None => (Ready Panic, p)
    | Some next =>
      let total := (pb_data_steps p + write_steps next)%nat in
      let before := if (total - 2 <=? pb_step p)%nat then Settling else pb_phase p in
      match Publication_command p next with
      | Ok command =>
        match execute command (pb_disk p) with
        | (Pending, d) => (Pending, with_control p d before true)
        | (Ready (Err _), d) => (Ready (Err EUncertain), with_control p d Uncertain true)
        | (Ready Panic, d) => (Ready Panic, with_control p d Uncertain true)
        | (Ready (Ok _), d) =>
          let p := Publication_settle p d next total in (Ready (Ok (pb_phase p)), p)
        end
      | _ => (Ready Panic, p)
      end
    end
  end.

Definition Publication_cancel p : outcome FsError CancelAnswer * Publication D T :=
  match pb_phase p with
  | Preparing | ReadyToPublish | Cancelled =>
    if pb_pending p then
      (Ok Draining, mkPublication (pb_volume p) (pb_disk p) (pb_next p) (pb_data p) (pb_first p) (pb_data_steps p) (pb_step p) (pb_phase p)
                      (pb_result p) (pb_pending p) true)
    else
      (Ok CancelledNow, mkPublication (poison (pb_volume p) false) (pb_disk p) (pb_next p) (pb_data p) (pb_first p) (pb_data_steps p)
                          (pb_step p) Cancelled (pb_result p) (pb_pending p) (pb_stopping p))
  | Settling | Committed => (Ok TooLate, p)
  | Uncertain => (Err EUncertain, p)
  end.

(** [Drop]: abandoning scratch writes has no live effect. *)
Definition Publication_drop p : Volume * D :=
  let v := pb_volume p in
  (if negb (pb_pending p) && (bool_decide (pb_phase p = Preparing) || bool_decide (pb_phase p = ReadyToPublish)) then poison v false else v,
   pb_disk p).

Definition poll_advance `{PollDisk D} p : poll (outcome FsError PublicationPhase) * Publication D T := Publication_drive p Command_poll.

Definition Publication_advance `{Disk D} p : outcome FsError PublicationPhase * Publication D T :=
  if pb_pending p then (Err EUncertain, p)
  else
    match Publication_drive p Synchronous_poll with
    | (Ready r, p) => (r, p)
    | (Pending, p) => (Panic, p)
    end.

(** The loop of [run]; every iteration settles one of the remaining steps. *)
Fixpoint run_loop `{Disk D} (fuel : nat) p : option (outcome FsError T * Publication D T) :=
  match fuel with
  | O => None
  | S fuel =>
    match pb_phase p with
    | Committed => Some (Ok (pb_result p), p)
    | Cancelled => Some (Err EInvalid, p)
    | _ =>
      match Publication_advance p with
      | (Ok _, p) => run_loop fuel p
      | (Err e, p) => Some (Err e, p)
      | (Panic, p) => Some (Panic, p)
      end
    end
  end.

(** At most three data steps and fourteen metadata steps, and one final test. *)
Definition RUN_FUEL : nat := 18.

Definition Publication_run `{Disk D} p : option (outcome FsError T * (Volume * D)) :=
  match run_loop RUN_FUEL p with
  | Some (r, p) => Some (r, Publication_drop p)
  | None => None
  end.
End Publications.

(** ** Replacing a file (mutations.rs) *)
Definition changed_node (node changed : Node) (bytes : list Z) (version : Z) : Node :=
  mkNode (n_id changed) (n_parent changed) version (Z.of_nat (length bytes)) (n_kind changed) (n_space changed) (1 - n_bank node) (crc bytes)
    (n_name changed) (n_name_length changed).

Section Replacement.
Context {D : Type}.

(** The next metadata, where the payload goes, and the changed node. *)
Definition plan_recorded (v : Volume) (id version : Z) (bytes : list Z) (next : Metadata) : outcome FsError (Metadata * Z * Node) :=
  let? node := Volume_writable v id in
  if negb (kind_is (n_kind node) KFile) then Err EIsDirectory
  else if negb (n_version node =? version) then Err EVersion
  else if (MAX_FILE <? length bytes)%nat then Err ESize
  else
    let? slot := Metadata_index (vl_metadata v) id in
    let? changed := node_at next slot in
    let? q := ok_or (checked_add (m_sequence (vl_metadata v)) 1) EExhausted in
    let result := changed_node node changed bytes q in
    Ok (mkMetadata q (m_next next) (<[slot := result]> (m_nodes next)) (m_recovery next), data_sector slot (n_bank result), result).

Definition prepare_recorded {T} (v : Volume) (d : D) (id version : Z) (bytes : list Z) (next : Metadata) (output : Node -> T)
    : outcome FsError (Publication D T) :=
  let? plan := plan_recorded v id version bytes next in
  let '(next, first, result) := plan in
  Ok (Publication_new v d next first bytes (output result)).

Definition prepare_replace (v : Volume) (d : D) (id version : Z) (bytes : list Z) : outcome FsError (Publication D Node) :=
  prepare_recorded v d id version bytes (vl_metadata v) (fun n => n).

(** [prepare(..)?.run()]. *)
Definition prepared_run {T} `{Disk D} (w : Volume * D) (p : outcome FsError (Publication D T)) : option (outcome FsError T * (Volume * D)) :=
  match p with
  | Ok p => Publication_run p
  | Err e => Some (Err e, w)
  | Panic => Some (Panic, w)
  end.

Definition replace_recorded `{Disk D} (w : Volume * D) (id version : Z) (bytes : list Z) (next : Metadata)
    : option (outcome FsError Node * (Volume * D)) :=
  prepared_run w (prepare_recorded (w.1) (w.2) id version bytes next (fun n => n)).

Definition Volume_replace `{Disk D} (w : Volume * D) (id version : Z) (bytes : list Z) : option (outcome FsError Node * (Volume * D)) :=
  prepared_run w (prepare_replace (w.1) (w.2) id version bytes).
End Replacement.

(** ** Recorded replacements *)
Definition Volume_receipt (v : Volume) (subject : Z) (retry : FsRetry) : outcome FsError FsReceipt :=
  let? _ := Volume_ready v in
  let? r := ok_or (m_recovery (vl_metadata v)) EUnsupported in
  let? found := Recovery_find r subject retry in
  ok_or (rd_receipt <$> found) EOutcomeUnknown.

(** [next.recovery.as_mut().unwrap().records[slot] = Some(record)]. *)
Definition store_record (m : Metadata) (r : Recovery) (slot : nat) (x : FsRecord) : Metadata :=
  set_recovery m (Some (set_record r slot (Some x))).

Definition padded_bytes (bytes : list Z) : list Z := write (zeros MAX_FILE) 0 bytes.

Definition replace_tracked {D} `{Disk D} (w : Volume * D) (subject : Z) (retry : FsRetry) (id version : Z) (bytes : list Z)
    : option (outcome FsError FsReceipt * (Volume * D)) :=
  let '(v, d) := w in
  let plan :=
    let? _ := Volume_ready v in
    if (MAX_FILE <? length bytes)%nat then Err ESize
    else
      let? r := ok_or (m_recovery (vl_metadata v)) EUnsupported in
      let? found := Recovery_find r subject retry in
      match found with
      | Some x =>
        if negb (fr_id (rd_receipt x) =? id) || negb (fr_previous (rd_receipt x) =? version)
           || negb (fr_length (rd_receipt x) =? Z.of_nat (length bytes)) || negb (bool_decide (take (length bytes) (rd_bytes x) = bytes))
        then Err EIdempotencyConflict else Ok (inl (rd_receipt x))
      | None =>
        let? slot := ok_or (position is_none (rv_records r)) EFull in
        let? q := ok_or (checked_add (m_sequence (vl_metadata v)) 1) EExhausted in
        let receipt := mkFsReceipt retry id version q (Z.of_nat (length bytes)) in
        let record := mkFsRecord subject receipt None (padded_bytes bytes) None in
        Ok (inr (receipt, store_record (vl_metadata v) r slot record))
      end in
  match plan with
  | Err e => Some (Err e, w)
  | Panic => Some (Panic, w)
  | Ok (inl receipt) => Some (Ok receipt, w)
  | Ok (inr (receipt, next)) =>
    match replace_recorded w id version bytes next with
    | Some (Ok _, w) => Some (Ok receipt, w)
    | Some (Err e, w) => Some (Err e, w)
    | Some (Panic, w) => Some (Panic, w)
    | None => None
    end
  end.

(** ** Workspace-scoped operations (recovery/scoped.rs) *)
Record FsReplacement := mkFsReplacement { fp_workspace : Z; fp_retry : FsRetry; fp_id : Z; fp_version : Z }.
Record FsOperation := mkFsOperation { fo_workspace : Z; fo_instance : Z; fo_receipt : FsReceipt; fo_bytes : list Z }.

Definition record_payload (r : FsRecord) : list Z := take (Z.to_nat (fr_length (rd_receipt r))) (rd_bytes r).

Definition Record_operation (r : FsRecord) : outcome FsError FsOperation :=
  let? ns := ok_or (rd_namespace r) EOutcomeUnknown in
  let answer := Ok (mkFsOperation (ns.1) (ns.2) (rd_receipt r) (record_payload r)) in
  match rd_admission r with
  | Some a => match so_state a with FAdmitted => Err EBusy | FCancelled => Err ECancelled | FCommitted => answer end
  | None => answer
  end.

Definition scoped_recovery (v : Volume) : outcome FsError Recovery :=
  match m_recovery (vl_metadata v) with Some r => if rv_scoped r then Ok r else Err EUnsupported | None => Err EUnsupported end.

Definition scoped_match (subject workspace : Z) (retry : FsRetry) (x : FsRecord) : bool :=
  is_some_and (fun ns => ns.1 =? workspace) (rd_namespace x) && (rd_subject x =? subject) && bool_decide (fr_retry (rd_receipt x) = retry).

Definition operation_by_retry (v : Volume) (subject workspace : Z) (retry : FsRetry) : outcome FsError FsOperation :=
  let? _ := Volume_ready v in
  let? r := scoped_recovery v in
  if (subject =? 0) || (workspace =? 0) || (ry_epoch retry =? 0) || (ry_key retry =? 0) then Err EInvalid
  else if negb (bool_decide (ry_lineage retry = rv_lineage r)) then Err ELineage
  else
    match List.find (scoped_match subject workspace retry) (slots (rv_records r)) with
    | Some x => Record_operation x
    | None => if negb (ry_epoch retry =? rv_epoch r) then Err EExpiredEpoch else Err EOutcomeUnknown
    end.

Definition operation_by_id (v : Volume) (subject : Z) (lineage : list Z) (committed : Z) : outcome FsError FsOperation :=
  let? _ := Volume_ready v in
  let? r := scoped_recovery v in
  if (subject =? 0) || (committed =? 0) then Err EInvalid
  else if negb (bool_decide (lineage = rv_lineage r)) then Err ELineage
  else
    let? x := ok_or (List.find (fun x => (rd_subject x =? subject) && (fr_committed (rd_receipt x) =? committed)) (slots (rv_records r)))
                EOutcomeUnknown in
    Record_operation x.

(** [if instance == 0 { number } else { instance }]. *)
Definition choose_instance (instance number : Z) : Z := if instance =? 0 then number else instance.

Section Scoped.
Context {D : Type}.

Definition prepare_scoped (v : Volume) (d : D) (subject instance : Z) (request : FsReplacement) (bytes : list Z)
    : outcome FsError (Publication D FsReceipt) :=
  let? _ := Volume_ready v in
  if (MAX_FILE <? length bytes)%nat then Err ESize
  else
    match operation_by_retry v subject (fp_workspace request) (fp_retry request) with
    | Ok old =>
      if negb (fr_id (fo_receipt old) =? fp_id request) || negb (fr_previous (fo_receipt old) =? fp_version request)
         || negb (bool_decide (fo_bytes old = bytes))
      then Err EIdempotencyConflict else Ok (Publication_replayed v d (fo_receipt old))
    | Err EOutcomeUnknown =>
      let? _ := Volume_resolve v (fp_workspace request) (fp_id request) in
      match m_recovery (vl_metadata v) with
      | None => Panic
      | Some r =>
        let? slot := ok_or (position is_none (rv_records r)) EFull in
        let? committed := ok_or (checked_add (m_sequence (vl_metadata v)) 1) EExhausted in
        let instance := choose_instance instance committed in
        if committed <? instance then Err EInvalid
        else
          let receipt := mkFsReceipt (fp_retry request) (fp_id request) (fp_version request) committed (Z.of_nat (length bytes)) in
          let record := mkFsRecord subject receipt (Some (fp_workspace request, instance)) (padded_bytes bytes) None in
          prepare_recorded v d (fp_id request) (fp_version request) bytes (store_record (vl_metadata v) r slot record) (fun _ => receipt)
      end
    | Err e => Err e
    | Panic => Panic
    end.

Definition replace_scoped `{Disk D} (w : Volume * D) (subject instance : Z) (request : FsReplacement) (bytes : list Z)
    : option (outcome FsError FsReceipt * (Volume * D)) :=
  prepared_run w (prepare_scoped (w.1) (w.2) subject instance request bytes).
End Scoped.

(** ** Admissions (admission/) *)
Record FsAdmissionId := mkFsAdmissionId { fa_lineage : list Z; fa_number : Z }.
Record FsStatus := mkFsStatus { fs_id : FsAdmissionId; fs_state : FsState; fs_terminal : Z; fs_prevention : option FsReason }.
Record FsAdmission := mkFsAdmission {
  av_status : FsStatus;
  av_request : FsReplacement;
  av_instance : Z;
  av_receipt : option FsReceipt;
  av_bytes : list Z;
}.

Definition admission_view (r : FsRecord) : outcome FsError FsAdmission :=
  let? a := ok_or (rd_admission r) EUnsupported in
  let? ns := ok_or (rd_namespace r) ECorrupt in
  Ok (mkFsAdmission
    (mkFsStatus (mkFsAdmissionId (ry_lineage (fr_retry (rd_receipt r))) (so_number a)) (so_state a) (so_terminal a) (so_prevention a))
    (mkFsReplacement (ns.1) (fr_retry (rd_receipt r)) (fr_id (rd_receipt r)) (fr_previous (rd_receipt r)))
    (ns.2) (if bool_decide (so_state a = FCommitted) then Some (rd_receipt r) else None) (record_payload r)).

Definition retained_admission (v : Volume) (slot : nat) : outcome FsError (option (Z * FsAdmission)) :=
  let? r := Volume_admissions v in
  let? o := ok_or (rv_records r !! slot) EInvalid in
  match o with
  | Some x => if is_none (rd_admission x) then Ok None else let? a := admission_view x in Ok (Some (rd_subject x, a))
  | None => Ok None
  end.

Definition admission_match (subject number : Z) (o : option FsRecord) : bool :=
  is_some_and (fun x => (rd_subject x =? subject) && is_some_and (fun a => so_number a =? number) (rd_admission x)) o.

Definition admission_slot (v : Volume) (subject : Z) (id : FsAdmissionId) : outcome FsError nat :=
  let? r := Volume_admissions v in
  if (subject =? 0) || (fa_number id =? 0) then Err EInvalid
  else if negb (bool_decide (fa_lineage id = rv_lineage r)) then Err ELineage
  else ok_or (position (admission_match subject (fa_number id)) (rv_records r)) EOutcomeUnknown.

(** [self.admissions()?.records[slot].as_ref().unwrap()]. *)
Definition admission_record (v : Volume) (slot : nat) : outcome FsError FsRecord :=
  let? r := Volume_admissions v in
  match rv_records r !! slot with Some (Some x) => Ok x | _ => Panic end.

Definition admission_by_id (v : Volume) (subject : Z) (id : FsAdmissionId) : outcome FsError FsAdmission :=
  let? slot := admission_slot v subject id in
  let? x := admission_record v slot in
  admission_view x.

Definition admission_by_retry (v : Volume) (subject workspace : Z) (retry : FsRetry) : outcome FsError FsAdmission :=
  let? r := Volume_admissions v in
  if (subject =? 0) || (workspace =? 0) || (ry_key retry =? 0) || (ry_epoch retry =? 0) then Err EInvalid
  else if negb (bool_decide (ry_lineage retry = rv_lineage r)) then Err ELineage
  else
    match List.find (scoped_match subject workspace retry) (slots (rv_records r)) with
    | Some x => admission_view x
    | None => if negb (ry_epoch retry =? rv_epoch r) then Err EExpiredEpoch else Err EOutcomeUnknown
    end.

Definition prevention_reasons_enabled (v : Volume) : outcome FsError bool :=
  let? r := Volume_admissions v in Ok (rv_reasons r).

Section Admissions.
Context {D : Type}.

Definition prepare_admission (v : Volume) (d : D) (subject instance : Z) (request : FsReplacement) (bytes : list Z)
    : outcome FsError (Publication D FsStatus) :=
  if (MAX_FILE <? length bytes)%nat then Err ESize
  else
    match admission_by_retry v subject (fp_workspace request) (fp_retry request) with
    | Ok old =>
      if negb (fp_id (av_request old) =? fp_id request) || negb (fp_version (av_request old) =? fp_version request)
         || negb (bool_decide (av_bytes old = bytes))
      then Err EIdempotencyConflict else Ok (Publication_replayed v d (av_status old))
    | Err EOutcomeUnknown =>
      let? _ := Volume_resolve v (fp_workspace request) (fp_id request) in
      let? node := Volume_writable v (fp_id request) in
      if negb (kind_is (n_kind node) KFile) then Err EIsDirectory
      else if negb (n_version node =? fp_version request) then Err EVersion
      else
        let? r := Volume_admissions v in
        let? slot := ok_or (position is_none (rv_records r)) EFull in
        let? number := ok_or (checked_add (Volume_sequence v) 1) EExhausted in
        let instance := choose_instance instance number in
        if number <? instance then Err EInvalid
        else
          let record := mkFsRecord subject (mkFsReceipt (fp_retry request) (fp_id request) (fp_version request) 0 (Z.of_nat (length bytes)))
                          (Some (fp_workspace request, instance)) (padded_bytes bytes) (Some (mkStored number FAdmitted 0 None)) in
          let? files_view := admission_view record in
          match m_recovery (vl_metadata v) with
          | None => Panic
          | Some r => Publication_metadata v d (store_record (vl_metadata v) r slot record) (av_status files_view)
          end
    | Err e => Err e
    | Panic => Panic
    end.

(** The retained record in [slot] with its admission changed. *)
Definition with_admission (m : Metadata) (slot : nat) (f : FsRecord -> Stored -> FsRecord) : outcome FsError Metadata :=
  match m_recovery m with
  | Some r =>
    match rv_records r !! slot with
    | Some (Some x) => match rd_admission x with Some a => Ok (store_record m r slot (f x a)) | None => Panic end
    | _ => Panic
    end
  | None => Panic
  end.

Definition cancelled_record (terminal : Z) (reason : FsReason) (x : FsRecord) (a : Stored) : FsRecord :=
  mkFsRecord (rd_subject x) (rd_receipt x) (rd_namespace x) (rd_bytes x) (Some (mkStored (so_number a) FCancelled terminal (Some reason))).

Definition prepare_cancelled (v : Volume) (d : D) (subject : Z) (id : FsAdmissionId) (reason : FsReason)
    : outcome FsError (Publication D FsStatus) :=
  let? slot := admission_slot v subject id in
  let? old := admission_by_id v subject id in
  let old := av_status old in
  if negb (bool_decide (fs_state old = FAdmitted)) then Ok (Publication_replayed v d old)
  else
    let? terminal := ok_or (checked_add (Volume_sequence v) 1) EExhausted in
    let? next := with_admission (vl_metadata v) slot (cancelled_record terminal reason) in
    Publication_metadata v d next (mkFsStatus (fs_id old) FCancelled terminal (Some reason)).

Definition prepare_cancellation (v : Volume) (d : D) (subject : Z) (id : FsAdmissionId) : outcome FsError (Publication D FsStatus) :=
  let? known := prevention_reasons_enabled v in
  prepare_cancelled v d subject id (if known : bool then RRequested else RUnknown).

Definition prepare_prevention (v : Volume) (d : D) (subject : Z) (id : FsAdmissionId) (reason : FsReason)
    : outcome FsError (Publication D FsStatus) :=
  let? known := prevention_reasons_enabled v in
  if negb known then Err EUnsupported else prepare_cancelled v d subject id reason.

Definition committed_receipt (x : FsRecord) (committed : Z) : FsReceipt :=
  mkFsReceipt (fr_retry (rd_receipt x)) (fr_id (rd_receipt x)) (fr_previous (rd_receipt x)) committed (fr_length (rd_receipt x)).

Definition committed_record (committed : Z) (x : FsRecord) (a : Stored) : FsRecord :=
  mkFsRecord (rd_subject x) (committed_receipt x committed) (rd_namespace x) (rd_bytes x)
    (Some (mkStored (so_number a) FCommitted committed (so_prevention a))).

Definition prepare_admitted (v : Volume) (d : D) (subject : Z) (id : FsAdmissionId) : outcome FsError (Publication D FsReceipt) :=
  let? slot := admission_slot v subject id in
  let? record := admission_record v slot in
  let? admission := admission_view record in
  match fs_state (av_status admission) with
  | FCancelled => Err ECancelled
  | FCommitted => Ok (Publication_replayed v d (rd_receipt record))
  | FAdmitted =>
    let? _ := Volume_resolve v (fp_workspace (av_request admission)) (fr_id (rd_receipt record)) in
    let? committed := ok_or (checked_add (Volume_sequence v) 1) EExhausted in
    let? next := with_admission (vl_metadata v) slot (committed_record committed) in
    let receipt := committed_receipt record committed in
    prepare_recorded v d (fr_id receipt) (fr_previous receipt) (av_bytes admission) next (fun _ => receipt)
  end.

Definition admit_replace `{Disk D} (w : Volume * D) (subject instance : Z) (request : FsReplacement) (bytes : list Z)
    : option (outcome FsError FsStatus * (Volume * D)) :=
  prepared_run w (prepare_admission (w.1) (w.2) subject instance request bytes).

Definition cancel_admission `{Disk D} (w : Volume * D) (subject : Z) (id : FsAdmissionId) : option (outcome FsError FsStatus * (Volume * D)) :=
  prepared_run w (prepare_cancellation (w.1) (w.2) subject id).
End Admissions.
