(* ===== verification/FsCrash.v ===== *)
(** * Crash safety of a publication

    A volume rests on a disk when the sectors its generation depends on are
    durable, and nothing that may be found in the other bank's header passes for
    a newer generation.  The commands of a publication write only sectors the
    current generation does not depend on, flush them, then write one header
    sector and flush again; whatever survives a stop, sectors torn in two
    included, is the old or the new generation.  A torn header is refused by the
    checksum test of [check_header], which leaves the old one. *)
From stdpp Require Import base list option numbers.
From Stdlib Require Import ZArith Lia Bool.
From S2P Require Import Prelude Bytes Codec FsDisk FsNode FsRecovery FsFormat FsVolume FsPublication.

(** ** Generations of an image *)

(** Whatever the rest of the bank holds, a header [x] carries an older sequence (or is refused). *)
Definition stale_header (x : list Z) (bank q : Z) : Prop :=
  forall t m, image_ok t -> t (header_sector bank) = x -> read_image t bank = Ok m -> m_sequence m < q.

Definition stale (s : image) (bank q : Z) : Prop := stale_header (s (header_sector bank)) bank q.

(** A header whose checksum fails is refused. *)
Lemma checksum_fails_stale x bank q : checksum_fails x -> stale_header x bank q.
Proof.
  intros Hx t m _ <- H. unfold read_image, check_header in H. destruct (bool_decide _); [done|]. destruct (header_bad _); [done|].
  destruct (Z.eqb_spec (u32_at (t (header_sector bank)) 28) (crc (write (t (header_sector bank)) 28 (zeros 4)))); [by destruct Hx|done].
Qed.

Lemma stale_less x bank q q' : q <= q' -> stale_header x bank q -> stale_header x bank q'.
Proof. intros Hq H t m Ht E Hr. specialize (H t m Ht E Hr). lia. Qed.

Definition bank_generation (s : image) (m : Metadata) (bank : Z) : Prop :=
  read_image s bank = Ok m /\ stale s (1 - bank) (m_sequence m).

Definition is_bank (bank : Z) : Prop := bank = 0 \/ bank = 1.

Lemma generation_picked s m bank : image_ok s -> is_bank bank -> bank_generation s m bank ->
  pick_generation (read_image s 0) (read_image s 1) = Ok (m, bank).
Proof.
  intros Hs Hb [Hr Hst]. unfold pick_generation. pose proof (read_image_refusal s (1 - bank) Hs) as Hrf.
  assert (Hlt : forall m', read_image s (1 - bank) = Ok m' -> m_sequence m' < m_sequence m) by (intros m' E; by apply (Hst s m')).
  destruct Hb as [-> | ->]; [change (1 - 0) with 1 in *|change (1 - 1) with 0 in *]; rewrite Hr.
  - destruct (read_image s 1) as [m'|e|]; [|by destruct Hrf as [-> | ->]|done]. specialize (Hlt m' eq_refl).
    destruct (Z.eqb_spec (m_sequence m) (m_sequence m')); [lia|]. destruct (Z.ltb_spec (m_sequence m') (m_sequence m)); [done|lia].
  - destruct (read_image s 0) as [m'|e|]; [|by destruct Hrf as [-> | ->]|done]. specialize (Hlt m' eq_refl).
    destruct (Z.eqb_spec (m_sequence m') (m_sequence m)); [lia|]. destruct (Z.ltb_spec (m_sequence m) (m_sequence m')); [lia|done].
Qed.

(** ** The sectors a generation depends on: its header, its tables and its files *)
Definition payload_sector (m : Metadata) (n : Z) : Prop :=
  exists slot x, m_nodes m !! slot = Some x /\ n_kind x = KFile /\ n_length x <> 0 /\
    data_sector slot (n_bank x) <= n < data_sector slot (n_bank x) + 2.

Definition table_sector (bank n : Z) : Prop := header_sector bank < n < header_sector bank + 5.
Definition area_sector (bank n : Z) : Prop := records_sector bank <= n < records_sector bank + 7.

Definition live_sector (m : Metadata) (bank n : Z) : Prop :=
  n = header_sector bank \/ table_sector bank n \/ (m_recovery m <> None /\ area_sector bank n) \/ payload_sector m n.

Lemma read_image_version s bank m : read_image s bank = Ok m -> (2 <=? byte_at (s (header_sector bank)) 8) = negb (is_none (m_recovery m)).
Proof.
  unfold read_image. destruct (check_header _) as [[]| |]; [|done..]. destruct (parse_nodes _ _); [|done..].
  destruct (2 <=? _); [destruct (parse_records _ _); [|done..]|]; intros H; by apply checked_ok in H as [-> _].
Qed.

(** Images that agree on the live sectors hold the same generation. *)
Lemma read_image_live s s' bank m : read_image s bank = Ok m -> (forall n, live_sector m bank n -> s' n = s n) ->
  read_image s' bank = Ok m.
Proof.
  intros H Hs. pose proof (read_image_version _ _ _ H) as Hv. rewrite <- H. unfold read_image.
  assert (Hh : s' (header_sector bank) = s (header_sector bank)) by (apply Hs; by left).
  rewrite Hh, (sectors_ext s' s (header_sector bank + 1) 4) by (intros n Hn; apply Hs; right; left; unfold table_sector; lia).
  destruct (check_header _) as [[]| |]; [|done..]. destruct (parse_nodes _ _); [|done..]. rewrite Hv.
  destruct (m_recovery m) as [r|] eqn:E; [|done]. cbn [is_none negb].
  rewrite (sectors_ext s' s (records_sector bank) RECOVERY_SECTORS); [done|]. intros n Hn. apply Hs. right. right. left.
  split; [by rewrite E|]. unfold area_sector, RECOVERY_SECTORS in *. lia.
Qed.

Lemma other_bank bank : is_bank bank -> is_bank (1 - bank).
Proof. unfold is_bank. lia. Qed.

Lemma generation_live s s' bank m : bank_generation s m bank -> (forall n, live_sector m bank n -> s' n = s n) ->
  stale s' (1 - bank) (m_sequence m) -> bank_generation s' m bank.
Proof. intros [H1 _] Hs Hst. split; [by eapply read_image_live|done]. Qed.

(** The other generation is older once the new header is in place. *)
Lemma superseded_stale s m q bank : image_ok s -> bank_generation s m bank -> m_sequence m < q ->
  stale_header (s (header_sector bank)) bank q.
Proof.
  intros Hs [Hr _] Hlt t x Ht Et Hx. apply read_image_ok in Hx as [_ ->]; [|done]. apply read_image_ok in Hr as [_ E]; [|done].
  by rewrite Et, <- E.
Qed.

Lemma generation_supersedes s s' m m' bank : image_ok s -> bank_generation s m bank ->
  s' (header_sector bank) = s (header_sector bank) -> read_image s' (1 - bank) = Ok m' -> m_sequence m < m_sequence m' ->
  bank_generation s' m' (1 - bank).
Proof.
  intros Hs Hg Hh Hr' Hlt. split; [done|]. replace (1 - (1 - bank)) with bank by lia. unfold stale. rewrite Hh.
  by eapply superseded_stale.
Qed.

(** ** Volumes at rest *)
Section AtRest.
Context {D : Type} {HV : DiskView D} {HW : ViewLaws D}.
Implicit Types d : D.

Record rests_on (d : D) (m : Metadata) (bank : Z) : Prop := {
  rs_bank : is_bank bank;
  rs_ok : metadata_ok m;
  rs_generation : bank_generation (contents d) m bank;
  rs_durable : forall n x, live_sector m bank n -> may_survive d n x -> x = contents d n;
  rs_stale : forall x, may_survive d (header_sector (1 - bank)) x -> stale_header x (1 - bank) (m_sequence m);
}.

Lemma contents_ok d : image_ok (contents d).
Proof. intros n. eapply view_sectors, view_contents. Qed.

Lemma survives_ok d s : survives d s -> image_ok s.
Proof. intros H n. eapply view_sectors, H. Qed.

Lemma rests_survives d m bank s : rests_on d m bank -> survives d s ->
  bank_generation s m bank /\ (forall n, live_sector m bank n -> s n = contents d n).
Proof.
  intros [Hb Hok Hg Hd Hst] Hs. assert (H : forall n, live_sector m bank n -> s n = contents d n) by (intros n Hn; by apply Hd).
  split; [eapply generation_live; [done|done|by apply Hst]|done].
Qed.

Lemma rests_undisturbed d d' m bank : undisturbed d d' -> rests_on d m bank -> rests_on d' m bank.
Proof.
  intros [U1 U2] [Hb Hok Hg Hd Hst]. split; [done|done| | |auto].
  - eapply generation_live; [done|intros; apply U1|]. unfold stale. rewrite U1. apply Hg.
  - intros n x Hn Hx. rewrite U1. apply Hd; [done|by apply U2].
Qed.

(** ** The stages of a publication

    [fresh] lists the sectors the publication prepares, [header] is the sector
    that switches to the new generation. *)
Section Stages.
Context (m next : Metadata) (bank : Z) (base : image) (fresh : list (Z * list Z)) (header : list Z).
Let target := header_sector (1 - bank).
Hypothesis (Hbank : is_bank bank) (Hbase : image_ok base) (Hgen : bank_generation base m bank) (Hok : metadata_ok m).
Hypothesis (Hfresh : forall n b, (n, b) ∈ fresh -> ~ live_sector m bank n /\ n <> target).
Hypothesis (Hseq : m_sequence m < m_sequence next) (Hnext : metadata_ok next).
Hypothesis (Hreads : forall s, s target = header -> (forall n b, (n, b) ∈ fresh -> s n = b) -> read_image s (1 - bank) = Ok next).
Hypothesis (Htarget : ~ live_sector m bank target).
Hypothesis (Hcover : forall n, live_sector next (1 - bank) n -> n = target \/ (exists b, (n, b) ∈ fresh) \/ live_sector m bank n).

(** The old generation's sectors are untouched, and [w] has been written. *)
Record preparing (d : D) (w : list (Z * list Z)) : Prop := {
  pr_live : forall n, live_sector m bank n -> contents d n = base n;
  pr_durable : forall n x, live_sector m bank n -> may_survive d n x -> x = base n;
  pr_stale : forall x, may_survive d target x -> stale_header x (1 - bank) (m_sequence m);
  pr_written : forall n b, (n, b) ∈ w -> contents d n = b;
}.

(** Everything prepared is durable. *)
Definition sealed (d : D) : Prop := preparing d fresh /\ forall n b x, (n, b) ∈ fresh -> may_survive d n x -> x = b.

(** ... and the header may have been offered: it may be found whole, torn or not at all. *)
Record offered (d : D) : Prop := {
  of_live : forall n, live_sector m bank n -> contents d n = base n;
  of_durable : forall n x, live_sector m bank n -> may_survive d n x -> x = base n;
  of_header : forall x, may_survive d target x -> stale_header x (1 - bank) (m_sequence m) \/ x = header;
  of_fresh : forall n b, (n, b) ∈ fresh -> contents d n = b /\ forall x, may_survive d n x -> x = b;
}.

Definition published (d : D) : Prop := offered d /\ contents d target = header.
Definition write_finished (d : D) : Prop := published d /\ forall x, may_survive d target x -> x = header.

Lemma target_switches : generation_sector target.
Proof. unfold generation_sector, target. destruct Hbank as [-> | ->]; [by right|by left]. Qed.

Lemma sealed_offered d : sealed d -> offered d.
Proof. intros [[L Du St W] F]. split; [auto|eauto|auto|]. intros n b Hb. split; [by apply W|]. intros x. by apply F. Qed.

Lemma preparing_unsettled d d' w c : preparing d w ->
  (forall n b, c = CWrite n b -> (n, b) ∈ fresh /\ forall x, (n, x) ∉ w) -> unsettled c d d' -> preparing d' w.
Proof.
  intros [L Du St W] Hc U. destruct c as [n b|]; simpl in U.
  - destruct (Hc n b eq_refl) as [Hf Hw]. destruct U as [U1 U2]. destruct (Hfresh n b Hf) as [Hn Ht]. split.
    + intros k Hk. rewrite U1; [by apply L|]. by intros ->.
    + intros k x Hk Hx. destruct (U2 k x Hx) as [Hy|[-> _]]; [by eapply Du|done].
    + intros x Hx. destruct (U2 target x Hx) as [Hy|[E _]]; [by apply St|by destruct Ht].
    + intros k x Hk. rewrite U1; [by apply W|]. intros ->. by destruct (Hw x).
  - destruct U as [U1 U2]. split; [intros; rewrite U1; auto|eauto|auto|intros; rewrite U1; auto].
Qed.

Lemma preparing_write d d' w n b : preparing d w -> (n, b) ∈ fresh -> (forall x, (n, x) ∉ w) -> settled (CWrite n b) d d' ->
  preparing d' (w ++ [(n, b)]).
Proof.
  intros H Hf Hw S. pose proof (preparing_unsettled _ d' w (CWrite n b) H ltac:(by intros ? ? [= <- <-]) (settled_unsettled _ _ _ S)) as [L Du St W].
  destruct S as (S1 & _ & _). split; [done..|]. intros k x [Hx|Hx]%elem_of_app; [by apply W|].
  apply list_elem_of_singleton in Hx. by injection Hx as -> ->.
Qed.

Lemma preparing_flush d d' w : preparing d w -> settled CFlush d d' ->
  preparing d' w /\ forall n b x, (n, b) ∈ w -> may_survive d' n x -> x = b.
Proof.
  intros [L Du St W] [S1 S2]. split; [split|].
  - intros n Hn. rewrite S1. by apply L.
  - intros n x Hn Hx. rewrite (S2 n x Hx). by apply L.
  - intros x Hx. apply St. rewrite (S2 _ x Hx). apply view_contents.
  - intros n b Hb. rewrite S1. by apply W.
  - intros n b x Hb Hx. rewrite (S2 n x Hx). by apply W.
Qed.

(** A torn header is refused, so it is as stale as what was there. *)
Lemma offered_unsettled d d' : offered d -> unsettled (CWrite target header) d d' -> offered d'.
Proof.
  intros [L Du Hh F] [U1 U2]. split.
  - intros n Hn. rewrite U1; [by apply L|]. intros ->. by apply Htarget.
  - intros n x Hn Hx. destruct (U2 n x Hx) as [Hy|[-> _]]; [by eapply Du|done].
  - intros x Hx. destruct (U2 _ x Hx) as [Hy|(_ & y & Hy & _ & Ht)]; [by apply Hh|].
    destruct Ht as [->|[->|Ht]]; [exact target_switches|by apply Hh|by right|left; by apply checksum_fails_stale].
  - intros n b Hb. destruct (Hfresh n b Hb) as [_ Hn]. destruct (F n b Hb) as [F1 F2]. split; [by rewrite U1|].
    intros x Hx. destruct (U2 n x Hx) as [Hy|[? _]]; [by apply F2|done].
Qed.

Lemma offered_settled d d' : offered d -> settled (CWrite target header) d d' -> published d'.
Proof. intros H S. split; [eapply offered_unsettled, settled_unsettled; done|]. by destruct S. Qed.

Lemma published_unsettled d d' : published d -> unsettled CFlush d d' -> published d'.
Proof.
  intros [[L Du Hh F] Hc] [U1 U2]. split; [split|by rewrite U1].
  - intros n Hn. rewrite U1. by apply L.
  - eauto.
  - eauto.
  - intros n b Hb. destruct (F n b Hb) as [F1 F2]. rewrite U1. eauto.
Qed.

Lemma published_settled d d' : published d -> settled CFlush d d' -> write_finished d'.
Proof.
  intros H S. pose proof (published_unsettled _ _ H (settled_unsettled CFlush _ _ S)) as Hp. split; [done|].
  destruct S as [S1 S2]. intros x Hx. rewrite (S2 _ x Hx). apply H.
Qed.

(** *** What survives *)
Definition old_survives (s : image) : Prop := bank_generation s m bank /\ forall n, live_sector m bank n -> s n = base n.
Definition new_survives (s : image) : Prop :=
  bank_generation s next (1 - bank) /\ (forall n b, (n, b) ∈ fresh -> s n = b) /\ forall n, live_sector m bank n -> s n = base n.

Lemma preparing_survives d w s : preparing d w -> survives d s -> old_survives s.
Proof.
  intros [L Du St _] Hs. assert (H : forall n, live_sector m bank n -> s n = base n) by (intros n Hn; by apply Du).
  split; [eapply generation_live; [done|done|by apply St]|done].
Qed.

Lemma new_generation s : s target = header -> (forall n b, (n, b) ∈ fresh -> s n = b) ->
  (forall n, live_sector m bank n -> s n = base n) -> new_survives s.
Proof.
  intros Ht Hf Hl. split; [|done]. eapply (generation_supersedes base); [done|done| |by apply Hreads|done]. apply Hl. by left.
Qed.

Lemma offered_survives d s : offered d -> survives d s -> old_survives s \/ new_survives s.
Proof.
  intros [L Du Hh F] Hs. assert (H : forall n, live_sector m bank n -> s n = base n) by (intros n Hn; by apply Du).
  destruct (Hh (s target) (Hs target)) as [Ht|Ht].
  - left. split; [by eapply generation_live|done].
  - right. apply new_generation; [done| |done]. intros n b Hb. destruct (F n b Hb) as [_ F2]. apply F2, Hs.
Qed.

Lemma finished_survives d s : write_finished d -> survives d s -> new_survives s.
Proof.
  intros [[[L Du Hh F] Hc] Ht] Hs. apply new_generation; [by apply Ht| |].
  - intros n b Hb. destruct (F n b Hb) as [_ F2]. apply F2, Hs.
  - intros n Hn. by apply Du.
Qed.

(** *** The volume comes to rest *)
Lemma preparing_rests d w : preparing d w -> rests_on d m bank.
Proof.
  intros [L Du St _]. split; [done|done| | |done].
  - eapply generation_live; [done|done|]. apply St, view_contents.
  - intros n x Hn Hx. rewrite L by done. by eapply Du.
Qed.

Lemma finished_rests d : write_finished d -> rests_on d next (1 - bank).
Proof.
  intros Hd. pose proof Hd as [[[L Du Hh F] Hc] Ht]. split; [by apply other_bank|done| | |].
  - apply (finished_survives d (contents d) Hd). intros n. apply view_contents.
  - intros n x Hn Hx. destruct (Hcover n Hn) as [->|[[b Hb]|Hl]]; [rewrite Hc; by apply Ht| |].
    + destruct (F n b Hb) as [-> F2]. by apply F2.
    + rewrite L by done. by eapply Du.
  - replace (1 - (1 - bank)) with bank by lia. intros x Hx. rewrite (Du (header_sector bank) x); [|by left|done]. by eapply superseded_stale.
Qed.
End Stages.
End AtRest.
