(* ===== verification/FsPublish.v ===== *)
(** * A publication in progress

    The invariant of [Publication]: in every phase, on every disk that keeps the
    contract, the volume's old generation survives until the header is offered,
    one of the two generations survives while it settles, and the new one from
    then on.  Driving, cancelling and dropping preserve it. *)
From stdpp Require Import base list option numbers.
From Stdlib Require Import ZArith Lia Bool.
From S2P Require Import Prelude Bytes Codec FsDisk FsNode FsRecovery FsFormat FsVolume FsPublication FsCrash.

(** ** The sectors a publication prepares *)
Definition record_writes (next : Metadata) (bank : Z) : list (Z * list Z) :=
  match m_recovery next with
  | Some r => (fun i => (records_sector bank + Z.of_nat i, sector_at (Recovery_encode r) i)) <$> seq 0 7
  | None => []
  end.

Definition table_writes (next : Metadata) (bank : Z) : list (Z * list Z) :=
  (fun i => (header_sector bank + 1 + Z.of_nat i, sector_at (Metadata_bytes next) i)) <$> seq 0 4.

Definition data_writes (ds : nat) (first : Z) (data : list Z) : list (Z * list Z) :=
  if (ds =? 3)%nat then [(first, sector_at data 0); (first + 1, sector_at data 1)] else [].

Definition meta_writes (next : Metadata) (bank : Z) : list (Z * list Z) := record_writes next bank ++ table_writes next bank.

Definition prepared (ds : nat) (first : Z) (data : list Z) (next : Metadata) (bank : Z) : list (Z * list Z) :=
  data_writes ds first data ++ meta_writes next bank.

(** The writes among the first [step] commands. *)
Definition writes_done (ds : nat) (step : nat) : nat := if (ds =? 3)%nat then (Nat.min step 2 + (step - 3))%nat else step.

Lemma length_record_writes next bank : length (record_writes next bank) = if is_scoped next then 7%nat else 0%nat.
Proof. unfold record_writes, is_scoped. by destruct (m_recovery next); rewrite ?length_fmap, ?length_seq. Qed.

Lemma length_meta_writes next bank : length (meta_writes next bank) = (write_steps next - 3)%nat.
Proof.
  unfold meta_writes, write_steps. rewrite length_app, length_record_writes. unfold table_writes. rewrite length_fmap, length_seq.
  by destruct (is_scoped next).
Qed.

Lemma write_steps_range next : (7 <= write_steps next <= 14)%nat.
Proof. unfold write_steps. destruct (is_scoped next); lia. Qed.

(** The commands of [Metadata::command], by step. *)
Lemma Metadata_command_spec next bank j : (j < write_steps next)%nat ->
  Metadata_command next bank j = Ok (
    match meta_writes next bank !! j with
    | Some (n, b) => CWrite n b
    | None => if (j =? write_steps next - 2)%nat then CWrite (header_sector bank) (publication_header next) else CFlush
    end).
Proof.
  intros Hj. unfold Metadata_command, meta_writes, write_steps in *. pose proof (length_record_writes next bank) as Lr.
  unfold is_scoped, record_writes in *. destruct (m_recovery next) as [r|].
  - destruct (Nat.ltb_spec j 7) as [H7|H7].
    + rewrite lookup_app_l by (rewrite Lr; done). rewrite list_lookup_fmap, lookup_seq_lt by done. done.
    + rewrite lookup_app_r by (rewrite Lr; done). rewrite Lr. unfold table_writes. rewrite list_lookup_fmap.
      destruct (Nat.leb_spec (j - 7) 3).
      * rewrite lookup_seq_lt by lia. done.
      * rewrite lookup_seq_ge by lia. cbn [fmap option_fmap option_map].
        assert (j = 11%nat \/ j = 12%nat \/ j = 13%nat) as [-> | [-> | ->]] by lia; done.
  - cbn [app]. rewrite Nat.sub_0_r. destruct (Nat.ltb_spec j 0); [lia|]. unfold table_writes. rewrite list_lookup_fmap.
    destruct (Nat.leb_spec j 3).
    + rewrite lookup_seq_lt by lia. done.
    + rewrite lookup_seq_ge by lia. cbn [fmap option_fmap option_map].
      assert (j = 4%nat \/ j = 5%nat \/ j = 6%nat) as [-> | [-> | ->]] by lia; done.
Qed.

(** ** Where the sectors are *)
Lemma payload_range m n : metadata_ok m -> payload_sector m n -> 32 <= n < 160.
Proof.
  intros H (slot & x & Hx & Hk & _ & Hn). pose proof (lookup_lt_Some _ _ _ Hx) as Hl. rewrite (mo_count _ H) in Hl. unfold OBJECTS in Hl.
  pose proof (mo_nodes _ H) as V. rewrite Forall_lookup in V. destruct (V slot x Hx) as [->|Hv]; [done|].
  pose proof (ln_bank x Hv). unfold data_sector in Hn. lia.
Qed.

Lemma live_range m bank n : metadata_ok m -> live_sector m bank n ->
  n = header_sector bank \/ table_sector bank n \/ area_sector bank n \/ 32 <= n < 160.
Proof.
  intros H [E|[E|[[_ E]|E]]]; [by left|by right; left|by right; right; left|]. right. right. right. by eapply payload_range.
Qed.

Lemma other_header_apart m bank : is_bank bank -> metadata_ok m -> ~ live_sector m bank (header_sector (1 - bank)).
Proof.
  intros Hb H Hl. apply live_range in Hl; [|done]. unfold table_sector, area_sector, header_sector, records_sector in Hl. destruct Hb as [-> | ->]; lia.
Qed.

(** What the caller of a publication guarantees about the sectors it replaces. *)
Record placed (m next : Metadata) (ds : nat) (first : Z) (data : list Z) : Prop := {
  pd_steps : ds = 0%nat \/ (ds = 3%nat /\ length data = MAX_FILE /\ bytes_ok data);
  pd_free : forall n b, (n, b) ∈ data_writes ds first data -> 32 <= n < 160 /\ ~ payload_sector m n;
  pd_cover : forall n, payload_sector next n -> payload_sector m n \/ exists b, (n, b) ∈ data_writes ds first data;
}.

Section Prepared.
Context (m next : Metadata) (bank : Z) (ds : nat) (first : Z) (data : list Z).
Hypothesis (Hbank : is_bank bank) (Hm : metadata_ok m) (Hnext : metadata_ok next) (Hplaced : placed m next ds first data).
#[local] Abbreviation fresh := (prepared ds first data next (1 - bank)).

Lemma elem_of_meta n b : (n, b) ∈ meta_writes next (1 - bank) ->
  (exists r i, m_recovery next = Some r /\ (i < 7)%nat /\ n = records_sector (1 - bank) + Z.of_nat i /\ b = sector_at (Recovery_encode r) i) \/
  (exists i, (i < 4)%nat /\ n = header_sector (1 - bank) + 1 + Z.of_nat i /\ b = sector_at (Metadata_bytes next) i).
Proof.
  unfold meta_writes, record_writes, table_writes. rewrite elem_of_app. intros [H|H].
  - destruct (m_recovery next) as [r|]; [|by apply elem_of_nil in H]. apply list_elem_of_fmap in H as (i & [= -> ->] & Hi).
    apply elem_of_seq in Hi. left. exists r, i. split; [done|]. split; [lia|done].
  - apply list_elem_of_fmap in H as (i & [= -> ->] & Hi). apply elem_of_seq in Hi. right. exists i. split; [lia|done].
Qed.

Lemma prepared_fresh n b : (n, b) ∈ fresh -> ~ live_sector m bank n /\ n <> header_sector (1 - bank).
Proof.
  unfold prepared. rewrite elem_of_app. intros [H|H].
  - destruct (pd_free _ _ _ _ _ Hplaced n b H) as [Hr Hp]. unfold live_sector, table_sector, area_sector, header_sector, records_sector.
    split; [intros Hl|]; destruct Hbank as [-> | ->]; try lia; destruct Hl as [Hl|[Hl|[[_ Hl]|Hl]]]; (lia || done).
  - apply elem_of_meta in H. split; [intros Hl; apply live_range in Hl; [|done]|]; unfold table_sector, area_sector, header_sector, records_sector in *;
      destruct H as [(r & i & _ & Hi & -> & _)|(i & Hi & -> & _)]; destruct Hbank as [-> | ->]; lia.
Qed.

Lemma prepared_sector n b : (n, b) ∈ fresh -> is_sector b.
Proof.
  unfold prepared. rewrite elem_of_app. intros [H|H].
  - unfold data_writes in H. destruct (Nat.eqb_spec ds 3); [|by apply elem_of_nil in H].
    destruct (pd_steps _ _ _ _ _ Hplaced) as [?|(_ & L & B)]; [lia|]. unfold MAX_FILE in L.
    rewrite !elem_of_cons in H. destruct H as [[= -> ->]|[[= -> ->]|H]]; [| |by apply elem_of_nil in H];
      apply (sector_at_ok data 2); (done || lia).
  - apply elem_of_meta in H as [(r & i & Hr & Hi & _ & ->)|(i & Hi & _ & ->)].
    + pose proof (mo_recovery _ Hnext r Hr) as R. apply (sector_at_ok _ 7); [by eapply Recovery_encode_bytes|by eapply length_Recovery_encode|done].
    + destruct (length_Metadata_bytes _ Hnext) as [L B]. apply (sector_at_ok _ 4); [done|by rewrite L|done].
Qed.

(** No sector is prepared twice. *)
Lemma prepared_nodup : NoDup (fst <$> fresh).
Proof.
  unfold prepared, meta_writes, record_writes, table_writes. rewrite !fmap_app. apply list.NoDup_app. split; [|split; [|apply list.NoDup_app; split; [|split]]].
  - unfold data_writes. destruct (ds =? 3)%nat; [|constructor]. apply list.NoDup_cons. split; [|apply NoDup_singleton].
    intros H. apply list_elem_of_singleton in H. cbn in H. lia.
  - intros n Hn Hn'. apply list_elem_of_fmap in Hn as ([? b] & -> & Hb). destruct (pd_free _ _ _ _ _ Hplaced _ b Hb) as [Hr _].
    rewrite <- fmap_app in Hn'. apply list_elem_of_fmap in Hn' as ([n' b'] & E & Hb'). cbn in E, Hr. subst n'.
    apply elem_of_meta in Hb' as [(r & i & _ & Hi & -> & _)|(i & Hi & -> & _)]; unfold records_sector, header_sector in *; destruct Hbank as [-> | ->]; lia.
  - destruct (m_recovery next); [|constructor]. rewrite <- list_fmap_compose. apply NoDup_fmap_2; [|apply list.NoDup_seq].
    intros i j H. cbn in H. lia.
  - intros n Hn Hn'. apply list_elem_of_fmap in Hn' as ([? b] & -> & Hb). apply list_elem_of_fmap in Hb as (j & [= -> ->] & Hj). apply elem_of_seq in Hj.
    destruct (m_recovery next); [|by apply elem_of_nil in Hn]. apply list_elem_of_fmap in Hn as ([n' b'] & E & Hb').
    apply list_elem_of_fmap in Hb' as (i & [= -> ->] & Hi). apply elem_of_seq in Hi. cbn in E.
    unfold records_sector, header_sector in *. destruct Hbank as [-> | ->]; lia.
  - rewrite <- list_fmap_compose. apply NoDup_fmap_2; [|apply list.NoDup_seq]. intros i j H. cbn in H. lia.
Qed.

Lemma prepared_reads s : s (header_sector (1 - bank)) = publication_header next -> (forall n b, (n, b) ∈ fresh -> s n = b) ->
  read_image s (1 - bank) = Ok next.
Proof.
  intros Hh Hf. apply published_reads; [done|done|]. assert (Hw : forall n b, (n, b) ∈ meta_writes next (1 - bank) -> s n = b).
  { intros n b H. apply Hf. apply elem_of_app. by right. }
  unfold meta_writes in Hw. split.
  - intros i Hi. apply Hw. apply elem_of_app. right. apply list_elem_of_fmap. exists i. split; [done|]. apply elem_of_seq. lia.
  - intros r Hr i Hi. apply Hw. apply elem_of_app. left. unfold record_writes. rewrite Hr. apply list_elem_of_fmap. exists i.
    split; [done|]. apply elem_of_seq. lia.
Qed.

Lemma prepared_cover n : live_sector next (1 - bank) n ->
  n = header_sector (1 - bank) \/ (exists b, (n, b) ∈ fresh) \/ live_sector m bank n.
Proof.
  intros [->|[H|[[Hr H]|H]]]; [by left| | |].
  - right. left. unfold table_sector in H. exists (sector_at (Metadata_bytes next) (Z.to_nat (n - header_sector (1 - bank) - 1))).
    unfold prepared, meta_writes. apply elem_of_app. right. apply elem_of_app. right. apply list_elem_of_fmap.
    exists (Z.to_nat (n - header_sector (1 - bank) - 1)). split; [f_equal; lia|]. apply elem_of_seq. lia.
  - right. left. unfold area_sector in H. destruct (m_recovery next) as [r|] eqn:E; [|done].
    exists (sector_at (Recovery_encode r) (Z.to_nat (n - records_sector (1 - bank)))).
    unfold prepared, meta_writes, record_writes. rewrite E. apply elem_of_app. right. apply elem_of_app. left. apply list_elem_of_fmap.
    exists (Z.to_nat (n - records_sector (1 - bank))). split; [f_equal; lia|]. apply elem_of_seq. lia.
  - destruct (pd_cover _ _ _ _ _ Hplaced n H) as [Hp|[b Hb]]; [right; right; by right; right; right|].
    right. left. exists b. apply elem_of_app. by left.
Qed.
End Prepared.

(** ** The plan of one publication and the state it is in *)
Record pub_plan := mkPlan {
  pn_m : Metadata;
  pn_next : Metadata;
  pn_bank : Z;
  pn_base : image;
  pn_ds : nat;
  pn_first : Z;
  pn_data : list Z;
}.

Definition pn_fresh (P : pub_plan) : list (Z * list Z) := prepared (pn_ds P) (pn_first P) (pn_data P) (pn_next P) (1 - pn_bank P).
Definition pn_header (P : pub_plan) : list Z := publication_header (pn_next P).
Definition pn_total (P : pub_plan) : nat := (pn_ds P + write_steps (pn_next P))%nat.

Record plan_ok (P : pub_plan) : Prop := {
  po_bank : is_bank (pn_bank P);
  po_base : image_ok (pn_base P);
  po_generation : bank_generation (pn_base P) (pn_m P) (pn_bank P);
  po_m : metadata_ok (pn_m P);
  po_next : metadata_ok (pn_next P);
  po_sequence : m_sequence (pn_m P) < m_sequence (pn_next P);
  po_placed : placed (pn_m P) (pn_next P) (pn_ds P) (pn_first P) (pn_data P);
}.

Section Plan.
Context (P : pub_plan) (HP : plan_ok P).

Lemma fresh_apart n b : (n, b) ∈ pn_fresh P -> ~ live_sector (pn_m P) (pn_bank P) n /\ n <> header_sector (1 - pn_bank P).
Proof. destruct HP. by apply prepared_fresh. Qed.

Lemma plan_target : ~ live_sector (pn_m P) (pn_bank P) (header_sector (1 - pn_bank P)).
Proof. apply other_header_apart; apply HP. Qed.

Lemma plan_reads s : s (header_sector (1 - pn_bank P)) = pn_header P -> (forall n b, (n, b) ∈ pn_fresh P -> s n = b) ->
  read_image s (1 - pn_bank P) = Ok (pn_next P).
Proof. destruct HP. by apply prepared_reads. Qed.

Lemma plan_cover n : live_sector (pn_next P) (1 - pn_bank P) n ->
  n = header_sector (1 - pn_bank P) \/ (exists b, (n, b) ∈ pn_fresh P) \/ live_sector (pn_m P) (pn_bank P) n.
Proof. destruct HP. by apply prepared_cover. Qed.

End Plan.

(** The hypotheses of the stages of a publication, for a plan. *)
Ltac staged HP := first
  [ exact (fresh_apart _ HP) | exact (plan_target _ HP) | exact (plan_reads _ HP) | exact (plan_cover _ HP) | exact (po_bank _ HP)
  | exact (po_base _ HP) | exact (po_generation _ HP) | exact (po_m _ HP) | exact (po_next _ HP) | exact (po_sequence _ HP) ].

(** What [execute] promises about the command it is given. *)
Definition executes {D} `{DiskView D} (execute : Command -> D -> poll (outcome FsError unit) * D) : Prop :=
  forall c d r d', command_ok c -> execute c d = (r, d') ->
    match r with
    | Ready (Ok _) => settled c d d'
    | Ready (Err _) | Pending => unsettled c d d'
    | Ready Panic => False
    end.

Section Progress.
Context {D T : Type} {HV : DiskView D} {HW : ViewLaws D} (P : pub_plan) (HP : plan_ok P).
Implicit Types (d : D) (p : Publication D T).

Definition in_preparation d (step : nat) : Prop :=
  preparing (pn_m P) (pn_bank P) (pn_base P) d (take (writes_done (pn_ds P) step) (pn_fresh P)).
Definition is_sealed d : Prop := sealed (pn_m P) (pn_bank P) (pn_base P) (pn_fresh P) d.
Definition is_offered d : Prop := offered (pn_m P) (pn_bank P) (pn_base P) (pn_fresh P) (pn_header P) d.
Definition is_published d : Prop := published (pn_m P) (pn_bank P) (pn_base P) (pn_fresh P) (pn_header P) d.
Definition is_finished d : Prop := write_finished (pn_m P) (pn_bank P) (pn_base P) (pn_fresh P) (pn_header P) d.
Definition is_old (s : image) : Prop := old_survives (pn_m P) (pn_bank P) (pn_base P) s.
Definition is_new (s : image) : Prop := new_survives (pn_m P) (pn_next P) (pn_bank P) (pn_base P) (pn_fresh P) s.

Definition in_progress p : Prop := pb_volume p = mkVolume (pn_m P) (pn_bank P) true /\ pb_next p = Some (pn_next P).

Record pub_state p : Prop := {
  ps_data : pb_data p = pn_data P /\ pb_first p = pn_first P /\ pb_data_steps p = pn_ds P;
  ps_phase :
    match pb_phase p with
    | Preparing => in_progress p /\ (pb_step p < pn_total P - 2)%nat /\ in_preparation (pb_disk p) (pb_step p)
                   /\ (pb_stopping p = true -> pb_pending p = true)
    | ReadyToPublish => in_progress p /\ pb_step p = (pn_total P - 2)%nat /\ is_sealed (pb_disk p) /\ pb_pending p = false /\ pb_stopping p = false
    | Settling => in_progress p /\ pb_stopping p = false /\
                  ((pb_step p = (pn_total P - 2)%nat /\ pb_pending p = true /\ is_offered (pb_disk p)) \/
                   (pb_step p = (pn_total P - 1)%nat /\ is_published (pb_disk p)))
    | Committed => pb_volume p = mkVolume (pn_next P) (1 - pn_bank P) false /\ is_finished (pb_disk p)
    | Cancelled => pb_volume p = mkVolume (pn_m P) (pn_bank P) false /\ pb_pending p = false /\
                   preparing (pn_m P) (pn_bank P) (pn_base P) (pb_disk p) []
    | Uncertain => pb_volume p = mkVolume (pn_m P) (pn_bank P) true /\ pb_pending p = true /\
                   (preparing (pn_m P) (pn_bank P) (pn_base P) (pb_disk p) [] \/ is_offered (pb_disk p))
    end;
}.

Lemma length_fresh : length (pn_fresh P) = writes_done (pn_ds P) (pn_total P - 3).
Proof.
  unfold pn_fresh, prepared, pn_total, writes_done, data_writes. rewrite length_app, length_meta_writes. pose proof (write_steps_range (pn_next P)).
  destruct (pd_steps _ _ _ _ _ (po_placed _ HP)) as [->|(-> & _)]; cbn [Nat.eqb length]; lia.
Qed.

Lemma preparing_less d w w' : (forall x, x ∈ w' -> x ∈ w) ->
  preparing (pn_m P) (pn_bank P) (pn_base P) d w -> preparing (pn_m P) (pn_bank P) (pn_base P) d w'.
Proof. intros Hw [L Du St W]. split; [done..|]. intros n b Hb. by apply W, Hw. Qed.

Lemma preparing_nothing d w : preparing (pn_m P) (pn_bank P) (pn_base P) d w -> preparing (pn_m P) (pn_bank P) (pn_base P) d [].
Proof. apply preparing_less. intros x Hx. by apply elem_of_nil in Hx. Qed.

(** *** The command of each step *)
Definition step_command (step : nat) : Command :=
  match pn_fresh P !! writes_done (pn_ds P) step with
  | Some (n, b) => if (pn_ds P =? 3)%nat && (step =? 2)%nat then CFlush else CWrite n b
  | None => if (step =? pn_total P - 2)%nat then CWrite (header_sector (1 - pn_bank P)) (pn_header P) else CFlush
  end.

Lemma Publication_command_spec p : pb_data p = pn_data P -> pb_first p = pn_first P -> pb_data_steps p = pn_ds P ->
  vl_bank (pb_volume p) = pn_bank P -> (pb_step p < pn_total P)%nat ->
  Publication_command p (pn_next P) = Ok (step_command (pb_step p)).
Proof.
  intros E1 E2 E3 E4 Hs. unfold Publication_command, step_command, pn_total in *. rewrite E1, E2, E3, E4.
  pose proof (write_steps_range (pn_next P)) as Hw. unfold pn_fresh, prepared. 
  destruct (pd_steps _ _ _ _ _ (po_placed _ HP)) as [E|(E & _)]; rewrite E in *; unfold data_writes, writes_done; cbn [Nat.eqb].
  - cbn [Nat.leb app andb Nat.add] in *. rewrite Nat.sub_0_r, Metadata_command_spec by done.
    by destruct (meta_writes (pn_next P) (1 - pn_bank P) !! pb_step p) as [[n b]|].
  - destruct (Nat.leb_spec 3 (pb_step p)) as [H3|H3].
    + rewrite Metadata_command_spec by lia. replace (Nat.min (pb_step p) 2 + (pb_step p - 3))%nat with (2 + (pb_step p - 3))%nat by lia.
      rewrite lookup_app_r by (cbn; lia). cbn [length]. replace (2 + (pb_step p - 3) - 2)%nat with (pb_step p - 3)%nat by lia.
      cbn [andb]. destruct (Nat.eqb_spec (pb_step p) 2) as [|_]; [lia|].
      destruct (meta_writes (pn_next P) (1 - pn_bank P) !! (pb_step p - 3)%nat) as [[n b]|]; [done|].
      destruct (Nat.eqb_spec (pb_step p - 3) (write_steps (pn_next P) - 2)), (Nat.eqb_spec (pb_step p) (3 + write_steps (pn_next P) - 2)); try done; lia.
    + pose proof (length_meta_writes (pn_next P) (1 - pn_bank P)) as Lm.
      assert (pb_step p = 0 \/ pb_step p = 1 \/ pb_step p = 2)%nat as [-> | [-> | ->]] by lia; cbn [Nat.leb Nat.min Nat.add Nat.sub Nat.eqb andb app lookup list_lookup].
      * cbn. by rewrite Z.add_0_r.
      * done.
      * destruct (meta_writes (pn_next P) (1 - pn_bank P)) as [|[n b] l]; [cbn in Lm; lia|]. done.
Qed.

Lemma header_is_sector : is_sector (pn_header P).
Proof. by destruct (publication_header_fields _ (po_next _ HP)) as [H _]. Qed.

Lemma step_command_ok step : command_ok (step_command step).
Proof.
  unfold step_command. destruct (pn_fresh P !! _) as [[n b]|] eqn:E.
  - destruct (_ && _); [done|]. apply list_elem_of_lookup_2 in E. destruct HP. by eapply prepared_sector.
  - destruct (_ =? _)%nat; [apply header_is_sector|done].
Qed.

(** *** One settled or outstanding command *)
Lemma preparation_command step : (step < pn_total P - 3)%nat ->
  (step_command step = CFlush /\ writes_done (pn_ds P) (S step) = writes_done (pn_ds P) step) \/
  (exists n b, step_command step = CWrite n b /\ pn_fresh P !! writes_done (pn_ds P) step = Some (n, b) /\
     writes_done (pn_ds P) (S step) = S (writes_done (pn_ds P) step)).
Proof.
  intros Hs. unfold step_command. pose proof length_fresh as L. unfold writes_done in *. pose proof (write_steps_range (pn_next P)) as Hw. unfold pn_total in *.
  destruct (pd_steps _ _ _ _ _ (po_placed _ HP)) as [E|(E & _)]; rewrite E in *; cbn [Nat.eqb andb] in *.
  - destruct (lookup_lt_is_Some_2 (pn_fresh P) step) as [[n b] Hl]; [lia|]. rewrite Hl. right. exists n, b. done.
  - destruct (Nat.eqb_spec step 2) as [->|Hne].
    + left. split; [|done]. destruct (lookup_lt_is_Some_2 (pn_fresh P) (Nat.min 2 2 + (2 - 3))) as [[n b] Hl]; [lia|]. by rewrite Hl.
    + destruct (lookup_lt_is_Some_2 (pn_fresh P) (Nat.min step 2 + (step - 3))) as [[n b] Hl]; [lia|]. rewrite Hl. right. exists n, b.
      split; [done|]. split; [done|]. lia.
Qed.

Lemma fresh_prefix i n b : pn_fresh P !! i = Some (n, b) -> forall x, (n, x) ∉ take i (pn_fresh P).
Proof.
  intros Hi x Hx. apply list_elem_of_lookup in Hx as [j Hj]. apply lookup_take_Some in Hj as [Hj Hlt].
  assert (Hn : NoDup (fst <$> pn_fresh P)) by (destruct HP; by apply (prepared_nodup (pn_m P))).
  assert (i = j); [|lia]. eapply NoDup_lookup; [exact Hn| |]; rewrite list_lookup_fmap; [by rewrite Hi|by rewrite Hj].
Qed.

Lemma preparation_settled d d' step : (step < pn_total P - 3)%nat -> in_preparation d step -> settled (step_command step) d d' ->
  in_preparation d' (S step).
Proof.
  intros Hs H S. unfold in_preparation in *. destruct (preparation_command step Hs) as [[E Ew]|(n & b & E & Hl & Ew)]; rewrite E in S; rewrite Ew.
  - by apply (preparing_flush _ _ _ d d').
  - erewrite take_S_r by done. eapply preparing_write; [|done| | |done].
    + apply (fresh_apart _ HP).
    + by eapply list_elem_of_lookup_2.
    + by apply fresh_prefix with (b := b).
Qed.

Lemma preparation_unsettled d d' step : (step < pn_total P - 2)%nat -> in_preparation d step -> unsettled (step_command step) d d' ->
  in_preparation d' step.
Proof.
  intros Hs H U. unfold in_preparation in *. eapply preparing_unsettled; [apply (fresh_apart _ HP)|done| |done]. intros n b E.
  destruct (decide (step < pn_total P - 3)%nat) as [Hlt|Hge].
  - destruct (preparation_command step Hlt) as [[E' _]|(n' & b' & E' & Hl & _)]; rewrite E' in E; [done|]. injection E as -> ->.
    split; [by eapply list_elem_of_lookup_2|by apply fresh_prefix with (b := b)].
  - exfalso. unfold step_command in E. replace step with (pn_total P - 3)%nat in E by lia.
    rewrite <- length_fresh, lookup_ge_None_2 in E by lia. destruct (Nat.eqb_spec (pn_total P - 3) (pn_total P - 2)); [|done].
    pose proof (write_steps_range (pn_next P)). unfold pn_total in *. lia.
Qed.

Lemma seal_command : step_command (pn_total P - 3) = CFlush.
Proof.
  unfold step_command. rewrite <- length_fresh, lookup_ge_None_2 by lia.
  destruct (Nat.eqb_spec (pn_total P - 3) (pn_total P - 2)); [|done]. pose proof (write_steps_range (pn_next P)). unfold pn_total in *. lia.
Qed.

Lemma writes_done_mono ds i j : (i <= j)%nat -> (writes_done ds i <= writes_done ds j)%nat.
Proof. unfold writes_done. destruct (ds =? 3)%nat; lia. Qed.

Lemma late_command step : (pn_total P - 3 <= step)%nat ->
  step_command step = if (step =? pn_total P - 2)%nat then CWrite (header_sector (1 - pn_bank P)) (pn_header P) else CFlush.
Proof.
  intros Hs. unfold step_command. rewrite lookup_ge_None_2; [done|]. rewrite length_fresh. by apply writes_done_mono.
Qed.

Lemma seal_settled d d' : in_preparation d (pn_total P - 3) -> settled CFlush d d' -> is_sealed d'.
Proof.
  intros H S. unfold in_preparation in H. rewrite <- length_fresh, firstn_all in H. destruct (preparing_flush _ _ _ _ _ _ H S) as [H1 H2]. by split.
Qed.
End Progress.

(** ** Driving, cancelling, dropping *)
Section Steps.
Context {D T : Type} {HV : DiskView D} {HW : ViewLaws D} (P : pub_plan) (HP : plan_ok P).
Implicit Types (d : D) (p : Publication D T).

Lemma in_progress_bank p : in_progress P p -> vl_bank (pb_volume p) = pn_bank P.
Proof. by intros [-> _]. Qed.

Lemma total_range : (7 <= pn_total P <= 17)%nat.
Proof.
  unfold pn_total. pose proof (write_steps_range (pn_next P)). destruct (pd_steps _ _ _ _ _ (po_placed _ HP)) as [->|(-> & _)]; lia.
Qed.

(** The effect of the command of a live step. *)
Lemma live_command p : pub_state P p -> in_progress P p -> (pb_step p < pn_total P)%nat ->
  Publication_command p (pn_next P) = Ok (step_command P (pb_step p)) /\ command_ok (step_command P (pb_step p)).
Proof.
  intros H Hi Hs. destruct (ps_data _ _ H) as (E1 & E2 & E3). split; [|by apply step_command_ok].
  apply Publication_command_spec; try done. by apply in_progress_bank.
Qed.

Lemma settle_total p next : pb_data_steps p = pn_ds P -> next = pn_next P -> (pb_data_steps p + write_steps next)%nat = pn_total P.
Proof. intros -> ->. done. Qed.

(** A live publication: not yet committed, cancelled or uncertain. *)
Definition is_live (ph : PublicationPhase) : Prop := ph = Preparing \/ ph = ReadyToPublish \/ ph = Settling.

Lemma live_state p : pub_state P p -> is_live (pb_phase p) -> in_progress P p /\ (pb_step p < pn_total P)%nat.
Proof.
  intros H Hl. pose proof (ps_phase _ _ H) as Hp. pose proof total_range. destruct Hl as [E|[E|E]]; rewrite E in Hp.
  - destruct Hp as (? & ? & _). split; [done|lia].
  - destruct Hp as (? & ? & _). split; [done|lia].
  - destruct Hp as (? & _ & [[? _]|[? _]]); split; (done || lia).
Qed.

(** Outstanding or failed: the generation is decided only by the header. *)
Lemma unsettled_state p d : pub_state P p -> is_live (pb_phase p) -> unsettled (step_command P (pb_step p)) (pb_disk p) d ->
  pub_state P (with_control p d (if (pn_total P - 2 <=? pb_step p)%nat then Settling else pb_phase p) true) /\
  pub_state P (with_control p d Uncertain true).
Proof.
  intros H Hl U. pose proof (ps_phase _ _ H) as Hp. pose proof total_range as Ht. pose proof (live_state p H Hl) as [[Hv Hn] Hs].
  pose proof (ps_data _ _ H) as Hd.
  assert (Hb : forall P0, is_old P P0 -> is_old P P0) by done.
  destruct Hl as [E|[E|E]]; rewrite E in Hp.
  - destruct Hp as (_ & Hlt & Hi & Hst). destruct (Nat.leb_spec (pn_total P - 2) (pb_step p)); [lia|].
    pose proof (preparation_unsettled P HP _ _ _ Hlt Hi U) as Hi'.
    split; (split; [done|]); cbn; [rewrite E|].
    + split; [done|]. split; [done|]. split; [done|]. done.
    + split; [done|]. split; [done|]. left. by eapply preparing_nothing.
  - destruct Hp as (_ & Es & Hse & _ & Hst). destruct (Nat.leb_spec (pn_total P - 2) (pb_step p)); [|lia].
    rewrite (late_command P HP) in U by lia. rewrite Es, Nat.eqb_refl in U.
    assert (Ho : is_offered P d).
    { eapply offered_unsettled; first [staged HP|eapply sealed_offered, Hse|exact U]. }
    split; (split; [done|]); cbn.
    + split; [done|]. split; [done|]. left. done.
    + split; [done|]. split; [done|]. by right.
  - destruct Hp as (_ & Hst & [(Es & Hpe & Ho)|(Es & Hpu)]); (destruct (Nat.leb_spec (pn_total P - 2) (pb_step p)); [|lia]);
      rewrite (late_command P HP) in U by lia; rewrite Es in U.
    + rewrite Nat.eqb_refl in U.
      assert (Ho' : is_offered P d) by (eapply offered_unsettled; first [staged HP|exact Ho|exact U]).
      split; (split; [done|]); cbn; (split; [done|]); (split; [done|]); [left|right]; done.
    + destruct (Nat.eqb_spec (pn_total P - 1) (pn_total P - 2)); [lia|].
      assert (Hp' : is_published P d) by (eapply published_unsettled; [exact Hpu|exact U]).
      split; (split; [done|]); cbn; (split; [done|]); (split; [done|]).
      * right. done.
      * right. apply Hp'.
Qed.

Lemma settled_state p d : pub_state P p -> is_live (pb_phase p) -> settled (step_command P (pb_step p)) (pb_disk p) d ->
  pub_state P (Publication_settle p d (pn_next P) (pn_total P)).
Proof.
  intros H Hl St. pose proof (ps_phase _ _ H) as Hp. pose proof total_range as Ht. pose proof (live_state p H Hl) as [[Hv Hn] Hs].
  pose proof (ps_data _ _ H) as Hd. unfold Publication_settle. rewrite Hv. cbn [vl_bank].
  destruct Hl as [E|[E|E]]; rewrite E in Hp.
  - destruct Hp as (_ & Hlt & Hi & Hst). destruct (Nat.eqb_spec (S (pb_step p)) (pn_total P)); [lia|].
    destruct (Nat.eqb_spec (S (pb_step p)) (pn_total P - 1)); [lia|].
    destruct (Nat.eqb_spec (S (pb_step p)) (pn_total P - 2)) as [E2|].
    + replace (pb_step p) with (pn_total P - 3)%nat in St, Hi by lia. rewrite (seal_command P HP) in St.
      pose proof (seal_settled P HP _ _ Hi St) as Hse. destruct (pb_stopping p) eqn:Est; (split; [done|]); cbn.
      * split; [done|]. split; [done|]. eapply preparing_nothing, Hse.
      * repeat (split; [done|]). done.
    + pose proof (preparation_settled P HP _ _ (pb_step p) ltac:(lia) Hi St) as Hi'.
      destruct (pb_stopping p) eqn:Est; (split; [done|]); cbn.
      * split; [done|]. split; [done|]. by eapply preparing_nothing.
      * split; [done|]. split; [lia|]. done.
  - destruct Hp as (_ & Es & Hse & _ & Hst). rewrite Hst. rewrite (late_command P HP) in St by lia. rewrite Es, Nat.eqb_refl in St.
    destruct (Nat.eqb_spec (S (pb_step p)) (pn_total P)); [lia|].
    destruct (Nat.eqb_spec (S (pb_step p)) (pn_total P - 1)) as [E2|]; [|lia].
    split; [done|]. cbn. split; [done|]. split; [done|]. right. split; [done|].
    eapply offered_settled; first [staged HP|eapply sealed_offered, Hse|exact St].
  - destruct Hp as (_ & Hst & [(Es & Hpe & Ho)|(Es & Hpu)]); rewrite Hst; rewrite (late_command P HP) in St by lia; rewrite Es in St.
    + rewrite Nat.eqb_refl in St. destruct (Nat.eqb_spec (S (pb_step p)) (pn_total P)); [lia|].
      destruct (Nat.eqb_spec (S (pb_step p)) (pn_total P - 1)) as [E2|]; [|lia].
      split; [done|]. cbn. split; [done|]. split; [done|]. right. split; [done|].
      eapply offered_settled; first [staged HP|exact Ho|exact St].
    + destruct (Nat.eqb_spec (pn_total P - 1) (pn_total P - 2)); [lia|].
      destruct (Nat.eqb_spec (S (pb_step p)) (pn_total P)) as [E2|]; [|lia].
      split; [done|]. cbn. split; [done|]. eapply published_settled; [exact Hpu|exact St].
Qed.

Lemma settle_step p d next total :
  pb_step (Publication_settle p d next total) = S (pb_step p) /\ pb_pending (Publication_settle p d next total) = false.
Proof. unfold Publication_settle. by repeat case_match; simplify_eq. Qed.

Lemma drive_state p p' r execute : executes execute -> pub_state P p -> Publication_drive p execute = (r, p') ->
  pub_state P p' /\
  match r with
  | Ready (Ok ph) => ph = pb_phase p' /\ (is_live (pb_phase p) -> pb_step p' = S (pb_step p) /\ pb_pending p' = false)
  | Ready (Err e) => e = EUncertain /\ pb_phase p' = Uncertain
  | Ready Panic => False
  | Pending => pb_pending p' = true /\ pb_step p' = pb_step p
  end.
Proof.
  intros He H Hd. unfold Publication_drive in Hd.
  assert (Hnl : pb_phase p = Committed \/ pb_phase p = Cancelled \/ pb_phase p = Uncertain \/ is_live (pb_phase p))
    by (unfold is_live; destruct (pb_phase p); tauto).
  destruct Hnl as [E|[E|[E|Hl]]].
  1-3: rewrite E in Hd; injection Hd as <- <-; split; [done|]; try done; rewrite E; (split; [done|]); by intros [?|[?|?]].
  destruct (live_state p H Hl) as [Hi Hs]. destruct (live_command p H Hi Hs) as [Hc Hok].
  destruct Hi as [Hv Hn]. destruct (ps_data _ _ H) as (_ & _ & E3).
  pose proof (unsettled_state p) as Hun. pose proof (settled_state p) as Hse.
  assert (Hd' : match execute (step_command P (pb_step p)) (pb_disk p) with
    | (Pending, d) => (Pending, with_control p d (if (pn_total P - 2 <=? pb_step p)%nat then Settling else pb_phase p) true)
    | (Ready (Err _), d) => (Ready (Err EUncertain), with_control p d Uncertain true)
    | (Ready Panic, d) => (Ready Panic, with_control p d Uncertain true)
    | (Ready (Ok _), d) => let p := Publication_settle p d (pn_next P) (pn_total P) in (Ready (Ok (pb_phase p)), p)
    end = (r, p')).
  { rewrite <- Hd. rewrite Hn, Hc, E3. unfold pn_total. destruct Hl as [E|[E|E]]; rewrite E; done. }
  clear Hd. destruct (execute _ _) as [o d] eqn:Ee. specialize (He _ _ _ _ Hok Ee).
  destruct o as [|[[]|e|]]; [| | |done]; injection Hd' as <- <-.
  - split; [by apply Hun|done].
  - split; [by apply Hse|]. split; [done|]. intros _. apply settle_step.
  - split; [by apply Hun|done].
Qed.

Lemma cancel_state p p' r : pub_state P p -> Publication_cancel p = (r, p') ->
  pub_state P p' /\
  match r with
  | Ok CancelledNow => pb_phase p' = Cancelled
  | Ok TooLate => p' = p /\ (pb_phase p = Settling \/ pb_phase p = Committed)
  | Ok Draining => pb_phase p' = Preparing /\ pb_stopping p' = true
  | Err e => e = EUncertain /\ pb_phase p = Uncertain
  | Panic => False
  end.
Proof.
  intros H. pose proof (ps_phase _ _ H) as Hp. pose proof (ps_data _ _ H) as Hd. unfold Publication_cancel.
  destruct (pb_phase p) eqn:E.
  - destruct Hp as ([Hv Hn] & Hlt & Hi & Hst). destruct (pb_pending p) eqn:Epe; intros [= <- <-]; (split; [split; [done|]|done]); cbn.
    + done.
    + rewrite Hv. split; [done|]. split; [done|]. by eapply preparing_nothing.
  - destruct Hp as ([Hv Hn] & Es & Hse & Hpe & Hst). rewrite Hpe. intros [= <- <-]. split; [split; [done|]|done]. cbn. rewrite Hv.
    split; [done|]. split; [done|]. eapply preparing_nothing, Hse.
  - intros [= <- <-]. split; [done|]. by auto.
  - intros [= <- <-]. split; [done|]. by auto.
  - destruct Hp as (Hv & Hpe & Hpr). rewrite Hpe. intros [= <- <-]. split; [split; [done|]|done]. cbn. by rewrite Hv.
  - intros [= <- <-]. done.
Qed.

(** *** What survives a stop in each phase *)
Lemma phase_survives p s : pub_state P p -> survives (pb_disk p) s ->
  match pb_phase p with
  | Preparing | ReadyToPublish | Cancelled => is_old P s
  | Committed => is_new P s
  | Settling | Uncertain => is_old P s \/ is_new P s
  end.
Proof.
  intros H Hs. pose proof (ps_phase _ _ H) as Hp.
  assert (Ho : forall d w, preparing (pn_m P) (pn_bank P) (pn_base P) d w -> survives d s -> is_old P s)
    by (intros d w Hd Hsd; eapply preparing_survives; first [staged HP|exact Hd|exact Hsd]).
  assert (Hof : is_offered P (pb_disk p) -> is_old P s \/ is_new P s).
  { intros Hof. eapply offered_survives; first [staged HP|exact Hof|exact Hs]. }
  destruct (pb_phase p).
  - destruct Hp as (_ & _ & Hi & _). by eapply Ho.
  - destruct Hp as (_ & _ & [Hse _] & _). by eapply Ho.
  - destruct Hp as (_ & _ & [(_ & _ & H1)|(_ & [H1 _])]); by apply Hof.
  - destruct Hp as (_ & Hf). eapply finished_survives; first [staged HP|exact Hf|exact Hs].
  - destruct Hp as (_ & _ & Hpr). by eapply Ho.
  - destruct Hp as (_ & _ & [Hpr|H1]); [left; by eapply Ho|by apply Hof].
Qed.

(** A dropped publication leaves the volume at rest, or fenced. *)
Lemma drop_rests p v d : pub_state P p -> Publication_drop p = (v, d) ->
  (vl_poisoned v = false -> rests_on d (vl_metadata v) (vl_bank v)) /\ d = pb_disk p /\
  match pb_phase p with
  | Committed => v = mkVolume (pn_next P) (1 - pn_bank P) false
  | Settling | Uncertain => v = mkVolume (pn_m P) (pn_bank P) true
  | Cancelled => v = mkVolume (pn_m P) (pn_bank P) false
  | Preparing | ReadyToPublish => v = mkVolume (pn_m P) (pn_bank P) (pb_pending p)
  end.
Proof.
  intros H. pose proof (ps_phase _ _ H) as Hp. unfold Publication_drop. intros [= <- <-].
  assert (Ho : forall w, preparing (pn_m P) (pn_bank P) (pn_base P) (pb_disk p) w -> rests_on (pb_disk p) (pn_m P) (pn_bank P))
    by (intros w Hd; eapply preparing_rests; first [staged HP|exact Hd]).
  destruct (pb_phase p) eqn:E; cbn.
  - destruct Hp as ([Hv _] & _ & Hi & _). rewrite Hv. destruct (pb_pending p); cbn; (split; [|done]); [done|]. intros _. by eapply Ho.
  - destruct Hp as ([Hv _] & _ & [Hse _] & Hpe & _). rewrite Hv, Hpe. cbn. split; [|done]. intros _. by eapply Ho.
  - destruct Hp as ([Hv _] & _). rewrite andb_false_r, Hv. done.
  - destruct Hp as (Hv & Hf). rewrite andb_false_r, Hv. split; [|done]. intros _. cbn.
    eapply (finished_rests (pn_m P) (pn_next P)); first [staged HP|exact Hf].
  - destruct Hp as (Hv & _ & Hpr). rewrite andb_false_r, Hv. split; [|done]. intros _. by eapply Ho.
  - destruct Hp as (Hv & _). rewrite andb_false_r, Hv. done.
Qed.
End Steps.

(** ** Running to settlement *)
Section Running.
Context {D T : Type} {HD : Disk D} {HV : DiskView D} {HW : ViewLaws D} {HL : DiskLaws D} (P : pub_plan) (HP : plan_ok P).
Implicit Types (d : D) (p : Publication D T).

Lemma synchronous_executes : executes (Synchronous_poll (D := D)).
Proof.
  intros c d r d' Hok E. pose proof (Synchronous_law c d d' r Hok E) as H. destruct r as [|[|e|]]; done.
Qed.

Lemma drive_settles p q x : pub_state P p -> is_live (pb_phase p) -> Publication_drive p Synchronous_poll = (x, q) ->
  exists y, x = Ready y /\ (forall ph, y = Ok ph -> exists d, q = Publication_settle p d (pn_next P) (pn_total P)).
Proof.
  intros H Hl E. destruct (live_state P HP p H Hl) as [Hi Hst]. destruct (live_command P HP p H Hi Hst) as [Hc _]. destruct Hi as [_ Hn].
  destruct (ps_data _ _ H) as (_ & _ & E3). unfold Publication_drive in E. rewrite Hn, Hc, E3 in E. unfold Synchronous_poll in E.
  destruct (Command_execute _ _) as [[[]|e|] d]; destruct Hl as [E'|[E'|E']]; rewrite E' in E; injection E as <- <-; eexists; (split; [done|]);
    intros ph; try done; intros _; by exists d.
Qed.

Lemma settle_kept p d next total : pb_stopping p = false -> let q := Publication_settle p d next total in
  pb_result q = pb_result p /\ pb_stopping q = false /\ (is_live (pb_phase q) \/ pb_phase q = Committed).
Proof. intros Hs. unfold Publication_settle, is_live. rewrite Hs. repeat case_match; simplify_eq; cbn; auto 8. Qed.

(** [run] settles within the remaining steps: it commits, or leaves the volume fenced. *)
Lemma run_loop_settles fuel p : pub_state P p -> pb_pending p = false -> pb_stopping p = false ->
  (is_live (pb_phase p) \/ pb_phase p = Committed) -> (pn_total P - pb_step p < fuel)%nat ->
  exists r p', run_loop fuel p = Some (r, p') /\ pub_state P p' /\
    match r with
    | Ok t => t = pb_result p /\ pb_phase p' = Committed
    | Err e => e = EUncertain /\ pb_phase p' = Uncertain
    | Panic => False
    end.
Proof.
  revert p. induction fuel as [|fuel IH]; intros p H Hp Hs Hl Hf; [lia|]. cbn [run_loop].
  destruct Hl as [Hl|Hl]; [|rewrite Hl; exists (Ok (pb_result p)), p; done].
  destruct (live_state P HP p H Hl) as [_ Hst]. unfold Publication_advance. rewrite Hp.
  destruct (Publication_drive p Synchronous_poll) as [x q] eqn:Hd. destruct (drive_settles p q x H Hl Hd) as (y & -> & Hy).
  destruct (drive_state P HP p q _ _ synchronous_executes H Hd) as [Hq Hr].
  destruct y as [ph|e|]; [|destruct Hr as [-> Hu]|done].
  - destruct Hr as [-> Hr]. destruct (Hr Hl) as [Es Epe]. destruct (Hy _ eq_refl) as [d Eq].
    destruct (settle_kept p d (pn_next P) (pn_total P) Hs) as (Er & Est & Hl'). rewrite <- Eq in Er, Est, Hl'.
    destruct (IH q Hq Epe Est Hl' ltac:(lia)) as (r & p' & Hrun & Hp' & Hr'). rewrite Er in Hr'.
    destruct Hl as [E'|[E'|E']]; rewrite E'; by exists r, p'.
  - exists (Err EUncertain), q. destruct Hl as [E'|[E'|E']]; rewrite E'; done.
Qed.

(** The commands of a metadata-only publication, issued by [Metadata::write]. *)
Lemma write_loop_settles todo p r d' : pub_state P p -> pn_ds P = 0%nat -> is_live (pb_phase p) -> pb_stopping p = false ->
  todo = (pn_total P - pb_step p)%nat -> write_loop (pn_next P) (pb_disk p) (1 - pn_bank P) (pb_step p) todo = (r, d') ->
  match r with
  | Ok _ => is_finished P d'
  | Err _ => preparing (pn_m P) (pn_bank P) (pn_base P) d' [] \/ is_offered P d'
  | Panic => False
  end.
Proof.
  revert p. induction todo as [|todo IH]; intros p H Hds Hl Hs Ht E; destruct (live_state P HP p H Hl) as [Hi Hst]; [lia|].
  cbn [write_loop] in E. unfold write_step in E. destruct (live_command P HP p H Hi Hst) as [Hc Hok].
  assert (Hm : Metadata_command (pn_next P) (1 - pn_bank P) (pb_step p) = Ok (step_command P (pb_step p))).
  { destruct (ps_data _ _ H) as (_ & _ & E3). unfold Publication_command in Hc. rewrite (in_progress_bank P p Hi), E3, Hds in Hc.
    cbn [Nat.leb] in Hc. rewrite Nat.sub_0_r in Hc. destruct (Metadata_command _ _ _); congruence. }
  rewrite Hm in E. destruct (Command_execute _ _) as [x d] eqn:Ex. pose proof (command_law _ _ _ _ Hok Ex) as Hlaw.
  destruct x as [[]|e|]; [|injection E as <- <-|done].
  - pose proof (settled_state P HP p d H Hl Hlaw) as Hq. set (q := Publication_settle p d (pn_next P) (pn_total P)) in *.
    destruct (settle_kept p d (pn_next P) (pn_total P) Hs) as (_ & Est & Hl'). fold q in Est, Hl'.
    destruct (settle_step p d (pn_next P) (pn_total P)) as [Es _]. fold q in Es.
    assert (Edd : pb_disk q = d) by (unfold q, Publication_settle; by repeat case_match; simplify_eq).
    destruct Hl' as [Hl'|Hl'].
    + apply (IH q); [done|done|done|done|lia|]. by rewrite Edd, Es.
    + pose proof (ps_phase _ _ Hq) as Hph. rewrite Hl', Edd in Hph. destruct Hph as [_ Hfin].
      assert (todo = 0%nat) as ->; [|by injection E as <- <-].
      unfold q, Publication_settle in Hl'. rewrite Hs in Hl'. destruct (Nat.eqb_spec (S (pb_step p)) (pn_total P)); [lia|].
      by repeat case_match; simplify_eq.
  - destruct (unsettled_state P HP p d H Hl Hlaw) as [_ Hu]. by destruct (ps_phase _ _ Hu) as (_ & _ & Hx).
Qed.
End Running.
