(* ===== verification/FsTree.v ===== *)
(** * The namespace tree

    What [Metadata::validate] accepts, as a proposition; the ancestor walk as a
    finite chain; and that the metadata the volume's operations publish is
    accepted again. *)
From stdpp Require Import base list option numbers.
From Stdlib Require Import ZArith Lia Bool.
From S2P Require Import Prelude Bytes Codec FsDisk FsNode FsRecovery FsFormat FsVolume.

(** ** Validation as a proposition *)
Definition has (m : Metadata) (n : Node) : Prop := exists i, m_nodes m !! i = Some n /\ live n = true.

Record tree_ok (m : Metadata) : Prop := {
  t_counters : m_sequence m <> 0 /\ 5 <= m_next m;
  t_bounds : forall n, has m n -> n_id n < m_next m /\ n_version n <= m_sequence m;
  t_place : forall n, has m n -> validate_place m n = Ok tt;
  t_unique : forall i j x y, (i < j)%nat -> m_nodes m !! i = Some x -> m_nodes m !! j = Some y -> live x = true -> live y = true ->
    same_entry y x = false;
  t_roots : forall id, 1 <= id <= 4 -> exists n, node_of m id = Ok n /\ n_parent n = 0;
}.

Lemma validate_nodes_spec m pre l : m_nodes m = pre ++ l ->
  validate_nodes m (length pre) l = Ok tt <->
  (forall n, n ∈ l -> live n = true -> n_id n < m_next m /\ n_version n <= m_sequence m /\ validate_place m n = Ok tt) /\
  (forall i j x y, (i < j)%nat -> (length pre <= j)%nat -> m_nodes m !! i = Some x -> m_nodes m !! j = Some y ->
     live x = true -> live y = true -> same_entry y x = false).
Proof.
  revert pre. induction l as [|n l IH]; intros pre E; cbn [validate_nodes].
  { split; [|done]. intros _. split; [intros n Hn; by apply elem_of_nil in Hn|]. intros i j x y _ Hj _ Hy.
    apply lookup_lt_Some in Hy. rewrite E, app_nil_r in Hy. lia. }
  assert (E' : m_nodes m = (pre ++ [n]) ++ l) by (by rewrite <- app_assoc).
  specialize (IH _ E'). rewrite length_app in IH. cbn [length] in IH. rewrite Nat.add_1_r in IH.
  assert (Hn : m_nodes m !! length pre = Some n) by (rewrite E, lookup_app_r by done; by rewrite Nat.sub_diag).
  unfold live at 1. destruct (kind_is (n_kind n) KEmpty) eqn:Ek.
  - rewrite IH. split; intros [H1 H2]; (split; [intros x Hx Hl|intros i j x y Hij Hj Hx Hy Lx Ly]).
    + apply elem_of_cons in Hx as [->|Hx]; [unfold live in Hl; by rewrite Ek in Hl|by apply H1].
    + destruct (decide (j = length pre)) as [->|]; [|apply (H2 i j); auto with lia].
      rewrite Hn in Hy. injection Hy as <-. unfold live in Ly. by rewrite Ek in Ly.
    + apply H1; [|done]. apply elem_of_cons. by right.
    + apply (H2 i j); auto with lia.
  - assert (Ln : live n = true) by (unfold live; by rewrite Ek).
    assert (Hex : existsb (same_entry n) (take (length pre) (m_nodes m)) = false <->
      forall i x, (i < length pre)%nat -> m_nodes m !! i = Some x -> live x = true -> same_entry n x = false).
    { split.
      - intros Hex i x Hi Hx _. destruct (same_entry n x) eqn:Es; [|done]. assert (Ht : existsb (same_entry n) (take (length pre) (m_nodes m)) = true); [|congruence].
        apply existsb_exists. exists x. split; [|done]. apply list_elem_of_In, list_elem_of_lookup_2 with i. by rewrite lookup_take_lt.
      - intros H. apply not_true_is_false. intros (x & Hx & Hs)%existsb_exists. apply list_elem_of_In, list_elem_of_lookup in Hx as [i Hx].
        apply lookup_take_Some in Hx as [Hx Hi]. rewrite (H i x) in Hs; [done|done|done|]. unfold same_entry in Hs. by apply andb_true_iff in Hs as [? _]. }
    destruct ((m_next m <=? n_id n) || (m_sequence m <? n_version n)) eqn:Eb.
    { split; [done|]. intros [H1 _]. destruct (H1 n (list_elem_of_here _ _) Ln) as (? & ? & _). lia. }
    bools. destruct (validate_place m n) as [[]| |] eqn:Ep.
    2,3: split; [done|]; intros [H1 _]; destruct (H1 n (list_elem_of_here _ _) Ln) as (_ & _ & ?); congruence.
    destruct (existsb _ _) eqn:Ex.
    + split; [done|]. intros [_ H2]. assert (Hf : true = false); [|done]. apply Hex. intros i x Hi Hx Lx. by apply (H2 i (length pre) x n).
    + rewrite IH. split; intros [H1 H2]; (split; [intros x Hx Hl|intros i j x y Hij Hj Hx Hy Lx Ly]).
      * apply elem_of_cons in Hx as [->|Hx]; [done|by apply H1].
      * destruct (decide (j = length pre)) as [->|]; [|apply (H2 i j); auto with lia].
        rewrite Hn in Hy. injection Hy as <-. by apply (proj1 Hex eq_refl i).
      * apply H1; [|done]. apply elem_of_cons. by right.
      * apply (H2 i j); auto with lia.
Qed.

Lemma corrupt_ok {A} (r : outcome FsError A) a : corrupt r = Ok a <-> r = Ok a.
Proof. unfold corrupt, map_err. destruct r; split; congruence. Qed.

Lemma validate_roots_spec m ids : validate_roots m ids = Ok tt <-> forall id, id ∈ ids -> exists n, node_of m id = Ok n /\ n_parent n = 0.
Proof.
  induction ids as [|id ids IH]; cbn [validate_roots]; [split; [|done]; intros _ id H; by apply elem_of_nil in H|].
  destruct (corrupt (node_of m id)) as [n| |] eqn:E.
  - apply (proj1 (corrupt_ok _ _)) in E. destruct (Z.eqb_spec (n_parent n) 0); cbn [negb].
    + rewrite IH. split.
      * intros H k [->|Hk]%elem_of_cons; [by exists n|by apply H].
      * intros H k Hk. apply H, elem_of_cons. by right.
    + split; [done|]. intros H. destruct (H id (list_elem_of_here _ _)) as (x & Hx & ?). congruence.
  - split; [done|]. intros H. destruct (H id (list_elem_of_here _ _)) as (x & Hx & ?). by rewrite Hx in E.
  - split; [done|]. intros H. destruct (H id (list_elem_of_here _ _)) as (x & Hx & ?). by rewrite Hx in E.
Qed.

Lemma validate_spec m : 0 <= m_sequence m -> Metadata_validate m = Ok tt <-> tree_ok m.
Proof.
  intros Hs. unfold Metadata_validate. destruct ((m_sequence m =? 0) || (m_next m <? 5)) eqn:E.
  { split; [done|]. intros [[? ?] _ _ _ _]. lia. }
  bools. pose proof (validate_nodes_spec m [] (m_nodes m) eq_refl) as Hv. cbn [length] in Hv.
  assert (Hr : forall id, 1 <= id <= 4 <-> id ∈ [1; 2; 3; 4]).
  { intros id. rewrite !elem_of_cons, elem_of_nil. lia. }
  destruct (validate_nodes m 0 (m_nodes m)) as [[]| |] eqn:En.
  - rewrite validate_roots_spec. destruct (proj1 Hv eq_refl) as [H1 H2]. split.
    + intros H3. split; [done| | | |].
      * intros n (i & Hi & Hl). destruct (H1 n) as (? & ? & _); [by eapply list_elem_of_lookup_2|done|done].
      * intros n (i & Hi & Hl). apply H1; [by eapply list_elem_of_lookup_2|done].
      * intros i j x y Hij. apply (H2 i j x y Hij). lia.
      * intros id Hid. by apply H3, Hr.
    + intros [_ _ _ _ H3] id Hid. by apply H3, Hr.
  - split; [done|]. intros [_ H1 H2 H3 _]. assert (F : @Err FsError unit e = Ok tt); [|done]. apply Hv. split.
    + intros n Hn Hl. apply list_elem_of_lookup in Hn as [i Hi]. assert (Hh : has m n) by (by exists i). destruct (H1 n Hh). auto.
    + intros i j x y Hij _. by apply H3.
  - split; [done|]. intros [_ H1 H2 H3 _]. assert (F : @Panic FsError unit = Ok tt); [|done]. apply Hv. split.
    + intros n Hn Hl. apply list_elem_of_lookup in Hn as [i Hi]. assert (Hh : has m n) by (by exists i). destruct (H1 n Hh). auto.
    + intros i j x y Hij _. by apply H3.
Qed.

(** ** Looking nodes up *)
Lemma node_of_has m id n : node_of m id = Ok n -> has m n /\ n_id n = id.
Proof.
  unfold node_of, Metadata_index, node_at. destruct (position _ _) as [i|] eqn:E; [|done]. cbn.
  apply position_Some in E as [(x & Hx & Hp) _]. rewrite Hx. intros [= <-]. bools. split; [by exists i|done].
Qed.

Definition ids_unique (m : Metadata) : Prop :=
  forall i j x y, m_nodes m !! i = Some x -> m_nodes m !! j = Some y -> live x = true -> live y = true -> n_id x = n_id y -> i = j.

Lemma tree_ids_unique m : tree_ok m -> ids_unique m.
Proof.
  intros H i j x y Hx Hy Lx Ly E. destruct (Nat.lt_trichotomy i j) as [Hij|[?|Hij]]; [exfalso|done|exfalso].
  - pose proof (t_unique _ H i j x y Hij Hx Hy Lx Ly) as Hs. unfold same_entry in Hs. rewrite Lx, E, Z.eqb_refl in Hs. done.
  - pose proof (t_unique _ H j i y x Hij Hy Hx Ly Lx) as Hs. unfold same_entry in Hs. rewrite Ly, E, Z.eqb_refl in Hs. done.
Qed.

Lemma index_spec m id i n : ids_unique m -> m_nodes m !! i = Some n -> live n = true -> n_id n = id -> Metadata_index m id = Ok i.
Proof.
  intros Hu Hi Hl Hid. unfold Metadata_index. assert (E : position (fun n => (n_id n =? id) && live n) (m_nodes m) = Some i); [|by rewrite E].
  apply position_Some. split; [exists n; by rewrite Hid, Z.eqb_refl, Hl|]. intros j y Hj Hy.
  apply not_true_is_false. intros H. apply andb_true_iff in H as [H1 H2]. apply Z.eqb_eq in H1.
  assert (i = j); [|lia]. eapply Hu; [done|done|done|done|congruence].
Qed.

Lemma node_of_spec m id n : ids_unique m -> has m n -> n_id n = id -> node_of m id = Ok n.
Proof. intros Hu (i & Hi & Hl) E. unfold node_of. rewrite (index_spec m id i n) by done. unfold node_at. by rewrite Hi. Qed.

Lemma node_of_none m id : (forall n, has m n -> n_id n <> id) -> node_of m id = Err ENotFound.
Proof.
  intros H. unfold node_of, Metadata_index. destruct (position _ _) as [i|] eqn:E; [exfalso|done].
  apply position_Some in E as [(x & Hx & Hp) _]. bools. apply (H x); [by exists i|done].
Qed.

Lemma index_node m id i : Metadata_index m id = Ok i -> exists n, m_nodes m !! i = Some n /\ live n = true /\ n_id n = id /\ node_of m id = Ok n.
Proof.
  intros H. unfold node_of. rewrite H. unfold node_at. unfold Metadata_index in H. destruct (position _ _) as [k|] eqn:E; [|done].
  injection H as ->. apply position_Some in E as [(x & Hx & Hp) _]. bools. exists x. by rewrite Hx.
Qed.

(** ** Ancestor chains *)
Inductive chain (m : Metadata) : Z -> list Z -> Prop :=
| chain_root a n : node_of m a = Ok n -> n_parent n = 0 -> chain m a [a]
| chain_up a n l : node_of m a = Ok n -> n_parent n <> 0 -> chain m (n_parent n) l -> chain m a (a :: l).

Lemma chain_functional m a l l' : chain m a l -> chain m a l' -> l = l'.
Proof.
  intros H. revert l'. induction H as [a n Hn Hr|a n l Hn Hr Hc IH]; intros l' H'; inversion H' as [b x Hx Hy|b x k Hx Hy Hk]; subst.
  - done.
  - congruence.
  - congruence.
  - rewrite Hn in Hx. injection Hx as <-. f_equal. by apply IH.
Qed.

(** Every element of a chain starts a chain that is a suffix. *)
Lemma chain_suffix m a l b : chain m a l -> b ∈ l -> exists k, chain m b k /\ (length k <= length l)%nat.
Proof.
  intros H Hb. induction H as [a n Hn Hr|a n l Hn Hr Hc IH].
  - apply list_elem_of_singleton in Hb as ->. exists [a]. split; [by econstructor|done].
  - apply elem_of_cons in Hb as [->|Hb].
    + exists (a :: l). split; [by econstructor|done].
    + destruct (IH Hb) as (k & Hk & Hl). exists k. split; [done|]. cbn. lia.
Qed.

Lemma chain_nodup m a l : chain m a l -> NoDup l.
Proof.
  intros H. pose proof H as H0. revert H0. induction H as [a n Hn Hr|a n l Hn Hr Hc IH]; intros H0; [apply NoDup_singleton|].
  apply list.NoDup_cons. split; [|by apply IH]. intros Ha. destruct (chain_suffix m _ l a Hc Ha) as (k & Hk & Hl).
  pose proof (chain_functional _ _ _ _ H0 Hk) as E. apply (f_equal length) in E. cbn in E. lia.
Qed.

Lemma chain_has m a l b : chain m a l -> b ∈ l -> exists n, has m n /\ n_id n = b.
Proof.
  intros H Hb. destruct (chain_suffix m a l b H Hb) as (k & Hk & _). inversion Hk as [? n Hn|? n ? Hn]; subst; exists n; by apply node_of_has.
Qed.

Lemma chain_head m a l : chain m a l -> exists k, l = a :: k.
Proof. destruct 1; by eexists. Qed.

(** The walk of [validate] accepts exactly the chains without [id] of at most 31 nodes. *)
Lemma ancestor_loop_chain fuel depth m id a : (fuel + depth = OBJECTS)%nat ->
  ancestor_loop fuel depth m id a = Ok tt <->
  fuel = 0%nat \/ exists l, chain m a l /\ ~ id ∈ l /\ (depth + length l <= OBJECTS - 1)%nat.
Proof.
  revert depth a. induction fuel as [|fuel IH]; intros depth a Hf; cbn [ancestor_loop]; [split; [by left|done]|].
  destruct (Z.eqb_spec a id) as [->|Hne].
  { split; [done|]. intros [?|(l & Hc & Hi & _)]; [done|]. destruct (chain_head _ _ _ Hc) as [k ->]. exfalso. apply Hi, elem_of_cons. by left. }
  destruct (Nat.eqb_spec depth (OBJECTS - 1)) as [->|Hd]; cbn [orb].
  { split; [done|]. intros [?|(l & Hc & _ & Hl)]; [done|]. destruct (chain_head _ _ _ Hc) as [k ->]. cbn [length] in Hl. lia. }
  destruct (corrupt (node_of m a)) as [n| |] eqn:E.
  2,3: split; [done|]; intros [?|(l & Hc & _ & _)]; [done|]; inversion Hc as [? n Hn|? n ? Hn]; subst; rewrite Hn in E; done.
  apply (proj1 (corrupt_ok _ _)) in E. destruct (Z.eqb_spec (n_parent n) 0) as [Hp|Hp].
  - split; [|done]. intros _. right. exists [a]. split; [by econstructor|]. split; [|cbn; unfold OBJECTS in *; lia].
    intros H. apply list_elem_of_singleton in H. congruence.
  - rewrite IH by lia. split.
    + intros [->|(l & Hc & Hi & Hl)]; [unfold OBJECTS in *; lia|]. right. exists (a :: l). split; [by eapply chain_up|]. split; [|cbn [length]; lia].
      intros H. apply elem_of_cons in H as [H|H]; [congruence|done].
    + intros [?|(l & Hc & Hi & Hl)]; [done|]. right. inversion Hc as [? x Hx Hy|? x k Hx Hy Hk]; subst; [congruence|].
      rewrite E in Hx. injection Hx as <-. exists k. split; [done|]. split; [|cbn [length] in Hl; lia]. intros H. apply Hi, elem_of_cons. by right.
Qed.

Lemma place_child m n : n_parent n <> 0 ->
  validate_place m n = Ok tt <->
  exists p l, node_of m (n_parent n) = Ok p /\ n_kind p = KDirectory /\ n_space p = n_space n /\
    chain m (n_parent n) l /\ ~ n_id n ∈ l /\ (length l <= 31)%nat.
Proof.
  intros Hp. unfold validate_place. destruct (Z.eqb_spec (n_parent n) 0); [done|].
  destruct (corrupt (node_of m (n_parent n))) as [p| |] eqn:E.
  2,3: split; [done|]; intros (p & l & Hn & _); rewrite Hn in E; done.
  apply (proj1 (corrupt_ok _ _)) in E. unfold kind_is. destruct (bool_decide_reflect (n_kind p = KDirectory)) as [Hk|Hk]; cbn [negb orb].
  2:{ split; [done|]. intros (p' & l & Hn & Hk' & _). congruence. }
  destruct (Z.eqb_spec (n_space p) (n_space n)) as [Hs|Hs]; cbn [negb].
  2:{ split; [done|]. intros (p' & l & Hn & _ & Hs' & _). congruence. }
  rewrite ancestor_loop_chain by done. unfold OBJECTS. split.
  - intros [?|(l & Hc & Hi & Hl)]; [done|]. exists p, l. do 5 (split; [done|]). lia.
  - intros (p' & l & _ & _ & _ & Hc & Hi & Hl). right. exists l. split; [done|]. split; [done|]. lia.
Qed.

(** A chain has no more nodes than the table has live entries. *)
Lemma place_root m n : n_parent n = 0 -> validate_place m n = Ok tt <-> root_name_bad n = Ok false.
Proof. intros Hp. unfold validate_place. rewrite Hp. cbn [Z.eqb]. destruct (root_name_bad n) as [[]| |]; by split. Qed.

Lemma same_entry_false x y : live x = true ->
  same_entry y x = false <-> n_id x <> n_id y /\ (n_parent x = n_parent y -> Node_name x <> Node_name y).
Proof.
  intros Lx. unfold same_entry. rewrite Lx. cbn [andb]. rewrite orb_false_iff, andb_false_iff, !Z.eqb_neq, bool_decide_eq_false.
  destruct (Z.eq_dec (n_parent x) (n_parent y)); tauto.
Qed.

Definition live_ids (m : Metadata) : list Z := n_id <$> filter (fun n => live n = true) (m_nodes m).

Lemma chain_length m a l : chain m a l -> (length l <= length (live_ids m))%nat.
Proof.
  intros H. apply submseteq_length, NoDup_submseteq; [by eapply chain_nodup|]. intros b Hb.
  destruct (chain_has _ _ _ _ H Hb) as (n & (i & Hi & Hl) & <-). apply list_elem_of_fmap. exists n. split; [done|].
  apply list_elem_of_filter. split; [done|by eapply list_elem_of_lookup_2].
Qed.

Lemma live_ids_empty_slot m i n : m_nodes m !! i = Some n -> live n = false -> (length (live_ids m) < length (m_nodes m))%nat.
Proof.
  intros Hi Hl. unfold live_ids. rewrite length_fmap. apply length_filter_lt with n; [by eapply list_elem_of_lookup_2|congruence].
Qed.

(** ** Chains and changes of the table *)

(** [m'] finds the same parents as [m] for the nodes in [S], which is closed under parents. *)
Definition same_parents (m m' : Metadata) (S : Z -> Prop) : Prop :=
  forall a n, S a -> node_of m a = Ok n -> exists n', node_of m' a = Ok n' /\ n_parent n' = n_parent n /\ (n_parent n <> 0 -> S (n_parent n)).

Lemma chain_same m m' S a l : same_parents m m' S -> S a -> chain m a l -> chain m' a l.
Proof.
  intros HS Ha H. induction H as [a n Hn Hr|a n l Hn Hr Hc IH]; destruct (HS a n Ha Hn) as (n' & Hn' & Hp & Hs).
  - eapply chain_root; [done|congruence].
  - eapply chain_up; [done|congruence|]. rewrite Hp. by apply IH, Hs.
Qed.

(** A valid child's parent is a live directory of the same space. *)
Lemma tree_parent m n : tree_ok m -> has m n -> n_parent n <> 0 ->
  exists p, has m p /\ n_id p = n_parent n /\ n_kind p = KDirectory /\ n_space p = n_space n.
Proof.
  intros H Hn Hp. pose proof (t_place _ H n Hn) as Hv. apply place_child in Hv as (p & l & Hq & Hk & Hs & _); [|done].
  apply node_of_has in Hq as [Hq E]. exists p. done.
Qed.

(** ** The tables the operations publish *)
Definition similar (n n' : Node) : Prop :=
  n_id n' = n_id n /\ n_parent n' = n_parent n /\ n_kind n' = n_kind n /\ n_space n' = n_space n /\ Node_name n' = Node_name n.

(** [m'] keeps the nodes in [S], which is closed under parents. *)
Definition keeps (m m' : Metadata) (S : Z -> Prop) : Prop :=
  forall a n, S a -> node_of m a = Ok n -> exists n', node_of m' a = Ok n' /\ similar n n' /\ (n_parent n <> 0 -> S (n_parent n)).

Lemma keeps_parents m m' S : keeps m m' S -> same_parents m m' S.
Proof. intros H a n Ha Hn. destruct (H a n Ha Hn) as (n' & Hn' & (_ & Hp & _) & Hs). by exists n'. Qed.

Lemma place_keeps m m' S n n' : keeps m m' S -> similar n n' -> (n_parent n <> 0 -> S (n_parent n)) ->
  validate_place m n = Ok tt -> validate_place m' n' = Ok tt.
Proof.
  intros HK (E1 & E2 & E3 & E4 & E5) HS H. destruct (Z.eq_dec (n_parent n) 0) as [Hz|Hz].
  - unfold validate_place in *. rewrite E2, Hz in *. cbn [Z.eqb] in *. unfold root_name_bad in *. by rewrite E1, E3, E4, E5.
  - apply place_child in H as (p & l & Hp & Hk & Hs & Hc & Hi & Hl); [|done]. apply place_child; [by rewrite E2|].
    destruct (HK _ p (HS Hz) Hp) as (p' & Hp' & (_ & _ & Ek & Es & _) & _). exists p', l. rewrite E1, E2, E4.
    split; [done|]. split; [congruence|]. split; [congruence|]. split; [|done]. eapply chain_same; [by apply keeps_parents|by apply HS|done].
Qed.

Definition entries_unique (m : Metadata) : Prop :=
  forall i j x y, (i < j)%nat -> m_nodes m !! i = Some x -> m_nodes m !! j = Some y -> live x = true -> live y = true -> same_entry y x = false.

Lemma entries_ids_unique m : entries_unique m -> ids_unique m.
Proof.
  intros H i j x y Hx Hy Lx Ly E. destruct (Nat.lt_trichotomy i j) as [Hij|[?|Hij]]; [exfalso|done|exfalso].
  - pose proof (H i j x y Hij Hx Hy Lx Ly) as Hs. unfold same_entry in Hs. rewrite Lx, E, Z.eqb_refl in Hs. done.
  - pose proof (H j i y x Hij Hy Hx Ly Lx) as Hs. unfold same_entry in Hs. rewrite Ly, E, Z.eqb_refl in Hs. done.
Qed.

(** [validate] of the new table: the nodes kept, and what replaces the changed one. *)
Lemma tree_update m m' S slot x : tree_ok m -> m_sequence m <= m_sequence m' -> m_sequence m' <> 0 -> m_next m <= m_next m' ->
  m_nodes m' = <[slot := x]> (m_nodes m) -> (slot < length (m_nodes m))%nat -> entries_unique m' -> keeps m m' S ->
  (forall i n, i <> slot -> m_nodes m !! i = Some n -> live n = true -> n_parent n <> 0 -> S (n_parent n)) ->
  (live x = true -> n_id x < m_next m' /\ n_version x <= m_sequence m' /\ validate_place m' x = Ok tt) ->
  (forall id, 1 <= id <= 4 -> S id) -> tree_ok m'.
Proof.
  intros H Hq Hq0 Hn En Hs Hu HK HS Hx Hr. split; [|intros n (i & Hi & Hl)..|done|].
  - split; [done|]. destruct (t_counters _ H). lia.
  - rewrite En in Hi. destruct (decide (i = slot)) as [->|Hne].
    + rewrite list_lookup_insert_eq in Hi by done. injection Hi as <-. by destruct (Hx Hl) as (? & ? & _).
    + rewrite list_lookup_insert_ne in Hi by done. destruct (t_bounds _ H n) as [? ?]; [by exists i|]. lia.
  - rewrite En in Hi. destruct (decide (i = slot)) as [->|Hne].
    + rewrite list_lookup_insert_eq in Hi by done. injection Hi as <-. by destruct (Hx Hl) as (_ & _ & ?).
    + rewrite list_lookup_insert_ne in Hi by done. eapply (place_keeps m m' S n n); [done|done| |apply (t_place _ H); by exists i].
      by eapply HS.
  - intros id Hid. destruct (t_roots _ H id Hid) as (n & Hn' & Hp). destruct (HK id n (Hr id Hid) Hn') as (n' & E & (_ & Ep & _) & _).
    exists n'. split; [done|congruence].
Qed.

Lemma same_entry_similar n x x' : similar x x' -> live x = live x' -> same_entry n x' = same_entry n x /\ same_entry x' n = same_entry x n.
Proof. intros (E1 & E2 & _ & _ & E5) El. unfold same_entry. by rewrite E1, E2, E5, El. Qed.

Lemma live_similar x x' : similar x x' -> live x' = live x.
Proof. intros (_ & _ & E & _). unfold live. by rewrite E. Qed.

(** *** Replacing a file *)
Lemma tree_replace m slot x x' q next' recovery : tree_ok m -> m_nodes m !! slot = Some x -> live x = true -> similar x x' ->
  m_sequence m <= q -> 0 < q -> n_version x' <= q -> m_next m <= next' ->
  tree_ok (mkMetadata q next' (<[slot := x']> (m_nodes m)) recovery).
Proof.
  intros H Hx Lx Hs Hq Hq0 Hv Hn. set (m' := mkMetadata _ _ _ _). pose proof (lookup_lt_Some _ _ _ Hx) as Hl.
  pose proof (live_similar _ _ Hs) as Lx'. rewrite Lx in Lx'.
  assert (Hu : entries_unique m').
  { intros i j a b Hij Ha Hb La Lb. unfold m' in Ha, Hb. cbn [m_nodes] in Ha, Hb.
    destruct (decide (i = slot)) as [->|Hi]; [rewrite list_lookup_insert_eq in Ha by done|rewrite list_lookup_insert_ne in Ha by done];
      (destruct (decide (j = slot)) as [->|Hj]; [rewrite list_lookup_insert_eq in Hb by done|rewrite list_lookup_insert_ne in Hb by done]); simplify_eq.
    - lia.
    - destruct (same_entry_similar b x a Hs) as [-> _]; [congruence|]. by apply (t_unique _ H slot j).
    - destruct (same_entry_similar a x b Hs) as [_ ->]; [congruence|]. by apply (t_unique _ H i slot).
    - by apply (t_unique _ H i j). }
  assert (HK : keeps m m' (fun _ => True)).
  { intros a n _ Hn'. pose proof (node_of_has _ _ _ Hn') as [(i & Hi & Li) E]. destruct (decide (i = slot)) as [->|Hne].
    - exists x'. rewrite Hx in Hi. injection Hi as <-. split; [|done]. apply node_of_spec; [by apply entries_ids_unique| |].
      + exists slot. cbn. by rewrite list_lookup_insert_eq.
      + by rewrite (proj1 Hs).
    - exists n. split; [|done]. apply node_of_spec; [by apply entries_ids_unique| |done]. exists i. cbn. by rewrite list_lookup_insert_ne. }
  destruct (t_counters _ H) as [Hc _]. destruct (t_bounds _ H x) as [Hb Hb']; [by exists slot|].
  eapply (tree_update m m' (fun _ => True) slot x'); try done; cbn; try lia.
  - intros _. split; [rewrite (proj1 Hs); lia|]. split; [lia|]. eapply (place_keeps m m' _ x x'); [done|done|done|]. apply (t_place _ H). by exists slot.
Qed.

(** *** Creating a node in an empty slot *)
Lemma tree_create m slot e x p q recovery : tree_ok m -> length (m_nodes m) = OBJECTS -> m_nodes m !! slot = Some e -> live e = false ->
  live x = true -> n_id x = m_next m -> n_parent x <> 0 ->
  node_of m (n_parent x) = Ok p -> n_kind p = KDirectory -> n_space p = n_space x ->
  (forall n, has m n -> n_parent n = n_parent x -> Node_name n <> Node_name x) ->
  m_sequence m <= q -> 0 < q -> n_version x <= q ->
  tree_ok (mkMetadata q (m_next m + 1) (<[slot := x]> (m_nodes m)) recovery).
Proof.
  intros H Hlen He Le Lx Hid Hp0 Hp Hk Hsp Hname Hq Hq0 Hv. set (m' := mkMetadata _ _ _ _). pose proof (lookup_lt_Some _ _ _ He) as Hl.
  assert (Hfree : forall i n, i <> slot -> m_nodes m !! i = Some n -> live n = true -> same_entry x n = false /\ same_entry n x = false).
  { intros i n Hi Hn Ln. assert (Hh : has m n) by (by exists i). pose proof (t_bounds _ H n Hh) as [Hb _].
    unfold same_entry. rewrite Ln, Lx, Hid. cbn [andb]. split.
    - destruct (Z.eqb_spec (n_id n) (m_next m)); [lia|]. cbn [orb]. destruct (Z.eqb_spec (n_parent n) (n_parent x)) as [E|]; [|done]. cbn [andb].
      apply bool_decide_eq_false. by apply Hname.
    - destruct (Z.eqb_spec (m_next m) (n_id n)); [lia|]. cbn [orb]. destruct (Z.eqb_spec (n_parent x) (n_parent n)) as [E|]; [|done]. cbn [andb].
      apply bool_decide_eq_false. intros E'. by apply (Hname n Hh). }
  assert (Hu : entries_unique m').
  { intros i j a b Hij Ha Hb La Lb. unfold m' in Ha, Hb. cbn [m_nodes] in Ha, Hb.
    destruct (decide (i = slot)) as [->|Hi]; [rewrite list_lookup_insert_eq in Ha by done|rewrite list_lookup_insert_ne in Ha by done];
      (destruct (decide (j = slot)) as [->|Hj]; [rewrite list_lookup_insert_eq in Hb by done|rewrite list_lookup_insert_ne in Hb by done]); simplify_eq.
    - lia.
    - by apply (Hfree j).
    - by apply (Hfree i).
    - by apply (t_unique _ H i j). }
  assert (HK : keeps m m' (fun _ => True)).
  { intros a n _ Hn'. pose proof (node_of_has _ _ _ Hn') as [(i & Hi & Li) E]. exists n. split; [|done].
    apply node_of_spec; [by apply entries_ids_unique| |done]. exists i. cbn. rewrite list_lookup_insert_ne; [done|]. intros ->. congruence. }
  destruct (t_counters _ H) as [Hc Hc5].
  eapply (tree_update m m' (fun _ => True) slot x); try done; cbn; try lia.
  intros _. split; [lia|]. split; [lia|].
  assert (Hch : exists l, chain m (n_parent x) l).
  { apply node_of_has in Hp as Hp'. destruct Hp' as [Hhp E]. destruct (Z.eq_dec (n_parent p) 0) as [Hz|Hz].
    - exists [n_parent x]. by eapply chain_root.
    - pose proof (t_place _ H p Hhp) as Hpl. apply place_child in Hpl as (p' & l & _ & _ & _ & Hcl & _); [|done].
      exists (n_parent x :: l). by eapply chain_up. }
  destruct Hch as [l Hcl]. apply place_child; [done|]. destruct (HK _ p I Hp) as (p' & Hp' & (_ & _ & Ek & Es & _) & _).
  exists p', l. split; [done|]. split; [congruence|]. split; [congruence|].
  split; [eapply chain_same; [by apply keeps_parents|done|done]|]. split.
  - intros Hi. destruct (chain_has _ _ _ _ Hcl Hi) as (n & Hh & E). destruct (t_bounds _ H n Hh) as [? _]. lia.
  - pose proof (chain_length _ _ _ Hcl). pose proof (live_ids_empty_slot m slot e He Le). unfold OBJECTS in Hlen. lia.
Qed.

(** *** Removing a childless node *)
Lemma tree_remove m slot x q recovery : tree_ok m -> m_nodes m !! slot = Some x -> live x = true -> n_parent x <> 0 ->
  (forall n, has m n -> n_parent n <> n_id x) -> m_sequence m <= q -> 0 < q ->
  tree_ok (mkMetadata q (m_next m) (<[slot := Node_EMPTY]> (m_nodes m)) recovery).
Proof.
  intros H Hx Lx Hp Hch Hq Hq0. set (m' := mkMetadata _ _ _ _). pose proof (lookup_lt_Some _ _ _ Hx) as Hl.
  assert (Hu : entries_unique m').
  { intros i j a b Hij Ha Hb La Lb. unfold m' in Ha, Hb. cbn [m_nodes] in Ha, Hb.
    destruct (decide (i = slot)) as [->|Hi]; [rewrite list_lookup_insert_eq in Ha by done; by simplify_eq|rewrite list_lookup_insert_ne in Ha by done].
    destruct (decide (j = slot)) as [->|Hj]; [rewrite list_lookup_insert_eq in Hb by done; by simplify_eq|rewrite list_lookup_insert_ne in Hb by done].
    by apply (t_unique _ H i j). }
  assert (HK : keeps m m' (fun a => a <> n_id x)).
  { intros a n Ha Hn'. pose proof (node_of_has _ _ _ Hn') as [(i & Hi & Li) E]. exists n. split.
    - apply node_of_spec; [by apply entries_ids_unique| |done]. exists i. cbn. rewrite list_lookup_insert_ne; [done|]. intros ->. congruence.
    - split; [done|]. intros _. apply Hch. by exists i. }
  destruct (t_counters _ H) as [Hc Hc5].
  eapply (tree_update m m' (fun a => a <> n_id x) slot Node_EMPTY); try done; cbn; try lia.
  - intros i n _ Hi Li _. apply Hch. by exists i.
  - intros id Hid ->. destruct (t_roots _ H _ Hid) as (n & Hn & Hz). apply node_of_has in Hn as [(i & Hi & Li) E].
    assert (i = slot) as -> by (eapply tree_ids_unique; done). congruence.
Qed.
