(* ===== verification/FsInvariant.v ===== *)
(** * What every operation of a volume publishes is valid

    The metadata each operation of mutations.rs, recovery/ and admission/
    prepares is valid, and its payload goes to sectors the current generation
    does not use. *)
From stdpp Require Import base list option numbers.
From Stdlib Require Import ZArith Lia Bool.
From S2P Require Import Prelude Bytes Codec FsDisk FsNode FsRecovery FsFormat FsVolume FsPublication FsCrash FsPublish FsTree.

(** ** Retained records *)
Definition numbers (x : FsRecord) : list Z := record_numbers (fr_committed (rd_receipt x)) (rd_admission x).

Definition same_request (x y : FsRecord) : Prop :=
  rd_subject y = rd_subject x /\ fst <$> rd_namespace y = fst <$> rd_namespace x /\ fr_retry (rd_receipt y) = fr_retry (rd_receipt x).

Lemma clash_spec x y : clash x y = false <-> (forall n, n <> 0 -> n ∈ numbers x -> ~ n ∈ numbers y) /\ ~ same_request x y.
Proof.
  unfold clash, record_clash, same_request. rewrite orb_false_iff, <- !not_true_iff_false, existsb_exists, !andb_true_iff, Z.eqb_eq, !bool_decide_eq_true.
  assert (H : (exists n, In n (numbers x) /\ negb (n =? 0) && bool_decide (n ∈ numbers y) = true) <-> exists n, n <> 0 /\ n ∈ numbers x /\ n ∈ numbers y).
  { apply exist_proper. intros n. rewrite <- list_elem_of_In, andb_true_iff, negb_true_iff, Z.eqb_neq, bool_decide_eq_true. tauto. }
  unfold numbers in *. rewrite H. clear H. split; (intros [H1 H2]; split; [|tauto]); [intros n Hn Hx Hy; apply H1; eauto|intros (n & Hn & Hx & Hy); by eapply H1].
Qed.

Lemma recovery_numbers q nx r i x n : recovery_ok q nx r -> rv_records r !! i = Some (Some x) -> n ∈ numbers x -> 0 <= n <= q.
Proof.
  intros H Hi Hn. destruct (vo_records _ _ _ H i x Hi) as [F V A]. pose proof (rf_committed _ _ F) as [Fc _].
  assert (Hc : fr_committed (rd_receipt x) <= q) by (unfold values_bad in V; bools; lia).
  assert (0 <= q) by (destruct (vo_epoch _ _ _ H); lia).
  unfold numbers, record_numbers in Hn. rewrite !elem_of_cons, elem_of_nil in Hn. destruct (rd_admission x) as [a|]; cbn in Hn; [|lia].
  destruct (A a eq_refl) as [_ [N1 _] [T1 _] _ _ B]. unfold stored_bad in B. destruct (so_state a); bools; lia.
Qed.

Lemma values_later value q q' nx nx' x : q <= q' -> nx <= nx' -> values_bad value q nx x = false -> values_bad value q' nx' x = false.
Proof.
  unfold values_bad. intros Hq Hn. rewrite !orb_false_iff. destruct (rd_namespace x) as [[w i]|]; rewrite ?orb_false_iff; intuition lia.
Qed.

Lemma stored_later version receipt ns q q' a : q <= q' -> stored_ok version receipt ns q a -> stored_ok version receipt ns q' a.
Proof.
  intros Hq [? ? ? ? ? B]. split; try done. unfold stored_bad in *. rewrite !orb_false_iff in *. destruct (so_state a); rewrite ?orb_false_iff in *; intuition lia.
Qed.

Lemma record_later value q q' nx nx' version x : q <= q' -> nx <= nx' -> fs_record_ok value q nx version x -> fs_record_ok value q' nx' version x.
Proof. intros Hq Hn [F V A]. split; [done|by eapply values_later|]. intros a Ha. eapply stored_later; [done|by apply A]. Qed.

Lemma recovery_later q q' nx nx' r : q <= q' -> nx <= nx' -> recovery_ok q nx r -> recovery_ok q' nx' r.
Proof.
  intros Hq Hn [L [E1 E2] F S R C]. split; [done|split; [done|lia]|done|done| |done]. intros i x Hx. eapply record_later; [done|done|by eapply R].
Qed.

Lemma recovery_with q q' nx r slot x : recovery_ok q nx r -> q <= q' -> (slot < RETAINED)%nat -> fs_record_ok r q' nx (version_of r) x ->
  (forall i y, i <> slot -> rv_records r !! i = Some (Some y) -> clash x y = false) -> recovery_ok q' nx (set_record r slot (Some x)).
Proof.
  intros H Hq Hs Hx Hc. destruct (recovery_later q q' nx nx r Hq ltac:(lia) H) as [L E F S R C].
  assert (Hv : forall y, fs_record_ok r q' nx (version_of r) y -> fs_record_ok (set_record r slot (Some x)) q' nx (version_of (set_record r slot (Some x))) y)
    by (intros y Hy; eapply (record_ok_value r); [done..|exact Hy]).
  split; [done|done|done|by cbn; rewrite length_insert| |].
  - intros i y Hy. apply Hv. cbn in Hy. apply list_lookup_insert_Some in Hy as [(<- & [= <-] & _)|[_ Hy]]; [done|by eapply R].
  - intros i j y z Hij Hy Hz. cbn in Hy, Hz.
    apply list_lookup_insert_Some in Hy as [(<- & [= <-] & _)|[Hi Hy]]; apply list_lookup_insert_Some in Hz as [(Hk & [= <-] & _)|[Hj Hz]].
    + congruence.
    + by eapply Hc.
    + rewrite clash_sym. subst. by eapply Hc.
    + exact (C i j y z Hij Hy Hz).
Qed.

(** A record whose new numbers are the next sequence clashes with none. *)
Lemma clash_next q nx r i x y : recovery_ok q nx r -> rv_records r !! i = Some (Some y) -> ~ same_request x y ->
  (forall n, n ∈ numbers x -> n = 0 \/ q < n \/ forall z, z = y -> ~ n ∈ numbers z) -> clash x y = false.
Proof.
  intros H Hi Hs Hn. apply clash_spec. split; [|done]. intros n Hz Hx Hy. pose proof (recovery_numbers q nx r i y n H Hi Hy).
  destruct (Hn n Hx) as [?|[?|Hz']]; [done|lia|by apply (Hz' y)].
Qed.

(** ** Metadata *)
Lemma metadata_tree m : metadata_ok m -> tree_ok m.
Proof. intros H. apply validate_spec; [apply (mo_sequence _ H)|apply H]. Qed.

Lemma metadata_intro m : fits 64 (m_sequence m) -> fits 32 (m_next m) -> length (m_nodes m) = OBJECTS -> Forall Node_valid (m_nodes m) ->
  tree_ok m -> (forall r, m_recovery m = Some r -> recovery_ok (m_sequence m) (m_next m) r) -> metadata_ok m.
Proof. intros H1 H2 H3 H4 H5 H6. split; try done. apply validate_spec; [apply H1|done]. Qed.

Lemma has_valid m n : metadata_ok m -> has m n -> live_node n.
Proof.
  intros H (i & Hi & Hl). pose proof (mo_nodes _ H) as V. rewrite Forall_lookup in V. destruct (V i n Hi) as [->|]; done.
Qed.

(** Publishing other recovery state on the same table. *)
Lemma tree_recovery m q recovery : tree_ok m -> m_sequence m <= q -> 0 < q -> tree_ok (mkMetadata q (m_next m) (m_nodes m) recovery).
Proof.
  intros [C B P U R] Hq Hq0. split; cbn; [|intros n Hn..|done|].
  - split; [lia|apply C].
  - destruct (B n Hn). cbn. lia.
  - by apply P.
  - apply R.
Qed.

Lemma metadata_recovery m q recovery : metadata_ok m -> m_sequence m <= q -> fits 64 q ->
  (forall r, recovery = Some r -> recovery_ok q (m_next m) r) -> metadata_ok (mkMetadata q (m_next m) (m_nodes m) recovery).
Proof.
  intros H Hq Fq Hr. apply metadata_intro; cbn; try apply H; [done| |done]. apply tree_recovery; [by apply metadata_tree|done|].
  pose proof (t_counters _ (metadata_tree _ H)) as [? _]. pose proof (mo_sequence _ H) as [? _]. lia.
Qed.

Lemma sequence_positive m : metadata_ok m -> 0 < m_sequence m.
Proof. intros H. pose proof (t_counters _ (metadata_tree _ H)) as [? _]. pose proof (mo_sequence _ H) as [? _]. lia. Qed.

(** ** Where payloads go *)
Lemma placed_without m next first data : (forall n, payload_sector next n -> payload_sector m n) -> placed m next 0 first data.
Proof. intros H. split; [by left| |auto]. intros n b Hn. cbn in Hn. by apply elem_of_nil in Hn. Qed.

(** A node without payload takes a slot. *)
Lemma placed_insert m next first data slot x : m_nodes next = <[slot := x]> (m_nodes m) -> n_kind x <> KFile \/ n_length x = 0 ->
  placed m next 0 first data.
Proof.
  intros E Hx. apply placed_without. intros n (i & y & Hy & Hk & Hl & Hn). rewrite E in Hy.
  apply list_lookup_insert_Some in Hy as [(<- & <- & _)|[_ Hy]]; [by destruct Hx|]. exists i, y. done.
Qed.

Lemma placed_same m next first data : m_nodes next = m_nodes m -> placed m next 0 first data.
Proof. intros E. apply placed_without. intros n (i & y & Hy & H). rewrite E in Hy. exists i, y. done. Qed.

(** The payload of a replaced file goes to the file's other pair of sectors. *)
Lemma placed_payload m next slot x x' data : metadata_ok m -> m_nodes m !! slot = Some x -> live_node x -> n_bank x' = 1 - n_bank x ->
  m_nodes next = <[slot := x']> (m_nodes m) -> length data = MAX_FILE -> bytes_ok data ->
  placed m next 3 (data_sector slot (n_bank x')) data.
Proof.
  intros H Hx Lx Hb E Hl Hd. pose proof (lookup_lt_Some _ _ _ Hx) as Hs. rewrite (mo_count _ H) in Hs. unfold OBJECTS in Hs.
  split; [by right| |].
  - intros n b Hn. unfold data_writes in Hn. cbn [Nat.eqb] in Hn. rewrite !elem_of_cons, elem_of_nil in Hn. unfold data_sector in Hn.
    pose proof (ln_bank x Lx). assert (Hr : 32 + Z.of_nat slot * 4 + (1 - n_bank x) * 2 <= n < 34 + Z.of_nat slot * 4 + (1 - n_bank x) * 2).
    { destruct Hn as [[= -> _]|[[= -> _]|[]]]; lia. }
    split; [lia|]. intros (i & y & Hy & Hk & _ & Hny). unfold data_sector in Hny. pose proof (mo_nodes _ H) as V. rewrite Forall_lookup in V.
    destruct (V i y Hy) as [->|Ly]; [done|]. pose proof (ln_bank y Ly). destruct (decide (i = slot)) as [->|]; [simplify_eq; lia|lia].
  - intros n (i & y & Hy & Hk & Hn0 & Hn). rewrite E in Hy. apply list_lookup_insert_Some in Hy as [(<- & <- & _)|[_ Hy]].
    + right. unfold data_writes, data_sector in *. cbn [Nat.eqb].
      assert (n = 32 + Z.of_nat slot * 4 + n_bank x' * 2 \/ n = 32 + Z.of_nat slot * 4 + n_bank x' * 2 + 1) as [-> | ->] by lia; eexists;
        rewrite !elem_of_cons; [by left|right; by left].
    + left. exists i, y. done.
Qed.

Lemma bytes_ok_padded bytes : bytes_ok bytes -> bytes_ok (padded_bytes bytes).
Proof. intros H. apply bytes_ok_write; [apply bytes_ok_zeros|exact H]. Qed.

Lemma length_padded_bytes bytes : (length bytes <= MAX_FILE)%nat -> length (padded_bytes bytes) = MAX_FILE.
Proof. intros H. unfold padded_bytes. rewrite length_write; rewrite length_zeros; lia. Qed.

Lemma padded_tail bytes : all_zero (drop (length bytes) (padded_bytes bytes)) = true.
Proof.
  unfold padded_bytes, write. rewrite take_0. cbn [app]. rewrite drop_app_length. apply all_zero_eq. unfold zeros.
  by rewrite drop_replicate, length_replicate.
Qed.

Lemma padded_payload bytes : take (length bytes) (padded_bytes bytes) = bytes.
Proof. unfold padded_bytes, write. rewrite take_0. cbn [app]. by rewrite take_app_length. Qed.

(** ** Mutations *)
Lemma stat_spec v id n : Volume_stat v id = Ok n -> vl_poisoned v = false /\ node_of (vl_metadata v) id = Ok n.
Proof. unfold Volume_stat, Volume_ready. by destruct (vl_poisoned v). Qed.

Lemma writable_spec v id n : Volume_writable v id = Ok n -> vl_poisoned v = false /\ node_of (vl_metadata v) id = Ok n /\ n_space n <> 1.
Proof.
  unfold Volume_writable. intros H. steps H. injection H as ->. apply stat_spec in E as [? ?]. bools. done.
Qed.

Lemma next_sequence m q : metadata_ok m -> checked_add (m_sequence m) 1 = Some q -> fits 64 q /\ q = m_sequence m + 1 /\ 0 < q.
Proof.
  intros H [-> Hq]%checked_add_Some. pose proof (sequence_positive m H). split; [|lia]. unfold fits, u64_max in *. lia.
Qed.

Lemma has_insert m i x e : length (m_nodes m) = OBJECTS -> metadata_ok m -> Node_valid x -> m_nodes m !! i = Some e ->
  length (<[i := x]> (m_nodes m)) = OBJECTS /\ Forall Node_valid (<[i := x]> (m_nodes m)).
Proof. intros L H Hx Hi. rewrite length_insert. split; [done|]. apply Forall_insert; [apply H|done]. Qed.

(** ** How metadata evolves *)

(** An open admission settles: only its state, its terminal number and its receipt's commit number change. *)
Record record_settles (q : Z) (x x' : FsRecord) (a a' : Stored) : Prop := {
  rs_open : rd_admission x = Some a /\ so_state a = FAdmitted;
  rs_closed : rd_admission x' = Some a' /\ so_state a' <> FAdmitted /\ so_number a' = so_number a /\ so_terminal a' = q;
  rs_request : rd_subject x' = rd_subject x /\ rd_namespace x' = rd_namespace x /\ rd_bytes x' = rd_bytes x;
  rs_receipt : rd_receipt x' = rd_receipt x \/ rd_receipt x' = committed_receipt x q;
}.

(** Retained records stay until the epoch advances. *)
Definition records_evolve (q : Z) (r r' : Recovery) : Prop :=
  rv_lineage r' = rv_lineage r /\
  (rv_epoch r < rv_epoch r' \/
   rv_epoch r' = rv_epoch r /\ forall i x, rv_records r !! i = Some (Some x) ->
     exists x', rv_records r' !! i = Some (Some x') /\ (x' = x \/ exists a a', record_settles q x x' a a')).

(** A node of the new table is unchanged, or carries the new sequence as its version; its id is its own or a new one. *)
Record evolves (m next : Metadata) : Prop := {
  ev_next : m_next m <= m_next next;
  ev_nodes : forall i n, m_nodes next !! i = Some n -> live n = true -> m_nodes m !! i = Some n \/
    (n_version n = m_sequence next /\ (m_next m <= n_id n \/ exists n', has m n' /\ n_id n' = n_id n));
  ev_recovery : forall r, m_recovery m = Some r -> exists r', m_recovery next = Some r' /\ records_evolve (m_sequence next) r r';
}.

Lemma records_evolve_same q r r' : rv_lineage r' = rv_lineage r -> rv_epoch r' = rv_epoch r -> rv_records r' = rv_records r -> records_evolve q r r'.
Proof. intros E1 E2 E3. split; [done|]. right. split; [done|]. intros i x Hx. rewrite E3. exists x. split; [done|by left]. Qed.

(** ** What the files hold *)
Definition payload (s : image) (slot : nat) (x : Node) : list Z :=
  if n_length x =? 0 then [] else take (Z.to_nat (n_length x)) (sectors s (data_sector slot (n_bank x)) 2).

(** Every file's checksum is that of its payload, so no read reports corruption. *)
Definition intact (s : image) (m : Metadata) : Prop :=
  forall slot x, m_nodes m !! slot = Some x -> n_kind x = KFile -> n_length x <> 0 -> crc (payload s slot x) = n_checksum x.

(** [s] holds what [s0] holds for [m], and the payload of a publication. *)
Definition agrees (m : Metadata) (s0 s : image) : Prop := forall n, payload_sector m n -> s n = s0 n.
Definition carries_payload (m : Metadata) (ds : nat) (first : Z) (data : list Z) (s0 s : image) : Prop :=
  agrees m s0 s /\ forall n b, (n, b) ∈ data_writes ds first data -> s n = b.

Lemma payload_agrees m s0 s slot x : agrees m s0 s -> m_nodes m !! slot = Some x -> n_kind x = KFile -> payload s slot x = payload s0 slot x.
Proof.
  intros H Hx Hk. unfold payload. destruct (Z.eqb_spec (n_length x) 0); [done|]. f_equal. apply sectors_ext. intros k Hn. apply H.
  exists slot, x. split; [done|]. split; [done|]. split; [done|lia].
Qed.

Lemma intact_agrees m s0 s : intact s0 m -> agrees m s0 s -> intact s m.
Proof. intros H Ha slot x Hx Hk Hl. rewrite (payload_agrees m s0) by done. by apply H. Qed.

(** What an operation hands to a publication of its volume. *)
Record publishable (m next : Metadata) (ds : nat) (first : Z) (data : list Z) : Prop := {
  pu_next : metadata_ok next;
  pu_sequence : m_sequence m < m_sequence next;
  pu_evolves : evolves m next;
  pu_placed : placed m next ds first data;
  pu_intact : forall s0 s, intact s0 m -> carries_payload m ds first data s0 s -> intact s next;
}.

Lemma insert_intact m next slot x first data : m_nodes next = <[slot := x]> (m_nodes m) -> n_kind x <> KFile \/ n_length x = 0 ->
  forall s0 s, intact s0 m -> carries_payload m 0 first data s0 s -> intact s next.
Proof.
  intros E Hx s0 s H [Ha _] i y Hy Hk Hl. rewrite E in Hy. apply list_lookup_insert_Some in Hy as [(_ & <- & _)|[_ Hy]]; [by destruct Hx|].
  by apply (intact_agrees m s0 s H Ha).
Qed.

Lemma table_intact m next first data : m_nodes next = m_nodes m -> forall s0 s, intact s0 m -> carries_payload m 0 first data s0 s -> intact s next.
Proof. intros E s0 s H [Ha _] i y Hy. rewrite E in Hy. by apply (intact_agrees m s0 s H Ha). Qed.

(** The recovery state published with sequence [q]. *)
Definition succeeds (m : Metadata) (q : Z) (r' : Recovery) : Prop :=
  recovery_ok q (m_next m) r' /\ forall r, m_recovery m = Some r -> records_evolve q r r'.

Lemma same_succeeds m q r : metadata_ok m -> m_recovery m = Some r -> m_sequence m <= q -> succeeds m q r.
Proof.
  intros H Hr Hq. split; [eapply recovery_later; [exact Hq|reflexivity|by apply (mo_recovery _ H)]|]. intros r' E. rewrite Hr in E. injection E as <-.
  by apply records_evolve_same.
Qed.

(** Replacing one slot of the table. *)
Lemma insert_evolves m next slot x : m_nodes next = <[slot := x]> (m_nodes m) -> m_next m <= m_next next ->
  (live x = true -> n_version x = m_sequence next /\ (m_next m <= n_id x \/ exists n', has m n' /\ n_id n' = n_id x)) ->
  (forall r, m_recovery m = Some r -> exists r', m_recovery next = Some r' /\ records_evolve (m_sequence next) r r') -> evolves m next.
Proof.
  intros En Hn Hx Hr. split; [done| |done]. intros i n Hi Hl. rewrite En in Hi. apply list_lookup_insert_Some in Hi as [(_ & <- & _)|[_ Hi]].
  - right. by apply Hx.
  - by left.
Qed.

Lemma table_evolves m next : m_nodes next = m_nodes m -> m_next next = m_next m ->
  (forall r, m_recovery m = Some r -> exists r', m_recovery next = Some r' /\ records_evolve (m_sequence next) r r') -> evolves m next.
Proof. intros En Hn Hr. split; [lia| |done]. intros i n Hi Hl. left. by rewrite <- En. Qed.

Lemma same_records m next : m_recovery next = m_recovery m ->
  forall r, m_recovery m = Some r -> exists r', m_recovery next = Some r' /\ records_evolve (m_sequence next) r r'.
Proof. intros E r Hr. exists r. split; [congruence|by apply records_evolve_same]. Qed.

Lemma new_node_ok id parent space kind name version n : Node_new id parent space kind name version = Ok n -> kind <> KEmpty ->
  fits 32 id -> id <> 0 -> fits 32 parent -> 1 <= space <= 4 -> fits 64 version -> version <> 0 -> live_node n.
Proof.
  intros H Hk ? ? ? ? ? ?. destruct (Node_new_ok _ _ _ _ _ _ _ H) as (Hn & E & En). destruct (valid_name_spec name Hn) as (Hl & _).
  assert (Hp : n_name n = write (zeros 32) 0 (Node_name n)) by (rewrite En; by subst n).
  split; try (subst n; done); try (subst n; cbn; lia); try (by rewrite En).
Qed.

Lemma find_none {A} (p : A -> bool) l : List.find p l = None -> forall x, x ∈ l -> p x = false.
Proof. intros H x Hx. by apply (List.find_none p l H), list_elem_of_In. Qed.

(** An absent name: no live node of the directory has it. *)
Lemma lookup_absent v parent name n : Volume_lookup v parent name = Err ENotFound -> Volume_stat v parent = Ok n ->
  forall x, has (vl_metadata v) x -> n_parent x = parent -> Node_name x <> name.
Proof.
  unfold Volume_lookup. intros H Hs x (i & Hi & Hl) Hp En. destruct (stat_spec _ _ _ Hs) as [Hr _]. unfold Volume_ready in H. rewrite Hr in H. cbv beta iota in H.
  destruct (valid_name name) as [[]| |] eqn:Ev; [|unfold valid_name in Ev; destruct (_ || _) in Ev; congruence|done].
  rewrite Hs in H. cbv beta iota in H. destruct (if parent =? 0 then _ else _) as [[]|e|] eqn:E; [|by repeat case_match; simplify_eq|done].
  destruct (List.find _ _) eqn:F; [done|]. pose proof (find_none _ _ F x ltac:(by eapply list_elem_of_lookup_2)) as Hx. unfold named in Hx.
  rewrite Hl, Hp, Z.eqb_refl, bool_decide_true in Hx by done. done.
Qed.

Lemma create_publishable v parent name kind next node q : metadata_ok (vl_metadata v) -> prepare_create v parent name kind = Ok (next, node) ->
  checked_add (m_sequence (vl_metadata v)) 1 = Some q -> publishable (vl_metadata v) (set_sequence next q) 0 0 (zeros MAX_FILE).
Proof.
  intros H E Hq. destruct (next_sequence _ q H Hq) as (Fq & Eq & Hq0). unfold prepare_create in E. steps E.
  unfold kind_is in *. bools. injection E as <- ->. rename a0 into n, a1 into slot. apply writable_spec in E2 as (Hpo & Hd & _). apply ok_or_Ok in E6 as Hpos, E7, E8.
  rewrite Hq in E8. injection E8 as <-. unfold checked_add32 in E7. destruct (Z.leb_spec (m_next (vl_metadata v) + 1) u32_max) as [Hn|]; [|done].
  injection E7 as <-. apply position_Some in Hpos as [(e0 & He & Hk) _]. apply bool_decide_eq_true in Hk.
  pose proof (metadata_tree _ H) as Ht. destruct (node_of_has _ _ _ Hd) as [Hh Hid]. pose proof (has_valid _ _ H Hh) as Lp.
  pose proof (t_counters _ Ht) as [_ Hn5]. destruct (Node_new_ok _ _ _ _ _ _ _ E9) as (_ & Ex & En).
  assert (Hp0 : parent <> 0) by (destruct (ln_id _ Lp); congruence).
  assert (Lx : live_node node).
  { eapply new_node_ok; [done|done|split; unfold u32_max in Hn; lia|lia|rewrite <- Hid; apply Lp|apply (ln_space _ Lp)|done|lia]. }
  assert (Ev : live node = true) by (subst node; unfold live, kind_is; cbn; by rewrite bool_decide_false).
  assert (Hx : n_id node = m_next (vl_metadata v) /\ n_parent node = parent /\ n_version node = q /\ n_space node = n_space n /\ n_length node = 0) by (by subst node).
  destruct Hx as (X1 & X2 & X3 & X4 & X5). split.
  - destruct (has_insert _ slot node e0 (mo_count _ H) H ltac:(by right) He) as [HL HF]. apply metadata_intro; cbn; [done|split; unfold u32_max in Hn; lia|done|done| |].
    + eapply (tree_create _ _ e0 _ n); try done; [by apply (mo_count _ H)|unfold live, kind_is; by rewrite Hk|lia|congruence| |lia|lia|lia..].
      rewrite En, X2. eapply lookup_absent; [done|]. unfold Volume_stat, Volume_ready. by rewrite Hpo.
    + intros r Hr. eapply recovery_later; [| |by apply (mo_recovery _ H)]; lia.
  - cbn. lia.
  - eapply insert_evolves; [done|cbn; lia| |by apply same_records]. intros _. cbn. split; [done|]. left. lia.
  - eapply placed_insert; [done|by right].
  - eapply insert_intact; [done|by right].
Qed.

Lemma remove_publishable v id next q : metadata_ok (vl_metadata v) -> prepare_remove v id = Ok next ->
  checked_add (m_sequence (vl_metadata v)) 1 = Some q -> publishable (vl_metadata v) (set_sequence next q) 0 0 (zeros MAX_FILE).
Proof.
  intros H E Hq. destruct (next_sequence _ q H Hq) as (Fq & Eq & Hq0). unfold prepare_remove in E. steps E. injection E as <-. rename a into n, a0 into slot. bools.
  apply writable_spec in E0 as (Hpo & Hd & _). destruct (index_node _ _ _ E3) as (x & Hx & Lx & Hid & Hn). rewrite Hd in Hn. injection Hn as <-.
  split.
  - destruct (has_insert _ slot Node_EMPTY n (mo_count _ H) H ltac:(by left) Hx) as [HL HF]. apply metadata_intro; cbn; [done|apply H|done|done| |].
    + apply (tree_remove (vl_metadata v) slot n q (m_recovery (vl_metadata v))); [by apply metadata_tree|done|done|done| |lia|lia]. intros y (i & Hi & Ly) Hp.
      apply not_true_iff_false in E2. apply E2, existsb_exists. exists y. split; [by eapply list_elem_of_In, list_elem_of_lookup_2|].
      rewrite Ly. cbn. apply Z.eqb_eq. congruence.
    + intros r Hr. eapply recovery_later; [| |by apply (mo_recovery _ H)]; lia.
  - cbn. lia.
  - eapply insert_evolves; [done|cbn; lia|done|by apply same_records].
  - eapply placed_insert; [done|by right].
  - eapply insert_intact; [done|by right].
Qed.

(** Recovery state alone: format transitions and epochs. *)
Lemma recovery_publishable m r q : metadata_ok m -> checked_add (m_sequence m) 1 = Some q -> succeeds m q r ->
  publishable m (set_sequence (set_recovery m (Some r)) q) 0 0 (zeros MAX_FILE).
Proof.
  intros H Hq [Hr He]. destruct (next_sequence _ q H Hq) as (Fq & Eq & Hq0). split; [|cbn; lia| |by apply placed_same|by apply table_intact].
  - apply (metadata_recovery m q (Some r)); [done|lia|done|]. by intros ? [= <-].
  - apply table_evolves; [done|done|]. intros r0 Hr0. exists r. split; [done|by apply He].
Qed.

(** ** Replacing a file *)
Lemma data_writes_at first data k : (k < 2)%nat -> (first + Z.of_nat k, sector_at data k) ∈ data_writes 3 first data.
Proof.
  intros Hk. unfold data_writes. cbn [Nat.eqb]. rewrite !elem_of_cons. destruct k as [|[|]]; [left|right; left|lia]; [by rewrite Z.add_0_r|done].
Qed.

Lemma written_payload s slot x bytes : n_length x = Z.of_nat (length bytes) -> (length bytes <= MAX_FILE)%nat ->
  (forall k, (k < 2)%nat -> s (data_sector slot (n_bank x) + Z.of_nat k) = sector_at (padded_bytes bytes) k) -> payload s slot x = bytes.
Proof.
  intros Hl Hm Hs. unfold payload. rewrite Hl. destruct (Z.eqb_spec (Z.of_nat (length bytes)) 0); [by destruct bytes|].
  rewrite (sectors_rebuild s _ 2 (padded_bytes bytes)) by (rewrite ?length_padded_bytes; done). rewrite Nat2Z.id. apply padded_payload.
Qed.

Lemma replace_publishable v id version bytes base next first x : metadata_ok (vl_metadata v) -> bytes_ok bytes ->
  m_nodes base = m_nodes (vl_metadata v) -> m_next base = m_next (vl_metadata v) ->
  (m_recovery base = None -> m_recovery (vl_metadata v) = None) ->
  (forall r, m_recovery base = Some r -> succeeds (vl_metadata v) (m_sequence (vl_metadata v) + 1) r) ->
  plan_recorded v id version bytes base = Ok (next, first, x) ->
  publishable (vl_metadata v) next 3 first (padded_bytes bytes) /\ (length bytes <= MAX_FILE)%nat /\ m_recovery next = m_recovery base.
Proof.
  intros H Hb En Ex Hnone Hr E. unfold plan_recorded in E. steps E. rename a into n, a0 into slot. injection E as <- <- <-. unfold kind_is in *. bools.
  apply writable_spec in E0 as (_ & Hn & _). apply ok_or_Ok in E6. destruct (next_sequence _ _ H E6) as (Fq & -> & Hq0).
  destruct (index_node _ _ _ E4) as (y & Hy & Ly & Hid & Hn'). rewrite Hn in Hn'. injection Hn' as <-.
  unfold node_at in E5. rewrite En, Hy in E5. injection E5 as <-. pose proof (has_valid _ n H ltac:(by exists slot)) as Vn.
  assert (Hl : (length bytes <= MAX_FILE)%nat) by lia.
  set (q := m_sequence (vl_metadata v) + 1) in *. set (x := changed_node n n bytes q).
  assert (Vx : live_node x).
  { destruct Vn as [? ? ? [? ?] ? ? B ? ? ? ? ?]. split; cbn; try done; [split; [done|lia]|lia|lia|by apply crc_fits|congruence]. }
  split; [|done]. split; [|cbn; lia| | |].
  - rewrite En. destruct (has_insert _ slot x n (mo_count _ H) H ltac:(by right) Hy) as [HL HF].
    apply metadata_intro; cbn; [done|rewrite Ex; apply H|done|done| |].
    + apply tree_replace with (x := n); [by apply metadata_tree|done|done|done|lia|lia|cbn; lia|lia].
    + intros r Hm. rewrite Ex. by apply Hr.
  - eapply (insert_evolves _ _ slot x); [cbn; by rewrite En|cbn; lia| |].
    + intros _. split; [done|]. right. exists n. split; [by exists slot|done].
    + cbn. intros r Hm. destruct (m_recovery base) as [r'|]; [|by rewrite Hnone in Hm]. exists r'. split; [done|]. by apply (Hr r' eq_refl).
  - apply (placed_payload (vl_metadata v) _ slot n x); [done|done|done|done|cbn; by rewrite En|by apply length_padded_bytes|by apply bytes_ok_padded].
  - intros s0 s Hi [Ha Hd] i y Hyy Hky Hly. cbn in Hyy. rewrite En in Hyy. apply list_lookup_insert_Some in Hyy as [(<- & <- & _)|[_ Hyy]].
    + rewrite (written_payload s slot x bytes); [done|done|done|]. intros k Hk'. apply Hd. by apply data_writes_at.
    + by apply (intact_agrees _ s0 s Hi Ha).
Qed.

(** ** The records the recorded operations retain

    Every record prepared by recovery/operations.rs, recovery/scoped.rs and
    admission/ is valid beside the retained ones: its request is new, its
    numbers are the next sequence, and its state follows the admission's
    state machine. *)
(** A file's id is above the roots, and its version below the sequence. *)
Lemma file_facts m id n : metadata_ok m -> node_of m id = Ok n -> n_kind n = KFile ->
  4 < id < m_next m /\ fits 32 id /\ fits 64 (n_version n) /\ 0 < n_version n <= m_sequence m.
Proof.
  intros H Hn Hk. pose proof (metadata_tree _ H) as Ht. destruct (node_of_has _ _ _ Hn) as [Hh Hid]. pose proof (has_valid _ _ H Hh) as V.
  destruct (t_bounds _ Ht n Hh) as [B1 B2]. destruct (ln_id _ V) as [F N]. destruct (ln_version _ V) as [Fv Nv]. rewrite Hid in *.
  split; [|split; [done|split; [done|destruct Fv; lia]]]. split; [|done]. apply Z.nle_gt. intros Hle.
  destruct (t_roots _ Ht id) as (x & Hx & Hp); [destruct F; lia|]. rewrite Hn in Hx. injection Hx as <-.
  pose proof (t_place _ Ht n Hh) as P. unfold validate_place in P. rewrite Hp in P. cbn [Z.eqb] in P.
  unfold root_name_bad, kind_is in P. rewrite Hk in P. rewrite (bool_decide_false (KFile = KDirectory)), orb_true_r in P by done. done.
Qed.

Lemma directory_facts m id n : metadata_ok m -> node_of m id = Ok n -> 0 < id < m_next m /\ fits 32 id.
Proof.
  intros H Hn. destruct (node_of_has _ _ _ Hn) as [Hh Hid]. destruct (ln_id _ (has_valid _ _ H Hh)) as [F N].
  destruct (t_bounds _ (metadata_tree _ H) n Hh). rewrite Hid in *. destruct F. split; [lia|done].
Qed.

(** A request a record may be made of. *)
Record request_ok (m : Metadata) (r : Recovery) (subject : Z) (retry : FsRetry) (id version : Z) (bytes : list Z) : Prop := {
  rq_subject : fits 64 subject /\ subject <> 0;
  rq_retry : ry_lineage retry = rv_lineage r /\ ry_epoch retry = rv_epoch r;
  rq_key : fits 64 (ry_key retry) /\ ry_key retry <> 0;
  rq_id : 4 < id < m_next m /\ fits 32 id;
  rq_version : fits 64 version /\ 0 < version <= m_sequence m;
  rq_bytes : bytes_ok bytes /\ (length bytes <= MAX_FILE)%nat;
}.

Lemma request_fits m r subject retry id version bytes committed ns a : recovery_ok (m_sequence m) (m_next m) r ->
  request_ok m r subject retry id version bytes -> fits 64 committed -> (forall w i, ns = Some (w, i) -> fits 32 w /\ fits 64 i) ->
  record_fits (rv_lineage r) (mkFsRecord subject (mkFsReceipt retry id version committed (Z.of_nat (length bytes))) ns (padded_bytes bytes) a).
Proof.
  intros H [[? ?] [? E] [? ?] [? ?] [? ?] [? ?]] ? ?. split; cbn; try done.
  - rewrite E. apply H.
  - lia.
  - by apply length_padded_bytes.
  - by apply bytes_ok_padded.
  - rewrite Nat2Z.id. apply padded_tail.
Qed.

Definition namespace_ok (m : Metadata) (r : Recovery) (id number : Z) (ns : option (Z * Z)) : Prop :=
  forall w i, ns = Some (w, i) -> rv_scoped r = true /\ 0 < w < m_next m /\ w <> id /\ fits 32 w /\ fits 64 i /\ 0 < i <= number.

(** A completed replacement, without an admission. *)
Lemma completed_record_ok m r subject retry id version bytes ns q : metadata_ok m -> m_recovery m = Some r ->
  request_ok m r subject retry id version bytes -> checked_add (m_sequence m) 1 = Some q -> namespace_ok m r id q ns ->
  fs_record_ok r q (m_next m) (version_of r) (mkFsRecord subject (mkFsReceipt retry id version q (Z.of_nat (length bytes))) ns (padded_bytes bytes) None).
Proof.
  intros H Hr R Hq N. destruct (next_sequence _ _ H Hq) as (Fq & -> & _). split; [|cbn|done].
  - eapply request_fits; [by apply (mo_recovery _ H)|done|done|]. intros w i E. by destruct (N w i E) as (_ & _ & _ & ? & ? & _).
  - destruct R as [[? ?] [? E] [? ?] [? ?] [? ?] [? ?]]. unfold values_bad. cbn. rewrite E, Z.eqb_refl.
    rewrite !orb_false_iff, !Z.eqb_neq, !Z.leb_gt, !Z.ltb_ge. repeat split; try lia.
    destruct ns as [[w i]|]; [|done]. destruct (N w i eq_refl) as (-> & ? & ? & _ & _ & ?). cbn.
    rewrite !orb_false_iff, !Z.eqb_neq, Z.leb_gt, Z.ltb_ge. lia.
Qed.

(** A new admission. *)
Lemma admitted_record_ok m r subject retry id version bytes ns q : metadata_ok m -> m_recovery m = Some r -> rv_admissions r = true ->
  request_ok m r subject retry id version bytes -> checked_add (m_sequence m) 1 = Some q -> namespace_ok m r id q ns -> ns <> None ->
  fs_record_ok r q (m_next m) (version_of r)
    (mkFsRecord subject (mkFsReceipt retry id version 0 (Z.of_nat (length bytes))) ns (padded_bytes bytes) (Some (mkStored q FAdmitted 0 None))).
Proof.
  intros H Hr Ha R Hq N Hns. destruct (next_sequence _ _ H Hq) as (Fq & -> & _). pose proof (mo_recovery _ H r Hr) as V.
  pose proof (sequence_positive _ H) as Hs. split; [|cbn|].
  - eapply request_fits; [done|done|by vm_compute|]. intros w i E. by destruct (N w i E) as (_ & _ & _ & ? & ? & _).
  - destruct R as [[? ?] [? E] [? ?] [? ?] [? ?] [? ?]]. unfold values_bad. cbn. rewrite E, Z.eqb_refl.
    rewrite !orb_false_iff, !Z.eqb_neq, !Z.leb_gt, !Z.ltb_ge. repeat split; try lia.
    destruct ns as [[w i]|]; [|done]. destruct (N w i eq_refl) as (-> & ? & ? & _ & _ & ?). cbn.
    rewrite !orb_false_iff, !Z.eqb_neq, Z.leb_gt, Z.ltb_ge. lia.
  - intros a [= <-]. destruct (vo_flags _ _ _ V) as [F1 F2]. destruct (version_of_flags r F1 F2) as (_ & _ & V4 & _). rewrite Ha in V4. bools.
    split; cbn; [done|done|by vm_compute|done|by left|]. unfold stored_bad. cbn. destruct R as [_ _ _ _ [? ?] _].
    destruct ns as [[w i]|]; [|done]. destruct (N w i eq_refl) as (_ & _ & _ & _ & _ & ?). rewrite !orb_false_iff, !Z.eqb_neq, !Z.leb_gt, !Z.ltb_ge. lia.
Qed.

(** Settling an admission: cancelled, or committed with its receipt. *)
Lemma cancelled_record_ok m r slot x a q reason : metadata_ok m -> m_recovery m = Some r -> rv_records r !! slot = Some (Some x) ->
  rd_admission x = Some a -> so_state a = FAdmitted -> checked_add (m_sequence m) 1 = Some q -> (rv_reasons r = false -> reason = RUnknown) ->
  fs_record_ok r q (m_next m) (version_of r) (cancelled_record q reason x a).
Proof.
  intros H Hr Hx Ha Hs Hq Hre. destruct (next_sequence _ _ H Hq) as (Fq & -> & _). pose proof (mo_recovery _ H r Hr) as V.
  destruct (vo_records _ _ _ V slot x Hx) as [F B A]. pose proof (A a Ha) as [A1 A2 A3 A4 A5 A6]. split.
  - destruct F. by split.
  - apply values_later with (m_sequence m) (m_next m); [lia|lia|]. unfold values_bad in *. cbn. rewrite Ha in B. cbn in B. done.
  - intros b [= <-]. cbn. destruct (vo_flags _ _ _ V) as [F1 F2]. destruct (version_of_flags r F1 F2) as (_ & _ & _ & V5).
    split; cbn; [done|done|done|done| |].
    + intros E. right. rewrite E in V5. by rewrite Hre.
    + unfold stored_bad in *. rewrite Hs in A6. cbn. rewrite !orb_false_iff in *. intuition lia.
Qed.

Lemma committed_record_ok m r slot x a q : metadata_ok m -> m_recovery m = Some r -> rv_records r !! slot = Some (Some x) ->
  rd_admission x = Some a -> so_state a = FAdmitted -> checked_add (m_sequence m) 1 = Some q ->
  fs_record_ok r q (m_next m) (version_of r) (committed_record q x a).
Proof.
  intros H Hr Hx Ha Hs Hq. destruct (next_sequence _ _ H Hq) as (Fq & -> & _). pose proof (mo_recovery _ H r Hr) as V.
  destruct (vo_records _ _ _ V slot x Hx) as [F B A]. pose proof (A a Ha) as [A1 A2 A3 A4 A5 A6]. split.
  - destruct F. by split.
  - apply (values_later r (m_sequence m)) with (nx := m_next m) (q' := m_sequence m + 1) (nx' := m_next m) in B; [|lia|lia].
    unfold values_bad in *. cbn. rewrite Ha in B. cbn in B. rewrite !orb_false_iff in *. destruct (rd_namespace x) as [[w i]|]; intuition lia.
  - intros b [= <-]. split; cbn; [done|done|done| |done|].
    + rewrite Hs in A4. split; [done|]. intros E. by apply A4 in E.
    + unfold stored_bad in *. rewrite Hs in A6. cbn. rewrite Z.eqb_refl. rewrite !orb_false_iff in *. intuition lia.
Qed.

(** ** Retaining a record *)

Lemma retain_evolves m r slot q x : m_recovery m = Some r -> position is_none (rv_records r) = Some slot ->
  forall r0, m_recovery m = Some r0 -> records_evolve q r0 (set_record r slot (Some x)).
Proof.
  intros Hr Hp r0 Hr0. rewrite Hr in Hr0. injection Hr0 as <-. split; [done|]. right. split; [done|]. intros i y Hy. exists y. split; [|by left].
  apply position_Some in Hp as [(o & Ho & Hn) _]. cbn. rewrite list_lookup_insert_ne; [done|]. intros ->. rewrite Ho in Hy. by injection Hy as ->.
Qed.

Lemma settle_evolves m r slot q x y : m_recovery m = Some r -> rv_records r !! slot = Some (Some x) -> (exists a a', record_settles q x y a a') ->
  forall r0, m_recovery m = Some r0 -> records_evolve q r0 (set_record r slot (Some y)).
Proof.
  intros Hr Hx He r0 Hr0. rewrite Hr in Hr0. injection Hr0 as <-. split; [done|]. right. split; [done|]. intros i z Hz. cbn.
  destruct (decide (i = slot)) as [->|Hne].
  - rewrite Hx in Hz. injection Hz as <-. exists y. rewrite list_lookup_insert_eq by (by eapply lookup_lt_Some). split; [done|by right].
  - exists z. rewrite list_lookup_insert_ne by done. split; [done|by left].
Qed.

(** A new request whose numbers are all the next sequence or unused. *)
Lemma retain_new m r q slot x : metadata_ok m -> m_recovery m = Some r -> checked_add (m_sequence m) 1 = Some q ->
  position is_none (rv_records r) = Some slot -> fs_record_ok r q (m_next m) (version_of r) x ->
  (forall n, n ∈ numbers x -> n = 0 \/ n = q) -> (forall y, y ∈ slots (rv_records r) -> ~ same_request x y) ->
  succeeds m q (set_record r slot (Some x)).
Proof.
  intros H Hr Hq Hp Hx Hn Hs. split; [|by apply retain_evolves]. pose proof (mo_recovery _ H r Hr) as V. destruct (next_sequence _ _ H Hq) as (_ & E & _).
  apply recovery_with with (m_sequence m); [done|lia|rewrite <- (vo_slots _ _ _ V); by eapply position_lt|done|]. intros i y _ Hy.
  eapply (clash_next (m_sequence m)); [done|done|apply Hs, elem_of_slots; by exists i|]. intros n Hi. destruct (Hn n Hi) as [?|?]; [by left|right; left; lia].
Qed.

(** An admission that settles keeps its request and its number. *)
Lemma retain_settled m r q slot x y : metadata_ok m -> m_recovery m = Some r -> checked_add (m_sequence m) 1 = Some q ->
  rv_records r !! slot = Some (Some x) -> fs_record_ok r q (m_next m) (version_of r) y ->
  (forall n, n ∈ numbers y -> n = 0 \/ n = q \/ n ∈ numbers x) ->
  rd_subject y = rd_subject x -> rd_namespace y = rd_namespace x -> fr_retry (rd_receipt y) = fr_retry (rd_receipt x) ->
  (exists a a', record_settles q x y a a') -> succeeds m q (set_record r slot (Some y)).
Proof.
  intros H Hr Hq Hx Hy Hn E1 E2 E3 He. split; [|by eapply settle_evolves]. pose proof (mo_recovery _ H r Hr) as V. destruct (next_sequence _ _ H Hq) as (_ & E & _).
  apply recovery_with with (m_sequence m); [done|lia|rewrite <- (vo_slots _ _ _ V); by eapply lookup_lt_Some|done|]. intros i z Hi Hz.
  pose proof (vo_distinct _ _ _ V slot i x z ltac:(done) Hx Hz) as C. apply clash_spec in C as [C1 C2].
  apply clash_spec. split; [|unfold same_request in *; by rewrite E1, E2, E3]. intros n Hn0 Hny Hnz.
  pose proof (recovery_numbers _ _ _ _ _ _ V Hz Hnz). destruct (Hn n Hny) as [?|[?|Hnx]]; [done|lia|by apply (C1 n)].
Qed.

Lemma find_none_request {A} (p : A -> bool) l : List.find p l = None -> forall y, y ∈ l -> p y <> true.
Proof. intros H y Hy. rewrite (find_none _ _ H y Hy). done. Qed.

(** ** The plain recorded replacement *)
Lemma find_new r subject retry : Recovery_find r subject retry = Ok None ->
  subject <> 0 /\ ry_key retry <> 0 /\ ry_lineage retry = rv_lineage r /\ ry_epoch retry = rv_epoch r /\
  forall y, y ∈ slots (rv_records r) -> ~ (rd_namespace y = None /\ rd_subject y = subject /\ fr_retry (rd_receipt y) = retry).
Proof.
  unfold Recovery_find. intros H. guards H. bools. destruct (List.find _ _) eqn:F; [done|]. guards H. bools.
  split; [done|]. split; [done|]. split; [done|]. split; [done|]. intros y Hy (E1 & E2 & E3). apply (find_none_request _ _ F y Hy).
  rewrite E1, E2, E3, Z.eqb_refl, bool_decide_true by done. done.
Qed.

(** What a client may pass: words of their width and bytes. *)
Record client_ok (subject : Z) (retry : FsRetry) (bytes : list Z) : Prop := {
  cl_subject : fits 64 subject;
  cl_key : fits 64 (ry_key retry);
  cl_bytes : bytes_ok bytes;
}.

Lemma planned_file v id version bytes base plan : metadata_ok (vl_metadata v) -> plan_recorded v id version bytes base = Ok plan ->
  vl_poisoned v = false /\ (length bytes <= MAX_FILE)%nat /\
  exists n, node_of (vl_metadata v) id = Ok n /\ n_kind n = KFile /\ n_version n = version.
Proof.
  intros H E. unfold plan_recorded in E. steps E. unfold kind_is in *. bools. apply writable_spec in E0 as (Hp & Hn & _).
  split; [done|]. split; [lia|]. by exists a.
Qed.

Lemma request_intro v r subject retry id version bytes n : metadata_ok (vl_metadata v) -> client_ok subject retry bytes ->
  subject <> 0 -> ry_key retry <> 0 -> ry_lineage retry = rv_lineage r -> ry_epoch retry = rv_epoch r -> (length bytes <= MAX_FILE)%nat ->
  node_of (vl_metadata v) id = Ok n -> n_kind n = KFile -> n_version n = version ->
  request_ok (vl_metadata v) r subject retry id version bytes.
Proof. intros H [? ? ?] ? ? ? ? ? Hn Hk <-. destruct (file_facts _ _ _ H Hn Hk) as (? & ? & ? & ?). by split. Qed.

Lemma tracked_publishable v r slot q subject retry id version bytes next first x :
  metadata_ok (vl_metadata v) -> m_recovery (vl_metadata v) = Some r -> client_ok subject retry bytes -> Recovery_find r subject retry = Ok None ->
  position is_none (rv_records r) = Some slot -> checked_add (m_sequence (vl_metadata v)) 1 = Some q ->
  plan_recorded v id version bytes (store_record (vl_metadata v) r slot
    (mkFsRecord subject (mkFsReceipt retry id version q (Z.of_nat (length bytes))) None (padded_bytes bytes) None)) = Ok (next, first, x) ->
  publishable (vl_metadata v) next 3 first (padded_bytes bytes).
Proof.
  intros H Hr C Hf Hp Hq E. destruct (find_new _ _ _ Hf) as (F1 & F2 & F3 & F4 & F5). destruct (next_sequence _ _ H Hq) as (_ & Eq & _).
  destruct (planned_file _ _ _ _ _ _ H E) as (_ & Hl & n & Hn & Hk & Hv).
  pose proof (request_intro v r _ _ _ _ _ n H C F1 F2 F3 F4 Hl Hn Hk Hv) as R.
  eapply replace_publishable; [done|apply C| | | | |exact E]; [done|done|done|]. intros r' [= <-]. rewrite <- Eq.
  eapply retain_new; [done|done|done|done|by eapply completed_record_ok|..].
  - intros k Hi. unfold numbers, record_numbers in Hi. cbn in Hi. rewrite !elem_of_cons, elem_of_nil in Hi. destruct Hi as [->|[->|[->|[]]]]; auto.
  - intros y Hy (E1 & E2 & E3). cbn in *. apply (F5 y Hy). split; [by apply fmap_None in E2|done].
Qed.

(** ** Scoped replacements and admissions *)
Definition unseen (v : Volume) (r : Recovery) (subject workspace : Z) (retry : FsRetry) : Prop :=
  m_recovery (vl_metadata v) = Some r /\ rv_scoped r = true /\ subject <> 0 /\ workspace <> 0 /\ ry_key retry <> 0 /\
  ry_lineage retry = rv_lineage r /\ ry_epoch retry = rv_epoch r /\
  forall y, y ∈ slots (rv_records r) -> scoped_match subject workspace retry y <> true.

Lemma scoped_unseen v subject workspace retry : operation_by_retry v subject workspace retry = Err EOutcomeUnknown ->
  exists r, unseen v r subject workspace retry.
Proof.
  unfold operation_by_retry, Volume_ready, scoped_recovery. intros H. destruct (vl_poisoned v); [done|].
  destruct (m_recovery _) as [r|] eqn:Er; [|done]. destruct (rv_scoped r) eqn:Es; [|done]. destruct (_ || _) eqn:G; [done|].
  destruct (negb _) eqn:G'; [done|]. bools. destruct (List.find _ _) as [x|] eqn:F.
  - apply List.find_some in F as [_ M]. unfold scoped_match in M. bools. unfold Record_operation in H.
    destruct (rd_namespace x); [|done]. cbn in H. destruct (rd_admission x) as [a|]; [|done]. by destruct (so_state a).
  - destruct (negb _) eqn:Ge; [done|]. bools. exists r. repeat (split; [done|]). by apply find_none_request.
Qed.

Lemma admissions_spec v r : Volume_admissions v = Ok r -> vl_poisoned v = false /\ m_recovery (vl_metadata v) = Some r /\ rv_admissions r = true.
Proof.
  unfold Volume_admissions, Volume_ready. destruct (vl_poisoned v); [done|]. destruct (m_recovery _) as [r'|]; [|done].
  destruct (rv_admissions r') eqn:E; [|done]. by intros [= <-].
Qed.

Lemma admission_unseen v subject workspace retry : metadata_ok (vl_metadata v) ->
  admission_by_retry v subject workspace retry = Err EOutcomeUnknown -> exists r, unseen v r subject workspace retry /\ rv_admissions r = true.
Proof.
  unfold admission_by_retry. intros Hm H. destruct (Volume_admissions v) as [r|e|] eqn:A;
    [|unfold Volume_admissions, Volume_ready in A; by repeat case_match; simplify_eq|done]. apply admissions_spec in A as (_ & Hr & Ha).
  destruct (_ || _) eqn:G; [done|]. destruct (negb _) eqn:G'; [done|]. bools. destruct (List.find _ _) as [x|] eqn:F.
  - unfold admission_view in H. destruct (rd_admission x); [|done]. by destruct (rd_namespace x).
  - destruct (negb _) eqn:Ge; [done|]. bools. destruct (vo_flags _ _ _ (mo_recovery _ Hm r Hr)) as [_ Hs]. exists r.
    split; [|done]. split; [done|]. split; [by apply Hs|]. repeat (split; [done|]). by apply find_none_request.
Qed.

Lemma volume_resolve_spec v workspace id n : Volume_resolve v workspace id = Ok n ->
  exists w, node_of (vl_metadata v) workspace = Ok w /\ n_kind w = KDirectory /\ node_of (vl_metadata v) id = Ok n.
Proof.
  unfold Volume_resolve. intros H. steps H. unfold kind_is in *. bools. injection H as ->. apply stat_spec in E as [_ ?], E1 as [_ ?]. by exists a.
Qed.

Lemma scoped_workspace_ok v r workspace id n n' q instance : metadata_ok (vl_metadata v) -> rv_scoped r = true -> Volume_resolve v workspace id = Ok n' ->
  node_of (vl_metadata v) id = Ok n -> n_kind n = KFile -> checked_add (m_sequence (vl_metadata v)) 1 = Some q -> fits 64 instance ->
  choose_instance instance q <= q -> namespace_ok (vl_metadata v) r id q (Some (workspace, choose_instance instance q)).
Proof.
  intros H Hs Hr Hn Hk Hq Hi Hle w i [= <- <-]. destruct (volume_resolve_spec _ _ _ _ Hr) as (d & Hd & Hkd & _). destruct (next_sequence _ _ H Hq) as (Fq & -> & ?).
  destruct (directory_facts _ _ _ H Hd) as [? ?]. split; [done|]. split; [done|]. split; [intros ->; congruence|]. split; [done|].
  unfold choose_instance in *. unfold fits in *. destruct (Z.eqb_spec instance 0); [|lia]. lia.
Qed.

Lemma scoped_publishable v r slot q subject instance request bytes n' next first x :
  metadata_ok (vl_metadata v) -> unseen v r subject (fp_workspace request) (fp_retry request) -> client_ok subject (fp_retry request) bytes ->
  Volume_resolve v (fp_workspace request) (fp_id request) = Ok n' -> fits 64 instance ->
  position is_none (rv_records r) = Some slot -> checked_add (m_sequence (vl_metadata v)) 1 = Some q -> choose_instance instance q <= q ->
  plan_recorded v (fp_id request) (fp_version request) bytes (store_record (vl_metadata v) r slot
    (mkFsRecord subject (mkFsReceipt (fp_retry request) (fp_id request) (fp_version request) q (Z.of_nat (length bytes)))
      (Some (fp_workspace request, choose_instance instance q)) (padded_bytes bytes) None)) = Ok (next, first, x) ->
  publishable (vl_metadata v) next 3 first (padded_bytes bytes).
Proof.
  intros H (Hr & Hsc & F1 & Fw & F2 & F3 & F4 & F5) C Hres Hi Hp Hq Hle E. destruct (next_sequence _ _ H Hq) as (_ & Eq & _).
  destruct (planned_file _ _ _ _ _ _ H E) as (_ & Hl & n & Hn & Hk & Hv).
  pose proof (request_intro v r _ _ _ _ _ n H C F1 F2 F3 F4 Hl Hn Hk Hv) as R.
  eapply replace_publishable; [done|apply C| | | | |exact E]; [done|done|done|]. intros r' [= <-]. rewrite <- Eq.
  eapply retain_new; [done|done|done|done|eapply completed_record_ok; [done|done|done|done|by eapply scoped_workspace_ok]|..].
  - intros k Hn'. unfold numbers, record_numbers in Hn'. cbn in Hn'. rewrite !elem_of_cons, elem_of_nil in Hn'. destruct Hn' as [->|[->|[->|[]]]]; auto.
  - intros y Hy (E1 & E2 & E3). cbn in *. apply (F5 y Hy). unfold scoped_match. destruct (rd_namespace y) as [[w i]|]; [|done]. cbn in *.
    injection E2 as ->. rewrite E1, E3, !Z.eqb_refl. by rewrite bool_decide_true.
Qed.

Lemma admission_publishable v r slot q subject instance request bytes n n' :
  metadata_ok (vl_metadata v) -> unseen v r subject (fp_workspace request) (fp_retry request) -> rv_admissions r = true ->
  client_ok subject (fp_retry request) bytes -> (length bytes <= MAX_FILE)%nat ->
  Volume_resolve v (fp_workspace request) (fp_id request) = Ok n' -> fits 64 instance ->
  node_of (vl_metadata v) (fp_id request) = Ok n -> n_kind n = KFile -> n_version n = fp_version request ->
  position is_none (rv_records r) = Some slot -> checked_add (m_sequence (vl_metadata v)) 1 = Some q -> choose_instance instance q <= q ->
  publishable (vl_metadata v) (set_sequence (store_record (vl_metadata v) r slot
    (mkFsRecord subject (mkFsReceipt (fp_retry request) (fp_id request) (fp_version request) 0 (Z.of_nat (length bytes)))
      (Some (fp_workspace request, choose_instance instance q)) (padded_bytes bytes) (Some (mkStored q FAdmitted 0 None)))) q) 0 0 (zeros MAX_FILE).
Proof.
  intros H (Hr & Hsc & F1 & Fw & F2 & F3 & F4 & F5) Ha C Hl Hres Hi Hn Hk Hv Hp Hq Hle.
  pose proof (request_intro v r _ _ _ _ _ n H C F1 F2 F3 F4 Hl Hn Hk Hv) as R. apply recovery_publishable; [done|done|].
  eapply retain_new; [done|done|done|done|eapply admitted_record_ok; [done|done|done|done|done|by eapply scoped_workspace_ok|done]|..].
  - intros k Hn'. unfold numbers, record_numbers in Hn'. cbn in Hn'. rewrite !elem_of_cons, elem_of_nil in Hn'. destruct Hn' as [->|[->|[->|[]]]]; auto.
  - intros y Hy (E1 & E2 & E3). cbn in *. apply (F5 y Hy). unfold scoped_match. destruct (rd_namespace y) as [[w i]|]; [|done]. cbn in *.
    injection E2 as ->. rewrite E1, E3, !Z.eqb_refl. by rewrite bool_decide_true.
Qed.

(** Cancelling and executing an admission. *)
Lemma cancelled_publishable v r slot q x a reason : metadata_ok (vl_metadata v) -> m_recovery (vl_metadata v) = Some r ->
  rv_records r !! slot = Some (Some x) -> rd_admission x = Some a -> so_state a = FAdmitted ->
  checked_add (m_sequence (vl_metadata v)) 1 = Some q -> (rv_reasons r = false -> reason = RUnknown) ->
  publishable (vl_metadata v) (set_sequence (store_record (vl_metadata v) r slot (cancelled_record q reason x a)) q) 0 0 (zeros MAX_FILE).
Proof.
  intros H Hr Hx Ha Hs Hq Hre. apply recovery_publishable; [done|done|].
  eapply retain_settled; [done|done|done|done|by eapply cancelled_record_ok| |done|done|done|by eexists _, _; split; [..|left]].
  intros k Hk. unfold numbers, record_numbers in *. rewrite Ha. cbn in *. rewrite !elem_of_cons, elem_of_nil in *. destruct Hk as [->|[->|[->|[]]]]; auto 8.
Qed.

Lemma committed_publishable v r slot q x a id version bytes next first y : metadata_ok (vl_metadata v) -> m_recovery (vl_metadata v) = Some r ->
  rv_records r !! slot = Some (Some x) -> rd_admission x = Some a -> so_state a = FAdmitted -> bytes_ok bytes ->
  checked_add (m_sequence (vl_metadata v)) 1 = Some q ->
  plan_recorded v id version bytes (store_record (vl_metadata v) r slot (committed_record q x a)) = Ok (next, first, y) ->
  publishable (vl_metadata v) next 3 first (padded_bytes bytes).
Proof.
  intros H Hr Hx Ha Hs Hb Hq E. destruct (next_sequence _ _ H Hq) as (_ & Eq & _).
  eapply replace_publishable; [done|done| | | | |exact E]; [done|done|done|]. intros r' [= <-]. rewrite <- Eq.
  eapply retain_settled; [done|done|done|done|by eapply committed_record_ok| |done|done|done|by eexists _, _; split; [..|right]].
  intros k Hk. unfold numbers, record_numbers in *. rewrite Ha. cbn in *. rewrite !elem_of_cons, elem_of_nil in *. destruct Hk as [->|[->|[->|[]]]]; auto 8.
Qed.
