(* ===== verification/FsReach.v ===== *)
(** * Every operation keeps the volume sound

    A volume is sound when whatever survives a stop is a valid generation, and,
    unless it is fenced, the generation it holds is durable. *)
From stdpp Require Import base list option numbers.
From Stdlib Require Import ZArith Lia Bool.
From S2P Require Import Prelude Bytes Codec FsDisk FsNode FsRecovery FsFormat FsVolume FsPublication FsCrash FsPublish FsTree FsInvariant.

Section Reach.
Context {D : Type} {HD : Disk D} {HV : DiskView D} {HW : ViewLaws D} {HL : DiskLaws D}.
Implicit Types (d : D) (v : Volume) (w : Volume * D).

(** ** Publications of a volume at rest *)
Definition plan_for v d (next : Metadata) (ds : nat) (first : Z) (data : list Z) : pub_plan :=
  mkPlan (vl_metadata v) next (vl_bank v) (contents d) ds first data.

Lemma plan_for_ok v d next ds first data : rests_on d (vl_metadata v) (vl_bank v) -> publishable (vl_metadata v) next ds first data ->
  plan_ok (plan_for v d next ds first data).
Proof. intros [? ? ? ? ?] [? ? ? ? ?]. split; try done. apply contents_ok. Qed.

Lemma start_preparing v d : rests_on d (vl_metadata v) (vl_bank v) -> preparing (vl_metadata v) (vl_bank v) (contents d) d [].
Proof. intros [? ? ? R St]. split; [done|done|done|]. intros n b Hb. by apply elem_of_nil in Hb. Qed.

Section Start.
Context {T : Type} (v : Volume) (d : D) (next : Metadata) (result : T).
Hypothesis (Hv : rests_on d (vl_metadata v) (vl_bank v)) (Hp : vl_poisoned v = false).

Lemma new_state first bytes : publishable (vl_metadata v) next 3 first (padded_bytes bytes) ->
  pub_state (plan_for v d next 3 first (padded_bytes bytes)) (Publication_new v d next first bytes result).
Proof.
  intros HP. split; [done|]. cbn. split; [done|]. split; [|split; [by apply start_preparing|done]].
  unfold pn_total. pose proof (write_steps_range next). cbn. lia.
Qed.

Lemma metadata_state p q : publishable (vl_metadata v) (set_sequence next q) 0 0 (zeros MAX_FILE) -> Volume_sequence v + 1 = q ->
  Publication_metadata v d next result = Ok p -> pub_state (plan_for v d (set_sequence next q) 0 0 (zeros MAX_FILE)) p /\ pb_result p = result.
Proof.
  intros HP Hq E. unfold Publication_metadata in E. steps E. apply ok_or_Ok, checked_add_Some in E0 as [-> _]. rewrite Hq in E. injection E as <-.
  split; [|done]. split; [done|]. cbn. split; [done|]. split; [|split; [by apply start_preparing|done]].
  unfold pn_total. pose proof (write_steps_range (set_sequence next q)). cbn [plan_for pn_ds pn_next]. lia.
Qed.
End Start.

(** What a settled publication leaves: the new generation with its payload, or a fence between the two. *)
Definition survivor v (s0 : image) (next : Metadata) (ds : nat) (first : Z) (data : list Z) (s : image) : Prop :=
  (bank_generation s (vl_metadata v) (vl_bank v) /\ agrees (vl_metadata v) s0 s) \/
  (bank_generation s next (1 - vl_bank v) /\ carries_payload (vl_metadata v) ds first data s0 s).

Definition published_to {T} v d (next : Metadata) (ds : nat) (first : Z) (data : list Z) (t : T) (r : outcome FsError T) w : Prop :=
  match r with
  | Ok t' => t' = t /\ w.1 = mkVolume next (1 - vl_bank v) false /\ rests_on (w.2) next (1 - vl_bank v) /\
             carries_payload (vl_metadata v) ds first data (contents d) (contents (w.2))
  | Err e => e = EUncertain /\ w.1 = poison v true /\ forall s, survives (w.2) s -> survivor v (contents d) next ds first data s
  | Panic => False
  end.

Lemma survives_contents d : survives d (contents d).
Proof. intros n. apply view_contents. Qed.

Section Survivors.
Context (v : Volume) (d : D) (next : Metadata) (ds : nat) (first : Z) (data : list Z).
Hypothesis (Hv : rests_on d (vl_metadata v) (vl_bank v)) (HP : publishable (vl_metadata v) next ds first data).
Let P := plan_for v d next ds first data.

Lemma payload_live n : payload_sector (vl_metadata v) n -> live_sector (vl_metadata v) (vl_bank v) n.
Proof. intros H. by right; right; right. Qed.

Lemma old_survivor s : is_old P s -> survivor v (contents d) next ds first data s.
Proof. intros [Hg Ha]. left. split; [done|]. intros n Hn. by apply Ha, payload_live. Qed.

Lemma new_carries s : is_new P s -> carries_payload (vl_metadata v) ds first data (contents d) s.
Proof.
  intros (Hg & Hf & Ha). split.
  - intros n Hn. by apply Ha, payload_live.
  - intros n b Hb. apply Hf. unfold pn_fresh, prepared. apply elem_of_app. by left.
Qed.

Lemma new_survivor s : is_new P s -> survivor v (contents d) next ds first data s.
Proof. intros H. right. split; [apply H|by apply new_carries]. Qed.
End Survivors.

Lemma run_published {T} v d next ds first data (p : Publication D T) : rests_on d (vl_metadata v) (vl_bank v) ->
  publishable (vl_metadata v) next ds first data -> pub_state (plan_for v d next ds first data) p ->
  pb_pending p = false -> pb_stopping p = false -> pb_phase p = Preparing ->
  exists r w, Publication_run p = Some (r, w) /\ published_to v d next ds first data (pb_result p) r w.
Proof.
  intros Hv HP Hst Hpe Hs Hph. pose proof (plan_for_ok _ _ _ _ _ _ Hv HP) as HO. set (P := plan_for v d next ds first data) in *.
  pose proof (total_range P HO) as Ht.
  destruct (run_loop_settles P HO RUN_FUEL p Hst Hpe Hs ltac:(left; by left) ltac:(unfold RUN_FUEL; lia)) as (r & p' & E & Hp' & Hr).
  unfold Publication_run. rewrite E. exists r, (Publication_drop p'). split; [done|]. destruct (Publication_drop p') as [v' d'] eqn:Ed.
  destruct (drop_rests P HO p' v' d' Hp' Ed) as (D1 & D2 & D3). destruct r as [t|e|]; [| |done].
  - destruct Hr as [-> Hc]. rewrite Hc in D3. subst v'. split; [done|]. split; [done|]. split; [by apply D1|]. cbn. subst d'.
    pose proof (phase_survives P HO p' _ Hp' (survives_contents _)) as Hx. rewrite Hc in Hx. by apply (new_carries v d next ds first data).
  - destruct Hr as [-> Hu]. rewrite Hu in D3. subst v'. split; [done|]. split; [done|]. intros s Hsv. cbn in Hsv. subst d'.
    pose proof (phase_survives P HO p' s Hp' Hsv) as Hx. rewrite Hu in Hx.
    destruct Hx as [Hx|Hx]; [by apply (old_survivor v d next ds first data)|by apply (new_survivor v d next ds first data)].
Qed.

Lemma commit_published v d next q r w : rests_on d (vl_metadata v) (vl_bank v) -> checked_add (m_sequence (vl_metadata v)) 1 = Some q ->
  publishable (vl_metadata v) (set_sequence next q) 0 0 (zeros MAX_FILE) -> Volume_commit (v, d) next = (r, w) ->
  published_to v d (set_sequence next q) 0 0 (zeros MAX_FILE) tt r w.
Proof.
  intros Hv Hq HP E. unfold Volume_commit in E. rewrite Hq in E. pose proof (plan_for_ok _ _ _ _ _ _ Hv HP) as HO.
  set (P := plan_for v d (set_sequence next q) 0 0 (zeros MAX_FILE)) in *.
  destruct (Publication_metadata v d next tt) as [p| |] eqn:Em;
    [|unfold Publication_metadata, Volume_sequence in Em; by rewrite Hq in Em..].
  apply checked_add_Some in Hq as [Hq _].
  destruct (metadata_state v d next tt Hv p q HP ltac:(done) Em) as [Hst _]. fold P in Hst.
  assert (Hf : pb_phase p = Preparing /\ pb_stopping p = false /\ pb_step p = 0%nat /\ pb_disk p = d).
  { unfold Publication_metadata in Em. steps Em. by injection Em as <-. }
  destruct Hf as (Hph & Hs & Hz & Hdk). change (vl_bank (poison v true)) with (vl_bank v) in E. unfold Metadata_write in E.
  destruct (write_loop _ _ _ _ _) as [x d'] eqn:Ew.
  pose proof (write_loop_settles P HO (write_steps (set_sequence next q)) p x d' Hst eq_refl ltac:(by left) Hs) as Hw.
  rewrite Hz, Hdk in Hw. specialize (Hw ltac:(unfold pn_total; cbn [P plan_for pn_ds pn_next]; lia) Ew).
  destruct x as [[]|e|]; [| |done]; injection E as <- <-.
  - split; [done|]. split; [done|]. cbn. split.
    + eapply (finished_rests (vl_metadata v) (set_sequence next q)); first [staged HO|exact Hw].
    + apply (new_carries v d (set_sequence next q) 0 0 (zeros MAX_FILE)). eapply finished_survives; first [staged HO|exact Hw|apply survives_contents].
  - split; [done|]. split; [done|]. intros s Hsv. cbn in Hsv. destruct Hw as [Hw|Hw].
    + apply (old_survivor v d (set_sequence next q) 0 0 (zeros MAX_FILE)).
      eapply (preparing_survives (vl_metadata v) (vl_bank v)); first [staged HO|exact Hw|exact Hsv].
    + assert (Hx : is_old P s \/ is_new P s).
      { eapply offered_survives; first [staged HO|exact Hw|exact Hsv]. }
      destruct Hx as [Hx|Hx]; [by apply (old_survivor v d _ 0 0 (zeros MAX_FILE))|by apply (new_survivor v d _ 0 0 (zeros MAX_FILE))].
Qed.

(** ** Sound volumes *)
Record sound w : Prop := {
  sd_rest : vl_poisoned (w.1) = false -> rests_on (w.2) (vl_metadata (w.1)) (vl_bank (w.1)) /\ intact (contents (w.2)) (vl_metadata (w.1));
  sd_survives : forall s, survives (w.2) s -> exists m bank, is_bank bank /\ metadata_ok m /\ bank_generation s m bank /\ intact s m;
}.

(** One publication at most: nothing (perhaps a fence), the next generation, or a fenced volume between the two. *)
Definition transition w w' : Prop :=
  ((w'.1 = w.1 \/ w'.1 = poison (w.1) true) /\ undisturbed (w.2) (w'.2)) \/
  exists next ds first data, vl_poisoned (w.1) = false /\ publishable (vl_metadata (w.1)) next ds first data /\
    ((w'.1 = mkVolume next (1 - vl_bank (w.1)) false /\ rests_on (w'.2) next (1 - vl_bank (w.1)) /\
      carries_payload (vl_metadata (w.1)) ds first data (contents (w.2)) (contents (w'.2))) \/
     (w'.1 = poison (w.1) true /\ forall s, survives (w'.2) s -> survivor (w.1) (contents (w.2)) next ds first data s)).

Lemma rests_agrees v d s : rests_on d (vl_metadata v) (vl_bank v) -> survives d s -> agrees (vl_metadata v) (contents d) s.
Proof. intros H Hs n Hn. destruct (rests_survives _ _ _ _ H Hs) as [_ Ha]. apply Ha. by right; right; right. Qed.

Lemma rests_sound v d : rests_on d (vl_metadata v) (vl_bank v) -> intact (contents d) (vl_metadata v) -> sound (v, d).
Proof.
  intros H Hi. split; [done|]. intros s Hs. cbn in Hs. destruct (rests_survives _ _ _ _ H Hs) as [Hg _]. exists (vl_metadata v), (vl_bank v).
  split; [apply H|]. split; [apply H|]. split; [done|]. eapply intact_agrees; [exact Hi|by apply rests_agrees].
Qed.

Lemma sound_rest v d : sound (v, d) -> vl_poisoned v = false -> rests_on d (vl_metadata v) (vl_bank v).
Proof. intros H Hp. apply (sd_rest _ H Hp). Qed.

Lemma undisturbed_sound v d d' : undisturbed d d' -> sound (v, d) -> sound (v, d').
Proof.
  intros U [R S]. split; cbn in *.
  - intros Hp. destruct (R Hp) as [R1 R2]. split; [by eapply rests_undisturbed|]. eapply intact_agrees; [exact R2|]. intros n _. apply U.
  - intros s Hs. apply S. intros n. apply U, Hs.
Qed.

Lemma transition_sound w w' : sound w -> transition w w' -> sound w'.
Proof.
  destruct w as [v d], w' as [v' d']. intros H [[[E|E] U]|(next & ds & first & data & Hp & HP & [(E & R & C)|[E S]])]; cbn in *; subst v'.
  - by eapply undisturbed_sound.
  - apply (undisturbed_sound v d d' U) in H. split; [done|]. apply H.
  - apply (rests_sound (mkVolume next (1 - vl_bank v) false)); [done|]. eapply (pu_intact _ _ _ _ _ HP); [|exact C]. by apply (sd_rest _ H).
  - split; [done|]. intros s Hs. destruct (sd_rest _ H Hp) as [[Hb Hm _ _ _] Hi]. cbn in *. destruct (S s Hs) as [[Hg Ha]|[Hg Ha]]; eexists _, _.
    + split; [exact Hb|]. split; [exact Hm|]. split; [exact Hg|by eapply intact_agrees].
    + split; [by apply other_bank|]. split; [apply HP|]. split; [exact Hg|]. by eapply (pu_intact _ _ _ _ _ HP).
Qed.

Lemma transition_refl w : transition w w.
Proof. left. by split; [left|]. Qed.

Lemma published_transition {T} v d next ds first data (t : T) r w' : vl_poisoned v = false -> publishable (vl_metadata v) next ds first data ->
  published_to v d next ds first data t r w' -> transition (v, d) w' /\ r <> Panic.
Proof.
  intros Hp HP H. split; [|by destruct r]. right. exists next, ds, first, data. split; [done|]. split; [done|].
  destruct r as [t'|e|]; [left|right|done]; by destruct H as (_ & ? & ?).
Qed.

(** ** What preparation returns *)
Definition prepared_ok {T} v d (p : Publication D T) : Prop :=
  p = Publication_replayed v d (pb_result p) \/
  exists next ds first data, vl_poisoned v = false /\ publishable (vl_metadata v) next ds first data /\ pub_state (plan_for v d next ds first data) p /\
    pb_pending p = false /\ pb_stopping p = false /\ pb_phase p = Preparing.

Definition prepares {T} v d (o : outcome FsError (Publication D T)) : Prop :=
  match o with Ok p => prepared_ok v d p | Err _ => True | Panic => False end.

Lemma prepared_run_transition {T} v d (o : outcome FsError (Publication D T)) : sound (v, d) -> prepares v d o ->
  exists r w, prepared_run (v, d) o = Some (r, w) /\ r <> Panic /\ transition (v, d) w.
Proof.
  intros H Hp. destruct o as [p|e|]; [|eexists _, _; split; [done|split; [done|apply transition_refl]]|done].
  destruct Hp as [->|(next & ds & first & data & Hpo & HP & Hst & H1 & H2 & H3)].
  - eexists _, _. split; [done|]. split; [done|]. left. cbn. by split; [left|].
  - destruct (run_published v d next ds first data p (sound_rest _ _ H Hpo) HP Hst H1 H2 H3) as (r & w & E & Hw). exists r, w. split; [done|].
    destruct (published_transition v d next ds first data _ r w Hpo HP Hw). done.
Qed.

Lemma recorded_prepared {T} v d id version bytes base (output : Node -> T) : sound (v, d) -> plan_recorded v id version bytes base <> Panic ->
  (forall next first x, vl_poisoned v = false -> metadata_ok (vl_metadata v) -> plan_recorded v id version bytes base = Ok (next, first, x) ->
     publishable (vl_metadata v) next 3 first (padded_bytes bytes)) ->
  prepares v d (prepare_recorded v d id version bytes base output).
Proof.
  intros H Hn HP. unfold prepare_recorded. destruct (plan_recorded _ _ _ _ _) as [[[next first] x]|e|] eqn:E; [|done|done]. right.
  assert (Hpo : vl_poisoned v = false).
  { unfold plan_recorded in E. steps E. by apply writable_spec in E0 as [? _]. }
  pose proof (sound_rest _ _ H Hpo) as Hr. specialize (HP next first x Hpo (rs_ok _ _ _ Hr) eq_refl). exists next, 3%nat, first, (padded_bytes bytes).
  split; [done|]. split; [done|]. split; [by apply new_state|done].
Qed.
End Reach.
