(* ===== verification/FsCalls.v ===== *)
(** * The calls of a volume, as one step function

    Every state-changing call of the volume API, composed as its clients
    compose it, with the theorem that any call, on any disk that keeps the
    contract, returns without panicking and leaves the volume sound. *)
From stdpp Require Import base list option numbers relations.
From Stdlib Require Import ZArith Lia Bool.
From S2P Require Import Prelude Bytes Codec FsDisk FsNode FsRecovery FsFormat FsVolume FsPublication FsCrash FsPublish FsTree FsInvariant FsReach.

(** ** No index is out of range *)
Lemma node_of_total m id : node_of m id <> Panic.
Proof.
  unfold node_of, Metadata_index, node_at. destruct (position _ _) as [i|] eqn:E; [|done]. cbn. apply position_Some in E as [(x & -> & _) _]. done.
Qed.

Lemma stat_total v id : Volume_stat v id <> Panic.
Proof. unfold Volume_stat, Volume_ready. destruct (vl_poisoned v); [done|apply node_of_total]. Qed.

Lemma writable_total v id : Volume_writable v id <> Panic.
Proof. unfold Volume_writable. pose proof (stat_total v id). destruct (Volume_stat v id); [by destruct (_ =? _)|done|done]. Qed.

Lemma within_total v id scope : Volume_within v id scope <> Panic.
Proof.
  unfold Volume_within. destruct (scope =? 0); [pose proof (stat_total v id); by destruct (Volume_stat v id)|].
  generalize OBJECTS. intros fuel. revert id. induction fuel as [|fuel IH]; intros id; [done|]. cbn [within_loop].
  pose proof (stat_total v id). destruct (Volume_stat v id); [|done|done]. destruct (_ =? _); [done|]. destruct (_ =? _); [done|apply IH].
Qed.

Lemma resolve_total v workspace id : Volume_resolve v workspace id <> Panic.
Proof.
  unfold Volume_resolve. pose proof (stat_total v workspace). destruct (Volume_stat v workspace); [|done|done]. destruct (negb _); [done|].
  pose proof (stat_total v id). destruct (Volume_stat v id); [|done|done]. pose proof (within_total v id workspace).
  destruct (Volume_within v id workspace); [by destruct (negb _)|done|done].
Qed.

Lemma lookup_total v parent name : Volume_lookup v parent name <> Panic.
Proof.
  unfold Volume_lookup, Volume_ready. destruct (vl_poisoned v); [done|]. pose proof (valid_name_total name). destruct (valid_name name); [|done|done].
  destruct (parent =? 0); [by destruct (List.find _ _)|]. pose proof (stat_total v parent). destruct (Volume_stat v parent); [|done|done].
  destruct (kind_is _ _); [by destruct (List.find _ _)|done].
Qed.

Lemma index_total m id : Metadata_index m id <> Panic.
Proof. unfold Metadata_index. by destruct (position _ _). Qed.

Lemma planned_total v id version bytes base : m_nodes base = m_nodes (vl_metadata v) -> plan_recorded v id version bytes base <> Panic.
Proof.
  intros En. unfold plan_recorded. pose proof (writable_total v id). destruct (Volume_writable v id) as [n| |]; [|done|done].
  destruct (negb _); [done|]. destruct (negb _); [done|]. destruct (_ <? _)%nat; [done|]. pose proof (index_total (vl_metadata v) id).
  destruct (Metadata_index _ id) as [i| |] eqn:E; [|done|done]. destruct (index_node _ _ _ E) as (x & Hx & _). unfold node_at. rewrite En, Hx.
  by destruct (checked_add _ _).
Qed.

Lemma create_total v parent name kind : prepare_create v parent name kind <> Panic.
Proof.
  unfold prepare_create. pose proof (valid_name_total name). destruct (valid_name name) eqn:Ev; [|done|done]. destruct (kind_is _ _); [done|].
  pose proof (writable_total v parent). destruct (Volume_writable v parent); [|done|done]. destruct (negb _); [done|].
  pose proof (lookup_total v parent name). destruct (Volume_lookup v parent name) as [|e|]; [done| |done]. destruct e; try done.
  destruct (position _ _); [|done]. cbn. destruct (checked_add32 _ _); [|done]. cbn. destruct (checked_add _ _); [|done]. cbn. unfold Node_new. by rewrite Ev.
Qed.

Lemma remove_total v id : prepare_remove v id <> Panic.
Proof.
  unfold prepare_remove. pose proof (writable_total v id). destruct (Volume_writable v id); [|done|done]. destruct (_ =? _); [done|].
  destruct (existsb _ _); [done|]. pose proof (index_total (vl_metadata v) id). by destruct (Metadata_index _ id).
Qed.

Lemma view_total x : admission_view x <> Panic.
Proof. unfold admission_view. destruct (rd_admission x); [|done]. cbn. by destruct (rd_namespace x). Qed.

Lemma operation_total v subject workspace retry : operation_by_retry v subject workspace retry <> Panic.
Proof.
  unfold operation_by_retry, Volume_ready, scoped_recovery. destruct (vl_poisoned v); [done|]. destruct (m_recovery _) as [r|]; [|done].
  destruct (rv_scoped r); [|done]. destruct (_ || _); [done|]. destruct (negb _); [done|]. destruct (List.find _ _) as [x|]; [|by destruct (negb _)].
  unfold Record_operation. destruct (rd_namespace x); [|done]. cbn. destruct (rd_admission x) as [a|]; [|done]. by destruct (so_state a).
Qed.

Lemma admissions_total v : Volume_admissions v <> Panic.
Proof. unfold Volume_admissions, Volume_ready. by repeat case_match. Qed.

Lemma admission_retry_total v subject workspace retry : admission_by_retry v subject workspace retry <> Panic.
Proof.
  unfold admission_by_retry. pose proof (admissions_total v). destruct (Volume_admissions v) as [r| |]; [|done|done]. destruct (_ || _); [done|].
  destruct (negb _); [done|]. destruct (List.find _ _) as [x|]; [apply view_total|by destruct (negb _)].
Qed.

(** The slot an admission is found in holds it. *)
Lemma admission_slot_spec v subject id slot : admission_slot v subject id = Ok slot ->
  exists r x a, Volume_admissions v = Ok r /\ rv_records r !! slot = Some (Some x) /\ rd_admission x = Some a /\
    rd_subject x = subject /\ so_number a = fa_number id /\ fa_lineage id = rv_lineage r.
Proof.
  unfold admission_slot. intros H. steps H. injection H as ->. bools. exists a.
  apply ok_or_Ok, position_Some in E2 || (apply position_Some in E2). destruct E2 as [(o & Ho & Hm) _]. unfold admission_match in Hm.
  destruct o as [x|]; [|done]. cbn in Hm. destruct (rd_admission x) as [b|] eqn:Eb; [|bools; done]. cbn in Hm. bools. by exists x, b.
Qed.

Lemma admission_slot_total v subject id : admission_slot v subject id <> Panic.
Proof.
  unfold admission_slot. pose proof (admissions_total v). destruct (Volume_admissions v); [|done|done]. destruct (_ || _); [done|]. destruct (negb _); [done|].
  by destruct (position _ _).
Qed.

(** ** What each preparation returns *)
Section Prepares.
Context {D : Type} {HD : Disk D} {HV : DiskView D} {HW : ViewLaws D} {HL : DiskLaws D}.
Implicit Types (d : D) (v : Volume) (w : Volume * D).

Lemma replayed_prepares {T} v d (t : T) : prepares v d (Ok (Publication_replayed v d t)).
Proof. by left. Qed.

Lemma metadata_prepares {T} v d base q (t : T) : sound (v, d) -> vl_poisoned v = false -> checked_add (m_sequence (vl_metadata v)) 1 = Some q ->
  publishable (vl_metadata v) (set_sequence base q) 0 0 (zeros MAX_FILE) -> prepares v d (Publication_metadata v d base t).
Proof.
  intros H Hp Hq HP. destruct (Publication_metadata v d base t) as [p| |] eqn:E; [|done|by unfold Publication_metadata, Volume_sequence in E; rewrite Hq in E].
  right. exists (set_sequence base q), 0%nat, 0, (zeros MAX_FILE). split; [done|]. split; [done|].
  split; [eapply metadata_state; [by apply (sound_rest _ _ H)|done|by apply checked_add_Some in Hq as [-> _]|exact E]|].
  unfold Publication_metadata in E. steps E. by injection E as <-.
Qed.

Lemma replace_prepares v d id version bytes : sound (v, d) -> bytes_ok bytes -> prepares v d (prepare_replace v d id version bytes).
Proof.
  intros H Hb. apply recorded_prepared; [done|by apply planned_total|]. intros next first x Hp Hm E.
  eapply replace_publishable; [done|done| | | | |exact E]; [done|done|done|]. intros r Hr. apply same_succeeds; [done|done|lia].
Qed.

(** Requests: the words of the wire types. *)
Definition fs_replacement_ok (subject instance : Z) (request : FsReplacement) (bytes : list Z) : Prop :=
  client_ok subject (fp_retry request) bytes /\ fits 64 instance.

Lemma scoped_prepares v d subject instance request bytes : sound (v, d) -> fs_replacement_ok subject instance request bytes ->
  prepares v d (prepare_scoped v d subject instance request bytes).
Proof.
  intros H [C Hi]. unfold prepare_scoped, Volume_ready. destruct (vl_poisoned v) eqn:Hpo; [done|]. pose proof (rs_ok _ _ _ (sound_rest _ _ H Hpo)) as Hm. cbn in Hm.
  destruct (_ <? _)%nat; [done|]. pose proof (operation_total v subject (fp_workspace request) (fp_retry request)) as Ht.
  destruct (operation_by_retry _ _ _ _) as [old|e|] eqn:E; [destruct (_ || _); [done|apply replayed_prepares]| |done]. destruct e; try done.
  destruct (scoped_unseen _ _ _ _ E) as [r U]. pose proof (resolve_total v (fp_workspace request) (fp_id request)) as Ht'.
  destruct (Volume_resolve _ _ _) as [n'| |] eqn:Hr; [|done|done]. pose proof U as (Er & _). rewrite Er.
  destruct (position _ _) as [slot|] eqn:Hs; [|done]. cbn [ok_or]. destruct (checked_add _ _) as [q|] eqn:Hq; [|done]. cbn [ok_or].
  destruct (Z.ltb_spec q (choose_instance instance q)); [done|]. apply recorded_prepared; [done|by apply planned_total|].
  intros next first x _ _ Ep. eapply scoped_publishable; [exact Hm|exact U|exact C|exact Hr|exact Hi|exact Hs|exact Hq|lia|exact Ep].
Qed.

Lemma admission_prepares v d subject instance request bytes : sound (v, d) -> fs_replacement_ok subject instance request bytes ->
  prepares v d (prepare_admission v d subject instance request bytes).
Proof.
  intros H [C Hi]. unfold prepare_admission. destruct (Nat.ltb_spec MAX_FILE (length bytes)) as [|Hl]; [done|].
  pose proof (admission_retry_total v subject (fp_workspace request) (fp_retry request)) as Ht.
  destruct (admission_by_retry _ _ _ _) as [old|e|] eqn:E; [destruct (_ || _); [done|apply replayed_prepares]| |done]. destruct e; try done.
  pose proof (resolve_total v (fp_workspace request) (fp_id request)) as Ht'. destruct (Volume_resolve _ _ _) as [n'| |] eqn:Hr; [|done|done].
  pose proof (writable_total v (fp_id request)) as Hw. destruct (Volume_writable _ _) as [n| |] eqn:En; [|done|done].
  apply writable_spec in En as (Hpo & Hn & _). pose proof (rs_ok _ _ _ (sound_rest _ _ H Hpo)) as Hm. cbn in Hm.
  destruct (admission_unseen _ _ _ _ Hm E) as (r & U & Ha). unfold kind_is. destruct (negb _) eqn:Gk; [done|]. destruct (negb (_ =? _)) eqn:Gv; [done|]. bools.
  pose proof U as (Er & _). unfold Volume_admissions, Volume_ready. rewrite Hpo, Er, Ha.
  destruct (position _ _) as [slot|] eqn:Hs; [|done]. cbn [ok_or]. change (Volume_sequence v) with (m_sequence (vl_metadata v)).
  destruct (checked_add _ _) as [q|] eqn:Hq; [|done]. cbn [ok_or].
  destruct (Z.ltb_spec q (choose_instance instance q)); [done|]. cbn [admission_view rd_admission rd_namespace ok_or].
  eapply metadata_prepares; [done|done|done|]. eapply admission_publishable; [exact Hm|exact U|exact Ha|exact C|exact Hl|exact Hr|exact Hi|exact Hn|done|done|done|done|lia].
Qed.

Lemma with_admission_spec m r slot x a f : m_recovery m = Some r -> rv_records r !! slot = Some (Some x) -> rd_admission x = Some a ->
  with_admission m slot f = Ok (store_record m r slot (f x a)).
Proof. intros Hr Hx Ha. unfold with_admission. by rewrite Hr, Hx, Ha. Qed.

Lemma cancelled_prepares v d subject id reason : sound (v, d) ->
  (forall r, m_recovery (vl_metadata v) = Some r -> rv_reasons r = false -> reason = RUnknown) -> prepares v d (prepare_cancelled v d subject id reason).
Proof.
  intros H Hre. unfold prepare_cancelled, admission_by_id, admission_record. pose proof (admission_slot_total v subject id) as Ht.
  destruct (admission_slot v subject id) as [slot| |] eqn:Es; [|done|done].
  destruct (admission_slot_spec _ _ _ _ Es) as (r & x & a & Ea & Hx & Ha & _). rewrite Ea, Hx. unfold admission_view. rewrite Ha. cbn [ok_or].
  destruct (rd_namespace x); [|done]. cbn [ok_or av_status fs_state]. destruct (admissions_spec _ _ Ea) as (Hpo & Er & _).
  destruct (negb _) eqn:G; [apply replayed_prepares|]. bools. change (Volume_sequence v) with (m_sequence (vl_metadata v)).
  destruct (checked_add _ _) as [q|] eqn:Hq; [|done]. cbn [ok_or]. rewrite (with_admission_spec _ r slot x a) by done.
  eapply metadata_prepares; [done|done|done|]. eapply cancelled_publishable; try done; [by apply (rs_ok _ _ _ (sound_rest _ _ H Hpo))|by apply Hre].
Qed.

Lemma reasons_spec v b : prevention_reasons_enabled v = Ok b -> exists r, m_recovery (vl_metadata v) = Some r /\ rv_reasons r = b.
Proof. unfold prevention_reasons_enabled. intros H. steps H. injection H as <-. apply admissions_spec in E as (_ & ? & _). by exists a. Qed.

Lemma reasons_total v : prevention_reasons_enabled v <> Panic.
Proof. unfold prevention_reasons_enabled. pose proof (admissions_total v). by destruct (Volume_admissions v). Qed.

Lemma cancellation_prepares v d subject id : sound (v, d) -> prepares v d (prepare_cancellation v d subject id).
Proof.
  intros H. unfold prepare_cancellation. pose proof (reasons_total v). destruct (prevention_reasons_enabled v) as [b| |] eqn:E; [|done|done].
  apply cancelled_prepares; [done|]. intros r Hr Hb. destruct (reasons_spec _ _ E) as (r' & Hr' & <-). rewrite Hr in Hr'. injection Hr' as <-. by rewrite Hb.
Qed.

Lemma prevention_prepares v d subject id reason : sound (v, d) -> prepares v d (prepare_prevention v d subject id reason).
Proof.
  intros H. unfold prepare_prevention. pose proof (reasons_total v). destruct (prevention_reasons_enabled v) as [b| |] eqn:E; [|done|done].
  destruct (negb b) eqn:G; [done|]. bools. subst b. apply cancelled_prepares; [done|]. intros r Hr Hb. destruct (reasons_spec _ _ E) as (r' & Hr' & Hb'). congruence.
Qed.

Lemma admitted_prepares v d subject id : sound (v, d) -> prepares v d (prepare_admitted v d subject id).
Proof.
  intros H. unfold prepare_admitted, admission_record. pose proof (admission_slot_total v subject id) as Ht.
  destruct (admission_slot v subject id) as [slot| |] eqn:Es; [|done|done].
  destruct (admission_slot_spec _ _ _ _ Es) as (r & x & a & Ea & Hx & Ha & _). rewrite Ea, Hx. unfold admission_view. rewrite Ha. cbn [ok_or].
  destruct (rd_namespace x) as [ns|]; [|done]. cbn [ok_or av_status fs_state av_request fp_workspace av_bytes].
  destruct (admissions_spec _ _ Ea) as (Hpo & Er & _). pose proof (rs_ok _ _ _ (sound_rest _ _ H Hpo)) as Hm. cbn in Hm.
  destruct (so_state a) eqn:Hs; [|done|apply replayed_prepares].
  pose proof (resolve_total v (ns.1) (fr_id (rd_receipt x))) as Ht'. destruct (Volume_resolve _ _ _) as [n'| |] eqn:Hr; [|done|done].
  change (Volume_sequence v) with (m_sequence (vl_metadata v)). destruct (checked_add _ _) as [q|] eqn:Hq; [|done]. cbn [ok_or].
  rewrite (with_admission_spec _ r slot x a) by done. apply recorded_prepared; [done|by apply planned_total|].
  intros next first y _ _ Ep. eapply committed_publishable; [exact Hm|exact Er|exact Hx|exact Ha|exact Hs| |exact Hq|exact Ep].
  apply Forall_take. apply (vo_records _ _ _ (mo_recovery _ Hm r Er) slot x Hx).
Qed.
End Prepares.

(** ** The calls *)
Inductive volume_call :=
  | CallCreate (parent : Z) (name : list Z) (kind : Kind)
  | CallRemove (id : Z)
  | CallReplace (id version : Z) (bytes : list Z)
  | CallTracked (subject : Z) (retry : FsRetry) (id version : Z) (bytes : list Z)
  | CallScoped (subject instance : Z) (request : FsReplacement) (bytes : list Z)
  | CallAdmit (subject instance : Z) (request : FsReplacement) (bytes : list Z)
  | CallCancel (subject : Z) (id : FsAdmissionId)
  | CallPrevent (subject : Z) (id : FsAdmissionId) (reason : FsReason)
  | CallExecute (subject : Z) (id : FsAdmissionId)
  | CallRecovery (lineage : list Z)
  | CallOperations
  | CallAdmissions
  | CallReasons
  | CallEpoch
  | CallRead (id : Z) (expected : option Z) (offset output : nat).

(** The arguments are of their types: [u64], [&[u8]], [[u8; 16]]. *)
Definition call_ok (c : volume_call) : Prop :=
  match c with
  | CallReplace _ _ bytes => bytes_ok bytes
  | CallTracked subject retry _ _ bytes => client_ok subject retry bytes
  | CallScoped subject instance request bytes | CallAdmit subject instance request bytes => fs_replacement_ok subject instance request bytes
  | CallRecovery lineage => length lineage = 16%nat /\ bytes_ok lineage
  | _ => True
  end.

Definition forget {A} (r : outcome FsError A) : outcome FsError unit := match r with Ok _ => Ok tt | Err e => Err e | Panic => Panic end.

Section Calls.
Context {D : Type} {HD : Disk D}.

Definition forget_run {A} (o : option (outcome FsError A * (Volume * D))) : option (outcome FsError unit * (Volume * D)) :=
  match o with Some (r, w) => Some (forget r, w) | None => None end.

Definition perform (c : volume_call) (w : Volume * D) : option (outcome FsError unit * (Volume * D)) :=
  match c with
  | CallCreate parent name kind => forget_run (Some (Volume_create w parent name kind))
  | CallRemove id => Some (Volume_remove w id)
  | CallReplace id version bytes => forget_run (Volume_replace w id version bytes)
  | CallTracked subject retry id version bytes => forget_run (replace_tracked w subject retry id version bytes)
  | CallScoped subject instance request bytes => forget_run (replace_scoped w subject instance request bytes)
  | CallAdmit subject instance request bytes => forget_run (admit_replace w subject instance request bytes)
  | CallCancel subject id => forget_run (cancel_admission w subject id)
  | CallPrevent subject id reason => forget_run (prepared_run w (prepare_prevention (w.1) (w.2) subject id reason))
  | CallExecute subject id => forget_run (prepared_run w (prepare_admitted (w.1) (w.2) subject id))
  | CallRecovery lineage => Some (enable_recovery w lineage)
  | CallOperations => Some (enable_operations w)
  | CallAdmissions => Some (enable_admissions w)
  | CallReasons => Some (enable_prevention_reasons w)
  | CallEpoch => forget_run (Some (advance_epoch w))
  | CallRead id expected offset output =>
      let '(r, d) := Volume_read_versioned (w.1) (w.2) id expected offset output in Some (forget r, (w.1, d))
  end.
End Calls.

Section Transitions.
Context {D : Type} {HD : Disk D} {HV : DiskView D} {HW : ViewLaws D} {HL : DiskLaws D}.
Implicit Types (d : D) (v : Volume) (w : Volume * D).

(** The call returns, does not panic, and publishes a bounded number of generations. *)
Definition settles {T} w (r : outcome FsError T) w' : Prop := r <> Panic /\ rtc transition w w'.

Lemma settles_stay {T} w (r : outcome FsError T) : r <> Panic -> settles w r w.
Proof. intros H. split; [done|apply rtc_refl]. Qed.

Lemma settles_undisturbed {T} v d d' (r : outcome FsError T) : r <> Panic -> undisturbed d d' -> settles (v, d) r (v, d').
Proof. intros H U. split; [done|]. apply rtc_once. left. by split; [left|]. Qed.

Lemma rtc_sound w w' : sound w -> rtc transition w w' -> sound w'.
Proof. intros H. induction 1 as [|w x w' Hx _ IH]; [done|]. apply IH. by eapply transition_sound. Qed.

Lemma commit_settles v d next r w' : sound (v, d) -> vl_poisoned v = false ->
  (forall q, checked_add (m_sequence (vl_metadata v)) 1 = Some q -> metadata_ok (vl_metadata v) ->
     publishable (vl_metadata v) (set_sequence next q) 0 0 (zeros MAX_FILE)) ->
  Volume_commit (v, d) next = (r, w') ->
  settles (v, d) r w' /\
  (r = Ok tt -> exists q, checked_add (m_sequence (vl_metadata v)) 1 = Some q /\ w'.1 = mkVolume (set_sequence next q) (1 - vl_bank v) false).
Proof.
  intros H Hp HP E. pose proof (sound_rest _ _ H Hp) as Hr. destruct (checked_add (m_sequence (vl_metadata v)) 1) as [q|] eqn:Hq.
  - pose proof (HP q eq_refl (rs_ok _ _ _ Hr)) as Hpu. pose proof (commit_published v d next q r w' Hr Hq Hpu E) as Hw.
    destruct (published_transition v d _ _ _ _ tt r w' Hp Hpu Hw). split; [split; [done|by apply rtc_once]|]. intros ->. destruct Hw as (_ & ? & _). by exists q.
  - unfold Volume_commit in E. rewrite Hq in E. injection E as <- <-. split; [by apply settles_stay|done].
Qed.

Lemma create_settles w parent name kind r w' : sound w -> Volume_create w parent name kind = (r, w') -> settles w r w'.
Proof.
  destruct w as [v d]. intros H E. unfold Volume_create in E. cbn [fst] in E. pose proof (create_total v parent name kind).
  destruct (prepare_create _ _ _ _) as [[next n]|e|] eqn:Ep; [|by injection E as <- <-; apply settles_stay|done].
  assert (Hp : vl_poisoned v = false) by (unfold prepare_create in Ep; steps Ep; by apply writable_spec in E2 as [? _]).
  cbn [fst snd] in E. destruct (Volume_commit _ _) as [x w1] eqn:Ec.
  destruct (commit_settles v d next x w1 H Hp ltac:(intros q Hq Hm; by eapply create_publishable) Ec) as [[Hx Ht] _].
  destruct x; [| |done]; injection E as <- <-; by split.
Qed.

Lemma remove_settles w id r w' : sound w -> Volume_remove w id = (r, w') -> settles w r w'.
Proof.
  destruct w as [v d]. intros H E. unfold Volume_remove in E. cbn [fst] in E. pose proof (remove_total v id).
  destruct (prepare_remove v id) as [next|e|] eqn:Ep; [|by injection E as <- <-; apply settles_stay|done].
  assert (Hp : vl_poisoned v = false) by (unfold prepare_remove in Ep; steps Ep; by apply writable_spec in E0 as [? _]).
  eapply commit_settles; [exact H|exact Hp| |exact E]. intros q Hq Hm. by eapply remove_publishable.
Qed.

(** *** Format transitions *)
Lemma flags_ok q nx r (scoped admissions reasons : bool) : recovery_ok q nx r ->
  (reasons = true -> admissions = true) -> (admissions = true -> scoped = true) ->
  (rv_scoped r = true -> scoped = true) -> (rv_admissions r = true -> admissions = true) -> (rv_reasons r = true -> reasons = true) ->
  recovery_ok q nx (set_flags r scoped admissions reasons).
Proof.
  intros [L E F S R C] H1 H2 H3 H4 H5. split; [done|done|done|done| |done]. intros i x Hx. destruct (R i x Hx) as [Rf Rv Ra]. split; [done| |].
  - unfold values_bad in *. cbn. destruct (rd_namespace x) as [[w k]|]; [|done]. destruct (rv_scoped r); [by rewrite H3|].
    cbn in Rv. by rewrite !orb_true_r in Rv.
  - intros a Ha. destruct (Ra a Ha) as [A1 A2 A3 A4 A5 A6]. destruct F as [F1 F2]. destruct (version_of_flags r F1 F2) as (_ & _ & V4 & V5).
    assert (H6 : rv_admissions r = true) by (rewrite <- V4; by apply Z.leb_le).
    split; [unfold version_of, set_flags; cbn; rewrite (H4 H6); destruct reasons; done|done|done|done| |done]. intros Ev. apply A5.
    unfold version_of, set_flags in *. cbn in Ev. destruct reasons; [done|]. destruct (rv_reasons r); [by specialize (H5 eq_refl)|]. by rewrite H6.
Qed.

Lemma new_recovery_ok q nx lineage r : length lineage = 16%nat -> bytes_ok lineage -> 1 <= q -> Recovery_new lineage = Ok r -> recovery_ok q nx r.
Proof.
  unfold Recovery_new. intros Hl Hb Hq H. destruct (bool_decide _) eqn:E; [done|]. injection H as <-. apply bool_decide_eq_false in E. split; cbn; try done; try lia.
  - intros i x Hx. destruct i as [|[|]]; done.
  - intros i j x y _ Hx. destruct i as [|[|]]; done.
Qed.

Lemma check_scratch_quiet fuel d sector expected r d' : check_scratch fuel d sector expected = (r, d') -> r <> Panic /\ undisturbed d d'.
Proof.
  revert d sector. induction fuel as [|fuel IH]; intros d sector E; [injection E as <- <-; split; [done|apply undisturbed_refl]|]. cbn [check_scratch] in E.
  destruct (disk_read d sector) as [x d1] eqn:Er. destruct (read_law _ _ _ _ Er) as [U Hx].
  destruct x as [b|e|]; [|by injection E as <- <-|done]. destruct (scratch_bad _ _); [by injection E as <- <-|].
  destruct (IH _ _ E) as [? U']. split; [done|by eapply undisturbed_trans].
Qed.

Lemma recovery_settles w lineage r w' : sound w -> length lineage = 16%nat -> bytes_ok lineage -> enable_recovery w lineage = (r, w') -> settles w r w'.
Proof.
  destruct w as [v d]. intros H Hl Hb E. unfold enable_recovery, Volume_ready in E.
  destruct (vl_poisoned v) eqn:Hp; [by injection E as <- <-; apply settles_stay|].
  destruct (m_recovery (vl_metadata v)) as [r0|] eqn:Er; [injection E as <- <-; apply settles_stay; by destruct (bool_decide _)|].
  destruct (Recovery_new lineage) as [init|e|] eqn:En; [|by injection E as <- <-; apply settles_stay|by unfold Recovery_new in En; destruct (bool_decide _)].
  destruct (check_scratch _ _ _ _) as [x d1] eqn:Ec. destruct (check_scratch_quiet _ _ _ _ _ _ Ec) as [Hx U].
  destruct x; [|by injection E as <- <-; apply settles_undisturbed|done].
  pose proof (undisturbed_sound v d d1 U H) as H1. eapply commit_settles in E as [[E1 E2] _]; [| |done|].
  - split; [done|]. eapply rtc_l; [|exact E2]. left. by split; [left|].
  - done.
  - intros q Hq Hm. apply recovery_publishable; [done|done|]. destruct (next_sequence _ _ Hm Hq) as (_ & _ & ?). split; [eapply new_recovery_ok; [done|done|lia|done]|]. intros ? Hx0. by rewrite Er in Hx0.
Qed.

(** Republishing the current metadata. *)
Lemma same_publishable m q : metadata_ok m -> checked_add (m_sequence m) 1 = Some q -> publishable m (set_sequence m q) 0 0 (zeros MAX_FILE).
Proof.
  intros H Hq. destruct (next_sequence _ q H Hq) as (Fq & Eq & Hq0). split; [|cbn; lia|by apply table_evolves, same_records|by apply placed_same|by apply table_intact].
  apply (metadata_recovery m q (m_recovery m)); [done|lia|done|]. intros r Hr. eapply recovery_later; [| |by apply (mo_recovery _ H)]; lia.
Qed.

Lemma bank_read_quiet d bank r d' : Metadata_read d bank = (r, d') -> r <> Panic /\ undisturbed d d'.
Proof.
  intros E. destruct (Metadata_read_reads d bank) as [U Hr]. rewrite E in U, Hr. cbn in U, Hr. split; [|done].
  pose proof (read_image_refusal (contents d) bank (contents_ok d)) as Hx. destruct Hr as [-> | (e & -> & _)]; [by destruct (read_image _ _)|done].
Qed.

Lemma complete_settles v d f r w' : sound (v, d) -> vl_poisoned v = false -> complete_both (v, d) f = (r, w') -> settles (v, d) r w'.
Proof.
  intros H Hp E. unfold complete_both in E. destruct (Metadata_read _ _) as [x d1] eqn:Er. destruct (bank_read_quiet _ _ _ _ Er) as [Hx U].
  pose proof (undisturbed_sound v d d1 U H) as H1.
  assert (Hc : forall r w', Volume_commit (v, d1) (vl_metadata v) = (r, w') -> settles (v, d) r w').
  { intros r1 w1 Ec. eapply commit_settles in Ec as [[E1 E2] _]; [| |done|]; [split; [done|]; eapply rtc_l; [|exact E2]; left; by split; [left|]|done|].
    intros q Hq Hm. by apply same_publishable. }
  destruct x as [other|e|]; [| |done].
  - destruct (is_some_and _ _); [injection E as <- <-; by apply settles_undisturbed|by apply Hc].
  - destruct (invalid_bank e); [by apply Hc|]. injection E as <- <-. split; [done|]. apply rtc_once. left. by split; [right|].
Qed.

Lemma upgrade_settles v d r0 r' f r w' : sound (v, d) -> vl_poisoned v = false ->
  (forall q, metadata_ok (vl_metadata v) -> checked_add (m_sequence (vl_metadata v)) 1 = Some q -> succeeds (vl_metadata v) q r') ->
  upgrade (v, d) r0 r' f = (r, w') -> settles (v, d) r w'.
Proof.
  intros H Hp Hr' E. unfold upgrade in E. destruct (f r0); [by eapply complete_settles|]. cbn [fst] in E.
  destruct (Volume_commit _ _) as [x w1] eqn:Ec. eapply commit_settles in Ec as [[Hx Ht] Hok]; [|exact H|exact Hp|].
  - destruct x as [[]|e|]; [|by injection E as <- <-|done]. destruct (Hok eq_refl) as (q & _ & Ew). pose proof (rtc_sound _ _ H Ht) as H1.
    destruct w1 as [v1 d1]. cbn in Ew. subst v1. destruct (complete_settles _ _ _ _ _ H1 eq_refl E) as [? ?]. split; [done|]. by etrans.
  - intros q Hq Hm. apply recovery_publishable; [done|done|]. by apply Hr'.
Qed.

Lemma flags_publishable v r scoped admissions reasons q : metadata_ok (vl_metadata v) -> m_recovery (vl_metadata v) = Some r ->
  checked_add (m_sequence (vl_metadata v)) 1 = Some q ->
  (reasons = true -> admissions = true) -> (admissions = true -> scoped = true) ->
  (rv_scoped r = true -> scoped = true) -> (rv_admissions r = true -> admissions = true) -> (rv_reasons r = true -> reasons = true) ->
  succeeds (vl_metadata v) q (set_flags r scoped admissions reasons).
Proof.
  intros H Hr Hq. intros. split; [|intros r0 Hr0; rewrite Hr in Hr0; injection Hr0 as <-; by apply records_evolve_same]. destruct (next_sequence _ _ H Hq) as (_ & -> & _). apply flags_ok; try done.
  eapply recovery_later; [| |by apply (mo_recovery _ H)]; lia.
Qed.

Lemma operations_settles w r w' : sound w -> enable_operations w = (r, w') -> settles w r w'.
Proof.
  destruct w as [v d]. intros H E. unfold enable_operations, Volume_ready in E. cbn [fst] in E.
  destruct (vl_poisoned v) eqn:Hp; [by injection E as <- <-; apply settles_stay|].
  destruct (m_recovery (vl_metadata v)) as [r0|] eqn:Er; [|by injection E as <- <-; apply settles_stay]. cbn [ok_or] in E.
  eapply upgrade_settles; [exact H|exact Hp| |exact E]. intros q Hm Hq. destruct (vo_flags _ _ _ (mo_recovery _ Hm r0 Er)). by apply flags_publishable.
Qed.

Lemma enable_admissions_settles w r w' : sound w -> enable_admissions w = (r, w') -> settles w r w'.
Proof.
  destruct w as [v d]. intros H E. unfold enable_admissions, Volume_ready in E. cbn [fst] in E.
  destruct (vl_poisoned v) eqn:Hp; [by injection E as <- <-; apply settles_stay|].
  destruct (m_recovery (vl_metadata v)) as [r0|] eqn:Er; [|by injection E as <- <-; apply settles_stay].
  destruct (rv_scoped r0) eqn:Es; [|by injection E as <- <-; apply settles_stay].
  eapply upgrade_settles; [exact H|exact Hp| |exact E]. intros q Hm Hq. by apply flags_publishable.
Qed.

Lemma reasons_settles w r w' : sound w -> enable_prevention_reasons w = (r, w') -> settles w r w'.
Proof.
  destruct w as [v d]. intros H E. unfold enable_prevention_reasons in E. cbn [fst] in E. pose proof (admissions_total v) as Ht.
  destruct (Volume_admissions v) as [r0|e|] eqn:Ea; [|by injection E as <- <-; apply settles_stay|done].
  apply admissions_spec in Ea as (Hp & Er & Ha). eapply upgrade_settles; [exact H|exact Hp| |exact E]. intros q Hm Hq.
  destruct (vo_flags _ _ _ (mo_recovery _ Hm r0 Er)). by apply flags_publishable.
Qed.

(** A new epoch forgets the retained records. *)
Lemma epoch_ok q nx r epoch : recovery_ok q nx r -> checked_add (rv_epoch r) 1 = Some epoch ->
  recovery_ok (q + 1) nx (mkRecovery (rv_lineage r) epoch (rv_scoped r) (rv_admissions r) (rv_reasons r) (replicate RETAINED None)).
Proof.
  intros [L [E1 E2] F S R C] [-> He]%checked_add_Some. split; cbn; try done.
  - unfold fits, u64_max in *. lia.
  - intros i x Hx. destruct i as [|[|]]; done.
  - intros i j x y _ Hx. destruct i as [|[|]]; done.
Qed.

Lemma epoch_settles w r w' : sound w -> advance_epoch w = (r, w') -> settles w r w'.
Proof.
  destruct w as [v d]. intros H E. unfold advance_epoch, Volume_ready in E. cbn [fst] in E.
  destruct (vl_poisoned v) eqn:Hp; [by injection E as <- <-; apply settles_stay|].
  destruct (m_recovery (vl_metadata v)) as [r0|] eqn:Er; [|by injection E as <- <-; apply settles_stay]. cbn [ok_or] in E.
  destruct (existsb _ _); [by injection E as <- <-; apply settles_stay|].
  destruct (checked_add (rv_epoch r0) 1) as [epoch|] eqn:Ee; [|by injection E as <- <-; apply settles_stay]. cbn [ok_or] in E.
  destruct (Volume_commit _ _) as [x w1] eqn:Ec. eapply commit_settles in Ec as [[Hx Ht] _]; [|exact H|exact Hp|].
  - destruct x; [| |done]; injection E as <- <-; by split.
  - intros q Hq Hm. apply recovery_publishable; [done|done|]. destruct (next_sequence _ _ Hm Hq) as (_ & -> & _). split; [by apply epoch_ok, Ee; apply (mo_recovery _ Hm)|].
    intros r1 Hr1. rewrite Er in Hr1. injection Hr1 as <-. split; [done|]. left. cbn. apply checked_add_Some in Ee as [-> _]. lia.
Qed.

(** *** Recorded replacements *)
Lemma run_settles {T} v d (o : outcome FsError (Publication D T)) : sound (v, d) -> prepares v d o ->
  exists r w, prepared_run (v, d) o = Some (r, w) /\ settles (v, d) r w.
Proof.
  intros H Hp. destruct (prepared_run_transition v d o H Hp) as (r & w & E & Hr & Ht). exists r, w. split; [done|]. split; [done|by apply rtc_once].
Qed.

Lemma find_total r subject retry : Recovery_find r subject retry <> Panic.
Proof. unfold Recovery_find. destruct (_ || _); [done|]. destruct (negb _); [done|]. destruct (List.find _ _); [done|]. by destruct (negb _). Qed.

Lemma tracked_settles v d subject retry id version bytes : sound (v, d) -> client_ok subject retry bytes ->
  exists r w, replace_tracked (v, d) subject retry id version bytes = Some (r, w) /\ settles (v, d) r w.
Proof.
  intros H C. unfold replace_tracked, Volume_ready.
  assert (Hs : forall r : outcome FsError FsReceipt, r <> Panic -> exists r' w, Some (r, (v, d)) = Some (r', w) /\ settles (v, d) r' w)
    by (intros r Hr; exists r, (v, d); split; [done|by apply settles_stay]).
  destruct (vl_poisoned v) eqn:Hp; [by apply Hs|]. destruct (_ <? _)%nat; [by apply Hs|].
  destruct (m_recovery (vl_metadata v)) as [r|] eqn:Er; [|by apply Hs]. cbn [ok_or]. pose proof (find_total r subject retry) as Ht.
  destruct (Recovery_find r subject retry) as [[x|]|e|] eqn:Ef; [destruct (_ || _); by apply Hs| |by apply Hs|done].
  destruct (position _ _) as [slot|] eqn:Hpos; [|by apply Hs]. cbn [ok_or]. destruct (checked_add _ _) as [q|] eqn:Hq; [|by apply Hs]. cbn [ok_or].
  unfold replace_recorded. cbn [fst snd]. match goal with |- context [prepared_run _ ?o] => destruct (run_settles v d o H) as (r0 & w0 & -> & Hr0 & Ht0) end.
  - apply recorded_prepared; [done|by apply planned_total|]. intros next first x _ Hm E. by eapply tracked_publishable.
  - destruct r0; [| |done]; eexists _, w0; (split; [done|by split]).
Qed.

(** *** Reads *)
Lemma read_sectors_quiet d start count r d' : read_sectors d start count = (r, d') -> r <> Panic /\ undisturbed d d'.
Proof.
  intros E. destruct (read_sectors_reads d start count (contents d) ltac:(done)) as [U Hr]. rewrite E in U, Hr. cbn in *.
  split; [|done]. by destruct Hr as [-> | (e & -> & _)].
Qed.

Lemma read_settles v d id expected offset output r d' : Volume_read_versioned v d id expected offset output = (r, d') -> settles (v, d) r (v, d').
Proof.
  intros E. unfold Volume_read_versioned in E. pose proof (stat_total v id) as Ht.
  destruct (Volume_stat v id) as [n|e|]; [|by injection E as <- <-; apply settles_stay|done].
  destruct (match expected with Some _ => _ | None => _ end); [by injection E as <- <-; apply settles_stay|].
  destruct (negb _); [by injection E as <- <-; apply settles_stay|]. destruct (_ <? _)%nat; [by injection E as <- <-; apply settles_stay|].
  destruct (_ =? _); [by injection E as <- <-; apply settles_stay|]. pose proof (index_total (vl_metadata v) id) as Hi.
  destruct (Metadata_index _ _) as [slot|e|]; [|by injection E as <- <-; apply settles_stay|done].
  destruct (read_sectors _ _ _) as [x d1] eqn:Es. destruct (read_sectors_quiet _ _ _ _ _ Es) as [Hx U].
  destruct x as [b|e|]; [|by injection E as <- <-; apply settles_undisturbed|done].
  destruct (negb _); injection E as <- <-; by apply settles_undisturbed.
Qed.

(** *** Every call *)
Lemma forget_settles {A} w (r : outcome FsError A) w' : settles w r w' -> settles w (forget r) w'.
Proof. intros [H1 H2]. split; [by destruct r|done]. Qed.

Lemma forget_run_settles {A} w (o : option (outcome FsError A * (Volume * D))) : (exists r w', o = Some (r, w') /\ settles w r w') ->
  exists r w', forget_run o = Some (r, w') /\ settles w r w'.
Proof. intros (r & w' & -> & H). eexists _, _. split; [done|by apply forget_settles]. Qed.

Lemma perform_settles c w : sound w -> call_ok c -> exists r w', perform c w = Some (r, w') /\ settles w r w'.
Proof.
  intros H Hc.
  assert (Hd : forall T (x : outcome FsError T * (Volume * D)), (forall r w', x = (r, w') -> settles w r w') ->
    exists r w', Some x = Some (r, w') /\ settles w r w').
  { intros T [r w'] Hx. exists r, w'. split; [done|by apply Hx]. }
  destruct w as [v d]. destruct c; cbn [perform call_ok] in *;
    repeat match goal with |- context [forget_run _] => apply forget_run_settles end; try apply Hd; try (intros r w' E).
  - by eapply create_settles.
  - by eapply remove_settles.
  - by apply run_settles, replace_prepares.
  - by apply tracked_settles.
  - by apply run_settles, scoped_prepares.
  - by apply run_settles, admission_prepares.
  - by apply run_settles, cancellation_prepares.
  - by apply run_settles, prevention_prepares.
  - by apply run_settles, admitted_prepares.
  - eapply recovery_settles; [done|apply Hc|apply Hc|done].
  - by eapply operations_settles.
  - by eapply enable_admissions_settles.
  - by eapply reasons_settles.
  - by eapply epoch_settles.
  - cbn [fst snd]. destruct (Volume_read_versioned _ _ _ _ _ _) as [r d'] eqn:E. exists (forget r), (v, d'). split; [done|].
    eapply forget_settles, read_settles, E.
Qed.
End Transitions.

(** ** Mounting and initialising a volume

    Mounting the image that survived a stop gives back the generation it
    holds; initialising a blank device gives a sound volume. *)
(** ** The initial metadata *)
Lemma initial_roots_valid i names l : 0 <= i -> i + Z.of_nat (length names) <= 4 -> initial_roots i names = Ok l -> Forall Node_valid l.
Proof.
  revert i l. induction names as [|name names IH]; intros i l Hi Hl E; cbn [initial_roots length] in *; [injection E as <-; constructor|].
  destruct (Node_new _ _ _ _ _ _) as [n| |] eqn:En; [|done..]. destruct (initial_roots (i + 1) names) as [rest| |] eqn:Er; [|done..].
  injection E as <-. constructor; [|eapply (IH (i + 1)); [lia|lia|done]]. right. assert (0 < i + 1 < 2 ^ 32) by lia.
  eapply new_node_ok; [done|done|unfold fits; lia|lia|by vm_compute|lia|by vm_compute|done].
Qed.

Lemma initial_ok : exists m, Metadata_initial = Ok m /\ metadata_ok m /\ m_recovery m = None /\ m_sequence m = 1 /\
  Forall (fun x => n_kind x <> KFile) (m_nodes m).
Proof.
  destruct Metadata_initial as [m| |] eqn:E; [|by vm_compute in E..]. exists m. split; [done|]. pose proof E as E'. unfold Metadata_initial in E.
  destruct (initial_roots 0 root_names) as [roots| |] eqn:Er; [|done..]. injection E as Em.
  pose proof (initial_roots_valid 0 root_names roots ltac:(lia) ltac:(done) Er) as V. vm_compute in E', Er. injection Er as Er.
  split; [|split; [by subst m|split; [by subst m|subst m roots; repeat (constructor; [done|]); constructor]]].
  split; [by subst m|by subst m|by subst m roots|subst m; apply Forall_app; split; [done|repeat (constructor; [by left|]); constructor]| |by subst m].
  injection E' as <-. by vm_compute.
Qed.

Section Mount.
Context {D : Type} {HD : Disk D} {HV : DiskView D} {HW : ViewLaws D} {HL : DiskLaws D}.
Implicit Types (d : D) (v : Volume) (w : Volume * D).

(** ** Writing a bank to completion *)
Lemma command_places m bank j n b : is_bank bank -> Metadata_command m bank j = Ok (CWrite n b) ->
  (is_scoped m = true /\ (j < 7)%nat /\ n = records_sector bank + Z.of_nat j) \/
  (exists i, j = ((if is_scoped m then 7 else 0) + i)%nat /\ ((i < 4)%nat /\ n = header_sector bank + 1 + Z.of_nat i \/ i = 5%nat /\ n = header_sector bank)).
Proof.
  unfold Metadata_command. intros Hb H. destruct (is_scoped m) eqn:Es; cbn [negb] in *.
  - destruct (Nat.ltb_spec j 7); [left; destruct (m_recovery m); [|done]; by injection H as <- _|]. right. exists (j - 7)%nat. split; [lia|].
    destruct (Nat.leb_spec (j - 7) 3); [left; injection H as <- _; lia|]. destruct (_ || _); [done|].
    destruct (Nat.eqb_spec (j - 7) 5); [|done]. right. by injection H as <- _.
  - destruct (Nat.ltb_spec j 0); [lia|]. right. exists j. rewrite Nat.sub_0_r in H. split; [lia|].
    destruct (Nat.leb_spec j 3); [left; injection H as <- _; lia|]. destruct (_ || _); [done|].
    destruct (Nat.eqb_spec j 5); [|done]. right. by injection H as <- _.
Qed.

Lemma commands_apart m bank j k n b x y : is_bank bank -> Metadata_command m bank j = Ok (CWrite n b) -> Metadata_command m bank k = Ok (CWrite x y) ->
  j <> k -> x <> n.
Proof.
  intros Hb H1 H2 Hjk ->. apply command_places in H1, H2; [|done..]. unfold records_sector, header_sector in *.
  destruct H1 as [(? & ? & ?)|(i & ? & [[? ?]|[? ?]])]; destruct H2 as [(? & ? & ?)|(i' & ? & [[? ?]|[? ?]])]; destruct Hb as [-> | ->]; lia.
Qed.

Lemma write_loop_contents m bank todo d step d' : is_bank bank -> (forall j c, Metadata_command m bank j = Ok c -> command_ok c) ->
  write_loop m d bank step todo = (Ok tt, d') ->
  (forall j n b, (step <= j < step + todo)%nat -> Metadata_command m bank j = Ok (CWrite n b) -> contents d' n = b) /\
  (forall n, (forall j b, (step <= j < step + todo)%nat -> Metadata_command m bank j <> Ok (CWrite n b)) -> contents d' n = contents d n) /\
  (forall j, (step + todo = S j)%nat -> (0 < todo)%nat -> Metadata_command m bank j = Ok CFlush -> forall n x, may_survive d' n x -> x = contents d' n).
Proof.
  intros Hb Hc. revert d step. induction todo as [|todo IH]; intros d step E; [injection E as <-; split; [lia|split; [done|lia]]|].
  cbn [write_loop] in E. unfold write_step in E. destruct (Metadata_command m bank step) as [c| |] eqn:Em; [|done..].
  destruct (Command_execute c d) as [x d1] eqn:Ex. pose proof (command_law _ _ _ _ (Hc _ _ Em) Ex) as Hlaw. destruct x as [[]| |]; [|done..].
  destruct (IH d1 (S step) E) as (I1 & I2 & I3). split; [|split].
  - intros j n b Hj Hm. destruct (decide (j = step)) as [->|]; [|apply (I1 j n b); [lia|done]]. rewrite Em in Hm. injection Hm as ->.
    destruct Hlaw as [Hb1 _]. rewrite <- Hb1. apply I2. intros k y Hk Hm. apply (commands_apart m bank step k n b n y); [done|exact Em|exact Hm|lia|done].
  - intros n Hn. rewrite I2 by (intros j b Hj; apply (Hn j b); lia). destruct c as [k b|]; [|by destruct Hlaw].
    destruct Hlaw as (_ & H2 & _). apply H2. intros <-. apply (Hn step b); [lia|done].
  - intros j Hj _ Hm n x Hx. destruct todo as [|todo]; [|by apply (I3 j); [lia|lia|done|]]. injection E as <-.
    assert (j = step) as -> by lia. rewrite Em in Hm. injection Hm as ->. destruct Hlaw as [L1 L2]. by rewrite L1; apply L2.
Qed.

Lemma bank_commands_ok m bank j c : is_bank bank -> metadata_ok m -> Metadata_command m bank j = Ok c -> command_ok c.
Proof.
  intros Hb H E. destruct (Nat.lt_ge_cases j (write_steps m)) as [Hj|Hj].
  - rewrite Metadata_command_spec in E by done. injection E as <-. destruct (meta_writes m bank !! j) as [[n b]|] eqn:El.
    + apply list_elem_of_lookup_2 in El. replace bank with (1 - (1 - bank)) in El by lia.
      eapply (prepared_sector m m (1 - bank) 0 0 []); [done|by apply placed_same|].
      unfold prepared. apply elem_of_app. right. exact El.
    + destruct (_ =? _)%nat; [by destruct (publication_header_fields _ H)|done].
  - unfold Metadata_command, write_steps in *. destruct (is_scoped m).
    + destruct (Nat.ltb_spec j 7); [lia|]. destruct (Nat.leb_spec (j - 7) 3); [lia|]. destruct (_ || _); [by injection E as <-|].
      destruct (Nat.eqb_spec (j - 7) 5); [lia|done].
    + destruct (Nat.ltb_spec j 0); [lia|]. rewrite Nat.sub_0_r in E. destruct (Nat.leb_spec j 3); [lia|]. destruct (_ || _); [by injection E as <-|].
      destruct (Nat.eqb_spec j 5); [lia|done].
Qed.

(** A bank written to completion beside a blank one holds the volume's generation. *)
Lemma write_rests m d d' : metadata_ok m -> contents d (header_sector 1) = zeros 512 ->
  Metadata_write m d 0 = (Ok tt, d') -> rests_on d' m 0.
Proof.
  intros H H1 E. assert (Hb : is_bank 0) by by left. unfold Metadata_write in E.
  destruct (write_loop_contents m 0 _ _ _ _ Hb (fun j c => bank_commands_ok m 0 j c Hb H) E) as (W & Keep & Dur).
  pose proof (write_steps_range m) as Hr. assert (Hf : Metadata_command m 0 (write_steps m - 1) = Ok CFlush).
  { unfold Metadata_command, write_steps. by destruct (is_scoped m). }
  assert (Hh : contents d' (header_sector 0) = publication_header m).
  { apply (W (write_steps m - 2)%nat); [lia|]. unfold Metadata_command, write_steps. by destruct (is_scoped m). }
  assert (Hread : read_image (contents d') 0 = Ok m).
  { apply (prepared_reads m 1 0 0 []); [done|exact Hh|]. intros n b Hn. change (1 - 1) with 0 in Hn.
    unfold prepared in Hn. cbn [data_writes Nat.eqb app] in Hn. apply list_elem_of_lookup in Hn as [j Hj].
    pose proof (lookup_lt_Some _ _ _ Hj) as Hl. rewrite length_meta_writes in Hl. apply (W j); [lia|]. rewrite Metadata_command_spec by lia. by rewrite Hj. }
  assert (Hdur : forall n x, may_survive d' n x -> x = contents d' n)
    by (intros n x Hx; apply (Dur (write_steps m - 1)%nat); [lia|lia|done|done]).
  assert (Hold : stale (contents d') 1 (m_sequence m)).
  { intros t x Ht Et Hx. unfold read_image in Hx. rewrite Et, Keep, H1 in Hx; [done|]. intros j b _ Hm.
    apply command_places in Hm; [|done]. unfold header_sector, records_sector in Hm. destruct Hm as [(_ & _ & ?)|(i & _ & [[? ?]|[? ?]])]; lia. }
  split; [done|done|by split|by intros n x _; apply Hdur|]. change (1 - 0) with 1. intros x ->%Hdur. exact Hold.
Qed.

(** ** Initialisation *)
Lemma lineage_parse_ok b l : is_sector b -> lineage_parse b = Ok (Some l) -> length l = 16%nat /\ bytes_ok l.
Proof.
  intros [L B]. unfold lineage_parse. destruct (bool_decide _); [done|]. destruct (_ || _); [done|]. intros [= <-].
  assert (length (write b 24 (zeros 4)) = 512%nat) by (rewrite length_write; [done|rewrite L, length_zeros; lia]).
  split; [|by apply bytes_ok_slice, bytes_ok_write; [|apply bytes_ok_zeros]]. by eapply length_slice_at; [eassumption|lia|].
Qed.

Lemma lineage_total b : lineage_parse b <> Panic.
Proof. unfold lineage_parse. destruct (bool_decide _); [done|]. by destruct (_ || _). Qed.

Lemma provision_quiet d r d' : provision_lineage d = (r, d') ->
  undisturbed d d' /\ (r = lineage_parse (contents d 1) \/ exists e, r = Err e /\ device_error e).
Proof.
  unfold provision_lineage. destruct (disk_read d 1) as [x d1] eqn:E. destruct (read_law _ _ _ _ E) as [U Hx].
  destruct x as [b|e|]; [|intros [= <- <-]; split; [done|right; by exists e]|done]. intros [= <- <-]. split; [done|]. left. by rewrite Hx.
Qed.

Lemma check_blank_quiet fuel d sector skip r d' : check_blank fuel d sector skip = (r, d') ->
  r <> Panic /\ undisturbed d d' /\
  (r = Ok tt -> forall n, sector <= n < sector + Z.of_nat fuel -> n <> 1 -> contents d n = zeros 512).
Proof.
  revert d sector. induction fuel as [|fuel IH]; intros d sector E; [injection E as <- <-; split; [done|split; [apply undisturbed_refl|lia]]|].
  cbn [check_blank] in E. destruct ((sector =? 1) && skip) eqn:G.
  - bools. destruct (IH _ _ E) as (H1 & H2 & H3). split; [done|]. split; [done|]. intros Hr n Hn Hn1. apply (H3 Hr); [lia|done].
  - destruct (disk_read d sector) as [x d1] eqn:Er. destruct (read_law _ _ _ _ Er) as [U Hx].
    destruct x as [b|e|]; [|by injection E as <- <-|done]. destruct (bool_decide _) eqn:Gb; [|by injection E as <- <-]. bools.
    destruct (IH _ _ E) as (H1 & H2 & H3). split; [done|]. split; [by eapply undisturbed_trans|]. intros Hr n Hn Hn1.
    destruct (decide (n = sector)) as [->|]; [congruence|]. destruct U as [<- _]. apply (H3 Hr); [lia|done].
Qed.

Lemma write_loop_total m d bank step todo : metadata_ok m -> is_bank bank -> (step + todo <= write_steps m)%nat -> (write_loop m d bank step todo).1 <> Panic.
Proof.
  intros H Hb. revert d step. induction todo as [|todo IH]; intros d step Hs; [done|]. cbn [write_loop]. unfold write_step.
  rewrite Metadata_command_spec by lia. destruct (Command_execute _ d) as [x d1] eqn:Ex.
  pose proof (command_law _ _ _ _ (bank_commands_ok m bank step _ Hb H (Metadata_command_spec m bank step ltac:(lia))) Ex) as Hlaw.
  destruct x as [[]| |]; [apply IH; lia|done|done].
Qed.

Lemma initialize_spec d r d' : Volume_initialize d = (r, d') ->
  match r with
  | Ok v => sound (v, d') /\ vl_poisoned v = false /\
            exists m, Metadata_initial = Ok m /\ m_nodes (vl_metadata v) = m_nodes m /\ m_sequence (vl_metadata v) = 1
  | Err _ => True
  | Panic => False
  end.
Proof.
  unfold Volume_initialize. destruct (provision_lineage d) as [l d1] eqn:El. destruct (provision_quiet _ _ _ El) as [U1 Hl].
  destruct l as [l|e|]; [|by intros [= <- <-]|destruct Hl as [Hl|(? & ? & _)]; [by destruct (lineage_total (contents d 1))|done]].
  destruct Hl as [Hl|(? & ? & _)]; [|done]. destruct (check_blank _ _ _ _) as [x d2] eqn:Ec. destruct (check_blank_quiet _ _ _ _ _ _ Ec) as (Hx & U2 & Hz).
  destruct x as [[]|e|]; [|by intros [= <- <-]|done]. destruct initial_ok as (m & Em & Hm & Hr0 & Hs & Hk). rewrite Em.
  set (recovery := match l with None => Ok None | Some l => _ end).
  assert (Hrec : match recovery with Ok o => forall x, o = Some x -> recovery_ok 1 (m_next m) x | Err _ => True | Panic => False end).
  { unfold recovery. destruct l as [l|]; [|done]. symmetry in Hl. apply lineage_parse_ok in Hl as [L B]; [|apply contents_ok].
    destruct (Recovery_new l) as [y| |] eqn:En; [|done|by unfold Recovery_new in En; destruct (bool_decide _)]. intros ? [= <-]. by eapply new_recovery_ok. }
  destruct recovery as [o|e|]; [|by intros [= <- <-]|done].
  assert (Hm' : metadata_ok (set_recovery m o)).
  { apply (metadata_recovery m (m_sequence m) o); [done|lia|apply Hm|]. rewrite Hs. exact Hrec. }
  destruct (Metadata_write (set_recovery m o) d2 0) as [y d3] eqn:Ew. destruct y as [[]|e|]; intros [= <- <-]; [|done|].
  - split; [|split; [done|by exists m]]. apply rests_sound; [|intros slot y Hy Hf; rewrite Forall_lookup in Hk; by destruct (Hk slot y Hy)].
    eapply write_rests; [done| |exact Ew]. destruct U2 as [-> _]. apply (Hz eq_refl); [|done].
    change (Z.of_nat (Z.to_nat SECTORS)) with 174. unfold header_sector. lia.
  - unfold Metadata_write in Ew. pose proof (write_loop_total (set_recovery m o) d2 0 0 (write_steps (set_recovery m o)) Hm' ltac:(by left) ltac:(lia)) as Hw.
    by rewrite Ew in Hw.
Qed.

(** ** Mounting *)

(** The provision sector is blank, or names the lineage the volume records. *)
Definition provisioned_for (b : list Z) (m : Metadata) : Prop :=
  lineage_parse b = Ok None \/ exists r, m_recovery m = Some r /\ lineage_parse b = Ok (Some (rv_lineage r)).

Lemma mount_spec d m bank r d' : sound (mkVolume m bank false, d) -> Volume_mount d = (r, d') ->
  (exists w, rtc transition (mkVolume m bank false, d) w /\ w.2 = d' /\ forall v, r = Ok v -> w.1 = v /\ vl_poisoned v = false) /\ r <> Panic /\
  (provisioned_for (contents d 1) m -> r = Ok (mkVolume m bank false) \/ exists e, r = Err e /\ device_error e).
Proof.
  intros Hs E. pose proof (sound_rest _ _ Hs eq_refl) as H. cbn in H. unfold Volume_mount in E. pose proof (Metadata_read_reads d 0) as R0. destruct (Metadata_read d 0) as [a d1]. destruct R0 as [U0 R0]. cbn [fst snd] in *.
  pose proof (Metadata_read_reads d1 1) as R1. destruct (Metadata_read d1 1) as [b d2]. destruct R1 as [U1 R1]. cbn [fst snd] in *.
  pose proof (undisturbed_trans _ _ _ U0 U1) as U.
  assert (Hst : forall (r : outcome FsError Volume) d', undisturbed d d' -> (forall v, r <> Ok v) ->
    exists w, rtc transition (mkVolume m bank false, d) w /\ w.2 = d' /\ forall v, r = Ok v -> w.1 = v /\ vl_poisoned v = false).
  { intros r0 d0 Ud Hr. exists (mkVolume m bank false, d0). split; [apply rtc_once; left; by split; [left|]|]. split; [done|]. intros v Hv. by destruct (Hr v). }
  assert (Hpick : pick_generation a b = Ok (m, bank) \/ exists e, pick_generation a b = Err e /\ device_error e).
  { pose proof (generation_picked (contents d) m bank (contents_ok d) (rs_bank _ _ _ H) (rs_generation _ _ _ H)) as Hg.
    rewrite (read_image_ext (contents d1) (contents d) 1) in R1 by (intros n _; apply U0).
    pose proof (read_image_refusal (contents d) 0 (contents_ok d)) as F0. pose proof (read_image_refusal (contents d) 1 (contents_ok d)) as F1.
    assert (Hi : forall e, device_error e -> invalid_bank e = false).
    { intros e [? ?]. unfold invalid_bank. by rewrite !bool_decide_false. }
    assert (Hj : forall e, e = EEmpty \/ e = ECorrupt -> invalid_bank e = true) by (by intros e [-> | ->]).
    destruct R0 as [-> | (e & -> & He)].
    - destruct R1 as [-> | (e' & -> & He')]; [by left|]. right. unfold pick_generation. destruct (read_image (contents d) 0) as [x|e|]; [| |done].
      + rewrite Hi by done. by exists e'.
      + rewrite (Hj e) by done. cbn [negb]. rewrite Hi by done. by exists e'.
    - right. unfold pick_generation. destruct R1 as [-> | (e' & -> & He')].
      + rewrite Hi by done. destruct (read_image (contents d) 1); [by exists e..|done].
      + rewrite Hi by done. by exists e. }
  destruct Hpick as [Hk | (e & Hk & He)]; rewrite Hk in E; [|injection E as <- <-; split; [by apply Hst|]; split; [done|]; intros _; right; by exists e].
  cbn [fst snd] in E. destruct (provision_lineage d2) as [l d3] eqn:El. destruct (provision_quiet _ _ _ El) as [U3 Hl].
  pose proof (undisturbed_trans _ _ _ U U3) as U'. assert (E1 : contents d2 1 = contents d 1) by apply U. rewrite E1 in Hl.
  destruct l as [[l|]|e|].
  - destruct Hl as [Hl|(? & ? & _)]; [|done]. symmetry in Hl. destruct (lineage_parse_ok _ _ (contents_ok d 1) Hl) as [L B].
    destruct (enable_recovery _ _) as [x w1] eqn:Er. destruct (recovery_settles _ _ _ _ (undisturbed_sound _ _ _ U' Hs) L B Er) as [Hx Ht].
    assert (Ht' : rtc transition (mkVolume m bank false, d) w1) by (eapply rtc_l; [|exact Ht]; left; by split; [left|]).
    split; [|split; [|intros [Hn|(r0 & Hr0 & Hn)]; rewrite Hl in Hn; [done|]; injection Hn as ->; left;
      unfold enable_recovery in Er; cbn [Volume_ready vl_poisoned vl_metadata] in Er; rewrite Hr0, bool_decide_true in Er by done; injection Er as <- <-;
      by injection E as <- _]].
    + exists w1. split; [done|]. destruct w1 as [v1 d4]. destruct x as [[]|e|]; [| |done]; injection E as <- <-; (split; [done|]); intros v [= <-].
      split; [done|]. unfold enable_recovery in Er. cbn in Er. repeat case_match; simplify_eq; try done.
    + destruct w1 as [v1 d4]. destruct x as [[]|e|]; [| |done]; by injection E as <- <-.
  - injection E as <- <-. split; [|split; [done|by left]]. exists (mkVolume m bank false, d3). split; [apply rtc_once; left; by split; [left|]|].
    split; [done|]. by intros v [= <-].
  - injection E as <- <-. split; [by apply Hst|]. split; [done|]. intros Hp. right. destruct Hl as [Hl|(e' & [= ->] & He)]; [|by exists e']. destruct Hp as [Hp|(r0 & _ & Hp)]; by rewrite Hp in Hl.
  - destruct Hl as [Hl|(? & ? & _)]; [by destruct (lineage_total (contents d 1))|done].
Qed.
End Mount.
