(* ===== verification/FsSpec.v ===== *)
(** * The abstract file system and the operations that implement it

    The state a client sees: for each object id its kind, place, version and
    bytes.  Creating, removing and replacing change one object, atomically with
    respect to a stop of the machine. *)
From stdpp Require Import base list option numbers relations.
From Stdlib Require Import ZArith Lia Bool.
From S2P Require Import Prelude Bytes Codec FsDisk FsNode FsRecovery FsFormat FsVolume FsPublication FsCrash FsPublish FsTree FsInvariant FsReach FsCalls.

(** ** Abstract state *)
Record FileEntry := mkEntry { en_kind : Kind; en_parent : Z; en_space : Z; en_name : list Z; en_version : Z; en_bytes : list Z }.

Definition entries := Z -> option FileEntry.

Definition spec_create (f : entries) (id : Z) (e : FileEntry) : entries := fun k => if k =? id then Some e else f k.
Definition spec_remove (f : entries) (id : Z) : entries := fun k => if k =? id then None else f k.
Definition spec_replace (f : entries) (id version : Z) (bytes : list Z) : entries :=
  fun k => if k =? id
           then (fun e => mkEntry (en_kind e) (en_parent e) (en_space e) (en_name e) version bytes) <$> f k
           else f k.

(** ** What a generation on an image shows *)
Definition entry_of (s : image) (slot : nat) (x : Node) : FileEntry :=
  mkEntry (n_kind x) (n_parent x) (n_space x) (Node_name x) (n_version x) (if kind_is (n_kind x) KFile then payload s slot x else []).

Definition files_view (s : image) (m : Metadata) : entries := fun id =>
  match Metadata_index m id with
  | Ok slot => entry_of s slot <$> m_nodes m !! slot
  | _ => None
  end.

Lemma view_at s m slot x : tree_ok m -> m_nodes m !! slot = Some x -> live x = true -> files_view s m (n_id x) = Some (entry_of s slot x).
Proof. intros H Hx Hl. unfold files_view. rewrite (index_spec m (n_id x) slot x) by (first [by apply tree_ids_unique|done]). by rewrite Hx. Qed.

Lemma view_absent s m id : (forall n, has m n -> n_id n <> id) -> files_view s m id = None.
Proof.
  intros H. unfold files_view. destruct (Metadata_index m id) as [i| |] eqn:E; [|done..]. destruct (index_node _ _ _ E) as (x & Hx & Hl & Hid & _).
  destruct (H x); [by exists i|done].
Qed.

Lemma view_cases s m id : tree_ok m -> files_view s m id = None /\ (forall n, has m n -> n_id n <> id) \/
  exists slot x, m_nodes m !! slot = Some x /\ live x = true /\ n_id x = id /\ files_view s m id = Some (entry_of s slot x).
Proof.
  intros H. unfold files_view. destruct (Metadata_index m id) as [i|e|] eqn:E; [|left..].
  - right. destruct (index_node _ _ _ E) as (x & Hx & Hl & Hid & _). exists i, x. by rewrite Hx.
  - split; [done|]. intros n (j & Hj & Hl) Hid. rewrite (index_spec m id j n) in E; [done|by apply tree_ids_unique|done|done|done].
  - by destruct (index_total m id).
Qed.

Lemma entry_agrees m s0 s slot x : agrees m s0 s -> m_nodes m !! slot = Some x -> entry_of s slot x = entry_of s0 slot x.
Proof.
  intros H Hx. unfold entry_of, kind_is. destruct (bool_decide _) eqn:E; [|done]. apply bool_decide_eq_true in E. by rewrite (payload_agrees m s0).
Qed.

Lemma view_agrees m s0 s id : agrees m s0 s -> files_view s m id = files_view s0 m id.
Proof.
  intros H. unfold files_view. destruct (Metadata_index m id) as [i| |]; [|done..]. destruct (m_nodes m !! i) as [x|] eqn:E; [|done]. cbn. by rewrite (entry_agrees m s0).
Qed.

(** One slot of the table changes. *)
Lemma view_insert m next s0 s slot x0 x id : tree_ok m -> tree_ok next -> agrees m s0 s -> m_nodes m !! slot = Some x0 ->
  m_nodes next = <[slot := x]> (m_nodes m) ->
  files_view s next id = if live x && (n_id x =? id) then Some (entry_of s slot x) else if live x0 && (n_id x0 =? id) then None else files_view s0 m id.
Proof.
  intros H H' Ha Hx0 En. pose proof (lookup_lt_Some _ _ _ Hx0) as Hl.
  assert (Hs : m_nodes next !! slot = Some x) by (by rewrite En, list_lookup_insert_eq).
  destruct (live x && (n_id x =? id)) eqn:E1; [bools; subst id; by apply view_at|].
  destruct (live x0 && (n_id x0 =? id)) eqn:E0.
  - apply view_absent. intros n (i & Hi & Hn) Hid. bools. rewrite En in Hi. apply list_lookup_insert_Some in Hi as [(_ & <- & _)|[Hne Hi]].
    + rewrite Hn, Hid, Z.eqb_refl in E1. done.
    + apply Hne. eapply (tree_ids_unique m H); [exact Hx0|exact Hi|done|done|congruence].
  - rewrite <- (view_agrees m s0 s) by done. destruct (view_cases s m id H) as [[-> Hn]|(i & y & Hy & Ly & Hid & ->)].
    + apply view_absent. intros n (i & Hi & Hl') Hid. rewrite En in Hi. apply list_lookup_insert_Some in Hi as [(_ & <- & _)|[Hne Hi]].
      * by rewrite Hl', Hid, Z.eqb_refl in E1.
      * apply (Hn n); [by exists i|done].
    + rewrite <- Hid. apply view_at; [done| |done]. rewrite En, list_lookup_insert_ne; [done|]. intros <-.
      rewrite Hx0 in Hy. injection Hy as ->. by rewrite Ly, Hid, Z.eqb_refl in E0.
Qed.

(** ** What the preparations change *)
Lemma create_plan v parent name kind next n : metadata_ok (vl_metadata v) -> prepare_create v parent name kind = Ok (next, n) ->
  exists slot e q, m_nodes (vl_metadata v) !! slot = Some e /\ live e = false /\ m_nodes next = <[slot := n]> (m_nodes (vl_metadata v)) /\
    checked_add (m_sequence (vl_metadata v)) 1 = Some q /\ live n = true /\ n_id n = m_next (vl_metadata v) /\
    exists p, node_of (vl_metadata v) parent = Ok p /\ n_kind p = KDirectory /\ n_space p <> 1 /\
      forall s, entry_of s slot n = mkEntry kind parent (n_space p) name q [].
Proof.
  intros H E. unfold prepare_create in E. steps E. unfold kind_is in *. bools. injection E as <- <-. rename a0 into p, a1 into slot.
  apply writable_spec in E2 as (_ & Hd & Hsp). apply ok_or_Ok in E6 as Hpos, E7, E8. apply position_Some in Hpos as [(e0 & He & Hk) _].
  apply bool_decide_eq_true in Hk. destruct (Node_new_ok _ _ _ _ _ _ _ E9) as (_ & Ex & En). exists slot, e0, a3.
  assert (live e0 = false) by (unfold live, kind_is; by rewrite Hk). repeat (split; [done|]). rewrite Ex at 1 2.
  split; [unfold live, kind_is; cbn; by rewrite bool_decide_false|]. split; [done|]. exists p. repeat (split; [done|]). intros s. unfold entry_of, payload.
  rewrite En, Ex. cbn. by destruct (kind_is kind KFile).
Qed.

Lemma remove_plan v id next : prepare_remove v id = Ok next ->
  exists slot x, m_nodes (vl_metadata v) !! slot = Some x /\ live x = true /\ n_id x = id /\ m_nodes next = <[slot := Node_EMPTY]> (m_nodes (vl_metadata v)).
Proof.
  intros E. unfold prepare_remove in E. steps E. injection E as <-. bools. destruct (index_node _ _ _ E3) as (x & Hx & Hl & Hid & _). by exists a0, x.
Qed.

Lemma replace_plan v id version bytes base next first x : m_nodes base = m_nodes (vl_metadata v) ->
  plan_recorded v id version bytes base = Ok (next, first, x) ->
  exists slot n, m_nodes (vl_metadata v) !! slot = Some n /\ live n = true /\ n_id n = id /\ n_kind n = KFile /\ n_version n = version /\
    checked_add (m_sequence (vl_metadata v)) 1 = Some (m_sequence next) /\ first = data_sector slot (n_bank x) /\
    x = changed_node n n bytes (m_sequence next) /\ m_nodes next = <[slot := x]> (m_nodes (vl_metadata v)) /\ (length bytes <= MAX_FILE)%nat.
Proof.
  intros En E. unfold plan_recorded in E. steps E. injection E as <- <- <-. rename a into n, a0 into slot. unfold kind_is in *. bools.
  apply writable_spec in E0 as (_ & Hn & _). destruct (index_node _ _ _ E4) as (y & Hy & Ly & Hid & Hn'). rewrite Hn in Hn'. injection Hn' as <-.
  unfold node_at in E5. rewrite En, Hy in E5. injection E5 as <-. apply ok_or_Ok in E6. exists slot, n. rewrite En. cbn. repeat (split; [done|]). lia.
Qed.

(** ** Refinement *)
Section Refinement.
Context {D : Type} {HD : Disk D} {HV : DiskView D} {HW : ViewLaws D} {HL : DiskLaws D}.
Implicit Types (d : D) (v : Volume) (w : Volume * D).

Definition shows w : entries := files_view (contents (w.2)) (vl_metadata (w.1)).

(** What a stop may leave: a valid generation, readable, that shows [f]. *)
Definition leaves (s : image) (f : entries) : Prop :=
  exists m bank, is_bank bank /\ metadata_ok m /\ bank_generation s m bank /\ intact s m /\ forall id, files_view s m id = f id.

(** The call did nothing, changed the view to [after], or left a fenced volume whose disk holds one of the two. *)
Definition refines {T} w (r : outcome FsError T) w' (after : entries) : Prop :=
  match r with
  | Ok _ => sound w' /\ vl_poisoned (w'.1) = false /\ forall id, shows w' id = after id
  | Err e => w' = w \/ (e = EUncertain /\ vl_poisoned (w'.1) = true /\ forall s, survives (w'.2) s -> leaves s (shows w) \/ leaves s after)
  | Panic => False
  end.

Lemma published_refines {T} v d next ds first data (t : T) r w' after : sound (v, d) -> vl_poisoned v = false ->
  publishable (vl_metadata v) next ds first data -> published_to v d next ds first data t r w' ->
  (forall s, carries_payload (vl_metadata v) ds first data (contents d) s -> forall id, files_view s next id = after id) -> refines (v, d) r w' after.
Proof.
  intros H Hp HP Hr Hv. destruct (published_transition v d next ds first data t r w' Hp HP Hr) as [Ht _]. pose proof (transition_sound _ _ H Ht) as H'.
  destruct (sd_rest _ H Hp) as [R I]. cbn in R, I. destruct r as [t'|e|]; [| |done].
  - destruct Hr as (_ & E & _ & C). split; [done|]. rewrite E. split; [done|]. intros id. unfold shows. rewrite E. by apply Hv.
  - right. destruct Hr as (-> & E & S). split; [done|]. rewrite E. split; [done|]. intros s Hs. destruct (S s Hs) as [[Hg Ha]|[Hg Hc]]; [left|right].
    + exists (vl_metadata v), (vl_bank v). split; [apply R|]. split; [apply R|]. split; [done|]. split; [by eapply intact_agrees|].
      intros id. by apply view_agrees.
    + exists next, (1 - vl_bank v). split; [apply other_bank, R|]. split; [apply HP|]. split; [done|].
      split; [by eapply (pu_intact _ _ _ _ _ HP)|]. by apply Hv.
Qed.

Lemma commit_refines v d next r w' after : sound (v, d) -> vl_poisoned v = false ->
  (forall q, checked_add (m_sequence (vl_metadata v)) 1 = Some q -> publishable (vl_metadata v) (set_sequence next q) 0 0 (zeros MAX_FILE)) ->
  (forall q s, checked_add (m_sequence (vl_metadata v)) 1 = Some q -> agrees (vl_metadata v) (contents d) s ->
     tree_ok (set_sequence next q) -> forall id, files_view s (set_sequence next q) id = after id) ->
  Volume_commit (v, d) next = (r, w') -> refines (v, d) r w' after.
Proof.
  intros H Hp HP Hv E. destruct (checked_add (m_sequence (vl_metadata v)) 1) as [q|] eqn:Hq.
  - pose proof (HP q eq_refl) as Hpu. eapply published_refines; [done|done|exact Hpu| |].
    + eapply commit_published; [by apply sound_rest|done|done|exact E].
    + intros s [Ha _]. apply (Hv q s eq_refl Ha). apply metadata_tree, Hpu.
  - unfold Volume_commit in E. rewrite Hq in E. injection E as <- <-. by left.
Qed.

Lemma create_refines_spec w parent name kind r w' : sound w -> Volume_create w parent name kind = (r, w') ->
  exists after, refines w r w' after /\ (forall n, r = Ok n -> live_node n) /\
    ((after = shows w /\ exists e, r = Err e) \/
     exists id p, shows w parent = Some p /\ en_kind p = KDirectory /\ en_space p <> 1 /\ shows w id = None /\
       after = spec_create (shows w) id (mkEntry kind parent (en_space p) name (Volume_sequence (w.1) + 1) []) /\
       forall n, r = Ok n -> n_id n = id).
Proof.
  destruct w as [v d]. intros H E. unfold Volume_create in E. cbn [fst] in E. pose proof (create_total v parent name kind) as Ht.
  destruct (prepare_create v parent name kind) as [[next n]|e|] eqn:Ep;
    [|injection E as <- <-; exists (shows (v, d)); split; [by left|]; split; [done|]; left; split; [done|by eexists]|done].
  assert (Hp : vl_poisoned v = false) by (unfold prepare_create in Ep; steps Ep; by apply writable_spec in E2 as [? _]).
  destruct (sd_rest _ H Hp) as [R _]. cbn in R. pose proof (rs_ok _ _ _ R) as Hm. pose proof (metadata_tree _ Hm) as Htree.
  destruct (create_plan _ _ _ _ _ _ Hm Ep) as (slot & e & q & He & Le & En & Hq & Ln & Hid & p & Hpn & Hk & Hsp & Hent).
  set (after := spec_create (shows (v, d)) (n_id n) (mkEntry kind parent (n_space p) name (Volume_sequence v + 1) [])). exists after.
  cbn [fst snd] in E. destruct (Volume_commit (v, d) next) as [x w1] eqn:Ec.
  assert (Hnew : forall y, has (vl_metadata v) y -> n_id y <> n_id n).
  { intros y Hy. pose proof (t_bounds _ Htree y Hy). lia. }
  assert (Href : refines (v, d) x w1 after).
  { eapply commit_refines; [done|done| | |exact Ec].
    - intros q' Hq'. by eapply create_publishable.
    - intros q' s Hq' Ha Hm' id. rewrite (view_insert (vl_metadata v) _ (contents d) s slot e n) by done.
      rewrite Ln, Le. cbn [andb]. unfold after, spec_create. rewrite Z.eqb_sym, Hent. by apply checked_add_Some in Hq as [-> _]. }
  assert (Hlive : x = Ok tt -> live_node n).
  { intros ->. destruct (commit_settles v d next (Ok tt) w1 H Hp ltac:(intros q' Hq' Hm'; by eapply create_publishable) Ec) as [[_ Ht1] Hn].
    destruct (Hn eq_refl) as (q' & Hq' & Ew). pose proof (rtc_sound _ _ H Ht1) as H1. destruct (sd_rest _ H1) as [R1 _]; [by rewrite Ew|].
    rewrite Ew in R1. cbn in R1. eapply (has_valid (set_sequence next q')); [apply R1|]. exists slot. cbn. rewrite En. split; [|done].
    apply list_lookup_insert_eq. by eapply lookup_lt_Some. }
  assert (Hafter : exists id p, shows (v, d) parent = Some p /\ en_kind p = KDirectory /\ en_space p <> 1 /\ shows (v, d) id = None /\
       after = spec_create (shows (v, d)) id (mkEntry kind parent (en_space p) name (Volume_sequence v + 1) []) /\ id = n_id n).
  { destruct (node_of_has _ _ _ Hpn) as [(i & Hi & Li) Hpid]. exists (n_id n), (entry_of (contents d) i p). unfold shows. cbn [fst snd].
    split; [rewrite <- Hpid; by apply view_at|]. split; [done|]. split; [done|]. split; [by apply view_absent|done]. }
  destruct Hafter as (id & p' & P1 & P2 & P3 & P4 & P5 & P6).
  destruct x as [[]|e'|]; injection E as <- <-; [| |done]; (split; [exact Href|]).
  - split; [intros ? [= <-]; by apply Hlive|]. right. exists id, p'. do 5 (split; [done|]). by intros ? [= <-].
  - split; [done|]. right. exists id, p'. do 5 (split; [done|]). done.
Qed.

Lemma remove_refines_spec w id r w' : sound w -> Volume_remove w id = (r, w') ->
  refines w r w' (spec_remove (shows w) id) /\
  (r = Ok tt -> exists e, shows w id = Some e /\ en_parent e <> 0 /\ en_space e <> 1 /\ forall k c, shows w k = Some c -> en_parent c <> id).
Proof.
  destruct w as [v d]. intros H E. unfold Volume_remove in E. cbn [fst] in E. pose proof (remove_total v id) as Ht.
  destruct (prepare_remove v id) as [next|e|] eqn:Ep; [|injection E as <- <-; split; [by left|done]|done].
  pose proof Ep as Ep'. unfold prepare_remove in Ep'. steps Ep'. clear Ep'. bools. apply writable_spec in E0 as (Hp & Hn & Hsp).
  destruct (sd_rest _ H Hp) as [R _]. cbn in R. pose proof (rs_ok _ _ _ R) as Hm. pose proof (metadata_tree _ Hm) as Htree.
  destruct (remove_plan _ _ _ Ep) as (slot & x & Hx & Lx & Hid & En). split.
  - eapply commit_refines; [done|done| | |exact E].
    + intros q' Hq'. by eapply remove_publishable.
    + intros q' s Hq' Ha Hm' k. rewrite (view_insert (vl_metadata v) _ (contents d) s slot x Node_EMPTY) by done.
      rewrite Lx, Hid. unfold spec_remove. rewrite (Z.eqb_sym k). by destruct (id =? k).
  - intros _. assert (a = x) as ->.
    { rewrite (node_of_spec _ id x) in Hn; [by injection Hn as <-|by apply tree_ids_unique|by exists slot|done]. }
    exists (entry_of (contents d) slot x). unfold shows. cbn [fst snd]. split; [rewrite <- Hid; by apply view_at|]. split; [done|]. split; [done|].
    intros k c Hc Hpar. destruct (view_cases (contents d) (vl_metadata v) k Htree) as [[Hv _]|(i & y & Hy & Ly & _ & Hv)]; rewrite Hv in Hc; [done|].
    injection Hc as <-. apply not_true_iff_false in E2. apply E2, existsb_exists. exists y. split; [by eapply list_elem_of_In, list_elem_of_lookup_2|].
    rewrite Ly. cbn in *. by apply Z.eqb_eq.
Qed.

Lemma replaced_view v s0 s id version bytes base next first x : metadata_ok (vl_metadata v) -> metadata_ok next ->
  m_nodes base = m_nodes (vl_metadata v) -> plan_recorded v id version bytes base = Ok (next, first, x) ->
  carries_payload (vl_metadata v) 3 first (padded_bytes bytes) s0 s ->
  forall k, files_view s next k = spec_replace (files_view s0 (vl_metadata v)) id (m_sequence (vl_metadata v) + 1) bytes k.
Proof.
  intros Hm Hm' Eb E [Ha Hd] k. destruct (replace_plan _ _ _ _ _ _ _ _ Eb E) as (slot & n & Hn & Ln & Hid & Hk & Hv & Hq & Hf & Hx & En & Hl).
  apply checked_add_Some in Hq as [Hq _]. pose proof (metadata_tree _ Hm) as Ht.
  rewrite (view_insert (vl_metadata v) next s0 s slot n x); [|done|by apply metadata_tree|done|done|done].
  assert (Lx : live x = true) by (subst x; done). assert (Ex : n_id x = id) by (subst x; done). rewrite Lx, Ex, Ln, Hid. cbn [andb].
  unfold spec_replace. rewrite (Z.eqb_sym k). destruct (Z.eqb_spec id k) as [<-|]; [|done].
  rewrite <- Hid, (view_at s0 _ slot n) by done. cbn [fmap option_fmap option_map]. f_equal. unfold entry_of.
  rewrite (written_payload s slot x bytes); [|by subst x|done|intros j Hj; apply Hd; rewrite <- Hf; by apply data_writes_at].
  subst x. cbn. rewrite Hk, Hq. done.
Qed.

(** What a replacement checks first: the object is a file, still at the version the client saw. *)
Definition file_at (f : entries) (id version : Z) : Prop := exists e, f id = Some e /\ en_kind e = KFile /\ en_version e = version.

Lemma planned_shows v (d : D) id version bytes base next first x : metadata_ok (vl_metadata v) -> m_nodes base = m_nodes (vl_metadata v) ->
  plan_recorded v id version bytes base = Ok (next, first, x) -> file_at (shows (v, d)) id version.
Proof.
  intros Hm Eb E. destruct (replace_plan _ _ _ _ _ _ _ _ Eb E) as (slot & n & Hn & Ln & Hid & Hk & Hv & _).
  exists (entry_of (contents d) slot n). split; [|done]. unfold shows. cbn [fst snd]. rewrite <- Hid. by apply view_at; [apply metadata_tree|..].
Qed.

(** A node that may be written, in the clients' view. *)
Lemma writable_file v (d : D) id n : metadata_ok (vl_metadata v) -> Volume_writable v id = Ok n -> n_kind n = KFile -> file_at (shows (v, d)) id (n_version n).
Proof.
  intros Hm Hw Hk. apply writable_spec in Hw as (_ & Hn & _). unfold node_of in Hn. destruct (Metadata_index _ _) as [k| |] eqn:Ei; [|done..].
  destruct (index_node _ _ _ Ei) as (y & Hy & Ly & Hid & Hn'). unfold node_of in Hn'. rewrite Ei in Hn'. rewrite Hn in Hn'. injection Hn' as <-.
  exists (entry_of (contents d) k n). split; [|done]. unfold shows. cbn [fst snd]. rewrite <- Hid. by apply view_at; [apply metadata_tree|..].
Qed.

Lemma replace_refines_spec w id version bytes : sound w -> bytes_ok bytes ->
  exists r w', Volume_replace w id version bytes = Some (r, w') /\
    refines w r w' (spec_replace (shows w) id (Volume_sequence (w.1) + 1) bytes) /\
    forall n, r = Ok n -> n_id n = id /\ n_version n = Volume_sequence (w.1) + 1 /\ live_node n /\
      exists e, shows w id = Some e /\ en_kind e = KFile /\ en_version e = version /\ (length bytes <= MAX_FILE)%nat.
Proof.
  destruct w as [v d]. intros H Hb. unfold Volume_replace, prepare_replace, prepare_recorded. cbn [fst snd].
  pose proof (planned_total v id version bytes (vl_metadata v) eq_refl) as Ht.
  destruct (plan_recorded v id version bytes (vl_metadata v)) as [[[next first] x]|e|] eqn:E;
    [|eexists _, _; split; [done|]; split; [by left|done]|done].
  assert (Hp : vl_poisoned v = false) by (unfold plan_recorded in E; steps E; by apply writable_spec in E0 as [? _]).
  destruct (sd_rest _ H Hp) as [R _]. cbn in R. pose proof (rs_ok _ _ _ R) as Hm.
  assert (HP : publishable (vl_metadata v) next 3 first (padded_bytes bytes)).
  { eapply replace_publishable; [done|done| | | | |exact E]; [done|done|done|]. intros r Hr. apply same_succeeds; [done|done|lia]. }
  destruct (run_published v d next 3 first (padded_bytes bytes) (Publication_new v d next first bytes x) R HP) as (r & w' & Er & Hpub); [by apply new_state|done..|].
  cbn [prepared_run]. exists r, w'. split; [done|]. split.
  - eapply published_refines; [done|done|exact HP|exact Hpub|]. intros s Hs. eapply replaced_view; [done|apply HP|done|exact E|exact Hs].
  - intros n ->. destruct Hpub as (-> & _). destruct (replace_plan _ _ _ _ _ _ _ _ eq_refl E) as (slot & n & Hn & Ln & Hid & Hk & Hv & Hq & Hf & Hx & En & Hl).
    apply checked_add_Some in Hq as [Hq _]. cbn [pb_result Publication_new].
    assert (Lx : live_node x).
    { eapply (has_valid next); [apply HP|]. exists slot. rewrite En. split; [apply list_lookup_insert_eq; by eapply lookup_lt_Some|]. by subst x. }
    split; [by subst x|]. split; [by subst x|]. split; [done|]. subst x.
    exists (entry_of (contents d) slot n). split; [unfold shows; cbn; rewrite <- Hid; by apply view_at; [apply metadata_tree|..]|done].
Qed.

(** Reading returns the bytes of the view. *)
Lemma read_refines w id expected offset output : sound w -> vl_poisoned (w.1) = false ->
  reads_as (w.2) (Volume_read_versioned (w.1) (w.2) id expected offset output)
    match shows w id with
    | None => Err ENotFound
    | Some e =>
      if (match expected with Some version => negb (version =? en_version e) | None => false end) then Err EVersion
      else if negb (kind_is (en_kind e) KFile) then Err EIsDirectory
      else if (length (en_bytes e) <? offset)%nat then Err ESize
      else match node_of (vl_metadata (w.1)) id with
           | Ok n => Ok (n, take output (drop offset (en_bytes e)))
           | Err e => Err e
           | Panic => Panic
           end
    end.
Proof.
  destruct w as [v d]. cbn [fst snd]. intros H Hp. destruct (sd_rest _ H Hp) as [R I]. cbn in R, I. pose proof (rs_ok _ _ _ R) as Hm.
  pose proof (metadata_tree _ Hm) as Ht. unfold Volume_read_versioned, Volume_stat, Volume_ready. rewrite Hp. unfold shows. cbn [fst snd].
  destruct (view_cases (contents d) (vl_metadata v) id Ht) as [[-> Hn]|(slot & x & Hx & Lx & Hid & ->)].
  { rewrite node_of_none by done. apply reads_pure. }
  rewrite (node_of_spec _ id x) by (first [by apply tree_ids_unique|by exists slot|done]). cbn [en_version en_kind entry_of en_bytes].
  destruct (match expected with Some _ => _ | None => _ end); [apply reads_pure|]. unfold kind_is. destruct (bool_decide (n_kind x = KFile)) eqn:Ek; [|apply reads_pure].
  cbn [negb]. apply bool_decide_eq_true in Ek. pose proof (has_valid _ x Hm ltac:(by exists slot)) as Vx. pose proof (ln_length _ Vx) as Hlen.
  assert (Hpl : length (payload (contents d) slot x) = Z.to_nat (n_length x)).
  { unfold payload. destruct (Z.eqb_spec (n_length x) 0) as [->|]; [done|]. rewrite length_take, (proj1 (sectors_length _ _ _ (contents_ok d))). unfold MAX_FILE in Hlen. lia. }
  rewrite Hpl. destruct (Nat.ltb_spec (Z.to_nat (n_length x)) offset) as [|Ho]; [apply reads_pure|].
  unfold payload in *. destruct (Z.eqb_spec (n_length x) 0) as [E0|E0].
  { rewrite drop_nil, take_nil. apply reads_pure. }
  rewrite (index_spec _ id slot x) by (first [by apply tree_ids_unique|done]). eapply reads_bind; [by apply read_sectors_reads|]. intros d' U.
  pose proof (I slot x Hx Ek E0) as Hc. unfold payload in Hc. destruct (Z.eqb_spec (n_length x) 0); [done|]. rewrite Hc, Z.eqb_refl. cbn [negb].
  replace (slice _ _ _) with (take output (drop offset (take (Z.to_nat (n_length x)) (sectors (contents d) (data_sector slot (n_bank x)) 2)))); [apply reads_pure|].
  unfold slice. rewrite skipn_firstn_comm, firstn_firstn. f_equal. lia.
Qed.

(** ** Publications in progress *)
Lemma replace_prepared v d id version bytes p : sound (v, d) -> bytes_ok bytes -> prepare_replace v d id version bytes = Ok p ->
  exists next first, vl_poisoned v = false /\ publishable (vl_metadata v) next 3 first (padded_bytes bytes) /\
    pub_state (plan_for v d next 3 first (padded_bytes bytes)) p /\
    forall s, carries_payload (vl_metadata v) 3 first (padded_bytes bytes) (contents d) s ->
      forall k, files_view s next k = spec_replace (shows (v, d)) id (Volume_sequence v + 1) bytes k.
Proof.
  intros H Hb E. unfold prepare_replace, prepare_recorded in E.
  destruct (plan_recorded v id version bytes (vl_metadata v)) as [[[next first] x]|e|] eqn:Ep; [|done..]. injection E as <-.
  assert (Hp : vl_poisoned v = false) by (unfold plan_recorded in Ep; steps Ep; by apply writable_spec in E as [? _]).
  destruct (sd_rest _ H Hp) as [R _]. cbn in R. pose proof (rs_ok _ _ _ R) as Hm.
  assert (HP : publishable (vl_metadata v) next 3 first (padded_bytes bytes)).
  { eapply replace_publishable; [done|done| | | | |exact Ep]; [done|done|done|]. intros r Hr. apply same_succeeds; [done|done|lia]. }
  exists next, first. split; [done|]. split; [done|]. split; [by apply new_state|]. intros s Hs. eapply replaced_view; [done|apply HP|done|exact Ep|exact Hs].
Qed.

Section Plans.
Context (v : Volume) (d : D) (next : Metadata) (ds : nat) (first : Z) (data : list Z) (after : entries).
Hypothesis (H : sound (v, d)) (Hp : vl_poisoned v = false) (HP : publishable (vl_metadata v) next ds first data).
Hypothesis (Hafter : forall s, carries_payload (vl_metadata v) ds first data (contents d) s -> forall k, files_view s next k = after k).
Let P := plan_for v d next ds first data.

Lemma plan_leaves : (forall s, is_old P s -> leaves s (shows (v, d))) /\ (forall s, is_new P s -> leaves s after).
Proof.
  destruct (sd_rest _ H Hp) as [R I]. cbn in R, I. split; intros s Hs.
  - destruct (old_survivor v d next ds first data s Hs) as [[Hg Ha]|[Hg Hc]].
    + exists (vl_metadata v), (vl_bank v). split; [apply R|]. split; [apply R|]. split; [done|]. split; [by eapply intact_agrees|]. intros k. by apply view_agrees.
    + destruct Hs as [Hg' Hl]. exists (vl_metadata v), (vl_bank v). split; [apply R|]. split; [apply R|]. split; [done|].
      split; [by eapply intact_agrees; [exact I|apply Hc]|]. intros k. apply view_agrees, Hc.
  - pose proof (new_carries v d next ds first data s Hs) as Hc. exists next, (1 - vl_bank v). split; [apply other_bank, R|]. split; [apply HP|].
    split; [apply Hs|]. split; [by eapply (pu_intact _ _ _ _ _ HP)|]. by apply Hafter.
Qed.

Lemma plan_dropped {T} (q : Publication D T) v' d' : pub_state P q -> Publication_drop q = (v', d') -> vl_poisoned v' = false ->
  sound (v', d') /\ forall k, shows (v', d') k = if bool_decide (pb_phase q = Committed) then after k else shows (v, d) k.
Proof.
  intros Hq Ed Hd. destruct (sd_rest _ H Hp) as [R I]. cbn in R, I. pose proof (plan_for_ok _ _ _ _ _ _ R HP) as HO. fold P in HO.
  destruct (drop_rests P HO q v' d' Hq Ed) as (D1 & -> & D3). specialize (D1 Hd). pose proof (phase_survives P HO q _ Hq (survives_contents _)) as Hs.
  assert (Hold : v' = mkVolume (vl_metadata v) (vl_bank v) false -> is_old P (contents (pb_disk q)) -> pb_phase q <> Committed ->
    sound (v', pb_disk q) /\ forall k, shows (v', pb_disk q) k = if bool_decide (pb_phase q = Committed) then after k else shows (v, d) k).
  { intros -> [_ Hl] Hne. assert (Ha : agrees (vl_metadata v) (contents d) (contents (pb_disk q))) by (intros n Hn; apply Hl; by right; right; right).
    split; [apply rests_sound; [done|by eapply intact_agrees]|]. intros k. rewrite bool_decide_false by done. by apply view_agrees. }
  destruct (pb_phase q) eqn:Eq.
  - rewrite D3 in Hd. cbn in Hd. rewrite Hd in D3. by apply Hold.
  - rewrite D3 in Hd. cbn in Hd. rewrite Hd in D3. by apply Hold.
  - by rewrite D3 in Hd.
  - pose proof (new_carries v d next ds first data _ Hs) as Hc. split; [apply rests_sound; [done|]; rewrite D3; by eapply (pu_intact _ _ _ _ _ HP)|].
    intros k. rewrite bool_decide_true by done. unfold shows. rewrite D3. by apply Hafter.
  - by apply Hold.
  - by rewrite D3 in Hd.
Qed.
End Plans.
End Refinement.
