(* ===== verification/FsHistory.v ===== *)
(** * Histories of a volume

    What a client may rely on between two moments of a volume's life, whatever
    calls were made in between: sequence numbers and ids only grow, a version
    names one state of an object, and an answered request keeps its answer
    until the epoch advances. *)
From stdpp Require Import base list option numbers relations.
From Stdlib Require Import ZArith Lia Bool.
From S2P Require Import Prelude Bytes Codec FsDisk FsNode FsRecovery FsFormat FsVolume FsPublication FsCrash FsPublish FsTree FsInvariant FsReach FsCalls FsSpec.

(** [x'] is what became of [x]: itself, or the settlement of its open admission. *)
Definition became (x x' : FsRecord) : Prop :=
  x' = x \/ exists a a', rd_admission x = Some a /\ so_state a = FAdmitted /\ rd_admission x' = Some a' /\ so_number a' = so_number a /\
    rd_subject x' = rd_subject x /\ rd_namespace x' = rd_namespace x /\ rd_bytes x' = rd_bytes x /\
    fr_retry (rd_receipt x') = fr_retry (rd_receipt x) /\ fr_id (rd_receipt x') = fr_id (rd_receipt x) /\
    fr_previous (rd_receipt x') = fr_previous (rd_receipt x) /\ fr_length (rd_receipt x') = fr_length (rd_receipt x).

Definition records_kept (r r' : Recovery) : Prop :=
  rv_lineage r' = rv_lineage r /\
  (rv_epoch r < rv_epoch r' \/
   rv_epoch r' = rv_epoch r /\ forall i x, rv_records r !! i = Some (Some x) -> exists x', rv_records r' !! i = Some (Some x') /\ became x x').

Record history (s : image) (m : Metadata) (s' : image) (m' : Metadata) : Prop := {
  hi_sequence : m_sequence m <= m_sequence m';
  hi_next : m_next m <= m_next m';
  hi_entries : forall id e, files_view s' m' id = Some e -> files_view s m id = Some e \/ m_sequence m < en_version e;
  hi_ids : forall id e, files_view s' m' id = Some e -> m_next m <= id \/ files_view s m id <> None;
  hi_records : forall r, m_recovery m = Some r -> exists r', m_recovery m' = Some r' /\ records_kept r r';
}.

Lemma became_trans x y z : became x y -> became y z -> became x z.
Proof.
  intros [->|(a & b & A1 & A2 & A3 & A4 & A5 & A6 & A7 & A8 & A9 & A10 & A11)]; [done|].
  intros [->|(c & e & B1 & B2 & B3 & B4 & B5 & B6 & B7 & B8 & B9 & B10 & B11)]; [right; by exists a, b|].
  right. exists a, e. rewrite A3 in B1. injection B1 as <-. repeat split; congruence.
Qed.

Lemma records_kept_trans r1 r2 r3 : records_kept r1 r2 -> records_kept r2 r3 -> records_kept r1 r3.
Proof.
  intros [L1 [E1|[E1 K1]]] [L2 [E2|[E2 K2]]]; (split; [congruence|]); [left; lia|left; lia|left; lia|].
  right. split; [congruence|]. intros i x Hx. destruct (K1 i x Hx) as (y & Hy & Bxy). destruct (K2 i y Hy) as (z & Hz & Byz).
  exists z. split; [done|by eapply became_trans].
Qed.

Lemma history_refl s s' m : (forall id, files_view s' m id = files_view s m id) -> history s m s' m.
Proof.
  intros E. split; [done|done|..].
  - intros id e He. left. by rewrite <- E.
  - intros id e He. right. by rewrite <- E, He.
  - intros r Hr. exists r. split; [done|]. split; [done|]. right. split; [done|]. intros i x Hx. exists x. split; [done|by left].
Qed.

Lemma history_trans s1 m1 s2 m2 s3 m3 : history s1 m1 s2 m2 -> history s2 m2 s3 m3 -> history s1 m1 s3 m3.
Proof.
  intros [A1 A2 A3 A4 A5] [B1 B2 B3 B4 B5]. split; [lia|lia|..].
  - intros id e He. destruct (B3 id e He) as [H|H]; [by apply A3|right; lia].
  - intros id e He. destruct (B4 id e He) as [H|H]; [left; lia|]. destruct (files_view s2 m2 id) as [e'|] eqn:E; [by eapply A4|done].
  - intros r Hr. destruct (A5 r Hr) as (r2 & Hr2 & K). destruct (B5 r2 Hr2) as (r3 & Hr3 & K'). exists r3. split; [done|by eapply records_kept_trans].
Qed.

Lemma settles_became q x x' a a' : record_settles q x x' a a' -> became x x'.
Proof.
  intros [[A1 A2] (B1 & _ & B3 & _) (C1 & C2 & C3) R]. right. exists a, a'. repeat (split; [done|]).
  destruct R as [-> | ->]; by repeat split.
Qed.

Lemma evolves_history m next ds first data s s' : metadata_ok m -> publishable m next ds first data -> agrees m s s' -> history s m s' next.
Proof.
  intros Hm HP Ha. destruct (pu_evolves _ _ _ _ _ HP) as [E1 E2 E3]. pose proof (pu_sequence _ _ _ _ _ HP) as Hq.
  pose proof (metadata_tree _ (pu_next _ _ _ _ _ HP)) as Ht'. pose proof (metadata_tree _ Hm) as Ht. split; [lia|done|..].
  - intros id e He. destruct (view_cases s' next id Ht') as [[Hv _]|(i & x & Hx & Lx & Hid & Hv)]; rewrite Hv in He; [done|]. injection He as <-.
    destruct (E2 i x Hx Lx) as [Hx'|[Hver _]]; [left|right; cbn; lia]. by rewrite <- Hid, (view_at s m i x), (entry_agrees m s s').
  - intros id e He. destruct (view_cases s' next id Ht') as [[Hv _]|(i & x & Hx & Lx & Hid & Hv)]; rewrite Hv in He; [done|].
    destruct (E2 i x Hx Lx) as [Hx'|[_ [Hn|(n' & (j & Hj & Lj) & Hn')]]].
    + right. by rewrite <- Hid, (view_at s m i x).
    + left. by rewrite <- Hid.
    + right. by rewrite <- Hid, <- Hn', (view_at s m j n').
  - intros r Hr. destruct (E3 r Hr) as (r' & Hr' & L & K). exists r'. split; [done|]. split; [done|]. destruct K as [?|[Ee K]]; [by left|right].
    split; [done|]. intros i x Hx. destruct (K i x Hx) as (x' & Hx' & [->|(a & a' & S)]); [exists x; split; [done|by left]|].
    exists x'. split; [done|by eapply settles_became].
Qed.

Section Histories.
Context {D : Type} {HD : Disk D} {HV : DiskView D} {HW : ViewLaws D} {HL : DiskLaws D}.
Implicit Types (d : D) (v : Volume) (w : Volume * D).

Definition follows w w' : Prop := history (contents (w.2)) (vl_metadata (w.1)) (contents (w'.2)) (vl_metadata (w'.1)).

Lemma transition_follows w w' : sound w -> transition w w' -> vl_poisoned (w'.1) = false -> vl_poisoned (w.1) = false /\ follows w w'.
Proof.
  destruct w as [v d], w' as [v' d']. intros H [[[E|E] U]|(next & ds & first & data & Hp & HP & [(E & R & [Ha _])|[E _]])] Hp'; cbn in *; subst v'; try done.
  - split; [done|]. apply history_refl. cbn. intros id. apply view_agrees. intros n _. apply U.
  - split; [done|]. destruct (sd_rest _ H Hp) as [R0 _]. eapply evolves_history; [apply R0|exact HP|exact Ha].
Qed.

Lemma rtc_follows w w' : sound w -> rtc transition w w' -> vl_poisoned (w'.1) = false -> vl_poisoned (w.1) = false /\ follows w w'.
Proof.
  intros H Ht. induction Ht as [w|w w1 w' Ht _ IH]; intros Hp; [split; [done|by apply history_refl]|].
  destruct (IH (transition_sound _ _ H Ht) Hp) as [Hp1 F1]. destruct (transition_follows _ _ H Ht Hp1) as [Hp0 F0]. split; [done|]. by eapply history_trans.
Qed.

(** ** Sequences of calls *)
Fixpoint perform_all (cs : list volume_call) w : option (list (outcome FsError unit) * (Volume * D)) :=
  match cs with
  | [] => Some ([], w)
  | c :: cs =>
    match perform c w with
    | Some (r, w) => match perform_all cs w with Some (rs, w) => Some (r :: rs, w) | None => None end
    | None => None
    end
  end.

Lemma perform_all_settles cs w : sound w -> Forall call_ok cs ->
  exists rs w', perform_all cs w = Some (rs, w') /\ length rs = length cs /\ ~ (Panic ∈ rs) /\ sound w' /\ rtc transition w w'.
Proof.
  intros H Hc. revert w H. induction Hc as [|c cs Hc Hcs IH]; intros w H; cbn [perform_all].
  - exists [], w. split; [done|]. split; [done|]. split; [apply not_elem_of_nil|]. split; [done|apply rtc_refl].
  - destruct (perform_settles c w H Hc) as (r & w1 & -> & Hr & Ht). destruct (IH w1 (rtc_sound _ _ H Ht)) as (rs & w' & -> & Hl & Hp & Hs & Ht').
    exists (r :: rs), w'. split; [done|]. split; [cbn; congruence|]. split; [apply not_elem_of_cons; by split|]. split; [done|]. by etrans.
Qed.
End Histories.

(** ** Retried requests and settled admissions

    A request that was answered is answered the same way for as long as its
    epoch lasts, and an admission that was cancelled or committed stays so. *)
(** ** The record of a request *)
Lemma scoped_match_spec subject workspace retry x : scoped_match subject workspace retry x = true <->
  fst <$> rd_namespace x = Some workspace /\ rd_subject x = subject /\ fr_retry (rd_receipt x) = retry.
Proof.
  unfold scoped_match. rewrite !andb_true_iff, Z.eqb_eq, bool_decide_eq_true. destruct (rd_namespace x) as [[w i]|]; cbn; [rewrite Z.eqb_eq|]; split.
  - intros [[-> ?] ?]. done.
  - intros ([= ->] & ? & ?). done.
  - by intros [[? ?] ?].
  - by intros (? & ? & ?).
Qed.

(** At most one retained record answers a request. *)
Lemma matching_unique q nx r subject workspace retry i j x y : recovery_ok q nx r -> rv_records r !! i = Some (Some x) -> rv_records r !! j = Some (Some y) ->
  scoped_match subject workspace retry x = true -> scoped_match subject workspace retry y = true -> i = j.
Proof.
  intros H Hx Hy (X1 & X2 & X3)%scoped_match_spec (Y1 & Y2 & Y3)%scoped_match_spec. destruct (decide (i = j)) as [|Hne]; [done|exfalso].
  pose proof (vo_distinct _ _ _ H i j x y Hne Hx Hy) as C. apply clash_spec in C as [_ C]. apply C. split; [congruence|]. split; congruence.
Qed.

Lemma find_matching q nx r subject workspace retry i x : recovery_ok q nx r -> rv_records r !! i = Some (Some x) ->
  scoped_match subject workspace retry x = true -> List.find (scoped_match subject workspace retry) (slots (rv_records r)) = Some x.
Proof.
  intros H Hx Hm. destruct (List.find _ _) as [y|] eqn:F.
  - apply List.find_some in F as [Hy Hm']. apply list_elem_of_In, elem_of_slots in Hy as [j Hj].
    assert (i = j) as <- by (by eapply matching_unique). congruence.
  - exfalso. apply (find_none_request _ _ F x); [apply elem_of_slots; by exists i|done].
Qed.

(** What a settled record answers. *)
Definition answered (x : FsRecord) : Prop := match rd_admission x with None => True | Some a => so_state a = FCommitted end.

Definition holds v (i : nat) (x : FsRecord) : Prop := exists r, m_recovery (vl_metadata v) = Some r /\ rv_records r !! i = Some (Some x).

Lemma operation_answers v r i x subject workspace retry : vl_poisoned v = false -> metadata_ok (vl_metadata v) -> m_recovery (vl_metadata v) = Some r ->
  rv_scoped r = true -> rv_records r !! i = Some (Some x) -> scoped_match subject workspace retry x = true -> workspace <> 0 ->
  operation_by_retry v subject workspace retry = Record_operation x.
Proof.
  intros Hp Hm Hr Hs Hx Hmt Hw. pose proof (mo_recovery _ Hm r Hr) as R. destruct (vo_records _ _ _ R i x Hx) as [F V _].
  unfold operation_by_retry, Volume_ready, scoped_recovery. rewrite Hp, Hr, Hs. pose proof Hmt as (_ & E2 & E3)%scoped_match_spec.
  unfold values_bad in V. bools. pose proof (rf_lineage _ _ F) as Hlin. destruct (vo_epoch _ _ _ R) as [_ He]. rewrite <- E3, <- E2.
  replace ((rd_subject x =? 0) || (workspace =? 0) || (ry_epoch (fr_retry (rd_receipt x)) =? 0) || (ry_key (fr_retry (rd_receipt x)) =? 0)) with false
    by (symmetry; rewrite !orb_false_iff, !Z.eqb_neq; repeat split; (done || lia)).
  rewrite bool_decide_true by done. cbn [negb]. rewrite E2, E3. by rewrite (find_matching _ _ r subject workspace retry i x R Hx Hmt).
Qed.

(** ** A replacement leaves its record *)
Record answers (v : Volume) (i : nat) (x : FsRecord) (subject workspace : Z) (retry : FsRetry) : Prop := {
  an_holds : holds v i x;
  an_match : scoped_match subject workspace retry x = true;
  an_closed : answered x;
  an_workspace : workspace <> 0;
}.

Lemma answered_operation x workspace : fst <$> rd_namespace x = Some workspace -> answered x ->
  exists instance, Record_operation x = Ok (mkFsOperation workspace instance (rd_receipt x) (record_payload x)).
Proof.
  intros Hn Ha. unfold Record_operation, answered in *. destruct (rd_namespace x) as [[w i]|]; [|done]. cbn in Hn. injection Hn as ->. exists i. cbn [ok_or fst snd].
  destruct (rd_admission x) as [a|]; [by rewrite Ha|done].
Qed.

Lemma operation_record v subject workspace retry op : operation_by_retry v subject workspace retry = Ok op ->
  exists i x, answers v i x subject workspace retry /\ Record_operation x = Ok op.
Proof.
  unfold operation_by_retry, Volume_ready, scoped_recovery. intros H. destruct (vl_poisoned v); [done|].
  destruct (m_recovery _) as [r|] eqn:Er; [|done]. destruct (rv_scoped r) eqn:Es; [|done]. guards H. bools.
  destruct (List.find _ _) as [x|] eqn:F; [|by destruct (negb _)]. apply List.find_some in F as [Hx Hm]. apply list_elem_of_In, elem_of_slots in Hx as [i Hi].
  exists i, x. split; [|done]. split; [by exists r|done| |done]. unfold answered, Record_operation in *. destruct (rd_namespace x); [|done].
  cbn [ok_or] in H. destruct (rd_admission x) as [a|]; [|done]. by destruct (so_state a).
Qed.

Section Replay.
Context {D : Type} {HD : Disk D} {HV : DiskView D} {HW : ViewLaws D} {HL : DiskLaws D}.
Implicit Types (d : D) (v : Volume) (w : Volume * D).

Lemma replay_run {T} v d (t : T) : prepared_run (v, d) (Ok (Publication_replayed v d t)) = Some (Ok t, (v, d)).
Proof. done. Qed.

Lemma prepared_run_ok {T} w (p : Publication D T) : prepared_run w (Ok p) = Publication_run p.
Proof. done. Qed.

(** The record of an answered request decides every retry. *)
Lemma scoped_retry w i x subject instance request bytes : sound w -> vl_poisoned (w.1) = false ->
  answers (w.1) i x subject (fp_workspace request) (fp_retry request) ->
  (exists r, m_recovery (vl_metadata (w.1)) = Some r /\ rv_scoped r = true) -> (length bytes <= MAX_FILE)%nat ->
  replace_scoped w subject instance request bytes =
  if bool_decide (fr_id (rd_receipt x) = fp_id request /\ fr_previous (rd_receipt x) = fp_version request /\ record_payload x = bytes)
  then Some (Ok (rd_receipt x), w) else Some (Err EIdempotencyConflict, w).
Proof.
  destruct w as [v d]. cbn [fst snd]. intros H Hp [(r & Hr & Hx) Hm Ha Hw] (r' & Hr' & Hs) Hl. rewrite Hr in Hr'. injection Hr' as <-.
  destruct (sd_rest _ H Hp) as [R _]. cbn in R. unfold replace_scoped, prepare_scoped, Volume_ready. cbn [fst snd]. rewrite Hp.
  destruct (Nat.ltb_spec MAX_FILE (length bytes)); [lia|]. rewrite (operation_answers v r i x) by (try done; apply R).
  pose proof Hm as (Hn & _ & _)%scoped_match_spec. destruct (answered_operation x _ Hn Ha) as [k ->]. cbn [fo_receipt fo_bytes].
  destruct (Z.eqb_spec (fr_id (rd_receipt x)) (fp_id request)) as [E1|E1]; cbn [negb orb]; [|by rewrite bool_decide_false by (intros (? & ? & ?); done)].
  destruct (Z.eqb_spec (fr_previous (rd_receipt x)) (fp_version request)) as [E2|E2]; cbn [negb orb]; [|by rewrite bool_decide_false by (intros (? & ? & ?); done)].
  destruct (decide (record_payload x = bytes)) as [E3|E3].
  - rewrite !bool_decide_true by done. apply replay_run.
  - rewrite (bool_decide_false (record_payload x = bytes)), bool_decide_false by (done || by intros (? & ? & ?)). done.
Qed.

(** What [prepare_scoped] prepares: the retained answer, or a replacement recorded in a free slot. *)
Lemma scoped_prepared v d subject instance request bytes p : prepare_scoped v d subject instance request bytes = Ok p ->
  vl_poisoned v = false /\ (length bytes <= MAX_FILE)%nat /\
  ((exists old, p = Publication_replayed v d (fo_receipt old) /\ operation_by_retry v subject (fp_workspace request) (fp_retry request) = Ok old /\
      fr_id (fo_receipt old) = fp_id request /\ fr_previous (fo_receipt old) = fp_version request /\ fo_bytes old = bytes) \/
   (exists r slot q n' next first node, unseen v r subject (fp_workspace request) (fp_retry request) /\
      Volume_resolve v (fp_workspace request) (fp_id request) = Ok n' /\ position is_none (rv_records r) = Some slot /\
      checked_add (m_sequence (vl_metadata v)) 1 = Some q /\ choose_instance instance q <= q /\
      let receipt := mkFsReceipt (fp_retry request) (fp_id request) (fp_version request) q (Z.of_nat (length bytes)) in
      plan_recorded v (fp_id request) (fp_version request) bytes (store_record (vl_metadata v) r slot
        (mkFsRecord subject receipt (Some (fp_workspace request, choose_instance instance q)) (padded_bytes bytes) None)) = Ok (next, first, node) /\
      p = Publication_new v d next first bytes receipt)).
Proof.
  unfold prepare_scoped, Volume_ready. destruct (vl_poisoned v); [done|]. destruct (Nat.ltb_spec MAX_FILE (length bytes)) as [|Hl]; [done|]. intros E.
  split; [done|]. split; [done|]. destruct (operation_by_retry _ _ _ _) as [old|e|] eqn:Eo; [|destruct e; try done|done].
  - guards E. bools. injection E as <-. left. by exists old.
  - right. destruct (scoped_unseen _ _ _ _ Eo) as [r U]. destruct (Volume_resolve _ _ _) as [n'| |] eqn:Hr; [|done|done].
    pose proof U as (Er & _). rewrite Er in E. destruct (position _ _) as [slot|] eqn:Hs; [|done]. cbn [ok_or] in E.
    destruct (checked_add _ _) as [q|] eqn:Hq; [|done]. cbn [ok_or] in E. destruct (Z.ltb_spec q (choose_instance instance q)) as [|Hle]; [done|].
    unfold prepare_recorded in E. destruct (plan_recorded _ _ _ _ _) as [[[next first] node]|e|] eqn:Ep; [|done|done]. injection E as <-.
    exists r, slot, q, n', next, first, node. done.
Qed.

Lemma plan_records v id version bytes base next first x : plan_recorded v id version bytes base = Ok (next, first, x) -> m_recovery next = m_recovery base.
Proof. unfold plan_recorded. intros E. steps E. by injection E as <- _ _. Qed.

Lemma new_record_payload subject receipt ns bytes a : fr_length receipt = Z.of_nat (length bytes) ->
  record_payload (mkFsRecord subject receipt ns (padded_bytes bytes) a) = bytes.
Proof. intros E. unfold record_payload. cbn [rd_receipt rd_bytes]. rewrite E, Nat2Z.id. apply padded_payload. Qed.

(** After a successful scoped replacement its record is retained. *)
Record scoped_answer w subject request bytes receipt : Prop := {
  sa_ready : vl_poisoned (w.1) = false;
  sa_record : exists i x r, answers (w.1) i x subject (fp_workspace request) (fp_retry request) /\
    m_recovery (vl_metadata (w.1)) = Some r /\ rv_scoped r = true /\ rd_receipt x = receipt /\ record_payload x = bytes;
  sa_request : fr_id receipt = fp_id request /\ fr_previous receipt = fp_version request /\ (length bytes <= MAX_FILE)%nat;
}.

Lemma replayed_answer v d subject request bytes old : vl_poisoned v = false -> (length bytes <= MAX_FILE)%nat ->
  operation_by_retry v subject (fp_workspace request) (fp_retry request) = Ok old ->
  fr_id (fo_receipt old) = fp_id request -> fr_previous (fo_receipt old) = fp_version request -> fo_bytes old = bytes ->
  scoped_answer (v, d) subject request bytes (fo_receipt old).
Proof.
  intros Hp Hl Eo E1 E2 E3. split; [done| |done]. destruct (operation_record _ _ _ _ _ Eo) as (i & x & A & Ro).
  pose proof (an_match _ _ _ _ _ _ A) as (Hn & _ & _)%scoped_match_spec. destruct (answered_operation x _ Hn (an_closed _ _ _ _ _ _ A)) as [k Ek].
  rewrite Ek in Ro. injection Ro as <-. cbn [fo_receipt fo_bytes] in *. unfold operation_by_retry, Volume_ready, scoped_recovery in Eo. rewrite Hp in Eo.
  destruct (m_recovery (vl_metadata v)) as [r|] eqn:Er; [|done]. destruct (rv_scoped r) eqn:Es; [|done]. by exists i, x, r.
Qed.

Lemma scoped_answers w subject instance request bytes receipt w' : sound w -> fs_replacement_ok subject instance request bytes ->
  replace_scoped w subject instance request bytes = Some (Ok receipt, w') ->
  rtc transition w w' /\ scoped_answer w' subject request bytes receipt.
Proof.
  destruct w as [v d]. intros H Hc E. pose proof (scoped_prepares v d subject instance request bytes H Hc) as Hprep.
  unfold replace_scoped in E. cbn [fst snd] in E. destruct (run_settles v d _ H Hprep) as (r0 & w0 & E0 & _ & Ht). rewrite E0 in E. injection E as -> ->.
  split; [done|]. clear Hprep Ht. destruct (prepare_scoped _ _ _ _ _ _) as [p|e|] eqn:Ep; [|done|done].
  destruct (scoped_prepared _ _ _ _ _ _ _ Ep) as (Hpo & Hl & [(old & -> & Eo & E1 & E2 & E3)|(r & slot & q & n' & next & first & node & U & Hr & Hs & Hq & Hle & Hpl & Enew)]).
  - rewrite replay_run in E0. injection E0 as <- <-. by apply replayed_answer.
  - destruct (sd_rest _ H Hpo) as [R _]. cbn in R. pose proof (rs_ok _ _ _ R) as Hm. destruct Hc as [C Hi].
    pose proof (scoped_publishable v r slot q subject instance request bytes n' next first node Hm U C Hr Hi Hs Hq Hle Hpl) as HP.
    assert (Hst : pub_state (plan_for v d next 3 first (padded_bytes bytes)) p /\ pb_pending p = false /\ pb_stopping p = false /\ pb_phase p = Preparing)
      by (subst p; split; [by apply new_state|done]).
    destruct Hst as (Hst & H1 & H2 & H3). destruct (run_published v d next 3 first (padded_bytes bytes) p R HP Hst H1 H2 H3) as (r1 & w1 & E1 & Hpub).
    rewrite prepared_run_ok, E1 in E0. injection E0 as -> ->. destruct Hpub as (Erec & Ew & _).
    pose proof U as (Er & Es & _ & Uw & _). apply plan_records in Hpl. cbn [store_record set_recovery m_recovery] in Hpl.
    match type of Hpl with _ = Some (set_record _ _ (Some ?y)) => set (x := y) in * end.
    assert (Erx : receipt = rd_receipt x) by (rewrite Erec, Enew; reflexivity). split; [by rewrite Ew| |by rewrite Erx].
    rewrite Ew. exists slot, x, (set_record r slot (Some x)). split; [split|].
    + exists (set_record r slot (Some x)). split; [exact Hpl|]. cbn [rv_records set_record]. rewrite list_lookup_insert_eq; [done|by eapply position_lt].
    + by apply scoped_match_spec.
    + done.
    + done.
    + split; [exact Hpl|]. split; [exact Es|]. split; [by symmetry|]. by apply new_record_payload.
Qed.

(** ** Persistence *)
Lemma holds_kept w w' i x : sound w -> rtc transition w w' -> vl_poisoned (w'.1) = false -> holds (w.1) i x ->
  (forall r r', m_recovery (vl_metadata (w.1)) = Some r -> m_recovery (vl_metadata (w'.1)) = Some r' -> rv_epoch r' = rv_epoch r) ->
  exists x', holds (w'.1) i x' /\ became x x'.
Proof.
  intros H Ht Hp (r & Hr & Hx) He. destruct (rtc_follows _ _ H Ht Hp) as [_ F]. destruct (hi_records _ _ _ _ F r Hr) as (r' & Hr' & _ & [Hlt|[_ K]]).
  - rewrite (He r r' Hr Hr') in Hlt. lia.
  - destruct (K i x Hx) as (x' & Hx' & B). exists x'. split; [by exists r'|done].
Qed.

Lemma answered_kept x x' : answered x -> became x x' -> x' = x.
Proof. unfold answered. intros Ha [->|(a & a' & E & Es & _)]; [done|]. rewrite E in Ha. congruence. Qed.

(** ** Settled admissions *)
Lemma admission_held v subject id a : admission_by_id v subject id = Ok a ->
  exists i x st, holds v i x /\ rd_admission x = Some st /\ rd_subject x = subject /\ so_number st = fa_number id /\ admission_view x = Ok a /\
    subject <> 0 /\ fa_number id <> 0 /\ exists r, m_recovery (vl_metadata v) = Some r /\ fa_lineage id = rv_lineage r.
Proof.
  unfold admission_by_id, admission_record. intros H. destruct (admission_slot v subject id) as [i| |] eqn:Es; [|done..].
  destruct (admission_slot_spec _ _ _ _ Es) as (r & x & st & Ea & Hx & Hst & Hsub & Hnum & Hlin). rewrite Ea, Hx in H.
  destruct (admissions_spec _ _ Ea) as (_ & Hr & _). exists i, x, st. split; [by exists r|]. do 4 (split; [done|]).
  unfold admission_slot in Es. rewrite Ea in Es. guards Es. bools. split; [done|]. split; [done|]. by exists r.
Qed.

Lemma admission_found v r i x st subject id : vl_poisoned v = false -> metadata_ok (vl_metadata v) -> m_recovery (vl_metadata v) = Some r ->
  rv_records r !! i = Some (Some x) -> rd_admission x = Some st -> rd_subject x = subject -> so_number st = fa_number id ->
  subject <> 0 -> fa_number id <> 0 -> fa_lineage id = rv_lineage r ->
  admission_slot v subject id = Ok i /\ Volume_admissions v = Ok r.
Proof.
  intros Hp Hm Hr Hx Hst Hsub Hnum Hs0 Hn0 Hlin. pose proof (mo_recovery _ Hm r Hr) as R. destruct (vo_records _ _ _ R i x Hx) as [_ _ A].
  destruct (vo_flags _ _ _ R) as [F1 F2]. destruct (version_of_flags r F1 F2) as (_ & _ & V4 & _). pose proof (sk_version _ _ _ _ _ (A st Hst)) as Hv.
  assert (Ha : rv_admissions r = true) by (rewrite <- V4; by apply Z.leb_le).
  assert (Hadm : Volume_admissions v = Ok r) by (unfold Volume_admissions, Volume_ready; by rewrite Hp, Hr, Ha). split; [|done].
  unfold admission_slot. rewrite Hadm. destruct (Z.eqb_spec subject 0); [done|]. destruct (Z.eqb_spec (fa_number id) 0); [done|]. cbn [orb].
  rewrite bool_decide_true by done. cbn [negb]. apply ok_or_Ok, position_Some. split.
  - exists (Some x). split; [done|]. unfold admission_match. cbn. rewrite Hst. cbn. by rewrite Hsub, Hnum, !Z.eqb_refl.
  - intros j [y|] Hj Hy; [|done]. apply not_true_is_false. intros M. unfold admission_match in M. cbn in M. bools.
    destruct (rd_admission y) as [st'|] eqn:Ey; [|done]. cbn in *. bools.
    pose proof (vo_distinct _ _ _ R i j x y ltac:(lia) Hx Hy) as C. apply clash_spec in C as [C _]. apply (C (fa_number id) Hn0); unfold numbers, record_numbers.
    + rewrite Hst. cbn. rewrite !elem_of_cons. right. by left.
    + rewrite Ey. cbn. rewrite !elem_of_cons. right. by left.
Qed.

Lemma settled_kept w w' subject id a : sound w -> rtc transition w w' -> vl_poisoned (w'.1) = false ->
  (forall r r', m_recovery (vl_metadata (w.1)) = Some r -> m_recovery (vl_metadata (w'.1)) = Some r' -> rv_epoch r' = rv_epoch r) ->
  admission_by_id (w.1) subject id = Ok a -> fs_state (av_status a) <> FAdmitted ->
  admission_by_id (w'.1) subject id = Ok a /\ exists i x, admission_slot (w'.1) subject id = Ok i /\ admission_record (w'.1) i = Ok x /\ admission_view x = Ok a.
Proof.
  intros H Ht Hp He Ha Hs. destruct (admission_held _ _ _ _ Ha) as (i & x & st & Hh & Hst & Hsub & Hnum & Hview & Hs0 & Hn0 & r & Hr & Hlin).
  destruct (holds_kept w w' i x H Ht Hp Hh He) as (x' & (r' & Hr' & Hx') & B).
  assert (x' = x) as ->.
  { destruct B as [->|(b & b' & E & Es & _)]; [done|]. rewrite Hst in E. injection E as <-. unfold admission_view in Hview. rewrite Hst in Hview.
    cbn [ok_or] in Hview. destruct (rd_namespace x); [|done]. injection Hview as <-. done. }
  destruct (rtc_follows _ _ H Ht Hp) as [_ F]. destruct (hi_records _ _ _ _ F r Hr) as (r2 & Hr2 & Hl2 & _). rewrite Hr' in Hr2. injection Hr2 as <-.
  destruct (sd_rest _ (rtc_sound _ _ H Ht) Hp) as [R _].
  destruct (admission_found (w'.1) r' i x st subject id Hp (rs_ok _ _ _ R) Hr' Hx' Hst Hsub Hnum Hs0 Hn0 ltac:(congruence)) as [Hslot Hadm].
  assert (Hrec : admission_record (w'.1) i = Ok x) by (unfold admission_record; by rewrite Hadm, Hx').
  split; [unfold admission_by_id; by rewrite Hslot, Hrec|]. by exists i, x.
Qed.

(** The volume still retains scoped records. *)
Lemma scoped_flag w i x subject workspace retry : sound w -> vl_poisoned (w.1) = false ->
  scoped_match subject workspace retry x = true -> holds (w.1) i x ->
  exists r', m_recovery (vl_metadata (w.1)) = Some r' /\ rv_scoped r' = true.
Proof.
  intros H Hp (Hn & _ & _)%scoped_match_spec (r' & Hr' & Hx). exists r'. split; [done|]. destruct (sd_rest _ H Hp) as [R _].
  destruct (vo_records _ _ _ (mo_recovery _ (rs_ok _ _ _ R) r' Hr') i x Hx) as [_ V _].
  unfold values_bad in V. destruct (rd_namespace x) as [[k j]|]; [|done]. destruct (rv_scoped r'); [done|]. cbn in V. by rewrite !orb_true_r in V.
Qed.

Lemma if_decide {A} (P Q : Prop) `{Decision P} `{Decision Q} (a b : A) : (P <-> Q) -> (if bool_decide P then a else b) = (if bool_decide Q then a else b).
Proof. intros E. by rewrite (bool_decide_ext P Q E). Qed.

Lemma settled_replays w subject id a i x : fs_state (av_status a) <> FAdmitted -> admission_by_id (w.1) subject id = Ok a ->
  admission_slot (w.1) subject id = Ok i -> admission_record (w.1) i = Ok x -> admission_view x = Ok a ->
  cancel_admission w subject id = Some (Ok (av_status a), w) /\
  prepared_run w (prepare_admitted (w.1) (w.2) subject id) =
    match av_receipt a with Some receipt => Some (Ok receipt, w) | None => Some (Err ECancelled, w) end.
Proof.
  destruct w as [v d]. cbn [fst snd]. intros Hs Ha Hslot Hrec Hview. split.
  - unfold cancel_admission, prepare_cancellation, prevention_reasons_enabled. cbn [fst snd].
    destruct (Volume_admissions v) as [r| |] eqn:Ev; [|unfold admission_record in Hrec; by rewrite Ev in Hrec..].
    unfold prepare_cancelled. rewrite Hslot, Ha. rewrite bool_decide_false by done. cbn [negb]. apply replay_run.
  - unfold prepare_admitted. rewrite Hslot, Hrec, Hview. unfold admission_view in Hview. destruct (rd_admission x) as [st|]; [|done]. cbn [ok_or] in Hview.
    destruct (rd_namespace x); [|done]. injection Hview as <-. cbn [av_status fs_state av_receipt] in *.
    destruct (so_state st); [done| |]; [by rewrite bool_decide_false|]. rewrite bool_decide_true by done. apply replay_run.
Qed.
End Replay.

(** ** Publications driven step by step, and the scope check

    A publication may be polled, advanced synchronously, cancelled and dropped
    in any order; the scope check of references.rs walks the ancestor chain. *)
(** ** Any interleaving of a publication's calls *)
Inductive pub_event := EvPoll | EvAdvance | EvCancel.

Section Play.
Context {D T : Type} {HD : Disk D} {HQ : PollDisk D} {HV : DiskView D} {HW : ViewLaws D} {HL : DiskLaws D} {HPL : PollLaws D}.
Implicit Types (d : D) (v : Volume) (p : Publication D T).

Definition play_one (e : pub_event) p : Publication D T :=
  match e with EvPoll => (poll_advance p).2 | EvAdvance => (Publication_advance p).2 | EvCancel => (Publication_cancel p).2 end.

Definition play (es : list pub_event) p : Publication D T := foldl (fun p e => play_one e p) p es.

Lemma play_one_state P e p : plan_ok P -> pub_state P p -> pub_state P (play_one e p).
Proof.
  intros HP H. destruct e; cbn [play_one].
  - unfold poll_advance. destruct (Publication_drive p Command_poll) as [r q] eqn:E. eapply (drive_state P HP p q r Command_poll); [|exact H|exact E].
    intros c d x d' Hok Hx. by apply (poll_law c d x d').
  - unfold Publication_advance. destruct (pb_pending p); [done|]. destruct (Publication_drive p Synchronous_poll) as [r q] eqn:E.
    destruct (drive_state P HP p q r _ synchronous_executes H E) as [Hq _]. by destruct r.
  - destruct (Publication_cancel p) as [r q] eqn:E. by destruct (cancel_state P p q r H E).
Qed.

Lemma play_state P es p : plan_ok P -> pub_state P p -> pub_state P (play es p).
Proof. intros HP. revert p. induction es as [|e es IH]; intros p H; [done|]. apply IH. by apply play_one_state. Qed.
End Play.

(** ** Ancestry *)
Lemma node_chain m id n : tree_ok m -> node_of m id = Ok n -> exists l, chain m id l /\ (length l <= OBJECTS)%nat.
Proof.
  intros H Hn. destruct (node_of_has _ _ _ Hn) as [Hh Hid]. destruct (Z.eq_dec (n_parent n) 0) as [Hp|Hp].
  - exists [id]. split; [by eapply chain_root|]. cbn. unfold OBJECTS. lia.
  - pose proof (t_place _ H n Hh) as Hv. apply place_child in Hv as (p & l & _ & _ & _ & Hc & _ & Hl); [|done].
    exists (id :: l). split; [by eapply chain_up|]. cbn [length]. unfold OBJECTS. lia.
Qed.

Lemma within_loop_chain fuel v id l scope : vl_poisoned v = false -> chain (vl_metadata v) id l -> (length l <= fuel)%nat ->
  within_loop fuel v id scope = Ok (bool_decide (scope ∈ l)).
Proof.
  intros Hp H. revert fuel. induction H as [a n Hn Hr|a n l Hn Hr Hc IH]; intros fuel Hf; (destruct fuel as [|fuel]; [cbn in Hf; lia|]);
    cbn [within_loop]; unfold Volume_stat, Volume_ready; rewrite Hp, Hn.
  - rewrite Hr. cbn [Z.eqb]. destruct (Z.eqb_spec a scope) as [->|Hne].
    + by rewrite bool_decide_true by (apply list_elem_of_singleton; done).
    + rewrite bool_decide_false; [done|]. intros E. apply list_elem_of_singleton in E. congruence.
  - destruct (Z.eqb_spec a scope) as [->|Hne]; [by rewrite bool_decide_true by (apply elem_of_cons; by left)|].
    destruct (Z.eqb_spec (n_parent n) 0); [done|]. rewrite IH by (cbn in Hf; lia). f_equal. apply bool_decide_ext. rewrite elem_of_cons. split; [by right|].
    by intros [->|].
Qed.

Lemma within_spec v id scope : vl_poisoned v = false -> metadata_ok (vl_metadata v) ->
  match node_of (vl_metadata v) id with
  | Ok n => exists l, chain (vl_metadata v) id l /\ Volume_within v id scope = Ok (bool_decide (scope = 0 \/ scope ∈ l)) /\
      (Volume_resolve v scope id = Ok n <-> (exists w, node_of (vl_metadata v) scope = Ok w /\ n_kind w = KDirectory) /\ (scope = 0 \/ scope ∈ l))
  | _ => Volume_within v id scope = Ok false /\ forall n, Volume_resolve v scope id <> Ok n
  end.
Proof.
  intros Hp Hm. pose proof (metadata_tree _ Hm) as Ht. pose proof (node_of_total (vl_metadata v) id) as Htot.
  assert (Hst : forall k, Volume_stat v k = node_of (vl_metadata v) k) by (intros k; unfold Volume_stat, Volume_ready; by rewrite Hp).
  destruct (node_of (vl_metadata v) id) as [n|e|] eqn:En; [| |done].
  - destruct (node_chain _ _ _ Ht En) as (l & Hc & Hl). exists l. split; [done|].
    assert (Hw : Volume_within v id scope = Ok (bool_decide (scope = 0 \/ scope ∈ l))).
    { unfold Volume_within. destruct (Z.eqb_spec scope 0) as [->|Hz]; [rewrite Hst, En; by rewrite bool_decide_true by (by left)|].
      rewrite (within_loop_chain OBJECTS v id l scope) by done. f_equal. apply bool_decide_ext. tauto. }
    split; [done|]. unfold Volume_resolve. rewrite !Hst, En, Hw. pose proof (node_of_total (vl_metadata v) scope).
    destruct (node_of (vl_metadata v) scope) as [w| |] eqn:Ew; [|split; [done|]; by intros [(? & ? & _) _]|done].
    unfold kind_is. destruct (decide (n_kind w = KDirectory)) as [Hk|Hk].
    + rewrite bool_decide_true by done. cbn [negb]. destruct (decide (scope = 0 \/ scope ∈ l)) as [Hi|Hi].
      * rewrite bool_decide_true by done. split; [|done]. intros _. split; [by exists w|done].
      * rewrite bool_decide_false by done. split; [done|]. by intros [_ ?].
    + rewrite bool_decide_false by done. split; [done|]. intros [(w' & [= <-] & ?) _]. done.
  - split.
    + unfold Volume_within. rewrite Hst, En. destruct (scope =? 0); [done|]. unfold OBJECTS. cbn [within_loop]. by rewrite Hst, En.
    + intros n. unfold Volume_resolve. rewrite !Hst, En. destruct (node_of _ scope); [|done|done]. by destruct (negb _).
Qed.
