(* ===== verification/FsClaims.v ===== *)
(** * What the file system guarantees

    The properties of the volume, stated for any disk that keeps the contract
    of [FsDisk] and witnessed on the disk with a write cache and a fault
    schedule defined there. *)
From stdpp Require Import base list option numbers relations gmap.
From Stdlib Require Import ZArith Lia Bool.
From S2P Require Import Prelude Bytes Codec FsDisk FsNode FsRecovery FsFormat FsVolume FsPublication FsCrash FsPublish FsTree FsInvariant FsReach FsCalls FsSpec FsHistory.

(** ** A concrete volume *)

(** A provisioned blank device: only the lineage sector is written. *)
Definition fs_lineage : list Z := replicate 16 7.
Definition lineage_sector : list Z :=
  let b := write (write (zeros 512) 0 vol_magic) 8 fs_lineage in write b 24 (le_bytes 4 (crc b)).
Definition sample_disk : Platter := mkPlatter {[ 1 := lineage_sector ]} [] [].

Definition started (o : outcome FsError Volume * Platter) : Volume * Platter :=
  match o with (Ok v, d) => (v, d) | (_, d) => (mkVolume (mkMetadata 0 0 [] None) 0 true, d) end.

Definition fresh_volume : Volume * Platter := started (Volume_initialize sample_disk).

(** A volume with one file, where operations are enabled. *)
Definition after_calls (cs : list volume_call) (w : Volume * Platter) : Volume * Platter :=
  match perform_all cs w with Some (_, w) => w | None => w end.
Definition sample_calls : list volume_call :=
  [CallCreate 2 [97] KFile; CallReplace 5 2 [104; 105]; CallOperations; CallAdmissions].
Definition sample_volume : Volume * Platter := after_calls sample_calls fresh_volume.

Definition call_succeeds {A} (o : outcome FsError A) : bool := match o with Ok _ => true | _ => false end.

Lemma fresh_volume_sound : sound fresh_volume /\ vl_poisoned (fresh_volume.1) = false.
Proof.
  unfold fresh_volume. destruct (Volume_initialize sample_disk) as [r d] eqn:E. pose proof (initialize_spec _ _ _ E) as H.
  assert (Hr : call_succeeds (Volume_initialize sample_disk).1 = true) by (by vm_compute). rewrite E in Hr. destruct r as [v|e|]; [|done..].
  destruct H as (H1 & H2 & _). exact (conj H1 H2).
Qed.

Lemma sample_calls_ok : Forall call_ok sample_calls.
Proof. repeat constructor; by vm_compute. Qed.

Lemma sample_volume_sound : sound sample_volume /\ vl_poisoned (sample_volume.1) = false.
Proof.
  split; [|by vm_compute]. unfold sample_volume, after_calls. destruct fresh_volume_sound as [H _].
  destruct (perform_all_settles sample_calls fresh_volume H sample_calls_ok) as (rs & w' & -> & _ & _ & Hs & _). done.
Qed.

Section Claims.
Context {D : Type} {HD : Disk D} {HQ : PollDisk D} {HV : DiskView D} {HW : ViewLaws D} {HL : DiskLaws D} {HPL : PollLaws D}.
Implicit Types (d : D) (v : Volume) (w : Volume * D).

(** ** Soundness and recovery *)

(** C2 (volume_calls_keep_it_sound): a volume that [initialize] made on a blank
    device, after any sequence of create, remove, replace, recorded, admission,
    format and read calls with well-typed arguments and any device faults, has
    answered every call without panicking or running out of steps, and is sound:
    every image a stop may leave is a valid generation whose files pass their
    checksums, and a volume that is not fenced rests on its own generation. *)
Theorem volume_calls_keep_it_sound d v d' cs : Volume_initialize d = (Ok v, d') -> Forall call_ok cs ->
  exists rs w, perform_all cs (v, d') = Some (rs, w) /\ length rs = length cs /\ ~ (Panic ∈ rs) /\ sound w.
Proof.
  intros E Hc. pose proof (initialize_spec _ _ _ E) as (H & _).
  destruct (perform_all_settles cs (v, d') H Hc) as (rs & w & E' & Hl & Hp & Hs & _). by exists rs, w.
Qed.

(** C4 (stopped_volume_remounts): wherever the machine stops during or after any
    calls on a sound volume, the surviving image holds a valid generation with
    intact files; mounting it never panics, mounts exactly that generation
    unless the device itself fails (when the provision sector is blank or names
    the volume's lineage), and whatever mounts is sound and ready. *)
Theorem stopped_volume_remounts w cs rs w' s d r d' : sound w -> Forall call_ok cs -> perform_all cs w = Some (rs, w') -> survives (w'.2) s ->
  (forall n, contents d n = s n) -> (forall n x, may_survive d n x -> x = s n) -> Volume_mount d = (r, d') ->
  exists m bank, metadata_ok m /\ bank_generation s m bank /\ intact s m /\ r <> Panic /\
    (provisioned_for (s 1) m -> r = Ok (mkVolume m bank false) \/ exists e, r = Err e /\ device_error e) /\
    (forall v, r = Ok v -> sound (v, d') /\ vl_poisoned v = false).
Proof.
  intros H Hc E Hs Hcon Hdur Em. destruct (perform_all_settles cs w H Hc) as (rs' & w1 & E1 & _ & _ & Hs1 & _). rewrite E in E1. injection E1 as <- <-.
  destruct (sd_survives _ Hs1 s Hs) as (m & bank & Hb & Hm & Hg & Hi). exists m, bank.
  assert (Hd : sound (mkVolume m bank false, d)).
  { apply rests_sound; cbn; [split; [done|done| | |]|].
    - eapply generation_live; [exact Hg|intros n _; apply Hcon|]. unfold stale. rewrite Hcon. apply Hg.
    - intros n x _ Hx. rewrite Hcon. by apply Hdur.
    - intros x ->%Hdur. apply Hg.
    - eapply intact_agrees; [exact Hi|]. intros n _. apply Hcon. }
  destruct (mount_spec d m bank r d' Hd Em) as ((w2 & Ht & E2 & Hok) & Hp & Hprov). rewrite Hcon in Hprov.
  do 4 (split; [done|]). split; [done|]. intros v Hv. destruct (Hok v Hv) as [E3 Hv']. split; [|done].
  replace (v, d') with w2; [by eapply rtc_sound|]. destruct w2. cbn in *. congruence.
Qed.

(** ** Refinement of the abstract file system *)

(** C25 (volume_create_refines): on a sound volume [create] changes nothing when it
    is refused, and otherwise adds exactly one object, with a fresh id, an
    unused name in a writable directory and the next sequence as version;
    if the device fails, the volume is fenced and a stop leaves the file system
    before or after the whole change. *)
Theorem volume_create_refines w parent name kind r w' : sound w -> Volume_create w parent name kind = (r, w') ->
  exists after, refines w r w' after /\
    ((after = shows w /\ exists e, r = Err e) \/
     exists id p, shows w parent = Some p /\ en_kind p = KDirectory /\ en_space p <> 1 /\ shows w id = None /\
       after = spec_create (shows w) id (mkEntry kind parent (en_space p) name (Volume_sequence (w.1) + 1) []) /\
       forall n, r = Ok n -> n_id n = id).
Proof. intros H E. destruct (create_refines_spec w parent name kind r w' H E) as (after & H1 & _ & H2). by exists after. Qed.

(** C26 (volume_remove_refines): on a sound volume [remove] either refuses and
    changes nothing or removes exactly that object, which is no root, not in
    the read-only space and has no children; atomically across a stop. *)
Theorem volume_remove_refines w id r w' : sound w -> Volume_remove w id = (r, w') ->
  refines w r w' (spec_remove (shows w) id) /\
  (r = Ok tt -> exists e, shows w id = Some e /\ en_parent e <> 0 /\ en_space e <> 1 /\ forall k c, shows w k = Some c -> en_parent c <> id).
Proof. apply remove_refines_spec. Qed.

(** C1 (volume_replace_refines): on a sound volume [replace] always returns; it
    refuses and changes nothing, or gives exactly that file the new bytes and
    the next sequence as version, provided the expected version was current;
    if the device fails a stop leaves the old file or the new one, whole. *)
Theorem volume_replace_refines w id version bytes : sound w -> bytes_ok bytes ->
  exists r w', Volume_replace w id version bytes = Some (r, w') /\
    refines w r w' (spec_replace (shows w) id (Volume_sequence (w.1) + 1) bytes) /\
    forall n, r = Ok n -> n_id n = id /\ n_version n = Volume_sequence (w.1) + 1 /\
      exists e, shows w id = Some e /\ en_kind e = KFile /\ en_version e = version /\ (length bytes <= MAX_FILE)%nat.
Proof.
  intros H Hb. destruct (replace_refines_spec w id version bytes H Hb) as (r & w' & E & Hr & Hn). exists r, w'. split; [done|]. split; [done|].
  intros n Er. destruct (Hn n Er) as (H1 & H2 & _ & H3). done.
Qed.

(** On a sound, ready volume a read returns exactly the
    requested part of the file's current bytes (never corruption), refuses a
    stale version, a directory, an offset past the end or an absent id, fails
    otherwise only with the device's error, and leaves the disk as it was. *)
Theorem volume_read_refines w id expected offset output : sound w -> vl_poisoned (w.1) = false ->
  reads_as (w.2) (Volume_read_versioned (w.1) (w.2) id expected offset output)
    match shows w id with
    | None => Err ENotFound
    | Some e =>
      if (match expected with Some version => negb (version =? en_version e) | None => false end) then Err EVersion
      else if negb (kind_is (en_kind e) KFile) then Err EIsDirectory
      else if (length (en_bytes e) <? offset)%nat then Err ESize
      else match node_of (vl_metadata (w.1)) id with
           | Ok n => Ok (n, take output (drop offset (en_bytes e)))
           | Err e => Err e
           | Panic => Panic
           end
    end.
Proof. apply read_refines. Qed.

(** C6 (publication_is_atomic): however the steps of a replacement are polled,
    advanced and cancelled, and wherever the machine stops, the disk holds the
    file system before the replacement or after it, after it once committed and
    before it once cancelled or while preparing; dropping the publication gives
    back a sound volume that shows the one or the other, or a fenced one. *)
Theorem publication_is_atomic v d id version bytes p es : sound (v, d) -> bytes_ok bytes -> prepare_replace v d id version bytes = Ok p ->
  let q := play es p in
  let after := spec_replace (shows (v, d)) id (Volume_sequence v + 1) bytes in
  (forall s, survives (pb_disk q) s ->
     match pb_phase q with
     | Preparing | ReadyToPublish | Cancelled => leaves s (shows (v, d))
     | Committed => leaves s after
     | Settling | Uncertain => leaves s (shows (v, d)) \/ leaves s after
     end) /\
  (vl_poisoned (Publication_drop q).1 = false ->
     sound (Publication_drop q) /\
     forall k, shows (Publication_drop q) k = if bool_decide (pb_phase q = Committed) then after k else shows (v, d) k).
Proof.
  intros H Hb E q after. destruct (replace_prepared v d id version bytes p H Hb E) as (next & first & Hp & HP & Hst & Hafter).
  pose proof (sd_rest _ H Hp) as [R I]. cbn in R, I. pose proof (plan_for_ok _ _ _ _ _ _ R HP) as HO.
  pose proof (play_state _ es p HO Hst) as Hq. fold q in Hq. pose proof (plan_leaves v d next 3 first (padded_bytes bytes) after H Hp HP Hafter) as [Lo Ln]. split.
  - intros s Hs. pose proof (phase_survives _ HO q s Hq Hs) as Hx. destruct (pb_phase q); try (by apply Lo); try (by apply Ln); destruct Hx; auto.
  - intros Hd. destruct (Publication_drop q) as [v' d'] eqn:Ed. by apply (plan_dropped v d next 3 first (padded_bytes bytes) after H Hp HP Hafter q).
Qed.

(** ** Histories *)

(** C32 (versions_identify_contents): between any two moments of a volume's life
    the sequence grows; an object's version never decreases, and if it is the
    same then so are the object's kind, place, name and bytes; an id that named
    nothing while below the id counter never names anything again. *)
Theorem versions_identify_contents w cs rs w' : sound w -> Forall call_ok cs -> perform_all cs w = Some (rs, w') -> vl_poisoned (w'.1) = false ->
  Volume_sequence (w.1) <= Volume_sequence (w'.1) /\
  (forall id e e', shows w id = Some e -> shows w' id = Some e' -> en_version e <= en_version e' /\ (en_version e' = en_version e -> e' = e)) /\
  (forall id, id < m_next (vl_metadata (w.1)) -> shows w id = None -> shows w' id = None).
Proof.
  intros H Hc E Hp. destruct (perform_all_settles cs w H Hc) as (rs' & w1 & E1 & _ & _ & _ & Ht). rewrite E in E1. injection E1 as <- <-.
  destruct (rtc_follows _ _ H Ht Hp) as [Hp0 [F1 F2 F3 F4 _]]. split; [exact F1|]. split.
  - intros id e e' He He'. assert (Hv : en_version e <= m_sequence (vl_metadata (w.1))).
    { destruct (sd_rest _ H Hp0) as [R _]. pose proof (metadata_tree _ (rs_ok _ _ _ R)) as Htr. unfold shows in He.
      destruct (view_cases (contents (w.2)) (vl_metadata (w.1)) id Htr) as [[Hv _]|(i & x & Hx & Lx & _ & Hv)]; rewrite Hv in He; [done|].
      injection He as <-. cbn. apply (t_bounds _ Htr x). by exists i. }
    destruct (F3 id e' He') as [Hs|Hs]; [unfold shows in He; rewrite Hs in He; by injection He as <-|]. split; lia.
  - intros id Hid Hn. destruct (shows w' id) as [e|] eqn:Es; [|done]. destruct (F4 id e Es) as [?|Hne]; [lia|by destruct Hne].
Qed.

(** Once a scoped replacement was answered
    with a receipt, then after any further calls within the same epoch the same
    request gets the same receipt and changes nothing, and the same retry key
    with another file, version or payload is refused as a conflict. *)
Theorem answered_requests_stay_answered w subject instance request bytes receipt w1 cs rs w2 :
  sound w -> fs_replacement_ok subject instance request bytes ->
  replace_scoped w subject instance request bytes = Some (Ok receipt, w1) ->
  Forall call_ok cs -> perform_all cs w1 = Some (rs, w2) -> vl_poisoned (w2.1) = false ->
  (forall r r', m_recovery (vl_metadata (w1.1)) = Some r -> m_recovery (vl_metadata (w2.1)) = Some r' -> rv_epoch r' = rv_epoch r) ->
  forall instance' id' version' bytes', (length bytes' <= MAX_FILE)%nat ->
    replace_scoped w2 subject instance' (mkFsReplacement (fp_workspace request) (fp_retry request) id' version') bytes' =
    if bool_decide (id' = fp_id request /\ version' = fp_version request /\ bytes' = bytes)
    then Some (Ok receipt, w2) else Some (Err EIdempotencyConflict, w2).
Proof.
  intros H Hc E Hcs Ea Hp He instance' id' version' bytes' Hl. destruct (scoped_answers w subject instance request bytes receipt w1 H Hc E) as [Ht [_ Hrec Hreq]].
  pose proof (rtc_sound _ _ H Ht) as H1. destruct (perform_all_settles cs w1 H1 Hcs) as (rs' & w3 & E3 & _ & _ & H2 & Ht2). rewrite Ea in E3. injection E3 as <- <-.
  destruct Hrec as (i & x & r & A & Hr & Hs & Hx & Hpay). destruct (holds_kept w1 w2 i x H1 Ht2 Hp (an_holds _ _ _ _ _ _ A) He) as (x' & Hh & B).
  pose proof (answered_kept x x' (an_closed _ _ _ _ _ _ A) B) as ->.
  rewrite (scoped_retry w2 i x); [|done|done|by destruct A|by eapply (scoped_flag w2 i x), Hh; [..|by apply (an_match _ _ _ _ _ _ A)]|done]. cbn [fp_id fp_version].
  destruct Hreq as (R1 & R2 & _). rewrite Hx, R1, R2, Hpay. apply if_decide. intuition congruence.
Qed.

(** C31 (settled_admissions_are_final): an admission seen as cancelled or committed
    is reported the same after any further calls of the same epoch; cancelling
    it again replays its status and executing it replays its receipt or reports
    the cancellation, without changing anything. *)
Theorem settled_admissions_are_final w subject id a cs rs w' : sound w -> admission_by_id (w.1) subject id = Ok a ->
  fs_state (av_status a) <> FAdmitted -> Forall call_ok cs -> perform_all cs w = Some (rs, w') -> vl_poisoned (w'.1) = false ->
  (forall r r', m_recovery (vl_metadata (w.1)) = Some r -> m_recovery (vl_metadata (w'.1)) = Some r' -> rv_epoch r' = rv_epoch r) ->
  admission_by_id (w'.1) subject id = Ok a /\
  cancel_admission w' subject id = Some (Ok (av_status a), w') /\
  prepared_run w' (prepare_admitted (w'.1) (w'.2) subject id) =
    match av_receipt a with Some receipt => Some (Ok receipt, w') | None => Some (Err ECancelled, w') end.
Proof.
  intros H Ha Hs Hcs Ea Hp He. destruct (perform_all_settles cs w H Hcs) as (rs' & w1 & E1 & _ & _ & H1 & Ht). rewrite Ea in E1. injection E1 as <- <-.
  destruct (settled_kept w w' subject id a H Ht Hp He Ha Hs) as (Ha' & i & x & Hslot & Hrec & Hview). split; [done|]. by apply (settled_replays w' subject id a i x).
Qed.
End Claims.

(** ** The namespace and its on-disk form *)

(** C34 (namespace_validation_is_exact): [validate] accepts a table exactly when it
    is a well-formed forest: ids and sibling names unique, ids and versions below
    the counters, every object under a directory of its space with a bounded,
    acyclic ancestor chain, and the four named roots present. *)
Theorem namespace_validation_is_exact m : 0 <= m_sequence m ->
  (Metadata_validate m = Ok tt <->
   (0 < m_sequence m /\ 5 <= m_next m) /\
   (forall n, has m n -> n_id n < m_next m /\ n_version n <= m_sequence m) /\
   (forall n, has m n -> n_parent n = 0 -> root_name_bad n = Ok false) /\
   (forall n, has m n -> n_parent n <> 0 ->
      exists p l, node_of m (n_parent n) = Ok p /\ n_kind p = KDirectory /\ n_space p = n_space n /\
        chain m (n_parent n) l /\ ~ n_id n ∈ l /\ (length l <= 31)%nat) /\
   (forall i j x y, (i < j)%nat -> m_nodes m !! i = Some x -> m_nodes m !! j = Some y -> live x = true -> live y = true ->
      n_id x <> n_id y /\ (n_parent x = n_parent y -> Node_name x <> Node_name y)) /\
   (forall id, 1 <= id <= 4 -> exists n, node_of m id = Ok n /\ n_parent n = 0)).
Proof.
  intros Hq. rewrite validate_spec by done. split.
  - intros [C B P U R]. split; [lia|]. split; [done|]. split; [intros n Hn Hz; by apply (place_root m n Hz), P|]. split; [intros n Hn Hz; by apply (place_child m n Hz), P|].
    split; [|done]. intros i j x y Hij Hx Hy Lx Ly. by apply same_entry_false, (U i j).
  - intros (C & B & P0 & P1 & U & R). split; [lia|done| | |done].
    + intros n Hn. destruct (Z.eq_dec (n_parent n) 0); [apply (place_root m n); auto|apply (place_child m n); auto].
    + intros i j x y Hij Hx Hy Lx Ly. apply same_entry_false; [done|by apply (U i j)].
Qed.

(** On a ready volume with a valid table, [within]
    answers exactly whether the scope is the object itself or one of its
    ancestors (any existing object when the scope is 0), an absent object is in
    no scope, and [resolve] returns the object exactly when its workspace is a
    directory above it. *)
Theorem scope_check_is_ancestry v id scope : vl_poisoned v = false -> metadata_ok (vl_metadata v) ->
  match node_of (vl_metadata v) id with
  | Ok n => exists l, chain (vl_metadata v) id l /\ Volume_within v id scope = Ok (bool_decide (scope = 0 \/ scope ∈ l)) /\
      (Volume_resolve v scope id = Ok n <-> (exists w, node_of (vl_metadata v) scope = Ok w /\ n_kind w = KDirectory) /\ (scope = 0 \/ scope ∈ l))
  | _ => Volume_within v id scope = Ok false /\ forall n, Volume_resolve v scope id <> Ok n
  end.
Proof. apply within_spec. Qed.

(** Reading a bank never disturbs the disk or
    panics, and apart from the device's errors it returns the metadata whose
    sectors and header were published there, whenever these are valid; whatever
    it returns is valid, and anything else is refused as empty or corrupt. *)
Theorem metadata_bank_roundtrip {D : Type} {HD : Disk D} {HV : DiskView D} {HW : ViewLaws D} {HL : DiskLaws D} (d : D) bank r d' :
  Metadata_read d bank = (r, d') ->
  undisturbed d d' /\
  (forall m, metadata_ok m -> contents d (header_sector bank) = publication_header m -> tables_hold (contents d) bank m ->
     r = Ok m \/ exists e, r = Err e /\ device_error e) /\
  match r with Ok m => metadata_ok m | Err e => e = EEmpty \/ e = ECorrupt \/ device_error e | Panic => False end.
Proof.
  intros E. destruct (Metadata_read_reads d bank) as [U Hr]. rewrite E in U, Hr. cbn in U, Hr. split; [done|]. split.
  - intros m Hm Hh Ht. destruct Hr as [-> |Hr]; [left; by apply published_reads|by right].
  - pose proof (read_image_refusal (contents d) bank (contents_ok d)) as Hx. destruct Hr as [-> |(e & -> & He)]; [|by right; right].
    destruct (read_image (contents d) bank) as [m|e|] eqn:Er; [by eapply read_image_ok; [apply contents_ok|exact Er]|tauto|done].
Qed.

(** ** Witnesses *)
Definition quiet (w : Volume * Platter) : bool :=
  negb (vl_poisoned (w.1)) && match p_log (w.2) with [] => true | _ => false end.

Lemma quiet_spec w : quiet w = true ->
  vl_poisoned (w.1) = false /\ survives (w.2) (contents (w.2)) /\ forall n x, may_survive (w.2) n x -> x = contents (w.2) n.
Proof.
  unfold quiet. intros [Hp Hl]%andb_true_iff. apply negb_true_iff in Hp. split; [done|]. split; [intros n; apply view_contents|].
  destruct (w.2) as [st log fs]. cbn in Hl. destruct log; [|done]. by intros n x ->.
Qed.

Definition ran {A} (f : A -> bool) (o : option A) : bool := match o with Some a => f a | None => false end.

Lemma ran_spec {A} (f : A -> bool) (o : option A) : ran f o = true -> exists a, o = Some a /\ f a = true.
Proof. destruct o as [a|]; [|done]. intros H. by exists a. Qed.

Lemma volume_calls_keep_it_sound_witness : exists v d' rs w, Volume_initialize sample_disk = (Ok v, d') /\
  perform_all sample_calls (v, d') = Some (rs, w) /\ length rs = 4%nat /\ sound w.
Proof.
  destruct (Volume_initialize sample_disk) as [r d'] eqn:E. assert (Hr : call_succeeds (Volume_initialize sample_disk).1 = true) by (vm_compute; reflexivity).
  rewrite E in Hr. destruct r as [v|e|]; [|discriminate Hr|discriminate Hr].
  destruct (volume_calls_keep_it_sound sample_disk v d' sample_calls E sample_calls_ok) as (rs & w & H1 & H2 & _ & H3).
  exists v, d', rs, w. exact (conj eq_refl (conj H1 (conj H2 H3))).
Defined.

Lemma bytes_ok_check l : forallb (fun x => (0 <=? x) && (x <? 256)) l = true -> bytes_ok l.
Proof. intros H. apply list.Forall_forall. intros x Hx. eapply forallb_forall in H; [|by apply list_elem_of_In]. unfold is_byte. lia. Qed.

Lemma replace_call_ok id version bytes : forallb (fun x => (0 <=? x) && (x <? 256)) bytes = true -> Forall call_ok [CallReplace id version bytes].
Proof. intros H. constructor; [by apply bytes_ok_check|constructor]. Qed.

(** The same volume on a device that will fail as scheduled. *)
Definition faulty (fs : list fault) (w : Volume * Platter) : Volume * Platter := (w.1, mkPlatter (p_stable (w.2)) (p_log (w.2)) fs).

Lemma faulty_sound fs w : sound w -> sound (faulty fs w).
Proof. destruct w as [v d]. apply undisturbed_sound. by split. Qed.

(** A replacement stopped after twenty bytes of its header. *)
Definition torn_faults : list fault := replicate 15 Fine ++ [Fault EIo 20].

(** A stop tears the header of a replacement: the header found there fails its
    checksum, and the disk left behind mounts the generation before it. *)
Lemma stopped_volume_remounts_witness : exists rs w' r d' m bank, perform_all [CallReplace 5 3 [120]] (faulty torn_faults sample_volume) = Some (rs, w') /\
  checksum_fails (contents (w'.2) (header_sector (1 - vl_bank (sample_volume.1)))) /\
  Volume_mount (platter_flush (w'.2)) = (r, d') /\ call_succeeds r = true /\
  bank_generation (contents (w'.2)) m bank /\ intact (contents (w'.2)) m.
Proof.
  assert (Hc : ran (fun o => bool_decide (checksum_fails (contents ((o.2).2) (header_sector (1 - vl_bank (sample_volume.1))))) &&
                call_succeeds (Volume_mount (platter_flush ((o.2).2))).1)
             (perform_all [CallReplace 5 3 [120]] (faulty torn_faults sample_volume)) = true) by (vm_compute; reflexivity).
  destruct (ran_spec _ _ Hc) as ([rs w'] & E & Hq). apply andb_true_iff in Hq as [Ht Hr]. apply bool_decide_eq_true in Ht. cbn [snd] in Ht, Hr.
  destruct (Volume_mount (platter_flush (w'.2))) as [r d'] eqn:Em.
  destruct (stopped_volume_remounts (faulty torn_faults sample_volume) [CallReplace 5 3 [120]] rs w' (contents (w'.2)) (platter_flush (w'.2)) r d'
    (faulty_sound _ _ (proj1 sample_volume_sound)) (replace_call_ok 5 3 [120] eq_refl) E (fun n => view_contents _ n) (fun n => eq_refl) (fun n x H => H) Em)
    as (m & bank & _ & Hg & Hi & _).
  exists rs, w', r, d', m, bank. split; [exact E|]. split; [exact Ht|]. split; [exact Em|]. split; [exact Hr|]. exact (conj Hg Hi).
Defined.

Lemma volume_create_refines_witness : exists r w' after, Volume_create sample_volume 2 [98] KDirectory = (r, w') /\ call_succeeds r = true /\
  refines sample_volume r w' after.
Proof.
  assert (Hc : call_succeeds (Volume_create sample_volume 2 [98] KDirectory).1 = true) by (vm_compute; reflexivity).
  destruct (Volume_create sample_volume 2 [98] KDirectory) as [r w'] eqn:E.
  destruct (volume_create_refines sample_volume 2 [98] KDirectory r w' (proj1 sample_volume_sound) E) as (after & H & _).
  exists r, w', after. exact (conj eq_refl (conj Hc H)).
Defined.

Lemma volume_remove_refines_witness : exists r w', Volume_remove sample_volume 5 = (r, w') /\ call_succeeds r = true /\
  refines sample_volume r w' (spec_remove (shows sample_volume) 5).
Proof.
  assert (Hc : call_succeeds (Volume_remove sample_volume 5).1 = true) by (vm_compute; reflexivity).
  destruct (Volume_remove sample_volume 5) as [r w'] eqn:E.
  destruct (volume_remove_refines sample_volume 5 r w' (proj1 sample_volume_sound) E) as [H _].
  exists r, w'. exact (conj eq_refl (conj Hc H)).
Defined.

Lemma volume_replace_refines_witness : exists r w', Volume_replace sample_volume 5 3 [120; 121; 122] = Some (r, w') /\ call_succeeds r = true /\
  refines sample_volume r w' (spec_replace (shows sample_volume) 5 8 [120; 121; 122]).
Proof.
  assert (Hc : ran (fun o => call_succeeds (o.1)) (Volume_replace sample_volume 5 3 [120; 121; 122]) = true) by (vm_compute; reflexivity).
  assert (Hq : Volume_sequence (sample_volume.1) + 1 = 8) by (vm_compute; reflexivity).
  destruct (volume_replace_refines sample_volume 5 3 [120; 121; 122] (proj1 sample_volume_sound) (bytes_ok_check [120; 121; 122] eq_refl)) as (r & w' & E & H & _).
  rewrite E in Hc. rewrite Hq in H. exists r, w'. exact (conj E (conj Hc H)).
Defined.

Lemma volume_read_refines_witness : exists v d (n : Node), sample_volume = (v, d) /\ node_of (vl_metadata v) 5 = Ok n /\
  reads_as d (Volume_read_versioned v d 5 (Some 3) 1 10) (Ok (n, [105])).
Proof.
  assert (Hv : shows sample_volume 5 = Some (mkEntry KFile 2 2 [97] 3 [104; 105])) by (vm_compute; reflexivity).
  assert (Hn : call_succeeds (node_of (vl_metadata (sample_volume.1)) 5) = true) by (vm_compute; reflexivity).
  pose proof (volume_read_refines sample_volume 5 (Some 3) 1 10 (proj1 sample_volume_sound) (proj2 sample_volume_sound)) as H.
  rewrite Hv in H. destruct sample_volume as [v d]. cbn [fst snd] in *. destruct (node_of (vl_metadata v) 5) as [n|e|] eqn:En; [|discriminate Hn|discriminate Hn].
  exists v, d, n. exact (conj eq_refl (conj En H)).
Defined.

Lemma publication_is_atomic_witness : exists p, prepare_replace (sample_volume.1) (sample_volume.2) 5 3 [120] = Ok p /\
  sound (Publication_drop (play [EvPoll; EvAdvance; EvCancel] p)).
Proof.
  assert (Hc : match prepare_replace (sample_volume.1) (sample_volume.2) 5 3 [120] with
               | Ok p => negb (vl_poisoned (Publication_drop (play [EvPoll; EvAdvance; EvCancel] p)).1) | _ => false end = true) by (vm_compute; reflexivity).
  destruct (prepare_replace (sample_volume.1) (sample_volume.2) 5 3 [120]) as [p|e|] eqn:E; [|discriminate Hc|discriminate Hc].
  assert (Hs : sound (sample_volume.1, sample_volume.2)) by (rewrite <- surjective_pairing; apply sample_volume_sound).
  destruct (publication_is_atomic (sample_volume.1) (sample_volume.2) 5 3 [120] p [EvPoll; EvAdvance; EvCancel] Hs (bytes_ok_check [120] eq_refl) E) as [_ H].
  exists p. split; [reflexivity|]. apply H. apply negb_true_iff. exact Hc.
Defined.

Lemma versions_identify_contents_witness : exists rs w', perform_all [CallReplace 5 3 [120]] sample_volume = Some (rs, w') /\
  Volume_sequence (sample_volume.1) <= Volume_sequence (w'.1).
Proof.
  assert (Hc : ran (fun o => quiet (o.2)) (perform_all [CallReplace 5 3 [120]] sample_volume) = true) by (vm_compute; reflexivity).
  destruct (ran_spec _ _ Hc) as ([rs w'] & E & Hq). destruct (quiet_spec w' Hq) as (Hp & _ & _).
  pose proof (replace_call_ok 5 3 [120] eq_refl) as Ho.
  destruct (versions_identify_contents sample_volume [CallReplace 5 3 [120]] rs w' (proj1 sample_volume_sound) Ho E Hp) as [H _].
  exists rs, w'. exact (conj E H).
Defined.

Definition sample_retry : FsRetry := mkFsRetry fs_lineage 1 9.
Definition sample_request : FsReplacement := mkFsReplacement 2 sample_retry 5 3.

Lemma sample_client_ok : fs_replacement_ok 1 0 sample_request [120].
Proof. split; [split; [by vm_compute|by vm_compute|by apply bytes_ok_check]|by vm_compute]. Qed.

Definition epoch_of (w : Volume * Platter) : option Z := rv_epoch <$> m_recovery (vl_metadata (w.1)).

Definition same_epoch (w w' : Volume * Platter) : bool := bool_decide (epoch_of w = epoch_of w').

Lemma epoch_same w w' : same_epoch w w' = true ->
  forall r r', m_recovery (vl_metadata (w.1)) = Some r -> m_recovery (vl_metadata (w'.1)) = Some r' -> rv_epoch r' = rv_epoch r.
Proof. unfold same_epoch. intros E%bool_decide_eq_true r r' Hr Hr'. unfold epoch_of in E. rewrite Hr, Hr' in E. by injection E. Qed.

Lemma answered_requests_stay_answered_witness : exists receipt w1 rs w2,
  replace_scoped sample_volume 1 0 sample_request [120] = Some (Ok receipt, w1) /\ perform_all [CallReplace 5 8 [121]] w1 = Some (rs, w2) /\
  replace_scoped w2 1 0 sample_request [120] = Some (Ok receipt, w2) /\
  replace_scoped w2 1 0 sample_request [122] = Some (Err EIdempotencyConflict, w2).
Proof.
  assert (Hc : ran (fun o => call_succeeds (o.1) && ran (fun o' => quiet (o'.2) && same_epoch (o.2) (o'.2)) (perform_all [CallReplace 5 8 [121]] (o.2)))
                 (replace_scoped sample_volume 1 0 sample_request [120]) = true) by (vm_compute; reflexivity).
  destruct (ran_spec _ _ Hc) as ([r w1] & E1 & H1). apply andb_true_iff in H1 as [Hr H1]. destruct r as [receipt| |]; [|discriminate Hr|discriminate Hr].
  destruct (ran_spec _ _ H1) as ([rs w2] & E2 & H2). apply andb_true_iff in H2 as [Hq He].
  destruct (quiet_spec w2 Hq) as (Hp & _ & _). pose proof (replace_call_ok 5 8 [121] eq_refl) as Ho.
  pose proof (answered_requests_stay_answered sample_volume 1 0 sample_request [120] receipt w1 [CallReplace 5 8 [121]] rs w2 (proj1 sample_volume_sound)
    sample_client_ok E1 Ho E2 Hp (epoch_same w1 w2 He)) as H.
  exists receipt, w1, rs, w2. split; [exact E1|]. split; [exact E2|]. split.
  - exact (H 0 5 3 [120] ltac:(apply Nat.leb_le; reflexivity)).
  - exact (H 0 5 3 [122] ltac:(apply Nat.leb_le; reflexivity)).
Defined.

(** The sample volume with one admission, cancelled. *)
Definition sample_admission : FsAdmissionId := mkFsAdmissionId fs_lineage 8.
Definition cancelled_volume : Volume * Platter := after_calls [CallAdmit 1 0 sample_request [120]; CallCancel 1 sample_admission] sample_volume.

Lemma cancelled_volume_sound : sound cancelled_volume.
Proof.
  assert (Hc : Forall call_ok [CallAdmit 1 0 sample_request [120]; CallCancel 1 sample_admission])
    by (constructor; [exact sample_client_ok|constructor; [exact I|constructor]]).
  unfold cancelled_volume, after_calls. destruct (perform_all_settles _ sample_volume (proj1 sample_volume_sound) Hc) as (rs & w' & -> & _ & _ & Hs & _). exact Hs.
Qed.

Lemma settled_admissions_are_final_witness : exists a rs w', admission_by_id (cancelled_volume.1) 1 sample_admission = Ok a /\
  perform_all [CallReplace 5 3 [121]] cancelled_volume = Some (rs, w') /\ admission_by_id (w'.1) 1 sample_admission = Ok a.
Proof.
  assert (Ha : match admission_by_id (cancelled_volume.1) 1 sample_admission with Ok a => bool_decide (fs_state (av_status a) = FCancelled) | _ => false end = true)
    by (vm_compute; reflexivity).
  destruct (admission_by_id (cancelled_volume.1) 1 sample_admission) as [a| |] eqn:Ea; [|discriminate Ha|discriminate Ha]. apply bool_decide_eq_true in Ha.
  assert (Hc : ran (fun o => quiet (o.2) && same_epoch cancelled_volume (o.2)) (perform_all [CallReplace 5 3 [121]] cancelled_volume) = true)
    by (vm_compute; reflexivity).
  destruct (ran_spec _ _ Hc) as ([rs w'] & E & H1). apply andb_true_iff in H1 as [Hq He].
  destruct (quiet_spec w' Hq) as (Hp & _ & _). pose proof (replace_call_ok 5 3 [121] eq_refl) as Ho.
  destruct (settled_admissions_are_final cancelled_volume 1 sample_admission a [CallReplace 5 3 [121]] rs w' cancelled_volume_sound Ea
    ltac:(by rewrite Ha) Ho E Hp (epoch_same _ _ He)) as [H _].
  exists a, rs, w'. split; [reflexivity|]. split; [exact E|exact H].
Defined.

Lemma namespace_validation_is_exact_witness :
  Metadata_validate (vl_metadata (sample_volume.1)) = Ok tt /\ forall id, 1 <= id <= 4 -> exists n, node_of (vl_metadata (sample_volume.1)) id = Ok n /\ n_parent n = 0.
Proof.
  assert (Hq : (0 <=? m_sequence (vl_metadata (sample_volume.1))) = true) by (vm_compute; reflexivity). apply Z.leb_le in Hq.
  assert (Hv : Metadata_validate (vl_metadata (sample_volume.1)) = Ok tt) by (vm_compute; reflexivity).
  pose proof (proj1 (namespace_validation_is_exact (vl_metadata (sample_volume.1)) Hq) Hv) as (_ & _ & _ & _ & _ & H). exact (conj Hv H).
Defined.

Lemma sample_metadata_ok : metadata_ok (vl_metadata (sample_volume.1)).
Proof. destruct sample_volume_sound as [H Hp]. destruct (sd_rest _ H Hp) as [R _]. apply R. Qed.

Lemma scope_check_is_ancestry_witness : Volume_within (sample_volume.1) 5 2 = Ok true /\ Volume_within (sample_volume.1) 5 3 = Ok false.
Proof.
  assert (Hn : call_succeeds (node_of (vl_metadata (sample_volume.1)) 5) = true) by (vm_compute; reflexivity).
  pose proof (scope_check_is_ancestry (sample_volume.1) 5 2 (proj2 sample_volume_sound) sample_metadata_ok) as H.
  destruct (node_of (vl_metadata (sample_volume.1)) 5); [|discriminate Hn|discriminate Hn]. destruct H as (l & _ & _).
  split; by vm_compute.
Defined.

Lemma metadata_bank_roundtrip_witness : exists r d', Metadata_read (sample_volume.2) 0 = (r, d') /\ call_succeeds r = true /\ undisturbed (sample_volume.2) d'.
Proof.
  assert (Hc : call_succeeds (Metadata_read (sample_volume.2) 0).1 = true) by (vm_compute; reflexivity).
  destruct (Metadata_read (sample_volume.2) 0) as [r d'] eqn:E. destruct (metadata_bank_roundtrip (sample_volume.2) 0 r d' E) as [U _].
  exists r, d'. exact (conj eq_refl (conj Hc U)).
Defined.
