(* ===== verification/SvcClients.v ===== *)
(** * Calls of the file service, its clients and its requests

    A service call reads and changes one state [St] (the server, the disk it
    borrows and whatever its control callback captured) and ends with a
    [Result].  Calls that wait for a device run on fuel: [None] means the fuel
    ran out.  [wp] is the weakest precondition of such a call; with [total] it
    also promises that the call returns.  Then the client table, its grants and
    staging slots, the shapes of requests, and replies. *)
From stdpp Require Import base list option numbers.
From Stdlib Require Import ZArith Lia Bool.
From S2P Require Import Prelude Bytes Codec AbiFiles AbiIdentity AbiMessages AbiAdmission AbiServices FsDisk FsNode FsVolume.

Definition call (St E A : Type) : Type := St -> option (outcome E A * St).

Section Monad.
Context {St E : Type}.

Definition call_ret {A} (r : outcome E A) : call St E A := fun st => Some (r, st).

(** [?]: an error leaves the caller with the state it was raised in. *)
Definition call_bind {A B} (m : call St E A) (k : A -> call St E B) : call St E B := fun st =>
  match m st with
  | Some (Ok a, st) => k a st
  | Some (Err e, st) => Some (Err e, st)
  | Some (Panic, st) => Some (Panic, st)
  | None => None
  end.

(** [match call { Ok(a) => .., Err(e) => .. }]. *)
Definition call_catch {A B} (m : call St E A) (k : A -> call St E B) (h : E -> call St E B) : call St E B := fun st =>
  match m st with
  | Some (Ok a, st) => k a st
  | Some (Err e, st) => h e st
  | Some (Panic, st) => Some (Panic, st)
  | None => None
  end.

Definition call_get : call St E St := fun st => Some (Ok st, st).
Definition call_put (st : St) : call St E unit := fun _ => Some (Ok tt, st).
End Monad.

Notation "'let!' x ':=' m 'in' k" := (call_bind m (fun x => k))
  (at level 10, x pattern, m at level 100, k at level 200) : rust_scope.

(** ** Weakest preconditions *)
Section Wp.
Context {St E : Type}.

Definition wp {A} (total : bool) (m : call St E A) (st : St) (Q : outcome E A -> St -> Prop) : Prop :=
  match m st with
  | Some (r, st') => r <> Panic /\ Q r st'
  | None => total = false
  end.

Lemma wp_ret {A} t (r : outcome E A) st (Q : outcome E A -> St -> Prop) : r <> Panic -> Q r st -> wp t (call_ret r) st Q.
Proof. by intros. Qed.

Lemma wp_get t st (Q : outcome E St -> St -> Prop) : Q (Ok st) st -> wp t call_get st Q.
Proof. by intros. Qed.

Lemma wp_put t st st' (Q : outcome E unit -> St -> Prop) : Q (Ok tt) st' -> wp t (call_put st') st Q.
Proof. by intros. Qed.

Lemma wp_bind {A B} t (m : call St E A) (k : A -> call St E B) st Q :
  wp t m st (fun r st' => match r with Ok a => wp t (k a) st' Q | Err e => Q (Err e) st' | Panic => False end) ->
  wp t (call_bind m k) st Q.
Proof. unfold wp, call_bind. destruct (m st) as [[[a|e|] st']|]; [by intros [_ ?]|by intros [_ ?]|by intros [? _]|done]. Qed.

Lemma wp_catch {A B} t (m : call St E A) (k : A -> call St E B) (h : E -> call St E B) st Q :
  wp t m st (fun r st' => match r with Ok a => wp t (k a) st' Q | Err e => wp t (h e) st' Q | Panic => False end) ->
  wp t (call_catch m k h) st Q.
Proof. unfold wp, call_catch. destruct (m st) as [[[a|e|] st']|]; [by intros [_ ?]|by intros [_ ?]|by intros [? _]|done]. Qed.

Lemma wp_mono {A} t (m : call St E A) st (Q Q' : outcome E A -> St -> Prop) :
  wp t m st Q -> (forall r st', r <> Panic -> Q r st' -> Q' r st') -> wp t m st Q'.
Proof. unfold wp. destruct (m st) as [[r st']|]; [|done]. intros [Hp Hq] Hm. split; [done|]. by apply Hm. Qed.

(** [?] on a pure result. *)
Lemma wp_pure {A B} t (o : outcome E A) (k : A -> call St E B) st Q :
  o <> Panic -> (forall e, o = Err e -> Q (Err e) st) -> (forall a, o = Ok a -> wp t (k a) st Q) ->
  wp t (call_bind (call_ret o) k) st Q.
Proof. intros Hp He Hk. apply wp_bind, wp_ret; [done|]. destruct o; [by apply Hk|by apply He|done]. Qed.

Lemma wp_get_bind {B} t (k : St -> call St E B) st Q : wp t (k st) st Q -> wp t (call_bind call_get k) st Q.
Proof. by intros. Qed.

Lemma wp_put_bind {B} t st' (k : unit -> call St E B) st Q : wp t (k tt) st' Q -> wp t (call_bind (call_put st') k) st Q.
Proof. by intros. Qed.

Lemma wp_apply {A} t (m : call St E A) st Q r st' : wp t m st Q -> m st = Some (r, st') -> r <> Panic /\ Q r st'.
Proof. unfold wp. intros Hw E0. by rewrite E0 in Hw. Qed.

Lemma wp_total {A} (m : call St E A) st Q : wp true m st Q -> exists r st', m st = Some (r, st') /\ r <> Panic /\ Q r st'.
Proof. unfold wp. destruct (m st) as [[r st']|]; [|done]. intros [Hp Hq]. by exists r, st'. Qed.
End Wp.

(** ** Client authority and staging of the file service

    crates/file-service/src/authority.rs (what a grant allows), transfer.rs (the
    two staging slots) and clients.rs (grants, roots and staging together), with
    [Caller] of admission/mod.rs and admission/authority.rs. *)
Definition CLIENTS : nat := 4.
Definition READ_RIGHT : Z := 1.
Definition WRITE_RIGHT : Z := 2.
Definition INSPECT_RIGHT : Z := 4.
Definition CANCEL_RIGHT : Z := 8.

(** ** Grants *)
Record FileGrant := mkFileGrant {
  fg_peer : Z;
  fg_endpoint : Z;
  fg_scope : Z;
  fg_second : Z;
  fg_rights : Z;
  fg_generation : Z;
  fg_expires : Z;
  fg_subject : Z;
}.

Definition FileGrant_check (g : FileGrant) (peer context now : Z) : outcome FileError unit :=
  if negb (fg_peer g =? peer) then Err FDenied
  else if negb (fg_generation g =? context) || (fg_rights g =? 0) then Err FRevoked
  else if negb (fg_expires g =? 0) && (fg_expires g <=? now) then Err FExpired
  else Ok tt.

(** [volume.within], which never panics: its walk stays inside the node table. *)
Definition within (v : Volume) (id scope : Z) : bool :=
  match Volume_within v id scope with Ok b => b | _ => false end.

Definition has_right (g : FileGrant) (right : Z) : bool := negb (Z.land (fg_rights g) right =? 0).

Definition FileGrant_beside (g : FileGrant) (v : Volume) (id : Z) : bool := negb (fg_second g =? 0) && within v id (fg_second g).

Definition FileGrant_inspect (g : FileGrant) (v : Volume) (id : Z) : outcome FileError unit :=
  if (fg_subject g =? 0) || negb (has_right g INSPECT_RIGHT)
     || negb ((fg_scope g =? 0) || (fg_scope g =? id) || within v id (fg_scope g) || FileGrant_beside g v id)
  then Err FDenied else Ok tt.

Definition FileGrant_access (g : FileGrant) (v : Volume) (id : Z) (write : bool) : outcome FileError unit :=
  let right := if write then WRITE_RIGHT else READ_RIGHT in
  if negb (has_right g right)
     || negb (((id =? 0) && (fg_scope g =? 0) && negb write) || within v id (fg_scope g) || FileGrant_beside g v id)
  then Err FDenied else Ok tt.

(** operations/authority.rs *)
Definition operation_scope (g : FileGrant) (v : Volume) (workspace object right : Z) : outcome FileError unit :=
  if (fg_subject g =? 0) || negb (has_right g right)
     || negb ((fg_scope g =? 0) || (fg_scope g =? object) || (fg_scope g =? workspace)
              || within v workspace (fg_scope g) || within v object (fg_scope g))
  then Err FDenied else Ok tt.

Definition operation_inspect (g : FileGrant) (v : Volume) (workspace object : Z) : outcome FileError unit :=
  operation_scope g v workspace object INSPECT_RIGHT.

(** ** Staging slots *)
Record Transfer := mkTransfer {
  tf_client : nat;
  tf_admission : bool;
  tf_logical : option Replacement;
  tf_retry : option Retry;
  tf_context : Z;
  tf_id : Z;
  tf_version : Z;
  tf_total : nat;
  tf_received : nat;
  tf_data : list Z;
}.

Definition REPLACE_CHUNK : Z := 19.
Definition REPLACE_COMMIT : Z := 20.
Definition TRACK_BEGIN : Z := 13.
Definition ADM_CHUNK : Z := 49.

Definition Transfers_new : list (option Transfer) := [None; None].

Definition owned_by (client : nat) (s : Transfer) : bool := (tf_client s =? client)%nat.

Definition Transfers_clear (t : list (option Transfer)) (client : nat) : list (option Transfer) :=
  (fun s => if is_some_and (owned_by client) s then None else s) <$> t.

Definition transfer_matches (client : nat) (id context : Z) (s : Transfer) : bool :=
  owned_by client s && (tf_id s =? id) && (tf_context s =? context).

Definition Transfers_index (t : list (option Transfer)) (client : nat) (id context : Z) : outcome FileError nat :=
  ok_or (position (is_some_and (transfer_matches client id context)) t) FNoTransfer.

(** The requests that open a staged logical replacement. *)
Definition opens_logical (op : Z) : bool := (op =? REPLACE_OPEN) || (op =? ADMISSION_OPEN).

Definition staged_logical (request : Packet) : outcome FileError (option Replacement) :=
  if opens_logical (p_op request) then let? r := Replacement_decode request in Ok (Some r) else Ok None.
Definition staged_retry (request : Packet) : outcome FileError (option Retry) :=
  if p_op request =? TRACK_BEGIN then let? r := Retry_decode (Packet_payload request) in Ok (Some r) else Ok None.

Definition Transfers_begin (t : list (option Transfer)) (client : nat) (request : Packet) : outcome FileError (list (option Transfer)) :=
  if Z.of_nat MAX_FILE <? p_arg request then Err FSize
  else if existsb (owned_by client) (slots t) then Err FBusy
  else
    let? slot := ok_or (position is_none t) FBusy in
    let? logical := staged_logical request in
    let? retry := staged_retry request in
    Ok (<[slot := Some (mkTransfer client (p_op request =? ADMISSION_OPEN) logical retry (p_context request) (p_id request)
                          (p_version request) (Z.to_nat (p_arg request)) 0 (zeros MAX_FILE))]> t).

(** [self.slots[index].as_mut().unwrap()]. *)
Definition transfer_at (t : list (option Transfer)) (index : nat) : outcome FileError Transfer :=
  match t !! index with Some (Some s) => Ok s | _ => Panic end.

(** [dst[i..j].copy_from_slice(src)]: the lengths must agree. *)
Definition copy_from_slice (dst : list Z) (i j : nat) (src : list Z) : outcome FileError (list Z) :=
  if (i <=? j)%nat && (j <=? length dst)%nat && (length src =? j - i)%nat then Ok (write dst i src) else Panic.

Definition receive (s : Transfer) (data : list Z) (received : nat) : Transfer :=
  mkTransfer (tf_client s) (tf_admission s) (tf_logical s) (tf_retry s) (tf_context s) (tf_id s) (tf_version s) (tf_total s) received data.

Definition Transfers_chunk (t : list (option Transfer)) (client : nat) (request : Packet) : outcome FileError (list (option Transfer)) :=
  let? index := Transfers_index t client (p_id request) (p_context request) in
  let? slot := transfer_at t index in
  if negb (Bool.eqb (tf_admission slot) (p_op request =? ADM_CHUNK))
     || negb (Bool.eqb (is_some (tf_logical slot)) ((p_op request =? REPLACE_CHUNK) || (p_op request =? ADM_CHUNK)))
  then Err FProtocol
  else
    let count := Z.to_nat (p_count request) in
    if negb (p_arg request =? Z.of_nat (tf_received slot)) || (count =? 0)%nat || (tf_total slot <? tf_received slot + count)%nat
    then Err FOffset
    else
      let fin := (tf_received slot + count)%nat in
      let? data := copy_from_slice (tf_data slot) (tf_received slot) fin (Packet_payload request) in
      Ok (<[index := Some (receive slot data fin)]> t).

Definition Transfers_take (t : list (option Transfer)) (client : nat) (request : Packet) : outcome FileError (Transfer * list (option Transfer)) :=
  let? index := Transfers_index t client (p_id request) (p_context request) in
  let? transfer := transfer_at t index in
  if negb (tf_received transfer =? tf_total transfer)%nat then Err FOffset
  else if negb (Bool.eqb (tf_admission transfer) (p_op request =? ADM_ACCEPT))
          || negb (Bool.eqb (is_some (tf_logical transfer)) ((p_op request =? REPLACE_COMMIT) || (p_op request =? ADM_ACCEPT)))
  then Err FProtocol
  else Ok (transfer, <[index := None]> t).

Definition Transfers_logical (t : list (option Transfer)) (client : nat) (admission : bool) : option Replacement :=
  s ← List.find (fun s => owned_by client s && Bool.eqb (tf_admission s) admission) (slots t);
  tf_logical s.

Definition Transfers_tracked (t : list (option Transfer)) (client : nat) : bool :=
  existsb (fun s => owned_by client s && is_some (tf_retry s)) (slots t).

Definition Transfers_count (t : list (option Transfer)) : nat := length (slots t).

(** ** Clients *)
Record Clients := mkClients {
  cl_grants : list (option FileGrant);
  cl_roots : list Z;
  cl_next : Z;
  cl_transfers : list (option Transfer);
}.

Definition Clients_new : Clients := mkClients (replicate CLIENTS None) (replicate CLIENTS 0) 1 Transfers_new.

Definition set_transfers (c : Clients) (t : list (option Transfer)) : Clients := mkClients (cl_grants c) (cl_roots c) (cl_next c) t.

Definition Clients_grant_at (c : Clients) (slot : nat) : option FileGrant := mjoin (cl_grants c !! slot).

Definition drop_rights (g : FileGrant) : FileGrant :=
  mkFileGrant (fg_peer g) (fg_endpoint g) (fg_scope g) (fg_second g) 0 (fg_generation g) (fg_expires g) (fg_subject g).

(** One turn of the loop of [revoke_root]. *)
Definition revoke_slot (root : Z) (a : Clients * Z) (index : nat) : Clients * Z :=
  let '(c, mask) := a in
  match cl_roots c !! index, cl_grants c !! index with
  | Some r, Some (Some grant) =>
    if r =? root then
      (mkClients (<[index := Some (drop_rights grant)]> (cl_grants c)) (cl_roots c) (cl_next c) (Transfers_clear (cl_transfers c) index),
       Z.lor mask (Z.shiftl 1 (Z.of_nat index)))
    else a
  | _, _ => a
  end.

Definition Clients_revoke_root (c : Clients) (root : Z) : Z * Clients :=
  if root =? 0 then (0, c)
  else let '(c, mask) := foldl (revoke_slot root) (c, 0) (seq 0 CLIENTS) in (mask, c).

Definition root_at (c : Clients) (slot : nat) : outcome FileError Z :=
  match cl_roots c !! slot with Some r => Ok r | None => Panic end.

Definition Clients_revoke (c : Clients) (slot : nat) : outcome FileError Z * Clients :=
  match Clients_grant_at c slot with
  | None => (Err FNotFound, c)
  | Some _ =>
    match root_at c slot with
    | Ok root => let '(mask, c) := Clients_revoke_root c root in (Ok mask, c)
    | Err e => (Err e, c)
    | Panic => (Panic, c)
    end
  end.

Definition Clients_detach (c : Clients) (slot : nat) : Clients :=
  match Clients_grant_at c slot with
  | None => c
  | Some grant =>
    let c := if bool_decide (cl_roots c !! slot = Some (fg_generation grant)) then (Clients_revoke c slot).2 else c in
    mkClients (<[slot := None]> (cl_grants c)) (<[slot := 0]> (cl_roots c)) (cl_next c) (Transfers_clear (cl_transfers c) slot)
  end.

Definition expire_slot (now : Z) (c : Clients) (slot : nat) : Clients :=
  if is_some_and (fun g => negb (fg_expires g =? 0) && (fg_expires g <=? now)) (mjoin (cl_grants c !! slot))
  then set_transfers c (Transfers_clear (cl_transfers c) slot) else c.

Definition Clients_expire (c : Clients) (now : Z) : Clients := foldl (expire_slot now) c (seq 0 CLIENTS).

Definition Clients_pending (c : Clients) : nat := Transfers_count (cl_transfers c).

(** ** Callers of admissions *)
Record Caller := mkCaller { ca_slot : nat; ca_peer : Z; ca_context : Z }.

Definition Caller_check_right (a : Caller) (c : Clients) (now right : Z) : outcome FileError FileGrant :=
  let? grant := ok_or (Clients_grant_at c (ca_slot a)) FRevoked in
  let? _ := FileGrant_check grant (ca_peer a) (ca_context a) now in
  if (fg_subject grant =? 0) || negb (Z.land (fg_rights grant) right =? right) then Err FDenied else Ok grant.

Definition Caller_check (a : Caller) (c : Clients) (now : Z) : outcome FileError FileGrant := Caller_check_right a c now INSPECT_RIGHT.

(** ** Requests and replies of the file service

    crates/file-service/src/validation.rs (the shape of every request) and
    reply.rs (node replies and the wire form of storage errors); the request
    codes are those of crates/abi/src/files.rs and files/admission. *)
Definition OP_LOOKUP : Z := 1.
Definition OP_STAT : Z := 2.
Definition OP_LIST : Z := 3.
Definition OP_CREATE : Z := 4.
Definition OP_REMOVE : Z := 5.
Definition OP_READ : Z := 6.
Definition OP_BEGIN : Z := 7.
Definition OP_CHUNK : Z := 8.
Definition OP_COMMIT : Z := 9.
Definition OP_ABORT : Z := 10.
Definition OP_MKDIR : Z := 11.
Definition OP_RECOVERY : Z := 12.
Definition OP_RECEIPT : Z := 14.
Definition REPLACE_ABORT : Z := 21.
Definition ADM_ABORT : Z := 51.

Definition one_of (ops : list Z) (op : Z) : bool := existsb (Z.eqb op) ops.

Definition envelope (p : Packet) : outcome FileError unit :=
  if negb (p_status p =? 0) || (Z.of_nat DATA <? p_count p) || negb (all_zero (drop (Z.to_nat (p_count p)) (p_data p)))
  then Err FProtocol else Ok tt.

(** The shape of each request; [Err] only where the source returns early. *)
Definition request_shape (p : Packet) : outcome FileError bool :=
  let op := p_op p in
  let bare := (p_count p =? 0) && (p_arg p =? 0) && (p_version p =? 0) in
  let identified := (p_count p =? 16) && (p_id p =? 0) && (p_arg p =? 0) in
  if one_of [OP_LOOKUP; OP_CREATE; OP_MKDIR] op then
    Ok ((1 <=? p_count p) && (p_count p <=? 31) && (p_arg p =? 0) && (p_version p =? 0))
  else if one_of [OP_STAT; OP_REMOVE; OP_COMMIT; OP_ABORT] op then Ok bare
  else if op =? OP_LIST then Ok ((p_count p =? 0) && (p_version p =? 0))
  else if one_of [OP_READ; OP_BEGIN] op then Ok (p_count p =? 0)
  else if one_of [REPLACE_OPEN; ADMISSION_OPEN] op then Ok (p_count p =? 36)
  else if one_of [REPLACE_CHUNK; ADM_CHUNK] op then Ok (negb (p_count p =? 0) && (p_version p =? 0))
  else if one_of [REPLACE_COMMIT; REPLACE_ABORT; ADM_ACCEPT; ADM_ABORT] op then Ok bare
  else if one_of [OPERATION_RETRY; ADM_RETRY] op then Ok ((p_count p =? 24) && (p_arg p =? 0))
  else if one_of [OPERATION_ID; ADM_GET; ADM_EXECUTE; ADM_CANCEL; ADM_ACTIVITY; ADM_REQUEST_CANCEL] op then Ok identified
  else if op =? ADM_SCHEDULE then Ok identified
  else if op =? LIFECYCLE_CANCEL then
    if negb (p_arg p =? LIFECYCLE_VERSION) then Err FUnsupportedVersion
    else let? _ := CancelAck_decode_request p in Ok true
  else if op =? ADM_OBSERVE then
    if negb ((p_arg p =? OBSERVATION_VERSION) || (p_arg p =? OBSERVATION_V2)) then Err FUnsupportedVersion
    else Ok ((p_count p =? 16) && (p_id p =? 0))
  else if op =? OPERATION_PART then Ok ((p_count p =? 16) && (p_id p =? 0) && ((p_arg p =? 40) || (p_arg p =? 80)))
  else if op =? OP_REFERENCES then Ok ((p_count p =? 0) && (p_version p =? 0))
  else if one_of [READ_OPEN; READ_CHUNK] op then Ok (p_count p =? 30)
  else if op =? OP_RECOVERY then Ok bare
  else if op =? TRACK_BEGIN then Ok (p_count p =? 32)
  else if op =? OP_RECEIPT then Ok ((p_count p =? 32) && (p_arg p =? 0) && (p_version p =? 0))
  else if op =? OP_CHUNK then Ok (negb (p_count p =? 0) && (p_version p =? 0))
  else if op =? OP_CAPABILITIES then Ok (bare && (p_id p =? 0))
  else if op =? OP_DESCRIBE then let? _ := negotiation_decode_request p in Ok true
  else Ok false.

Definition validate_request (p : Packet) : outcome FileError unit :=
  let? _ := envelope p in
  let? valid := request_shape p in
  if valid : bool then Ok tt else Err FProtocol.

(** ** Replies *)
Definition with_context (p : Packet) (context : Z) : Packet :=
  mkPacket (p_op p) (p_status p) (p_count p) (p_id p) (p_arg p) context (p_version p) (p_data p).
Definition with_status (p : Packet) (status : Z) : Packet :=
  mkPacket (p_op p) status (p_count p) (p_id p) (p_arg p) (p_context p) (p_version p) (p_data p).
Definition with_id (p : Packet) (id : Z) : Packet :=
  mkPacket (p_op p) (p_status p) (p_count p) id (p_arg p) (p_context p) (p_version p) (p_data p).

(** [Packet::new(op)] with the request's context. *)
Definition blank_reply (op context : Z) : Packet := with_context (Packet_new op) context.
Definition failure (op context : Z) (e : FileError) : Packet := with_status (blank_reply op context) (FileError_repr e).

Definition node_reply (p : Packet) (n : Node) (cursor : Z) : Packet :=
  let d := p_data p in
  let d := write d 0 [Kind_repr (n_kind n)] in
  let d := write d 1 [n_space n] in
  let d := write d 2 [Z.of_nat (length (Node_name n))] in
  let d := write d 3 [cursor] in
  let d := write d 4 (le_bytes 4 (n_parent n)) in
  let d := write d 8 (Node_name n) in
  mkPacket (p_op p) (p_status p) 40 (n_id n) (n_length n) (p_context p) (n_version n) d.

(** [reply::error]. *)
Definition wire_error (e : FsError) : FileError :=
  match e with
  | EIo => FIo
  | EUncertain => FUncertain
  | EInvalid => FInvalid
  | ECorrupt => FCorrupt
  | ENotFound => FNotFound
  | EExists => FExists
  | ENotDirectory => FNotDirectory
  | EIsDirectory => FIsDirectory
  | ENotEmpty => FNotEmpty
  | EFull => FFull
  | ESize => FSize
  | EVersion => FVersion
  | EReadOnly => FReadOnly
  | EEmpty => FEmpty
  | EExhausted => FExhausted
  | EUnsupported => FUnsupported
  | ELineage => FLineage
  | EExpiredEpoch => FExpiredEpoch
  | EOutcomeUnknown => FOutcomeUnknown
  | EIdempotencyConflict => FIdempotencyConflict
  | EBusy => FBusy
  | ECancelled => FUnsupported
  end.

(** A storage result on the wire: [.map_err(reply::error)]. *)
Definition stored_as {A} (r : outcome FsError A) : outcome FileError A := map_err wire_error r.
