(* ===== verification/SvcServer.v ===== *)
(** * The file server's requests (crates/file-service/src)

    grants.rs (administration of grants), read.rs, recovery.rs,
    capabilities.rs, negotiation.rs, operations/query.rs and mutation.rs, and
    the parts of admission/authority.rs and admission/wire/ that do not
    publish.  A [Service] is the [Server] with the disk it borrows and the
    state [s_owner] of the transport's control callback. *)
From stdpp Require Import base list option numbers.
From Stdlib Require Import ZArith Lia Bool.
From S2P Require Import Prelude Bytes Codec AbiFiles AbiIdentity AbiMessages AbiReceipts AbiAdmission AbiServices FsDisk FsNode FsRecovery FsVolume FsPublication SvcClients.

Record Service (D S : Type) := mkService {
  s_volume : Volume;
  s_clients : Clients;
  s_instance : Z;
  s_disk : D;
  s_owner : S;
}.
Arguments mkService {D S}.
Arguments s_volume {D S}. Arguments s_clients {D S}. Arguments s_instance {D S}. Arguments s_disk {D S}. Arguments s_owner {D S}.

(** A call on the service. *)
Definition serving (D S A : Type) : Type := call (Service D S) FileError A.

(** ** Wire values and storage values *)
Definition stored_retry (workspace : Workspace) (retry : OpRetry) : FsRetry :=
  mkFsRetry (ws_lineage workspace) (e_value (or_epoch retry)) (k_value (or_key retry)).

Definition native_receipt (r : FsReceipt) : Receipt :=
  mkReceipt (mkRetry (ry_lineage (fr_retry r)) (ry_epoch (fr_retry r)) (ry_key (fr_retry r))) (fr_id r) (fr_previous r) (fr_committed r) (fr_length r).
Definition tracked_retry (r : Retry) : FsRetry := mkFsRetry (rt_lineage r) (rt_epoch r) (rt_key r).

(** admission/wire/codec.rs *)
Definition stored_replacement (r : Replacement) : FsReplacement :=
  mkFsReplacement (ws_root (rp_workspace r)) (stored_retry (rp_workspace r) (rp_retry r)) (rs_object (rp_resource r)) (v_value (rp_expected r)).
Definition stored_id (a : AdmissionId) : FsAdmissionId := mkFsAdmissionId (ai_lineage a) (ai_number a).
Definition wire_state (s : FsState) : AdmState := match s with FAdmitted => AAdmitted | FCancelled => ACancelled | FCommitted => ACommitted end.

Definition status_packet (old : FsAdmission) (op context : Z) : outcome FileError Packet :=
  let? id := AdmissionId_new (fa_lineage (fs_id (av_status old))) (fa_number (fs_id (av_status old))) in
  let? inst := Instance_new (fa_lineage (fs_id (av_status old))) (av_instance old) in
  Status_packet (mkStatus id (wire_state (fs_state (av_status old))) inst (fs_terminal (av_status old))) op context.

(** operations/query.rs *)
Definition operation_receipt `{Digest} (old : FsOperation) : outcome FileError FileOperation :=
  let r := fo_receipt old in
  let lineage := ry_lineage (fr_retry r) in
  let? workspace := Workspace_new lineage (FsPublication.fo_workspace old) in
  let? id := OperationId_new lineage (fr_committed r) in
  let? inst := Instance_new lineage (FsPublication.fo_instance old) in
  let? resource := Resource_new workspace (fr_id r) in
  let? previous := Version_new (fr_previous r) in
  let? version := Version_new (fr_committed r) in
  let? epoch := Epoch_new (ry_epoch (fr_retry r)) in
  let? key := Key_new (ry_key (fr_retry r)) in
  Ok (mkFileOperation id inst workspace resource previous version (fr_length r) (mkOpRetry epoch key) (sha256 (fo_bytes old))).

(** ** Administration of grants (grants.rs) *)
Definition second_scope (v : Volume) (scope second : Z) : outcome FileError unit :=
  if second =? 0 then Ok tt
  else if (scope =? 0) || (second =? scope)
          || negb (match Volume_stat v second with Ok n => kind_is (n_kind n) KFile | _ => false end)
          || within v second scope || within v scope second
  then Err FInvalid else Ok tt.

Definition set_generation (g : FileGrant) (generation : Z) : FileGrant :=
  mkFileGrant (fg_peer g) (fg_endpoint g) (fg_scope g) (fg_second g) (fg_rights g) generation (fg_expires g) (fg_subject g).
Definition set_second (g : FileGrant) (second : Z) : FileGrant :=
  mkFileGrant (fg_peer g) (fg_endpoint g) (fg_scope g) second (fg_rights g) (fg_generation g) (fg_expires g) (fg_subject g).

Definition grant_invalid (v : Volume) (slot : nat) (g : FileGrant) : bool :=
  (CLIENTS <=? slot)%nat || (fg_peer g =? 0) || (fg_endpoint g =? 0) || (fg_rights g =? 0)
  || negb (Z.land (fg_rights g) (unot 8 (Z.lor (Z.lor (Z.lor READ_RIGHT WRITE_RIGHT) INSPECT_RIGHT) CANCEL_RIGHT)) =? 0)
  || (negb (Z.land (fg_rights g) (Z.lor INSPECT_RIGHT CANCEL_RIGHT) =? 0) && (fg_subject g =? 0))
  || (negb (fg_scope g =? 0) && negb (is_ok (Volume_stat v (fg_scope g))))
  || negb (is_ok (second_scope v (fg_scope g) (fg_second g))).

Definition install (v : Volume) (c : Clients) (slot : nat) (g : FileGrant) (root : Z) : outcome FileError (Z * Clients) :=
  if grant_invalid v slot g then Err FInvalid
  else
    let? next := ok_or (checked_add32 (cl_next c) 1) FExhausted in
    let c := Clients_detach c slot in
    let generation := cl_next c in
    Ok (generation,
        mkClients (<[slot := Some (set_generation g generation)]> (cl_grants c))
          (<[slot := if root =? 0 then generation else root]> (cl_roots c)) next (cl_transfers c)).

Definition attenuates (v : Volume) (source g : FileGrant) : bool :=
  (Z.land (fg_rights g) (unot 8 (fg_rights source)) =? 0)
  && ((fg_scope source =? 0) || within v (fg_scope g) (fg_scope source))
  && negb (negb (fg_expires source =? 0) && ((fg_expires g =? 0) || (fg_expires source <? fg_expires g))).

(** The subject of the parent and no second scope. *)
Definition derived_grant (source g : FileGrant) : FileGrant :=
  mkFileGrant (fg_peer g) (fg_endpoint g) (fg_scope g) 0 (fg_rights g) (fg_generation g) (fg_expires g) (fg_subject source).

Definition derive (v : Volume) (c : Clients) (slot : nat) (parent : Z) (g : FileGrant) (now : Z) : outcome FileError (Z * Clients) :=
  let? index := ok_or (position (is_some_and (fun g => fg_generation g =? parent)) (cl_grants c)) FRevoked in
  match Clients_grant_at c index with
  | None => Panic
  | Some source =>
    let? _ := FileGrant_check source (fg_peer source) parent now in
    if (index =? slot)%nat || negb (bool_decide (cl_roots c !! index = Some parent)) || negb (attenuates v source g) then Err FDenied
    else install v c slot (derived_grant source g) parent
  end.

Definition extend (v : Volume) (c : Clients) (slot : nat) (generation second : Z) : outcome FileError (Z * Clients) :=
  if negb (bool_decide (cl_roots c !! slot = Some generation)) then Err FDenied
  else
    let? grant := ok_or (Clients_grant_at c slot) FNotFound in
    if negb (fg_generation grant =? generation) || (fg_rights grant =? 0) then Err FRevoked
    else if negb (fg_second grant =? 0) || (second =? 0) then Err FDenied
    else
      let? _ := second_scope v (fg_scope grant) second in
      Ok (generation, mkClients (<[slot := Some (set_second grant second)]> (cl_grants c)) (cl_roots c) (cl_next c) (cl_transfers c)).

(** ** Reading (read.rs) *)
Section Requests.
Context {D S : Type} {HD : Disk D} {HS : Digest}.
Implicit Types st : Service D S.

Definition set_world st (w : Volume * D) : Service D S := mkService (w.1) (s_clients st) (s_instance st) (w.2) (s_owner st).
Definition set_clients st (c : Clients) : Service D S := mkService (s_volume st) c (s_instance st) (s_disk st) (s_owner st).
Definition set_instance st (i : Z) : Service D S := mkService (s_volume st) (s_clients st) i (s_disk st) (s_owner st).
Definition set_owner st (o : S) : Service D S := mkService (s_volume st) (s_clients st) (s_instance st) (s_disk st) o.
Definition world st : Volume * D := (s_volume st, s_disk st).

Definition pure {A} (r : outcome FileError A) : serving D S A := call_ret r.

(** The staging slots change only when the call succeeds. *)
Definition stage (f : list (option Transfer) -> outcome FileError (list (option Transfer))) : serving D S unit :=
  let! st := call_get in
  let! t := pure (f (cl_transfers (s_clients st))) in
  call_put (set_clients st (set_transfers (s_clients st) t)).

(** A storage call on the volume and its disk. *)
Definition storage {A} (f : Volume * D -> outcome FsError A * (Volume * D)) : serving D S A := fun st =>
  let '(r, w) := f (world st) in Some (stored_as r, set_world st w).
Definition storage_run {A} (f : Volume * D -> option (outcome FsError A * (Volume * D))) : serving D S A := fun st =>
  match f (world st) with Some (r, w) => Some (stored_as r, set_world st w) | None => None end.

Definition authorized_resource (v : Volume) (g : FileGrant) (workspace id : Z) : outcome FileError unit :=
  let? _ := FileGrant_access g v id false in
  let? _ := map_err (fun _ => FDenied) (Volume_resolve v workspace id) in
  Ok tt.

Definition read_identity (v : Volume) : outcome FileError (list Z * Z) :=
  map_err (fun e => match e with EUnsupported => FUnavailable | e => wire_error e end) (recovery_info v).

(** [&mut bytes[..count]], then the disk. *)
Definition read_versioned (id : Z) (expected : option Z) (offset count : nat) : serving D S (Node * list Z) :=
  storage (fun w => let '(r, d) := Volume_read_versioned (w.1) (w.2) id expected offset count in (r, (w.1, d))).

Definition read_request (g : FileGrant) (p : Packet) : serving D S Packet :=
  let! st := call_get in
  let v := s_volume st in
  if p_op p =? OP_REFERENCES then
    let! _ := pure (authorized_resource v g (p_arg p) (p_id p)) in
    let! identity := pure (read_identity v) in
    let! references := pure (References_new (identity.1) (p_arg p) (p_id p)) in
    pure (References_packet references (p_context p))
  else
    let! request := pure (ReadRequest_decode p) in
    let! _ := pure (authorized_resource v g (ws_root (rr_workspace request)) (rs_object (rr_resource request))) in
    let! identity := pure (read_identity v) in
    if negb (bool_decide (identity.1 = ws_lineage (rr_workspace request))) then pure (Err FDenied)
    else
      let offset := Z.to_nat (rr_offset request) in
      let expected := v_value <$> rr_expected request in
      if p_op p =? READ_OPEN then
        if Z.of_nat MAX_FILE <? rr_length request then pure Panic
        else
          let! r := read_versioned (p_id p) expected offset (Z.to_nat (rr_length request)) in
          let! version := pure (Version_new (n_version (r.1))) in
          let! epoch := pure (Epoch_new (identity.2)) in
          pure (ReadHeader_packet (mkReadHeader (n_id (r.1)) (n_length (r.1)) version (sha256 (r.2)) epoch) (p_context p))
      else
        let count := Nat.min (Z.to_nat (rr_length request)) DATA in
        let! r := read_versioned (p_id p) expected offset count in
        let bytes := r.2 in
        pure (Ok (mkPacket READ_CHUNK 0 (Z.of_nat (length bytes)) (n_id (r.1)) (n_length (r.1)) (p_context p) (n_version (r.1))
                    (write (zeros DATA) 0 bytes))).

(** ** Discovery (capabilities.rs, negotiation.rs) *)
Definition service_capabilities (v : Volume) : Capabilities :=
  let operations := match operations_enabled v with Ok true => Available | _ => Unavailable end in
  mkCapabilities [Degraded; Unavailable; Available; operations; operations; Unavailable; Unavailable; Unavailable]
    (mkBounds (Z.of_nat MAX_FILE) (Z.of_nat METHODS) (Z.of_nat RETAINED)).

Definition lifecycle_descriptor (v : Volume) (request : Packet) : outcome FileError Packet :=
  let? m := negotiation_decode_request request in
  let? availability :=
    match retained_admission v 0 with
    | Ok _ => Ok Available
    | Err EUnsupported => Ok Unavailable
    | Err e => Err (wire_error e)
    | Panic => Panic
    end in
  let? d := Descriptor_reviewed m availability (mkLimits (Z.of_nat RETAINED) (Z.of_nat RETAINED) 1) in
  Descriptor_packet d (p_context request).

(** ** Tracked writes (recovery.rs) *)
(** The authority a retry needs: inspection of the retained target, or writing a fresh one. *)
Definition tracked_authority (v : Volume) (g : FileGrant) (retry : FsRetry) (id : Z) : outcome FileError unit :=
  match Volume_receipt v (fg_subject g) retry with
  | Ok receipt => FileGrant_inspect g v (fr_id receipt)
  | Err EOutcomeUnknown => FileGrant_access g v id true
  | Err e => Err (wire_error e)
  | Panic => Panic
  end.

Definition take_transfer (slot : nat) (p : Packet) : serving D S Transfer :=
  let! st := call_get in
  let! r := pure (Transfers_take (cl_transfers (s_clients st)) slot p) in
  let! _ := call_put (set_clients st (set_transfers (s_clients st) (r.2))) in
  pure (Ok (r.1)).

(** [&transfer.data[..transfer.total]]. *)
Definition transfer_bytes (t : Transfer) : outcome FileError (list Z) :=
  if (tf_total t <=? length (tf_data t))%nat then Ok (take (tf_total t) (tf_data t)) else Panic.

Definition recovery_request (slot : nat) (g : FileGrant) (p : Packet) : serving D S Packet :=
  let! st := call_get in
  let v := s_volume st in
  let! _ := pure (FileGrant_inspect g v (p_id p)) in
  let r := blank_reply (p_op p) (p_context p) in
  if p_op p =? OP_RECOVERY then
    let! info := pure (stored_as (recovery_info v)) in
    pure (Ok (mkPacket (p_op r) (p_status r) 24 (p_id r) (Z.of_nat RETAINED) (p_context r) (p_version r)
                (write (write (p_data r) 0 (info.1)) 16 (le_bytes 8 (info.2)))))
  else if p_op p =? OP_RECEIPT then
    let! retry := pure (Retry_decode (Packet_payload p)) in
    let! receipt := pure (stored_as (Volume_receipt v (fg_subject g) (tracked_retry retry))) in
    if negb (fr_id receipt =? p_id p) then pure (Err FOutcomeUnknown)
    else pure (Ok (Receipt_packet (native_receipt receipt) r))
  else if p_op p =? TRACK_BEGIN then
    let! retry := pure (Retry_decode (Packet_payload p)) in
    let! _ := pure (tracked_authority v g (tracked_retry retry) (p_id p)) in
    let! _ := stage (fun t => Transfers_begin t slot p) in
    pure (Ok r)
  else if p_op p =? OP_COMMIT then
    let! transfer := take_transfer slot p in
    let! retry := pure (ok_or (tf_retry transfer) FProtocol) in
    let! _ := pure (tracked_authority v g (tracked_retry retry) (p_id p)) in
    let! bytes := pure (transfer_bytes transfer) in
    let! receipt := storage_run (fun w => replace_tracked w (fg_subject g) (tracked_retry retry) (tf_id transfer) (tf_version transfer) bytes) in
    pure (Ok (Receipt_packet (native_receipt receipt) r))
  else pure (Err FProtocol).

(** ** Logical operations (operations/) *)
Definition operation_authorize (v : Volume) (g : FileGrant) (request : Replacement) : outcome FileError bool :=
  if (fg_subject g =? 0) || negb (has_right g INSPECT_RIGHT) then Err FDenied
  else
    match operation_by_retry v (fg_subject g) (ws_root (rp_workspace request)) (stored_retry (rp_workspace request) (rp_retry request)) with
    | Ok old => let? _ := operation_inspect g v (FsPublication.fo_workspace old) (fr_id (fo_receipt old)) in Ok false
    | Err EOutcomeUnknown =>
      let? _ := FileGrant_access g v (rs_object (rp_resource request)) true in
      let? _ := map_err (fun _ => FDenied) (Volume_resolve v (ws_root (rp_workspace request)) (rs_object (rp_resource request))) in
      Ok true
    | Err e => Err (wire_error e)
    | Panic => Panic
    end.

Definition find_operation (v : Volume) (g : FileGrant) (l : Lookup) : outcome FsError FsOperation :=
  match l with
  | LookupRetry workspace retry => operation_by_retry v (fg_subject g) (ws_root workspace) (stored_retry workspace retry)
  | LookupId id => operation_by_id v (fg_subject g) (oi_lineage id) (oi_sequence id)
  end.

Definition operation_query (v : Volume) (g : FileGrant) (p : Packet) : outcome FileError Packet :=
  if (fg_subject g =? 0) || negb (has_right g INSPECT_RIGHT) then Err FDenied
  else
    let? l := Lookup_decode p in
    let? old := stored_as (find_operation v g l) in
    let? _ := map_err (fun _ => FOutcomeUnknown) (operation_inspect g v (FsPublication.fo_workspace old) (fr_id (fo_receipt old))) in
    let? receipt := operation_receipt old in
    FileOperation_part receipt (p_op p) (p_context p) (if p_op p =? OPERATION_PART then Z.to_nat (p_arg p) else 0%nat).

(** [self.clients.transfers.logical(slot, admission)] for the packet's object. *)
Definition staged_request (c : Clients) (slot : nat) (admission : bool) (p : Packet) : outcome FileError Replacement :=
  let? request := ok_or (Transfers_logical (cl_transfers c) slot admission) FNoTransfer in
  if negb (rs_object (rp_resource request) =? p_id p) then Err FNoTransfer else Ok request.

Definition operation_mutation (slot : nat) (g : FileGrant) (p : Packet) : serving D S Packet :=
  let! st := call_get in
  let v := s_volume st in
  let response := blank_reply (p_op p) (p_context p) in
  if p_op p =? REPLACE_OPEN then
    let! request := pure (Replacement_decode p) in
    let! _ := pure (operation_authorize v g request) in
    let! _ := stage (fun t => Transfers_begin t slot p) in
    pure (Ok response)
  else
    let! request := pure (staged_request (s_clients st) slot false p) in
    let! _ := pure (operation_authorize v g request) in
    let! _ := (if p_op p =? REPLACE_CHUNK then stage (fun t => Transfers_chunk t slot p)
               else if p_op p =? REPLACE_ABORT then stage (fun t => Ok (Transfers_clear t slot))
               else pure (Err FProtocol)) in
    pure (Ok response).

Definition operation_request (slot : nat) (g : FileGrant) (p : Packet) : serving D S Packet :=
  if one_of [OPERATION_RETRY; OPERATION_ID; OPERATION_PART] (p_op p) then
    let! st := call_get in pure (operation_query (s_volume st) g p)
  else operation_mutation slot g p.

(** ** Retained admissions (admission/authority.rs, admission/wire/request.rs) *)
Definition inspect_admission (v : Volume) (g : FileGrant) (id : FsAdmissionId) : outcome FileError FsAdmission :=
  let? old := stored_as (admission_by_id v (fg_subject g) id) in
  let? _ := map_err (fun _ => FOutcomeUnknown) (operation_inspect g v (fp_workspace (av_request old)) (fp_id (av_request old))) in
  Ok old.

Definition admission_status (v : Volume) (c : Clients) (caller : Caller) (id : FsAdmissionId) (now : Z) : outcome FileError FsStatus :=
  let? grant := Caller_check caller c now in
  let? old := inspect_admission v grant id in
  Ok (av_status old).

Definition admission_authorize (v : Volume) (g : FileGrant) (request : FsReplacement) : outcome FileError bool :=
  match admission_by_retry v (fg_subject g) (fp_workspace request) (fp_retry request) with
  | Ok old =>
    let? _ := map_err (fun _ => FOutcomeUnknown) (operation_inspect g v (fp_workspace (av_request old)) (fp_id (av_request old))) in
    Ok false
  | Err EOutcomeUnknown =>
    let? _ := FileGrant_access g v (fp_id request) true in
    let? _ := map_err (fun _ => FDenied) (Volume_resolve v (fp_workspace request) (fp_id request)) in
    Ok true
  | Err e => Err (wire_error e)
  | Panic => Panic
  end.

Definition admission_lookup (v : Volume) (g : FileGrant) (p : Packet) : outcome FileError FsAdmission :=
  if p_op p =? ADM_GET then let? id := AdmissionId_decode p in inspect_admission v g (stored_id id)
  else
    let? l := Lookup_decode (mkPacket OPERATION_RETRY (p_status p) (p_count p) (p_id p) (p_arg p) (p_context p) (p_version p) (p_data p)) in
    match l with
    | LookupRetry workspace retry =>
      let? old := stored_as (admission_by_retry v (fg_subject g) (ws_root workspace) (stored_retry workspace retry)) in
      let? _ := map_err (fun _ => FOutcomeUnknown) (operation_inspect g v (fp_workspace (av_request old)) (fp_id (av_request old))) in
      Ok old
    | LookupId _ => Err FProtocol
    end.

Definition admission_request (slot : nat) (g : FileGrant) (p : Packet) : serving D S Packet :=
  if (fg_subject g =? 0) || negb (has_right g INSPECT_RIGHT) then pure (Err FDenied)
  else
    let! st := call_get in
    let v := s_volume st in
    let response := blank_reply (p_op p) (p_context p) in
    if p_op p =? ADMISSION_OPEN then
      let! request := pure (Replacement_decode p) in
      let! _ := pure (admission_authorize v g (stored_replacement request)) in
      let! _ := stage (fun t => Transfers_begin t slot p) in
      pure (Ok response)
    else if one_of [ADM_CHUNK; ADM_ABORT] (p_op p) then
      let! request := pure (staged_request (s_clients st) slot true p) in
      let! _ := pure (admission_authorize v g (stored_replacement request)) in
      let! _ := (if p_op p =? ADM_CHUNK then stage (fun t => Transfers_chunk t slot p) else stage (fun t => Ok (Transfers_clear t slot))) in
      pure (Ok response)
    else if one_of [ADM_GET; ADM_RETRY] (p_op p) then
      let! old := pure (admission_lookup v g p) in
      pure (status_packet old (p_op p) (p_context p))
    else pure (Err FProtocol).
End Requests.
