(* ===== verification/SvcPublish.v ===== *)
(** * Executions in progress

    crates/file-service/src/admission: scope.rs (the authority captured before
    the volume is borrowed), active.rs (what clients may see and stop while a
    publication owns the volume) and observation.rs (the requested profile). *)
From stdpp Require Import base list option numbers.
From Stdlib Require Import ZArith Lia Bool.
From S2P Require Import Prelude Bytes Codec AbiFiles AbiIdentity AbiMessages AbiReceipts AbiAdmission FsDisk FsRecovery FsVolume FsPublication SvcClients SvcServer.

#[global] Instance AdmissionId_eq_dec : EqDecision AdmissionId.
Proof. solve_decision. Defined.

(** ** Profiles (observation.rs) *)
Definition wire_reason (r : FsReason) : PreventionReason :=
  match r with RUnknown => PUnknown | RRequested => PRequested | RVersionConflict => PVersionConflict | RAuthorityLost => PAuthorityLost end.

Definition observation_reply (o : ObservationV2) (request : Packet) : outcome FileError Packet :=
  if p_arg request =? OBSERVATION_VERSION then Observation_packet (ObservationV2_coarse o) (p_context request)
  else if p_arg request =? OBSERVATION_V2 then ObservationV2_packet o (p_context request)
  else Err FUnsupportedVersion.

(** ** Scope proofs (scope.rs) *)
Record Binding := mkBinding { bn_grant : FileGrant; bn_allowed : Z }.
Record Scope := mkScope { sp_id : AdmissionId; sp_instance : Instance_; sp_bindings : list (option Binding) }.

Definition allow (v : Volume) (g : FileGrant) (old : FsAdmission) (allowed right : Z) : Z :=
  if is_ok (operation_scope g v (fp_workspace (av_request old)) (fp_id (av_request old)) right) then Z.lor allowed right else allowed.

Definition allowed_rights (v : Volume) (subject : Z) (old : FsAdmission) (g : FileGrant) : Z :=
  if fg_subject g =? subject then
    let allowed := foldl (allow v g old) 0 [INSPECT_RIGHT; CANCEL_RIGHT] in
    if is_ok (FileGrant_access g v (fp_id (av_request old)) true) then Z.lor allowed WRITE_RIGHT else allowed
  else 0.

Definition Scope_new (v : Volume) (c : Clients) (subject : Z) (old : FsAdmission) : outcome FileError Scope :=
  let bindings := (fun slot => (fun g => mkBinding g (allowed_rights v subject old g)) <$> Clients_grant_at c slot) <$> seq 0 CLIENTS in
  let? id := AdmissionId_new (fa_lineage (fs_id (av_status old))) (fa_number (fs_id (av_status old))) in
  let? inst := Instance_new (fa_lineage (fs_id (av_status old))) (av_instance old) in
  Ok (mkScope id inst bindings).

Definition Scope_check (sp : Scope) (c : Clients) (caller : Caller) (right now : Z) : outcome FileError unit :=
  let? grant := Caller_check_right caller c now right in
  let? binding := ok_or (mjoin (sp_bindings sp !! ca_slot caller)) FOutcomeUnknown in
  let saved := bn_grant binding in
  if negb (Z.land (bn_allowed binding) right =? right) || negb (fg_peer grant =? fg_peer saved) || negb (fg_endpoint grant =? fg_endpoint saved)
     || negb (fg_generation grant =? fg_generation saved) || negb (fg_subject grant =? fg_subject saved) || negb (fg_scope grant =? fg_scope saved)
  then Err FOutcomeUnknown else Ok tt.

(** ** The active execution (active.rs) *)
Record ActiveExecution := mkActive { ax_observation : Activity; ax_scope : Scope }.

Definition ActiveExecution_new (v : Volume) (c : Clients) (subject : Z) (old : FsAdmission) : outcome FileError ActiveExecution :=
  let? scope := Scope_new v c subject old in
  Ok (mkActive (mkActivity (sp_id scope) (sp_instance scope) Running false false) scope).

Definition Active_pending (a : ActiveExecution) : bool := ac_io (ax_observation a).
Definition Active_stopping (a : ActiveExecution) : bool := ac_cancel (ax_observation a).

Definition with_observation (a : ActiveExecution) (phase : ActivityPhase) (cancel io : bool) : ActiveExecution :=
  mkActive (mkActivity (ac_id (ax_observation a)) (ac_instance (ax_observation a)) phase cancel io) (ax_scope a).

Definition Active_stop (a : ActiveExecution) : ActiveExecution :=
  with_observation a (ac_phase (ax_observation a)) true (ac_io (ax_observation a)).

Definition Active_observe (a : ActiveExecution) (phase : PublicationPhase) (pending cleanup : bool) : ActiveExecution :=
  let shown :=
    if cleanup then Stopping
    else match phase with
         | FsPublication.Settling | Committed => AbiAdmission.Settling
         | _ => if Active_stopping a then Stopping else Running
         end in
  with_observation a shown (Active_stopping a) pending.

(** [if phase == Running { phase = Stopping }]. *)
Definition stopping_phase (p : ActivityPhase) : ActivityPhase := if phase_is p Running then Stopping else p.

(** [stop()] and the phase clients see at once. *)
Definition Active_accept_stop (a : ActiveExecution) : ActiveExecution :=
  with_observation a (stopping_phase (ac_phase (ax_observation a))) true (ac_io (ax_observation a)).

Definition answer (p : Packet) (r : outcome FileError Packet) : outcome FileError Packet :=
  match r with Ok reply => Ok reply | Err e => Ok (failure (p_op p) (p_context p) e) | Panic => Panic end.

Definition active_handle (a : ActiveExecution) (c : Clients) (caller : Caller) (p : Packet) (now : Z) : outcome FileError Packet * ActiveExecution :=
  let checked :=
    let? _ := validate_request p in
    if negb (adm_live (p_op p) || one_of [ADM_OBSERVE; LIFECYCLE_CANCEL] (p_op p)) || negb (ca_context caller =? p_context p) then Err FProtocol
    else
      let right := if one_of [ADM_REQUEST_CANCEL; LIFECYCLE_CANCEL] (p_op p) then CANCEL_RIGHT else INSPECT_RIGHT in
      let? _ := Scope_check (ax_scope a) c caller right now in
      let? id := (if p_op p =? LIFECYCLE_CANCEL then CancelAck_decode_request p else AdmissionId_decode p) in
      if negb (bool_decide (id = ac_id (ax_observation a))) then Err FOutcomeUnknown else Ok id in
  match checked with
  | Err e => (Err e, a)
  | Panic => (Panic, a)
  | Ok id =>
    if p_op p =? ADM_OBSERVE then (observation_reply (ActiveV2 (ax_observation a)) p, a)
    else if p_op p =? LIFECYCLE_CANCEL then
      let disposition := if Active_stopping a then DAlreadyRequested else DRequested in
      (CancelAck_packet (mkCancelAck id disposition) (p_context p), Active_accept_stop a)
    else
      let a := if p_op p =? ADM_REQUEST_CANCEL then Active_accept_stop a else a in
      (Activity_packet (ax_observation a) (p_op p) (p_context p), a)
  end.

Definition active_request (a : ActiveExecution) (c : Clients) (caller : Caller) (p : Packet) (now : Z) : outcome FileError Packet * ActiveExecution :=
  let '(r, a) := active_handle a c caller p now in (answer p r, a).

(** ** Publications under owner control

    crates/file-service/src: admission/control.rs (the one loop that drives a
    publication while the owner may revoke its client), operations/publication.rs,
    admission/transition.rs, execution.rs, execution/publication.rs,
    prevention.rs, cancellation.rs and wire/publication.rs, wire/execution.rs.

    A control callback returns the current time and what it did to the clients;
    the volume, the disk and the grants it cannot reach are not its arguments.
    The loop runs on [fuel] because the device may stay pending forever. *)
Record Settled (T : Type) := mkSettled { se_result : option T; se_denied : option FileError }.
Arguments mkSettled {T}.
Arguments se_result {T}. Arguments se_denied {T}.

Section Publish.
Context {D Ow : Type} {HQ : PollDisk D} {HS : Digest}.
Implicit Types st : Service D Ow.

(** ** The loop (admission/control.rs) *)


(** [FnMut(&mut Clients, Phase, bool) -> (u64, bool)], its captured state threaded. *)
Definition stop_control (L : Type) : Type := L -> Clients -> PublicationPhase -> bool -> Z * bool * Clients * L.

(** [denied.get_or_insert(error)]. *)
Definition get_or_insert {A} (o : option A) (a : A) : option A := match o with Some x => Some x | None => Some a end.

Section Drive.
Context {T L : Type}.
Implicit Types p : Publication D T.

(** The caller's live authority; its loss cancels the publication. *)
Definition guard_caller (caller : option (Caller * Z)) (c : Clients) (now : Z) (denied : option FileError) p
    : outcome FileError (option FileError) * Publication D T :=
  match caller with
  | None => (Ok denied, p)
  | Some (a, need) =>
    match Caller_check_right a c now need with
    | Ok _ => (Ok denied, p)
    | Err e => let '(r, p) := Publication_cancel p in ((let? _ := stored_as r in Ok (get_or_insert denied e)), p)
    | Panic => (Panic, p)
    end
  end.

Definition guard_stop (stop : bool) p : outcome FileError unit * Publication D T :=
  if stop then let '(r, p) := Publication_cancel p in ((let? _ := stored_as r in Ok tt), p) else (Ok tt, p).

Definition finished_phase (phase : PublicationPhase) : bool :=
  match phase with Committed | Cancelled => true | _ => false end.

Fixpoint drive_loop (fuel : nat) (control : stop_control L) (caller : option (Caller * Z)) (l : L) (c : Clients) p (denied : option FileError)
    : option (outcome FileError (Settled T) * (L * Clients * Publication D T)) :=
  match fuel with
  | O => None
  | S fuel =>
    let '(now, stop, c, l) := control l c (pb_phase p) (pb_pending p) in
    let c := Clients_expire c now in
    match guard_caller caller c now denied p with
    | (Ok denied, p) =>
      match guard_stop stop p with
      | (Ok _, p) =>
        if finished_phase (pb_phase p) then Some (Ok (mkSettled (Publication_answer p) denied), (l, c, p))
        else
          match poll_advance p with
          | (Pending, p) | (Ready (Ok _), p) => drive_loop fuel control caller l c p denied
          | (Ready (Err e), p) => Some (Err (wire_error e), (l, c, p))
          | (Ready Panic, p) => Some (Panic, (l, c, p))
          end
      | (Err e, p) => Some (Err e, (l, c, p))
      | (Panic, p) => Some (Panic, (l, c, p))
      end
    | (Err e, p) => Some (Err e, (l, c, p))
    | (Panic, p) => Some (Panic, (l, c, p))
    end
  end.
End Drive.

(** ** Publishing from the service *)
Context (fuel : nat).

(** Prepare a publication, drive it, and give the volume and the disk back.
    [l] is what the closure captured beside the owner's state. *)
Definition drive_stoppable {T L} (prepare : Volume -> D -> outcome FsError (Publication D T)) (caller : option (Caller * Z))
    (control : stop_control (Ow * L)) (l : L) : serving D Ow (Settled T * L) := fun st =>
  match stored_as (prepare (s_volume st) (s_disk st)) with
  | Err e => Some (Err e, st)
  | Panic => Some (Panic, st)
  | Ok p =>
    match drive_loop fuel control caller (s_owner st, l) (s_clients st) p None with
    | None => None
    | Some (r, (o, l, c, p)) =>
      let st := set_world (set_clients (set_owner st o) c) (Publication_drop p) in
      Some ((let? settled := r in Ok (settled, l)), st)
    end
  end.

(** [FnMut(&mut Clients, bool) -> u64]. *)
Definition owner_control : Type := Ow -> Clients -> bool -> Z * Clients * Ow.
(** [FnMut(&mut Clients, &mut ActiveExecution) -> u64]. *)
Definition active_control : Type := Ow -> Clients -> ActiveExecution -> Z * Clients * ActiveExecution * Ow.

Definition plain_stop (control : owner_control) : stop_control (Ow * unit) := fun l c _ pending =>
  let '(now, c, o) := control (l.1) c pending in (now, false, c, (o, tt)).

Definition drive {T} (prepare : Volume -> D -> outcome FsError (Publication D T)) (caller : option (Caller * Z)) (control : owner_control)
    : serving D Ow (Settled T) :=
  let! r := drive_stoppable prepare caller (plain_stop control) tt in pure (Ok (r.1)).

(** One call of the callback outside a publication. *)
Definition consult (control : owner_control) : serving D Ow Z := fun st =>
  let '(now, c, o) := control (s_owner st) (s_clients st) false in Some (Ok now, set_clients (set_owner st o) c).

Definition volume_of : serving D Ow Volume := let! st := call_get in pure (Ok (s_volume st)).
Definition clients_of : serving D Ow Clients := let! st := call_get in pure (Ok (s_clients st)).

(** ** Completed replacements (operations/publication.rs) *)
(** [current.check(..)] of the live grant, [Revoked] when it is gone. *)
Definition live_guard (slot : nat) (peer context : Z) (c : Clients) (now : Z) : outcome FileError unit :=
  let? grant := ok_or (Clients_grant_at c slot) FRevoked in FileGrant_check grant peer context now.

Definition guard_live {T} (slot : nat) (peer context : Z) (c : Clients) (now : Z) (denied : option FileError) (p : Publication D T)
    : outcome FileError (option FileError) * Publication D T :=
  match live_guard slot peer context c now with
  | Ok _ => (Ok denied, p)
  | Err e => let '(r, p) := Publication_cancel p in ((let? _ := stored_as r in Ok (get_or_insert denied e)), p)
  | Panic => (Panic, p)
  end.

Fixpoint commit_loop {T} (fuel : nat) (control : owner_control) (slot : nat) (peer context : Z) (o : Ow) (c : Clients) (p : Publication D T)
    (denied : option FileError) : option (outcome FileError (option FileError) * (Ow * Clients * Publication D T)) :=
  match fuel with
  | O => None
  | S fuel =>
    let '(now, c, o) := control o c (pb_pending p) in
    let c := Clients_expire c now in
    match guard_live slot peer context c now denied p with
    | (Ok denied, p) =>
      match pb_phase p with
      | Cancelled => Some (Err (default FRevoked denied), (o, c, p))
      | Committed => Some (Ok denied, (o, c, p))
      | _ =>
        match poll_advance p with
        | (Pending, p) | (Ready (Ok _), p) => commit_loop fuel control slot peer context o c p denied
        | (Ready (Err e), p) => Some (Err (wire_error e), (o, c, p))
        | (Ready Panic, p) => Some (Panic, (o, c, p))
        end
      end
    | (Err e, p) => Some (Err e, (o, c, p))
    | (Panic, p) => Some (Panic, (o, c, p))
    end
  end.

(** [write.result().unwrap()] and the latched denial. *)
Definition commit_publication {T} (prepare : Volume -> D -> outcome FsError (Publication D T)) (control : owner_control) (slot : nat) (peer context : Z)
    : serving D Ow (T * option FileError) := fun st =>
  match stored_as (prepare (s_volume st) (s_disk st)) with
  | Err e => Some (Err e, st)
  | Panic => Some (Panic, st)
  | Ok p =>
    match commit_loop fuel control slot peer context (s_owner st) (s_clients st) p None with
    | None => None
    | Some (r, (o, c, p)) =>
      let st := set_world (set_clients (set_owner st o) c) (Publication_drop p) in
      Some ((let? denied := r in match Publication_answer p with Some t => Ok (t, denied) | None => Panic end), st)
    end
  end.

Definition commit_request (slot : nat) (peer : Z) (p : Packet) (control : owner_control) : serving D Ow Packet :=
  let! _ := pure (validate_request p) in
  if negb (p_op p =? REPLACE_COMMIT) then pure (Err FProtocol)
  else
    let! now := consult control in
    let! st := call_get in
    let! grant := pure (ok_or (Clients_grant_at (s_clients st) slot) FDenied) in
    let! _ := pure (FileGrant_check grant peer (p_context p) now) in
    let! request := pure (staged_request (s_clients st) slot false p) in
    let! new_operation := pure (operation_authorize (s_volume st) grant request) in
    let! transfer := take_transfer slot p in
    let! bytes := pure (transfer_bytes transfer) in
    let! outcome := commit_publication (fun v d => prepare_scoped v d (fg_subject grant) (s_instance st) (stored_replacement request) bytes)
                      control slot peer (p_context p) in
    let '(receipt, denied) := outcome in
    let! st := call_get in
    let! _ := call_put (if (new_operation : bool) && (s_instance st =? 0) then set_instance st (fr_committed receipt) else st) in
    if is_some denied then pure (Err FUncertain)
    else
      let! old := pure (stored_as (operation_by_id (s_volume st) (fg_subject grant) (ry_lineage (fr_retry receipt)) (fr_committed receipt))) in
      let! receipt := pure (operation_receipt old) in
      pure (FileOperation_part receipt (p_op p) (p_context p) 0).

(** [result.unwrap_or_else(..)]: an error becomes a reply. *)
Definition answering (p : Packet) (m : serving D Ow Packet) : serving D Ow Packet :=
  call_catch m (fun reply => pure (Ok reply)) (fun e => pure (Ok (failure (p_op p) (p_context p) e))).

Definition commit_with (slot : nat) (peer : Z) (p : Packet) (control : owner_control) : serving D Ow Packet :=
  answering p (commit_request slot peer p control).

(** ** Prevention (admission/prevention.rs) *)
Definition prevention_publication (subject : Z) (id : FsAdmissionId) (reason : FsReason) (v : Volume) (d : D)
    : outcome FsError (Publication D FsStatus) :=
  let? known := prevention_reasons_enabled v in
  if known : bool then prepare_prevention v d subject id reason else prepare_cancellation v d subject id.

(** The retired status must be a cancellation. *)
Definition retired (s : Settled FsStatus) : outcome FileError FsStatus :=
  let? status := ok_or (se_result s) FUncertain in
  if negb (bool_decide (fs_state status = FCancelled)) then Err FUncertain else Ok status.

(** The closures of prevention and of publication: the execution is observed,
    then the owner's callback sees it. *)
Definition watch (control : active_control) (cleanup : bool) : stop_control (Ow * ActiveExecution) := fun l c phase pending =>
  let '(now, c, active, o) := control (l.1) c (Active_observe (l.2) phase pending cleanup) in
  (now, negb cleanup && Active_stopping active, c, (o, active)).

Definition prevent_admission_active (subject : Z) (id : FsAdmissionId) (reason : FsReason) (active : ActiveExecution) (control : active_control)
    : serving D Ow (FsStatus * ActiveExecution) :=
  let! r := drive_stoppable (prevention_publication subject id reason) None (watch control true) (Active_stop active) in
  let! status := pure (retired (r.1)) in
  pure (Ok (status, r.2)).

(** ** Execution (admission/execution.rs) *)
Definition publish_admission_active (caller : Caller) (subject : Z) (id : FsAdmissionId) (active : ActiveExecution) (control : active_control)
    : serving D Ow (Settled FsReceipt * ActiveExecution) :=
  drive_stoppable (fun v d => prepare_admitted v d subject id) (Some (caller, INSPECT_RIGHT)) (watch control false) active.

(** [let now = control(&mut self.clients, &mut active)]. *)
Definition consult_active (control : active_control) (active : ActiveExecution) : serving D Ow (Z * ActiveExecution) := fun st =>
  let '(now, c, active, o) := control (s_owner st) (s_clients st) active in Some (Ok (now, active), set_clients (set_owner st o) c).

(** Terminal prevention when the data was not published. *)
Definition settle_execution (subject : Z) (id : FsAdmissionId) (settled : Settled FsReceipt) (active : ActiveExecution) (control : active_control)
    : serving D Ow ActiveExecution :=
  if is_none (se_result settled) then
    let reason := if is_some (se_denied settled) then RAuthorityLost else RRequested in
    let! r := prevent_admission_active subject id reason active control in pure (Ok (r.2))
  else pure (Ok active).

(** What the caller is told about a lost guard. *)
Definition denied_outcome {T} (settled : Settled T) : outcome FileError unit :=
  match se_denied settled with
  | Some e => Err (if is_some (se_result settled) then FUncertain else e)
  | None => Ok tt
  end.

Definition execute_admission_active_with (caller : Caller) (id : FsAdmissionId) (now : Z) (control : active_control) : serving D Ow FsStatus :=
  let! st := call_get in
  let! grant := pure (Caller_check caller (s_clients st) now) in
  let! old := pure (inspect_admission (s_volume st) grant id) in
  if negb (bool_decide (fs_state (av_status old) = FAdmitted)) then pure (Ok (av_status old))
  else
    let! _ := pure (FileGrant_access grant (s_volume st) (fp_id (av_request old)) true) in
    let! active := pure (ActiveExecution_new (s_volume st) (s_clients st) (fg_subject grant) old) in
    let! r := publish_admission_active caller (fg_subject grant) id active control in
    let! active := settle_execution (fg_subject grant) id (r.1) (r.2) control in
    let! _ := pure (denied_outcome (r.1)) in
    let! seen := consult_active control active in
    let! c := clients_of in
    let! _ := pure (map_err (fun _ => FUncertain) (Caller_check caller c (seen.1))) in
    let! v := volume_of in
    let! old := pure (stored_as (admission_by_id v (fg_subject grant) id)) in
    pure (Ok (av_status old)).

(** [|clients, active| control(clients, active.pending())]. *)
Definition pending_only (control : owner_control) : active_control := fun o c active =>
  let '(now, c, o) := control o c (Active_pending active) in (now, c, active, o).

(** ** Admission (admission/transition.rs) *)
Definition execute_admission_with (caller : Caller) (id : FsAdmissionId) (control : owner_control) : serving D Ow FsStatus :=
  let! now := consult control in
  execute_admission_active_with caller id now (pending_only control).

Definition retire_admission (subject : Z) (id : FsAdmissionId) (control : owner_control) : serving D Ow unit :=
  let! settled := drive (prevention_publication subject id RAuthorityLost) None control in
  let! _ := pure (retired settled) in
  pure (Ok tt).

(** The first admission of an incarnation names it. *)
Definition name_instance (number : Z) : serving D Ow unit :=
  let! st := call_get in call_put (if s_instance st =? 0 then set_instance st number else st).

Definition admit_with (caller : Caller) (request : FsReplacement) (bytes : list Z) (control : owner_control) : serving D Ow FsStatus :=
  let! now := consult control in
  let! st := call_get in
  let! grant := pure (Caller_check caller (s_clients st) now) in
  let! new := pure (admission_authorize (s_volume st) grant request) in
  let! settled := drive (fun v d => prepare_admission v d (fg_subject grant) (s_instance st) request bytes) (Some (caller, INSPECT_RIGHT)) control in
  let! _ := (match (new : bool), se_result settled with
             | true, Some status =>
               let! _ := name_instance (fa_number (fs_id status)) in
               if is_some (se_denied settled) then retire_admission (fg_subject grant) (fs_id status) control else pure (Ok tt)
             | _, _ => pure (Ok tt)
             end) in
  match se_denied settled with
  | Some e => pure (Err e)
  | None => pure (ok_or (se_result settled) FUncertain)
  end.

(** ** Cancellation (admission/cancellation.rs) *)
Definition cancel_admission_with (caller : Caller) (id : FsAdmissionId) (control : owner_control) : serving D Ow FsStatus :=
  let! now := consult control in
  let! st := call_get in
  let! grant := pure (Caller_check_right caller (s_clients st) now CANCEL_RIGHT) in
  let! old := pure (stored_as (admission_by_id (s_volume st) (fg_subject grant) id)) in
  let! _ := pure (map_err (fun _ => FOutcomeUnknown)
                    (operation_scope grant (s_volume st) (fp_workspace (av_request old)) (fp_id (av_request old)) CANCEL_RIGHT)) in
  let! settled := drive (fun v d => prepare_cancellation v d (fg_subject grant) id) (Some (caller, CANCEL_RIGHT)) control in
  let! _ := pure (denied_outcome settled) in
  pure (ok_or (se_result settled) FUncertain).

(** ** Framing (admission/wire/publication.rs, wire/execution.rs) *)
Definition adm_controlled (op : Z) : bool := one_of [ADM_ACCEPT; ADM_EXECUTE; ADM_CANCEL] op.

Definition admission_step (caller : Caller) (grant : FileGrant) (p : Packet) (control : owner_control) : serving D Ow FsStatus :=
  if p_op p =? ADM_ACCEPT then
    let! st := call_get in
    let! request := pure (staged_request (s_clients st) (ca_slot caller) true p) in
    let! _ := pure (admission_authorize (s_volume st) grant (stored_replacement request)) in
    let! transfer := take_transfer (ca_slot caller) p in
    let! bytes := pure (transfer_bytes transfer) in
    admit_with caller (stored_replacement request) bytes control
  else if p_op p =? ADM_EXECUTE then
    let! id := pure (AdmissionId_decode p) in execute_admission_with caller (stored_id id) control
  else if p_op p =? ADM_CANCEL then
    let! id := pure (AdmissionId_decode p) in cancel_admission_with caller (stored_id id) control
  else pure (Err FProtocol).

(** The status of the settled admission, on the wire. *)
Definition status_reply (subject : Z) (id : FsAdmissionId) (p : Packet) : serving D Ow Packet :=
  let! v := volume_of in
  let! old := pure (stored_as (admission_by_id v subject id)) in
  pure (status_packet old (p_op p) (p_context p)).

Definition admission_serve (caller : Caller) (p : Packet) (control : owner_control) : serving D Ow Packet :=
  let! _ := pure (validate_request p) in
  if negb (adm_controlled (p_op p)) || negb (ca_context caller =? p_context p) then pure (Err FProtocol)
  else
    let! now := consult control in
    let right := if p_op p =? ADM_CANCEL then CANCEL_RIGHT else INSPECT_RIGHT in
    let! c := clients_of in
    let! grant := pure (Caller_check_right caller c now right) in
    let! result := admission_step caller grant p control in
    status_reply (fg_subject grant) (fs_id result) p.

Definition admission_with (caller : Caller) (p : Packet) (control : owner_control) : serving D Ow Packet :=
  answering p (admission_serve caller p control).

Definition execute_serve (caller : Caller) (p : Packet) (now : Z) (control : active_control) : serving D Ow Packet :=
  let! _ := pure (validate_request p) in
  if negb (p_op p =? ADM_EXECUTE) || negb (ca_context caller =? p_context p) then pure (Err FProtocol)
  else
    let! c := clients_of in
    let! grant := pure (Caller_check caller c now) in
    let! id := pure (AdmissionId_decode p) in
    let! result := execute_admission_active_with caller (stored_id id) now control in
    status_reply (fg_subject grant) (fs_id result) p.

Definition admission_execute_active (caller : Caller) (p : Packet) (now : Z) (control : active_control) : serving D Ow Packet :=
  answering p (execute_serve caller p now control).
End Publish.
