(* ===== verification/SvcDispatch.v ===== *)
(** * The execution queue (crates/file-service/src/admission/scheduling)

    An incarnation-local FIFO over durable admissions: mod.rs (tickets and
    candidates), inventory.rs, observation.rs, cancellation.rs, dispatch.rs
    (requests of clients) and execution.rs (running the head of the queue).
    While the queue runs, the owner's callback sees it: the service's owner
    state is then the owner's own state with the queue. *)
From stdpp Require Import base list option numbers.
From Stdlib Require Import ZArith Lia Bool.
From S2P Require Import Prelude Bytes Codec AbiFiles AbiIdentity AbiMessages AbiAdmission AbiServices FsDisk FsNode FsRecovery FsVolume FsPublication SvcClients SvcServer SvcPublish.

Record Candidate := mkCandidate { cd_scope : Scope; cd_subject : Z; cd_status : FsStatus }.
Record Ticket := mkTicket { tk_id : AdmissionId; tk_caller : Caller; tk_subject : Z; tk_stop : bool }.

Record ExecutionQueue := mkQueue {
  q_candidates : list (option Candidate);
  q_tickets : list (option Ticket);
  q_running : bool;
}.

Definition Queue_empty : ExecutionQueue := mkQueue (replicate RETAINED None) (replicate RETAINED None) false.
Definition Queue_head (q : ExecutionQueue) : option Ticket := mjoin (q_tickets q !! 0%nat).
Definition Queue_is_empty (q : ExecutionQueue) : bool := is_none (Queue_head q).

(** [tickets.rotate_left(1); tickets[RETAINED - 1] = None]. *)
Definition Queue_finish (q : ExecutionQueue) : ExecutionQueue := mkQueue (q_candidates q) (drop 1 (q_tickets q) ++ [None]) false.
Definition Queue_clear (q : ExecutionQueue) : ExecutionQueue := Queue_empty.

Definition set_tickets (q : ExecutionQueue) (t : list (option Ticket)) : ExecutionQueue := mkQueue (q_candidates q) t (q_running q).
Definition set_candidates (q : ExecutionQueue) (l : list (option Candidate)) : ExecutionQueue := mkQueue l (q_tickets q) (q_running q).
Definition set_running (q : ExecutionQueue) : ExecutionQueue := mkQueue (q_candidates q) (q_tickets q) true.

(** ** Inventory (inventory.rs) *)
Fixpoint refresh_loop (v : Volume) (c : Clients) (slots : list nat) (candidates : list (option Candidate))
    : outcome FileError unit * list (option Candidate) :=
  match slots with
  | [] => (Ok tt, candidates)
  | slot :: slots =>
    match retained_admission v slot with
    | Ok (Some (subject, admission)) =>
      match Scope_new v c subject admission with
      | Ok scope => refresh_loop v c slots (<[slot := Some (mkCandidate scope subject (av_status admission))]> candidates)
      | Err e => (Err e, candidates)
      | Panic => (Panic, candidates)
      end
    | Ok None => refresh_loop v c slots candidates
    | Err EUnsupported => (Ok tt, candidates)
    | Err e => (Err (wire_error e), candidates)
    | Panic => (Panic, candidates)
    end
  end.

Definition Queue_refresh (q : ExecutionQueue) (v : Volume) (c : Clients) : outcome FileError unit * ExecutionQueue :=
  let '(r, candidates) := refresh_loop v c (seq 0 RETAINED) (replicate RETAINED None) in (r, set_candidates q candidates).

(** ** Observation (observation.rs) *)
Definition is_ticket (id : AdmissionId) (o : option Ticket) : bool := is_some_and (fun t => bool_decide (tk_id t = id)) o.
Definition Queue_index (q : ExecutionQueue) (id : AdmissionId) : option nat := position (is_ticket id) (q_tickets q).

(** [self.tickets[index].unwrap()]. *)
Definition ticket_at (q : ExecutionQueue) (index : nat) : outcome FileError Ticket :=
  match q_tickets q !! index with Some (Some t) => Ok t | _ => Panic end.

Definition queued_view (candidate : Candidate) (ticket : Ticket) : Activity :=
  mkActivity (sp_id (cd_scope candidate)) (sp_instance (cd_scope candidate)) Queued (tk_stop ticket) false.

Definition running_view (a : Activity) (stop : bool) : Activity :=
  let cancel := ac_cancel a || stop in
  mkActivity (ac_id a) (ac_instance a) (if cancel then stopping_phase (ac_phase a) else ac_phase a) cancel (ac_io a).

Definition Queue_observe (q : ExecutionQueue) (candidate : Candidate) (active : option ActiveExecution) : outcome FileError ObservationV2 :=
  let id := sp_id (cd_scope candidate) in
  match Queue_index q id with
  | Some index =>
    let? ticket := ticket_at q index in
    if (index =? 0)%nat && q_running q then
      let? current := ok_or active FBusy in
      let view := ax_observation current in
      if negb (bool_decide (ac_id view = id)) then Err FProtocol else Ok (ActiveV2 (running_view view (tk_stop ticket)))
    else Ok (ActiveV2 (queued_view candidate ticket))
  | None =>
    Ok (RetainedV2 (mkStatus id (wire_state (fs_state (cd_status candidate))) (sp_instance (cd_scope candidate)) (fs_terminal (cd_status candidate)))
          (wire_reason <$> fs_prevention (cd_status candidate)))
  end.

(** ** Cancellation (cancellation.rs) *)
Definition stop_ticket (t : Ticket) : Ticket := mkTicket (tk_id t) (tk_caller t) (tk_subject t) true.

(** The running execution a ticket at the head belongs to. *)
Definition running_execution (q : ExecutionQueue) (index : nat) (active : option ActiveExecution) (id : AdmissionId)
    : outcome FileError (option ActiveExecution) :=
  if (index =? 0)%nat && q_running q then
    let? current := ok_or active FBusy in
    if negb (bool_decide (ac_id (ax_observation current) = id)) then Err FProtocol else Ok (Some current)
  else Ok None.

Definition Queue_cancel (q : ExecutionQueue) (candidate : Candidate) (active : option ActiveExecution) (caller : Caller)
    : outcome FileError CancelAck * (ExecutionQueue * option ActiveExecution) :=
  let id := sp_id (cd_scope candidate) in
  if negb (bool_decide (fs_state (cd_status candidate) = FAdmitted)) then (Ok (mkCancelAck id DTooLate), (q, active))
  else
    match Queue_index q id with
    | Some index =>
      match (let? ticket := ticket_at q index in let? current := running_execution q index active id in Ok (ticket, current)) with
      | Err e => (Err e, (q, active))
      | Panic => (Panic, (q, active))
      | Ok (ticket, current) =>
        let already := tk_stop ticket || is_some_and Active_stopping current in
        let q := set_tickets q (<[index := Some (stop_ticket ticket)]> (q_tickets q)) in
        let active := match current with Some current => Some (Active_stop current) | None => active end in
        (Ok (mkCancelAck id (if already then DAlreadyRequested else DRequested)), (q, active))
      end
    | None =>
      match position is_none (q_tickets q) with
      | None => (Err FBusy, (q, active))
      | Some free =>
        (Ok (mkCancelAck id DRequested),
         (set_tickets q (<[free := Some (mkTicket id caller (cd_subject candidate) true)]> (q_tickets q)), active))
      end
    end.

(** ** Requests (dispatch.rs) *)
Definition queue_right (op : Z) : Z :=
  if op =? ADM_SCHEDULE then Z.lor INSPECT_RIGHT WRITE_RIGHT
  else if one_of [ADM_REQUEST_CANCEL; LIFECYCLE_CANCEL] op then CANCEL_RIGHT
  else INSPECT_RIGHT.

Definition is_candidate (id : AdmissionId) (c : Candidate) : bool := bool_decide (sp_id (cd_scope c) = id).

(** The authority checks, up to the caller's candidate. *)
Definition queue_admit (q : ExecutionQueue) (c : Clients) (active : option ActiveExecution) (caller : Caller) (p : Packet) (now : Z)
    : outcome FileError Candidate :=
  let? _ := validate_request p in
  if negb (adm_live (p_op p) || one_of [ADM_SCHEDULE; ADM_OBSERVE; LIFECYCLE_CANCEL] (p_op p)) || negb (ca_context caller =? p_context p)
  then Err FProtocol
  else
    let need := queue_right (p_op p) in
    let? _ := Caller_check_right caller c now need in
    let? id := (if p_op p =? LIFECYCLE_CANCEL then CancelAck_decode_request p else AdmissionId_decode p) in
    let? candidate := ok_or (List.find (is_candidate id) (slots (q_candidates q)))
      (if is_some active || one_of [ADM_OBSERVE; LIFECYCLE_CANCEL] (p_op p) then FOutcomeUnknown else FUnavailable) in
    let? _ := Scope_check (cd_scope candidate) c caller need now in
    Ok candidate.

(** [SCHEDULE] of an admission without a ticket takes the first free slot. *)
Definition queue_enqueue (q : ExecutionQueue) (candidate : Candidate) (caller : Caller) (p : Packet) : outcome FileError ExecutionQueue :=
  let id := sp_id (cd_scope candidate) in
  if (p_op p =? ADM_SCHEDULE) && is_none (Queue_index q id) then
    if negb (bool_decide (fs_state (cd_status candidate) = FAdmitted)) then Err FUnavailable
    else
      let? free := ok_or (position is_none (q_tickets q)) FBusy in
      Ok (set_tickets q (<[free := Some (mkTicket id caller (cd_subject candidate) false)]> (q_tickets q)))
  else Ok q.

(** The ticket's view; [REQUEST_CANCEL] latches its stop. *)
Definition queue_ticket (q : ExecutionQueue) (candidate : Candidate) (active : option ActiveExecution) (p : Packet)
    : outcome FileError Packet * (ExecutionQueue * option ActiveExecution) :=
  let id := sp_id (cd_scope candidate) in
  match (let? index := ok_or (Queue_index q id) FUnavailable in let? ticket := ticket_at q index in Ok (index, ticket)) with
  | Err e => (Err e, (q, active))
  | Panic => (Panic, (q, active))
  | Ok (index, ticket) =>
    let ticket := if p_op p =? ADM_REQUEST_CANCEL then stop_ticket ticket else ticket in
    let q := set_tickets q (<[index := Some ticket]> (q_tickets q)) in
    match running_execution q index active id with
    | Err e => (Err e, (q, active))
    | Panic => (Panic, (q, active))
    | Ok (Some current) =>
      let current := if tk_stop ticket then Active_stop current else current in
      (Activity_packet (running_view (ax_observation current) false) (p_op p) (p_context p), (q, Some current))
    | Ok None => (Activity_packet (queued_view candidate ticket) (p_op p) (p_context p), (q, active))
    end
  end.

Definition queue_handle (q : ExecutionQueue) (c : Clients) (active : option ActiveExecution) (caller : Caller) (p : Packet) (now : Z)
    : outcome FileError Packet * (ExecutionQueue * option ActiveExecution) :=
  match queue_admit q c active caller p now with
  | Err e => (Err e, (q, active))
  | Panic => (Panic, (q, active))
  | Ok candidate =>
    if p_op p =? LIFECYCLE_CANCEL then
      let '(r, qa) := Queue_cancel q candidate active caller in ((let? ack := r in CancelAck_packet ack (p_context p)), qa)
    else if p_op p =? ADM_OBSERVE then ((let? view := Queue_observe q candidate active in observation_reply view p), (q, active))
    else
      match queue_enqueue q candidate caller p with
      | Err e => (Err e, (q, active))
      | Panic => (Panic, (q, active))
      | Ok q => queue_ticket q candidate active p
      end
  end.

Definition queue_request (q : ExecutionQueue) (c : Clients) (active : option ActiveExecution) (caller : Caller) (p : Packet) (now : Z)
    : outcome FileError Packet * (ExecutionQueue * option ActiveExecution) :=
  let '(r, qa) := queue_handle q c active caller p now in (answer p r, qa).

Definition scheduling_request (v : Volume) (c : Clients) (q : ExecutionQueue) (caller : Caller) (p : Packet) (now : Z)
    : outcome FileError Packet * ExecutionQueue :=
  match (if p_op p =? ADM_OBSERVE then stored_as (retained_admission v 0) else Ok None) with
  | Err e => (Ok (failure (p_op p) (p_context p) e), q)
  | Panic => (Panic, q)
  | Ok _ =>
    match Queue_refresh q v c with
    | (Ok _, q) => let '(r, qa) := queue_request q c None caller p now in (r, qa.1)
    | (Err e, q) => (Ok (failure (p_op p) (p_context p) e), q)
    | (Panic, q) => (Panic, q)
    end
  end.

(** ** Execution (execution.rs) *)
Section Run.
Context {D Ow : Type} {HQ : PollDisk D}.
Context (fuel : nat).

(** [FnMut(&mut Clients, &mut ActiveExecution, &mut ExecutionQueue) -> u64]. *)
Definition queue_control : Type := Ow -> Clients -> ActiveExecution -> ExecutionQueue -> Z * Clients * ActiveExecution * ExecutionQueue * Ow.

Definition sees_queue (control : queue_control) : active_control (Ow := Ow * ExecutionQueue) := fun o c active =>
  let '(now, c, active, q, o) := control (o.1) c active (o.2) in (now, c, active, (o, q)).

(** The head's stop reaches the execution before the callback. *)
Definition stops_head (control : queue_control) : active_control (Ow := Ow * ExecutionQueue) := fun o c active =>
  sees_queue control o c (if is_some_and tk_stop (Queue_head (o.2)) then Active_stop active else active).

Definition modify_queue (f : ExecutionQueue -> ExecutionQueue) : serving D (Ow * ExecutionQueue) unit :=
  let! st := call_get in call_put (set_owner st ((s_owner st).1, f (s_owner st).2)).

Definition refresh_queue : serving D (Ow * ExecutionQueue) unit := fun st =>
  let '(r, q) := Queue_refresh (s_owner st).2 (s_volume st) (s_clients st) in Some (r, set_owner st ((s_owner st).1, q)).

(** The error of an execution that lost its guard before data was admitted. *)
Definition prevented_by (e : FileError) : option FsReason :=
  match e with
  | FVersion => Some RVersionConflict
  | FDenied | FRevoked | FExpired | FOutcomeUnknown => Some RAuthorityLost
  | _ => None
  end.

Definition run_ticket (ticket : Ticket) (now : Z) (control : queue_control) : serving D (Ow * ExecutionQueue) FsStatus :=
  let id := stored_id (tk_id ticket) in
  let! _ := refresh_queue in
  let! st := call_get in
  let! old := pure (stored_as (admission_by_id (s_volume st) (tk_subject ticket) id)) in
  if negb (bool_decide (fs_state (av_status old) = FAdmitted)) then pure (Ok (av_status old))
  else
    let! prevention := pure (ActiveExecution_new (s_volume st) (s_clients st) (tk_subject ticket) old) in
    let! _ := modify_queue set_running in
    let prevent reason :=
      let! r := prevent_admission_active fuel (tk_subject ticket) id reason prevention (sees_queue control) in pure (Ok (r.1)) in
    if tk_stop ticket then prevent RRequested
    else call_catch (execute_admission_active_with fuel (tk_caller ticket) id now (stops_head control))
           (fun status => pure (Ok status))
           (fun e => match prevented_by e with Some reason => prevent reason | None => pure (Err e) end).

(** A result kept as a value. *)
Definition attempt {A} (m : serving D (Ow * ExecutionQueue) A) : serving D (Ow * ExecutionQueue) (outcome FileError A) :=
  call_catch m (fun a => pure (Ok (Ok a))) (fun e => pure (Ok (Err e))).

Definition run_scheduled (now : Z) (control : queue_control) : serving D (Ow * ExecutionQueue) (option (outcome FileError FsStatus)) :=
  let! st := call_get in
  match Queue_head (s_owner st).2 with
  | None => pure (Ok None)
  | Some ticket =>
    let! result := attempt (run_ticket ticket now control) in
    let! st := call_get in
    let lost := match result with Err FUncertain => true | _ => false end in
    let! _ := modify_queue (if lost || negb (is_ok (Volume_stat (s_volume st) 1)) then Queue_clear else Queue_finish) in
    pure (Ok (Some result))
  end.
End Run.

(** ** Dispatch (crates/file-service/src/dispatch.rs)

    [Server::handle]: one request of one client, from the packet to the reply,
    with a disk that settles every command inside the call (disk.rs). *)
(** [impl PollDisk for Synchronous]. *)
Definition Synchronous_disk {D} `{Disk D} : PollDisk D := {|
  poll_write d n b := let '(r, d) := disk_write d n b in (Ready r, d);
  poll_flush d := let '(r, d) := disk_flush d in (Ready r, d);
|}.

(** A publication has at most seventeen commands; one more turn sees it settled. *)
Definition HANDLE_FUEL : nat := 20.

Section Dispatch.
Context {D Ow : Type} {HD : Disk D} {HS : Digest}.
Implicit Types st : Service D Ow.

(** [LIST]: the next entry the grant may read. *)
Fixpoint list_loop (fuel : nat) (v : Volume) (g : FileGrant) (id : Z) (cursor : nat) : option (outcome FileError (option (nat * Node))) :=
  match fuel with
  | O => None
  | S fuel =>
    match stored_as (Volume_list v id cursor) with
    | Ok (Some (next, node)) =>
      match FileGrant_access g v (n_id node) false with
      | Ok _ => Some (Ok (Some (next, node)))
      | Err _ => list_loop fuel v g id next
      | Panic => Some Panic
      end
    | Ok None => Some (Ok None)
    | Err e => Some (Err e)
    | Panic => Some Panic
    end
  end.

Definition list_request (g : FileGrant) (p response : Packet) : serving D Ow Packet := fun st =>
  match list_loop (S OBJECTS) (s_volume st) g (p_id p) (Z.to_nat (p_arg p)) with
  | Some r =>
    Some ((let? found := r in
           match found with
           | Some (next, node) => Ok (node_reply response node (Z.of_nat next))
           | None => Ok (with_id response 0)
           end), st)
  | None => None
  end.

(** The requests that concern one transfer or one object. *)
Definition object_request (slot : nat) (peer now : Z) (g : FileGrant) (p : Packet) : serving D Ow Packet :=
  let! st := call_get in
  let v := s_volume st in
  let response := blank_reply (p_op p) (p_context p) in
  let op := p_op p in
  if op =? OP_LOOKUP then
    let! n := pure (stored_as (Volume_lookup v (p_id p) (Packet_payload p))) in
    let! _ := pure (FileGrant_access g v (n_id n) false) in
    pure (Ok (node_reply response n 0))
  else if op =? OP_STAT then
    let! n := pure (stored_as (Volume_stat v (p_id p))) in
    pure (Ok (node_reply response n 0))
  else if op =? OP_LIST then list_request g p response
  else if one_of [OP_CREATE; OP_MKDIR] op then
    let kind := if op =? OP_CREATE then KFile else KDirectory in
    let! n := storage (fun w => Volume_create w (p_id p) (Packet_payload p) kind) in
    pure (Ok (node_reply response n 0))
  else if op =? OP_REMOVE then
    let! _ := storage (fun w => Volume_remove w (p_id p)) in
    pure (Ok response)
  else if op =? OP_READ then
    let! n := pure (stored_as (Volume_stat v (p_id p))) in
    if negb (p_version p =? 0) && negb (p_version p =? n_version n) then pure (Err FVersion)
    else
      let! bytes := storage (fun w => let '(r, d) := Volume_read (w.1) (w.2) (p_id p) (Z.to_nat (p_arg p)) DATA in (r, (w.1, d))) in
      pure (Ok (mkPacket (p_op response) (p_status response) (Z.of_nat (length bytes)) (n_id n) (n_length n) (p_context response) (n_version n)
                  (write (p_data response) 0 bytes)))
  else if op =? OP_BEGIN then
    let! n := pure (stored_as (Volume_stat v (p_id p))) in
    if negb (kind_is (n_kind n) KFile) then pure (Err FIsDirectory)
    else if negb (n_version n =? p_version p) then pure (Err FVersion)
    else let! _ := stage (fun t => Transfers_begin t slot p) in pure (Ok response)
  else if op =? OP_CHUNK then
    let! _ := stage (fun t => Transfers_chunk t slot p) in pure (Ok response)
  else if op =? OP_ABORT then
    let t := cl_transfers (s_clients st) in
    if is_some (Transfers_logical t slot true) || is_some (Transfers_logical t slot false) then pure (Err FNoTransfer)
    else let! _ := stage (fun t => Ok (Transfers_clear t slot)) in pure (Ok response)
  else if op =? OP_COMMIT then
    let! transfer := take_transfer slot p in
    let! _ := pure (FileGrant_check g peer (tf_context transfer) now) in
    let! _ := pure (FileGrant_access g v (tf_id transfer) true) in
    let! bytes := pure (transfer_bytes transfer) in
    let! n := storage_run (fun w => Volume_replace w (tf_id transfer) (tf_version transfer) bytes) in
    pure (Ok (node_reply response n 0))
  else pure (Err FProtocol).

Definition live_right (op : Z) : Z := if op =? ADM_REQUEST_CANCEL then CANCEL_RIGHT else INSPECT_RIGHT.

Definition in_range (first last op : Z) : bool := (first <=? op) && (op <=? last).

(** The closure of [handle]. *)
Definition ordinary_request (slot : nat) (peer : Z) (p : Packet) (now : Z) : serving D Ow Packet :=
  let! _ := pure (validate_request p) in
  let! st := call_get in
  let v := s_volume st in
  let! grant := pure (ok_or (Clients_grant_at (s_clients st) slot) FDenied) in
  let! _ := pure (FileGrant_check grant peer (p_context p) now) in
  let op := p_op p in
  let tracked := Transfers_tracked (cl_transfers (s_clients st)) slot in
  if op =? OP_DESCRIBE then pure (lifecycle_descriptor v p)
  else if op =? OP_CAPABILITIES then pure (map_err (fun _ => FProtocol) (Capabilities_packet (service_capabilities v) (p_context p)))
  else if adm_live op then
    if (fg_subject grant =? 0) || negb (has_right grant (live_right op)) then pure (Err FDenied)
    else let! _ := pure (AdmissionId_decode p) in pure (Err FUnavailable)
  else if in_range ADMISSION_OPEN ADM_CANCEL op then admission_request slot grant p
  else if in_range REPLACE_OPEN OPERATION_PART op then operation_request slot grant p
  else if one_of [OP_REFERENCES; READ_OPEN; READ_CHUNK] op then read_request grant p
  else if one_of [OP_RECOVERY; TRACK_BEGIN; OP_RECEIPT] op || ((op =? OP_COMMIT) && tracked) then recovery_request slot grant p
  else
    let write := one_of [OP_CREATE; OP_MKDIR; OP_REMOVE; OP_BEGIN; OP_CHUNK; OP_COMMIT; OP_ABORT] op in
    let! _ := pure (if one_of [OP_CHUNK; OP_ABORT] op && tracked then FileGrant_inspect grant v (p_id p)
                    else FileGrant_access grant v (p_id p) write) in
    object_request slot peer now grant p.

(** [|_, _| now]. *)
Definition fixed_clock (now : Z) : owner_control (Ow := Ow) := fun o c _ => (now, c, o).

Definition Server_handle (slot : nat) (peer : Z) (p : Packet) (now : Z) : serving D Ow Packet :=
  if adm_controlled (p_op p) then
    admission_with (HQ := Synchronous_disk) HANDLE_FUEL (mkCaller slot peer (p_context p)) p (fixed_clock now)
  else if p_op p =? REPLACE_COMMIT then commit_with (HQ := Synchronous_disk) HANDLE_FUEL slot peer p (fixed_clock now)
  else answering p (ordinary_request slot peer p now).
End Dispatch.
