(* ===== verification/SvcClientsFacts.v ===== *)
(** * Authority of the file service's clients

    The invariant of [Clients] (live generations are distinct, a helper's
    authority never outlives its root, every staged transfer belongs to one live
    grant) and that every operation of clients.rs, transfer.rs and grants.rs
    keeps it. *)
From stdpp Require Import base list option numbers.
From Stdlib Require Import ZArith Lia Bool.
From S2P Require Import Prelude Bytes Codec AbiFiles AbiIdentity AbiMessages AbiAdmission FsDisk FsNode FsTree FsVolume FsInvariant SvcClients SvcServer.

(** ** Revocation of a family *)
Definition of_root (c : Clients) (root : Z) (i : nat) : bool := bool_decide (cl_roots c !! i = Some root) && is_some (Clients_grant_at c i).

Definition revoked_grant (c : Clients) (root : Z) (l : list nat) (i : nat) (o : option FileGrant) : option FileGrant :=
  if bool_decide (i ∈ l) && of_root c root i then drop_rights <$> o else o.

Definition revoked_transfer (c : Clients) (root : Z) (l : list nat) (o : option Transfer) : option Transfer :=
  if is_some_and (fun s => bool_decide (tf_client s ∈ l) && of_root c root (tf_client s)) o then None else o.

Lemma grant_at_insert c i o t j : (i < length (cl_grants c))%nat ->
  Clients_grant_at (mkClients (<[i := o]> (cl_grants c)) (cl_roots c) (cl_next c) t) j = if decide (i = j) then o else Clients_grant_at c j.
Proof.
  intros Hi. unfold Clients_grant_at. cbn. destruct (decide (i = j)) as [->|Hne]; [by rewrite list_lookup_insert_eq|by rewrite list_lookup_insert_ne].
Qed.

Lemma grant_at_Some c i g : Clients_grant_at c i = Some g <-> cl_grants c !! i = Some (Some g).
Proof. unfold Clients_grant_at. destruct (cl_grants c !! i) as [[]|]; cbn; split; congruence. Qed.

(** A family revoked slot by slot. *)
Lemma revoke_slots_spec root l c m : exists c' m', foldl (revoke_slot root) (c, m) l = (c', m') /\
  cl_roots c' = cl_roots c /\ cl_next c' = cl_next c /\ length (cl_grants c') = length (cl_grants c) /\
  (forall i, Clients_grant_at c' i = revoked_grant c root l i (Clients_grant_at c i)) /\
  cl_transfers c' = revoked_transfer c root l <$> cl_transfers c /\
  (forall i, Z.testbit m' (Z.of_nat i) = Z.testbit m (Z.of_nat i) || (bool_decide (i ∈ l) && of_root c root i)).
Proof.
  revert c m. induction l as [|x l IH]; intros c m.
  { exists c, m. split; [done|]. split; [done|]. split; [done|]. split; [done|]. split; [|split].
    - intros i. unfold revoked_grant. by rewrite bool_decide_false by apply not_elem_of_nil.
    - symmetry. rewrite <- (list_fmap_id (cl_transfers c)) at 2. apply list_fmap_ext. intros i o _. unfold revoked_transfer.
      destruct o as [s|]; [|done]. cbn. by rewrite bool_decide_false by apply not_elem_of_nil.
    - intros i. rewrite bool_decide_false by apply not_elem_of_nil. by rewrite orb_false_r. }
  cbn [foldl].
  assert (Hx : (of_root c root x = false /\ revoke_slot root (c, m) x = (c, m)) \/
    exists g, of_root c root x = true /\ Clients_grant_at c x = Some g /\ cl_grants c !! x = Some (Some g) /\ cl_roots c !! x = Some root /\
      revoke_slot root (c, m) x =
        (mkClients (<[x := Some (drop_rights g)]> (cl_grants c)) (cl_roots c) (cl_next c) (Transfers_clear (cl_transfers c) x),
         Z.lor m (Z.shiftl 1 (Z.of_nat x)))).
  { unfold revoke_slot, of_root, Clients_grant_at. destruct (cl_roots c !! x) as [r|]; [|left; by rewrite bool_decide_false].
    destruct (cl_grants c !! x) as [[g|]|]; cbn; [|left; by rewrite andb_false_r..].
    destruct (Z.eqb_spec r root) as [->|Hne]; [right; exists g; by rewrite bool_decide_true|left]. rewrite bool_decide_false; [done|congruence]. }
  destruct Hx as [[Hx ->]|(g & Hx & Hg & Hgx & Hr & ->)].
  - destruct (IH c m) as (c' & m' & E & H1 & H2 & H3 & H4 & H5 & H6). exists c', m'. split; [done|].
    assert (Hl : forall i, bool_decide (i ∈ x :: l) && of_root c root i = bool_decide (i ∈ l) && of_root c root i).
    { intros i. destruct (decide (i = x)) as [->|Hne]; [by rewrite Hx, !andb_false_r|]. f_equal. apply bool_decide_ext. rewrite elem_of_cons. tauto. }
    do 3 (split; [done|]). split; [|split].
    + intros i. rewrite H4. unfold revoked_grant. by rewrite Hl.
    + rewrite H5. apply list_fmap_ext. intros i o _. unfold revoked_transfer. destruct o as [s|]; [|done]. cbn. by rewrite Hl.
    + intros i. by rewrite H6, Hl.
  - set (c1 := mkClients _ _ _ _). pose proof (lookup_lt_Some _ _ _ Hgx) as Hlen.
    assert (Ho : forall i, of_root c1 root i = of_root c root i).
    { intros i. unfold of_root, c1. rewrite grant_at_insert by done. cbn [cl_roots]. destruct (decide (x = i)) as [<-|]; [by rewrite Hg|done]. }
    destruct (IH c1 (Z.lor m (Z.shiftl 1 (Z.of_nat x)))) as (c' & m' & E & H1 & H2 & H3 & H4 & H5 & H6). exists c', m'. split; [done|].
    split; [by rewrite H1|]. split; [by rewrite H2|]. split; [rewrite H3; apply length_insert|]. split; [|split].
    + intros i. rewrite H4. unfold revoked_grant. rewrite Ho. unfold c1. rewrite grant_at_insert by done. destruct (decide (x = i)) as [<-|Hne].
      * rewrite Hx, Hg, (bool_decide_true (x ∈ x :: l)) by left. cbn [andb]. by destruct (_ && _).
      * replace (bool_decide (i ∈ x :: l)) with (bool_decide (i ∈ l)); [done|]. apply bool_decide_ext. rewrite elem_of_cons. intuition congruence.
    + rewrite H5. unfold c1. cbn [cl_transfers]. unfold Transfers_clear. rewrite <- list_fmap_compose. apply list_fmap_ext. intros i o _. cbn.
      destruct o as [s|]; [|done]. cbn. unfold owned_by, revoked_transfer. destruct (Nat.eqb_spec (tf_client s) x) as [Hs|Hne]; cbn.
      * rewrite Hs, Hx, (bool_decide_true (x ∈ x :: l)) by left. done.
      * rewrite Ho. replace (bool_decide (tf_client s ∈ x :: l)) with (bool_decide (tf_client s ∈ l)); [done|].
        apply bool_decide_ext. rewrite elem_of_cons. intuition congruence.
    + intros i. rewrite H6, Ho, Z.lor_spec, Z.shiftl_spec by lia. destruct (decide (x = i)) as [<-|Hne].
      * rewrite Hx, (bool_decide_true (x ∈ x :: l)) by left. rewrite Z.sub_diag. cbn. by rewrite orb_true_r.
      * replace (Z.testbit 1 (Z.of_nat i - Z.of_nat x)) with false.
        -- rewrite orb_false_r. f_equal. f_equal. apply bool_decide_ext. rewrite elem_of_cons. intuition congruence.
        -- symmetry. destruct (Z.lt_ge_cases (Z.of_nat i - Z.of_nat x) 0); [by apply Z.testbit_neg_r|]. change 1 with (2 ^ 0). apply Z.pow2_bits_false. lia.
Qed.

(** ** The invariant *)
Record grant_fits (g : FileGrant) : Prop := {
  gf_scope : fits 32 (fg_scope g);
  gf_second : fits 32 (fg_second g);
  gf_rights : 0 <= fg_rights g < 16;
  gf_expires : fits 64 (fg_expires g);
  gf_subject : fits 64 (fg_subject g);
}.

(** A staged transfer belongs to the live grant it was opened under. *)
Record transfer_ok (c : Clients) (s : Transfer) : Prop := {
  to_owner : exists g, Clients_grant_at c (tf_client s) = Some g /\ fg_rights g <> 0 /\ fg_generation g = tf_context s;
  to_data : length (tf_data s) = MAX_FILE /\ bytes_ok (tf_data s);
  to_bounds : (tf_received s <= tf_total s <= MAX_FILE)%nat;
  to_logical : forall r, tf_logical s = Some r -> replacement_ok r /\ rs_object (rp_resource r) = tf_id s;
  to_retry : forall r, tf_retry s = Some r -> Retry_valid r;
  to_admission : tf_admission s = true -> is_Some (tf_logical s);
  to_version : fits 64 (tf_version s);
}.

Record clients_ok (c : Clients) : Prop := {
  co_lengths : length (cl_grants c) = CLIENTS /\ length (cl_roots c) = CLIENTS /\ length (cl_transfers c) = 2%nat;
  co_next : 1 <= cl_next c <= u32_max;
  co_grant : forall i g, Clients_grant_at c i = Some g ->
    grant_fits g /\ exists r, cl_roots c !! i = Some r /\ 1 <= r <= fg_generation g /\ fg_generation g < cl_next c;
  co_unique : forall i j g h, Clients_grant_at c i = Some g -> Clients_grant_at c j = Some h -> fg_generation g = fg_generation h -> i = j;
  co_empty : forall i, Clients_grant_at c i = None -> (i < CLIENTS)%nat -> cl_roots c !! i = Some 0;
  co_root : forall i g r, Clients_grant_at c i = Some g -> fg_rights g <> 0 -> cl_roots c !! i = Some r -> r <> fg_generation g ->
    exists j h, Clients_grant_at c j = Some h /\ fg_generation h = r /\ fg_rights h <> 0 /\ cl_roots c !! j = Some r;
  co_transfer : forall k s, cl_transfers c !! k = Some (Some s) -> transfer_ok c s;
  co_single : forall j k s t, cl_transfers c !! j = Some (Some s) -> cl_transfers c !! k = Some (Some t) -> tf_client s = tf_client t -> j = k;
}.

Lemma grant_slot c i g : clients_ok c -> Clients_grant_at c i = Some g -> (i < CLIENTS)%nat.
Proof. intros H Hg. apply grant_at_Some, lookup_lt_Some in Hg. by rewrite (proj1 (co_lengths _ H)) in Hg. Qed.

Lemma Clients_new_ok : clients_ok Clients_new.
Proof.
  assert (Hn : forall i, Clients_grant_at Clients_new i = None).
  { intros i. unfold Clients_grant_at. cbn. destruct i as [|[|[|[|i]]]]; done. }
  split; try done.
  - intros i g. by rewrite Hn.
  - intros i j g h. by rewrite Hn.
  - intros i _ Hi. cbn. unfold CLIENTS in Hi. destruct i as [|[|[|[|i]]]]; [done..|lia].
  - intros i g r. by rewrite Hn.
  - intros k s Hk. cbn in Hk. destruct k as [|[|k]]; done.
  - intros j k s t Hk. cbn in Hk. destruct j as [|[|j]]; done.
Qed.

(** ** Revoking a root *)
Definition family (c : Clients) (root : Z) (i : nat) : bool := of_root c root i.

Lemma revoke_root_spec c root mask c' : clients_ok c -> Clients_revoke_root c root = (mask, c') ->
  cl_roots c' = cl_roots c /\ cl_next c' = cl_next c /\ length (cl_grants c') = length (cl_grants c) /\
  (forall i, Clients_grant_at c' i = if negb (root =? 0) && family c root i then drop_rights <$> Clients_grant_at c i else Clients_grant_at c i) /\
  cl_transfers c' = (fun o => if is_some_and (fun s => negb (root =? 0) && family c root (tf_client s)) o then None else o) <$> cl_transfers c /\
  (forall i, Z.testbit mask (Z.of_nat i) = negb (root =? 0) && family c root i).
Proof.
  intros H E. unfold Clients_revoke_root in E. destruct (Z.eqb_spec root 0) as [->|Hr]; cbn [negb andb].
  { injection E as <- <-. do 4 (split; [done|]). split; [|intros; apply Z.testbit_0_l].
    rewrite <- (list_fmap_id (cl_transfers c)) at 1. apply list_fmap_ext. intros k o _. by destruct o. }
  destruct (revoke_slots_spec root (seq 0 CLIENTS) c 0) as (c1 & m1 & E1 & H1 & H2 & H3 & H4 & H5 & H6). rewrite E1 in E. injection E as <- <-.
  assert (Hin : forall i, of_root c root i = true -> bool_decide (i ∈ seq 0 CLIENTS) = true).
  { intros i Hi. unfold of_root in Hi. apply andb_true_iff in Hi as [_ Hi]. destruct (Clients_grant_at c i) as [g|] eqn:Hg; [|done].
    apply bool_decide_true, elem_of_seq. pose proof (grant_slot _ _ _ H Hg). lia. }
  assert (Hb : forall i, bool_decide (i ∈ seq 0 CLIENTS) && of_root c root i = of_root c root i).
  { intros i. destruct (of_root c root i) eqn:Hi; [by rewrite (Hin i Hi)|apply andb_false_r]. }
  do 3 (split; [done|]). split; [|split].
  - intros i. rewrite H4. unfold revoked_grant. by rewrite Hb.
  - rewrite H5. apply list_fmap_ext. intros k o _. unfold revoked_transfer. destruct o as [s|]; [|done]. cbn. by rewrite Hb.
  - intros i. rewrite H6, Hb. by rewrite Z.testbit_0_l.
Qed.

(** What remains after some transfers are dropped and some rights are cleared. *)
Lemma family_Some c root i g : Clients_grant_at c i = Some g -> family c root i = bool_decide (cl_roots c !! i = Some root).
Proof. intros Hg. unfold family, of_root. rewrite Hg. by rewrite andb_true_r. Qed.

Lemma transfer_kept c c' s : Clients_grant_at c' (tf_client s) = Clients_grant_at c (tf_client s) -> transfer_ok c s -> transfer_ok c' s.
Proof. intros Hg []. split; try done. by rewrite Hg. Qed.

Lemma revoke_root_ok c root mask c' : clients_ok c -> Clients_revoke_root c root = (mask, c') -> clients_ok c'.
Proof.
  intros H E. destruct (revoke_root_spec c root mask c' H E) as (H1 & H2 & H3 & H4 & H5 & _).
  assert (Hback : forall i g, Clients_grant_at c' i = Some g -> exists g0, Clients_grant_at c i = Some g0 /\
     fg_generation g = fg_generation g0 /\ (grant_fits g0 -> grant_fits g) /\
     (fg_rights g <> 0 -> g = g0 /\ (root = 0 \/ cl_roots c !! i <> Some root))).
  { intros i g Hg. rewrite H4 in Hg. destruct (negb (root =? 0) && family c root i) eqn:F.
    - destruct (Clients_grant_at c i) as [g0|] eqn:G; [|done]. injection Hg as <-. exists g0. split; [done|]. split; [done|].
      split; [intros []; split; cbn; (done || lia)|done].
    - exists g. split; [done|]. split; [done|]. split; [done|]. intros _. split; [done|]. rewrite (family_Some _ _ _ _ Hg) in F.
      destruct (Z.eqb_spec root 0); [by left|right]. intros Hr. by rewrite bool_decide_true in F. }
  assert (Hnone : forall i, Clients_grant_at c' i = None -> Clients_grant_at c i = None).
  { intros i Hi. rewrite H4 in Hi. by destruct (_ && _); [destruct (Clients_grant_at c i)|]. }
  assert (Htr : forall k s, cl_transfers c' !! k = Some (Some s) -> cl_transfers c !! k = Some (Some s) /\ (negb (root =? 0) && family c root (tf_client s)) = false).
  { intros k s Hk. rewrite H5, list_lookup_fmap in Hk. destruct (cl_transfers c !! k) as [[t|]|]; cbn in Hk; [|done..].
    destruct (_ && _) eqn:F; [done|]. injection Hk as ->. done. }
  split.
  - rewrite H1, H3, H5, length_fmap. apply H.
  - rewrite H2. apply H.
  - intros i g Hg. destruct (Hback i g Hg) as (g0 & Hg0 & Eg & Hf & _). destruct (co_grant _ H i g0 Hg0) as (F & r & Hr & Hb). rewrite H1, H2, Eg.
    split; [by apply Hf|]. by exists r.
  - intros i j g h Hg Hh Egh. destruct (Hback i g Hg) as (g0 & Hg0 & Eg & _). destruct (Hback j h Hh) as (h0 & Hh0 & Eh & _).
    eapply (co_unique _ H); [exact Hg0|exact Hh0|congruence].
  - intros i Hi Hl. rewrite H1. apply (co_empty _ H); [by apply Hnone|done].
  - intros i g r Hg Hri Hr Hne. rewrite H1 in Hr. destruct (Hback i g Hg) as (g0 & Hg0 & Eg & _ & Hk). destruct (Hk Hri) as [-> Hroot].
    destruct (co_root _ H i g0 r Hg0 Hri Hr Hne) as (j & h & Hh & Ej & Hhr & Hj). exists j, h. rewrite H1, H4.
    rewrite (family_Some _ _ _ _ Hh), Hj. destruct Hroot as [->|Hroot]; [done|]. rewrite (bool_decide_false (Some r = Some root)) by congruence. by rewrite andb_false_r.
  - intros k s Hk. destruct (Htr k s Hk) as [Hk0 F]. eapply transfer_kept; [|by eapply (co_transfer _ H)]. by rewrite H4, F.
  - intros j k s t Hj Hk Es. eapply (co_single _ H); [by apply (Htr j s)|by apply (Htr k t)|done].
Qed.

(** ** Emptying a slot *)
Lemma clear_lookup t slot k s : Transfers_clear t slot !! k = Some (Some s) <-> t !! k = Some (Some s) /\ tf_client s <> slot.
Proof.
  unfold Transfers_clear. rewrite list_lookup_fmap. destruct (t !! k) as [[x|]|]; cbn; [|split; [done|]; by intros [? _]..].
  unfold owned_by. destruct (Nat.eqb_spec (tf_client x) slot); split.
  - done.
  - by intros [[= ->] ?].
  - by intros [= ->].
  - by intros [[= ->] _].
Qed.

Definition empty_slot (c : Clients) (slot : nat) : Clients :=
  mkClients (<[slot := None]> (cl_grants c)) (<[slot := 0]> (cl_roots c)) (cl_next c) (Transfers_clear (cl_transfers c) slot).

Lemma empty_grant c slot i : (slot < length (cl_grants c))%nat ->
  Clients_grant_at (empty_slot c slot) i = if decide (slot = i) then None else Clients_grant_at c i.
Proof. intros Hl. unfold empty_slot. rewrite <- (grant_at_insert c slot None (cl_transfers c) i Hl). done. Qed.

(** No helper still holds rights under the root of this slot. *)
Definition unrooted (c : Clients) (slot : nat) : Prop := forall i g h r, Clients_grant_at c i = Some g -> fg_rights g <> 0 ->
  cl_roots c !! i = Some r -> r <> fg_generation g -> Clients_grant_at c slot = Some h -> fg_generation h <> r \/ fg_rights h = 0 \/ cl_roots c !! slot <> Some r.

Lemma empty_slot_ok c slot : clients_ok c -> (slot < CLIENTS)%nat -> unrooted c slot -> clients_ok (empty_slot c slot).
Proof.
  intros H Hs Hu. destruct (co_lengths _ H) as (L1 & L2 & L3). assert (Hg : (slot < length (cl_grants c))%nat) by lia.
  assert (Hsome : forall i g, Clients_grant_at (empty_slot c slot) i = Some g -> slot <> i /\ Clients_grant_at c i = Some g).
  { intros i g. rewrite empty_grant by done. by destruct (decide (slot = i)). }
  assert (Hroot : forall i, slot <> i -> cl_roots (empty_slot c slot) !! i = cl_roots c !! i).
  { intros i Hne. cbn. by rewrite list_lookup_insert_ne. }
  split.
  - cbn. unfold Transfers_clear. by rewrite !length_insert, length_fmap.
  - apply H.
  - intros i g [Hne Hi]%Hsome. rewrite Hroot by done. by apply (co_grant _ H).
  - intros i j g h [_ Hi]%Hsome [_ Hj]%Hsome. by eapply (co_unique _ H).
  - intros i Hi Hl. destruct (decide (slot = i)) as [<-|Hne]; [cbn; apply list_lookup_insert_eq; lia|]. rewrite Hroot by done.
    apply (co_empty _ H); [|done]. rewrite empty_grant in Hi by done. by rewrite decide_False in Hi.
  - intros i g r [Hne Hi]%Hsome Hr Hri Hgr. rewrite Hroot in Hri by done. destruct (co_root _ H i g r Hi Hr Hri Hgr) as (j & h & Hj & Eh & Hh & Hrj).
    assert (slot <> j). { intros <-. destruct (Hu i g h r Hi Hr Hri Hgr Hj) as [?|[?|?]]; done. }
    exists j, h. rewrite Hroot, empty_grant by done. by rewrite decide_False.
  - intros k s [Hk Hne]%clear_lookup. eapply transfer_kept; [|by eapply (co_transfer _ H)]. rewrite empty_grant by done. rewrite decide_False; [done|congruence].
  - intros j k s t [Hj _]%clear_lookup [Hk _]%clear_lookup. by eapply (co_single _ H).
Qed.

(** [detach] empties the slot and revokes the family of a root first. *)
Definition roots_itself (c : Clients) (slot : nat) (g : FileGrant) : bool := bool_decide (cl_roots c !! slot = Some (fg_generation g)).

Lemma detach_spec c slot : clients_ok c -> clients_ok (Clients_detach c slot) /\ cl_next (Clients_detach c slot) = cl_next c /\
  match Clients_grant_at c slot with
  | None => Clients_detach c slot = c
  | Some g => forall i, Clients_grant_at (Clients_detach c slot) i =
      if decide (slot = i) then None
      else if roots_itself c slot g && family c (fg_generation g) i then drop_rights <$> Clients_grant_at c i else Clients_grant_at c i
  end /\
  (forall i, slot <> i -> cl_roots (Clients_detach c slot) !! i = cl_roots c !! i).
Proof.
  intros H. unfold Clients_detach. destruct (Clients_grant_at c slot) as [g|] eqn:Hg; [|done].
  pose proof (grant_slot _ _ _ H Hg) as Hs. destruct (co_grant _ H slot g Hg) as (_ & r & Hr & Hb & _).
  fold (roots_itself c slot g). destruct (roots_itself c slot g) eqn:Ho; unfold roots_itself in Ho.
  - apply bool_decide_eq_true in Ho. unfold Clients_revoke, root_at. rewrite Hg, Ho.
    destruct (Clients_revoke_root c (fg_generation g)) as [mask c1] eqn:E. cbn [snd].
    destruct (revoke_root_spec c _ mask c1 H E) as (H1 & H2 & H3 & H4 & H5 & _). pose proof (revoke_root_ok c _ mask c1 H E) as Hc1.
    destruct (co_lengths _ H) as (L1 & L2 & L3). fold (empty_slot c1 slot). split; [|split; [done|split]].
    + apply empty_slot_ok; [done|done|]. intros i g' h r' _ _ _ _ Hh. right; left. rewrite H4, Hg, (family_Some _ _ _ _ Hg), Ho in Hh.
      rewrite bool_decide_true in Hh by done. destruct (Z.eqb_spec (fg_generation g) 0); [lia|]. cbn in Hh. by injection Hh as <-.
    + intros i. rewrite empty_grant by lia. destruct (decide (slot = i)); [done|]. rewrite H4. destruct (Z.eqb_spec (fg_generation g) 0); [lia|]. done.
    + intros i Hne. cbn. rewrite list_lookup_insert_ne by done. by rewrite H1.
  - apply bool_decide_eq_false in Ho. destruct (co_lengths _ H) as (L1 & L2 & L3). fold (empty_slot c slot). split; [|split; [done|split]].
    + apply empty_slot_ok; [done|done|]. intros i g' h r' _ _ _ _ Hh. rewrite Hg in Hh. injection Hh as <-.
      destruct (Z.eq_dec (fg_generation g) r') as [<-|]; [right; right; exact Ho|by left].
    + intros i. rewrite empty_grant by lia. done.
    + intros i Hne. cbn. by rewrite list_lookup_insert_ne.
Qed.

(** ** Expiry clears staging only *)
Lemma expire_spec c now : cl_grants (Clients_expire c now) = cl_grants c /\ cl_roots (Clients_expire c now) = cl_roots c /\
  cl_next (Clients_expire c now) = cl_next c /\ length (cl_transfers (Clients_expire c now)) = length (cl_transfers c) /\
  (forall k s, cl_transfers (Clients_expire c now) !! k = Some (Some s) -> cl_transfers c !! k = Some (Some s)).
Proof.
  unfold Clients_expire. generalize (seq 0 CLIENTS). intros l. revert c. induction l as [|x l IH]; intros c; [done|]. cbn [foldl].
  destruct (IH (expire_slot now c x)) as (-> & -> & -> & -> & H).
  unfold expire_slot in *. destruct (is_some_and _ _); cbn; [|done]. do 3 (split; [done|]). split; [apply length_fmap|].
  intros k s Hk. by apply H, clear_lookup in Hk as [? _].
Qed.

(** Operations that only drop staged transfers keep the invariant. *)
Lemma staging_ok c t : clients_ok c -> length t = 2%nat -> (forall k s, t !! k = Some (Some s) -> transfer_ok c s) ->
  (forall j k s u, t !! j = Some (Some s) -> t !! k = Some (Some u) -> tf_client s = tf_client u -> j = k) -> clients_ok (set_transfers c t).
Proof.
  intros H Hl Ht Hu. destruct H as [(? & ? & _) ? ? ? ? ? _ _]. split; try done. intros k s Hk. eapply transfer_kept; [|by eapply Ht]. done.
Qed.

Lemma expire_ok c now : clients_ok c -> clients_ok (Clients_expire c now).
Proof.
  intros H. destruct (expire_spec c now) as (E1 & E2 & E3 & E4 & E5).
  replace (Clients_expire c now) with (set_transfers c (cl_transfers (Clients_expire c now))) by (unfold set_transfers; destruct (Clients_expire c now); cbn in *; congruence).
  apply staging_ok; [done|by rewrite E4; apply H| |].
  - intros k s Hk. eapply (co_transfer _ H). by apply E5.
  - intros j k s u Hj Hk. eapply (co_single _ H); by apply E5.
Qed.

Lemma clear_ok c slot : clients_ok c -> clients_ok (set_transfers c (Transfers_clear (cl_transfers c) slot)).
Proof.
  intros H. apply staging_ok; [done|unfold Transfers_clear; rewrite length_fmap; apply H| |].
  - intros k s [Hk _]%clear_lookup. by eapply (co_transfer _ H).
  - intros j k s u [Hj _]%clear_lookup [Hk _]%clear_lookup. by eapply (co_single _ H).
Qed.

(** ** Installing a grant *)
Definition fill_slot (c : Clients) (slot : nat) (g : FileGrant) (root next : Z) : Clients :=
  mkClients (<[slot := Some g]> (cl_grants c)) (<[slot := root]> (cl_roots c)) next (cl_transfers c).

Lemma fill_grant c slot g root next i : (slot < length (cl_grants c))%nat ->
  Clients_grant_at (fill_slot c slot g root next) i = if decide (slot = i) then Some g else Clients_grant_at c i.
Proof. intros Hl. rewrite <- (grant_at_insert c slot (Some g) (cl_transfers c) i Hl). done. Qed.

(** A live root: a grant that heads its own family and still has rights. *)
Definition live_root (c : Clients) (j : nat) (root : Z) : Prop :=
  exists h, Clients_grant_at c j = Some h /\ fg_generation h = root /\ fg_rights h <> 0 /\ cl_roots c !! j = Some root.

Lemma fill_slot_ok c slot g root : clients_ok c -> (slot < CLIENTS)%nat -> Clients_grant_at c slot = None -> grant_fits g ->
  fg_generation g = cl_next c -> cl_next c < u32_max -> root = cl_next c \/ (exists j, live_root c j root) ->
  clients_ok (fill_slot c slot g root (cl_next c + 1)).
Proof.
  intros H Hs Hn Hg Eg Hm Hr. destruct (co_lengths _ H) as (L1 & L2 & L3). assert (Hl : (slot < length (cl_grants c))%nat) by lia.
  pose proof (co_next _ H) as Hnx.
  assert (Hroot : 1 <= root <= cl_next c).
  { destruct Hr as [->|(j & h & Hh & <- & _ & Hj)]; [lia|]. destruct (co_grant _ H j h Hh) as (_ & r & Hr & ? & ?). rewrite Hj in Hr. injection Hr as <-. lia. }
  assert (Hkeep : forall j r, live_root c j r -> live_root (fill_slot c slot g root (cl_next c + 1)) j r).
  { intros j r (h & Hh & Eh & Hri & Hj). assert (slot <> j) by congruence. exists h. rewrite fill_grant by done. rewrite decide_False by done.
    cbn. by rewrite list_lookup_insert_ne. }
  split.
  - cbn. by rewrite !length_insert.
  - cbn. unfold u32_max in *. lia.
  - intros i x Hx. rewrite fill_grant in Hx by done. cbn. destruct (decide (slot = i)) as [<-|Hne].
    + injection Hx as <-. split; [done|]. exists root. rewrite list_lookup_insert_eq by lia. split; [done|]. lia.
    + destruct (co_grant _ H i x Hx) as (F & r & Hi & Hb). split; [done|]. exists r. rewrite list_lookup_insert_ne by done. split; [done|]. lia.
  - intros i j x y Hx Hy Exy. rewrite fill_grant in Hx, Hy by done. destruct (decide (slot = i)) as [<-|]; destruct (decide (slot = j)) as [<-|]; [done| | |].
    + injection Hx as <-. destruct (co_grant _ H j y Hy) as (_ & r & _ & Hb). lia.
    + injection Hy as <-. destruct (co_grant _ H i x Hx) as (_ & r & _ & Hb). lia.
    + by eapply (co_unique _ H).
  - intros i Hi Hc. rewrite fill_grant in Hi by done. destruct (decide (slot = i)) as [<-|Hne]; [done|]. cbn. rewrite list_lookup_insert_ne by done. by apply (co_empty _ H).
  - intros i x r Hx Hri Hi Hne. rewrite fill_grant in Hx by done. destruct (decide (slot = i)) as [<-|Hsi].
    + injection Hx as <-. cbn in Hi. rewrite list_lookup_insert_eq in Hi by lia. injection Hi as <-. destruct Hr as [->|[j Hj]]; [congruence|].
      destruct (Hkeep j root Hj) as (h & ? & ? & ? & ?). by exists j, h.
    + cbn in Hi. rewrite list_lookup_insert_ne in Hi by done. destruct (co_root _ H i x r Hx Hri Hi Hne) as (j & h & Hh).
      destruct (Hkeep j r) as (h' & ? & ? & ? & ?); [exists h; tauto|]. by exists j, h'.
  - intros k s Hk. pose proof (co_transfer _ H k s Hk) as Ht. eapply transfer_kept; [|exact Ht]. rewrite fill_grant by done.
    destruct (to_owner _ _ Ht) as (x & Hx & _). rewrite decide_False by congruence. done.
  - apply (co_single _ H).
Qed.

Lemma detach_empty c slot : clients_ok c -> Clients_grant_at (Clients_detach c slot) slot = None.
Proof.
  intros H. destruct (detach_spec c slot H) as (_ & _ & Hd & _). destruct (Clients_grant_at c slot) as [g|] eqn:E; [|by rewrite Hd].
  rewrite Hd. by rewrite decide_True.
Qed.

Lemma grant_valid v slot g : grant_invalid v slot g = false -> (slot < CLIENTS)%nat /\ fg_peer g <> 0 /\ fg_endpoint g <> 0 /\ fg_rights g <> 0.
Proof. unfold grant_invalid. rewrite !orb_false_iff. intros [[[[[[[H1 H2] H3] H4] _] _] _] _]. apply Nat.leb_gt in H1. bools. done. Qed.

(** The other slots keep their grants, except those rooted in the replaced one. *)
Definition detached (c : Clients) (slot i : nat) : option FileGrant :=
  match Clients_grant_at c slot with
  | Some g => if roots_itself c slot g && family c (fg_generation g) i then drop_rights <$> Clients_grant_at c i else Clients_grant_at c i
  | None => Clients_grant_at c i
  end.

Lemma install_spec v c slot g root generation c' : clients_ok c -> grant_fits g -> root = 0 \/ (exists j, slot <> j /\ live_root c j root) ->
  install v c slot g root = Ok (generation, c') ->
  clients_ok c' /\ generation = cl_next c /\ cl_next c' = generation + 1 /\ grant_invalid v slot g = false /\
  Clients_grant_at c' slot = Some (set_generation g generation) /\ cl_roots c' !! slot = Some (if root =? 0 then generation else root) /\
  (forall i, slot <> i -> Clients_grant_at c' i = detached c slot i /\ cl_roots c' !! i = cl_roots c !! i).
Proof.
  intros H Hg Hr E. unfold install in E. destruct (grant_invalid v slot g) eqn:Gi; [done|]. destruct (grant_valid v slot g Gi) as (Hs & _ & _ & Hri).
  destruct (checked_add32 (cl_next c) 1) as [next|] eqn:En; [|done]. cbn in E. injection E as <- <-.
  assert (next = cl_next c + 1 /\ cl_next c < u32_max) as [-> Hm]. { unfold checked_add32 in En. case_match; [|done]. injection En as <-. bools. split; [done|lia]. }
  destruct (detach_spec c slot H) as (H1 & En1 & Hd & Hro). pose proof (detach_empty c slot H) as He. set (c1 := Clients_detach c slot) in *.
  rewrite En1. set (r := if root =? 0 then cl_next c else root). fold (fill_slot c1 slot (set_generation g (cl_next c)) r (cl_next c + 1)).
  assert (Hl : (slot < length (cl_grants c1))%nat) by (rewrite (proj1 (co_lengths _ H1)); done).
  assert (Hother : forall i, slot <> i -> Clients_grant_at c1 i = detached c slot i).
  { intros i Hne. unfold detached. destruct (Clients_grant_at c slot) as [h|] eqn:Eh; [|by rewrite Hd]. rewrite Hd. by rewrite decide_False. }
  split; [|split; [done|split; [done|split; [done|split; [|split]]]]].
  - rewrite <- En1 in Hm |- * at 2. apply fill_slot_ok; [done|done|done|by destruct Hg|done|done|]. subst r. destruct Hr as [->|(j & Hsj & h & Hh & Eh & Hhr & Hj)]; [left; by rewrite En1|right].
    exists j. destruct (Z.eqb_spec root 0) as [->|Hz]; [destruct (co_grant _ H j h Hh) as (_ & x & Hx & Hb); rewrite Hj in Hx; injection Hx as <-; lia|].
    exists h. rewrite Hother, Hro by done. split; [|done]. unfold detached. destruct (Clients_grant_at c slot) as [y|] eqn:Ey; [|done].
    destruct (roots_itself c slot y) eqn:Ho; [|done]. rewrite (family_Some _ _ _ _ Hh), Hj. rewrite bool_decide_false; [done|]. intros [= ->].
    apply Hsj. eapply (co_unique _ H); [exact Ey|exact Hh|done].
  - rewrite fill_grant by done. by rewrite decide_True.
  - cbn. rewrite list_lookup_insert_eq; [done|]. destruct (co_lengths _ H1) as (_ & -> & _). done.
  - intros i Hne. rewrite fill_grant by done. rewrite decide_False by done. split; [by apply Hother|]. cbn. rewrite list_lookup_insert_ne by done. by apply Hro.
Qed.

(** ** Derivation and extension *)
Lemma derive_spec v c slot parent g now generation c' : clients_ok c -> grant_fits g -> derive v c slot parent g now = Ok (generation, c') ->
  exists j h, slot <> j /\ Clients_grant_at c j = Some h /\ fg_generation h = parent /\ fg_rights h <> 0 /\ cl_roots c !! j = Some parent /\
    FileGrant_check h (fg_peer h) parent now = Ok tt /\ attenuates v h g = true /\
    install v c slot (derived_grant h g) parent = Ok (generation, c').
Proof.
  intros H Hg E. unfold derive in E. destruct (position _ _) as [j|] eqn:Ep; [|done]. cbn [ok_or] in E. apply position_Some in Ep as [(x & Hx & Hp) _].
  destruct x as [h|]; [|done]. cbn in Hp. apply Z.eqb_eq in Hp. pose proof (proj2 (grant_at_Some c j h) Hx) as Hh. rewrite Hh in E.
  destruct (FileGrant_check h (fg_peer h) parent now) as [[]| |] eqn:Ec; [|done|done]. cbn in E.
  destruct (_ || _ || _) eqn:Gd; [done|]. bools. exists j, h. split; [congruence|]. split; [done|]. split; [done|].
  split; [|done]. unfold FileGrant_check in Ec. destruct (negb _); [done|]. destruct (_ || _) eqn:G2; [done|]. bools. done.
Qed.

Lemma derive_ok v c slot parent g now generation c' : clients_ok c -> grant_fits g -> derive v c slot parent g now = Ok (generation, c') -> clients_ok c'.
Proof.
  intros H Hg E. destruct (derive_spec _ _ _ _ _ _ _ _ H Hg E) as (j & h & Hsj & Hh & Eh & Hr & Hj & _ & _ & Ei).
  eapply install_spec; [exact H| | |exact Ei].
  - destruct Hg. pose proof (proj1 (co_grant _ H j h Hh)) as [? ? ? ? ?]. split; try done; by cbn; unfold fits.
  - right. exists j. split; [congruence|]. exists h. done.
Qed.

Lemma extend_spec v c slot generation second r c' : extend v c slot generation second = Ok (r, c') ->
  exists g, Clients_grant_at c slot = Some g /\ fg_generation g = generation /\ fg_rights g <> 0 /\ cl_roots c !! slot = Some generation /\
    fg_second g = 0 /\ second <> 0 /\ second_scope v (fg_scope g) second = Ok tt /\ r = generation /\
    c' = mkClients (<[slot := Some (set_second g second)]> (cl_grants c)) (cl_roots c) (cl_next c) (cl_transfers c).
Proof.
  unfold extend. intros E. destruct (negb _) eqn:G1; [done|]. destruct (Clients_grant_at c slot) as [g|]; [|done]. cbn [ok_or] in E.
  destruct (_ || _) eqn:G2; [done|]. destruct (_ || _) eqn:G3 in E; [done|]. destruct (second_scope _ _ _) as [[]| |] eqn:Es; [|done|done].
  cbn in E. injection E as <- <-. bools. by exists g.
Qed.

Lemma clients_extend_ok v c slot generation second r c' : clients_ok c -> fits 32 second -> extend v c slot generation second = Ok (r, c') -> clients_ok c'.
Proof.
  intros H Hs E. destruct (extend_spec _ _ _ _ _ _ _ E) as (g & Hg & Eg & Hr & Ho & _ & _ & _ & _ & ->).
  destruct (co_lengths _ H) as (L1 & L2 & L3). pose proof (grant_slot _ _ _ H Hg) as Hl.
  assert (Hb : forall i x, Clients_grant_at (mkClients (<[slot := Some (set_second g second)]> (cl_grants c)) (cl_roots c) (cl_next c) (cl_transfers c)) i = Some x ->
     exists y, Clients_grant_at c i = Some y /\ fg_generation x = fg_generation y /\ fg_rights x = fg_rights y /\ (grant_fits y -> grant_fits x)).
  { intros i x. rewrite grant_at_insert by lia. destruct (decide (slot = i)) as [<-|]; [|by eauto]. intros [= <-]. exists g.
    split; [done|]. split; [done|]. split; [done|]. intros []. by split. }
  assert (Hf : forall i y, Clients_grant_at c i = Some y -> exists x, Clients_grant_at (mkClients (<[slot := Some (set_second g second)]> (cl_grants c)) (cl_roots c) (cl_next c) (cl_transfers c)) i = Some x /\
     fg_generation x = fg_generation y /\ fg_rights x = fg_rights y).
  { intros i y Hy. rewrite grant_at_insert by lia. destruct (decide (slot = i)) as [<-|]; [|by eauto]. rewrite Hg in Hy. injection Hy as <-. by eexists. }
  split.
  - cbn. by rewrite length_insert.
  - apply H.
  - intros i x Hx. destruct (Hb i x Hx) as (y & Hy & -> & _ & Hfit). destruct (co_grant _ H i y Hy) as [F R]. split; [by apply Hfit|exact R].
  - intros i j x y Hx Hy Exy. destruct (Hb i x Hx) as (x' & Hx' & ? & _). destruct (Hb j y Hy) as (y' & Hy' & ? & _).
    eapply (co_unique _ H); [exact Hx'|exact Hy'|congruence].
  - intros i Hi Hc. apply (co_empty _ H); [|done]. destruct (Clients_grant_at c i) as [y|] eqn:Ey; [|done]. destruct (Hf i y Ey) as (x & Hx & _). congruence.
  - intros i x r0 Hx Hri Hi Hne. destruct (Hb i x Hx) as (y & Hy & E1 & E2 & _). rewrite E1 in Hne. rewrite E2 in Hri.
    destruct (co_root _ H i y r0 Hy Hri Hi Hne) as (j & h & Hh & <- & Hhr & Hj). destruct (Hf j h Hh) as (h' & Hh' & E3 & E4). exists j, h'.
    split; [done|]. split; [done|]. split; [by rewrite E4|done].
  - intros k s Hk. pose proof (co_transfer _ H k s Hk) as [(y & Hy & Hyr & Hyg) ? ? ? ? ? ?]. destruct (Hf _ y Hy) as (x & Hx & E3 & E4). split; try done.
    exists x. split; [done|]. split; [by rewrite E4|by rewrite E3].
  - apply (co_single _ H).
Qed.

Lemma revoke_ok c slot r c' : clients_ok c -> Clients_revoke c slot = (r, c') -> clients_ok c'.
Proof.
  unfold Clients_revoke, root_at. intros H E. destruct (Clients_grant_at c slot) as [g|]; [|by injection E as <- <-].
  destruct (cl_roots c !! slot) as [root|]; [|by injection E as <- <-]. destruct (Clients_revoke_root c root) as [mask c1] eqn:E1.
  injection E as <- <-. by eapply revoke_root_ok.
Qed.

(** ** Staging *)
Definition owns (c : Clients) (slot : nat) (s : Transfer) : Prop := exists k, cl_transfers c !! k = Some (Some s) /\ tf_client s = slot.

Lemma owns_unique c slot s t : clients_ok c -> owns c slot s -> owns c slot t -> s = t.
Proof.
  intros H (j & Hj & Es) (k & Hk & Et). assert (j = k) as -> by (eapply (co_single _ H); [exact Hj|exact Hk|congruence]). congruence.
Qed.

Definition staged_for (c : Clients) (slot : nat) : Prop := exists s, owns c slot s.

Lemma transfer_index_spec t client id context i : Transfers_index t client id context = Ok i ->
  exists s, t !! i = Some (Some s) /\ transfer_at t i = Ok s /\ tf_client s = client /\ tf_id s = id /\ tf_context s = context.
Proof.
  unfold Transfers_index. destruct (position _ _) as [k|] eqn:E; [|done]. intros [= ->]. apply position_Some in E as [([s|] & Hs & Hm) _]; [|done].
  cbn in Hm. unfold transfer_matches, owned_by in Hm. bools. exists s. split; [done|]. unfold transfer_at. by rewrite Hs.
Qed.

Lemma transfer_index_owned c slot s : clients_ok c -> owns c slot s ->
  exists i, Transfers_index (cl_transfers c) slot (tf_id s) (tf_context s) = Ok i /\ cl_transfers c !! i = Some (Some s).
Proof.
  intros H (k & Hk & Es). exists k. split; [|done]. unfold Transfers_index.
  assert (position (is_some_and (transfer_matches slot (tf_id s) (tf_context s))) (cl_transfers c) = Some k) as ->; [|done].
  apply position_Some. split.
  - exists (Some s). split; [done|]. cbn. unfold transfer_matches, owned_by. by rewrite Es, Nat.eqb_refl, !Z.eqb_refl.
  - intros j [u|] Hjk Hj; [|done]. cbn. unfold transfer_matches, owned_by. destruct (Nat.eqb_spec (tf_client u) slot) as [Hu|]; [|done]. exfalso.
    assert (j = k); [|lia]. eapply (co_single _ H); [exact Hj|exact Hk|congruence].
Qed.

(** Replacing one slot of the staging area. *)
Lemma stage_slot_ok c i o : clients_ok c ->
  (forall s, o = Some s -> transfer_ok c s /\ forall k t, cl_transfers c !! k = Some (Some t) -> tf_client t = tf_client s -> k = i) ->
  clients_ok (set_transfers c (<[i := o]> (cl_transfers c))).
Proof.
  intros H Ho. apply staging_ok; [done|rewrite length_insert; apply H| |].
  - intros k s Hk. apply list_lookup_insert_Some in Hk as [(_ & -> & _)|[_ Hk]]; [by apply Ho|by eapply (co_transfer _ H)].
  - intros j k s u Hj Hk Es. apply list_lookup_insert_Some in Hj as [(<- & -> & _)|[Hij Hj]]; apply list_lookup_insert_Some in Hk as [(<- & Hs & _)|[Hik Hk]].
    + done.
    + destruct (Ho s eq_refl) as [_ Hu]. symmetry. by eapply Hu.
    + subst o. destruct (Ho u eq_refl) as [_ Hu]. by eapply Hu.
    + by eapply (co_single _ H).
Qed.

(** What a live caller presents: its slot's grant answers to its peer and context. *)
Definition live_grant (c : Clients) (slot : nat) (peer context now : Z) (g : FileGrant) : Prop :=
  Clients_grant_at c slot = Some g /\ FileGrant_check g peer context now = Ok tt.

Lemma grant_check_spec g peer context now : FileGrant_check g peer context now = Ok tt <->
  fg_peer g = peer /\ fg_generation g = context /\ fg_rights g <> 0 /\ (fg_expires g = 0 \/ now < fg_expires g).
Proof.
  unfold FileGrant_check. destruct (Z.eqb_spec (fg_peer g) peer), (Z.eqb_spec (fg_generation g) context), (Z.eqb_spec (fg_rights g) 0),
    (Z.eqb_spec (fg_expires g) 0), (Z.leb_spec (fg_expires g) now); cbn; split; try done; try (intros; intuition congruence); try (intros (? & ? & ? & [?|?]); (done || lia)); intros; tauto.
Qed.

Lemma grant_check_error g peer context now e : FileGrant_check g peer context now = Err e -> e = FDenied \/ e = FRevoked \/ e = FExpired.
Proof. unfold FileGrant_check. repeat case_match; intros [= <-]; auto. Qed.

Lemma grant_check_total g peer context now : FileGrant_check g peer context now <> Panic.
Proof. unfold FileGrant_check. by repeat case_match. Qed.

(** *** Opening *)
Definition begun (slot : nat) (p : Packet) (l : option Replacement) (r : option Retry) : Transfer :=
  mkTransfer slot (p_op p =? ADMISSION_OPEN) l r (p_context p) (p_id p) (p_version p) (Z.to_nat (p_arg p)) 0 (zeros MAX_FILE).

Lemma payload_spec p : Packet_valid p -> bytes_ok (Packet_payload p) /\ length (Packet_payload p) = Z.to_nat (p_count p) /\ 0 <= p_count p <= 40.
Proof.
  intros ([F1 F2 F3 F4 F5 F6 F7 L B] & _ & Hc & _). unfold Packet_payload. unfold DATA in *. unfold fits in F3. rewrite Nat.min_l by lia. split; [by apply Forall_take|].
  split; [rewrite length_take; lia|lia].
Qed.

Lemma decoded_replacement p r : Packet_valid p -> Replacement_decode p = Ok r -> replacement_ok r /\ rs_object (rp_resource r) = p_id p /\ v_value (rp_expected r) = p_version p.
Proof.
  intros Hv E. destruct (msg_canonical _ _ _ Replacement_message p (r, p_arg p) Hv) as [(_ & H & _) _]; [by rewrite E|]. split; [done|].
  unfold Replacement_decode, Resource_new, Version_new in E. steps E. injection E as <-. cbn.
  repeat case_match; simplify_eq; done.
Qed.

Lemma staged_logical_spec p l : Packet_valid p -> staged_logical p = Ok l ->
  (forall r, l = Some r -> opens_logical (p_op p) = true /\ Replacement_decode p = Ok r) /\ (p_op p = ADMISSION_OPEN -> is_Some l).
Proof.
  intros Hv. unfold staged_logical, opens_logical. destruct (_ || _) eqn:Eo.
  - destruct (Replacement_decode p) as [r| |] eqn:Er; [|done..]. intros [= <-]. split; [by intros ? [= <-]|by eexists].
  - intros [= <-]. split; [done|]. intros E. bools. done.
Qed.

Lemma staged_retry_spec p r : Packet_valid p -> staged_retry p = Ok r -> forall x, r = Some x -> p_op p = TRACK_BEGIN /\ Retry_decode (Packet_payload p) = Ok x /\ Retry_valid x.
Proof.
  intros Hv. unfold staged_retry. destruct (Z.eqb_spec (p_op p) TRACK_BEGIN) as [Eo|]; [|by intros [= <-]]. destruct (Retry_decode _) as [x| |] eqn:Er; [|done..].
  intros [= <-] ? [= <-]. split; [done|]. split; [done|]. destruct (payload_spec p Hv) as [B _]. by destruct (law_canonical _ _ _ Retry_laws _ _ B Er).
Qed.

Lemma begin_spec c slot p g t : clients_ok c -> Packet_valid p -> Clients_grant_at c slot = Some g -> fg_rights g <> 0 -> fg_generation g = p_context p ->
  Transfers_begin (cl_transfers c) slot p = Ok t ->
  clients_ok (set_transfers c t) /\ exists l r, staged_logical p = Ok l /\ staged_retry p = Ok r /\ (Z.to_nat (p_arg p) <= MAX_FILE)%nat /\
    owns (set_transfers c t) slot (begun slot p l r).
Proof.
  intros H Hv Hg Hr Eg E. unfold Transfers_begin in E. steps E. injection E as <-. bools. apply ok_or_Ok, position_Some in E2 as [(o & Ho & Hn) _].
  destruct o; [done|]. rename a into i, a0 into l, a1 into r. fold (begun slot p l r). pose proof (lookup_lt_Some _ _ _ Ho) as Hi.
  destruct (staged_logical_spec _ _ Hv E3) as [L1 L2]. pose proof (staged_retry_spec _ _ Hv E4) as R1. split; [|exists l, r].
  - apply stage_slot_ok; [done|]. intros s [= <-]. split.
    + split; cbn.
      * by exists g.
      * split; [done|]. by apply bytes_ok_zeros.
      * lia.
      * intros x Hx. destruct (L1 x Hx) as [_ D]. destruct (decoded_replacement p x Hv D) as (? & ? & _). done.
      * intros x Hx. by apply R1.
      * intros Ha. apply L2. by apply Z.eqb_eq.
      * apply Hv.
    + intros k u Hk Hu. exfalso. apply not_true_iff_false in E1. apply E1, existsb_exists. exists u.
      split; [apply list_elem_of_In, elem_of_slots; by exists k|]. unfold owned_by. by rewrite Hu, Nat.eqb_refl.
  - split; [done|]. split; [done|]. split; [lia|]. exists i. split; [by apply list_lookup_insert_eq|done].
Qed.

(** *** Chunks *)
Definition staged_bytes (s : Transfer) : list Z := take (tf_received s) (tf_data s).

Lemma take_write (l b : list Z) i : (i + length b <= length l)%nat -> take (i + length b) (write l i b) = take i l ++ b.
Proof.
  intros H. unfold write. rewrite app_assoc. rewrite take_app_le by (rewrite length_app, length_take; lia).
  apply take_ge. rewrite length_app, length_take. lia.
Qed.

Lemma chunk_total c slot p : clients_ok c -> Packet_valid p -> Transfers_chunk (cl_transfers c) slot p <> Panic.
Proof.
  intros H Hv. unfold Transfers_chunk. destruct (Transfers_index _ _ _ _) as [i|e|] eqn:Ei; [|done|unfold Transfers_index in Ei; by destruct (position _ _)].
  destruct (transfer_index_spec _ _ _ _ _ Ei) as (s & Hs & -> & _). destruct (_ || _); [done|]. destruct (_ || _) eqn:G; [done|]. bools.
  pose proof (co_transfer _ H i s Hs) as Ht. destruct (to_data _ _ Ht) as [Hl _]. pose proof (to_bounds _ _ Ht). destruct (payload_spec p Hv) as (_ & Lp & _).
  unfold copy_from_slice. rewrite Lp, Hl. rewrite (proj2 (Nat.leb_le _ _)), (proj2 (Nat.leb_le _ _)), (proj2 (Nat.eqb_eq _ _)) by lia. done.
Qed.

Lemma chunk_spec c slot p t : clients_ok c -> Packet_valid p -> Transfers_chunk (cl_transfers c) slot p = Ok t ->
  clients_ok (set_transfers c t) /\ exists s s', owns c slot s /\ owns (set_transfers c t) slot s' /\
    tf_id s = p_id p /\ tf_context s = p_context p /\ p_arg p = Z.of_nat (tf_received s) /\ p_count p <> 0 /\
    s' = receive s (tf_data s') (tf_received s + Z.to_nat (p_count p)) /\ staged_bytes s' = staged_bytes s ++ Packet_payload p.
Proof.
  intros H Hv E. unfold Transfers_chunk in E. steps E. bools. injection E as <-. destruct (transfer_index_spec _ _ _ _ _ E0) as (s & Hs & Es & Hc & Hid & Hx).
  rename a into i. rewrite Es in E1. injection E1 as <-. pose proof (co_transfer _ H i s Hs) as Ht. destruct (to_data _ _ Ht) as [Hl Hb]. pose proof (to_bounds _ _ Ht) as Hn.
  destruct (payload_spec p Hv) as (Bp & Lp & Hp). unfold copy_from_slice in E4. destruct (_ && _) eqn:G; [|done]. injection E4 as <-. bools.
  set (n := Z.to_nat (p_count p)) in *. set (s' := receive s _ _).
  assert (Hs' : transfer_ok (set_transfers c (<[i := Some s']> (cl_transfers c))) s').
  { destruct Ht as [O _ _ T1 T2 T3 T4]. split; cbn; try done.
    - rewrite length_write by lia. split; [done|]. by apply bytes_ok_write.
    - lia. }
  split.
  - apply stage_slot_ok; [done|]. intros x [= <-]. split; [by eapply transfer_kept; [|exact Hs']|]. intros k u Hk Hu. eapply (co_single _ H); [exact Hk|exact Hs|done].
  - exists s, s'. split; [by exists i|]. split; [exists i; split; [cbn; rewrite list_lookup_insert_eq; [done|by eapply lookup_lt_Some]|done]|].
    do 3 (split; [done|]). split; [subst n; lia|]. split; [done|]. unfold staged_bytes. cbn. rewrite <- Lp. apply take_write. lia.
Qed.

(** *** Taking and clearing *)
Lemma take_spec c slot p s t : clients_ok c -> Transfers_take (cl_transfers c) slot p = Ok (s, t) ->
  clients_ok (set_transfers c t) /\ owns c slot s /\ transfer_ok c s /\ ~ staged_for (set_transfers c t) slot /\
  tf_id s = p_id p /\ tf_context s = p_context p /\ tf_received s = tf_total s /\
  tf_admission s = (p_op p =? ADM_ACCEPT) /\ is_some (tf_logical s) = (p_op p =? REPLACE_COMMIT) || (p_op p =? ADM_ACCEPT).
Proof.
  intros H E. unfold Transfers_take in E. steps E. bools. injection E as <- <-. destruct (transfer_index_spec _ _ _ _ _ E0) as (s' & Hs & Es & Hc & Hid & Hx).
  rewrite Es in E1. injection E1 as ->. rename a into i. split; [by apply stage_slot_ok|]. split; [by exists i|]. split; [by eapply (co_transfer _ H)|]. split.
  - intros (u & k & Hk & Hu). cbn in Hk. apply list_lookup_insert_Some in Hk as [(_ & ? & _)|[Hne Hk]]; [done|]. apply Hne. eapply (co_single _ H); [exact Hs|exact Hk|congruence].
  - do 3 (split; [done|]). split; by apply Bool.eqb_prop.
Qed.

Lemma take_total t slot p : Transfers_take t slot p <> Panic.
Proof.
  unfold Transfers_take. destruct (Transfers_index _ _ _ _) as [i|e|] eqn:Ei; [|done|unfold Transfers_index in Ei; by destruct (position _ _)].
  destruct (transfer_index_spec _ _ _ _ _ Ei) as (s & Hs & -> & _). by repeat case_match.
Qed.

Lemma transfer_bytes_spec c s : transfer_ok c s -> tf_received s = tf_total s -> transfer_bytes s = Ok (staged_bytes s) /\ bytes_ok (staged_bytes s) /\ (length (staged_bytes s) <= MAX_FILE)%nat.
Proof.
  intros [_ [L B] N _ _ _ _] Er. unfold transfer_bytes, staged_bytes. rewrite Er, (proj2 (Nat.leb_le _ _)) by lia. split; [done|].
  split; [by apply Forall_take|rewrite length_take; lia].
Qed.

Lemma replacement_total p : Replacement_decode p <> Panic.
Proof. intros E. apply (msg_total _ _ _ Replacement_message p). by rewrite E. Qed.

Lemma retry_total b : Retry_decode b <> Panic.
Proof. apply (law_total _ _ _ Retry_laws). Qed.

Lemma begin_total t slot p : Transfers_begin t slot p <> Panic.
Proof.
  unfold Transfers_begin, staged_logical, staged_retry. destruct (_ <? _); [done|]. destruct (existsb _ _); [done|]. destruct (position _ _); [|done]. cbn [ok_or].
  pose proof (replacement_total p). pose proof (retry_total (Packet_payload p)).
  destruct (opens_logical _); [destruct (Replacement_decode p); [|done..]|]; (destruct (_ =? TRACK_BEGIN); [destruct (Retry_decode _); done|done]).
Qed.

Lemma logical_spec c slot admission r : Transfers_logical (cl_transfers c) slot admission = Some r ->
  exists s, owns c slot s /\ tf_admission s = admission /\ tf_logical s = Some r.
Proof.
  unfold Transfers_logical. destruct (List.find _ _) as [s|] eqn:E; [|done]. apply List.find_some in E as [Hi Hm]. cbn. intros Hr.
  apply list_elem_of_In, elem_of_slots in Hi as [k Hk]. unfold owned_by in Hm. apply andb_true_iff in Hm as [Hm Ha].
  apply Nat.eqb_eq in Hm. apply Bool.eqb_prop in Ha. exists s. split; [by exists k|done].
Qed.
