(* ===== verification/SvcReplies.v ===== *)
(** * Replies are frames of their requests

    Whatever the server answers, the packet has its operation and its context,
    its fields have their width, nothing follows the payload, and an error
    carries nothing else: the client's [checked_reply] accepts it. *)
From stdpp Require Import base list option numbers.
From Stdlib Require Import ZArith Lia Bool.
From S2P Require Import Prelude Bytes Codec AbiFiles AbiIdentity AbiMessages AbiReceipts AbiAdmission AbiServices FsDisk FsNode FsRecovery FsFormat FsVolume FsPublication FsTree FsInvariant SvcClients SvcServer SvcClientsFacts.

Record reply_ok (p reply : Packet) : Prop := {
  rk_valid : Packet_valid reply;
  rk_op : p_op reply = p_op p;
  rk_context : p_context reply = p_context p;
  rk_status : p_status reply = 0;
}.

(** What the transport may hand to the client: only the status decides what the client sees. *)
Definition replied (p reply : Packet) : Prop :=
  Packet_valid reply /\ checked_reply reply (p_op p) (p_context p) = let? _ := FileError_parse (p_status reply) in Ok reply.

Lemma reply_frame p count id arg version data : Packet_valid p -> 0 <= count <= 40 -> fits 32 id -> fits 32 arg -> fits 64 version ->
  length data = DATA -> bytes_ok data -> all_zero (drop (Z.to_nat count) data) = true -> reply_ok p (mkPacket (p_op p) 0 count id arg (p_context p) version data).
Proof. intros ([F1 F2 F3 F4 F5 F6 F7 L B] & Hop & Hc & Hz) ???????. split; try done. by apply packet_frame. Qed.

Lemma blank_ok p : Packet_valid p -> reply_ok p (blank_reply (p_op p) (p_context p)).
Proof. intros H. apply (reply_frame p 0 0 0 0); try done; try apply bytes_ok_zeros; try (unfold fits; lia). Qed.

Lemma reply_replied p reply : reply_ok p reply -> replied p reply.
Proof.
  intros [V Eo Ec Es]. split; [done|]. destruct V as (F & Hk & Hc & Hz). unfold checked_reply. rewrite Eo, Ec, Es, Hz, !Z.eqb_refl. cbn [negb orb andb].
  rewrite (proj2 (Z.ltb_ge _ _)) by done. done.
Qed.

Lemma failure_replied p e : Packet_valid p -> replied p (failure (p_op p) (p_context p) e).
Proof.
  intros ([F1 F2 F3 F4 F5 F6 F7 L B] & Hop & Hc & Hz). split.
  - split; [|by split]. split; try done; cbn; try (unfold fits; lia); [by destruct e|apply bytes_ok_zeros].
  - unfold checked_reply, failure. cbn [with_status blank_reply with_context Packet_new p_op p_context p_count p_data p_status p_id p_arg p_version].
    rewrite !Z.eqb_refl. by destruct e.
Qed.

(** A message of the wire, as a reply. *)
Lemma message_reply {A} (packet : A -> Z -> Z -> outcome FileError Packet) decode valid p a reply : message_laws packet decode valid ->
  Packet_valid p -> valid (p_op p) a -> packet a (p_op p) (p_context p) = Ok reply -> p_status reply = 0 -> reply_ok p reply.
Proof.
  intros H Hv Ha E Es. destruct (msg_round _ _ _ H (p_op p) (p_context p) a Ha) as (q & Eq & V & Eo & Ec & _); [apply Hv|].
  rewrite E in Eq. injection Eq as <-. done.
Qed.

(** ** Nodes *)
Lemma data_keeps d i src : length d = DATA -> (i + length src <= 40)%nat -> length (write d i src) = DATA.
Proof. intros L H. rewrite length_write by (unfold DATA in *; lia). done. Qed.

Lemma node_ok p n cursor : Packet_valid p -> live_node n -> 0 <= cursor < 256 -> reply_ok p (node_reply (blank_reply (p_op p) (p_context p)) n cursor).
Proof.
  intros Hp Hn Hc. destruct Hn as [Hk [Fi _] Fp [Fv _] Hl Hs _ _ Hnl Hname _ _]. destruct (valid_name_spec _ Hname) as (Ln & Bn & _).
  unfold node_reply. set (d := write _ 8 _). unfold blank_reply in *. cbn [with_context Packet_new p_op p_status p_context].
  assert (Hd : length d = DATA /\ bytes_ok d).
  { unfold d. split.
    - repeat (apply data_keeps; [|cbn [length]; rewrite ?length_le_bytes; lia]). done.
    - repeat apply bytes_ok_write; try apply bytes_ok_le_bytes; try done; try apply bytes_ok_zeros; (constructor; [|constructor]); unfold is_byte.
      + by destruct (n_kind n).
      + lia.
      + lia.
      + lia. }
  apply reply_frame; try done; try lia; try apply Hd.
  - unfold MAX_FILE in Hl. unfold fits. lia.
  - rewrite drop_ge; [done|]. destruct Hd as [-> _]. unfold DATA. lia.
Qed.

Lemma raw_ok p id arg version bytes : Packet_valid p -> fits 32 id -> fits 32 arg -> fits 64 version -> bytes_ok bytes -> (length bytes <= DATA)%nat ->
  reply_ok p (mkPacket (p_op p) 0 (Z.of_nat (length bytes)) id arg (p_context p) version (write (zeros DATA) 0 bytes)).
Proof.
  intros. unfold DATA in *. apply reply_frame; try done; try lia.
  - rewrite length_write; [done|]. by rewrite length_zeros.
  - apply bytes_ok_write; [apply bytes_ok_zeros|done].
  - rewrite Nat2Z.id. change (write (zeros 40) 0 bytes) with (bytes ++ drop (length bytes) (zeros 40)). rewrite drop_app_length. unfold zeros. rewrite drop_replicate. apply all_zero_zeros.
Qed.

(** ** What the volume holds, at its widths *)
Definition volume_ok (v : Volume) : Prop := vl_poisoned v = false -> metadata_ok (vl_metadata v).

Definition lineage_fits (l : list Z) : Prop := length l = 16%nat /\ bytes_ok l.

Record receipt_fits (r : FsReceipt) : Prop := {
  rcf_lineage : lineage_fits (ry_lineage (fr_retry r));
  rcf_retry : fits 64 (ry_epoch (fr_retry r)) /\ fits 64 (ry_key (fr_retry r));
  rcf_id : fits 32 (fr_id r);
  rcf_length : 0 <= fr_length r <= 1024;
  rcf_previous : fits 64 (fr_previous r);
  rcf_committed : fits 64 (fr_committed r);
}.

Lemma ready_ok v : Volume_ready v = Ok tt -> vl_poisoned v = false.
Proof. unfold Volume_ready. by destruct (vl_poisoned v). Qed.

Lemma retained_fits m r i x : metadata_ok m -> m_recovery m = Some r -> rv_records r !! i = Some (Some x) ->
  receipt_fits (rd_receipt x) /\ lineage_ok (ry_lineage (fr_retry (rd_receipt x))) /\
  (forall w n, rd_namespace x = Some (w, n) -> fits 32 w /\ fits 64 n) /\
  forall a, rd_admission x = Some a -> fits 64 (so_number a) /\ fits 64 (so_terminal a).
Proof.
  intros Hm Hr Hx. pose proof (mo_recovery _ Hm r Hr) as R. destruct (vo_records _ _ _ R i x Hx) as [[F1 F2 F3 F4 F5 F6 F7 F8 F9 _ _ _] _ A].
  destruct (vo_lineage _ _ _ R) as (L1 & L2 & L3). unfold MAX_FILE in F6. split; [|split; [by rewrite F2|split; [done|]]].
  - split; try done. by rewrite F2.
  - intros a Ha. by destruct (A a Ha).
Qed.

Lemma identity_fits v l e : volume_ok v -> recovery_info v = Ok (l, e) -> lineage_ok l /\ number_ok e.
Proof.
  intros Hv E. unfold recovery_info in E. destruct (Volume_ready v) as [[]| |] eqn:Er; [|done..]. pose proof (Hv (ready_ok _ Er)) as Hm.
  destruct (m_recovery (vl_metadata v)) as [r|] eqn:Ey; [|done]. injection E as <- <-. pose proof (mo_recovery _ Hm r Ey) as R.
  destruct (vo_epoch _ _ _ R) as [Fe He]. split; [apply R|]. split; [lia|done].
Qed.

Lemma tracked_fits v subject retry r : volume_ok v -> Volume_receipt v subject retry = Ok r -> receipt_fits r.
Proof.
  intros Hv E. unfold Volume_receipt in E. destruct (Volume_ready v) as [[]| |] eqn:Er; [|done..]. pose proof (Hv (ready_ok _ Er)) as Hm.
  destruct (m_recovery (vl_metadata v)) as [y|] eqn:Ey; [|done]. cbn [ok_or] in E. unfold Recovery_find in E. destruct (_ || _); [done|]. destruct (negb _); [done|].
  destruct (List.find _ _) as [x|] eqn:F; [|by destruct (negb _)]. injection E as <-. apply find_slot in F as [_ [i Hi]]. by eapply retained_fits.
Qed.

Record operation_fits (o : FsOperation) : Prop := {
  of_receipt : receipt_fits (fo_receipt o);
  of_workspace : fits 32 (FsPublication.fo_workspace o);
  of_instance : fits 64 (FsPublication.fo_instance o);
}.

Lemma record_operation_fits v r i x o : volume_ok v -> vl_poisoned v = false -> m_recovery (vl_metadata v) = Some r -> rv_records r !! i = Some (Some x) ->
  Record_operation x = Ok o -> operation_fits o.
Proof.
  intros Hv Hp Hr Hx E. destruct (retained_fits _ r i x (Hv Hp) Hr Hx) as (F & _ & N & _). unfold Record_operation in E.
  destruct (rd_namespace x) as [[w n]|]; [|done]. cbn [ok_or] in E. destruct (N w n eq_refl).
  assert (o = mkFsOperation w n (rd_receipt x) (record_payload x)) as -> by (by repeat case_match; simplify_eq). by split.
Qed.

Lemma found_operation_fits v g l o : volume_ok v -> find_operation v g l = Ok o -> operation_fits o.
Proof.
  intros Hv E. unfold find_operation, operation_by_retry, operation_by_id, scoped_recovery in E.
  destruct l as [w y|id]; (destruct (Volume_ready v) as [[]| |] eqn:Er; [|done..]; destruct (m_recovery (vl_metadata v)) as [r|] eqn:Ey; [|done];
    destruct (rv_scoped r); [|done]; destruct (_ || _); [done|]; destruct (negb _); [done|]; destruct (List.find _ _) as [x|] eqn:F; [|by try destruct (negb _)]);
    apply find_slot in F as [_ [i Hi]]; (eapply record_operation_fits; [done|by apply ready_ok|exact Ey|exact Hi|exact E]).
Qed.

Record admission_fits (a : FsAdmission) : Prop := {
  af_lineage : lineage_fits (fa_lineage (fs_id (av_status a)));
  af_number : fits 64 (fa_number (fs_id (av_status a)));
  af_terminal : fits 64 (fs_terminal (av_status a));
  af_instance : fits 64 (av_instance a);
}.

Lemma record_admission_fits v r i x a : volume_ok v -> vl_poisoned v = false -> m_recovery (vl_metadata v) = Some r -> rv_records r !! i = Some (Some x) ->
  admission_view x = Ok a -> admission_fits a.
Proof.
  intros Hv Hp Hr Hx E. destruct (retained_fits _ r i x (Hv Hp) Hr Hx) as (F & _ & N & A). unfold admission_view in E.
  destruct (rd_admission x) as [s|]; [|done]. destruct (rd_namespace x) as [[w n]|]; [|done]. cbn [ok_or] in E. injection E as <-.
  destruct (N w n eq_refl), (A s eq_refl). split; cbn; try done. apply F.
Qed.

Lemma volume_admissions_spec v r : Volume_admissions v = Ok r -> vl_poisoned v = false /\ m_recovery (vl_metadata v) = Some r.
Proof. unfold Volume_admissions, Volume_ready. intros E. repeat case_match; by simplify_eq. Qed.

Lemma admission_id_fits v subject id a : volume_ok v -> admission_by_id v subject id = Ok a -> admission_fits a.
Proof.
  intros Hv E. unfold admission_by_id, admission_record in E. destruct (admission_slot _ _ _) as [slot| |]; [|done..].
  destruct (Volume_admissions v) as [r| |] eqn:Er; [|done..]. destruct (rv_records r !! slot) as [[x|]|] eqn:Ex; [|done..].
  apply volume_admissions_spec in Er as [Hp Hr]. by eapply record_admission_fits.
Qed.

Lemma admission_retry_fits v subject w y a : volume_ok v -> admission_by_retry v subject w y = Ok a -> admission_fits a.
Proof.
  intros Hv E. unfold admission_by_retry in E. destruct (Volume_admissions v) as [r| |] eqn:Er; [|done..]. apply volume_admissions_spec in Er as [Hp Hr].
  destruct (_ || _); [done|]. destruct (negb _); [done|]. destruct (List.find _ _) as [x|] eqn:F; [|by destruct (negb _)].
  apply find_slot in F as [_ [i Hi]]. by eapply record_admission_fits.
Qed.

(** ** Replies about operations and admissions *)
Lemma new_instance l n i : Instance_new l n = Ok i -> i = mkInstance (mkOperationId l n) /\ l <> zeros 16 /\ n <> 0.
Proof.
  unfold Instance_new, OperationId_new, no_lineage. intros E. destruct (_ || _) eqn:G; [done|]. injection E as <-. bools. done.
Qed.

Lemma status_packet_ok p a reply : Packet_valid p -> admission_fits a -> status_packet a (p_op p) (p_context p) = Ok reply -> reply_ok p reply.
Proof.
  intros Hp [[L B] N T I] E. unfold status_packet, AdmissionId_new, no_lineage in E. destruct (_ || _) eqn:G; [done|].
  destruct (Instance_new _ _) as [i| |] eqn:Ei; [|done..]. apply new_instance in Ei as (-> & Hl & Hi). bools.
  pose proof E as Ev. unfold Status_packet in Ev. destruct (Status_validate _) as [[]| |] eqn:Es; [|done..]. destruct (negb _) eqn:Go; [done|]. apply negb_false_iff in Go.
  eapply (message_reply _ _ _ p _ _ Status_message); [done| |exact E|by injection Ev as <-].
  split; [done|]. apply Status_validate_Ok in Es as (E1 & E2 & E3). split; [|split; [done|split; [done|split; [done|split; [done|done]]]]].
  split; [split; [done|split; [done|done]]|]. done.
Qed.

Section Operations.
Context {HS : Digest} {HSL : DigestLaws}.

Lemma operation_receipt_ok o r : operation_fits o -> operation_receipt o = Ok r -> FileOperation_valid r = true -> operation_ok 1024 r.
Proof.
  intros [[[L B] [Fe Fk] Fi Fl Fp Fc] Fw Fn] E V. unfold operation_receipt, Workspace_new, OperationId_new, Resource_new, Version_new, Epoch_new, Key_new, no_lineage in E.
  destruct (Instance_new _ _) as [i| |] eqn:Ei; [|by repeat case_match..]. apply new_instance in Ei as (-> & Hl & Hi).
  repeat match type of E with context [if ?c then Err _ else Ok _] => let G := fresh "G" in destruct c eqn:G; [done|] end. injection E as <-.
  unfold FileOperation_valid, Instance_lineage, Instance_sequence in V. cbn in V. bools.
  split; cbn; unfold workspace_ok, lineage_ok, op_retry_ok, number_ok, Instance_lineage, Instance_sequence; cbn; try done; try lia.
  split; [apply sha256_length|apply sha256_bytes].
Qed.

Lemma operation_part_ok p o offset reply : Packet_valid p -> (forall r, o = Ok r -> FileOperation_valid r = true -> operation_ok 1024 r) ->
  (let? r := o in FileOperation_part r (p_op p) (p_context p) offset) = Ok reply -> reply_ok p reply.
Proof.
  intros Hp Ho E. destruct o as [r| |]; [|done..]. unfold FileOperation_part in E. destruct (negb _) eqn:Go; [done|]. apply negb_false_iff in Go.
  destruct (FileOperation_encode r) as [b| |] eqn:Eb; [|done..]. injection E as <-.
  assert (Hv : FileOperation_valid r = true) by (unfold FileOperation_encode in Eb; destruct (FileOperation_valid r); [done|done]).
  pose proof (Ho r eq_refl Hv) as Hr. destruct (FileOperation_round r Hr) as (b' & Eb' & Lb & Bb & _). rewrite Eb in Eb'. injection Eb' as <-.
  assert (Hoff : (offset = 0 \/ offset = 40 \/ offset = 80)%nat) by (apply orb_true_iff in Go as [Go|Go]; [apply orb_true_iff in Go as [Go|Go]|]; bools; auto).
  unfold RECEIPT_BYTES, DATA in *. set (fin := Nat.min (offset + 40) 104).
  assert (Hfin : length (slice b offset fin) = (fin - offset)%nat) by (apply length_slice; rewrite Lb; subst fin; lia).
  cbn [Packet_new p_op p_status p_data]. rewrite <- Hfin. apply raw_ok; try done.
  - unfold fits. lia.
  - rewrite (oo_sequence _ _ Hr). apply (oo_version _ _ Hr).
  - by apply bytes_ok_slice.
  - rewrite Hfin. subst fin. unfold DATA. lia.
Qed.
End Operations.

(** ** Receipts and identities *)
Lemma receipt_reply_ok p r : Packet_valid p -> receipt_fits r -> reply_ok p (Receipt_packet (native_receipt r) (blank_reply (p_op p) (p_context p))).
Proof.
  intros Hp [[L B] [Fe Fk] Fi Fl Fp Fc]. unfold Receipt_packet, native_receipt, blank_reply, with_context, Packet_new.
  cbn [rc_retry rc_previous rc_id rc_length rc_committed p_op p_status p_context p_data].
  set (e := Retry_encode _). assert (Le : length e = 32%nat /\ bytes_ok e).
  { unfold e, Retry_encode. cbn. split; [wire_length|]. wire_bytes. }
  destruct Le as [Le Be]. unfold DATA. set (d := write _ 32 _). assert (D0 : length d = 40%nat) by (unfold d; wire_length).
  apply reply_frame; try done; try lia.
  - unfold fits. lia.
  - unfold d. wire_bytes.
  - rewrite drop_ge; [done|]. rewrite D0. lia.
Qed.

Lemma recovery_reply_ok p l e : Packet_valid p -> lineage_ok l -> fits 64 e ->
  reply_ok p (mkPacket (p_op p) 0 24 0 (Z.of_nat RETAINED) (p_context p) 0 (write (write (zeros DATA) 0 l) 16 (le_bytes 8 e))).
Proof.
  intros Hp (L & B & _) Fe. unfold DATA. set (d := write _ 16 _).
  assert (D0 : length d = 40%nat) by (unfold d; wire_length).
  assert (D1 : slice d 24 40 = zeros 16) by (unfold d; wire_reads; done).
  apply reply_frame; try done; try lia.
  - unfold d. wire_bytes.
  - change (Z.to_nat 24) with 24%nat. by rewrite drop_slice, D0, D1.
Qed.

Lemma references_reply_ok p l r reply : Packet_valid p -> lineage_ok l -> p_op p = OP_REFERENCES -> References_new l (p_arg p) (p_id p) = Ok r ->
  References_packet r (p_context p) = Ok reply -> reply_ok p reply.
Proof.
  intros Hp Hl Ho Er E. unfold References_new, Workspace_new, Resource_new in Er. destruct (_ || _) eqn:G1 in Er; [done|]. destruct (_ =? 0) eqn:G2 in Er; [done|]. injection Er as <-.
  bools. destruct Hp as ([F1 F2 F3 F4 F5 F6 F7 L B] & Hop & Hc & Hz). eapply (message_reply _ _ _ p _ _ References_message); [done| |exact E|].
  - split; [done|]. cbn. done.
  - unfold References_packet, References_request in E. repeat case_match; by simplify_eq.
Qed.

Lemma capabilities_reply_ok p v reply : Packet_valid p -> p_op p = OP_CAPABILITIES -> Capabilities_packet (service_capabilities v) (p_context p) = Ok reply -> reply_ok p reply.
Proof.
  intros Hp Ho E. eapply (message_reply _ _ _ p _ _ Capabilities_message); [done| |exact E|].
  - split; [done|]. cbn. unfold MAX_INLINE. done.
  - unfold Capabilities_packet in E. case_match; by simplify_eq.
Qed.

Lemma descriptor_reply_ok p v reply : Packet_valid p -> p_op p = OP_DESCRIBE -> lifecycle_descriptor v p = Ok reply -> reply_ok p reply.
Proof.
  intros Hp Ho E. unfold lifecycle_descriptor in E. destruct (negotiation_decode_request p) as [m| |] eqn:Em; [|done..].
  destruct (match retained_admission v 0 with Ok _ => _ | _ => _ end) as [a| |]; [|done..].
  destruct (Descriptor_reviewed _ _ _) as [x| |] eqn:Ex; [|done..]. pose proof E as Ev. unfold Descriptor_packet in Ev.
  destruct (Descriptor_validate x) as [[]| |] eqn:Ed; [|done..]. unfold Descriptor_reviewed in Ex. destruct (reviewed_digest m) as [g| |]; [|done..]. injection Ex as <-.
  eapply (message_reply _ _ _ p _ _ (Descriptor_message m)); [done| |exact E|].
  - split; [done|]. split; [done|]. split; [exact Ed|]. done.
  - destruct (negotiation_request _ _) as [q| |] eqn:En; [|done..]. injection Ev as <-. unfold negotiation_request in En. repeat case_match; by simplify_eq.
Qed.
