(* ===== verification/SvcEffect.v ===== *)
(** * What the service's storage calls do to the file system

    [effect R w w'] bounds the difference between two states of the volume and
    its disk: the view clients see, and every view a stop of the machine may
    leave, differs from the old one only where [R] allows it. *)
From stdpp Require Import base list option numbers relations.
From Stdlib Require Import ZArith Lia Bool.
From S2P Require Import Prelude Bytes Codec FsDisk FsNode FsRecovery FsFormat FsVolume FsPublication FsCrash FsPublish FsTree FsInvariant FsReach FsCalls FsSpec FsHistory.

(** ** Differences of two views *)
Definition entry_relation := Z -> option FileEntry -> option FileEntry -> Prop.

Definition alters (R : entry_relation) (f f' : entries) : Prop := forall id, f' id = f id \/ R id (f id) (f' id).

Definition nothing : entry_relation := fun _ _ _ => False.
Definition only (id : Z) : entry_relation := fun k _ _ => k = id.

Definition weaker (R R' : entry_relation) : Prop := forall id a b, R id a b -> R' id a b.
Definition chained (R : entry_relation) : Prop := forall id a b c, R id a b -> R id b c -> R id a c.

Lemma alters_refl R f : alters R f f.
Proof. intros id. by left. Qed.

Lemma alters_trans R f g h : chained R -> alters R f g -> alters R g h -> alters R f h.
Proof.
  intros Hc H1 H2 id. destruct (H1 id) as [E1|R1]; destruct (H2 id) as [E2|R2]; [left; congruence|right; by rewrite <- E1|right; by rewrite E2|right; by eapply Hc].
Qed.

Lemma alters_weaken R R' f g : weaker R R' -> alters R f g -> alters R' f g.
Proof. intros Hw H id. destruct (H id); [by left|right; by apply Hw]. Qed.

Lemma weaker_refl R : weaker R R.
Proof. by intros ???. Qed.
Lemma nothing_weaker R : weaker nothing R.
Proof. by intros ???. Qed.
Lemma only_chained id : chained (only id).
Proof. by intros ????. Qed.

Lemma replace_alters f id version bytes : alters (only id) f (spec_replace f id version bytes).
Proof. intros k. unfold spec_replace, only. destruct (Z.eqb_spec k id); [by right|by left]. Qed.

Record intent := mkIntent { it_replay : Prop; it_next : Metadata -> entries -> Prop }.
Definition unspecified : intent := mkIntent True (fun _ _ => True).

Section Effect.
Context {D : Type} {HD : Disk D} {HV : DiskView D} {HW : ViewLaws D} {HL : DiskLaws D}.
Implicit Types (d : D) (v : Volume) (w : Volume * D) (R : entry_relation).

Record effect R w w' : Prop := {
  ef_sound : sound w';
  ef_fenced : vl_poisoned (w.1) = true -> vl_poisoned (w'.1) = true /\ forall s, survives (w'.2) s -> survives (w.2) s;
  ef_view : vl_poisoned (w.1) = false -> vl_poisoned (w'.1) = false -> alters R (shows w) (shows w');
  ef_survivors : vl_poisoned (w.1) = false -> forall s, survives (w'.2) s -> exists f, alters R (shows w) f /\ leaves s f;
}.

Lemma leaves_ext s f g : leaves s f -> (forall id, f id = g id) -> leaves s g.
Proof. intros (m & bank & H1 & H2 & H3 & H4 & H5) E. exists m, bank. repeat (split; [done|]). intros id. by rewrite H5. Qed.

Lemma sound_leaves w s : sound w -> vl_poisoned (w.1) = false -> survives (w.2) s -> leaves s (shows w).
Proof.
  destruct w as [v d]. intros H Hp Hs. destruct (sd_rest _ H Hp) as [R I]. cbn in *. destruct (rests_survives _ _ _ _ R Hs) as [Hg _].
  pose proof (rests_agrees v d s R Hs) as Ha. exists (vl_metadata v), (vl_bank v).
  split; [apply R|]. split; [apply R|]. split; [done|]. split; [by eapply intact_agrees|]. intros id. by apply view_agrees.
Qed.

Lemma effect_refl R w : sound w -> effect R w w.
Proof.
  intros H. split; [done|done|intros; apply alters_refl|]. intros Hp s Hs. exists (shows w). split; [apply alters_refl|by apply sound_leaves].
Qed.

Lemma effect_trans R w x y : chained R -> effect R w x -> effect R x y -> effect R w y.
Proof.
  intros Hc [S1 F1 V1 K1] [S2 F2 V2 K2]. split; [done| | |].
  - intros Hp. destruct (F1 Hp) as [Hx H1]. destruct (F2 Hx) as [Hy H2]. split; [done|]. intros s Hs. by apply H1, H2.
  - intros Hp Hy. destruct (vl_poisoned (x.1)) eqn:Hx; [destruct (F2 eq_refl) as [? _]; congruence|]. eapply alters_trans; [done|by apply V1|by apply V2].
  - intros Hp s Hs. destruct (vl_poisoned (x.1)) eqn:Hx.
    + destruct (F2 eq_refl) as [_ H2]. by apply K1, H2.
    + destruct (K2 eq_refl s Hs) as (f & Hf & Hl). exists f. split; [|done]. eapply alters_trans; [done|by apply V1|done].
Qed.

Lemma effect_weaken R R' w w' : weaker R R' -> effect R w w' -> effect R' w w'.
Proof.
  intros Hw [S F V K]. split; [done|done|intros; eapply alters_weaken; [done|by apply V]|]. intros Hp s Hs. destruct (K Hp s Hs) as (f & Hf & Hl).
  exists f. split; [by eapply alters_weaken|done].
Qed.

(** Between two calls nothing changes: [effect nothing] is a preorder. *)
Lemma nothing_chained : chained nothing.
Proof. by intros ????. Qed.

Lemma effect_undisturbed R v d d' : sound (v, d) -> undisturbed d d' -> effect R (v, d) (v, d').
Proof.
  intros H U. pose proof (undisturbed_sound v d d' U H) as H'.
  assert (Hs : forall s, survives d' s -> survives d s) by (intros s Hs n; apply U, Hs).
  split; cbn; [done|done| |].
  - intros Hp _ id. left. unfold shows. cbn. apply view_agrees. intros n _. apply U.
  - intros Hp s Hv. exists (shows (v, d)). split; [apply alters_refl|]. apply sound_leaves; [done|done|by apply Hs].
Qed.

(** *** From refinement *)
Lemma rtc_fenced w w' : rtc transition w w' -> vl_poisoned (w.1) = true -> vl_poisoned (w'.1) = true /\ forall s, survives (w'.2) s -> survives (w.2) s.
Proof.
  induction 1 as [w|w x y Hx _ IH]; intros Hp; [done|].
  destruct Hx as [[E U]|(next & ds & first & data & Hn & _)]; [|congruence].
  destruct IH as [Hy Hs]; [by destruct E as [-> | ->]|]. split; [done|]. intros s H. specialize (Hs s H). intros n. apply U, Hs.
Qed.

Lemma effect_refines {T} R w (r : outcome FsError T) w' after : sound w -> settles w r w' -> (vl_poisoned (w.1) = false -> refines w r w' after) ->
  (vl_poisoned (w.1) = false -> alters R (shows w) after) -> effect R w w'.
Proof.
  intros H [Hr Ht] Hf Ha. pose proof (rtc_sound w w' H Ht) as H'.
  assert (Hre : vl_poisoned (w.1) = false -> w' = w \/ (vl_poisoned (w'.1) = true /\ forall s, survives (w'.2) s -> leaves s (shows w) \/ leaves s after) \/
     (vl_poisoned (w'.1) = false /\ forall id, shows w' id = after id)).
  { intros Hp. specialize (Hf Hp). destruct r as [t|e|]; [|destruct Hf as [Hf|(_ & ? & ?)]; auto|done]. right; right. by destruct Hf as (_ & ? & ?). }
  split; [done|by apply rtc_fenced| |].
  - intros Hp Hp'. destruct (Hre Hp) as [->|[[? _]|[_ Hv]]]; [apply alters_refl|congruence|]. intros id. rewrite Hv. by apply Ha.
  - intros Hp s Hs. destruct (Hre Hp) as [->|[[_ Hl]|[Hp' Hv]]].
    + exists (shows w). split; [apply alters_refl|by apply sound_leaves].
    + destruct (Hl s Hs); [exists (shows w); split; [apply alters_refl|done]|exists after; split; [by apply Ha|done]].
    + exists after. split; [by apply Ha|]. eapply leaves_ext; [by apply sound_leaves|done].
Qed.

(** A call that failed without uncertainty changed nothing. *)
Lemma refines_error {T} w (r : outcome FsError T) w' after e : refines w r w' after -> r = Err e -> e <> EUncertain -> w' = w.
Proof. intros H ->. destruct H as [?|[? _]]; done. Qed.

(** ** Publications in progress *)
Section Progress.
Context {T : Type}.
Implicit Types p : Publication D T.

(** What a publication is for: an answer already retained, or a generation and its view. *)
Definition pub_within R (N : intent) v d p : Prop :=
  sound (v, d) /\
  ((it_replay N /\ p = Publication_replayed v d (pb_result p)) \/
   exists next ds first data after, vl_poisoned v = false /\ publishable (vl_metadata v) next ds first data /\
     pub_state (plan_for v d next ds first data) p /\
     (forall s, carries_payload (vl_metadata v) ds first data (contents d) s -> forall k, files_view s next k = after k) /\
     alters R (shows (v, d)) after /\ it_next N next after).

Lemma within_weaken R R' (N N' : intent) v d p : weaker R R' -> (it_replay N -> it_replay N') -> (forall n f, it_next N n f -> it_next N' n f) -> pub_within R N v d p -> pub_within R' N' v d p.
Proof.
  intros Hw Hi HN [H [[Hj Hr]|(next & ds & first & data & after & ? & ? & ? & ? & Ha & Hn)]]; (split; [done|]); [left; auto|right].
  exists next, ds, first, data, after. do 4 (split; [done|]). split; [by eapply alters_weaken|by apply HN].
Qed.

(** Dropping one gives back a volume within its bound; an unpublished one leaves no trace. *)
Lemma drop_effect R N v d p : pub_within R N v d p -> effect R (v, d) (Publication_drop p) /\
  (pb_phase p = Committed -> vl_poisoned ((Publication_drop p).1) = vl_poisoned v /\
     ((it_replay N /\ Publication_drop p = (v, d)) \/ exists next after, it_next N next after /\ metadata_ok next /\ (Publication_drop p).1 = mkVolume next (1 - vl_bank v) false /\
       forall id, shows (Publication_drop p) id = after id)) /\
  (pb_phase p = Cancelled -> effect nothing (v, d) (Publication_drop p) /\ (Publication_drop p).1 = v) /\
  (pb_phase p = Uncertain -> vl_poisoned ((Publication_drop p).1) = true).
Proof.
  intros [H [[Hj ->]|(next & ds & first & data & after & Hp & HP & Hst & Hafter & Ha & HN)]].
  { cbn. replace (Publication_drop _) with (v, d) by done. split; [by apply effect_refl|]. split; [|done]. intros _. split; [done|by left]. }
  destruct (sd_rest _ H Hp) as [Rs I]. cbn in Rs, I. pose proof (plan_for_ok _ _ _ _ _ _ Rs HP) as HO. set (P := plan_for v d next ds first data) in *.
  destruct (Publication_drop p) as [v' d'] eqn:Ed. destruct (drop_rests P HO p v' d' Hst Ed) as (D1 & D2 & D3). cbn [fst].
  pose proof (plan_leaves v d next ds first data after H Hp HP Hafter) as [Lo Ln]. fold P in Lo, Ln.
  pose proof (fun Hd => plan_dropped v d next ds first data after H Hp HP Hafter p v' d' Hst Ed Hd) as Hdrop.
  assert (Hl : forall s, survives d' s -> (pb_phase p <> Committed /\ leaves s (shows (v, d))) \/
     (pb_phase p <> Cancelled /\ leaves s after)).
  { intros s Hs. subst d'. pose proof (phase_survives P HO p s Hst Hs) as Hx.
    destruct (pb_phase p); try (left; split; [done|by apply Lo]); try (right; split; [done|by apply Ln]);
      destruct Hx as [Hx|Hx]; first [left; split; [done|by apply Lo]|right; split; [done|by apply Ln]]. }
  assert (Hsound : sound (v', d')).
  { destruct (vl_poisoned v') eqn:Ep; [|by apply (Hdrop eq_refl)]. split; cbn; [congruence|]. intros s Hs.
    assert (exists f, leaves s f) as (f & m & bank & ? & ? & ? & ? & _) by (destruct (Hl s Hs) as [[_ ?]|[_ ?]]; by eexists). by exists m, bank. }
  split; [|split; [|split]].
  - split; cbn; [done|congruence| |].
    + intros _ Hd id. destruct (Hdrop Hd) as [_ ->]. case_bool_decide; [apply Ha|by left].
    + intros _ s Hs. destruct (Hl s Hs) as [[_ ?]|[_ ?]]; [exists (shows (v, d)); split; [apply alters_refl|done]|by exists after].
  - intros E. rewrite E in D3. assert (vl_poisoned v' = false) as Hd by (by subst v'). split; [congruence|]. right. exists next, after. split; [done|]. split; [apply HP|].
    split; [exact D3|]. intros id. destruct (Hdrop Hd) as [_ ->]. by rewrite bool_decide_true.
  - intros E. rewrite E in D3. assert (vl_poisoned v' = false) as Hd by (by subst v'). split; [|rewrite D3; unfold P; cbn; destruct v; cbn in Hp |- *; by rewrite Hp]. split; cbn; [done|congruence| |].
    + intros _ _ id. destruct (Hdrop Hd) as [_ ->]. rewrite bool_decide_false by (rewrite E; done). by left.
    + intros _ s Hs. destruct (Hl s Hs) as [[_ ?]|[? _]]; [|done]. exists (shows (v, d)). by split; [apply alters_refl|].
  - intros E. rewrite E in D3. by rewrite D3.
Qed.

Section Polling.
Context {HQ : PollDisk D} {HPL : PollLaws D}.

(** A disk that settles every command inside the call. *)
Definition prompt : Prop := forall (c : Command) (x x' : D), Command_poll c x <> (Pending, x').

Lemma polled_executes : executes (Command_poll (D := D)).
Proof. intros c d r d' Hok Hx. by apply (poll_law c d r d'). Qed.

Lemma advance_kept p r q : poll_advance p = (r, q) -> pb_result q = pb_result p.
Proof.
  unfold poll_advance, Publication_drive. intros E. repeat case_match; simplify_eq; try done; unfold Publication_settle; by repeat case_match; simplify_eq.
Qed.

(** What is left of a publication: an upper bound on its settled commands. *)
Definition steps_left p : nat :=
  match pb_phase p with
  | Committed | Cancelled | Uncertain => 0
  | _ => match pb_next p with Some next => pb_data_steps p + write_steps next - pb_step p | None => 0 end
  end.

Lemma steps_left_live P p : plan_ok P -> pub_state P p -> steps_left p = (if decide (pb_phase p = Committed \/ pb_phase p = Cancelled \/ pb_phase p = Uncertain)
  then 0 else pn_total P - pb_step p)%nat /\ (is_live (pb_phase p) -> (0 < steps_left p)%nat) /\ (steps_left p <= 17)%nat.
Proof.
  intros HP H. pose proof (total_range P HP) as Ht. unfold steps_left.
  assert (Hl : is_live (pb_phase p) -> pb_next p = Some (pn_next P) /\ (pb_data_steps p + write_steps (pn_next P) - pb_step p)%nat = (pn_total P - pb_step p)%nat
     /\ (pb_step p < pn_total P)%nat).
  { intros Hl. destruct (live_state P HP p H Hl) as [[_ Hn] Hs]. destruct (ps_data _ _ H) as (_ & _ & E3). split; [done|]. split; [|done]. unfold pn_total. by rewrite E3. }
  unfold is_live in *. destruct (pb_phase p); case_decide as Hd; try (exfalso; clear Hl; intuition congruence);
    [destruct Hl as (-> & -> & ?); [tauto|]; split; [done|lia]..| | |]; (split; [done|]; split; [intros Hx; exfalso; clear Hl; intuition congruence|lia]).
Qed.

Lemma advance_within R N v d p r q : pub_within R N v d p -> poll_advance p = (r, q) ->
  pub_within R N v d q /\
  match r with
  | Ready (Ok ph) => ph = pb_phase q /\ pb_phase q <> Uncertain /\ (is_live (pb_phase p) -> (steps_left q < steps_left p)%nat)
  | Ready (Err e) => e = EUncertain /\ pb_phase q = Uncertain
  | Ready Panic => False
  | Pending => ~ prompt /\ pb_phase q <> Uncertain
  end.
Proof.
  intros [H [[Hj E]|(next & ds & first & data & after & Hp & HP & Hst & Hafter & Ha & HN)]] Ed.
  { rewrite E in Ed. injection Ed as <- <-. split; [split; [done|by left]|]. split; [done|]. split; [done|]. rewrite E. by intros [?|[?|?]]. }
  destruct (sd_rest _ H Hp) as [Rs I]. cbn in Rs, I. pose proof (plan_for_ok _ _ _ _ _ _ Rs HP) as HO. set (P := plan_for v d next ds first data) in *.
  destruct (drive_state P HO p q r Command_poll polled_executes Hst Ed) as [Hq Hr].
  split; [split; [done|]; right; exists next, ds, first, data, after; done|].
  destruct (steps_left_live P p HO Hst) as (E1 & L1 & _). destruct (steps_left_live P q HO Hq) as (E2 & L2 & _).
  destruct r as [|[ph|e|]]; [| |done|done].
  - unfold poll_advance, Publication_drive in Ed. destruct (pb_phase p) eqn:Eph; try done; (destruct (pb_next p); [|done]);
      (destruct (Publication_command _ _); [|done..]); (destruct (Command_poll _ _) as [[|[[]| |]] d'] eqn:Ex; [|done..]); injection Ed as <-;
      (split; [intros Hpr; by apply (Hpr _ _ _ Ex)|cbn; by destruct (_ <=? _)%nat]).
  - destruct Hr as [-> Hr]. split; [done|]. split.
    + intros Hu. unfold poll_advance, Publication_drive in Ed. destruct (pb_phase p) eqn:Eph; try done; try (injection Ed as _ <-; congruence);
        (destruct (pb_next p); [|done]); (destruct (Publication_command _ _); [|done..]); (destruct (Command_poll _ _) as [[|[[]| |]] d'] eqn:Ex; [done| |done..]);
        injection Ed as _ <-; unfold Publication_settle in Hu; by repeat case_match; simplify_eq.
    + intros Hl. specialize (L1 Hl). destruct (Hr Hl) as [Es _]. rewrite E1 in L1 |- *. rewrite E2, Es. repeat case_decide; lia.
Qed.

Lemma cancel_within R N v d p r q : pub_within R N v d p -> pb_phase p <> Uncertain -> Publication_cancel p = (r, q) ->
  pub_within R N v d q /\ pb_result q = pb_result p /\ (steps_left q <= steps_left p)%nat /\ pb_phase q <> Uncertain /\ (exists a, r = Ok a) /\
  (pb_phase q = Committed -> pb_phase p = Committed).
Proof.
  intros [H [[Hj E]|(next & ds & first & data & after & Hp & HP & Hst & Hafter & Ha & HN)]] Hu Ec.
  { rewrite E in Ec. injection Ec as <- <-. split; [split; [done|by left]|]. rewrite E. cbn. split; [done|]. split; [lia|]. split; [done|]. split; [by eexists|done]. }
  destruct (sd_rest _ H Hp) as [Rs I]. cbn in Rs, I. pose proof (plan_for_ok _ _ _ _ _ _ Rs HP) as HO. set (P := plan_for v d next ds first data) in *.
  destruct (cancel_state P p q r Hst Ec) as [Hq Hr]. split; [split; [done|]; right; exists next, ds, first, data, after; done|].
  unfold Publication_cancel in Ec. unfold steps_left. destruct (pb_phase p) eqn:Eph; try done; try destruct (pb_pending p);
    injection Ec as <- <-; cbn; rewrite ?Eph; (split; [done|]); (split; [lia|]); (split; [done|]); (split; [by eexists|done]).
Qed.

Lemma within_steps R N v d p : pub_within R N v d p -> (steps_left p <= 17)%nat.
Proof.
  intros [H [[Hj E]|(next & ds & first & data & after & Hp & HP & Hst & _)]]; [rewrite E; cbn; lia|].
  destruct (sd_rest _ H Hp) as [Rs _]. cbn in Rs. pose proof (plan_for_ok _ _ _ _ _ _ Rs HP) as HO. by apply (steps_left_live _ p HO Hst).
Qed.
End Polling.
End Progress.

(** ** What each preparation may change *)
Lemma table_view s m next id : m_nodes next = m_nodes m -> files_view s next id = files_view s m id.
Proof. intros E. unfold files_view, Metadata_index. by rewrite E. Qed.

Lemma recorded_within {T} v d id version bytes base (output : Node -> T) p : sound (v, d) -> prepared_ok v d p ->
  m_nodes base = m_nodes (vl_metadata v) -> prepare_recorded v d id version bytes base output = Ok p ->
  pub_within (only id) (mkIntent False (fun next after => (exists first x, plan_recorded v id version bytes base = Ok (next, first, x)) /\
    file_at (shows (v, d)) id version /\ after = spec_replace (shows (v, d)) id (Volume_sequence v + 1) bytes)) v d p.
Proof.
  intros H Hok Eb E. split; [done|]. unfold prepare_recorded in E. destruct (plan_recorded _ _ _ _ _) as [[[next first] x]|e|] eqn:Ep; [|done..].
  cbn in E. injection E as <-. destruct Hok as [E|(next' & ds & first' & data & Hp & HP & Hst & _)]; [done|right].
  pose proof (ps_phase _ _ Hst) as Hph. cbn in Hph. destruct Hph as [[_ [= <-]] _]. destruct (ps_data _ _ Hst) as (E1 & E2 & E3). cbn in E1, E2, E3. subst data first' ds.
  exists next, 3%nat, first, (padded_bytes bytes), (spec_replace (shows (v, d)) id (Volume_sequence v + 1) bytes). split; [done|]. split; [done|]. split; [done|].
  destruct (sd_rest _ H Hp) as [R _]. cbn in R. split; [|split; [apply replace_alters|split; [by exists first, x|split; [by eapply planned_shows; [apply R|exact Eb|exact Ep]|done]]]]. intros s Hs. eapply replaced_view; [apply R|apply HP|exact Eb|exact Ep|exact Hs].
Qed.

Lemma metadata_within {T} v d base (t : T) p : sound (v, d) -> prepared_ok v d p -> m_nodes base = m_nodes (vl_metadata v) ->
  Publication_metadata v d base t = Ok p -> pub_within nothing (mkIntent False (fun next after => m_recovery next = m_recovery base /\ after = shows (v, d))) v d p.
Proof.
  intros H Hok Eb E. split; [done|]. unfold Publication_metadata in E. destruct (checked_add _ _) as [q|] eqn:Eq; [|done]. cbn in E. injection E as <-.
  destruct Hok as [E|(next & ds & first & data & Hp & HP & Hst & _)]; [done|right].
  pose proof (ps_phase _ _ Hst) as Hph. cbn in Hph. destruct Hph as [[_ [= <-]] _].
  eexists _, ds, first, data, (shows (v, d)). split; [done|]. split; [exact HP|]. split; [exact Hst|]. split; [|split; [apply alters_refl|by split]].
  intros s [Ha _] k. rewrite (table_view s (vl_metadata v)) by done. by apply view_agrees.
Qed.

Lemma replayed_within {T} R N v d (t : T) : sound (v, d) -> it_replay N -> pub_within R N v d (Publication_replayed v d t).
Proof. intros H Hi. split; [done|by left]. Qed.

(** The generation retains the answer of a request: what it named, what it got and the bytes. *)
Definition retains (subject : Z) (request : FsReplacement) (bytes : list Z) (receipt : FsReceipt) (next : Metadata) : Prop := exists r i x,
  m_recovery next = Some r /\ rv_scoped r = true /\ rv_records r !! i = Some (Some x) /\ rd_subject x = subject /\ rd_receipt x = receipt /\
  rd_admission x = None /\ fst <$> rd_namespace x = Some (fp_workspace request) /\ fp_workspace request <> 0 /\ fr_retry receipt = fp_retry request /\
  fr_id receipt = fp_id request /\ fr_previous receipt = fp_version request /\ record_payload x = bytes /\
  rv_epoch r <= fr_committed receipt /\ 0 < fr_committed receipt.

Definition holds_admission (subject : Z) (a : FsAdmission) (next : Metadata) : Prop := exists r i x,
  m_recovery next = Some r /\ rv_records r !! i = Some (Some x) /\ rd_subject x = subject /\ admission_view x = Ok a.

(** An admission and what became of it: still the same request and bytes. *)
Definition ended_as (state : FsState) (a a' : FsAdmission) : Prop :=
  fs_state (av_status a) = FAdmitted /\ fs_state (av_status a') = state /\ fs_id (av_status a') = fs_id (av_status a) /\
  av_request a' = av_request a /\ av_bytes a' = av_bytes a /\ av_instance a' = av_instance a.

Lemma viewed x a : admission_view x = Ok a -> exists st n, rd_admission x = Some st /\ rd_namespace x = Some n /\
  a = mkFsAdmission (mkFsStatus (mkFsAdmissionId (ry_lineage (fr_retry (rd_receipt x))) (so_number st)) (so_state st) (so_terminal st) (so_prevention st))
        (mkFsReplacement (n.1) (fr_retry (rd_receipt x)) (fr_id (rd_receipt x)) (fr_previous (rd_receipt x)))
        (n.2) (if bool_decide (so_state st = FCommitted) then Some (rd_receipt x) else None) (record_payload x).
Proof.
  unfold admission_view. destruct (rd_admission x) as [st|]; [|done]. cbn [ok_or]. destruct (rd_namespace x) as [n|]; [|done]. intros [= <-]. by exists st, n.
Qed.

(** A generation answers for the admissions it retains, under their own identity. *)
Lemma held_admission v subject a : metadata_ok (vl_metadata v) -> vl_poisoned v = false -> holds_admission subject a (vl_metadata v) ->
  admission_by_id v subject (fs_id (av_status a)) = Ok a.
Proof.
  intros Hv Hp (r & i & x & Hr & Hx & Hsub & Hview). pose proof (mo_recovery _ Hv r Hr) as Ro. destruct (vo_records _ _ _ Ro i x Hx) as [F V A].
  destruct (viewed _ _ Hview) as (st & n & Hst & Hn & ->). pose proof (sk_values _ _ _ _ _ (A st Hst)) as B. unfold stored_bad in B. unfold values_bad in V. bools.
  destruct (admission_found v r i x st subject (mkFsAdmissionId (ry_lineage (fr_retry (rd_receipt x))) (so_number st))) as [E1 E2]; try done; [congruence|by apply (rf_lineage _ _ F)|].
  unfold admission_by_id. cbn [av_status fs_id]. rewrite E1. unfold admission_record. by rewrite E2, Hx.
Qed.

Lemma admission_holds v subject id a : admission_by_id v subject id = Ok a -> holds_admission subject a (vl_metadata v) /\ vl_poisoned v = false.
Proof.
  intros Ea. destruct (admission_held _ _ _ _ Ea) as (i & x & st & (r & Hr & Hx) & Hst & Hsub & Hnum & Hview & _). split; [by exists r, i, x|].
  unfold admission_by_id, admission_slot in Ea. destruct (Volume_admissions v) eqn:E; [|done..]. by apply admissions_spec in E as [? _].
Qed.

Lemma retry_holds v subject workspace retry a : admission_by_retry v subject workspace retry = Ok a ->
  holds_admission subject a (vl_metadata v) /\ vl_poisoned v = false /\ fp_workspace (av_request a) = workspace /\ fp_retry (av_request a) = retry.
Proof.
  unfold admission_by_retry. destruct (Volume_admissions v) as [r| |] eqn:Ea; [|done..]. apply admissions_spec in Ea as (Hp & Hr & _). destruct (_ || _); [done|].
  destruct (negb _); [done|]. destruct (List.find _ _) as [x|] eqn:Ef; [|by destruct (negb _)]. intros Hview.
  apply find_slot in Ef as [Hm [i Hx]]. apply scoped_match_spec in Hm as (Hw & Hsub & Hre). destruct (viewed _ _ Hview) as (st & n & _ & Hn & E).
  split; [by exists r, i, x|]. split; [done|]. rewrite E. cbn. split; [|done]. rewrite Hn in Hw. by injection Hw.
Qed.

(** What the request's key is found to name. *)
Definition remembered v subject (request : FsReplacement) (bytes : list Z) (receipt : FsReceipt) : Prop := exists o,
  operation_by_retry v subject (fp_workspace request) (fp_retry request) = Ok o /\ fo_receipt o = receipt /\
  fr_id receipt = fp_id request /\ fr_previous receipt = fp_version request /\ fo_bytes o = bytes.

(** The request was never answered, and names a file at the version it expects. *)
Definition unanswered v d subject (request : FsReplacement) : Prop :=
  operation_by_retry v subject (fp_workspace request) (fp_retry request) = Err EOutcomeUnknown /\
  file_at (shows (v, d)) (fp_id request) (fp_version request).

(** A replacement answers from a retained record, or publishes the bytes and its record. *)
Definition scoped_intent v d subject (request : FsReplacement) (bytes : list Z) (receipt : FsReceipt) : intent := mkIntent
  (remembered v subject request bytes receipt)
  (fun next after => retains subject request bytes receipt next /\ unanswered v d subject request /\
     after = spec_replace (shows (v, d)) (fp_id request) (Volume_sequence v + 1) bytes).

Lemma retained_remembered next bank subject request bytes receipt : metadata_ok next -> retains subject request bytes receipt next ->
  remembered (mkVolume next bank false) subject request bytes receipt.
Proof.
  intros Hm (r & i & x & Hr & Hs & Hx & Hsub & Hrec & Ha & Hns & Hw & Hk & E1 & E2 & Hb & _).
  assert (Hmt : scoped_match subject (fp_workspace request) (fp_retry request) x = true) by (apply scoped_match_spec; by rewrite Hrec).
  assert (Han : answered x) by (unfold answered; by rewrite Ha). destruct (answered_operation x _ Hns Han) as [k Ek]. eexists. split.
  - rewrite (operation_answers (mkVolume next bank false) r i x) by done. exact Ek.
  - cbn [fo_receipt fo_bytes]. by rewrite Hrec.
Qed.

Lemma scoped_within v d subject instance request bytes p : sound (v, d) -> fs_replacement_ok subject instance request bytes ->
  prepare_scoped v d subject instance request bytes = Ok p ->
  pub_within (only (fp_id request))
    (scoped_intent v d subject request bytes (pb_result p)) v d p /\
  ((exists old, operation_by_retry v subject (fp_workspace request) (fp_retry request) = Ok old) -> p = Publication_replayed v d (pb_result p)).
Proof.
  intros H C E. pose proof (scoped_prepares v d subject instance request bytes H C) as Hok. rewrite E in Hok. cbn in Hok.
  destruct (scoped_prepared _ _ _ _ _ _ _ E) as (Hp & Hl & [(old & -> & Eo & E1 & E2 & E3)|(r & slot & q & n' & next & first & node & U & Hr & Hs & Hq & Hle & Hpl & Enew)]).
  { split; [apply replayed_within; [done|]|done]. by exists old. }
  split.
  2:{ intros [old Eo]. clear Enew. unfold prepare_scoped, Volume_ready in E. rewrite Hp, Eo in E. destruct (_ <? _)%nat; [done|]. destruct (_ || _); [done|]. by injection E as <-. }
  set (receipt := mkFsReceipt _ _ _ _ _) in *. cbv zeta in Hpl, Enew.
  pose proof Hpl as Hrec. apply plan_records in Hrec. cbn [store_record set_recovery m_recovery] in Hrec.
  destruct (sd_rest _ H Hp) as [R _]. cbn in R. pose proof U as (Er & Es & _). pose proof (mo_recovery _ (rs_ok _ _ _ R) r Er) as Ro.
  assert (Hn : retains subject request bytes receipt next).
  { eexists _, slot, _. split; [exact Hrec|]. split; [exact Es|]. split; [cbn [rv_records set_record]; rewrite list_lookup_insert_eq; [done|by eapply position_lt]|].
    do 4 (split; [done|]). split; [apply U|]. do 3 (split; [done|]). split; [by apply new_record_payload|]. cbn [fr_committed receipt rv_epoch set_record]. pose proof (vo_epoch _ _ _ Ro) as [_ ?]. apply checked_add_Some in Hq as [-> _]. unfold receipt. cbn. lia. }
  assert (Epb : pb_result p = receipt) by (rewrite Enew; reflexivity). rewrite Epb.
  match type of Hpl with plan_recorded _ _ _ _ ?b = _ => set (base := b) in Hpl end.
  eapply within_weaken; [apply weaker_refl|..|apply (recorded_within v d (fp_id request) (fp_version request) bytes base (fun _ => receipt)); [done|done|done|]]; [done|..].
  - intros n f [(a & x & Ex) [Hat ->]]. rewrite Hpl in Ex. injection Ex as <- _ _. split; [done|]. split; [|done]. split; [|done].
    unfold prepare_scoped, Volume_ready in E. rewrite Hp in E. destruct (_ <? _)%nat; [done|].
    destruct (operation_by_retry _ _ _ _) as [old|e|] eqn:Eo; [|by destruct e|done]. exfalso. guards E. injection E as E. by rewrite Enew in E.
  - unfold prepare_recorded. rewrite Hpl. cbn. by rewrite Enew.
Qed.

(** An admission is accepted: the key already named the same request, or a record
    of the request is retained, for a file at the version it expects. *)
Definition accepted_intent v d subject (request : FsReplacement) (bytes : list Z) (status : FsStatus) : intent := mkIntent
  (exists a, admission_by_retry v subject (fp_workspace request) (fp_retry request) = Ok a /\ av_request a = request /\ av_bytes a = bytes /\ av_status a = status)
  (fun next after => admission_by_retry v subject (fp_workspace request) (fp_retry request) = Err EOutcomeUnknown /\
     file_at (shows (v, d)) (fp_id request) (fp_version request) /\ after = shows (v, d) /\
     exists a, holds_admission subject a next /\ av_request a = request /\ av_bytes a = bytes /\ av_status a = status /\ fs_state status = FAdmitted).

Lemma admission_within v d subject instance request bytes p : sound (v, d) -> fs_replacement_ok subject instance request bytes ->
  prepare_admission v d subject instance request bytes = Ok p -> pub_within nothing (accepted_intent v d subject request bytes (pb_result p)) v d p.
Proof.
  intros H C E. pose proof (admission_prepares v d subject instance request bytes H C) as Hok. rewrite E in Hok. cbn in Hok.
  unfold prepare_admission in E. destruct (_ <? _)%nat; [done|]. destruct (admission_by_retry _ _ _ _) as [old|e|] eqn:Eo; [| |done].
  - destruct (_ || _) eqn:G; [done|]. injection E as <-. apply replayed_within; [done|]. bools. destruct (retry_holds _ _ _ _ _ Eo) as (_ & _ & E1 & E2).
    exists old. split; [done|]. split; [|done]. destruct (av_request old), request. cbn in *. congruence.
  - destruct e; try done. destruct (Volume_resolve _ _ _) as [x| |] eqn:Ex; [|done..]. destruct (Volume_writable v (fp_id request)) as [node| |] eqn:Ew; [|done..].
    destruct (negb _) eqn:Ek; [done|]. destruct (negb (n_version _ =? _)) eqn:Ev; [done|]. bools. unfold kind_is in Ek. bools.
    destruct (Volume_admissions v) as [r| |] eqn:Er; [|done..]. destruct (position _ _) as [slot|] eqn:Es; [|done]. cbn [ok_or] in E.
    destruct (checked_add _ _) as [number|]; [|done]. cbn [ok_or] in E. destruct (_ <? _); [done|].
    destruct (admissions_spec _ _ Er) as (Hp & Hr & _). rewrite Hr in E. match type of E with (let? y := admission_view ?x in _) = _ => set (record := x) in E end.
    destruct (admission_view record) as [view| |] eqn:Hview; [|done..].
    eapply within_weaken; [apply weaker_refl|..|eapply metadata_within; [done|done| |exact E]]; [done| |done].
    intros next after [Em ->]. cbn [store_record set_recovery m_recovery] in Em. destruct (viewed _ _ Hview) as (st & n & Hst & Hn & Eview).
    assert (Epb : pb_result p = av_status view) by (unfold Publication_metadata in E; destruct (checked_add _ _); [|done]; by injection E as <-).
    split; [done|]. split; [rewrite <- Ev; eapply writable_file; [apply (sd_rest _ H Hp)|exact Ew|done]|]. split; [done|]. exists view. split.
    { eexists _, slot, record. split; [exact Em|]. split; [cbn [rv_records set_record]; rewrite list_lookup_insert_eq; [done|by eapply position_lt]|]. done. }
    injection Hst as <-. injection Hn as <-. rewrite Epb, Eview. cbn. split; [by destruct request|]. split; [by apply new_record_payload|]. done.
Qed.

Lemma with_admission_nodes m slot f next : with_admission m slot f = Ok next -> m_nodes next = m_nodes m.
Proof. unfold with_admission. intros E. by repeat case_match; simplify_eq. Qed.

(** The slot of an admission, its record and its view. *)
Lemma admission_at v subject id slot a : admission_slot v subject id = Ok slot -> admission_by_id v subject id = Ok a ->
  exists r x st, m_recovery (vl_metadata v) = Some r /\ rv_records r !! slot = Some (Some x) /\ rd_admission x = Some st /\ rd_subject x = subject /\ admission_view x = Ok a /\
    admission_record v slot = Ok x.
Proof.
  intros Es Ea. destruct (admission_slot_spec _ _ _ _ Es) as (r & x & st & Ev & Hx & Hst & Hsub & _). destruct (admissions_spec _ _ Ev) as (_ & Er & _).
  assert (Erx : admission_record v slot = Ok x) by (unfold admission_record; by rewrite Ev, Hx). unfold admission_by_id in Ea. rewrite Es, Erx in Ea. by exists r, x, st.
Qed.

(** An admission is withdrawn: it was already settled, or its record now says so. *)
Definition cancelled_intent v d subject id (status : FsStatus) : intent := mkIntent
  (exists old, admission_by_id v subject id = Ok old /\ fs_state (av_status old) <> FAdmitted /\ av_status old = status)
  (fun next after => after = shows (v, d) /\ exists old new, admission_by_id v subject id = Ok old /\ holds_admission subject new next /\
     ended_as FCancelled old new /\ av_status new = status).

Lemma cancelled_within v d subject id reason p : sound (v, d) -> prepared_ok v d p -> prepare_cancelled v d subject id reason = Ok p ->
  pub_within nothing (cancelled_intent v d subject id (pb_result p)) v d p.
Proof.
  intros H Hok E. unfold prepare_cancelled in E. destruct (admission_slot v subject id) as [slot| |] eqn:Es; [|done..]. destruct (admission_by_id v subject id) as [old| |] eqn:Eo; [|done..].
  destruct (negb _) eqn:G; [injection E as <-; apply replayed_within; [done|]; exists old; split; [done|]; split; [by apply negb_true_iff, bool_decide_eq_false in G|done]|].
  apply negb_false_iff, bool_decide_eq_true in G. destruct (admission_at _ _ _ _ _ Es Eo) as (r & x & st & Hr & Hx & Hst & Hsub & Hview & _).
  destruct (checked_add _ _) as [terminal|]; [|done]. cbn [ok_or] in E. destruct (with_admission _ _ _) as [base| |] eqn:Ew; [|done..].
  assert (Epb : pb_result p = mkFsStatus (fs_id (av_status old)) FCancelled terminal (Some reason))
    by (unfold Publication_metadata in E; destruct (checked_add _ _); [|done]; by injection E as <-).
  eapply within_weaken; [apply weaker_refl|..|eapply metadata_within; [done|done| |exact E]]; [done| |by eapply with_admission_nodes].
  intros next after [Em ->]. split; [done|]. exists old. unfold with_admission in Ew. rewrite Hr, Hx, Hst in Ew. injection Ew as <-. cbn [store_record set_recovery m_recovery] in Em.
  destruct (viewed _ _ Hview) as (st' & n & Hst' & Hn & ->). rewrite Hst in Hst'. injection Hst' as <-.
  set (y := cancelled_record terminal reason x st) in *. assert (Hy : exists new, admission_view y = Ok new) by (unfold admission_view, y; cbn; rewrite Hn; by eexists).
  destruct Hy as [new Hy]. exists new. split; [done|]. split.
  { eexists _, slot, y. split; [exact Em|]. split; [cbn [rv_records set_record]; rewrite list_lookup_insert_eq; [done|by eapply lookup_lt_Some]|]. done. }
  destruct (viewed _ _ Hy) as (st'' & n' & Hs' & Hn' & ->). injection Hs' as <-. cbn [y cancelled_record rd_namespace] in Hn'. rewrite Hn in Hn'. injection Hn' as <-. rewrite Epb. done.
Qed.

Lemma cancellation_within v d subject id p : sound (v, d) -> prepare_cancellation v d subject id = Ok p ->
  pub_within nothing (cancelled_intent v d subject id (pb_result p)) v d p.
Proof.
  intros H E. pose proof (cancellation_prepares v d subject id H) as Hok. rewrite E in Hok. unfold prepare_cancellation in E. steps E. by eapply cancelled_within.
Qed.

Lemma prevention_within v d subject id reason p : sound (v, d) -> prepare_prevention v d subject id reason = Ok p ->
  pub_within nothing (cancelled_intent v d subject id (pb_result p)) v d p.
Proof.
  intros H E. pose proof (prevention_prepares v d subject id reason H) as Hok. rewrite E in Hok. unfold prepare_prevention in E. steps E. by eapply cancelled_within.
Qed.

(** An admission publishes only the object it names, at the version it expects. *)
Definition admitted_intent v d subject (a : FsAdmission) : intent := mkIntent (fs_state (av_status a) = FCommitted)
  (fun next after => (exists new, holds_admission subject new next /\ ended_as FCommitted a new) /\
     file_at (shows (v, d)) (fp_id (av_request a)) (fp_version (av_request a)) /\
     after = spec_replace (shows (v, d)) (fp_id (av_request a)) (Volume_sequence v + 1) (av_bytes a)).

Lemma admitted_within v d subject id a p : sound (v, d) -> admission_by_id v subject id = Ok a -> prepare_admitted v d subject id = Ok p ->
  pub_within (only (fp_id (av_request a))) (admitted_intent v d subject a) v d p.
Proof.
  intros H Ea E. pose proof (admitted_prepares v d subject id H) as Hok. rewrite E in Hok. cbn in Hok.
  unfold prepare_admitted in E. destruct (admission_slot v subject id) as [slot| |] eqn:Es; [|done..].
  destruct (admission_at _ _ _ _ _ Es Ea) as (r & x & st & Hr & Hx & Hst & Hsub & Hview & Erx). rewrite Erx in E. cbn in E. rewrite Hview in E.
  destruct (viewed _ _ Hview) as (st' & n & Hst' & Hn & Eview). rewrite Hst in Hst'. injection Hst' as <-.
  destruct (fs_state (av_status a)) eqn:Estate; [|done|injection E as <-; by apply replayed_within].
  assert (fr_id (rd_receipt x) = fp_id (av_request a) /\ fr_previous (rd_receipt x) = fp_version (av_request a)) as (Hid & Hver) by (by rewrite Eview).
  steps E. match goal with H : with_admission _ _ _ = Ok ?b |- _ => rename H into Hw; rename b into base end.
  match type of E with prepare_recorded _ _ ?i ?k ?b ?m ?o = _ => pose proof (recorded_within v d i k b m o p H Hok ltac:(by eapply with_admission_nodes) E) as HP end.
  rewrite <- Hid. eapply within_weaken; [apply weaker_refl|..|exact HP]; [done|].
  intros next after [(y & z & Ep) [Hat ->]]. cbn [committed_receipt fr_id fr_previous] in Hat |- *. rewrite Hid, Hver in Hat. rewrite Hid. split; [|split; [exact Hat|done]].
  apply plan_records in Ep. unfold with_admission in Hw. rewrite Hr, Hx, Hst in Hw. injection Hw as <-. cbn [store_record set_recovery m_recovery] in Ep.
  match goal with H : context [committed_record ?c x st] |- _ => set (y' := committed_record c x st) in H end.
  assert (Hy : exists new, admission_view y' = Ok new) by (unfold admission_view, y'; cbn; rewrite Hn; by eexists). destruct Hy as [new Hy]. exists new. split.
  { eexists _, slot, y'. split; [exact Ep|]. split; [cbn [rv_records set_record]; rewrite list_lookup_insert_eq; [done|by eapply lookup_lt_Some]|]. done. }
  destruct (viewed _ _ Hy) as (st'' & n' & Hs' & Hn' & ->). injection Hs' as <-. cbn [y' committed_record rd_namespace] in Hn'. rewrite Hn in Hn'. injection Hn' as <-.
  split; [done|]. rewrite Eview. done.
Qed.

(** ** What became of an admission between two worlds *)
(** It was settled when the call began, and nothing happened. *)
Definition settled_before w subject id (status : FsStatus) w' : Prop := exists old,
  admission_by_id (w.1) subject id = Ok old /\ fs_state (av_status old) <> FAdmitted /\ av_status old = status /\ w' = w.

(** It was admitted for a file at the version it expects, and that file alone now
    holds the bytes retained with it. *)
Definition executed w subject id (status : FsStatus) w' : Prop := exists old new,
  admission_by_id (w.1) subject id = Ok old /\ admission_by_id (w'.1) subject id = Ok new /\ ended_as FCommitted old new /\ av_status new = status /\
  file_at (shows w) (fp_id (av_request old)) (fp_version (av_request old)) /\
  forall k, shows w' k = spec_replace (shows w) (fp_id (av_request old)) (Volume_sequence (w.1) + 1) (av_bytes old) k.

(** It was admitted and is now cancelled; the files are untouched. *)
Definition withdrawn w subject id (status : FsStatus) w' : Prop := exists old new,
  admission_by_id (w.1) subject id = Ok old /\ admission_by_id (w'.1) subject id = Ok new /\ ended_as FCancelled old new /\ av_status new = status /\
  effect nothing w w'.

(** The request is retained with its bytes: it already was and nothing happened,
    or its key named nothing, its object was a file at the version it expects,
    and it is newly admitted, the files untouched. *)
Definition accepted w subject (request : FsReplacement) (bytes : list Z) (a : FsAdmission) w' : Prop :=
  admission_by_id (w'.1) subject (fs_id (av_status a)) = Ok a /\ av_request a = request /\ av_bytes a = bytes /\
  ((admission_by_retry (w.1) subject (fp_workspace request) (fp_retry request) = Ok a /\ w' = w) \/
   (admission_by_retry (w.1) subject (fp_workspace request) (fp_retry request) = Err EOutcomeUnknown /\
    file_at (shows w) (fp_id request) (fp_version request) /\ fs_state (av_status a) = FAdmitted /\ effect nothing w w')).

(** The identity of an admission is the one it was asked by. *)
Lemma admission_names v subject id a : (vl_poisoned v = false -> metadata_ok (vl_metadata v)) -> admission_by_id v subject id = Ok a -> fs_id (av_status a) = id.
Proof.
  intros Hv Ea. destruct (admission_held _ _ _ _ Ea) as (i & x & st & (r & Hr & Hx) & Hst & Hsub & Hnum & Hview & _ & _ & r' & Hr' & Hlin).
  rewrite Hr in Hr'. injection Hr' as <-. destruct (admission_holds _ _ _ _ Ea) as [_ Hp].
  destruct (vo_records _ _ _ (mo_recovery _ (Hv Hp) r Hr) i x Hx) as [F _ _]. destruct (viewed _ _ Hview) as (st' & n & Hst' & _ & ->). rewrite Hst in Hst'. injection Hst' as <-.
  cbn. rewrite (rf_lineage _ _ F), Hnum, <- Hlin. by destruct id.
Qed.

(** An admission is its subject's alone. *)
Lemma admission_subject v subject subject' id a a' : (vl_poisoned v = false -> metadata_ok (vl_metadata v)) ->
  admission_by_id v subject id = Ok a -> admission_by_id v subject' id = Ok a' -> subject' = subject.
Proof.
  intros Hv Ea Ea'. destruct (admission_holds _ _ _ _ Ea) as [_ Hp]. specialize (Hv Hp).
  destruct (admission_held _ _ _ _ Ea) as (i & x & st & (r & Hr & Hx) & Hst & Hsub & Hnum & _ & _ & Hn0 & _).
  destruct (admission_held _ _ _ _ Ea') as (j & y & st' & (r' & Hr' & Hy) & Hst' & Hsub' & Hnum' & _). rewrite Hr in Hr'. injection Hr' as <-.
  destruct (decide (i = j)) as [<-|Hne]; [congruence|exfalso]. pose proof (vo_distinct _ _ _ (mo_recovery _ Hv r Hr) i j x y Hne Hx Hy) as C.
  apply clash_spec in C as [C _]. apply (C (fa_number id) Hn0); unfold numbers, record_numbers; rewrite ?Hst, ?Hst'; cbn; rewrite ?Hnum, ?Hnum'; right; by left.
Qed.
End Effect.
