(* ===== verification/SvcControl.v ===== *)
(** * Publications under control

    The loops of operations/publication.rs and admission/control.rs, for any
    control callback: they keep the publication within its bound, a loss of
    authority before the point of no return cancels it without a trace, and an
    error that may hide an effect is reported as uncertain. *)
From stdpp Require Import base list option numbers relations.
From Stdlib Require Import ZArith Lia Bool.
From S2P Require Import Prelude Bytes Codec AbiFiles AbiIdentity AbiMessages AbiReceipts AbiAdmission FsDisk FsNode FsRecovery FsFormat FsVolume FsPublication FsCrash FsPublish FsTree FsInvariant FsReach FsCalls FsSpec FsHistory SvcClients SvcServer SvcPublish SvcClientsFacts SvcReplies SvcEffect.

(** ** Bounded calls *)
Section Bounded.
Context {D : Type} {HD : Disk D} {HV : DiskView D} {HW : ViewLaws D} {HL : DiskLaws D}.
Implicit Types (w : Volume * D) (R : entry_relation).

(** What a reply says of the file system: an error other than [Uncertain] means
    that nothing happened to the files, and [K] of the volume. *)
Record bounded {A} (K : Volume -> Prop) R w (r : outcome FileError A) w' : Prop := {
  bd_effect : effect R w w';
  bd_error : forall e, r = Err e -> e <> FUncertain -> effect nothing w w' /\ vl_poisoned (w'.1) = vl_poisoned (w.1) /\ K (w'.1);
}.

Lemma bounded_same {A} (K : Volume -> Prop) R w (r : outcome FileError A) : sound w -> K (w.1) -> bounded K R w r w.
Proof. intros H HK. split; [by apply effect_refl|]. intros. split; [by apply effect_refl|done]. Qed.

Lemma bounded_quiet {A} (K : Volume -> Prop) R v d d' (r : outcome FileError A) : sound (v, d) -> undisturbed d d' -> K v -> bounded K R (v, d) r (v, d').
Proof. intros H U HK. split; [by apply effect_undisturbed|]. intros. split; [by apply effect_undisturbed|done]. Qed.

Lemma bounded_weaken {A} (K K' : Volume -> Prop) R R' w (r : outcome FileError A) w' : weaker R R' -> (forall v, K v -> K' v) -> bounded K R w r w' -> bounded K' R' w r w'.
Proof. intros Hw HK [E Er]. split; [by eapply effect_weaken|]. intros e He Hu. destruct (Er e He Hu) as (? & ? & ?). auto. Qed.

(** An effect on the way to an answer that is not an error. *)
Lemma bounded_ok {A} K R w (a : A) w' : effect R w w' -> bounded K R w (Ok a) w'.
Proof. intros H. by split. Qed.

Lemma bounded_retype {A B} K R w (r : outcome FileError A) (r' : outcome FileError B) w' :
  bounded K R w r w' -> (forall e, r' = Err e -> r = Err e) -> bounded K R w r' w'.
Proof. intros [E Er] Hr. split; [done|]. intros e He. by apply Er, Hr. Qed.

(** A first part that left no trace. *)
Lemma bounded_after {A} K R w x (r : outcome FileError A) y : chained R -> effect nothing w x -> vl_poisoned (x.1) = vl_poisoned (w.1) -> bounded K R x r y -> bounded K R w r y.
Proof.
  intros Hc Hn Hp [E Er]. split; [eapply effect_trans; [done|by eapply effect_weaken; [apply nothing_weaker|]|done]|].
  intros e He Hu. destruct (Er e He Hu) as (En & Ep & ?). split; [by eapply effect_trans; [apply nothing_chained|..]|]. split; [congruence|done].
Qed.

(** The volume as the call found it. *)
Definition as_found w : Volume -> Prop := eq (w.1).
End Bounded.

Definition authority_error (e : FileError) : Prop := e = FDenied \/ e = FRevoked \/ e = FExpired.

Lemma authority_certain e : authority_error e -> e <> FUncertain.
Proof. by intros [-> | [-> | ->]]. Qed.

Lemma right_error a c now right e : Caller_check_right a c now right = Err e -> authority_error e.
Proof.
  unfold Caller_check_right, authority_error. destruct (Clients_grant_at c (ca_slot a)) as [g|]; cbn [ok_or]; [|intros [= <-]; auto].
  destruct (FileGrant_check g _ _ now) as [[]|x|] eqn:Ec; [|intros [= <-]; by eapply grant_check_error|done]. destruct (_ || _); [intros [= <-]; auto|done].
Qed.

Lemma right_total a c now right : Caller_check_right a c now right <> Panic.
Proof.
  unfold Caller_check_right. destruct (Clients_grant_at c (ca_slot a)) as [g|]; cbn [ok_or]; [|done]. pose proof (grant_check_total g (ca_peer a) (ca_context a) now).
  destruct (FileGrant_check g _ _ now); [by destruct (_ || _)|done|done].
Qed.

Lemma guard_error slot peer context c now e : live_guard slot peer context c now = Err e -> authority_error e.
Proof.
  unfold live_guard, authority_error. destruct (Clients_grant_at c slot) as [g|]; cbn [ok_or]; [|intros [= <-]; auto]. intros H. by apply grant_check_error in H.
Qed.

Lemma guard_total slot peer context c now : live_guard slot peer context c now <> Panic.
Proof. unfold live_guard. destruct (Clients_grant_at c slot); cbn [ok_or]; [apply grant_check_total|done]. Qed.

Definition latched (denied : option FileError) : Prop := forall e, denied = Some e -> authority_error e.

Lemma latched_insert denied e : latched denied -> authority_error e -> latched (get_or_insert denied e).
Proof. intros H He x. destruct denied as [y|]; cbn; [apply H|by intros [= <-]]. Qed.

(** ** The loops *)
Section Loops.
Context {D Ow : Type} {HD : Disk D} {HV : DiskView D} {HW : ViewLaws D} {HL : DiskLaws D} {HQ : PollDisk D} {HPL : PollLaws D} {T : Type}.
Context (total : bool) (R : entry_relation) (N : intent) (v : Volume) (d : D).
Implicit Types (p : Publication D T) (c : Clients).

(** Enough fuel for a disk that settles every command at once. *)
Definition fueled (fuel : nat) p : Prop := total = true -> prompt (D := D) /\ (steps_left p < fuel)%nat.

Definition in_flight p : Prop := pub_within R N v d p /\ pb_phase p <> Uncertain.

Lemma flight_cancel p r q : in_flight p -> Publication_cancel p = (r, q) ->
  in_flight q /\ pb_result q = pb_result p /\ (steps_left q <= steps_left p)%nat /\ (exists a, r = Ok a).
Proof. intros [H Hu] E. destruct (cancel_within R N v d p r q H Hu E) as (H1 & H2 & H3 & H4 & H5 & _). done. Qed.

Lemma guard_live_spec slot peer context c now denied p x q : in_flight p -> latched denied -> guard_live slot peer context c now denied p = (x, q) ->
  exists dn, x = Ok dn /\ latched dn /\ in_flight q /\ pb_result q = pb_result p /\ (steps_left q <= steps_left p)%nat /\
    (dn = None -> live_guard slot peer context c now = Ok tt).
Proof.
  intros Hp Hd. unfold guard_live. pose proof (guard_total slot peer context c now) as Ht. pose proof (guard_error slot peer context c now) as He.
  destruct (live_guard _ _ _ _ _) as [[]|e|]; [intros [= <- <-]; by exists denied| |done]. destruct (Publication_cancel p) as [r p'] eqn:Ec.
  destruct (flight_cancel p r p' Hp Ec) as (H1 & H2 & H3 & [a ->]). cbn. intros [= <- <-]. eexists. split; [done|].
  split; [by apply latched_insert; [|apply He]|]. do 3 (split; [done|]). by destruct denied.
Qed.

(** One device turn of a publication in flight. *)
Lemma turn_spec fuel p y q : fueled (S fuel) p -> in_flight p -> is_live (pb_phase p) -> poll_advance p = (y, q) ->
  match y with
  | Pending | Ready (Ok _) => fueled fuel q /\ in_flight q
  | Ready (Err e) => wire_error e = FUncertain /\ pb_phase q = Uncertain
  | Ready Panic => False
  end /\ pub_within R N v d q /\ pb_result q = pb_result p.
Proof.
  intros Hf [Hp Hu] Hlive Ea. destruct (advance_within R N v d p y q Hp Ea) as [Hw Hy]. pose proof (advance_kept _ _ _ Ea) as Hk.
  split; [|done]. destruct y as [|[ph|e|]]; [| |destruct Hy as [-> ?]; done|done].
  - destruct Hy as [Hn ?]. split; [|done]. intros Ht. by destruct (Hf Ht) as [? _].
  - destruct Hy as (_ & ? & Hlt). split; [|done]. intros Ht. destruct (Hf Ht) as [? ?]. split; [done|]. specialize (Hlt Hlive). lia.
Qed.

Lemma fueled_less fuel p q : fueled fuel p -> (steps_left q <= steps_left p)%nat -> fueled fuel q.
Proof. intros Hf Hl Ht. destruct (Hf Ht). split; [done|lia]. Qed.

(** What a controlled loop may say of its publication when it fails. *)
Definition fails_as (e : FileError) p : Prop := (pb_phase p = Cancelled /\ authority_error e) \/ (e = FUncertain /\ pb_phase p = Uncertain).

Definition commit_ends (I : Ow -> Clients -> Prop) (slot : nat) (peer context : Z) p
    (o : option (outcome FileError (option FileError) * (Ow * Clients * Publication D T))) : Prop :=
  match o with
  | None => total = false
  | Some (r, (o, c, q)) => I o c /\ pub_within R N v d q /\ pb_result q = pb_result p /\
    match r with
    | Ok dn => pb_phase q = Committed /\ latched dn /\ (dn = None -> exists now, live_guard slot peer context c now = Ok tt)
    | Err e => fails_as e q
    | Panic => False
    end
  end.

Lemma commit_loop_spec (I : Ow -> Clients -> Prop) fuel control slot peer context o c p denied :
  (forall o c pending now c' o', I o c -> control o c pending = (now, c', o') -> I o' (Clients_expire c' now)) ->
  fueled fuel p -> in_flight p -> latched denied -> I o c ->
  commit_ends I slot peer context p (commit_loop fuel control slot peer context o c p denied).
Proof.
  intros HI. revert o c p denied. induction fuel as [|fuel IH]; intros o c p denied Hf Hp Hd Hc; cbn [commit_loop].
  { unfold fueled in Hf. cbn. destruct total; [|done]. destruct (Hf eq_refl). lia. }
  destruct (control o c (pb_pending p)) as [[now c1] o1] eqn:Ek. pose proof (HI _ _ _ _ _ _ Hc Ek) as Hc1. set (c2 := Clients_expire c1 now) in *.
  destruct (guard_live slot peer context c2 now denied p) as [x q] eqn:Eg.
  destruct (guard_live_spec _ _ _ _ _ _ _ _ _ Hp Hd Eg) as (dn & -> & Hdn & Hq & Er & Es & Hl). pose proof (fueled_less _ _ _ Hf Es) as Hfq.
  assert (Hgo : is_live (pb_phase q) -> commit_ends I slot peer context p
      match poll_advance q with
      | (Pending, p) | (Ready (Ok _), p) => commit_loop fuel control slot peer context o1 c2 p dn
      | (Ready (Err e), p) => Some (Err (wire_error e), (o1, c2, p))
      | (Ready Panic, p) => Some (Panic, (o1, c2, p))
      end).
  { intros Hlive. destruct (poll_advance q) as [y q'] eqn:Ea. destruct (turn_spec fuel q y q' Hfq Hq Hlive Ea) as (Hy & Hw & Hk). unfold commit_ends in *. rewrite <- Er, <- Hk.
    destruct y as [|[ph|e|]]; [| |destruct Hy as [-> ?]; unfold fails_as; by auto 10|done]; destruct Hy as [Hf' Hq']; by apply IH. }
  unfold is_live in Hgo. destruct Hq as [Hq Hu]. destruct (pb_phase q) eqn:Eph; try (apply Hgo; tauto); [|].
  - split; [done|]. split; [done|]. split; [done|]. split; [done|]. split; [done|]. intros ->. exists now. by apply Hl.
  - split; [done|]. split; [done|]. split; [done|]. left. split; [done|]. destruct dn as [e|]; cbn; [by apply Hdn|]. right; by left.
Qed.

(** *** The loop of admissions *)
(** The publication was told to stop, or did. *)
Definition halted p : Prop := pb_stopping p = true \/ pb_phase p = Cancelled.

Lemma advance_halted p r q : poll_advance p = (r, q) -> halted q -> halted p.
Proof.
  unfold poll_advance, Publication_drive, halted. intros E. repeat case_match; simplify_eq; unfold Publication_settle; repeat case_match; simplify_eq; cbn;
    intros [Ha|Ha]; (discriminate Ha || auto || congruence).
Qed.

(** The caller's authority is found lost. *)
Definition refused_caller (caller : option (Caller * Z)) (c : Clients) (now : Z) : Prop :=
  exists a need e, caller = Some (a, need) /\ Caller_check_right a c now need = Err e.

Lemma guard_caller_spec caller c now denied p x q : in_flight p -> latched denied -> guard_caller caller c now denied p = (x, q) ->
  exists dn, x = Ok dn /\ latched dn /\ in_flight q /\ pb_result q = pb_result p /\ (steps_left q <= steps_left p)%nat /\
    ((dn = denied /\ q = p) \/ (dn <> None /\ refused_caller caller c now)).
Proof.
  intros Hp Hd. unfold guard_caller. destruct caller as [[a need]|]; [|intros [= <- <-]; exists denied; auto 10].
  pose proof (right_total a c now need) as Ht. pose proof (right_error a c now need) as He.
  destruct (Caller_check_right a c now need) as [g|e|] eqn:E; [intros [= <- <-]; exists denied; auto 10| |done]. destruct (Publication_cancel p) as [r p'] eqn:Ec.
  destruct (flight_cancel p r p' Hp Ec) as (H1 & H2 & H3 & [y ->]). cbn. intros [= <- <-]. eexists. split; [done|].
  split; [by apply latched_insert; [|apply He]|]. do 3 (split; [done|]). right. split; [by destruct denied|by exists a, need, e].
Qed.

Lemma guard_stop_spec stop p x q : in_flight p -> guard_stop stop p = (x, q) ->
  x = Ok tt /\ in_flight q /\ pb_result q = pb_result p /\ (steps_left q <= steps_left p)%nat /\ (q = p \/ stop = true).
Proof.
  intros Hp. unfold guard_stop. destruct stop; [|intros [= <- <-]; auto 10]. destruct (Publication_cancel p) as [r p'] eqn:Ec.
  destruct (flight_cancel p r p' Hp Ec) as (H1 & H2 & H3 & [y ->]). cbn. intros [= <- <-]. auto 10.
Qed.

Definition drive_ends {L} (stops loses : Prop) (I : L -> Clients -> Prop) p (o : option (outcome FileError (Settled T) * (L * Clients * Publication D T))) : Prop :=
  match o with
  | None => total = false
  | Some (r, (l, c, q)) => I l c /\ pub_within R N v d q /\ pb_result q = pb_result p /\
    match r with
    | Ok s => latched (se_denied s) /\ (se_denied s <> None -> loses) /\
        ((pb_phase q = Committed /\ se_result s = Some (pb_result p)) \/ (pb_phase q = Cancelled /\ se_result s = None /\ (stops \/ se_denied s <> None)))
    | Err e => e = FUncertain /\ pb_phase q = Uncertain
    | Panic => False
    end
  end.

Lemma drive_loop_spec {L} (stops loses : Prop) (I : L -> Clients -> Prop) fuel control caller l c p denied :
  (forall l c phase pending now stop c' l', I l c -> control l c phase pending = (now, stop, c', l') ->
     I l' (Clients_expire c' now) /\ (stop = true -> stops) /\ (refused_caller caller (Clients_expire c' now) now -> loses)) ->
  fueled fuel p -> in_flight p -> latched denied -> (denied <> None -> loses) -> (halted p -> stops \/ denied <> None) -> I l c ->
  drive_ends stops loses I p (drive_loop fuel control caller l c p denied).
Proof.
  intros HI. revert l c p denied. induction fuel as [|fuel IH]; intros l c p denied Hf Hp Hd Hlo Hh Hc; cbn [drive_loop].
  { unfold fueled in Hf. cbn. destruct total; [|done]. destruct (Hf eq_refl). lia. }
  destruct (control l c (pb_phase p) (pb_pending p)) as [[[now stop] c1] l1] eqn:Ek. destruct (HI _ _ _ _ _ _ _ _ Hc Ek) as (Hc1 & Hst & Hre).
  set (c2 := Clients_expire c1 now) in *. destruct (guard_caller caller c2 now denied p) as [x q0] eqn:Eg.
  destruct (guard_caller_spec _ _ _ _ _ _ _ Hp Hd Eg) as (dn & -> & Hdn & Hq0 & Er0 & Es0 & Hg).
  assert (Hlo' : dn <> None -> loses) by (destruct Hg as [[-> _]|[_ ?]]; auto).
  assert (Hh0 : halted q0 -> stops \/ dn <> None) by (destruct Hg as [[-> ->]|[? _]]; auto).
  destruct (guard_stop stop q0) as [x q] eqn:Es. destruct (guard_stop_spec _ _ _ _ Hq0 Es) as (-> & Hq & Er & Es1 & Hs). rewrite Er0 in Er.
  assert (Hh1 : halted q -> stops \/ dn <> None) by (destruct Hs as [-> | ?]; auto).
  pose proof (fueled_less _ _ q Hf ltac:(lia)) as Hfq. destruct (finished_phase (pb_phase q)) eqn:Ef.
  - destruct Hq as [Hq _]. split; [done|]. split; [done|]. split; [done|]. split; [done|]. split; [done|]. cbn. unfold Publication_answer. rewrite <- Er.
    unfold halted in Hh1. destruct (pb_phase q); try done; [left|right]; (split; [done|]); [done|split; [done|auto]].
  - assert (Hlive : is_live (pb_phase q)). { destruct Hq as [_ Hu]. unfold is_live. destruct (pb_phase q); (done || tauto). }
    destruct (poll_advance q) as [y q'] eqn:Ea. destruct (turn_spec fuel q y q' Hfq Hq Hlive Ea) as (Hy & Hw & Hk). unfold drive_ends in *. rewrite <- Er, <- Hk.
    pose proof (advance_halted _ _ _ Ea) as Hhq.
    destruct y as [|[ph|e|]]; [| |destruct Hy as [-> ?]; by auto 10|done]; destruct Hy as [Hf' Hq']; apply IH; auto.
Qed.
End Loops.

(** ** Publishing from the service *)
Section Publishing.
Context {D Ow : Type} {HD : Disk D} {HV : DiskView D} {HW : ViewLaws D} {HL : DiskLaws D} {HQ : PollDisk D} {HPL : PollLaws D}.
Context (total : bool) (fuel : nat) (Hfuel : total = true -> prompt (D := D) /\ (17 < fuel)%nat) (I : Ow -> Clients -> Prop).
Implicit Types st : Service D Ow.

(** What a preparation must give. *)
Definition starts {T} R (N : T -> intent) (v : Volume) (d : D) (o : outcome FsError (Publication D T)) : Prop :=
  match o with Ok p => pub_within R (N (pb_result p)) v d p /\ pb_phase p <> Uncertain /\ ~ halted p | Err _ => True | Panic => False end.

Lemma starts_intro {T} R N v d (o : outcome FsError (Publication D T)) : prepares v d o -> (forall p, o = Ok p -> pub_within R (N (pb_result p)) v d p) -> starts R N v d o.
Proof.
  intros H Hw. destruct o as [p|e|]; [|done|done]. split; [by apply Hw|]. unfold halted. destruct H as [->|(next & ds & first & data & _ & _ & _ & _ & Es & E)]; [by split; [|intros [?|?]]|].
  rewrite E, Es. by split; [|intros [?|?]].
Qed.

Lemma starts_fueled {T} R N v d (p : Publication D T) : pub_within R N v d p -> fueled total fuel p.
Proof. intros Hp Ht. destruct (Hfuel Ht) as [Hpr Hf]. split; [done|]. pose proof (within_steps _ _ _ _ _ Hp). lia. Qed.

(** What a publication that answered left: the world it found, or the generation [N] holds of. *)
Definition published (N : intent) st st' : Prop := (it_replay N /\ world st' = world st) \/
  exists next after, it_next N next after /\ metadata_ok next /\ s_volume st' = mkVolume next (1 - vl_bank (s_volume st)) false /\ forall id, shows (world st') id = after id.

Lemma drop_published {T} (N N' : intent) st (q : Publication D T) o c : ((it_replay N /\ Publication_drop q = (s_volume st, s_disk st)) \/
    exists next after, it_next N next after /\ metadata_ok next /\ (Publication_drop q).1 = mkVolume next (1 - vl_bank (s_volume st)) false /\
      forall id, shows (Publication_drop q) id = after id) -> N = N' ->
  published N' st (set_world (set_clients (set_owner st o) c) (Publication_drop q)).
Proof. intros H <-. unfold published, world. cbn. rewrite (surjective_pairing (Publication_drop q)) in H. destruct H as [[? [= E1 E2]]|?]; [left; split; congruence|by right]. Qed.

(** The frame of a call that consults the owner: the disk's effect and the owner's invariant. *)
Record governed {A} R st (r : outcome FileError A) st' : Prop := {
  gv_owner : I (s_owner st') (s_clients st');
  gv_instance : s_instance st' = s_instance st;
  gv_bounded : bounded (as_found (world st)) R (world st) r (world st');
}.

Lemma commit_publication_wp {T} R N (prepare : Volume -> D -> outcome FsError (Publication D T)) control slot peer context st :
  (forall o c pending now c' o', I o c -> control o c pending = (now, c', o') -> I o' (Clients_expire c' now)) ->
  sound (world st) -> I (s_owner st) (s_clients st) -> starts R N (s_volume st) (s_disk st) (prepare (s_volume st) (s_disk st)) ->
  wp total (commit_publication fuel prepare control slot peer context) st (fun r st' => governed R st r st' /\
    match r with
    | Ok (t, dn) => (exists p, prepare (s_volume st) (s_disk st) = Ok p /\ pb_result p = t) /\ published (N t) st st' /\ latched dn /\
        vl_poisoned (s_volume st') = vl_poisoned (s_volume st) /\ (dn = None -> exists now, live_guard slot peer context (s_clients st') now = Ok tt)
    | _ => True
    end).
Proof.
  intros HI Hs Hc Hst. unfold wp, commit_publication. destruct (prepare (s_volume st) (s_disk st)) as [p|e|]; [|split; [done|]; split; [|done]|done].
  2: { split; [done|done|by apply bounded_same]. }
  cbn [stored_as map_err]. destruct Hst as (Hp & Hu & Hnh).
  pose proof (commit_loop_spec total R (N (pb_result p)) (s_volume st) (s_disk st) I fuel control slot peer context (s_owner st) (s_clients st) p None HI (starts_fueled _ _ _ _ p Hp) (conj Hp Hu) ltac:(by intros ?) Hc) as H.
  destruct (commit_loop _ _ _ _ _ _ _ _ _) as [[r [[o c] q]]|]; [|done]. destruct H as (Ho & Hq & Er & Hr).
  destruct (drop_effect R _ _ _ q Hq) as (He & Hcm & Hcn & _). rewrite (surjective_pairing (Publication_drop q)) in He, Hcn. unfold Publication_answer.
  destruct r as [dn|e|]; [destruct Hr as (Ec & Hl & Hg)|destruct Hr as [[Ec Ha]|[-> Ec]]|done]; rewrite Ec in *.
  - split; [done|]. split; [split; [done|done|]|].
    + by apply bounded_ok.
    + destruct (Hcm eq_refl) as [Hpo Hx]. split; [by exists p|]. split; [|done]. eapply drop_published; [|by rewrite Er]. exact Hx.
  - split; [done|]. split; [|done]. split; [done|done|]. destruct (Hcn eq_refl) as [Hn Hpo]. split; [done|]. intros x _ _. split; [exact Hn|]. exact (conj (f_equal vl_poisoned Hpo) (eq_sym Hpo)).
  - split; [done|]. split; [|done]. split; [done|done|]. split; [done|]. by intros e [= <-].
Qed.

(** What driving a publication to its end leaves; [stops] when its control may
    ask it to, [loses] when the caller's authority may be found lost. *)
Definition driven {T} (stops loses : Prop) N (prepare : Volume -> D -> outcome FsError (Publication D T)) st (s : Settled T) st' : Prop :=
  latched (se_denied s) /\ (se_denied s <> None -> loses) /\ vl_poisoned (s_volume st') = vl_poisoned (s_volume st) /\
  match se_result s with
  | Some t => (exists p, prepare (s_volume st) (s_disk st) = Ok p /\ pb_result p = t) /\ published (N t) st st'
  | None => effect nothing (world st) (world st') /\ s_volume st' = s_volume st /\ (stops \/ se_denied s <> None)
  end.

Lemma drive_stoppable_wp {T L} stops loses (J : Ow * L -> Clients -> Prop) R N (prepare : Volume -> D -> outcome FsError (Publication D T)) caller control (l : L) st :
  (forall l c, J l c -> I (l.1) c) ->
  (forall l c phase pending now stop c' l', J l c -> control l c phase pending = (now, stop, c', l') ->
     J l' (Clients_expire c' now) /\ (stop = true -> stops) /\ (refused_caller caller (Clients_expire c' now) now -> loses)) ->
  sound (world st) -> starts R N (s_volume st) (s_disk st) (prepare (s_volume st) (s_disk st)) -> J (s_owner st, l) (s_clients st) ->
  wp total (drive_stoppable fuel prepare caller control l) st (fun r st' => governed R st r st' /\
    match r with Ok (s, _) => driven stops loses N prepare st s st' | _ => True end).
Proof.
  intros HJ HI Hs Hst Hc. unfold wp, drive_stoppable. destruct (prepare (s_volume st) (s_disk st)) as [p|e|] eqn:Epr; [|split; [done|]; split; [|done]|done].
  2: { split; [by apply (HJ _ _ Hc)|done|by apply bounded_same]. }
  cbn [stored_as map_err]. destruct Hst as (Hp & Hu & Hnh).
  pose proof (drive_loop_spec total R (N (pb_result p)) (s_volume st) (s_disk st) stops loses J fuel control caller (s_owner st, l) (s_clients st) p None HI (starts_fueled _ _ _ _ p Hp)
    (conj Hp Hu) ltac:(by intros ?) ltac:(done) ltac:(done) Hc) as H.
  destruct (drive_loop _ _ _ _ _ _ _) as [[r [[[o l'] c] q]]|]; [|done]. destruct H as (Ho & Hq & Er & Hr). apply HJ in Ho.
  destruct (drop_effect R _ _ _ q Hq) as (He & Hcm & Hcn & _). rewrite (surjective_pairing (Publication_drop q)) in He, Hcn.
  destruct r as [s|e|]; [destruct Hr as (Hl & Hlo & [[Ec Es]|(Ec & Es & Hx)])|destruct Hr as [-> Ec]|done]; rewrite Ec in *.
  - split; [done|]. split; [split; [done|done|by apply bounded_ok]|]. destruct (Hcm eq_refl) as [Hpo Hx]. split; [done|]. split; [done|]. split; [done|]. rewrite Es.
    split; [by exists p|]. by eapply drop_published.
  - destruct (Hcn eq_refl) as [Hn Hpo]. split; [done|]. split; [split; [done|done|by apply bounded_ok]|]. split; [done|]. split; [done|].
    assert (Hv : s_volume (set_world (set_clients (set_owner st o) c) (Publication_drop q)) = s_volume st) by exact Hpo. split; [by rewrite Hv|]. by rewrite Es.
  - split; [done|]. split; [|done]. split; [done|done|]. split; [done|]. by intros e [= <-].
Qed.

Lemma drive_wp {T} loses R N (prepare : Volume -> D -> outcome FsError (Publication D T)) caller control st :
  (forall o c pending now c' o', I o c -> control o c pending = (now, c', o') ->
     I o' (Clients_expire c' now) /\ (refused_caller caller (Clients_expire c' now) now -> loses)) ->
  sound (world st) -> I (s_owner st) (s_clients st) -> starts R N (s_volume st) (s_disk st) (prepare (s_volume st) (s_disk st)) ->
  wp total (drive fuel prepare caller control) st (fun r st' => governed R st r st' /\
    match r with Ok s => driven False loses N prepare st s st' | _ => True end).
Proof.
  intros HI Hs Hc Hst. unfold drive. apply wp_bind. eapply wp_mono; [apply (drive_stoppable_wp False loses (fun l => I (l.1)) R N)|]; try done.
  - intros [o l] c phase pending now stop c' l' Ho. unfold plain_stop. cbn [fst]. destruct (control o c pending) as [[n c1] o1] eqn:E. intros [= <- <- <- <-].
    destruct (HI _ _ _ _ _ _ Ho E). done.
  - intros r st' Hr [[G1 G2 G3] Hp]. destruct r as [[s []]|e|]; [apply wp_ret; [done|]| |done]; (split; [split; [done|done|eapply bounded_retype; [exact G3|by intros ? [= <-]]]|done]).
Qed.
End Publishing.

(** ** The storage calls of a request

    What each synchronous storage call of the server does to the file system,
    as the error it returns on the wire tells it. *)
(** A new entry in [parent]. *)
Definition created (parent : Z) : entry_relation := fun _ a b => a = None /\ exists e, b = Some e /\ en_parent e = parent.

Lemma wire_certain e : wire_error e <> FUncertain -> e <> EUncertain.
Proof. intros H ->. by apply H. Qed.

Lemma stored_error {A} (r : outcome FsError A) e : stored_as r = Err e -> exists x, r = Err x /\ e = wire_error x.
Proof. destruct r; [done|intros [= <-]; by eexists|done]. Qed.

Lemma stored_ok {A} (r : outcome FsError A) a : stored_as r = Ok a <-> r = Ok a.
Proof. destruct r; cbn; split; congruence. Qed.

Lemma stored_total {A} (r : outcome FsError A) : r <> Panic -> stored_as r <> Panic.
Proof. by destruct r. Qed.

Section Storage.
Context {D : Type} {HD : Disk D} {HV : DiskView D} {HW : ViewLaws D} {HL : DiskLaws D}.
Implicit Types (d : D) (v : Volume) (w : Volume * D).

Lemma sound_volume_ok w : sound w -> volume_ok (w.1).
Proof. intros H Hp. destruct w as [v d]. apply (rs_ok _ _ _ (sound_rest _ _ H Hp)). Qed.

(** A refinement that is certain about its errors. *)
Lemma bounded_refines {T} R w (r : outcome FsError T) w' after : sound w -> settles w r w' -> (vl_poisoned (w.1) = false -> refines w r w' after) ->
  (vl_poisoned (w.1) = false -> alters R (shows w) after) -> (vl_poisoned (w.1) = true -> w' = w) -> bounded (as_found w) R w (stored_as r) w'.
Proof.
  intros H Hs Hf Ha Hp. split; [by eapply effect_refines|]. intros e He Hu. apply stored_error in He as (x & -> & ->). apply wire_certain in Hu.
  assert (w' = w) as ->; [|by split; [apply effect_refl|]]. destruct (vl_poisoned (w.1)) eqn:E; [by apply Hp|]. by eapply refines_error; [apply Hf|..].
Qed.

Lemma create_bounded w parent name kind r w' : sound w -> Volume_create w parent name kind = (r, w') ->
  r <> Panic /\ sound w' /\ bounded (as_found w) (created parent) w (stored_as r) w' /\ (forall n, r = Ok n -> live_node n).
Proof.
  intros H E. destruct (create_settles w parent name kind r w' H E) as [Hr Ht]. destruct (create_refines_spec w parent name kind r w' H E) as (after & Hf & Hl & Ha).
  split; [done|]. split; [by eapply rtc_sound|]. split; [|done]. eapply (bounded_refines _ _ _ _ after); [done|done|done| |].
  - intros _. destruct Ha as [[-> _]|(id & p & _ & _ & _ & Hn & -> & _)]; [apply alters_refl|]. intros k. unfold spec_create, created.
    destruct (Z.eqb_spec k id) as [->|]; [right|by left]. split; [done|]. by eexists.
  - intros Hp. unfold Volume_create, prepare_create, Volume_writable, Volume_stat, Volume_ready in E. rewrite Hp in E. by repeat case_match; simplify_eq.
Qed.

Lemma remove_bounded w id r w' : sound w -> Volume_remove w id = (r, w') -> r <> Panic /\ sound w' /\ bounded (as_found w) (only id) w (stored_as r) w'.
Proof.
  intros H E. destruct (remove_settles w id r w' H E) as [Hr Ht]. destruct (remove_refines_spec w id r w' H E) as [Hf _].
  split; [done|]. split; [by eapply rtc_sound|]. eapply (bounded_refines _ _ _ _ (spec_remove (shows w) id)); [done|done|done| |].
  - intros _ k. unfold spec_remove, only. destruct (Z.eqb_spec k id); [by right|by left].
  - intros Hp. unfold Volume_remove, prepare_remove, Volume_writable, Volume_stat, Volume_ready in E. rewrite Hp in E. by repeat case_match; simplify_eq.
Qed.

Lemma replace_bounded w id version bytes : sound w -> bytes_ok bytes ->
  exists r w', Volume_replace w id version bytes = Some (r, w') /\ r <> Panic /\ sound w' /\ bounded (as_found w) (only id) w (stored_as r) w' /\
    (forall n, r = Ok n -> live_node n /\ (vl_poisoned (w'.1) = false /\ forall k, shows w' k = spec_replace (shows w) id (Volume_sequence (w.1) + 1) bytes k)).
Proof.
  intros H Hb. destruct (replace_refines_spec w id version bytes H Hb) as (r & w' & E & Hf & Hn). exists r, w'. split; [done|].
  destruct (perform_settles (CallReplace id version bytes) w H Hb) as (r0 & w0 & E0 & Hr0 & Ht). cbn in E0. rewrite E in E0. injection E0 as <- <-.
  assert (Hr : r <> Panic) by (by intros ->). split; [done|]. split; [by eapply rtc_sound|]. split.
  - eapply (bounded_refines _ _ _ _ (spec_replace (shows w) id (Volume_sequence (w.1) + 1) bytes)); [done|done|done|intros _; apply replace_alters|].
    intros Hp. unfold Volume_replace, prepare_replace, prepare_recorded, plan_recorded, Volume_writable, Volume_stat, Volume_ready in E. rewrite Hp in E.
    by injection E as <- <-.
  - intros n ->. destruct (Hn n eq_refl) as (_ & _ & Hl & _). destruct Hf as (_ & ? & ?). done.
Qed.

Lemma fits_sequence a b q : 0 <= a -> 0 <= b -> checked_add a b = Some q -> fits 64 q.
Proof. intros Ha Hb E. apply checked_add_Some in E as [-> H]. unfold fits, u64_max in *. lia. Qed.

Lemma recorded_phase {T} v d id version bytes base (output : Node -> T) p : prepare_recorded v d id version bytes base output = Ok p -> pb_phase p = Preparing.
Proof.
  unfold prepare_recorded. destruct (plan_recorded _ _ _ _ _) as [[[next first] x]|e|]; intros E; [|discriminate E..].
  assert (H : forall q : Publication D T, @Ok FsError _ q = Ok p -> pb_phase q = Preparing -> pb_phase p = Preparing) by congruence.
  exact (H _ E eq_refl).
Qed.

(** A recorded replacement, run to its end. *)
Lemma recorded_run {T} v d id version bytes base (output : Node -> T) : sound (v, d) -> vl_poisoned v = false ->
  prepares v d (prepare_recorded v d id version bytes base output) -> m_nodes base = m_nodes (vl_metadata v) ->
  exists r w', prepared_run (v, d) (prepare_recorded v d id version bytes base output) = Some (r, w') /\ bounded (as_found (v, d)) (only id) (v, d) (stored_as r) w'.
Proof.
  intros H Hp Hok Eb. destruct (run_settles v d _ H Hok) as (r & w' & E & Hs). exists r, w'. split; [done|].
  destruct (prepare_recorded v d id version bytes base output) as [p|e|] eqn:Ep; [|injection E as <- <-; by apply bounded_same|done].
  destruct (recorded_within v d id version bytes base output p H Hok Eb Ep) as [_ Hw]. rewrite prepared_run_ok in E.
  assert (Hrep : pb_phase p = Preparing) by (eapply recorded_phase, Ep).
  destruct Hok as [Hx|(? & ? & ? & ? & _ & _ & _ & H1 & H2 & H3)]; [by rewrite Hx in Hrep|].
  destruct Hw as [[[] _]|(next & ds & first & data & after & _ & HP & Hst & Hafter & Ha & _)].
  destruct (run_published v d next ds first data p (sound_rest _ _ H Hp) HP Hst H1 H2 H3) as (r1 & w1 & E1 & Hpub). rewrite E1 in E. injection E as -> ->.
  eapply (bounded_refines _ _ _ _ after); [done|done| |done|intros Hx; cbn in Hx; congruence].
  intros _. by eapply published_refines.
Qed.

Lemma tracked_bounded w subject retry id version bytes : sound w -> client_ok subject retry bytes -> lineage_fits (ry_lineage retry) -> fits 64 (ry_epoch retry) -> fits 32 id -> fits 64 version ->
  exists r w', replace_tracked w subject retry id version bytes = Some (r, w') /\ r <> Panic /\ sound w' /\ bounded (as_found w) (only id) w (stored_as r) w' /\
    ((exists x, Volume_receipt (w.1) subject retry = Ok x) -> bounded (as_found w) nothing w (stored_as r) w') /\ (forall x, r = Ok x -> receipt_fits x).
Proof.
  intros H C Fl Fe Fi Fv. destruct (tracked_settles (w.1) (w.2) subject retry id version bytes) as (r & w' & E & Hr & Ht); [by rewrite <- surjective_pairing|done|].
  rewrite <- surjective_pairing in E, Ht. exists r, w'. split; [done|]. split; [done|]. split; [by eapply rtc_sound|].
  destruct w as [v d]. unfold replace_tracked, Volume_ready in E. unfold Volume_receipt, Volume_ready. cbn [fst snd] in *.
  assert (Hsame : forall x : outcome FsError FsReceipt, Some (x, (v, d)) = Some (r, w') -> (forall y, x = Ok y -> receipt_fits y) ->
    forall P : Prop, bounded (as_found (v, d)) (only id) (v, d) (stored_as r) w' /\ (P -> bounded (as_found (v, d)) nothing (v, d) (stored_as r) w') /\ forall y, r = Ok y -> receipt_fits y).
  { intros x [= -> <-] Hx P. split; [by apply bounded_same|]. split; [intros _; by apply bounded_same|done]. }
  destruct (vl_poisoned v) eqn:Hp; [by eapply Hsame|]. destruct (Nat.ltb_spec MAX_FILE (length bytes)); [by eapply Hsame|].
  pose proof (sound_volume_ok _ H Hp) as Hm. cbn [fst] in Hm.
  destruct (m_recovery (vl_metadata v)) as [y|] eqn:Er; [|eapply Hsame; [exact E|done]]. cbn [ok_or] in *.
  destruct (Recovery_find y subject retry) as [[x|]|e|] eqn:Ef; [|  |by (eapply Hsame; [exact E|])|by injection E as <- <-].
  - destruct (_ || _); [by eapply Hsame|]. eapply Hsame; [exact E|]. intros z [= <-]. unfold Recovery_find in Ef. destruct (_ || _); [done|]. destruct (negb _); [done|].
    destruct (List.find _ _) as [u|] eqn:F; [|by destruct (negb _)]. injection Ef as ->. apply find_slot in F as [_ [i Hi]]. by eapply retained_fits.
  - destruct (position _ _) as [slot|] eqn:Hpos; [|by (eapply Hsame; [exact E|])]. cbn [ok_or] in E. destruct (checked_add _ _) as [q|] eqn:Hq; [|by (eapply Hsame; [exact E|])]. cbn [ok_or] in E.
    unfold replace_recorded in E. cbn [fst snd] in E. set (base := store_record _ _ _ _) in E.
    assert (Hok : prepares v d (prepare_recorded v d id version bytes base (fun n => n))).
    { apply recorded_prepared; [done|by apply planned_total|]. intros next first x _ _ Ep. by eapply tracked_publishable. }
    assert (Hfit : receipt_fits (mkFsReceipt retry id version q (Z.of_nat (length bytes)))).
    { split; cbn; try done; [split; [done|apply C]|unfold MAX_FILE in *; lia|]. eapply fits_sequence; [| |exact Hq]; [apply (mo_sequence _ Hm)|lia]. }
    split; [|split; [by intros [? ?]|]].
    + destruct (recorded_run v d id version bytes base (fun n => n) H Hp Hok eq_refl) as (r1 & w1 & E1 & Hb). rewrite E1 in E.
      destruct r1 as [n|e|]; injection E as <- <-; [by eapply bounded_retype|eapply bounded_retype; [exact Hb|by intros ? [= <-]]|done].
    + intros x ->. destruct (prepared_run _ _) as [[[n|e|] w1]|]; [|done..]. injection E as <- <-. exact Hfit.
Qed.

(** A read leaves the disk as it was. *)
Lemma stat_live v id n : volume_ok v -> Volume_stat v id = Ok n -> live_node n /\ n_id n = id.
Proof.
  intros Hv. unfold Volume_stat, Volume_ready. destruct (vl_poisoned v) eqn:Hp; [done|]. intros E. destruct (node_of_has _ _ _ E) as [Hh Hid].
  split; [by eapply has_valid; [apply Hv|]|done].
Qed.

Lemma lookup_live v parent name n : volume_ok v -> Volume_lookup v parent name = Ok n -> live_node n.
Proof.
  intros Hv E. unfold Volume_lookup in E. destruct (Volume_ready v) as [[]| |] eqn:Er; [|done..]. destruct (valid_name name); [|done..].
  destruct (if parent =? 0 then _ else _); [|done..]. destruct (List.find _ _) as [x|] eqn:F; [|done]. injection E as <-. apply List.find_some in F as [Hi Hn].
  unfold named in Hn. bools. apply list_elem_of_In, list_elem_of_lookup in Hi as [k Hk]. eapply has_valid; [by apply Hv, ready_ok|]. by exists k.
Qed.

Lemma read_sectors_bytes d start count b d' : read_sectors d start count = (Ok b, d') -> bytes_ok b.
Proof.
  intros E. destruct (read_sectors_reads d start count (contents d) ltac:(done)) as [_ Hr]. rewrite E in Hr. cbn in Hr.
  destruct Hr as [[= ->]|(e & He & _)]; [|done]. apply sectors_length, contents_ok.
Qed.

Lemma read_bounded v d id expected offset output r d' : sound (v, d) -> Volume_read_versioned v d id expected offset output = (r, d') ->
  r <> Panic /\ undisturbed d d' /\ forall n b, r = Ok (n, b) -> live_node n /\ n_id n = id /\ (length b <= output)%nat /\ bytes_ok b.
Proof.
  intros H E. pose proof (sound_volume_ok _ H) as Hv. cbn in Hv. unfold Volume_read_versioned in E. pose proof (stat_total v id) as Ht.
  assert (Hq : undisturbed d d) by done.
  destruct (Volume_stat v id) as [n|e|] eqn:En; [|by injection E as <- <-|done]. destruct (stat_live v id n Hv En) as [Ln Hid].
  destruct (match expected with Some _ => _ | None => _ end); [by injection E as <- <-|].
  destruct (negb _); [by injection E as <- <-|]. destruct (_ <? _)%nat; [by injection E as <- <-|].
  destruct (_ =? _); [injection E as <- <-; split; [done|]; split; [done|]; intros ? ? [= <- <-]; split; [done|]; split; [done|]; split; [cbn; lia|constructor]|].
  pose proof (index_total (vl_metadata v) id) as Hi.
  destruct (Metadata_index _ _) as [slot|e|]; [|by injection E as <- <-|done].
  destruct (read_sectors _ _ _) as [x d1] eqn:Es. destruct (read_sectors_quiet _ _ _ _ _ Es) as [Hx U].
  destruct x as [b|e|]; [|by injection E as <- <-|done]. pose proof (read_sectors_bytes _ _ _ _ _ Es) as B.
  destruct (negb _); injection E as <- <-; (split; [done|]; split; [done|]); [done|]. intros ? ? [= <- <-]. split; [done|]. split; [done|].
  split; [unfold slice; rewrite length_take; lia|by apply bytes_ok_slice].
Qed.
End Storage.
