(* ===== verification/SvcServe.v ===== *)
(** * What one request may do

    Weakest preconditions of the handlers behind [Server::handle]: none of
    them panics, the clients' grants never change, and the file system changes
    only where the request's own grant allows. *)
From stdpp Require Import base list option numbers relations.
From Stdlib Require Import ZArith Lia Bool.
From S2P Require Import Prelude Bytes Codec AbiFiles AbiIdentity AbiMessages AbiReceipts AbiAdmission AbiServices FsDisk FsNode FsRecovery FsFormat FsVolume FsPublication FsTree FsInvariant FsReach FsCalls FsSpec SvcClients SvcServer SvcClientsFacts SvcReplies SvcEffect SvcControl.

(** ** Functions that never panic *)
Create HintDb total.

Lemma access_total g v id write : FileGrant_access g v id write <> Panic.
Proof. unfold FileGrant_access. by destruct (_ || _). Qed.
Lemma inspect_total g v id : FileGrant_inspect g v id <> Panic.
Proof. unfold FileGrant_inspect. by destruct (_ || _). Qed.
Lemma scope_total g v w o r : operation_scope g v w o r <> Panic.
Proof. unfold operation_scope. by destruct (_ || _). Qed.
Lemma mapped_total {E F A} (f : E -> F) (r : outcome E A) : r <> Panic -> map_err f r <> Panic.
Proof. by destruct r. Qed.
Lemma bound_total {E A B} (r : outcome E A) (k : A -> outcome E B) : r <> Panic -> (forall a, r = Ok a -> k a <> Panic) -> (let? a := r in k a) <> Panic.
Proof. destruct r; [intros _ H; by apply H|done|done]. Qed.
Lemma ok_total {E A} (a : A) : @Ok E A a <> Panic.
Proof. done. Qed.
Lemma err_total {E A} (e : E) : @Err E A e <> Panic.
Proof. done. Qed.
Lemma or_total {E A} (o : option A) (e : E) : ok_or o e <> Panic.
Proof. by destruct o. Qed.
Lemma info_total v : recovery_info v <> Panic.
Proof. unfold recovery_info, Volume_ready. destruct (vl_poisoned v); [done|]. by destruct (m_recovery _). Qed.
Lemma receipt_total v s r : Volume_receipt v s r <> Panic.
Proof.
  unfold Volume_receipt, Volume_ready. destruct (vl_poisoned v); [done|]. destruct (m_recovery _) as [y|]; [|done]. cbn [ok_or].
  pose proof (find_total y s r). destruct (Recovery_find y s r) as [o| |]; [by destruct o|done|done].
Qed.
Lemma operation_id_total v s l c : operation_by_id v s l c <> Panic.
Proof.
  unfold operation_by_id, Volume_ready, scoped_recovery. destruct (vl_poisoned v); [done|]. destruct (m_recovery _) as [r|]; [|done].
  destruct (rv_scoped r); [|done]. destruct (_ || _); [done|]. destruct (negb _); [done|]. destruct (List.find _ _) as [x|]; [|done]. cbn [ok_or].
  unfold Record_operation. destruct (rd_namespace x); [|done]. cbn. destruct (rd_admission x) as [a|]; [|done]. by destruct (so_state a).
Qed.
Lemma admission_id_total v s i : admission_by_id v s i <> Panic.
Proof.
  unfold admission_by_id, admission_record. pose proof (admission_slot_total v s i). destruct (admission_slot v s i) as [slot| |] eqn:E; [|done|done].
  destruct (admission_slot_spec _ _ _ _ E) as (r & x & a & -> & Hx & _). rewrite Hx. apply view_total.
Qed.
Lemma instance_total l n : Instance_new l n <> Panic.
Proof. unfold Instance_new, OperationId_new. by destruct (_ || _). Qed.
Lemma adm_new_total l n : AdmissionId_new l n <> Panic.
Proof. unfold AdmissionId_new. by destruct (_ || _). Qed.
Lemma id_decode_total p : AdmissionId_decode p <> Panic.
Proof. unfold AdmissionId_decode. destruct (_ || _); [done|apply adm_new_total]. Qed.
Lemma lookup_decode_total p : Lookup_decode p <> Panic.
Proof. unfold Lookup_decode, Workspace_new, Epoch_new, Key_new, OperationId_new. by repeat case_match. Qed.
Lemma request_decode_total p : ReadRequest_decode p <> Panic.
Proof. apply (msg_total _ _ _ ReadRequest_message). Qed.
Lemma references_new_total l w o : References_new l w o <> Panic.
Proof. unfold References_new, Workspace_new, Resource_new. by repeat case_match. Qed.
Lemma references_packet_total r c : References_packet r c <> Panic.
Proof. unfold References_packet, References_request. by repeat case_match. Qed.
Lemma header_packet_total h c : ReadHeader_packet h c <> Panic.
Proof. unfold ReadHeader_packet. by destruct (_ || _). Qed.
Lemma version_total n : Version_new n <> Panic.
Proof. unfold Version_new. by destruct (_ =? 0). Qed.
Lemma epoch_total n : Epoch_new n <> Panic.
Proof. unfold Epoch_new. by destruct (_ =? 0). Qed.
Lemma workspace_total l n : Workspace_new l n <> Panic.
Proof. unfold Workspace_new. by destruct (_ || _). Qed.
Lemma operation_new_total l n : OperationId_new l n <> Panic.
Proof. unfold OperationId_new. by destruct (_ || _). Qed.
Lemma resource_total w n : Resource_new w n <> Panic.
Proof. unfold Resource_new. by destruct (_ =? 0). Qed.
Lemma key_total n : Key_new n <> Panic.
Proof. unfold Key_new. by destruct (_ =? 0). Qed.
Lemma status_total s op c : Status_packet s op c <> Panic.
Proof. unfold Status_packet, Status_validate. by repeat case_match. Qed.
Lemma part_total o op c i : FileOperation_part o op c i <> Panic.
Proof. unfold FileOperation_part, FileOperation_encode. by repeat case_match. Qed.
Lemma capabilities_total c x : Capabilities_packet c x <> Panic.
Proof. unfold Capabilities_packet. by destruct (bounds_bad _). Qed.
Lemma retained_total v i : retained_admission v i <> Panic.
Proof.
  unfold retained_admission. pose proof (admissions_total v). destruct (Volume_admissions v) as [r| |]; [|done|done]. destruct (rv_records r !! i) as [[x|]|]; cbn [ok_or]; [|done..].
  destruct (is_none _); [done|]. pose proof (view_total x). by destruct (admission_view x).
Qed.
Lemma negotiation_total p : negotiation_decode_request p <> Panic.
Proof. apply (msg_total _ _ _ negotiation_message). Qed.
Lemma descriptor_packet_total d c : Descriptor_packet d c <> Panic.
Proof. unfold Descriptor_packet, Descriptor_validate, negotiation_request. by repeat case_match; repeat match goal with H : reviewed_digest ?m = Panic |- _ => destruct m; done end. Qed.

#[export] Hint Resolve workspace_total operation_new_total resource_total key_total access_total inspect_total scope_total mapped_total stored_total bound_total ok_total err_total or_total info_total receipt_total
  operation_total operation_id_total admissions_total admission_retry_total admission_id_total instance_total adm_new_total id_decode_total lookup_decode_total
  request_decode_total references_new_total references_packet_total header_packet_total version_total epoch_total status_total part_total capabilities_total
  retained_total negotiation_total descriptor_packet_total stat_total lookup_total resolve_total within_total writable_total replacement_total retry_total
  begin_total take_total grant_check_total : total.

(** ** Frames *)
Definition same_authority (c c' : Clients) : Prop := cl_grants c' = cl_grants c /\ cl_roots c' = cl_roots c /\ cl_next c' = cl_next c.

Lemma authority_grant c c' i : same_authority c c' -> Clients_grant_at c' i = Clients_grant_at c i.
Proof. intros [E _]. unfold Clients_grant_at. by rewrite E. Qed.

Lemma authority_staging c t : same_authority c (set_transfers c t).
Proof. done. Qed.

Lemma authority_trans a b c : same_authority a b -> same_authority b c -> same_authority a c.
Proof. unfold same_authority. intuition congruence. Qed.

Section Serve.
Context {D Ow : Type} {HD : Disk D} {HV : DiskView D} {HW : ViewLaws D} {HL : DiskLaws D} {HS : Digest} {HSL : DigestLaws}.
Implicit Types st : Service D Ow.

(** What a refusal may leave of the staging, and which requests take a transfer first. *)
Context (Spare : Clients -> Clients -> Prop) (T : nat -> Packet -> Prop) (Spare_refl : forall c, Spare c c)
  (Spare_take : forall c0 c slot p s t, T slot p -> Spare c0 c -> Transfers_take (cl_transfers c) slot p = Ok (s, t) -> Spare c0 (set_transfers c t)).

Record service_ok st : Prop := {
  sv_sound : sound (world st);
  sv_clients : clients_ok (s_clients st);
  sv_instance : fits 64 (s_instance st);
}.

(** Nothing changed since [st0] that a refusal may not leave. *)
Record stays st0 st : Prop := {
  st_ok : service_ok st;
  st_authority : same_authority (s_clients st0) (s_clients st);
  st_staging : Spare (s_clients st0) (s_clients st);
  st_owner : s_owner st = s_owner st0;
  st_instance : s_instance st = s_instance st0;
  st_world : world st = world st0;
}.

Lemma stays_refl st : service_ok st -> stays st st.
Proof. by split. Qed.

Lemma stays_volume st0 st : stays st0 st -> s_volume st = s_volume st0.
Proof. intros H. pose proof (st_world _ _ H) as E. by injection E. Qed.

(** What a call that began in [st0] left behind. *)
Record framed {A} (R : entry_relation) st0 (r : outcome FileError A) st : Prop := {
  fr_service : service_ok st;
  fr_authority : same_authority (s_clients st0) (s_clients st);
  fr_owner : s_owner st = s_owner st0;
  fr_instance : s_instance st = s_instance st0;
  fr_staging : forall e, r = Err e -> Spare (s_clients st0) (s_clients st);
  fr_bounded : bounded (as_found (world st0)) R (world st0) r (world st);
}.

Definition served (R : entry_relation) (p : Packet) st0 (r : outcome FileError Packet) st : Prop :=
  framed R st0 r st /\ forall reply, r = Ok reply -> reply_ok p reply.

Lemma stays_framed {A} R st0 st (r : outcome FileError A) : stays st0 st -> framed R st0 r st.
Proof. intros [[] ? ? ? ? E]. split; try done. rewrite E. apply bounded_same; [by rewrite <- E|done]. Qed.

Lemma served_error R p st0 st e : stays st0 st -> served R p st0 (Err e) st.
Proof. intros H. split; [by apply stays_framed|done]. Qed.

Lemma served_reply R p st0 st reply : stays st0 st -> reply_ok p reply -> served R p st0 (Ok reply) st.
Proof. intros H Hr. split; [by apply stays_framed|by intros ? [= <-]]. Qed.

Lemma served_weaken R R' p st0 r st : weaker R R' -> served R p st0 r st -> served R' p st0 r st.
Proof. intros Hw [[] Hr]. split; [split; try done; by eapply bounded_weaken|done]. Qed.

Section Rules.
Context (t : bool) (R : entry_relation) (p : Packet) (st0 : Service D Ow).

Lemma serve_pure_reply st (o : outcome FileError Packet) : stays st0 st -> o <> Panic -> (forall reply, o = Ok reply -> reply_ok p reply) ->
  wp t (pure o) st (served R p st0).
Proof. intros H Ht Hr. apply wp_ret; [done|]. destruct o; [by apply served_reply; [|apply Hr]|by apply served_error|done]. Qed.

Lemma serve_pure {A} st (o : outcome FileError A) (k : A -> serving D Ow Packet) : stays st0 st -> o <> Panic ->
  (forall a, o = Ok a -> wp t (k a) st (served R p st0)) -> wp t (call_bind (pure o) k) st (served R p st0).
Proof. intros H Ht Hk. apply wp_pure; [done| |done]. intros e _. by apply served_error. Qed.

Lemma serve_get st (k : Service D Ow -> serving D Ow Packet) : wp t (k st) st (served R p st0) -> wp t (call_bind call_get k) st (served R p st0).
Proof. apply wp_get_bind. Qed.

Lemma serve_stage st f reply : stays st0 st -> f (cl_transfers (s_clients st)) <> Panic ->
  (forall x, f (cl_transfers (s_clients st)) = Ok x -> clients_ok (set_transfers (s_clients st) x)) -> reply_ok p reply ->
  wp t (let! _ := stage f in pure (Ok reply)) st (served R p st0).
Proof.
  intros H Ht Hc Hr. apply wp_bind. unfold stage. apply wp_get_bind. apply wp_pure; [done|intros e _; by apply served_error|]. intros x Hx.
  apply wp_put, wp_ret; [done|]. destruct H as [Hs Ha _ Ho Hi Ew]. split; [|by intros ? [= <-]].
  split; [split; [apply Hs|by apply Hc|apply Hs]|exact Ha|exact Ho|exact Hi|done|]. change (world (set_clients _ _)) with (world st). rewrite Ew. apply bounded_ok, effect_refl. rewrite <- Ew. apply Hs.
Qed.

Lemma serve_take st slot (k : Transfer -> serving D Ow Packet) : stays st0 st -> T slot p ->
  (forall s st', stays st0 st' -> owns (s_clients st) slot s -> transfer_ok (s_clients st) s -> tf_id s = p_id p -> tf_context s = p_context p ->
     tf_received s = tf_total s -> is_some (tf_logical s) = (p_op p =? REPLACE_COMMIT) || (p_op p =? ADM_ACCEPT) ->
     wp t (k s) st' (served R p st0)) -> wp t (call_bind (take_transfer slot p) k) st (served R p st0).
Proof.
  intros H HT Hk. apply wp_bind. unfold take_transfer. apply wp_get_bind. apply wp_pure; [apply take_total|intros e _; by apply served_error|].
  intros [s x] Hx. destruct (take_spec _ _ _ _ _ (sv_clients _ (st_ok _ _ H)) Hx) as (Hc & Ho & Ht & _ & E1 & E2 & E3 & _ & E5).
  apply wp_put_bind. apply wp_ret; [done|]. apply Hk; try done. destruct H as [[] ? ? ? ? ?]. split; [by split|done|by eapply Spare_take|done|done|done].
Qed.
End Rules.

(** The error of a storage call keeps its meaning; its success is a new world. *)
Lemma storage_served {A} t R p st0 st (f : Volume * D -> outcome FsError A * (Volume * D)) (k : A -> serving D Ow Packet) (P : A -> Prop) :
  stays st0 st ->
  (forall r w', f (world st0) = (r, w') -> r <> Panic /\ sound w' /\ bounded (as_found (world st0)) R (world st0) (stored_as r) w' /\ forall a, r = Ok a -> P a) ->
  (forall a, P a -> forall st', wp t (k a) st' (fun r st'' => st'' = st' /\ exists reply, r = Ok reply /\ reply_ok p reply)) ->
  wp t (call_bind (storage f) k) st (served R p st0).
Proof.
  intros H Hf Hk. apply wp_bind. unfold wp, storage. rewrite (st_world _ _ H). destruct (f (world st0)) as [r w'] eqn:E.
  destruct (Hf r w' eq_refl) as (Hr & Hs & Hb & Hp). split; [by apply stored_total|].
  assert (Hfr : forall B (x : outcome FileError B), bounded (as_found (world st0)) R (world st0) x w' -> framed R st0 x (set_world st w')).
  { intros B x Hx. destruct H as [[] ? ? ? ? ?]. unfold world in *. destruct w'. split; [split; done|done|done|done|done|done]. }
  destruct r as [a|e|]; [|split; [apply Hfr; eapply bounded_retype; [exact Hb|by intros ? [= <-]]|done]|done]. cbn [stored_as map_err] in *. specialize (Hk a (Hp a eq_refl) (set_world st w')).
  eapply wp_mono; [exact Hk|]. intros r st' _ (-> & reply & -> & Hok). split; [|by intros ? [= <-]]. apply Hfr. by eapply bounded_retype.
Qed.

Lemma storage_run_served {A} t R p st0 st (f : Volume * D -> option (outcome FsError A * (Volume * D))) (k : A -> serving D Ow Packet) (P : A -> Prop) :
  stays st0 st ->
  (exists r w', f (world st0) = Some (r, w') /\ r <> Panic /\ sound w' /\ bounded (as_found (world st0)) R (world st0) (stored_as r) w' /\ forall a, r = Ok a -> P a) ->
  (forall a, P a -> forall st', wp t (k a) st' (fun r st'' => st'' = st' /\ exists reply, r = Ok reply /\ reply_ok p reply)) ->
  wp t (call_bind (storage_run f) k) st (served R p st0).
Proof.
  intros H (r & w' & E & Hf) Hk. pose proof (storage_served t R p st0 st (fun _ => (r, w')) k P H) as Hg.
  unfold wp, call_bind, storage_run in *. unfold storage in Hg. rewrite (st_world _ _ H), E. apply Hg; [|done]. by intros ? ? [= <- <-].
Qed.

Lemma answers_now t (reply p : Packet) st : reply_ok p reply ->
  wp t (pure (Ok reply)) st (fun r (st' : Service D Ow) => st' = st /\ exists x, r = Ok x /\ reply_ok p x).
Proof. intros H. apply wp_ret; [done|]. split; [done|]. by exists reply. Qed.

(** ** Reading *)
Lemma read_served t R p st0 st id expected offset count (k : Node * list Z -> serving D Ow Packet) : stays st0 st ->
  (forall n b, live_node n -> n_id n = id -> (length b <= count)%nat -> bytes_ok b ->
     forall st', wp t (k (n, b)) st' (fun r st'' => st'' = st' /\ exists reply, r = Ok reply /\ reply_ok p reply)) ->
  wp t (call_bind (read_versioned id expected offset count) k) st (served R p st0).
Proof.
  intros H Hk. unfold read_versioned. apply (storage_served t R p st0 st _ _ (fun x => live_node (x.1) /\ n_id (x.1) = id /\ (length (x.2) <= count)%nat /\ bytes_ok (x.2)) H).
  - intros r w' E. destruct (Volume_read_versioned _ _ _ _ _ _) as [x d'] eqn:Er. injection E as <- <-.
    pose proof (sv_sound _ (st_ok _ _ H)) as Hs. rewrite (st_world _ _ H) in Hs. rewrite (surjective_pairing (world st0)) in Hs |- *.
    destruct (read_bounded _ _ _ _ _ _ _ _ Hs Er) as (Hr & U & Hp). split; [done|]. split; [by eapply undisturbed_sound|]. split; [by apply bounded_quiet; rewrite <- ?surjective_pairing|].
    intros [n b] ->. by apply Hp.
  - intros [n b] (H1 & H2 & H3 & H4) st'. by apply Hk.
Qed.

Lemma certain t p st (o : outcome FileError Packet) reply : o = Ok reply -> reply_ok p reply ->
  wp t (pure o) st (fun r (st' : Service D Ow) => st' = st /\ exists x, r = Ok x /\ reply_ok p x).
Proof. intros -> H. by apply answers_now. Qed.

Lemma certain_step {A} t p (st : Service D Ow) (o : outcome FileError A) (k : A -> serving D Ow Packet) a : o = Ok a ->
  wp t (k a) st (fun r (st' : Service D Ow) => st' = st /\ exists x, r = Ok x /\ reply_ok p x) ->
  wp t (call_bind (pure o) k) st (fun r (st' : Service D Ow) => st' = st /\ exists x, r = Ok x /\ reply_ok p x).
Proof. intros -> H. by apply wp_pure; [|done|intros ? [= <-]]. Qed.

Lemma read_identity_ok st0 st x : stays st0 st -> read_identity (s_volume st) = Ok x -> lineage_ok (x.1) /\ number_ok (x.2).
Proof.
  intros H E. unfold read_identity in E. destruct (recovery_info (s_volume st)) as [[l e]|err|] eqn:Ei; [|by destruct err|done]. injection E as <-.
  eapply (identity_fits (s_volume st)); [|exact Ei]. apply (sound_volume_ok (world st)), (sv_sound _ (st_ok _ _ H)).
Qed.

Lemma identity_total v : read_identity v <> Panic.
Proof. unfold read_identity. pose proof (info_total v). by destruct (recovery_info v). Qed.

Lemma authorized_total v g w i : authorized_resource v g w i <> Panic.
Proof. unfold authorized_resource. auto 10 with total. Qed.

Lemma read_request_served t R g p st : service_ok st -> Packet_valid p -> one_of [OP_REFERENCES; READ_OPEN; READ_CHUNK] (p_op p) = true ->
  wp t (read_request g p) st (served R p st).
Proof.
  intros H Hv Hop. pose proof (stays_refl st H) as Hs. unfold read_request. apply serve_get. destruct (Z.eqb_spec (p_op p) OP_REFERENCES) as [Eo|Eo].
  - apply serve_pure; [done|apply authorized_total|]. intros _ _. apply serve_pure; [done|apply identity_total|]. intros i Hi. destruct (read_identity_ok _ _ _ Hs Hi) as [Hl _].
    apply serve_pure; [done|apply references_new_total|]. intros r Hr. apply serve_pure_reply; [done|apply references_packet_total|]. intros reply. by eapply references_reply_ok.
  - apply serve_pure; [done|apply request_decode_total|]. intros r Hr. destruct (msg_canonical _ _ _ ReadRequest_message p r Hv Hr) as [(_ & _ & _ & _ & Hlen & _ & _ & _ & Hk) _].
    apply serve_pure; [done|apply authorized_total|]. intros _ _. apply serve_pure; [done|apply identity_total|]. intros i Hi. destruct (read_identity_ok _ _ _ Hs Hi) as [_ He].
    destruct (negb _); [apply serve_pure_reply; [done|done|by intros]|]. unfold MAX_RANGE, MAX_FILE in *. destruct (Z.eqb_spec (p_op p) READ_OPEN) as [Eq|Eq].
    + destruct (Z.ltb_spec (Z.of_nat 1024) (rr_length r)); [lia|]. eapply read_served; [done|]. intros n b Hn Hid Hb Bb st'. cbn [fst snd]. destruct (ln_version _ Hn) as [Fv Nv], (ln_id _ Hn) as [Fi Ni].
      eapply certain_step; [unfold Version_new; by rewrite (proj2 (Z.eqb_neq _ _)) by done|]. eapply certain_step; [unfold Epoch_new; rewrite (proj2 (Z.eqb_neq _ _)) by apply He; done|].
      assert (Hh : header_ok (p_op p) (mkReadHeader (n_id n) (n_length n) (mkVersion (n_version n)) (sha256 b) (mkEpoch (i.2)))).
      { pose proof (ln_length _ Hn). unfold MAX_FILE in *. repeat (split; [done|]). split; [unfold MAX_FILE_BYTES; cbn; lia|]. split; [done|]. split; [done|]. split; [apply sha256_length|apply sha256_bytes]. }
      destruct (msg_round _ _ _ ReadHeader_message (p_op p) (p_context p) _ Hh) as (q & Eq' & V & Eo' & Ec & _); [apply Hv|]. eapply certain; [exact Eq'|]. split; try done.
      unfold ReadHeader_packet in Eq'. case_match; by simplify_eq.
    + assert (p_op p = READ_CHUNK) as Ec by (unfold one_of in Hop; cbn in Hop; bools; destruct Hk as [?|[? _]]; done).
      eapply read_served; [done|]. intros n b Hn Hid Hb Bb st'. cbn [fst snd]. destruct (ln_version _ Hn) as [Fv Nv], (ln_id _ Hn) as [Fi Ni]. pose proof (ln_length _ Hn). unfold MAX_FILE in *.
      eapply certain; [done|]. rewrite <- Ec. apply raw_ok; try done; unfold DATA in *; (lia || unfold fits; lia).
Qed.

(** ** Staging *)
Lemma operation_authorize_total v g r : operation_authorize v g r <> Panic.
Proof.
  unfold operation_authorize. destruct (_ || _); [done|]. pose proof (operation_total v (fg_subject g) (ws_root (rp_workspace r)) (stored_retry (rp_workspace r) (rp_retry r))).
  destruct (operation_by_retry _ _ _ _) as [old|e|]; [|destruct e; try done|done]; unfold operation_inspect; auto 10 with total.
Qed.

Lemma admission_authorize_total v g r : admission_authorize v g r <> Panic.
Proof.
  unfold admission_authorize. pose proof (admission_retry_total v (fg_subject g) (fp_workspace r) (fp_retry r)).
  destruct (admission_by_retry _ _ _ _) as [old|e|]; [|destruct e; try done|done]; unfold operation_inspect; auto 10 with total.
Qed.

Lemma staged_request_total c slot a p : staged_request c slot a p <> Panic.
Proof. unfold staged_request. destruct (Transfers_logical _ _ _); cbn; [by destruct (negb _)|done]. Qed.

Section Staging.
Context (t : bool) (R : entry_relation) (slot : nat) (g : FileGrant) (p : Packet).
Hypothesis (Hv : Packet_valid p).

(** The grant that covers the request. *)
Definition covers (c : Clients) : Prop := Clients_grant_at c slot = Some g /\ fg_rights g <> 0 /\ fg_generation g = p_context p.

Lemma covers_stays st0 st : stays st0 st -> covers (s_clients st0) -> covers (s_clients st).
Proof. intros H [Hg Hr]. split; [|done]. by rewrite (authority_grant _ _ _ (st_authority _ _ H)). Qed.

#[local] Abbreviation done_blank := (pure (Ok (blank_reply (p_op p) (p_context p)))).

Lemma begin_served st0 st : stays st0 st -> covers (s_clients st) ->
  wp t (let! _ := stage (fun x => Transfers_begin x slot p) in done_blank) st (served R p st0).
Proof.
  intros H (Hg & Hr & Ec). apply serve_stage; [done|apply begin_total| |by apply blank_ok]. intros x Hx.
  by destruct (begin_spec _ _ _ g x (sv_clients _ (st_ok _ _ H)) Hv Hg Hr Ec Hx).
Qed.

Lemma chunk_served st0 st : stays st0 st -> wp t (let! _ := stage (fun x => Transfers_chunk x slot p) in done_blank) st (served R p st0).
Proof.
  intros H. pose proof (sv_clients _ (st_ok _ _ H)) as Hc. apply serve_stage; [done|by apply chunk_total| |by apply blank_ok]. intros x Hx. by destruct (chunk_spec _ _ _ x Hc Hv Hx).
Qed.

Lemma abort_served st0 st : stays st0 st -> wp t (let! _ := stage (fun x => Ok (Transfers_clear x slot)) in done_blank) st (served R p st0).
Proof. intros H. apply serve_stage; [done|done| |by apply blank_ok]. intros x [= <-]. apply clear_ok, (sv_clients _ (st_ok _ _ H)). Qed.

Lemma refused_served st0 st e : stays st0 st -> wp t (pure (Err e)) st (served R p st0).
Proof. intros H. by apply serve_pure_reply. Qed.

Lemma operation_mutation_served st : service_ok st -> covers (s_clients st) -> wp t (operation_mutation slot g p) st (served R p st).
Proof.
  intros H Hc. pose proof (stays_refl st H) as Hs. unfold operation_mutation. apply serve_get. destruct (_ =? _).
  - apply serve_pure; [done|apply replacement_total|]. intros r _. apply serve_pure; [done|apply operation_authorize_total|]. intros _ _.
    by apply begin_served.
  - apply serve_pure; [done|apply staged_request_total|]. intros r _. apply serve_pure; [done|apply operation_authorize_total|]. intros _ _.
    destruct (p_op p =? REPLACE_CHUNK); [by apply chunk_served|].
    destruct (p_op p =? REPLACE_ABORT); [by apply abort_served|].
    by apply serve_pure.
Qed.

Lemma operation_receipt_total o : operation_receipt o <> Panic.
Proof. unfold operation_receipt. do 8 (apply bound_total; [auto with total|intros ? _]). done. Qed.

Lemma operation_query_total v : operation_query v g p <> Panic.
Proof.
  unfold operation_query, find_operation, operation_inspect. destruct (_ || _); [done|]. apply bound_total; [auto with total|]. intros l _.
  apply bound_total; [apply stored_total; destruct l; auto with total|]. intros o _. apply bound_total; [auto with total|]. intros _ _. apply bound_total; [|auto with total].
  apply operation_receipt_total.
Qed.

Lemma operation_request_served st : service_ok st -> covers (s_clients st) -> wp t (operation_request slot g p) st (served R p st).
Proof.
  intros H Hc. unfold operation_request. destruct (one_of _ _); [|by apply operation_mutation_served]. apply serve_get.
  apply serve_pure_reply; [by apply stays_refl|apply operation_query_total|]. intros reply E. unfold operation_query in E. destruct (_ || _); [done|].
  destruct (Lookup_decode p) as [l| |]; [|done..]. destruct (find_operation (s_volume st) g l) as [o| |] eqn:Ef; [|done..]. cbn [stored_as map_err] in E.
  destruct (operation_inspect _ _ _ _); [|done..]. cbn [map_err] in E. eapply (operation_part_ok p (operation_receipt o)); [done| |exact E].
  intros r Er. apply operation_receipt_ok with (o := o); [|done]. eapply found_operation_fits; [|exact Ef]. apply (sound_volume_ok (world st)), H.
Qed.

Lemma admission_lookup_fits v a : volume_ok v -> admission_lookup v g p = Ok a -> admission_fits a.
Proof.
  intros Hok E. unfold admission_lookup, inspect_admission in E. destruct (_ =? _).
  - destruct (AdmissionId_decode p) as [i| |]; [|done..]. destruct (admission_by_id _ _ _) as [x| |] eqn:Ea; [|done..]. cbn [stored_as map_err] in E.
    destruct (operation_inspect _ _ _ _); [|done..]. injection E as <-. by eapply admission_id_fits.
  - destruct (Lookup_decode _) as [[w y|]| |]; [|done..]. destruct (admission_by_retry _ _ _ _) as [x| |] eqn:Ea; [|done..]. cbn [stored_as map_err] in E.
    destruct (operation_inspect _ _ _ _); [|done..]. injection E as <-. by eapply admission_retry_fits.
Qed.

Lemma admission_lookup_total v : admission_lookup v g p <> Panic.
Proof.
  unfold admission_lookup, inspect_admission, operation_inspect. destruct (_ =? _); [auto 10 with total|]. apply bound_total; [auto with total|]. intros [w y|i] _; auto 10 with total.
Qed.

Lemma status_packet_total a op c : status_packet a op c <> Panic.
Proof. unfold status_packet. auto 10 with total. Qed.

Lemma admission_request_served st : service_ok st -> covers (s_clients st) -> wp t (admission_request slot g p) st (served R p st).
Proof.
  intros H Hc. pose proof (stays_refl st H) as Hs. unfold admission_request. destruct (_ || _); [by apply refused_served|]. apply serve_get.
  destruct (_ =? _); [|destruct (one_of [ADM_CHUNK; ADM_ABORT] _); [|destruct (one_of _ _); [|by apply refused_served]]].
  - apply serve_pure; [done|apply replacement_total|]. intros r _. apply serve_pure; [done|apply admission_authorize_total|]. intros _ _.
    by apply begin_served.
  - apply serve_pure; [done|apply staged_request_total|]. intros r _. apply serve_pure; [done|apply admission_authorize_total|]. intros _ _.
    destruct (_ =? ADM_CHUNK); [by apply chunk_served|by apply abort_served].
  - apply serve_pure; [done|apply admission_lookup_total|]. intros a Ha. apply serve_pure_reply; [done|apply status_packet_total|]. intros reply.
    apply status_packet_ok; [done|]. eapply admission_lookup_fits; [|exact Ha]. apply (sound_volume_ok (world st)), H.
Qed.
End Staging.

(** ** What a grant may change *)
Definition written_by (v : Volume) (g : FileGrant) : entry_relation := fun id a b =>
  FileGrant_access g v id true = Ok tt \/ (a = None /\ exists e, b = Some e /\ FileGrant_access g v (en_parent e) true = Ok tt).

Lemma written_chained v g : chained (written_by v g).
Proof. intros id a b c [H|[-> (e & -> & H)]] [H'|[? _]]; [by left|by left|by left|done]. Qed.

Lemma only_written v g id : FileGrant_access g v id true = Ok tt -> weaker (only id) (written_by v g).
Proof. intros H k a b ->. by left. Qed.

Lemma created_written v g parent : FileGrant_access g v parent true = Ok tt -> weaker (created parent) (written_by v g).
Proof. intros H k a b (-> & e & -> & <-). right. split; [done|]. by exists e. Qed.

Lemma access_ok g v id write : is_ok (FileGrant_access g v id write) = true <-> FileGrant_access g v id write = Ok tt.
Proof. unfold FileGrant_access. by destruct (_ || _). Qed.

(** ** Tracked writes *)
Section Recovery.
Context (t : bool) (slot : nat) (g : FileGrant) (p : Packet).
Hypothesis (Hv : Packet_valid p) (Hg : grant_fits g) (HT : p_op p = OP_COMMIT -> T slot p).

Lemma tracked_authority_total v r id : tracked_authority v g r id <> Panic.
Proof. unfold tracked_authority. pose proof (receipt_total v (fg_subject g) r). destruct (Volume_receipt _ _ _) as [x|e|]; [|destruct e|]; auto with total. Qed.

Lemma recovery_request_served (st : Service D Ow) : service_ok st -> covers slot g p (s_clients st) -> wp t (recovery_request slot g p) st (served (written_by (s_volume st) g) p st).
Proof.
  intros H Hc. pose proof (stays_refl st H) as Hs. pose proof (sound_volume_ok (world st) (sv_sound _ H)) as Hvo. cbn in Hvo.
  unfold recovery_request. apply serve_get. apply serve_pure; [done|auto with total|]. intros _ _.
  destruct (Z.eqb_spec (p_op p) OP_RECOVERY) as [E1|E1]; [|destruct (Z.eqb_spec (p_op p) OP_RECEIPT) as [E2|E2]; [|destruct (Z.eqb_spec (p_op p) TRACK_BEGIN) as [E3|E3];
    [|destruct (Z.eqb_spec (p_op p) OP_COMMIT) as [E4|E4]; [|by apply refused_served]]]].
  - apply serve_pure; [done|auto with total|]. intros [l e] He. apply stored_ok in He. destruct (identity_fits _ _ _ Hvo He) as [Hl [_ Hn]].
    apply serve_pure_reply; [done|done|]. intros ? [= <-]. by apply recovery_reply_ok.
  - apply serve_pure; [done|auto with total|]. intros r _. apply serve_pure; [done|auto with total|]. intros x Hx. apply stored_ok in Hx. pose proof (tracked_fits _ _ _ _ Hvo Hx) as Hf.
    destruct (negb _); [by apply refused_served|]. apply serve_pure_reply; [done|done|]. intros ? [= <-]. by apply receipt_reply_ok.
  - apply serve_pure; [done|auto with total|]. intros r _. apply serve_pure; [done|apply tracked_authority_total|]. intros _ _.
    by apply begin_served with (g := g).
  - apply serve_take; [done|by apply HT|]. intros s st' Hs' Ho Ht Eid _ Er _. apply serve_pure; [done|auto with total|]. intros retry Hr. apply ok_or_Ok in Hr.
    apply serve_pure; [done|apply tracked_authority_total|]. intros [] Ha. destruct (transfer_bytes_spec _ _ Ht Er) as (Eb & Bb & Lb). rewrite Eb.
    apply serve_pure; [done|done|]. intros ? [= <-]. destruct (to_retry _ _ Ht _ Hr) as ((L1 & L2 & L3) & (N1 & F1) & (N2 & F2)).
    eapply (storage_run_served t _ p st st' _ _ receipt_fits); [done| |].
    + assert (Fi : fits 32 (tf_id s)) by (rewrite Eid; apply Hv).
      destruct (tracked_bounded (world st) (fg_subject g) (tracked_retry retry) (tf_id s) (tf_version s) (staged_bytes s)) as (r & w' & E & Hp & Hso & Hb & Hn & Hf);
        [apply H|split; [apply Hg|done|done]|done|done|done|apply Ht|]. exists r, w'. split; [exact E|]. split; [done|]. split; [done|]. split; [|done].
      unfold tracked_authority in Ha. cbn [fst world] in Hn. rewrite Eid in Hb. destruct (Volume_receipt _ _ _) as [x|e|]; [|destruct e|]; try done.
      * eapply bounded_weaken; [apply nothing_weaker|done|]. apply Hn. by eexists.
      * eapply bounded_weaken; [by apply only_written|done|done].
    + intros x Hx st2. apply answers_now. by apply receipt_reply_ok.
Qed.
End Recovery.
End Serve.
