(* ===== verification/SvcHandle.v ===== *)
(** * The owner's callback and the answers after a publication

    While a publication is in flight its owner holds [&mut Clients] and nothing
    else: it can only revoke, detach and expire.  A published generation then
    retains what its own reply is read back from. *)
From stdpp Require Import base list option numbers relations.
From Stdlib Require Import ZArith Lia Bool.
From S2P Require Import Prelude Bytes Codec AbiFiles AbiIdentity AbiMessages AbiReceipts AbiAdmission AbiServices FsDisk FsNode FsRecovery FsFormat FsVolume FsPublication FsPublish FsTree FsInvariant FsReach FsCalls FsSpec FsHistory SvcClients SvcServer SvcPublish SvcDispatch SvcClientsFacts SvcReplies SvcEffect SvcControl SvcServe.

(** ** Clients under a callback *)
(** The calls of [impl Clients] that another crate may make. *)
Inductive clients_turn (c : Clients) : Clients -> Prop :=
| TurnRevoke slot : clients_turn c ((Clients_revoke c slot).2)
| TurnRevokeRoot root : clients_turn c ((Clients_revoke_root c root).2)
| TurnDetach slot : clients_turn c (Clients_detach c slot)
| TurnExpire now : clients_turn c (Clients_expire c now).

(** No grant appears and none gains anything; no transfer is staged. *)
Record dwindles (c c' : Clients) : Prop := {
  dw_ok : clients_ok c';
  dw_grant : forall i g', Clients_grant_at c' i = Some g' -> exists g, Clients_grant_at c i = Some g /\ (g' = g \/ g' = drop_rights g);
  dw_staged : forall k s, cl_transfers c' !! k = Some (Some s) -> cl_transfers c !! k = Some (Some s);
}.

Lemma dwindles_refl c : clients_ok c -> dwindles c c.
Proof. split; [done| |done]. intros i g Hg. exists g. by split; [|left]. Qed.

Lemma dwindles_trans a b c : dwindles a b -> dwindles b c -> dwindles a c.
Proof.
  intros [_ H1 T1] [Hc H2 T2]. split; [done| |intros k s Hk; by apply T1, T2]. intros i g Hg. destruct (H2 i g Hg) as (h & Hh & E1). destruct (H1 i h Hh) as (k & Hk & E2).
  exists k. split; [done|]. by destruct E1 as [-> | ->], E2 as [-> | ->]; auto.
Qed.

Lemma dwindles_staging c t : clients_ok (set_transfers c t) -> (forall k s, t !! k = Some (Some s) -> cl_transfers c !! k = Some (Some s)) ->
  dwindles c (set_transfers c t).
Proof. intros H Ht. split; [done| |done]. intros i g Hg. exists g. by split; [|left]. Qed.

Lemma revoke_root_dwindles c root : clients_ok c -> dwindles c ((Clients_revoke_root c root).2).
Proof.
  intros H. destruct (Clients_revoke_root c root) as [mask c'] eqn:E. pose proof (revoke_root_ok _ _ _ _ H E) as H'. destruct (revoke_root_spec _ _ _ _ H E) as (_ & _ & _ & Hg & Ht & _).
  split; [done| |].
  - cbn [snd]. intros i g'. rewrite Hg. destruct (_ && _); [|intros Hi; exists g'; auto]. destruct (Clients_grant_at c i) as [g|]; [|done]. intros [= <-]. exists g. auto.
  - cbn [snd]. intros k s. rewrite Ht, list_lookup_fmap. destruct (cl_transfers c !! k) as [[u|]|]; cbn; [|done..]. destruct (_ && _); [done|]. by intros [= ->].
Qed.

Lemma empty_slot_dwindles c slot : clients_ok (empty_slot c slot) -> (slot < length (cl_grants c))%nat -> dwindles c (empty_slot c slot).
Proof.
  intros H Hl. split; [done| |].
  - intros i g. rewrite empty_grant by done. destruct (decide _); [done|]. eauto.
  - intros k s Hk. by apply clear_lookup in Hk as [? _].
Qed.

Lemma turn_dwindles c c' : clients_ok c -> clients_turn c c' -> dwindles c c'.
Proof.
  intros H [slot|root|slot|now].
  - unfold Clients_revoke. destruct (Clients_grant_at c slot) as [g|]; [|by apply dwindles_refl]. destruct (root_at c slot) as [root|e|]; [|by apply dwindles_refl..].
    pose proof (revoke_root_dwindles c root H) as Hd. by destruct (Clients_revoke_root c root).
  - by apply revoke_root_dwindles.
  - pose proof (detach_spec c slot H) as (Hc & _). unfold Clients_detach in *. destruct (Clients_grant_at c slot) as [g|] eqn:Hg; [|by apply dwindles_refl].
    pose proof (grant_slot _ _ _ H Hg) as Hs. destruct (co_lengths _ H) as (L & _). case_bool_decide; [|apply (empty_slot_dwindles c slot Hc); lia].
    unfold Clients_revoke in *. rewrite Hg in *. destruct (root_at c slot) as [root|e|]; [|apply (empty_slot_dwindles c slot Hc); lia..].
    pose proof (revoke_root_dwindles c root H) as Hd. destruct (Clients_revoke_root c root) as [mask c1] eqn:E. cbn [snd] in *. eapply dwindles_trans; [exact Hd|].
    apply (empty_slot_dwindles c1 slot Hc). destruct (co_lengths _ (dw_ok _ _ Hd)) as (L' & _). lia.
  - destruct (expire_spec c now) as (E & _ & _ & _ & Ht). split; [by apply expire_ok| |done]. intros i g' Hi. unfold Clients_grant_at in *. rewrite E in Hi. eauto.
Qed.

Lemma turns_dwindle c c' : clients_ok c -> rtc clients_turn c c' -> dwindles c c'.
Proof.
  intros H Ht. induction Ht as [|a b c Hx _ IH]; [by apply dwindles_refl|]. pose proof (turn_dwindles _ _ H Hx) as Hd. eapply dwindles_trans; [exact Hd|]. apply IH, Hd.
Qed.

(** A grant that is live later was live from the start. *)
Lemma dwindles_live c c' slot peer context now g : dwindles c c' -> live_grant c' slot peer context now g -> Clients_grant_at c slot = Some g.
Proof.
  intros H [Hg Hc]. destruct (dw_grant _ _ H _ _ Hg) as (h & Hh & [-> | ->]); [done|]. by apply grant_check_spec in Hc as (_ & _ & ? & _).
Qed.

(** ** Evidence read back *)
Lemma found_record v r i x (p : FsRecord -> bool) : metadata_ok (vl_metadata v) -> m_recovery (vl_metadata v) = Some r -> rv_records r !! i = Some (Some x) -> p x = true ->
  (forall y, p y = true -> exists n, n <> 0 /\ n ∈ numbers x /\ n ∈ numbers y) -> List.find p (slots (rv_records r)) = Some x.
Proof.
  intros Hm Hr Hx Hp Hn. destruct (List.find p (slots (rv_records r))) as [y|] eqn:F.
  - apply find_slot in F as [Hy [j Hj]]. destruct (decide (i = j)) as [<-|Hne]; [congruence|]. exfalso.
    destruct (Hn y Hy) as (n & H0 & Hnx & Hny). pose proof (vo_distinct _ _ _ (mo_recovery _ Hm r Hr) i j x y Hne Hx Hj) as C.
    apply clash_spec in C as [C _]. by apply (C n).
  - exfalso. eapply List.find_none in F; [|apply list_elem_of_In, elem_of_slots; by exists i]. congruence.
Qed.

Lemma retained_operation next bank subject request bytes receipt : metadata_ok next -> retains subject request bytes receipt next ->
  exists o, operation_by_id (mkVolume next bank false) subject (ry_lineage (fr_retry receipt)) (fr_committed receipt) = Ok o /\
    forall HS : Digest, exists r, operation_receipt o = Ok r /\ FileOperation_valid r = true.
Proof.
  intros Hm (r & i & x & Hr & Hs & Hx & Hsub & Hrec & Ha & Hns & _ & _ & _ & _ & _ & He & Hc). pose proof (mo_recovery _ Hm r Hr) as Ro. destruct (vo_records _ _ _ Ro i x Hx) as [F V _].
  destruct (rd_namespace x) as [[w n]|] eqn:En; [|done]. destruct (vo_lineage _ _ _ Ro) as (_ & _ & Hlin). pose proof (rf_lineage _ _ F) as El. rewrite Hrec in El.
  unfold values_bad in V. rewrite En, Ha, Hrec in V. cbn [is_none admission_number andb] in V. bools.
  exists (mkFsOperation w n receipt (record_payload x)). split.
  - unfold operation_by_id, scoped_recovery. cbn [Volume_ready vl_poisoned vl_metadata]. rewrite Hr, Hs. rewrite (proj2 (Z.eqb_neq subject 0)) by congruence.
    rewrite (proj2 (Z.eqb_neq (fr_committed receipt) 0)) by lia. cbn [orb]. rewrite bool_decide_true by done. cbn [negb].
    rewrite (found_record (mkVolume next bank false) r i x); [|done|done|done|by rewrite Hrec, Hsub, !Z.eqb_refl|].
    + cbn [ok_or]. unfold Record_operation. by rewrite En, Ha, Hrec.
    + intros y Hy. apply andb_true_iff in Hy as [_ Hy]. apply Z.eqb_eq in Hy. exists (fr_committed receipt). split; [lia|]. unfold numbers, record_numbers. rewrite Hrec. split; [by left|]. rewrite <- Hy. by left.
  - intros HS. pose proof (vo_epoch _ _ _ Ro) as [_ ?]. unfold operation_receipt, Workspace_new, Instance_new, OperationId_new, Resource_new, Version_new, Epoch_new, Key_new, no_lineage. cbn [fo_receipt FsPublication.fo_workspace FsPublication.fo_instance].
    rewrite El, (bool_decide_false (rv_lineage r = zeros 16)) by done. rewrite !(proj2 (Z.eqb_neq _ 0)) by lia. cbn [orb]. eexists. split; [done|].
    unfold FileOperation_valid, Instance_lineage, Instance_sequence. cbn. rewrite !bool_decide_true by done. cbn [andb]. unfold MAX_FILE in *.
    repeat (apply andb_true_iff; split); try (apply Z.leb_le; lia); try (apply Z.ltb_lt; lia); try apply Z.eqb_refl; try done. apply negb_true_iff, Z.eqb_neq. lia.
Qed.

(** An admission is answered on the wire. *)
Lemma status_answered v subject id a op context : volume_ok v -> admission_by_id v subject id = Ok a -> status_op op = true ->
  exists reply, status_packet a op context = Ok reply.
Proof.
  intros Hv Ea Ho. destruct (admission_held _ _ _ _ Ea) as (i & x & st & (r & Hr & Hx) & Hst & Hsub & Hnum & Hview & _ & _ & r' & Hr' & _).
  assert (Hp : vl_poisoned v = false).
  { unfold admission_by_id, admission_slot in Ea. destruct (Volume_admissions v) eqn:E; [|done..]. by apply admissions_spec in E as [? _]. }
  pose proof (mo_recovery _ (Hv Hp) r Hr) as Ro. destruct (vo_records _ _ _ Ro i x Hx) as [F _ A]. destruct (vo_lineage _ _ _ Ro) as (_ & _ & Hlin).
  pose proof (sk_values _ _ _ _ _ (A st Hst)) as B. unfold admission_view in Hview. rewrite Hst in Hview. cbn [ok_or] in Hview.
  unfold stored_bad in B. destruct (rd_namespace x) as [[w n]|]; [|by rewrite !orb_true_r in B]. cbn [ok_or] in Hview. injection Hview as <-. bools.
  unfold status_packet, AdmissionId_new, Instance_new, OperationId_new, no_lineage. cbn [av_status fs_id fa_lineage fa_number av_instance fst snd].
  rewrite (rf_lineage _ _ F), (bool_decide_false (rv_lineage r = zeros 16)) by done. rewrite !(proj2 (Z.eqb_neq _ 0)) by lia. cbn [orb].
  unfold Status_packet, Status_validate, Instance_lineage, Instance_sequence. cbn [ss_id ss_instance ss_state ss_terminal ai_lineage ai_number in_id oi_lineage oi_sequence fs_state fs_terminal].
  rewrite bool_decide_true by done. cbn [negb orb]. rewrite Ho. rewrite (proj2 (Z.ltb_ge _ _)) by done.
  destruct (so_state st); cbn [wire_state]; bools; [|(rewrite (proj2 (Z.leb_gt _ _)) by done); by eexists..].
  match goal with H : so_terminal st = 0 |- _ => rewrite H end. by eexists.
Qed.

(** ** Every request of [Server::handle]

    dispatch.rs as a whole: any valid packet of any client is answered, with a
    frame of that request, within the fuel of the model; a refusal leaves the
    file system alone, and a change is one the caller's live grant allows. *)
(** ** Listing *)
Lemma list_from_spec i parent l next n : list_from i parent l = Some (next, n) -> (i < next <= i + length l)%nat /\ n ∈ l /\ live n = true.
Proof.
  revert i. induction l as [|x l IH]; intros i; cbn [list_from]; [done|]. destruct (live x && _) eqn:E.
  - intros [= <- <-]. apply andb_true_iff in E as [El _]. split; [cbn; lia|]. split; [by left|done].
  - intros H. destruct (IH (S i) H) as (H1 & H2 & H3). split; [cbn; lia|]. split; [by right|done].
Qed.

Lemma list_spec v parent cursor next n : volume_ok v -> Volume_list v parent cursor = Ok (Some (next, n)) ->
  (cursor < next <= OBJECTS)%nat /\ live_node n.
Proof.
  intros Hv E. unfold Volume_list in E. destruct (Volume_ready v) as [[]| |] eqn:Er; [|done..]. pose proof (Hv (ready_ok _ Er)) as Hm.
  destruct (Nat.ltb_spec OBJECTS cursor) as [|Hl]; [done|]. destruct (if parent =? 0 then _ else _); [|done..]. injection E as E.
  apply list_from_spec in E as (H1 & H2 & H3). rewrite length_drop, (mo_count _ Hm) in H1. split; [lia|].
  apply list_elem_of_lookup in H2 as [k Hk]. rewrite lookup_drop in Hk. eapply has_valid; [exact Hm|]. by exists (cursor + k)%nat.
Qed.

Lemma list_total v parent cursor : Volume_list v parent cursor <> Panic.
Proof.
  unfold Volume_list, Volume_ready. destruct (vl_poisoned v); [done|]. destruct (_ <? _)%nat; [done|]. destruct (parent =? 0); [done|].
  pose proof (stat_total v parent). destruct (Volume_stat v parent); [by destruct (kind_is _ _)|done|done].
Qed.

Lemma list_loop_spec fuel v g id cursor : volume_ok v -> (OBJECTS < cursor + fuel)%nat -> (0 < fuel)%nat ->
  exists r, list_loop fuel v g id cursor = Some r /\ r <> Panic /\ forall next n, r = Ok (Some (next, n)) -> (next <= OBJECTS)%nat /\ live_node n.
Proof.
  intros Hv. revert cursor. induction fuel as [|fuel IH]; intros cursor Hf H0; [lia|]. cbn [list_loop].
  pose proof (list_total v id cursor) as Ht. destruct (Volume_list v id cursor) as [[[next n]|]|e|] eqn:E; [|by eexists|by eexists|done].
  cbn [stored_as map_err]. destruct (list_spec _ _ _ _ _ Hv E) as [Hn Hl]. pose proof (access_total g v (n_id n) false) as Ha.
  destruct (FileGrant_access _ _ _ _); [|apply IH; lia|done]. eexists. split; [done|]. split; [done|]. intros ? ? [= <- <-]. split; [lia|done].
Qed.

Section Handle.
Context {D Ow : Type} {HD : Disk D} {HV : DiskView D} {HW : ViewLaws D} {HL : DiskLaws D} {HS : Digest} {HSL : DigestLaws}.
Context (Spare : Clients -> Clients -> Prop) (T : nat -> Packet -> Prop) (Spare_refl : forall c, Spare c c)
  (Spare_take : forall c0 c slot p s t, T slot p -> Spare c0 c -> Transfers_take (cl_transfers c) slot p = Ok (s, t) -> Spare c0 (set_transfers c t)).
Implicit Types st : Service D Ow.

#[local] Abbreviation stays := (stays Spare).
#[local] Abbreviation served := (served Spare).

Section Objects.
Context (t : bool) (slot : nat) (peer now : Z) (g : FileGrant) (p : Packet).
Hypothesis (Hv : Packet_valid p) (HT : p_op p = OP_COMMIT -> T slot p).

Lemma with_id_ok r id : reply_ok p r -> fits 32 id -> reply_ok p (with_id r id).
Proof. intros [(F & ? & ? & ?) ? ? ?] Hi. destruct F. split; try done. Qed.

Lemma list_request_served (st : Service D Ow) R : service_ok st -> wp t (list_request g p (blank_reply (p_op p) (p_context p))) st (served R p st).
Proof.
  intros H. pose proof (sound_volume_ok (world st) (sv_sound _ H)) as Hvo. cbn in Hvo. unfold wp, list_request.
  destruct (list_loop_spec (S OBJECTS) (s_volume st) g (p_id p) (Z.to_nat (p_arg p)) Hvo) as (r & -> & Hr & Hn); [lia|lia|].
  destruct r as [[[next n]|]|e|]; [| | |done]; (split; [done|]).
  - destruct (Hn next n eq_refl) as [Hle Hl]. apply served_reply; [by apply stays_refl|]. apply node_ok; [done|done|]. unfold OBJECTS in Hle. lia.
  - apply served_reply; [by apply stays_refl|]. apply with_id_ok; [by apply blank_ok|]. unfold fits. lia.
  - apply served_error. by apply stays_refl.
Qed.

(** [WRITE] over the object of the request. *)
Definition writes_object (st : Service D Ow) : Prop := FileGrant_access g (s_volume st) (p_id p) true = Ok tt.

Lemma node_answer n (st : Service D Ow) : live_node n ->
  wp t (pure (Ok (node_reply (blank_reply (p_op p) (p_context p)) n 0))) st (fun r (st' : Service D Ow) => st' = st /\ exists x, r = Ok x /\ reply_ok p x).
Proof. intros Hn. apply answers_now. apply node_ok; [done|done|lia]. Qed.

Lemma object_request_served (st : Service D Ow) : service_ok st -> covers slot g p (s_clients st) ->
  (one_of [OP_CREATE; OP_MKDIR; OP_REMOVE] (p_op p) = true -> writes_object st) ->
  wp t (object_request slot peer now g p) st (served (written_by (s_volume st) g) p st).
Proof.
  intros H Hc Hw. pose proof (stays_refl Spare Spare_refl st H) as Hs. pose proof (sound_volume_ok (world st) (sv_sound _ H)) as Hvo. cbn in Hvo.
  unfold object_request. apply serve_get. destruct (p_op p =? OP_LOOKUP).
  { apply serve_pure; [done|auto with total|]. intros n Hn. apply stored_ok in Hn. apply serve_pure; [done|auto with total|]. intros _ _.
    apply serve_pure_reply; [done|done|]. intros ? [= <-]. apply node_ok; [done| |lia]. by eapply lookup_live. }
  destruct (p_op p =? OP_STAT).
  { apply serve_pure; [done|auto with total|]. intros n Hn. apply stored_ok in Hn. apply serve_pure_reply; [done|done|]. intros ? [= <-].
    apply node_ok; [done| |lia]. by destruct (stat_live _ _ _ Hvo Hn). }
  destruct (p_op p =? OP_LIST); [by apply list_request_served|].
  destruct (one_of [OP_CREATE; OP_MKDIR] (p_op p)) eqn:Ecr.
  { assert (Hw' : writes_object st).
    { apply Hw. unfold one_of in *. cbn [existsb] in *. rewrite orb_false_r in Ecr. rewrite orb_assoc, Ecr. done. }
    eapply (storage_served Spare t _ p st st _ _ live_node); [done| |intros n Hn st'; by apply node_answer].
    intros r w' E. destruct (create_bounded _ _ _ _ _ _ (sv_sound _ H) E) as (Hr & Hso & Hb & Hl). split; [done|]. split; [done|]. split; [|done].
    eapply bounded_weaken; [by apply created_written|done|done]. }
  destruct (Z.eqb_spec (p_op p) OP_REMOVE) as [Er|Er].
  { assert (Hw' : writes_object st) by (apply Hw; by rewrite Er).
    eapply (storage_served Spare t _ p st st _ _ (fun _ => True)); [done| |intros n Hn st'; apply answers_now; by apply blank_ok].
    intros r w' E. destruct (remove_bounded _ _ _ _ (sv_sound _ H) E) as (Hr & Hso & Hb). split; [done|]. split; [done|]. split; [|done].
    eapply bounded_weaken; [by apply only_written|done|done]. }
  destruct (Z.eqb_spec (p_op p) OP_READ) as [Ed|Ed].
  { apply serve_pure; [done|auto with total|]. intros n Hn. apply stored_ok in Hn. destruct (stat_live _ _ _ Hvo Hn) as [Ln Hid].
    destruct (_ && _); [by apply refused_served|].
    eapply (storage_served Spare t _ p st st _ _ (fun b => (length b <= DATA)%nat /\ bytes_ok b)); [done| |].
    - intros r w' E. destruct (Volume_read _ _ _ _ _) as [x d'] eqn:Er'. injection E as <- <-. unfold Volume_read in Er'.
      destruct (Volume_read_versioned _ _ _ _ _ _) as [y d1] eqn:Ev. pose proof (sv_sound _ H) as Hso. rewrite (surjective_pairing (world st)) in Hso |- *.
      destruct (read_bounded _ _ _ _ _ _ _ _ Hso Ev) as (Hr & U & Hp).
      assert (d' = d1 /\ x <> Panic /\ forall b, x = Ok b -> (length b <= DATA)%nat /\ bytes_ok b) as (-> & Hx & Hb).
      { destruct y as [[m b]|e|]; injection Er' as <- <-; [|done..]. split; [done|]. split; [done|]. intros ? [= <-]. by apply (Hp m b). }
      split; [done|]. split; [by eapply undisturbed_sound|]. split; [by apply bounded_quiet|done].
    - intros b (Lb & Bb) st'. apply answers_now. destruct (ln_version _ Ln), (ln_id _ Ln). pose proof (ln_length _ Ln). unfold MAX_FILE in *.
      apply (raw_ok p (n_id n) (n_length n) (n_version n) b); try done. unfold fits. lia. }
  destruct (p_op p =? OP_BEGIN).
  { apply serve_pure; [done|auto with total|]. intros n Hn. destruct (negb _); [by apply refused_served|]. destruct (negb _); [by apply refused_served|].
    by apply begin_served with (g := g). }
  destruct (p_op p =? OP_CHUNK); [by apply chunk_served|].
  destruct (p_op p =? OP_ABORT).
  { destruct (_ || _); [by apply refused_served|]. by apply abort_served. }
  destruct (Z.eqb_spec (p_op p) OP_COMMIT) as [Eco|Eco]; [|by apply refused_served].
  eapply serve_take; [exact Spare_take|done|by apply HT|]. intros s st' Hs' Ho Ht Eid _ Er' _. apply serve_pure; [done|auto with total|]. intros _ _.
  apply serve_pure; [done|auto with total|]. intros [] Ha. destruct (transfer_bytes_spec _ _ Ht Er') as (Eb & Bb & Lb). rewrite Eb.
  apply serve_pure; [done|done|]. intros ? [= <-]. eapply (storage_run_served Spare t _ p st st' _ _ live_node); [done| |intros n Hn st2; by apply node_answer].
  destruct (replace_bounded (world st) (tf_id s) (tf_version s) (staged_bytes s) (sv_sound _ H) Bb) as (r & w' & E & Hr & Hso & Hb & Hn).
  exists r, w'. split; [done|]. split; [done|]. split; [done|]. split; [by eapply bounded_weaken; [apply only_written| |]|]. intros n En. by apply Hn.
Qed.
End Objects.

(** ** The closure of [handle] *)
(** What the live grant of a client may change. *)
Definition allowed (st : Service D Ow) (slot : nat) (peer context now : Z) : entry_relation := fun id a b =>
  exists g, live_grant (s_clients st) slot peer context now g /\ written_by (s_volume st) g id a b.

Lemma live_covers c slot peer p now g : live_grant c slot peer (p_context p) now g -> covers slot g p c.
Proof. intros [Hg Hc]. apply grant_check_spec in Hc as (_ & ? & ? & _). done. Qed.

Lemma written_allowed st slot peer context now g : live_grant (s_clients st) slot peer context now g ->
  weaker (written_by (s_volume st) g) (allowed st slot peer context now).
Proof. intros H id a b Hw. by exists g. Qed.

Lemma validate_total p : Packet_valid p -> validate_request p <> Panic.
Proof.
  intros _. unfold validate_request. apply bound_total; [unfold envelope; by destruct (_ || _)|]. intros _ _. apply bound_total; [|by intros [] _]. unfold request_shape.
  repeat match goal with |- (if ?c then _ else _) <> Panic => destruct c; try done end;
    (apply bound_total; [|done]); [apply (msg_total _ _ _ CancelAck_request_message)|apply negotiation_total].
Qed.

Lemma lifecycle_total v p : lifecycle_descriptor v p <> Panic.
Proof.
  unfold lifecycle_descriptor. apply bound_total; [apply negotiation_total|]. intros m _. apply bound_total.
  - pose proof (retained_total v 0). destruct (retained_admission v 0) as [o|e|]; [done|by destruct e|done].
  - intros a _. apply bound_total; [|intros d _; apply descriptor_packet_total]. unfold Descriptor_reviewed. apply bound_total; [by destruct m|done].
Qed.

Lemma ordinary_request_served t slot peer p now st : service_ok st -> Packet_valid p -> (p_op p = OP_COMMIT -> T slot p) ->
  wp t (ordinary_request slot peer p now) st (served (allowed st slot peer (p_context p) now) p st).
Proof.
  intros H Hv HT. pose proof (stays_refl Spare Spare_refl st H) as Hs. unfold ordinary_request. apply serve_pure; [done|by apply validate_total|]. intros _ _. apply serve_get.
  apply serve_pure; [done|auto with total|]. intros g Hg. apply ok_or_Ok in Hg. apply serve_pure; [done|auto with total|]. intros [] Hc.
  assert (Hl : live_grant (s_clients st) slot peer (p_context p) now g) by done. pose proof (live_covers _ _ _ _ _ _ Hl) as Hcov.
  pose proof (proj1 (co_grant _ (sv_clients _ H) slot g Hg)) as Fg. set (R := allowed st slot peer (p_context p) now).
  destruct (Z.eqb_spec (p_op p) OP_DESCRIBE) as [E1|E1].
  { apply serve_pure_reply; [done|apply lifecycle_total|]. intros reply. by apply descriptor_reply_ok. }
  destruct (Z.eqb_spec (p_op p) OP_CAPABILITIES) as [E2|E2].
  { apply serve_pure_reply; [done|auto with total|]. intros reply E. destruct (Capabilities_packet _ _) as [x| |] eqn:Ex; [|done..]. injection E as <-. by eapply capabilities_reply_ok. }
  destruct (adm_live _); [destruct (_ || _); [by apply refused_served|]; apply serve_pure; [done|auto with total|]; intros _ _; by apply refused_served|].
  destruct (in_range ADMISSION_OPEN _ _); [by apply admission_request_served|].
  destruct (in_range REPLACE_OPEN _ _); [by apply operation_request_served|].
  destruct (one_of _ (p_op p)) eqn:E3; [by apply read_request_served|].
  destruct (_ || _); [eapply wp_mono; [by apply recovery_request_served with (T := T)|]; intros r st' _; apply served_weaken; by apply written_allowed|].
  apply serve_pure; [done|destruct (_ && _); auto with total|]. intros [] Ha.
  eapply wp_mono; [apply (object_request_served t slot peer now g p Hv HT st H Hcov)|intros r st' _; apply served_weaken; by apply written_allowed].
  intros Hop. unfold writes_object. destruct (one_of [OP_CHUNK; OP_ABORT] (p_op p)) eqn:E4.
  { exfalso. unfold one_of in E4. cbn [existsb] in E4. rewrite orb_false_r in E4. apply orb_true_iff in E4 as [Ex|Ex]; apply Z.eqb_eq in Ex; by rewrite Ex in Hop. }
  cbn [andb] in Ha. assert (one_of [OP_CREATE; OP_MKDIR; OP_REMOVE; OP_BEGIN; OP_CHUNK; OP_COMMIT; OP_ABORT] (p_op p) = true) as Hw; [|by rewrite Hw in Ha].
  unfold one_of in Hop |- *. cbn [existsb] in Hop |- *. rewrite orb_false_r in Hop. apply orb_true_iff in Hop as [->|Hop]; [done|].
  apply orb_true_iff in Hop as [-> | ->]; by rewrite !orb_true_r.
Qed.
End Handle.
