(* ===== verification/SvcCommit.v ===== *)
(** * Commits under a trusted callback

    [commit_with] for any callback that treats the clients as their public
    interface allows: what it publishes is exactly what the client staged, at
    most once, and only while the client's grant is live. *)
From stdpp Require Import base list option numbers relations.
From Stdlib Require Import ZArith Lia Bool.
From S2P Require Import Prelude Bytes Codec AbiFiles AbiIdentity AbiMessages AbiReceipts AbiAdmission FsDisk FsNode FsRecovery FsFormat FsVolume FsPublication FsPublish FsTree FsInvariant FsReach FsCalls FsSpec FsHistory SvcClients SvcServer SvcPublish SvcClientsFacts SvcReplies SvcEffect SvcControl SvcServe SvcHandle.

(** An invariant of the owner and its clients that no call of this crate breaks;
    [T] says which requests may take a client's transfer. *)
Record owner_invariant {Ow} (c0 : Clients) (T : nat -> Packet -> Prop) (I : Ow -> Clients -> Prop) : Prop := {
  oi_dwindles : forall o c, I o c -> dwindles c0 c;
  oi_take : forall o c slot p s t, T slot p -> I o c -> Transfers_take (cl_transfers c) slot p = Ok (s, t) -> I o (set_transfers c t);
}.

(** Taking a transfer, or dropping the dead ones, only removes from the staging. *)
Lemma take_dwindles c slot p s t : clients_ok c -> Transfers_take (cl_transfers c) slot p = Ok (s, t) -> dwindles c (set_transfers c t).
Proof.
  intros H Hx. destruct (take_spec _ _ _ _ _ H Hx) as (Hc & _). apply dwindles_staging; [done|]. intros j u Hj. unfold Transfers_take in Hx.
  destruct (Transfers_index _ _ _ _) as [i| |]; [|done..]. destruct (transfer_at _ _); [|done..]. destruct (negb _); [done|]. destruct (_ || _) in Hx; [done|].
  injection Hx as _ <-. apply list_lookup_insert_Some in Hj as [(_ & ? & _)|[_ Hj]]; done.
Qed.

Lemma expire_dwindles c now : clients_ok c -> dwindles c (Clients_expire c now).
Proof. intros H. exact (turn_dwindles _ _ H (TurnExpire c now)). Qed.

(** Only the object [id], as [R] allows. *)
Definition naming (id : Z) (R : entry_relation) : entry_relation := fun k a b => k = id /\ R k a b.

Lemma naming_weaker id R : weaker (naming id R) R.
Proof. by intros k a b [_ H]. Qed.

Section Trusted.
Context {D Ow : Type} {HD : Disk D} {HV : DiskView D} {HW : ViewLaws D} {HL : DiskLaws D} {HQ : PollDisk D} {HPL : PollLaws D} {HS : Digest} {HSL : DigestLaws}.
Context (total : bool) (fuel : nat) (Hfuel : total = true -> prompt (D := D) /\ (17 < fuel)%nat).
Context (st0 : Service D Ow) (Hok : service_ok st0) (T : nat -> Packet -> Prop) (I : Ow -> Clients -> Prop)
  (HI : owner_invariant (s_clients st0) T I) (HI0 : I (s_owner st0) (s_clients st0)).
(** What a certain refusal may leave of the volume, and of the name of the incarnation. *)
Context (K : Volume -> Prop) (KI : Z -> Prop) (HK : K (s_volume st0)) (HKI : KI (s_instance st0)).
Implicit Types st : Service D Ow.

(** A callback of the owner that keeps the invariant. *)
Definition trusted (control : owner_control (Ow := Ow)) : Prop :=
  forall o c pending now c' o', I o c -> control o c pending = (now, c', o') -> I o' c' /\ I o' (Clients_expire c' now).

Context (control : owner_control (Ow := Ow)) (Hctl : trusted control).

Lemma trusted_expires o c pending now c' o' : I o c -> control o c pending = (now, c', o') -> I o' (Clients_expire c' now).
Proof. intros H E. by eapply Hctl. Qed.

(** Nothing but the clients and the owner changed. *)
Record waits st : Prop := {
  wt_owner : I (s_owner st) (s_clients st);
  wt_instance : s_instance st = s_instance st0;
  wt_world : world st = world st0;
}.

Record concludes {A} (R : entry_relation) (P : A -> Service D Ow -> Prop) (r : outcome FileError A) st : Prop := {
  cn_owner : I (s_owner st) (s_clients st);
  cn_instance : fits 64 (s_instance st);
  cn_bounded : bounded K R (world st0) r (world st);
  cn_named : forall e, r = Err e -> e <> FUncertain -> KI (s_instance st);
  cn_answer : forall a, r = Ok a -> P a st;
}.

Lemma waits_start : waits st0.
Proof. by split. Qed.

Lemma waits_volume st : waits st -> s_volume st = s_volume st0.
Proof. intros H. pose proof (wt_world _ H) as E. by injection E. Qed.

Lemma waits_clients st : waits st -> clients_ok (s_clients st).
Proof. intros H. apply (dw_ok _ _ (oi_dwindles _ _ _ HI _ _ (wt_owner _ H))). Qed.

Lemma waits_service st : waits st -> service_ok st.
Proof. intros H. split; [rewrite (wt_world _ H); apply Hok|by apply waits_clients|rewrite (wt_instance _ H); apply Hok]. Qed.

Lemma waits_concludes {A} R (P : A -> Service D Ow -> Prop) st r : waits st -> (forall a, r = Ok a -> P a st) -> concludes R P r st.
Proof.
  intros H HP. pose proof (waits_service _ H) as Hs. split; [apply H|apply Hs| | |done]; [rewrite (wt_world _ H); by apply bounded_same; [apply Hok|]|]. intros _ _ _. by rewrite (wt_instance _ H).
Qed.

Lemma conclude_error {A} R (P : A -> Service D Ow -> Prop) st e : waits st -> wp total (pure (Err e)) st (concludes R P).
Proof. intros H. apply wp_ret; [done|]. by apply waits_concludes. Qed.

Lemma conclude_pure {A B} R (P : B -> Service D Ow -> Prop) st (o : outcome FileError A) k : waits st -> o <> Panic ->
  (forall a, o = Ok a -> wp total (k a) st (concludes R P)) -> wp total (call_bind (pure o) k) st (concludes R P).
Proof. intros H Ho Hk. apply wp_pure; [done| |done]. intros e _. by apply waits_concludes. Qed.

Lemma conclude_consult {B} R (P : B -> Service D Ow -> Prop) st (k : Z -> serving D Ow B) : waits st ->
  (forall now c o, control (s_owner st) (s_clients st) false = (now, c, o) -> waits (set_clients (set_owner st o) c) ->
     wp total (k now) (set_clients (set_owner st o) c) (concludes R P)) ->
  wp total (call_bind (consult control) k) st (concludes R P).
Proof.
  intros H Hk. apply wp_bind. unfold wp, consult. destruct (control (s_owner st) (s_clients st) false) as [[now c] o] eqn:E. split; [done|]. apply Hk; [done|].
  destruct H as [H1 H2 H3]. split; [by eapply Hctl|done|done].
Qed.

Lemma conclude_take {B} R (P : B -> Service D Ow -> Prop) st slot p (k : Transfer -> serving D Ow B) : waits st -> T slot p ->
  (forall s st', waits st' -> owns (s_clients st) slot s -> transfer_ok (s_clients st) s -> tf_id s = p_id p -> tf_context s = p_context p ->
     tf_received s = tf_total s -> is_some (tf_logical s) = (p_op p =? REPLACE_COMMIT) || (p_op p =? ADM_ACCEPT) ->
     wp total (k s) st' (concludes R P)) -> wp total (call_bind (take_transfer slot p) k) st (concludes R P).
Proof.
  intros H HT Hk. apply wp_bind. unfold take_transfer. apply wp_get_bind. apply wp_pure; [apply take_total|intros e _; by apply waits_concludes|].
  intros [s x] Hx. destruct (take_spec _ _ _ _ _ (waits_clients _ H) Hx) as (Hc & Ho & Ht & _ & E1 & E2 & E3 & _ & E5).
  apply wp_put_bind. apply wp_ret; [done|]. apply Hk; try done. destruct H as [H1 H2 H3]. split; [|done|done]. cbn. by eapply (oi_take _ _ _ HI).
Qed.

(** A grant checked on the way was live when the call began. *)
Lemma waits_live st slot peer context now g : waits st -> live_grant (s_clients st) slot peer context now g ->
  live_grant (s_clients st0) slot peer context now g.
Proof. intros H Hg. split; [|apply Hg]. eapply dwindles_live; [|exact Hg]. apply (oi_dwindles _ _ _ HI _ _ (wt_owner _ H)). Qed.

Lemma waits_owns st slot s : waits st -> owns (s_clients st) slot s -> owns (s_clients st0) slot s.
Proof. intros H (k & Hk & E). exists k. split; [|done]. by apply (dw_staged _ _ (oi_dwindles _ _ _ HI _ _ (wt_owner _ H))). Qed.

(** ** Committing a staged replacement *)
Definition first_time : Z := ((control (s_owner st0) (s_clients st0) false).1).1.

Lemma staged_spec st slot admission p r : waits st -> staged_request (s_clients st) slot admission p = Ok r ->
  exists s, owns (s_clients st) slot s /\ tf_admission s = admission /\ tf_logical s = Some r /\ rs_object (rp_resource r) = p_id p.
Proof.
  intros _ E. unfold staged_request in E. destruct (Transfers_logical _ _ _) as [x|] eqn:El; [|done]. cbn [ok_or] in E. destruct (negb _) eqn:G; [done|]. injection E as ->. bools.
  destruct (logical_spec _ _ _ _ El) as (s & ? & ? & ?). by exists s.
Qed.

Lemma logical_replacement_ok s r c subject instance : transfer_ok c s -> tf_logical s = Some r -> tf_received s = tf_total s -> fits 64 subject -> fits 64 instance ->
  fs_replacement_ok subject instance (stored_replacement r) (staged_bytes s).
Proof.
  intros Ht Hr Er Hs Hi. split; [|done]. destruct (transfer_bytes_spec _ _ Ht Er) as (_ & B & _). destruct (to_logical _ _ Ht _ Hr) as [(_ & _ & _ & _ & _ & Hk) _].
  split; [done| |done]. cbn. apply Hk.
Qed.

(** What a completed commit has done.  The client staged the bytes for the object
    named; the request's key now names exactly that replacement; and either it
    already did and nothing changed, or it named nothing, the object was still at
    the version the request expects, the grant may write it, and it now holds the
    staged bytes. *)
Definition committed (slot : nat) (peer : Z) (p : Packet) st : Prop := exists s r now g receipt,
  owns (s_clients st0) slot s /\ tf_logical s = Some r /\ tf_id s = p_id p /\ tf_context s = p_context p /\ tf_received s = tf_total s /\
  fp_id (stored_replacement r) = p_id p /\
  live_grant (s_clients st) slot peer (p_context p) now g /\
  remembered (s_volume st) (fg_subject g) (stored_replacement r) (staged_bytes s) receipt /\
  ((remembered (s_volume st0) (fg_subject g) (stored_replacement r) (staged_bytes s) receipt /\ world st = world st0) \/
   (unanswered (s_volume st0) (s_disk st0) (fg_subject g) (stored_replacement r) /\
    FileGrant_access g (s_volume st0) (p_id p) true = Ok tt /\
    forall id, shows (world st) id = spec_replace (shows (world st0)) (p_id p) (Volume_sequence (s_volume st0) + 1) (staged_bytes s) id)).

Lemma authorized_commit v g r new : operation_authorize v g r = Ok new ->
  (new = true -> operation_by_retry v (fg_subject g) (ws_root (rp_workspace r)) (stored_retry (rp_workspace r) (rp_retry r)) = Err EOutcomeUnknown /\
     FileGrant_access g v (rs_object (rp_resource r)) true = Ok tt) /\
  (new = false -> exists old, operation_by_retry v (fg_subject g) (ws_root (rp_workspace r)) (stored_retry (rp_workspace r) (rp_retry r)) = Ok old).
Proof.
  unfold operation_authorize. destruct (_ || _); [done|]. destruct (operation_by_retry _ _ _ _) as [old|e|]; [|destruct e; try done|done].
  - destruct (operation_inspect _ _ _ _); [|done..]. intros [= <-]. split; [done|]. by exists old.
  - destruct (FileGrant_access _ _ _ _) as [[]| |]; [|done..]. destruct (Volume_resolve _ _ _); [|done..]. intros [= <-]. done.
Qed.

(** An intent that may publish only when [b]. *)
Definition gated (b : bool) (N : intent) : intent := mkIntent (it_replay N) (fun next after => b = true /\ it_next N next after).

Lemma scoped_starts R v (d : D) subject instance request bytes (new : bool) : sound (v, d) -> fs_replacement_ok subject instance request bytes ->
  (new = false -> exists old, operation_by_retry v subject (fp_workspace request) (fp_retry request) = Ok old) -> (new = true -> weaker (only (fp_id request)) R) ->
  starts R (fun receipt => gated new (scoped_intent v d subject request bytes receipt)) v d (prepare_scoped v d subject instance request bytes).
Proof.
  intros H Hr Hold Hnew. apply starts_intro; [by apply scoped_prepares|]. intros q Eq. destruct (scoped_within v d _ _ _ _ q H Hr Eq) as [Hq Hrep].
  destruct new; [eapply within_weaken; [by apply Hnew|..|exact Hq]; [done|by split]|]. specialize (Hrep (Hold eq_refl)). split; [done|]. left. split; [|done].
  destruct (scoped_prepared _ _ _ _ _ _ _ Eq) as (Hp & Hl & [(old & -> & Eo & E1 & E2 & E3)|(r & slot & k & n' & next & first & node & U & Hrs & Hs & Hq' & Hle & Hpl & Enew)]).
  - by exists old.
  - exfalso. by rewrite Enew in Hrep.
Qed.

Lemma scoped_result_fits v (d : D) subject instance request bytes q : volume_ok v -> prepare_scoped v d subject instance request bytes = Ok q ->
  fits 64 (fr_committed (pb_result q)).
Proof.
  intros Hv Eq. destruct (scoped_prepared _ _ _ _ _ _ _ Eq) as (Hp & Hl & [(old & -> & Eo & _)|(r & slot & k & n' & next & first & node & U & Hrs & Hs & Hq & Hle & Hpl & Enew)]).
  - destruct (operation_record _ _ _ _ _ Eo) as (i & x & [(r & Hr & Hx) _ _ _] & Ro). destruct (record_operation_fits v r i x old Hv Hp Hr Hx Ro) as [[] _ _]. done.
  - assert (Ek : pb_result q = mkFsReceipt (fp_retry request) (fp_id request) (fp_version request) k (Z.of_nat (length bytes))) by (rewrite Enew; reflexivity).
    rewrite Ek. cbn [fr_committed]. destruct (mo_sequence _ (Hv Hp)) as [? _]. eapply fits_sequence; [| |exact Hq]; lia.
Qed.

Lemma only_allowed st slot peer context now g id : live_grant (s_clients st) slot peer context now g -> FileGrant_access g (s_volume st) id true = Ok tt ->
  weaker (only id) (allowed st slot peer context now).
Proof. intros Hl Ha k a b Hk. exists g. split; [done|]. by eapply only_written. Qed.

Lemma commit_request_wp slot peer p : Packet_valid p -> (p_op p = REPLACE_COMMIT -> T slot p) ->
  wp total (commit_request fuel slot peer p control) st0
    (concludes (naming (p_id p) (allowed st0 slot peer (p_context p) first_time)) (fun reply st => reply_ok p reply /\ committed slot peer p st)).
Proof.
  intros Hv HT. unfold commit_request. pose proof waits_start as H0. apply conclude_pure; [done|by apply validate_total|]. intros _ _.
  destruct (negb _) eqn:Eop; [by apply conclude_error|]. apply negb_false_iff, Z.eqb_eq in Eop.
  apply conclude_consult; [done|]. intros now c o Ec H1. assert (Et : first_time = now) by (unfold first_time; by rewrite Ec). set (st1 := set_clients _ _) in *.
  apply wp_get_bind. apply conclude_pure; [done|auto with total|]. intros g Hg. apply ok_or_Ok in Hg. apply conclude_pure; [done|auto with total|]. intros [] Hc.
  assert (Hl : live_grant (s_clients st0) slot peer (p_context p) now g) by (by apply (waits_live st1)).
  apply conclude_pure; [done|apply staged_request_total|]. intros r Hr. destruct (staged_spec st1 _ _ _ _ H1 Hr) as (s & Hs & _ & Hlog & Eobj).
  apply conclude_pure; [done|apply operation_authorize_total|]. intros new Ha.
  apply conclude_take; [done|by apply HT|]. intros s' st2 H2 Hs' Ht Eid Ectx Er _. assert (s' = s) as -> by (eapply owns_unique; [apply (waits_clients st1 H1)|exact Hs'|exact Hs]).
  destruct (transfer_bytes_spec _ _ Ht Er) as (Eb & Bb & _). rewrite Eb. apply conclude_pure; [done|done|]. intros ? [= <-].
  destruct (authorized_commit _ _ _ _ Ha) as [Hnew Hold]. rewrite (waits_volume _ H1) in *. assert (Ei : s_instance st1 = s_instance st0) by apply H1. rewrite Ei.
  assert (Ew2 : world st2 = world st0) by apply H2. injection Ew2 as Ev2 Ed2.
  assert (Hrep : fs_replacement_ok (fg_subject g) (s_instance st0) (stored_replacement r) (staged_bytes s)).
  { eapply logical_replacement_ok; [exact Ht|done|done| |apply Hok]. apply (proj1 (co_grant _ (sv_clients _ Hok) slot g (proj1 Hl))). }
  set (R := naming (p_id p) (allowed st0 slot peer (p_context p) first_time)). set (N := fun receipt => gated new (scoped_intent (s_volume st0) (s_disk st0) (fg_subject g) (stored_replacement r) (staged_bytes s) receipt)).
  apply wp_bind. eapply wp_mono; [apply (commit_publication_wp total fuel Hfuel I R N)|].
  - intros. by eapply trusted_expires.
  - rewrite (wt_world _ H2). apply Hok.
  - apply H2.
  - rewrite Ev2, Ed2. apply (scoped_starts R); [apply Hok|exact Hrep|exact Hold|]. intros E k x y Hk. split; [unfold only in Hk; rewrite Hk; exact Eobj|]. rewrite Et. eapply only_allowed; [exact Hl|by apply Hnew|exact Hk].
  - intros res st3 Hnp [[G1 G2 G3] Hres]. rewrite (wt_world _ H2) in G3. destruct res as [[receipt denied]|e|]; [| |done].
    2: { split; [done| | | |done]; [rewrite G2, (wt_instance _ H2); apply Hok| |intros _ _ _; by rewrite G2, (wt_instance _ H2)].
         eapply bounded_weaken; [apply weaker_refl| |eapply bounded_retype; [exact G3|by intros ? [= <-]]]. by intros x <-. }
    rewrite Ev2, Ed2 in Hres. destruct Hres as ((q & Eq & Erq) & Hpub & Hlat & Hpo & Hlive).
    apply wp_get_bind, wp_put_bind. set (st4 := if new && _ then _ else _).
    assert (H4 : s_owner st4 = s_owner st3 /\ s_clients st4 = s_clients st3 /\ world st4 = world st3 /\ fits 64 (s_instance st4)).
    { unfold st4. destruct (_ && _); [|do 3 (split; [done|])]; [do 3 (split; [done|]); subst receipt; eapply scoped_result_fits; [|exact Eq]; apply (sound_volume_ok (world st0)), Hok|].
      rewrite G2, (wt_instance _ H2). apply Hok. }
    destruct H4 as (O4 & C4 & W4 & I4). assert (V4 : s_volume st4 = s_volume st3) by (injection W4; done).
    assert (Hdone : forall A (x : outcome FileError A) (P : A -> Service D Ow -> Prop), (forall e, x = Err e -> e <> FUncertain -> world st4 = world st0 /\ s_instance st4 = s_instance st0) ->
      (forall a, x = Ok a -> P a st4) -> concludes R P x st4).
    { assert (G4 : effect R (world st0) (world st4)) by (rewrite W4; apply G3).
      intros A x P Hx HP. split; [by rewrite O4, C4|done| | |done]; [split; [done|]|]; intros e He Hu; destruct (Hx e He Hu) as [Ew Ei4]; [|by rewrite Ei4].
      pose proof Ew as [= Ev _]. rewrite Ew. split; [apply effect_refl, Hok|done]. }
    destruct denied as [e|]; cbn [is_some].
    { apply wp_ret; [done|]. apply Hdone; [|done]. by intros ? [= <-]. }
    destruct (Hlive eq_refl) as [last Hg3]. assert (Hl3 : live_grant (s_clients st4) slot peer (p_context p) last g).
    { rewrite C4. unfold live_guard in Hg3. destruct (Clients_grant_at (s_clients st3) slot) as [g'|] eqn:Eg; [|done]. cbn [ok_or] in Hg3.
      pose proof (dwindles_live _ _ slot peer (p_context p) last g' (oi_dwindles _ _ _ HI _ _ G1) (conj Eg Hg3)) as Hi. rewrite (proj1 Hl) in Hi. injection Hi as ->. done. }
    assert (Hso : sound (world st3)) by apply (ef_sound _ _ _ (bd_effect _ _ _ _ _ G3)).
    assert (Hdo : ((world st4 = world st0 /\ s_instance st4 = s_instance st0) /\ remembered (s_volume st0) (fg_subject g) (stored_replacement r) (staged_bytes s) receipt) \/
       (unanswered (s_volume st0) (s_disk st0) (fg_subject g) (stored_replacement r) /\
        remembered (s_volume st3) (fg_subject g) (stored_replacement r) (staged_bytes s) receipt /\ FileGrant_access g (s_volume st0) (p_id p) true = Ok tt /\
        (forall id, shows (world st4) id = spec_replace (shows (world st0)) (p_id p) (Volume_sequence (s_volume st0) + 1) (staged_bytes s) id) /\
        exists o, operation_by_id (s_volume st3) (fg_subject g) (ry_lineage (fr_retry receipt)) (fr_committed receipt) = Ok o /\
          exists k, operation_receipt o = Ok k /\ FileOperation_valid k = true)).
    { destruct Hpub as [[Hrem Ew3]|(next & after & [Hn (Hret & Hun & Haft)] & Hmn & Ev3 & Hsh)].
      - left. split; [|done]. split; [rewrite W4, Ew3; apply H2|]. unfold st4. destruct new; [|cbn [andb]; rewrite G2; apply (wt_instance _ H2)].
        destruct Hrem as (prior & Eo & _). destruct (Hnew eq_refl) as [Eu _]. cbn [fp_workspace fp_retry stored_replacement] in Eo. congruence.
      - right. cbn [fp_id stored_replacement] in Haft. rewrite Eobj in Haft, Hnew. split; [exact Hun|]. split; [rewrite Ev3; by apply retained_remembered|]. split.
        + by apply Hnew.
        + split; [intros id; rewrite W4, Hsh, Haft; done|]. rewrite Ev3. destruct (retained_operation next (1 - vl_bank (s_volume st2)) _ _ _ _ Hmn Hret) as (x & Ex & Hx). exists x. split; [exact Ex|]. apply Hx. }
    assert (Hcom : committed slot peer p st4).
    { exists s, r, last, g, receipt. split; [by apply (waits_owns st1)|]. do 4 (split; [done|]). split; [exact Eobj|]. split; [done|].
      destruct Hdo as [[[Ew4 _] Hrem]|(? & ? & ? & ? & _)]; [|split; [by rewrite V4|by right]]. pose proof Ew4 as [= E4 _]. split; [by rewrite E4|]. by left. }
    apply wp_pure; [auto with total| |].
    { intros e Ee. apply Hdone; [|done]. intros _ _ _. destruct Hdo as [[? _]|(_ & _ & _ & _ & x & Ex & _)]; [done|by rewrite Ex in Ee]. }
    intros x Ex. apply stored_ok in Ex. apply wp_pure; [apply operation_receipt_total| |].
    { intros e Ee. apply Hdone; [|done]. intros _ _ _. destruct Hdo as [[? _]|(_ & _ & _ & _ & y & Ey & k & Ek & _)]; [done|congruence]. }
    intros k Ek. apply wp_ret; [apply part_total|]. apply Hdone.
    + intros e Ee _. destruct Hdo as [[? _]|(_ & _ & _ & _ & y & Ey & k' & Ek' & Hk)]; [done|]. exfalso. assert (k' = k) as -> by congruence.
      revert Ee. unfold FileOperation_part, FileOperation_encode. by rewrite Hk.
    + intros reply Er'. split; [|done]. eapply (operation_part_ok p (operation_receipt x)); [done| |by rewrite Ek].
      intros k' Hk'. apply operation_receipt_ok with (o := x); [|done]. eapply (found_operation_fits _ g (LookupId (mkOperationId _ _))); [|exact Ex]. by apply (sound_volume_ok (world st3)).
Qed.

(** ** Errors as replies *)
(** A reply tells what happened: refused without uncertainty, nothing did. *)
Record handled (R : entry_relation) (p reply : Packet) st : Prop := {
  hn_owner : I (s_owner st) (s_clients st);
  hn_instance : fits 64 (s_instance st);
  hn_reply : replied p reply;
  hn_effect : effect R (world st0) (world st);
  hn_refused : forall e, FileError_parse (p_status reply) = Err e -> e <> FUncertain ->
    effect nothing (world st0) (world st) /\ vl_poisoned (s_volume st) = vl_poisoned (s_volume st0) /\ K (s_volume st) /\ KI (s_instance st);
}.

Lemma failure_parses op context e : FileError_parse (p_status (failure op context e)) = Err e.
Proof. by destruct e. Qed.

Lemma answering_wp R (P : Packet -> Service D Ow -> Prop) p m : Packet_valid p -> (forall reply st, P reply st -> reply_ok p reply) ->
  wp total m st0 (concludes R P) ->
  wp total (answering p m) st0 (fun r st => exists reply, r = Ok reply /\ handled R p reply st /\ (p_status reply = 0 -> P reply st)).
Proof.
  intros Hv HP Hm. unfold answering. apply wp_catch. eapply wp_mono; [exact Hm|]. intros r st Hr [C1 C2 [C3 C4] C6 C5]. destruct r as [reply|e|]; [| |done].
  - pose proof (C5 reply eq_refl) as Ha. pose proof (HP _ _ Ha) as Hrep. apply wp_ret; [done|]. exists reply. split; [done|]. split; [|done].
    split; [done|done|by apply reply_replied|done|]. intros e. by rewrite (rk_status _ _ Hrep).
  - apply wp_ret; [done|]. eexists. split; [done|]. split; [split; [done|done|by apply failure_replied|done|]|].
    + intros x Ex Hu. rewrite failure_parses in Ex. injection Ex as <-. destruct (C4 e eq_refl Hu) as (? & ? & ?). do 3 (split; [done|]). by apply (C6 e).
    + by destruct e.
Qed.
End Trusted.
