(* ===== verification/SvcAdmit.v ===== *)
(** * Admissions under a trusted callback

    [admission_with], and the execution of an admission under any callback:
    accepting, cancelling and preventing an admission never change what clients
    see of the files; an execution changes the object its admission names, under
    the caller's live grant, and every answer is that of the operation asked on
    the admission asked. *)
From stdpp Require Import base list option numbers relations.
From Stdlib Require Import ZArith Lia Bool.
From S2P Require Import Prelude Bytes Codec AbiFiles AbiIdentity AbiMessages AbiReceipts AbiAdmission FsDisk FsNode FsRecovery FsFormat FsVolume FsPublication FsPublish FsTree FsInvariant FsReach FsCalls FsSpec FsHistory SvcClients SvcServer SvcPublish SvcClientsFacts SvcReplies SvcEffect SvcControl SvcServe SvcHandle SvcCommit.

Section Preparations.
Context {D : Type} {HD : Disk D} {HV : DiskView D} {HW : ViewLaws D} {HL : DiskLaws D}.
Implicit Types (v : Volume) (d : D).

Lemma prevention_starts v d subject id reason : sound (v, d) -> starts nothing (cancelled_intent v d subject id) v d (prevention_publication subject id reason v d).
Proof.
  intros H. unfold prevention_publication. pose proof (reasons_total v). destruct (prevention_reasons_enabled v) as [[]| |]; [| |done|done].
  - apply starts_intro; [by apply prevention_prepares|]. intros p. by apply prevention_within.
  - apply starts_intro; [by apply cancellation_prepares|]. intros p. by apply cancellation_within.
Qed.

Lemma admission_result_fits v d subject instance request bytes q : volume_ok v -> prepare_admission v d subject instance request bytes = Ok q ->
  fits 64 (fa_number (fs_id (pb_result q))).
Proof.
  intros Hv E. unfold prepare_admission in E. destruct (_ <? _)%nat; [done|]. destruct (admission_by_retry _ _ _ _) as [old|e|] eqn:Eo; [|destruct e; try done|done].
  - destruct (_ || _); [done|]. injection E as <-. by destruct (admission_retry_fits _ _ _ _ _ Hv Eo).
  - steps E. match goal with H : ok_or (checked_add _ 1) _ = Ok ?k |- _ => apply ok_or_Ok in H; rename H into Hk; rename k into n end.
    match goal with H : Volume_admissions v = Ok _ |- _ => apply admissions_spec in H as (Hp & _) end. destruct (mo_sequence _ (Hv Hp)) as [? _].
    match goal with H : admission_view _ = Ok ?a |- _ => rename H into Ha; rename a into view end. unfold admission_view in Ha. cbn in Ha. injection Ha as <-.
    unfold Publication_metadata in E. destruct (checked_add _ _) in E; [|done]. cbn in E.
    assert (Er : pb_result q = mkFsStatus (mkFsAdmissionId (ry_lineage (fp_retry request)) n) FAdmitted 0 None) by (injection E as <-; reflexivity).
    rewrite Er. cbn. eapply fits_sequence; [| |exact Hk]; unfold Volume_sequence; lia.
Qed.

Lemma sound_metadata (w : Volume * D) : sound w -> vl_poisoned (w.1) = false -> metadata_ok (vl_metadata (w.1)).
Proof. apply sound_volume_ok. Qed.

(** A caller whose right was found is the live grant of its slot. *)
Lemma caller_live caller c now right g : Caller_check_right caller c now right = Ok g -> live_grant c (ca_slot caller) (ca_peer caller) (ca_context caller) now g.
Proof.
  unfold Caller_check_right. destruct (Clients_grant_at c (ca_slot caller)) as [x|] eqn:Ex; [|done]. cbn [ok_or].
  destruct (FileGrant_check x _ _ now) as [[]| |] eqn:Ec; [|done..]. destruct (_ || _); [done|]. intros [= ->]. done.
Qed.

Lemma inspected v g id a : inspect_admission v g id = Ok a -> admission_by_id v (fg_subject g) id = Ok a.
Proof.
  unfold inspect_admission. destruct (admission_by_id _ _ _) as [x| |]; [|done..]. cbn. destruct (operation_inspect _ _ _ _); [|done..]. by intros [= ->].
Qed.

(** ** What a published intent says of the new world *)
Context {Ow : Type}.
Implicit Types st : Service D Ow.

Lemma cancelled_published st st' subject id status : sound (world st) -> published (cancelled_intent (s_volume st) (s_disk st) subject id status) st st' ->
  settled_before (world st) subject id status (world st') \/
  exists old new, admission_by_id (s_volume st) subject id = Ok old /\ admission_by_id (s_volume st') subject id = Ok new /\ ended_as FCancelled old new /\ av_status new = status.
Proof.
  intros H [[(old & Ho & Hs & Es) Ew]|(next & after & [_ (old & new & Ho & Hn & He & Es)] & Hm & Ev & _)]; [left; by exists old|right].
  exists old, new. split; [done|]. split; [|done]. pose proof (held_admission (s_volume st') subject new) as Hh. rewrite Ev in Hh |- *. specialize (Hh Hm eq_refl Hn).
  pose proof He as (_ & _ & Eid & _). rewrite Eid, (admission_names _ _ _ _ (sound_metadata _ H) Ho) in Hh. done.
Qed.

Lemma admitted_published st st' subject id old : sound (world st) -> admission_by_id (s_volume st) subject id = Ok old -> fs_state (av_status old) = FAdmitted ->
  published (admitted_intent (s_volume st) (s_disk st) subject old) st st' ->
  exists new, admission_by_id (s_volume st') subject id = Ok new /\ executed (world st) subject id (av_status new) (world st').
Proof.
  intros H Ho Es [[Hx _]|(next & after & ((new & Hn & He) & Hat & ->) & Hm & Ev & Hsh)]; [cbn in Hx; congruence|]. exists new.
  assert (Ha : admission_by_id (s_volume st') subject id = Ok new).
  { pose proof (held_admission (s_volume st') subject new) as Hh. rewrite Ev in Hh |- *. specialize (Hh Hm eq_refl Hn).
    pose proof He as (_ & _ & Eid & _). rewrite Eid, (admission_names _ _ _ _ (sound_metadata _ H) Ho) in Hh. done. }
  split; [done|]. by exists old, new.
Qed.

Lemma accepted_published st st' subject request bytes status : sound (world st) -> effect nothing (world st) (world st') ->
  published (accepted_intent (s_volume st) (s_disk st) subject request bytes status) st st' ->
  exists a, av_status a = status /\ accepted (world st) subject request bytes a (world st').
Proof.
  intros H He [[(a & Ha & Er & Eb & Es) Ew]|(next & after & (Hu & Hat & -> & a & Hn & Er & Eb & Es & Ed) & Hm & Ev & _)]; exists a; (split; [done|]).
  - rewrite Ew. destruct (retry_holds _ _ _ _ _ Ha) as (Hh & Hp & _). split; [apply held_admission; [by apply (sound_metadata _ H)|done|done]|]. do 2 (split; [done|]). by left.
  - split; [cbn; rewrite Ev; by apply held_admission|]. do 2 (split; [done|]). right. by rewrite Es.
Qed.
End Preparations.

Section Admit.
Context {D Ow : Type} {HD : Disk D} {HV : DiskView D} {HW : ViewLaws D} {HL : DiskLaws D} {HQ : PollDisk D} {HPL : PollLaws D} {HS : Digest} {HSL : DigestLaws}.
Context (total : bool) (fuel : nat) (Hfuel : total = true -> prompt (D := D) /\ (17 < fuel)%nat).
Context (st0 : Service D Ow) (Hok : service_ok st0) (T : nat -> Packet -> Prop) (I : Ow -> Clients -> Prop)
  (HI : owner_invariant (s_clients st0) T I) (HI0 : I (s_owner st0) (s_clients st0)).
Context (K : Volume -> Prop) (KI : Z -> Prop) (HK : K (s_volume st0)) (HKI : KI (s_instance st0)).
Implicit Types st : Service D Ow.

#[local] Abbreviation waits := (waits st0 I).
#[local] Abbreviation concludes := (concludes st0 I K KI).

(** Publications happened that left no trace in the files. *)
Record untraced st : Prop := {
  ut_owner : I (s_owner st) (s_clients st);
  ut_instance : fits 64 (s_instance st);
  ut_effect : effect nothing (world st0) (world st);
  ut_poisoned : vl_poisoned (s_volume st) = vl_poisoned (s_volume st0);
}.

(** Nor any that a refusal may not leave. *)
Record quiet st : Prop := {
  qt_untraced : untraced st;
  qt_volume : K (s_volume st);
  qt_named : KI (s_instance st);
}.

Lemma waits_untraced st : waits st -> untraced st.
Proof.
  intros H. pose proof (waits_service st0 Hok T I HI st H) as Hs. split; [apply H|apply Hs|rewrite (wt_world _ _ _ H); apply effect_refl, Hok|].
  by rewrite (waits_volume _ _ _ H).
Qed.

Lemma waits_quiet st : waits st -> quiet st.
Proof. intros H. split; [by apply waits_untraced|by rewrite (waits_volume _ _ _ H)|by rewrite (wt_instance _ _ _ H)]. Qed.

Lemma untraced_sound st : untraced st -> sound (world st).
Proof. intros H. apply (ef_sound _ _ _ (ut_effect _ H)). Qed.

Lemma quiet_concludes {A} R (P : A -> Service D Ow -> Prop) st r : quiet st -> (forall a, r = Ok a -> P a st) -> concludes R P r st.
Proof. intros [[Q1 Q2 Q3 Q4] Q5 Q6] HP. split; [done|done| |done|done]. split; [by eapply effect_weaken; [apply nothing_weaker|]|]. by intros. Qed.

(** Whatever happened, an answer or [Uncertain] may follow. *)
Lemma done_concludes {A} R (P : A -> Service D Ow -> Prop) st r : I (s_owner st) (s_clients st) -> fits 64 (s_instance st) -> effect R (world st0) (world st) ->
  (forall e, r = Err e -> e = FUncertain) -> (forall a, r = Ok a -> P a st) -> concludes R P r st.
Proof. intros H1 H2 H3 He HP. split; [done|done| | |done]; [split; [done|]|]; intros e Ee Hu; by destruct (Hu (He e Ee)). Qed.

Lemma untraced_concludes {A} R (P : A -> Service D Ow -> Prop) st r : untraced st -> (forall e, r = Err e -> e = FUncertain) -> (forall a, r = Ok a -> P a st) -> concludes R P r st.
Proof. intros [U1 U2 U3 U4]. apply done_concludes; [done|done|]. by eapply effect_weaken; [apply nothing_weaker|]. Qed.

Lemma quiet_ret {A} R (P : A -> Service D Ow -> Prop) st r : quiet st -> r <> Panic -> (forall a, r = Ok a -> P a st) -> wp total (pure r) st (concludes R P).
Proof. intros H Hr HP. apply wp_ret; [done|]. by apply quiet_concludes. Qed.

Lemma quiet_pure {A B} R (P : B -> Service D Ow -> Prop) st (o : outcome FileError A) k : quiet st -> o <> Panic ->
  (forall a, o = Ok a -> wp total (k a) st (concludes R P)) -> wp total (call_bind (pure o) k) st (concludes R P).
Proof. intros H Ho Hk. apply wp_pure; [done| |done]. intros e _. by apply quiet_concludes. Qed.

(** A step that left no trace, then the rest. *)
Lemma governed_untraced {A} st (a : A) st' : untraced st -> governed I nothing st (Ok a) st' -> vl_poisoned (s_volume st') = vl_poisoned (s_volume st) -> untraced st'.
Proof.
  intros [Q1 Q2 Q3 Q4] [G1 G2 G3] Hp. split; [done|by rewrite G2| |congruence]. eapply effect_trans; [apply nothing_chained|done|apply G3].
Qed.

Lemma governed_error {A B} R (P : B -> Service D Ow -> Prop) st st' e : quiet st -> governed I nothing st (@Err _ A e) st' -> concludes R P (Err e) st'.
Proof.
  intros [[Q1 Q2 Q3 Q4] Q5 Q6] [G1 G2 G3]. split; [done|by rewrite G2| |intros _ _ _; by rewrite G2|done]. eapply bounded_weaken; [apply nothing_weaker|intros v Hv; exact Hv|].
  eapply bounded_after; [apply nothing_chained|exact Q3|exact Q4|]. eapply bounded_retype; [|intros ? [= <-]; reflexivity].
  eapply bounded_weaken; [apply weaker_refl| |exact G3]. by intros v <-.
Qed.

(** An error on the way is the answer. *)
Lemma concludes_error {A B} R (P : A -> Service D Ow -> Prop) (P' : B -> Service D Ow -> Prop) st e : concludes R P (Err e) st -> concludes R P' (Err e) st.
Proof. intros [C1 C2 C3 C4 C5]. split; [done|done| | |done]; [eapply bounded_retype; [exact C3|by intros ? [= <-]]|]. intros x [= <-]. by apply C4. Qed.

Lemma concludes_mono {A} R (P P' : A -> Service D Ow -> Prop) r st : (forall a, P a st -> P' a st) -> concludes R P r st -> concludes R P' r st.
Proof. intros HP [C1 C2 C3 C4 C5]. split; auto. Qed.

(** The owner never takes a grant from the clients. *)
Definition steady : Prop := forall o c, I o c -> cl_grants c = cl_grants (s_clients st0).

(** A caller found live at a time is not refused at that time by a steady owner. *)
Lemma steady_refused (loses : Prop) caller need now n o c o' c' g : loses \/ (steady /\ n = now) -> I o c -> Caller_check_right caller c now need = Ok g -> I o' c' ->
  refused_caller (Some (caller, need)) c' n -> loses.
Proof.
  intros [?|[H ->]] Hc Hg Hc' (a & k & e & [= -> ->] & He); [done|]. exfalso. unfold Caller_check_right, Clients_grant_at in *.
  rewrite (H _ _ Hc) in Hg. rewrite (H _ _ Hc') in He. congruence.
Qed.

(** ** Publications that leave no trace *)
Lemma prevent_wp (control : active_control) st subject id reason active R :
  (forall o c active now c' active' o', I o c -> control o c active = (now, c', active', o') -> I o' (Clients_expire c' now)) -> quiet st ->
  wp total (prevent_admission_active fuel subject id reason active control) st (concludes R (fun r st' => untraced st' /\ s_instance st' = s_instance st /\
    fs_state (r.1) = FCancelled /\ published (cancelled_intent (s_volume st) (s_disk st) subject id (r.1)) st st')).
Proof.
  intros Hctl H. pose proof (qt_untraced _ H) as Hu. unfold prevent_admission_active. apply wp_bind.
  eapply wp_mono; [apply (drive_stoppable_wp total fuel Hfuel I False False (fun l c => I (l.1) c) nothing (cancelled_intent (s_volume st) (s_disk st) subject id))|].
  - done.
  - intros [o a] c phase pending now stop c' l' Hc. unfold watch. cbn [fst snd]. destruct (control o c _) as [[[n c1] a'] o1] eqn:E. intros [= <- <- <- <-].
    split; [by eapply Hctl|]. split; [done|]. by intros (? & ? & ? & ? & _).
  - by apply untraced_sound.
  - by apply prevention_starts, untraced_sound.
  - apply Hu.
  - intros r st' Hr [G Hp]. destruct r as [[s l]|e|]; [|by eapply governed_error|done]. destruct Hp as (_ & _ & Hpo & Hres). assert (H' : untraced st') by (by eapply governed_untraced).
    unfold retired. cbn [fst snd]. destruct (se_result s) as [x|]; cbn [ok_or].
    + destruct (negb _) eqn:E; [apply wp_pure; [done| |done]; intros ? [= <-]; by apply untraced_concludes; [|intros ? [= <-]|]|]. apply negb_false_iff, bool_decide_eq_true in E.
      apply wp_pure; [done|done|]. intros ? [= <-]. apply wp_ret; [done|]. apply untraced_concludes; [done|done|]. intros ? [= <-]. split; [done|]. split; [apply G|]. split; [done|]. apply Hres.
    + apply wp_pure; [done| |done]. intros ? [= <-]. by apply untraced_concludes; [|intros ? [= <-]|].
Qed.

Section Plain.
Context (control : owner_control (Ow := Ow)) (Hctl : trusted I control).

Lemma waits_consult {B} R (P : B -> Service D Ow -> Prop) st (k : Z -> serving D Ow B) : waits st ->
  (forall now st', waits st' -> (exists o c, control o c false = (now, s_clients st', s_owner st')) -> wp total (k now) st' (concludes R P)) ->
  wp total (call_bind (consult control) k) st (concludes R P).
Proof.
  intros [Q1 Q2 Q3] Hk. apply wp_bind. unfold wp, consult. destruct (control (s_owner st) (s_clients st) false) as [[now c] o] eqn:E. split; [done|].
  apply Hk; [|by eexists _, _]. split; [by eapply Hctl|done|done].
Qed.

(** The callback tells one time only. *)
Definition clock (now : Z) : Prop := forall o c pending n c' o', control o c pending = (n, c', o') -> n = now.

Lemma plain_drive {X B} loses R (P : B -> Service D Ow -> Prop) N st (prepare : Volume -> D -> outcome FsError (Publication D X)) caller (k : Settled X -> serving D Ow B) :
  (forall o c pending now c' o', I o c -> control o c pending = (now, c', o') -> refused_caller caller (Clients_expire c' now) now -> loses) ->
  quiet st -> starts nothing N (s_volume st) (s_disk st) (prepare (s_volume st) (s_disk st)) ->
  (forall s st', untraced st' -> s_instance st' = s_instance st -> driven False loses N prepare st s st' -> wp total (k s) st' (concludes R P)) ->
  wp total (call_bind (drive fuel prepare caller control) k) st (concludes R P).
Proof.
  intros Hlo H Hs Hk. apply wp_bind. eapply wp_mono; [apply (drive_wp total fuel Hfuel I loses nothing N)|].
  - intros o c pending now c' o' Hc E. split; [by eapply Hctl|by eapply Hlo].
  - by apply untraced_sound, H.
  - apply H.
  - done.
  - intros r st' Hr [G Hp]. destruct r as [s|e|]; [|by eapply governed_error|done]. apply Hk; [|apply G|done]. eapply governed_untraced; [apply H|exact G|apply Hp].
Qed.

(** The grant of a caller is the one its slot had when the call began. *)
Lemma waits_caller st caller now right g : waits st -> Caller_check_right caller (s_clients st) now right = Ok g ->
  live_grant (s_clients st0) (ca_slot caller) (ca_peer caller) (ca_context caller) now g.
Proof. intros H Hg. apply caller_live in Hg. by apply (waits_live st0 T I HI st). Qed.

Lemma retire_wp st subject id R : quiet st -> wp total (retire_admission fuel subject id control) st (concludes R (fun _ => untraced)).
Proof.
  intros H. unfold retire_admission. eapply (plain_drive False R _ (cancelled_intent (s_volume st) (s_disk st) subject id)); [by intros ??????? _ (? & ? & ? & ? & _)|done| |].
  { apply prevention_starts, untraced_sound, H. }
  intros s st' H' _ _. unfold retired. destruct (se_result s) as [x|]; cbn [ok_or]; [destruct (negb _)|];
    (apply wp_pure; [done| |]; [intros ? [= <-]; by apply untraced_concludes; [|intros ? [= <-]|]|]); [done| |done].
  intros y _. apply wp_ret; [done|]. by apply untraced_concludes.
Qed.

(** A name for the incarnation is not seen by the clients. *)
Lemma named_untraced st n : untraced st -> fits 64 n -> untraced (set_instance st n).
Proof. intros [U1 U2 U3 U4] Hn. by split. Qed.

Lemma admit_wp (loses : Prop) st caller request bytes R : waits st ->
  (forall subject instance, fits 64 subject -> fits 64 instance -> fs_replacement_ok subject instance request bytes) ->
  (loses -> (forall v, K v) /\ (forall n, KI n)) -> loses \/ (steady /\ exists n, clock n) ->
  wp total (admit_with fuel caller request bytes control) st (concludes R (fun status st' => exists g a,
    Clients_grant_at (s_clients st0) (ca_slot caller) = Some g /\ av_status a = status /\ untraced st' /\ accepted (world st0) (fg_subject g) request bytes a (world st'))).
Proof.
  intros H Hr Hloose Hst. unfold admit_with. apply waits_consult; [done|]. intros now st1 H1 (o & c & Ec). pose proof (waits_quiet _ H1) as Hq1. apply wp_get_bind.
  apply quiet_pure; [done|apply right_total|]. intros g Hg. pose proof (waits_caller _ _ _ _ _ H1 Hg) as [Hg0 _]. apply quiet_pure; [done|apply admission_authorize_total|]. intros new _.
  assert (Hrep : fs_replacement_ok (fg_subject g) (s_instance st1) request bytes) by (apply Hr; [apply (proj1 (co_grant _ (sv_clients _ Hok) _ _ Hg0))|apply Hq1]).
  eapply (plain_drive loses R _ (accepted_intent (s_volume st1) (s_disk st1) (fg_subject g) request bytes)).
  { intros o' c' pending n c'' o'' Hc E. eapply (steady_refused loses caller INSPECT_RIGHT now n); [|apply H1|exact Hg|by eapply Hctl].
    destruct Hst as [?|(Hs & n0 & Hn)]; [by left|right]. split; [done|]. by rewrite (Hn _ _ _ _ _ _ E), (Hn _ _ _ _ _ _ Ec). }
  { done. }
  { apply starts_intro; [apply admission_prepares; [by apply untraced_sound, Hq1|done]|]. intros p. apply admission_within; [by apply untraced_sound, Hq1|done]. }
  intros s st2 H2 Ei (_ & Hlo & _ & Hres). rewrite (wt_world _ _ _ H1) in Hres.
  assert (Hfit : forall status, se_result s = Some status -> fits 64 (fa_number (fs_id status))).
  { intros status E. rewrite E in Hres. destruct Hres as [(p & Ep & <-) _]. eapply admission_result_fits; [|exact Ep]. apply (sound_volume_ok (world st1)). by apply untraced_sound, Hq1. }
  apply wp_bind. destruct (se_denied s) as [e|] eqn:Ed.
  - destruct (Hloose (Hlo ltac:(done))) as [Kv Kn]. assert (Hq : forall st', untraced st' -> quiet st') by (intros st' Hu; by split).
    assert (Hend : forall st', untraced st' -> wp total (pure (Err e)) st' (concludes R (fun status st' => exists g a,
       Clients_grant_at (s_clients st0) (ca_slot caller) = Some g /\ av_status a = status /\ untraced st' /\ accepted (world st0) (fg_subject g) request bytes a (world st')))).
    { intros st' Hu. apply quiet_ret; [by apply Hq|done|done]. }
    destruct new; [|apply wp_ret; [done|by apply Hend]]. destruct (se_result s) as [status|]; [|apply wp_ret; [done|by apply Hend]].
    apply wp_bind. unfold name_instance. apply wp_get_bind, wp_put. cbn [is_some]. set (st3 := if _ =? 0 then _ else _).
    assert (H3 : untraced st3) by (unfold st3; destruct (_ =? 0); [apply named_untraced; [done|by apply Hfit]|done]).
    eapply wp_mono; [by apply (retire_wp st3 _ _ R), Hq|]. intros [[]|x|] st' Hp Hx; [|by eapply concludes_error|done]. apply Hend. by apply (cn_answer _ _ _ _ _ _ _ _ Hx tt).
  - destruct (se_result s) as [status|]; [|destruct Hres as (_ & _ & [[]|[]]); done]. destruct Hres as [_ Hpub].
    assert (Hend : forall st', untraced st' -> world st' = world st2 -> wp total (pure (ok_or (Some status) FUncertain)) st' (concludes R (fun status st' => exists g a,
       Clients_grant_at (s_clients st0) (ca_slot caller) = Some g /\ av_status a = status /\ untraced st' /\ accepted (world st0) (fg_subject g) request bytes a (world st')))).
    { intros st' Hu Ew. apply wp_ret; [done|]. apply untraced_concludes; [done|done|]. intros ? [= <-].
      assert (Hacc : exists a, av_status a = status /\ accepted (world st1) (fg_subject g) request bytes a (world st2)).
      { eapply accepted_published; [by apply untraced_sound, Hq1| |exact Hpub]. rewrite (wt_world _ _ _ H1). apply H2. }
      destruct Hacc as (a & Ea & Ha). exists g, a. rewrite Ew. rewrite (wt_world _ _ _ H1) in Ha. done. }
    destruct new; [|apply wp_ret; [done|by apply Hend]]. apply wp_bind. unfold name_instance. apply wp_get_bind, wp_put. cbn [is_some].
    apply wp_ret; [done|]. destruct (_ =? 0); [|by apply Hend]. apply Hend; [|done]. apply named_untraced; [done|by apply Hfit].
Qed.

Lemma cancel_wp st caller id R : waits st -> wp total (cancel_admission_with fuel caller id control) st (concludes R (fun status st' => exists g,
    Clients_grant_at (s_clients st0) (ca_slot caller) = Some g /\ untraced st' /\
    (settled_before (world st0) (fg_subject g) id status (world st') \/ withdrawn (world st0) (fg_subject g) id status (world st')))).
Proof.
  intros H. unfold cancel_admission_with. apply waits_consult; [done|]. intros now st1 H1 _. pose proof (waits_quiet _ H1) as Hq1. apply wp_get_bind.
  apply quiet_pure; [done|apply right_total|]. intros g Hg. pose proof (waits_caller _ _ _ _ _ H1 Hg) as [Hg0 _].
  apply quiet_pure; [done|auto with total|]. intros old _. apply quiet_pure; [done|auto with total|]. intros _ _.
  eapply (plain_drive True R _ (cancelled_intent (s_volume st1) (s_disk st1) (fg_subject g) id)); [done|done| |].
  { pose proof (untraced_sound _ (qt_untraced _ Hq1)) as Hs. apply starts_intro; [by apply cancellation_prepares|]. intros p. by apply cancellation_within. }
  intros s st2 H2 Ei (_ & _ & _ & Hres). unfold denied_outcome. destruct (se_result s) as [status|].
  - cbn [is_some ok_or]. destruct Hres as [_ Hpub]. destruct (se_denied s); [apply wp_pure; [done| |done]; intros ? [= <-]; by apply untraced_concludes; [|intros ? [= <-]|]|].
    apply wp_pure; [done|done|]. intros _ _. apply wp_ret; [done|]. apply untraced_concludes; [done|done|]. intros ? [= <-]. exists g. split; [done|]. split; [done|].
    apply cancelled_published in Hpub; [|by apply untraced_sound, Hq1]. rewrite (wt_world _ _ _ H1), (waits_volume _ _ _ H1) in Hpub.
    destruct Hpub as [?|(a & new & Ha & Hn & He & Es)]; [by left|right]. exists a, new. do 4 (split; [done|]). apply H2.
  - destruct Hres as (_ & Ev & _). assert (Hq2 : quiet st2) by (split; [done|rewrite Ev; apply Hq1|rewrite Ei; apply Hq1]).
    cbn [is_some ok_or]. apply quiet_pure; [done|by destruct (se_denied s)|]. intros _ _. by apply quiet_ret.
Qed.
End Plain.

(** ** Execution *)
Section Active.
Context (control : active_control (Ow := Ow)) (stops loses : Prop) (now0 : Z).
Hypothesis (Hctl : forall o c active now c' active' o', I o c -> control o c active = (now, c', active', o') -> I o' c' /\ I o' (Clients_expire c' now)).
(** The callback asks for a stop only if [stops]; a caller found live at [now0] is lost only if [loses]. *)
Hypothesis (Hstops : forall o c active now c' active' o', I o c -> Active_stopping active = false -> control o c active = (now, c', active', o') ->
  stops \/ Active_stopping active' = false).
Hypothesis (Hloses : loses \/ (steady /\ forall o c active n c' active' o', control o c active = (n, c', active', o') -> n = now0)).

(** The volume as the call found it, or with the admission of [id] withdrawn. *)
Definition retired_in (v0 : Volume) (subject : Z) (id : FsAdmissionId) (v : Volume) : Prop := exists old new,
  admission_by_id v0 subject id = Ok old /\ admission_by_id v subject id = Ok new /\ ended_as FCancelled old new.

(** How an execution that answers ended. *)
Definition concluded (subject : Z) (id : FsAdmissionId) (status : FsStatus) st : Prop :=
  settled_before (world st0) subject id status (world st) \/ executed (world st0) subject id status (world st) \/
  (stops /\ withdrawn (world st0) subject id status (world st)).

(** An execution after its publication settled: published, or withdrawn. *)
Record progressed R (subject : Z) (id : FsAdmissionId) (done : bool) st : Prop := {
  pg_owner : I (s_owner st) (s_clients st);
  pg_instance : s_instance st = s_instance st0;
  pg_effect : effect R (world st0) (world st);
  pg_done : exists new, admission_by_id (s_volume st) subject id = Ok new /\
    if done then executed (world st0) subject id (av_status new) (world st)
    else untraced st /\ withdrawn (world st0) subject id (av_status new) (world st);
}.

Lemma progressed_fits R subject id b st : progressed R subject id b st -> fits 64 (s_instance st).
Proof. intros H. rewrite (pg_instance _ _ _ _ _ H). apply Hok. Qed.

Lemma progressed_uncertain {A} R subject id b st (P : A -> Service D Ow -> Prop) : progressed R subject id b st -> concludes R P (Err FUncertain) st.
Proof. intros H. apply done_concludes; [apply H|by eapply progressed_fits|apply H|by intros ? [= <-]|done]. Qed.

Lemma progressed_clients R subject id b st o c : progressed R subject id b st -> I o c -> progressed R subject id b (set_clients (set_owner st o) c).
Proof.
  intros [P1 P2 P3 (new & P4 & P5)] Hc. split; [done|done|done|]. exists new. split; [done|]. destruct b; [exact P5|]. destruct P5 as [[Q1 Q2 Q3 Q4] P6]. split; [by split|exact P6].
Qed.

(** Prevention of an admission that is still admitted. *)
Lemma withdraw_wp st subject id reason active old R : quiet st -> s_volume st = s_volume st0 -> s_instance st = s_instance st0 ->
  admission_by_id (s_volume st0) subject id = Ok old -> fs_state (av_status old) = FAdmitted ->
  wp total (prevent_admission_active fuel subject id reason active control) st (concludes R (fun r st' => progressed R subject id false st' /\
    withdrawn (world st0) subject id (r.1) (world st'))).
Proof.
  intros H Ev Ei Ho Hs. eapply wp_mono; [apply (prevent_wp control st subject id reason active R); [intros; by eapply Hctl|done]|].
  intros r st' _ Hx. eapply concludes_mono; [|exact Hx]. intros [status a] (Hu & Ei' & _ & Hpub). cbn [fst] in *.
  apply cancelled_published in Hpub; [|by apply untraced_sound, H]. rewrite Ev in Hpub. destruct Hpub as [(x & Hx' & Hne & _)|(x & new & Hx' & Hn & He & Es)].
  { cbn in Hx'. rewrite Ev in Hx'. congruence. }
  assert (Hw : withdrawn (world st0) subject id status (world st')) by (exists x, new; do 4 (split; [done|]); apply Hu).
  split; [|done]. split; [apply Hu|congruence|eapply effect_weaken; [apply nothing_weaker|apply Hu]|]. exists new. split; [done|]. split; [done|by rewrite Es].
Qed.

Lemma settle_wp st subject id (s : Settled FsReceipt) active old R : admission_by_id (s_volume st0) subject id = Ok old -> fs_state (av_status old) = FAdmitted ->
  (if is_some (se_result s) then progressed R subject id true st else quiet st /\ s_volume st = s_volume st0 /\ s_instance st = s_instance st0) ->
  wp total (settle_execution fuel subject id s active control) st (concludes R (fun _ => progressed R subject id (is_some (se_result s)))).
Proof.
  intros Ho Hs H. unfold settle_execution. destruct (se_result s) as [x|]; cbn [is_some is_none negb] in *.
  - apply wp_ret; [done|]. apply done_concludes; [apply H|by eapply progressed_fits|apply H|done|by intros].
  - destruct H as (H & Ev & Ei). apply wp_bind. eapply wp_mono; [by apply (withdraw_wp st subject id _ _ old R H)|]. intros r st' Hr Hx.
    destruct r as [a|e|]; [|by eapply concludes_error|done]. destruct (cn_answer _ _ _ _ _ _ _ _ Hx a eq_refl) as [H' _].
    apply wp_ret; [done|]. apply done_concludes; [apply H'|by eapply progressed_fits|apply H'|done|by intros].
Qed.

Lemma observe_stopping a phase pending cleanup : Active_stopping (Active_observe a phase pending cleanup) = Active_stopping a.
Proof. done. Qed.

Lemma active_new_stopping v c subject old a : ActiveExecution_new v c subject old = Ok a -> Active_stopping a = false.
Proof. unfold ActiveExecution_new. destruct (Scope_new _ _ _ _); [|done..]. by intros [= <-]. Qed.

Lemma active_new_total v c subject old : ActiveExecution_new v c subject old <> Panic.
Proof. unfold ActiveExecution_new, Scope_new. auto 10 with total. Qed.

(** The publication of an execution. *)
Lemma publish_wp st caller subject id active old R c o g : quiet st -> waits st -> Active_stopping active = false ->
  Caller_check caller c now0 = Ok g -> I o c ->
  admission_by_id (s_volume st0) subject id = Ok old -> fs_state (av_status old) = FAdmitted -> weaker (only (fp_id (av_request old))) R ->
  wp total (publish_admission_active fuel caller subject id active control) st (concludes R (fun r st' =>
    (se_denied (r.1) <> None -> loses) /\ (se_result (r.1) = None -> stops \/ se_denied (r.1) <> None) /\ latched (se_denied (r.1)) /\
    if is_some (se_result (r.1)) then progressed R subject id true st' else untraced st' /\ s_volume st' = s_volume st0 /\ s_instance st' = s_instance st0)).
Proof.
  intros Hq H Hact Hg Hc Ho Hs HR. pose proof (wt_world _ _ _ H) as Ew. pose proof Ew as [= Ev Ed]. unfold publish_admission_active.
  eapply wp_mono; [apply (drive_stoppable_wp total fuel Hfuel I stops loses (fun l c => I (l.1) c /\ (stops \/ Active_stopping (l.2) = false)) R
    (fun _ => admitted_intent (s_volume st0) (s_disk st0) subject old))|].
  - by intros l c' [? _].
  - intros [o1 a1] c1 phase pending n stop c1' l1' [Hc1 Ha1]. unfold watch. cbn [fst snd] in *. destruct (control o1 c1 _) as [[[n1 c2] a2] o2] eqn:E. intros [= <- <- <- <-].
    destruct (Hctl _ _ _ _ _ _ _ Hc1 E) as [_ Hi]. cbn [fst snd].
    assert (Ha2 : stops \/ Active_stopping a2 = false) by (destruct Ha1 as [?|Ha1]; [by left|]; eapply Hstops; [exact Hc1| |exact E]; by rewrite observe_stopping).
    split; [done|]. split; [cbn [negb andb]; destruct Ha2 as [?|Ea]; [done|by rewrite Ea]|].
    eapply (steady_refused loses caller INSPECT_RIGHT now0 n1); [|exact Hc|exact Hg|exact Hi]. destruct Hloses as [?|[? Hn]]; [by left|right]. split; [done|by eapply Hn].
  - by apply untraced_sound, Hq.
  - rewrite Ev, Ed. apply starts_intro; [apply admitted_prepares, Hok|]. intros p Ep.
    eapply within_weaken; [exact HR|..|apply (admitted_within _ _ _ _ _ _ (sv_sound _ Hok) Ho Ep)]; done.
  - split; [apply H|by right].
  - intros r st1 Hr [[G1 G2 G3] Hp]. rewrite Ew in G3. rewrite (wt_instance _ _ _ H) in G2.
    destruct r as [[s a1]|e|]; [| |done].
    2: { split; [done|by rewrite G2; apply Hok| |intros _ _ _; by rewrite G2|done]. eapply bounded_weaken; [apply weaker_refl| |eapply bounded_retype; [exact G3|by intros ? [= <-]]]. by intros v <-. }
    destruct Hp as (Hlat & Hlo & Hpo & Hres). apply done_concludes; [done|by rewrite G2; apply Hok|apply G3|done|]. intros ? [= <-]. cbn [fst]. split; [done|].
    destruct (se_result s) as [x|]; cbn [is_some].
    + split; [done|]. split; [done|]. destruct Hres as [_ Hpub]. rewrite <- Ev, <- Ed in Hpub. apply (admitted_published st st1 subject id old) in Hpub; [|by apply untraced_sound, Hq|by rewrite Ev|done].
      destruct Hpub as (new & Hn & He). rewrite Ew in He. split; [done|done|apply G3|]. by exists new.
    + destruct Hres as (Hn & Ev1 & Hx). split; [done|]. split; [done|]. rewrite Ew in Hn. split; [|by rewrite Ev1, Ev]. split; [done|by rewrite G2; apply Hok|done|by rewrite Ev1, Ev].
Qed.

Lemma execute_wp st caller id g R : waits st -> Clients_grant_at (s_clients st0) (ca_slot caller) = Some g ->
  (forall old, admission_by_id (s_volume st0) (fg_subject g) id = Ok old -> FileGrant_access g (s_volume st0) (fp_id (av_request old)) true = Ok tt ->
     live_grant (s_clients st0) (ca_slot caller) (ca_peer caller) (ca_context caller) now0 g -> weaker (only (fp_id (av_request old))) R) ->
  (loses -> forall v, retired_in (s_volume st0) (fg_subject g) id v -> K v) ->
  wp total (execute_admission_active_with fuel caller id now0 control) st (concludes R (concluded (fg_subject g) id)).
Proof.
  intros H Hg HR HKr. pose proof (waits_quiet _ H) as Hq. unfold execute_admission_active_with. apply wp_get_bind. apply quiet_pure; [done|apply right_total|]. intros g' Hg'.
  pose proof (waits_caller _ _ _ _ _ H Hg') as Hl. assert (g' = g) as -> by (destruct Hl as [E _]; congruence).
  rewrite (waits_volume _ _ _ H). apply quiet_pure; [done|unfold inspect_admission, operation_inspect; auto 10 with total|]. intros old Ho. apply inspected in Ho.
  destruct (negb _) eqn:Es.
  { apply quiet_ret; [done|done|]. intros ? [= <-]. left. exists old. split; [done|]. apply negb_true_iff, bool_decide_eq_false in Es. do 2 (split; [done|]). apply H. }
  apply negb_false_iff, bool_decide_eq_true in Es. apply quiet_pure; [done|auto with total|]. intros [] Hw. apply quiet_pure; [done|apply active_new_total|]. intros active Ha.
  apply wp_bind. eapply wp_mono; [apply (publish_wp st caller (fg_subject g) id active old R (s_clients st) (s_owner st) g); try done; [by eapply active_new_stopping|apply H|by apply HR]|].
  intros r st1 Hr Hx. destruct r as [[s active1]|e|]; [|by eapply concludes_error|done]. destruct (cn_answer _ _ _ _ _ _ _ _ Hx _ eq_refl) as (Hlo & Hst & Hlat & Hres). cbn [fst snd] in *. clear Hx Hr.
  apply wp_bind. eapply wp_mono; [apply (settle_wp st1 (fg_subject g) id s active1 old R Ho Es)|].
  { destruct (is_some (se_result s)); [done|]. destruct Hres as (U & Ev & Ei). split; [|done]. split; [done|by rewrite Ev|by rewrite Ei]. }
  intros r st2 Hr Hx. destruct r as [active2|e|]; [|by eapply concludes_error|done]. pose proof (cn_answer _ _ _ _ _ _ _ _ Hx _ eq_refl) as H2. clear Hx Hr Hres.
  unfold denied_outcome. destruct (se_denied s) as [e|] eqn:Ed.
  { apply wp_pure; [done| |done]. intros ? [= <-]. destruct (is_some (se_result s)) eqn:Er; [by eapply progressed_uncertain|].
    destruct H2 as [_ Ei _ (new & Hn & [U (x & y & W1 & W2 & W3 & _)])]. cbn in W1. apply quiet_concludes; [|done]. split; [done| |by rewrite Ei]. apply HKr; [by apply Hlo|]. by exists x, y. }
  apply wp_pure; [done|done|]. intros _ _. apply wp_bind. unfold wp, consult_active. destruct (control (s_owner st2) (s_clients st2) active2) as [[[n c] active3] o] eqn:Ec. split; [done|].
  assert (H3 : progressed R (fg_subject g) id (is_some (se_result s)) (set_clients (set_owner st2 o) c)).
  { apply (progressed_clients _ _ _ _ _ _ _ H2). eapply Hctl; [apply H2|exact Ec]. }
  set (st3 := set_clients _ _) in *. apply wp_bind. unfold clients_of. apply wp_get_bind, wp_ret; [done|].
  apply wp_pure; [apply mapped_total, right_total| |].
  { intros e Ee. destruct (Caller_check _ _ _) in Ee; [done| |done]. injection Ee as <-. by eapply progressed_uncertain. }
  intros _ _. apply wp_bind. unfold volume_of. apply wp_get_bind, wp_ret; [done|]. destruct (pg_done _ _ _ _ _ H3) as (new & En & Hd). rewrite En. cbn [stored_as map_err].
  apply wp_pure; [done|done|]. intros ? [= <-]. apply wp_ret; [done|]. apply done_concludes; [apply H3|by eapply progressed_fits|apply H3|done|]. intros ? [= <-].
  destruct (se_result s) as [x|]; cbn [is_some] in Hd; [right; by left|right; right]. destruct Hd as [_ Hd]. split; [|done]. by destruct (Hst eq_refl).
Qed.
End Active.

(** ** On the wire *)
(** What one controlled request may change: an execution, the object its admission
    names, when the caller's live grant may write it. *)
Definition admission_allowed (caller : Caller) (p : Packet) (now : Z) : entry_relation := fun k _ _ => p_op p = ADM_EXECUTE /\ exists id g old,
  AdmissionId_decode p = Ok id /\ live_grant (s_clients st0) (ca_slot caller) (ca_peer caller) (ca_context caller) now g /\
  admission_by_id (s_volume st0) (fg_subject g) (stored_id id) = Ok old /\ k = fp_id (av_request old) /\ FileGrant_access g (s_volume st0) k true = Ok tt.

Lemma admission_allowed_weaker caller p now : weaker (admission_allowed caller p now) (allowed st0 (ca_slot caller) (ca_peer caller) (ca_context caller) now).
Proof. intros k a b (_ & id & g & old & _ & Hl & _ & _ & Ha). exists g. split; [done|]. by left. Qed.

(** What a request that succeeded did, by its operation: an execution or a
    cancellation acts on the admission its packet names, an acceptance on the
    transfer the client staged. *)
Definition admission_outcome (slot : nat) (p : Packet) (g : FileGrant) (a : FsAdmission) st : Prop :=
  admission_by_id (s_volume st) (fg_subject g) (fs_id (av_status a)) = Ok a /\
  ((p_op p = ADM_EXECUTE /\ exists id, AdmissionId_decode p = Ok id /\ fs_id (av_status a) = stored_id id /\
      (settled_before (world st0) (fg_subject g) (stored_id id) (av_status a) (world st) \/ executed (world st0) (fg_subject g) (stored_id id) (av_status a) (world st))) \/
   (p_op p = ADM_CANCEL /\ exists id, AdmissionId_decode p = Ok id /\ fs_id (av_status a) = stored_id id /\
      (settled_before (world st0) (fg_subject g) (stored_id id) (av_status a) (world st) \/ withdrawn (world st0) (fg_subject g) (stored_id id) (av_status a) (world st))) \/
   (p_op p = ADM_ACCEPT /\ exists s r, owns (s_clients st0) slot s /\ tf_logical s = Some r /\ tf_id s = p_id p /\ tf_context s = p_context p /\ tf_received s = tf_total s /\
      accepted (world st0) (fg_subject g) (stored_replacement r) (staged_bytes s) a (world st))).

Lemma executed_named subject id status st : executed (world st0) subject id status (world st) ->
  exists a, av_status a = status /\ admission_by_id (s_volume st) subject (fs_id status) = Ok a /\ fs_id status = id.
Proof.
  intros (old & new & Ho & Hn & He & <- & _). exists new. pose proof He as (_ & _ & Eid & _). pose proof (admission_names _ _ _ _ (sound_metadata _ (sv_sound _ Hok)) Ho) as En.
  split; [done|]. rewrite Eid, En. done.
Qed.

Lemma withdrawn_named subject id status st : withdrawn (world st0) subject id status (world st) ->
  exists a, av_status a = status /\ admission_by_id (s_volume st) subject (fs_id status) = Ok a /\ fs_id status = id.
Proof.
  intros (old & new & Ho & Hn & He & <- & _). exists new. pose proof He as (_ & _ & Eid & _). pose proof (admission_names _ _ _ _ (sound_metadata _ (sv_sound _ Hok)) Ho) as En.
  split; [done|]. rewrite Eid, En. done.
Qed.

Lemma settled_named subject id status st : settled_before (world st0) subject id status (world st) ->
  exists a, av_status a = status /\ admission_by_id (s_volume st) subject (fs_id status) = Ok a /\ fs_id status = id.
Proof.
  intros (old & Ho & _ & <- & [= Ev _]). exists old. pose proof (admission_names _ _ _ _ (sound_metadata _ (sv_sound _ Hok)) Ho) as En. rewrite En, Ev. done.
Qed.

Lemma status_reply_wp st subject a p R : Packet_valid p -> status_op (p_op p) = true -> I (s_owner st) (s_clients st) -> fits 64 (s_instance st) ->
  effect R (world st0) (world st) -> admission_by_id (s_volume st) subject (fs_id (av_status a)) = Ok a ->
  wp total (status_reply subject (fs_id (av_status a)) p) st (concludes R (fun reply st' => st' = st /\ reply_ok p reply /\ status_packet a (p_op p) (p_context p) = Ok reply)).
Proof.
  intros Hv Hop Ho Hi He Ha. pose proof (sound_volume_ok _ (ef_sound _ _ _ He)) as Hvo. cbn in Hvo. unfold status_reply. apply wp_bind. unfold volume_of. apply wp_get_bind, wp_ret; [done|].
  rewrite Ha. cbn [stored_as map_err]. apply wp_pure; [done|done|]. intros ? [= <-]. destruct (status_answered _ _ _ _ (p_op p) (p_context p) Hvo Ha Hop) as (reply & Er).
  apply wp_ret; [by rewrite Er|]. rewrite Er. apply done_concludes; [done|done|done|done|]. intros ? [= <-]. split; [done|]. split; [|done].
  eapply status_packet_ok; [done| |exact Er]. by eapply admission_id_fits.
Qed.

Lemma controlled_status op : adm_controlled op = true -> status_op op = true.
Proof. unfold adm_controlled, one_of, status_op. cbn [existsb]. rewrite orb_false_r. intros H. repeat (apply orb_true_iff in H as [-> | H]; [by rewrite ?orb_true_r|]). rewrite H. by rewrite ?orb_true_r. Qed.

Section Wire.
Context (control : owner_control (Ow := Ow)) (Hctl : trusted I control).
(** The caller's authority is lost on the way only if [loses], and then a refusal may leave anything. *)
Context (loses : Prop) (Hloose : loses -> (forall v, K v) /\ (forall n, KI n)) (Hsteady : loses \/ (steady /\ exists n, clock control n)).

Lemma execute_with_wp st caller id g R : waits st -> Clients_grant_at (s_clients st0) (ca_slot caller) = Some g ->
  (forall old, admission_by_id (s_volume st0) (fg_subject g) id = Ok old -> FileGrant_access g (s_volume st0) (fp_id (av_request old)) true = Ok tt ->
     weaker (only (fp_id (av_request old))) R) ->
  wp total (execute_admission_with fuel caller id control) st (concludes R (concluded False (fg_subject g) id)).
Proof.
  intros H Hg HR. unfold execute_admission_with. apply waits_consult; [done|done|]. intros now st1 H1 (o & c & Ec). eapply (execute_wp (pending_only control) False loses now); try done.
  - intros o1 c1 active n c' active' o' Ho. unfold pending_only. destruct (control o1 c1 _) as [[m c2] o2] eqn:E2. intros [= <- <- <- <-]. by eapply Hctl.
  - intros o1 c1 active n c' active' o' Ho Ha. unfold pending_only. destruct (control o1 c1 _) as [[m c2] o2] eqn:E2. intros [= <- <- <- <-]. by right.
  - destruct Hsteady as [?|(Hs & n0 & Hn)]; [by left|right]. split; [done|]. intros o1 c1 active n c' active' o'. unfold pending_only.
    destruct (control o1 c1 _) as [[m c2] o2] eqn:E2. intros [= <- <- <- <-]. by rewrite (Hn _ _ _ _ _ _ E2), (Hn _ _ _ _ _ _ Ec).
  - intros old Ho Ha _. by apply HR.
  - intros Hl v _. by apply (Hloose Hl).
Qed.

Lemma admission_step_wp st caller g p now : Packet_valid p -> (p_op p = ADM_ACCEPT -> T (ca_slot caller) p) -> waits st ->
  live_grant (s_clients st0) (ca_slot caller) (ca_peer caller) (ca_context caller) now g ->
  wp total (admission_step fuel caller g p control) st (concludes (admission_allowed caller p now) (fun status st' => exists a, av_status a = status /\ admission_outcome (ca_slot caller) p g a st')).
Proof.
  intros Hv HT H Hl. pose proof (waits_quiet _ H) as Hq. unfold admission_step. set (R := admission_allowed caller p now).
  destruct (Z.eqb_spec (p_op p) ADM_ACCEPT) as [Ea|Ea]; [|destruct (Z.eqb_spec (p_op p) ADM_EXECUTE) as [Ee|Ee]; [|destruct (Z.eqb_spec (p_op p) ADM_CANCEL) as [Ec|Ec]]].
  - apply wp_get_bind. apply quiet_pure; [done|apply staged_request_total|]. intros r Hr. destruct (staged_spec st0 I st _ _ _ _ H Hr) as (s & Hs & _ & Hlog & _).
    apply quiet_pure; [done|apply admission_authorize_total|]. intros new _. eapply (conclude_take total st0 Hok T I HI K KI HK HKI); [exact H|by apply HT|].
    intros s' st2 H2 Hs' Ht Eid Ectx Er _. assert (s' = s) as -> by (eapply owns_unique; [apply (waits_clients st0 T I HI st H)|exact Hs'|exact Hs]).
    destruct (transfer_bytes_spec _ _ Ht Er) as (Eb & _). rewrite Eb. apply quiet_pure; [by apply waits_quiet|done|]. intros ? [= <-].
    eapply wp_mono; [apply (admit_wp control Hctl loses st2 caller (stored_replacement r) (staged_bytes s) R); [done| |done|done]|].
    + intros subject inst Fs Fi. by eapply logical_replacement_ok.
    + intros x st' _ Hx. eapply concludes_mono; [|exact Hx]. intros status (g' & a & Hg' & Es & _ & Hacc). assert (g' = g) as -> by (destruct Hl as [E _]; congruence).
      exists a. split; [done|]. split; [apply Hacc|]. right; right. split; [done|]. exists s, r. split; [by apply (waits_owns st0 T I HI st)|done].
  - apply quiet_pure; [done|auto with total|]. intros id Hid. eapply wp_mono; [apply (execute_with_wp st caller (stored_id id) g R H (proj1 Hl))|].
    + intros old Ho Hw k x y Hk. split; [done|]. exists id, g, old. unfold only in Hk. rewrite Hk. done.
    + intros x st' _ Hx. eapply concludes_mono; [|exact Hx]. intros status [Hb|[Hb|[[] _]]].
      * destruct (settled_named _ _ _ _ Hb) as (a & Es & Ha & Eid). exists a. rewrite <- Es in *. split; [done|]. split; [done|]. left. split; [done|]. exists id. auto.
      * destruct (executed_named _ _ _ _ Hb) as (a & Es & Ha & Eid). exists a. rewrite <- Es in *. split; [done|]. split; [done|]. left. split; [done|]. exists id. auto.
  - apply quiet_pure; [done|auto with total|]. intros id Hid. eapply wp_mono; [by apply (cancel_wp control Hctl st caller (stored_id id) R)|].
    intros x st' _ Hx. eapply concludes_mono; [|exact Hx]. intros status (g' & Hg' & _ & Hb). assert (g' = g) as -> by (destruct Hl as [E _]; congruence).
    assert (Hn : exists a, av_status a = status /\ admission_by_id (s_volume st') (fg_subject g) (fs_id status) = Ok a /\ fs_id status = stored_id id) by
      (destruct Hb as [Hb|Hb]; [by eapply settled_named|by eapply withdrawn_named]).
    destruct Hn as (a & Es & Ha & Eid). exists a. rewrite <- Es in *. split; [done|]. split; [done|]. right; left. split; [done|]. by exists id.
  - by apply quiet_ret.
Qed.

(** The reply to a request that succeeded is the retained admission it acted on. *)
Definition admission_done (caller : Caller) (p reply : Packet) st : Prop := exists g a,
  live_grant (s_clients st0) (ca_slot caller) (ca_peer caller) (ca_context caller) (first_time st0 control) g /\
  admission_outcome (ca_slot caller) p g a st /\ status_packet a (p_op p) (p_context p) = Ok reply.

Lemma admission_serve_wp caller p : Packet_valid p -> (p_op p = ADM_ACCEPT -> T (ca_slot caller) p) ->
  wp total (admission_serve fuel caller p control) st0
    (concludes (admission_allowed caller p (first_time st0 control)) (fun reply st => reply_ok p reply /\ admission_done caller p reply st)).
Proof.
  intros Hv HT. pose proof (waits_start st0 I HI0) as H0. unfold admission_serve. apply quiet_pure; [by apply waits_quiet|by apply validate_total|]. intros _ _.
  destruct (_ || _) eqn:Eop; [apply quiet_ret; [by apply waits_quiet|done|done]|]. apply orb_false_iff in Eop as [Eop _]. apply negb_false_iff in Eop.
  eapply (conclude_consult total st0 I K KI control Hctl); [done|]. intros now c o Ec H1. assert (Et : first_time st0 control = now) by (unfold first_time; by rewrite Ec). set (st1 := set_clients _ _) in *.
  apply wp_bind. unfold clients_of. apply wp_get_bind, wp_ret; [done|]. apply quiet_pure; [by apply waits_quiet|apply right_total|]. intros g Hg.
  pose proof (waits_caller _ _ _ _ _ H1 Hg) as Hl. unfold admission_done. rewrite Et.
  apply wp_bind. eapply wp_mono; [apply (admission_step_wp st1 caller g p now Hv HT H1 Hl)|].
  intros r st' Hr Hx. destruct r as [status|e|]; [|by eapply concludes_error|done]. destruct (cn_answer _ _ _ _ _ _ _ _ Hx status eq_refl) as (a & <- & Ha).
  eapply wp_mono; [apply (status_reply_wp st' (fg_subject g) a p (admission_allowed caller p now) Hv (controlled_status _ Eop));
    [apply Hx|apply Hx|apply (bd_effect _ _ _ _ _ (cn_bounded _ _ _ _ _ _ _ _ Hx))|apply Ha]|].
  intros r st2 _ Hy. eapply concludes_mono; [|exact Hy]. intros reply (E & Hrep & Hpk). split; [done|]. exists g, a. split; [done|]. split; [by rewrite E|done].
Qed.
End Wire.
End Admit.
