(* ===== verification/SvcSession.v ===== *)
(** * [Server::handle] as a whole, and under one client's replacement

    dispatch.rs with the controlled requests: the disk of [handle] settles every
    command inside the call and its callback only tells the time. *)
From stdpp Require Import base list option numbers relations.
From Stdlib Require Import ZArith Lia Bool.
From S2P Require Import Prelude Bytes Codec AbiFiles AbiIdentity AbiMessages AbiReceipts AbiAdmission AbiServices FsDisk FsNode FsRecovery FsFormat FsVolume FsPublication FsTree FsInvariant FsReach FsCalls FsSpec SvcClients SvcServer SvcPublish SvcDispatch SvcClientsFacts SvcReplies SvcEffect SvcControl SvcServe SvcHandle SvcCommit SvcAdmit.

(** ** The synchronous disk *)
Lemma synchronous_laws {D} `{DiskLaws D} : @PollLaws D Synchronous_disk _.
Proof.
  split. intros [n b|] d r d' Hok; unfold Command_poll; cbn [poll_write poll_flush Synchronous_disk].
  - destruct (disk_write d n b) as [x y] eqn:E. intros [= <- <-]. pose proof (command_law (CWrite n b) d x y Hok E). by destruct x.
  - destruct (disk_flush d) as [x y] eqn:E. intros [= <- <-]. pose proof (command_law CFlush d x y Hok E). by destruct x.
Qed.

Lemma synchronous_prompt {D} `{Disk D} : @prompt D Synchronous_disk.
Proof.
  intros [n b|] x x'; unfold Command_poll; cbn [poll_write poll_flush Synchronous_disk]; [destruct (disk_write x n b)|destruct (disk_flush x)]; by intros [= ? ?].
Qed.

Section Whole.
Context {D Ow : Type} {HD : Disk D} {HV : DiskView D} {HW : ViewLaws D} {HL : DiskLaws D} {HS : Digest} {HSL : DigestLaws}.
Implicit Types st : Service D Ow.

(** The grant in [slot] has expired by [now]. *)
Definition expired_at (c : Clients) (slot : nat) (now : Z) : Prop := exists g, Clients_grant_at c slot = Some g /\ fg_expires g <> 0 /\ fg_expires g <= now.

(** The requests that take the transfer of their client before anything else can fail. *)
Definition takes (op : Z) : bool := one_of [OP_COMMIT; REPLACE_COMMIT; ADM_ACCEPT] op.

(** What a refusal leaves of the staging: every transfer, except the one its own
    client asked to complete and those of expired grants. *)
Definition sheds (slot : nat) (p : Packet) (now : Z) (c c' : Clients) : Prop := forall k,
  cl_transfers c' !! k = cl_transfers c !! k \/
  exists s, cl_transfers c !! k = Some (Some s) /\ cl_transfers c' !! k = Some None /\
    ((tf_client s = slot /\ takes (p_op p) = true) \/ expired_at c (tf_client s) now).

Definition taker (slot : nat) (p : Packet) : nat -> Packet -> Prop := fun i q => i = slot /\ q = p /\ takes (p_op q) = true.

Lemma sheds_refl slot p now c : sheds slot p now c c.
Proof. intros k. by left. Qed.

Lemma sheds_take slot p now c0 c i q s t : taker slot p i q -> sheds slot p now c0 c -> Transfers_take (cl_transfers c) i q = Ok (s, t) ->
  sheds slot p now c0 (set_transfers c t).
Proof.
  intros (-> & -> & Ht) H E k. unfold Transfers_take in E. destruct (Transfers_index _ _ _ _) as [n| |] eqn:Ei; [|done..].
  destruct (transfer_index_spec _ _ _ _ _ Ei) as (u & Hu & Eu & Hc & _). rewrite Eu in E. destruct (negb _); [done|]. destruct (_ || _) in E; [done|]. injection E as -> <-.
  cbn [cl_transfers set_transfers]. destruct (decide (k = n)) as [->|Hne]; [|rewrite list_lookup_insert_ne by done; apply H].
  right. destruct (H n) as [E|(x & _ & E & _)]; [|rewrite Hu in E; discriminate E]. exists s. rewrite <- E. split; [done|].
  split; [apply list_lookup_insert_eq; by eapply lookup_lt_Some|]. by left.
Qed.

Lemma sheds_expire slot p now c0 c : same_authority c0 c -> sheds slot p now c0 c -> sheds slot p now c0 (Clients_expire c now).
Proof.
  unfold Clients_expire. generalize (seq 0 CLIENTS). intros l. revert c. induction l as [|i l IH]; intros c Ha H; [done|]. cbn [foldl].
  assert (Hi : same_authority c0 (expire_slot now c i) /\ sheds slot p now c0 (expire_slot now c i)); [|by apply IH; apply Hi].
  unfold expire_slot. destruct (is_some_and _ _) eqn:E; [|done]. split; [by eapply authority_trans|]. intros k. cbn [cl_transfers set_transfers].
  specialize (H k). unfold Transfers_clear. rewrite list_lookup_fmap. destruct (cl_transfers c !! k) as [[s|]|]; cbn [fmap option_fmap option_map is_some_and]; [|exact H..].
  destruct (owned_by i s) eqn:Eo; [|exact H]. right. unfold owned_by in Eo. apply Nat.eqb_eq in Eo as <-.
  destruct H as [Ek|(x & _ & Ek & _)]; [|discriminate Ek]. exists s. do 2 (split; [done|]). right.
  unfold expired_at. rewrite <- (authority_grant _ _ _ Ha). unfold Clients_grant_at. destruct (mjoin _) as [g|]; [|done]. cbn [is_some_and] in E. bools. exists g. split; [done|]. lia.
Qed.

(** The clients of a call that only reads the clock. *)
Definition clocked st (slot : nat) (p : Packet) (now : Z) (o : Ow) (c : Clients) : Prop :=
  o = s_owner st /\ same_authority (s_clients st) c /\ dwindles (s_clients st) c /\ sheds slot p now (s_clients st) c.

Lemma clocked_invariant st slot p now : owner_invariant (s_clients st) (taker slot p) (clocked st slot p now).
Proof.
  split; [by intros o c (_ & _ & ? & _)|]. intros o c i q s t HT (-> & Ha & Hd & Hs) Hx. split; [done|]. split; [by eapply authority_trans|].
  split; [eapply dwindles_trans; [exact Hd|]; eapply take_dwindles; [apply Hd|exact Hx]|by eapply sheds_take].
Qed.

Lemma clocked_trusted st slot p now : trusted (clocked st slot p now) (fixed_clock now).
Proof.
  intros o c pending n c' o' Hc [= <- <- <-]. split; [done|]. destruct Hc as (-> & Ha & Hd & Hs). split; [done|].
  destruct (expire_spec c now) as (E1 & E2 & E3 & _). split; [destruct Ha as (A1 & A2 & A3); split; [congruence|split; congruence]|].
  split; [eapply dwindles_trans; [exact Hd|apply expire_dwindles, Hd]|by apply sheds_expire].
Qed.

Lemma clocked_start st slot p now : service_ok st -> clocked st slot p now (s_owner st) (s_clients st).
Proof. intros H. split; [done|]. split; [done|]. split; [apply dwindles_refl, H|apply sheds_refl]. Qed.

Lemma clocked_steady st slot p now : steady st (clocked st slot p now).
Proof. intros o c (_ & Ha & _). apply Ha. Qed.

Lemma fixed_time now : clock (fixed_clock (Ow := Ow) now) now.
Proof. by intros o c pending n c' o' [= <- <- <-]. Qed.

Lemma handle_budget : true = true -> @prompt D Synchronous_disk /\ (17 < HANDLE_FUEL)%nat.
Proof. intros _. split; [apply synchronous_prompt|]. unfold HANDLE_FUEL. lia. Qed.

(** What a request leaves of the owner and the clients. *)
Definition kept st (o : Ow) (c : Clients) : Prop := o = s_owner st /\ same_authority (s_clients st) c /\ clients_ok c.

Lemma clocked_kept st slot p now o c : clocked st slot p now o c -> kept st o c.
Proof. intros (? & ? & Hd & _). split; [done|]. split; [done|apply Hd]. Qed.

(** How [Server::handle] answers: a certain refusal leaves the volume, the name of
    the incarnation and the staging of the others as they were. *)
Record handled_by st (slot : nat) (peer : Z) (p : Packet) (now : Z) (reply : Packet) st' : Prop := {
  hb_handled : handled st (kept st) (eq (s_volume st)) (eq (s_instance st)) (allowed st slot peer (p_context p) now) p reply st';
  hb_staging : forall e, FileError_parse (p_status reply) = Err e -> sheds slot p now (s_clients st) (s_clients st');
}.

Lemma clocked_handled st slot peer p now R reply st' : weaker R (allowed st slot peer (p_context p) now) ->
  handled st (clocked st slot p now) (eq (s_volume st)) (eq (s_instance st)) R p reply st' -> handled_by st slot peer p now reply st'.
Proof.
  intros HR [H1 H2 H3 H4 H5]. split; [|intros _ _; apply H1]. split; [by eapply clocked_kept|done|done|by eapply effect_weaken|done].
Qed.

Lemma ordinary_handled slot peer p now st m : Packet_valid p -> wp true m st (served (sheds slot p now) (allowed st slot peer (p_context p) now) p st) ->
  wp true (answering p m) st (fun r st' => exists reply, r = Ok reply /\ handled_by st slot peer p now reply st').
Proof.
  intros Hv Hm. unfold answering. apply wp_catch. eapply wp_mono; [exact Hm|]. intros r st' Hr [[F1 F2 F3 F4 F5 [B1 B2]] Hrep].
  assert (Hk : kept st (s_owner st') (s_clients st')) by (split; [done|split; [done|apply F1]]). destruct r as [reply|e|]; [| |done]; (apply wp_ret; [done|]); eexists; (split; [done|]).
  - pose proof (Hrep reply eq_refl) as Hok. assert (Hz : forall e, FileError_parse (p_status reply) <> Err e) by (intros e; by rewrite (rk_status _ _ Hok)).
    split; [split; [done|apply F1|by apply reply_replied|done|]|]; intros e He; by destruct (Hz e).
  - split; [|intros; by apply (F5 e)]. split; [done|apply F1|by apply failure_replied|done|]. intros x Ex Hu. rewrite failure_parses in Ex. injection Ex as <-.
    destruct (B2 e eq_refl Hu) as (? & ? & Hvol). do 2 (split; [done|]). split; [exact Hvol|by symmetry].
Qed.

Lemma handle_served st slot peer p now : service_ok st -> Packet_valid p ->
  wp true (Server_handle slot peer p now) st (fun r st' => exists reply, r = Ok reply /\ handled_by st slot peer p now reply st').
Proof.
  intros H Hv. pose proof synchronous_laws as HPL. unfold Server_handle. set (I := clocked st slot p now).
  pose proof (clocked_invariant st slot p now) as HI. pose proof (clocked_trusted st slot p now) as HC. pose proof (clocked_start st slot p now H) as H0.
  destruct (adm_controlled (p_op p)); [|destruct (Z.eqb_spec (p_op p) REPLACE_COMMIT) as [Ec|Ec]].
  - eapply wp_mono; [apply (answering_wp true st I (eq (s_volume st)) (eq (s_instance st)) (admission_allowed st (mkCaller slot peer (p_context p)) p now)
      (fun reply st' => reply_ok p reply /\ admission_done st (fixed_clock now) (mkCaller slot peer (p_context p)) p reply st')); [done|by intros ? ? [? _]|]|].
    + apply (admission_serve_wp true HANDLE_FUEL handle_budget st H (taker slot p) I HI H0 (eq (s_volume st)) (eq (s_instance st)) eq_refl eq_refl (fixed_clock now) HC False
        ltac:(done) (or_intror (conj (clocked_steady st slot p now) (ex_intro _ now (fixed_time now)))) (mkCaller slot peer (p_context p)) p Hv).
      intros Eo. split; [done|]. split; [done|]. by rewrite Eo.
    + intros r st' _ (reply & -> & Hh & _). exists reply. split; [done|]. eapply clocked_handled; [|exact Hh]. apply admission_allowed_weaker.
  - eapply wp_mono; [apply (answering_wp true st I (eq (s_volume st)) (eq (s_instance st)) (naming (p_id p) (allowed st slot peer (p_context p) now))
      (fun reply st' => reply_ok p reply /\ committed st slot peer p st')); [done|by intros ? ? [? _]|]|].
    + apply (commit_request_wp true HANDLE_FUEL handle_budget st H (taker slot p) I HI H0 (eq (s_volume st)) (eq (s_instance st)) eq_refl eq_refl (fixed_clock now) HC slot peer p Hv).
      intros Eo. split; [done|]. split; [done|]. by rewrite Eo.
    + intros r st' _ (reply & -> & Hh & _). exists reply. split; [done|]. eapply clocked_handled; [|exact Hh]. apply naming_weaker.
  - apply ordinary_handled; [done|]. eapply (ordinary_request_served (sheds slot p now) (taker slot p)); [apply sheds_refl|intros; by eapply sheds_take|done|done|].
    intros Eo. split; [done|]. split; [done|]. by rewrite Eo.
Qed.
End Whole.

(** ** The service under one client's staged replacement

    What [Server::handle] does to the requests of a logical replacement, exactly:
    opening, filling and giving up a transfer touch only the staging slots, reading
    a receipt touches nothing, and a commit answered with success has published
    the bytes of the client's transfer. *)
Section Session.
Context {D Ow : Type} {HD : Disk D} {HV : DiskView D} {HW : ViewLaws D} {HL : DiskLaws D} {HS : Digest} {HSL : DigestLaws}.
Implicit Types st : Service D Ow.

(** Every request, as [server_handle_is_safe] says it, with the refusals. *)
Lemma handle_total st slot peer p now : service_ok st -> Packet_valid p -> exists reply st', Server_handle slot peer p now st = Some (Ok reply, st') /\
  replied p reply /\ service_ok st' /\
  forall e, FileError_parse (p_status reply) = Err e -> e <> FUncertain -> effect nothing (world st) (world st').
Proof.
  intros H Hv. destruct (wp_total _ _ _ (handle_served st slot peer p now H Hv)) as (r & st' & E & _ & reply & -> & [[(Ho & Ha & Hc) Hi Hr He Hn] _]).
  exists reply, st'. split; [done|]. split; [done|]. split; [split; [apply (ef_sound _ _ _ He)|done|done]|]. intros e H1 H2. by destruct (Hn e H1 H2).
Qed.

(** What a staging request did when it was accepted. *)
Definition staged_by (slot : nat) (p : Packet) (c : Clients) (t : list (option Transfer)) : Prop :=
  (p_op p = REPLACE_OPEN /\ Transfers_begin (cl_transfers c) slot p = Ok t) \/
  (p_op p = REPLACE_CHUNK /\ Transfers_chunk (cl_transfers c) slot p = Ok t) \/
  (p_op p = REPLACE_ABORT /\ t = Transfers_clear (cl_transfers c) slot).

(** A step of [Server_handle] that ended: an error before its effect, or the effect. *)
Lemma stage_step st f r st' (k : unit -> serving D Ow Packet) : call_bind (stage f) k st = Some (r, st') ->
  (exists t, f (cl_transfers (s_clients st)) = Ok t /\ k tt (set_clients st (set_transfers (s_clients st) t)) = Some (r, st')) \/ (st' = st /\ is_ok r = false).
Proof.
  unfold stage, call_bind, call_get, pure, call_ret, call_put. destruct (f _) as [t|e|]; intros H; [left; by exists t|injection H as <- <-; by right..].
Qed.

Lemma pure_step {A} st (o : outcome FileError A) r st' (k : A -> serving D Ow Packet) : call_bind (pure o) k st = Some (r, st') ->
  (exists a, o = Ok a /\ k a st = Some (r, st')) \/ (st' = st /\ is_ok r = false).
Proof. unfold call_bind, pure, call_ret. destruct o as [a|e|]; intros H; [left; by exists a|injection H as <- <-; by right..]. Qed.

(** A reply of [answering]: a success of the call, or its failure. *)
Lemma answering_step p (m : serving D Ow Packet) st reply st' : answering p m st = Some (Ok reply, st') ->
  m st = Some (Ok reply, st') \/ exists e, m st = Some (Err e, st') /\ reply = failure (p_op p) (p_context p) e.
Proof.
  unfold answering, call_catch, pure, call_ret. destruct (m st) as [[[x|e|] st1]|]; intros H; [injection H as <- <-; by left|injection H as <- <-; right; by exists e|done..].
Qed.

Lemma failure_status op context e : p_status (failure op context e) <> 0.
Proof. by destruct e. Qed.

Ltac step H x E := apply pure_step in H as [(x & E & H)|[-> H]]; [|by right].

(** The grant the request was accepted under, and the handler it reached. *)
Lemma logical_dispatch slot peer p now st r st' : p_op p ∈ [REPLACE_OPEN; REPLACE_CHUNK; REPLACE_ABORT; OPERATION_PART; OPERATION_RETRY; OPERATION_ID] ->
  ordinary_request slot peer p now st = Some (r, st') ->
  (exists g, Clients_grant_at (s_clients st) slot = Some g /\ operation_request slot g p st = Some (r, st')) \/ (st' = st /\ is_ok r = false).
Proof.
  intros Ho H. unfold ordinary_request in H. step H v E1. change (call_bind call_get ?k st) with (k st st) in H. cbn beta in H. step H g E2. apply ok_or_Ok in E2. step H c E3.
  left. exists g. split; [done|]. revert H. rewrite !elem_of_cons, elem_of_nil in Ho. repeat destruct Ho as [Ho|Ho]; try done; by rewrite Ho.
Qed.

Lemma handle_ordinary slot peer p now st : adm_controlled (p_op p) = false -> p_op p <> REPLACE_COMMIT -> Server_handle slot peer p now st = answering p (ordinary_request slot peer p now) st.
Proof. intros Ha Hc. unfold Server_handle. rewrite Ha. by rewrite (proj2 (Z.eqb_neq _ _)). Qed.

Lemma handle_staging st slot peer p now reply st' : p_op p ∈ [REPLACE_OPEN; REPLACE_CHUNK; REPLACE_ABORT] -> Server_handle slot peer p now st = Some (Ok reply, st') ->
  (exists t, staged_by slot p (s_clients st) t /\ st' = set_clients st (set_transfers (s_clients st) t)) \/ (st' = st /\ p_status reply <> 0).
Proof.
  intros Ho H. assert (Hf : adm_controlled (p_op p) = false /\ p_op p <> REPLACE_COMMIT /\ one_of [OPERATION_RETRY; OPERATION_ID; OPERATION_PART] (p_op p) = false).
  { rewrite !elem_of_cons, elem_of_nil in Ho. repeat destruct Ho as [Ho|Ho]; try done; by rewrite Ho. }
  destruct Hf as (Ha & Hc & Hq). rewrite handle_ordinary in H by done. apply answering_step in H.
  assert (Hm : forall r, ordinary_request slot peer p now st = Some (r, st') -> (exists t, staged_by slot p (s_clients st) t /\ st' = set_clients st (set_transfers (s_clients st) t)) \/ (st' = st /\ is_ok r = false)).
  { intros r E. apply logical_dispatch in E as [(g & Hg & E)|E]; [|by right|revert Ho; rewrite !elem_of_cons; tauto].
    unfold operation_request in E. rewrite Hq in E. unfold operation_mutation in E. change (call_bind call_get ?k st) with (k st st) in E. cbn beta in E.
    destruct (Z.eqb_spec (p_op p) REPLACE_OPEN) as [Eo|Eo].
    - step E q E1. step E b E2. apply stage_step in E as [(t & Et & E)|E]; [|by right]. injection E as _ <-. left. exists t. split; [by left|done].
    - step E q E1. step E b E2. destruct (Z.eqb_spec (p_op p) REPLACE_CHUNK) as [Ek|Ek].
      + apply stage_step in E as [(t & Et & E)|E]; [|by right]. injection E as _ <-. left. exists t. split; [by right; left|done].
      + destruct (Z.eqb_spec (p_op p) REPLACE_ABORT) as [Eb|Eb]; [|apply pure_step in E as [(? & ? & _)|E]; [done|by right]].
        apply stage_step in E as [(t & Et & E)|E]; [|by right]. injection Et as <-. injection E as _ <-. left. eexists. split; [right; right; split; [done|reflexivity]|done]. }
  destruct H as [H|(e & H & ->)]; apply Hm in H as [H|[-> H]]; [by left|discriminate H|by left|right; split; [done|apply failure_status]].
Qed.

Lemma handle_query st slot peer p now reply st' : p_op p ∈ [OPERATION_PART; OPERATION_RETRY; OPERATION_ID] -> Server_handle slot peer p now st = Some (Ok reply, st') -> st' = st.
Proof.
  intros Ho H. assert (Hf : adm_controlled (p_op p) = false /\ p_op p <> REPLACE_COMMIT /\ one_of [OPERATION_RETRY; OPERATION_ID; OPERATION_PART] (p_op p) = true).
  { rewrite !elem_of_cons, elem_of_nil in Ho. repeat destruct Ho as [Ho|Ho]; try done; by rewrite Ho. }
  destruct Hf as (Ha & Hc & Hq). rewrite handle_ordinary in H by done. apply answering_step in H.
  assert (Hm : forall r, ordinary_request slot peer p now st = Some (r, st') -> st' = st).
  { intros r E. apply logical_dispatch in E as [(g & Hg & E)|[E _]]; [|done|revert Ho; rewrite !elem_of_cons; tauto].
    unfold operation_request in E. rewrite Hq in E. by injection E as _ <-. }
  destruct H as [H|(e & H & _)]; by eapply Hm.
Qed.

Lemma handle_commit st slot peer p now reply st' : service_ok st -> Packet_valid p -> p_op p = REPLACE_COMMIT -> Server_handle slot peer p now st = Some (Ok reply, st') ->
  p_status reply = 0 -> committed st slot peer p st'.
Proof.
  intros H Hv Ho E Hz. unfold Server_handle in E. rewrite Ho in E. pose proof (@synchronous_laws D HD HV HL) as HPL.
  change (commit_with (HQ := Synchronous_disk) HANDLE_FUEL slot peer p (fixed_clock now) st = Some (Ok reply, st')) in E.
  pose proof (clocked_invariant st slot p now) as HI. pose proof (clocked_trusted st slot p now) as HC. pose proof (clocked_start st slot p now H) as H0.
  destruct (wp_apply _ _ _ _ _ _ (answering_wp true st (clocked st slot p now) (eq (s_volume st)) (eq (s_instance st)) (naming (p_id p) (allowed st slot peer (p_context p) now))
    (fun reply st' => reply_ok p reply /\ committed st slot peer p st') p _ Hv ltac:(by intros ? ? [? _])
    (commit_request_wp true HANDLE_FUEL handle_budget st H (taker slot p) (clocked st slot p now) HI H0 (eq (s_volume st)) (eq (s_instance st)) eq_refl eq_refl (fixed_clock now) HC slot peer p Hv
      (fun Eo => conj eq_refl (conj eq_refl (f_equal takes Eo))))) E) as (_ & x & Ex & _ & Hc).
  injection Ex as <-. by apply Hc.
Qed.
End Session.
