(* ===== verification/SvcAuthority.v ===== *)
(** * The life of grants and of staged writes

    Every call on the clients keeps them well formed, so every reachable state
    is; derived grants never exceed their parent; a revoked generation never
    comes back; chunks append. *)
From stdpp Require Import base list option numbers relations.
From Stdlib Require Import ZArith Lia Bool.
From S2P Require Import Prelude Bytes Codec AbiFiles AbiIdentity AbiMessages AbiAdmission FsDisk FsNode FsFormat FsVolume FsPublication FsTree FsInvariant FsReach FsHistory SvcClients SvcServer SvcClientsFacts SvcReplies SvcServe SvcHandle.

(** ** Reachable clients *)
(** The calls of the server that change its clients: administration, staging and the turns of a callback. *)
Inductive clients_call (c : Clients) : Clients -> Prop :=
| CallInstall v slot g generation c' : grant_fits g -> install v c slot g 0 = Ok (generation, c') -> clients_call c c'
| CallDerive v slot parent g now generation c' : grant_fits g -> derive v c slot parent g now = Ok (generation, c') -> clients_call c c'
| CallExtend v slot generation second r c' : fits 32 second -> extend v c slot generation second = Ok (r, c') -> clients_call c c'
| CallTurn c' : clients_turn c c' -> clients_call c c'
| CallBegin slot peer now p g t : Packet_valid p -> live_grant c slot peer (p_context p) now g ->
    Transfers_begin (cl_transfers c) slot p = Ok t -> clients_call c (set_transfers c t)
| CallChunk slot p t : Packet_valid p -> Transfers_chunk (cl_transfers c) slot p = Ok t -> clients_call c (set_transfers c t)
| CallTake slot p s t : Transfers_take (cl_transfers c) slot p = Ok (s, t) -> clients_call c (set_transfers c t)
| CallClear slot : clients_call c (set_transfers c (Transfers_clear (cl_transfers c) slot)).

Lemma clients_new_ok : clients_ok Clients_new.
Proof.
  assert (Hn : forall i, Clients_grant_at Clients_new i = None).
  { intros i. unfold Clients_grant_at. cbn. by destruct i as [|[|[|[|i]]]]. }
  split; try (intros; rewrite Hn in *; done); [by vm_compute| |intros i _ Hi; unfold CLIENTS in Hi; by destruct i as [|[|[|[|i]]]]; [..|lia]| |].
  - cbn. unfold u32_max. lia.
  - intros [|[|k]] s; by cbn.
  - intros [|[|k]] j s t; by cbn.
Qed.

Lemma call_ok c c' : clients_ok c -> clients_call c c' -> clients_ok c'.
Proof.
  intros H [v slot g generation x Hg E|v slot parent g now generation x Hg E|v slot generation second r x Hs E|x Ht|slot peer now p g t Hv [Hg Hc] E|slot p t Hv E|slot p s t E|slot].
  - eapply install_spec; [exact H|exact Hg|by left|exact E].
  - by eapply derive_ok.
  - by eapply clients_extend_ok.
  - apply (turn_dwindles _ _ H Ht).
  - apply grant_check_spec in Hc as (_ & Ec & Hr & _). by eapply (begin_spec c slot p g t).
  - by eapply (chunk_spec c slot p t).
  - by eapply (take_spec c slot p s t).
  - by apply clear_ok.
Qed.

Lemma calls_ok c c' : clients_ok c -> rtc clients_call c c' -> clients_ok c'.
Proof. intros H Ht. induction Ht as [|a b c Hx _ IH]; [done|]. by eapply IH, call_ok. Qed.

(** ** Generations that are gone *)
Definition spent (generation : Z) (c : Clients) : Prop := generation < cl_next c /\
  forall i g, Clients_grant_at c i = Some g -> fg_generation g = generation -> fg_rights g = 0.

Lemma dwindles_spent n c c' : dwindles c c' -> cl_next c' = cl_next c -> spent n c -> spent n c'.
Proof.
  intros Hd En [Hl Hs]. split; [by rewrite En|]. intros i g Hg Eg. destruct (dw_grant _ _ Hd i g Hg) as (h & Hh & [-> | ->]); [by eapply Hs|done].
Qed.

Lemma turn_next c c' : clients_ok c -> clients_turn c c' -> cl_next c' = cl_next c.
Proof.
  intros H [slot|root|slot|now].
  - unfold Clients_revoke. destruct (Clients_grant_at c slot); [|done]. destruct (root_at c slot) as [root| |]; [|done..]. destruct (Clients_revoke_root c root) as [m x] eqn:E.
    by destruct (revoke_root_spec _ _ _ _ H E) as (_ & ? & _).
  - destruct (Clients_revoke_root c root) as [m x] eqn:E. by destruct (revoke_root_spec _ _ _ _ H E) as (_ & ? & _).
  - apply (detach_spec c slot H).
  - apply (expire_spec c now).
Qed.

Lemma install_spent n v c slot g root generation c' : clients_ok c -> grant_fits g -> root = 0 \/ (exists j, slot <> j /\ live_root c j root) ->
  install v c slot g root = Ok (generation, c') -> spent n c -> spent n c'.
Proof.
  intros H Hg Hr E [Hl Hs]. destruct (install_spec _ _ _ _ _ _ _ H Hg Hr E) as (_ & -> & En & _ & Hnew & _ & Hrest). split; [lia|].
  intros i x Hx Ex. destruct (decide (slot = i)) as [<-|Hne].
  - rewrite Hnew in Hx. injection Hx as <-. cbn in Ex. lia.
  - destruct (Hrest i Hne) as [Hi _]. rewrite Hx in Hi. unfold detached in Hi. destruct (Clients_grant_at c slot) as [y|]; [|by eapply Hs].
    destruct (_ && _); [|by eapply Hs]. destruct (Clients_grant_at c i) as [z|]; [|done]. by injection Hi as ->.
Qed.

Lemma call_spent n c c' : clients_ok c -> clients_call c c' -> spent n c -> spent n c'.
Proof.
  intros H [v slot g generation x Hg E|v slot parent g now generation x Hg E|v slot generation second r x Hs E|x Ht|slot peer now p g t _ _ _|slot p t _ _|slot p s t _|slot] Hsp.
  - eapply install_spent; [exact H|exact Hg|by left|exact E|done].
  - destruct (derive_spec _ _ _ _ _ _ _ _ H Hg E) as (j & h & Hsj & Hh & Eh & Hr & Hj & _ & _ & Ei). eapply install_spent; [exact H| | |exact Ei|done].
    + destruct Hg. destruct (proj1 (co_grant _ H j h Hh)). split; try done; by cbn; unfold fits.
    + right. exists j. split; [done|]. by exists h.
  - destruct (extend_spec _ _ _ _ _ _ _ E) as (g & Hg & Eg & Hr & Ho & _ & _ & _ & _ & ->). destruct Hsp as [Hl Hn]. split; [done|]. intros i y Hy Ey.
    destruct (co_lengths _ H) as (L1 & _). pose proof (grant_slot _ _ _ H Hg) as Hsl. rewrite grant_at_insert in Hy by lia. destruct (decide (slot = i)) as [<-|]; [|by eapply Hn].
    injection Hy as <-. cbn in *. by eapply Hn.
  - eapply dwindles_spent; [by apply turn_dwindles|by apply turn_next|done].
  - exact Hsp.
  - exact Hsp.
  - exact Hsp.
  - exact Hsp.
Qed.

Lemma calls_spent n c c' : clients_ok c -> rtc clients_call c c' -> spent n c -> spent n c'.
Proof. intros H Ht. induction Ht as [|a b c Hx _ IH]; [done|]. intros Hs. apply IH; [by eapply call_ok|by eapply call_spent]. Qed.

Lemma spent_refused n c slot peer now g : spent n c -> ~ live_grant c slot peer n now g.
Proof. intros [_ Hs] [Hg Hc]. apply grant_check_spec in Hc as (_ & Eg & Hr & _). by eapply Hr, Hs. Qed.

(** Revoking a root spends every generation of its family. *)
Lemma revoked_spent c root mask c' i g : clients_ok c -> root <> 0 -> Clients_revoke_root c root = (mask, c') -> Clients_grant_at c i = Some g -> cl_roots c !! i = Some root ->
  spent (fg_generation g) c'.
Proof.
  intros H Hr E Hg Hi. destruct (revoke_root_spec _ _ _ _ H E) as (_ & En & _ & Hgr & _). destruct (co_grant _ H i g Hg) as (_ & r & _ & _ & Hlt).
  split; [by rewrite En|]. intros j h Hh Eh. rewrite Hgr in Hh. destruct (negb (root =? 0) && family c root j) eqn:F.
  - destruct (Clients_grant_at c j); [|done]. by injection Hh as <-.
  - assert (j = i) as -> by (by eapply (co_unique _ H)). rewrite Hg in Hh. injection Hh as <-. rewrite (family_Some _ _ _ _ Hg) in F. rewrite bool_decide_true in F by done.
    apply andb_false_iff in F as [F|F]; [|done]. apply negb_false_iff, Z.eqb_eq in F. done.
Qed.

(** ** Attenuation *)
Lemma within_ready v id scope : within v id scope = true -> vl_poisoned v = false.
Proof.
  unfold within, Volume_within. destruct (vl_poisoned v) eqn:Hp; [|done]. destruct (scope =? 0); [unfold Volume_stat, Volume_ready; by rewrite Hp|].
  unfold OBJECTS. cbn [within_loop]. unfold Volume_stat, Volume_ready. by rewrite Hp.
Qed.

Lemma within_chain v id scope : vl_poisoned v = false -> metadata_ok (vl_metadata v) -> within v id scope = true <->
  exists l, chain (vl_metadata v) id l /\ (scope = 0 \/ scope ∈ l).
Proof.
  intros Hp Hm. pose proof (within_spec v id scope Hp Hm) as H. unfold within. destruct (node_of (vl_metadata v) id) as [n|e|] eqn:En.
  - destruct H as (l & Hc & -> & _). rewrite bool_decide_eq_true. split; [by exists l|]. intros (k & Hk & Hi). by rewrite (chain_functional _ _ _ _ Hc Hk).
  - destruct H as [-> _]. split; [done|]. intros (l & Hc & _). by inversion Hc; congruence.
  - destruct H as [-> _]. split; [done|]. intros (l & Hc & _). by inversion Hc; congruence.
Qed.

Lemma chain_through m a l b k : chain m a l -> b ∈ l -> chain m b k -> forall x, x ∈ k -> x ∈ l.
Proof.
  induction 1 as [a n Hn Hr|a n l Hn Hr Hc IH]; intros Hb Hk x Hx.
  - apply list_elem_of_singleton in Hb as ->. assert (k = [a]) as -> by (eapply chain_functional; [exact Hk|by eapply chain_root]). done.
  - apply elem_of_cons in Hb as [->|Hb].
    + assert (k = a :: l) as -> by (eapply chain_functional; [exact Hk|by eapply chain_up]). done.
    + apply elem_of_cons. right. by eapply IH.
Qed.

Lemma within_trans v a b c : volume_ok v -> within v a b = true -> within v b c = true -> within v a c = true.
Proof.
  intros Hv H1 H2. pose proof (within_ready _ _ _ H1) as Hp. pose proof (Hv Hp) as Hm. apply (within_chain v a b Hp Hm) in H1 as (l & Hl & Hb).
  apply (within_chain v b c Hp Hm) in H2 as (k & Hk & Hc). apply (within_chain v a c Hp Hm). exists l. split; [done|]. destruct Hc as [->|Hc]; [by left|].
  destruct Hb as [->|Hb]; [|right; by eapply chain_through]. exfalso. inversion Hk as [? n Hn|? n ? Hn]; subst; destruct (node_of_has _ _ _ Hn) as [Hh Hid];
    pose proof (ln_id _ (has_valid _ _ Hm Hh)) as [_ ?]; congruence.
Qed.

Lemma within_any v id scope : volume_ok v -> within v id scope = true -> within v id 0 = true.
Proof.
  intros Hv H. pose proof (within_ready _ _ _ H) as Hp. apply (within_chain v id scope Hp (Hv Hp)) in H as (l & Hl & _). apply (within_chain v id 0 Hp (Hv Hp)). exists l. auto.
Qed.

Lemma within_nothing v scope : volume_ok v -> within v 0 scope <> true.
Proof.
  intros Hv H. pose proof (within_ready _ _ _ H) as Hp. pose proof (Hv Hp) as Hm. apply (within_chain v 0 scope Hp Hm) in H as (l & Hl & _).
  inversion Hl as [? n Hn|? n ? Hn]; subst; destruct (node_of_has _ _ _ Hn) as [Hh Hid]; pose proof (ln_id _ (has_valid _ _ Hm Hh)) as [_ ?]; congruence.
Qed.

Lemma masked_bits a b n : 0 <= a < 256 -> Z.land a (unot 8 b) = 0 -> Z.testbit a n = true -> Z.testbit b n = true.
Proof.
  intros Ha H0 E. pose proof (f_equal (fun x => Z.testbit x n) H0) as B0. cbn in B0. unfold unot in B0.
  assert (0 <= n) by (destruct (Z_lt_ge_dec n 0); [by rewrite Z.testbit_neg_r in E|lia]). rewrite Z.land_spec, Z.lxor_spec, Z.bits_0, E in B0.
  assert (n < 8). { destruct (Z_lt_ge_dec n 8); [done|]. rewrite (Z.bits_above_log2 a n) in E; [done|lia|]. destruct (Z.eq_dec a 0) as [->|]; [cbn; lia|]. apply Z.log2_lt_pow2; [lia|]. change 256 with (2 ^ 8) in Ha. pose proof (Z.pow_le_mono_r 2 8 n). lia. }
  rewrite Z.ones_spec_low in B0 by lia. by destruct (Z.testbit b n).
Qed.

Lemma land_subset a b right : 0 <= a < 256 -> Z.land a (unot 8 b) = 0 -> Z.land a right <> 0 -> Z.land b right <> 0.
Proof.
  intros Ha H0 H1 H2. apply H1. apply Z.bits_inj'. intros n Hn. rewrite Z.land_spec, Z.bits_0. destruct (Z.testbit a n) eqn:E; [|done]. cbn.
  apply (masked_bits a b n Ha H0) in E. pose proof (f_equal (fun x => Z.testbit x n) H2) as B2. cbn in B2. rewrite Z.land_spec, Z.bits_0, E in B2. done.
Qed.

(** The scope of an attenuated grant is inside its parent's. *)
Lemma attenuates_spec v source g : attenuates v source g = true ->
  Z.land (fg_rights g) (unot 8 (fg_rights source)) = 0 /\ (fg_scope source = 0 \/ within v (fg_scope g) (fg_scope source) = true).
Proof. unfold attenuates. intros H. bools. split; [done|]. apply orb_true_iff in H1 as [H1|H1]; [left; lia|by right]. Qed.

Lemma attenuated_right v source g right : grant_fits g -> attenuates v source g = true -> has_right g right = true -> has_right source right = true.
Proof.
  intros Hg [H _]%attenuates_spec. unfold has_right. rewrite !negb_true_iff, !Z.eqb_neq. apply land_subset; [|done]. pose proof (gf_rights _ Hg). lia.
Qed.

(** What an attenuated grant covers, its parent covers. *)
Lemma attenuated_scope v source g id : volume_ok v -> attenuates v source g = true -> fg_scope g = 0 \/ fg_scope g = id \/ within v id (fg_scope g) = true ->
  fg_scope source = 0 \/ within v id (fg_scope source) = true.
Proof.
  intros Hv [_ [?|H]]%attenuates_spec Hi; [by left|right]. destruct Hi as [E|[E|Hi]]; [rewrite E in H; by apply within_nothing in H|by rewrite <- E|by eapply within_trans].
Qed.

Lemma attenuated_inspect v source g id : volume_ok v -> grant_fits g -> attenuates v source g = true -> fg_second g = 0 -> fg_subject source = fg_subject g ->
  FileGrant_inspect g v id = Ok tt -> FileGrant_inspect source v id = Ok tt.
Proof.
  intros Hv Hg Ha H2 Es. unfold FileGrant_inspect, FileGrant_beside. rewrite H2, Es. cbn [Z.eqb negb andb]. rewrite orb_false_r.
  destruct (_ =? 0); [done|]. cbn [orb]. destruct (has_right g _) eqn:Er; [|done]. rewrite (attenuated_right v source g _ Hg Ha Er). cbn [negb orb].
  destruct (negb _) eqn:E; [done|]. intros _. apply negb_false_iff in E.
  assert (Hs : fg_scope source = 0 \/ within v id (fg_scope source) = true) by (eapply attenuated_scope; [done|exact Ha|]; rewrite !orb_true_iff, !Z.eqb_eq in E; tauto).
  destruct Hs as [-> | ->]; [done|]. by rewrite !orb_true_r.
Qed.

Lemma attenuated_operation v source g workspace object right : volume_ok v -> grant_fits g -> attenuates v source g = true -> fg_subject source = fg_subject g ->
  operation_scope g v workspace object right = Ok tt -> operation_scope source v workspace object right = Ok tt.
Proof.
  intros Hv Hg Ha Es. unfold operation_scope. rewrite Es. destruct (_ =? 0); [done|]. cbn [orb]. destruct (has_right g _) eqn:Er; [|done].
  rewrite (attenuated_right v source g _ Hg Ha Er). cbn [negb orb]. destruct (negb _) eqn:E; [done|]. intros _. apply negb_false_iff in E.
  assert (Hs : fg_scope source = 0 \/ within v object (fg_scope source) = true \/ within v workspace (fg_scope source) = true).
  { rewrite !orb_true_iff, !Z.eqb_eq in E. pose proof (attenuated_scope v source g object Hv Ha) as Ho. pose proof (attenuated_scope v source g workspace Hv Ha) as Hw. tauto. }
  destruct Hs as [-> | [-> | ->]]; [done|by rewrite !orb_true_r|]. by rewrite !orb_true_r.
Qed.

Lemma attenuated_access v source g id write : volume_ok v -> grant_fits g -> attenuates v source g = true -> fg_second g = 0 ->
  FileGrant_access g v id write = Ok tt -> FileGrant_access source v id write = Ok tt.
Proof.
  intros Hv Hg Ha H2 Hx. unfold attenuates in Ha. bools. unfold FileGrant_access in *. set (r := if write then WRITE_RIGHT else READ_RIGHT) in *.
  destruct (negb (has_right g r) || _) eqn:G in Hx; [done|]. clear Hx. unfold FileGrant_beside in G. rewrite H2 in G. cbn [Z.eqb negb andb orb] in G. rewrite orb_false_r in G.
  unfold has_right in *. apply orb_false_iff in G as [G1 G2]. apply negb_false_iff, negb_true_iff, Z.eqb_neq in G1. apply negb_false_iff in G2.
  assert (R : Z.land (fg_rights source) r <> 0). { eapply land_subset; [|eassumption|exact G1]. pose proof (gf_rights _ Hg). lia. }
  rewrite (proj2 (Z.eqb_neq _ 0)) by exact R. cbn [negb orb].
  assert (Hin : (id =? 0) && (fg_scope source =? 0) && negb write || within v id (fg_scope source) = true); [|by rewrite Hin].
  apply orb_true_iff in H1 as [H1|H1]; apply orb_true_iff in G2 as [G2|G2].
  - apply andb_true_iff in G2 as [G2 G3]. apply andb_true_iff in G2 as [G2 _]. by rewrite G2, H1, G3.
  - apply orb_true_iff. right. apply Z.eqb_eq in H1 as ->. by eapply within_any.
  - apply andb_true_iff in G2 as [G2 _]. apply andb_true_iff in G2 as [_ G2]. apply Z.eqb_eq in G2. rewrite G2 in H1. by apply within_nothing in H1.
  - apply orb_true_iff. right. by eapply within_trans.
Qed.

(** A derived grant is live no longer than its parent would be. *)
Lemma attenuated_expiry v source g now : attenuates v source g = true -> fg_expires g = 0 \/ now < fg_expires g -> fg_expires source = 0 \/ now < fg_expires source.
Proof.
  intros Ha Hg. unfold attenuates in Ha. apply andb_true_iff in Ha as [_ Ha]. apply negb_true_iff, andb_false_iff in Ha as [Ha|Ha].
  - apply negb_false_iff, Z.eqb_eq in Ha. by left.
  - apply orb_false_iff in Ha as [Ha Hb]. apply Z.eqb_neq in Ha. apply Z.ltb_ge in Hb. destruct Hg as [?|?]; [done|right; lia].
Qed.

(** ** Staging a payload *)
(** A begin and its chunks. *)
Inductive stages (slot : nat) : Clients -> list (list Z) -> Clients -> Prop :=
| StageNone c : stages slot c [] c
| StageChunk c p t payloads c' : Packet_valid p -> Transfers_chunk (cl_transfers c) slot p = Ok t ->
    stages slot (set_transfers c t) payloads c' -> stages slot c (Packet_payload p :: payloads) c'.

Lemma stages_ok slot c payloads c' : clients_ok c -> stages slot c payloads c' -> clients_ok c'.
Proof. intros H Hs. induction Hs as [|c p t l c' Hv E _ IH]; [done|]. apply IH. by eapply (chunk_spec c slot p t). Qed.

Lemma stages_append slot c payloads c' s : clients_ok c -> stages slot c payloads c' -> owns c slot s ->
  exists s', owns c' slot s' /\ staged_bytes s' = staged_bytes s ++ concat payloads /\ tf_received s' = (tf_received s + length (concat payloads))%nat /\
    tf_total s' = tf_total s /\ tf_id s' = tf_id s /\ tf_version s' = tf_version s /\ tf_context s' = tf_context s /\ tf_logical s' = tf_logical s.
Proof.
  intros H Hs. revert s. induction Hs as [c|c p t l c' Hv E _ IH]; intros s Ho.
  - exists s. cbn. rewrite app_nil_r, Nat.add_0_r. done.
  - destruct (chunk_spec c slot p t H Hv E) as (Hc & u & u' & Hu & Hu' & _ & _ & _ & _ & Eu & Es). assert (u = s) as -> by (eapply owns_unique; [exact H|exact Hu|exact Ho]).
    destruct (IH Hc u' Hu') as (s' & Ho' & E1 & E2 & E3 & E4 & E5 & E6 & E7). exists s'. split; [done|]. cbn [concat]. rewrite E1, Es, app_assoc. split; [done|].
    destruct (payload_spec p Hv) as (_ & Lp & _). rewrite E2, E3, E4, E5, E6, E7, Eu. cbn. rewrite length_app, Lp. repeat split. lia.
Qed.
