(* ===== verification/SvcSchedule.v ===== *)
(** * The execution queue is a queue

    scheduling/: its tickets are a gap-free FIFO of distinct admissions, a
    request only appends its own ticket or latches a stop, and nothing panics. *)
From stdpp Require Import base list option numbers relations.
From Stdlib Require Import ZArith Lia Bool.
From S2P Require Import Prelude Bytes Codec AbiFiles AbiIdentity AbiMessages AbiReceipts AbiAdmission FsDisk FsNode FsRecovery FsFormat FsVolume FsPublication FsPublish FsTree FsInvariant FsReach FsCalls FsSpec FsHistory SvcClients SvcServer SvcPublish SvcDispatch SvcClientsFacts SvcReplies SvcEffect SvcControl SvcServe SvcHandle SvcCommit SvcAdmit.

Definition waiting (q : ExecutionQueue) : list Ticket := slots (q_tickets q).

Definition lined_up (l : list Ticket) : list (option Ticket) := (Some <$> l) ++ replicate (RETAINED - length l) None.

Record queue_ok (q : ExecutionQueue) : Prop := {
  qo_line : q_tickets q = lined_up (waiting q);
  qo_bound : (length (waiting q) <= RETAINED)%nat;
  qo_distinct : NoDup (tk_id <$> waiting q);
  qo_candidates : length (q_candidates q) = RETAINED;
}.

Lemma slots_lined l : slots (lined_up l) = l.
Proof.
  unfold lined_up, slots. rewrite omap_app. replace (omap id (replicate _ None)) with (@nil Ticket) by (generalize (RETAINED - length l)%nat; intros n; by induction n).
  rewrite app_nil_r. induction l as [|t l IH]; [done|]. cbn. by rewrite IH.
Qed.

Lemma queue_intro q l : q_tickets q = lined_up l -> (length l <= RETAINED)%nat -> NoDup (tk_id <$> l) -> length (q_candidates q) = RETAINED -> queue_ok q /\ waiting q = l.
Proof.
  intros E Hl Hn Hc. assert (Ew : waiting q = l) by (unfold waiting; by rewrite E, slots_lined). split; [|done]. split; by rewrite ?Ew.
Qed.

Lemma lined_lookup l i : lined_up l !! i = if decide (i < length l)%nat then Some (l !! i) else if decide (i < RETAINED)%nat then Some None else None.
Proof.
  unfold lined_up. destruct (decide (i < length l)%nat).
  - rewrite lookup_app_l by (by rewrite length_fmap). rewrite list_lookup_fmap. by destruct (lookup_lt_is_Some_2 l i) as [t ->].
  - rewrite lookup_app_r by (rewrite length_fmap; lia). rewrite length_fmap. destruct (decide (i < RETAINED)%nat); [rewrite lookup_replicate_2; [done|lia]|].
    apply lookup_ge_None. rewrite length_replicate. lia.
Qed.

Lemma lined_insert l i t : (i < length l)%nat -> <[i := Some t]> (lined_up l) = lined_up (<[i := t]> l).
Proof. intros H. unfold lined_up. rewrite insert_app_l by (by rewrite length_fmap). by rewrite list_fmap_insert, length_insert. Qed.

Lemma lined_append l t : (length l < RETAINED)%nat -> <[length l := Some t]> (lined_up l) = lined_up (l ++ [t]).
Proof.
  intros H. unfold lined_up. rewrite insert_app_r_alt by (by rewrite length_fmap). rewrite length_fmap, Nat.sub_diag, fmap_app, length_app. cbn [length].
  replace (RETAINED - length l)%nat with (S (RETAINED - (length l + 1)))%nat by lia. cbn. by rewrite <- app_assoc.
Qed.

Lemma index_found q id i : queue_ok q -> Queue_index q id = Some i -> exists t, waiting q !! i = Some t /\ tk_id t = id /\ ticket_at q i = Ok t.
Proof.
  intros H E. unfold Queue_index in E. apply position_Some in E as [([t|] & Ht & Hid) _]; [|done]. cbn in Hid. apply bool_decide_eq_true in Hid.
  exists t. split; [|split; [done|unfold ticket_at; by rewrite Ht]]. rewrite (qo_line _ H), lined_lookup in Ht. repeat case_decide; by simplify_eq.
Qed.

Lemma index_missing q id : queue_ok q -> Queue_index q id = None -> ~ id ∈ (tk_id <$> waiting q).
Proof.
  intros H E Hin. apply list_elem_of_fmap in Hin as (t & -> & Ht). apply list_elem_of_lookup in Ht as [i Hi]. unfold Queue_index in E.
  eapply position_None in E; [|rewrite (qo_line _ H), lined_lookup, decide_True by (by eapply lookup_lt_Some); by rewrite Hi]. cbn in E. by rewrite bool_decide_true in E.
Qed.

Lemma free_slot q i : queue_ok q -> position is_none (q_tickets q) = Some i -> i = length (waiting q) /\ (i < RETAINED)%nat.
Proof.
  intros H E. apply position_Some in E as [(x & Hx & Hn) Hfirst]. rewrite (qo_line _ H), lined_lookup in Hx. destruct (decide (i < length (waiting q))%nat) as [Hi|Hi].
  - destruct (lookup_lt_is_Some_2 _ _ Hi) as [t Ht]. rewrite Ht in Hx. by injection Hx as <-.
  - destruct (decide (i < RETAINED)%nat) as [Hr|]; [|done]. split; [|done]. destruct (decide (i = length (waiting q))) as [->|Hne]; [done|]. exfalso.
    assert (is_none (@None Ticket) = false); [|done]. eapply (Hfirst (length (waiting q))); [lia|]. rewrite (qo_line _ H), lined_lookup, decide_False, decide_True by lia. done.
Qed.

Lemma queue_head q : queue_ok q -> Queue_head q = head (waiting q).
Proof.
  intros H. unfold Queue_head. rewrite (qo_line _ H), lined_lookup. destruct (waiting q) as [|t l]; cbn [length]; [|done].
  rewrite decide_False by lia. by rewrite decide_True by (unfold RETAINED; lia).
Qed.

(** ** Steps of the queue *)
(** A ticket stays the same admission of the same client; a stop is never taken back. *)
Definition carries (t t' : Ticket) : Prop := tk_id t' = tk_id t /\ tk_caller t' = tk_caller t /\ tk_subject t' = tk_subject t /\ (tk_stop t = true -> tk_stop t' = true).

Record queue_grows (q q' : ExecutionQueue) (extra : list Ticket) : Prop := {
  qg_ok : queue_ok q';
  qg_line : exists l, waiting q' = l ++ extra /\ Forall2 carries (waiting q) l;
}.

Lemma carries_refl l : Forall2 carries l l.
Proof. induction l; constructor; [|done]. by repeat split. Qed.

Lemma carries_trans l k m : Forall2 carries l k -> Forall2 carries k m -> Forall2 carries l m.
Proof. intros H1 H2. eapply list.Forall2_trans; [|exact H1|exact H2]. intros a b c (E1 & E2 & E3 & E4) (F1 & F2 & F3 & F4). split; [congruence|]. split; [congruence|]. split; [congruence|auto]. Qed.

Lemma grows_refl q : queue_ok q -> queue_grows q q [].
Proof. intros H. split; [done|]. exists (waiting q). split; [by rewrite app_nil_r|apply carries_refl]. Qed.

Lemma grows_trans a b c x y : queue_grows a b x -> queue_grows b c y -> exists z, queue_grows a c z.
Proof.
  intros [_ (l & El & Fl)] [Hc (k & Ek & Fk)]. rewrite El in Fk. apply Forall2_app_inv_l in Fk as (k1 & k2 & F1 & F2 & ->). exists (k2 ++ y). split; [done|].
  exists k1. split; [by rewrite Ek, app_assoc|by eapply carries_trans].
Qed.

Lemma carries_insert (l : list Ticket) i t t' : l !! i = Some t -> carries t t' -> Forall2 carries l (<[i := t']> l).
Proof.
  intros Hi Hc. apply Forall2_same_length_lookup_2; [by rewrite length_insert|]. intros j x y Hx Hy. apply list_lookup_insert_Some in Hy as [(<- & <- & _)|[_ Hy]].
  - by assert (x = t) as -> by congruence.
  - assert (x = y) as -> by congruence. by repeat split.
Qed.

Lemma carries_ids l k : Forall2 carries l k -> tk_id <$> k = tk_id <$> l.
Proof. induction 1 as [|t t' l k (E & _) _ IH]; [done|]. cbn. by rewrite E, IH. Qed.

(** Replacing a ticket by one it carries to. *)
Lemma ticket_replaced q i t t' : queue_ok q -> waiting q !! i = Some t -> carries t t' ->
  queue_grows q (set_tickets q (<[i := Some t']> (q_tickets q))) [].
Proof.
  intros H Hi Hc. pose proof (lookup_lt_Some _ _ _ Hi) as Hl. pose proof (carries_insert _ _ _ _ Hi Hc) as Hf.
  destruct (queue_intro (set_tickets q (<[i := Some t']> (q_tickets q))) (<[i := t']> (waiting q))) as [Hq Hw].
  - cbn. by rewrite (qo_line _ H), lined_insert.
  - rewrite length_insert. apply H.
  - rewrite (carries_ids _ _ Hf). apply H.
  - apply H.
  - split; [done|]. exists (<[i := t']> (waiting q)). by rewrite app_nil_r.
Qed.

(** A new ticket in the first free slot is last in the line. *)
Lemma ticket_appended q i t : queue_ok q -> position is_none (q_tickets q) = Some i -> ~ tk_id t ∈ (tk_id <$> waiting q) ->
  queue_grows q (set_tickets q (<[i := Some t]> (q_tickets q))) [t].
Proof.
  intros H Hi Hn. destruct (free_slot _ _ H Hi) as [-> Hr].
  destruct (queue_intro (set_tickets q (<[length (waiting q) := Some t]> (q_tickets q))) (waiting q ++ [t])) as [Hq Hw].
  - cbn. rewrite (qo_line _ H) at 1. by rewrite lined_append.
  - rewrite length_app. cbn. lia.
  - rewrite fmap_app. apply NoDup_app. split; [apply H|]. split; [|apply NoDup_singleton]. intros x Hx Hs. apply list_elem_of_singleton in Hs as ->. by apply Hn.
  - apply H.
  - split; [done|]. exists (waiting q). split; [done|apply carries_refl].
Qed.

Lemma stop_carries t : carries t (stop_ticket t).
Proof. by repeat split. Qed.

(** Leaving the head, clearing, listing the admissions anew. *)
Lemma finish_ok q : queue_ok q -> queue_ok (Queue_finish q) /\ waiting (Queue_finish q) = tail (waiting q).
Proof.
  intros H. apply queue_intro.
  - cbn. rewrite (qo_line _ H). destruct (waiting q) as [|t l] eqn:E; [done|]. pose proof (qo_bound _ H) as Hb. rewrite E in Hb. cbn in Hb. unfold lined_up. cbn [tail fmap list_fmap app drop length].
    rewrite drop_0, <- app_assoc. f_equal. rewrite <- replicate_S_end. f_equal. lia.
  - pose proof (qo_bound _ H). destruct (waiting q); cbn in *; lia.
  - pose proof (qo_distinct _ H) as Hn. destruct (waiting q); [done|]. by apply list.NoDup_cons in Hn as [_ ?].
  - apply H.
Qed.

Lemma empty_ok : queue_ok Queue_empty /\ waiting Queue_empty = [].
Proof. apply queue_intro; [done|cbn; unfold RETAINED; lia|constructor|done]. Qed.

(** ** Requests never panic *)
Lemma activity_total a op c : Activity_packet a op c <> Panic.
Proof. unfold Activity_packet, Activity_validate. by repeat case_match. Qed.
Lemma observation_total o p : observation_reply o p <> Panic.
Proof.
  unfold observation_reply. assert (H : forall v c, Observation_packet v c <> Panic).
  { intros v c. unfold Observation_packet. apply bound_total; [|done]. destruct v; [apply status_total|apply activity_total]. }
  destruct (_ =? _); [apply H|]. destruct (_ =? _); [|done]. unfold ObservationV2_packet. apply bound_total; [apply H|]. intros x _. destruct o; [by destruct (negb _)|done].
Qed.
Lemma ack_total a c : CancelAck_packet a c <> Panic.
Proof. unfold CancelAck_packet, CancelAck_request. by repeat case_match. Qed.
Lemma ack_decode_total p : CancelAck_decode_request p <> Panic.
Proof. apply (msg_total _ _ _ CancelAck_request_message). Qed.
Lemma scope_check_total sp c a r now : Scope_check sp c a r now <> Panic.
Proof. unfold Scope_check. apply bound_total; [apply right_total|]. intros g _. apply bound_total; [apply or_total|]. intros b _. by destruct (_ || _). Qed.
Lemma running_total q i a id : running_execution q i a id <> Panic.
Proof. unfold running_execution. destruct (_ && _); [|done]. apply bound_total; [apply or_total|]. intros x _. by destruct (negb _). Qed.

#[export] Hint Resolve activity_total observation_total ack_total ack_decode_total scope_check_total running_total right_total : total.

Section Requests.
Context (q : ExecutionQueue) (H : queue_ok q).

Lemma observe_total candidate active : Queue_observe q candidate active <> Panic.
Proof.
  unfold Queue_observe. destruct (Queue_index q _) as [i|] eqn:E; [|done]. destruct (index_found _ _ _ H E) as (t & _ & _ & ->). destruct (_ && _); [|done].
  apply bound_total; [auto with total|]. intros x _. by destruct (negb _).
Qed.

(** A cancellation latches a stop, or leaves one behind for an admission not scheduled yet. *)
Lemma cancel_grows candidate active caller r q' active' : Queue_cancel q candidate active caller = (r, (q', active')) ->
  r <> Panic /\ exists extra, queue_grows q q' extra /\ Forall (fun t => tk_caller t = caller /\ tk_stop t = true) extra.
Proof.
  unfold Queue_cancel. destruct (negb _); [intros [= <- <- <-]; split; [done|]; exists []; by split; [apply grows_refl|]|].
  destruct (Queue_index q _) as [i|] eqn:E.
  - destruct (index_found _ _ _ H E) as (t & Ht & Hid & ->). cbn. pose proof (running_total q i active (sp_id (cd_scope candidate))) as Hr.
    destruct (running_execution _ _ _ _) as [cur|e|]; [| |done]; intros [= <- <- <-]; (split; [done|]); exists []; (split; [|done]); [|by apply grows_refl].
    by apply (ticket_replaced q i t (stop_ticket t)).
  - destruct (position is_none _) as [i|] eqn:Ef; intros [= <- <- <-]; (split; [done|]); [|exists []; by split; [apply grows_refl|]].
    eexists [_]. split; [apply ticket_appended; [done|done|by apply index_missing]|by constructor].
Qed.

Lemma enqueue_grows candidate caller p q' : queue_enqueue q candidate caller p = Ok q' ->
  exists extra, queue_grows q q' extra /\ Forall (fun t => tk_caller t = caller /\ p_op p = ADM_SCHEDULE) extra.
Proof.
  unfold queue_enqueue. destruct (_ && _) eqn:G; [|intros [= <-]; exists []; by split; [apply grows_refl|]]. apply andb_true_iff in G as [Eop Hn]. apply Z.eqb_eq in Eop.
  destruct (negb _); [done|]. destruct (position is_none _) as [i|] eqn:Ef; [|done]. cbn. intros [= <-]. eexists [_].
  split; [apply ticket_appended; [done|done|]|by constructor]. apply index_missing; [done|]. by destruct (Queue_index q _).
Qed.

Lemma enqueue_total candidate caller p : queue_enqueue q candidate caller p <> Panic.
Proof. unfold queue_enqueue. destruct (_ && _); [|done]. destruct (negb _); [done|]. auto with total. Qed.

Lemma ticket_grows candidate active p r q' active' : queue_ticket q candidate active p = (r, (q', active')) -> r <> Panic /\ queue_grows q q' [].
Proof.
  unfold queue_ticket. destruct (Queue_index q _) as [i|] eqn:E; [|intros [= <- <- <-]; split; [done|by apply grows_refl]].
  destruct (index_found _ _ _ H E) as (t & Ht & Hid & Et). cbn [ok_or]. rewrite Et. set (t' := if _ : bool then _ else _).
  assert (Hc : carries t t') by (unfold t'; destruct (_ =? _); [apply stop_carries|by repeat split]). pose proof (ticket_replaced q i t t' H Ht Hc) as Hg.
  match goal with |- context [running_execution ?a ?b ?c ?d] => pose proof (running_total a b c d); destruct (running_execution a b c d) as [[cur|]|e|]; [..|done] end;
    intros [= <- <- <-]; split; auto with total; done.
Qed.
End Requests.

Lemma admit_total q c active caller p now : Packet_valid p -> queue_admit q c active caller p now <> Panic.
Proof.
  intros Hv. unfold queue_admit. apply bound_total; [by apply validate_total|]. intros _ _. destruct (_ || _); [done|]. apply bound_total; [auto with total|]. intros g _.
  apply bound_total; [destruct (_ =? _); auto with total|]. intros id _. apply bound_total; [auto with total|]. intros x _. apply bound_total; [auto with total|done].
Qed.

Lemma admit_right q c active caller p now x : queue_admit q c active caller p now = Ok x -> exists g, Caller_check_right caller c now (queue_right (p_op p)) = Ok g.
Proof.
  unfold queue_admit. destruct (validate_request p); [|done..]. destruct (_ || _); [done|]. destruct (Caller_check_right _ _ _ _) as [g| |]; [|done..]. by exists g.
Qed.

(** One request of a client. *)
Lemma request_grows q c active caller p now r q' active' : queue_ok q -> Packet_valid p -> queue_request q c active caller p now = (r, (q', active')) ->
  (exists reply, r = Ok reply) /\ exists extra, queue_grows q q' extra /\
    Forall (fun t => tk_caller t = caller /\ exists g, Caller_check_right caller c now (queue_right (p_op p)) = Ok g) extra.
Proof.
  intros Hq Hv E. unfold queue_request in E. destruct (queue_handle q c active caller p now) as [x qa] eqn:Eh. injection E as <- ->.
  assert (Hh : x <> Panic /\ exists extra, queue_grows q q' extra /\ Forall (fun t => tk_caller t = caller /\ exists g, Caller_check_right caller c now (queue_right (p_op p)) = Ok g) extra);
    [|destruct Hh as [Hx He]; split; [|done]; destruct x; [by eexists..|done]].
  assert (Hsame : exists extra, queue_grows q q extra /\ Forall (fun t => tk_caller t = caller /\ exists g, Caller_check_right caller c now (queue_right (p_op p)) = Ok g) extra)
    by (exists []; by split; [apply grows_refl|]).
  unfold queue_handle in Eh. pose proof (admit_total q c active caller p now Hv) as Ht. pose proof (admit_right q c active caller p now) as Hr.
  destruct (queue_admit _ _ _ _ _ _) as [cand|e|]; [|by injection Eh as <- <- <-|done]. destruct (Hr cand eq_refl) as [g Hg]. destruct (p_op p =? LIFECYCLE_CANCEL).
  - destruct (Queue_cancel q cand active caller) as [y [q1 a1]] eqn:Ec. destruct (cancel_grows q Hq _ _ _ _ _ _ Ec) as [Hy (extra & Hgr & Hall)]. injection Eh as <- <- <-.
    split; [auto with total|]. exists extra. split; [done|]. eapply Forall_impl; [exact Hall|]. intros t [? _]. split; [done|by exists g].
  - destruct (p_op p =? ADM_OBSERVE).
    + injection Eh as <- <- <-. split; [|done]. apply bound_total; [by apply observe_total|auto with total].
    + pose proof (enqueue_total q cand caller p) as Hen. destruct (queue_enqueue q cand caller p) as [q1|e|] eqn:Ee; [|by injection Eh as <- <- <-|done].
      destruct (enqueue_grows q Hq _ _ _ _ Ee) as (extra & Hgr & Hall). destruct (ticket_grows q1 (qg_ok _ _ _ Hgr) _ _ _ _ _ _ Eh) as [Hx Hg1]. split; [done|].
      destruct Hgr as [_ (l & El & Fl)]. destruct Hg1 as [Hq' (k & Ek & Fk)]. rewrite app_nil_r in Ek. subst k. rewrite El in Fk. apply Forall2_app_inv_l in Fk as (k1 & k2 & F1 & F2 & Ew).
      exists k2. split; [split; [done|]; exists k1; split; [done|by eapply carries_trans]|].
      apply Forall_lookup. intros i t Hi. destruct (Forall2_lookup_r _ _ _ _ _ F2 Hi) as (u & Hu & (_ & Ecl & _)). pose proof (Forall_lookup_1 _ _ _ _ Hall Hu) as [Eu _].
      split; [congruence|by exists g].
Qed.

(** ** Running the head of the queue

    scheduling/execution.rs for any callback that treats the clients and the
    queue as their interfaces allow: only the head's admission is executed,
    under the live authority of the client that scheduled it, and it leaves the
    line when its attempt settled. *)
(** ** Listing the admissions *)
Lemma scope_new_total v c subject old : Scope_new v c subject old <> Panic.
Proof. unfold Scope_new. auto 10 with total. Qed.

Lemma refresh_loop_spec v c slots l r l' : refresh_loop v c slots l = (r, l') -> r <> Panic /\ length l' = length l.
Proof.
  revert l. induction slots as [|slot slots IH]; intros l; cbn [refresh_loop]; [by intros [= <- <-]|].
  pose proof (retained_total v slot) as Ht. destruct (retained_admission v slot) as [[[subject a]|]|e|]; [|apply IH| |done].
  - pose proof (scope_new_total v c subject a). destruct (Scope_new v c subject a) as [sp|e|]; [|by intros [= <- <-]|done].
    intros E. apply IH in E as [? E]. split; [done|]. by rewrite E, length_insert.
  - by destruct e; intros [= <- <-].
Qed.

Lemma refresh_grows q v c r q' : queue_ok q -> Queue_refresh q v c = (r, q') -> r <> Panic /\ queue_grows q q' [].
Proof.
  intros H. unfold Queue_refresh. destruct (refresh_loop _ _ _ _) as [x l] eqn:E. intros [= <- <-]. apply refresh_loop_spec in E as [Hx Hl]. split; [done|].
  destruct (queue_intro (set_candidates q l) (waiting q)) as [Hq Hw]; [apply H..|cbn; by rewrite Hl, length_replicate|].
  split; [done|]. exists (waiting q). split; [by rewrite app_nil_r|apply carries_refl].
Qed.

(** A volume that is not fenced answers for its root. *)
Lemma stat_root {D} {HD : Disk D} {HV : DiskView D} {HW : ViewLaws D} {HL : DiskLaws D} (w : Volume * D) : sound w ->
  is_ok (Volume_stat (w.1) 1) = negb (vl_poisoned (w.1)).
Proof.
  intros H. unfold Volume_stat, Volume_ready. destruct (vl_poisoned (w.1)) eqn:Hp; [done|]. pose proof (metadata_tree _ (sound_volume_ok w H Hp)) as Ht.
  destruct (t_roots _ Ht 1) as (x & Hx & _); [lia|]. by rewrite Hx.
Qed.

Section Schedule.
Context {D Ow : Type} {HD : Disk D} {HV : DiskView D} {HW : ViewLaws D} {HL : DiskLaws D} {HQ : PollDisk D} {HPL : PollLaws D} {HS : Digest} {HSL : DigestLaws}.
Context (total : bool) (fuel : nat) (Hfuel : total = true -> prompt (D := D) /\ (17 < fuel)%nat).
Context (st0 : Service D (Ow * ExecutionQueue)) (Hok : service_ok st0) (I : Ow -> Clients -> Prop) (T : nat -> Packet -> Prop) (HI : owner_invariant (s_clients st0) T I).
Context (Hq0 : queue_ok (s_owner st0).2) (HI0 : I (s_owner st0).1 (s_clients st0)).
Context (control : queue_control (Ow := Ow)).
Hypothesis (Hctl : forall o c active q now c' active' q' o', I o c -> queue_ok q -> control o c active q = (now, c', active', q', o') ->
  I o' c' /\ I o' (Clients_expire c' now) /\ exists extra, queue_grows q q' extra).
Implicit Types st : Service D (Ow * ExecutionQueue).

(** The owner's invariant, with a queue grown from the one the run found. *)
Definition queued (oq : Ow * ExecutionQueue) (c : Clients) : Prop := I (oq.1) c /\ exists extra, queue_grows (s_owner st0).2 (oq.2) extra.

Lemma queued_invariant : owner_invariant (s_clients st0) T queued.
Proof. split; [intros oq c [H _]; by eapply (oi_dwindles _ _ _ HI)|]. intros oq c slot p s t HT [H Hg] Hx. split; [by eapply (oi_take _ _ _ HI)|done]. Qed.

Lemma queued_start : queued (s_owner st0) (s_clients st0).
Proof. split; [done|]. exists []. by apply grows_refl. Qed.

Lemma sees_trusted o c active now c' active' o' : queued o c -> sees_queue control o c active = (now, c', active', o') -> queued o' c' /\ queued o' (Clients_expire c' now).
Proof.
  intros [H [x Hg]]. unfold sees_queue. destruct (control (o.1) c active (o.2)) as [[[[n c1] a1] q1] o1] eqn:E. intros [= <- <- <- <-].
  destruct (Hctl _ _ _ _ _ _ _ _ _ H (qg_ok _ _ _ Hg) E) as (H1 & H2 & [y Hy]). split; (split; [done|by eapply grows_trans]).
Qed.

Lemma stops_trusted o c active now c' active' o' : queued o c -> stops_head control o c active = (now, c', active', o') -> queued o' c' /\ queued o' (Clients_expire c' now).
Proof. unfold stops_head. apply sees_trusted. Qed.

Lemma queued_modify o c f : queued o c -> (queue_ok (o.2) -> queue_grows (o.2) (f (o.2)) []) -> queued (o.1, f (o.2)) c.
Proof. intros [H [x Hg]] Hf. split; [done|]. eapply grows_trans; [exact Hg|]. apply Hf, Hg. Qed.

Lemma running_grows q : queue_ok q -> queue_grows q (set_running q) [].
Proof.
  intros H. destruct (queue_intro (set_running q) (waiting q)) as [Hq Hw]; [apply H..|]. split; [done|]. exists (waiting q). split; [by rewrite app_nil_r|apply carries_refl].
Qed.

(** ** The head's ticket *)
Section Head.
Context (ticket : Ticket) (now : Z).

#[local] Abbreviation subject := (tk_subject ticket).
#[local] Abbreviation id := (stored_id (tk_id ticket)).

(** What a refusal may leave of the volume: its own admission withdrawn. *)
Definition ticket_keeps (v : Volume) : Prop := v = s_volume st0 \/ retired_in (s_volume st0) subject id v.

(** What running the ticket may change: the object its admission names, when the
    client that scheduled it is live and may write that object. *)
Definition ticket_allowed : entry_relation := fun k _ _ => exists g old,
  live_grant (s_clients st0) (ca_slot (tk_caller ticket)) (ca_peer (tk_caller ticket)) (ca_context (tk_caller ticket)) now g /\ fg_subject g = subject /\
  admission_by_id (s_volume st0) subject id = Ok old /\ k = fp_id (av_request old) /\ FileGrant_access g (s_volume st0) k true = Ok tt.

(** How a run that answers with a status ended, for the admission of the ticket. *)
Definition ticket_status (status : FsStatus) st : Prop :=
  settled_before (world st0) subject id status (world st) \/ withdrawn (world st0) subject id status (world st) \/
  (tk_stop ticket = false /\ executed (world st0) subject id status (world st)).

#[local] Abbreviation quiet := (quiet st0 queued ticket_keeps (eq (s_instance st0))).
#[local] Abbreviation concludes := (concludes st0 queued ticket_keeps (eq (s_instance st0))).

Lemma keeps_start : ticket_keeps (s_volume st0).
Proof. by left. Qed.

Lemma waits_still st : waits st0 queued st -> quiet st.
Proof. apply (waits_quiet st0 Hok T queued queued_invariant); [apply keeps_start|done]. Qed.

(** An error that is certain left no trace. *)
Lemma concludes_quiet {A} R (P : A -> Service D (Ow * ExecutionQueue) -> Prop) st e : concludes R P (Err e) st -> e <> FUncertain -> quiet st.
Proof. intros [C1 C2 [C3 C4] C5 _] He. destruct (C4 e eq_refl He) as (? & ? & ?). split; [by split|done|by apply (C5 e)]. Qed.

Lemma prevented_certain e reason : prevented_by e = Some reason -> e <> FUncertain.
Proof. by intros H ->. Qed.

Lemma prevent_ticket_wp reason active st old : quiet st -> admission_by_id (s_volume st0) subject id = Ok old -> fs_state (av_status old) = FAdmitted ->
  wp total (let! r := prevent_admission_active fuel subject id reason active (sees_queue control) in pure (Ok (r.1))) st (concludes ticket_allowed ticket_status).
Proof.
  intros H Ho Hs. apply wp_bind. eapply wp_mono; [apply (prevent_wp total fuel Hfuel st0 queued ticket_keeps (eq (s_instance st0)) (sees_queue control)) with (R := ticket_allowed);
    [intros; by eapply sees_trusted|exact H]|].
  intros r st' Hr Hx. destruct r as [[status a]|e|]; [|by eapply concludes_error|done]. destruct (cn_answer _ _ _ _ _ _ _ _ Hx _ eq_refl) as (Hu & _ & _ & Hpub). cbn [fst] in *.
  apply wp_ret; [done|]. apply (untraced_concludes st0 queued); [done|done|]. intros ? [= <-]. right; left.
  apply cancelled_published in Hpub; [|eapply untraced_sound, H]. destruct (qt_volume _ _ _ _ _ H) as [Ev|(x & y & Hx1 & Hy & He)].
  - rewrite Ev in Hpub. destruct Hpub as [(z & Hz & Hne & _)|(z & new & Hz & Hn & He & Es)]; [cbn in Hz; rewrite Ev in Hz; congruence|].
    exists z, new. do 4 (split; [done|]). apply Hu.
  - destruct Hpub as [(z & Hz & _ & Es & Ew)|(z & new & Hz & _ & He' & _)].
    + cbn in Hz. assert (z = y) as -> by congruence. exists x, y. rewrite Ew. split; [done|]. split; [done|]. split; [done|]. split; [done|]. apply H.
    + assert (z = y) as -> by congruence. destruct He as (_ & E1 & _), He' as (E2 & _). congruence.
Qed.

Lemma execute_ticket_wp st old : waits st0 queued st -> tk_stop ticket = false -> admission_by_id (s_volume st0) subject id = Ok old ->
  wp total (execute_admission_active_with fuel (tk_caller ticket) id now (stops_head control)) st (concludes ticket_allowed ticket_status).
Proof.
  intros H Hst Ho. pose proof (sound_volume_ok (world st0) (sv_sound _ Hok)) as Hv. destruct (Clients_grant_at (s_clients st0) (ca_slot (tk_caller ticket))) as [g|] eqn:Eg.
  - assert (Hsub : forall a, admission_by_id (s_volume st0) (fg_subject g) id = Ok a -> fg_subject g = subject) by (intros a Ha; by eapply admission_subject).
    eapply wp_mono; [apply (execute_wp total fuel Hfuel st0 Hok T queued queued_invariant ticket_keeps (eq (s_instance st0)) keeps_start eq_refl (stops_head control) True True now)
      with (g := g) (R := ticket_allowed); [intros; by eapply stops_trusted|by left|by left|exact H|exact Eg|..]|].
    + intros a Ha Hw Hl k x y Hk. unfold only in Hk. exists g, a. pose proof (Hsub _ Ha) as Es. rewrite Hk. rewrite Es in Ha. done.
    + intros _ v (a & b & Ha & Hb & He). right. rewrite <- (Hsub _ Ha). by exists a, b.
    + intros r st' _ Hx. eapply concludes_mono; [|exact Hx]. intros status Hc.
      assert (Es : fg_subject g = subject) by (destruct Hc as [(a & Ha & _)|[(a & ? & Ha & _)|(_ & a & ? & Ha & _)]]; by eapply Hsub). rewrite Es in Hc. destruct Hc as [?|[?|[_ ?]]]; [by left|by right; right|by right; left].
  - unfold execute_admission_active_with. apply wp_get_bind. apply (quiet_pure total st0 queued); [by apply waits_still|apply right_total|].
    intros g Hg. exfalso. apply caller_live in Hg. apply (waits_live st0 T queued queued_invariant st _ _ _ _ _ H) in Hg as [Hg _]. congruence.
Qed.

Lemma waits_owner st f : waits st0 queued st -> (queue_ok ((s_owner st).2) -> queue_grows ((s_owner st).2) (f ((s_owner st).2)) []) ->
  waits st0 queued (set_owner st ((s_owner st).1, f (s_owner st).2)).
Proof. intros [W1 W2 W3] Hf. split; [by apply (queued_modify (s_owner st) (s_clients st) f)|done|done]. Qed.

Lemma run_ticket_wp st : waits st0 queued st -> wp total (run_ticket fuel ticket now control) st (concludes ticket_allowed ticket_status).
Proof.
  intros H. unfold run_ticket. apply wp_bind.
  unfold wp at 1, refresh_queue. destruct (Queue_refresh (s_owner st).2 (s_volume st) (s_clients st)) as [r q] eqn:E.
  assert (Hg : r <> Panic /\ queue_grows (s_owner st).2 q []).
  { apply (refresh_grows _ _ _ _ _) in E; [done|]. destruct (wt_owner _ _ _ H) as [_ [x Hx]]. apply Hx. }
  destruct Hg as [Hr Hg]. split; [done|]. pose proof (waits_owner st (fun _ => q) H (fun _ => Hg)) as H1. cbn beta in H1. set (st1 := set_owner _ _) in *.
  destruct r as [[]|e|]; [|by apply (quiet_concludes st0 queued); [apply waits_still|]|done].
  apply wp_get_bind. rewrite (waits_volume _ _ _ H1). apply (quiet_pure total st0 queued); [by apply waits_still|auto with total|]. intros old Ho. apply stored_ok in Ho.
  destruct (negb _) eqn:Es.
  { apply (quiet_ret total st0 queued); [by apply waits_still|done|]. intros ? [= <-]. left. exists old. apply negb_true_iff, bool_decide_eq_false in Es. do 3 (split; [done|]). apply H1. }
  apply negb_false_iff, bool_decide_eq_true in Es. apply (quiet_pure total st0 queued); [by apply waits_still|apply active_new_total|]. intros active _.
  apply wp_bind. unfold modify_queue. apply wp_get_bind, wp_put. pose proof (waits_owner st1 set_running H1 (running_grows _)) as H2. set (st2 := set_owner st1 _) in *.
  destruct (tk_stop ticket) eqn:Est; [by eapply prevent_ticket_wp; [apply waits_still|..]|]. apply wp_catch. eapply wp_mono; [by apply (execute_ticket_wp st2 old)|].
  intros r st' Hr' Hx. destruct r as [status|e|]; [| |done].
  - apply wp_ret; [done|]. eapply (done_concludes st0 queued); [apply Hx|apply Hx|apply Hx|done|]. intros ? [= <-]. by apply Hx.
  - destruct (prevented_by e) as [reason|] eqn:Ep; [|by apply wp_ret; [done|]]. eapply prevent_ticket_wp; [|done|done]. eapply concludes_quiet; [exact Hx|by eapply prevented_certain].
Qed.

(** What a run of the head leaves: its own admission settled, and the rest of the
    line, which is dropped exactly when the file system must be mounted again. *)
Record ran_head (r : outcome FileError FsStatus) st : Prop := {
  rh_owner : I (s_owner st).1 (s_clients st);
  rh_queue : queue_ok (s_owner st).2;
  rh_line : r <> Err FUncertain -> vl_poisoned (s_volume st) = false ->
    exists l extra, waiting (s_owner st).2 = l ++ extra /\ Forall2 carries (tail (waiting (s_owner st0).2)) l;
  rh_lost : r = Err FUncertain \/ vl_poisoned (s_volume st) = true -> waiting (s_owner st).2 = [];
  rh_instance : fits 64 (s_instance st);
  rh_bounded : bounded ticket_keeps ticket_allowed (world st0) r (world st);
  rh_status : forall status, r = Ok status -> ticket_status status st;
}.

Lemma head_done line (result : outcome FileError FsStatus) st : waiting (s_owner st0).2 = ticket :: line -> result <> Panic -> concludes ticket_allowed ticket_status result st ->
  wp total (let! st := call_get in let lost := match result with Err FUncertain => true | _ => false end in
            let! _ := modify_queue (if lost || negb (is_ok (Volume_stat (s_volume st) 1)) then Queue_clear else Queue_finish) in pure (Ok (Some result))) st
    (fun r st => exists result, r = Ok (Some result) /\ result <> Panic /\ ran_head result st).
Proof.
  intros Ew Hr [[C1 [x Hg]] C2 C3 C5 C4]. apply wp_get_bind, wp_bind. unfold modify_queue. apply wp_get_bind, wp_put, wp_ret; [done|]. exists result. split; [done|]. split; [done|].
  pose proof (stat_root (world st) (ef_sound _ _ _ (bd_effect _ _ _ _ _ C3))) as Hroot. cbn [fst world] in Hroot. rewrite Hroot, negb_involutive.
  set (lost := match result with Err FUncertain => true | _ => false end).
  assert (Hlost : lost = true <-> result = Err FUncertain) by (unfold lost; destruct result as [|[]|]; split; congruence).
  destruct Hg as [Hgo (l & El & Fl)]. destruct empty_ok as [He Ee]. destruct (finish_ok _ Hgo) as [Hf Ef].
  split; [done| | | |done|done|done]; cbn [s_owner set_owner snd s_volume].
  - by destruct (_ || _).
  - intros Hu Hp. assert (lost = false) as -> by (apply not_true_is_false; by rewrite Hlost). rewrite Hp. cbn [orb]. rewrite Ef, El, Ew. rewrite Ew in Fl. cbn [tail].
    apply Forall2_cons_inv_l in Fl as (t' & l' & _ & Fl & ->). by exists l', x.
  - intros Hl. assert (lost || vl_poisoned (s_volume st) = true) as -> by (apply orb_true_iff; rewrite Hlost; done). done.
Qed.
End Head.

Lemma run_scheduled_wp now : wp total (run_scheduled fuel now control) st0 (fun r st =>
  match head (waiting (s_owner st0).2) with
  | None => r = Ok None /\ st = st0
  | Some ticket => exists result, r = Ok (Some result) /\ result <> Panic /\ ran_head ticket now result st
  end).
Proof.
  unfold run_scheduled. apply wp_get_bind. rewrite (queue_head _ Hq0). destruct (waiting (s_owner st0).2) as [|ticket line] eqn:Ew; cbn [head]; [by apply wp_ret|].
  assert (Hw : waits st0 queued st0) by (split; [apply queued_start|done|done]).
  apply wp_bind. unfold attempt. apply wp_catch. eapply wp_mono; [by apply (run_ticket_wp ticket now st0)|].
  intros r st' Hr Hx. destruct r as [status|e|]; [| |done]; (apply wp_ret; [done|]); by eapply head_done.
Qed.
End Schedule.
