(* ===== verification/SvcClaims.v ===== *)
(** * What the file service promises

    The theorems about the server, its clients and its execution queue, each
    with a concrete service for which it holds. *)
From stdpp Require Import base list option numbers relations.
From Stdlib Require Import ZArith Lia Bool.
From S2P Require Import Prelude Bytes Codec AbiFiles AbiIdentity AbiMessages AbiReceipts AbiAdmission FsDisk FsNode FsRecovery FsFormat FsVolume FsPublication FsTree FsInvariant FsReach FsCalls FsSpec FsHistory FsClaims SvcClients SvcServer SvcPublish SvcDispatch SvcClientsFacts SvcReplies SvcEffect SvcControl SvcServe SvcHandle SvcCommit SvcAdmit SvcSession SvcAuthority SvcSchedule.

Section Server.
Context {D Ow : Type} {HD : Disk D} {HV : DiskView D} {HW : ViewLaws D} {HL : DiskLaws D} {HS : Digest} {HSL : DigestLaws}.
Implicit Types st : Service D Ow.

(** C3 (server_handle_is_safe): every valid packet of any peer in any slot is
    answered within the fuel of the model, without a panic, with a frame the
    client accepts as the answer to its request; the service stays well formed,
    the grants and the owner's state are untouched, and the files (as clients
    see them, and as any stop of the machine would leave them) differ only in
    objects the peer's live grant in that slot may write. *)
Theorem server_handle_is_safe st slot peer p now : service_ok st -> Packet_valid p -> exists reply st',
  Server_handle slot peer p now st = Some (Ok reply, st') /\ replied p reply /\ service_ok st' /\
  same_authority (s_clients st) (s_clients st') /\ s_owner st' = s_owner st /\
  effect (allowed st slot peer (p_context p) now) (world st) (world st').
Proof.
  intros H Hv. destruct (wp_total _ _ _ (handle_served st slot peer p now H Hv)) as (r & st' & E & _ & reply & -> & [[(Ho & Ha & Hc) Hi Hr He _] _]).
  exists reply, st'. split; [done|]. split; [done|]. split; [split; [apply (ef_sound _ _ _ He)|done|done]|]. done.
Qed.


(** ** Callbacks of an owner *)
Section Callbacks.
Context {HQ : PollDisk D} {HPL : PollLaws D}.
Context (fuel : nat) (st : Service D Ow) (Hst : service_ok st) (slot : nat) (peer : Z) (p : Packet) (Hp : Packet_valid p).
Context (control : owner_control (Ow := Ow)).

(** The callback has the clients' public calls only. *)
Hypothesis (Hturns : forall o c pending now c' o', control o c pending = (now, c', o') -> rtc clients_turn c c').

Let fading (o : Ow) (c : Clients) : Prop := dwindles (s_clients st) c.

Local Lemma fading_invariant : owner_invariant (s_clients st) (fun _ _ => True) fading.
Proof. split; [done|]. intros o c i q s t _ H Hx. eapply dwindles_trans; [exact H|]. eapply take_dwindles; [apply H|exact Hx]. Qed.

Local Lemma fading_trusted : trusted fading control.
Proof.
  intros o c pending now c' o' H E. assert (Hd : dwindles (s_clients st) c') by (eapply dwindles_trans; [exact H|]; eapply turns_dwindle; [apply H|by eapply Hturns]).
  split; [exact Hd|]. eapply dwindles_trans; [exact Hd|]. apply expire_dwindles, Hd.
Qed.

Local Lemma fading_start : fading (s_owner st) (s_clients st).
Proof. apply dwindles_refl, Hst. Qed.

(** C5 (commit_publishes_staged_bytes): whatever an owner does to its clients
    while a logical commit is in flight, the commit answers, provided the disk
    settles every command at once and the model has fuel for the at most
    seventeen commands; only the object the request names can change.  A
    successful reply means that the client's grant was live when last consulted
    and that the request's key now names exactly this replacement: either it
    already did and nothing changed, or the key named nothing before, the object
    was a file still at the expected version, the grant may write it, and it now
    holds exactly the bytes the client staged.  An error other than [Uncertain]
    means that the volume is as it was. *)
Theorem commit_publishes_staged_bytes : let R := naming (p_id p) (allowed st slot peer (p_context p) (first_time st control)) in
  (prompt (D := D) -> (17 < fuel)%nat -> exists reply st', commit_with fuel slot peer p control st = Some (Ok reply, st')) /\
  (forall r st', commit_with fuel slot peer p control st = Some (r, st') -> exists reply, r = Ok reply /\ replied p reply /\
     effect R (world st) (world st') /\ (p_status reply = 0 -> committed st slot peer p st') /\
     forall e, FileError_parse (p_status reply) = Err e -> e <> FUncertain ->
       effect nothing (world st) (world st') /\ s_volume st' = s_volume st /\ s_instance st' = s_instance st).
Proof.
  intros R. assert (H : forall t, (t = true -> prompt (D := D) /\ (17 < fuel)%nat) -> wp t (commit_with fuel slot peer p control) st
    (fun r st' => exists reply, r = Ok reply /\ handled st fading (eq (s_volume st)) (eq (s_instance st)) R p reply st' /\
       (p_status reply = 0 -> reply_ok p reply /\ committed st slot peer p st'))).
  { intros t Ht. apply (answering_wp t st fading (eq (s_volume st)) (eq (s_instance st)) R (fun reply st' => reply_ok p reply /\ committed st slot peer p st')); [done|by intros ? ? [? _]|].
    by apply (commit_request_wp t fuel Ht st Hst (fun _ _ => True) fading fading_invariant fading_start (eq (s_volume st)) (eq (s_instance st)) eq_refl eq_refl control fading_trusted slot peer p Hp). }
  split.
  - intros Hpr Hf. destruct (wp_total _ _ _ (H true (fun _ => conj Hpr Hf))) as (r & st' & E & _ & reply & -> & _). by exists reply, st'.
  - intros r st' E. destruct (wp_apply _ _ _ _ _ _ (H false ltac:(done)) E) as (_ & reply & -> & [_ _ Hr He Hn] & Hc). exists reply.
    do 3 (split; [done|]). split; [intros Hz; by apply Hc|]. intros e H1 H2. by destruct (Hn e H1 H2) as (? & _ & ? & ?).
Qed.

(** C15 (admissions_publish_under_authority): the controlled requests of
    admissions answer, provided the disk settles every command at once and the
    model has fuel for the at most seventeen commands of each publication.
    Accepting and cancelling change no file whatever they answer; executing
    changes at most the object of the admission its packet names, which the
    caller's live grant may write.  A successful reply is the retained admission
    the request acted on: for an execution, the named one, which had already
    settled and nothing happened, or was admitted at the object's current version
    and has replaced it by its retained bytes; for a cancellation, the named one,
    which had already settled, or was admitted and is now cancelled; for an
    acceptance, one with the request and the bytes the client staged, which its
    key already named, or which is newly admitted at the object's current version.
    An error other than [Uncertain] means that no file changed. *)
Theorem admissions_publish_under_authority : let caller := mkCaller slot peer (p_context p) in
  let R := admission_allowed st caller p (first_time st control) in
  (prompt (D := D) -> (17 < fuel)%nat -> exists reply st', admission_with fuel caller p control st = Some (Ok reply, st')) /\
  (forall r st', admission_with fuel caller p control st = Some (r, st') -> exists reply, r = Ok reply /\ replied p reply /\
     effect R (world st) (world st') /\ (p_status reply = 0 -> admission_done st control caller p reply st') /\
     forall e, FileError_parse (p_status reply) = Err e -> e <> FUncertain ->
       effect nothing (world st) (world st') /\ vl_poisoned (s_volume st') = vl_poisoned (s_volume st)).
Proof.
  intros caller R. set (any := fun _ : Volume => True). set (named := fun _ : Z => True).
  assert (H : forall t, (t = true -> prompt (D := D) /\ (17 < fuel)%nat) -> wp t (admission_with fuel caller p control) st
    (fun r st' => exists reply, r = Ok reply /\ handled st fading any named R p reply st' /\
       (p_status reply = 0 -> reply_ok p reply /\ admission_done st control caller p reply st'))).
  { intros t Ht. apply (answering_wp t st fading any named R (fun reply st' => reply_ok p reply /\ admission_done st control caller p reply st')); [done|by intros ? ? [? _]|].
    by apply (admission_serve_wp t fuel Ht st Hst (fun _ _ => True) fading fading_invariant fading_start any named Logic.I Logic.I control fading_trusted True
      (fun _ => conj (fun _ => Logic.I) (fun _ => Logic.I)) (or_introl Logic.I) caller p Hp). }
  split.
  - intros Hpr Hf. destruct (wp_total _ _ _ (H true (fun _ => conj Hpr Hf))) as (r & st' & E & _ & reply & -> & _). by exists reply, st'.
  - intros r st' E. destruct (wp_apply _ _ _ _ _ _ (H false ltac:(done)) E) as (_ & reply & -> & [_ _ Hr He Hn] & Hc). exists reply.
    do 3 (split; [done|]). split; [intros Hz; by apply Hc|]. intros e H1 H2. by destruct (Hn e H1 H2) as (? & ? & _).
Qed.
End Callbacks.
End Server.

(** ** Grants *)
(** C18 (derived_grants_attenuate): deriving succeeds only from a live root grant
    in another slot; the new grant is the requested one with its parent's subject
    and no second scope.  It never exceeds its parent: every right it has its
    parent has, it may read, write, inspect, or reach an operation (to look at it
    or to cancel it) only where its parent may, and it is expired whenever its
    parent is.  The clients stay well formed and the new slot belongs to the
    parent's family. *)
Theorem derived_grants_attenuate v c slot parent g now generation c' : clients_ok c -> grant_fits g -> volume_ok v ->
  derive v c slot parent g now = Ok (generation, c') -> clients_ok c' /\ cl_roots c' !! slot = Some parent /\ exists j source h,
  slot <> j /\ Clients_grant_at c j = Some source /\ fg_generation source = parent /\ cl_roots c !! j = Some parent /\
  FileGrant_check source (fg_peer source) parent now = Ok tt /\
  Clients_grant_at c' slot = Some h /\ h = set_generation (derived_grant source g) generation /\ generation = cl_next c /\
  (forall n, Z.testbit (fg_rights h) n = true -> Z.testbit (fg_rights source) n = true) /\
  (forall id write, FileGrant_access h v id write = Ok tt -> FileGrant_access source v id write = Ok tt) /\
  (forall id, FileGrant_inspect h v id = Ok tt -> FileGrant_inspect source v id = Ok tt) /\
  (forall workspace object right, operation_scope h v workspace object right = Ok tt -> operation_scope source v workspace object right = Ok tt) /\
  (forall t, fg_expires h = 0 \/ t < fg_expires h -> fg_expires source = 0 \/ t < fg_expires source).
Proof.
  intros H Hg Hv E. destruct (derive_spec _ _ _ _ _ _ _ _ H Hg E) as (j & source & Hsj & Hh & Eh & Hr & Hj & Hc & Ha & Ei).
  assert (Hf : grant_fits (derived_grant source g)). { destruct Hg. destruct (proj1 (co_grant _ H j source Hh)). split; try done; by cbn; unfold fits. }
  destruct (install_spec _ _ _ _ _ _ _ H Hf (or_intror (ex_intro _ j (conj Hsj (ex_intro _ source (conj Hh (conj Eh (conj Hr Hj))))))) Ei) as (Hok & Eg & _ & _ & Hs & Hro & _).
  split; [done|]. split; [rewrite Hro; destruct (Z.eqb_spec parent 0) as [E0|]; [|done]; exfalso; destruct (co_grant _ H j source Hh) as (_ & r & Hr1 & ? & _); rewrite Hj in Hr1; injection Hr1 as <-; lia|].
  set (h := set_generation (derived_grant source g) generation). assert (Fh : grant_fits h) by (destruct Hf; destruct Hg; split; try done; rewrite Eg; apply (co_next _ H)).
  assert (Ah : attenuates v source h = true) by exact Ha.
  exists j, source, h. do 8 (split; [done|]). split; [intros n; apply masked_bits; [pose proof (gf_rights _ Fh); lia|apply (attenuates_spec _ _ _ Ah)]|].
  split; [intros id write; by apply attenuated_access|]. split; [intros id; by apply attenuated_inspect|]. split; [intros; by eapply attenuated_operation|].
  intros t. by apply attenuated_expiry with (v := v).
Qed.

(** C13 (revocation_is_final): revoking a root reports exactly the slots of its
    family, leaves every other grant alone, and whatever calls follow, no grant
    with a generation of that family is ever accepted again. *)
Theorem revocation_is_final c root mask c1 c2 : clients_ok c -> root <> 0 -> Clients_revoke_root c root = (mask, c1) -> rtc clients_call c1 c2 ->
  forall i g, Clients_grant_at c i = Some g ->
  (Z.testbit mask (Z.of_nat i) = true <-> cl_roots c !! i = Some root) /\
  (cl_roots c !! i <> Some root -> Clients_grant_at c1 i = Some g) /\
  (cl_roots c !! i = Some root -> forall slot peer now h, ~ live_grant c2 slot peer (fg_generation g) now h).
Proof.
  intros H Hr E Ht i g Hg. destruct (revoke_root_spec _ _ _ _ H E) as (_ & _ & _ & Hgr & _ & Hm). rewrite Hm, Hgr, (family_Some _ _ _ _ Hg).
  rewrite (proj2 (Z.eqb_neq root 0)) by done. cbn [negb andb]. split; [apply bool_decide_eq_true|]. split; [intros Hn; by rewrite bool_decide_false|].
  intros Hi slot peer now h. apply spent_refused. eapply calls_spent; [by eapply revoke_root_ok|exact Ht|by eapply revoked_spent].
Qed.

(** C33 (reachable_clients_are_well_formed): from the empty tables, any sequence
    of grants, derivations, extensions, revocations, detachments, expiries and
    staging calls keeps the clients well typed: generations are distinct and
    below the next one, a derived grant with rights has a live root, and each
    client stages at most one transfer, under its own live grant. *)
Theorem reachable_clients_are_well_formed c : rtc clients_call Clients_new c -> clients_ok c.
Proof. apply calls_ok, clients_new_ok. Qed.

(** After a begin and any chunks of one client,
    what a commit takes is the concatenation of the chunk payloads, of exactly
    the announced length, for the object and version that were announced, and
    the client has nothing staged afterwards. *)
Theorem chunks_build_the_payload c slot peer now p g t payloads c' q s t' : clients_ok c -> Packet_valid p ->
  live_grant c slot peer (p_context p) now g -> Transfers_begin (cl_transfers c) slot p = Ok t ->
  stages slot (set_transfers c t) payloads c' -> Transfers_take (cl_transfers c') slot q = Ok (s, t') ->
  transfer_bytes s = Ok (concat payloads) /\ Z.of_nat (length (concat payloads)) = p_arg p /\ tf_id s = p_id p /\ tf_version s = p_version p /\
  tf_context s = p_context p /\ tf_id s = p_id q /\ tf_context s = p_context q /\ ~ staged_for (set_transfers c' t') slot.
Proof.
  intros H Hv Hl Eb Hs Et. destruct (live_covers _ _ _ p _ _ Hl) as (Hg & Hr & Ec).
  destruct (begin_spec c slot p g t H Hv Hg Hr Ec Eb) as (Hc & l & r & _ & _ & _ & Ho).
  destruct (stages_append _ _ _ _ _ Hc Hs Ho) as (s' & Ho' & E1 & E2 & E3 & E4 & E5 & E6 & _). pose proof (stages_ok _ _ _ _ Hc Hs) as Hc'.
  destruct (take_spec _ _ _ _ _ Hc' Et) as (_ & Hos & Hts & Hno & F1 & F2 & F3 & _). assert (s' = s) as -> by (eapply owns_unique; [exact Hc'|exact Ho'|exact Hos]).
  destruct (transfer_bytes_spec _ _ Hts F3) as (Eby & _). rewrite Eby, E1. unfold staged_bytes at 1. cbn [begun tf_received take app] in *.
  split; [done|]. split; [|by rewrite E4, E5, E6, <- F1, <- F2, E4, E6].
  pose proof (pf_arg _ (proj1 Hv)) as [Ha _]. rewrite F3, E3 in E2. cbn in E2. rewrite <- (Z2Nat.id (p_arg p)) by done. by rewrite E2.
Qed.

(** ** The execution queue *)
(** A request to the queue is always answered
    and never disturbs the line: the waiting tickets stay in order, each the
    same admission of the same client with its stop latched or not, and at most
    new tickets of this caller are appended, when its grant has the rights the
    request needs. *)
Theorem queue_requests_keep_the_line q c active caller p now r q' active' : queue_ok q -> Packet_valid p ->
  queue_request q c active caller p now = (r, (q', active')) ->
  (exists reply, r = Ok reply) /\ queue_ok q' /\ exists line extra, waiting q' = line ++ extra /\ Forall2 carries (waiting q) line /\
  Forall (fun t => tk_caller t = caller /\ exists g, Caller_check_right caller c now (queue_right (p_op p)) = Ok g) extra.
Proof.
  intros Hq Hv E. destruct (request_grows _ _ _ _ _ _ _ _ _ Hq Hv E) as (Hr & extra & [Hq' (l & El & Fl)] & Hx). split; [done|]. split; [done|]. by exists l, extra.
Qed.

Section Runs.
Context {D Ow : Type} {HD : Disk D} {HV : DiskView D} {HW : ViewLaws D} {HL : DiskLaws D} {HQ : PollDisk D} {HPL : PollLaws D} {HS : Digest} {HSL : DigestLaws}.

(** C17 (scheduled_runs_serve_the_head): running the queue, for any callback that
    uses the clients' public calls and grows the queue by its own requests,
    answers (with a disk that settles every command at once and fuel for the at
    most seventeen commands of each publication) and runs the head alone: without
    one nothing happens.  Otherwise only the object of the head's own admission
    may change, when the client that scheduled it is live and may write it; a
    status says of that admission that it had already settled, was withdrawn, or
    was executed (never when its stop was latched); an error that is not
    uncertain changed no file and at most withdrew that admission.  The head
    leaves the line, whose rest keeps its order before what was added meanwhile;
    the line is dropped exactly when the result is uncertain or the file system
    must be mounted again. *)
Theorem scheduled_runs_serve_the_head fuel (st : Service D (Ow * ExecutionQueue)) now (control : queue_control) :
  service_ok st -> queue_ok (s_owner st).2 ->
  (forall o c active q n c' active' q' o', queue_ok q -> control o c active q = (n, c', active', q', o') ->
     rtc clients_turn c c' /\ exists extra, queue_grows q q' extra) ->
  (prompt (D := D) -> (17 < fuel)%nat -> exists r st', run_scheduled fuel now control st = Some (Ok r, st')) /\
  forall r st', run_scheduled fuel now control st = Some (r, st') ->
  match head (waiting (s_owner st).2) with
  | None => r = Ok None /\ st' = st
  | Some ticket => exists result, r = Ok (Some result) /\ result <> Panic /\ ran_head st (fun _ c => dwindles (s_clients st) c) ticket now result st'
  end.
Proof.
  intros Hok Hq Hctl. set (I := fun (_ : Ow) c => dwindles (s_clients st) c). set (T := fun (_ : nat) (_ : Packet) => True).
  assert (HI : owner_invariant (s_clients st) T I) by (split; [done|]; intros o c i q s t _ H Hx; eapply dwindles_trans; [exact H|]; eapply take_dwindles; [apply H|exact Hx]).
  assert (Hc : forall o c active q n c' active' q' o', I o c -> queue_ok q -> control o c active q = (n, c', active', q', o') ->
    I o' c' /\ I o' (Clients_expire c' n) /\ exists extra, queue_grows q q' extra).
  { intros o c active q n c' active' q' o' H Hqq E. destruct (Hctl _ _ _ _ _ _ _ _ _ Hqq E) as [Ht Hg].
    assert (Hd : I o' c') by (eapply dwindles_trans; [exact H|]; eapply turns_dwindle; [apply H|exact Ht]).
    split; [exact Hd|]. split; [eapply dwindles_trans; [exact Hd|]; apply expire_dwindles, Hd|exact Hg]. }
  assert (H : forall t, (t = true -> prompt (D := D) /\ (17 < fuel)%nat) -> wp t (run_scheduled fuel now control) st (fun r st' =>
    match head (waiting (s_owner st).2) with None => r = Ok None /\ st' = st | Some ticket => exists result, r = Ok (Some result) /\ result <> Panic /\ ran_head st I ticket now result st' end))
    by (intros t Ht; apply (run_scheduled_wp t fuel Ht st Hok I T HI Hq (dwindles_refl _ (sv_clients _ Hok)) control Hc now)).
  split.
  - intros Hpr Hf. destruct (wp_total _ _ _ (H true (fun _ => conj Hpr Hf))) as (r & st' & E & Hr & _). destruct r as [x|e|]; [by exists x, st'| |done].
    exfalso. destruct (wp_apply _ _ _ _ _ _ (H false ltac:(done)) E) as [_ Hx]. destruct (head _); [by destruct Hx as (? & ? & _)|by destruct Hx].
  - intros r st' E. apply (wp_apply _ _ _ _ _ _ (H false ltac:(done)) E).
Qed.
End Runs.

(** ** A concrete service *)
#[export] Instance sample_digest : Digest := {| sha256 := fun _ => zeros 32 |}.
#[export] Instance sample_digest_laws : DigestLaws.
Proof. split; intros b; [done|]. by apply bytes_ok_check. Qed.

(** A client in slot 0 that may do everything below directory 2, and its derived reader. *)
Definition sample_grant : FileGrant := mkFileGrant 7 9 2 0 15 0 0 1.
Definition reader_grant : FileGrant := mkFileGrant 8 9 5 0 1 0 100 0.
Definition granted (o : outcome FileError (Z * Clients)) : Clients := match o with Ok (_, c) => c | _ => Clients_new end.
Definition sample_clients : Clients := granted (install (sample_volume.1) Clients_new 0 sample_grant 0).
Definition family_clients : Clients := granted (derive (sample_volume.1) sample_clients 1 1 reader_grant 5).

Lemma sample_fits : grant_fits sample_grant /\ grant_fits reader_grant.
Proof. split; split; cbn; unfold fits; lia. Qed.

Lemma sample_install : exists generation, install (sample_volume.1) Clients_new 0 sample_grant 0 = Ok (generation, sample_clients).
Proof.
  assert (H : is_ok (install (sample_volume.1) Clients_new 0 sample_grant 0) = true) by (vm_compute; reflexivity).
  unfold sample_clients. destruct (install _ _ _ _ _) as [[n c]|e|]; [by exists n|discriminate H|discriminate H].
Qed.

Lemma sample_clients_ok : clients_ok sample_clients.
Proof. destruct sample_install as [n E]. exact (call_ok _ _ clients_new_ok (CallInstall _ (sample_volume.1) 0 sample_grant n _ (proj1 sample_fits) E)). Qed.

Lemma sample_derive : exists generation, derive (sample_volume.1) sample_clients 1 1 reader_grant 5 = Ok (generation, family_clients).
Proof.
  assert (H : is_ok (derive (sample_volume.1) sample_clients 1 1 reader_grant 5) = true) by (vm_compute; reflexivity).
  unfold family_clients. destruct (derive _ _ _ _ _ _) as [[n c]|e|]; [by exists n|discriminate H|discriminate H].
Qed.

Lemma family_clients_ok : clients_ok family_clients.
Proof. destruct sample_derive as [n E]. exact (call_ok _ _ sample_clients_ok (CallDerive _ (sample_volume.1) 1 1 reader_grant 5 n _ (proj2 sample_fits) E)). Qed.

Definition sample_service : Service Platter unit := mkService (sample_volume.1) sample_clients 0 (sample_volume.2) tt.

Lemma sample_service_ok : service_ok sample_service.
Proof.
  split; [|exact sample_clients_ok|split; cbn [s_instance sample_service]; lia]. unfold world, sample_service. cbn [s_volume s_disk]. rewrite <- surjective_pairing. exact (proj1 sample_volume_sound).
Qed.

#[export] Instance Packet_eq_dec : EqDecision Packet.
Proof. solve_decision. Defined.

Definition packet_check (p : Packet) : bool :=
  forallb (fun x => (0 <=? x) && (x <? 256)) (Packet_encode p) && match Packet_decode (Packet_encode p) with Ok q => bool_decide (q = p) | _ => false end.

Lemma packet_checked p : packet_check p = true -> Packet_valid p.
Proof.
  unfold packet_check. intros [H1 H2]%andb_true_iff. destruct (Packet_decode (Packet_encode p)) as [q| |] eqn:E; [|done..]. apply bool_decide_eq_true in H2 as ->.
  eapply Packet_canonical; [by apply bytes_ok_check|exact E].
Qed.

(** The requests of one logical write of "xy" over object 5 at version 3. *)
Definition request (op count id arg version : Z) (data : list Z) : Packet := mkPacket op 0 count id arg 1 version (write (zeros DATA) 0 data).
Definition open_data : list Z := fs_lineage ++ le_bytes 4 2 ++ le_bytes 8 1 ++ le_bytes 8 9.
Definition open_request (op : Z) : Packet := request op 36 5 2 3 open_data.
Definition chunk_request (op : Z) : Packet := request op 2 5 0 0 [120; 121].
Definition commit_packet (op : Z) : Packet := request op 0 5 0 0 [].

Definition handled_all (ps : list Packet) (st : Service Platter unit) : Service Platter unit :=
  fold_left (fun st p => match Server_handle 0 7 p 5 st with Some (_, st') => st' | None => st end) ps st.

Lemma handled_all_ok ps st : service_ok st -> forallb packet_check ps = true -> service_ok (handled_all ps st).
Proof.
  revert st. induction ps as [|p ps IH]; intros st H Hc; [done|]. cbn in Hc. apply andb_true_iff in Hc as [Hp Hc]. cbn. apply IH; [|done]. apply packet_checked in Hp.
  destruct (wp_total _ _ _ (handle_served st 0 7 p 5 H Hp)) as (r & st' & -> & _ & reply & _ & [[(_ & _ & Hcl) Hi _ He _] _]). split; [apply (ef_sound _ _ _ He)|done|done].
Qed.

Definition staged_service : Service Platter unit := handled_all [open_request REPLACE_OPEN; chunk_request REPLACE_CHUNK] sample_service.

Lemma staged_service_ok : service_ok staged_service.
Proof. apply handled_all_ok; [apply sample_service_ok|vm_compute; reflexivity]. Qed.

Definition answers (status : Z) (o : option (outcome FileError Packet * Service Platter unit)) : bool :=
  match o with Some (Ok reply, _) => p_status reply =? status | _ => false end.

Lemma answers_spec status o : answers status o = true -> exists reply st', o = Some (Ok reply, st') /\ p_status reply = status.
Proof. destruct o as [[[reply|e|] st']|]; [|done..]. intros H%Z.eqb_eq. by exists reply, st'. Qed.
Definition stat_request : Packet := request OP_STAT 0 5 0 0 [].

Lemma server_handle_is_safe_witness : exists reply st', Server_handle 0 7 stat_request 5 sample_service = Some (Ok reply, st') /\ p_status reply = 0 /\ service_ok st'.
Proof.
  assert (Hc : answers 0 (Server_handle 0 7 stat_request 5 sample_service) = true) by (vm_compute; reflexivity).
  destruct (server_handle_is_safe sample_service 0 7 stat_request 5 sample_service_ok (packet_checked stat_request eq_refl)) as (reply & st' & E & _ & H & _).
  rewrite E in Hc. apply Z.eqb_eq in Hc. exists reply, st'. exact (conj E (conj Hc H)).
Defined.


Lemma clock_turns {Ow} now (o : Ow) c (pending : bool) n c' o' : fixed_clock now o c pending = (n, c', o') -> rtc clients_turn c c'.
Proof. intros [= <- <- <-]. apply rtc_refl. Qed.

#[local] Abbreviation run_commit := (commit_with (HQ := Synchronous_disk) 20 0 7 (commit_packet REPLACE_COMMIT) (fixed_clock 5) staged_service).

Lemma commit_publishes_staged_bytes_witness : exists reply st', run_commit = Some (Ok reply, st') /\ p_status reply = 0 /\
  committed staged_service 0 7 (commit_packet REPLACE_COMMIT) st'.
Proof.
  assert (Hc : answers 0 run_commit = true) by (vm_compute; reflexivity). destruct (answers_spec _ _ Hc) as (reply & st' & E & Hs).
  destruct (commit_publishes_staged_bytes (HQ := Synchronous_disk) (HPL := synchronous_laws) 20 staged_service staged_service_ok 0 7 (commit_packet REPLACE_COMMIT)
    (packet_checked (commit_packet REPLACE_COMMIT) eq_refl) (fixed_clock 5) (clock_turns 5)) as [_ H].
  destruct (H _ _ E) as (x & Ex & _ & _ & Hd & _). injection Ex as <-. exists reply, st'. exact (conj E (conj Hs (Hd Hs))).
Defined.

(** The service after it accepted the same bytes as an admission. *)
Definition admitted_service : Service Platter unit :=
  handled_all [open_request ADMISSION_OPEN; chunk_request ADM_CHUNK; commit_packet ADM_ACCEPT] sample_service.
Definition identify (op : Z) : Packet := mkPacket op 0 16 0 0 1 8 (write (zeros DATA) 0 fs_lineage).

Lemma admitted_service_ok : service_ok admitted_service.
Proof. apply handled_all_ok; [exact sample_service_ok|vm_compute; reflexivity]. Qed.

#[local] Abbreviation run_execute :=
  (admission_with (HQ := Synchronous_disk) 20 (mkCaller 0 7 (p_context (identify ADM_EXECUTE))) (identify ADM_EXECUTE) (fixed_clock 5) admitted_service).

Lemma admissions_publish_under_authority_witness : exists reply st', run_execute = Some (Ok reply, st') /\ p_status reply = 0 /\
  admission_done admitted_service (fixed_clock 5) (mkCaller 0 7 (p_context (identify ADM_EXECUTE))) (identify ADM_EXECUTE) reply st'.
Proof.
  assert (Hc : answers 0 run_execute = true) by (vm_compute; reflexivity). destruct (answers_spec _ _ Hc) as (reply & st' & E & Hs).
  destruct (admissions_publish_under_authority (HQ := Synchronous_disk) (HPL := synchronous_laws) 20 admitted_service admitted_service_ok 0 7 (identify ADM_EXECUTE)
    (packet_checked (identify ADM_EXECUTE) eq_refl) (fixed_clock 5) (clock_turns 5)) as [_ H].
  destruct (H _ _ E) as (x & Ex & _ & _ & Hd & _). injection Ex as <-. exists reply, st'. exact (conj E (conj Hs (Hd Hs))).
Defined.

Lemma sample_volume_ok : volume_ok (sample_volume.1).
Proof. intros _. apply sample_metadata_ok. Qed.

Lemma derived_grants_attenuate_witness : cl_roots family_clients !! 1%nat = Some 1.
Proof.
  destruct sample_derive as [n E].
  exact (proj1 (proj2 (derived_grants_attenuate (sample_volume.1) sample_clients 1 1 reader_grant 5 n family_clients sample_clients_ok (proj2 sample_fits) sample_volume_ok E))).
Defined.

Lemma revocation_is_final_witness : exists mask c1 g, Clients_revoke_root family_clients 1 = (mask, c1) /\ mask = 3 /\ Clients_grant_at family_clients 1 = Some g /\
  forall now h, ~ live_grant c1 1 8 (fg_generation g) now h.
Proof.
  assert (Hm : (Clients_revoke_root family_clients 1).1 = 3) by (vm_compute; reflexivity).
  assert (Hg : is_some (Clients_grant_at family_clients 1) = true) by (vm_compute; reflexivity).
  assert (Hr : cl_roots family_clients !! 1%nat = Some 1) by (vm_compute; reflexivity).
  destruct (Clients_revoke_root family_clients 1) as [mask c1] eqn:E. destruct (Clients_grant_at family_clients 1) as [g|] eqn:Eg; [|discriminate Hg].
  pose proof (revocation_is_final family_clients 1 mask c1 c1 family_clients_ok ltac:(discriminate) E (rtc_refl _ c1) 1%nat g Eg) as (_ & _ & H).
  exists mask, c1, g. split; [reflexivity|]. split; [exact Hm|]. split; [reflexivity|]. intros now h. exact (H Hr 1%nat 8 now h).
Defined.

Lemma reachable_clients_are_well_formed_witness : clients_ok family_clients.
Proof.
  destruct sample_install as [n E1]. destruct sample_derive as [k E2]. apply reachable_clients_are_well_formed.
  refine (rtc_l _ _ _ _ (CallInstall _ (sample_volume.1) 0 sample_grant n _ (proj1 sample_fits) E1) _).
  refine (rtc_l _ _ _ _ (CallDerive _ (sample_volume.1) 1 1 reader_grant 5 k _ (proj2 sample_fits) E2) _). apply rtc_refl.
Defined.

(** One chunk of a transfer and what a commit takes of it. *)
Definition one_chunk (t : list (option Transfer)) (open chunk commit : Packet) : outcome FileError (Transfer * list (option Transfer)) :=
  let? t1 := Transfers_begin t 0 open in let? t2 := Transfers_chunk t1 0 chunk in Transfers_take t2 0 commit.

Lemma one_chunk_spec t open chunk commit s t3 : one_chunk t open chunk commit = Ok (s, t3) ->
  exists t1 t2, Transfers_begin t 0 open = Ok t1 /\ Transfers_chunk t1 0 chunk = Ok t2 /\ Transfers_take t2 0 commit = Ok (s, t3).
Proof. unfold one_chunk. intros H. steps H. eauto. Qed.

Lemma is_ok_spec {E A} (o : outcome E A) : is_ok o = true -> exists a, o = Ok a.
Proof. destruct o; [by eexists|done|done]. Qed.

#[local] Abbreviation sample_transfers := (cl_transfers sample_clients).

Lemma chunks_build_the_payload_witness : exists s t,
  one_chunk sample_transfers (open_request REPLACE_OPEN) (chunk_request REPLACE_CHUNK) (commit_packet REPLACE_COMMIT) = Ok (s, t) /\ transfer_bytes s = Ok [120; 121].
Proof.
  assert (Hc : is_ok (one_chunk sample_transfers (open_request REPLACE_OPEN) (chunk_request REPLACE_CHUNK) (commit_packet REPLACE_COMMIT)) = true) by (vm_compute; reflexivity).
  assert (Hg : Clients_grant_at sample_clients 0 = Some (set_generation sample_grant 1)) by (vm_compute; reflexivity).
  destruct (is_ok_spec _ Hc) as [[s t3] E]. destruct (one_chunk_spec _ _ _ _ _ _ E) as (t1 & t2 & E1 & E2 & E3).
  exists s, t3. refine (conj E _).
  exact (proj1 (chunks_build_the_payload sample_clients 0 7 5 (open_request REPLACE_OPEN) (set_generation sample_grant 1) t1 [[120; 121]] (set_transfers (set_transfers sample_clients t1) t2)
    (commit_packet REPLACE_COMMIT) s t3 sample_clients_ok (packet_checked (open_request REPLACE_OPEN) eq_refl) (conj Hg eq_refl) E1
    (StageChunk 0 (set_transfers sample_clients t1) (chunk_request REPLACE_CHUNK) t2 [] _ (packet_checked (chunk_request REPLACE_CHUNK) eq_refl) E2 (StageNone 0 _)) E3)).
Defined.

(** The admission of [admitted_service], scheduled for execution. *)
#[local] Abbreviation inventoried := ((Queue_refresh Queue_empty (s_volume admitted_service) (s_clients admitted_service)).2).
#[local] Abbreviation scheduler := (mkCaller 0 7 1).
#[local] Abbreviation scheduled q := (queue_request q (s_clients admitted_service) None scheduler (identify ADM_SCHEDULE) 5).

Lemma inventoried_ok : queue_ok inventoried.
Proof. destruct (Queue_refresh Queue_empty (s_volume admitted_service) (s_clients admitted_service)) as [r q] eqn:E. apply (refresh_grows _ _ _ _ _ (proj1 empty_ok) E). Qed.

Lemma queue_requests_keep_the_line_witness : exists reply qa, scheduled inventoried = (Ok reply, qa) /\ queue_ok qa.1 /\ length (waiting qa.1) = 1%nat.
Proof.
  assert (Hn : length (waiting (scheduled inventoried).2.1) = 1%nat) by (vm_compute; reflexivity).
  destruct (scheduled inventoried) as [r [q' a]] eqn:E.
  destruct (queue_requests_keep_the_line _ _ _ _ _ _ _ _ _ inventoried_ok (packet_checked (identify ADM_SCHEDULE) eq_refl) E) as ([reply ->] & Hq & _).
  exists reply, (q', a). exact (conj eq_refl (conj Hq Hn)).
Defined.

Definition queued : ExecutionQueue := (scheduled inventoried).2.1.
Lemma queued_ok : queue_ok queued.
Proof.
  unfold queued. destruct (scheduled inventoried) as [r [q' a]] eqn:E.
  destruct (request_grows _ _ _ _ _ _ _ _ _ inventoried_ok (packet_checked (identify ADM_SCHEDULE) eq_refl) E) as (_ & extra & [H _] & _). exact H.
Qed.

Definition with_queue (st : Service Platter unit) (q : ExecutionQueue) : Service Platter (unit * ExecutionQueue) :=
  mkService (s_volume st) (s_clients st) (s_instance st) (s_disk st) (tt, q).
Lemma with_queue_ok st q : service_ok st -> service_ok (with_queue st q).
Proof. intros [H1 H2 H3]. by split. Qed.
Lemma with_queue_owner st q : (s_owner (with_queue st q)).2 = q.
Proof. done. Qed.
#[local] Abbreviation queued_service := (with_queue admitted_service queued).

Definition still_queue : queue_control := fun (o : unit) c active q => (5, c, active, q, o).
Lemma still_queue_ok (o : unit) c active q n c' active' q' (o' : unit) : queue_ok q -> still_queue o c active q = (n, c', active', q', o') ->
  rtc clients_turn c c' /\ exists extra, queue_grows q q' extra.
Proof. intros H [= <- <- <- <- <-]. split; [apply rtc_refl|]. exists []. by apply grows_refl. Qed.

#[local] Abbreviation run_queued := (run_scheduled (HQ := Synchronous_disk) 20 5 still_queue queued_service).
Definition ran_one (o : option (outcome FileError (option (outcome FileError FsStatus)) * Service Platter (unit * ExecutionQueue))) : bool :=
  match o with Some (Ok (Some (Ok status)), _) => bool_decide (fs_state status = FCommitted) | _ => false end.
Lemma ran_one_spec o : ran_one o = true -> exists status st', o = Some (Ok (Some (Ok status)), st') /\ fs_state status = FCommitted.
Proof. unfold ran_one. destruct o as [[[[[status| |]|]| |] st']|]; try done. intros H%bool_decide_eq_true_1. by exists status, st'. Qed.

Lemma scheduled_runs_serve_the_head_witness : exists ticket status st', run_queued = Some (Ok (Some (Ok status)), st') /\ fs_state status = FCommitted /\
  head (waiting queued) = Some ticket /\ ran_head queued_service (fun _ c => dwindles (s_clients queued_service) c) ticket 5 (Ok status) st'.
Proof.
  assert (Hc : ran_one run_queued = true) by (vm_compute; reflexivity). destruct (ran_one_spec _ Hc) as (status & st' & E & Hs).
  destruct (scheduled_runs_serve_the_head (HQ := Synchronous_disk) (HPL := synchronous_laws) 20 queued_service 5 still_queue
    (with_queue_ok admitted_service queued admitted_service_ok) queued_ok still_queue_ok) as [_ H].
  pose proof (H _ _ E) as H1. rewrite (with_queue_owner admitted_service queued) in H1. revert H1. generalize (head (waiting queued)). intros [ticket|] H1.
  - destruct H1 as (result & Er & _ & H1). injection Er as <-. exists ticket, status, st'. exact (conj E (conj Hs (conj eq_refl H1))).
  - destruct H1 as [H1 _]. discriminate H1.
Defined.
