(* ===== verification/Interact.v ===== *)
(** * Programs that call out

    A client is a finite tree of calls: [Ask e k] performs the call [e] and goes
    on with its answer.  What the calls do is given separately, by a [World]:
    which calls a state permits and which answers and next states it may give.
    [wp p w Q]: from [w], whatever the answers, [p] makes permitted calls only
    and ends with a result and a state in [Q].  [reaches] are the configurations
    a run passes through, so a statement about them holds where a run is cut. *)
From stdpp Require Import base list option.
From Stdlib Require Import ZArith Lia Bool.
From S2P Require Import Prelude.

(** The type of the answer of each call. *)
Class Signature (E : Type) := reply : E -> Type.

Inductive prog (E : Type) {HE : Signature E} (A : Type) : Type :=
| Ret (a : A)
| Ask (e : E) (k : reply e -> prog E A).
Arguments Ret {E HE A} a.
Arguments Ask {E HE A} e k.

Section Programs.
Context {E : Type} {HE : Signature E}.

Definition ask (e : E) : prog E (reply e) := Ask e Ret.

Fixpoint bind {A B} (p : prog E A) (k : A -> prog E B) : prog E B :=
  match p with Ret a => k a | Ask e f => Ask e (fun r => bind (f r) k) end.

(** [?] and [match call { Ok(a) => .., Err(e) => .. }] on a call's result. *)
Definition try {X A Y B} (p : prog E (outcome X A)) (k : A -> prog E (outcome Y B)) (h : X -> prog E (outcome Y B)) : prog E (outcome Y B) :=
  bind p (fun r => match r with Ok a => k a | Err e => h e | Panic => Ret Panic end).
Definition try_bind {X A B} (p : prog E (outcome X A)) (k : A -> prog E (outcome X B)) : prog E (outcome X B) := try p k (fun e => Ret (Err e)).
Definition map_error {X Y A} (f : X -> Y) (p : prog E (outcome X A)) : prog E (outcome Y A) := bind p (fun r => Ret (map_err f r)).

(** A run on a given environment. *)
Fixpoint run {S A} (h : forall e : E, S -> reply e * S) (p : prog E A) (s : S) : A * S :=
  match p with Ret a => (a, s) | Ask e k => let '(r, s) := h e s in run h (k r) s end.
End Programs.

Notation "'let&' x ':=' m 'in' k" := (try_bind m (fun x => k))
  (at level 10, x pattern, m at level 100, k at level 200) : rust_scope.

(** A program over one vocabulary of calls, carried out by programs over another. *)
Fixpoint interp {E F : Type} {HE : Signature E} {HF : Signature F} {A} (h : forall e : E, prog F (reply e)) (p : prog E A) : prog F A :=
  match p with Ret a => Ret a | Ask e k => bind (h e) (fun r => interp h (k r)) end.

(** ** Worlds *)
Class World (E : Type) {HE : Signature E} (W : Type) := {
  permits : W -> E -> Prop;
  answers : W -> forall e : E, reply e -> W -> Prop;
}.

Section Wp.
Context {E W : Type} {HE : Signature E} {HW : World E W}.

Fixpoint wp {A} (p : prog E A) (w : W) (Q : A -> W -> Prop) : Prop :=
  match p with
  | Ret a => Q a w
  | Ask e k => permits w e /\ forall r w', answers w e r w' -> wp (k r) w' Q
  end.

Lemma wp_weaken {A} (p : prog E A) w (Q Q' : A -> W -> Prop) : wp p w Q -> (forall a w', Q a w' -> Q' a w') -> wp p w Q'.
Proof. revert w. induction p as [a|e k IH]; intros w; cbn [wp]; [eauto|]. intros [Hp Hk] HQ. split; [done|]. intros r w' Hr. by apply IH; [apply Hk|]. Qed.

Lemma wp_then {A B} (p : prog E A) (k : A -> prog E B) w Q : wp p w (fun a w' => wp (k a) w' Q) -> wp (bind p k) w Q.
Proof. revert w. induction p as [a|e f IH]; intros w; cbn [wp bind]; [done|]. intros [Hp Hf]. split; [done|]. intros r w' Hr. by apply IH, Hf. Qed.

Lemma wp_ask (e : E) w (Q : reply e -> W -> Prop) : permits w e -> (forall r w', answers w e r w' -> Q r w') -> wp (ask e) w Q.
Proof. by split. Qed.

Lemma wp_try {X A Y B} (p : prog E (outcome X A)) (k : A -> prog E (outcome Y B)) h w Q :
  wp p w (fun r w' => match r with Ok a => wp (k a) w' Q | Err e => wp (h e) w' Q | Panic => Q Panic w' end) -> wp (try p k h) w Q.
Proof. intros H. apply wp_then. eapply wp_weaken; [exact H|]. by intros [a|e|]. Qed.

Lemma wp_let {X A B} (p : prog E (outcome X A)) (k : A -> prog E (outcome X B)) w Q :
  wp p w (fun r w' => match r with Ok a => wp (k a) w' Q | Err e => Q (Err e) w' | Panic => Q Panic w' end) -> wp (try_bind p k) w Q.
Proof. intros H. apply wp_try. exact H. Qed.

Lemma wp_map_error {X Y A} (f : X -> Y) (p : prog E (outcome X A)) w Q :
  wp p w (fun r w' => Q (map_err f r) w') -> wp (map_error f p) w Q.
Proof. intros H. apply wp_then. exact H. Qed.

(** ** Configurations of a run *)
Inductive reaches {A} : prog E A -> W -> prog E A -> W -> Prop :=
| reach_here p w : reaches p w p w
| reach_step e k w r w' p w'' : answers w e r w' -> reaches (k r) w' p w'' -> reaches (Ask e k) w p w''.

Lemma wp_reaches {A} (p p' : prog E A) w w' Q : wp p w Q -> reaches p w p' w' -> wp p' w' Q.
Proof. intros H Hr. induction Hr as [|e k w r w' p w'' Ha _ IH]; [done|]. apply IH, H, Ha. Qed.

Lemma wp_end {A} (p : prog E A) w a w' Q : wp p w Q -> reaches p w (Ret a) w' -> Q a w'.
Proof. intros H Hr. exact (wp_reaches _ _ _ _ _ H Hr). Qed.

Lemma wp_calls {A} (p : prog E A) w e k w' Q : wp p w Q -> reaches p w (Ask e k) w' -> permits w' e.
Proof. intros H Hr. exact (proj1 (wp_reaches _ _ _ _ _ H Hr)). Qed.
End Wp.

(** A run on an environment whose answers the world allows. *)
Lemma wp_run {E W S A} {HE : Signature E} {HW : World E W} (h : forall e : E, S -> reply e * S) (I : W -> S -> Prop) (p : prog E A) w s Q :
  (forall w s e, I w s -> permits w e -> exists w', answers w e (h e s).1 w' /\ I w' (h e s).2) ->
  I w s -> wp p w Q -> exists w', Q (run h p s).1 w' /\ I w' (run h p s).2.
Proof.
  intros Hh. revert w s. induction p as [a|e k IH]; intros w s Hi; cbn [wp run]; [by exists w|].
  intros [Hp Hk]. destruct (Hh w s e Hi Hp) as (w' & Ha & Hi'). destruct (h e s) as [r s']. exact (IH r w' s' Hi' (Hk r w' Ha)).
Qed.

(** Carrying out calls by programs of a lower world. *)
Lemma wp_interp {E F V W A} {HE : Signature E} {HF : Signature F} {HV : World E V} {HW : World F W} (h : forall e : E, prog F (reply e)) (I : V -> W -> Prop) (p : prog E A) v w Q :
  (forall v w e, I v w -> permits v e -> wp (h e) w (fun r w' => exists v', answers v e r v' /\ I v' w')) ->
  I v w -> wp p v Q -> wp (interp h p) w (fun a w' => exists v', Q a v' /\ I v' w').
Proof.
  intros Hh. revert v w. induction p as [a|e k IH]; intros v w Hi; cbn [wp interp]; [eauto|].
  intros [Hp Hk]. apply wp_then. eapply wp_weaken; [by apply Hh|]. cbn. intros r w' (v' & Ha & Hi'). exact (IH r v' w' Hi' (Hk r v' Ha)).
Qed.
