(* ===== verification/SdkFiles.v ===== *)
(** * The native file client (crates/sdk/src/files)

    error.rs, files/transport.rs (one correlated exchange and what its loss
    means), files/client.rs, metadata.rs, references.rs, discovery.rs, paths.rs,
    staging.rs, operations.rs and recovery.rs.  Every method is a program over
    the exchanges of [Rpc]; the client it borrows is not changed by a synchronous
    call, so it is an argument. *)
From stdpp Require Import base list option numbers.
From Stdlib Require Import ZArith Lia Bool.
From S2P Require Import Prelude Bytes Codec Ipc AbiFiles AbiIdentity AbiMessages AbiReceipts AbiAdmission AbiServices SvcClients Interact.

(** ** Errors and exchanges (error.rs, rpc/client.rs) *)
Inductive SdkError := SUnsupported | SQuota | SIpc (e : IpcError) | SProtocol | SInterrupted.
#[global] Instance SdkError_eq_dec : EqDecision SdkError.
Proof. solve_decision. Defined.

(** The identities the client compares. *)
#[global] Instance Epoch_eq_dec : EqDecision Epoch.
Proof. solve_decision. Defined.
#[global] Instance Key_eq_dec : EqDecision Key.
Proof. solve_decision. Defined.
#[global] Instance OperationId_eq_dec : EqDecision OperationId.
Proof. solve_decision. Defined.
#[global] Instance OpRetry_eq_dec : EqDecision OpRetry.
Proof. solve_decision. Defined.
#[global] Instance Retry_eq_dec : EqDecision Retry.
Proof. solve_decision. Defined.

(** A received message: its authenticated sender and its payload. *)
Record RpcMessage := mkRpcMessage { rm_sender : Z; rm_payload : list Z }.

Inductive RpcCall := RpcExchange (bytes : list Z) | RpcBegin (bytes : list Z) | RpcPoll.
#[global] Instance RpcCall_signature : Signature RpcCall := fun call =>
  match call with
  | RpcExchange _ => outcome SdkError RpcMessage
  | RpcBegin _ => outcome SdkError unit
  | RpcPoll => outcome SdkError (option RpcMessage)
  end.

(** A method of the client. *)
Definition method (A : Type) : Type := prog RpcCall (outcome FileError A).
Definition answer {A} (r : outcome FileError A) : method A := Ret r.

(** ** The client (client.rs, selection.rs) *)
Record Selection := mkSelection { se_context : Z; se_get : option Descriptor; se_cancel : option Descriptor }.
Definition Selection_default : Selection := mkSelection 0 None None.

(** [cl_rpc_pending] and [cl_rpc_failed] are [rpc.pending()] and [rpc.failed()]. *)
Record SdkClient := mkSdkClient {
  sc_token : Z; sc_context : Z; sc_pending : option Packet; sc_range : option Z; sc_next_range : Z;
  sc_rpc_pending : bool; sc_rpc_failed : bool; sc_selection : Selection }.

Definition SdkClient_new (token context : Z) : SdkClient := mkSdkClient token context None None 1 false false Selection_default.
(** [rebind]: a fresh [rpc] and no reservation; the range counter goes on. *)
Definition SdkClient_rebind (c : SdkClient) (token context : Z) : SdkClient :=
  mkSdkClient token context None None (sc_next_range c) false false Selection_default.

Definition require_binding (c : SdkClient) : outcome FileError unit := if sc_token c =? 0 then Err FUnavailable else Ok tt.
Definition occupied (c : SdkClient) : bool := is_some (sc_range c) || is_some (sc_pending c) || sc_rpc_pending c.

(** ** Exchanges (transport.rs, range/mod.rs) *)
Definition controlled (op : Z) : bool := one_of [ADM_ACCEPT; ADM_EXECUTE; ADM_CANCEL] op.
Definition signalled (op : Z) : bool := one_of [ADM_REQUEST_CANCEL; ADM_SCHEDULE; LIFECYCLE_CANCEL] op.
(** The requests whose lost answer is [Uncertain], for [operation_exchange] and for [request] and [poll]. *)
Definition durable_operation (op : Z) : bool := (op =? REPLACE_COMMIT) || controlled op || signalled op.
Definition durable (op : Z) : bool := one_of [OP_CREATE; OP_MKDIR; OP_REMOVE; OP_COMMIT; REPLACE_COMMIT] op || controlled op || signalled op.

Definition map_transport_error (e : SdkError) : FileError :=
  match e with SInterrupted => FInterrupted | SIpc IpcClosed => FClosed | _ => FProtocol end.
Definition lost (durable : bool) (e : SdkError) : FileError := if durable then FUncertain else map_transport_error e.
Definition malformed (durable : bool) : FileError := if durable then FUncertain else FProtocol.

Definition exchange (c : SdkClient) (durable : bool) (p : Packet) : method RpcMessage :=
  let& _ := answer (require_binding c) in
  if occupied c then answer (Err FBusy) else map_error (lost durable) (ask (RpcExchange (Packet_encode p))).

Definition operation_exchange (c : SdkClient) (p : Packet) : method Packet :=
  let p := with_context p (sc_context c) in
  let d := durable_operation (p_op p) in
  let& m := exchange c d p in
  answer (map_err (fun e => if d && bool_decide (e = FProtocol) then FUncertain else e)
            (let? r := Packet_decode (rm_payload m) in checked_reply r (p_op p) (p_context p))).

Definition request (c : SdkClient) (p : Packet) : method Packet :=
  let p := with_context p (sc_context c) in
  let d := durable (p_op p) in
  let& m := exchange c d p in
  answer (let? r := map_err (fun _ => malformed d) (Packet_decode (rm_payload m)) in
          if negb (p_op r =? p_op p) || negb (p_context r =? p_context p) then Err (malformed d)
          else let? _ := FileError_parse (p_status r) in Ok r).

Definition observation (c : SdkClient) (p : Packet) : method Packet :=
  let p := with_context p (sc_context c) in
  let& m := exchange c false p in
  answer (let? r := Packet_decode (rm_payload m) in checked_reply r (p_op p) (sc_context c)).

(** [Packet::new] with fields set, and with [bytes] as its data. *)
Definition bare (op id arg version : Z) : Packet := mkPacket op 0 0 id arg 0 version (zeros DATA).
Definition carrying (op id arg version : Z) (bytes : list Z) : Packet :=
  mkPacket op 0 (Z.of_nat (length bytes)) id arg 0 version (write (zeros DATA) 0 bytes).

(** ** Nodes (metadata.rs) *)
Record Metadata := mkMetadata {
  md_id : Z; md_parent : Z; md_version : Z; md_length : Z; md_directory : bool; md_space : Z; md_cursor : Z;
  md_name : list Z; md_name_length : Z }.

Definition Metadata_decode (p : Packet) : outcome FileError Metadata :=
  let n := byte_at (p_data p) 2 in
  let kind := byte_at (p_data p) 0 in
  if negb (p_count p =? 40) || negb ((1 <=? kind) && (kind <=? 2)) || (31 <? n) || (p_id p =? 0) then Err FProtocol
  else Ok (mkMetadata (p_id p) (u32_at (p_data p) 4) (p_version p) (p_arg p) (kind =? 2) (byte_at (p_data p) 1) (byte_at (p_data p) 3)
             (slice (p_data p) 8 40) n).

(** [core::str::from_utf8]. *)
Definition between (lo hi b : Z) : bool := (lo <=? b) && (b <=? hi).
Definition continuation (b : Z) : bool := between 128 191 b.
Fixpoint utf8 (l : list Z) : bool :=
  match l with
  | [] => true
  | a :: l =>
    if a <? 128 then utf8 l
    else
      match l with
      | [] => false
      | b :: l =>
        if between 194 223 a then continuation b && utf8 l
        else
          match l with
          | [] => false
          | c :: l =>
            if (a =? 224) then between 160 191 b && continuation c && utf8 l
            else if (a =? 237) then between 128 159 b && continuation c && utf8 l
            else if between 225 239 a then continuation b && continuation c && utf8 l
            else
              match l with
              | [] => false
              | d :: l =>
                if a =? 240 then between 144 191 b && continuation c && continuation d && utf8 l
                else if between 241 243 a then continuation b && continuation c && continuation d && utf8 l
                else if a =? 244 then between 128 143 b && continuation c && continuation d && utf8 l
                else false
              end
          end
      end
  end.

Definition Metadata_name (m : Metadata) : list Z :=
  let name := take (Z.to_nat (md_name_length m)) (md_name m) in if utf8 name then name else [63].

(** ** Requests (client.rs) *)
Definition stat (c : SdkClient) (id : Z) : method Metadata :=
  let& r := request c (bare OP_STAT id 0 0) in answer (Metadata_decode r).

Definition named (op id : Z) (name : list Z) : outcome FileError Packet :=
  if (length name =? 0)%nat || (31 <? length name)%nat then Err FInvalid else Ok (carrying op id 0 0 name).

Definition lookup_name (c : SdkClient) (parent : Z) (name : list Z) : method Metadata :=
  let& p := answer (named OP_LOOKUP parent name) in
  let& r := request c p in answer (Metadata_decode r).

Definition create (c : SdkClient) (parent : Z) (name : list Z) (directory : bool) : method Metadata :=
  let& p := answer (named (if directory then OP_MKDIR else OP_CREATE) parent name) in
  let& r := request c p in answer (Metadata_decode r).

Definition list_entry (c : SdkClient) (id cursor : Z) : method (option Metadata) :=
  let& r := request c (bare OP_LIST id cursor 0) in
  answer (if p_id r =? 0 then Ok None else let? m := Metadata_decode r in Ok (Some m)).

Definition remove (c : SdkClient) (id : Z) : method unit :=
  let& _ := request c (bare OP_REMOVE id 0 0) in answer (Ok tt).

(** Each turn reads at least one byte, so [md_length] turns are enough. *)
Fixpoint read_loop (fuel : nat) (c : SdkClient) (id : Z) (m : Metadata) (out : list Z) (offset : Z) : method (list Z * Z) :=
  if md_length m <=? offset then answer (Ok (out, offset))
  else
    match fuel with
    | O => answer Panic
    | S fuel =>
      let& r := request c (bare OP_READ id offset (md_version m)) in
      let n := p_count r in
      if negb (p_id r =? id) || negb (p_version r =? md_version m) || negb (p_arg r =? md_length m) || (n =? 0) || (md_length m <? offset + n)
      then answer (Err FProtocol)
      else read_loop fuel c id m (write out (Z.to_nat offset) (Packet_payload r)) (offset + n)
    end.

Definition read_file (c : SdkClient) (id : Z) (out : list Z) : method (list Z * Z) :=
  let& m := stat c id in
  if md_directory m then answer (Err FIsDirectory)
  else if Z.of_nat (length out) <? md_length m then answer (Err FSize)
  else read_loop (Z.to_nat (md_length m)) c id m out 0.

(** [bytes.chunks(DATA).enumerate()], with the offset of each chunk. *)
Fixpoint chunks_from (fuel index : nat) (b : list Z) : list (Z * list Z) :=
  match fuel with
  | O => []
  | S fuel => match b with [] => [] | _ => (Z.of_nat (index * DATA), take DATA b) :: chunks_from fuel (S index) (drop DATA b) end
  end.
Definition chunks (b : list Z) : list (Z * list Z) := chunks_from (length b) 0 b.

Fixpoint send_chunks (c : SdkClient) (id : Z) (parts : list (Z * list Z)) : method unit :=
  match parts with
  | [] => answer (Ok tt)
  | (offset, part) :: parts => let& _ := request c (carrying OP_CHUNK id offset 0 part) in send_chunks c id parts
  end.

(** The errors after which the service may still have, or have finished, the transfer. *)
Definition undecided (e : FileError) : bool := match e with FUncertain | FProtocol | FClosed => true | _ => false end.

(** Gives the transfer up when [r] is another error. *)
Definition abort_unless_undecided {A} (c : SdkClient) (id : Z) (r : outcome FileError A) : method A :=
  match r with
  | Err e => if undecided e then answer r else bind (request c (bare OP_ABORT id 0 0)) (fun _ => answer r)
  | _ => answer r
  end.

Definition replace (c : SdkClient) (id version : Z) (b : list Z) : method Metadata :=
  if (1024 <? length b)%nat then answer (Err FSize)
  else
    let& _ := request c (bare OP_BEGIN id (Z.of_nat (length b)) version) in
    bind (let& _ := send_chunks c id (chunks b) in let& r := request c (bare OP_COMMIT id 0 0) in answer (Metadata_decode r))
      (abort_unless_undecided c id).

(** ** Identities and support (references.rs, discovery.rs) *)
Definition references (c : SdkClient) (workspace object : Z) : method References :=
  let& p := answer (References_request workspace object (sc_context c)) in
  let& r := observation c p in
  answer (let? result := References_decode r in
          if negb (ws_root (rf_workspace result) =? workspace) || negb (rs_object (rf_resource result) =? object) then Err FProtocol else Ok result).

Definition capabilities (c : SdkClient) : method Capabilities :=
  let& r := request c (bare OP_CAPABILITIES 0 0 0) in answer (Capabilities_decode r).

(** ** Paths (paths.rs) *)
Definition slash : Z := 47.
Definition dot : list Z := [46].
Definition dot_dot : list Z := [46; 46].

(** [str::split('/')]. *)
Fixpoint split_slash (l : list Z) : list (list Z) :=
  match l with
  | [] => [[]]
  | b :: l => if b =? slash then [] :: split_slash l else match split_slash l with part :: parts => (b :: part) :: parts | [] => [[b]] end
  end.

Fixpoint resolve_parts (c : SdkClient) (id : Z) (parts : list (list Z)) : method Z :=
  match parts with
  | [] => answer (Ok id)
  | name :: parts =>
    let& _ := (if negb (bool_decide (name = [])) && negb (id =? 0)
               then let& m := stat c id in answer (if md_directory m then Ok tt else Err FNotDirectory) else answer (Ok tt)) in
    if bool_decide (name = []) || bool_decide (name = dot) then resolve_parts c id parts
    else if bool_decide (name = dot_dot) then
      if id =? 0 then resolve_parts c id parts else let& m := stat c id in resolve_parts c (md_parent m) parts
    else let& m := lookup_name c id name in resolve_parts c (md_id m) parts
  end.

Definition resolve (c : SdkClient) (cwd : Z) (path : list Z) : method Z :=
  if (length path =? 0)%nat || (255 <? length path)%nat then answer (Err FInvalid)
  else resolve_parts c (if bool_decide (list.head path = Some slash) then 0 else cwd) (split_slash path).

(** [str::rsplit_once('/')]. *)
Fixpoint rsplit_slash (l : list Z) : option (list Z * list Z) :=
  match l with
  | [] => None
  | b :: l =>
    match rsplit_slash l with
    | Some (base, name) => Some (b :: base, name)
    | None => if b =? slash then Some ([], l) else None
    end
  end.

Definition parent (c : SdkClient) (cwd : Z) (path : list Z) : method (Z * list Z) :=
  if (length path =? 0)%nat || bool_decide (list.last path = Some slash) then answer (Err FInvalid)
  else
    let '(base, name) := default (dot, path) (rsplit_slash path) in
    if bool_decide (name = dot) || bool_decide (name = dot_dot) then answer (Err FInvalid)
    else if bool_decide (base = []) then answer (Ok (0, name))
    else let& id := resolve c cwd base in answer (Ok (id, name)).

(** The names of the ancestors, written from the end of the buffer. *)
Fixpoint path_loop (turns : nat) (c : SdkClient) (current : Z) (out : list Z) (fin : nat) : method (list Z * nat) :=
  match turns with
  | O => answer (Err FCorrupt)
  | S turns =>
    if current =? 0 then
      let '(out, fin) := if (fin =? length out)%nat then (write out (fin - 1) [slash], (fin - 1)%nat) else (out, fin) in
      let n := (length out - fin)%nat in
      answer (Ok (write out 0 (drop fin out), n))
    else
      let& m := stat c current in
      let name := Metadata_name m in
      if (fin <? length name + 1)%nat then answer (Err FSize)
      else path_loop turns c (md_parent m) (write (write out (fin - length name) name) (fin - length name - 1) [slash]) (fin - length name - 1)
  end.
(** [bytes] has 256 elements by its type. *)
Definition path (c : SdkClient) (id : Z) (bytes : list Z) : method (list Z * nat) := path_loop 32 c id bytes (length bytes).

(** ** Staged transfers (staging.rs) *)
Definition empty_ack (p : Packet) : outcome FileError unit :=
  if negb (p_id p =? 0) || negb (p_arg p =? 0) || negb (p_version p =? 0) || negb (p_count p =? 0) then Err FProtocol else Ok tt.

Fixpoint stage_chunks (c : SdkClient) (op id : Z) (parts : list (Z * list Z)) : method unit :=
  match parts with
  | [] => answer (Ok tt)
  | (offset, part) :: parts =>
    let& ack := operation_exchange c (carrying op id offset 0 part) in
    let& _ := answer (empty_ack ack) in stage_chunks c op id parts
  end.

Definition with_op (p : Packet) (op : Z) : Packet := mkPacket op (p_status p) (p_count p) (p_id p) (p_arg p) (p_context p) (p_version p) (p_data p).
Definition with_arg (p : Packet) (arg : Z) : Packet := mkPacket (p_op p) (p_status p) (p_count p) (p_id p) arg (p_context p) (p_version p) (p_data p).

Definition stage_profile (c : SdkClient) (r : Replacement) (b : list Z) (admitted : bool) : method unit :=
  let& first := answer (Replacement_packet r (Z.of_nat (length b)) (sc_context c)) in
  let first := if admitted then with_op first ADMISSION_OPEN else first in
  let object := rs_object (rp_resource r) in
  let& _ := (let& ack := operation_exchange c first in answer (empty_ack ack)) in
  try (stage_chunks c (if admitted then ADM_CHUNK else REPLACE_CHUNK) object (chunks b))
    (fun _ => answer (Ok tt))
    (fun e => bind (operation_exchange c (bare (if admitted then ADM_ABORT else REPLACE_ABORT) object 0 0)) (fun _ => answer (Err e))).

(** ** Completed operations (operations.rs) *)
Definition receipt_part (id : OperationId) (p : Packet) (offset : nat) (b : list Z) : outcome FileError (list Z) :=
  let n := Nat.min (RECEIPT_BYTES - offset) DATA in
  if negb (p_id p =? Z.of_nat offset) || negb (p_arg p =? Z.of_nat RECEIPT_BYTES) || negb (p_version p =? oi_sequence id) || negb (p_count p =? Z.of_nat n)
  then Err FProtocol else Ok (write b offset (Packet_payload p)).

(** The receipt of either profile: [decode] and the lookup by ID are the profile's. *)
Definition collect_receipt (c : SdkClient) (lookup : OperationId -> Packet) (decode : list Z -> outcome FileError FileOperation)
    (first : Packet) (lineage : list Z) : method FileOperation :=
  let& id := answer (map_err (fun _ => FProtocol) (OperationId_new lineage (p_version first))) in
  let& b := answer (receipt_part id first 0 (zeros RECEIPT_BYTES)) in
  let& p := operation_exchange c (with_arg (with_op (lookup id) OPERATION_PART) 40) in
  let& b := answer (receipt_part id p 40 b) in
  let& p := operation_exchange c (with_arg (with_op (lookup id) OPERATION_PART) 80) in
  let& b := answer (receipt_part id p 80 b) in
  answer (let? operation := decode b in if negb (bool_decide (fo_id operation = id)) then Err FProtocol else Ok operation).

Definition collect_operation (c : SdkClient) : Packet -> list Z -> method FileOperation :=
  collect_receipt c (fun id => Lookup_packet (LookupId id) (sc_context c)) FileOperation_decode.

Definition lookup_lineage (l : Lookup) : list Z := match l with LookupRetry workspace _ => ws_lineage workspace | LookupId id => oi_lineage id end.
Definition lookup_matches (l : Lookup) (o : FileOperation) : bool :=
  match l with
  | LookupRetry workspace retry => bool_decide (fo_workspace o = workspace) && bool_decide (fo_retry o = retry)
  | LookupId id => bool_decide (fo_id o = id)
  end.

Definition operation_get (c : SdkClient) (l : Lookup) : method FileOperation :=
  let& first := operation_exchange c (Lookup_packet l (sc_context c)) in
  let& result := collect_operation c first (lookup_lineage l) in
  answer (if negb (lookup_matches l result) then Err FProtocol else Ok result).

Definition receipt_agrees (r : Replacement) (size : Z) (digest : list Z) (o : FileOperation) : bool :=
  bool_decide (fo_workspace o = rp_workspace r) && bool_decide (fo_resource o = rp_resource r) && bool_decide (fo_retry o = rp_retry r)
  && bool_decide (fo_previous o = rp_expected r) && (fo_size o =? size) && bool_decide (fo_sha256 o = digest).

Definition replace_file `{Digest} (c : SdkClient) (r : Replacement) (b : list Z) : method FileOperation :=
  let& _ := stage_profile c r b false in
  let& first := operation_exchange c (bare REPLACE_COMMIT (rs_object (rp_resource r)) 0 0) in
  let& result := map_error (fun _ => FUncertain) (collect_operation c first (ws_lineage (rp_workspace r))) in
  answer (if negb (receipt_agrees r (Z.of_nat (length b)) (sha256 b) result) then Err FUncertain else Ok result).

(** ** Tracked writes (recovery.rs) *)
Definition retry_token (c : SdkClient) (id key : Z) : method Retry :=
  if key =? 0 then answer (Err FInvalid)
  else
    let& r := request c (bare OP_RECOVERY id 0 0) in
    answer (if negb (p_count r =? 24) || negb (p_arg r =? 2) || negb (p_id r =? 0) || negb (p_version r =? 0) then Err FProtocol
            else Retry_decode (write (write (zeros 32) 0 (Packet_payload r)) 24 (le_bytes 8 key))).

Definition receipt (c : SdkClient) (id : Z) (retry : Retry) : method Receipt :=
  let& r := request c (carrying OP_RECEIPT id 0 0 (Retry_encode retry)) in
  answer (let? receipt := Receipt_decode r in
          if negb (rc_id receipt =? id) || negb (bool_decide (rc_retry receipt = retry)) then Err FProtocol else Ok receipt).

Definition stage_tracked (c : SdkClient) (id version : Z) (retry : Retry) (b : list Z) : method unit :=
  if (1024 <? length b)%nat then answer (Err FSize)
  else
    let& _ := request c (carrying TRACK_BEGIN id (Z.of_nat (length b)) version (Retry_encode retry)) in
    send_chunks c id (chunks b).

Definition replace_tracked (c : SdkClient) (id version : Z) (retry : Retry) (b : list Z) : method Receipt :=
  let& _ := stage_tracked c id version retry b in
  bind (let& r := request c (bare OP_COMMIT id 0 0) in
        answer (let? receipt := map_err (fun _ => FUncertain) (Receipt_decode r) in
                if negb (rc_id receipt =? id) || negb (rc_previous receipt =? version) || negb (bool_decide (rc_retry receipt = retry))
                   || negb (rc_length receipt =? Z.of_nat (length b))
                then Err FUncertain else Ok receipt))
    (abort_unless_undecided c id).
