(* ===== verification/SdkRange.v ===== *)
(** * Verified range reads (crates/sdk/src/files/range)

    collector.rs (one range, assembled from its header and chunks and checked
    against the header's digest), the synchronous [read_into], and the pollable
    read of operation.rs and mod.rs with the reservation it holds on the client;
    with [submit] and [poll] of transport.rs, which share that client. *)
From stdpp Require Import base list option numbers.
From Stdlib Require Import ZArith Lia Bool.
From S2P Require Import Prelude Bytes Codec Ipc AbiFiles AbiIdentity AbiMessages AbiAdmission AbiServices SvcClients Interact SdkFiles.

(** ** The collector (collector.rs) *)
(** [co_hashed] are the bytes the running digest has been fed. *)
Record Collector := mkCollector {
  co_request : ReadRequest; co_context : Z; co_bytes : list Z; co_info : option ReadInfo; co_used : Z;
  co_hashed : list Z; co_failed : bool; co_complete : bool }.

Definition RANGE_BYTES : nat := Z.to_nat MAX_RANGE.

Definition Collector_new (r : ReadRequest) (context : Z) : outcome FileError Collector :=
  let? _ := ReadRequest_validate r in Ok (mkCollector r context (zeros RANGE_BYTES) None 0 [] false false).

Definition Collector_fail {A} (co : Collector) : outcome FileError A * Collector :=
  (Err FProtocol, mkCollector (co_request co) (co_context co) (zeros RANGE_BYTES) (co_info co) (co_used co) (co_hashed co) true (co_complete co)).

Definition with_info (co : Collector) (i : ReadInfo) : Collector :=
  mkCollector (co_request co) (co_context co) (co_bytes co) (Some i) (co_used co) (co_hashed co) (co_failed co) (co_complete co).

Definition Collector_open (co : Collector) (reply : Packet) : outcome FileError unit * Collector :=
  if co_failed co || is_some (co_info co) || negb (p_context reply =? co_context co) then Collector_fail co
  else
    match (let? header := ReadHeader_decode reply in ReadInfo_from_header (co_request co) header) with
    | Ok info => (Ok tt, with_info co info)
    | Err _ => Collector_fail co
    | Panic => (Panic, co)
    end.

(** The request of the next chunk. *)
Definition chunk_request (co : Collector) (info : ReadInfo) : ReadRequest :=
  let r := co_request co in
  mkReadRequest (rr_workspace r) (rr_resource r) (Some (ri_version info)) (rr_offset r + co_used co) (Z.min (ri_length info - co_used co) (Z.of_nat DATA)).

Definition Collector_next (co : Collector) : outcome FileError (option Packet) :=
  if co_failed co then Err FProtocol
  else
    let? info := ok_or (co_info co) FProtocol in
    if co_used co =? ri_length info then Ok None
    else let? p := ReadRequest_packet (chunk_request co info) READ_CHUNK (co_context co) in Ok (Some p).

Definition chunk_accepted (co : Collector) (info : ReadInfo) (request reply : Packet) : bool :=
  (p_op reply =? READ_CHUNK) && (p_status reply =? 0) && (p_context reply =? co_context co) && (p_id reply =? p_id request)
  && (p_version reply =? v_value (ri_version info)) && (p_arg reply =? ri_size info) && (p_count reply =? p_arg request)
  && (p_count reply <=? Z.of_nat DATA) && all_zero (drop (Z.to_nat (p_count reply)) (p_data reply)).

Definition Collector_chunk (co : Collector) (reply : Packet) : outcome FileError unit * Collector :=
  match Collector_next co with
  | Ok (Some request) =>
    match co_info co with
    | None => (Panic, co)
    | Some info =>
      if negb (chunk_accepted co info request reply) then Collector_fail co
      else
        let b := take (Z.to_nat (p_count reply)) (p_data reply) in
        let fin := co_used co + p_count reply in
        if MAX_RANGE <? fin then (Panic, co)
        else (Ok tt, mkCollector (co_request co) (co_context co) (write (co_bytes co) (Z.to_nat (co_used co)) b) (co_info co) fin
                       (co_hashed co ++ b) (co_failed co) (co_complete co))
    end
  | Panic => (Panic, co)
  | _ => Collector_fail co
  end.

(** [VerifiedRange]; [bytes] is a prefix of its buffer. *)
Record VerifiedRange := mkVerified { vr_info : ReadInfo; vr_buffer : list Z }.
Definition Verified_bytes (v : VerifiedRange) : list Z := take (Z.to_nat (ri_length (vr_info v))) (vr_buffer v).

Definition Collector_finish `{Digest} (co : Collector) : outcome FileError VerifiedRange :=
  match co_info co with
  | None => Err FProtocol
  | Some info =>
    if co_failed co || negb (co_used co =? ri_length info) || negb (bool_decide (sha256 (co_hashed co) = ri_sha256 info)) then Err FProtocol
    else Ok (mkVerified info (co_bytes co))
  end.

(** ** The synchronous read *)
Fixpoint collect_loop (fuel : nat) (send : Packet -> method Packet) (co : Collector) : method Collector :=
  match fuel with
  | O => answer Panic
  | S fuel =>
    let& next := answer (Collector_next co) in
    match next with
    | None => answer (Ok co)
    | Some p =>
      let& reply := send p in
      let '(r, co) := Collector_chunk co reply in
      let& _ := answer r in collect_loop fuel send co
    end
  end.

Definition collect_range `{Digest} (context : Z) (r : ReadRequest) (send : Packet -> method Packet) : method VerifiedRange :=
  let& co := answer (Collector_new r context) in
  let& p := answer (ReadRequest_packet r READ_OPEN context) in
  let& reply := send p in
  let '(opened, co) := Collector_open co reply in
  let& _ := answer opened in
  let& co := collect_loop (S RANGE_BYTES) send co in
  answer (Collector_finish co).

(** The result and the caller's buffer. *)
Definition read_into `{Digest} (r : ReadRequest) (context : Z) (out : list Z) (send : Packet -> method Packet) : prog RpcCall (outcome FileError ReadInfo * list Z) :=
  let out := zeros (length out) in
  match ReadRequest_validate r with
  | Err e => Ret (Err e, out)
  | Panic => Ret (Panic, out)
  | Ok _ =>
    if (Z.of_nat (length out) <? rr_length r) || (MAX_RANGE <? Z.of_nat (length out)) then Ret (Err FSize, out)
    else
      bind (collect_range context r send) (fun v =>
        match v with
        | Ok v =>
          if Z.of_nat (length out) <? ri_length (vr_info v) then Ret (Panic, out)
          else Ret (Ok (vr_info v), write out 0 (Verified_bytes v))
        | Err e => Ret (Err e, out)
        | Panic => Ret (Panic, out)
        end)
  end.

Definition read_range `{Digest} (c : SdkClient) (r : ReadRequest) (out : list Z) : prog RpcCall (outcome FileError ReadInfo * list Z) :=
  read_into r (sc_context c) out (observation c).

(** A call with a buffer, as one result. *)
Definition with_buffer {A} (p : prog RpcCall (outcome FileError A * list Z)) : method (A * list Z) :=
  bind p (fun '(r, out) => Ret (let? a := r in Ok (a, out))).

(** ** Asynchronous calls: the client changes *)
Definition stateful (S A : Type) : Type := prog RpcCall (outcome FileError A * S).

(** [rpc.begin] and [rpc.poll] leave the transport failed after every error but backpressure. *)
Definition with_rpc (c : SdkClient) (pending failed : bool) : SdkClient :=
  mkSdkClient (sc_token c) (sc_context c) (sc_pending c) (sc_range c) (sc_next_range c) pending failed (sc_selection c).
Definition with_pending (c : SdkClient) (p : option Packet) : SdkClient :=
  mkSdkClient (sc_token c) (sc_context c) p (sc_range c) (sc_next_range c) (sc_rpc_pending c) (sc_rpc_failed c) (sc_selection c).
Definition with_range (c : SdkClient) (range : option Z) (next : Z) : SdkClient :=
  mkSdkClient (sc_token c) (sc_context c) (sc_pending c) range next (sc_rpc_pending c) (sc_rpc_failed c) (sc_selection c).

Definition backpressure (e : SdkError) : bool := bool_decide (e = SIpc IpcWouldBlock).

Definition rpc_begin (c : SdkClient) (p : Packet) : prog RpcCall (outcome SdkError unit * SdkClient) :=
  bind (ask (RpcBegin (Packet_encode p))) (fun r =>
    Ret (r, match r with Ok _ => with_rpc c true (sc_rpc_failed c) | Err e => if backpressure e then c else with_rpc c false true | Panic => c end)).
Definition rpc_poll (c : SdkClient) : prog RpcCall (outcome SdkError (option RpcMessage) * SdkClient) :=
  bind (ask RpcPoll) (fun r =>
    Ret (r, match r with Ok (Some _) => with_rpc c false (sc_rpc_failed c) | Ok None => c | Err _ => with_rpc c false true | Panic => c end)).

(** ** Reservations (operation.rs) *)
Definition PENDING_MARKER_OP : Z := 255.
Definition pending_marker (context id : Z) : Packet := mkPacket PENDING_MARKER_OP 0 0 0 0 context id (zeros DATA).
Definition is_pending_marker (p : Packet) : bool :=
  (p_op p =? PENDING_MARKER_OP) && (p_status p =? 0) && (p_count p =? 0) && (p_id p =? 0) && (p_arg p =? 0) && negb (p_version p =? 0) && all_zero (p_data p).

(** ** One request at a time (transport.rs) *)
Definition submit (c : SdkClient) (p : Packet) : stateful SdkClient unit :=
  match require_binding c with
  | Err e => Ret (Err e, c)
  | Panic => Ret (Panic, c)
  | Ok _ =>
    if is_some (sc_range c) then Ret (Err FBusy, c)
    else
      let p := with_context p (sc_context c) in
      bind (rpc_begin c p) (fun '(r, c) =>
        match r with
        | Ok _ => Ret (Ok tt, with_pending c (Some p))
        | Err e => Ret (Err (if backpressure e then FBusy else FClosed), c)
        | Panic => Ret (Panic, c)
        end)
  end.

Definition poll (c : SdkClient) : stateful SdkClient (option Packet) :=
  if is_some (sc_range c) then Ret (Err FBusy, c)
  else
    match sc_pending c with
    | None => Ret (Ok None, c)
    | Some p =>
      if is_pending_marker p then Ret (Err FBusy, c)
      else
        let error := malformed (durable (p_op p)) in
        bind (rpc_poll c) (fun '(r, c) =>
          match r with
          | Err _ => Ret (Err error, c)
          | Panic => Ret (Panic, c)
          | Ok None => Ret (Ok None, c)
          | Ok (Some m) =>
            Ret (let? reply := map_err (fun _ => error) (Packet_decode (rm_payload m)) in
                 if negb (p_op reply =? p_op p) || negb (p_context reply =? p_context p) then Err error
                 else let? _ := FileError_parse (p_status reply) in Ok (Some reply), with_pending c None)
          end)
    end.

(** ** Pollable reads (operation.rs, mod.rs) *)
Inductive RangeProgress := RangePending | RangeComplete.
Inductive Stage := StageSend (p : Packet) | StageReceive (op : Z) | StageComplete | StageFailed (e : FileError).

Record RangeRead := mkRangeRead {
  rg_id : Z; rg_token : Z; rg_context : Z; rg_collector : option Collector; rg_verified : option VerifiedRange; rg_stage : Stage }.

Definition RangeRead_new (r : ReadRequest) (token context id : Z) : outcome FileError RangeRead :=
  if (token =? 0) || (id =? 0) then Err FUnavailable
  else
    let? co := Collector_new r context in
    let? open := ReadRequest_packet r READ_OPEN context in
    Ok (mkRangeRead id token context (Some co) None (StageSend open)).

Definition begin_read_range (c : SdkClient) (r : ReadRequest) : outcome FileError (RangeRead * SdkClient) :=
  let? _ := require_binding c in
  if occupied c then Err FBusy
  else if sc_next_range c =? 0 then Err FUnavailable
  else
    let id := sc_next_range c in
    let? operation := RangeRead_new r (sc_token c) (sc_context c) id in
    Ok (operation, with_range c (Some id) (default 0 (checked_add id 1))).

Definition with_stage (o : RangeRead) (s : Stage) : RangeRead :=
  mkRangeRead (rg_id o) (rg_token o) (rg_context o) (rg_collector o) (rg_verified o) s.
Definition with_collector (o : RangeRead) (co : Collector) : RangeRead :=
  mkRangeRead (rg_id o) (rg_token o) (rg_context o) (Some co) (rg_verified o) (rg_stage o).
Definition RangeRead_fail {A} (o : RangeRead) (e : FileError) : outcome FileError A * RangeRead :=
  (Err e, mkRangeRead (rg_id o) (rg_token o) (rg_context o) None None (StageFailed e)).

(** [ClientTransport]. *)
Definition transport_send (c : SdkClient) (p : Packet) : stateful SdkClient unit :=
  match require_binding c with
  | Err e => Ret (Err e, c)
  | Panic => Ret (Panic, c)
  | Ok _ =>
    match sc_range c with
    | None => Ret (Err FUnavailable, c)
    | Some id =>
      if is_some (sc_pending c) || sc_rpc_pending c then Ret (Err FBusy, c)
      else
        bind (rpc_begin c p) (fun '(r, c) =>
          match r with
          | Ok _ => Ret (Ok tt, with_pending c (Some (pending_marker (p_context p) id)))
          | Err e => Ret (Err (if backpressure e then FBusy else map_transport_error e), c)
          | Panic => Ret (Panic, c)
          end)
    end
  end.

#[global] Instance Packet_eq_dec : EqDecision Packet.
Proof. solve_decision. Defined.

Definition transport_receive (c : SdkClient) (context : Z) : stateful SdkClient (option Packet) :=
  match sc_range c with
  | None => Ret (Err FProtocol, c)
  | Some id =>
    if negb (bool_decide (sc_pending c = Some (pending_marker context id))) || negb (sc_rpc_pending c) then Ret (Err FProtocol, c)
    else
      bind (rpc_poll c) (fun '(r, c) =>
        match r with
        | Err e => Ret (Err (map_transport_error e), c)
        | Panic => Ret (Panic, c)
        | Ok None => Ret (Ok None, c)
        | Ok (Some m) => Ret (let? p := Packet_decode (rm_payload m) in Ok (Some p), with_pending c None)
        end)
  end.

(** The answer to a request taken into the collector, and what follows. *)
Definition take_reply `{Digest} (o : RangeRead) (op : Z) (reply : Packet) : outcome FileError RangeProgress * RangeRead :=
  match checked_reply reply op (rg_context o) with
  | Err e => RangeRead_fail o e
  | Panic => (Panic, o)
  | Ok reply =>
    match rg_collector o with
    | None => RangeRead_fail o FProtocol
    | Some co =>
      let '(r, co) := if op =? READ_OPEN then Collector_open co reply else Collector_chunk co reply in
      let o := with_collector o co in
      match r with
      | Err e => RangeRead_fail o e
      | Panic => (Panic, o)
      | Ok _ =>
        match Collector_next co with
        | Err e => RangeRead_fail o e
        | Panic => (Panic, o)
        | Ok (Some p) => (Ok RangePending, with_stage o (StageSend p))
        | Ok None =>
          match Collector_finish co with
          | Err e => RangeRead_fail (mkRangeRead (rg_id o) (rg_token o) (rg_context o) None (rg_verified o) (rg_stage o)) e
          | Panic => (Panic, o)
          | Ok v => (Ok RangeComplete, mkRangeRead (rg_id o) (rg_token o) (rg_context o) None (Some v) StageComplete)
          end
        end
      end
    end
  end.

(** The read still owns the client it was begun on. *)
Definition reserved (o : RangeRead) (c : SdkClient) : bool :=
  (sc_token c =? rg_token o) && (sc_context c =? rg_context o) && bool_decide (sc_range c = Some (rg_id o)).

Definition RangeRead_step `{Digest} (o : RangeRead) (c : SdkClient) : prog RpcCall (outcome FileError RangeProgress * (RangeRead * SdkClient)) :=
  match rg_stage o with
  | StageComplete => Ret (Ok RangeComplete, (o, c))
  | StageFailed e => Ret (Err e, (o, c))
  | StageSend p =>
    if negb (reserved o c) then let '(r, o) := RangeRead_fail o FUnavailable in Ret (r, (o, c))
    else
      bind (transport_send c p) (fun '(r, c) =>
        match r with
        | Ok _ => Ret (Ok RangePending, (with_stage o (StageReceive (p_op p)), c))
        | Err FBusy => Ret (Err FBusy, (o, c))
        | Err e => let '(r, o) := RangeRead_fail o e in Ret (r, (o, c))
        | Panic => Ret (Panic, (o, c))
        end)
  | StageReceive op =>
    if negb (reserved o c) then let '(r, o) := RangeRead_fail o FUnavailable in Ret (r, (o, c))
    else
      bind (transport_receive c (rg_context o)) (fun '(r, c) =>
        match r with
        | Ok (Some reply) => let '(r, o) := take_reply o op reply in Ret (r, (o, c))
        | Ok None => Ret (Ok RangePending, (o, c))
        | Err e => let '(r, o) := RangeRead_fail o e in Ret (r, (o, c))
        | Panic => Ret (Panic, (o, c))
        end)
  end.

Definition finished (s : Stage) : bool := match s with StageComplete | StageFailed _ => true | _ => false end.

(** [poll_operation]: a finished read releases its reservation. *)
Definition poll_range `{Digest} (o : RangeRead) (c : SdkClient) : prog RpcCall (outcome FileError RangeProgress * (RangeRead * SdkClient)) :=
  match rg_stage o with
  | StageComplete => Ret (Ok RangeComplete, (o, c))
  | StageFailed e => Ret (Err e, (o, c))
  | _ =>
    if negb (reserved o c) then let '(r, o) := RangeRead_fail o FUnavailable in Ret (r, (o, c))
    else
      bind (RangeRead_step o c) (fun '(r, (o, c)) =>
        Ret (r, (o, if finished (rg_stage o) && bool_decide (sc_range c = Some (rg_id o)) then with_range c None (sc_next_range c) else c)))
  end.

Definition RangeRead_finish (o : RangeRead) : outcome FileError VerifiedRange :=
  match rg_stage o with
  | StageComplete => ok_or (rg_verified o) FProtocol
  | StageFailed e => Err e
  | _ => Err FBusy
  end.

(** Gives up the active read; [false] while a reply is still to come. *)
Definition drain_abandoned_read_range (c : SdkClient) : stateful SdkClient bool :=
  match sc_range c with
  | None => Ret (Err FUnavailable, c)
  | Some id =>
    if sc_rpc_failed c then Ret (Err FProtocol, c)
    else
      match sc_pending c with
      | None => if sc_rpc_pending c then Ret (Err FProtocol, c) else Ret (Ok true, with_range c None (sc_next_range c))
      | Some marker =>
        if negb (is_pending_marker marker) || negb (p_context marker =? sc_context c) || negb (p_version marker =? id) then Ret (Err FBusy, c)
        else if negb (sc_rpc_pending c) then Ret (Err FProtocol, c)
        else
          bind (rpc_poll c) (fun '(r, c) =>
            match r with
            | Err e => Ret (Err (map_transport_error e), c)
            | Panic => Ret (Panic, c)
            | Ok None => Ret (Ok false, c)
            | Ok (Some _) => Ret (Ok true, with_range (with_pending c None) None (sc_next_range c))
            end)
      end
  end.
