(* ===== verification/SdkPromise.v ===== *)
(** * What the file client promises over any peer (crates/sdk/src/files)

    The peer may answer an exchange with any bytes or lose it.  Whatever it does,
    a method of the client sends only the requests named here and never panics;
    the results it returns fit the question that was asked. *)
From stdpp Require Import base list option numbers.
From Stdlib Require Import ZArith Lia Bool.
From S2P Require Import Prelude Bytes Codec AbiFiles AbiIdentity AbiMessages AbiReceipts AbiAdmission AbiServices Ipc SvcClients Interact SdkFiles SdkRange.

(** ** Any peer *)
Definition Exchange : Type := { c : RpcCall & reply c }.
Definition Wire : Type := list Exchange.
Definition exchanged (p : Packet) (r : outcome SdkError RpcMessage) : Exchange := existT (RpcExchange (Packet_encode p)) r.

(** What a received value is by its type. *)
Definition received (c : RpcCall) : reply c -> Prop :=
  match c return reply c -> Prop with
  | RpcExchange _ => fun r => match r with Ok m => bytes_ok (rm_payload m) | Err _ => True | Panic => False end
  | RpcBegin _ => fun r => r <> Panic
  | RpcPoll => fun r => match r with Ok (Some m) => bytes_ok (rm_payload m) | Panic => False | _ => True end
  end.

#[global] Instance peer : World RpcCall Wire := {|
  permits := fun _ _ => True;
  answers := fun w c r w' => w' = w ++ [existT c r] /\ received c r |}.

(** The wire grew by requests of [ops] only. *)
Definition request_of (ops : list Z) (e : Exchange) : Prop := exists p r, e = exchanged p r /\ p_op p ∈ ops.
Definition extends (ops : list Z) (w w' : Wire) : Prop := exists ext, w' = w ++ ext /\ Forall (request_of ops) ext.

Lemma extends_refl ops w : extends ops w w.
Proof. exists []. by rewrite app_nil_r. Qed.
Lemma extends_trans ops w1 w2 w3 : extends ops w1 w2 -> extends ops w2 w3 -> extends ops w1 w3.
Proof. intros (a & -> & Ha) (b & -> & Hb). exists (a ++ b). rewrite app_assoc. split; [done|]. by apply list.Forall_app. Qed.
#[global] Instance extends_preorder ops : PreOrder (extends ops).
Proof. split; [exact (extends_refl ops)|exact (extends_trans ops)]. Qed.

(** A result without a panic whose value satisfies [F]. *)
Definition returns {A} (F : A -> Prop) (r : outcome FileError A) : Prop := match r with Ok a => F a | Err _ => True | Panic => False end.

(** A method that sends requests of [ops] and returns values in [F]. *)
Definition speaks {A} (ops : list Z) (m : method A) (F : A -> Prop) : Prop :=
  forall w (Q : outcome FileError A -> Wire -> Prop), (forall r w', extends ops w w' -> returns F r -> Q r w') -> wp m w Q.

Section Combinators.
Context {ops : list Z}.

Lemma speaks_answer {A} (r : outcome FileError A) F : returns F r -> speaks ops (answer r) F.
Proof. intros H w Q HQ. by apply HQ. Qed.

Lemma speaks_ok {A B} (a : A) (k : A -> method B) F : speaks ops (k a) F -> speaks ops (let& x := answer (Ok a) in k x) F.
Proof. done. Qed.

Lemma speaks_let {A B} (m : method A) (k : A -> method B) F G : speaks ops m F -> (forall a, F a -> speaks ops (k a) G) -> speaks ops (let& a := m in k a) G.
Proof.
  intros Hm Hk w Q HQ. apply wp_let, Hm. intros r w1 E1 Hr. destruct r as [a|e|]; [|by apply HQ|done].
  apply (Hk a Hr). intros r w2 E2 Hr2. apply HQ; [by etransitivity|done].
Qed.

(** [match m { r => .. }] on the whole result. *)
Lemma speaks_bind {A B} (m : method A) (k : outcome FileError A -> method B) F G : speaks ops m F -> (forall r, returns F r -> speaks ops (k r) G) -> speaks ops (bind m k) G.
Proof.
  intros Hm Hk w Q HQ. apply wp_then, Hm. intros r w1 E1 Hr. apply (Hk r Hr). intros r2 w2 E2 Hr2. apply HQ; [by etransitivity|done].
Qed.

Lemma speaks_map_error {A} (f : FileError -> FileError) (m : method A) F : speaks ops m F -> speaks ops (map_error f m) F.
Proof. intros Hm w Q HQ. apply wp_map_error, Hm. intros r w1 E1 Hr. apply HQ; [done|]. by destruct r. Qed.

Lemma speaks_mono {A} (m : method A) F G : speaks ops m F -> (forall a, F a -> G a) -> speaks ops m G.
Proof. intros Hm HF w Q HQ. apply Hm. intros r w' E Hr. apply HQ; [done|]. destruct r; cbn in *; auto. Qed.

Lemma speaks_if {A} (b : bool) (m n : method A) F : (b = true -> speaks ops m F) -> (b = false -> speaks ops n F) -> speaks ops (if b then m else n) F.
Proof. destruct b; auto. Qed.
End Combinators.

Lemma speaks_more {A} ops ops' (m : method A) F : speaks ops m F -> (forall o, o ∈ ops -> o ∈ ops') -> speaks ops' m F.
Proof.
  intros Hm Ho w Q HQ. apply Hm. intros r w' (ext & -> & He) Hr. apply HQ; [|done]. exists ext. split; [done|]. eapply list.Forall_impl; [exact He|]. intros e (p & x & -> & Hp). exists p, x. auto.
Qed.

Ltac listed := cbn [p_op bare carrying with_op with_arg Packet_new]; rewrite ?elem_of_cons; tauto.
Ltac within lemma := eapply speaks_more; [apply lemma|intros ?; listed].

(** ** Exchanges *)
Definition any {A} (_ : A) : Prop := True.

Lemma require_binding_returns c : returns any (require_binding c).
Proof. unfold require_binding. by destruct (_ =? _). Qed.

Lemma exchange_speaks ops c d p : p_op p ∈ ops -> speaks ops (exchange c d p) (fun m => bytes_ok (rm_payload m)).
Proof.
  intros Ho w Q HQ. unfold exchange. apply wp_let. cbn [wp answer]. pose proof (require_binding_returns c) as Hb. destruct (require_binding c) as [[]|e|]; [|by apply HQ|done].
  destruct (occupied c); [by apply HQ|]. apply wp_map_error, wp_ask; [done|]. intros r w' [-> Hr]. apply HQ.
  - eexists. split; [reflexivity|]. apply list.Forall_singleton. by exists p, r.
  - destruct r; cbn in *; auto.
Qed.

(** The reply of an answered request. *)
Record reply_ok (op context : Z) (p : Packet) : Prop := { ro_frame : Packet_valid p; ro_op : p_op p = op; ro_context : p_context p = context; ro_status : p_status p = 0 }.

Lemma FileError_parse_returns v : returns (fun _ => v = 0) (FileError_parse v).
Proof. destruct (FileError_parse v) as [[]|e|] eqn:E; [by apply FileError_parse_ok|done|]. unfold FileError_parse in E. repeat case_match; done. Qed.

Lemma Packet_decode_returns b : bytes_ok b -> returns Packet_valid (Packet_decode b).
Proof. intros Hb. pose proof (law_total _ _ _ Packet_laws b) as T. destruct (Packet_decode b) as [p|e|] eqn:E; [by eapply Packet_canonical|done|done]. Qed.

Lemma checked_reply_returns p op context : Packet_valid p -> returns (fun q => q = p /\ reply_ok op context p) (checked_reply p op context).
Proof.
  intros Hv. unfold checked_reply. destruct (_ || _) eqn:G; [done|]. bools. pose proof (FileError_parse_returns (p_status p)) as Hs. destruct (FileError_parse (p_status p)) as [[]|e|]; [|done|done]. by split.
Qed.

Lemma decoded_returns b op context : bytes_ok b -> returns (reply_ok op context) (let? r := Packet_decode b in checked_reply r op context).
Proof.
  intros Hb. pose proof (Packet_decode_returns b Hb) as Hd. destruct (Packet_decode b) as [p|e|]; [|done|done]. pose proof (checked_reply_returns p op context Hd) as Hc.
  destruct (checked_reply p op context) as [q|e|]; [|done|done]. by destruct Hc as [-> Hc].
Qed.

Lemma returns_map_err {A} F (f : FileError -> FileError) (r : outcome FileError A) : returns F r -> returns F (map_err f r).
Proof. by destruct r. Qed.

Lemma operation_exchange_speaks ops c p : p_op p ∈ ops -> speaks ops (operation_exchange c p) (reply_ok (p_op p) (sc_context c)).
Proof.
  intros Ho. unfold operation_exchange. eapply speaks_let; [by apply exchange_speaks|]. intros m Hm. apply speaks_answer, returns_map_err, decoded_returns, Hm.
Qed.

Lemma observation_speaks ops c p : p_op p ∈ ops -> speaks ops (observation c p) (reply_ok (p_op p) (sc_context c)).
Proof. intros Ho. unfold observation. eapply speaks_let; [by apply exchange_speaks|]. intros m Hm. by apply speaks_answer, decoded_returns. Qed.

Lemma request_speaks ops c p : p_op p ∈ ops -> speaks ops (request c p) (reply_ok (p_op p) (sc_context c)).
Proof.
  intros Ho. unfold request. eapply speaks_let; [by apply exchange_speaks|]. intros m Hm. apply speaks_answer. pose proof (Packet_decode_returns _ Hm) as Hd.
  destruct (Packet_decode _) as [r|e|]; cbn [map_err]; [|done|done]. destruct (_ || _) eqn:G; [done|]. bools. pose proof (FileError_parse_returns (p_status r)) as Hs.
  destruct (FileError_parse (p_status r)) as [[]|e|]; [|done|done]. by split.
Qed.

(** ** Nodes and paths *)
Lemma Metadata_decode_returns p : returns any (Metadata_decode p).
Proof. unfold Metadata_decode. by destruct (_ || _). Qed.

Lemma stat_speaks c id : speaks [OP_STAT] (stat c id) any.
Proof. unfold stat. eapply speaks_let; [apply request_speaks; by left|]. intros r _. apply speaks_answer, Metadata_decode_returns. Qed.

Lemma named_returns op id name : returns (fun p => p_op p = op) (named op id name).
Proof. unfold named. by destruct (_ || _). Qed.

Lemma lookup_name_speaks c parent name : speaks [OP_LOOKUP] (lookup_name c parent name) any.
Proof.
  unfold lookup_name. eapply speaks_let; [apply speaks_answer, named_returns|]. intros p Hp. eapply speaks_let; [apply request_speaks; rewrite Hp; by left|]. intros r _. apply speaks_answer, Metadata_decode_returns.
Qed.

Lemma create_speaks c parent name directory : speaks [OP_MKDIR; OP_CREATE] (create c parent name directory) any.
Proof.
  unfold create. eapply speaks_let; [apply speaks_answer, named_returns|]. intros p Hp. eapply speaks_let; [apply request_speaks; rewrite Hp; destruct directory; [by left|right; by left]|]. intros r _. apply speaks_answer, Metadata_decode_returns.
Qed.

Lemma resolve_parts_speaks c id parts : speaks [OP_STAT; OP_LOOKUP] (resolve_parts c id parts) any.
Proof.
  assert (Hs : forall id, speaks [OP_STAT; OP_LOOKUP] (stat c id) any) by (intros x; eapply speaks_more; [apply stat_speaks|]; intros o; rewrite !elem_of_cons; tauto).
  revert id. induction parts as [|name parts IH]; intros id; cbn [resolve_parts]; [by apply speaks_answer|]. eapply (speaks_let _ _ any).
  - apply speaks_if; intros _; [|by apply speaks_answer]. eapply speaks_let; [apply Hs|]. intros m _. apply speaks_answer. by destruct (md_directory m).
  - intros _ _. repeat (apply speaks_if; intros _); try apply IH; (eapply speaks_let; [|intros m _; apply IH]); [apply Hs|]. eapply speaks_more; [apply lookup_name_speaks|]. intros o. rewrite !elem_of_cons. tauto.
Qed.

Lemma resolve_speaks c cwd path : speaks [OP_STAT; OP_LOOKUP] (resolve c cwd path) any.
Proof. unfold resolve. apply speaks_if; intros _; [by apply speaks_answer|apply resolve_parts_speaks]. Qed.

(** ** Replacement without a receipt *)
Lemma send_chunks_speaks c id parts : speaks [OP_CHUNK] (send_chunks c id parts) any.
Proof.
  induction parts as [|[offset part] parts IH]; cbn [send_chunks]; [by apply speaks_answer|]. eapply speaks_let; [apply request_speaks; by left|]. intros _ _. apply IH.
Qed.

Lemma abort_speaks {A} ops c id (r : outcome FileError A) F : OP_ABORT ∈ ops -> returns F r -> speaks ops (abort_unless_undecided c id r) F.
Proof.
  intros Ho Hr. unfold abort_unless_undecided. destruct r as [a|e|]; try by apply speaks_answer. apply speaks_if; intros _; [by apply speaks_answer|].
  eapply speaks_bind; [apply request_speaks; exact Ho|]. intros r _. by apply speaks_answer.
Qed.

Lemma replace_speaks c id version b : speaks [OP_BEGIN; OP_CHUNK; OP_COMMIT; OP_ABORT] (replace c id version b) any.
Proof.
  unfold replace. apply speaks_if; intros _; [by apply speaks_answer|]. eapply speaks_let; [apply request_speaks; by left|]. intros _ _.
  eapply speaks_bind; [|intros r Hr; apply abort_speaks; [by do 3 right; left|exact Hr]].
  eapply speaks_let; [eapply speaks_more; [apply send_chunks_speaks|]; intros o; rewrite !elem_of_cons; tauto|]. intros _ _.
  eapply speaks_let; [apply request_speaks; by do 2 right; left|]. intros r _. apply speaks_answer, Metadata_decode_returns.
Qed.

(** ** Identities and support *)
Definition identities_ok (refs : References) : Prop :=
  workspace_ok (rf_workspace refs) /\ rs_workspace (rf_resource refs) = rf_workspace refs /\ rs_object (rf_resource refs) <> 0 /\ fits 32 (rs_object (rf_resource refs)).

(** A decoder of messages neither panics nor accepts an invalid frame. *)
Lemma decode_returns {A} (packet : A -> Z -> Z -> outcome FileError Packet) decode valid p : message_laws packet decode valid -> Packet_valid p ->
  returns (valid (p_op p)) (decode p).
Proof.
  intros L Hv. destruct (decode p) as [a|e|] eqn:E; [by eapply (msg_canonical _ _ _ L)|done|]. by destruct (msg_total _ _ _ L p).
Qed.

Lemma References_decode_returns p : Packet_valid p -> returns identities_ok (References_decode p).
Proof.
  intros Hv. pose proof (decode_returns _ _ _ p References_message Hv) as H. destruct (References_decode p) as [r|e|]; [|done|done]. by destruct H as (_ & H).
Qed.

Lemma references_speaks c workspace object : speaks [OP_REFERENCES] (references c workspace object)
  (fun refs => identities_ok refs /\ ws_root (rf_workspace refs) = workspace /\ rs_object (rf_resource refs) = object).
Proof.
  unfold references. eapply (speaks_let _ _ (fun p => p_op p = OP_REFERENCES)); [apply speaks_answer; unfold References_request; by destruct (_ || _)|].
  intros p Hp. eapply speaks_let; [apply observation_speaks; rewrite Hp; listed|]. intros r Hr. apply speaks_answer. pose proof (References_decode_returns r (ro_frame _ _ _ Hr)) as H.
  destruct (References_decode r) as [refs|e|]; [|done|done]. destruct (_ || _) eqn:G; [done|]. bools. done.
Qed.

Lemma capabilities_speaks c : speaks [OP_CAPABILITIES] (capabilities c) any.
Proof.
  unfold capabilities. eapply speaks_let; [apply request_speaks; listed|]. intros r Hr. apply speaks_answer.
  pose proof (decode_returns _ _ _ r Capabilities_message (ro_frame _ _ _ Hr)) as H. by destruct (Capabilities_decode r).
Qed.

(** ** Completed operations *)
Lemma OperationId_new_returns lineage sequence : returns (fun id => oi_lineage id = lineage /\ oi_sequence id = sequence) (OperationId_new lineage sequence).
Proof. unfold OperationId_new. by destruct (_ || _). Qed.

Lemma receipt_part_returns id p offset b : returns any (receipt_part id p offset b).
Proof. unfold receipt_part. by destruct (_ || _). Qed.

Lemma FileOperation_decode_returns b : returns any (FileOperation_decode b).
Proof.
  assert (T : FileOperation_parse b <> Panic) by (unfold FileOperation_parse, Instance_new, Workspace_new, OperationId_new, Resource_new, Version_new, Epoch_new, Key_new; no_panic).
  unfold FileOperation_decode. destruct (FileOperation_parse b) as [o|e|]; cbn [map_err]; [by destruct (_ || _)|done|done].
Qed.

Lemma collect_operation_speaks c first lineage : speaks [OPERATION_PART] (collect_operation c first lineage) any.
Proof.
  unfold collect_operation, collect_receipt. eapply speaks_let; [apply speaks_answer, returns_map_err, OperationId_new_returns|]. intros id _.
  do 2 (eapply speaks_let; [apply speaks_answer, receipt_part_returns|]; intros ? _; eapply speaks_let; [apply operation_exchange_speaks; listed|]; intros ? _).
  eapply speaks_let; [apply speaks_answer, receipt_part_returns|]. intros b _. apply speaks_answer. pose proof (FileOperation_decode_returns b) as H.
  destruct (FileOperation_decode b) as [o|e|]; [|done|done]. by destruct (negb _).
Qed.

Lemma Lookup_packet_op l context : p_op (Lookup_packet l context) ∈ [OPERATION_RETRY; OPERATION_ID].
Proof. destruct l; listed. Qed.

Lemma operation_get_speaks c l : speaks [OPERATION_RETRY; OPERATION_ID; OPERATION_PART] (operation_get c l) (fun o => lookup_matches l o = true).
Proof.
  unfold operation_get. eapply speaks_let; [apply operation_exchange_speaks; pose proof (Lookup_packet_op l (sc_context c)) as H; revert H; rewrite !elem_of_cons; tauto|]. intros first _.
  eapply speaks_let; [within collect_operation_speaks|]. intros o _. apply speaks_answer. by destruct (lookup_matches l o) eqn:E.
Qed.

(** ** What a durable request may have done *)
(** The service answered the request with the error [e]. *)
Definition rejected (op context : Z) (x : outcome SdkError RpcMessage) (e : FileError) : Prop :=
  exists m p, x = Ok m /\ Packet_decode (rm_payload m) = Ok p /\ p_op p = op /\ p_context p = context /\ FileError_parse (p_status p) = Err e.

(** The result of a durable request that was sent: the service's answer, or [Uncertain]. *)
Definition settled (op context : Z) (x : outcome SdkError RpcMessage) (r : outcome FileError Packet) : Prop :=
  match r with
  | Ok q => reply_ok op context q /\ exists m, x = Ok m /\ Packet_decode (rm_payload m) = Ok q
  | Err e => e = FUncertain \/ rejected op context x e
  | Panic => False
  end.

Lemma operation_exchange_wp c p w (Q : outcome FileError Packet -> Wire -> Prop) : durable_operation (p_op p) = true ->
  (forall e, Q (Err e) w) ->
  (forall x r, settled (p_op p) (sc_context c) x r -> Q r (w ++ [exchanged (with_context p (sc_context c)) x])) ->
  wp (operation_exchange c p) w Q.
Proof.
  intros Hd Hn HQ. unfold operation_exchange. cbn [with_context p_op]. rewrite Hd. apply wp_let. unfold exchange. apply wp_let. cbn [wp answer].
  pose proof (require_binding_returns c) as Hb. destruct (require_binding c) as [[]|e|]; [|by apply Hn|done]. destruct (occupied c); [by apply Hn|]. apply wp_map_error, wp_ask; [done|].
  intros x w' [-> Hx]. destruct x as [m|e|]; cbn [map_err wp answer lost]; [|apply (HQ (Err e)); by left|done]. apply (HQ (Ok m)). cbn in Hx. pose proof (Packet_decode_returns _ Hx) as Hv.
  destruct (Packet_decode (rm_payload m)) as [q|e|] eqn:Eq; cbn [map_err]; [| |done].
  - pose proof (checked_reply_returns q (p_op p) (sc_context c) Hv) as Hc. destruct (checked_reply q _ _) as [q'|e|] eqn:Ec; cbn [map_err p_context with_context]; [|..|done].
    + destruct Hc as [-> Hc]. split; [done|]. by exists m.
    + unfold checked_reply in Ec. destruct (_ || _) eqn:G; [injection Ec as <-; by left|]. bools. destruct (FileError_parse (p_status q)) as [[]|e'|] eqn:Es; [done| |done]. injection Ec as <-.
      destruct (decide (e' = FProtocol)) as [->|Hne]; [by left|]. rewrite bool_decide_eq_false_2 by done. right. by exists m, q.
  - destruct (decide (e = FProtocol)) as [->|Hne]; [by left|]. unfold Packet_decode in Eq. repeat case_match; congruence.
Qed.

(** ** Replacement with a receipt *)
Lemma empty_ack_returns p : returns any (empty_ack p).
Proof. unfold empty_ack. by destruct (_ || _). Qed.

Lemma stage_chunks_speaks c op id parts : speaks [op] (stage_chunks c op id parts) any.
Proof.
  induction parts as [|[offset part] parts IH]; cbn [stage_chunks]; [by apply speaks_answer|]. eapply speaks_let; [apply operation_exchange_speaks; listed|]. intros ack _.
  eapply speaks_let; [apply speaks_answer, empty_ack_returns|]. intros _ _. apply IH.
Qed.

Definition staging : list Z := [REPLACE_OPEN; REPLACE_CHUNK; REPLACE_ABORT].

Lemma stage_profile_speaks c r b : speaks staging (stage_profile c r b false) any.
Proof.
  unfold stage_profile, staging. eapply (speaks_let _ _ (fun p => p_op p = REPLACE_OPEN)); [apply speaks_answer; unfold Replacement_packet; by repeat case_match|]. intros p Hp.
  eapply speaks_let; [eapply speaks_let; [apply operation_exchange_speaks; rewrite Hp; listed|]; intros ack _; apply speaks_answer, empty_ack_returns|]. intros _ _.
  eapply speaks_bind; [within stage_chunks_speaks|]. intros x Hx. destruct x as [u|e|]; [by apply speaks_answer| |done].
  eapply speaks_bind; [apply operation_exchange_speaks; listed|]. intros y _. by apply speaks_answer.
Qed.

(** How a replacement ends: before its commit was sent, or by what the answer to
    the commit and the receipt say. *)
Definition replacement_end `{Digest} (c : SdkClient) (r : Replacement) (b : list Z) (w : Wire) (res : outcome FileError FileOperation) (w' : Wire) : Prop :=
  (extends staging w w' /\ match res with Err _ => True | _ => False end) \/
  exists w1 x, extends staging w w1 /\
    extends [OPERATION_PART] (w1 ++ [exchanged (with_context (bare REPLACE_COMMIT (rs_object (rp_resource r)) 0 0) (sc_context c)) x]) w' /\
    match res with
    | Ok o => receipt_agrees r (Z.of_nat (length b)) (sha256 b) o = true /\ exists m q, x = Ok m /\ Packet_decode (rm_payload m) = Ok q /\ p_status q = 0
    | Err e => e = FUncertain \/ rejected REPLACE_COMMIT (sc_context c) x e
    | Panic => False
    end.

Lemma replace_file_wp `{Digest} c r b w (Q : outcome FileError FileOperation -> Wire -> Prop) :
  (forall res w', replacement_end c r b w res w' -> Q res w') -> wp (replace_file c r b) w Q.
Proof.
  intros HQ. unfold replace_file. apply wp_let, stage_profile_speaks. intros res w1 E1 Hr. destruct res as [[]|e|]; [|apply HQ; by left|done].
  apply wp_let, operation_exchange_wp; [done|intros e; apply HQ; by left|]. intros x q Hx. destruct q as [q|e|].
  - destruct Hx as [Hq (m & -> & Em)]. apply wp_let, wp_map_error, collect_operation_speaks. intros o w2 E2 Ho. destruct o as [o|e|]; cbn [map_err wp answer]; [| |done].
    + apply HQ. right. exists w1, (Ok m). split; [done|]. split; [done|]. destruct (receipt_agrees _ _ _ o) eqn:Ea; cbn [negb]; [|by left]. split; [done|]. exists m, q. split; [done|]. split; [done|]. apply Hq.
    + apply HQ. right. exists w1, (Ok m). split; [done|]. split; [done|]. by left.
  - apply HQ. right. exists w1, x. split; [done|]. by split.
  - done.
Qed.

(** ** Verified ranges *)
Definition reading : list Z := [READ_OPEN; READ_CHUNK].

(** The information of an answered header. *)
Definition described (r : ReadRequest) (i : ReadInfo) : Prop := exists h, header_ok READ_OPEN h /\ ReadInfo_from_header r h = Ok i.

(** What a collector that was opened holds: the bytes so far, which were hashed. *)
Record collecting (co : Collector) (r : ReadRequest) (context : Z) (i : ReadInfo) : Prop := {
  cg_request : co_request co = r; cg_context : co_context co = context; cg_info : co_info co = Some i; cg_failed : co_failed co = false;
  cg_described : described r i; cg_length : length (co_bytes co) = RANGE_BYTES; cg_bytes : bytes_ok (co_bytes co);
  cg_used : 0 <= co_used co /\ (co_used co = 0 \/ co_used co <= ri_length i); cg_hashed : co_hashed co = take (Z.to_nat (co_used co)) (co_bytes co) }.

Lemma described_bounds r i : described r i -> ri_length i <= rr_length r <= MAX_RANGE /\ ri_references i = mkReferences (rr_workspace r) (rr_resource r) /\
  ri_offset i = rr_offset r /\ (forall v, rr_expected r = Some v -> ri_version i = v) /\ number_ok (v_value (ri_version i)) /\ number_ok (e_value (ri_epoch i)).
Proof.
  intros (h & (_ & _ & _ & _ & Hv & He & _) & H). unfold ReadInfo_from_header in H. destruct (ReadRequest_validate r) as [[]| |] eqn:Er; [|done|done]. destruct (_ || _) eqn:G in H; [done|]. injection H as <-.
  unfold ReadRequest_validate in Er. destruct (_ || _) eqn:G2 in Er; [done|]. bools. cbn [ri_length ri_references ri_offset ri_version ri_epoch]. split; [lia|]. do 2 (split; [done|]). split; [|done].
  intros v Hx. rewrite Hx in *. bools. congruence.
Qed.

Lemma ReadInfo_from_header_returns r h : ReadInfo_from_header r h <> Panic.
Proof. unfold ReadInfo_from_header, ReadRequest_validate. no_panic. Qed.

Lemma Collector_new_returns r context : returns (fun co => co_request co = r /\ co_context co = context /\ co_info co = None /\ co_failed co = false /\
  co_bytes co = zeros RANGE_BYTES /\ co_used co = 0 /\ co_hashed co = []) (Collector_new r context).
Proof. unfold Collector_new, ReadRequest_validate. by destruct (_ || _). Qed.

Lemma Collector_open_returns r context reply : Packet_valid reply -> forall co, Collector_new r context = Ok co ->
  match Collector_open co reply with (Ok _, co) => exists i, collecting co r context i | (Err _, _) => True | (Panic, _) => False end.
Proof.
  intros Hv co E. pose proof (Collector_new_returns r context) as H. rewrite E in H. destruct H as (Hr & Hc & Hi & Hf & Hb & Hu & Hh). unfold Collector_open.
  destruct (_ || _); [done|]. rewrite Hr. pose proof (decode_returns _ _ _ reply ReadHeader_message Hv) as Hd. destruct (ReadHeader_decode reply) as [h|e|]; [|done|done].
  pose proof (ReadInfo_from_header_returns r h). destruct (ReadInfo_from_header r h) as [i|e|] eqn:Ei; [|done|done]. exists i. unfold with_info. split; cbn; try done.
  - exists h. destruct Hd as [Ho Hd]. by split.
  - by rewrite Hb.
  - rewrite Hb. apply bytes_ok_zeros.
  - rewrite Hu. lia.
  - by rewrite Hu, Hh.
Qed.

Lemma ReadRequest_packet_returns r op context : returns (fun p => p_op p = op /\ p_arg p = rr_length r) (ReadRequest_packet r op context).
Proof. unfold ReadRequest_packet, ReadRequest_validate. destruct (_ || _); [done|]. by destruct (_ || _). Qed.

(** The next request asks for at most a chunk of what is missing. *)
Lemma Collector_next_returns co r context i : collecting co r context i -> returns (fun next => match next with
  | None => co_used co = ri_length i
  | Some p => co_used co <> ri_length i /\ p_op p = READ_CHUNK /\ p_arg p = Z.min (ri_length i - co_used co) (Z.of_nat DATA) end) (Collector_next co).
Proof.
  intros [Hr Hc Hi Hf _ _ _ _ _]. unfold Collector_next. rewrite Hf, Hi. cbn [ok_or]. destruct (Z.eqb_spec (co_used co) (ri_length i)) as [E|E]; [done|].
  pose proof (ReadRequest_packet_returns (chunk_request co i) READ_CHUNK (co_context co)) as H. destruct (ReadRequest_packet _ _ _) as [p|e|]; [|done|done]. by destruct H.
Qed.

Lemma write_prefix l i src : (i + length src <= length l)%nat -> take (i + length src) (write l i src) = take i l ++ src.
Proof. intros H. unfold write. rewrite app_assoc. apply take_app_length'. rewrite length_app, length_take. lia. Qed.

(** An accepted chunk brings at least one byte. *)
Lemma Collector_chunk_returns co r context i reply : collecting co r context i -> Packet_valid reply ->
  match Collector_chunk co reply with (Ok _, co') => collecting co' r context i /\ co_used co < co_used co' <= ri_length i | (Err _, _) => True | (Panic, _) => False end.
Proof.
  intros Hg [[_ _ Fc _ _ _ _ Ld Bd] (_ & _ & _)]. unfold Collector_chunk. pose proof (Collector_next_returns co r context i Hg) as Hn. destruct (Collector_next co) as [[p|]|e|]; [|done..]. destruct Hn as (Hu & _ & Ha).
  pose proof Hg as [Hr Hc Hi Hf Hd Hl Hb (Hu0 & Hu1) Hh]. rewrite Hi. destruct (chunk_accepted co i p reply) eqn:G; cbn [negb]; [|done]. unfold chunk_accepted in G. bools. unfold fits in Fc.
  destruct (described_bounds r i Hd) as (Hm & _). set (n := p_count reply) in *. assert (Hn : n = Z.min (ri_length i - co_used co) (Z.of_nat DATA)) by congruence. assert (0 < n <= ri_length i - co_used co) by (wire_unfold; lia).
  destruct (Z.ltb_spec MAX_RANGE (co_used co + n)); [lia|]. split; [|cbn [co_used]; lia].
  assert (Lt : length (take (Z.to_nat n) (p_data reply)) = Z.to_nat n) by (rewrite length_take, Ld; wire_unfold; lia). assert (Hroom : (Z.to_nat (co_used co) + Z.to_nat n <= length (co_bytes co))%nat) by (rewrite Hl; unfold RANGE_BYTES, MAX_RANGE in *; lia).
  split; cbn [co_request co_context co_info co_failed co_bytes co_used co_hashed]; try done.
  - rewrite length_write; [done|lia].
  - apply bytes_ok_write; [done|]. unfold bytes_ok in *. by apply Forall_take.
  - lia.
  - rewrite Hh. replace (Z.to_nat (co_used co + n)) with (Z.to_nat (co_used co) + length (take (Z.to_nat n) (p_data reply)))%nat by lia. rewrite write_prefix by lia. done.
Qed.

(** A send that answers like the service's replies. *)
Definition sends (send : Packet -> method Packet) : Prop := forall p, p_op p ∈ reading -> speaks reading (send p) Packet_valid.

Lemma collect_loop_speaks fuel send co r context i : sends send -> collecting co r context i -> (Z.to_nat (ri_length i - co_used co) < fuel)%nat ->
  speaks reading (collect_loop fuel send co) (fun co' => collecting co' r context i /\ co_used co' = ri_length i).
Proof.
  intros Hs. revert co. induction fuel as [|fuel IH]; intros co Hg Hf; [lia|]. cbn [collect_loop]. eapply speaks_let; [apply speaks_answer, (Collector_next_returns _ _ _ _ Hg)|]. intros [p|] Hp; [|by apply speaks_answer].
  destruct Hp as (Hu & Ho & _). eapply speaks_let; [apply Hs; rewrite Ho; unfold reading; listed|]. intros reply Hv. pose proof (Collector_chunk_returns co r context i reply Hg Hv) as Hc.
  destruct (Collector_chunk co reply) as [[u|e|] co']; [|by apply (speaks_answer (Err e))|done].
  destruct Hc as (Hg' & Hlt). apply (speaks_ok u). apply IH; [done|lia].
Qed.

(** A range that was read: its information, and bytes with the digest it names. *)
Definition verified `{Digest} (r : ReadRequest) (v : VerifiedRange) : Prop :=
  described r (vr_info v) /\ 0 <= ri_length (vr_info v) /\ length (vr_buffer v) = RANGE_BYTES /\ bytes_ok (vr_buffer v) /\ sha256 (Verified_bytes v) = ri_sha256 (vr_info v).

Lemma collect_range_speaks `{Digest} context r send : sends send -> speaks reading (collect_range context r send) (verified r).
Proof.
  intros Hs. unfold collect_range. destruct (Collector_new r context) as [co|e|] eqn:En; [|by apply (speaks_answer (Err e))|by pose proof (Collector_new_returns r context) as Hn; rewrite En in Hn].
  apply (speaks_ok co). eapply speaks_let; [apply speaks_answer, ReadRequest_packet_returns|]. intros p [Hp _].
  eapply speaks_let; [apply Hs; rewrite Hp; unfold reading; listed|]. intros reply Hv. pose proof (Collector_open_returns r context reply Hv co En) as Ho.
  destruct (Collector_open co reply) as [[u|e|] co1]; [|by apply (speaks_answer (Err e))|done]. destruct Ho as (i & Hg).
  apply (speaks_ok u). destruct (described_bounds r i (cg_described _ _ _ _ Hg)) as (Hb & _).
  eapply speaks_let; [apply (collect_loop_speaks (S RANGE_BYTES) send co1 r context i Hs Hg); unfold RANGE_BYTES, MAX_RANGE in *; destruct (cg_used _ _ _ _ Hg); lia|].
  intros co2 [[Hr Hc Hi Hf Hd Hl Hb2 (Hu0 & _) Hh] Hu]. apply speaks_answer. unfold Collector_finish. rewrite Hi, Hf. destruct (_ || _) eqn:G; [done|]. bools.
  split; [done|]. cbn [vr_info vr_buffer]. split; [lia|]. split; [done|]. split; [done|]. unfold Verified_bytes. cbn [vr_info vr_buffer]. rewrite <- Hu, <- Hh. done.
Qed.

(** What [read_into] leaves: verified bytes over zeros, or zeros. *)
Definition read_result `{Digest} (r : ReadRequest) (size : nat) (res : outcome FileError ReadInfo) (out : list Z) : Prop :=
  match res with
  | Ok i => described r i /\ 0 <= ri_length i <= Z.of_nat size /\ length out = size /\ bytes_ok out /\ sha256 (take (Z.to_nat (ri_length i)) out) = ri_sha256 i /\
      drop (Z.to_nat (ri_length i)) out = zeros (size - Z.to_nat (ri_length i))
  | Err _ => out = zeros size
  | Panic => False
  end.

Lemma read_into_wp `{Digest} r context out send w (Q : outcome FileError ReadInfo * list Z -> Wire -> Prop) : sends send ->
  (forall res o w', extends reading w w' -> read_result r (length out) res o -> Q (res, o) w') -> wp (read_into r context out send) w Q.
Proof.
  intros Hs HQ. unfold read_into. assert (Ho : length (zeros (length out)) = length out) by apply length_zeros.
  assert (T : ReadRequest_validate r <> Panic) by (unfold ReadRequest_validate; no_panic). destruct (ReadRequest_validate r) as [[]|e|]; [|by apply HQ|done]. rewrite Ho.
  destruct (_ || _) eqn:G2; [by apply HQ|]. bools. apply wp_then, collect_range_speaks; [done|]. intros v w' E Hv. destruct v as [v|e|]; [|by apply HQ|done].
  destruct Hv as (Hd & Hnn & Hl & Hb & Hsha). destruct (described_bounds r _ Hd) as (Hm & _). destruct (Z.ltb_spec (Z.of_nat (length out)) (ri_length (vr_info v))); [lia|]. apply HQ; [done|].
  assert (Lv : length (Verified_bytes v) = Z.to_nat (ri_length (vr_info v))) by (unfold Verified_bytes; rewrite length_take, Hl; unfold RANGE_BYTES, MAX_RANGE in *; lia).
  split; [done|]. split; [lia|]. split; [rewrite length_write; [done|lia]|]. split; [apply bytes_ok_write; [apply bytes_ok_zeros|]; unfold Verified_bytes, bytes_ok in *; by apply Forall_take|].
  unfold write. rewrite take_0. cbn [app Nat.add]. rewrite <- Lv, take_app_length, drop_app_length. split; [done|]. unfold zeros. by rewrite drop_replicate.
Qed.

Lemma observation_sends c : sends (observation c).
Proof. intros p Hp. eapply speaks_mono; [by apply observation_speaks|]. intros q Hq. apply Hq. Qed.

(** ** Pollable reads

    The reads an application polls (crates/sdk/src/files/range/operation.rs and
    mod.rs): however often a read is polled, over any peer, it never panics, holds
    its reservation of the client exactly until it is over, and delivers only
    bytes that were verified. *)
Section Polled.
Context {HD : Digest}.
Variable r : ReadRequest.

(** The collector while a request of kind [op] is to be answered. *)
Definition expecting (op context : Z) (co : Collector) : Prop :=
  (op = READ_OPEN /\ Collector_new r context = Ok co) \/ (op = READ_CHUNK /\ exists i, collecting co r context i).

Definition read_ok (o : RangeRead) : Prop :=
  match rg_stage o with
  | StageSend p => rg_verified o = None /\ exists co, rg_collector o = Some co /\ expecting (p_op p) (rg_context o) co
  | StageReceive op => rg_verified o = None /\ exists co, rg_collector o = Some co /\ expecting op (rg_context o) co
  | StageComplete => exists v, rg_verified o = Some v /\ verified r v
  | StageFailed _ => rg_verified o = None
  end.

(** The reservation is this read's until it is over, and released then. *)
Definition held (o : RangeRead) (c : SdkClient) : Prop := if finished (rg_stage o) then sc_range c = None else sc_range c = Some (rg_id o).

(** A step: the read stays well formed, and the client changes only in its transport. *)
Definition stepped (o : RangeRead) (c : SdkClient) (res : outcome FileError RangeProgress) (o' : RangeRead) (c' : SdkClient) : Prop :=
  read_ok o' /\ rg_id o' = rg_id o /\ rg_token o' = rg_token o /\ rg_context o' = rg_context o /\ sc_range c' = sc_range c /\ sc_token c' = sc_token c /\ sc_context c' = sc_context c /\
  match res with
  | Ok RangeComplete => rg_stage o' = StageComplete
  | Ok RangePending => finished (rg_stage o') = false
  | Err e => rg_stage o' = StageFailed e \/ (e = FBusy /\ o' = o)
  | Panic => False
  end.

Lemma failed_step o o1 c c' e : rg_id o1 = rg_id o -> rg_token o1 = rg_token o -> rg_context o1 = rg_context o ->
  sc_range c' = sc_range c -> sc_token c' = sc_token c -> sc_context c' = sc_context c -> let '(res, o') := RangeRead_fail o1 e in stepped o c res o' c'.
Proof. intros. cbn. unfold stepped, read_ok. cbn. repeat (split; [done|]). by left. Qed.

Lemma rpc_begin_wp c p w (Q : outcome SdkError unit * SdkClient -> Wire -> Prop) :
  (forall res pending failed w', res <> Panic -> Q (res, with_rpc c pending failed) w') -> wp (rpc_begin c p) w Q.
Proof.
  intros HQ. unfold rpc_begin. apply wp_then, wp_ask; [done|]. intros x w' [-> Hx]. cbn [wp]. destruct x as [u|e|]; [by apply HQ| |done].
  destruct (backpressure e); [|by apply HQ]. replace c with (with_rpc c (sc_rpc_pending c) (sc_rpc_failed c)) at 1 by (by destruct c). by apply HQ.
Qed.

Lemma rpc_poll_wp c w (Q : outcome SdkError (option RpcMessage) * SdkClient -> Wire -> Prop) :
  (forall res pending failed w', match res with Ok (Some m) => bytes_ok (rm_payload m) | Panic => False | _ => True end -> Q (res, with_rpc c pending failed) w') -> wp (rpc_poll c) w Q.
Proof.
  intros HQ. unfold rpc_poll. apply wp_then, wp_ask; [done|]. intros x w' [-> Hx]. cbn [wp]. destruct x as [[m|]|e|]; cbn in Hx; [by apply HQ| |by apply HQ|done].
  replace c with (with_rpc c (sc_rpc_pending c) (sc_rpc_failed c)) at 1 by (by destruct c). by apply HQ.
Qed.

(** The client's own fields, which a transport call leaves alone. *)
Definition same_binding (c c' : SdkClient) : Prop := sc_range c' = sc_range c /\ sc_token c' = sc_token c /\ sc_context c' = sc_context c.

Lemma transport_send_wp c p w (Q : outcome FileError unit * SdkClient -> Wire -> Prop) :
  (forall res c' w', same_binding c c' -> res <> Panic -> Q (res, c') w') -> wp (transport_send c p) w Q.
Proof.
  intros HQ. unfold transport_send. pose proof (require_binding_returns c) as Hb. destruct (require_binding c) as [[]|e|]; [|by apply HQ|done]. destruct (sc_range c) as [id|] eqn:Er; [|by apply HQ].
  destruct (_ || _); [by apply HQ|]. apply wp_then, rpc_begin_wp. intros res pending failed w' Hr. destruct res as [u|e|]; cbn [wp]; [by apply HQ| |done]. by destruct (backpressure e); apply HQ.
Qed.

Lemma transport_receive_wp c context w (Q : outcome FileError (option Packet) * SdkClient -> Wire -> Prop) :
  (forall res c' w', same_binding c c' -> returns (fun x => match x with Some p => Packet_valid p | None => True end) res -> Q (res, c') w') -> wp (transport_receive c context) w Q.
Proof.
  intros HQ. unfold transport_receive. destruct (sc_range c) as [id|] eqn:Er; [|by apply HQ]. destruct (_ || _); [by apply HQ|]. apply wp_then, rpc_poll_wp. intros res pending failed w' Hr.
  destruct res as [[m|]|e|]; cbn [wp]; [|by apply HQ|by apply HQ|done]. apply HQ; [done|]. pose proof (Packet_decode_returns _ Hr) as Hd. by destruct (Packet_decode _).
Qed.

Lemma take_reply_step o c c' op reply : rg_stage o = StageReceive op -> read_ok o -> Packet_valid reply -> same_binding c c' ->
  let '(res, o') := take_reply o op reply in stepped o c res o' c'.
Proof.
  intros Hs Ho Hv (H1 & H2 & H3). unfold read_ok in Ho. rewrite Hs in Ho. destruct Ho as (Hn & co & Hco & He). unfold take_reply. rewrite Hco.
  pose proof (checked_reply_returns reply op (rg_context o) Hv) as Hc. destruct (checked_reply reply op (rg_context o)) as [q|e|]; [|by apply failed_step|done]. destruct Hc as [-> _].
  assert (Hcol : match (if op =? READ_OPEN then Collector_open co reply else Collector_chunk co reply) with (Ok _, co') => exists i, collecting co' r (rg_context o) i | (Err _, _) => True | (Panic, _) => False end).
  { destruct He as [[-> En]|[-> (i & Hg)]]; cbn [Z.eqb READ_OPEN READ_CHUNK Pos.eqb]; [by apply Collector_open_returns|]. pose proof (Collector_chunk_returns co r (rg_context o) i reply Hg Hv) as H.
    destruct (Collector_chunk co reply) as [[u|e|] co']; [exists i; by destruct H|done..]. }
  destruct (if op =? READ_OPEN then _ else _) as [[u|e|] co']; [|by apply failed_step|done]. destruct Hcol as (i & Hg).
  pose proof (Collector_next_returns co' r (rg_context o) i Hg) as Hnx. destruct (Collector_next co') as [[p|]|e|]; [| |by apply failed_step|done].
  - unfold stepped, read_ok. cbn. repeat (split; [first [done|split; [done|]; exists co'; split; [done|]; right; split; [apply Hnx|by exists i]]|]). done.
  - destruct (Collector_finish co') as [v|e|] eqn:Ef; [| |unfold Collector_finish in Ef; destruct (co_info co'); [destruct (_ || _)|]; done].
    + assert (verified r v). { pose proof Hg as [Hr Hc Hi Hf Hd Hl Hb (Hu0 & _) Hh]. unfold Collector_finish in Ef. rewrite Hi, Hf in Ef. destruct (_ || _) eqn:G in Ef; [done|]. bools. injection Ef as <-.
        split; [done|]. cbn [vr_info vr_buffer]. split; [lia|]. split; [done|]. split; [done|]. unfold Verified_bytes. cbn [vr_info vr_buffer]. rewrite <- Hnx, <- Hh. done. }
      unfold stepped, read_ok. cbn. repeat (split; [first [done|by exists v]|]). done.
    + unfold stepped, read_ok. cbn. repeat (split; [done|]). by left.
Qed.

Lemma same_refl c : same_binding c c.
Proof. done. Qed.

Lemma RangeRead_step_wp o c w (Q : outcome FileError RangeProgress * (RangeRead * SdkClient) -> Wire -> Prop) : read_ok o ->
  (forall res o' c' w', stepped o c res o' c' -> Q (res, (o', c')) w') -> wp (RangeRead_step o c) w Q.
Proof.
  intros Ho HQ. assert (Hfail : forall c' e w', same_binding c c' -> let '(res, o') := RangeRead_fail o e in Q (res, (o', c')) w').
  { intros c' e w' (? & ? & ?). pose proof (failed_step o o c c' e eq_refl eq_refl eq_refl) as Hfs. cbn in *. apply HQ. by apply Hfs. }
  unfold RangeRead_step. destruct (rg_stage o) as [p|op| |e] eqn:Es.
  - destruct (negb _); [apply (Hfail c FUnavailable w (same_refl c))|]. apply wp_then, transport_send_wp. intros res c' w' Hc Hr. destruct res as [u|e|]; cbn [wp]; [| |done].
    + apply HQ. pose proof Hc as (? & ? & ?). unfold read_ok in Ho. rewrite Es in Ho. unfold stepped, read_ok. cbn. by repeat (split; [done|]).
    + assert (Hbusy : Q (Err FBusy, (o, c')) w') by (apply HQ; pose proof Hc as (? & ? & ?); unfold stepped; repeat (split; [done|]); by right).
      destruct e; first [exact Hbusy|apply (Hfail c' _ w' Hc)].
  - destruct (negb _); [apply (Hfail c FUnavailable w (same_refl c))|]. apply wp_then, transport_receive_wp. intros res c' w' Hc Hr. destruct res as [[reply|]|e|]; cbn [wp]; [| |apply (Hfail c' e w' Hc)|done].
    + pose proof (take_reply_step o c c' op reply Es Ho Hr Hc) as H. destruct (take_reply o op reply) as [res o']. by apply HQ.
    + apply HQ. pose proof Hc as (? & ? & ?). unfold stepped. repeat (split; [done|]). by rewrite Es.
  - apply HQ. unfold stepped. repeat (split; [done|]). done.
  - apply HQ. unfold stepped. repeat (split; [done|]). by left.
Qed.

Lemma poll_range_wp o c w (Q : outcome FileError RangeProgress * (RangeRead * SdkClient) -> Wire -> Prop) : read_ok o -> held o c -> rg_token o = sc_token c -> rg_context o = sc_context c ->
  (forall res o' c' w', read_ok o' -> held o' c' -> rg_id o' = rg_id o -> rg_token o' = sc_token c' -> rg_context o' = sc_context c' ->
     match res with Ok RangeComplete => rg_stage o' = StageComplete | Ok RangePending => finished (rg_stage o') = false | Err e => rg_stage o' = StageFailed e \/ (e = FBusy /\ o' = o) | Panic => False end ->
     Q (res, (o', c')) w') -> wp (poll_range o c) w Q.
Proof.
  intros Ho Hh Ht Hx HQ. unfold poll_range. assert (Hover : forall res, finished (rg_stage o) = true ->
    match res with Ok RangeComplete => rg_stage o = StageComplete | Ok RangePending => finished (rg_stage o) = false | Err e => rg_stage o = StageFailed e \/ (e = FBusy /\ o = o) | Panic => False end -> Q (res, (o, c)) w)
    by (intros res Hf Hres; by apply HQ).
  assert (Hstep : finished (rg_stage o) = false -> wp (if negb (reserved o c) then let '(r, o) := RangeRead_fail o FUnavailable in Ret (r, (o, c)) else
      bind (RangeRead_step o c) (fun '(r, (o, c)) => Ret (r, (o, if finished (rg_stage o) && bool_decide (sc_range c = Some (rg_id o)) then with_range c None (sc_next_range c) else c)))) w Q).
  { intros Hf. assert (Hr : reserved o c = true). { unfold reserved, held in *. rewrite Hf in Hh. by rewrite Ht, Hx, Hh, !Z.eqb_refl, bool_decide_eq_true_2. }
    rewrite Hr. cbn [negb]. apply wp_then, RangeRead_step_wp; [done|]. intros res o' c' w' (Ho' & Hi & Ht' & Hx' & Hr' & Ht2 & Hx2 & Hres). cbn [wp].
    unfold held in Hh. rewrite Hf in Hh. destruct (finished (rg_stage o')) eqn:Ef; cbn [andb].
    - rewrite bool_decide_eq_true_2 by congruence. apply HQ; [done|unfold held; by rewrite Ef|done|cbn; congruence|cbn; congruence|by rewrite Ef].
    - apply HQ; [done|unfold held; rewrite Ef; congruence|done|congruence|congruence|by rewrite Ef]. }
  destruct (rg_stage o) as [p|op| |e] eqn:Es; [by apply Hstep..|by apply Hover|apply Hover; [done|by left]].
Qed.

Lemma begin_read_ok c o c' : begin_read_range c r = Ok (o, c') -> read_ok o /\ held o c' /\ rg_token o = sc_token c' /\ rg_context o = sc_context c'.
Proof.
  intros H. unfold begin_read_range in H. destruct (require_binding c) as [[]| |]; [|done..]. destruct (occupied c); [done|]. destruct (sc_next_range c =? 0); [done|].
  unfold RangeRead_new in H. destruct (_ || _); [done|]. destruct (Collector_new r (sc_context c)) as [co| |] eqn:Ec; [|done..].
  pose proof (ReadRequest_packet_returns r READ_OPEN (sc_context c)) as Hp. destruct (ReadRequest_packet r READ_OPEN (sc_context c)) as [p| |]; [|done..]. injection H as <- <-. destruct Hp as [Hp _].
  split; [|done]. unfold read_ok. cbn. split; [done|]. exists co. split; [done|]. left. done.
Qed.

(** Polling any number of times. *)
Fixpoint poll_many (n : nat) (o : RangeRead) (c : SdkClient) : prog RpcCall (RangeRead * SdkClient) :=
  match n with O => Ret (o, c) | S n => bind (poll_range o c) (fun '(_, (o, c)) => poll_many n o c) end.

Lemma poll_many_wp n o c w : read_ok o -> held o c -> rg_token o = sc_token c -> rg_context o = sc_context c ->
  wp (poll_many n o c) w (fun '(o', c') _ => read_ok o' /\ held o' c' /\ rg_id o' = rg_id o).
Proof.
  revert o c w. induction n as [|n IH]; intros o c w Ho Hh Ht Hx; cbn [poll_many]; [done|]. apply wp_then, poll_range_wp; [done..|]. intros res o' c' w' Ho' Hh' Hi Ht' Hx' _. rewrite <- Hi. by apply IH.
Qed.
End Polled.
