(* ===== verification/SdkService.v ===== *)
(** * The file client against the file service

    The client of crates/sdk and the server of crates/file-service joined by a
    transport that may lose any request or any reply, with other clients served
    in between.  Whatever is lost, a replacement that returns a receipt published
    exactly the caller's bytes, and one that fails with anything but [Uncertain]
    changed no file. *)
From stdpp Require Import base list option numbers.
From Stdlib Require Import ZArith Lia Bool.
From S2P Require Import Prelude Bytes Codec Ipc AbiFiles AbiIdentity AbiMessages AbiReceipts AbiAdmission AbiServices FsDisk FsVolume FsPublication FsTree FsInvariant FsReach FsCalls FsSpec SvcClients SvcServer SvcDispatch SvcClientsFacts SvcReplies SvcEffect SvcServe SvcCommit SvcSession Interact SdkFiles SdkPromise.

(** ** The client's packets are valid frames *)
Lemma write_zero (l : list Z) n : (length l <= n)%nat -> write (zeros n) 0 l = l ++ zeros (n - length l).
Proof. intros H. unfold write, zeros. by rewrite take_0, drop_replicate. Qed.

Lemma bare_valid op id context : fits 8 op -> known_op op = true -> fits 32 id -> fits 32 context -> Packet_valid (with_context (bare op id 0 0) context).
Proof. intros. apply packet_frame; try done; try (unfold fits; lia). apply bytes_ok_zeros. Qed.

Lemma carrying_valid op id arg context b : fits 8 op -> known_op op = true -> fits 32 id -> fits 32 arg -> fits 32 context -> bytes_ok b -> (length b <= 40)%nat ->
  let p := with_context (carrying op id arg 0 b) context in Packet_valid p /\ Packet_payload p = b.
Proof.
  intros F1 K F2 F3 F4 B L. unfold carrying, with_context. cbn [p_op p_status p_count p_id p_arg p_version p_data]. assert (E : write (zeros DATA) 0 b = b ++ zeros (DATA - length b)) by (apply write_zero; wire_unfold; lia).
  rewrite E. split.
  - apply packet_frame; [done|done|lia|done|done|done|by vm_compute| |apply list.Forall_app; split; [done|apply bytes_ok_zeros]|].
    + unfold zeros. rewrite length_app, length_replicate. wire_unfold. lia.
    + rewrite Nat2Z.id, drop_app_length. apply all_zero_zeros.
  - unfold Packet_payload. cbn [p_count p_data]. rewrite Nat2Z.id, Nat.min_l by (wire_unfold; lia). apply take_app_length.
Qed.

Lemma same_context p context : p_context p = context -> with_context p context = p.
Proof. intros <-. by destruct p. Qed.

Lemma opening_valid r size context p : replacement_ok r -> 0 <= size <= 1024 -> fits 32 context -> Replacement_packet r size context = Ok p ->
  Packet_valid p /\ p_op p = REPLACE_OPEN /\ p_context p = context /\ Replacement_decode p = Ok r.
Proof.
  intros Hr Hs Hc E. destruct (msg_round _ _ _ Replacement_message REPLACE_OPEN context (r, size)) as (q & Eq & Hv & Ho & Hx & Hd); [split; [by left|done]|done|]. cbn [fst snd] in Eq. rewrite E in Eq. injection Eq as <-.
  assert (Et : retag REPLACE_OPEN p = p). { unfold Replacement_packet in E. destruct (negb _); [done|]. destruct (_ <? _); [done|]. by injection E as <-. }
  rewrite Et in *. do 3 (split; [done|]). destruct (Replacement_decode p) as [x| |]; [|done..]. by injection Hd as <- _.
Qed.

Lemma part_valid id context arg : lineage_ok (oi_lineage id) -> number_ok (oi_sequence id) -> fits 32 context -> fits 32 arg ->
  Packet_valid (with_context (with_arg (with_op (Lookup_packet (LookupId id) context) OPERATION_PART) arg) context).
Proof.
  intros Hl Hn Hc Ha. destruct (Lookup_round (LookupId id) context OPERATION_PART arg (conj Hl Hn) (or_intror eq_refl) ltac:(done)) as (L & B & Hz & F1 & F2 & _).
  apply packet_frame; try done; cbn; lia.
Qed.

(** ** The parts of a transfer *)
Lemma chunks_from_spec fuel i b : bytes_ok b -> (length b <= fuel)%nat -> concat (snd <$> chunks_from fuel i b) = b /\
  Forall (fun x => x.2 <> [] /\ (length x.2 <= 40)%nat /\ 0 <= x.1 < Z.of_nat (i * 40 + length b) /\ bytes_ok x.2) (chunks_from fuel i b).
Proof.
  revert i b. induction fuel as [|fuel IH]; intros i b Hb Hf; [destruct b; [by split|cbn in Hf; lia]|]. cbn [chunks_from]. destruct b as [|x b]; [by split|]. set (l := x :: b) in *.
  assert (0 < length l)%nat by (cbn; lia). assert (Hd : length (drop DATA l) = (length l - 40)%nat) by (rewrite length_drop; wire_unfold; lia).
  destruct (IH (S i) (drop DATA l)) as [Ec Hall]; [by apply Forall_drop|lia|]. rewrite fmap_cons. cbn [concat snd]. split; [rewrite Ec; apply take_drop|]. constructor.
  - cbn [fst snd]. split; [done|]. split; [rewrite length_take; wire_unfold; lia|]. split; [wire_unfold; lia|]. by apply Forall_take.
  - destruct (Nat.le_gt_cases (length l) 40). { rewrite drop_ge by (wire_unfold; lia). by destruct fuel. }
    eapply list.Forall_impl; [exact Hall|]. cbn beta. intros [o y] (H1 & H2 & H3 & H4). cbn [fst snd] in *. split; [done|]. split; [done|]. split; [lia|done].
Qed.

(** ** The served world *)
Section Served.
Context {D Ow : Type} {HD : Disk D} {HV : DiskView D} {HW : ViewLaws D} {HL : DiskLaws D} {HS : Digest} {HSL : DigestLaws}.
Implicit Types st : Service D Ow.
Variables (slot : nat) (peer : Z).

(** What is served to others between two requests of this client: it keeps the
    service sound and does not fill this client's transfer. *)
Variable others : Service D Ow -> Service D Ow -> Prop.
Hypothesis others_ok : forall st st', service_ok st -> others st st' -> service_ok st'.
Hypothesis others_apart : forall st st' s, others st st' -> owns (s_clients st') slot s -> owns (s_clients st) slot s.

(** The service, and the files before and after each request of this client. *)
Record Session := mkSession { ss_service : Service D Ow; ss_steps : list ((Volume * D) * (Volume * D)) }.

Definition delivered (w : Session) (p : Packet) (reply : Packet) (w' : Session) : Prop :=
  exists st now st', others (ss_service w) st /\ Server_handle slot peer p now st = Some (Ok reply, st') /\
    w' = mkSession st' (ss_steps w ++ [(world st, world st')]).

(** A request is lost, or served once and answered, or served and its answer lost. *)
#[local] Instance served_world : World RpcCall Session := {|
  permits := fun _ _ => True;
  answers := fun w c => match c return reply c -> Session -> Prop with
    | RpcExchange b => fun r w' =>
        (w' = w /\ exists e, r = Err e) \/
        exists p reply, Packet_decode b = Ok p /\ delivered w p reply w' /\ ((exists sender, r = Ok (mkRpcMessage sender (Packet_encode reply))) \/ exists e, r = Err e)
    | RpcBegin _ => fun _ w' => w' = w
    | RpcPoll => fun _ w' => w' = w
    end |}.

(** What the client learns of a delivered request. *)
Definition learnt (op : Z) (reply : Packet) (res : outcome FileError Packet) : Prop :=
  (p_status reply = 0 /\ res = Ok reply) \/ exists e, res = Err e /\ (durable_operation op = true -> e = FUncertain \/ FileError_parse (p_status reply) = Err e).

Lemma operation_exchange_served c p w (Q : outcome FileError Packet -> Session -> Prop) : service_ok (ss_service w) -> Packet_valid (with_context p (sc_context c)) ->
  (forall e, Q (Err e) w) ->
  (forall reply w' res, delivered w (with_context p (sc_context c)) reply w' -> service_ok (ss_service w') -> Packet_valid reply -> learnt (p_op p) reply res -> Q res w') ->
  wp (operation_exchange c p) w Q.
Proof.
  intros Hok Hv Hn HQ. unfold operation_exchange. apply wp_let. unfold exchange. apply wp_let. cbn [wp answer]. pose proof (require_binding_returns c) as Hb.
  destruct (require_binding c) as [[]|e|]; [|by apply Hn|done]. destruct (occupied c); [by apply Hn|]. apply wp_map_error, wp_ask; [done|]. cbn [p_op p_context with_context].
  intros r w' [[-> [e ->]]|(q & reply & Eq & Hd & Hr)]; [by apply Hn|]. rewrite Packet_round in Eq by done. injection Eq as <-. pose proof Hd as (st & now & st' & Ho & Es & Ew).
  destruct (handle_total st slot peer (with_context p (sc_context c)) now (others_ok _ _ Hok Ho) Hv) as (x & st2 & E2 & [Vx Cx] & Hok2 & _). rewrite E2 in Es. injection Es as -> ->.
  assert (Hs : service_ok (ss_service w')) by (by rewrite Ew). destruct Hr as [[sender ->]|[e ->]].
  - cbn [map_err wp answer rm_payload]. rewrite Packet_round by done. cbn [p_op p_context with_context] in Cx. rewrite Cx. apply (HQ reply); [done|done|done|].
    pose proof (FileError_parse_returns (p_status reply)) as Hp. destruct (FileError_parse (p_status reply)) as [[]|e|] eqn:Ep; cbn [map_err]; [by left|right|done].
    eexists. split; [reflexivity|]. intros Hdur. rewrite Hdur. cbn [andb]. destruct (decide (e = FProtocol)) as [->|Hne]; [by left|right]. by rewrite bool_decide_eq_false_2, Ep.
  - cbn [map_err wp answer]. apply (HQ reply); [done|done|done|]. right. eexists. split; [reflexivity|]. intros ->. by left.
Qed.

(** ** Steps that change no file *)
Definition still (w w' : Session) : Prop := exists steps, ss_steps w' = ss_steps w ++ steps /\ Forall (fun s => s.2 = s.1) steps.
#[local] Instance still_preorder : PreOrder still.
Proof.
  split; [intros w; exists []; by rewrite app_nil_r|]. intros a b c (x & Ex & Hx) (y & Ey & Hy). exists (x ++ y). rewrite Ey, Ex, app_assoc. split; [done|]. by apply list.Forall_app.
Qed.

Lemma still_step w p reply w' : delivered w p reply w' -> (forall st now st', Server_handle slot peer p now st = Some (Ok reply, st') -> world st' = world st) -> still w w'.
Proof. intros (st & now & st' & _ & E & ->) H. exists [(world st, world st')]. split; [done|]. apply list.Forall_singleton. by eapply H. Qed.

Lemma staging_still p now st reply st' : p_op p ∈ [REPLACE_OPEN; REPLACE_CHUNK; REPLACE_ABORT] -> Server_handle slot peer p now st = Some (Ok reply, st') -> world st' = world st.
Proof. intros Ho E. by destruct (handle_staging _ _ _ _ _ _ _ Ho E) as [(t & _ & ->)|[-> _]]. Qed.

Lemma query_still p now st reply st' : p_op p ∈ [OPERATION_PART; OPERATION_RETRY; OPERATION_ID] -> Server_handle slot peer p now st = Some (Ok reply, st') -> world st' = world st.
Proof. intros Ho E. by rewrite (handle_query _ _ _ _ _ _ _ Ho E). Qed.

(** ** Filling a transfer *)
(** Whatever this client has staged is the transfer of [r], filled with [b]. *)
Definition filled (r : Replacement) (b : list Z) (w : Session) : Prop :=
  service_ok (ss_service w) /\ forall s, owns (s_clients (ss_service w)) slot s -> tf_logical s = Some r /\ staged_bytes s = b.

Lemma begun_only (c : Clients) p t s : Transfers_begin (cl_transfers c) slot p = Ok t -> owns (set_transfers c t) slot s ->
  exists l x, staged_logical p = Ok l /\ s = begun slot p l x.
Proof.
  intros E (k & Hk & Hs). unfold Transfers_begin in E. steps E. injection E as <-. apply list_lookup_insert_Some in Hk as [(_ & Hk & _)|[_ Hk]]; [injection Hk as <-; by eexists _, _|]. exfalso.
  apply not_true_iff_false in E1. apply E1, existsb_exists. exists s. split; [apply list_elem_of_In, elem_of_slots; by exists k|]. unfold owned_by. by rewrite Hs, Nat.eqb_refl.
Qed.

Lemma open_filled r w p reply w' : p_op p = REPLACE_OPEN -> Replacement_decode p = Ok r -> delivered w p reply w' -> service_ok (ss_service w') -> p_status reply = 0 -> filled r [] w'.
Proof.
  intros Ho Hd (st & now & st' & _ & E & ->) Hok Hz. split; [done|]. cbn [ss_service]. intros s Hs. apply handle_staging in E as [(t & Ht & ->)|[_ E]]; [|done|rewrite Ho; by left].
  destruct Ht as [[_ Ht]|[[Hx _]|[Hx _]]]; [|by rewrite Ho in Hx..]. destruct (begun_only _ _ _ _ Ht Hs) as (l & x & El & ->). unfold staged_logical in El. rewrite Ho, Hd in El. by injection El as <-.
Qed.

Lemma chunk_filled r b w p reply w' : p_op p = REPLACE_CHUNK -> Packet_valid p -> filled r b w -> delivered w p reply w' -> service_ok (ss_service w') -> p_status reply = 0 -> filled r (b ++ Packet_payload p) w'.
Proof.
  intros Ho Hv [Hw Hf] (st & now & st' & Hst & E & ->) Hok Hz. split; [done|]. cbn [ss_service] in *. intros s Hs. pose proof (others_ok _ _ Hw Hst) as Hok1.
  apply handle_staging in E as [(t & Ht & ->)|[_ E]]; [|done|rewrite Ho; by right; left]. destruct Ht as [[Hx _]|[[_ Ht]|[Hx _]]]; [by rewrite Ho in Hx| |by rewrite Ho in Hx].
  destruct (chunk_spec _ _ _ _ (sv_clients _ Hok1) Hv Ht) as (Hc & u & u' & Hu & Hu' & _ & _ & _ & _ & Eu & Es). cbn [s_clients set_clients] in Hs.
  assert (s = u') as -> by (eapply owns_unique; [exact Hc|exact Hs|exact Hu']). destruct (Hf u (others_apart _ _ _ Hst Hu)) as [Hl Hb]. rewrite Es, Hb. split; [|done]. by rewrite Eu.
Qed.

Lemma filled_still_ok r b w : filled r b w -> service_ok (ss_service w).
Proof. by intros [? _]. Qed.

Section Replacement.
Variables (c : SdkClient) (r : Replacement).
Hypothesis context_fits : fits 32 (sc_context c).
Hypothesis request_ok : replacement_ok r.

Lemma object_fits : fits 32 (rs_object (rp_resource r)).
Proof. by destruct request_ok as (_ & _ & _ & ? & _). Qed.

(** A staging request: an error, or its effect. *)
Lemma stage_chunks_served parts b w (Q : outcome FileError unit -> Session -> Prop) : filled r b w ->
  Forall (fun x => x.2 <> [] /\ (length x.2 <= 40)%nat /\ fits 32 x.1 /\ bytes_ok x.2) parts ->
  (forall res w', still w w' -> service_ok (ss_service w') -> res <> Panic -> (res = Ok tt -> filled r (b ++ concat (snd <$> parts)) w') -> Q res w') ->
  wp (stage_chunks c REPLACE_CHUNK (rs_object (rp_resource r)) parts) w Q.
Proof.
  revert b w. induction parts as [|[offset part] parts IH]; intros b w Hf Hp HQ; cbn [stage_chunks].
  - apply HQ; [reflexivity|by eapply filled_still_ok|done|]. cbn. by rewrite app_nil_r.
  - apply list.Forall_cons in Hp as [(Hne & Hl & Ho & Hb) Hp]. destruct (carrying_valid REPLACE_CHUNK (rs_object (rp_resource r)) offset (sc_context c) part ltac:(done) eq_refl object_fits Ho context_fits Hb Hl) as [Hv Ey].
    apply wp_let, operation_exchange_served; [by eapply filled_still_ok|exact Hv|intros e; apply HQ; [reflexivity|by eapply filled_still_ok|done|done]|].
    intros reply w1 res Hd Hok Hrv Hlearn. assert (S1 : still w w1) by (eapply still_step; [exact Hd|]; intros st now st'; apply staging_still; by right; left).
    destruct Hlearn as [[Hz ->]|(e & -> & _)]; [|by apply HQ].
    pose proof (chunk_filled r b w (with_context (carrying REPLACE_CHUNK (rs_object (rp_resource r)) offset 0 part) (sc_context c)) reply w1 eq_refl Hv Hf Hd Hok Hz) as Hf1. rewrite Ey in Hf1. apply wp_let. cbn [wp answer]. pose proof (empty_ack_returns reply) as Ha. destruct (empty_ack reply) as [[]|e|]; [|by apply HQ|done].
    apply (IH (b ++ part) w1); [exact Hf1|done|]. intros res w2 S2 Hok2 Hnp Hres. apply HQ; [by etransitivity|done|done|]. intros Hr. rewrite fmap_cons. cbn [concat snd]. rewrite app_assoc. by apply Hres.
Qed.

Lemma stage_profile_served b w (Q : outcome FileError unit -> Session -> Prop) : service_ok (ss_service w) -> bytes_ok b ->
  (forall res w', still w w' -> service_ok (ss_service w') -> res <> Panic -> (res = Ok tt -> filled r b w') -> Q res w') ->
  wp (stage_profile c r b false) w Q.
Proof.
  intros Hok Hb HQ. unfold stage_profile. apply wp_let. cbn [wp answer]. destruct (Replacement_packet r (Z.of_nat (length b)) (sc_context c)) as [p|e|] eqn:Ep; [| |by unfold Replacement_packet in Ep; repeat case_match].
  2: { by apply HQ. }
  assert (Hsize : 0 <= Z.of_nat (length b) <= 1024). { unfold Replacement_packet in Ep. destruct (negb _); [done|]. destruct (Z.ltb_spec 1024 (Z.of_nat (length b))); [done|lia]. }
  destruct (opening_valid r _ _ p request_ok Hsize context_fits Ep) as (Hv & Ho & Hc & Hdec). cbn [fst].
  apply wp_let, wp_let, operation_exchange_served; [done|by rewrite same_context|intros e; by apply HQ|]. rewrite same_context by done. intros reply w1 res Hd Hok1 Hrv Hlearn.
  assert (S1 : still w w1) by (eapply still_step; [exact Hd|]; intros st now st'; apply staging_still; rewrite Ho; by left).
  destruct Hlearn as [[Hz ->]|(e & -> & _)]; [|by apply HQ]. cbn [wp answer]. pose proof (empty_ack_returns reply) as Ha. destruct (empty_ack reply) as [[]|e|]; [|by apply HQ|done].
  pose proof (open_filled r w p reply w1 Ho Hdec Hd Hok1 Hz) as Hf. destruct (chunks_from_spec (length b) 0 b Hb ltac:(lia)) as [Ec Hall].
  apply wp_try, (stage_chunks_served _ [] w1 _ Hf); [eapply list.Forall_impl; [exact Hall|]; cbn beta; intros x (H1 & H2 & H3 & H4); split; [done|]; split; [done|]; split; [unfold fits; lia|done]|].
  intros res w2 S2 Hok2 Hnp Hres. assert (S3 : still w w2) by (by etransitivity). destruct res as [[]|e|]; [| |done].
  - apply HQ; [done|done|done|]. intros _. specialize (Hres eq_refl). cbn [app] in Hres. unfold chunks in Hres. by rewrite Ec in Hres.
  - apply wp_then, operation_exchange_served; [done|apply bare_valid; try done; apply object_fits|intros e'; by apply HQ|].
    intros reply' w3 res Hd' Hok3 _ _. apply HQ; [|done|done|done]. etransitivity; [exact S3|]. eapply still_step; [exact Hd'|]. intros st now st'. apply staging_still. by right; right; left.
Qed.

(** The receipt is read without touching the service. *)
Lemma collect_operation_served first lineage w (Q : outcome FileError FileOperation -> Session -> Prop) : service_ok (ss_service w) -> lineage_ok lineage -> fits 64 (p_version first) ->
  (forall res w', still w w' -> service_ok (ss_service w') -> res <> Panic -> Q res w') -> wp (collect_operation c first lineage) w Q.
Proof.
  intros Hok Hl Hf HQ. unfold collect_operation, collect_receipt. apply wp_let. cbn [wp answer]. unfold OperationId_new. destruct (_ || _) eqn:G; cbn [map_err]; [by apply HQ|]. bools.
  assert (Hn : number_ok (p_version first)) by done. set (id := mkOperationId lineage (p_version first)).
  assert (Hv : forall arg, fits 32 arg -> Packet_valid (with_context (with_arg (with_op (Lookup_packet (LookupId id) (sc_context c)) OPERATION_PART) arg) (sc_context c))) by (intros arg Ha; by apply part_valid).
  assert (Hs : forall arg w1 reply w2, delivered w1 (with_context (with_arg (with_op (Lookup_packet (LookupId id) (sc_context c)) OPERATION_PART) arg) (sc_context c)) reply w2 -> still w1 w2).
  { intros arg w1 reply w2 Hd. eapply still_step; [exact Hd|]. intros st now st'. apply query_still. by left. }
  apply wp_let. cbn [wp answer]. pose proof (receipt_part_returns id first 0 (zeros RECEIPT_BYTES)) as Hpart0. destruct (receipt_part id first 0 _) as [b0|e|]; [|by apply HQ|done].
  apply wp_let, operation_exchange_served; [done|by apply Hv|intros e; by apply HQ|]. intros p1 w1 res Hd1 Hok1 _ Hlearn. apply Hs in Hd1. destruct Hlearn as [[_ ->]|(e & -> & _)]; [|by apply HQ].
  apply wp_let. cbn [wp answer]. pose proof (receipt_part_returns id p1 40 b0) as Hpart1. destruct (receipt_part id p1 40 b0) as [b1|e|]; [|by apply HQ|done].
  apply wp_let, operation_exchange_served; [done|by apply Hv|intros e; by apply HQ|]. intros p2 w2 res Hd2 Hok2 _ Hlearn. apply Hs in Hd2. assert (S2 : still w w2) by (by etransitivity). destruct Hlearn as [[_ ->]|(e & -> & _)]; [|by apply HQ].
  apply wp_let. cbn [wp answer]. pose proof (receipt_part_returns id p2 80 b1) as Hpart2. destruct (receipt_part id p2 80 b1) as [b2|e|]; [|by apply HQ|done].
  pose proof (FileOperation_decode_returns b2) as Hdec. destruct (FileOperation_decode b2) as [o|e|]; [|by apply HQ|done]. by destruct (negb _); apply HQ.
Qed.

(** What a commit leaves when it published [b] for [r], or had done so before: the
    request's key names exactly this replacement, and either it already did and
    nothing changed, or it named nothing, the object was at the version [r]
    expects, and it now holds [b]. *)
Definition installed (b : list Z) (w0 w1 : Volume * D) : Prop := exists subject receipt,
  remembered (w1.1) subject (stored_replacement r) b receipt /\
  ((remembered (w0.1) subject (stored_replacement r) b receipt /\ w1 = w0) \/
   (unanswered (w0.1) (w0.2) subject (stored_replacement r) /\
    forall id, shows w1 id = spec_replace (shows w0) (rs_object (rp_resource r)) (Volume_sequence (w0.1) + 1) b id)).

(** One request of the call changed what [f] says; the others changed no file. *)
Definition one_step (w w' : Session) (f : Volume * D -> Volume * D -> Prop) : Prop :=
  exists w1 s w2, still w w1 /\ ss_steps w2 = ss_steps w1 ++ [s] /\ still w2 w' /\ f (s.1) (s.2).

Definition replaced (b : list Z) (w : Session) (res : outcome FileError FileOperation) (w' : Session) : Prop :=
  match res with
  | Ok o => receipt_agrees r (Z.of_nat (length b)) (sha256 b) o = true /\ one_step w w' (installed b)
  | Err e => still w w' \/ one_step w w' (fun w0 w1 => e <> FUncertain -> effect nothing w0 w1)
  | Panic => False
  end.

Lemma committed_installed b w st st' commit : filled r b w -> others (ss_service w) st -> p_id commit = rs_object (rp_resource r) -> committed st slot peer commit st' -> installed b (world st) (world st').
Proof.
  intros [_ Hf] Hst Hid (s & q & t & g & receipt & Ho & Hl & _ & _ & _ & _ & _ & Hrem & H). destruct (Hf s (others_apart _ _ _ Hst Ho)) as [Hl' Hb]. rewrite Hl in Hl'. injection Hl' as ->.
  rewrite Hb in H, Hrem. exists (fg_subject g), receipt. split; [done|]. destruct H as [?|(? & _ & H)]; [by left|right]. split; [done|]. intros id. by rewrite H, Hid.
Qed.

Lemma replace_file_served b w (Q : outcome FileError FileOperation -> Session -> Prop) : service_ok (ss_service w) -> bytes_ok b ->
  (forall res w', service_ok (ss_service w') -> replaced b w res w' -> Q res w') -> wp (replace_file c r b) w Q.
Proof.
  intros Hok Hb HQ. unfold replace_file. apply wp_let, stage_profile_served; [done|done|]. intros res w1 S1 Hok1 Hnp Hf. destruct res as [[]|e|]; [|apply HQ; [done|by left]|done]. specialize (Hf eq_refl).
  set (commit := bare REPLACE_COMMIT (rs_object (rp_resource r)) 0 0). assert (Hv : Packet_valid (with_context commit (sc_context c))) by (apply bare_valid; try done; apply object_fits).
  apply wp_let, operation_exchange_served; [done|done|intros e; apply HQ; [done|by left]|]. intros reply w2 res (st & now & st' & Hst & E & ->) Hok2 Hrv Hlearn. cbn [ss_service] in Hok2.
  set (w2 := mkSession _ _) in *. pose proof (others_ok _ _ Hok1 Hst) as Hst1.
  assert (Hone : forall w3 (f : Volume * D -> Volume * D -> Prop), still w2 w3 -> f (world st) (world st') -> one_step w w3 f) by (intros w3 f S3 Hw; by exists w1, (world st, world st'), w2).
  destruct Hlearn as [[Hz ->]|(e & -> & He)].
  - pose proof (handle_commit st slot peer (with_context commit (sc_context c)) now reply st' Hst1 Hv eq_refl E Hz) as Hcm.
    pose proof (committed_installed b w1 st st' (with_context commit (sc_context c)) Hf Hst eq_refl Hcm) as Hin.
    assert (Hun : forall w3, still w2 w3 -> replaced b w (Err FUncertain) w3) by (intros w3 S3; right; by apply Hone).
    apply wp_let, wp_map_error, collect_operation_served; [done|by destruct request_ok as ((? & _) & _)|by destruct Hrv as [[] _]|]. intros res w3 S3 Hok3 Hnp3. destruct res as [o|e|]; cbn [map_err wp answer]; [|by apply HQ; [|apply Hun]|done].
    apply HQ; [done|]. destruct (receipt_agrees _ _ _ o) eqn:Ea; cbn [negb]; [|by apply Hun]. split; [done|]. by apply Hone.
  - apply HQ; [done|]. right. apply Hone; [reflexivity|]. intros Hne. destruct (He eq_refl) as [->|Hp]; [done|].
    destruct (handle_total st slot peer (with_context commit (sc_context c)) now Hst1 Hv) as (x & st2 & E2 & _ & _ & Hn). rewrite E in E2. injection E2 as <- <-. by eapply Hn.
Qed.
End Replacement.
End Served.
