(* ===== verification/SdkClaims.v ===== *)
(** * What the file client promises

    The theorems about the native file client: its reads over any peer, its
    replacements over any peer and against the file service, each with a concrete
    client and service for which it holds. *)
From stdpp Require Import base list option numbers.
From Stdlib Require Import ZArith Lia Bool.
From S2P Require Import Prelude Bytes Codec Ipc AbiFiles AbiIdentity AbiMessages AbiReceipts AbiServices FsDisk FsVolume FsPublication FsTree FsInvariant FsReach FsCalls FsSpec FsClaims SvcClients SvcServer SvcDispatch SvcClientsFacts SvcReplies SvcEffect SvcServe SvcCommit SvcSession SvcClaims Interact SdkFiles SdkRange SdkPromise SdkService.

(** C7 (replacement_through_the_service): a replacement of the SDK's client, served
    by the file service over a transport that may lose any request or reply, with
    other clients served in between: it returns a receipt that agrees with the
    request only if one of its requests made the object exactly the caller's
    bytes, at the next version (or the same request had already done so); an
    error other than [Uncertain] means that none of its requests changed a file;
    and after [Uncertain] at most one of them did. *)
Theorem replacement_through_the_service {D Ow : Type} {HD : Disk D} {HV : DiskView D} {HW : ViewLaws D} {HL : DiskLaws D} {HS : Digest} {HSL : DigestLaws} slot peer
    (others : Service D Ow -> Service D Ow -> Prop) c r b st :
  (forall x y, service_ok x -> others x y -> service_ok y) -> (forall x y s, others x y -> owns (s_clients y) slot s -> owns (s_clients x) slot s) ->
  service_ok st -> fits 32 (sc_context c) -> replacement_ok r -> bytes_ok b ->
  wp (HW := served_world slot peer others) (replace_file c r b) (mkSession st []) (fun res w =>
    match res with
    | Ok o => receipt_agrees r (Z.of_nat (length b)) (sha256 b) o = true /\ one_step (mkSession st []) w (installed r b)
    | Err e => still (mkSession st []) w \/ one_step (mkSession st []) w (fun w0 w1 => e <> FUncertain -> effect nothing w0 w1)
    | Panic => False
    end).
Proof. intros Ho Ha Hst Hc Hr Hb. apply (replace_file_served slot peer others Ho Ha c r Hc Hr b); [done|done|]. by intros res w _. Qed.

(** C19 (lost_commits_are_uncertain): over any peer, a replacement that has sent its
    commit ends with a receipt of that commit, with [Uncertain], or with the error
    the peer answered the commit with: a lost, malformed or disagreeing answer is
    never reported as anything but [Uncertain]. *)
Theorem lost_commits_are_uncertain `{Digest} c r b w :
  wp (replace_file c r b) w (fun res w' =>
    (extends staging w w' /\ match res with Err _ => True | _ => False end) \/
    exists w1 x, extends staging w w1 /\
      extends [OPERATION_PART] (w1 ++ [exchanged (with_context (bare REPLACE_COMMIT (rs_object (rp_resource r)) 0 0) (sc_context c)) x]) w' /\
      match res with
      | Ok o => receipt_agrees r (Z.of_nat (length b)) (sha256 b) o = true /\ exists m q, x = Ok m /\ Packet_decode (rm_payload m) = Ok q /\ p_status q = 0
      | Err e => e = FUncertain \/ rejected REPLACE_COMMIT (sc_context c) x e
      | Panic => False
      end).
Proof. by apply replace_file_wp. Qed.

(** C22 (verified_reads_match_their_digest): whatever the peer answers, a range read
    ends, sends only range requests, and either fills the caller's buffer with the
    bytes whose digest the header announced, in the range and at the version that
    were asked for, and zeros after them, or leaves only zeros. *)
Theorem verified_reads_match_their_digest `{Digest} c r out w :
  wp (read_range c r out) w (fun '(res, o) w' => extends reading w w' /\
    match res with
    | Ok i => ri_references i = mkReferences (rr_workspace r) (rr_resource r) /\ ri_offset i = rr_offset r /\ 0 <= ri_length i <= rr_length r /\
        (forall v, rr_expected r = Some v -> ri_version i = v) /\ length o = length out /\ sha256 (take (Z.to_nat (ri_length i)) o) = ri_sha256 i /\
        drop (Z.to_nat (ri_length i)) o = zeros (length out - Z.to_nat (ri_length i))
    | Err _ => o = zeros (length out)
    | Panic => False
    end).
Proof.
  apply read_into_wp; [apply observation_sends|]. intros res o w' E Hr. split; [done|]. destruct res as [i|e|]; [|done|done]. destruct Hr as (Hd & Hn & Hl & _ & Hsha & Hz).
  destruct (described_bounds r i Hd) as (Hb & Href & Ho & Hv & _). split; [done|]. split; [done|]. split; [lia|]. done.
Qed.

(** C37 (polled_reads_are_verified): however often a read that was begun is polled,
    over any peer, nothing panics; the client stays reserved for exactly this read
    until it is over and is free again afterwards, and a read that finishes has
    delivered bytes with the digest, the range and the version that were asked for. *)
Theorem polled_reads_are_verified `{Digest} r c o c' n w : begin_read_range c r = Ok (o, c') ->
  wp (poll_many n o c') w (fun '(o2, c2) _ =>
    sc_range c2 = (if finished (rg_stage o2) then None else Some (rg_id o)) /\
    forall v, RangeRead_finish o2 = Ok v -> sha256 (Verified_bytes v) = ri_sha256 (vr_info v) /\ length (Verified_bytes v) = Z.to_nat (ri_length (vr_info v)) /\
      ri_references (vr_info v) = mkReferences (rr_workspace r) (rr_resource r) /\ ri_offset (vr_info v) = rr_offset r /\ ri_length (vr_info v) <= rr_length r /\
      (forall version, rr_expected r = Some version -> ri_version (vr_info v) = version)).
Proof.
  intros H0. destruct (begin_read_ok r c o c' H0) as (Ho & Hh & Ht & Hx). eapply wp_weaken; [by apply (poll_many_wp r)|]. intros [o2 c2] w' (Ho2 & Hh2 & Hi). split.
  - unfold held in Hh2. rewrite <- Hi. by destruct (finished (rg_stage o2)).
  - intros v Hv. unfold RangeRead_finish, read_ok in *. destruct (rg_stage o2); try done. destruct Ho2 as (v' & Ev & (Hd & Hn & Hl & _ & Hs)). rewrite Ev in Hv. injection Hv as ->.
    destruct (described_bounds r _ Hd) as (Hb & Href & Hof & Hve & _). split; [done|]. split; [unfold Verified_bytes; rewrite length_take, Hl; unfold RANGE_BYTES, MAX_RANGE in *; lia|]. split; [done|]. split; [done|]. split; [lia|done].
Qed.

(** ** A concrete client and service *)
Definition sample_client : SdkClient := SdkClient_new 1 1.
Definition sample_replacement : Replacement :=
  let w := mkWorkspace fs_lineage 2 in mkReplacement w (mkResource w 5) (mkVersion 3) (mkOpRetry (mkEpoch 1) (mkKey 9)).

(** The sample service answering every exchange. *)
Definition serve (call : RpcCall) (s : Session (D := Platter) (Ow := unit)) : reply call * Session (D := Platter) (Ow := unit) :=
  match call return reply call * _ with
  | RpcExchange b =>
      match Packet_decode b with
      | Ok p =>
          match Server_handle 0 7 p 5 (ss_service s) with
          | Some (Ok reply, st) => (Ok (mkRpcMessage 9 (Packet_encode reply)), mkSession st (ss_steps s ++ [(world (ss_service s), world st)]))
          | _ => (Err SProtocol, s)
          end
      | _ => (Err SProtocol, s)
      end
  | RpcBegin _ => (Err SUnsupported, s)
  | RpcPoll => (Err SUnsupported, s)
  end.

Lemma serve_answers (w s : Session (D := Platter) (Ow := unit)) call : w = s -> exists w', answers (World := served_world 0 7 eq) w call (serve call s).1 w' /\ w' = (serve call s).2.
Proof.
  intros <-. exists (serve call w).2. split; [|done]. destruct call as [b|b|]; cbn [serve answers served_world]; [|done..].
  destruct (Packet_decode b) as [p|e|] eqn:Ep; [|left; split; [done|by eexists]..].
  destruct (Server_handle 0 7 p 5 (ss_service w)) as [[[reply|e|] st]|] eqn:E; [|left; split; [done|by eexists]..].
  right. exists p, reply. split; [done|]. split; [by exists (ss_service w), 5, st|]. left. by exists 9.
Qed.

Lemma sample_replacement_ok : replacement_ok sample_replacement.
Proof. split; [split; [split; [done|split; [by apply bytes_ok_check|done]]|split; [done|by vm_compute]]|]. repeat split; by vm_compute. Qed.

(** No other client is served. *)
Lemma alone_ok (x y : Service Platter unit) : service_ok x -> x = y -> service_ok y.
Proof. intros H E. by rewrite <- E. Qed.
Lemma alone_apart (x y : Service Platter unit) s : x = y -> owns (s_clients y) 0 s -> owns (s_clients x) 0 s.
Proof. intros E. by rewrite E. Qed.
Lemma sample_context : fits 32 (sc_context sample_client).
Proof. by vm_compute. Qed.
Lemma sample_bytes : bytes_ok [120; 121].
Proof. by apply bytes_ok_check. Qed.

#[local] Abbreviation sample_run := (run serve (replace_file sample_client sample_replacement [120; 121]) (mkSession sample_service [])).

Lemma replacement_through_the_service_witness : exists o, sample_run.1 = Ok o /\ one_step (mkSession sample_service []) sample_run.2 (installed sample_replacement [120; 121]).
Proof.
  assert (Hc : is_ok sample_run.1 = true) by (vm_compute; reflexivity).
  pose proof (replacement_through_the_service (D := Platter) (Ow := unit) 0 7 eq sample_client sample_replacement [120; 121] sample_service alone_ok alone_apart sample_service_ok
    sample_context sample_replacement_ok sample_bytes) as H.
  destruct (wp_run (HW := served_world 0 7 eq) serve eq _ _ _ _ (fun w s e Hw _ => serve_answers w s e Hw) eq_refl H) as (w' & Hq & Ew).
  destruct sample_run.1 as [o|e|]; [|discriminate Hc..]. exists o. split; [reflexivity|]. rewrite <- Ew. exact (proj2 Hq).
Defined.

(** A read of the first bytes of the sample object, begun and polled twice. *)
Definition sample_read : ReadRequest := let w := mkWorkspace fs_lineage 2 in mkReadRequest w (mkResource w 5) (Some (mkVersion 3)) 0 16.
Definition begun_read : outcome FileError (RangeRead * SdkClient) := begin_read_range sample_client sample_read.

Lemma begun_read_ok : is_ok begun_read = true.
Proof. vm_compute. reflexivity. Qed.

Lemma polled_reads_are_verified_witness : exists o c, begun_read = Ok (o, c) /\ wp (poll_many 2 o c) [] (fun '(o2, c2) _ => sc_range c2 = (if finished (rg_stage o2) then None else Some (rg_id o))).
Proof.
  pose proof begun_read_ok as H. destruct begun_read as [[o c]|e|] eqn:E; [|discriminate H..]. exists o, c. split; [reflexivity|].
  refine (wp_weaken _ _ _ _ (polled_reads_are_verified sample_read sample_client o c 2 [] E) _). intros [o2 c2] w' [H2 _]. exact H2.
Defined.
