(* ===== verification/TaskDocument.v ===== *)
(** * The task document (crates/tasks-contract/src/document.rs)

    A bounded text of task rows: the parser with its document type, and what it
    accepts.  A document is a header line and at most sixteen rows
    [id TAB state TAB title LF]; [doc_text] is the one text of a list of items,
    and parsing accepts exactly those texts. *)
From stdpp Require Import base list option numbers.
From Stdlib Require Import ZArith Lia Bool.
From S2P Require Import Prelude Bytes Codec.

(** [b"rustic-tasks-v1\n"]. *)
Definition TASK_HEADER : list Z := [114; 117; 115; 116; 105; 99; 45; 116; 97; 115; 107; 115; 45; 118; 49; 10].
Definition MAX_BYTES : nat := 1024.
Definition MAX_TASKS : nat := 16.
Definition MAX_TITLE : nat := 24.

Inductive TaskError := TInvalid | TCapacity.
Inductive TaskState := TOpen | TDone.
#[global] Instance TaskState_eq_dec : EqDecision TaskState.
Proof. solve_decision. Defined.

Definition TaskState_code (s : TaskState) : Z := match s with TOpen => 1 | TDone => 2 end.
Definition TaskState_from_code (code : Z) : option TaskState :=
  if code =? 1 then Some TOpen else if code =? 2 then Some TDone else None.

Record Task := mkTask { ta_id : Z; ta_state : TaskState; ta_title : list Z; ta_len : nat }.
Definition Task_EMPTY : Task := mkTask 0 TOpen (zeros MAX_TITLE) 0.
(** [title_len] is at most [MAX_TITLE] in every task of a document. *)
Definition Task_title (t : Task) : list Z := take (ta_len t) (ta_title t).

Record Document := mkDocument { dc_tasks : list Task; dc_len : nat }.
Definition Document_get (d : Document) (index : nat) : option Task := if (index <? dc_len d)%nat then dc_tasks d !! index else None.

(** ** Rows *)
Definition tab : Z := 9.
Definition line_feed : Z := 10.
Definition text_open : list Z := [111; 112; 101; 110].
Definition text_done : list Z := [100; 111; 110; 101].
Definition printable (b : Z) : bool := (32 <=? b) && (b <=? 126).
Definition ascii_digit (b : Z) : bool := (48 <=? b) && (b <=? 57).
Definition byte_position (c : Z) (l : list Z) : option nat := position (fun b => b =? c) l.

(** One turn of the loop of [parse_id]: [checked_mul] and [checked_add]. *)
Definition push_digit (value b : Z) : outcome TaskError Z :=
  if negb (ascii_digit b) then Err TInvalid
  else if u32_max <? value * 10 then Err TInvalid
  else if u32_max <? value * 10 + (b - 48) then Err TInvalid
  else Ok (value * 10 + (b - 48)).

Fixpoint digits_value (value : Z) (l : list Z) : outcome TaskError Z :=
  match l with
  | [] => Ok value
  | b :: l => let? value := push_digit value b in digits_value value l
  end.

Definition parse_id (b : list Z) : outcome TaskError Z :=
  if (length b =? 0)%nat || (10 <? length b)%nat || (nth 0 b 0 =? 48) then Err TInvalid
  else let? value := digits_value 0 b in if value =? 0 then Err TInvalid else Ok value.

Definition parse_state (b : list Z) : outcome TaskError TaskState :=
  if bool_decide (b = text_open) then Ok TOpen else if bool_decide (b = text_done) then Ok TDone else Err TInvalid.

Definition parse_line (line : list Z) : outcome TaskError Task :=
  let? first := ok_or (byte_position tab line) TInvalid in
  let after_id := drop (first + 1) line in
  let? second := ok_or (byte_position tab after_id) TInvalid in
  let? state := parse_state (take second after_id) in
  let title := drop (second + 1) after_id in
  if (length title =? 0)%nat then Err TInvalid
  else if (MAX_TITLE <? length title)%nat then Err TCapacity
  else if existsb (fun b => negb (printable b)) title then Err TInvalid
  else
    let? id := parse_id (take first line) in
    Ok (mkTask id state (write (zeros MAX_TITLE) 0 title) (length title)).

Definition Document_push (d : Document) (t : Task) : outcome TaskError Document :=
  if (dc_len d =? MAX_TASKS)%nat then Err TCapacity
  else if existsb (fun old => ta_id old =? ta_id t) (take (dc_len d) (dc_tasks d)) then Err TInvalid
  else if (length (dc_tasks d) <=? dc_len d)%nat then Panic
  else Ok (mkDocument (<[dc_len d := t]> (dc_tasks d)) (dc_len d + 1)).

(** The loop over [&bytes[offset..]]; each turn takes at least the line feed. *)
Fixpoint parse_loop (fuel : nat) (rest : list Z) (d : Document) : outcome TaskError Document :=
  match fuel with
  | O => Panic
  | S fuel =>
    match rest with
    | [] => Ok d
    | _ =>
      let? fin := ok_or (byte_position line_feed rest) TInvalid in
      let? t := parse_line (take fin rest) in
      let? d := Document_push d t in
      parse_loop fuel (drop (fin + 1) rest) d
    end
  end.

Definition Document_new : Document := mkDocument (replicate MAX_TASKS Task_EMPTY) 0.

Definition Document_parse (b : list Z) : outcome TaskError Document :=
  if (MAX_BYTES <? length b)%nat || negb (bool_decide (take (length TASK_HEADER) b = TASK_HEADER)) then Err TInvalid
  else parse_loop (S (length b)) (drop (length TASK_HEADER) b) Document_new.

(** ** The text of a document *)
Record Item := mkItem { im_id : Z; im_state : TaskState; im_title : list Z }.
#[global] Instance Item_eq_dec : EqDecision Item.
Proof. solve_decision. Defined.

Definition item_ok (i : Item) : Prop :=
  0 < im_id i <= u32_max /\ (0 < length (im_title i) <= MAX_TITLE)%nat /\ Forall (fun b => printable b = true) (im_title i).
Definition items_ok (l : list Item) : Prop := Forall item_ok l /\ NoDup (im_id <$> l) /\ (length l <= MAX_TASKS)%nat.

(** The decimal digits of [v], below those of [acc]. *)
Fixpoint decimal (n : nat) (v : Z) (acc : list Z) : list Z :=
  match n with
  | O => acc
  | S n => let acc := 48 + v mod 10 :: acc in if v / 10 =? 0 then acc else decimal n (v / 10) acc
  end.
Definition id_text (v : Z) : list Z := decimal 10 v [].
Definition state_text (s : TaskState) : list Z := match s with TOpen => text_open | TDone => text_done end.
Definition row_text (i : Item) : list Z := id_text (im_id i) ++ tab :: state_text (im_state i) ++ tab :: im_title i ++ [line_feed].
Definition doc_text (l : list Item) : list Z := TASK_HEADER ++ concat (row_text <$> l).

Definition pad_title (title : list Z) : list Z := title ++ zeros (MAX_TITLE - length title).
Definition task_of (i : Item) : Task := mkTask (im_id i) (im_state i) (pad_title (im_title i)) (length (im_title i)).
Definition doc_of (l : list Item) : Document := mkDocument ((task_of <$> l) ++ replicate (MAX_TASKS - length l) Task_EMPTY) (length l).

(** ** Numbers and their digits *)
Definition digit_step (v b : Z) : Z := v * 10 + (b - 48).
Definition digits (l : list Z) : Prop := Forall (fun b => ascii_digit b = true) l.

Lemma digit_range b : ascii_digit b = true <-> 0 <= b - 48 <= 9.
Proof. unfold ascii_digit. rewrite andb_true_iff, !Z.leb_le. lia. Qed.

Lemma digits_mono l v : digits l -> 0 <= v -> v <= foldl digit_step v l.
Proof.
  intros H. revert v. induction H as [|b l Hb _ IH]; intros v Hv; cbn [foldl]; [lia|]. apply digit_range in Hb.
  assert (v <= digit_step v b) by (unfold digit_step; lia). specialize (IH (digit_step v b) ltac:(lia)). lia.
Qed.

Lemma digits_value_spec l v w : 0 <= v <= u32_max -> digits_value v l = Ok w <-> digits l /\ w = foldl digit_step v l /\ w <= u32_max.
Proof.
  revert v. induction l as [|b l IH]; intros v Hv; cbn [digits_value foldl].
  - split; [intros [= ->]; repeat split; [constructor|lia]|by intros (_ & -> & _)].
  - unfold push_digit. destruct (ascii_digit b) eqn:Eb; cbn [negb].
    2:{ split; [done|]. intros [H _]. inversion_clear H. congruence. }
    pose proof (proj1 (digit_range b) Eb) as Hr.
    assert (Hbig : forall x, u32_max < x -> x <= digit_step v b -> digits (b :: l) /\ w = foldl digit_step (digit_step v b) l /\ w <= u32_max -> False).
    { intros x Hx Hle (Hd & -> & Hw). inversion_clear Hd as [|? ? ? Hl]. pose proof (digits_mono l (digit_step v b) Hl ltac:(unfold digit_step; lia)). lia. }
    destruct (Z.ltb_spec u32_max (v * 10)); [split; [done|intros H'; by destruct (Hbig (v * 10)); [lia|unfold digit_step; lia|]]|].
    destruct (Z.ltb_spec u32_max (v * 10 + (b - 48))); [split; [done|intros H'; by destruct (Hbig (v * 10 + (b - 48))); [lia|unfold digit_step; lia|]]|].
    rewrite IH by lia. fold (digit_step v b). split; intros [Hd Hw]; (split; [|exact Hw]); [by constructor|by inversion_clear Hd].
Qed.

Lemma decimal_acc n v acc : decimal n v acc = decimal n v [] ++ acc.
Proof.
  revert v acc. induction n as [|n IH]; intros v acc; [done|]. cbn [decimal]. destruct (v / 10 =? 0); [done|].
  rewrite IH, (IH _ [_]). by rewrite <- app_assoc.
Qed.

Lemma decimal_step n v : v / 10 <> 0 -> decimal (S n) v [] = decimal n (v / 10) [] ++ [48 + v mod 10].
Proof. intros H. cbn [decimal]. rewrite (proj2 (Z.eqb_neq _ 0)) by done. apply decimal_acc. Qed.

Lemma decimal_last n v : 0 <= v < 10 -> decimal (S n) v [] = [48 + v].
Proof. intros H. cbn [decimal]. by rewrite Z.div_small, Z.mod_small by lia. Qed.

Lemma small_or_step v : 0 <= v -> 0 <= v < 10 \/ v / 10 <> 0 /\ 0 < v / 10.
Proof. intros H. destruct (Z.lt_ge_cases v 10); [by left|right]. pose proof (Z.div_le_lower_bound v 10 1 ltac:(lia) ltac:(lia)). lia. Qed.

Lemma decimal_spec n v : 0 <= v < 10 ^ Z.of_nat (S n) ->
  digits (decimal (S n) v []) /\ (0 < length (decimal (S n) v []) <= S n)%nat /\ foldl digit_step 0 (decimal (S n) v []) = v /\
  (0 < v -> nth 0 (decimal (S n) v []) 0 <> 48).
Proof.
  revert v. induction n as [|n IH]; intros v Hv.
  - rewrite decimal_last by lia. split; [|split; [cbn [length]; lia|split; [cbn [foldl]; unfold digit_step; lia|cbn [nth]; lia]]]. constructor; [apply digit_range; lia|constructor].
  - destruct (small_or_step v ltac:(lia)) as [Hs|[Hne Hp]].
    { rewrite decimal_last by lia. split; [|split; [cbn [length]; lia|split; [cbn [foldl]; unfold digit_step; lia|cbn [nth]; lia]]]. constructor; [apply digit_range; lia|constructor]. }
    rewrite decimal_step by done. assert (Hq : 0 <= v / 10 < 10 ^ Z.of_nat (S n)).
    { split; [lia|]. apply Z.div_lt_upper_bound; [lia|]. replace (Z.of_nat (S (S n))) with (1 + Z.of_nat (S n)) in Hv by lia. rewrite Z.pow_add_r in Hv by lia. lia. }
    destruct (IH _ Hq) as (Hd & Hl & Hf & Hn). pose proof (Z.mod_pos_bound v 10 ltac:(lia)) as Hm. split.
    { apply Forall_app. split; [done|]. constructor; [apply digit_range; lia|constructor]. }
    split; [rewrite length_app; cbn [length]; lia|]. split.
    { rewrite foldl_app, Hf. cbn [foldl]. unfold digit_step. pose proof (Z.div_mod v 10 ltac:(lia)). lia. }
    intros _. rewrite app_nth1 by lia. by apply Hn.
Qed.

Lemma decimal_unique n l : digits l -> l <> [] -> nth 0 l 0 <> 48 -> (length l <= n)%nat -> decimal n (foldl digit_step 0 l) [] = l /\ 0 < foldl digit_step 0 l.
Proof.
  revert n. induction l as [|b l IH] using rev_ind; [done|]. intros n Hd _ Hn Hl. apply Forall_app in Hd as [Hd Hb]. inversion_clear Hb as [|? ? Eb _].
  apply digit_range in Eb. rewrite length_app in Hl. cbn in Hl. destruct n as [|n]; [lia|]. rewrite foldl_app. cbn [foldl].
  destruct (decide (l = [])) as [-> |Hne].
  - cbn [app nth foldl] in *. unfold digit_step. rewrite decimal_last by lia. split; [f_equal; lia|lia].
  - assert (Hn' : nth 0 l 0 <> 48) by (destruct l; [done|exact Hn]). destruct (IH n Hd Hne Hn' ltac:(lia)) as [IH1 IH2].
    set (f := foldl digit_step 0 l) in *. unfold digit_step.
    assert (Eq : (f * 10 + (b - 48)) / 10 = f) by (rewrite Z.div_add_l by lia; rewrite (Z.div_small (b - 48)); lia).
    assert (Em : (f * 10 + (b - 48)) mod 10 = b - 48) by (rewrite Z.add_comm, Z.mod_add by lia; apply Z.mod_small; lia).
    rewrite decimal_step by lia. rewrite Eq, Em, IH1. split; [f_equal; f_equal; lia|lia].
Qed.

Lemma parse_id_spec b v : parse_id b = Ok v <-> 0 < v <= u32_max /\ b = id_text v.
Proof.
  unfold parse_id, id_text. split.
  - destruct (_ || _) eqn:G; [done|]. intros H. steps H. bools. destruct (Z.eqb_spec a 0) as [|Hz]; [done|]. injection H as <-.
    apply digits_value_spec in E as (Hd & -> & Hm); [|unfold u32_max; lia].
    destruct (decimal_unique 10 b Hd ltac:(by intros ->) ltac:(done) ltac:(lia)) as [-> Hp]. split; [lia|done].
  - intros [Hv ->]. destruct (decimal_spec 9 v ltac:(unfold u32_max in Hv; lia)) as (Hd & Hl & Hf & Hn).
    rewrite (proj2 (Nat.eqb_neq _ 0)), (proj2 (Nat.ltb_ge 10 _)), (proj2 (Z.eqb_neq _ 48)) by (lia || apply Hn; lia). cbn [orb].
    rewrite (proj2 (digits_value_spec _ 0 v ltac:(unfold u32_max; lia))); [|rewrite Hf; split; [done|lia]].
    by rewrite (proj2 (Z.eqb_neq _ _)) by lia.
Qed.

Lemma parse_id_total b : parse_id b <> Panic.
Proof.
  unfold parse_id. destruct (_ || _); [done|]. assert (H : forall l v, digits_value v l <> Panic).
  { induction l as [|x l IH]; intros v; [done|]. cbn [digits_value]. unfold push_digit. repeat (case_match; try done; simplify_eq). }
  specialize (H b 0). destruct (digits_value 0 b); [|done|done]. by destruct (_ =? 0).
Qed.

(** ** Cutting a text at a byte *)
Lemma cut_at c l i : byte_position c l = Some i -> l = take i l ++ c :: drop (i + 1) l /\ Forall (fun b => b <> c) (take i l).
Proof.
  unfold byte_position. intros [(x & Hx & Ex) Hb]%position_Some. apply Z.eqb_eq in Ex as ->. split.
  - replace (i + 1)%nat with (S i) by lia. by rewrite take_drop_middle.
  - apply Forall_lookup. intros j y Hy. pose proof (lookup_lt_Some _ _ _ Hy) as Hj. rewrite length_take in Hj. rewrite lookup_take_lt in Hy by lia.
    apply Z.eqb_neq. by apply (Hb j); [lia|].
Qed.

Lemma cut_found c a r : Forall (fun b => b <> c) a -> byte_position c (a ++ c :: r) = Some (length a).
Proof.
  intros H. apply position_Some. split.
  - exists c. rewrite list_lookup_middle by done. split; [done|apply Z.eqb_refl].
  - intros j y Hj Hy. rewrite lookup_app_l in Hy by done. apply Z.eqb_neq. by eapply Forall_lookup_1 in Hy; [|exact H].
Qed.

Lemma cut_take {A} (c : A) a r : take (length a) (a ++ c :: r) = a /\ drop (length a + 1) (a ++ c :: r) = r.
Proof. split; [by rewrite take_app_length|]. by rewrite <- drop_drop, drop_app_length. Qed.

(** ** Rows *)
Lemma printable_range b : printable b = true <-> 32 <= b <= 126.
Proof. unfold printable. rewrite andb_true_iff, !Z.leb_le. lia. Qed.

Lemma digits_no c l : c < 48 -> digits l -> Forall (fun b => b <> c) l.
Proof. intros Hc. apply Forall_impl. intros b Hb%digit_range. lia. Qed.

Lemma state_text_spec s : parse_state (state_text s) = Ok s /\ Forall (fun b => b <> tab) (state_text s) /\ Forall (fun b => b <> line_feed) (state_text s).
Proof. destruct s; (split; [done|]); split; repeat constructor; done. Qed.

Lemma parse_state_spec b s : parse_state b = Ok s -> b = state_text s.
Proof.
  unfold parse_state. destruct (decide (b = text_open)) as [E|E]; [by rewrite bool_decide_eq_true_2; [intros [= <-]|]|rewrite bool_decide_eq_false_2 by done].
  destruct (decide (b = text_done)) as [E'|E']; [by rewrite bool_decide_eq_true_2; [intros [= <-]|]|by rewrite bool_decide_eq_false_2].
Qed.

Lemma parse_state_total b : parse_state b <> Panic.
Proof. unfold parse_state. by repeat case_match. Qed.

Lemma stored_title t : (length t <= MAX_TITLE)%nat -> write (zeros MAX_TITLE) 0 t = pad_title t.
Proof. intros H. unfold write, pad_title, zeros. rewrite take_0, drop_replicate. by cbn. Qed.

Lemma padded_take t : take (length t) (pad_title t) = t.
Proof. apply take_app_length. Qed.

Definition row_line (i : Item) : list Z := id_text (im_id i) ++ tab :: state_text (im_state i) ++ tab :: im_title i.

Lemma row_text_line i : row_text i = row_line i ++ [line_feed].
Proof. unfold row_text, row_line. by rewrite <- !app_assoc, <- !app_comm_cons, <- !app_assoc. Qed.

Lemma id_text_digits v : 0 < v <= u32_max -> digits (id_text v).
Proof. intros H. apply (decimal_spec 9 v). unfold u32_max in H. lia. Qed.

Lemma printable_no c l : c < 32 -> Forall (fun b => printable b = true) l -> Forall (fun b => b <> c) l.
Proof. intros Hc. apply Forall_impl. intros b Hb%printable_range. lia. Qed.

Lemma row_line_plain i : item_ok i -> Forall (fun b => b <> line_feed) (row_line i).
Proof.
  intros (Hv & _ & Hp). unfold row_line. apply Forall_app. split; [by apply digits_no, id_text_digits|]. constructor; [done|].
  apply Forall_app. split; [apply state_text_spec|]. constructor; [done|]. by apply printable_no.
Qed.

Lemma parse_line_row i : item_ok i -> parse_line (row_line i) = Ok (task_of i).
Proof.
  intros (Hv & Hl & Hp). unfold parse_line, row_line.
  rewrite cut_found by (by apply digits_no, id_text_digits). cbn [ok_or]. destruct (cut_take tab (id_text (im_id i)) (state_text (im_state i) ++ tab :: im_title i)) as [-> ->].
  rewrite cut_found by apply state_text_spec. cbn [ok_or]. destruct (cut_take tab (state_text (im_state i)) (im_title i)) as [-> ->].
  rewrite (proj1 (state_text_spec _)). rewrite (proj2 (Nat.eqb_neq _ 0)), (proj2 (Nat.ltb_ge _ _)) by lia.
  rewrite (proj2 (existsb_false _ _)); [|intros b Hb; by rewrite (proj1 (list.Forall_forall _ _) Hp b Hb)].
  rewrite (proj2 (parse_id_spec _ _)) by done. by rewrite stored_title by lia.
Qed.

Lemma parse_line_spec line t : parse_line line = Ok t -> exists i, item_ok i /\ t = task_of i /\ line = row_line i.
Proof.
  unfold parse_line. intros H. steps H. rename a into n1, a0 into n2, a1 into s. injection H as <-.
  apply ok_or_Ok in E, E0. destruct (cut_at _ _ _ E) as [Hl _]. destruct (cut_at _ _ _ E0) as [Hr _]. apply parse_state_spec in E1. apply parse_id_spec in E5 as [Hv Ei].
  set (title := drop (n2 + 1) _) in *. bools. exists (mkItem a2 s title). split; [split; [done|split; [cbn; lia|]]|].
  - apply list.Forall_forall. intros b Hb. pose proof (proj1 (existsb_false _ _) E4 b Hb). by apply negb_false_iff.
  - split; [unfold task_of; by rewrite stored_title by (cbn; lia)|]. unfold row_line. cbn [im_id im_state im_title]. by rewrite <- Ei, <- E1, <- Hr, <- Hl.
Qed.

Lemma parse_line_total line : parse_line line <> Panic.
Proof.
  unfold parse_line. destruct (byte_position tab line) as [n1|]; [cbn [ok_or]|done]. destruct (byte_position tab (drop _ _)) as [n2|]; [cbn [ok_or]|done].
  pose proof (parse_id_total (take n1 line)) as Ht. pose proof (parse_state_total (take n2 (drop (n1 + 1) line))) as Hs.
  repeat match goal with |- context [match ?c with _ => _ end] => destruct c; try done end.
Qed.

(** ** Documents *)
Lemma doc_of_rows l : (length l <= MAX_TASKS)%nat -> length (dc_tasks (doc_of l)) = MAX_TASKS /\ take (dc_len (doc_of l)) (dc_tasks (doc_of l)) = task_of <$> l.
Proof.
  intros H. unfold doc_of. cbn [dc_tasks dc_len]. split; [rewrite length_app, length_fmap, length_replicate; lia|]. rewrite <- (length_fmap task_of). apply take_app_length.
Qed.

Lemma doc_of_get l i : Document_get (doc_of l) i = task_of <$> l !! i.
Proof.
  unfold Document_get, doc_of. cbn [dc_tasks dc_len]. destruct (Nat.ltb_spec i (length l)).
  - rewrite lookup_app_l by (rewrite length_fmap; lia). apply list_lookup_fmap.
  - by rewrite lookup_ge_None_2 by lia.
Qed.

Lemma doc_of_push l i : (length l < MAX_TASKS)%nat ->
  mkDocument (<[dc_len (doc_of l) := task_of i]> (dc_tasks (doc_of l))) (dc_len (doc_of l) + 1) = doc_of (l ++ [i]).
Proof.
  intros H. unfold doc_of. cbn [dc_tasks dc_len]. rewrite fmap_app, length_app. cbn [fmap list_fmap length]. f_equal.
  rewrite insert_app_r_alt by (rewrite length_fmap; lia). rewrite length_fmap, Nat.sub_diag.
  replace (MAX_TASKS - length l)%nat with (S (MAX_TASKS - (length l + 1))) by lia. cbn [replicate]. by rewrite <- app_assoc.
Qed.

Lemma push_spec l i d : (length l <= MAX_TASKS)%nat ->
  Document_push (doc_of l) (task_of i) = Ok d <-> (length l < MAX_TASKS)%nat /\ (im_id i ∉ (im_id <$> l)) /\ d = doc_of (l ++ [i]).
Proof.
  intros H. destruct (doc_of_rows l H) as [Hl Ht]. unfold Document_push. rewrite Ht, Hl. assert (Hn : dc_len (doc_of l) = length l) by done.
  destruct (Nat.eqb_spec (dc_len (doc_of l)) MAX_TASKS) as [E|E]; [split; [done|intros [? _]; lia]|]. rewrite (proj2 (Nat.leb_gt _ _)) by lia.
  destruct (existsb _ _) eqn:Ex.
  - split; [done|]. intros (_ & Hf & _). apply existsb_exists in Ex as (t & Hin & Et). apply list_elem_of_In, list_elem_of_fmap in Hin as (j & -> & Hj). apply Z.eqb_eq in Et.
    exfalso. apply Hf, list_elem_of_fmap. by exists j.
  - rewrite (doc_of_push l i) by lia. split; [intros [= <-]; split; [lia|split; [|done]]|by intros (_ & _ & ->)].
    intros (j & Ej & Hj)%list_elem_of_fmap. pose proof (proj1 (existsb_false _ _) Ex (task_of j) (list_elem_of_fmap_2 _ _ _ Hj)) as Hx. cbn in Hx. by rewrite Ej, Z.eqb_refl in Hx.
Qed.

Lemma push_total l i : (length l <= MAX_TASKS)%nat -> Document_push (doc_of l) i <> Panic.
Proof.
  intros H. destruct (doc_of_rows l H) as [Hl _]. unfold Document_push. rewrite Hl. change (dc_len (doc_of l)) with (length l).
  destruct (Nat.eqb_spec (length l) MAX_TASKS); [done|]. rewrite (proj2 (Nat.leb_gt _ _)) by lia. by destruct (existsb _ _).
Qed.

Lemma items_ok_snoc l i : items_ok (l ++ [i]) <-> items_ok l /\ item_ok i /\ (im_id i ∉ (im_id <$> l)) /\ (length l < MAX_TASKS)%nat.
Proof.
  unfold items_ok. rewrite list.Forall_app, list.Forall_singleton, fmap_app, list.NoDup_app, length_app. cbn. split.
  - intros ([Hl Hi] & (Hn & Hd & _) & Hm). split; [by split; [|split; [|lia]]|]. split; [done|]. split; [|lia]. intros Hin. apply (Hd _ Hin). by left.
  - intros ((Hl & Hn & _) & Hi & Hd & Hm). split; [done|]. split; [|lia]. split; [done|]. split; [|apply NoDup_singleton].
    intros x Hx ->%list_elem_of_singleton. by apply Hd.
Qed.

(** ** The loop *)
Lemma row_text_cut i r : item_ok i -> byte_position line_feed (row_text i ++ r) = Some (length (row_line i)) /\
  take (length (row_line i)) (row_text i ++ r) = row_line i /\ drop (length (row_line i) + 1) (row_text i ++ r) = r /\ row_text i ++ r <> [].
Proof.
  intros H. rewrite row_text_line, <- app_assoc. cbn [app]. split; [by apply cut_found, row_line_plain|].
  destruct (cut_take line_feed (row_line i) r) as [-> ->]. do 2 (split; [done|]). by destruct (row_line i).
Qed.

Lemma parse_loop_step fuel rest d : rest <> [] -> parse_loop (S fuel) rest d =
  (let? fin := ok_or (byte_position line_feed rest) TInvalid in let? t := parse_line (take fin rest) in
   let? d := Document_push d t in parse_loop fuel (drop (fin + 1) rest) d).
Proof. by destruct rest. Qed.

Lemma parse_loop_rows l r fuel : items_ok (r ++ l) -> (length (concat (row_text <$> l)) < fuel)%nat ->
  parse_loop fuel (concat (row_text <$> l)) (doc_of r) = Ok (doc_of (r ++ l)).
Proof.
  revert r fuel. induction l as [|i l IH]; intros r [|fuel] H Hf; [cbn in Hf; lia|by rewrite app_nil_r|lia|].
  rewrite cons_middle, app_assoc in H. assert (Hi : items_ok (r ++ [i])).
  { destruct H as (H1 & H2 & H3). rewrite fmap_app in H2. rewrite length_app in H3. split; [by apply list.Forall_app in H1 as [? _]|]. split; [by apply list.NoDup_app in H2 as [? _]|lia]. }
  pose proof (proj1 (items_ok_snoc r i) Hi) as (Hr & Hok & Hn & Hl). rewrite fmap_cons in *. cbn [concat] in *.
  destruct (row_text_cut i (concat (row_text <$> l)) Hok) as (E1 & E2 & E3 & E4). rewrite parse_loop_step, E1 by done. cbn [ok_or]. rewrite E2, parse_line_row by done.
  rewrite (proj2 (push_spec r i _ ltac:(lia)) (conj Hl (conj Hn eq_refl))). rewrite E3. rewrite (IH (r ++ [i]) fuel H).
  - by rewrite <- app_assoc.
  - rewrite length_app, row_text_line, length_app in Hf. cbn [length] in Hf. exact (ltac:(lia)).
Qed.

Lemma parse_loop_spec fuel rest r d : items_ok r -> (length rest < fuel)%nat ->
  parse_loop fuel rest (doc_of r) <> Panic /\
  (parse_loop fuel rest (doc_of r) = Ok d -> exists l, items_ok (r ++ l) /\ d = doc_of (r ++ l) /\ rest = concat (row_text <$> l)).
Proof.
  revert rest r. induction fuel as [|fuel IH]; intros rest r Hr Hf; [lia|]. cbn [parse_loop].
  destruct rest as [|b rest]; [split; [done|]; intros [= <-]; exists []; by rewrite app_nil_r|]. set (all := b :: rest) in *.
  destruct (byte_position line_feed all) as [n|] eqn:En; cbn [ok_or]; [|done]. destruct (cut_at _ _ _ En) as [Ha Hp].
  pose proof (parse_line_total (take n all)) as Ht. destruct (parse_line (take n all)) as [t|e|] eqn:Et; [|done|done].
  apply parse_line_spec in Et as (i & Hi & -> & Ei). pose proof (push_total r (task_of i) (proj2 (proj2 Hr))) as Hpt.
  destruct (Document_push (doc_of r) (task_of i)) as [d'|e|] eqn:Ep; [|done|done]. apply push_spec in Ep as (Hl & Hn & ->); [|apply Hr].
  assert (Hlen : (length (drop (n + 1) all) < fuel)%nat) by (rewrite length_drop; unfold all in *; cbn [length] in *; lia).
  destruct (IH (drop (n + 1) all) (r ++ [i]) (proj2 (items_ok_snoc r i) (conj Hr (conj Hi (conj Hn Hl)))) Hlen) as [Hnp IHd].
  split; [done|]. intros E. destruct (IHd E) as (l & Hok & -> & Hrest). exists (i :: l). rewrite (cons_middle i r l), app_assoc. split; [done|]. split; [done|].
  rewrite fmap_cons. cbn [concat]. rewrite row_text_line, <- app_assoc, <- Hrest, <- Ei. exact Ha.
Qed.

(** ** Parsing accepts exactly the texts of documents *)
Lemma parse_doc_text l : items_ok l -> (length (doc_text l) <= MAX_BYTES)%nat -> Document_parse (doc_text l) = Ok (doc_of l).
Proof.
  intros H Hl. unfold Document_parse, doc_text in *. rewrite (proj2 (Nat.ltb_ge _ _)) by done. rewrite take_app_length, drop_app_length.
  rewrite bool_decide_eq_true_2 by done. cbn [orb negb]. change Document_new with (doc_of []). rewrite (parse_loop_rows l []); [done|done|]. rewrite length_app. lia.
Qed.

Lemma Document_parse_spec b d : Document_parse b = Ok d -> exists l, items_ok l /\ d = doc_of l /\ b = doc_text l /\ (length b <= MAX_BYTES)%nat.
Proof.
  unfold Document_parse. destruct (_ || _) eqn:G; [done|]. apply orb_false_iff in G as [G1 G2]. apply Nat.ltb_ge in G1. apply negb_false_iff, bool_decide_eq_true_1 in G2. intros E. change Document_new with (doc_of []) in E.
  assert (Hnil : items_ok []) by (split; [constructor|split; [constructor|cbn; lia]]).
  destruct (parse_loop_spec (S (length b)) (drop (length TASK_HEADER) b) [] d Hnil ltac:(rewrite length_drop; lia)) as [_ H].
  destruct (H E) as (l & Hl & -> & Eb). exists l. split; [done|]. split; [done|]. split; [|done]. unfold doc_text. rewrite <- Eb. rewrite <- G2 at 1. by rewrite take_drop.
Qed.

Lemma Document_parse_total b : Document_parse b <> Panic.
Proof.
  unfold Document_parse. destruct (_ || _); [done|]. assert (Hnil : items_ok []) by (split; [constructor|split; [constructor|cbn; lia]]).
  apply (parse_loop_spec (S (length b)) (drop (length TASK_HEADER) b) [] Document_new Hnil). rewrite length_drop. lia.
Qed.

Lemma doc_of_inj l l' : items_ok l -> items_ok l' -> doc_of l = doc_of l' -> l = l'.
Proof.
  intros H H' E. apply list_eq. intros i. assert (Eg : Document_get (doc_of l) i = Document_get (doc_of l') i) by by rewrite E. rewrite !doc_of_get in Eg.
  destruct (l !! i) as [x|] eqn:Ex, (l' !! i) as [y|] eqn:Ey; cbn in Eg; try done. injection Eg as E1 E2 E3 E4. unfold pad_title in E3.
  assert (Et : im_title x = im_title y) by (rewrite <- (padded_take (im_title x)), <- (padded_take (im_title y)); unfold pad_title; by rewrite E3, E4). destruct x, y; cbn in *. by subst.
Qed.
