(* ===== verification/TaskPlan.v ===== *)
(** * Planning a task edit (apps/tasks/src/edit)

    [render.rs] writes a document into a bounded buffer, [planning.rs] checks an
    edit and produces one replacement candidate.  The reference is [edit_items],
    the edit on the list of items; planning is shown to be that edit on every
    document, with the one text of its result. *)
From stdpp Require Import base list option numbers.
From Stdlib Require Import ZArith Lia Bool.
From S2P Require Import Prelude Bytes Codec TaskDocument.

(** ** Rendering (render.rs) *)
(** The output array and the length written so far; [false] of the source is [Err]. *)
Definition buffer : Type := list Z * nat.

Definition push_bytes (o : buffer) (b : list Z) : outcome unit buffer :=
  let '(out, n) := o in
  if (length out <? n + length b)%nat then Err tt else Ok (write out n b, (n + length b)%nat).

(** The digits of [value], the least significant first. *)
Fixpoint digit_loop (fuel : nat) (digits : list Z) (count : nat) (value : Z) : outcome unit (list Z * nat) :=
  match fuel with
  | O => Panic
  | S fuel =>
    if (length digits <=? count)%nat then Panic
    else
      let digits := <[count := 48 + value mod 10]> digits in
      if value / 10 =? 0 then Ok (digits, S count) else digit_loop fuel digits (S count) (value / 10)
  end.

Fixpoint push_digits (o : buffer) (digits : list Z) (count : nat) : outcome unit buffer :=
  match count with
  | O => Ok o
  | S count => let? o := push_bytes o (slice digits count (count + 1)) in push_digits o digits count
  end.

Definition write_id (o : buffer) (id : Z) : outcome unit buffer :=
  let? (digits, count) := digit_loop 11 (zeros 10) 0 id in push_digits o digits count.

Definition write_task (o : buffer) (id : Z) (state : TaskState) (title : list Z) : outcome unit buffer :=
  let? o := write_id o id in
  let? o := push_bytes o [tab] in
  let? o := push_bytes o (match state with TOpen => text_open | TDone => text_done end) in
  let? o := push_bytes o [tab] in
  let? o := push_bytes o title in
  push_bytes o [line_feed].

Fixpoint render_rows (d : Document) (done_id : option Z) (o : buffer) (indices : list nat) : outcome unit buffer :=
  match indices with
  | [] => Ok o
  | index :: indices =>
    match Document_get d index with
    | None => Panic
    | Some row =>
      let state := if bool_decide (done_id = Some (ta_id row)) then TDone else ta_state row in
      let? o := write_task o (ta_id row) state (Task_title row) in
      render_rows d done_id o indices
    end
  end.

Definition render_document (d : Document) (appended : option (Z * list Z)) (done_id : option Z) (out : list Z) : outcome unit buffer :=
  let? o := push_bytes (out, 0%nat) TASK_HEADER in
  let? o := render_rows d done_id o (seq 0 (dc_len d)) in
  match appended with
  | None => Ok o
  | Some (id, title) => write_task o id TOpen title
  end.

(** ** Planning (planning.rs) *)
Inductive TaskCommand := CAdd (title : list Z) | CDone (id : Z).
Inductive PlanError := PInvalidDocument | PInvalidTitle | PInvalidId | PTaskNotFound | PCapacity | PIdExhausted.

Record Planned := mkPlanned { pn_bytes : list Z; pn_len : nat; pn_task : Z; pn_changed : bool }.
Definition Planned_bytes (p : Planned) : list Z := take (pn_len p) (pn_bytes p).

Definition Planned_from_original (original : list Z) (task : Z) : Planned :=
  mkPlanned (write (zeros MAX_BYTES) 0 original) (length original) task false.

Definition Planned_rendered (d : Document) (appended : option (Z * list Z)) (done_id : option Z) (task : Z) : outcome PlanError Planned :=
  let? (out, n) := map_err (fun _ => PCapacity) (render_document d appended done_id (zeros MAX_BYTES)) in
  Ok (mkPlanned out n task true).

Definition validate_title (title : list Z) : outcome PlanError unit :=
  if (length title =? 0)%nat || (MAX_TITLE <? length title)%nat || existsb (fun b => negb (printable b)) title then Err PInvalidTitle else Ok tt.

(** The loops over [document.get(index).expect(..)]. *)
Fixpoint greatest_id (d : Document) (indices : list nat) (greatest : Z) : outcome PlanError Z :=
  match indices with
  | [] => Ok greatest
  | index :: indices =>
    match Document_get d index with None => Panic | Some t => greatest_id d indices (Z.max greatest (ta_id t)) end
  end.

Fixpoint find_task (d : Document) (id : Z) (indices : list nat) : outcome PlanError (option Task) :=
  match indices with
  | [] => Ok None
  | index :: indices =>
    match Document_get d index with None => Panic | Some t => if ta_id t =? id then Ok (Some t) else find_task d id indices end
  end.

Definition plan_add (d : Document) (title : list Z) : outcome PlanError Planned :=
  let? _ := validate_title title in
  if (dc_len d =? MAX_TASKS)%nat then Err PCapacity
  else
    let? greatest := greatest_id d (seq 0 (dc_len d)) 0 in
    if u32_max <? greatest + 1 then Err PIdExhausted
    else Planned_rendered d (Some (greatest + 1, title)) None (greatest + 1).

Definition plan_done (original : list Z) (d : Document) (id : Z) : outcome PlanError Planned :=
  if id =? 0 then Err PInvalidId
  else
    let? found := find_task d id (seq 0 (dc_len d)) in
    let? t := ok_or found PTaskNotFound in
    if bool_decide (ta_state t = TDone) then Ok (Planned_from_original original id)
    else Planned_rendered d None (Some id) id.

Definition document_error (e : TaskError) : PlanError := match e with TInvalid => PInvalidDocument | TCapacity => PCapacity end.

Definition plan (original : list Z) (command : TaskCommand) : outcome PlanError Planned :=
  let? d := map_err document_error (Document_parse original) in
  match command with
  | CAdd title => plan_add d title
  | CDone id => plan_done original d id
  end.

(** ** The reference edit *)
Definition with_state (s : TaskState) (i : Item) : Item := mkItem (im_id i) s (im_title i).
Definition complete_item (id : Z) (i : Item) : Item := if im_id i =? id then with_state TDone i else i.
Definition last_id (l : list Item) : Z := foldr (fun i m => Z.max (im_id i) m) 0 l.

(** The items after an edit, the task it affects, and whether anything changed. *)
Definition edit_items (l : list Item) (c : TaskCommand) : outcome PlanError (list Item * Z * bool) :=
  match c with
  | CAdd title =>
    let? _ := validate_title title in
    if (MAX_TASKS <=? length l)%nat then Err PCapacity
    else if u32_max <=? last_id l then Err PIdExhausted
    else Ok (l ++ [mkItem (last_id l + 1) TOpen title], last_id l + 1, true)
  | CDone id =>
    if id =? 0 then Err PInvalidId
    else
      match List.find (fun i => im_id i =? id) l with
      | None => Err PTaskNotFound
      | Some i => if bool_decide (im_state i = TDone) then Ok (l, id, false) else Ok (complete_item id <$> l, id, true)
      end
  end.

(** ** The buffer *)
Definition filled (o : buffer) (t : list Z) : Prop := length o.1 = MAX_BYTES /\ o.2 = length t /\ take o.2 o.1 = t.

Lemma push_filled o t b : filled o t -> (length (t ++ b) <= MAX_BYTES)%nat -> exists o', push_bytes o b = Ok o' /\ filled o' (t ++ b).
Proof.
  destruct o as [out n]. intros (Hl & Hn & Ht) Hb. cbn [fst snd] in *. unfold push_bytes. rewrite length_app in Hb. rewrite (proj2 (Nat.ltb_ge _ _)) by lia.
  eexists. split; [done|]. split; cbn [fst snd]; [rewrite length_write; lia|]. split; [rewrite length_app; lia|].
  unfold write. rewrite Ht, app_assoc. apply take_app_length'. rewrite length_app. lia.
Qed.

(** ** Numbers *)
Lemma digit_loop_spec fuel digits count v : length digits = 10%nat -> (count < 10)%nat -> (10 - count < fuel)%nat -> 0 <= v < 10 ^ Z.of_nat (10 - count) ->
  exists digits' count', digit_loop fuel digits count v = Ok (digits', count') /\ length digits' = 10%nat /\ (count < count' <= 10)%nat /\
    take count digits' = take count digits /\ reverse (slice digits' count count') = decimal (10 - count) v [].
Proof.
  revert digits count v. induction fuel as [|fuel IH]; intros digits count v Hl Hc Hf Hv; [lia|]. cbn [digit_loop]. rewrite (proj2 (Nat.leb_gt _ _)) by lia.
  replace (10 - count)%nat with (S (9 - count)) in * by lia. set (digits1 := <[count := _]> digits). assert (Hl1 : length digits1 = 10%nat) by (unfold digits1; by rewrite length_insert).
  assert (Hd : digits1 !! count = Some (48 + v mod 10)) by (unfold digits1; apply list_lookup_insert_eq; lia).
  assert (Ht : take count digits1 = take count digits) by (unfold digits1; rewrite take_insert, decide_False by lia; done).
  destruct (small_or_step v ltac:(lia)) as [Hs|[Hne Hp]].
  - rewrite (Z.div_small v) by lia. cbn [Z.eqb]. exists digits1, (S count). split; [done|]. split; [done|]. split; [lia|]. split; [done|].
    rewrite decimal_last by lia. unfold slice. rewrite Z.mod_small in Hd by lia. replace (S count - count)%nat with 1%nat by lia. erewrite drop_S by exact Hd. done.
  - rewrite (proj2 (Z.eqb_neq _ 0)) by done. destruct (decide (count = 9%nat)) as [->|Hn9].
    { exfalso. cbn in Hv. apply Hne, Z.div_small. lia. }
    destruct (IH digits1 (S count) (v / 10) Hl1 ltac:(lia) ltac:(lia)) as (d' & c' & E & Hl' & Hc' & Ht' & Hr).
    { split; [lia|]. apply Z.div_lt_upper_bound; [lia|]. replace (Z.of_nat (S (9 - count))) with (1 + Z.of_nat (10 - S count)) in Hv by lia. rewrite Z.pow_add_r in Hv by lia. lia. }
    exists d', c'. split; [done|]. split; [done|]. split; [lia|]. split.
    + rewrite <- Ht. apply (f_equal (take count)) in Ht'. by rewrite !take_take, !Nat.min_l in Ht' by lia.
    + rewrite decimal_step by done. replace (9 - count)%nat with (10 - S count)%nat by lia. rewrite <- Hr. unfold slice.
      assert (Hd' : d' !! count = Some (48 + v mod 10)) by (rewrite <- (lookup_take_lt _ (S count)), Ht', lookup_take_lt by lia; done).
      erewrite (drop_S d') by exact Hd'. replace (c' - count)%nat with (S (c' - S count)) by lia. cbn [take]. by rewrite reverse_cons.
Qed.

Lemma push_digits_spec o t digits count : filled o t -> (count <= length digits)%nat -> (length t + count <= MAX_BYTES)%nat ->
  exists o', push_digits o digits count = Ok o' /\ filled o' (t ++ reverse (take count digits)).
Proof.
  revert o t. induction count as [|count IH]; intros o t H Hc Hb; [exists o; by rewrite app_nil_r|]. cbn [push_digits].
  destruct (lookup_lt_is_Some_2 digits count) as [b Hd]; [lia|]. assert (Es : slice digits count (count + 1) = [b]).
  { unfold slice. replace (count + 1 - count)%nat with 1%nat by lia. by erewrite drop_S by exact Hd. }
  rewrite Es. destruct (push_filled o t [b] H) as (o1 & -> & H1); [rewrite length_app; cbn; lia|].
  destruct (IH o1 (t ++ [b]) H1) as (o2 & -> & H2); [lia|rewrite length_app; cbn; lia|]. exists o2. split; [done|].
  erewrite take_S_r by exact Hd. rewrite reverse_app, app_assoc. exact H2.
Qed.

Lemma write_id_filled o t id : filled o t -> 0 <= id <= u32_max -> (length (t ++ id_text id) <= MAX_BYTES)%nat ->
  exists o', write_id o id = Ok o' /\ filled o' (t ++ id_text id).
Proof.
  intros H Hid Hb. unfold write_id. destruct (digit_loop_spec 11 (zeros 10) 0 id) as (d & c & -> & Hl & Hc & _ & Hr); [done|lia|lia|unfold u32_max in Hid; cbn; lia|].
  rewrite length_app in Hb. unfold id_text in *. cbn [Nat.sub] in Hr. rewrite <- Hr in *. unfold slice in *. rewrite drop_0, Nat.sub_0_r in *.
  rewrite length_reverse, length_take in Hb. apply push_digits_spec; [done|lia|lia].
Qed.

Lemma write_task_filled o t i : filled o t -> item_ok i -> (length (t ++ row_text i) <= MAX_BYTES)%nat ->
  exists o', write_task o (im_id i) (im_state i) (im_title i) = Ok o' /\ filled o' (t ++ row_text i).
Proof.
  intros H (Hid & Hl & _) Hb. unfold row_text in *. rewrite !length_app in Hb. cbn [length] in Hb. rewrite !length_app in Hb. cbn [length] in Hb. rewrite length_app in Hb. cbn [length] in Hb.
  unfold write_task. fold (state_text (im_state i)).
  destruct (write_id_filled o t (im_id i) H ltac:(lia)) as (o1 & -> & H1); [rewrite length_app; lia|].
  destruct (push_filled o1 _ [tab] H1) as (o2 & -> & H2); [rewrite !length_app; cbn [length]; lia|].
  destruct (push_filled o2 _ (state_text (im_state i)) H2) as (o3 & -> & H3); [rewrite !length_app; cbn [length]; lia|].
  destruct (push_filled o3 _ [tab] H3) as (o4 & -> & H4); [rewrite !length_app; cbn [length]; lia|].
  destruct (push_filled o4 _ (im_title i) H4) as (o5 & -> & H5); [rewrite !length_app; cbn [length]; lia|].
  destruct (push_filled o5 _ [line_feed] H5) as (o6 & -> & H6); [rewrite !length_app; cbn [length]; lia|].
  exists o6. split; [done|]. rewrite <- !app_assoc in H6. exact H6.
Qed.

(** ** A document always fits the buffer *)
Lemma row_text_bound i : item_ok i -> (length (row_text i) <= 41)%nat.
Proof.
  intros (Hid & Hl & _). destruct (decimal_spec 9 (im_id i) ltac:(unfold u32_max in Hid; lia)) as (_ & Hd & _).
  unfold row_text, id_text, MAX_TITLE in *. rewrite length_app. cbn [length]. rewrite length_app. cbn [length]. rewrite length_app. cbn [length].
  assert (length (state_text (im_state i)) = 4%nat) by (by destruct (im_state i)). lia.
Qed.

Lemma rows_text_bound l : Forall item_ok l -> (length (concat (row_text <$> l)) <= 41 * length l)%nat.
Proof. induction 1 as [|i l Hi _ IH]; [done|]. rewrite fmap_cons. cbn [concat length]. rewrite length_app. pose proof (row_text_bound i Hi). lia. Qed.

Lemma doc_text_bound l : items_ok l -> (length (doc_text l) <= 672)%nat.
Proof. intros (H & _ & Hl). unfold doc_text. rewrite length_app. pose proof (rows_text_bound l H). unfold MAX_TASKS in Hl. cbn [length TASK_HEADER]. lia. Qed.

Lemma doc_text_snoc l i : doc_text (l ++ [i]) = doc_text l ++ row_text i.
Proof. unfold doc_text. rewrite fmap_app, concat_app, <- app_assoc. cbn. by rewrite app_nil_r. Qed.

(** ** Rendering writes the text *)
Definition completed (done_id : option Z) (i : Item) : Item := if bool_decide (done_id = Some (im_id i)) then with_state TDone i else i.

Lemma completed_ok o i : item_ok i -> item_ok (completed o i).
Proof. unfold completed. by destruct (bool_decide _). Qed.

Lemma completed_ids o (l : list Item) : im_id <$> (completed o <$> l) = im_id <$> l.
Proof. rewrite <- list_fmap_compose. apply list_fmap_ext. intros _ i _. unfold completed. cbn. by destruct (bool_decide _). Qed.

Lemma completed_items o l : items_ok l -> items_ok (completed o <$> l).
Proof.
  intros (H1 & H2 & H3). split; [apply Forall_fmap; revert H1; apply Forall_impl, completed_ok|]. by rewrite completed_ids, length_fmap.
Qed.

Lemma render_rows_spec l r done_id o : items_ok (r ++ l) -> filled o (doc_text (completed done_id <$> r)) ->
  exists o', render_rows (doc_of (r ++ l)) done_id o (seq (length r) (length l)) = Ok o' /\ filled o' (doc_text (completed done_id <$> (r ++ l))).
Proof.
  revert r o. induction l as [|i l IH]; intros r o H Ho; [exists o; by rewrite app_nil_r|]. cbn [length seq render_rows].
  rewrite doc_of_get, list_lookup_middle by done. cbn [fmap option_fmap option_map]. unfold Task_title. cbn [task_of ta_id ta_state ta_title ta_len]. rewrite padded_take.
  rewrite cons_middle, app_assoc in H |- *. assert (Hi : items_ok (r ++ [i])).
  { destruct H as (H1 & H2 & H3). rewrite fmap_app in H2. rewrite length_app in H3. split; [by apply list.Forall_app in H1 as [? _]|]. split; [by apply list.NoDup_app in H2 as [? _]|lia]. }
  pose proof (completed_items done_id _ Hi) as Hc. rewrite fmap_app in Hc. pose proof (proj1 (items_ok_snoc _ _) Hc) as (_ & Hok & _).
  destruct (write_task_filled o _ (completed done_id i) Ho Hok) as (o1 & E1 & H1); [rewrite <- doc_text_snoc; pose proof (doc_text_bound _ Hc); unfold MAX_BYTES; cbn [fmap list_fmap] in *; lia|].
  replace (write_task o (im_id i) (if bool_decide (done_id = Some (im_id i)) then TDone else im_state i) (im_title i)) with (Ok (E := unit) o1).
  2:{ rewrite <- E1. unfold completed. by destruct (bool_decide _). }
  rewrite <- doc_text_snoc in H1. destruct (IH (r ++ [i]) o1 H) as (o2 & E2 & H2); [by rewrite fmap_app|].
  rewrite length_app in E2. cbn [length] in E2. rewrite Nat.add_1_r in E2. by exists o2.
Qed.

Lemma render_document_spec l appended done_id : items_ok l ->
  match appended with None => True | Some (id, title) => items_ok ((completed done_id <$> l) ++ [mkItem id TOpen title]) end ->
  exists o, render_document (doc_of l) appended done_id (zeros MAX_BYTES) = Ok o /\
    filled o (doc_text ((completed done_id <$> l) ++ match appended with None => [] | Some (id, title) => [mkItem id TOpen title] end)).
Proof.
  intros H Ha. unfold render_document. destruct (push_filled (zeros MAX_BYTES, 0%nat) [] TASK_HEADER) as (o1 & -> & H1); [by split|by apply Nat.leb_le|].
  destruct (render_rows_spec l [] done_id o1 H H1) as (o2 & E2 & H2). cbn [app length] in *. change (dc_len (doc_of l)) with (length l). rewrite E2.
  destruct appended as [[id title]|]; [|exists o2; by rewrite app_nil_r]. rewrite doc_text_snoc.
  pose proof (proj1 (items_ok_snoc _ _) Ha) as (_ & Hok & _). apply (write_task_filled o2 _ (mkItem id TOpen title) H2 Hok).
  rewrite <- doc_text_snoc. pose proof (doc_text_bound _ Ha). unfold MAX_BYTES. lia.
Qed.

(** ** Searching the rows *)
Lemma last_id_le l i : i ∈ l -> im_id i <= last_id l.
Proof. induction l as [|j l IH]; [by intros ?%not_elem_of_nil|]. cbn [last_id foldr]. fold (last_id l). intros [-> | Hi]%elem_of_cons; [lia|]. specialize (IH Hi). lia. Qed.

Lemma last_id_bounds l : Forall item_ok l -> 0 <= last_id l <= u32_max.
Proof. induction 1 as [|i l [Hi _] _ IH]; cbn [last_id foldr]; [unfold u32_max; lia|]. fold (last_id l). lia. Qed.

Lemma greatest_id_spec r l g : 0 <= g -> greatest_id (doc_of (r ++ l)) (seq (length r) (length l)) g = Ok (Z.max g (last_id l)).
Proof.
  revert r g. induction l as [|i l IH]; intros r g Hg; cbn [length seq greatest_id last_id foldr]; [f_equal; lia|].
  rewrite doc_of_get, list_lookup_middle by done. cbn [fmap option_fmap option_map task_of ta_id]. fold (last_id l).
  rewrite cons_middle, app_assoc. pose proof (IH (r ++ [i]) (Z.max g (im_id i)) ltac:(lia)) as E.
  rewrite length_app in E. cbn [length] in E. rewrite Nat.add_1_r in E. rewrite E. f_equal. lia.
Qed.

Lemma find_task_spec r l id : find_task (doc_of (r ++ l)) id (seq (length r) (length l)) = Ok (task_of <$> List.find (fun i => im_id i =? id) l).
Proof.
  revert r. induction l as [|i l IH]; intros r; [done|]. cbn [length seq find_task List.find].
  rewrite doc_of_get, list_lookup_middle by done. cbn [fmap option_fmap option_map task_of ta_id]. destruct (im_id i =? id); [done|].
  rewrite cons_middle, app_assoc. rewrite <- (IH (r ++ [i])), length_app. cbn [length]. by rewrite Nat.add_1_r.
Qed.

(** ** Planning is the reference edit *)
Lemma validate_title_spec t : validate_title t = Ok tt <-> (0 < length t <= MAX_TITLE)%nat /\ Forall (fun b => printable b = true) t.
Proof.
  unfold validate_title. destruct (_ || _) eqn:G.
  - split; [done|]. intros [Hl Hp]. exfalso. apply orb_true_iff in G as [G|G]; [apply orb_true_iff in G as [G|G]; [apply Nat.eqb_eq in G|apply Nat.ltb_lt in G]; lia|].
    apply existsb_exists in G as (b & Hb & Eb). apply list_elem_of_In in Hb. rewrite (proj1 (list.Forall_forall _ _) Hp b Hb) in Eb. done.
  - split; [|done]. intros _. bools. split; [lia|]. apply list.Forall_forall. intros b Hb. pose proof (proj1 (existsb_false _ _) H0 b Hb). by apply negb_false_iff.
Qed.

Lemma no_completion (l : list Item) : completed None <$> l = l.
Proof. rewrite <- (list_fmap_id l) at 2. by apply list_fmap_ext. Qed.

Lemma completion id (l : list Item) : completed (Some id) <$> l = complete_item id <$> l.
Proof.
  apply list_fmap_ext. intros _ i _. unfold completed, complete_item. destruct (Z.eqb_spec (im_id i) id) as [<-|Hn]; [by rewrite bool_decide_eq_true_2|].
  rewrite bool_decide_eq_false_2; [done|congruence].
Qed.

Lemma edit_items_ok l c l' id changed : items_ok l -> edit_items l c = Ok (l', id, changed) -> items_ok l'.
Proof.
  intros H. destruct c as [title|d]; cbn [edit_items].
  - destruct (validate_title title) as [[]| |] eqn:Et; [|done|done]. apply validate_title_spec in Et as [Hl Hp].
    destruct (Nat.leb_spec MAX_TASKS (length l)); [done|]. destruct (Z.leb_spec u32_max (last_id l)); [done|]. intros [= <- <- <-].
    pose proof (last_id_bounds l (proj1 H)). apply items_ok_snoc. split; [done|]. split; [split; [cbn; lia|by split]|]. split; [|lia].
    intros (j & Ej & Hj)%list_elem_of_fmap. pose proof (last_id_le l j Hj). cbn in Ej. lia.
  - destruct (d =? 0); [done|]. destruct (List.find _ _) as [i|]; [|done]. destruct (bool_decide _); intros [= <- <- <-]; [done|].
    rewrite <- completion. by apply completed_items.
Qed.

Lemma original_bytes b task : (length b <= MAX_BYTES)%nat -> Planned_bytes (Planned_from_original b task) = b.
Proof. intros H. unfold Planned_bytes, Planned_from_original, write. cbn [pn_len pn_bytes]. rewrite take_0. apply (take_app_length b). Qed.

(** The plan carries exactly the text of [l]. *)
Definition carries_text (p : Planned) (l : list Item) : Prop := Planned_bytes p = doc_text l /\ length (pn_bytes p) = MAX_BYTES /\ pn_len p = length (doc_text l).

Lemma rendered_spec l appended done_id task : items_ok l ->
  match appended with None => True | Some (id, title) => items_ok ((completed done_id <$> l) ++ [mkItem id TOpen title]) end ->
  exists p, Planned_rendered (doc_of l) appended done_id task = Ok p /\ pn_task p = task /\ pn_changed p = true /\
    carries_text p ((completed done_id <$> l) ++ match appended with None => [] | Some (id, title) => [mkItem id TOpen title] end).
Proof.
  intros H Ha. unfold Planned_rendered. destruct (render_document_spec l appended done_id H Ha) as ([out n] & -> & Hl & Hn & Ht). cbn [map_err fst snd] in *.
  eexists. split; [done|]. do 2 (split; [done|]). by split.
Qed.

Lemma plan_spec l c : items_ok l ->
  match edit_items l c with
  | Ok (l', id, changed) => exists p, plan (doc_text l) c = Ok p /\ carries_text p l' /\ pn_task p = id /\ pn_changed p = changed
  | Err e => plan (doc_text l) c = Err e
  | Panic => False
  end.
Proof.
  intros H. pose proof (doc_text_bound l H) as Hb. assert (Hp : Document_parse (doc_text l) = Ok (doc_of l)) by (apply parse_doc_text; [done|unfold MAX_BYTES; lia]).
  pose proof (edit_items_ok l c) as Hok. unfold plan. rewrite Hp. cbn [map_err]. destruct c as [title|id]; cbn [edit_items] in *.
  - unfold plan_add. destruct (validate_title title) as [[]|e|] eqn:Et; [|done|by unfold validate_title in Et; destruct (_ || _)].
    change (dc_len (doc_of l)) with (length l). destruct H as (H1 & H2 & H3). pose proof (last_id_bounds l H1).
    destruct (Nat.eqb_spec (length l) MAX_TASKS); destruct (Nat.leb_spec MAX_TASKS (length l)); try lia; [done|].
    rewrite (greatest_id_spec [] l 0 ltac:(lia) : greatest_id (doc_of l) (seq 0 (length l)) 0 = _). rewrite Z.max_r by lia.
    destruct (Z.ltb_spec u32_max (last_id l + 1)); destruct (Z.leb_spec u32_max (last_id l)); try lia; [done|].
    destruct (rendered_spec l (Some (last_id l + 1, title)) None (last_id l + 1) (conj H1 (conj H2 H3))) as (p & -> & Et' & Ec & Hc).
    { rewrite no_completion. by apply (Hok _ _ _ (conj H1 (conj H2 H3)) eq_refl). }
    exists p. rewrite no_completion in Hc. by split.
  - unfold plan_done. destruct (id =? 0); [done|]. change (dc_len (doc_of l)) with (length l).
    rewrite (find_task_spec [] l id : find_task (doc_of l) id (seq 0 (length l)) = _).
    destruct (List.find _ l) as [i|]; [|done]. cbn [fmap option_fmap option_map ok_or task_of ta_state].
    destruct (bool_decide (im_state i = TDone)).
    + exists (Planned_from_original (doc_text l) id). split; [done|]. split; [|done]. split; [apply original_bytes; unfold MAX_BYTES; lia|]. split; [|done].
      cbn [pn_bytes Planned_from_original]. apply length_write. unfold zeros. rewrite length_replicate. unfold MAX_BYTES. lia.
    + destruct (rendered_spec l None (Some id) id H I) as (p & -> & Et' & Ec & Hc). exists p. rewrite app_nil_r, completion in Hc. by split.
Qed.

Lemma plan_refused b c e : Document_parse b = Err e -> plan b c = Err (document_error e).
Proof. intros H. unfold plan. by rewrite H. Qed.
