(* ===== verification/TaskWire.v ===== *)
(** * The task wire (crates/tasks-contract/src/wire.rs, preview.rs, candidate.rs)

    The eight-word messages between the tasks application, its supervisor and
    its client: requests, rows, the preview summary and the chunks of a planned
    candidate. *)
From stdpp Require Import base list option numbers.
From Stdlib Require Import ZArith Lia Bool.
From S2P Require Import Prelude Bytes Codec AbiRuntime TaskDocument.

(** [words[i]] and [words[n..].iter().any(|word| *word != 0)]; a message has
    eight words by its type. *)
Definition word (w : list Z) (i : nat) : Z := nth i w 0.
Definition nonzero_from (n : nat) (w : list Z) : bool := existsb (fun x => negb (x =? 0)) (drop n w).

(** [u64::from_le_bytes] of the eight-byte parts of an array, and back. *)
Definition byte_words (n : nat) (b : list Z) : list Z := words_decode_loop n b.
Definition word_bytes (w : list Z) : list Z := words_encode w.

(** ** Edits and summaries (preview.rs) *)
Inductive Edit := EdAdd (title : list Z) (length : nat) | EdDone (id : Z).
#[global] Instance Edit_eq_dec : EqDecision Edit.
Proof. solve_decision. Defined.

Definition Edit_add (b : list Z) : option Edit :=
  if (length b =? 0)%nat || (MAX_TITLE <? length b)%nat || existsb (fun b => negb (printable b)) b then None
  else Some (EdAdd (write (zeros MAX_TITLE) 0 b) (length b)).

Definition Edit_words (e : Edit) : list Z :=
  match e with
  | EdDone id => [2; id; 0; 0; 0; 0]
  | EdAdd title n => [1; Z.of_nat n] ++ byte_words 3 title ++ [0]
  end.

Definition Edit_decode (w : list Z) : option Edit :=
  if (word w 0 =? 1) && (1 <=? word w 1) && (word w 1 <=? Z.of_nat MAX_TITLE) && (word w 5 =? 0) then
    let title := word_bytes (slice w 2 5) in
    let n := Z.to_nat (word w 1) in
    if existsb (fun b => negb (b =? 0)) (drop n title) then None else Edit_add (take n title)
  else if (word w 0 =? 2) && negb (word w 1 =? 0) && negb (nonzero_from 2 w) then
    if word w 1 <=? u32_max then Some (EdDone (word w 1)) else None
  else None.

Record Summary := mkSummary { sm_count : Z; sm_version : Z; sm_task : Z; sm_changed : bool }.
#[global] Instance Summary_eq_dec : EqDecision Summary.
Proof. solve_decision. Defined.

Definition Summary_decode (w : list Z) : option Summary :=
  if (Z.of_nat MAX_TASKS <? word w 0) || (word w 1 =? 0) || (word w 2 =? 0) || (1 <? word w 3) || nonzero_from 4 w then None
  else if word w 2 <=? u32_max then Some (mkSummary (word w 0) (word w 1) (word w 2) (word w 3 =? 1)) else None.

Definition Summary_words (s : Summary) : list Z := [sm_count s; sm_version s; sm_task s; Z.b2z (sm_changed s); 0; 0; 0].

(** ** Candidate chunks (candidate.rs) *)
Definition CANDIDATE_BYTES : Z := 4.
Definition CANDIDATE_CHUNK : Z := 6.
Definition MAX_CHUNK : nat := 32.

Record Chunk := mkChunk { ck_offset : Z; ck_total : Z; ck_length : Z; ck_bytes : list Z }.

(** [usize::try_from(self.length).unwrap()] does not fail on a 64-bit target. *)
Definition Chunk_bytes (c : Chunk) : list Z := take (Z.to_nat (ck_length c)) (ck_bytes c).
Definition Chunk_is_final (c : Chunk) : bool :=
  match checked_add (ck_offset c) (ck_length c) with Some fin => fin =? ck_total c | None => false end.

Definition candidate_request_words (offset : nat) : list Z := [CANDIDATE_BYTES; Z.of_nat offset; 0; 0; 0; 0; 0; 0].
Definition candidate_decode_request (w : list Z) : option nat :=
  if negb (word w 0 =? CANDIDATE_BYTES) || nonzero_from 2 w then None
  else if word w 1 <=? Z.of_nat MAX_BYTES then Some (Z.to_nat (word w 1)) else None.

Definition chunk (candidate : list Z) (offset : nat) : option Chunk :=
  if (length candidate =? 0)%nat || (MAX_BYTES <? length candidate)%nat || (length candidate <=? offset)%nat then None
  else
    let n := Nat.min MAX_CHUNK (length candidate - offset) in
    Some (mkChunk (Z.of_nat offset) (Z.of_nat (length candidate)) (Z.of_nat n) (write (zeros MAX_CHUNK) 0 (slice candidate offset (offset + n)))).

Definition chunk_words (marker : Z) (c : Chunk) : list Z := [marker; ck_offset c; ck_total c; ck_length c] ++ byte_words 4 (ck_bytes c).
Definition response_words (c : Chunk) : list Z := chunk_words CANDIDATE_CHUNK c.
Definition owner_words (c : Chunk) : list Z := chunk_words 0 c.

Definition decode_chunk (w : list Z) (marker : Z) : option Chunk :=
  if negb (word w 0 =? marker) then None
  else
    let offset := word w 1 in
    let total := word w 2 in
    let n := word w 3 in
    if (total =? 0) || (Z.of_nat MAX_BYTES <? total) || (total <=? offset) || (n =? 0) || (Z.of_nat MAX_CHUNK <? n) then None
    else if negb (n =? Z.min (Z.of_nat MAX_CHUNK) (total - offset)) then None
    else
      let bytes := word_bytes (drop 4 w) in
      if existsb (fun b => negb (b =? 0)) (drop (Z.to_nat n) bytes) then None else Some (mkChunk offset total n bytes).

Definition Chunk_decode_response (w : list Z) : option Chunk := decode_chunk w CANDIDATE_CHUNK.
Definition Chunk_decode_owner (w : list Z) : option Chunk := decode_chunk w 0.

(** ** Requests and responses (wire.rs) *)
Definition WIRE_LIST : Z := 1.
Definition WIRE_NEXT : Z := 2.
Definition WIRE_PREVIEW : Z := 3.
Definition WIRE_PREVIEW_END : Z := 5.
Definition WIRE_ROW : Z := 0.
Definition WIRE_END : Z := 1.
Definition WIRE_INVALID : Z := 2.
Definition WIRE_CAPACITY : Z := 3.
Definition WIRE_SERVICE : Z := 4.

Inductive TaskRequest := TaskList | TaskNext | TaskPreview (e : Edit) | TaskBytes (offset : nat).
Record Row := mkRow { rw_id : Z; rw_state : TaskState; rw_title : list Z; rw_len : nat }.
Inductive TaskResponse :=
| RowResponse (r : Row) | EndResponse (count : Z) | PreviewEnd (s : Summary) | CandidateResponse (c : Chunk)
| InvalidResponse | CapacityResponse | ServiceResponse (code : Z).

Definition decode_task_request (w : list Z) : option TaskRequest :=
  if (word w 0 =? WIRE_PREVIEW) && (word w 7 =? 0) then TaskPreview <$> Edit_decode (slice w 1 7)
  else if nonzero_from 2 w then None
  else if word w 0 =? CANDIDATE_BYTES then TaskBytes <$> candidate_decode_request w
  else if word w 0 =? WIRE_LIST then if word w 1 =? 0 then Some TaskList else None
  else if word w 0 =? WIRE_NEXT then if word w 1 =? 0 then Some TaskNext else None
  else None.

Definition task_request_words (r : TaskRequest) : list Z :=
  match r with
  | TaskList => [WIRE_LIST; 0; 0; 0; 0; 0; 0; 0]
  | TaskNext => [WIRE_NEXT; 0; 0; 0; 0; 0; 0; 0]
  | TaskPreview e => [WIRE_PREVIEW] ++ Edit_words e ++ [0]
  | TaskBytes offset => candidate_request_words offset
  end.

Definition preview_end (s : Summary) : list Z := WIRE_PREVIEW_END :: Summary_words s.
Definition row_words (r : Row) : list Z :=
  [WIRE_ROW; rw_id r; TaskState_code (rw_state r); Z.of_nat (rw_len r)] ++ byte_words 3 (rw_title r) ++ [0].
Definition row_of (t : Task) : Row := mkRow (ta_id t) (ta_state t) (ta_title t) (ta_len t).
Definition wire_row (t : Task) : list Z := row_words (row_of t).
Definition wire_end (count : nat) : list Z := [WIRE_END; Z.of_nat count; 0; 0; 0; 0; 0; 0].
Definition wire_invalid : list Z := [WIRE_INVALID; 0; 0; 0; 0; 0; 0; 0].
Definition wire_capacity : list Z := [WIRE_CAPACITY; 0; 0; 0; 0; 0; 0; 0].
Definition wire_service (code : Z) : list Z := [WIRE_SERVICE; code; 0; 0; 0; 0; 0; 0].

Definition decode_row (w : list Z) : option TaskResponse :=
  let n := Z.to_nat (word w 3) in
  if (word w 1 =? 0) || (word w 3 =? 0) || (Z.of_nat MAX_TITLE <? word w 3) then None
  else
    match TaskState_from_code (word w 2) with
    | None => None
    | Some state =>
      let title := word_bytes (slice w 4 7) in
      if existsb (fun b => negb (b =? 0)) (drop n title) || existsb (fun b => negb (printable b)) (take n title) || negb (word w 7 =? 0) then None
      else if word w 1 <=? u32_max then Some (RowResponse (mkRow (word w 1) state title n)) else None
    end.

Definition decode_task_response (w : list Z) : option TaskResponse :=
  let op := word w 0 in
  if op =? WIRE_PREVIEW_END then PreviewEnd <$> Summary_decode (drop 1 w)
  else if op =? CANDIDATE_CHUNK then CandidateResponse <$> Chunk_decode_response w
  else if op =? WIRE_ROW then decode_row w
  else if op =? WIRE_END then
    if negb (nonzero_from 2 w) && (word w 1 <=? Z.of_nat MAX_TASKS) then Some (EndResponse (word w 1)) else None
  else if op =? WIRE_INVALID then if negb (nonzero_from 1 w) then Some InvalidResponse else None
  else if op =? WIRE_CAPACITY then if negb (nonzero_from 1 w) then Some CapacityResponse else None
  else if op =? WIRE_SERVICE then if negb (nonzero_from 2 w) then Some (ServiceResponse (word w 1)) else None
  else None.

(** ** What each message may carry *)
Definition title_ok (t : list Z) : Prop := (0 < length t <= MAX_TITLE)%nat /\ Forall (fun b => printable b = true) t.
Definition edit_ok (e : Edit) : Prop :=
  match e with
  | EdAdd title n => exists t, title_ok t /\ title = pad_title t /\ n = length t
  | EdDone id => 0 < id <= u32_max
  end.
Definition summary_ok (s : Summary) : Prop := 0 <= sm_count s <= Z.of_nat MAX_TASKS /\ 0 < sm_version s <= u64_max /\ 0 < sm_task s <= u32_max.
Definition chunk_ok (c : Chunk) : Prop :=
  0 <= ck_offset c < ck_total c /\ ck_total c <= Z.of_nat MAX_BYTES /\ ck_length c = Z.min (Z.of_nat MAX_CHUNK) (ck_total c - ck_offset c) /\
  exists t, bytes_ok t /\ Z.of_nat (length t) = ck_length c /\ ck_bytes c = t ++ zeros (MAX_CHUNK - length t).
Definition row_ok (r : Row) : Prop := 0 < rw_id r <= u32_max /\ exists t, title_ok t /\ rw_title r = pad_title t /\ rw_len r = length t.

Definition task_request_ok (r : TaskRequest) : Prop :=
  match r with TaskList | TaskNext => True | TaskPreview e => edit_ok e | TaskBytes offset => (offset <= MAX_BYTES)%nat end.
Definition task_response_ok (r : TaskResponse) : Prop :=
  match r with
  | RowResponse r => row_ok r | EndResponse n => 0 <= n <= Z.of_nat MAX_TASKS | PreviewEnd s => summary_ok s | CandidateResponse c => chunk_ok c
  | InvalidResponse | CapacityResponse => True | ServiceResponse code => fits 64 code
  end.
(** The words each response is sent as. *)
Definition task_response_words (r : TaskResponse) : list Z :=
  match r with
  | RowResponse r => row_words r | EndResponse n => wire_end (Z.to_nat n) | PreviewEnd s => preview_end s | CandidateResponse c => response_words c
  | InvalidResponse => wire_invalid | CapacityResponse => wire_capacity | ServiceResponse code => wire_service code
  end.

Definition message (w : list Z) : Prop := length w = 8%nat /\ Forall (fits 64) w.

(** ** Bytes in words *)
Lemma no_nonzero l : existsb (fun b => negb (b =? 0)) l = false <-> l = zeros (length l).
Proof.
  rewrite existsb_false. split.
  - intros H. symmetry. apply replicate_as_Forall_2; [done|]. apply list.Forall_forall. intros b Hb. specialize (H b Hb). apply negb_false_iff, Z.eqb_eq in H. done.
  - intros E b Hb. rewrite E in Hb. apply elem_of_replicate in Hb as [-> _]. done.
Qed.

Lemma words_padding k n w : length w = k -> Forall (fits 64) w -> (n <= 8 * k)%nat -> existsb (fun b => negb (b =? 0)) (drop n (word_bytes w)) = false ->
  word_bytes w = take n (word_bytes w) ++ zeros (8 * k - n) /\ byte_words k (word_bytes w) = w /\ bytes_ok (take n (word_bytes w)) /\ length (take n (word_bytes w)) = n.
Proof.
  intros <- Hw Hn H. apply no_nonzero in H. rewrite length_drop in H. unfold word_bytes in *. rewrite length_words_encode in H.
  split; [by rewrite <- H, take_drop|]. split; [by apply words_round|]. split; [apply Forall_take, bytes_ok_words|]. rewrite length_take, length_words_encode. lia.
Qed.

Lemma bytes_words k b : length b = (8 * k)%nat -> bytes_ok b -> length (byte_words k b) = k /\ Forall (fits 64) (byte_words k b) /\ word_bytes (byte_words k b) = b.
Proof. intros Hl Hb. by destruct (words_canonical k b Hl Hb) as (? & ? & ?). Qed.

Lemma padded_zero t n : existsb (fun b => negb (b =? 0)) (drop (length t) (t ++ zeros n)) = false /\ take (length t) (t ++ zeros n) = t.
Proof. rewrite drop_app_length, take_app_length. split; [|done]. apply no_nonzero. unfold zeros. by rewrite length_replicate. Qed.

Lemma padded_bytes t n : bytes_ok t -> bytes_ok (t ++ zeros n).
Proof. intros H. apply list.Forall_app. split; [done|apply bytes_ok_zeros]. Qed.

Lemma printable_bytes t : Forall (fun b => printable b = true) t -> bytes_ok t.
Proof. apply Forall_impl. intros b Hb%printable_range. unfold is_byte. lia. Qed.

Lemma Edit_add_spec b e : Edit_add b = Some e <-> title_ok b /\ e = EdAdd (pad_title b) (length b).
Proof.
  unfold Edit_add, title_ok. destruct (_ || _) eqn:G.
  - split; [done|]. intros ([Hl Hp] & _). exfalso. apply orb_true_iff in G as [G|G]; [apply orb_true_iff in G as [G|G]; [apply Nat.eqb_eq in G|apply Nat.ltb_lt in G]; lia|].
    apply existsb_exists in G as (x & Hb & Eb). apply list_elem_of_In in Hb. rewrite (proj1 (list.Forall_forall _ _) Hp x Hb) in Eb. done.
  - apply orb_false_iff in G as [G Hp]. bools. rewrite stored_title by lia. split; [intros [= <-]|by intros (_ & ->)].
    split; [|done]. split; [lia|]. apply list.Forall_forall. intros x Hx. pose proof (proj1 (existsb_false _ _) Hp x Hx). by apply negb_false_iff.
Qed.

Lemma pad_title_words t : title_ok t -> exists x y z, byte_words 3 (pad_title t) = [x; y; z] /\ fits 64 x /\ fits 64 y /\ fits 64 z /\ word_bytes [x; y; z] = pad_title t.
Proof.
  intros [Hl Hp]. destruct (bytes_words 3 (pad_title t)) as (L & F & E).
  - unfold pad_title, zeros, MAX_TITLE in *. rewrite length_app, length_replicate. lia.
  - by apply padded_bytes, printable_bytes.
  - destruct (byte_words 3 (pad_title t)) as [|x [|y [|z [|]]]]; try done. exists x, y, z. inversion_clear F as [|? ? ? F']. inversion_clear F' as [|? ? ? F'']. by inversion_clear F''.
Qed.

(** Names the words of a message of known length. *)
Ltac spell :=
  repeat match goal with
  | L : length ?w = S _ |- _ => is_var w; destruct w; [discriminate L|cbn [length] in L; apply Nat.succ_inj in L]
  | L : length ?w = 0%nat |- _ => is_var w; apply nil_length_inv in L; subst w
  | F : Forall _ (_ :: _) |- _ => apply list.Forall_cons in F as [? F]
  | F : Forall _ [] |- _ => clear F
  end.

Ltac spelled := repeat (apply Forall_cons_2; [assumption|]); apply Forall_nil_2.

Lemma zero_tail l : existsb (fun x => negb (x =? 0)) l = false -> Forall (eq 0) l.
Proof. intros H. apply list.Forall_forall. intros x Hx. pose proof (proj1 (existsb_false _ _) H x Hx) as E. by apply negb_false_iff, Z.eqb_eq in E. Qed.

(** The tests of a decoder, as equations between words. *)
Ltac zeros_of :=
  match goal with H : existsb _ _ = false |- _ => apply zero_tail in H end;
  repeat match goal with F : Forall (eq 0) (_ :: _) |- _ => apply list.Forall_cons in F as [<- F] end.

Lemma Edit_decode_spec w e : length w = 6%nat -> Forall (fits 64) w -> Edit_decode w = Some e <-> edit_ok e /\ w = Edit_words e.
Proof.
  intros L F. split.
  - spell. unfold Edit_decode, word, nonzero_from, slice. cbn [nth drop take Nat.sub]. destruct (_ && _) eqn:G.
    + bools. subst. destruct (existsb _ _) eqn:Ez; [done|]. intros Ha.
      destruct (words_padding 3 (Z.to_nat z0) [z1; z2; z3] eq_refl ltac:(spelled) ltac:(unfold MAX_TITLE in *; lia) Ez) as (Ew & Eb & _ & El).
      apply Edit_add_spec in Ha as [Ht ->]. rewrite El. split; [by eexists|]. cbn [Edit_words]. rewrite Z2Nat.id by lia.
      change (8 * 3)%nat with MAX_TITLE in Ew. unfold pad_title. by rewrite El, <- Ew, Eb.
    + match goal with |- (if ?c then _ else _) = _ -> _ => destruct c eqn:G2 end; [|discriminate]. bools. zeros_of. subst. destruct (Z.leb_spec z0 u32_max); [|done]. intros [= <-]. unfold fits in *. split; [cbn; lia|done].
  - intros [He ->]. destruct e as [title n|id]; cbn [edit_ok Edit_words] in *.
    + destruct He as (t & Ht & -> & ->). destruct (pad_title_words t Ht) as (x & y & z & E & _ & _ & _ & Eb). rewrite E.
      unfold Edit_decode, word, nonzero_from, slice. cbn [nth drop take Nat.sub app]. rewrite Eb, Nat2Z.id. destruct Ht as [Hl Hp].
      rewrite !(proj2 (Z.leb_le _ _)) by lia. cbn [Z.eqb andb Pos.eqb]. destruct (padded_zero t (MAX_TITLE - length t)) as [Ep Et]. fold (pad_title t) in *. rewrite Ep, Et.
      by apply Edit_add_spec.
    + unfold Edit_decode, word, nonzero_from, slice. cbn [nth drop take Nat.sub app existsb]. cbn [Z.eqb Pos.eqb andb negb orb].
      rewrite (proj2 (Z.eqb_neq _ _)), (proj2 (Z.leb_le _ _)) by lia. done.
Qed.

Lemma Summary_decode_spec w s : length w = 7%nat -> Forall (fits 64) w -> Summary_decode w = Some s <-> summary_ok s /\ w = Summary_words s.
Proof.
  intros L F. split.
  - spell. unfold Summary_decode, word, nonzero_from. cbn [nth drop]. destruct (_ || _) eqn:G; [done|]. bools. zeros_of. destruct (Z.leb_spec z1 u32_max); [|done]. intros [= <-].
    unfold fits, u64_max in *. split; [unfold summary_ok, u64_max; cbn [sm_count sm_version sm_task]; lia|]. cbn. by destruct (Z.eqb_spec z2 1); [subst|replace z2 with 0 by lia].
  - intros [(H1 & H2 & H3) ->]. unfold Summary_decode, Summary_words, word, nonzero_from. cbn [nth drop existsb].
    rewrite !(proj2 (Z.eqb_neq _ _)) by lia. rewrite (proj2 (Z.ltb_ge _ _)) by lia. rewrite (proj2 (Z.leb_le _ _)) by lia. destruct s as [n v t []]; done.
Qed.

Lemma chunk_words_bytes marker c : chunk_ok c -> length (chunk_words marker c) = 8%nat /\ word_bytes (drop 4 (chunk_words marker c)) = ck_bytes c.
Proof.
  intros (_ & _ & H3 & t & Ht & Hl & E). unfold chunk_words. cbn [app drop length]. destruct (bytes_words 4 (ck_bytes c)) as (L & _ & Eb).
  - rewrite E. unfold zeros, MAX_CHUNK in *. rewrite length_app, length_replicate. lia.
  - rewrite E. by apply padded_bytes.
  - by rewrite drop_0, L, Eb.
Qed.

Lemma decode_chunk_spec w marker c : message w -> decode_chunk w marker = Some c <-> chunk_ok c /\ w = chunk_words marker c.
Proof.
  intros [L F]. split.
  - spell. unfold decode_chunk, word. cbn [nth drop]. rewrite ?drop_0. destruct (Z.eqb_spec z marker) as [->|]; [cbn [negb]|done]. destruct (_ || _) eqn:G; [done|]. bools.
    destruct (Z.eqb_spec z2 (Z.min (Z.of_nat MAX_CHUNK) (z1 - z0))) as [En|]; [cbn [negb]|done]. destruct (existsb _ _) eqn:Ez; [done|]. intros <-%(inj Some).
    destruct (words_padding 4 (Z.to_nat z2) [z3; z4; z5; z6] eq_refl ltac:(spelled) ltac:(unfold MAX_CHUNK in *; lia) Ez) as (Ew & Eb & Hb & El).
    unfold fits in *. split; [|unfold chunk_words; cbn [ck_offset ck_total ck_length ck_bytes]; by rewrite Eb].
    split; [cbn; lia|]. split; [cbn [ck_total]; lia|]. split; [done|]. exists (take (Z.to_nat z2) (word_bytes [z3; z4; z5; z6])). split; [done|].
    cbn [ck_length ck_bytes]. rewrite El. split; [lia|]. exact Ew.
  - intros [H ->]. destruct (chunk_words_bytes marker c H) as [_ Eb]. destruct H as (H1 & H2 & H3 & t & Ht & Hl & E). unfold decode_chunk. rewrite Eb.
    unfold word, chunk_words. cbn [nth app]. rewrite Z.eqb_refl. cbn [negb]. unfold MAX_CHUNK in *. rewrite !(proj2 (Z.eqb_neq _ 0)) by lia. rewrite !(proj2 (Z.ltb_ge _ _)) by lia.
    rewrite (proj2 (Z.leb_gt _ _)) by lia. cbn [orb]. rewrite <- H3, Z.eqb_refl. cbn [negb]. rewrite E. replace (Z.to_nat (ck_length c)) with (length t) by lia.
    rewrite (proj1 (padded_zero t _)). rewrite <- E. by destruct c.
Qed.

Lemma TaskState_codes s x : TaskState_from_code x = Some s <-> x = TaskState_code s.
Proof.
  unfold TaskState_from_code. destruct (Z.eqb_spec x 1) as [->|H1]; [split; [by intros [= <-]|by destruct s]|].
  destruct (Z.eqb_spec x 2) as [->|H2]; [split; [by intros [= <-]|by destruct s]|]. split; [done|]. intros ->. by destruct s.
Qed.

Lemma decode_row_spec w r : message w -> word w 0 = WIRE_ROW -> decode_row w = Some r <-> exists row, r = RowResponse row /\ row_ok row /\ w = row_words row.
Proof.
  intros [L F] H0. split.
  - spell. unfold decode_row, word, slice in *. cbn [nth drop take Nat.sub] in *. subst z. destruct (_ || _) eqn:G; [done|]. bools.
    destruct (TaskState_from_code z1) as [s|] eqn:Es; [|done]. apply TaskState_codes in Es as ->.
    match goal with |- (if ?c then _ else _) = _ -> _ => destruct c eqn:G2 end; [discriminate|]. apply orb_false_iff in G2 as [G2 E7]. apply orb_false_iff in G2 as [Ez Ep].
    destruct (Z.leb_spec z0 u32_max); [|done]. intros <-%(inj Some). apply negb_false_iff, Z.eqb_eq in E7 as ->. unfold fits, MAX_TITLE in *.
    destruct (words_padding 3 (Z.to_nat z2) [z3; z4; z5] eq_refl ltac:(spelled) ltac:(lia) Ez) as (Ew & Eb & _ & El).
    eexists. split; [done|]. split.
    + split; [cbn [rw_id]; lia|]. exists (take (Z.to_nat z2) (word_bytes [z3; z4; z5])). cbn [rw_title rw_len]. split; [split; [unfold MAX_TITLE; lia|]|].
      * apply list.Forall_forall. intros b Hb. pose proof (proj1 (existsb_false _ _) Ep b Hb). by apply negb_false_iff.
      * split; [|done]. unfold pad_title. rewrite El. exact Ew.
    + unfold row_words. cbn [rw_id rw_state rw_title rw_len]. rewrite Eb, Z2Nat.id by lia. done.
  - intros (row & -> & (Hid & t & Ht & Et & En) & ->). unfold decode_row, row_words. rewrite Et, En. destruct (pad_title_words t Ht) as (x & y & z & E & _ & _ & _ & Eb). rewrite E.
    unfold word, slice. cbn [nth drop take Nat.sub app]. rewrite Eb, Nat2Z.id. destruct Ht as [Hl Hp]. rewrite !(proj2 (Z.eqb_neq _ 0)) by lia.
    rewrite (proj2 (Z.ltb_ge _ _)) by lia. cbn [orb]. rewrite (proj2 (TaskState_codes (rw_state row) _)) by done.
    destruct (padded_zero t (MAX_TITLE - length t)) as [Ep Etk]. fold (pad_title t) in *. rewrite Ep, Etk.
    rewrite (proj2 (existsb_false _ _)); [|intros b Hb; by rewrite (proj1 (list.Forall_forall _ _) Hp b Hb)]. cbn [Z.eqb negb orb]. rewrite (proj2 (Z.leb_le _ _)) by lia.
    rewrite <- Et, <- En. by destruct row.
Qed.

Lemma candidate_request_spec w n : message w -> candidate_decode_request w = Some n <-> (n <= MAX_BYTES)%nat /\ w = candidate_request_words n.
Proof.
  intros [L F]. split.
  - spell. unfold candidate_decode_request, word, nonzero_from. cbn [nth drop]. destruct (_ || _) eqn:G; [done|]. bools. zeros_of.
    destruct (Z.leb_spec z0 (Z.of_nat MAX_BYTES)); [|done]. intros <-%(inj Some). unfold fits in *. split; [lia|]. unfold candidate_request_words. rewrite Z2Nat.id by lia. by subst.
  - intros [H ->]. unfold candidate_decode_request, candidate_request_words, word, nonzero_from. cbn [nth drop existsb]. cbn [Z.eqb negb orb Pos.eqb CANDIDATE_BYTES].
    rewrite (proj2 (Z.leb_le _ _)) by lia. by rewrite Nat2Z.id.
Qed.

Lemma fmap_Some_iff {A B} (f : A -> B) o b : f <$> o = Some b <-> exists a, b = f a /\ o = Some a.
Proof. rewrite fmap_Some. split; intros (a & H1 & H2); eauto. Qed.

Lemma Edit_words_length e : edit_ok e -> length (Edit_words e) = 6%nat.
Proof. destruct e as [title n|id]; [|done]. intros (t & Ht & -> & _). by destruct (pad_title_words t Ht) as (x & y & z & E & _); cbn [Edit_words]; rewrite E. Qed.

(** ** Every message has one meaning and one form *)
Lemma decode_request_spec w r : message w -> decode_task_request w = Some r <-> task_request_ok r /\ w = task_request_words r.
Proof.
  intros Hm. split.
  - unfold decode_task_request. destruct (_ && _) eqn:G.
    + apply andb_true_iff in G as [E0%Z.eqb_eq E7%Z.eqb_eq]. intros (e & -> & He)%fmap_Some_iff. destruct Hm as [L F].
      apply Edit_decode_spec in He as [He Ew]; [|unfold slice; rewrite length_take, length_drop; lia|by apply Forall_take, Forall_drop].
      split; [done|]. spell. cbn [task_request_words]. rewrite <- Ew. unfold word, slice in *. cbn [nth drop take Nat.sub app] in *. by subst.
    + clear G. destruct (nonzero_from 2 w) eqn:Ez; [done|]. destruct (word w 0 =? CANDIDATE_BYTES) eqn:E0.
      { intros (n & -> & Hn)%fmap_Some_iff. by apply candidate_request_spec in Hn. }
      destruct Hm as [L F]. spell. unfold word, nonzero_from in *. cbn [nth drop] in *. zeros_of.
      destruct (Z.eqb_spec z WIRE_LIST) as [->|]; [destruct (Z.eqb_spec z0 0) as [->|]; [by intros [= <-]|done]|].
      destruct (Z.eqb_spec z WIRE_NEXT) as [->|]; [destruct (Z.eqb_spec z0 0) as [->|]; [by intros [= <-]|done]|done].
  - intros [Hr ->]. destruct r as [| |e|n]; try done; cbn [task_request_ok task_request_words] in *.
    + pose proof (Edit_words_length e Hr) as L. destruct Hm as [_ F]. assert (Fe : Forall (fits 64) (Edit_words e)).
      { apply list.Forall_cons in F as [_ F]. by apply list.Forall_app in F as [F _]. }
      destruct (Edit_words e) as [|a0 [|a1 [|a2 [|a3 [|a4 [|a5 [|]]]]]]] eqn:Ee; try done. unfold decode_task_request, word, slice. cbn [nth drop take Nat.sub app].
      cbn [Z.eqb Pos.eqb andb WIRE_PREVIEW]. rewrite (proj2 (Edit_decode_spec [a0; a1; a2; a3; a4; a5] e eq_refl Fe) (conj Hr (eq_sym Ee))). done.
    + unfold decode_task_request. change (word (candidate_request_words n) 0 =? WIRE_PREVIEW) with false. cbn [andb]. change (nonzero_from 2 (candidate_request_words n)) with false.
      change (word (candidate_request_words n) 0 =? CANDIDATE_BYTES) with true. cbv iota. by rewrite (proj2 (candidate_request_spec _ n Hm) (conj Hr eq_refl)).
Qed.

Lemma decode_response_spec w r : message w -> decode_task_response w = Some r <-> task_response_ok r /\ w = task_response_words r.
Proof.
  intros Hm. split.
  - unfold decode_task_response. destruct (Z.eqb_spec (word w 0) WIRE_PREVIEW_END) as [E|].
    { intros (s & -> & Hs)%fmap_Some_iff. destruct Hm as [L F]. destruct w as [|z w]; [done|]. change (drop 1 (z :: w)) with w in Hs. apply Summary_decode_spec in Hs as [Hs ->]; [|by injection L|by apply list.Forall_cons in F as [_ F]].
      unfold word in E. cbn [nth] in E. by subst z. }
    destruct (Z.eqb_spec (word w 0) CANDIDATE_CHUNK) as [E|]; [intros (c & -> & Hc)%fmap_Some_iff; by apply decode_chunk_spec in Hc|].
    destruct (Z.eqb_spec (word w 0) WIRE_ROW) as [E|]; [intros (row & -> & Hr)%decode_row_spec; done|].
    destruct Hm as [L F]. spell. unfold word, nonzero_from in *. cbn [nth drop] in *.
    destruct (Z.eqb_spec z WIRE_END) as [->|].
    { destruct (_ && _) eqn:G; [|done]. bools. zeros_of. intros <-%(inj Some). unfold fits in *. split; [cbn [task_response_ok]; lia|]. cbn [task_response_words]. unfold wire_end. by rewrite Z2Nat.id by lia. }
    destruct (Z.eqb_spec z WIRE_INVALID) as [->|]; [destruct (negb _) eqn:G; [|done]; bools; zeros_of; by intros <-%(inj Some)|].
    destruct (Z.eqb_spec z WIRE_CAPACITY) as [->|]; [destruct (negb _) eqn:G; [|done]; bools; zeros_of; by intros <-%(inj Some)|].
    destruct (Z.eqb_spec z WIRE_SERVICE) as [->|]; [|done]. destruct (negb _) eqn:G; [|done]. bools. zeros_of. by intros <-%(inj Some).
  - intros [Hr ->]. destruct r as [row|n|s|c| | |code]; cbn [task_response_ok task_response_words] in *; try done.
    + unfold decode_task_response. change (word (row_words row) 0) with WIRE_ROW. cbn [Z.eqb WIRE_ROW WIRE_PREVIEW_END CANDIDATE_CHUNK]. apply decode_row_spec; [done|done|by eexists].
    + unfold decode_task_response, wire_end, word, nonzero_from. cbn [nth drop existsb]. cbn [Z.eqb Pos.eqb negb orb andb WIRE_END WIRE_PREVIEW_END CANDIDATE_CHUNK WIRE_ROW].
      rewrite (proj2 (Z.leb_le _ _)) by lia. by rewrite Z2Nat.id by lia.
    + unfold decode_task_response, preview_end. change (word (WIRE_PREVIEW_END :: Summary_words s) 0) with WIRE_PREVIEW_END. rewrite Z.eqb_refl.
      change (drop 1 (WIRE_PREVIEW_END :: Summary_words s)) with (Summary_words s). rewrite (proj2 (Summary_decode_spec (Summary_words s) s eq_refl ltac:(destruct Hm as [_ F]; by apply list.Forall_cons in F as [_ F])) (conj Hr eq_refl)). done.
    + unfold decode_task_response. change (word (response_words c) 0) with CANDIDATE_CHUNK. cbn [Z.eqb Pos.eqb WIRE_PREVIEW_END CANDIDATE_CHUNK]. unfold Chunk_decode_response.
      by rewrite (proj2 (decode_chunk_spec _ CANDIDATE_CHUNK c Hm) (conj Hr eq_refl)).
Qed.

(** ** Typed values *)
(** The values the Rust types hold. *)
Definition summary_typed (s : Summary) : Prop := fits 32 (sm_count s) /\ fits 64 (sm_version s) /\ fits 32 (sm_task s).
Definition edit_typed (e : Edit) : Prop :=
  match e with EdAdd title n => length title = MAX_TITLE /\ bytes_ok title /\ (n < 256)%nat | EdDone id => fits 32 id end.

Lemma edit_ok_typed e : edit_ok e -> edit_typed e.
Proof.
  destruct e as [title n|id]; cbn [edit_ok edit_typed].
  - intros (t & [Hl Hp] & -> & ->). unfold pad_title, zeros, MAX_TITLE in *. rewrite length_app, length_replicate. split; [lia|]. split; [|lia]. by apply padded_bytes, printable_bytes.
  - unfold fits, u32_max. lia.
Qed.

Lemma summary_ok_typed s : summary_ok s -> summary_typed s.
Proof. unfold summary_ok, summary_typed, fits, u64_max, u32_max, MAX_TASKS. lia. Qed.

Lemma edit_words_typed e : edit_typed e -> length (Edit_words e) = 6%nat /\ Forall (fits 64) (Edit_words e).
Proof.
  destruct e as [title n|id]; cbn [edit_typed Edit_words].
  - intros (Hl & Hb & Hn). destruct (bytes_words 3 title Hl Hb) as (L & F & _). rewrite !length_app, L. split; [done|].
    apply list.Forall_app. split; [repeat (apply Forall_cons_2; [unfold fits; lia|]); apply Forall_nil_2|]. apply list.Forall_app. split; [done|]. apply list.Forall_singleton. unfold fits. lia.
  - intros H. split; [done|]. unfold fits in *. repeat (apply Forall_cons_2; [lia|]). apply Forall_nil_2.
Qed.

Lemma summary_words_typed s : summary_typed s -> Forall (fits 64) (Summary_words s).
Proof. unfold summary_typed, fits. intros (? & ? & ?). unfold Summary_words, fits. repeat (apply Forall_cons_2; [destruct (sm_changed s); cbn; lia|]). apply Forall_nil_2. Qed.

(** ** Streams of chunks *)
Lemma wire_chunk_spec b offset : bytes_ok b -> (offset < length b <= MAX_BYTES)%nat -> exists c, chunk b offset = Some c /\ chunk_ok c /\ ck_offset c = Z.of_nat offset /\ ck_total c = Z.of_nat (length b) /\
  Chunk_bytes c = slice b offset (offset + MAX_CHUNK) /\ ck_length c = Z.of_nat (length (Chunk_bytes c)) /\ Chunk_bytes c <> [].
Proof.
  intros Hb H. unfold chunk. rewrite (proj2 (Nat.eqb_neq _ _)) by lia. rewrite (proj2 (Nat.ltb_ge _ _)) by lia. rewrite (proj2 (Nat.leb_gt _ _)) by lia. cbn [orb].
  set (n := Nat.min MAX_CHUNK (length b - offset)). assert (Hn : (0 < n <= MAX_CHUNK)%nat) by (unfold n, MAX_CHUNK; lia). set (t := slice b offset (offset + n)).
  assert (Lt : length t = n) by (unfold t; rewrite length_slice; lia). assert (Et : slice b offset (offset + MAX_CHUNK) = t).
  { unfold t, slice. replace (offset + n - offset)%nat with n by lia. replace (offset + MAX_CHUNK - offset)%nat with MAX_CHUNK by lia. unfold n. destruct (Nat.le_gt_cases MAX_CHUNK (length b - offset)); [by rewrite Nat.min_l|]. rewrite Nat.min_r by lia. rewrite !take_ge; rewrite ?length_drop; [done|lia..]. }
  assert (Ew : write (zeros MAX_CHUNK) 0 t = t ++ zeros (MAX_CHUNK - length t)) by (unfold write, zeros; rewrite take_0, drop_replicate; done).
  eexists. split; [reflexivity|]. unfold Chunk_bytes. cbn [ck_offset ck_total ck_length ck_bytes]. rewrite Ew, Et, Nat2Z.id, <- Lt, take_app_length. split; [|repeat (split; [done|])].
  - split; [cbn; lia|]. split; [cbn; lia|]. split; [cbn; unfold n in *; lia|]. exists t. split; [by apply bytes_ok_slice|]. by cbn.
  - intros E. apply (f_equal length) in E. rewrite Lt in E. cbn [length] in E. lia.
Qed.

(** The chunks asked for one after the other. *)
Fixpoint chunk_stream (fuel : nat) (b : list Z) (offset : nat) : list (list Z) :=
  match fuel with
  | O => []
  | S fuel => match chunk b offset with None => [] | Some c => Chunk_bytes c :: chunk_stream fuel b (offset + Z.to_nat (ck_length c)) end
  end.

Lemma chunk_stream_spec fuel b offset : bytes_ok b -> (length b <= MAX_BYTES)%nat -> (length b - offset < fuel)%nat ->
  concat (chunk_stream fuel b offset) = drop offset b /\ Forall (fun p => p <> []) (chunk_stream fuel b offset).
Proof.
  intros Hb Hl. revert offset. induction fuel as [|fuel IH]; intros offset Hf; [lia|]. cbn [chunk_stream]. destruct (Nat.lt_ge_cases offset (length b)) as [Hlt|Hge].
  - destruct (wire_chunk_spec b offset Hb) as (c & -> & _ & _ & _ & Eb & El & Hne); [lia|]. rewrite El, Nat2Z.id. assert (0 < length (Chunk_bytes c))%nat by (destruct (Chunk_bytes c); [done|cbn; lia]).
    destruct (IH (offset + length (Chunk_bytes c))%nat) as [Ec Hall]; [lia|]. split; [|by constructor]. cbn [concat]. rewrite Ec, Eb. unfold slice. replace (offset + MAX_CHUNK - offset)%nat with MAX_CHUNK by lia.
    rewrite <- drop_drop. rewrite length_take. destruct (Nat.le_gt_cases MAX_CHUNK (length (drop offset b))); [rewrite Nat.min_l by done; apply take_drop|].
    rewrite Nat.min_r by lia. rewrite take_ge by lia. rewrite (drop_ge (drop offset b)) by lia. apply app_nil_r.
  - rewrite drop_ge by lia. unfold chunk. rewrite (proj2 (Nat.leb_le _ _)) by lia. by rewrite orb_true_r.
Qed.
