(* ===== verification/TaskIntent.v ===== *)
(** * The recovery record (crates/tasks-client/src/intent.rs)

    The bytes a client keeps in its journal object from before it submits an edit
    until its outcome is proved: the target, the versions, the command, the
    candidate and its digest.  A record decodes only if it encodes back to the
    same bytes, and the receipt it recognises is that of its own submission. *)
From stdpp Require Import base list option numbers.
From Stdlib Require Import ZArith Lia Bool.
From S2P Require Import Prelude Bytes Codec AbiFiles AbiIdentity AbiMessages AbiReceipts AbiRuntime SdkFiles TaskDocument TaskPlan TaskWire.

Definition INTENT_HEADER : nat := 136.
Definition INTENT_BYTES : nat := 1024.
#[export] Hint Unfold INTENT_HEADER INTENT_BYTES : wire_sizes.
(** [b"RTSKI001"]. *)
Definition INTENT_MAGIC : list Z := [82; 84; 83; 75; 73; 48; 48; 49].

Record Intent := mkIntent { in_bytes : list Z; in_length : nat }.
Definition Intent_encoded (i : Intent) : list Z := take (in_length i) (in_bytes i).
Definition Intent_candidate (i : Intent) : list Z := slice (in_bytes i) INTENT_HEADER (in_length i).
Definition Intent_task_id (i : Intent) : Z := u32_at (in_bytes i) 96.

Section Intent.
Context {HD : Digest}.

Definition Intent_new (refs : References) (version : Version) (epoch : Epoch) (e : Edit) (task_id : Z) (candidate : list Z) : outcome FileError Intent :=
  if negb (bool_decide (rf_workspace refs = rs_workspace (rf_resource refs))) || (task_id =? 0) || negb (bool_decide (Edit_decode (Edit_words e) = Some e))
     || (INTENT_BYTES <? length candidate + INTENT_HEADER)%nat || negb (is_ok (Document_parse candidate))
  then Err FInvalid
  else
    let fin := (INTENT_HEADER + length candidate)%nat in
    let b := zeros INTENT_BYTES in
    let b := write b 0 INTENT_MAGIC in
    let b := write b 8 (ws_lineage (rf_workspace refs)) in
    let b := write b 24 (le_bytes 4 (ws_root (rf_workspace refs))) in
    let b := write b 28 (le_bytes 4 (rs_object (rf_resource refs))) in
    let b := write b 32 (le_bytes 8 (v_value version)) in
    let b := write b 40 (le_bytes 8 (e_value epoch)) in
    let b := write b 48 (word_bytes (Edit_words e)) in
    let b := write b 96 (le_bytes 4 task_id) in
    let b := write b 100 (le_bytes 2 (Z.of_nat (length candidate) mod 2 ^ 16)) in
    let b := write b 104 (sha256 candidate) in
    let b := write b INTENT_HEADER candidate in
    Ok (mkIntent b fin).

(** [References::new] of the record's fields. *)
Definition record_references (b : list Z) : outcome FileError References := References_new (slice b 8 24) (u32_at b 24) (u32_at b 28).

Definition Intent_decode (b : list Z) : outcome FileError Intent :=
  if (length b <? INTENT_HEADER)%nat || (INTENT_BYTES <? length b)%nat || negb (bool_decide (slice b 0 8 = INTENT_MAGIC)) || negb (bool_decide (slice b 102 104 = [0; 0]))
  then Err FInvalid
  else
    let? refs := record_references b in
    let? version := Version_new (u64_at b 32) in
    let? epoch := Epoch_new (u64_at b 40) in
    let? e := ok_or (Edit_decode (byte_words 6 (slice b 48 96))) FInvalid in
    let? result := Intent_new refs version epoch e (u32_at b 96) (drop INTENT_HEADER b) in
    if negb (bool_decide (Intent_encoded result = b)) then Err FInvalid else Ok result.

Definition Intent_request (i : Intent) (journal_version : Z) : outcome FileError Replacement :=
  let b := in_bytes i in
  let? refs := record_references b in
  if journal_version <=? u64_at b 32 then Err FInvalid
  else
    let? expected := Version_new (u64_at b 32) in
    let? epoch := Epoch_new (u64_at b 40) in
    let? key := Key_new journal_version in
    Ok (mkReplacement (rf_workspace refs) (rf_resource refs) expected (mkOpRetry epoch key)).

Definition Intent_matches (i : Intent) (key : Z) (o : FileOperation) : bool :=
  match Intent_request i key with
  | Ok r =>
    is_ok (FileOperation_encode o) && bool_decide (fo_workspace o = rp_workspace r) && bool_decide (fo_resource o = rp_resource r)
    && bool_decide (fo_retry o = rp_retry r) && bool_decide (fo_previous o = rp_expected r) && (key <? v_value (fo_version o))
    && (oi_sequence (fo_id o) =? v_value (fo_version o)) && (fo_size o =? Z.of_nat (length (Intent_candidate i)))
    && bool_decide (fo_sha256 o = slice (in_bytes i) 104 INTENT_HEADER)
  | _ => false
  end.

Lemma length_write_ge l i src : (length l <= length (write l i src))%nat.
Proof. unfold write. rewrite !length_app, length_take, length_drop. lia. Qed.

Lemma Intent_new_candidate refs version epoch e task candidate i : Intent_new refs version epoch e task candidate = Ok i -> Intent_candidate i = candidate.
Proof.
  unfold Intent_new. destruct (_ || _); [done|]. set (b := write _ 104 _). intros H. injection H as <-. unfold Intent_candidate. cbn [in_bytes in_length].
  assert (INTENT_BYTES <= length b)%nat by (unfold b; repeat (etransitivity; [|apply length_write_ge]); unfold zeros; by rewrite length_replicate).
  clearbody b. unfold INTENT_BYTES, INTENT_HEADER in *. unfold slice, write. rewrite drop_app_length' by (rewrite length_take; lia). apply take_app_length'. lia.
Qed.

(** ** What a record says *)
Record Contents := mkContents { ic_refs : References; ic_version : Version; ic_epoch : Epoch; ic_edit : Edit; ic_task : Z; ic_candidate : list Z }.

Record contents_ok (c : Contents) : Prop := {
  co_workspace : workspace_ok (rf_workspace (ic_refs c));
  co_resource : rs_workspace (rf_resource (ic_refs c)) = rf_workspace (ic_refs c);
  co_object : rs_object (rf_resource (ic_refs c)) <> 0 /\ fits 32 (rs_object (rf_resource (ic_refs c)));
  co_version : number_ok (v_value (ic_version c));
  co_epoch : number_ok (e_value (ic_epoch c));
  co_edit : edit_ok (ic_edit c);
  co_task : ic_task c <> 0 /\ fits 32 (ic_task c);
  co_candidate : exists l, items_ok l /\ ic_candidate c = doc_text l;
}.

Definition intent_of (c : Contents) : outcome FileError Intent :=
  Intent_new (ic_refs c) (ic_version c) (ic_epoch c) (ic_edit c) (ic_task c) (ic_candidate c).
Definition contents_request (c : Contents) (key : Z) : Replacement :=
  mkReplacement (rf_workspace (ic_refs c)) (rf_resource (ic_refs c)) (ic_version c) (mkOpRetry (ic_epoch c) (mkKey key)).

(** The record holds [c]. *)
Record holds (i : Intent) (c : Contents) : Prop := {
  ho_length : length (in_bytes i) = INTENT_BYTES /\ in_length i = (INTENT_HEADER + length (ic_candidate c))%nat /\ (in_length i <= INTENT_BYTES)%nat;
  ho_magic : slice (in_bytes i) 0 8 = INTENT_MAGIC /\ slice (in_bytes i) 102 104 = [0; 0];
  ho_references : slice (in_bytes i) 8 24 = ws_lineage (rf_workspace (ic_refs c)) /\ u32_at (in_bytes i) 24 = ws_root (rf_workspace (ic_refs c)) /\
    u32_at (in_bytes i) 28 = rs_object (rf_resource (ic_refs c));
  ho_numbers : u64_at (in_bytes i) 32 = v_value (ic_version c) /\ u64_at (in_bytes i) 40 = e_value (ic_epoch c);
  ho_edit : byte_words 6 (slice (in_bytes i) 48 96) = Edit_words (ic_edit c);
  ho_task : u32_at (in_bytes i) 96 = ic_task c;
  ho_digest : slice (in_bytes i) 104 INTENT_HEADER = sha256 (ic_candidate c);
  ho_candidate : slice (in_bytes i) INTENT_HEADER (in_length i) = ic_candidate c;
}.

Context {HL : DigestLaws}.

(** Names the successive images of a record of [n] bytes, with their lengths. *)
Ltac name_writes n :=
  repeat match goal with
  | |- context [write (zeros ?k) ?i ?s] => let b := fresh "b" in let E := fresh "Ew" in remember (write (zeros k) i s) as b eqn:E; assert (length b = n) by (rewrite E; wire_length)
  | H : length ?l = n |- context [write ?l ?i ?s] => is_var l; let b := fresh "b" in let E := fresh "Ew" in remember (write l i s) as b eqn:E; assert (length b = n) by (rewrite E; wire_length)
  end.
Ltac named_reads :=
  wire_unfold;
  repeat first
    [ rewrite slice_write_same by wire_len | rewrite slice_write_before by wire_len | rewrite slice_write_after by wire_len | rewrite slice_zeros by wire_len
    | match goal with E : ?b = write _ _ _ |- context [slice ?b _ _] => rewrite E end ].
Ltac named_value := named_reads; first [apply le_value_bytes; solve_fits | apply le_value_zeros].

Lemma Intent_new_holds c : contents_ok c -> exists i, intent_of c = Ok i /\ holds i c.
Proof.
  intros [[(Ll & Bl & Zl) [Hr Fr]] Hw [Ho Fo] [Hv Fv] [Hep Fe] Hed [Ht Ft] (l & Hl & Ec)]. pose proof (doc_text_bound l Hl) as Hb. rewrite <- Ec in Hb.
  assert (Hp : Document_parse (ic_candidate c) = Ok (doc_of l)) by (rewrite Ec in *; apply parse_doc_text; [done|unfold MAX_BYTES; lia]).
  pose proof (edit_ok_typed _ Hed) as Het. destruct (edit_words_typed _ Het) as [Lw Fw].
  assert (Lb : length (word_bytes (Edit_words (ic_edit c))) = 48%nat) by (unfold word_bytes; by rewrite length_words_encode, Lw).
  unfold intent_of, Intent_new. rewrite bool_decide_eq_true_2 by done. rewrite (proj2 (Z.eqb_neq _ _)) by done.
  rewrite bool_decide_eq_true_2 by (by apply Edit_decode_spec). rewrite Hp. rewrite (proj2 (Nat.ltb_ge _ _)) by (unfold INTENT_BYTES, INTENT_HEADER; lia). cbn [negb orb is_ok].
  cbv zeta. destruct (ex_intro (fun k => length (ic_candidate c) = k) _ eq_refl) as [n En]. rewrite En in Hb |- *. assert (Lm : length INTENT_MAGIC = 8%nat) by done. pose proof (sha256_length (ic_candidate c)) as Ls.
  wire_unfold. name_writes 1024%nat.
  match goal with |- context [mkIntent ?x _] => rename x into image end.
  assert (E1 : slice image 0 8 = INTENT_MAGIC) by (by named_reads). assert (E2 : slice image 8 24 = ws_lineage (rf_workspace (ic_refs c))) by (by named_reads).
  assert (E3 : u32_at image 24 = ws_root (rf_workspace (ic_refs c))) by (by named_value). assert (E4 : u32_at image 28 = rs_object (rf_resource (ic_refs c))) by (by named_value).
  assert (E5 : u64_at image 32 = v_value (ic_version c)) by (by named_value). assert (E6 : u64_at image 40 = e_value (ic_epoch c)) by (by named_value).
  assert (E7 : slice image 48 96 = word_bytes (Edit_words (ic_edit c))) by (by named_reads). assert (E8 : u32_at image 96 = ic_task c) by (by named_value).
  assert (E9 : slice image 102 104 = [0; 0]) by (by named_reads). assert (Ea : slice image 104 136 = sha256 (ic_candidate c)) by (by named_reads).
  assert (Eb : slice image 136 (136 + n) = ic_candidate c) by (by named_reads).
  eexists. split; [reflexivity|]. assert (Ei : (INTENT_HEADER + n)%nat = in_length (mkIntent image (136 + n))) by done.
  split; cbn [in_bytes in_length]; rewrite ?En; try done.
  { split; [done|]. split; [done|]. unfold INTENT_BYTES. lia. }
  rewrite E7. unfold byte_words, word_bytes. rewrite <- Lw. by apply words_round.
Qed.

Lemma new_contents refs version epoch e task candidate i : workspace_ok (rf_workspace refs) -> rs_object (rf_resource refs) <> 0 -> fits 32 (rs_object (rf_resource refs)) ->
  number_ok (v_value version) -> number_ok (e_value epoch) -> edit_typed e -> fits 32 task ->
  Intent_new refs version epoch e task candidate = Ok i -> contents_ok (mkContents refs version epoch e task candidate).
Proof.
  intros Hw Ho Fo Hv He Het Ht H. unfold Intent_new in H. destruct (_ || _) eqn:G; [done|]. clear H. rewrite !orb_false_iff, !negb_false_iff in G. destruct G as ((((Ew & E0) & Ed) & _) & Ep).
  apply bool_decide_eq_true_1 in Ew, Ed. apply Z.eqb_neq in E0. destruct (edit_words_typed _ Het) as [Lw Fw]. apply Edit_decode_spec in Ed as [Ed _]; [|done|done].
  destruct (Document_parse candidate) as [d| |] eqn:Epd; [|done|done]. apply Document_parse_spec in Epd as (l & Hl & _ & -> & _). split; try done. by exists l.
Qed.

Lemma record_references_ok b refs : bytes_ok b -> length b = INTENT_BYTES \/ (INTENT_HEADER <= length b)%nat -> record_references b = Ok refs ->
  workspace_ok (rf_workspace refs) /\ rs_workspace (rf_resource refs) = rf_workspace refs /\ rs_object (rf_resource refs) <> 0 /\ fits 32 (rs_object (rf_resource refs)).
Proof.
  intros Hb Hl H. unfold record_references, References_new, Workspace_new, Resource_new in H. accept H. lineage_cases. injection H as <-. wire_unfold. fields.
  unfold workspace_ok, lineage_ok. fields. assert (L : length (slice b 8 24) = 16%nat) by (rewrite length_slice; lia). assert (B : bytes_ok (slice b 8 24)) by (by apply bytes_ok_slice).
  assert (F : forall i j, (j <= 136)%nat -> (4 = j - i)%nat -> fits 32 (le_value (slice b i j))) by (intros i j Hj ?; eapply field_fits; [done|lia|done|lia]).
  repeat match goal with |- _ /\ _ => split end; first [done|apply F; lia].
Qed.

(** A record decodes only if it is the record of what it says. *)
Lemma Intent_decode_spec b i : bytes_ok b -> Intent_decode b = Ok i -> b = Intent_encoded i /\ exists c, contents_ok c /\ intent_of c = Ok i.
Proof.
  intros Hb H. unfold Intent_decode in H. destruct (_ || _) eqn:G; [done|]. rewrite !orb_false_iff in G. destruct G as (((Gl & _) & _) & _). apply Nat.ltb_ge in Gl.
  destruct (record_references b) as [refs| |] eqn:Er; [|done|done]. apply record_references_ok in Er as (Hw & _ & Ho & Fo); [|done|by right]. wire_unfold.
  unfold Version_new, Epoch_new in H. destruct (Z.eqb_spec (le_value (slice b 32 40)) 0); [done|]. destruct (Z.eqb_spec (le_value (slice b 40 48)) 0); [done|].
  destruct (Edit_decode _) as [e|] eqn:Ee; [cbn [ok_or] in H|done].
  assert (Hs : length (slice b 48 96) = 48%nat) by (rewrite length_slice; lia).
  destruct (bytes_words 6 (slice b 48 96) Hs (bytes_ok_slice _ _ _ Hb)) as (L6 & F6 & _). apply Edit_decode_spec in Ee as [He _]; [|done|done].
  destruct (Intent_new _ _ _ _ _ _) as [r| |] eqn:En; [|done|done]. destruct (decide (Intent_encoded r = b)) as [E|E]; [rewrite bool_decide_eq_true_2 in H by done|by rewrite bool_decide_eq_false_2 in H].
  injection H as <-. split; [done|]. eexists (mkContents _ _ _ _ _ _). split; [|exact En]. eapply new_contents; [..|exact En]; try done.
  - split; [done|]. cbn. eapply field_fits; [done| |reflexivity|done]. lia.
  - split; [done|]. cbn. eapply field_fits; [done| |reflexivity|done]. lia.
  - by apply edit_ok_typed.
  - eapply field_fits; [done| |reflexivity|done]. lia.
Qed.

Lemma encoded_field i c j k : holds i c -> (k <= in_length i)%nat -> slice (Intent_encoded i) j k = slice (in_bytes i) j k.
Proof. intros _ H. by apply slice_take. Qed.

Lemma length_encoded i c : holds i c -> length (Intent_encoded i) = in_length i.
Proof. intros [(Hl & _ & Hm) _]. unfold Intent_encoded. rewrite length_take. lia. Qed.

(** ... and every record that [new] made does. *)
Lemma Intent_round c i : contents_ok c -> intent_of c = Ok i -> holds i c -> Intent_decode (Intent_encoded i) = Ok i.
Proof.
  intros Hc Hn Hh. pose proof (length_encoded i c Hh) as Hle. pose proof (fun j k => encoded_field i c j k Hh) as Hf. destruct Hh as [(Hl & Hlen & Hm) [Hg Hz] (Hr1 & Hr2 & Hr3) [Hv He] Hed Ht Hd Hca]. destruct Hc as [[(Ll & Bl & Zl) [Hr Fr]] Hw [Ho Fo] [Hvn Fv] [Hep Fe] Hedo [Htn Ft] _].
  wire_unfold. unfold Intent_decode, record_references, References_new, Workspace_new, Resource_new, Version_new, Epoch_new. wire_unfold. rewrite Hle, !Hf by lia. rewrite Hg, Hz, Hr1, Hr2, Hr3, Hv, He, Ht, Hed.
  rewrite (proj2 (Nat.ltb_ge _ _)) by lia. rewrite (proj2 (Nat.ltb_ge _ _)) by lia. rewrite !bool_decide_eq_true_2 by done. cbn [orb negb]. unfold no_lineage. rewrite bool_decide_eq_false_2 by done. rewrite !(proj2 (Z.eqb_neq _ _)) by done. cbn [orb negb].
  destruct (edit_words_typed _ (edit_ok_typed _ Hedo)) as [Lw Fw]. rewrite (proj2 (Edit_decode_spec _ _ Lw Fw)) by done. cbn [ok_or].
  assert (Ec : drop 136 (Intent_encoded i) = ic_candidate c) by (rewrite drop_slice, Hle, Hf by lia; done). rewrite Ec.
  assert (Ei : Intent_new (mkReferences (mkWorkspace (ws_lineage (rf_workspace (ic_refs c))) (ws_root (rf_workspace (ic_refs c)))) (mkResource (mkWorkspace (ws_lineage (rf_workspace (ic_refs c))) (ws_root (rf_workspace (ic_refs c)))) (rs_object (rf_resource (ic_refs c)))))
     (mkVersion (v_value (ic_version c))) (mkEpoch (e_value (ic_epoch c))) (ic_edit c) (ic_task c) (ic_candidate c) = Ok i).
  { rewrite <- Hn. unfold intent_of. destruct c as [[[l r] [w o]] [v] [ep] e t ca]. cbn in *. by subst w. }
  rewrite Ei. by rewrite bool_decide_eq_true_2.
Qed.

Lemma Intent_request_spec c i key : contents_ok c -> holds i c ->
  Intent_request i key = if key <=? v_value (ic_version c) then Err FInvalid else Ok (contents_request c key).
Proof.
  intros [[(Ll & Bl & Zl) [Hr Fr]] Hw [Ho Fo] [Hvn Fv] [Hep Fe] _ _ _] [_ _ (Hr1 & Hr2 & Hr3) [Hv He] _ _ _ _].
  unfold Intent_request, record_references, References_new, Workspace_new, Resource_new, Version_new, Epoch_new, Key_new. rewrite Hr1, Hr2, Hr3, Hv, He. unfold no_lineage. rewrite bool_decide_eq_false_2 by done. rewrite !(proj2 (Z.eqb_neq _ 0)) by done. cbn [orb].
  destruct (Z.leb_spec key (v_value (ic_version c))); [done|]. rewrite (proj2 (Z.eqb_neq _ _)) by (unfold fits in *; lia).
  unfold contents_request. destruct c as [[[l r] [w o]] [v] [ep] e t ca]. cbn in *. by subst w.
Qed.

(** The receipt of the submission of [c] under [key], and no other. *)
Record receipt_of (c : Contents) (key : Z) (o : FileOperation) : Prop := {
  re_encodes : is_ok (FileOperation_encode o) = true;
  re_workspace : fo_workspace o = rf_workspace (ic_refs c);
  re_resource : fo_resource o = rf_resource (ic_refs c);
  re_retry : fo_retry o = mkOpRetry (ic_epoch c) (mkKey key);
  re_previous : fo_previous o = ic_version c;
  re_version : v_value (ic_version c) < key < v_value (fo_version o);
  re_sequence : oi_sequence (fo_id o) = v_value (fo_version o);
  re_size : fo_size o = Z.of_nat (length (ic_candidate c));
  re_sha : fo_sha256 o = sha256 (ic_candidate c);
}.

Lemma Intent_matches_spec c i key o : contents_ok c -> holds i c -> Intent_matches i key o = true <-> receipt_of c key o.
Proof.
  intros Hc Hh. unfold Intent_matches. rewrite (Intent_request_spec c i key Hc Hh). destruct Hh as [_ _ _ _ _ _ Hd Hca]. unfold Intent_candidate. rewrite Hca, Hd.
  destruct (Z.leb_spec key (v_value (ic_version c))) as [Hk|Hk]; [split; [done|intros [? _ _ _ _ ? _ _ _]; lia]|].
  rewrite !andb_true_iff, !bool_decide_eq_true, Z.ltb_lt, !Z.eqb_eq. unfold contents_request. cbn [rp_workspace rp_resource rp_expected rp_retry]. split.
  - intros ((((((((? & ?) & ?) & ?) & ?) & ?) & ?) & ?) & ?). by split; try done; lia.
  - intros [? ? ? ? ? [? ?] ? ? ?]. repeat split; try done; lia.
Qed.

Lemma Intent_task_spec c i : holds i c -> Intent_task_id i = ic_task c.
Proof. by intros []. Qed.
Lemma Intent_candidate_spec c i : holds i c -> Intent_candidate i = ic_candidate c.
Proof. by intros []. Qed.
End Intent.
