(* ===== verification/TaskClient.v ===== *)
(** * What a tasks client may retain (crates/tasks-client/src)

    candidate.rs (a planned document, validated before anything keeps it),
    error.rs, record.rs and the decision [Pending] of outcome.rs.  A plan that
    arrives whole and a plan collected in chunks are accepted under one rule,
    [shows]: the bytes are the text of a document in which the summary's task
    shows the effect of the command. *)
From stdpp Require Import base list option numbers.
From Stdlib Require Import ZArith Lia Bool.
From S2P Require Import Prelude Bytes Codec AbiFiles AbiRuntime TaskDocument TaskPlan TaskWire.

(** ** Failures (error.rs) *)
Inductive ClientError := EFile (e : FileError) | EService (code : Z) | EDocument | ECapacity | EEnable | EJournal | EPending (version : Z).

Definition conclusive (e : ClientError) : bool :=
  match e with
  | EFile (FFull | FVersion | FDenied | FRevoked | FExpired | FReadOnly) => true
  | _ => false
  end.

(** ** The decision on a record (outcome.rs, record.rs) *)
Inductive Pending := Idle | Unresolved (version : Z).
Definition Pending_of (length version : Z) : Pending := if length =? 0 then Idle else Unresolved version.
Definition Pending_idle (p : Pending) : outcome ClientError unit :=
  match p with Idle => Ok tt | Unresolved version => Err (EPending version) end.

Inductive TaskRecord := RecordPath (directory name : list Z) | RecordObject (id : Z).
Inductive Place := Named (directory name : list Z) | Granted (id : Z) | InvalidPlace.
Definition place (r : TaskRecord) : Place :=
  match r with
  | RecordPath directory name => Named directory name
  | RecordObject id => if id =? 0 then InvalidPlace else Granted id
  end.
Definition creation (r : TaskRecord) : outcome ClientError (list Z * list Z) :=
  match place r with Named directory name => Ok (directory, name) | Granted _ | InvalidPlace => Err EJournal end.

(** ** The rules of a candidate (candidate.rs) *)
Definition canonical (s : Summary) (e : Edit) : outcome ClientError unit :=
  if negb (bool_decide (Summary_decode (Summary_words s) = Some s)) || negb (bool_decide (Edit_decode (Edit_words e) = Some e))
  then Err EDocument else Ok tt.

(** The loop of [agrees]: the row of the summary's task, and the greatest ID. *)
Fixpoint survey (d : Document) (id : Z) (indices : list nat) (affected : option (nat * Task)) (greatest : Z) : outcome ClientError (option (nat * Task) * Z) :=
  match indices with
  | [] => Ok (affected, greatest)
  | index :: indices =>
    let? t := ok_or (Document_get d index) EDocument in
    survey d id indices (if ta_id t =? id then Some (index, t) else affected) (Z.max greatest (ta_id t))
  end.

Definition agrees (b : list Z) (s : Summary) (e : Edit) : outcome ClientError unit :=
  let? d := map_err (fun _ => EDocument) (Document_parse b) in
  if negb (Z.of_nat (dc_len d) =? sm_count s) then Err EDocument
  else
    let? (affected, greatest) := survey d (sm_task s) (seq 0 (dc_len d)) None 0 in
    let? (index, t) := ok_or affected EDocument in
    match e with
    | EdDone id => if negb (id =? sm_task s) || negb (bool_decide (ta_state t = TDone)) then Err EDocument else Ok tt
    | EdAdd title n =>
      if (MAX_TITLE <? n)%nat then Panic
      else if negb (sm_changed s) || negb (index + 1 =? dc_len d)%nat || negb (ta_id t =? greatest) || negb (bool_decide (ta_state t = TOpen))
              || negb (bool_decide (Task_title t = take n title))
      then Err EDocument else Ok tt
    end.

Definition validated (b : list Z) (s : Summary) (e : Edit) : outcome ClientError unit :=
  let? _ := canonical s e in
  if (MAX_BYTES <? length b)%nat then Err EDocument else agrees b s e.

(** ** Candidates in borrowed storage

    A refusal of a call that took the storage hands it back: the error of these
    calls is the pair of [Refused]. *)
Record Candidate := mkCandidate { cd_bytes : list Z; cd_length : nat; cd_summary : Summary; cd_edit : Edit }.
Definition Candidate_bytes (c : Candidate) : list Z := take (cd_length c) (cd_bytes c).

Definition Candidate_over (storage : list Z) (n : nat) (s : Summary) (e : Edit) : outcome (ClientError * list Z) Candidate :=
  if (length storage <? n)%nat then Err (EDocument, storage)
  else let? _ := map_err (fun error => (error, storage)) (validated (take n storage) s e) in Ok (mkCandidate storage n s e).

Record CandidateBuilder := mkBuilder { bu_bytes : list Z; bu_length : nat; bu_total : nat; bu_summary : Summary; bu_edit : Edit }.

Definition Builder_accepts (capacity total : nat) (s : Summary) (e : Edit) : outcome ClientError unit :=
  let? _ := canonical s e in
  if (total =? 0)%nat || (MAX_BYTES <? total)%nat || (capacity <? total)%nat then Err EDocument else Ok tt.

Definition Builder_new (storage : list Z) (total : nat) (s : Summary) (e : Edit) : outcome (ClientError * list Z) CandidateBuilder :=
  let? _ := map_err (fun error => (error, storage)) (Builder_accepts (length storage) total s e) in
  Ok (mkBuilder storage 0 total s e).

(** The sum of two slice lengths is a [usize]. *)
Definition Builder_push (u : CandidateBuilder) (b : list Z) : outcome ClientError CandidateBuilder :=
  let fin := (bu_length u + length b)%nat in
  if (length b =? 0)%nat || (bu_total u <? fin)%nat then Err EDocument
  else if (length (bu_bytes u) <? fin)%nat then Panic
  else Ok (mkBuilder (write (bu_bytes u) (bu_length u) b) fin (bu_total u) (bu_summary u) (bu_edit u)).

Definition Builder_complete (u : CandidateBuilder) : bool := (bu_length u =? bu_total u)%nat.
Definition Builder_remaining (u : CandidateBuilder) : nat := bu_total u - bu_length u.

Definition Builder_finish (u : CandidateBuilder) : outcome (ClientError * list Z) Candidate :=
  if negb (Builder_complete u) then Err (EDocument, bu_bytes u)
  else Candidate_over (bu_bytes u) (bu_length u) (bu_summary u) (bu_edit u).

(** ** Plans that carry their bytes *)
Record TaskPlan := mkPlan { pl_bytes : list Z; pl_length : nat; pl_summary : Summary; pl_edit : Edit }.
Definition Plan_bytes (p : TaskPlan) : list Z := take (pl_length p) (pl_bytes p).
Definition Plan_new (b : list Z) (s : Summary) (e : Edit) : outcome ClientError TaskPlan :=
  let? _ := validated b s e in
  if (MAX_BYTES <? length b)%nat then Panic else Ok (mkPlan (write (zeros MAX_BYTES) 0 b) (length b) s e).
Definition Plan_candidate (p : TaskPlan) : outcome ClientError Candidate :=
  map_err fst (Candidate_over (pl_bytes p) (pl_length p) (pl_summary p) (pl_edit p)).

(** ** What an accepted document shows *)
Definition shows (l : list Item) (s : Summary) (e : Edit) : Prop :=
  sm_count s = Z.of_nat (length l) /\
  match e with
  | EdDone id => id = sm_task s /\ exists i, i ∈ l /\ im_id i = id /\ im_state i = TDone
  | EdAdd title n => sm_changed s = true /\ exists l', l = l' ++ [mkItem (sm_task s) TOpen (take n title)] /\ Forall (fun i => im_id i < sm_task s) l'
  end.

Definition acceptable (b : list Z) (s : Summary) (e : Edit) : Prop :=
  summary_ok s /\ edit_ok e /\ exists l, items_ok l /\ b = doc_text l /\ shows l s e.

(** The pushes of a stream of chunks. *)
Fixpoint push_all (u : CandidateBuilder) (parts : list (list Z)) : outcome ClientError CandidateBuilder :=
  match parts with
  | [] => Ok u
  | part :: parts => let? u := Builder_push u part in push_all u parts
  end.

(** ** The rules *)
Lemma canonical_cases s e : summary_typed s -> edit_typed e ->
  (canonical s e = Ok tt /\ summary_ok s /\ edit_ok e) \/ (canonical s e = Err EDocument /\ ~ (summary_ok s /\ edit_ok e)).
Proof.
  intros Hs He. destruct (edit_words_typed e He) as [L F]. pose proof (summary_words_typed s Hs) as F'.
  pose proof (Edit_decode_spec _ e L F) as E. pose proof (Summary_decode_spec (Summary_words s) s eq_refl F') as S. unfold canonical.
  destruct (decide (Summary_decode (Summary_words s) = Some s)) as [Hd|Hd]; destruct (decide (Edit_decode (Edit_words e) = Some e)) as [Hd'|Hd'];
    [left|right..]; rewrite ?(bool_decide_eq_true_2 _ Hd), ?(bool_decide_eq_false_2 _ Hd), ?(bool_decide_eq_true_2 _ Hd'), ?(bool_decide_eq_false_2 _ Hd'); (split; [done|]); tauto.
Qed.

(** ** The survey of a document *)
Lemma survey_spec r l id a g : NoDup (im_id <$> l) -> 0 <= g ->
  survey (doc_of (r ++ l)) id (seq (length r) (length l)) a g =
  Ok (match list_find (fun i => im_id i = id) l with Some (k, i) => Some ((length r + k)%nat, task_of i) | None => a end, Z.max g (last_id l)).
Proof.
  revert r a g. induction l as [|i l IH]; intros r a g Hn Hg; cbn [length seq survey last_id foldr]; [cbn; do 2 f_equal; lia|].
  rewrite fmap_cons in Hn. apply list.NoDup_cons in Hn as [Hi Hn].
  rewrite doc_of_get, list_lookup_middle by done. cbn [fmap option_fmap option_map ok_or task_of ta_id]. fold (last_id l).
  rewrite cons_middle, app_assoc. assert (E := fun a => IH (r ++ [i]) a (Z.max g (im_id i)) Hn ltac:(lia)). rewrite length_app in E. cbn [length] in E. rewrite Nat.add_1_r in E.
  rewrite E. cbn [list_find]. replace (Z.max (Z.max g (im_id i)) (last_id l)) with (Z.max g (Z.max (im_id i) (last_id l))) by lia. f_equal. f_equal.
  destruct (Z.eqb_spec (im_id i) id) as [<-|Hne].
  - rewrite decide_True by done. rewrite (proj2 (list_find_None _ _)); [by rewrite Nat.add_0_r|]. apply list.Forall_forall. intros j Hj Ej. apply Hi. rewrite <- Ej. by apply list_elem_of_fmap_2.
  - rewrite decide_False by done. destruct (list_find _ l) as [[k j]|]; cbn; [|done]. do 2 f_equal. lia.
Qed.

Lemma last_id_snoc l i : Forall (fun j => im_id j < im_id i) l -> 0 <= im_id i -> last_id (l ++ [i]) = im_id i.
Proof. induction 1 as [|j l Hj _ IH]; intros H0; cbn [app last_id foldr]; [lia|]. fold (last_id (l ++ [i])). rewrite IH by done. lia. Qed.

Lemma shows_last l k i : items_ok l -> l !! k = Some i -> (k + 1)%nat = length l -> im_id i = last_id l -> l = take k l ++ [i] /\ Forall (fun j => im_id j < im_id i) (take k l).
Proof.
  intros (_ & Hn & _) Hk Hl Hg. pose proof (take_drop_middle l k i Hk) as E. rewrite drop_ge in E by lia. split; [done|]. rewrite <- E in Hn. rewrite fmap_app, list.NoDup_app in Hn. destruct Hn as (_ & Hd & _).
  apply list.Forall_forall. intros j Hj. pose proof (last_id_le l j) as Hle. rewrite <- Hg in Hle. specialize (Hd (im_id j) (list_elem_of_fmap_2 _ _ _ Hj)).
  destruct (Z.eq_dec (im_id j) (im_id i)) as [E'|]; [exfalso; apply Hd; rewrite E'; by left|]. assert (j ∈ l) by (rewrite <- E; apply elem_of_app; by left). specialize (Hle H). lia.
Qed.

Lemma agrees_spec l s e : items_ok l -> edit_ok e ->
  (agrees (doc_text l) s e = Ok tt /\ shows l s e) \/ (agrees (doc_text l) s e = Err EDocument /\ ~ shows l s e).
Proof.
  intros H He. pose proof (doc_text_bound l H) as Hb. unfold agrees. rewrite parse_doc_text by (done || unfold MAX_BYTES; lia). cbn [map_err].
  change (dc_len (doc_of l)) with (length l). destruct (Z.eqb_spec (Z.of_nat (length l)) (sm_count s)) as [Ec|Ec]; cbn [negb]; [|right; split; [done|intros [? _]; congruence]].
  rewrite (survey_spec [] l (sm_task s) None 0 (proj1 (proj2 H)) ltac:(lia) : survey (doc_of l) _ (seq 0 (length l)) _ _ = _). cbn [length Nat.add].
  rewrite Z.max_r by apply (last_id_bounds l (proj1 H)). destruct (list_find _ l) as [[k i]|] eqn:Ef; cbn [ok_or].
  - apply list_find_Some in Ef as (Hk & Ei & _). destruct e as [title n|id]; cbn [edit_ok] in He.
    + destruct He as (t & [Ht _] & -> & ->). rewrite (proj2 (Nat.ltb_ge _ _)) by lia. unfold Task_title. cbn [task_of ta_id ta_state ta_title ta_len]. rewrite !padded_take.
      destruct (sm_changed s) eqn:Es; cbn [negb orb]; [|right; split; [done|by intros (_ & ? & _); congruence]].
      assert (Hiff : ((k + 1)%nat = length l /\ im_id i = last_id l /\ im_state i = TOpen /\ im_title i = t) <-> shows l s (EdAdd (pad_title t) (length t))).
      { unfold shows. rewrite padded_take. split.
        - intros (E1 & E2 & E3 & E4). split; [done|]. split; [done|]. destruct (shows_last l k i H Hk E1 E2) as [El Hlt]. exists (take k l). rewrite <- Ei, <- E3, <- E4. split; [by destruct i|done].
        - intros (_ & _ & l' & -> & Hlt). assert (k = length l') as ->.
          { destruct (Nat.lt_ge_cases k (length l')) as [Hlt'|]; [|pose proof (lookup_lt_Some _ _ _ Hk) as Hk'; rewrite length_app in Hk'; cbn in Hk'; lia].
            rewrite lookup_app_l in Hk by done. pose proof (proj1 (list.Forall_lookup _ _) Hlt _ _ Hk) as Hx. cbn in Hx. lia. }
          rewrite list_lookup_middle in Hk by done. injection Hk as <-. rewrite length_app. cbn [length im_id im_state im_title]. split; [done|]. split; [|done].
          symmetry. apply (last_id_snoc l' (mkItem (sm_task s) TOpen t)); [done|]. destruct H as (Hf & _). apply list.Forall_app in Hf as [_ Hf]. apply list.Forall_singleton in Hf as ((? & _) & _). cbn in *. lia. }
      rewrite <- Hiff. destruct (Nat.eqb_spec (k + 1) (length l)); [|right; split; [done|tauto]]. destruct (Z.eqb_spec (im_id i) (last_id l)); [|right; split; [done|tauto]].
      destruct (decide (im_state i = TOpen)); [rewrite bool_decide_eq_true_2 by done|rewrite bool_decide_eq_false_2 by done; right; split; [done|tauto]].
      destruct (decide (im_title i = t)); [rewrite bool_decide_eq_true_2 by done; by left|rewrite bool_decide_eq_false_2 by done; right; split; [done|tauto]].
    + cbn [task_of ta_state]. destruct (Z.eqb_spec id (sm_task s)) as [->|Hne]; cbn [negb orb]; [|right; split; [done|by intros (_ & ? & _)]].
      destruct (decide (im_state i = TDone)) as [Ed|Ed]; [rewrite bool_decide_eq_true_2 by done; left; split; [done|]|rewrite bool_decide_eq_false_2 by done; right; split; [done|]].
      * split; [done|]. split; [done|]. exists i. split; [by eapply list_elem_of_lookup_2|done].
      * intros (_ & _ & j & Hj & Ej & Edj). apply list_elem_of_lookup_1 in Hj as [kj Hkj]. destruct (Nat.eq_dec kj k) as [->|Hn]; [congruence|].
        apply Hn. eapply (NoDup_lookup (im_id <$> l) _ _ (sm_task s)); [apply H|by rewrite list_lookup_fmap, Hkj, <- Ej|by rewrite list_lookup_fmap, Hk; cbn; rewrite Ei].
  - right. split; [done|]. apply list_find_None in Ef. rewrite list.Forall_forall in Ef. destruct e as [title n|id]; cbn [shows].
    + intros (_ & _ & l' & -> & _). apply (Ef (mkItem (sm_task s) TOpen (take n title))); [apply elem_of_app; right; by left|done].
    + intros (_ & -> & i & Hi & Ei & _). by apply (Ef i Hi).
Qed.

(** Validation decides [acceptable], and never panics. *)
Lemma validated_cases b s e : summary_typed s -> edit_typed e ->
  (validated b s e = Ok tt /\ acceptable b s e) \/ (validated b s e = Err EDocument /\ ~ acceptable b s e).
Proof.
  intros Hs He. unfold validated, acceptable. destruct (canonical_cases s e Hs He) as [(-> & Hso & Heo)|[-> Hn]]; [|right; split; [done|tauto]].
  destruct (Nat.ltb_spec MAX_BYTES (length b)) as [Hl|Hl].
  { right. split; [done|]. intros (_ & _ & l & Hok & -> & _). pose proof (doc_text_bound l Hok). unfold MAX_BYTES in Hl. lia. }
  destruct (Document_parse b) as [d|err|] eqn:Ep; [| |by apply Document_parse_total in Ep].
  - destruct (Document_parse_spec b d Ep) as (l & Hok & -> & -> & _). destruct (agrees_spec l s e Hok Heo) as [[-> Hsh]|[-> Hsh]]; [left|right]; (split; [done|]); [eauto 6|].
    intros (_ & _ & l' & Hok' & El & Hsh'). pose proof (doc_text_bound l' Hok') as Hb'. rewrite El in Ep. rewrite parse_doc_text in Ep by (done || unfold MAX_BYTES; lia). apply Hsh.
    assert (l' = l) as -> by (apply doc_of_inj; [done|done|congruence]). done.
  - right. unfold agrees. rewrite Ep. split; [done|]. intros (_ & _ & l & Hok & -> & _). pose proof (doc_text_bound l Hok). rewrite parse_doc_text in Ep by (done || unfold MAX_BYTES; lia). done.
Qed.

Lemma Plan_new_spec b s e p : summary_typed s -> edit_typed e -> Plan_new b s e = Ok p <-> acceptable b s e /\ p = mkPlan (write (zeros MAX_BYTES) 0 b) (length b) s e.
Proof.
  intros Hs He. unfold Plan_new. destruct (validated_cases b s e Hs He) as [[-> Ha]|[-> Ha]]; [|split; [done|tauto]].
  assert (Hl : (length b <= MAX_BYTES)%nat) by (destruct Ha as (_ & _ & l & Hl & -> & _); pose proof (doc_text_bound l Hl); unfold MAX_BYTES; lia).
  rewrite (proj2 (Nat.ltb_ge _ _)) by done. split; [intros H; injection H as <-; done|by intros [_ ->]].
Qed.

Lemma stored_bytes (b : list Z) n s e : (length b <= n)%nat -> Plan_bytes (mkPlan (write (zeros n) 0 b) (length b) s e) = b.
Proof. intros H. unfold Plan_bytes, write. cbn [pl_bytes pl_length]. rewrite take_0. apply (take_app_length b). Qed.

Lemma Candidate_over_spec storage n s e c : summary_typed s -> edit_typed e ->
  Candidate_over storage n s e = Ok c <-> (n <= length storage)%nat /\ acceptable (take n storage) s e /\ c = mkCandidate storage n s e.
Proof.
  intros Hs He. unfold Candidate_over. destruct (Nat.ltb_spec (length storage) n) as [Hl|Hl]; [split; [done|intros [? _]; lia]|].
  destruct (validated_cases (take n storage) s e Hs He) as [[-> Ha]|[-> Ha]]; cbn [map_err]; [|split; [done|tauto]].
  split; [intros H; injection H as <-; done|by intros (_ & _ & ->)].
Qed.

(** A plan lends its bytes to the submission path. *)
Lemma Plan_candidate_spec b s e p : summary_typed s -> edit_typed e -> Plan_new b s e = Ok p ->
  exists c, Plan_candidate p = Ok c /\ Candidate_bytes c = b /\ cd_summary c = s /\ cd_edit c = e.
Proof.
  intros Hs He (Ha & ->)%Plan_new_spec; [|done|done]. assert (Hl : (length b <= MAX_BYTES)%nat) by (destruct Ha as (_ & _ & l & Hl & -> & _); pose proof (doc_text_bound l Hl); unfold MAX_BYTES; lia).
  pose proof (stored_bytes b MAX_BYTES s e Hl) as Eb. unfold Plan_bytes in Eb. cbn [pl_bytes pl_length] in Eb. unfold Plan_candidate. cbn [pl_bytes pl_length pl_summary pl_edit].
  rewrite (proj2 (Candidate_over_spec _ _ _ _ (mkCandidate (write (zeros MAX_BYTES) 0 b) (length b) s e) Hs He)).
  - eexists. split; [done|]. unfold Candidate_bytes. cbn. by rewrite Eb.
  - split; [rewrite length_write; unfold zeros; rewrite length_replicate; lia|]. by rewrite Eb.
Qed.

(** ** Collecting in chunks *)
Definition collected (u : CandidateBuilder) (b : list Z) : Prop :=
  bu_length u = length b /\ take (bu_length u) (bu_bytes u) = b /\ (bu_length u <= bu_total u <= length (bu_bytes u))%nat.

Lemma push_spec_builder u b part : collected u b ->
  match Builder_push u part with
  | Ok u' => part <> [] /\ collected u' (b ++ part) /\ length (bu_bytes u') = length (bu_bytes u) /\ bu_total u' = bu_total u /\ bu_summary u' = bu_summary u /\ bu_edit u' = bu_edit u
  | Err e => e = EDocument /\ (part = [] \/ (bu_total u < length (b ++ part))%nat)
  | Panic => False
  end.
Proof.
  intros (Hl & Ht & Hn & Hm). unfold Builder_push. destruct (Nat.eqb_spec (length part) 0) as [E|E]; [cbn; split; [done|left; by apply nil_length_inv]|]. rewrite length_app, <- Hl.
  destruct (Nat.ltb_spec (bu_total u) (bu_length u + length part)); cbn [orb]; [split; [done|by right]|]. rewrite (proj2 (Nat.ltb_ge _ _)) by lia. cbn [bu_bytes bu_length bu_total bu_summary bu_edit].
  split; [intros ->; done|]. rewrite length_write by lia. split; [|done]. split; cbn [bu_length bu_bytes bu_total]; [rewrite length_app; lia|]. split; [|rewrite length_write by lia; lia].
  unfold write. rewrite Ht, app_assoc. apply take_app_length'. rewrite length_app. lia.
Qed.

Lemma push_all_spec u b parts : collected u b ->
  match push_all u parts with
  | Ok u' => Forall (fun p => p <> []) parts /\ collected u' (b ++ concat parts) /\ length (bu_bytes u') = length (bu_bytes u) /\ bu_total u' = bu_total u /\ bu_summary u' = bu_summary u /\ bu_edit u' = bu_edit u
  | Err e => e = EDocument /\ (Exists (fun p => p = []) parts \/ (bu_total u < length (b ++ concat parts))%nat)
  | Panic => False
  end.
Proof.
  revert u b. induction parts as [|part parts IH]; intros u b H; cbn [push_all concat]; [rewrite app_nil_r; by split; [constructor|]|].
  pose proof (push_spec_builder u b part H) as Hp. destruct (Builder_push u part) as [u'|e|]; [|destruct Hp as [-> Hp]; split; [done|]|done].
  - destruct Hp as (Hne & Hc & Hlen & Htot & Hs & He). specialize (IH u' (b ++ part) Hc). rewrite <- app_assoc in IH. destruct (push_all u' parts) as [v|e|]; [|destruct IH as [-> IH]; split; [done|]|done].
    + destruct IH as (Hf & Hc' & -> & -> & -> & ->). split; [by constructor|]. by split.
    + rewrite Htot in IH. destruct IH as [IH|IH]; [left; by right|by right].
  - destruct Hp as [->|Hp]; [left; by left|right]. rewrite length_app in Hp. rewrite !length_app. lia.
Qed.

(** The whole collection of a stream. *)
Definition collect_stream (storage : list Z) (total : nat) (s : Summary) (e : Edit) (parts : list (list Z)) : outcome ClientError Candidate :=
  let? u := map_err fst (Builder_new storage total s e) in
  let? u := push_all u parts in
  map_err fst (Builder_finish u).

Lemma collect_stream_spec storage total s e parts : summary_typed s -> edit_typed e ->
  let good := acceptable (concat parts) s e /\ total = length (concat parts) /\ (total <= length storage)%nat /\ Forall (fun p => p <> []) parts in
  match collect_stream storage total s e parts with
  | Ok c => good /\ Candidate_bytes c = concat parts /\ cd_summary c = s /\ cd_edit c = e /\ length (cd_bytes c) = length storage
  | Err err => err = EDocument /\ ~ good
  | Panic => False
  end.
Proof.
  intros Hs He good. unfold collect_stream, Builder_new, Builder_accepts. destruct (canonical_cases s e Hs He) as [(-> & Hso & Heo)|[-> Hn]]; cbn [map_err fst].
  2:{ split; [done|]. intros ((? & ? & _) & _). tauto. }
  destruct (_ || _) eqn:G; cbn [map_err fst].
  { split; [done|]. intros (Ha & -> & Hl & _). apply orb_true_iff in G as [G|G%Nat.ltb_lt]; [|lia]. destruct Ha as (_ & _ & l & Hok & E & _). pose proof (doc_text_bound l Hok) as Hb. rewrite <- E in Hb.
    apply orb_true_iff in G as [G%Nat.eqb_eq|G%Nat.ltb_lt]; [|unfold MAX_BYTES in G; lia]. rewrite E in G. unfold doc_text in G. rewrite length_app in G. done. }
  rewrite !orb_false_iff, Nat.eqb_neq, !Nat.ltb_ge in G. destruct G as [[G1 G2] G3].
  assert (Hc : collected (mkBuilder storage 0 total s e) []) by (split; [done|]; split; [done|cbn; lia]).
  pose proof (push_all_spec _ [] parts Hc) as Hp. destruct (push_all _ parts) as [u|err|]; [|destruct Hp as [-> Hp]; split; [done|]|done].
  - destruct Hp as (Hf & (Hl & Ht & Hm) & Hlen & Htot & Hsu & Hed). cbn [bu_bytes bu_total bu_summary bu_edit app] in *. unfold Builder_finish, Builder_complete. rewrite Hsu, Hed.
    destruct (Nat.eqb_spec (bu_length u) (bu_total u)) as [E|E]; cbn [negb map_err fst]; [|split; [done|intros (_ & ? & _); lia]].
    pose proof (Candidate_over_spec (bu_bytes u) (bu_length u) s e) as Ho. unfold Candidate_over in *. rewrite (proj2 (Nat.ltb_ge _ _)) in * by lia. rewrite Ht in *.
    destruct (validated_cases (concat parts) s e Hs He) as [[-> Ha]|[-> Ha]]; cbn [map_err fst]; [|split; [done|by intros (? & _)]].
    split; [split; [done|]; split; [lia|]; split; [lia|done]|]. by cbn.
  - cbn [app bu_total] in Hp. intros (_ & -> & _ & Hf). destruct Hp as [Hp|Hp]; [|lia]. apply Exists_exists in Hp as (x & Hx & ->). apply list_elem_of_In in Hx. by apply (proj1 (list.Forall_forall _ _) Hf [] Hx).
Qed.
