(* ===== verification/TaskJournal.v ===== *)
(** * Submitting an edit and proving its outcome (crates/tasks-client/src)

    owner.rs (the authorities an application lends), outcome.rs, journal.rs (the
    one durable intent) and mutation.rs (submission and recovery).  The client's
    calls are the methods of the borrowed file client, the relay's exchanges and
    the notes of its report; TaskFlow.v carries them out with the SDK's client.
    The last part plans an edit through the relay (transport.rs). *)
From stdpp Require Import base list option numbers.
From Stdlib Require Import ZArith Lia Bool.
From S2P Require Import Prelude Bytes Codec AbiFiles AbiIdentity AbiMessages AbiReceipts AbiAdmission AbiServices AbiRuntime Interact SdkFiles SdkRange TaskDocument TaskPlan TaskWire TaskIntent TaskClient.

(** ** Results and notes (outcome.rs) *)
Record Committed := mkCommitted { cm_task : Z; cm_version : Version; cm_journal : Z }.
Inductive Applied := Unchanged (task_id : Z) (version : Version) | AppliedCommitted (c : Committed).
Inductive Recovery := Absent | Recovered (c : Committed).
Inductive Note := Retained (journal : Z) | Ambiguous | UnresolvedNote (journal : Z) | Unverified (journal : Z) (version : Version) | CleanupIncomplete (c : Committed).

(** ** The borrowed authorities (owner.rs) *)
Inductive TaskCall :=
| CResolve (cwd : Z) (path : list Z)
| CLookup (directory : Z) (name : list Z)
| CStat (id : Z)
| CCreate (directory : Z) (name : list Z) (is_directory : bool)
| CReplace (id version : Z) (b : list Z)
| CReferences (workspace object : Z)
| CReadRange (r : ReadRequest)
| CReplaceFile (r : Replacement) (b : list Z)
| COperationGet (l : Lookup)
| CCapabilities
| CNote (n : Note)
| CControl (words : list Z)
| CFinish (words : list Z)
| CClock
| CProgress.

(** [CReadRange] is lent a buffer of 1024 bytes and answers with it. *)
#[global] Instance TaskCall_signature : Signature TaskCall := fun call =>
  match call with
  | CResolve _ _ => outcome FileError Z
  | CLookup _ _ | CStat _ | CCreate _ _ _ | CReplace _ _ _ => outcome FileError Metadata
  | CReferences _ _ => outcome FileError References
  | CReadRange _ => outcome FileError (ReadInfo * list Z)
  | CReplaceFile _ _ | COperationGet _ => outcome FileError FileOperation
  | CCapabilities => outcome FileError Capabilities
  | CNote _ => unit
  | CControl _ | CFinish _ => outcome ClientError (list Z)
  | CClock => Z
  | CProgress => outcome SdkError unit
  end.

Definition owner_call (A : Type) : Type := prog TaskCall (outcome ClientError A).
Definition done_with {A} (r : outcome ClientError A) : owner_call A := Ret r.
(** [?] on a file call: [From<File>]. *)
Definition file {A} (p : prog TaskCall (outcome FileError A)) : owner_call A := map_error EFile p.
Definition note (n : Note) : prog TaskCall unit := ask (CNote n).

(** ** The journal (journal.rs) *)
Definition file_of (m : Metadata) : outcome ClientError (option Metadata) := if md_directory m then Err EJournal else Ok (Some m).

Definition locate (record : TaskRecord) : owner_call (option Metadata) :=
  match place record with
  | Named directory name =>
    let& directory := file (ask (CResolve 0 directory)) in
    try (ask (CLookup directory name)) (fun m => done_with (file_of m)) (fun e => done_with (match e with FNotFound => Ok None | _ => Err (EFile e) end))
  | Granted id => let& m := file (ask (CStat id)) in done_with (file_of m)
  | InvalidPlace => done_with (Err EJournal)
  end.

Definition pending (record : TaskRecord) : owner_call Pending :=
  let& m := locate record in
  done_with (Ok (match m with Some m => Pending_of (md_length m) (md_version m) | None => Idle end)).

Definition idle (record : TaskRecord) : owner_call unit := let& p := pending record in done_with (Pending_idle p).

Section Journal.
Context {HD : Digest}.

Definition snapshot (m : Metadata) : owner_call (ReadInfo * list Z) :=
  if md_directory m then done_with (Err (EFile FIsDirectory))
  else
    let& refs := file (ask (CReferences (md_space m) (md_id m))) in
    let& version := done_with (map_err EFile (Version_new (md_version m))) in
    let& (info, b) := file (ask (CReadRange (mkReadRequest (rf_workspace refs) (rf_resource refs) (Some version) 0 1024))) in
    done_with (if negb (ri_eof info) || negb (ri_offset info =? 0) || negb (ri_size info =? ri_length info) then Err (EFile FProtocol) else Ok (info, b)).

(** The slice [bytes[..info.length]] of a buffer. *)
Definition prefix_of_buffer (info : ReadInfo) (b : list Z) : outcome ClientError (list Z) :=
  if Z.of_nat (length b) <? ri_length info then Panic else Ok (take (Z.to_nat (ri_length info)) b).

Definition load (record : TaskRecord) : owner_call (option (Metadata * Intent)) :=
  let& m := locate record in
  match m with
  | None => done_with (Ok None)
  | Some m =>
    if md_length m =? 0 then done_with (Ok None)
    else
      let& (info, b) := snapshot m in
      let& b := done_with (prefix_of_buffer info b) in
      let& i := done_with (map_err (fun _ => EJournal) (Intent_decode b)) in
      let& r := done_with (map_err EFile (Intent_request i (md_version m))) in
      done_with (if negb (bool_decide (ws_lineage (rp_workspace r) = ws_lineage (rf_workspace (ri_references info)))) then Err EJournal else Ok (Some (m, i)))
  end.

Definition retain (record : TaskRecord) (i : Intent) : owner_call Metadata :=
  let& found := locate record in
  let& original := (match found with
                    | Some m => done_with (if md_length m =? 0 then Ok m else Err (EPending (md_version m)))
                    | None =>
                      let& (directory, name) := done_with (creation record) in
                      let& directory := file (ask (CResolve 0 directory)) in
                      file (ask (CCreate directory name false))
                    end) in
  let& saved := file (ask (CReplace (md_id original) (md_version original) (Intent_encoded i))) in
  let& loaded := load record in
  let& (observed, restored) := done_with (ok_or loaded EJournal) in
  if negb (md_id observed =? md_id saved) || negb (md_version observed =? md_version saved) || negb (bool_decide (Intent_encoded restored = Intent_encoded i))
  then done_with (Err EJournal)
  else
    let& r := done_with (map_err EFile (Intent_request i (md_version saved))) in
    let& refs := file (ask (CReferences (md_space saved) (md_id saved))) in
    done_with (if negb (bool_decide (ws_lineage (rf_workspace refs) = ws_lineage (rp_workspace r))) then Err EJournal else Ok saved).

Definition clear (m : Metadata) : owner_call unit :=
  let& _ := file (ask (CReplace (md_id m) (md_version m) [])) in done_with (Ok tt).

Definition forget (record : TaskRecord) (key : Z) : owner_call unit :=
  let& loaded := load record in
  let& (saved, _) := done_with (ok_or loaded EJournal) in
  if negb (md_version saved =? key) then done_with (Err (EPending (md_version saved))) else clear saved.

(** ** Submission and recovery (mutation.rs); ordinary builds have no failure cut *)
Definition guard (record : TaskRecord) : owner_call unit :=
  let& _ := idle record in
  let& caps := file (ask CCapabilities) in
  done_with (if negb (bool_decide (Capabilities_of caps FilesReplace = Some Available)) then Err EEnable else Ok tt).

Definition distinct (record : TaskRecord) (target : Z) : owner_call unit :=
  let& m := locate record in
  done_with (match m with Some m => if md_id m =? target then Err EJournal else Ok tt | None => Ok tt end).

(** The proof of a committed effect: its receipt, and its bytes read back. *)
Definition finish (saved : Metadata) (i : Intent) (o : FileOperation) : owner_call Committed :=
  if negb (Intent_matches i (md_version saved) o) then done_with (Err (EFile FUncertain))
  else
    try (ask (CReadRange (mkReadRequest (fo_workspace o) (fo_resource o) (Some (fo_version o)) 0 1024)))
      (fun '(info, actual) =>
        let& b := done_with (if negb (ri_eof info) || negb (ri_length info =? Z.of_nat (length (Intent_candidate i))) then Err (EFile FUncertain) else prefix_of_buffer info actual) in
        if negb (bool_decide (b = Intent_candidate i)) then done_with (Err (EFile FUncertain))
        else
          let c := mkCommitted (Intent_task_id i) (fo_version o) (md_version saved) in
          try (clear saved) (fun _ => done_with (Ok c)) (fun e => bind (note (CleanupIncomplete c)) (fun _ => done_with (Err e))))
      (fun e => bind (note (Unverified (md_version saved) (fo_version o))) (fun _ => done_with (Err (EFile e)))).

Definition commit (record : TaskRecord) (scope : Z) (c : Candidate) : owner_call Applied :=
  let summary := cd_summary c in
  let& m := file (ask (CStat scope)) in
  if negb (md_version m =? sm_version summary) then done_with (Err (EFile FVersion))
  else
    let& (info, original) := snapshot m in
    if negb (sm_changed summary) then
      let& b := done_with (prefix_of_buffer info original) in
      done_with (if negb (bool_decide (b = Candidate_bytes c)) then Err (EFile FProtocol) else Ok (Unchanged (sm_task summary) (ri_version info)))
    else
      let& i := done_with (map_err EFile (Intent_new (ri_references info) (ri_version info) (ri_epoch info) (cd_edit c) (sm_task summary) (Candidate_bytes c))) in
      let& saved := retain record i in
      bind (note (Retained (md_version saved))) (fun _ =>
        let& r := done_with (map_err EFile (Intent_request i (md_version saved))) in
        try (ask (CReplaceFile r (Intent_candidate i)))
          (fun o => let& c := finish saved i o in done_with (Ok (AppliedCommitted c)))
          (fun e =>
            let refusal := EFile e in
            if conclusive refusal then let& _ := clear saved in done_with (Err refusal)
            else bind (note Ambiguous) (fun _ => done_with (Err refusal)))).

Definition apply_candidate (record : TaskRecord) (target : Z) (c : Candidate) : owner_call Applied :=
  let& _ := guard record in
  let& _ := distinct record target in
  commit record target c.

Definition recover (record : TaskRecord) : owner_call Recovery :=
  let& loaded := load record in
  match loaded with
  | None => done_with (Ok Absent)
  | Some (saved, i) =>
    let& r := done_with (map_err EFile (Intent_request i (md_version saved))) in
    try (ask (COperationGet (LookupRetry (rp_workspace r) (rp_retry r))))
      (fun o => let& c := finish saved i o in done_with (Ok (Recovered c)))
      (fun e => bind (note (UnresolvedNote (md_version saved))) (fun _ => done_with (Err (EFile e))))
  end.
End Journal.

(** ** A plan collected through the supervisor (crates/tasks-client/src)

    transport.rs (the exchanges of one bounded job, completed before its result is
    returned) and the paths of mutation.rs and client.rs that plan an edit first. *)
(** crates/abi/src/supervisor.rs. *)
Definition JOB_STATUS : Z := 19.
Definition TASKS_LIST : Z := 26.
Definition TASKS_ROW : Z := 27.
Definition TASKS_ABORT : Z := 28.
Definition TASKS_PREVIEW : Z := 29.
Definition TASKS_CANDIDATE : Z := 30.

Record Listing := mkListing { ls_rows : list Row; ls_count : nat; ls_summary : option Summary }.
Record Complete := mkComplete { cp_listing : Listing; cp_candidate : option TaskClient.TaskPlan }.

Definition words3 (op job x : Z) : list Z := [op; job; x; 0; 0; 0; 0; 0].

Definition progress : owner_call unit :=
  map_error (fun e => EFile (match e with SInterrupted => FInterrupted | _ => FProtocol end)) (ask CProgress).

(** Waits for the job; [turns] bounds the polls made before the deadline passes. *)
Fixpoint poll_job (turns : nat) (job deadline : Z) : owner_call (list Z) :=
  match turns with
  | O => done_with Panic
  | S turns =>
    let& result := ask (CControl (words3 JOB_STATUS job 0)) in
    if negb (word result 1 =? job) || negb (word result 2 =? TASKS_LIST) || negb (word result 7 =? 0) then done_with (Err (EService 4))
    else if word result 0 =? 0 then ask (CFinish result)
    else bind (ask CClock) (fun now =>
      if deadline <=? now then done_with (Err (EService 4)) else let& _ := progress in poll_job turns job deadline)
  end.

Fixpoint collect_rows (job : Z) (indices : list nat) (rows : list Row) : owner_call (list Row) :=
  match indices with
  | [] => done_with (Ok rows)
  | index :: indices =>
    let& _ := progress in
    let& w := ask (CControl (words3 TASKS_ROW job (Z.of_nat index))) in
    match decode_task_response w with
    | Some (RowResponse row) =>
      if existsb (fun old => rw_id old =? rw_id row) rows then done_with (Err (EService 4)) else collect_rows job indices (rows ++ [row])
    | _ => done_with (Err (EService 4))
    end
  end.

(** The candidate's chunks: the buffer, its length so far and the announced total. *)
Fixpoint collect_chunks (fuel : nat) (job : Z) (b : list Z) (n : Z) (total : option Z) : owner_call (list Z * Z) :=
  match fuel with
  | O => done_with Panic
  | S fuel =>
    let& w := ask (CControl (words3 TASKS_CANDIDATE job n)) in
    let& part := done_with (ok_or (Chunk_decode_owner w) (EService 4)) in
    if negb (ck_offset part =? n) || is_some_and (fun t => negb (t =? ck_total part)) total then done_with (Err (EService 4))
    else
      let fin := n + ck_length part in
      if Z.of_nat (length b) <? fin then done_with Panic
      else
        let b := write b (Z.to_nat n) (Chunk_bytes part) in
        if fin =? ck_total part then done_with (Ok (b, fin)) else collect_chunks fuel job b fin (Some (ck_total part))
  end.

(** The reported rows are the document's. *)
Fixpoint same_rows (d : Document) (index : nat) (rows : list Row) : outcome ClientError unit :=
  match rows with
  | [] => Ok tt
  | row :: rows =>
    let? t := ok_or (Document_get d index) (EService 4) in
    if negb (ta_id t =? rw_id row) || negb (bool_decide (ta_state t = rw_state row)) || negb (bool_decide (Task_title t = take (rw_len row) (rw_title row)))
    then Err (EService 4) else same_rows d (S index) rows
  end.

Definition collect_end (preview : bool) (w : list Z) (count : nat) : outcome ClientError (option Summary) :=
  if preview then
    if negb (bool_decide (take 3 w = [0; 0; Z.of_nat count])) then Err (EService 4)
    else let? s := ok_or (Summary_decode (slice w 2 8 ++ [0])) (EService 4) in Ok (Some s)
  else if negb (bool_decide (w = words3 0 0 (Z.of_nat count))) then Err (EService 4) else Ok None.

Definition collect_plan (b : list Z) (rows : list Row) (count : nat) (summary : option Summary) (edit : option Edit) : outcome ClientError Complete :=
  let? s := ok_or summary (EService 4) in
  let? d := map_err (fun _ => EService 4) (Document_parse b) in
  if negb (dc_len d =? count)%nat then Err (EService 4)
  else
    let? _ := same_rows d 0 rows in
    let? e := ok_or edit (EService 4) in
    let? p := map_err (fun _ => EService 4) (Plan_new b s e) in
    Ok (mkComplete (mkListing rows count (Some s)) (Some p)).

Definition CHUNK_FUEL : nat := S MAX_BYTES.

Definition collect (turns : nat) (job : Z) (edit : option Edit) (retain : bool) : owner_call Complete :=
  bind (ask CClock) (fun now =>
    let& complete := poll_job turns job (saturating_add now 1100) in
    let count := Z.to_nat (word complete 2) in
    if (word complete 1 =? 0) || (MAX_TASKS <? count)%nat || nonzero_from 3 complete then done_with (Err (EService 4))
    else
      let& rows := collect_rows job (seq 0 count) [] in
      let& (b, n) := (if retain then collect_chunks CHUNK_FUEL job (zeros MAX_BYTES) 0 None else done_with (Ok (zeros MAX_BYTES, 0))) in
      let& _ := progress in
      let& w := ask (CControl (words3 TASKS_ROW job (Z.of_nat count))) in
      let& summary := done_with (collect_end (is_some_and (fun _ => true) edit) w count) in
      done_with (if retain then collect_plan (take (Z.to_nat n) b) rows count summary edit else Ok (mkComplete (mkListing rows count summary) None))).

Definition task_error {A} (e : ClientError) : outcome ClientError A :=
  match e with
  | EService code =>
    if code =? 7 then Err EDocument
    else if code =? 8 then Err ECapacity
    else if (33 <=? code) && (code <=? 63) then match FileError_parse (code - 32) with Err e => Err (EFile e) | _ => Panic end
    else Err e
  | _ => Err e
  end.

Definition run_job (turns : nat) (scope : Z) (edit : option Edit) (retain : bool) : owner_call Complete :=
  let request := match edit with Some e => [TASKS_PREVIEW; scope] ++ Edit_words e | None => words3 TASKS_LIST scope 0 end in
  let& started := ask (CControl request) in
  if negb (word started 0 =? 5) || (word started 1 =? 0) || negb (word started 2 =? TASKS_LIST) then done_with (Err (EService 4))
  else
    bind (collect turns (word started 1) edit retain) (fun r =>
      match r with
      | Ok c => done_with (Ok c)
      | Err e => bind (ask (CControl (words3 TASKS_ABORT (word started 1) 0))) (fun _ => done_with (task_error e))
      | Panic => done_with Panic
      end).

Definition plan_edit (turns : nat) (scope : Z) (e : Edit) : owner_call TaskClient.TaskPlan :=
  let& c := run_job turns scope (Some e) true in done_with (ok_or (cp_candidate c) (EService 4)).

(** [Client::list] and [Client::preview]. *)
Definition client_rows (turns : nat) (scope : Z) (e : option Edit) : owner_call Listing :=
  let& c := run_job turns scope e false in done_with (Ok (cp_listing c)).

(** [Client::apply]: plan, then retain, submit and prove. *)
Definition apply `{Digest} (turns : nat) (record : TaskRecord) (cwd : Z) (path : list Z) (e : Edit) : owner_call Applied :=
  let& _ := guard record in
  let& scope := file (ask (CResolve cwd path)) in
  let& _ := distinct record scope in
  let& p := plan_edit turns scope e in
  let& c := done_with (Plan_candidate p) in
  commit record scope c.
