(* ===== verification/TaskApp.v ===== *)
(** * The tasks application (apps/tasks/src)

    snapshot.rs (one version-pinned source), read.rs and preview.rs (the indexed
    result and the plan of an edit) and the request loop of session.rs.  The
    application has no write authority: it only asks its file client. *)
From stdpp Require Import base list option numbers.
From Stdlib Require Import ZArith Lia Bool.
From S2P Require Import Prelude Bytes Codec AbiFiles AbiIdentity AbiMessages AbiRuntime AbiServices Interact SdkFiles TaskDocument TaskPlan TaskWire TaskIntent TaskClient TaskJournal.

(** ** The source (snapshot.rs) *)
Definition snapshot_read (scope : Z) : prog TaskCall (outcome FileError (ReadInfo * list Z)) :=
  let& m := ask (CStat scope) in
  if md_directory m then Ret (Err FIsDirectory)
  else
    let& refs := ask (CReferences (md_space m) scope) in
    let& version := Ret (Version_new (md_version m)) in
    let& (info, b) := ask (CReadRange (mkReadRequest (rf_workspace refs) (rf_resource refs) (Some version) 0 1024)) in
    Ret (if negb (ri_eof info) || negb (ri_offset info =? 0) || negb (ri_size info =? ri_length info) then Err FProtocol else Ok (info, b)).

(** ** The state (read.rs) *)
Record AppState := mkAppState {
  as_document : option Document; as_next : nat; as_failure : option (list Z); as_preview : option Summary; as_candidate : option Planned }.
Definition AppState_new : AppState := mkAppState None 0 None None None.

(** A response and the state it leaves. *)
Definition responding : Type := prog TaskCall (outcome unit (list Z * AppState)).

Definition service_response (e : FileError) : list Z := wire_service (FileError_repr e).
Definition document_response (e : TaskError) : list Z := match e with TInvalid => wire_invalid | TCapacity => wire_capacity end.
Definition plan_response (e : PlanError) : list Z :=
  match e with
  | PInvalidDocument => wire_invalid
  | PCapacity => wire_capacity
  | PInvalidTitle | PInvalidId => service_response FInvalid
  | PTaskNotFound => service_response FNotFound
  | PIdExhausted => service_response FExhausted
  end.

Definition next_response (st : AppState) : outcome unit (list Z * AppState) :=
  match as_document st with
  | None => Panic
  | Some d =>
    match Document_get d (as_next st) with
    | Some t => Ok (wire_row t, mkAppState (as_document st) (S (as_next st)) (as_failure st) (as_preview st) (as_candidate st))
    | None => Ok (match as_preview st with None => wire_end (dc_len d) | Some s => preview_end s end, st)
    end
  end.

Definition fail_with (st : AppState) (response : list Z) : outcome unit (list Z * AppState) :=
  Ok (response, mkAppState (as_document st) (as_next st) (Some response) (as_preview st) (as_candidate st)).

(** [&bytes[..info.length]]. *)
Definition source_bytes (info : ReadInfo) (b : list Z) : option (list Z) :=
  if Z.of_nat (length b) <? ri_length info then None else Some (take (Z.to_nat (ri_length info)) b).

(** What follows the snapshot in [load] and [list]. *)
Definition list_answer (st : AppState) (r : outcome FileError (ReadInfo * list Z)) : outcome unit (list Z * AppState) :=
  match r with
  | Err e => fail_with st (service_response e)
  | Panic => Panic
  | Ok (info, b) =>
    match source_bytes info b with
    | None => Panic
    | Some b =>
      match Document_parse b with
      | Err e => fail_with st (document_response e)
      | Panic => Panic
      | Ok d => next_response (mkAppState (Some d) 0 (as_failure st) (as_preview st) (as_candidate st))
      end
    end
  end.

Definition app_list (st : AppState) (scope : Z) : responding :=
  match as_failure st with
  | Some r => Ret (Ok (r, st))
  | None =>
    if is_some_and (fun _ => true) (as_document st) then Ret (Ok (wire_service 4, st))
    else bind (snapshot_read scope) (fun r => Ret (list_answer st r))
  end.

Definition app_next (st : AppState) : outcome unit (list Z * AppState) :=
  match as_failure st with
  | Some r => Ok (r, st)
  | None => match as_document st with None => Ok (wire_service 4, st) | Some _ => next_response st end
  end.

Definition candidate_response (st : AppState) (offset : nat) : list Z :=
  match as_failure st with
  | Some r => r
  | None =>
    match as_candidate st with
    | None => wire_service 4
    | Some p => match chunk (Planned_bytes p) offset with None => wire_service 4 | Some c => response_words c end
    end
  end.

(** ** Previews (preview.rs) *)
(** The prefix of [title] an edit names. *)
Definition edit_command (e : Edit) : TaskCommand := match e with EdAdd title n => CAdd (take n title) | EdDone id => CDone id end.

(** The closure: a summary, a candidate and its document, or the failure response. *)
Definition preview_plan (version : Version) (b : list Z) (e : Edit) : outcome (list Z) (Summary * Planned * Document) :=
  let? p := map_err plan_response (plan b (edit_command e)) in
  let? d := map_err (fun _ => service_response FProtocol) (Document_parse (Planned_bytes p)) in
  Ok (mkSummary (Z.of_nat (dc_len d)) (v_value version) (pn_task p) (pn_changed p), p, d).

Definition preview_answer (st : AppState) (e : Edit) (r : outcome FileError (ReadInfo * list Z)) : outcome unit (list Z * AppState) :=
  match r with
  | Err e => fail_with st (service_response e)
  | Panic => Panic
  | Ok (info, b) =>
    match source_bytes info b with
    | None => Panic
    | Some b =>
      match preview_plan (ri_version info) b e with
      | Err response => fail_with st response
      | Panic => Panic
      | Ok (s, p, d) => next_response (mkAppState (Some d) 0 (as_failure st) (Some s) (Some p))
      end
    end
  end.

Definition app_preview (st : AppState) (scope : Z) (e : Edit) : responding :=
  match as_failure st with
  | Some r => Ret (Ok (r, st))
  | None =>
    if is_some_and (fun _ => true) (as_document st) then Ret (Ok (service_response FBusy, st))
    else bind (snapshot_read scope) (fun r => Ret (preview_answer st e r))
  end.

(** ** Requests (session.rs) *)
Definition lift (r : outcome unit (list Z * AppState)) : responding := Ret r.

(** One turn of the loop: the response to a received payload. *)
Definition respond (st : AppState) (scope : Z) (payload : list Z) : responding :=
  match words_decode payload with
  | Ok w =>
    match decode_task_request w with
    | Some TaskList => app_list st scope
    | Some TaskNext => lift (app_next st)
    | Some (TaskPreview e) => app_preview st scope e
    | Some (TaskBytes offset) => lift (Ok (candidate_response st offset, st))
    | None => lift (Ok (wire_service 4, st))
    end
  | Err _ => lift (Ok (wire_service 4, st))
  | Panic => lift Panic
  end.

(** A session: each message names its sender; one of another sender ends the run. *)
Fixpoint session (st : AppState) (owner scope : Z) (messages : list (Z * list Z)) : prog TaskCall (outcome unit (list (list Z) * AppState)) :=
  match messages with
  | [] => Ret (Ok ([], st))
  | (sender, payload) :: messages =>
    if negb (sender =? owner) then Ret (Ok ([], st))
    else
      let& (response, st) := respond st scope payload in
      let& (responses, st) := session st owner scope messages in
      Ret (Ok (response :: responses, st))
  end.
