(* ===== verification/TaskProtocol.v ===== *)
(** * The rules of the recovery record

    What the client may do with its journal and its target, whatever the services
    answer: the documented invariants of crates/tasks-client/src/lib.rs as rules
    over the log of its calls.  A record is written only over an idle one; the one
    submission follows a record read back; a record is cleared only on proof. *)
From stdpp Require Import base list option numbers.
From Stdlib Require Import ZArith Lia Bool.
From S2P Require Import Prelude Bytes Codec AbiFiles AbiIdentity AbiMessages AbiReceipts AbiServices Interact SdkFiles SdkRange SdkPromise TaskDocument TaskPlan TaskWire TaskIntent TaskClient TaskJournal.

(** ** Logs *)
Definition Event : Type := { c : TaskCall & reply c }.
Definition Log : Type := list Event.
Definition event (c : TaskCall) (r : reply c) : Event := existT c r.
Definition answered (log : Log) (c : TaskCall) (r : reply c) : Prop := event c r ∈ log.

(** A call that changes no file. *)
Definition query (c : TaskCall) : bool := match c with CReplace _ _ _ | CCreate _ _ _ | CReplaceFile _ _ => false | _ => true end.
Definition submits (e : Event) : bool := match projT1 e with CReplaceFile _ _ => true | _ => false end.
Definition submitted (log : Log) : bool := existsb submits log.

(** A record successfully emptied. *)
Definition erases (e : Event) : bool :=
  match projT1 e as c return reply c -> bool with CReplace _ _ [] => fun r => is_ok r | _ => fun _ => false end (projT2 e).
Definition erased (log : Log) : bool := existsb erases log.
Definition loud (e : Event) : bool := submits e || erases e.

(** [log'] continues [log]: without a submission or an emptied record; without a submission; anyhow. *)
Definition quiet (log log' : Log) : Prop := exists ext, log' = log ++ ext /\ existsb loud ext = false.
Definition calm (log log' : Log) : Prop := exists ext, log' = log ++ ext /\ submitted ext = false.
Definition grows (log log' : Log) : Prop := exists ext, log' = log ++ ext.

Lemma quiet_refl log : quiet log log.
Proof. exists []. by rewrite app_nil_r. Qed.
Lemma quiet_trans l1 l2 l3 : quiet l1 l2 -> quiet l2 l3 -> quiet l1 l3.
Proof. intros (a & -> & Ha) (b & -> & Hb). exists (a ++ b). rewrite app_assoc. split; [done|]. by rewrite existsb_app, Ha, Hb. Qed.
Lemma quiet_grows l l' : quiet l l' -> grows l l'.
Proof. intros (a & -> & _). by exists a. Qed.
Lemma log_grows_trans l1 l2 l3 : grows l1 l2 -> grows l2 l3 -> grows l1 l3.
Proof. intros (a & ->) (b & ->). exists (a ++ b). by rewrite app_assoc. Qed.
#[global] Instance grows_preorder : PreOrder grows.
Proof. split; [intros l; exists []; by rewrite app_nil_r|exact log_grows_trans]. Qed.
#[global] Instance quiet_preorder : PreOrder quiet.
Proof. split; [exact quiet_refl|exact quiet_trans]. Qed.

Lemma calm_trans l1 l2 l3 : calm l1 l2 -> calm l2 l3 -> calm l1 l3.
Proof. intros (a & -> & Ha) (b & -> & Hb). exists (a ++ b). rewrite app_assoc. split; [done|]. unfold submitted in *. by rewrite existsb_app, Ha, Hb. Qed.
#[global] Instance calm_preorder : PreOrder calm.
Proof. split; [intros l; exists []; by rewrite app_nil_r|exact calm_trans]. Qed.
Lemma calm_grows l l' : calm l l' -> grows l l'.
Proof. intros (a & -> & _). by exists a. Qed.

Lemma loud_none ext : existsb loud ext = false <-> submitted ext = false /\ erased ext = false.
Proof.
  unfold submitted, erased. induction ext as [|e ext IH]; [done|]. cbn [existsb]. rewrite !orb_false_iff, IH. unfold loud. rewrite orb_false_iff. tauto.
Qed.
Lemma quiet_calm l l' : quiet l l' -> calm l l'.
Proof. intros (a & -> & Ha). exists a. split; [done|]. by apply loud_none in Ha as [? _]. Qed.
Lemma calm_submitted l l' : calm l l' -> submitted l' = submitted l.
Proof. intros (a & -> & Ha). unfold submitted in *. rewrite existsb_app, Ha. apply orb_false_r. Qed.
Lemma quiet_erased l l' : quiet l l' -> erased l' = erased l.
Proof. intros (a & -> & Ha). apply loud_none in Ha as [_ Ha]. unfold erased in *. rewrite existsb_app, Ha. apply orb_false_r. Qed.

Lemma quiet_snoc log c r : loud (event c r) = false -> quiet log (log ++ [event c r]).
Proof. intros H. exists [event c r]. split; [done|]. cbn [existsb]. by rewrite H. Qed.
Lemma calm_snoc log c r : submits (event c r) = false -> calm log (log ++ [event c r]).
Proof. intros H. exists [event c r]. split; [done|]. unfold submitted. cbn [existsb]. by rewrite H. Qed.
Lemma erased_snoc log c r : erases (event c r) = false -> erased (log ++ [event c r]) = erased log.
Proof. intros H. unfold erased. rewrite existsb_app. cbn [existsb]. rewrite H. apply orb_false_r. Qed.
Lemma quiet_write log id v b r : b <> [] -> quiet log (log ++ [event (CReplace id v b) r]).
Proof. intros H. apply quiet_snoc. by destruct b. Qed.
Lemma answered_here log c r : answered (log ++ [event c r]) c r.
Proof. apply elem_of_app. right. by left. Qed.
Lemma answered_grows log log' c r : grows log log' -> answered log c r -> answered log' c r.
Proof. intros (a & ->) H. apply elem_of_app. by left. Qed.

(** ** What the borrowed client promises

    Whatever a service answers, the SDK returns only results that fit the
    question; TaskFlow.v shows it of the client's methods. *)
Section Promise.
Context {HD : Digest}.

Definition info_ok (r : ReadRequest) (info : ReadInfo) (b : list Z) : Prop :=
  ri_references info = mkReferences (rr_workspace r) (rr_resource r) /\ (forall v, rr_expected r = Some v -> ri_version info = v) /\
  number_ok (v_value (ri_version info)) /\ number_ok (e_value (ri_epoch info)) /\ length b = INTENT_BYTES /\ bytes_ok b /\ 0 <= ri_length info <= Z.of_nat INTENT_BYTES.

Definition promised (c : TaskCall) : reply c -> Prop :=
  match c return reply c -> Prop with
  | CReferences workspace object => fun r => match r with Ok refs => identities_ok refs /\ ws_root (rf_workspace refs) = workspace /\ rs_object (rf_resource refs) = object | _ => True end
  | CReadRange q => fun r => match r with Ok (info, b) => info_ok q info b | _ => True end
  | CReplaceFile q b => fun r => match r with Ok o => receipt_agrees q (Z.of_nat (length b)) (sha256 b) o = true | _ => True end
  | COperationGet l => fun r => match r with Ok o => lookup_matches l o = true | _ => True end
  | CControl _ | CFinish _ => fun r => match r with Ok w => message w | _ => True end
  | _ => fun _ => True
  end.

(** ** Worlds of logs *)
Definition logged (rule : Log -> TaskCall -> Prop) : World TaskCall Log := {|
  permits := fun log c => query c = true \/ rule log c;
  answers := fun log c r log' => log' = log ++ [event c r] /\ promised c r |}.
End Promise.

(** ** What the log has established *)
Section Rules.
Context {HD : Digest}.
Variable record : TaskRecord.

Definition located (log : Log) (m : Metadata) : Prop :=
  md_directory m = false /\
  match place record with
  | Named _ name => exists directory, answered log (CLookup directory name) (Ok m)
  | Granted id => answered log (CStat id) (Ok m)
  | InvalidPlace => False
  end.

(** The record was observed empty, or was just created where it belongs. *)
Definition vacant (log : Log) (m : Metadata) : Prop :=
  (located log m /\ md_length m = 0) \/
  (exists directory name d, creation record = Ok (directory, name) /\ answered log (CCreate d name false) (Ok m)).

(** The complete content of version [version] of [object] was read. *)
Definition content_read (log : Log) (object : Z) (version : Version) (b : list Z) : Prop :=
  exists r info buffer, answered log (CReadRange r) (Ok (info, buffer)) /\ rs_object (rr_resource r) = object /\ rr_expected r = Some version /\ rr_offset r = 0 /\
    ri_eof info = true /\ b = take (Z.to_nat (ri_length info)) buffer.

(** The record was found and holds [i]. *)
Definition loaded (log : Log) (m : Metadata) (i : Intent) : Prop :=
  located log m /\ md_length m <> 0 /\ exists b, content_read log (md_id m) (mkVersion (md_version m)) b /\ Intent_decode b = Ok i.

(** The record was written and read back. *)
Definition retained (log : Log) (saved : Metadata) (i : Intent) : Prop :=
  (exists m, vacant log m /\ answered log (CReplace (md_id m) (md_version m) (Intent_encoded i)) (Ok saved)) /\
  exists observed restored, loaded log observed restored /\ md_id observed = md_id saved /\ md_version observed = md_version saved /\
    Intent_encoded restored = Intent_encoded i.

(** The submission of [i] was refused by one of the answers that prove it did not publish. *)
Definition refused (log : Log) (saved : Metadata) (i : Intent) : Prop :=
  exists r e, Intent_request i (md_version saved) = Ok r /\ answered log (CReplaceFile r (Intent_candidate i)) (Err e) /\ conclusive (EFile e) = true.

(** The effect of [i] is committed as [o]: the receipt is its own, and the bytes were read back at the version it names. *)
Definition proved (log : Log) (saved : Metadata) (i : Intent) (o : FileOperation) : Prop :=
  Intent_matches i (md_version saved) o = true /\ content_read log (rs_object (fo_resource o)) (fo_version o) (Intent_candidate i) /\
  exists r, Intent_request i (md_version saved) = Ok r /\
    (answered log (CReplaceFile r (Intent_candidate i)) (Ok o) \/ answered log (COperationGet (LookupRetry (rp_workspace r) (rp_retry r))) (Ok o)).

Definition may_clear (log : Log) (id version : Z) (b : list Z) : Prop :=
  exists saved i, id = md_id saved /\ version = md_version saved /\ b = [] /\
    ((retained log saved i /\ refused log saved i) \/ ((retained log saved i \/ loaded log saved i) /\ exists o, proved log saved i o)).

Definition may_record (log : Log) (id version : Z) (b : list Z) : Prop :=
  exists m i, id = md_id m /\ version = md_version m /\ vacant log m /\ b = Intent_encoded i /\ b <> [].

(** A named record that does not exist. *)
Definition absent (log : Log) : Prop :=
  match place record with Named _ name => exists directory, answered log (CLookup directory name) (Err FNotFound) | _ => False end.
Definition apart (log : Log) (target : Z) : Prop := (exists m, located log m /\ md_id m <> target) \/ absent log.

(** Replacement is enabled, the record is not the target, and the complete content
    of the version the submission expects was read. *)
Definition prepared (log : Log) (target : Z) (r : Replacement) : Prop :=
  (exists caps, answered log CCapabilities (Ok caps) /\ Capabilities_of caps FilesReplace = Some Available) /\
  apart log target /\
  exists m b, answered log (CStat target) (Ok m) /\ md_directory m = false /\ v_value (rp_expected r) = md_version m /\
    rs_object (rp_resource r) = md_id m /\ content_read log (md_id m) (rp_expected r) b.

Definition may_submit (target : Z) (log : Log) (r : Replacement) (b : list Z) : Prop :=
  submitted log = false /\ erased log = false /\ prepared log target r /\
  exists saved i, retained log saved i /\ Intent_request i (md_version saved) = Ok r /\ b = Intent_candidate i.

(** Applying an edit, and recovering one. *)
Definition apply_rule (target : Z) (log : Log) (c : TaskCall) : Prop :=
  match c with
  | CCreate _ name is_directory => is_directory = false /\ exists directory, creation record = Ok (directory, name)
  | CReplace id version b => may_record log id version b \/ may_clear log id version b
  | CReplaceFile r b => may_submit target log r b
  | _ => True
  end.

Definition recover_rule (log : Log) (c : TaskCall) : Prop :=
  match c with CReplace id version b => may_clear log id version b | CCreate _ _ _ | CReplaceFile _ _ => False | _ => True end.

(** ** The facts last *)
Lemma located_grows log log' m : grows log log' -> located log m -> located log' m.
Proof. intros G [Hd H]. split; [done|]. destruct (place record); [destruct H as [d H]; exists d| |done]; by eapply answered_grows. Qed.
Lemma vacant_grows log log' m : grows log log' -> vacant log m -> vacant log' m.
Proof. intros G [[H E]|(d & n & x & H & A)]; [left; split; [by eapply located_grows|done]|right]. exists d, n, x. split; [done|]. by eapply answered_grows. Qed.
Lemma content_grows log log' x v b : grows log log' -> content_read log x v b -> content_read log' x v b.
Proof. intros G (r & i & u & A & H). exists r, i, u. split; [by eapply answered_grows|done]. Qed.
Lemma loaded_grows log log' m i : grows log log' -> loaded log m i -> loaded log' m i.
Proof. intros G (H & Hl & b & Hb & Hd). split; [by eapply located_grows|]. split; [done|]. exists b. split; [by eapply content_grows|done]. Qed.
Lemma retained_grows log log' m i : grows log log' -> retained log m i -> retained log' m i.
Proof.
  intros G [(v & Hv & A) (o & r & Hl & H)]. split; [exists v; split; [by eapply vacant_grows|by eapply answered_grows]|]. exists o, r. split; [by eapply loaded_grows|done].
Qed.
Lemma absent_grows log log' : grows log log' -> absent log -> absent log'.
Proof. unfold absent. intros G. destruct (place record); [|done|done]. intros [d A]. exists d. by eapply answered_grows. Qed.
Lemma apart_grows log log' t : grows log log' -> apart log t -> apart log' t.
Proof. intros G [(m & H & N)|H]; [left; exists m; split; [by eapply located_grows|done]|right; by eapply absent_grows]. Qed.
Lemma prepared_grows log log' t r : grows log log' -> prepared log t r -> prepared log' t r.
Proof.
  intros G ((c & A & Hc) & Hd & m & b & B & Hm & Hv & Ho & Hb). split; [exists c; split; [by eapply answered_grows|done]|]. split; [by eapply apart_grows|].
  exists m, b. split; [by eapply answered_grows|]. do 3 (split; [done|]). by eapply content_grows.
Qed.

(** ** Running the client under a rule *)
Section Logged.
Variable rule : Log -> TaskCall -> Prop.
#[local] Instance logged_world : World TaskCall Log := logged rule.

(** What a part that only queries establishes. *)
Definition learns {A} (p : owner_call A) (fact : A -> Log -> Prop) : Prop :=
  forall log (Q : outcome ClientError A -> Log -> Prop),
    (forall r log', quiet log log' -> (forall a, r = Ok a -> fact a log') -> Q r log') -> wp p log Q.

Lemma wp_learns {A} (p : owner_call A) fact log Q : learns p fact ->
  (forall r log', quiet log log' -> (forall a, r = Ok a -> fact a log') -> Q r log') -> wp p log Q.
Proof. intros H. apply H. Qed.

#[local] Abbreviation owes p log Q := (wp (HW := logged rule) p log Q).

(** One query, and the next part of a run. *)
Ltac inquire := first [apply wp_let | apply wp_try]; try apply wp_map_error; apply wp_ask; [by left|]; intros ? ? [-> ?].
Ltac still := repeat (eapply quiet_trans; [|apply quiet_snoc; done]); first [reflexivity|eassumption].

Lemma locate_learns : learns (locate record) (fun found log => match found with Some m => located log m | None => absent log end).
Proof.
  intros log Q HQ. unfold locate. destruct (place record) as [d n|id|] eqn:Ep.
  - inquire. destruct r as [directory|e|]; cbn [map_err wp done_with]; [|apply HQ; [still|done]..].
    inquire. destruct r as [m|e|]; cbn [wp done_with]; [|destruct e; apply HQ; try still; try done; intros ? [= <-]|apply HQ; [still|done]].
    + unfold file_of. destruct (md_directory m) eqn:Ed; apply HQ; try still; [done|]. intros ? [= <-]. split; [done|]. rewrite Ep. exists directory. apply answered_here.
    + unfold absent. rewrite Ep. exists directory. apply answered_here.
  - inquire. destruct r as [m|e|]; cbn [map_err wp done_with]; [|apply HQ; [still|done]..].
    unfold file_of. destruct (md_directory m) eqn:Ed; apply HQ; try still; [done|]. intros ? [= <-]. split; [done|]. rewrite Ep. apply answered_here.
  - apply HQ; [still|done].
Qed.

Lemma guard_learns : learns (guard record) (fun _ log => exists caps, answered log CCapabilities (Ok caps) /\ Capabilities_of caps FilesReplace = Some Available).
Proof.
  intros log Q HQ. unfold guard, idle, pending. apply wp_let, wp_let, wp_let. apply locate_learns. intros r log1 G _. destruct r as [found|e|]; cbn [wp done_with]; [|apply HQ; [still|done]..].
  destruct (Pending_idle _) as [[]|e|] eqn:Ei; [|apply HQ; [still|done]..]. inquire. destruct r as [caps|e|]; cbn [map_err wp done_with]; [|apply HQ; [still|done]..].
  destruct (decide (Capabilities_of caps FilesReplace = Some Available)) as [Ec|Ec]; [rewrite bool_decide_eq_true_2 by done|rewrite bool_decide_eq_false_2 by done]; apply HQ; try still; [|done].
  intros _ _. exists caps. split; [apply answered_here|done].
Qed.

Lemma distinct_learns target : learns (distinct record target) (fun _ log => apart log target).
Proof.
  intros log Q HQ. unfold distinct. apply wp_let, locate_learns. intros r log1 G Hf. destruct r as [found|e|]; cbn [wp done_with]; [|apply HQ; [still|done]..]. specialize (Hf _ eq_refl).
  destruct found as [m|]; [destruct (Z.eqb_spec (md_id m) target)|]; apply HQ; try still; try done; intros _ _; [left; by exists m|by right].
Qed.

(** A complete snapshot of a file, and what its answer says. *)
Definition snapped (log : Log) (m : Metadata) (info : ReadInfo) (b : list Z) : Prop :=
  md_directory m = false /\ content_read log (md_id m) (mkVersion (md_version m)) (take (Z.to_nat (ri_length info)) b) /\
  identities_ok (ri_references info) /\ rs_object (rf_resource (ri_references info)) = md_id m /\ ri_version info = mkVersion (md_version m) /\
  number_ok (v_value (ri_version info)) /\ number_ok (e_value (ri_epoch info)) /\ length b = INTENT_BYTES /\ bytes_ok b /\ 0 <= ri_length info <= Z.of_nat INTENT_BYTES.

Lemma snapshot_learns m : learns (snapshot m) (fun '(info, b) log => snapped log m info b).
Proof.
  intros log Q HQ. unfold snapshot. destruct (md_directory m) eqn:Ed; [apply HQ; [still|done]|].
  inquire. destruct r as [refs|e|]; cbn [map_err wp done_with]; [|apply HQ; [still|done]..]. cbn [promised] in H. destruct H as ((Hi1 & Hi2 & Hi3) & _ & Ho).
  apply wp_let. cbn [wp done_with]. unfold Version_new. destruct (md_version m =? 0); cbn [map_err]; [apply HQ; [still|done]|].
  inquire. destruct r as [[info b]|e|]; cbn [map_err wp done_with]; [|apply HQ; [still|done]..]. cbn [promised] in H. destruct H as (Hr & Hv & Hn).
  destruct (_ || _) eqn:G; apply HQ; try still; [done|]. intros [? ?] [= <- <-]. rewrite !orb_false_iff, !negb_false_iff in G. destruct G as [[Ge _] _].
  split; [done|]. split; [eexists _, info, b; split; [apply answered_here|]; done|]. rewrite Hr. cbn [rr_workspace rr_resource rf_resource]. split; [by split|]. split; [done|]. split; [by apply Hv|done].
Qed.

Lemma load_learns : learns (load record) (fun found log => match found with Some (m, i) => loaded log m i | None => True end).
Proof.
  intros log Q HQ. unfold load. apply wp_let, locate_learns. intros r log1 G Hf. destruct r as [found|e|]; cbn [wp done_with]; [|apply HQ; [still|done]..]. specialize (Hf _ eq_refl).
  destruct found as [m|]; [|apply HQ; [still|by intros ? [= <-]]]. destruct (Z.eqb_spec (md_length m) 0); [apply HQ; [still|by intros ? [= <-]]|].
  apply wp_let, snapshot_learns. intros r log2 G2 Hs. assert (G3 : quiet log log2) by (by etransitivity). destruct r as [[info b]|e|]; cbn [wp done_with]; [|apply HQ; [still|done]..]. specialize (Hs _ eq_refl) as (_ & Hs & _).
  apply wp_let. cbn [wp done_with]. unfold prefix_of_buffer. destruct (Z.ltb_spec (Z.of_nat (length b)) (ri_length info)); [apply HQ; [still|done]|].
  apply wp_let. cbn [wp done_with]. destruct (Intent_decode _) as [i|e|] eqn:Ei; cbn [map_err]; [|apply HQ; [still|done]..].
  apply wp_let. cbn [wp done_with]. destruct (Intent_request i _) as [q|e|]; cbn [map_err]; [|apply HQ; [still|done]..].
  destruct (negb _); apply HQ; try still; [done|]. intros ? [= <-]. split; [eapply located_grows; [exact (quiet_grows _ _ G2)|exact Hf]|]. split; [done|]. eexists. split; [exact Hs|exact Ei].
Qed.

(** ** The changes *)
Hypothesis may_create : forall log d directory name, creation record = Ok (directory, name) -> rule log (CCreate d name false).
Hypothesis may_write : forall log id version b, may_record log id version b -> rule log (CReplace id version b).

Ltac commit_call := first [apply wp_let | apply wp_try]; try apply wp_map_error; apply wp_ask; [right|intros ? ? [-> ?]].

Lemma original_learns found log Q :
  match found with Some m => located log m | None => True end ->
  (forall r log', quiet log log' -> (forall m, r = Ok m -> vacant log' m) -> Q r log') ->
  owes (match found with
        | Some m => done_with (if md_length m =? 0 then Ok m else Err (EPending (md_version m)))
        | None =>
          let& (directory, name) := done_with (creation record) in
          let& directory := file (ask (CResolve 0 directory)) in
          file (ask (CCreate directory name false))
        end) log Q.
Proof.
  intros Hf HQ. destruct found as [m|].
  - cbn [wp done_with]. destruct (Z.eqb_spec (md_length m) 0); apply HQ; try reflexivity; [|done]. intros ? [= <-]. by left.
  - apply wp_let. cbn [wp done_with]. destruct (creation record) as [[directory name]|e|] eqn:Ec; [|apply HQ; [reflexivity|done]..].
    inquire. destruct r as [d|e|]; cbn [map_err wp done_with]; [|apply HQ; [still|done]..].
    apply wp_map_error, wp_ask; [right; by eapply may_create|]. intros r log' [-> _]. apply HQ; [still|]. intros m Hm. destruct r; try done. cbn in Hm. injection Hm as ->.
    right. exists directory, name, d. split; [done|apply answered_here].
Qed.

Lemma retain_learns i : Intent_encoded i <> [] -> learns (retain record i) (fun saved log => retained log saved i).
Proof.
  intros Hi log Q HQ. unfold retain. apply wp_let, locate_learns. intros r log1 G Hf. destruct r as [found|e|]; cbn [wp done_with]; [|apply HQ; [still|done]..]. specialize (Hf _ eq_refl).
  apply wp_let, original_learns; [by destruct found|]. intros r log2 G2 Hv. assert (G3 : quiet log log2) by (by etransitivity). destruct r as [m|e|]; cbn [wp done_with]; [|apply HQ; [still|done]..]. specialize (Hv _ eq_refl).
  commit_call. { apply may_write. by exists m, i. }
  destruct r as [saved|e|]; cbn [map_err wp done_with]; [|apply HQ; [etransitivity; [exact G3|by apply quiet_write]|done]..].
  assert (G4 : quiet log2 (log2 ++ [event (CReplace (md_id m) (md_version m) (Intent_encoded i)) (Ok saved)])) by (by apply quiet_write).
  pose proof (answered_here log2 (CReplace (md_id m) (md_version m) (Intent_encoded i)) (Ok saved)) as A. set (log3 := log2 ++ _) in *. clearbody log3.
  apply wp_let, load_learns. intros r log4 G5 Hl. destruct r as [found'|e|]; cbn [wp done_with]; [|apply HQ; [by etransitivity; [|etransitivity]|done]..]. specialize (Hl _ eq_refl).
  assert (G6 : quiet log log4) by (by etransitivity; [|etransitivity]). apply wp_let. cbn [wp done_with]. destruct found' as [[observed restored]|]; cbn [ok_or]; [|apply HQ; [still|done]].
  destruct (_ || _) eqn:E; [apply HQ; [still|done]|]. rewrite !orb_false_iff, !negb_false_iff, !Z.eqb_eq in E. destruct E as [[E1 E2] E3]. apply bool_decide_eq_true_1 in E3.
  apply wp_let. cbn [wp done_with]. destruct (Intent_request i _) as [q|e|]; cbn [map_err]; [|apply HQ; [still|done]..].
  inquire. destruct r as [refs|e|]; cbn [map_err wp done_with]; [|apply HQ; [still|done]..]. destruct (negb _); apply HQ; try still; [done|]. intros ? [= <-].
  eapply (retained_grows log4); [apply quiet_grows; still|]. split; [|exists observed, restored; by split].
  exists m. assert (G7 : grows log3 log4) by (by apply quiet_grows). split; [|by eapply answered_grows]. eapply vacant_grows; [|exact Hv]. etransitivity; [by apply quiet_grows|done].
Qed.

Hypothesis may_erase : forall log id version b, may_clear log id version b -> rule log (CReplace id version b).

Definition cleared (log : Log) (saved : Metadata) : Prop := exists m, answered log (CReplace (md_id saved) (md_version saved) []) (Ok m).

Lemma clear_wp saved log Q : may_clear log (md_id saved) (md_version saved) [] ->
  (forall r log', calm log log' -> (r = Ok tt -> cleared log' saved) -> (r <> Ok tt -> erased log' = erased log) -> Q r log') -> owes (clear saved) log Q.
Proof.
  intros H HQ. unfold clear. commit_call; [by apply may_erase|]. assert (E : forall r', is_ok r' = false -> erased (log ++ [event (CReplace (md_id saved) (md_version saved) []) r']) = erased log) by (intros; by apply erased_snoc).
  destruct r as [m|e|]; cbn [map_err wp done_with]; apply HQ; try (by apply calm_snoc); try done; try (intros _; by apply E). intros _. exists m. apply answered_here.
Qed.

(** What [finish] is told about the record and the operation. *)
Definition known (log : Log) (saved : Metadata) (i : Intent) : Prop := retained log saved i \/ loaded log saved i.
Definition reported (log : Log) (saved : Metadata) (i : Intent) (o : FileOperation) : Prop :=
  exists r, Intent_request i (md_version saved) = Ok r /\
    (answered log (CReplaceFile r (Intent_candidate i)) (Ok o) \/ answered log (COperationGet (LookupRetry (rp_workspace r) (rp_retry r))) (Ok o)).

Lemma known_grows log log' m i : grows log log' -> known log m i -> known log' m i.
Proof. intros G [H|H]; [left; by eapply retained_grows|right; by eapply loaded_grows]. Qed.
Lemma reported_grows log log' m i o : grows log log' -> reported log m i o -> reported log' m i o.
Proof. intros G (r & E & [A|A]); exists r; (split; [done|]); [left|right]; by eapply answered_grows. Qed.

Definition concluded (log : Log) (saved : Metadata) (i : Intent) (c : Committed) : Prop :=
  known log saved i /\ cleared log saved /\ exists o, proved log saved i o /\ c = mkCommitted (Intent_task_id i) (fo_version o) (md_version saved).

Lemma finish_wp saved i o log Q : known log saved i -> reported log saved i o ->
  (forall r log', calm log log' -> (forall c, r = Ok c -> concluded log' saved i c) -> (is_ok r = false -> erased log' = erased log) -> Q r log') ->
  owes (finish saved i o) log Q.
Proof.
  intros Hk Hr HQ. unfold finish.
  assert (Hend : forall r log', quiet log log' -> is_ok r = false -> Q r log').
  { intros r log' G Hn. apply HQ; [by apply quiet_calm| |intros _; by apply quiet_erased]. intros c ->. done. }
  destruct (Intent_matches i (md_version saved) o) eqn:Em; cbn [negb]; [|by apply Hend].
  inquire. destruct r as [[info actual]|e|]; [| |by apply Hend; [still|]].
  2:{ apply wp_then. apply wp_ask; [by left|]. intros r log' [-> _]. cbn [wp done_with]. by apply Hend; [still|]. }
  apply wp_let. cbn [wp done_with]. destruct (_ || _) eqn:G; [by apply Hend; [still|]|]. unfold prefix_of_buffer. destruct (Z.ltb_spec (Z.of_nat (length actual)) (ri_length info)); [by apply Hend; [still|]|].
  destruct (decide (take (Z.to_nat (ri_length info)) actual = Intent_candidate i)) as [Eb|Eb]; [rewrite bool_decide_eq_true_2 by done|rewrite bool_decide_eq_false_2 by done; by apply Hend; [still|]].
  cbn [negb]. apply orb_false_iff in G as [Ge _]. apply negb_false_iff in Ge.
  set (q := CReadRange _) in *. pose proof (answered_here log q (Ok (info, actual))) as A. assert (G2 : quiet log (log ++ [event q (Ok (info, actual))])) by still. set (log1 := log ++ _) in *. clearbody log1.
  pose proof (quiet_grows _ _ G2) as G3. assert (Hp : proved log1 saved i o).
  { split; [done|]. split; [|by apply (reported_grows log)]. eexists _, info, actual. split; [exact A|]. done. }
  assert (Hk1 : known log1 saved i) by (by eapply known_grows). apply wp_try, clear_wp.
  { exists saved, i. split; [done|]. split; [done|]. split; [done|]. right. split; [exact Hk1|by exists o]. }
  intros r log2 G4 Hc He. assert (G5 : calm log log2) by (etransitivity; [by apply quiet_calm|done]). pose proof (quiet_erased _ _ G2) as E2. destruct r as [[]|e|]; cbn [wp done_with].
  - apply HQ; [done| |done]. intros c [= <-]. split; [eapply known_grows; [by apply calm_grows, G4|done]|]. split; [by apply Hc|]. exists o. split; [|done].
    destruct Hp as (H1 & H2 & H3). split; [done|]. split; [eapply content_grows; [by apply calm_grows, G4|done]|]. apply (reported_grows log1); [by apply calm_grows|done].
  - apply wp_then, wp_ask; [by left|]. intros r log' [-> _]. cbn [wp done_with]. apply HQ; [etransitivity; [exact G5|by apply calm_snoc]|done|]. intros _. rewrite erased_snoc by done. by rewrite He, E2.
  - apply HQ; [done|done|]. intros _. by rewrite He, E2.
Qed.

(** ** Submission *)
Variable target : Z.
Hypothesis may_replace : forall log r b, may_submit target log r b -> rule log (CReplaceFile r b).

(** How an application ends: nothing was needed; the effect is proved and the
    record empty; or it failed, and then a submission that was not refused
    leaves the record. *)
Definition applied (c : Candidate) (r : outcome ClientError Applied) (log : Log) : Prop :=
  match r with
  | Ok (Unchanged task_id _) =>
    submitted log = false /\ sm_changed (cd_summary c) = false /\ task_id = sm_task (cd_summary c) /\
    exists object, content_read log object (mkVersion (sm_version (cd_summary c))) (Candidate_bytes c)
  | Ok (AppliedCommitted cm) => exists saved i, Intent_candidate i = Candidate_bytes c /\ concluded log saved i cm
  | _ => submitted log = true -> exists saved i, Intent_candidate i = Candidate_bytes c /\ retained log saved i /\ (refused log saved i \/ erased log = false)
  end.

Lemma Intent_new_encoded refs version epoch e task candidate i : Intent_new refs version epoch e task candidate = Ok i -> Intent_encoded i <> [].
Proof.
  unfold Intent_new. destruct (_ || _); [done|]. set (b := write _ _ candidate). intros H. injection H as <-. intros E%(f_equal length). unfold Intent_encoded in E. cbn [in_bytes in_length] in E.
  assert (INTENT_BYTES <= length b)%nat by (unfold b; repeat (etransitivity; [|apply length_write_ge]); unfold zeros; by rewrite length_replicate). rewrite length_take in E. unfold INTENT_BYTES, INTENT_HEADER in *. cbn [length] in E. lia.
Qed.

Lemma submission_wp c i saved log (Q : outcome ClientError Applied -> Log -> Prop) : Intent_candidate i = Candidate_bytes c -> retained log saved i -> submitted log = false -> erased log = false ->
  (forall r, Intent_request i (md_version saved) = Ok r -> prepared log target r) ->
  (forall r log', applied c r log' -> Q r log') ->
  owes (let& r := done_with (map_err EFile (Intent_request i (md_version saved))) in
        try (ask (CReplaceFile r (Intent_candidate i)))
          (fun o => let& c := finish saved i o in done_with (Ok (AppliedCommitted c)))
          (fun e =>
            let refusal := EFile e in
            if conclusive refusal then let& _ := clear saved in done_with (Err refusal)
            else bind (note Ambiguous) (fun _ => done_with (Err refusal)))) log Q.
Proof.
  intros Hc Hr Hs He Hp HQ. apply wp_let. cbn [wp done_with]. destruct (Intent_request i (md_version saved)) as [r|e|] eqn:Er; cbn [map_err]; [|by apply HQ; intros ?; congruence..].
  specialize (Hp _ eq_refl). commit_call. { apply may_replace. do 3 (split; [done|]). by exists saved, i. }
  set (q := CReplaceFile r (Intent_candidate i)) in *. destruct r0 as [o|e|].
  - pose proof (answered_here log q (Ok o)) as A. assert (G : grows log (log ++ [event q (Ok o)])) by (by eexists). assert (He1 : erased (log ++ [event q (Ok o)]) = false) by (by rewrite erased_snoc). set (log1 := log ++ _) in *. clearbody log1.
    pose proof (retained_grows _ _ _ _ G Hr) as Hr1. apply wp_let, finish_wp; [by left|exists r; split; [done|by left]|].
    intros rr log2 G2 Hok Herr. destruct rr as [cm|e|]; cbn [wp done_with]; apply HQ; [by exists saved, i; split; [|apply Hok]|..]; intros _; exists saved, i; (split; [done|]); (split; [eapply retained_grows; [by apply calm_grows, G2|done]|]); right; by rewrite Herr.
  - pose proof (answered_here log q (Err e)) as A. assert (G : grows log (log ++ [event q (Err e)])) by (by eexists). assert (He1 : erased (log ++ [event q (Err e)]) = false) by (by rewrite erased_snoc). set (log1 := log ++ _) in *. clearbody log1.
    pose proof (retained_grows _ _ _ _ G Hr) as Hr1. cbv zeta. destruct (conclusive (EFile e)) eqn:Ec.
    + assert (Hf : refused log1 saved i) by (by exists r, e). apply wp_let, clear_wp; [exists saved, i; do 3 (split; [done|]); by left|].
      intros rr log2 G2 _ _. assert (Hend : retained log2 saved i /\ refused log2 saved i).
      { split; [eapply retained_grows; [by apply calm_grows, G2|done]|]. destruct Hf as (r' & e' & ? & Af & ?). exists r', e'. split; [done|]. split; [|done]. eapply answered_grows; [by apply calm_grows, G2|done]. }
      destruct Hend as [Hr2 Hf2]. destruct rr as [[]|e'|]; cbn [wp done_with]; apply HQ; intros _; exists saved, i; (split; [done|]); (split; [done|]); by left.
    + apply wp_then, wp_ask; [by left|]. intros rr log' [-> _]. cbn [wp done_with]. apply HQ. intros _. exists saved, i. split; [done|]. split; [by eapply retained_grows; [by eexists|]|]. right. by rewrite erased_snoc.
  - cbn [wp]. apply HQ. intros _. exists saved, i. split; [done|]. split; [by eapply retained_grows; [by eexists|]|]. right. by rewrite erased_snoc.
Qed.

Lemma commit_wp `{!DigestLaws} c log (Q : outcome ClientError Applied -> Log -> Prop) : acceptable (Candidate_bytes c) (cd_summary c) (cd_edit c) ->
  submitted log = false -> erased log = false -> (exists caps, answered log CCapabilities (Ok caps) /\ Capabilities_of caps FilesReplace = Some Available) -> apart log target ->
  (forall r log', applied c r log' -> Q r log') -> owes (commit record target c) log Q.
Proof.
  intros (Hsum & Hed & l & Hl & Hb & _) Hs He Hcaps Hap HQ. assert (Hend : forall r log', quiet log log' -> match r with Ok _ => False | _ => True end -> Q r log').
  { intros r log' G Hn. apply HQ. pose proof (calm_submitted _ _ (quiet_calm _ _ G)). destruct r; [done|..]; intros ?; congruence. }
  unfold commit. inquire. destruct r as [m|e|]; cbn [map_err wp done_with]; [|by apply Hend; [still|]..].
  destruct (Z.eqb_spec (md_version m) (sm_version (cd_summary c))) as [Ev|]; cbn [negb]; [|by apply Hend; [still|]].
  pose proof (answered_here log (CStat target) (Ok m)) as A. assert (G : quiet log (log ++ [event (CStat target) (Ok m)])) by still. set (log1 := log ++ _) in *. clearbody log1.
  apply wp_let, snapshot_learns. intros r log2 G2 Hsn. assert (G3 : quiet log log2) by (by etransitivity). destruct r as [[info b]|e|]; cbn [wp done_with]; [|by apply Hend; [still|]..].
  destruct (Hsn _ eq_refl) as (Hd & Hread & Hids & Hobj & Hver & Hvn & Hen & Hlb & _ & Hri). rewrite Ev in Hread.
  destruct (sm_changed (cd_summary c)) eqn:Ech; cbn [negb].
  - apply wp_let. cbn [wp done_with]. destruct (Intent_new _ _ _ _ _ _) as [i|e|] eqn:En; cbn [map_err]; [|by apply Hend; [still|]..].
    assert (Hok : contents_ok (mkContents (ri_references info) (ri_version info) (ri_epoch info) (cd_edit c) (sm_task (cd_summary c)) (Candidate_bytes c))).
    { destruct Hids as (? & ? & ? & ?). destruct Hsum as (_ & _ & ?). eapply new_contents; [..|exact En]; try done; [by apply edit_ok_typed|unfold fits, u32_max in *; lia]. }
    destruct (Intent_new_holds _ Hok) as (i' & Ei & Hh). unfold intent_of in Ei. cbn in Ei. rewrite En in Ei. injection Ei as <-.
    pose proof (Intent_new_candidate _ _ _ _ _ _ _ En) as Hc. pose proof (Intent_new_encoded _ _ _ _ _ _ _ En) as Hne.
    apply wp_let, retain_learns; [done|]. intros r log3 G4 Hr. assert (G5 : quiet log log3) by (by etransitivity). destruct r as [saved|e|]; cbn [wp done_with]; [|by apply Hend; [still|]..]. specialize (Hr _ eq_refl).
    apply wp_then, wp_ask; [by left|]. intros r log4 [-> _]. set (log4 := log3 ++ _). assert (G6 : quiet log3 log4) by (by apply quiet_snoc). assert (G7 : quiet log log4) by (by etransitivity). clearbody log4.
    apply (submission_wp c); [done|eapply retained_grows; [by apply quiet_grows, G6|done]|by rewrite (calm_submitted _ _ (quiet_calm _ _ G7))|by rewrite (quiet_erased _ _ G7)| |exact HQ].
    intros q Eq. rewrite (Intent_request_spec _ _ _ Hok Hh) in Eq. destruct (_ <=? _); [done|]. injection Eq as <-. cbn.
    assert (G8 : grows log1 log4) by (apply quiet_grows; etransitivity; [exact G2|by etransitivity]). assert (G9 : grows log log4) by (by apply quiet_grows).
    split; [destruct Hcaps as (caps & Ac & ?); exists caps; split; [by eapply answered_grows|done]|]. split; [by eapply apart_grows|].
    exists m, (take (Z.to_nat (ri_length info)) b). split; [by eapply (answered_grows log1)|]. split; [done|]. cbn [rp_expected rp_resource contents_request ic_version ic_refs]. rewrite Hver. split; [done|]. split; [done|].
    rewrite Ev. eapply content_grows; [|exact Hread]. apply quiet_grows. by etransitivity.
  - apply wp_let. cbn [wp done_with]. unfold prefix_of_buffer. destruct (Z.ltb_spec (Z.of_nat (length b)) (ri_length info)); [by apply Hend; [still|]|].
    destruct (decide (take (Z.to_nat (ri_length info)) b = Candidate_bytes c)) as [Eb|Eb]; [rewrite bool_decide_eq_true_2 by done|rewrite bool_decide_eq_false_2 by done; by apply Hend; [still|]].
    cbn [negb]. apply HQ. split; [by rewrite (calm_submitted _ _ (quiet_calm _ _ G3))|]. split; [done|]. split; [done|]. rewrite <- Eb. by eexists.
Qed.
End Logged.

Section Rules_used.
Context {HL : DigestLaws}.

(** ** The client keeps the rules *)
Lemma apply_candidate_wp target c : acceptable (Candidate_bytes c) (cd_summary c) (cd_edit c) ->
  wp (HW := logged (apply_rule target)) (apply_candidate record target c) [] (applied c).
Proof.
  intros Hc. unfold apply_candidate. apply wp_let, guard_learns. intros r log1 G Hg. assert (Hend : forall r log', quiet [] log' -> match r with Ok _ => False | _ => True end -> applied c r log').
  { intros r' log' G' Hn. pose proof (calm_submitted _ _ (quiet_calm _ _ G')) as E. change (submitted []) with false in E. destruct r'; [done|..]; cbn; intros ?; congruence. }
  destruct r as [[]|e|]; [|by apply Hend..]. specialize (Hg _ eq_refl).
  apply wp_let, distinct_learns. intros r log2 G2 Hd. assert (G3 : quiet [] log2) by (by etransitivity). destruct r as [[]|e|]; [|by apply Hend..]. specialize (Hd _ eq_refl).
  apply commit_wp; try done.
  - intros log d directory name H. split; [done|by exists directory].
  - by left.
  - by right.
  - by rewrite (calm_submitted _ _ (quiet_calm _ _ G3)).
  - by rewrite (quiet_erased _ _ G3).
  - destruct Hg as (caps & A & ?). exists caps. split; [eapply (answered_grows log1); [by apply quiet_grows|exact A]|done].
Qed.

(** Wherever a run is cut: a submission was preceded by a record that was read
    back, and a record was only emptied on a refusal or a proof. *)
Definition guarded_log (log : Log) : Prop :=
  (submitted log = true -> exists saved i, retained log saved i) /\
  (erased log = true -> exists saved i, known log saved i /\ (refused log saved i \/ exists o, proved log saved i o)).

Lemma refused_grows log log' m i : grows log log' -> refused log m i -> refused log' m i.
Proof. intros G (r & e & E & A & H). exists r, e. split; [done|]. split; [by eapply answered_grows|done]. Qed.
Lemma proved_grows log log' m i o : grows log log' -> proved log m i o -> proved log' m i o.
Proof.
  intros G (E & H & r & Er & A). split; [done|]. split; [by eapply content_grows|]. exists r. split; [done|]. destruct A as [A|A]; [left|right]; by eapply answered_grows.
Qed.

Lemma guarded_step target log c r : guarded_log log -> (query c = true \/ apply_rule target log c) -> guarded_log (log ++ [event c r]).
Proof.
  intros [Hs He] Hp. set (log' := log ++ [event c r]). assert (G : grows log log') by (by eexists). split.
  - unfold log', submitted. rewrite existsb_app. cbn [existsb]. rewrite orb_false_r. intros [H|H]%orb_true_iff; [destruct (Hs H) as (saved & i & Hr); exists saved, i; by eapply retained_grows|].
    destruct c; try done. destruct Hp as [Hp|(_ & _ & _ & saved & i & Hr & _)]; [done|]. exists saved, i. by eapply retained_grows.
  - unfold log', erased. rewrite existsb_app. cbn [existsb]. rewrite orb_false_r. intros [H|H]%orb_true_iff.
    + destruct (He H) as (saved & i & Hk & Hr). exists saved, i. split; [by eapply known_grows|]. destruct Hr as [Hr|[o Hr]]; [left; by eapply refused_grows|right; exists o; by eapply proved_grows].
    + destruct c; try done. destruct b; [|done]. destruct Hp as [Hp|[Hp|Hp]]; [done| |].
      * destruct Hp as (m & i & _ & _ & _ & _ & Hne). done.
      * destruct Hp as (saved & i & _ & _ & _ & [[Hk Hr]|[Hk [o Hr]]]); exists saved, i; (split; [eapply known_grows; [exact G|]|]); [by left|left; by eapply refused_grows|exact Hk|right; exists o; by eapply proved_grows].
Qed.

Lemma guarded_reaches {A} target (p p' : owner_call A) log log' Q : wp (HW := logged (apply_rule target)) p log Q -> guarded_log log ->
  reaches (HW := logged (apply_rule target)) p log p' log' -> guarded_log log'.
Proof.
  intros Hw Hg Hr. induction Hr as [|e k w r w' p w'' Ha _ IH]; [done|]. destruct Hw as [Hp Hk]. apply IH; [by apply Hk|]. destruct Ha as [-> _]. exact (guarded_step _ _ _ _ Hg Hp).
Qed.

(** How a recovery ends: without a submission, and the record is emptied only by
    a proved effect. *)
Definition recovered (r : outcome ClientError Recovery) (log : Log) : Prop :=
  submitted log = false /\
  match r with
  | Ok (Recovered cm) => exists saved i, loaded log saved i /\ concluded log saved i cm
  | _ => erased log = false
  end.

Lemma recover_wp : wp (HW := logged recover_rule) (recover record) [] recovered.
Proof.
  assert (Hend : forall r log', quiet [] log' -> match r with Ok (Recovered _) => False | _ => True end -> recovered r log').
  { intros r log' G Hn. split; [by rewrite (calm_submitted _ _ (quiet_calm _ _ G))|]. pose proof (quiet_erased _ _ G) as E. by destruct r as [[]| |]. }
  unfold recover. apply wp_let, load_learns. intros r log1 G Hl. destruct r as [found|e|]; [|by apply Hend..]. specialize (Hl _ eq_refl). destruct found as [[saved i]|]; [|by apply Hend].
  apply wp_let. cbn [wp done_with]. destruct (Intent_request i (md_version saved)) as [q|e|] eqn:Eq; cbn [map_err]; [|by apply Hend..].
  apply wp_try, wp_ask; [by left|]. intros r log2 [-> _]. set (c := COperationGet _) in *. destruct r as [o|e|].
  - pose proof (answered_here log1 c (Ok o)) as A. assert (G1 : quiet log1 (log1 ++ [event c (Ok o)])) by (by apply quiet_snoc). set (log2 := log1 ++ _) in *. clearbody log2.
    assert (G2 : quiet [] log2) by (by etransitivity). assert (Hl2 : loaded log2 saved i) by (eapply loaded_grows; [apply quiet_grows, G1|exact Hl]).
    apply wp_let, finish_wp; [by intros|by right|exists q; split; [done|by right]|]. intros r log3 G3 Hok Herr. assert (G4 : calm [] log3) by (etransitivity; [by apply quiet_calm|exact G3]).
    destruct r as [cm|e|]; cbn [wp done_with]; (split; [by rewrite (calm_submitted _ _ G4)|]); [|by rewrite Herr, (quiet_erased _ _ G2)..].
    exists saved, i. split; [eapply loaded_grows; [by apply calm_grows, G3|done]|by apply Hok].
  - apply wp_then, wp_ask; [by left|]. intros r log' [-> _]. cbn [wp done_with]. apply Hend; [|done]. etransitivity; [exact G|]. apply (quiet_trans _ (log1 ++ [event c (Err e)])); by apply quiet_snoc.
  - cbn [wp]. apply Hend; [|done]. etransitivity; [exact G|by apply quiet_snoc].
Qed.

(** An owner may discard the record, by naming its exact version. *)
Definition forget_rule (key : Z) (log : Log) (c : TaskCall) : Prop :=
  match c with
  | CReplace id version b => b = [] /\ version = key /\ exists saved i, loaded log saved i /\ md_id saved = id /\ md_version saved = key
  | CCreate _ _ _ | CReplaceFile _ _ => False
  | _ => True
  end.

Lemma forget_wp key : wp (HW := logged (forget_rule key)) (forget record key) [] (fun r log => r = Ok tt -> exists saved i, loaded log saved i /\ md_version saved = key /\ cleared log saved).
Proof.
  unfold forget. apply wp_let, load_learns. intros r log1 G Hl. destruct r as [found|e|]; [|done..]. specialize (Hl _ eq_refl). destruct found as [[saved i]|]; [|done].
  apply wp_let. cbn [ok_or wp done_with]. destruct (Z.eqb_spec (md_version saved) key) as [Ek|]; [cbn [negb]|done]. apply wp_let, wp_map_error, wp_ask.
  { right. split; [done|]. split; [done|]. by exists saved, i. }
  intros r log2 [-> _]. destruct r as [m|e|]; cbn [map_err wp done_with]; [|done..]. intros _. exists saved, i. split; [by eapply loaded_grows; [by eexists|]|]. split; [done|]. exists m. apply answered_here.
Qed.
End Rules_used.
End Rules.
