(* ===== verification/TaskFlow.v ===== *)
(** * The owner's calls carried out by the SDK's client, and planned edits

    Each file call of the tasks client is a method of the native file client, over
    a peer that may answer anything or nothing; the relay, the clock and the
    report stay calls.  What TaskProtocol assumes of the borrowed client is what
    SdkPromise shows of those methods, so its rules hold down to the wire: which
    requests a run sends, and how many commits. *)
From stdpp Require Import base list option numbers.
From Stdlib Require Import ZArith Lia Bool.
From S2P Require Import Prelude Bytes Codec AbiFiles AbiIdentity AbiMessages AbiReceipts AbiServices AbiRuntime Ipc SvcClients Interact SdkFiles SdkRange SdkPromise TaskDocument TaskPlan TaskWire TaskIntent TaskClient TaskJournal TaskApp TaskProtocol.

(** ** The calls of a whole run *)
Inductive OwnerCall := OnWire (c : RpcCall) | Lent (c : TaskCall).
#[global] Instance OwnerCall_signature : Signature OwnerCall := fun c => match c with OnWire c => reply c | Lent c => reply c end.

(** The wire, and any answer of its type from the relay. *)
#[global] Instance owner_world : World OwnerCall Wire := {|
  permits := fun _ _ => True;
  answers := fun w c => match c return reply c -> Wire -> Prop with
    | OnWire c => fun r w' => w' = w ++ [existT c r] /\ received c r
    | Lent (CControl _) | Lent (CFinish _) => fun r w' => w' = w /\ match r with Ok m => message m | _ => True end
    | Lent _ => fun _ w' => w' = w
    end |}.

Definition on_wire {A} (p : prog RpcCall A) : prog OwnerCall A := interp (fun c => ask (OnWire c)) p.

Lemma on_wire_wp {A} (p : prog RpcCall A) w Q : wp p w Q -> wp (on_wire p) w Q.
Proof.
  intros H. unfold on_wire. eapply wp_weaken; [eapply (wp_interp (HV := peer) _ eq); [|reflexivity|exact H]|].
  - intros v w' c <- _. apply wp_ask; [done|]. intros r w2 Hr. by exists w2.
  - by intros a w' (v & Hq & ->).
Qed.

Section Perform.
Context {HD : Digest}.

(** The buffer of a read is the fixed array its caller lends. *)
Definition perform (c : SdkClient) (call : TaskCall) : prog OwnerCall (reply call) :=
  match call return prog OwnerCall (reply call) with
  | CResolve cwd path => on_wire (resolve c cwd path)
  | CLookup directory name => on_wire (lookup_name c directory name)
  | CStat id => on_wire (stat c id)
  | CCreate directory name is_directory => on_wire (create c directory name is_directory)
  | CReplace id version b => on_wire (replace c id version b)
  | CReferences workspace object => on_wire (references c workspace object)
  | CReadRange r => on_wire (with_buffer (read_range c r (zeros INTENT_BYTES)))
  | CReplaceFile r b => on_wire (replace_file c r b)
  | COperationGet l => on_wire (operation_get c l)
  | CCapabilities => on_wire (capabilities c)
  | CNote n => ask (Lent (CNote n))
  | CControl words => ask (Lent (CControl words))
  | CFinish words => ask (Lent (CFinish words))
  | CClock => ask (Lent CClock)
  | CProgress => ask (Lent CProgress)
  end.

(** The requests a call may send. *)
Definition requests (call : TaskCall) : list Z :=
  match call with
  | CResolve _ _ => [OP_STAT; OP_LOOKUP]
  | CLookup _ _ => [OP_LOOKUP]
  | CStat _ => [OP_STAT]
  | CCreate _ _ _ => [OP_MKDIR; OP_CREATE]
  | CReplace _ _ _ => [OP_BEGIN; OP_CHUNK; OP_COMMIT; OP_ABORT]
  | CReferences _ _ => [OP_REFERENCES]
  | CReadRange _ => reading
  | CReplaceFile _ _ => REPLACE_COMMIT :: OPERATION_PART :: staging
  | COperationGet _ => [OPERATION_RETRY; OPERATION_ID; OPERATION_PART]
  | CCapabilities => [OP_CAPABILITIES]
  | _ => []
  end.

(** ** Counting requests *)
Definition sends_op (op : Z) (e : Exchange) : bool := match projT1 e with RpcExchange b => byte_at b 1 =? op | _ => false end.
Definition sent (op : Z) (w : Wire) : nat := length (List.filter (sends_op op) w).

Lemma encoded_op p : fits 8 (p_op p) -> byte_at (Packet_encode p) 1 = p_op p.
Proof. intros F. unfold Packet_encode. wire_unfold. wire_read. Qed.

Lemma sent_app op a b : sent op (a ++ b) = (sent op a + sent op b)%nat.
Proof. unfold sent. by rewrite List.filter_app, length_app. Qed.

Lemma sent_one op p x : fits 8 (p_op p) -> sent op [exchanged p x] = if p_op p =? op then 1%nat else 0%nat.
Proof.
  intros F. unfold sent, exchanged. cbn [List.filter]. unfold sends_op. cbn [projT1]. rewrite encoded_op by done. by destruct (p_op p =? op).
Qed.

Lemma sent_other ops op w w' : Forall (fits 8) ops -> op ∉ ops -> extends ops w w' -> sent op w' = sent op w.
Proof.
  intros Hf Ho (ext & -> & He). rewrite sent_app. enough (sent op ext = 0%nat) as -> by lia. induction He as [|e ext (p & x & -> & Hp) _ IH]; [done|].
  change (exchanged p x :: ext) with ([exchanged p x] ++ ext). rewrite sent_app, IH, sent_one; [|by eapply list.Forall_forall in Hf]. destruct (Z.eqb_spec (p_op p) op) as [<-|]; done.
Qed.

Ltac ops_fit := unfold staging, reading; cbn [requests]; repeat (apply Forall_cons_2; [by vm_compute|]); apply Forall_nil_2.
Ltac not_listed := apply (bool_decide_unpack _); vm_compute; exact I.

(** ** Each call keeps its promise *)
Lemma ReadRange_promise c r w (Q : outcome FileError (ReadInfo * list Z) -> Wire -> Prop) :
  (forall res w', extends reading w w' -> promised (CReadRange r) res /\ res <> Panic -> Q res w') -> wp (with_buffer (read_range c r (zeros INTENT_BYTES))) w Q.
Proof.
  intros HQ. unfold with_buffer, read_range. apply wp_then, read_into_wp; [apply observation_sends|]. rewrite length_zeros. intros res out w' E H. cbn [wp]. apply HQ; [done|].
  destruct res as [i|e|]; [|done..]. destruct H as (Hd & Hi & Hl & Hb & _). destruct (described_bounds r i Hd) as (_ & Hr & _ & Hv & Hn & He). split; [|done]. cbn [promised]. unfold info_ok. by do 6 (split; [done|]).
Qed.

Lemma receipt_end c r b w res w' : replacement_end c r b w res w' -> promised (CReplaceFile r b) res /\ res <> Panic /\ extends (requests (CReplaceFile r b)) w w' /\ (sent REPLACE_COMMIT w' <= S (sent REPLACE_COMMIT w))%nat.
Proof.
  intros [[E H]|(w1 & x & E1 & E2 & H)].
  - destruct res as [o|e|]; [done| |done]. split; [done|]. split; [done|]. split; [|rewrite (sent_other staging REPLACE_COMMIT _ _ ltac:(ops_fit) ltac:(not_listed) E); lia].
    destruct E as (ext & -> & He). exists ext. split; [done|]. eapply list.Forall_impl; [exact He|]. intros e' (p & y & -> & Hp). exists p, y. split; [done|]. by do 2 right.
  - split; [by destruct res; [apply H|..]|]. split; [by destruct res|]. split.
    + destruct E1 as (e1 & -> & H1). destruct E2 as (e2 & -> & H2). eexists. rewrite <- !app_assoc. split; [reflexivity|]. rewrite !list.Forall_app. split; [|split].
      * eapply list.Forall_impl; [exact H1|]. intros e' (p & y & -> & Hp). exists p, y. split; [done|]. by do 2 right.
      * apply list.Forall_singleton. eexists _, _. split; [reflexivity|]. by left.
      * eapply list.Forall_impl; [exact H2|]. intros e' (p & y & -> & Hp). exists p, y. split; [done|]. apply list_elem_of_singleton in Hp as ->. by right; left.
    + rewrite (sent_other [OPERATION_PART] REPLACE_COMMIT _ _ ltac:(ops_fit) ltac:(not_listed) E2). rewrite sent_app, sent_one by done.
      rewrite (sent_other staging REPLACE_COMMIT _ _ ltac:(ops_fit) ltac:(not_listed) E1). cbn. lia.
Qed.

(** A file call came back without a panic. *)
Definition returned (call : TaskCall) : reply call -> Prop :=
  match call return reply call -> Prop with
  | CResolve _ _ | CLookup _ _ | CStat _ | CCreate _ _ _ | CReplace _ _ _ | CReferences _ _ | CReadRange _ | CReplaceFile _ _ | COperationGet _ | CCapabilities => fun r => r <> Panic
  | CNote _ | CControl _ | CFinish _ | CClock | CProgress => fun _ => True
  end.

(** What a call did when it is over. *)
Definition performed (call : TaskCall) (w : Wire) (r : reply call) (w' : Wire) : Prop :=
  promised call r /\ returned call r /\ extends (requests call) w w' /\ (sent REPLACE_COMMIT w' <= sent REPLACE_COMMIT w + (if submits (event call r) then 1 else 0))%nat.

Lemma few ops w w' : Forall (fits 8) ops -> REPLACE_COMMIT ∉ ops -> extends ops w w' -> (sent REPLACE_COMMIT w' <= sent REPLACE_COMMIT w + 0)%nat.
Proof. intros. rewrite (sent_other ops _ w w') by done. lia. Qed.

Ltac plainly lemma :=
  apply on_wire_wp, lemma; intros res w' E Hr; match goal with HQ : forall _ _, performed _ _ _ _ -> _ |- _ => apply HQ end;
  split; [first [done|by destruct res|apply Hr]|]; split; [first [done|by destruct res|apply Hr]|]; split; [exact E|]; eapply few; [| |exact E]; [ops_fit|not_listed].

Ltac aside := apply wp_ask; [done|]; intros res w' Hr; match goal with HQ : forall _ _, performed _ _ _ _ -> _ |- _ => apply HQ end; cbn in Hr; first [subst w'|destruct Hr as [-> Hr]]; (split; [done|]); (split; [done|]); (split; [reflexivity|]); lia.

Lemma perform_wp c (call : TaskCall) w (Q : reply call -> Wire -> Prop) : (forall r w', performed call w r w' -> Q r w') -> wp (perform c call) w Q.
Proof.
  intros HQ. destruct call; cbn [perform].
  - plainly resolve_speaks.
  - plainly lookup_name_speaks.
  - plainly stat_speaks.
  - plainly create_speaks.
  - plainly replace_speaks.
  - plainly references_speaks.
  - plainly ReadRange_promise.
  - apply on_wire_wp, replace_file_wp. intros res w' H. apply receipt_end in H as (Hp & Hn & E & Hc). apply HQ. split; [done|]. split; [done|]. split; [done|]. cbn. lia.
  - plainly operation_get_speaks.
  - plainly capabilities_speaks.
  - aside.
  - aside.
  - aside.
  - aside.
  - aside.
Qed.
(** ** A run over the wire *)
(** The wire of a run with this log: every request belongs to a call, and a commit
    was sent at most once, by a submission. *)
Definition carries (log : Log) (w : Wire) : Prop :=
  Forall (fun e => exists call r, answered log call r /\ request_of (requests call) e) w /\ (sent REPLACE_COMMIT w <= if submitted log then 1 else 0)%nat.

Lemma carries_snoc log w call r w' : carries log w -> (submits (event call r) = true -> submitted log = false) -> performed call w r w' -> carries (log ++ [event call r]) w'.
Proof.
  intros [Hf Hs] Hone (_ & _ & (ext & -> & He) & Hc). split.
  - apply list.Forall_app. split; (eapply list.Forall_impl; [eassumption|]).
    + intros e (c & x & Hx & He'). exists c, x. split; [|done]. eapply answered_grows; [by eexists|exact Hx].
    + intros e He'. exists call, r. split; [apply answered_here|done].
  - unfold submitted in *. rewrite existsb_app. cbn [existsb]. rewrite orb_false_r. destruct (submits (event call r)); [rewrite Hone in Hs |- * by done; cbn in *; lia|rewrite orb_false_r; lia].
Qed.

Lemma carried {A} (c : SdkClient) (rule : Log -> TaskCall -> Prop) (p : owner_call A) (Q : outcome ClientError A -> Log -> Prop) :
  (forall log r b, rule log (CReplaceFile r b) -> submitted log = false) -> wp (HW := logged rule) p [] Q ->
  wp (interp (perform c) p) [] (fun r w => exists log, Q r log /\ carries log w).
Proof.
  intros Hrule Hp. eapply (wp_interp (HV := logged rule) (perform c) carries); [|split; [apply Forall_nil_2|cbn; lia]|exact Hp].
  intros log w call Hc Hperm. apply perform_wp. intros r w' Hr. exists (log ++ [event call r]). split; [split; [reflexivity|exact (proj1 Hr)]|]. eapply carries_snoc; [done| |exact Hr].
  intros Hsub. destruct call; try done. destruct Hperm as [Hq|Hq]; [done|]. by eapply Hrule.
Qed.

(** A log without a submission sends nothing of a replacement. *)
Lemma carries_nothing log w : carries log w -> submitted log = false -> Forall (fun e => forall op, op ∈ REPLACE_COMMIT :: staging -> sends_op op e = false) w.
Proof.
  intros [Hf _] Hs. eapply list.Forall_impl; [exact Hf|]. intros e (call & r & Ha & (p & x & -> & Hp)) op Hop.
  assert (Hn : submits (event call r) = false).
  { destruct (submits _) eqn:E; [|done]. unfold submitted in Hs. rewrite (proj2 (existsb_exists _ _)) in Hs; [done|]. exists (event call r). split; [by apply list_elem_of_In|done]. }
  assert (Hf8 : Forall (fits 8) (requests call)) by (destruct call; ops_fit). unfold sends_op, exchanged. cbn [projT1]. rewrite encoded_op by (by eapply list.Forall_forall in Hf8). apply Z.eqb_neq. intros <-.
  assert (Hd : Forall (fun o => o ∉ requests call) (REPLACE_COMMIT :: staging)) by (destruct call; try done; unfold staging; repeat (apply Forall_cons_2; [not_listed|]); apply Forall_nil_2).
  by eapply list.Forall_forall in Hd.
Qed.
End Perform.

(** ** From the application's plan to the client's submission

    What one component of the tasks system hands to the next: the plan of the
    application passes the client's validation, whole or chunk by chunk, and shows
    the command's effect; the application reports that plan row by row; and a
    client that plans through the relay submits under the rules of TaskProtocol. *)
(** ** The plan shows the command's effect *)
Lemma last_id_lt l : Forall (fun i => im_id i < last_id l + 1) l.
Proof. apply list.Forall_forall. intros i Hi. pose proof (last_id_le l i Hi). lia. Qed.

Lemma edit_shows l e v l' id ch : items_ok l -> edit_ok e -> edit_items l (edit_command e) = Ok (l', id, ch) -> shows l' (mkSummary (Z.of_nat (length l')) v id ch) e.
Proof.
  intros H He. destruct e as [title n|d]; cbn [edit_command edit_items edit_ok shows sm_count sm_task sm_changed] in *.
  - destruct He as (t & _ & -> & ->). rewrite padded_take. destruct (validate_title t) as [[]| |]; [|done|done]. destruct (_ <=? _)%nat; [done|]. destruct (_ <=? _); [done|]. intros H'. injection H' as <- <- <-.
    split; [done|]. split; [done|]. exists l. rewrite padded_take. split; [done|apply last_id_lt].
  - destruct (Z.eqb_spec d 0) as [|Hd]; [done|]. destruct (List.find _ l) as [i|] eqn:Ef; [|done]. apply List.find_some in Ef as [Hi Ei]. apply list_elem_of_In in Hi. apply Z.eqb_eq in Ei.
    destruct (decide (im_state i = TDone)) as [Ed|Ed]; [rewrite bool_decide_eq_true_2 by done|rewrite bool_decide_eq_false_2 by done]; intros H'; injection H' as <- <- <-; (split; [done|]); (split; [done|]).
    + by exists i.
    + exists (complete_item d i). split; [by apply list_elem_of_fmap_2|]. unfold complete_item. by rewrite Ei, Z.eqb_refl.
Qed.

Lemma edit_task l e l' id ch : items_ok l -> edit_ok e -> edit_items l (edit_command e) = Ok (l', id, ch) -> 0 < id <= u32_max.
Proof.
  intros H He E. destruct e as [title n|d]; cbn [edit_command edit_items edit_ok] in *.
  - destruct (validate_title _) as [[]| |]; [|done|done]. destruct (_ <=? _)%nat; [done|]. destruct (Z.leb_spec u32_max (last_id l)); [done|]. injection E as _ <- _. pose proof (last_id_bounds l (proj1 H)). lia.
  - destruct (d =? 0); [done|]. destruct (List.find _ l); [|done]. destruct (bool_decide _); injection E as _ <- _; done.
Qed.

(** The closure of the application's preview. *)
Lemma preview_plan_spec v l e : items_ok l -> edit_ok e -> number_ok (v_value v) ->
  match edit_items l (edit_command e) with
  | Ok (l', id, ch) => exists p, let s := mkSummary (Z.of_nat (length l')) (v_value v) id ch in
      preview_plan v (doc_text l) e = Ok (s, p, doc_of l') /\ items_ok l' /\ carries_text p l' /\ acceptable (Planned_bytes p) s e
  | Err err => preview_plan v (doc_text l) e = Err (plan_response err)
  | Panic => False
  end.
Proof.
  intros H He [Hv Fv]. pose proof (plan_spec l (edit_command e) H) as Hp. unfold preview_plan. destruct (edit_items l (edit_command e)) as [[[l' id] ch]|err|] eqn:Ee; [|by rewrite Hp|done].
  destruct Hp as (p & -> & Hc & Hid & Hch). cbn [map_err]. pose proof (edit_items_ok _ _ _ _ _ H Ee) as H'. pose proof (doc_text_bound l' H') as Hb. pose proof Hc as (Eb & _).
  exists p. rewrite Eb, Hid, Hch. rewrite parse_doc_text by (done || unfold MAX_BYTES; lia). cbn [map_err]. split; [done|]. split; [done|]. split; [done|].
  split; [|split; [done|exists l'; split; [done|]; split; [done|exact (edit_shows l e (v_value v) l' id ch H He Ee)]]]. pose proof (edit_task _ _ _ _ _ H He Ee). destruct H' as (_ & _ & Hl').
  unfold summary_ok, u64_max, fits in *. cbn [sm_count sm_version sm_task]. lia.
Qed.

(** ** The application's session after a preview *)
Fixpoint nexts (k : nat) (st : AppState) : outcome unit (list (list Z) * AppState) :=
  match k with
  | O => Ok ([], st)
  | S k => let? (r, st) := app_next st in let? (rs, st) := nexts k st in Ok (r :: rs, st)
  end.

(** The responses a planned state still gives: its rows, then the summary. *)
Definition report (l : list Item) (s : Summary) (from k : nat) : list (list Z) :=
  (fun i => match l !! i with Some x => wire_row (task_of x) | None => preview_end s end) <$> seq from k.

Lemma report_past l s from k : (length l <= from)%nat -> report l s from k = replicate k (preview_end s).
Proof.
  revert from. induction k as [|k IH]; intros from H; [done|]. unfold report in *. cbn [seq replicate]. rewrite fmap_cons, IH by lia. by rewrite lookup_ge_None_2 by done.
Qed.

Lemma nexts_report l s p from k : (from <= length l)%nat ->
  nexts k (mkAppState (Some (doc_of l)) from None (Some s) (Some p)) = Ok (report l s from k, mkAppState (Some (doc_of l)) (Nat.min (from + k) (length l)) None (Some s) (Some p)).
Proof.
  revert from. induction k as [|k IH]; intros from Hf; cbn [nexts]; [by rewrite Nat.add_0_r, Nat.min_l|]. unfold app_next, next_response. cbn [as_failure as_document as_next as_preview as_candidate].
  rewrite doc_of_get. destruct (l !! from) as [x|] eqn:Ex; cbn [fmap option_fmap option_map].
  - apply lookup_lt_Some in Ex as Hlt. rewrite IH by lia. unfold report. cbn [seq]. rewrite fmap_cons, Ex. by rewrite Nat.add_succ_comm.
  - apply lookup_ge_None in Ex. assert (from = length l) as -> by lia. rewrite IH by lia. rewrite !report_past by lia. cbn [replicate]. do 2 f_equal. rewrite !Nat.min_r by lia. done.
Qed.

(** ** Planning through the relay *)
Section Relay.
Context {HD : Digest} {HL : DigestLaws}.
Variable record : TaskRecord.
Variable rule : Log -> TaskCall -> Prop.

#[local] Abbreviation owes p log Q := (wp (HW := logged rule) p log Q).
#[local] Abbreviation anything := (fun _ _ => True).

Ltac inquire := first [apply wp_let | apply wp_try | apply wp_then]; try apply wp_map_error; apply wp_ask; [by left|]; intros ? ? [-> ?].
Ltac still := repeat (eapply quiet_trans; [|apply quiet_snoc; done]); first [reflexivity|eassumption].

Lemma progress_learns : learns rule progress anything.
Proof. intros log Q HQ. apply wp_map_error, wp_ask; [by left|]. intros r log' [-> _]. by apply HQ; [still|]. Qed.

Lemma poll_job_learns turns job deadline : learns rule (poll_job turns job deadline) (fun w _ => message w).
Proof.
  induction turns as [|turns IH]; intros log Q HQ; cbn [poll_job]; [by apply HQ|]. inquire. destruct r as [w|e|]; cbn [wp done_with]; [|by apply HQ; [still|]..].
  destruct (_ || _); [by apply HQ; [still|]|]. destruct (word w 0 =? 0).
  - apply wp_ask; [by left|]. intros r log' [-> Hr]. apply HQ; [still|]. intros a ->. exact Hr.
  - inquire. destruct (deadline <=? r); [by apply HQ; [still|]|]. apply wp_let, progress_learns. intros r' log1 G _. destruct r' as [[]|e|]; cbn [wp done_with]; [|apply HQ; [etransitivity; [|exact G]; still|done]..].
    apply IH. intros r2 log2 G2 Hw. apply HQ; [etransitivity; [|exact G2]; etransitivity; [|exact G]; still|done].
Qed.

Lemma collect_rows_learns job indices rows : learns rule (collect_rows job indices rows) anything.
Proof.
  revert rows. induction indices as [|index indices IH]; intros rows log Q HQ; cbn [collect_rows]; [by apply HQ|].
  apply wp_let, progress_learns. intros r log1 G _. destruct r as [[]|e|]; cbn [wp done_with]; [|by apply HQ..]. inquire. destruct r as [w|e|]; cbn [wp done_with]; [|by apply HQ; [still|]..].
  destruct (decode_task_response w) as [[]|]; try (by apply HQ; [still|]). destruct (existsb _ _); [by apply HQ; [still|]|]. apply IH. intros r2 log2 G2 _. apply HQ; [|done]. etransitivity; [|exact G2]. still.
Qed.

Lemma collect_chunks_learns fuel job b n total : learns rule (collect_chunks fuel job b n total) anything.
Proof.
  revert b n total. induction fuel as [|fuel IH]; intros b n total log Q HQ; cbn [collect_chunks]; [by apply HQ|]. inquire. destruct r as [w|e|]; cbn [wp done_with]; [|by apply HQ; [still|]..].
  apply wp_let. cbn [wp done_with]. destruct (Chunk_decode_owner w) as [part|]; cbn [ok_or]; [|by apply HQ; [still|]]. destruct (_ || _); [by apply HQ; [still|]|]. destruct (_ <? _); [by apply HQ; [still|]|]. destruct (_ =? _); [by apply HQ; [still|]|].
  apply IH. intros r2 log2 G2 _. apply HQ; [|done]. etransitivity; [|exact G2]. still.
Qed.

(** A plan that was collected is one that may be submitted. *)
Definition planned (e : Edit) (c : Complete) : Prop :=
  match cp_candidate c with None => False | Some p => acceptable (Plan_bytes p) (pl_summary p) (pl_edit p) /\ pl_edit p = e /\ Plan_new (Plan_bytes p) (pl_summary p) (pl_edit p) = Ok p end.

Lemma collect_plan_planned b rows count s e c : edit_typed e -> (forall x, s = Some x -> summary_ok x) -> collect_plan b rows count s (Some e) = Ok c -> planned e c.
Proof.
  intros He Hs H. unfold collect_plan in H. destruct s as [s|]; [cbn [ok_or] in H|done]. specialize (Hs _ eq_refl). destruct (Document_parse b) as [d| |]; [cbn [map_err] in H|done|done]. destruct (negb _); [done|].
  destruct (same_rows _ _ _); [cbn [ok_or] in H|done|done]. destruct (Plan_new b s e) as [p|err|] eqn:Ep; [cbn [map_err] in H|done|done]. injection H as <-. pose proof (summary_ok_typed _ Hs) as Hst.
  pose proof Ep as Ep'. apply Plan_new_spec in Ep' as [Ha Epp]; [|done|done]. assert (Eb : Plan_bytes p = b) by (rewrite Epp; apply stored_bytes; destruct Ha as (_ & _ & l & Hl & -> & _); pose proof (doc_text_bound l Hl); unfold MAX_BYTES; lia).
  unfold planned. cbn [cp_candidate]. rewrite Eb. by rewrite Epp in *.
Qed.

Lemma collect_end_summary preview w count s : message w -> collect_end preview w count = Ok s -> forall x, s = Some x -> summary_ok x.
Proof.
  intros [L F] H x ->. unfold collect_end in H. destruct preview; [|by destruct (negb _)]. destruct (negb _); [done|]. destruct (Summary_decode _) as [y|] eqn:Es; [|done]. injection H as <-.
  apply Summary_decode_spec in Es as [Hs _]; [done|..].
  - unfold slice. rewrite length_app, length_take, length_drop, L. done.
  - apply list.Forall_app. split; [unfold slice; by apply Forall_take, Forall_drop|]. apply list.Forall_singleton. by unfold fits.
Qed.

Lemma collect_learns turns job e : edit_typed e -> learns rule (collect turns job (Some e) true) (fun c _ => planned e c).
Proof.
  intros He log Q HQ. unfold collect. inquire. set (log0 := log ++ _). assert (G0 : quiet log log0) by still. clearbody log0.
  apply wp_let, poll_job_learns. intros w log1 G1 _. assert (H1 : quiet log log1) by (by etransitivity). destruct w as [w|err|]; cbn [wp done_with]; [|by apply HQ..].
  destruct (_ || _); [by apply HQ|]. apply wp_let, collect_rows_learns. intros rows log2 G2 _. assert (H2 : quiet log log2) by (by etransitivity). destruct rows as [rows|err|]; cbn [wp done_with]; [|by apply HQ..].
  apply wp_let, collect_chunks_learns. intros bn log3 G3 _. assert (H3 : quiet log log3) by (by etransitivity). destruct bn as [[b n]|err|]; cbn [wp done_with]; [|by apply HQ..].
  apply wp_let, progress_learns. intros u log4 G4 _. assert (H4 : quiet log log4) by (by etransitivity). destruct u as [[]|err|]; cbn [wp done_with]; [|by apply HQ..].
  inquire. destruct r0 as [fin|err|]; cbn [wp done_with]; [|by apply HQ; [still|]..]. apply wp_let. cbn [wp done_with].
  destruct (collect_end _ _ _) as [s|err|] eqn:Es; [|by apply HQ; [still|]..]. pose proof (collect_end_summary _ _ _ _ H0 Es) as Hs. apply HQ; [still|]. intros c. by apply collect_plan_planned.
Qed.

Lemma plan_edit_learns turns scope e : edit_typed e -> learns rule (plan_edit turns scope e) (fun p _ => acceptable (Plan_bytes p) (pl_summary p) (pl_edit p) /\ pl_edit p = e /\ Plan_new (Plan_bytes p) (pl_summary p) (pl_edit p) = Ok p).
Proof.
  intros He log Q HQ. unfold plan_edit, run_job. apply wp_let. inquire. destruct r as [w|err|]; cbn [wp done_with]; [|by apply HQ; [still|]..]. destruct (_ || _); [by apply HQ; [still|]|].
  set (log0 := log ++ _). assert (G0 : quiet log log0) by still. clearbody log0. apply wp_then, collect_learns; [done|]. intros c log1 G1 Hc. assert (H1 : quiet log log1) by (by etransitivity). destruct c as [c|err|]; cbn [wp done_with].
  - specialize (Hc _ eq_refl). unfold planned in Hc. apply HQ; [done|]. destruct (cp_candidate c) as [p|]; [|done]. intros a Ha. injection Ha as <-. exact Hc.
  - inquire. unfold done_with. destruct (task_error err) as [x|err'|] eqn:Et; cbn [wp]; [|by apply HQ; [still|]..]. exfalso. unfold task_error in Et. by repeat case_match.
  - by apply HQ.
Qed.
End Relay.

(** The rule of [apply]: the target is the object its path resolved to. *)
Definition plan_rule {HD : Digest} (record : TaskRecord) (log : Log) (c : TaskCall) : Prop :=
  match c with CReplaceFile r b => exists target, may_submit record target log r b | _ => apply_rule record 0 log c end.

Lemma apply_wp {HD : Digest} {HL : DigestLaws} turns record cwd path e : edit_typed e ->
  wp (HW := logged (plan_rule record)) (apply turns record cwd path e) []
    (fun r log => (is_ok r = false /\ submitted log = false /\ erased log = false) \/
      exists c, acceptable (Candidate_bytes c) (cd_summary c) (cd_edit c) /\ cd_edit c = e /\ applied record c r log).
Proof.
  intros He. assert (Hend : forall (r : outcome ClientError Applied) log, quiet [] log -> is_ok r = false -> (is_ok r = false /\ submitted log = false /\ erased log = false) \/
      exists c, acceptable (Candidate_bytes c) (cd_summary c) (cd_edit c) /\ cd_edit c = e /\ applied record c r log).
  { intros r log G Hr. left. split; [done|]. by rewrite (calm_submitted _ _ (quiet_calm _ _ G)), (quiet_erased _ _ G). }
  unfold apply. apply wp_let, guard_learns. intros r log1 G1 Hg. destruct r as [[]|err|]; cbn [wp done_with]; [|by apply Hend..]. specialize (Hg _ eq_refl).
  apply wp_let, wp_map_error, wp_ask; [by left|]. intros r log2 [-> _]. assert (G2 : quiet [] (log1 ++ [event (CResolve cwd path) r])) by (etransitivity; [exact G1|by apply quiet_snoc]).
  assert (Hcaps : exists caps, answered (log1 ++ [event (CResolve cwd path) r]) CCapabilities (Ok caps) /\ Capabilities_of caps FilesReplace = Some Available).
  { destruct Hg as (caps & A & ?). exists caps. split; [eapply (answered_grows log1); [by eexists|exact A]|done]. }
  set (log2 := log1 ++ _) in *. clearbody log2. destruct r as [scope|err|]; cbn [map_err wp done_with]; [|by apply Hend..].
  apply wp_let, distinct_learns. intros r log3 G3 Hd. assert (H3 : quiet [] log3) by (by etransitivity). destruct r as [[]|err|]; cbn [wp done_with]; [|by apply Hend..]. specialize (Hd _ eq_refl).
  apply wp_let, plan_edit_learns; [done|]. intros r log4 G4 Hp. assert (H4 : quiet [] log4) by (by etransitivity). destruct r as [p|err|]; cbn [wp done_with]; [|by apply Hend..].
  destruct (Hp _ eq_refl) as (Ha & Hpe & Hn). pose proof Ha as (Hs & Hed & _). destruct (Plan_candidate_spec _ _ _ _ (summary_ok_typed _ Hs) (edit_ok_typed _ Hed) Hn) as (c & Ec & Eb & Es & Ee).
  apply wp_let. rewrite Ec. cbn [wp done_with]. assert (Hac : acceptable (Candidate_bytes c) (cd_summary c) (cd_edit c)) by (by rewrite Eb, Es, Ee). eapply (commit_wp record (plan_rule record)); try done.
  - intros log d directory name H. split; [done|by exists directory].
  - by left.
  - by right.
  - intros log q b H. by exists scope.
  - by rewrite (calm_submitted _ _ (quiet_calm _ _ H4)).
  - by rewrite (quiet_erased _ _ H4).
  - destruct Hcaps as (caps & A & ?). exists caps. split; [|done]. eapply (answered_grows log2); [apply quiet_grows; by etransitivity|exact A].
  - eapply apart_grows; [apply quiet_grows, G4|exact Hd].
  - intros r log' H. right. exists c. split; [done|]. split; [congruence|done].
Qed.
