(* ===== verification/TaskClaims.v ===== *)
(** * What the tasks system promises

    The theorems about the tasks document, its planner and messages, the
    application that plans an edit and the client that submits it, each with a
    concrete document and client for which it holds. *)
From stdpp Require Import base list option numbers.
From Stdlib Require Import ZArith Lia Bool.
From S2P Require Import Prelude Bytes Codec Ipc AbiFiles AbiIdentity AbiMessages AbiReceipts AbiRuntime AbiServices SvcClients SvcClaims FsClaims Interact SdkFiles SdkRange SdkPromise SdkClaims TaskDocument TaskPlan TaskWire TaskIntent TaskClient TaskJournal TaskApp TaskProtocol TaskFlow.

(** ** The document and its planner *)
(** C24 (task_documents_are_canonical): parsing never panics; it accepts exactly the
    texts of the lists of at most sixteen tasks with distinct non-zero ids and
    printable titles of one to twenty-four bytes, each list has one text and one
    document, and the document's rows are the list's. *)
Theorem task_documents_are_canonical :
  (forall b, Document_parse b <> Panic) /\
  (forall b d, Document_parse b = Ok d <-> exists l, items_ok l /\ d = doc_of l /\ b = doc_text l) /\
  (forall l l', items_ok l -> items_ok l' -> doc_of l = doc_of l' -> l = l') /\
  (forall l i, Document_get (doc_of l) i = task_of <$> l !! i).
Proof.
  split; [exact Document_parse_total|]. split; [|split; [exact doc_of_inj|exact doc_of_get]]. intros b d. split.
  - intros (l & Hl & -> & -> & _)%Document_parse_spec. by exists l.
  - intros (l & Hl & -> & ->). apply parse_doc_text; [done|]. pose proof (doc_text_bound l Hl). unfold MAX_BYTES. lia.
Qed.

(** C21 (task_plan_is_the_edit): planning a command over any bytes never panics; bytes
    that are no document are refused as such, and over the document of a task list
    the plan is the text of the edited list, with the affected task and whether
    anything changed, or the error the edit has. *)
Theorem task_plan_is_the_edit b c :
  match Document_parse b with
  | Ok d => exists l, items_ok l /\ d = doc_of l /\ b = doc_text l /\
      match edit_items l c with
      | Ok (l', id, changed) => exists p, plan b c = Ok p /\ Planned_bytes p = doc_text l' /\ pn_task p = id /\ pn_changed p = changed /\ items_ok l' /\ (changed = false -> l' = l)
      | Err e => plan b c = Err e
      | Panic => False
      end
  | Err e => plan b c = Err (document_error e)
  | Panic => False
  end.
Proof.
  destruct (Document_parse b) as [d|e|] eqn:E; [|by apply plan_refused|by apply Document_parse_total in E]. apply Document_parse_spec in E as (l & Hl & -> & -> & _).
  exists l. do 3 (split; [done|]). pose proof (plan_spec l c Hl) as Hp. pose proof (edit_items_ok l c) as Hok. destruct (edit_items l c) as [[[l' id] changed]|e|] eqn:Ee; [|done..].
  destruct Hp as (p & Hp & (Hb & _) & Hi & Hc). exists p. do 4 (split; [done|]). split; [by eapply Hok|]. intros ->. destruct c as [title|d]; cbn [edit_items] in Ee.
  - destruct (validate_title title); [|done..]. destruct (_ <=? _)%nat; [done|]. by destruct (_ <=? _).
  - destruct (d =? 0); [done|]. destruct (List.find _ l); [|done]. destruct (bool_decide _); [by injection Ee|done].
Qed.

(** ** The messages *)
(** C38 (task_messages_have_one_form): a message is accepted as a request, or as a
    response, exactly when it is the one form of a well-formed one. *)
Theorem task_messages_have_one_form w : message w ->
  (forall r, decode_task_request w = Some r <-> task_request_ok r /\ w = task_request_words r) /\
  (forall r, decode_task_response w = Some r <-> task_response_ok r /\ w = task_response_words r).
Proof. intros H. split; intros r; [by apply decode_request_spec|by apply decode_response_spec]. Qed.

(** ** Plans collected in chunks *)
(** C39 (plan_collection_is_equivalent): collecting a plan from the chunks the
    application serves accepts exactly the bytes, summary and command that the
    validation of a whole plan accepts, and yields the same candidate; neither
    panics. *)
Theorem plan_collection_is_equivalent storage b s e : summary_typed s -> edit_typed e -> bytes_ok b -> (length b <= MAX_BYTES)%nat -> (length b <= length storage)%nat ->
  match Plan_new b s e, collect_stream storage (length b) s e (chunk_stream (S (length b)) b 0) with
  | Ok p, Ok c => Plan_bytes p = b /\ Candidate_bytes c = b /\ cd_summary c = pl_summary p /\ cd_edit c = pl_edit p
  | Err e1, Err e2 => e1 = e2
  | _, _ => False
  end.
Proof.
  intros Hs He Hb Hm Hl. destruct (chunk_stream_spec (S (length b)) b 0 Hb Hm ltac:(lia)) as [Ec Hne]. rewrite drop_0 in Ec.
  pose proof (collect_stream_spec storage (length b) s e (chunk_stream (S (length b)) b 0) Hs He) as Hc. cbv zeta in Hc. rewrite Ec in Hc.
  destruct (Plan_new b s e) as [p|err|] eqn:Ep.
  - pose proof (proj1 (Plan_new_spec b s e p Hs He) Ep) as [Ha Epp]. destruct (collect_stream _ _ _ _ _) as [c|err|]; [|destruct Hc as [_ Hc]; by destruct Hc|done].
    destruct Hc as (_ & Eb & Es & Ee & _). rewrite Epp. split; [by apply stored_bytes|]. done.
  - assert (Hn : ~ acceptable b s e) by (intros Ha; pose proof (proj2 (Plan_new_spec b s e _ Hs He) (conj Ha eq_refl)) as E; congruence).
    destruct (collect_stream _ _ _ _ _) as [c|err'|]; [by destruct Hc as ((Ha & _) & _)| |done]. destruct Hc as [-> _].
    unfold Plan_new in Ep. destruct (validated_cases b s e Hs He) as [[E Ha]|[E _]]; [done|]. rewrite E in Ep. by injection Ep.
  - unfold Plan_new in Ep. destruct (validated_cases b s e Hs He) as [[E Ha]|[E _]]; rewrite E in Ep; [|done]. by rewrite (proj2 (Nat.ltb_ge _ _)) in Ep.
Qed.

(** ** The application's plan *)
Lemma row_bytes i : item_ok i -> bytes_ok (row_text i).
Proof.
  intros (Hid & _ & Ht). unfold row_text. assert (B : forall c, is_byte c -> bytes_ok [c]) by (intros; by apply list.Forall_singleton).
  apply list.Forall_app. split.
  - eapply list.Forall_impl; [exact (id_text_digits _ Hid)|]. cbn beta. intros x Hx. apply digit_range in Hx. unfold is_byte. lia.
  - apply Forall_cons_2; [by vm_compute|]. apply list.Forall_app. split; [by destruct (im_state i); apply bytes_ok_check|]. apply Forall_cons_2; [by vm_compute|].
    apply list.Forall_app. split; [by apply printable_bytes|]. apply Forall_cons_2; [by vm_compute|apply Forall_nil_2].
Qed.

Lemma doc_text_bytes l : items_ok l -> bytes_ok (doc_text l).
Proof.
  intros (H & _). unfold doc_text. apply list.Forall_app. split; [by apply bytes_ok_check|]. induction H as [|i l Hi _ IH]; [apply Forall_nil_2|]. cbn. apply list.Forall_app. split; [by apply row_bytes|done].
Qed.

(** C40 (application_plan_is_accepted): when the application plans a command over the
    document it read, it answers with the rows of the edited list and their
    summary, in order however long it is asked; it serves the candidate's chunks
    at every offset; and a client that collects them holds exactly the edited
    document, accepted for that command.  A command that cannot be carried out is
    answered with its error, and so is every later request. *)
Theorem application_plan_is_accepted info b l e : items_ok l -> edit_ok e -> number_ok (v_value (ri_version info)) -> source_bytes info b = Some (doc_text l) ->
  match edit_items l (edit_command e) with
  | Ok (l', id, changed) => let s := mkSummary (Z.of_nat (length l')) (v_value (ri_version info)) id changed in let text := doc_text l' in
      exists first st, preview_answer AppState_new e (Ok (info, b)) = Ok (first, st) /\
        (forall k, exists rest st', nexts k st = Ok (rest, st') /\ first :: rest = report l' s 0 (S k)) /\
        (forall offset, candidate_response st offset = match chunk text offset with None => wire_service 4 | Some c => response_words c end) /\
        (forall storage, (length text <= length storage)%nat -> exists c, collect_stream storage (length text) s e (chunk_stream (S (length text)) text 0) = Ok c /\
           Candidate_bytes c = text /\ cd_summary c = s /\ cd_edit c = e)
  | Err err => exists st, preview_answer AppState_new e (Ok (info, b)) = Ok (plan_response err, st) /\ forall k, nexts k st = Ok (replicate k (plan_response err), st)
  | Panic => False
  end.
Proof.
  intros H He Hv Hb. pose proof (preview_plan_spec (ri_version info) l e H He Hv) as Hp. unfold preview_answer. rewrite Hb. destruct (edit_items l (edit_command e)) as [[[l' id] changed]|err|]; [| |done].
  - destruct Hp as (p & -> & Hl' & (Et & _) & Ha). cbv zeta. set (s := mkSummary _ _ _ _) in *. set (st0 := mkAppState (Some (doc_of l')) 0 None (Some s) (Some p)).
    pose proof (nexts_report l' s p) as Hn. pose proof (Hn 0%nat 1%nat ltac:(lia)) as H1. cbn [nexts] in H1. unfold app_next in H1. cbn [as_failure as_document] in H1. fold st0 in H1.
    change (mkAppState (Some (doc_of l')) 0 (as_failure AppState_new) (Some s) (Some p)) with st0. destruct (next_response st0) as [[first st]|u|] eqn:En; [|done..]. injection H1 as H1 ->.
    exists first. eexists. split; [reflexivity|]. split; [|split].
    + intros k. pose proof (Hn 0%nat (S k) ltac:(lia)) as Hk. cbn [nexts] in Hk. unfold app_next in Hk at 1. cbn [as_failure as_document] in Hk. fold st0 in Hk. rewrite En in Hk. cbn beta iota in Hk.
      destruct (nexts k _) as [[rest st']|u|]; [|discriminate Hk..]. cbn beta iota in Hk. exists rest, st'. split; [done|]. congruence.
    + intros offset. unfold candidate_response. cbn [as_failure as_candidate]. by rewrite Et.
    + intros storage Hs. pose proof Ha as (Hso & _). destruct (chunk_stream_spec (S (length (doc_text l'))) (doc_text l') 0) as [Ec Hne]; [by apply doc_text_bytes|pose proof (doc_text_bound l' Hl'); unfold MAX_BYTES; lia|lia|]. rewrite drop_0 in Ec.
      pose proof (collect_stream_spec storage (length (doc_text l')) s e (chunk_stream (S (length (doc_text l'))) (doc_text l') 0) (summary_ok_typed _ Hso) (edit_ok_typed _ He)) as Hc. cbv zeta in Hc. rewrite Ec in Hc.
      rewrite Et in Ha. destruct (collect_stream _ _ _ _ _) as [c|err|]; [|destruct Hc as [_ Hc]; by destruct Hc|done]. exists c. by destruct Hc as (_ & Eb & Es & Ee & _).
  - rewrite Hp. unfold fail_with. eexists. split; [reflexivity|]. intros k. induction k as [|k IH]; [done|]. cbn [nexts]. unfold app_next at 1. cbn [as_failure]. cbn beta iota. by rewrite IH.
Qed.

(** ** The recovery record *)
(** C23 (intent_records_are_canonical): every submission has one record, which decodes
    to itself, asks for exactly that submission at any later journal version, and
    recognises a receipt exactly when it is that submission's; and bytes decode
    only if they are the record of some submission. *)
Theorem intent_records_are_canonical `{DigestLaws} :
  (forall c, contents_ok c -> exists i, intent_of c = Ok i /\ Intent_decode (Intent_encoded i) = Ok i /\ Intent_candidate i = ic_candidate c /\ Intent_task_id i = ic_task c /\
     (forall key, Intent_request i key = if key <=? v_value (ic_version c) then Err FInvalid else Ok (contents_request c key)) /\
     (forall key o, Intent_matches i key o = true <-> receipt_of c key o)) /\
  (forall b i, bytes_ok b -> Intent_decode b = Ok i -> b = Intent_encoded i /\ exists c, contents_ok c /\ intent_of c = Ok i).
Proof.
  split; [|exact Intent_decode_spec]. intros c Hc. destruct (Intent_new_holds c Hc) as (i & Hi & Hh). exists i. split; [done|]. split; [by eapply Intent_round|]. split; [by apply Intent_candidate_spec|].
  split; [by apply Intent_task_spec|]. split; [intros key; by apply Intent_request_spec|]. intros key o. by apply Intent_matches_spec.
Qed.

(** ** Submitting and recovering *)
(** C8 (edit_submission_keeps_the_rules): whatever the services answer, applying an
    accepted candidate follows the rules of the journal at every call: the record
    is created and written only where none was, the one submission happens only
    after the record was read back, over a target whose whole content was read at
    the expected version, and the record is emptied only when the submission was
    refused or its effect is proved.  It ends without effect, with the proved
    effect and an empty record, or with the record of the attempt left behind;
    and wherever the run is cut, a submission is covered by its record. *)
Theorem edit_submission_keeps_the_rules `{DigestLaws} record target c : acceptable (Candidate_bytes c) (cd_summary c) (cd_edit c) ->
  wp (HW := logged (apply_rule record target)) (apply_candidate record target c) [] (applied record c) /\
  forall p log, reaches (HW := logged (apply_rule record target)) (apply_candidate record target c) [] p log -> guarded_log record log.
Proof.
  intros Hc. pose proof (apply_candidate_wp record target c Hc) as Hw. split; [done|]. intros p log. apply (guarded_reaches record target _ _ _ _ _ Hw). by split.
Qed.

(** C20 (recovery_never_submits): recovering an interrupted edit sends no submission
    and creates or writes no file but to empty the record, which it does only when
    the record was loaded, the receipt found is that record's own and the bytes it
    names were read back; it reports that effect, or leaves the record as it was. *)
Theorem recovery_never_submits `{DigestLaws} record : wp (HW := logged (recover_rule record)) (recover record) [] (recovered record).
Proof. apply recover_wp. Qed.

(** C10 (planned_edits_submit_once_on_the_wire): an application that plans an edit
    through the relay and applies it with the SDK's client, over any file service,
    relay and clock: the whole run sends at most one replacement commit, in the one
    submission of a candidate that shows the edit and was covered by its record,
    and every other request belongs to the calls the rules allow. *)
Theorem planned_edits_submit_once_on_the_wire `{DigestLaws} client turns record cwd path e : edit_typed e ->
  wp (interp (perform client) (apply turns record cwd path e)) [] (fun r w => (sent REPLACE_COMMIT w <= 1)%nat /\
    exists log, carries log w /\
      ((is_ok r = false /\ submitted log = false /\ erased log = false) \/
       exists c, acceptable (Candidate_bytes c) (cd_summary c) (cd_edit c) /\ cd_edit c = e /\ applied record c r log)).
Proof.
  intros He. eapply wp_weaken; [eapply (carried client (plan_rule record)); [|by apply apply_wp]|].
  - intros log r b (target & Hs & _). done.
  - intros r w (log & Hq & Hc). split; [destruct Hc as [_ Hc]; destruct (submitted log); lia|]. by exists log.
Qed.

(** A recovery over the SDK's client sends no
    request of a replacement, whatever any service answers. *)
Theorem recovery_sends_no_replacement `{DigestLaws} client record :
  wp (interp (perform client) (recover record)) [] (fun r w => Forall (fun x => forall op, op ∈ REPLACE_COMMIT :: staging -> sends_op op x = false) w /\
    exists log, carries log w /\ recovered record r log).
Proof.
  eapply wp_weaken; [eapply (carried client (recover_rule record)); [done|apply recover_wp]|]. intros r w (log & Hq & Hc). split; [|by exists log]. apply (carries_nothing log w Hc). apply Hq.
Qed.

(** Every call the tasks client makes is carried
    out by the SDK's client over any peer: it ends without a panic, sends only the
    requests of that call, at most one commit, and only when it is the submission,
    and what it returns fits the question that was asked. *)
Theorem owner_calls_keep_their_promise `{Digest} client (call : TaskCall) w : wp (perform client call) w (performed call w).
Proof. by apply perform_wp. Qed.

(** ** A concrete document and client *)
Definition sample_items : list Item := [mkItem 1 TOpen [97; 98]].
Definition sample_edit : Edit := EdDone 1.
Definition sample_done : list Item := [mkItem 1 TDone [97; 98]].
Definition sample_summary : Summary := mkSummary 1 3 1 true.

Lemma sample_items_ok : items_ok sample_items /\ items_ok sample_done.
Proof.
  assert (H : forall s, items_ok [mkItem 1 s [97; 98]]).
  { intros s. split; [|split; [|cbn; unfold MAX_TASKS; lia]].
    - apply list.Forall_singleton. split; [cbn; unfold u32_max; lia|]. split; [cbn; unfold MAX_TITLE; lia|]. repeat (apply Forall_cons_2; [done|]). apply Forall_nil_2.
    - apply (bool_decide_unpack _). vm_compute. exact I. }
  split; apply H.
Qed.

Lemma sample_edit_ok : edit_ok sample_edit.
Proof. cbn. unfold u32_max. lia. Qed.

Lemma sample_acceptable : acceptable (doc_text sample_done) sample_summary sample_edit.
Proof.
  split; [unfold summary_ok; cbn; unfold MAX_TASKS, u64_max, u32_max; lia|]. split; [exact sample_edit_ok|]. exists sample_done. split; [apply sample_items_ok|]. split; [done|]. split; [done|]. split; [done|].
  exists (mkItem 1 TDone [97; 98]). split; [by left|done].
Qed.

Definition sample_candidate : Candidate := mkCandidate (doc_text sample_done) (length (doc_text sample_done)) sample_summary sample_edit.
Definition sample_read_info : ReadInfo :=
  let w := mkWorkspace fs_lineage 2 in
  mkReadInfo (mkReferences w (mkResource w 5)) (mkVersion 3) (Z.of_nat (length (doc_text sample_items))) 0 (Z.of_nat (length (doc_text sample_items))) (zeros 32) true (mkEpoch 1).

Lemma task_messages_have_one_form_witness : message wire_capacity /\ decode_task_response wire_capacity = Some CapacityResponse.
Proof.
  assert (H : message wire_capacity) by (split; [reflexivity|unfold wire_capacity; repeat (apply Forall_cons_2; [unfold fits, WIRE_CAPACITY; lia|]); apply Forall_nil_2]). split; [exact H|].
  destruct (task_messages_have_one_form wire_capacity H) as [_ Hr]. apply Hr. split; reflexivity.
Defined.

Lemma sample_sizes : bytes_ok (doc_text sample_done) /\ (length (doc_text sample_done) <= MAX_BYTES)%nat.
Proof. split; [by apply bytes_ok_check|]. apply Nat.leb_le. vm_compute. reflexivity. Qed.

Lemma sample_storage : (length (doc_text sample_done) <= length (zeros MAX_BYTES))%nat.
Proof. apply Nat.leb_le. vm_compute. reflexivity. Qed.

Lemma plan_collection_is_equivalent_witness : exists c, collect_stream (zeros MAX_BYTES) (length (doc_text sample_done)) sample_summary sample_edit (chunk_stream (S (length (doc_text sample_done))) (doc_text sample_done) 0) = Ok c /\
  Candidate_bytes c = doc_text sample_done.
Proof.
  pose proof (plan_collection_is_equivalent (zeros MAX_BYTES) (doc_text sample_done) sample_summary sample_edit (summary_ok_typed _ (proj1 sample_acceptable)) (edit_ok_typed _ sample_edit_ok)
    (proj1 sample_sizes) (proj2 sample_sizes) sample_storage) as H.
  assert (Hp : is_ok (Plan_new (doc_text sample_done) sample_summary sample_edit) = true) by (vm_compute; reflexivity).
  destruct (Plan_new _ _ _) as [p|err|]; [|discriminate Hp..]. destruct (collect_stream _ _ _ _ _) as [c|err|]; [|contradiction H..]. exists c. exact (conj eq_refl (proj1 (proj2 H))).
Defined.

Lemma application_plan_is_accepted_witness : exists first st, preview_answer AppState_new sample_edit (Ok (sample_read_info, doc_text sample_items)) = Ok (first, st) /\
  exists rest st', nexts 2 st = Ok (rest, st') /\ first :: rest = report sample_done (mkSummary 1 3 1 true) 0 3.
Proof.
  pose proof (application_plan_is_accepted sample_read_info (doc_text sample_items) sample_items sample_edit (proj1 sample_items_ok) sample_edit_ok ltac:(split; [discriminate|by vm_compute]) ltac:(vm_compute; reflexivity)) as H.
  cbn in H. destruct H as (first & st & E & Hn & _). exists first, st. split; [exact E|]. destruct (Hn 2%nat) as (rest & st' & E2 & E3). exists rest, st'. exact (conj E2 E3).
Defined.

(** ** A concrete file service for the tasks client

    Its state is the record and the target, each a version and its bytes. *)
Record Files := mkFiles { fl_record : Z * list Z; fl_target : Z * list Z }.

Definition sample_references (object : Z) : References := let w := mkWorkspace fs_lineage 2 in mkReferences w (mkResource w object).
Definition sample_metadata (id : Z) (f : Z * list Z) : Metadata := mkMetadata id 2 f.1 (Z.of_nat (length f.2)) false 2 0 (zeros 32) 0.
Definition sample_file (s : Files) (object : Z) : option (Z * list Z) := if object =? 9 then Some (fl_record s) else if object =? 5 then Some (fl_target s) else None.
Definition sample_receipt (q : Replacement) (b : list Z) : FileOperation :=
  mkFileOperation (mkOperationId fs_lineage 7) (mkInstance (mkOperationId fs_lineage 2)) (rp_workspace q) (rp_resource q) (rp_expected q) (mkVersion 7) (Z.of_nat (length b)) (rp_retry q) (sha256 b).

(** A range read, refused unless it is of a current version. *)
Definition sample_content (s : Files) (q : ReadRequest) : outcome FileError (ReadInfo * list Z) :=
  match sample_file s (rs_object (rr_resource q)) with
  | Some (version, b) =>
    if bool_decide (rr_expected q = Some (mkVersion version)) && (rr_offset q =? 0) && (length b <=? INTENT_BYTES)%nat && bool_decide (Forall (fun x => 0 <= x < 256) b)
       && bool_decide (number_ok version)
    then Ok (mkReadInfo (mkReferences (rr_workspace q) (rr_resource q)) (mkVersion version) (Z.of_nat (length b)) 0 (Z.of_nat (length b)) (sha256 b) true (mkEpoch 1),
             b ++ zeros (INTENT_BYTES - length b))
    else Err FVersion
  | None => Err FNotFound
  end.

Definition answer_call (call : TaskCall) (s : Files) : reply call * Files :=
  match call return reply call * Files with
  | CResolve _ _ => (Err FNotFound, s)
  | CLookup _ _ | CCreate _ _ _ => (Err FNotFound, s)
  | CStat id => (match sample_file s id with Some f => Ok (sample_metadata id f) | None => Err FNotFound end, s)
  | CReplace id version b =>
    if (id =? 9) && (version =? (fl_record s).1) then let f := (version + 2, b) in (Ok (sample_metadata 9 f), mkFiles f (fl_target s)) else (Err FVersion, s)
  | CReferences workspace object => (if (workspace =? 2) && ((object =? 5) || (object =? 9)) then Ok (sample_references object) else Err FNotFound, s)
  | CReadRange q => (sample_content s q, s)
  | CReplaceFile q b => if rs_object (rp_resource q) =? 5 then (Ok (sample_receipt q b), mkFiles (fl_record s) (7, b)) else (Err FNotFound, s)
  | COperationGet (LookupRetry w retry) =>
    (if (fl_target s).1 =? 7 then Ok (sample_receipt (mkReplacement w (mkResource w 5) (mkVersion 3) retry) (fl_target s).2) else Err FNotFound, s)
  | COperationGet (LookupId _) => (Err FNotFound, s)
  | CCapabilities => (Ok (mkCapabilities (replicate METHODS Available) (mkBounds 40 1 1)), s)
  | CNote _ => (tt, s)
  | CControl _ | CFinish _ => (Err (EService 4), s)
  | CClock => (0, s)
  | CProgress => (Ok tt, s)
  end.

Lemma sample_content_ok s q info b : sample_content s q = Ok (info, b) -> info_ok q info b.
Proof.
  unfold sample_content. destruct (sample_file s _) as [[version f]|]; [|discriminate]. destruct (_ && _) eqn:E; [|discriminate]. intros H. injection H as <- <-.
  rewrite !andb_true_iff, !bool_decide_eq_true, Nat.leb_le in E. destruct E as ((((Ev & _) & Hl) & Hf) & Hn). unfold info_ok. cbn [ri_references ri_version ri_epoch ri_length].
  split; [done|]. split; [intros v Hv; by rewrite Ev in Hv; injection Hv as <-|]. split; [done|]. split; [split; [done|by vm_compute]|].
  split; [unfold zeros; rewrite length_app, length_replicate; lia|]. split; [|lia]. apply list.Forall_app. split; [done|]. apply bytes_ok_zeros.
Qed.

Lemma sample_references_ok object : object <> 0 -> fits 32 object -> identities_ok (sample_references object).
Proof. intros Hz Hf. split; [exact (proj1 sample_replacement_ok)|by split]. Qed.

Lemma answer_call_promised call s : promised call (answer_call call s).1.
Proof.
  destruct call; cbn [promised answer_call fst]; try done.
  - destruct ((_ =? 2) && _) eqn:E; [|done]. rewrite andb_true_iff, orb_true_iff, !Z.eqb_eq in E. destruct E as [-> [-> | ->]]; (split; [by apply sample_references_ok|done]).
  - destruct (sample_content s r) as [[info b]|e|] eqn:E; [|done..]. by apply (sample_content_ok s).
  - destruct (_ =? 5); [|done]. cbn [fst]. unfold receipt_agrees, sample_receipt. cbn [fo_workspace fo_resource fo_retry fo_previous fo_size fo_sha256]. rewrite Z.eqb_refl. by rewrite !bool_decide_eq_true_2.
  - destruct l as [w retry|id]; [|done]. destruct (_ =? 7); [|done]. cbn. by rewrite !bool_decide_eq_true_2.
Qed.

(** The run keeps its log beside the files. *)
Definition answer_logged (call : TaskCall) (s : Files * Log) : reply call * (Files * Log) :=
  let '(r, f) := answer_call call s.1 in (r, (f, s.2 ++ [event call r])).

Lemma answer_logged_allowed rule (w : Log) (s : Files * Log) call : w = s.2 -> exists w', answers (World := logged rule) w call (answer_logged call s).1 w' /\ w' = (answer_logged call s).2.2.
Proof.
  intros ->. exists (answer_logged call s).2.2. split; [|done]. pose proof (answer_call_promised call s.1) as H. unfold answer_logged. destruct (answer_call call s.1) as [r f]. by split.
Qed.

Definition sample_files : Files := mkFiles (4, []) (3, doc_text sample_items).
#[local] Abbreviation sample_edit_run := (run answer_logged (apply_candidate (RecordObject 9) 5 sample_candidate) (sample_files, [])).

Definition committed_task (r : outcome ClientError Applied) : option Committed := match r with Ok (AppliedCommitted c) => Some c | _ => None end.

Lemma sample_edit_commits : committed_task sample_edit_run.1 = Some (mkCommitted 1 (mkVersion 7) 6) /\ submitted sample_edit_run.2.2 = true.
Proof. split; vm_compute; reflexivity. Qed.

(** The edit is carried out: its effect is proved and the record emptied. *)
Lemma edit_submission_keeps_the_rules_witness : exists saved i, Intent_candidate i = Candidate_bytes sample_candidate /\ concluded (RecordObject 9) sample_edit_run.2.2 saved i (mkCommitted 1 (mkVersion 7) 6).
Proof.
  pose proof (proj1 sample_edit_commits) as Hc.
  destruct (edit_submission_keeps_the_rules (RecordObject 9) 5 sample_candidate sample_acceptable) as [H _].
  destruct (wp_run (HW := logged (apply_rule (RecordObject 9) 5)) answer_logged (fun w s => w = s.2) _ _ _ _ (fun w s e Hw _ => answer_logged_allowed _ w s e Hw) (eq_refl : [] = (sample_files, []).2) H) as (w & Hq & Ew).
  destruct sample_edit_run.1 as [[t v|c]|e|]; cbn [committed_task] in Hc; [discriminate Hc| |discriminate Hc..]. injection Hc as ->. rewrite <- Ew. exact Hq.
Defined.

(** An edit was published but its answer lost: the record holds it, and recovery
    finds its receipt and empties the record. *)
Definition interrupted_files : outcome FileError Files :=
  let? i := Intent_new (sample_references 5) (mkVersion 3) (mkEpoch 1) sample_edit 1 (doc_text sample_done) in
  Ok (mkFiles (6, Intent_encoded i) (7, doc_text sample_done)).
Definition sample_recovery (s : Files) : outcome ClientError Recovery * (Files * Log) := run answer_logged (recover (RecordObject 9)) (s, []).

Definition recovered_task (r : outcome ClientError Recovery) : option Committed := match r with Ok (Recovered c) => Some c | _ => None end.

Lemma sample_recovers : match interrupted_files with Ok s => recovered_task (sample_recovery s).1 | _ => None end = Some (mkCommitted 1 (mkVersion 7) 6).
Proof. vm_compute. reflexivity. Qed.

Lemma recovery_never_submits_witness : exists s, interrupted_files = Ok s /\ recovered (RecordObject 9) (Ok (Recovered (mkCommitted 1 (mkVersion 7) 6))) (sample_recovery s).2.2.
Proof.
  pose proof sample_recovers as Hc. destruct interrupted_files as [s|e|]; [|discriminate Hc..]. exists s. split; [reflexivity|]. pose proof (recovery_never_submits (RecordObject 9)) as H.
  destruct (wp_run (HW := logged (recover_rule (RecordObject 9))) answer_logged (fun w s => w = s.2) _ _ _ _ (fun w s e Hw _ => answer_logged_allowed _ w s e Hw) (eq_refl : [] = (s, []).2) H) as (w & Hq & Ew).
  fold (sample_recovery s) in Hq, Ew. destruct (sample_recovery s).1 as [[|c]|e|]; cbn [recovered_task] in Hc; [discriminate Hc| |discriminate Hc..]. injection Hc as ->. rewrite <- Ew. exact Hq.
Defined.

(** The record of that edit. *)
Definition sample_contents : Contents := mkContents (sample_references 5) (mkVersion 3) (mkEpoch 1) sample_edit 1 (doc_text sample_done).
Lemma sample_contents_ok : contents_ok sample_contents.
Proof.
  pose proof sample_replacement_ok as [Hw _]. split; [exact Hw|done|by split|by split|by split|exact sample_edit_ok|by split|]. exists sample_done. split; [apply sample_items_ok|done].
Qed.

Lemma intent_records_are_canonical_witness : exists i, intent_of sample_contents = Ok i /\ Intent_decode (Intent_encoded i) = Ok i /\ Intent_request i 6 = Ok (contents_request sample_contents 6).
Proof.
  destruct intent_records_are_canonical as [H _]. destruct (H sample_contents sample_contents_ok) as (i & Hi & Hd & _ & _ & Hr & _). exists i. split; [exact Hi|]. split; [exact Hd|]. exact (Hr 6).
Defined.

Lemma planned_edits_submit_once_on_the_wire_witness : wp (interp (perform sample_client) (apply 3 (RecordObject 9) 0 [97] sample_edit)) [] (fun _ w => (sent REPLACE_COMMIT w <= 1)%nat).
Proof.
  refine (wp_weaken _ _ _ _ (planned_edits_submit_once_on_the_wire sample_client 3 (RecordObject 9) 0 [97] sample_edit (edit_ok_typed _ sample_edit_ok)) _). intros r w [H _]. exact H.
Defined.
